(* ===== verification/_CoqProject ===== *)
-Q . S2P
Prelude.v
Util.v
Crypto.v
Protocol.v
Ipv4.v
Rate.v
Session.v
Open.v
Echo.v
Uplink.v
Evolve.v
Auth.v
PumpSend.v
Pump.v
ProtoParse.v
Route.v
PumpRun.v
Http.v
HttpResp.v
Lockout.v
Flow.v
FlowInv.v
FlowFeed.v
DnsMsg.v
Dns.v
Json.v
OidcText.v
Jwt.v
Double.v
Oidc.v
Cli.v
OidcPath.v
OidcSave.v
OidcConfig.v
OidcSelect.v
OidcConnect.v
OidcMain.v
