(* ===== verification/Prelude.v ===== *)
(** * A verification library for ustc-iwan-c

    The program is a small VPN.  A client logs in to a server with one signed datagram and
    its answer, then both exchange IP packets in datagrams that carry a session id, a token
    and an XOR-encrypted payload.  On the client side the tunnel ends in a TUN device or in
    a user-space TCP/IP stack behind a SOCKS5 and HTTP proxy.  A separate login obtains the
    password over HTTPS.  The sources are under src/src/common; file names below are in that
    directory unless they carry a path.

    ** Parts and files

    - [Prelude]: faults and the result monad, checked reads and writes of byte buffers,
      machine integers, C strings, and the tactics, hints and list lemmas all files share.
    - [Util] (util.c, util.h, buffer.c): capacity growth, growable buffers, strict number
      scanners, environment rules, comma-separated lists, the pacing bucket.
    - [Crypto] (crypto.c, gcm.c): password and session keys, the XOR stream, constant-time
      comparison, hex and base64url.  OpenSSL is the class [OpenSSL] with the laws
      [OpenSSLLaws].
    - [Protocol] (protocol.c): frame headers, signatures, the TLV iterator, addresses.
    - [Ipv4] (ipv4.c): checksums and the packet gates.
    - [Rate] (server_rate.c): the per-source limiter with its shards and gates.
    - [Session] (server.c, server.h, iwan_server.c): the session table, its index, the token
      guess budgets, idle expiry, the downlink path, server start.
    - [Open] (server.c, handle_open): the login request on the server.
    - [Echo] (server.c): the --no-tun mirror.
    - [Uplink] (server.c, handle_udp): the datagram handler, with the other threads of the
      server as the function [gap] applied wherever the code releases its lock.
    - [Evolve]: what happens to one session over handled datagrams and purges, one at a time and
      in runs.
    - [Auth] (auth.c): the login request, its answer and the retry loop on the client.
    - [PumpSend], [Pump] (proxy.c, udp_send.c): the packet pump of the client.  Batches of
      frames and the segment-size option of the session socket, with the kernel behind it as
      a machine that replays the calls (class [Udp]); the reader callback and the downlink
      thread [udp2tun_thread].
    - [ProtoParse] (proto_parse.c): the pure parsers of the two proxies.  inet_pton is the
      class [Inet].
    - [Route] (route_common.c, route_linux.c, proxy.c): route texts, the expansion of route
      targets, and the ip commands that bring the tunnel up and down.  The tool is the class
      [Ip]; [IpLaws] says what its commands do to the routing table.
    - [PumpRun] (proxy.c, run_pump): a session from the route targets to its return code.
    - [Http], [HttpResp] (http_parser.c, https.c): HTTP messages and the response reader.
    - [Lockout] (lockout.c, socks_auth_guard.c, relay_proxy.c): the failed-login table.
    - [Flow] (socks_flow.c, socks_dns.c, socks.c, lwip_bridge.c): the client flows of the
      proxy, the connection slots they hold and the handlers of the event loop.
    - [FlowInv]: the invariants of the proxy over every interleaving of its handlers and of new
      sessions of the tunnel.
    - [FlowFeed]: the handshake of a flow on a stream cut into segments.
    - [DnsMsg], [Dns] (socks_dns.c): queries and answers of the proxy's resolver; its
      threads, the table of outstanding queries and the ring of results, one lock section at
      a time.  [Dns.expected] names what the theorem on results assumes of a run.
    - [Json] (json.c): the parser, the tree and its paths, the escaper; the grammar it accepts.
    - [OidcText] (src/src/oidc/oidc_util.c, oidc_select.c): percent-encoding, query
      parameters, the filter for text that reaches a terminal, the state file.
    - [Jwt] (src/src/oidc/oidc_jwt.c): the check of identity tokens.  RSA is the class [Rsa].
    - [Oidc] (src/src/oidc/oidc_flow.c): the browser login and the signed requests to the
      controller, over the record [Env] of what comes from outside.
    - [Double]: the comparisons and casts of doubles that the checks of ports use.
    - [Cli] (cli.c): the option parser over a table of options.
    - [OidcPath], [OidcSave] (src/src/oidc/oidc_config.c): the canonical form of a path; storing
      the list of servers, as a program of system calls.  The record [OS] answers a call from the
      log of all calls before it, so that it can stand for any other process at work on the
      same files.
    - [OidcConfig] (src/src/oidc/oidc_config.c, oidc_pwsecret.c): fetching the list from the
      controller and loading the stored one.
    - [OidcSelect] (src/src/oidc/oidc_select.c, oidc_connect.c): showing the list, finding an
      entry, the stored password.
    - [OidcConnect] (src/src/oidc/oidc_connect.c, cli_common.c, addr.c, tun.h): a connection
      from the choice of an entry to the end of its reconnect loop, as a sequence of events on
      devices, sockets and handlers.
    - [OidcMain] (src/src/iwan_client_oidc.c, src/src/oidc/oidc_cli.c, config.c): the OIDC client from its
      argument list to its exit code.

    A C struct is a record with the fields the code uses, a C enum an inductive type, an
    array a list, a lookup table that starts zeroed a finite map.  Bytes are integers below
    256 and buffers lists of them; a read outside a buffer is the value
    [Fault OutOfBounds], so a theorem whose conclusion is [Ret] is also a theorem about
    memory safety.  Integers that wrap are wrapped by [u8], [u16], [u32] and [u64] where the
    code wraps them.  A handler maps the state and the answers of the operating system to
    the new state and what it sent; clocks, random numbers, socket and TUN results are
    parameters.

    ** What the theorems show

    - Server.  [Uplink.handle_udp_refines]: every datagram, under any interference of other
      threads, is handled by guarded steps of an abstract session machine.
      [Uplink.reachable_well_formed], [Evolve.session_evolution]: the table stays well
      formed, and a live session that the other threads leave alone changes only by its own
      rules.  [Uplink.uplink_authentic],
      [Open.open_authenticates], [Open.open_takeover_guarded], [Uplink.close_exact],
      [Session.downlink_reaches_owner]: who can put packets into the tunnel, obtain, take
      over or end a session, and who receives its packets.  [Evolve.guess_budget] bounds
      the token guesses by DATA frames; [Open.open_available] and [Uplink.bound_peer_delivers] say
      what becomes of the frames of the rightful client, with no part for the guesses of others.
    - Client.  [Auth.client_server_agree] composes both sides of the login;
      [Auth.parse_ack_sound] and [Auth.do_auth_bounded] hold for any answers.
    - Tunnel.  [Pump.tunnel_transparent] composes client and server: packets leave the other
      end as they entered, if they pass the gates and nothing stops, throttles or refuses
      them.  [Pump.uplink_conserved], [PumpSend.frames_leave_whole]: no packet is
      lost, reordered or cut between device and socket while nothing fails ([PumpSend.steady]).
      [Pump.downlink_safe], [Pump.silence_ends_session]: what the client takes from the
      network, and when it gives a session up.  [Route.targets_exact]: what a route target
      means.  [PumpRun.session_safe]: every session returns; on a machine as [PumpRun.ready]
      describes, the routing table is left as it was found, whatever happens during it.
    - Formats.  Exactness and round trips of frames, TLVs, checksums, SOCKS and HTTP
      handshakes and HTTP responses, among them [Http.read_frame_exact]: the incremental
      reader agrees with one that frames everything received afresh after each read, unless
      the end of the header block moves or its lines are folded.
    - Proxy.  [FlowInv.proxy_trace]: nothing is opened for a client that has not logged in
      or to a destination the gate refuses.  [FlowInv.slot_exclusive]: a connection slot
      belongs to one flow, over any handlers and over rebuilds of the stack that retire no flow.  [FlowInv.inputs_total]: any input is handled safely.
      [FlowFeed.segmentation_independent]: segmentation does not matter.
      [Lockout.lockout_refines]: the failure table is a bounded map.
      [DnsMsg.dns_response_exact]: which packets are taken as answers to a lookup.
      [Dns.dns_results_conserved]: in an expected run every lookup gives one result, whatever
      the order in which answer, timeout and the end of the session arrive, and the results
      that no drain handed out are in the ring or were dropped by it; [Dns.dns_ring_refines]: the
      ring is a bounded queue.
    - Browser login.  [Json.json_parse_exact]: the parser accepts exactly the documents of its
      grammar.  [Jwt.jwt_verify_exact]: which identity tokens are accepted.
      [Oidc.login_exact]: which answers of the user and the token server log in, what was sent
      by then, and that no file is left.  [Oidc.ctrl_request_exact]: what a signed request
      holds.  [Json.json_escape_roundtrip], [OidcText.url_param_exact] and
      [OidcText.printable_exact]: remote text can neither change a document or an
      address it is embedded in nor control a terminal.
    - List of servers.  [OidcConfig.fetch_exact] and [OidcConfig.load_exact]: what is
      fetched is what is stored and loaded, whatever the texts of the controller contain.
      [OidcPath.normalize_exact]: paths mean what component-wise resolution says.
      [OidcSave.save_safe]: what a save does to the file system and in which order, with any
      other process in between; of a name with a backslash the code takes a part for the
      directory, and the theorem says so.  [OidcSelect.find_exact] and [OidcSelect.print_exact]: which entry
      a specification selects, and what the list shows.  [OidcConnect.connect_safe]: the life
      cycle of a connection, and that each session runs under what the server accepted for
      the chosen entry.  [Cli.parse_exact]: which command lines are accepted and what they set.
      [OidcMain.main_safe]: what the program does for every command line, also when the
      cryptography cannot be set up.
    - Flaws.  [Open.aes_failure_accepts_no_password], [Uplink.late_clock_reopens_budget],
      [Uplink.close_guess_uncharged], [Http.framing_rules_differ],
      [Http.te_fold_faults], [HttpResp.chunk_leading_newline], [FlowInv.reauth_shares_slot],
      [Pump.plain_session_garbled], [PumpSend.failed_rearm_cuts_frames],
      [PumpSend.partial_unit_sent_twice], [PumpRun.RunDemo.other_default_lost] and
      [PumpRun.RunDemo.zero_prefix_lost] exhibit runs in which the code does not do what it means
      to do.

    ** Fuel

    Loops whose recursion is not structural take fuel.  The fuel is the length of the data
    scanned ([hdr_scan], [te_header_loop], [parse_tlvs]), the size of the table probed
    ([find_loop], [probe_loop]), a bound on the nodes a text can hold ([parse_value], twice its
    length) or a list of the answers the loop consumes ([auth_loop],
    [https_tls_read], [mint_token], the ticks of [batch_loop] and [watch]); the totality theorems show that [OutOfFuel] is not
    reached.  [process_socks_handshake] makes three passes because the code does.

    ** Not modelled

    Device, socket, thread and process handling (tun.c, port.c, the threads of relay_proxy.c,
    the event loop of socks.c around its handlers), TLS connections (https.c apart from the
    reader), the third-party TCP/IP stack under src/third_party, and the two other main
    programs: their effects are in the operating system or in code outside the sources.  In
    [OidcConnect] a session of the pump and the SOCKS engine are the code they return.  Of
    conditional code the POSIX build is modelled: not the Windows pump, not the Windows and macOS
    versions of the route commands (route.c) and of the password store, and not the
    re-execution under sudo.  Logging, profiling counters and error texts are left out
    everywhere. *)

From Stdlib Require Export ZArith Lia.
From Stdlib Require Import Ascii String.
From stdpp Require Export base numbers list gmap.
Export String.StringSyntax.

#[global] Open Scope Z_scope.

(** ** Faults: what a C function can do besides returning

    [OutOfBounds] is a read outside the object the pointer designates,
    [Aborted] is [abort]/[oom_abort], [OutOfFuel] is a loop that did not end
    within the fuel given to its model (every theorem about a loop excludes it). *)
Inductive fault :=
| OutOfBounds
| Aborted
| OutOfFuel.

Inductive res (A : Type) :=
| Ret (a : A)
| Fault (f : fault).
Arguments Ret {A} a.
Arguments Fault {A} f.

#[global] Instance fault_eq_dec : EqDecision fault.
Proof. solve_decision. Defined.

#[global] Instance res_eq_dec {A} `{EqDecision A} : EqDecision (res A).
Proof. solve_decision. Defined.

Definition rbind {A B} (m : res A) (k : A -> res B) : res B :=
  match m with
  | Ret a => k a
  | Fault f => Fault f
  end.

Declare Scope iwan_scope.
Delimit Scope iwan_scope with iwan.
#[global] Open Scope iwan_scope.

Notation "'let!' x ':=' m 'in' k" := (rbind m (fun x => k))
  (at level 10, x pattern, m at level 100, k at level 200) : iwan_scope.

(** [no_fault m]: the computation returns a value. *)
Definition no_fault {A} (m : res A) : Prop := exists a, m = Ret a.

Lemma no_fault_ret {A} (a : A) : no_fault (Ret a).
Proof. by exists a. Qed.

Lemma no_fault_bind {A B} (m : res A) (k : A -> res B) :
  no_fault m -> (forall a, m = Ret a -> no_fault (k a)) -> no_fault (rbind m k).
Proof. intros [a ->] H. apply H. done. Qed.

Lemma rbind_ret_inv {A B} (m : res A) (k : A -> res B) b :
  rbind m k = Ret b -> exists a, m = Ret a /\ k a = Ret b.
Proof. destruct m; cbn; [eauto | discriminate]. Qed.

(** Injectivity without unfolding the values. *)
Lemma ret_inj {A} (a b : A) : Ret a = Ret b -> a = b.
Proof. by intros [= ->]. Qed.
Lemma ret_pair_inv {A B} (a a' : A) (b b' : B) : Ret (a, b) = Ret (a', b') -> a = a' /\ b = b'.
Proof. by intros [= -> ->]. Qed.

Lemma some_pair_inv {A B} (a a' : A) (b b' : B) : Some (a, b) = Some (a', b') -> a = a' /\ b = b'.
Proof. by intros [= -> ->]. Qed.

Lemma rbind_assoc {A B C} (m : res A) (f : A -> res B) (g : B -> res C) :
  rbind (rbind m f) g = rbind m (fun a => rbind (f a) g).
Proof. by destruct m. Qed.

(** ** Machine integers

    An unsigned w-bit integer is a [Z] in [0, 2^w); the [uN] functions are the
    conversions (casts, and the wrap-around of unsigned arithmetic). *)
Definition u8 (x : Z) : Z := x mod 2 ^ 8.
Definition u16 (x : Z) : Z := x mod 2 ^ 16.
Definition u32 (x : Z) : Z := x mod 2 ^ 32.
Definition u64 (x : Z) : Z := x mod 2 ^ 64.

Definition SIZE_MAX : Z := 2 ^ 64 - 1.
Definition UINT64_MAX : Z := 2 ^ 64 - 1.

Lemma u8_range x : 0 <= u8 x < 256.
Proof. unfold u8. change 256 with (2 ^ 8). apply Z.mod_pos_bound. lia. Qed.
Lemma u16_range x : 0 <= u16 x < 65536.
Proof. unfold u16. change 65536 with (2 ^ 16). apply Z.mod_pos_bound. lia. Qed.
Lemma u32_range x : 0 <= u32 x < 2 ^ 32.
Proof. apply Z.mod_pos_bound. lia. Qed.
Lemma u64_range x : 0 <= u64 x < 2 ^ 64.
Proof. apply Z.mod_pos_bound. lia. Qed.

Lemma u8_small x : 0 <= x < 256 -> u8 x = x.
Proof. intros. unfold u8. apply Z.mod_small. lia. Qed.
Lemma u16_small x : 0 <= x < 65536 -> u16 x = x.
Proof. intros. unfold u16. apply Z.mod_small. lia. Qed.
Lemma u32_small x : 0 <= x < 2 ^ 32 -> u32 x = x.
Proof. intros. unfold u32. apply Z.mod_small. lia. Qed.
Lemma u64_small x : 0 <= x < 2 ^ 64 -> u64 x = x.
Proof. intros. unfold u64. apply Z.mod_small. lia. Qed.

(** ** Bytes and buffers

    A byte is a [Z] in [0, 256).  A buffer argument [(const uint8_t *p, size_t n)]
    is the list of its [n] bytes: reading at an index outside [0, n) is
    [OutOfBounds], so a memory-safety theorem is about the tightest object the
    caller may pass. *)
Abbreviation bytes := (list Z).

Definition is_byte (b : Z) : Prop := 0 <= b < 256.
Definition bytes_ok (l : bytes) : Prop := Forall is_byte l.

#[global] Instance is_byte_dec b : Decision (is_byte b).
Proof. unfold is_byte. apply _. Defined.
#[global] Instance bytes_ok_dec l : Decision (bytes_ok l).
Proof. unfold bytes_ok. apply _. Defined.

Definition zlen {A} (l : list A) : Z := Z.of_nat (length l).

(** [d[i]], for an index known to be in range. *)
Definition at_ (d : bytes) (i : Z) : Z := nth (Z.to_nat i) d 0.
Notation "d .[ i ]" := (at_ d i) (at level 1, format "d .[ i ]") : iwan_scope.

(** The checked read [d[i]]. *)
Definition rd (d : bytes) (i : Z) : res Z :=
  if (0 <=? i) && (i <? zlen d) then Ret (d.[i]) else Fault OutOfBounds.

(** The bytes [d + off .. d + off + n). *)
Definition slice (d : bytes) (off n : Z) : bytes :=
  take (Z.to_nat n) (drop (Z.to_nat off) d).

(** The checked block read of [memcpy]/[memcmp]. *)
Definition rdn (d : bytes) (off n : Z) : res bytes :=
  if (0 <=? off) && (0 <=? n) && (off + n <=? zlen d) then Ret (slice d off n)
  else Fault OutOfBounds.

(** The checked block write of [memcpy] into [d + off]. *)
Definition upd (d : bytes) (off : Z) (l : bytes) : bytes :=
  take (Z.to_nat off) d ++ l ++ drop (Z.to_nat (off + zlen l)) d.

Definition wrn (d : bytes) (off : Z) (l : bytes) : res bytes :=
  if (0 <=? off) && (off + zlen l <=? zlen d) then Ret (upd d off l) else Fault OutOfBounds.

(** A C string [const char *s] is the list of its bytes before the NUL; reading
    the terminator itself gives 0. *)
Definition rdc (s : bytes) (i : Z) : res Z :=
  if i =? zlen s then Ret 0 else rd s i.

Definition cstr_ok (s : bytes) : Prop := Forall (fun b => 0 < b < 256) s.

#[global] Instance cstr_ok_dec s : Decision (cstr_ok s).
Proof. unfold cstr_ok. apply _. Defined.

(** What [strlen]-style uses see of a byte array: the bytes before the first NUL. *)
Fixpoint cstr (l : bytes) : bytes :=
  match l with
  | [] => []
  | b :: r => if b =? 0 then [] else b :: cstr r
  end.

(** [memset(p, v, n)] as a value. *)
Definition fill (v n : Z) : bytes := replicate (Z.to_nat n) v.

(** Equality of byte blocks, [memcmp(a, b, n) == 0] on blocks of one length. *)
Definition beq (a b : bytes) : bool := bool_decide (a = b).

(** [snprintf] into a buffer of [n] bytes. *)
Definition snprintf (n : Z) (s : bytes) : bytes := take (Z.to_nat (n - 1)) s.

(** Bytes of a string literal. *)
Definition lit (s : string) : bytes :=
  map (fun c => Z.of_N (N_of_ascii c)) (list_ascii_of_string s).
Arguments lit s%_string.

(** ** Big-endian fields *)
Definition be16 (b0 b1 : Z) : Z := Z.lor (Z.shiftl b0 8) b1.
Definition be32 (b0 b1 b2 b3 : Z) : Z :=
  Z.lor (Z.lor (Z.lor (Z.shiftl b0 24) (Z.shiftl b1 16)) (Z.shiftl b2 8)) b3.
Definition put16 (v : Z) : bytes := [u8 (Z.shiftr v 8); u8 v].
Definition put32 (v : Z) : bytes :=
  [u8 (Z.shiftr v 24); u8 (Z.shiftr v 16); u8 (Z.shiftr v 8); u8 v].

(** ** Arithmetic lemmas *)
#[global] Ltac Zify.zify_post_hook ::= Z.to_euclidean_division_equations.

Lemma testbit_high b n k : 0 <= b < 2 ^ n -> n <= k -> Z.testbit b k = false.
Proof.
  intros Hb Hk. destruct (decide (b = 0)) as [->|]; [apply Z.bits_0|].
  assert (0 <= n) by (destruct (decide (n < 0)); [rewrite Z.pow_neg_r in Hb by lia; lia|lia]).
  apply Z.bits_above_log2; [lia|].
  apply Z.log2_lt_pow2; [lia|]. eapply Z.lt_le_trans; [apply Hb|].
  apply Z.pow_le_mono_r; lia.
Qed.

Lemma lor_shiftl_add a b n :
  0 <= n -> 0 <= b < 2 ^ n -> Z.lor (Z.shiftl a n) b = a * 2 ^ n + b.
Proof.
  intros Hn Hb. rewrite Z.shiftl_mul_pow2 by lia.
  assert (Z.land (a * 2 ^ n) b = 0) as Hland.
  { apply Z.bits_inj'; intros k Hk. rewrite Z.land_spec, Z.bits_0.
    destruct (decide (k < n)).
    - rewrite Z.mul_pow2_bits_low by lia. done.
    - rewrite (testbit_high b n) by lia. apply andb_false_r. }
  rewrite <- Z.lxor_lor by done. by rewrite <- Z.add_nocarry_lxor.
Qed.

Lemma be16_val b0 b1 : is_byte b1 -> be16 b0 b1 = b0 * 256 + b1.
Proof. intros H. unfold be16. rewrite lor_shiftl_add; [lia|lia|]. apply H. Qed.

Lemma be32_val b0 b1 b2 b3 :
  is_byte b1 -> is_byte b2 -> is_byte b3 ->
  be32 b0 b1 b2 b3 = b0 * 16777216 + b1 * 65536 + b2 * 256 + b3.
Proof.
  unfold be32, is_byte. intros H1 H2 H3.
  replace (Z.lor (Z.lor (Z.lor (Z.shiftl b0 24) (Z.shiftl b1 16)) (Z.shiftl b2 8)) b3)
    with (Z.lor (Z.shiftl (Z.lor (Z.shiftl (Z.lor (Z.shiftl b0 8) b1) 8) b2) 8) b3).
  - rewrite !lor_shiftl_add by lia. lia.
  - rewrite !Z.shiftl_lor, !Z.shiftl_shiftl by lia. done.
Qed.

Lemma be16_range b0 b1 : is_byte b0 -> is_byte b1 -> 0 <= be16 b0 b1 < 65536.
Proof. intros. rewrite be16_val by done. unfold is_byte in *. lia. Qed.

Lemma be32_range b0 b1 b2 b3 :
  is_byte b0 -> is_byte b1 -> is_byte b2 -> is_byte b3 -> 0 <= be32 b0 b1 b2 b3 < 2 ^ 32.
Proof. intros. rewrite be32_val by done. unfold is_byte in *. lia. Qed.

Lemma u8_shiftr v k : 0 <= k -> u8 (Z.shiftr v k) = (v / 2 ^ k) mod 256.
Proof. intros. unfold u8. rewrite Z.shiftr_div_pow2 by done. done. Qed.

Lemma put16_ok v : bytes_ok (put16 v).
Proof. repeat constructor; apply u8_range. Qed.
Lemma put32_ok v : bytes_ok (put32 v).
Proof. repeat constructor; apply u8_range. Qed.

(** Writing a field and reading it back. *)
Lemma be16_put16 v : 0 <= v < 65536 -> be16 (u8 (Z.shiftr v 8)) (u8 v) = v.
Proof.
  intros. rewrite be16_val by apply u8_range. rewrite u8_shiftr by lia.
  unfold u8. lia.
Qed.

Lemma be32_put32 v :
  0 <= v < 2 ^ 32 ->
  be32 (u8 (Z.shiftr v 24)) (u8 (Z.shiftr v 16)) (u8 (Z.shiftr v 8)) (u8 v) = v.
Proof.
  intros. rewrite be32_val by apply u8_range. rewrite !u8_shiftr by lia.
  unfold u8. lia.
Qed.

(** Reading a field and writing it back. *)
Lemma put16_be16 b0 b1 :
  is_byte b0 -> is_byte b1 -> put16 (be16 b0 b1) = [b0; b1].
Proof.
  unfold is_byte. intros. unfold put16. rewrite be16_val, u8_shiftr by (done || lia).
  unfold u8. f_equal; [|f_equal]; lia.
Qed.

Lemma put32_be32 b0 b1 b2 b3 :
  is_byte b0 -> is_byte b1 -> is_byte b2 -> is_byte b3 ->
  put32 (be32 b0 b1 b2 b3) = [b0; b1; b2; b3].
Proof.
  unfold is_byte. intros. unfold put32. rewrite be32_val, !u8_shiftr by (done || lia).
  unfold u8. repeat f_equal; lia.
Qed.

(** ** List lemmas *)
Lemma zlen_nonneg {A} (l : list A) : 0 <= zlen l.
Proof. unfold zlen. lia. Qed.
Lemma zlen_nil {A} : zlen (@nil A) = 0.
Proof. done. Qed.
Lemma zlen_cons {A} (x : A) l : zlen (x :: l) = 1 + zlen l.
Proof. unfold zlen. cbn [length]. lia. Qed.
Lemma zlen_app {A} (l k : list A) : zlen (l ++ k) = zlen l + zlen k.
Proof. unfold zlen. rewrite length_app. lia. Qed.
Lemma zlen_take {A} (n : nat) (l : list A) : zlen (take n l) = Z.min (Z.of_nat n) (zlen l).
Proof. unfold zlen. rewrite length_take. lia. Qed.
Lemma zlen_drop {A} (n : nat) (l : list A) : zlen (drop n l) = Z.max 0 (zlen l - Z.of_nat n).
Proof. unfold zlen. rewrite length_drop. lia. Qed.
Lemma zlen_map {A B} (f : A -> B) l : zlen (map f l) = zlen l.
Proof. unfold zlen. by rewrite length_map. Qed.
Lemma zlen_replicate {A} n (x : A) : zlen (replicate n x) = Z.of_nat n.
Proof. unfold zlen. by rewrite length_replicate. Qed.
Lemma zlen_insert {A} (l : list A) (i : nat) x : zlen (<[i:=x]> l) = zlen l.
Proof. unfold zlen. by rewrite length_insert. Qed.
Lemma zlen_fill v n : 0 <= n -> zlen (fill v n) = n.
Proof. intros. unfold fill. rewrite zlen_replicate. lia. Qed.
Lemma zlen_slice d off n : 0 <= off -> 0 <= n -> off + n <= zlen d -> zlen (slice d off n) = n.
Proof. intros. unfold slice. rewrite zlen_take, zlen_drop. lia. Qed.
Lemma zlen_slice_le d off n : 0 <= off -> 0 <= n -> zlen (slice d off n) <= n.
Proof. intros. unfold slice. rewrite zlen_take, zlen_drop. lia. Qed.
Lemma zlen_0_nil {A} (l : list A) : zlen l = 0 -> l = [].
Proof. destruct l; [done|]. rewrite zlen_cons. pose proof (zlen_nonneg l). lia. Qed.

Lemma zlen_put16 v : zlen (put16 v) = 2.
Proof. done. Qed.
Lemma zlen_put32 v : zlen (put32 v) = 4.
Proof. done. Qed.

Create Rewrite HintDb zlen.
#[global] Hint Rewrite @zlen_nil @zlen_cons @zlen_app @zlen_take @zlen_drop @zlen_map
  @zlen_replicate @zlen_insert zlen_put16 zlen_put32 : zlen.

Lemma rd_ok d i : 0 <= i < zlen d -> rd d i = Ret d.[i].
Proof. intros. unfold rd. destruct (_ && _) eqn:E; [done|]. lia. Qed.

Lemma rd_Ret d i b : rd d i = Ret b -> 0 <= i < zlen d /\ b = d.[i].
Proof. unfold rd. destruct (_ && _) eqn:E; [|done]. intros [= <-]. split; [lia|done]. Qed.

Lemma rdn_ok d off n :
  0 <= off -> 0 <= n -> off + n <= zlen d -> rdn d off n = Ret (slice d off n).
Proof. intros. unfold rdn. destruct (_ && _) eqn:E; [done|]. lia. Qed.

Lemma rdc_ok s i : 0 <= i <= zlen s -> rdc s i = Ret (if i =? zlen s then 0 else s.[i]).
Proof. intros. unfold rdc. destruct (i =? zlen s) eqn:E; [done|]. apply rd_ok. lia. Qed.

Lemma at_cons_0 b d : (b :: d).[0] = b.
Proof. done. Qed.
Lemma at_cons_pos b d i : 0 < i -> (b :: d).[i] = d.[i - 1].
Proof.
  intros. unfold at_. replace (Z.to_nat i) with (S (Z.to_nat (i - 1))) by lia. done.
Qed.
Lemma at_app_l d e i : 0 <= i < zlen d -> (d ++ e).[i] = d.[i].
Proof. intros. unfold at_, zlen in *. rewrite app_nth1 by lia. done. Qed.
Lemma at_app_r d e i : 0 <= i -> zlen d <= i -> (d ++ e).[i] = e.[i - zlen d].
Proof.
  intros. unfold at_, zlen in *. rewrite app_nth2 by lia.
  by replace (Z.to_nat (i - _)) with (Z.to_nat i - length d)%nat by lia.
Qed.
Lemma at_lookup d i : 0 <= i < zlen d -> d !! Z.to_nat i = Some d.[i].
Proof.
  intros. unfold at_, zlen in *. destruct (lookup_lt_is_Some_2 d (Z.to_nat i)) as [x Hx]; [lia|].
  rewrite Hx. f_equal. symmetry. erewrite nth_lookup_Some; done.
Qed.
Lemma at_byte d i : bytes_ok d -> is_byte d.[i].
Proof.
  intros H. unfold at_. destruct (nth_in_or_default (Z.to_nat i) d 0) as [Hin| ->].
  - unfold bytes_ok in H. rewrite List.Forall_forall in H. by apply H.
  - unfold is_byte. lia.
Qed.
Lemma at_over d i : zlen d <= i -> d.[i] = 0.
Proof. intros. unfold at_, zlen in *. apply nth_overflow. lia. Qed.

Lemma at_slice d off n i :
  0 <= off -> 0 <= i < n -> off + n <= zlen d -> (slice d off n).[i] = d.[off + i].
Proof.
  intros. unfold at_, slice, zlen in *.
  rewrite nth_lookup, nth_lookup, lookup_take, decide_True, lookup_drop by lia.
  by replace (Z.to_nat off + Z.to_nat i)%nat with (Z.to_nat (off + i)) by lia.
Qed.

Lemma wrn_ok d off l : 0 <= off -> off + zlen l <= zlen d -> wrn d off l = Ret (upd d off l).
Proof. intros. unfold wrn. destruct (_ && _) eqn:E; [done|]. lia. Qed.

Lemma zlen_upd d off l : 0 <= off -> off + zlen l <= zlen d -> zlen (upd d off l) = zlen d.
Proof. intros. unfold upd. rewrite !zlen_app, zlen_take, zlen_drop. pose proof (zlen_nonneg l). lia. Qed.

Lemma at_upd d off l i :
  0 <= off -> off + zlen l <= zlen d -> 0 <= i ->
  (upd d off l).[i] = if (off <=? i) && (i <? off + zlen l) then l.[i - off] else d.[i].
Proof.
  intros H0 Hl Hi. unfold upd. pose proof (zlen_nonneg l).
  assert (zlen (take (Z.to_nat off) d) = off) as Ht by (rewrite zlen_take; lia).
  destruct (decide (i < off)).
  - rewrite at_app_l by lia. destruct (_ && _) eqn:E; [lia|].
    unfold at_. rewrite !nth_lookup, lookup_take, decide_True by lia. done.
  - rewrite at_app_r by lia. rewrite Ht. destruct (decide (i < off + zlen l)).
    + rewrite at_app_l by lia. destruct (_ && _) eqn:E; [done|lia].
    + rewrite at_app_r by lia. destruct (_ && _) eqn:E; [lia|].
      unfold at_. rewrite !nth_lookup, lookup_drop.
      by replace (Z.to_nat (off + zlen l) + Z.to_nat (i - off - zlen l))%nat with (Z.to_nat i) by lia.
Qed.

Lemma slice_all d : slice d 0 (zlen d) = d.
Proof. unfold slice, zlen. rewrite Nat2Z.id. cbn. apply take_ge. done. Qed.
Lemma rdn_all d n : n = zlen d -> rdn d 0 n = Ret d.
Proof. intros ->. pose proof (zlen_nonneg d). rewrite rdn_ok, slice_all by lia. done. Qed.
Lemma slice_app_l d e n : 0 <= n -> n = zlen d -> slice (d ++ e) 0 n = d.
Proof. intros ? ->. unfold slice, zlen. rewrite Nat2Z.id. cbn. apply take_app_length. Qed.
Lemma slice_app_skip d e off n :
  zlen d <= off -> slice (d ++ e) off n = slice e (off - zlen d) n.
Proof.
  intros. unfold slice, zlen in *. rewrite drop_app_ge by lia.
  by replace (Z.to_nat (off - _)) with (Z.to_nat off - length d)%nat by lia.
Qed.
Lemma slice_app_mid p d e off n :
  off = zlen p -> n = zlen d -> slice (p ++ d ++ e) off n = d.
Proof.
  intros -> ->. rewrite slice_app_skip by lia. rewrite Z.sub_diag.
  apply slice_app_l; [apply zlen_nonneg|done].
Qed.
Lemma slice_app_inside d e off n :
  0 <= off -> 0 <= n -> off + n <= zlen d -> slice (d ++ e) off n = slice d off n.
Proof.
  intros. unfold slice, zlen in *. rewrite drop_app_le by lia.
  rewrite take_app_le; [done|]. rewrite length_drop. lia.
Qed.
Lemma bytes_ok_slice d off n : bytes_ok d -> bytes_ok (slice d off n).
Proof. intros. apply Forall_take, Forall_drop. done. Qed.
Lemma bytes_ok_app a b : bytes_ok (a ++ b) <-> bytes_ok a /\ bytes_ok b.
Proof. apply Forall_app. Qed.
Lemma cstr_bytes_ok s : cstr_ok s -> bytes_ok s.
Proof. intros H. eapply Forall_impl; [apply H|]. unfold is_byte. simpl. lia. Qed.
Lemma cstr_cstr_ok s : cstr_ok s -> cstr s = s.
Proof.
  induction s as [|b s IH]; [done|]. intros H. inversion H; subst. cbn.
  destruct (b =? 0) eqn:E; [lia|]. by rewrite IH.
Qed.
Lemma cstr_ok_cstr l : bytes_ok l -> cstr_ok (cstr l).
Proof.
  induction l as [|b l IH]; [constructor|]. intros H. inversion H as [|?? Hb]; subst. cbn.
  destruct (b =? 0) eqn:E; constructor; [unfold is_byte in Hb; lia|]. by apply IH.
Qed.

Lemma beq_true a b : beq a b = true <-> a = b.
Proof. unfold beq. apply bool_decide_eq_true. Qed.
Lemma beq_false a b : beq a b = false <-> a <> b.
Proof. unfold beq. apply bool_decide_eq_false. Qed.
Lemma beq_refl a : beq a a = true.
Proof. by apply beq_true. Qed.

(** Two lists of one length that agree at every index are equal. *)
Lemma at_ext a b :
  zlen a = zlen b -> (forall i, 0 <= i < zlen a -> a.[i] = b.[i]) -> a = b.
Proof.
  intros Hl H. apply list_eq_same_length with (n := length a);
    [unfold zlen in Hl; lia|done|].
  intros i x y Hi Ha Hb. specialize (H (Z.of_nat i)). unfold at_, zlen in H.
  rewrite !Nat2Z.id in H. rewrite (nth_lookup_Some a i 0 x Ha), (nth_lookup_Some b i 0 y Hb) in H.
  apply H. lia.
Qed.

(** A write seen through a window that contains it, and through one it misses. *)
Lemma slice_upd_in d off l o n :
  0 <= o <= off -> off + zlen l <= o + n -> o + n <= zlen d ->
  slice (upd d off l) o n = upd (slice d o n) (off - o) l.
Proof.
  intros Ho Hl Hn. pose proof (zlen_nonneg l).
  assert (zlen (slice d o n) = n) as Hs by (apply zlen_slice; lia).
  assert (zlen (upd d off l) = zlen d) as Hu by (apply zlen_upd; lia).
  apply at_ext; rewrite zlen_slice by lia; [rewrite zlen_upd by lia; lia|]. intros i Hi.
  rewrite at_slice, at_upd, at_upd by lia.
  replace (o + i - off) with (i - (off - o)) by lia.
  replace (off <=? o + i) with (off - o <=? i) by lia.
  replace (o + i <? off + zlen l) with (i <? off - o + zlen l) by lia.
  destruct (_ && _); [done|]. by rewrite at_slice by lia.
Qed.

Lemma slice_upd_out d off l o n :
  0 <= off -> off + zlen l <= zlen d -> 0 <= o -> 0 <= n -> o + n <= zlen d ->
  (o + n <= off \/ off + zlen l <= o) -> slice (upd d off l) o n = slice d o n.
Proof.
  intros. assert (zlen (upd d off l) = zlen d) by (apply zlen_upd; lia).
  apply at_ext; rewrite !zlen_slice by lia; [done|]. intros i Hi.
  rewrite !at_slice, at_upd by lia. destruct (_ && _) eqn:E; [lia|done].
Qed.

Lemma upd_upd d off l k :
  0 <= off -> off + zlen l <= zlen d -> zlen k = zlen l -> upd (upd d off l) off k = upd d off k.
Proof.
  intros. assert (zlen (upd d off l) = zlen d) by (apply zlen_upd; lia).
  apply at_ext; rewrite !zlen_upd by lia; [done|]. intros i Hi.
  rewrite (at_upd _ off k), (at_upd _ off k), (at_upd _ off l) by lia. replace (zlen k) with (zlen l).
  by destruct (_ && _).
Qed.

Lemma slice_upd_eq d off l n :
  n = zlen l -> 0 <= off -> off + zlen l <= zlen d -> slice (upd d off l) off n = l.
Proof.
  intros ->. intros. pose proof (zlen_nonneg l). rewrite slice_upd_in by lia. rewrite Z.sub_diag. unfold upd.
  cbn [Z.to_nat take app]. rewrite drop_ge, app_nil_r; [done|].
  assert (zlen (slice d off (zlen l)) = zlen l) by (apply zlen_slice; lia). unfold zlen in *. lia.
Qed.

Lemma snprintf_fits n s : zlen s < n -> snprintf n s = s.
Proof. intros Hn. unfold snprintf. apply take_ge. unfold zlen in Hn. lia. Qed.

(** A boolean fact about the first [n] integers, by evaluation. *)
Lemma below_spec (n : nat) (P : Z -> bool) :
  forallb (fun k => P (Z.of_nat k)) (seq 0 n) = true -> forall v, 0 <= v < Z.of_nat n -> P v = true.
Proof.
  intros H v Hv. rewrite forallb_forall in H. specialize (H (Z.to_nat v)).
  rewrite Z2Nat.id in H by lia. apply H, in_seq. lia.
Qed.

(** The index of the first element a test accepts. *)
Fixpoint find_index {A} (f : A -> bool) (l : list A) : option nat :=
  match l with
  | [] => None
  | x :: r => if f x then Some 0%nat else S <$> find_index f r
  end.

Lemma find_index_Some {A} (f : A -> bool) l i :
  find_index f l = Some i <->
  (exists x, l !! i = Some x /\ f x = true) /\ forall j x, (j < i)%nat -> l !! j = Some x -> f x = false.
Proof.
  revert i. induction l as [|x l IH]; intros i; cbn [find_index].
  - split; [done|]. intros [(y & Hy & _) _]. by rewrite lookup_nil in Hy.
  - destruct (f x) eqn:E.
    + split.
      * intros [= <-]. split; [by exists x|lia].
      * intros [_ Hb]. destruct i; [done|]. by rewrite (Hb 0%nat x) in E by (done || lia).
    + destruct i as [|i].
      * split; [by destruct (find_index f l)|]. intros [(y & [= ->] & Hy) _]. congruence.
      * assert (S <$> find_index f l = Some (S i) <-> find_index f l = Some i) as ->.
        { destruct (find_index f l); cbn; split; congruence. }
        rewrite IH. cbn [lookup list_lookup]. split; intros [H1 H2]; (split; [done|]).
        -- intros [|j] y Hj Hy; [by injection Hy as <-|]. apply (H2 j); [lia|done].
        -- intros j y Hj Hy. apply (H2 (S j)); [lia|done].
Qed.

Lemma find_index_None {A} (f : A -> bool) l :
  find_index f l = None <-> forall i x, l !! i = Some x -> f x = false.
Proof.
  induction l as [|x l IH]; cbn [find_index].
  - split; [|done]. intros _ i x Hx. by rewrite lookup_nil in Hx.
  - destruct (f x) eqn:E.
    + split; [done|]. intros H. by rewrite (H 0%nat x) in E.
    + assert (S <$> find_index f l = None <-> find_index f l = None) as ->.
      { destruct (find_index f l); cbn; split; congruence. }
      rewrite IH. split.
      * intros H [|i] y Hy; [by injection Hy as <-|]. by apply (H i).
      * intros H i y Hy. by apply (H (S i)).
Qed.

(** ** Tactics *)

(** Normalise lengths. *)
Ltac zl := autorewrite with zlen in *.
Ltac zlia := zl; lia.

(** Split the boolean tests of the goal and of the hypotheses. *)
Ltac ifs :=
  repeat match goal with
  | |- context [if ?b then _ else _] => lazymatch b with context [if _ then _ else _] => fail | _ => idtac end;
      let E := fresh "E" in destruct b eqn:E
  end.

(** Split the test at the head of the left-hand side. *)
Ltac head_if E :=
  lazymatch goal with |- (if ?b then _ else _) = _ => destruct b eqn:E end.

(** The same for a hypothesis. *)
Ltac hyp_if H E :=
  lazymatch type of H with (if ?b then _ else _) = _ => destruct b eqn:E end.

(** Execute the checked reads whose index [lia] can bound. *)
Ltac rds :=
  repeat first
    [ rewrite rd_ok by (unfold is_byte in *; zlia)
    | rewrite rdn_ok by (unfold is_byte in *; zlia) ];
  cbn [rbind].

(** Byte-string well-formedness. *)
Lemma is_byte_u8 x : is_byte (u8 x).
Proof. apply u8_range. Qed.
Lemma bytes_ok_fill v n : is_byte v -> bytes_ok (fill v n).
Proof. intros. by apply Forall_replicate. Qed.
Lemma bytes_ok_take n d : bytes_ok d -> bytes_ok (take n d).
Proof. apply Forall_take. Qed.
Lemma bytes_ok_upd d off l : bytes_ok d -> bytes_ok l -> bytes_ok (upd d off l).
Proof. intros. unfold upd, bytes_ok. rewrite !Forall_app. split_and!; [by apply Forall_take|done|by apply Forall_drop]. Qed.
Lemma bytes_ok_drop n d : bytes_ok d -> bytes_ok (drop n d).
Proof. apply Forall_drop. Qed.

Create HintDb bytes.
#[global] Hint Resolve is_byte_u8 bytes_ok_fill bytes_ok_take bytes_ok_drop bytes_ok_slice bytes_ok_upd
  put16_ok put32_ok at_byte cstr_bytes_ok : bytes.

Ltac bok :=
  repeat match goal with
  | |- bytes_ok (_ ++ _) => apply bytes_ok_app; split
  | |- bytes_ok (_ :: _) => apply Forall_cons; split
  | |- bytes_ok [] => apply Forall_nil_2
  | |- Forall is_byte ?l => change (bytes_ok l)
  end;
  try solve [ eauto with bytes
            | match goal with |- is_byte _ => unfold is_byte in *; lia end
            | match goal with |- bytes_ok (fill _ _) => apply bytes_ok_fill; unfold is_byte in *; lia end ].
