(* ===== verification/Util.v ===== *)
(** * Buffers, scanners and environment rules (src/src/common/util.c, util.h, buffer.c)

    [Grow] is the capacity policy [grow_cap] with the growable buffers built on it
    ([buf_t] of buffer.c and [sbuf] of util.c); [Scan] holds the strict decimal
    scanners and the environment predicates; [Pace] is the token bucket of the
    aggregate send pacing. *)

From S2P Require Import Prelude.

(** ** Character classes and comparisons of the C library *)
Definition isdigit (c : Z) : bool := (48 <=? c) && (c <=? 57).

Definition isspace (c : Z) : bool := (c =? 32) || ((9 <=? c) && (c <=? 13)).

Definition tolower (c : Z) : Z := if (65 <=? c) && (c <=? 90) then c + 32 else c.

(** [strncasecmp(a, b, n) == 0] on NUL-terminated strings: the first [n]
    characters agree up to case, a terminator counting as a character. *)
Definition strncaseeq (a b : bytes) (n : Z) : bool :=
  beq (take (Z.to_nat n) (map tolower a ++ [0])) (take (Z.to_nat n) (map tolower b ++ [0])).

Module Grow.

(** The doubling loop of [grow_cap]. *)
Fixpoint grow_loop (fuel : nat) (ncap need : Z) : res Z :=
  match fuel with
  | O => Fault OutOfFuel
  | S fuel =>
      if ncap <? need then
        if ncap >? SIZE_MAX / 2 then Ret need else grow_loop fuel (ncap * 2) need
      else Ret ncap
  end.

(** [grow_cap]: the return value and [*newcap] ([None]: not written). *)
Definition grow_cap (used extra cap init esize : Z) : res (Z * option Z) :=
  if extra >? SIZE_MAX - used then Ret (0, None)
  else
    let need := used + extra in
    if need <=? cap then Ret (cap, Some cap)
    else
      let ncap := if cap =? 0 then init else u64 (cap * 2) in
      if ncap <? cap then Ret (need, Some need)
      else
        let! n := grow_loop 65 ncap need in
        let n' := if n >? SIZE_MAX / esize then need else n in
        Ret (n', Some n').

(** [buf_t]: the bytes [data[0..len)] and the allocated capacity. *)
Record buf_t := mk_buf { data : bytes; cap : Z }.

Definition len (b : buf_t) : Z := zlen (data b).

Definition buf_init : buf_t := mk_buf [] 0.
Definition buf_free (b : buf_t) : buf_t := mk_buf [] 0.
Definition buf_clear (b : buf_t) : buf_t := mk_buf [] (cap b).

Definition buf_ensure (b : buf_t) (extra : Z) : res buf_t :=
  let! r := grow_cap (len b) extra (cap b) 64 1 in
  match r with
  | (rv, Some ncap) =>
      if rv =? 0 then Fault Aborted
      else if ncap =? cap b then Ret b
      else Ret (mk_buf (data b) ncap)
  | (_, None) => Fault Aborted
  end.

(** A store past the capacity would be out of bounds. *)
Definition buf_store (b : buf_t) (p : bytes) : res buf_t :=
  if len b + zlen p <=? cap b then Ret (mk_buf (data b ++ p) (cap b)) else Fault OutOfBounds.

Definition buf_put (b : buf_t) (p : bytes) : res buf_t :=
  if zlen p =? 0 then Ret b
  else
    let! b := buf_ensure b (zlen p) in
    buf_store b p.

Definition buf_put_u8 (b : buf_t) (v : Z) : res buf_t := buf_put b [v].

Definition buf_put_str (b : buf_t) (s : bytes) : res buf_t := buf_put b s.

Definition buf_consume (b : buf_t) (n : Z) : buf_t :=
  if n >=? len b then mk_buf [] (cap b)
  else mk_buf (drop (Z.to_nat n) (data b)) (cap b).

(** [sbuf_app]: the appended length is a [size_t] the caller computed, so it is
    an argument of its own; [p] is the readable object at the source pointer. *)
Definition sbuf_app (s : buf_t) (p : bytes) (n : Z) : res buf_t :=
  let! r := grow_cap (len s) (u64 (n + 1)) (cap s) 256 1 in
  match r with
  | (rv, Some nc) =>
      if rv =? 0 then Fault Aborted
      else
        let c := if nc >? cap s then nc else cap s in
        let! src := rdn p 0 n in
        if len s + n + 1 <=? c then Ret (mk_buf (data s ++ src) c) else Fault OutOfBounds
  | (_, None) => Fault Aborted
  end.

(** *** Properties *)

Definition buf_wf (b : buf_t) : Prop := len b <= cap b <= SIZE_MAX.

Lemma grow_loop_S fuel ncap need :
  grow_loop (S fuel) ncap need =
    if ncap <? need then
      if ncap >? SIZE_MAX / 2 then Ret need else grow_loop fuel (ncap * 2) need
    else Ret ncap.
Proof. done. Qed.

(** The loop returns within its fuel: it doubles from at least 1 up to 2^64. *)
Lemma grow_loop_spec fuel ncap need :
  0 < ncap -> need <= SIZE_MAX -> 2 ^ 64 <= ncap * 2 ^ Z.of_nat fuel ->
  exists n, grow_loop (S fuel) ncap need = Ret n /\ need <= n /\
    (n = need \/ n = ncap \/ n < 2 * need).
Proof.
  revert ncap. induction fuel as [|fuel IH]; intros ncap Hpos Hneed Hfuel;
    rewrite grow_loop_S; destruct (ncap <? need) eqn:E.
  - unfold SIZE_MAX in *. change (2 ^ Z.of_nat 0) with 1 in Hfuel. lia.
  - exists ncap. split; [done|lia].
  - destruct (ncap >? SIZE_MAX / 2) eqn:E2; [exists need; split; [done|lia]|].
    destruct (IH (ncap * 2)) as (n & Hn & Hle & Hor); [lia|done| |].
    { rewrite Nat2Z.inj_succ, Z.pow_succ_r in Hfuel by lia. lia. }
    exists n. split; [exact Hn|lia].
  - exists ncap. split; [done|lia].
Qed.

Lemma grow_cap_spec used extra cap0 init esize :
  0 <= used -> 0 <= extra -> 0 <= cap0 <= SIZE_MAX -> 0 < init <= SIZE_MAX -> 0 < esize ->
  used + extra <= SIZE_MAX ->
  exists n, grow_cap used extra cap0 init esize = Ret (n, Some n) /\ used + extra <= n /\
    (used + extra <= cap0 /\ n = cap0 \/
     cap0 < used + extra /\ (n = used + extra \/ n * esize <= SIZE_MAX)).
Proof.
  intros Hu He Hc Hi Hes Hneed. unfold grow_cap.
  destruct (extra >? SIZE_MAX - used) eqn:E1; [lia|].
  destruct (used + extra <=? cap0) eqn:E2; [exists cap0; split; [done|lia]|].
  destruct ((if cap0 =? 0 then init else u64 (cap0 * 2)) <? cap0) eqn:E3.
  { exists (used + extra). split; [done|]. lia. }
  set (n0 := if cap0 =? 0 then init else u64 (cap0 * 2)) in *.
  assert (0 < n0) by (unfold n0 in *; destruct (cap0 =? 0) eqn:E4; lia).
  destruct (grow_loop_spec 64 n0 (used + extra)) as (n & -> & Hle & _); [lia|done|lia|].
  cbn [rbind]. destruct (n >? SIZE_MAX / esize) eqn:E5.
  - exists (used + extra). split; [done|]. lia.
  - exists n. split; [done|]. split; [done|]. right. split; [lia|]. right.
    assert (n <= SIZE_MAX / esize) by lia.
    pose proof (Z.mul_div_le SIZE_MAX esize Hes). nia.
Qed.

(** The exact-fit case is the only one that can make the byte size overflow. *)
Lemma grow_cap_bytes used extra cap0 init esize n :
  0 <= used -> 0 <= extra -> 0 <= cap0 -> cap0 * esize <= SIZE_MAX ->
  0 < init <= SIZE_MAX -> 0 < esize -> (used + extra) * esize <= SIZE_MAX ->
  grow_cap used extra cap0 init esize = Ret (n, Some n) -> n * esize <= SIZE_MAX.
Proof.
  intros Hu He Hc Hcs Hi Hes Hneed Hg.
  destruct (grow_cap_spec used extra cap0 init esize) as (m & Hm & Hle & Hor); try nia.
  rewrite Hm in Hg. injection Hg as <-. destruct Hor as [[_ ->]|[_ [->|]]]; lia.
Qed.

Lemma buf_ensure_spec b extra :
  buf_wf b -> 0 < extra -> len b + extra <= SIZE_MAX ->
  exists c, buf_ensure b extra = Ret (mk_buf (data b) c) /\
    len b + extra <= c <= SIZE_MAX /\ cap b <= c.
Proof.
  intros [Hl Hc] He Hs. unfold buf_ensure.
  assert (0 <= len b) by apply zlen_nonneg.
  destruct (grow_cap_spec (len b) extra (cap b) 64 1) as (n & -> & Hle & Hor);
    try (unfold SIZE_MAX in *; lia).
  cbn [rbind]. destruct (n =? 0) eqn:E1; [lia|].
  destruct (n =? cap b) eqn:E2.
  - exists (cap b). split; [by destruct b|]. lia.
  - exists n. split; [done|]. lia.
Qed.

(** Appending: the contents grow by exactly the argument, no store leaves the
    allocation, and nothing aborts while the total is representable. *)
Lemma buf_put_spec b p :
  buf_wf b -> len b + zlen p <= SIZE_MAX ->
  exists b', buf_put b p = Ret b' /\ data b' = data b ++ p /\ buf_wf b'.
Proof.
  intros Hwf Hs. unfold buf_put. pose proof (zlen_nonneg p).
  destruct (zlen p =? 0) eqn:E.
  { exists b. rewrite (zlen_0_nil p) by lia. by rewrite app_nil_r. }
  destruct (buf_ensure_spec b (zlen p) Hwf) as (c & -> & Hc & _); [lia|done|].
  cbn [rbind]. unfold buf_store, len in *. cbn.
  destruct (zlen (data b) + zlen p <=? c) eqn:E2; [|lia].
  eexists. split; [done|]. split; [done|]. unfold buf_wf, len. cbn. zlia.
Qed.

Lemma buf_consume_spec b n :
  buf_wf b -> 0 <= n -> data (buf_consume b n) = drop (Z.to_nat n) (data b) /\ buf_wf (buf_consume b n).
Proof.
  intros [Hl Hc] Hn. unfold buf_consume, buf_wf, len in *.
  destruct (n >=? zlen (data b)) eqn:E; cbn.
  - split; [|zl; pose proof (zlen_nonneg (data b)); lia].
    rewrite drop_ge; [done|]. unfold zlen in E. lia.
  - split; [done|]. zlia.
Qed.

(** An [sbuf] is empty and unallocated, or keeps room for its NUL. *)
Definition sbuf_wf (s : buf_t) : Prop :=
  (len s = 0 /\ cap s = 0) \/ len s + 1 <= cap s <= SIZE_MAX.

Lemma sbuf_app_spec s p :
  sbuf_wf s -> len s + zlen p + 1 <= SIZE_MAX ->
  exists s', sbuf_app s p (zlen p) = Ret s' /\ data s' = data s ++ p /\ sbuf_wf s'.
Proof.
  intros Hwf Hs. unfold sbuf_app. pose proof (zlen_nonneg p).
  assert (0 <= len s) by apply zlen_nonneg.
  rewrite u64_small by (unfold SIZE_MAX in *; lia).
  destruct (grow_cap_spec (len s) (zlen p + 1) (cap s) 256 1) as (n & -> & Hle & Hor);
    try (unfold sbuf_wf, SIZE_MAX in *; lia).
  cbn [rbind]. destruct (n =? 0) eqn:E1; [lia|].
  rewrite rdn_ok, slice_all by lia. cbn [rbind].
  assert (n <= SIZE_MAX) by (unfold sbuf_wf, SIZE_MAX in *; lia).
  set (c := if n >? cap s then n else cap s).
  assert (n <= c <= SIZE_MAX) by (unfold c, sbuf_wf, SIZE_MAX in *; destruct (n >? cap s) eqn:?; lia).
  destruct (len s + zlen p + 1 <=? c) eqn:E3; [|lia].
  eexists. split; [done|]. split; [done|]. right. unfold len in *. cbn. zlia.
Qed.

(** A length of [SIZE_MAX] wraps to a request of 0 more bytes: the growth check
    passes and the copy leaves both objects. *)
Lemma sbuf_app_wrap s p :
  sbuf_wf s -> 0 < cap s -> zlen p < SIZE_MAX -> sbuf_app s p SIZE_MAX = Fault OutOfBounds.
Proof.
  intros Hwf Hc Hp. unfold sbuf_app. change (u64 (SIZE_MAX + 1)) with 0.
  assert (0 <= len s) by apply zlen_nonneg.
  destruct (grow_cap_spec (len s) 0 (cap s) 256 1) as (n & -> & Hle & Hor);
    try (unfold sbuf_wf, SIZE_MAX in *; lia).
  cbn [rbind]. destruct (n =? 0) eqn:E1; [unfold sbuf_wf in *; lia|].
  unfold rdn. destruct (_ && _) eqn:E; [|done]. lia.
Qed.

End Grow.

Module Scan.

(** The three outcomes of [env_scan_u64]. *)
Inductive parse_uint_res :=
| PARSE_UINT_OK (v : Z)
| PARSE_UINT_BAD
| PARSE_UINT_RANGE.

#[global] Instance parse_uint_res_eq_dec : EqDecision parse_uint_res.
Proof. solve_decision. Defined.

(** The accumulation loop, [v] a [uint64_t]. *)
Fixpoint scan_acc (s : bytes) (max v : Z) : parse_uint_res :=
  match s with
  | [] => PARSE_UINT_OK v
  | c :: r =>
      let d := c - 48 in
      if (d >? max) || (v >? (max - d) / 10) then PARSE_UINT_RANGE
      else scan_acc r max (u64 (v * 10 + d))
  end.

(** [s = None] is a NULL pointer. *)
Definition env_scan_u64 (s : option bytes) (max : Z) : parse_uint_res :=
  match s with
  | None => PARSE_UINT_BAD
  | Some s =>
      if beq s [] then PARSE_UINT_BAD
      else if forallb isdigit s then scan_acc s max 0
      else PARSE_UINT_BAD
  end.

Definition parse_uint (s : bytes) (max : Z) : parse_uint_res := env_scan_u64 (Some s) max.

Definition str_to_u16 (s : bytes) : option Z :=
  match parse_uint s 65535 with
  | PARSE_UINT_OK v => Some (u16 v)
  | _ => None
  end.

Definition ULLONG_MAX : Z := 2 ^ 64 - 1.
Definition LLONG_MAX : Z := 2 ^ 63 - 1.
Definition LLONG_MIN : Z := - 2 ^ 63.

(** The digit loop of [env_scan_i64]; [None] is [return -1]. *)
Fixpoint scan_i64_acc (s : bytes) (v : Z) : option Z :=
  match s with
  | [] => Some v
  | c :: r =>
      if negb (isdigit c) then None
      else
        let d := c - 48 in
        if v >? (ULLONG_MAX - d) / 10 then None else scan_i64_acc r (u64 (v * 10 + d))
  end.

Definition env_scan_i64 (s : option bytes) : option Z :=
  match s with
  | None | Some [] => None
  | Some (c0 :: r0) =>
      let neg := c0 =? 45 (* '-' *) in
      let p := if neg then r0 else c0 :: r0 in
      match p with
      | [] => None
      | c :: _ =>
          if negb (isdigit c) then None
          else
            match scan_i64_acc p 0 with
            | None => None
            | Some v =>
                if neg then
                  if v >? LLONG_MAX + 1 then None
                  else Some (if v =? LLONG_MAX + 1 then LLONG_MIN else - v)
                else if v >? LLONG_MAX then None
                else Some v
            end
      end
  end.

(** [env_ms_range]; [getenv] is the value of the variable. *)
Definition env_ms_range (getenv : option bytes) (defval min max : Z) (allow_zero : bool) : Z :=
  match getenv with
  | None | Some [] => defval
  | Some v =>
      match env_scan_i64 (Some v) with
      | None => defval
      | Some n =>
          if (n =? 0) && allow_zero then 0
          else if (n <? min) || (n >? max) then defval
          else n
      end
  end.

Definition env_u64 (getenv : option bytes) (defval min max : Z) (allow_zero : bool) : Z :=
  match getenv with
  | None | Some [] => defval
  | Some v =>
      match env_scan_u64 (Some v) max with
      | PARSE_UINT_OK n =>
          if (n =? 0) && allow_zero then 0
          else if n <? min then defval
          else n
      | _ => defval
      end
  end.

Inductive env_bool_kind :=
| ENV_BOOL_LOOSE
| ENV_BOOL_CS
| ENV_BOOL_PRESENT
| ENV_BOOL_EXACT1
| ENV_BOOL_POSITIVE
| ENV_BOOL_CS_NO
| ENV_KIND_NUM.

Definition env_bool_value (kind : env_bool_kind) (v : option bytes) (dflt : bool) : bool :=
  match kind with
  | ENV_BOOL_LOOSE =>
      match v with
      | None | Some [] => dflt
      | Some v =>
          negb (strncaseeq v (lit "0") 2 || strncaseeq v (lit "false") 6 ||
                strncaseeq v (lit "no") 3 || strncaseeq v (lit "off") 4)
      end
  | ENV_BOOL_CS =>
      match v with
      | None | Some [] => dflt
      | Some v => negb (beq v (lit "0") || beq v (lit "false") || beq v (lit "off"))
      end
  | ENV_BOOL_PRESENT => match v with Some _ => true | None => dflt end
  | ENV_BOOL_EXACT1 => match v with Some v => beq v (lit "1") | None => false end
  | ENV_BOOL_POSITIVE =>
      match v with
      | Some v =>
          strncaseeq v (lit "1") 2 || strncaseeq v (lit "true") 5 ||
          strncaseeq v (lit "yes") 4 || strncaseeq v (lit "on") 3
      | None => false
      end
  | ENV_BOOL_CS_NO =>
      match v with
      | None | Some [] => dflt
      | Some v =>
          negb (beq v (lit "0") || beq v (lit "false") || beq v (lit "no") || beq v (lit "off"))
      end
  | ENV_KIND_NUM => dflt
  end.

Definition env_bool_ex (getenv : option bytes) (kind : env_bool_kind) (dflt : bool) : bool :=
  env_bool_value kind getenv dflt.

Definition env_bool (getenv : option bytes) (dflt : bool) : bool :=
  env_bool_ex getenv ENV_BOOL_LOOSE dflt.

(** [strtol(s, &end, 10)]: the value, the text at [end] and whether the value was
    clamped to the range of [long] ([errno == ERANGE]).  Without digits [end] is [s]. *)
Fixpoint skip_space (s : bytes) : bytes :=
  match s with
  | c :: r => if isspace c then skip_space r else s
  | [] => []
  end.

Fixpoint span_digits (s : bytes) : bytes * bytes :=
  match s with
  | c :: r => if isdigit c then let (a, b) := span_digits r in (c :: a, b) else ([], s)
  | [] => ([], [])
  end.

Definition digits_val (d : bytes) : Z := fold_left (fun v c => v * 10 + (c - 48)) d 0.

Definition strtol_sign (t : bytes) : bool * bytes :=
  match t with
  | c :: r => if c =? 45 (* '-' *) then (true, r) else if c =? 43 (* '+' *) then (false, r) else (false, t)
  | [] => (false, [])
  end.

Definition strtol (s : bytes) : Z * bytes * bool :=
  let t := skip_space s in
  let (neg, t) := strtol_sign t in
  match span_digits t with
  | ([], _) => (0, s, false)
  | (d, rest) =>
      let v := if neg then - digits_val d else digits_val d in
      if v >? LLONG_MAX then (LLONG_MAX, rest, true)
      else if v <? LLONG_MIN then (LLONG_MIN, rest, true)
      else (v, rest, false)
  end.

(** Decimal printing, [%d] and the like of a non-negative value. *)
Fixpoint dec_digits (fuel : nat) (v : Z) : bytes :=
  match fuel with
  | O => []
  | S fuel => if v <? 10 then [48 + v] else dec_digits fuel (v / 10) ++ [48 + v mod 10]
  end.

Definition dec_str (v : Z) : bytes := dec_digits 20 v.

(** [unbracket_ipv6(s, buf, n)]: the string the caller goes on with. *)
Definition unbracket_ipv6 (s : bytes) (n : Z) : res bytes :=
  let! c0 := rdc s 0 in
  if c0 =? 91 (* '[' *) then
    let len := zlen s in
    if len >=? 3 then
      let! cl := rdc s (len - 1) in
      if (cl =? 93 (* ']' *)) && (len - 2 <? n) then rdn s 1 (len - 2) else Ret s
    else Ret s
  else Ret s.

(** *** Properties *)

Lemma digits_val_acc s v : fold_left (fun v c => v * 10 + (c - 48)) s v = v * 10 ^ zlen s + digits_val s.
Proof.
  unfold digits_val. revert v. induction s as [|c s IH]; intros v.
  - cbn [fold_left]. zl. lia.
  - cbn [fold_left]. rewrite IH, (IH (0 * 10 + (c - 48))), zlen_cons.
    rewrite Z.pow_add_r by (lia || apply zlen_nonneg). lia.
Qed.

Lemma digits_val_nonneg s : forallb isdigit s = true -> 0 <= digits_val s.
Proof.
  assert (forall s v, forallb isdigit s = true -> 0 <= v ->
    v <= fold_left (fun v c => v * 10 + (c - 48)) s v) as H; [|by intros; apply H].
  clear. induction s as [|c s IH]; intros v Hd Hv; [done|]. cbn [fold_left forallb] in *.
  apply andb_true_iff in Hd as [Hc Hd]. unfold isdigit in Hc.
  specialize (IH (v * 10 + (c - 48)) Hd). lia.
Qed.

Lemma scan_acc_spec s max v :
  0 <= max < 2 ^ 64 -> 0 <= v <= max -> forallb isdigit s = true ->
  scan_acc s max v =
    let w := fold_left (fun v c => v * 10 + (c - 48)) s v in
    if w <=? max then PARSE_UINT_OK w else PARSE_UINT_RANGE.
Proof.
  intros Hmax. revert v. induction s as [|c s IH]; intros v Hv Hd; cbn [scan_acc fold_left forallb] in *.
  - cbn. by destruct (v <=? max) eqn:E; [|lia].
  - apply andb_true_iff in Hd as [Hc Hd]. unfold isdigit in Hc.
    destruct ((c - 48 >? max) || (v >? (max - (c - 48)) / 10)) eqn:E.
    + pose proof (digits_val_nonneg s Hd). rewrite digits_val_acc. cbn zeta.
      assert (1 <= 10 ^ zlen s) by (pose proof (zlen_nonneg s); apply (Z.pow_le_mono_r 10 0); lia).
      destruct (_ <=? max) eqn:E2; [|done]. exfalso.
      assert (max < v * 10 + (c - 48)) by lia. nia.
    + rewrite u64_small by lia. rewrite IH by (done || lia). done.
Qed.

Lemma digits_val_app a b : digits_val (a ++ b) = digits_val a * 10 ^ zlen b + digits_val b.
Proof. unfold digits_val at 1. rewrite fold_left_app. apply digits_val_acc. Qed.

Lemma digits_val_lt s : forallb isdigit s = true -> digits_val s < 10 ^ zlen s.
Proof.
  induction s as [|c s IH] using rev_ind; [done|]. rewrite forallb_app, digits_val_app, zlen_app.
  intros [Hs Hc]%andb_true_iff. cbn in Hc. unfold isdigit in Hc. specialize (IH Hs).
  rewrite Z.pow_add_r by (lia || apply zlen_nonneg). change (zlen [c]) with 1.
  change (digits_val [c]) with (c - 48). nia.
Qed.

Lemma span_digits_app d r :
  forallb isdigit d = true -> isdigit (hd 0 r) = false -> span_digits (d ++ r) = (d, r).
Proof.
  intros Hd Hr. induction d as [|c d IH].
  - destruct r as [|x r]; [done|]. cbn in *. by rewrite Hr.
  - cbn in *. apply andb_true_iff in Hd as [Hc Hd]. by rewrite Hc, IH.
Qed.

Lemma span_digits_spec s :
  s = (span_digits s).1 ++ (span_digits s).2 /\ forallb isdigit (span_digits s).1 = true /\
  isdigit (hd 0 (span_digits s).2) = false.
Proof.
  induction s as [|c s (H1 & H2 & H3)]; [done|]. cbn [span_digits].
  destruct (isdigit c) eqn:E; [|done]. destruct (span_digits s) as [a b]. cbn in *.
  rewrite E, H2. split_and!; [by rewrite H1 at 1|done|done].
Qed.

Lemma dec_digits_spec fuel v :
  0 <= v < 10 ^ Z.of_nat fuel -> (0 < fuel)%nat ->
  let d := dec_digits fuel v in
  forallb isdigit d = true /\ digits_val d = v /\ d <> [] /\ zlen d <= Z.of_nat fuel /\
  (hd 0 d = 48 -> d = [48]).
Proof.
  revert v. induction fuel as [|fuel IH]; intros v Hv Hf; [lia|]. cbn [dec_digits].
  destruct (v <? 10) eqn:E; cbn zeta.
  - unfold isdigit. cbn [forallb hd].
    assert ((48 <=? 48 + v) && (48 + v <=? 57) = true) as -> by lia.
    split_and!; [done|change (digits_val [48 + v]) with (48 + v - 48); lia|done|zlia|]. intros H. f_equal. lia.
  - rewrite Nat2Z.inj_succ, Z.pow_succ_r in Hv by lia.
    assert (0 < fuel)%nat by (destruct fuel; [cbn in Hv; lia|lia]).
    destruct (IH (v / 10)) as (H1 & H2 & H3 & H4 & H5); [lia|lia|]. cbn zeta in *.
    set (d := dec_digits fuel (v / 10)) in *.
    rewrite forallb_app, digits_val_app, H1, H2. split_and!.
    + cbn. unfold isdigit. lia.
    + change (zlen [_]) with 1. change (digits_val [48 + v mod 10]) with (48 + v mod 10 - 48). lia.
    + by destruct d.
    + zlia.
    + intros Hh. destruct d as [|x d']; [done|]. cbn in Hh. rewrite (H5 Hh) in H2. cbn in H2. lia.
Qed.

(** A digit string without a superfluous zero is what printing its value gives. *)
Lemma digits_inj : forall a b,
  forallb isdigit a = true -> forallb isdigit b = true -> length a = length b ->
  digits_val a = digits_val b -> a = b.
Proof.
  induction a as [|x a IH] using rev_ind; intros b Ha Hb Hl Hv.
  - by destruct b.
  - destruct b as [|y b _] using rev_ind; [rewrite length_app in Hl; cbn in Hl; lia|].
    rewrite !length_app in Hl. cbn in Hl. rewrite !forallb_app in *. rewrite !digits_val_app in Hv.
    apply andb_true_iff in Ha as [Ha Hx]. apply andb_true_iff in Hb as [Hb Hy]. cbn in Hx, Hy.
    unfold isdigit in Hx, Hy. change (zlen [_]) with 1 in Hv.
    change (digits_val [x]) with (x - 48) in Hv. change (digits_val [y]) with (y - 48) in Hv.
    rewrite (IH b) by (done || lia). f_equal. f_equal. lia.
Qed.

Lemma digits_lower d :
  forallb isdigit d = true -> d <> [] -> hd 0 d <> 48 -> 10 ^ (zlen d - 1) <= digits_val d.
Proof.
  intros Hd Hne Hh. destruct d as [|c d]; [done|]. cbn in Hd, Hh. apply andb_true_iff in Hd as [Hc Hd].
  change (c :: d) with ([c] ++ d). rewrite digits_val_app. change (digits_val [c]) with (c - 48).
  pose proof (digits_val_nonneg d Hd). unfold isdigit in Hc. zl. replace (1 + 0 + zlen d - 1) with (zlen d) by lia.
  pose proof (Z.pow_nonneg 10 (zlen d)). nia.
Qed.

Lemma digits_canonical d :
  forallb isdigit d = true -> d <> [] -> (hd 0 d = 48 -> d = [48]) -> digits_val d < 10 ^ 20 ->
  d = dec_str (digits_val d).
Proof.
  intros Hd Hne Hz Hlt. pose proof (digits_val_nonneg d Hd) as H0.
  destruct (dec_digits_spec 20 (digits_val d)) as (E1 & E2 & E3 & E4 & E5); [done|lia|].
  fold (dec_str (digits_val d)) in *. set (e := dec_str (digits_val d)) in *. cbn zeta in *.
  apply digits_inj; [done|done| |done].
  pose proof (digits_val_lt d Hd) as Hd1. pose proof (digits_val_lt e E1) as He1.
  pose proof (digits_lower d Hd Hne) as Hd2. pose proof (digits_lower e E1 E3) as He2. rewrite E2 in *.
  destruct (decide (hd 0 d = 48)) as [Ed|Ed]; destruct (decide (hd 0 e = 48)) as [Ee|Ee].
  - by rewrite (Hz Ed), (E5 Ee).
  - specialize (He2 Ee). rewrite (Hz Ed) in He2. change (digits_val [48]) with 0 in He2.
    pose proof (Z.pow_pos_nonneg 10 (zlen e - 1)). destruct e; [done|]. rewrite zlen_cons in *.
    pose proof (zlen_nonneg e). lia.
  - specialize (Hd2 Ed). rewrite <- E2, (E5 Ee) in Hd2. change (digits_val [48]) with 0 in Hd2.
    pose proof (Z.pow_pos_nonneg 10 (zlen d - 1)). destruct d; [done|]. rewrite zlen_cons in *.
    pose proof (zlen_nonneg d). lia.
  - specialize (Hd2 Ed). specialize (He2 Ee).
    assert (zlen d - 1 < zlen e) by (apply (Z.pow_lt_mono_r_iff 10); [lia|apply zlen_nonneg|lia]).
    assert (zlen e - 1 < zlen d) by (apply (Z.pow_lt_mono_r_iff 10); [lia|apply zlen_nonneg|lia]).
    unfold zlen in *. lia.
Qed.

Lemma dec_str_spec v :
  0 <= v < 2 ^ 64 ->
  forallb isdigit (dec_str v) = true /\ digits_val (dec_str v) = v /\ dec_str v <> [] /\
  (hd 0 (dec_str v) = 48 -> dec_str v = [48]).
Proof.
  intros Hv. destruct (dec_digits_spec 20 v) as (H1 & H2 & H3 & _ & H5); [lia|lia|]. done.
Qed.

Lemma isdigit_not_special c : isdigit c = true -> isspace c = false /\ c <> 45 /\ c <> 43.
Proof. unfold isdigit, isspace. lia. Qed.

Lemma strtol_digits d r :
  forallb isdigit d = true -> d <> [] -> isdigit (hd 0 r) = false ->
  strtol (d ++ r) =
    if digits_val d >? LLONG_MAX then (LLONG_MAX, r, true) else (digits_val d, r, false).
Proof.
  intros Hd Hne Hr. destruct d as [|c d]; [done|]. unfold strtol.
  assert (isdigit c = true) as Hc by (cbn [forallb] in Hd; by apply andb_true_iff in Hd as [? _]).
  destruct (isdigit_not_special c Hc) as (Hs & H45 & H43).
  assert (skip_space ((c :: d) ++ r) = (c :: d) ++ r) as -> by (cbn; by rewrite Hs).
  assert (strtol_sign ((c :: d) ++ r) = (false, (c :: d) ++ r)) as ->.
  { cbn. destruct (c =? 45) eqn:E1; [lia|]. by destruct (c =? 43) eqn:E2; [lia|]. }
  rewrite span_digits_app by done. pose proof (digits_val_nonneg (c :: d) Hd).
  destruct (_ >? LLONG_MAX) eqn:E; [done|]. destruct (_ <? LLONG_MIN) eqn:E2; [unfold LLONG_MIN in *; lia|done].
Qed.

(** The scanner decides "all digits" and "at most [max]" exactly, for any length
    of input, with no wrap-around of its 64-bit accumulator. *)
Lemma env_scan_u64_spec s max :
  0 <= max < 2 ^ 64 ->
  env_scan_u64 (Some s) max =
    if negb (beq s []) && forallb isdigit s then
      if digits_val s <=? max then PARSE_UINT_OK (digits_val s) else PARSE_UINT_RANGE
    else PARSE_UINT_BAD.
Proof.
  intros Hmax. unfold env_scan_u64. destruct (beq s []) eqn:E; cbn [negb andb]; [done|].
  destruct (forallb isdigit s) eqn:Hd; [|done]. by rewrite scan_acc_spec by (done || lia).
Qed.

End Scan.

(** The string list [slist_t] as a [list bytes]; [slist_push] copies the string
    to the end (its growth is [Grow.grow_cap] with element size 8). *)
Module Slist.

Definition slist_push (s : list bytes) (str : bytes) : list bytes := s ++ [str].

(** [while (end > start && isspace(end[-1])) end--], on the reversed piece. *)
Fixpoint drop_space (s : bytes) : bytes :=
  match s with
  | c :: r => if isspace c then drop_space r else s
  | [] => []
  end.

Definition trim (s : bytes) : bytes := drop_space (rev (drop_space (rev s))).

Fixpoint skip_comma (p : bytes) : bytes :=
  match p with
  | c :: r => if c =? 44 (* ',' *) then skip_comma r else p
  | [] => []
  end.

(** Scan to the next comma or the end: the piece and the rest. *)
Fixpoint take_piece (p : bytes) : bytes * bytes :=
  match p with
  | c :: r => if c =? 44 then ([], p) else let (a, b) := take_piece r in (c :: a, b)
  | [] => ([], [])
  end.

Fixpoint csv_loop (fuel : nat) (s : list bytes) (p : bytes) : res (list bytes) :=
  match fuel with
  | O => Fault OutOfFuel
  | S fuel =>
      match p with
      | [] => Ret s
      | _ =>
          match skip_comma p with
          | [] => Ret s
          | p =>
              let (piece, rest) := take_piece p in
              let piece := trim piece in
              csv_loop fuel (if beq piece [] then s else slist_push s piece) rest
          end
      end
  end.

Definition slist_push_csv (s : list bytes) (csv : bytes) : res (list bytes) :=
  csv_loop (S (length csv)) s csv.

(** *** Properties *)

(** Reference: split at every comma, trim, drop the empty fields. *)
Fixpoint fields (p : bytes) : list bytes :=
  match p with
  | [] => [[]]
  | c :: r =>
      if c =? 44 then [] :: fields r
      else match fields r with f :: fs => (c :: f) :: fs | [] => [[c]] end
  end.

Definition csv_spec (p : bytes) : list bytes :=
  List.filter (fun f => negb (beq f [])) (map trim (fields p)).

Lemma fields_cons p : exists f fs, fields p = f :: fs.
Proof.
  destruct p as [|c p]; cbn; [by eauto|]. case_match; [by eauto|].
  destruct (fields p); by eauto.
Qed.

Lemma csv_spec_comma r : csv_spec (44 :: r) = csv_spec r.
Proof. reflexivity. Qed.

Lemma csv_spec_skip p : csv_spec (skip_comma p) = csv_spec p.
Proof.
  induction p as [|c p IH]; cbn [skip_comma]; [done|].
  destruct (c =? 44) eqn:E; [|done]. apply Z.eqb_eq in E as ->. by rewrite csv_spec_comma.
Qed.

Lemma take_piece_fields p :
  exists fs, fields p = (take_piece p).1 :: fs /\
    fields (take_piece p).2 = match (take_piece p).2 with [] => [[]] | _ => [] :: fs end /\
    (length (take_piece p).2 <= length p)%nat /\
    ((take_piece p).2 = [] -> fs = []).
Proof.
  induction p as [|c p (fs & H1 & H2 & H3 & H4)]; cbn [take_piece fields].
  - exists []. cbn. auto.
  - destruct (c =? 44) eqn:E; cbn [fst snd].
    + exists (fields p). split; [done|]. cbn [fields]. rewrite E. split_and!; (done || lia).
    + destruct (take_piece p) as [a b]. cbn [fst snd] in *. rewrite H1.
      exists fs. split; [done|]. split; [done|]. split; [cbn; lia|done].
Qed.

Lemma skip_comma_head p c r : skip_comma p = c :: r -> (c =? 44) = false /\ (length (c :: r) <= length p)%nat.
Proof.
  induction p as [|x p IH]; cbn [skip_comma]; [done|]. destruct (x =? 44) eqn:E.
  - intros H. apply IH in H as [? ?]. split; [done|]. cbn in *. lia.
  - intros [= -> ->]. done.
Qed.

Lemma csv_loop_spec fuel s p :
  (length p < fuel)%nat -> csv_loop fuel s p = Ret (s ++ csv_spec p).
Proof.
  revert s p. induction fuel as [|fuel IH]; intros s p Hf; [lia|]. cbn [csv_loop].
  destruct p as [|c0 p0]; [by rewrite app_nil_r|]. rewrite <- csv_spec_skip.
  destruct (skip_comma (c0 :: p0)) as [|c p] eqn:Hs; [by rewrite app_nil_r|].
  apply skip_comma_head in Hs as [Hc Hlen].
  destruct (take_piece_fields (c :: p)) as (fs & H1 & H2 & H3 & H4).
  destruct (take_piece (c :: p)) as [a b] eqn:Ht. cbn [fst snd] in *.
  assert (length b < length (c :: p))%nat.
  { cbn [take_piece] in Ht. rewrite Hc in Ht. destruct (take_piece_fields p) as (? & _ & _ & Hl & _).
    destruct (take_piece p). cbn [fst snd] in *. injection Ht as <- <-. cbn. lia. }
  rewrite IH by (cbn in *; lia). f_equal. unfold csv_spec. rewrite H1, H2. cbn [map List.filter].
  assert (List.filter (fun f => negb (beq f [])) (map trim match b with [] => [[]] | _ => [] :: fs end)
          = List.filter (fun f => negb (beq f [])) (map trim fs)) as ->.
  { destruct b; [by rewrite (H4 eq_refl)|done]. }
  destruct (beq (trim a) []); cbn [negb]; [done|]. unfold slist_push. by rewrite <- app_assoc.
Qed.

End Slist.

(** The token bucket behind [pace_take]. [now] is [now_us()]; [stop k] is the
    [k]-th read of [g_stop]. *)
Module Pace.

Record pace_bucket := mk_pace { pps : Z; budget : Z; last : Z }.

(** The sliced sleep: the microseconds of each [port_sleep_us]. *)
Fixpoint sleep_loop (fuel : nat) (need : Z) (stop : nat -> bool) (k : nat) : res (list Z) :=
  match fuel with
  | O => Fault OutOfFuel
  | S fuel =>
      if need >? 0 then
        let s := if need <? 10000 then need else 10000 in
        if stop k then Ret [s]
        else let! r := sleep_loop fuel (need - s) stop (S k) in Ret (s :: r)
      else Ret []
  end.

Definition pace_take (b : pace_bucket) (npk now : Z) (stop : nat -> bool) : res (pace_bucket * list Z) :=
  if pps b =? 0 then Ret (b, [])
  else
    let last0 := if last b =? 0 then now else last b in
    let budget0 := u64 (budget b + u64 (u64 (now - last0) * pps b) / 1000000) in
    let budget1 := if budget0 >? pps b / 10 then pps b / 10 else budget0 in
    if u64 npk >? budget1 then
      let need := u64 (u64 (u64 npk - budget1) * 1000000) / pps b in
      let! slept := sleep_loop (S (Z.to_nat (need / 10000 + 1))) need stop 0 in
      Ret (mk_pace (pps b) 0 now, slept)
    else Ret (mk_pace (pps b) (budget1 - u64 npk) now, []).

(** *** Properties *)

Definition total (l : list Z) : Z := fold_right Z.add 0 l.

Lemma total_cons x l : total (x :: l) = x + total l.
Proof. done. Qed.

Lemma sleep_loop_spec fuel need stop k :
  0 <= need -> need <= 10000 * (Z.of_nat fuel - 1) ->
  (forall j, stop j = false) ->
  exists l, sleep_loop fuel need stop k = Ret l /\ total l = need /\ Forall (fun s => 0 < s <= 10000) l.
Proof.
  revert need k. induction fuel as [|fuel IH]; intros need k Hn Hf Hs; [lia|]. cbn [sleep_loop].
  destruct (need >? 0) eqn:E1; [|exists []; cbn; split_and!; [done|lia|constructor]].
  rewrite Hs. destruct (need <? 10000) eqn:E2.
  - destruct (IH (need - need) (S k)) as (l & -> & Ht & Hl); [lia..|done|].
    eexists. split_and!; [done|rewrite total_cons; lia|]. constructor; [lia|done].
  - destruct (IH (need - 10000) (S k)) as (l & -> & Ht & Hl); [lia..|done|].
    eexists. split_and!; [done|rewrite total_cons; lia|]. constructor; [lia|done].
Qed.

(** The invariant: the budget never exceeds a tenth of a second. *)
Definition pace_wf (b : pace_bucket) : Prop :=
  0 <= pps b <= 10000000 /\ 0 <= budget b <= pps b / 10 /\ 0 <= last b < 2 ^ 64.

(** With [g_stop] clear, [pace_take] keeps the invariant and, when the budget does
    not cover the packets, sleeps for exactly the time the missing packets take
    at [pps], in slices of at most 10 ms. *)
Lemma pace_take_spec b npk now stop :
  pace_wf b -> 0 < pps b -> 0 <= npk < 2 ^ 31 -> 0 <= now < 2 ^ 64 ->
  last b <= now -> (now - last b) * pps b < 2 ^ 63 -> (forall j, stop j = false) ->
  let credit := if last b =? 0 then 0 else (now - last b) * pps b / 1000000 in
  let avail := Z.min (budget b + credit) (pps b / 10) in
  exists b' slept, pace_take b npk now stop = Ret (b', slept) /\ pace_wf b' /\
    total slept = Z.max 0 (npk - avail) * 1000000 / pps b /\
    Forall (fun s => 0 < s <= 10000) slept /\
    budget b' = Z.max 0 (avail - npk) /\ last b' = now.
Proof.
  intros (Hp & Hb & Hl) Hpos Hn Hnow Hle Hmul Hs credit avail.
  unfold pace_take. destruct (pps b =? 0) eqn:E0; [lia|].
  set (l0 := if last b =? 0 then now else last b).
  assert (l0 <= now /\ 0 <= l0 /\ credit = (now - l0) * pps b / 1000000 /\ 0 <= (now - l0) * pps b < 2 ^ 63)
    as (Hl0 & Hl0' & Hc & Hm).
  { unfold l0, credit. destruct (last b =? 0) eqn:E; [|nia].
    replace (now - now) with 0 by lia. cbn. lia. }
  rewrite (u64_small (now - l0)), (u64_small ((now - l0) * pps b)), (u64_small npk) by lia.
  rewrite <- Hc. assert (0 <= credit < 2 ^ 63) by (rewrite Hc; lia).
  rewrite (u64_small (budget b + credit)) by lia.
  assert ((if budget b + credit >? pps b / 10 then pps b / 10 else budget b + credit) = avail) as ->.
  { unfold avail. destruct (_ >? _) eqn:?; lia. }
  assert (0 <= avail <= pps b / 10) by (unfold avail; lia).
  destruct (npk >? avail) eqn:E.
  - rewrite (u64_small (npk - avail)), (u64_small ((npk - avail) * 1000000)) by lia.
    set (need := (npk - avail) * 1000000 / pps b).
    assert (0 <= need) by (apply Z.div_pos; lia).
    destruct (sleep_loop_spec (S (Z.to_nat (need / 10000 + 1))) need stop 0) as (l & -> & Ht & Hf);
      [done|lia|done|].
    eexists _, l. split; [done|]. unfold pace_wf. cbn [pps budget last].
    rewrite (Z.max_r 0 (npk - avail)) by lia. fold need. split_and!; (done || lia).
  - eexists _, []. split; [done|]. unfold pace_wf. cbn [pps budget last].
    rewrite (Z.max_l 0 (npk - avail)) by lia. split_and!; try (done || lia).
Qed.

End Pace.
