(* ===== verification/Crypto.v ===== *)
(** * Digests, keys, XOR stream, hex and base64 (src/src/common/crypto.c, gcm.c)

    OpenSSL is outside the repository: the class [OpenSSL] names the primitives
    the code calls, [OpenSSLLaws] the documented facts about them that theorems
    use.  A digest or an allocation that fails makes the program abort; the model
    follows the runs that continue.  A failing cipher call is [None]. *)

From S2P Require Import Prelude.

Class OpenSSL := {
  (* EVP_Digest with EVP_md5() and EVP_sha256() *)
  EVP_md5 : bytes -> bytes;
  EVP_sha256 : bytes -> bytes;
  (* key -> one 16-byte block -> its ECB encryption, padding off *)
  EVP_aes_128_ecb : bytes -> bytes -> option bytes;
  (* key -> nonce -> aad -> ciphertext -> tag -> plaintext if the tag verifies *)
  EVP_aes_256_gcm : bytes -> bytes -> bytes -> bytes -> bytes -> option bytes;
  (* base64 with padding *)
  EVP_EncodeBlock : bytes -> bytes
}.

(** ** Hexadecimal *)

Definition hex_nibble (c : Z) : Z :=
  if (48 <=? c) && (c <=? 57) then c - 48
  else if (97 <=? c) && (c <=? 102) then c - 97 + 10
  else if (65 <=? c) && (c <=? 70) then c - 65 + 10
  else -1.

Definition HEX_DIGITS : bytes := lit "0123456789abcdef".

Fixpoint hex_encode (b : bytes) : bytes :=
  match b with
  | [] => []
  | x :: r => HEX_DIGITS.[Z.shiftr x 4] :: HEX_DIGITS.[Z.land x 15] :: hex_encode r
  end.

(** The pair loop of [hex_decode], [i] counting up to [n]. *)
Fixpoint hex_pairs (hex : bytes) (k : nat) (i : Z) : res (option bytes) :=
  match k with
  | O => Ret (Some [])
  | S k =>
      let! h := rd hex (2 * i) in
      let! l := rd hex (2 * i + 1) in
      let hi := hex_nibble h in
      let lo := hex_nibble l in
      if (hi <? 0) || (lo <? 0) then Ret None
      else
        let! r := hex_pairs hex k (i + 1) in
        Ret (match r with
             | Some o => Some (u8 (Z.lor (Z.shiftl hi 4) lo) :: o)
             | None => None
             end)
  end.

(** [hex_decode(hex, hexlen, out, outcap)]: the bytes written, [None] for -1. *)
Definition hex_decode (hex : bytes) (outcap : Z) : res (option bytes) :=
  let hexlen := zlen hex in
  if negb (hexlen mod 2 =? 0) then Ret None
  else
    let n := hexlen / 2 in
    if n >? outcap then Ret None else hex_pairs hex (Z.to_nat n) 0.

(** ** Base64 *)

Definition b64_char_val (c : Z) : Z :=
  if (65 <=? c) && (c <=? 90) then c - 65
  else if (97 <=? c) && (c <=? 122) then c - 97 + 26
  else if (48 <=? c) && (c <=? 57) then c - 48 + 52
  else if (c =? 43) || (c =? 45) then 62
  else if (c =? 47) || (c =? 95) then 63
  else -1.

(** [while (n > 0 && s[n - 1] == '=') n--] *)
Fixpoint strip_pad (s : bytes) (n : nat) : nat :=
  match n with
  | O => O
  | S m => if s.[Z.of_nat m] =? 61 then strip_pad s m else n
  end.

Definition b64_quad (a b c d : Z) : bytes :=
  [u8 (Z.lor (Z.shiftl a 2) (Z.shiftr b 4));
   u8 (Z.lor (Z.shiftl (Z.land b 15) 4) (Z.shiftr c 2));
   u8 (Z.lor (Z.shiftl (Z.land c 3) 6) d)].

(** The loop over full groups of four, then the remainder ([rem] = 0, 2 or 3). *)
Fixpoint b64_groups (s : bytes) (full : nat) (i rem : Z) : res (option bytes) :=
  match full with
  | S full =>
      let! ca := rd s (i * 4) in
      let! cb := rd s (i * 4 + 1) in
      let! cc := rd s (i * 4 + 2) in
      let! cd := rd s (i * 4 + 3) in
      let a := b64_char_val ca in
      let b := b64_char_val cb in
      let c := b64_char_val cc in
      let d := b64_char_val cd in
      if (a <? 0) || (b <? 0) || (c <? 0) || (d <? 0) then Ret None
      else
        let! r := b64_groups s full (i + 1) rem in
        Ret (match r with Some o => Some (b64_quad a b c d ++ o) | None => None end)
  | O =>
      if rem >=? 2 then
        let! ca := rd s (i * 4) in
        let! cb := rd s (i * 4 + 1) in
        let a := b64_char_val ca in
        let b := b64_char_val cb in
        if (a <? 0) || (b <? 0) then Ret None
        else
          let o1 := u8 (Z.lor (Z.shiftl a 2) (Z.shiftr b 4)) in
          if rem =? 3 then
            let! cc := rd s (i * 4 + 2) in
            let c := b64_char_val cc in
            if c <? 0 then Ret None
            else Ret (Some [o1; u8 (Z.lor (Z.shiftl (Z.land b 15) 4) (Z.shiftr c 2))])
          else Ret (Some [o1])
      else Ret (Some [])
  end.

Definition b64_decode_raw (s : bytes) : res (option bytes) :=
  let n := Z.of_nat (strip_pad s (length s)) in
  if n =? 0 then Ret None
  else
    let rem := n mod 4 in
    if rem =? 1 then Ret None
    else b64_groups s (Z.to_nat (n / 4)) 0 rem.

Definition b64url_decode (s : bytes) : res (option bytes) :=
  if zlen s =? 0 then Ret None else b64_decode_raw s.

(** The alphabet translation and the removal of padding of [b64url_no_pad]. *)
Definition b64_url_char (c : Z) : Z := if c =? 43 then 45 else if c =? 47 then 95 else c.

Definition b64url_no_pad `{OpenSSL} (data : bytes) : bytes :=
  let out := map b64_url_char (EVP_EncodeBlock data) in
  take (strip_pad out (length out)) out.

(** ** The XOR stream of the data path *)

(** A 64-bit load and store on a little-endian machine. *)
Fixpoint load_le (b : bytes) : Z :=
  match b with
  | [] => 0
  | x :: r => x + 256 * load_le r
  end.

Fixpoint store_le (n : nat) (v : Z) : bytes :=
  match n with
  | O => []
  | S n => u8 v :: store_le n (Z.shiftr v 8)
  end.

(** One iteration per 8-byte word; the aligned and the [memcpy] branch of the code
    load and store the same words. *)
Fixpoint xor_words (words : nat) (data : bytes) (k64 : Z) : bytes :=
  match words with
  | O => []
  | S w => store_le 8 (Z.lxor (load_le (take 8 data)) k64) ++ xor_words w (drop 8 data) k64
  end.

(** [for (; i < len; i++) data[i] ^= key[ix i]] *)
Fixpoint xor_bytes (ix : Z -> Z) (i : Z) (data key : bytes) : bytes :=
  match data with
  | [] => []
  | x :: r => Z.lxor x key.[ix i] :: xor_bytes ix (i + 1) r key
  end.

Definition xor_crypt (data key : bytes) : bytes :=
  let len := zlen data in
  let klen := zlen key in
  if klen =? 0 then data
  else if (klen =? 8) && (len >=? 8) then
    let n8 := Z.land len (Z.lnot 7) in
    xor_words (Z.to_nat (n8 / 8)) (slice data 0 n8) (load_le key) ++
    xor_bytes (fun i => Z.land i 7) n8 (slice data n8 (len - n8)) key
  else xor_bytes (fun i => i mod klen) 0 data key.

(** ** Constant-time comparison and scrubbing *)

Fixpoint ct_loop (a b : bytes) (k : nat) (i d : Z) : res Z :=
  match k with
  | O => Ret d
  | S k =>
      let! x := rd a i in
      let! y := rd b i in
      ct_loop a b k (i + 1) (Z.lor d (Z.lxor x y))
  end.

Definition ct_eq (a b : bytes) (n : Z) : res bool :=
  let! d := ct_loop a b (Z.to_nat n) 0 0 in Ret (d =? 0).

Definition wipe (p : bytes) : bytes := fill 0 (zlen p).

(** ** Key derivation *)

Definition IWAN_MW : bytes := lit "mw".

Section Keys.
Context `{OpenSSL}.

Definition md5 (d : bytes) : bytes := take 16 (EVP_md5 d).
Definition sha256 (d : bytes) : bytes := take 32 (EVP_sha256 d).

(** Returns the status (0 or -1) and the 16 bytes of [out]. *)
Definition encrypt_password (plain username : bytes) : Z * bytes :=
  let key := md5 (IWAN_MW ++ username) in
  let plen := if zlen plain >? 16 then 16 else zlen plain in
  let pt := slice plain 0 plen ++ fill 0 (16 - plen) in
  match EVP_aes_128_ecb key pt with
  | Some ct => (0, ct)
  | None => (-1, fill 0 16)
  end.

Definition session_key (username password : bytes) : bytes := md5 (username ++ password).

Definition GCM_NONCE_LEN : Z := 12.
Definition GCM_TAG_LEN : Z := 16.
Definition INT_MAX : Z := 2 ^ 31 - 1.

Definition gcm_decrypt (key nonce ct_tag aad : bytes) : option bytes :=
  if zlen ct_tag <? GCM_TAG_LEN then None
  else
    let ct_len := zlen ct_tag - GCM_TAG_LEN in
    if (zlen aad >? INT_MAX) || (ct_len >? INT_MAX) then None
    else EVP_aes_256_gcm key nonce aad (slice ct_tag 0 ct_len) (slice ct_tag ct_len GCM_TAG_LEN).

Definition decrypt_password (encrypted_b64 app_secret domain username : bytes) : res (option bytes) :=
  let aad := domain ++ [124 (* '|' *)] ++ username in
  let key := sha256 (app_secret ++ [124] ++ aad) in
  let! r := b64url_decode encrypted_b64 in
  match r with
  | None => Ret None
  | Some data =>
      if zlen data <? GCM_NONCE_LEN + GCM_TAG_LEN then Ret None
      else
        let! nonce := rdn data 0 GCM_NONCE_LEN in
        let! ct_tag := rdn data GCM_NONCE_LEN (zlen data - GCM_NONCE_LEN) in
        Ret (gcm_decrypt key nonce ct_tag aad)
  end.

End Keys.

(** ** Properties *)

Lemma hex_encode_len b : zlen (hex_encode b) = 2 * zlen b.
Proof. induction b as [|x b IH]; cbn [hex_encode]; zlia. Qed.

Lemma hex_byte x :
  is_byte x ->
  let hi := hex_nibble HEX_DIGITS.[Z.shiftr x 4] in
  let lo := hex_nibble HEX_DIGITS.[Z.land x 15] in
  0 <= hi /\ 0 <= lo /\ u8 (Z.lor (Z.shiftl hi 4) lo) = x.
Proof.
  intros Hx.
  pose proof (below_spec 256 (fun x =>
    let hi := hex_nibble HEX_DIGITS.[Z.shiftr x 4] in
    let lo := hex_nibble HEX_DIGITS.[Z.land x 15] in
    (0 <=? hi) && (0 <=? lo) && (u8 (Z.lor (Z.shiftl hi 4) lo) =? x)) ltac:(vm_compute; reflexivity)
    x Hx) as H. cbn beta zeta in *. lia.
Qed.

Lemma hex_pairs_encode b : forall p i,
  bytes_ok b -> zlen p = 2 * i ->
  hex_pairs (p ++ hex_encode b) (length b) i = Ret (Some b).
Proof.
  induction b as [|x b IH]; intros p i Hb Hp; [done|]. inversion Hb as [|? ? Hx Hb']; subst.
  cbn [hex_pairs length hex_encode].
  assert (0 <= i) by (pose proof (zlen_nonneg p); lia).
  pose proof (zlen_nonneg (hex_encode b)). rds.
  rewrite !at_app_r by lia. rewrite Hp.
  replace (2 * i - 2 * i) with 0 by lia. replace (2 * i + 1 - 2 * i) with 1 by lia.
  rewrite at_cons_0. change (_ :: _ :: ?r).[1] with (HEX_DIGITS.[Z.land x 15]).
  destruct (hex_byte x Hx) as (Hh & Hl & Hv). cbn zeta in *.
  destruct (_ || _) eqn:E; [lia|].
  replace (p ++ _ :: _ :: hex_encode b)
    with ((p ++ [HEX_DIGITS.[Z.shiftr x 4]; HEX_DIGITS.[Z.land x 15]]) ++ hex_encode b)
    by by rewrite <- app_assoc.
  rewrite IH; [|done|zlia]. cbn [rbind]. by rewrite Hv.
Qed.

Lemma hex_pairs_safe hex k i :
  0 <= i -> 2 * (i + Z.of_nat k) <= zlen hex -> no_fault (hex_pairs hex k i).
Proof.
  revert i. induction k as [|k IH]; intros i Hi Hk; [by eexists|]. cbn [hex_pairs]. rds.
  destruct (_ || _); [by eexists|]. destruct (IH (i + 1)) as [r ->]; [lia..|]. by eexists.
Qed.

(** Every byte of a decoded text is the value of its two digits. *)
Lemma hex_pairs_exact hex k i b :
  0 <= i -> 2 * (i + Z.of_nat k) <= zlen hex -> hex_pairs hex k i = Ret (Some b) ->
  length b = k /\ bytes_ok b /\
  forall j, 0 <= j < Z.of_nat k ->
    b.[j] = hex_nibble hex.[2 * (i + j)] * 16 + hex_nibble hex.[2 * (i + j) + 1].
Proof.
  revert i b. induction k as [|k IH]; intros i b Hi Hk.
  - intros [= <-]. split_and!; [done|constructor|lia].
  - cbn [hex_pairs]. rds. destruct (_ || _) eqn:E; [done|].
    destruct (hex_pairs hex k (i + 1)) as [[r|]|] eqn:Hr; cbn [rbind]; [|done..].
    intros [= <-]. apply IH in Hr as (Hl & Hok & Hj); [|lia..].
    assert (forall c, hex_nibble c < 16) as Hn by (intros c; unfold hex_nibble; ifs; lia).
    pose proof (Hn hex.[2 * i]). pose proof (Hn hex.[2 * i + 1]).
    rewrite lor_shiftl_add by lia.
    split_and!; [cbn; lia|constructor; [apply u8_range|done]|].
    intros j Hj'. destruct (decide (j = 0)) as [->|].
    + rewrite at_cons_0, u8_small by lia. rewrite Z.add_0_r. lia.
    + rewrite at_cons_pos, Hj by lia. by replace (i + 1 + (j - 1)) with (i + j) by lia.
Qed.

(** *** Base64 *)

(** RFC 4648 section 4, the encoding EVP_EncodeBlock documents. *)
Definition b64_alphabet : bytes :=
  lit "ABCDEFGHIJKLMNOPQRSTUVWXYZabcdefghijklmnopqrstuvwxyz0123456789+/".

Fixpoint b64_std (d : bytes) : bytes :=
  match d with
  | [] => []
  | [a] => [b64_alphabet.[a / 4]; b64_alphabet.[a mod 4 * 16]; 61; 61]
  | [a; b] =>
      [b64_alphabet.[a / 4]; b64_alphabet.[a mod 4 * 16 + b / 16]; b64_alphabet.[b mod 16 * 4]; 61]
  | a :: b :: c :: r =>
      b64_alphabet.[a / 4] :: b64_alphabet.[a mod 4 * 16 + b / 16] ::
      b64_alphabet.[b mod 16 * 4 + c / 64] :: b64_alphabet.[c mod 64] :: b64_std r
  end.

Class OpenSSLLaws `{OpenSSL} := {
  EVP_md5_len : forall d, zlen (EVP_md5 d) = 16;
  EVP_md5_bytes : forall d, bytes_ok (EVP_md5 d);
  EVP_sha256_len : forall d, zlen (EVP_sha256 d) = 32;
  EVP_sha256_bytes : forall d, bytes_ok (EVP_sha256 d);
  EVP_aes_128_ecb_len : forall k b c, EVP_aes_128_ecb k b = Some c -> zlen c = 16;
  EVP_aes_128_ecb_bytes : forall k b c, EVP_aes_128_ecb k b = Some c -> bytes_ok c;
  EVP_EncodeBlock_std : forall d, EVP_EncodeBlock d = b64_std d
}.

(** The same text without padding and in the URL alphabet. *)
Definition b64_url_alphabet (v : Z) : Z := b64_url_char b64_alphabet.[v].

Fixpoint b64_url (d : bytes) : bytes :=
  match d with
  | [] => []
  | [a] => [b64_url_alphabet (a / 4); b64_url_alphabet (a mod 4 * 16)]
  | [a; b] =>
      [b64_url_alphabet (a / 4); b64_url_alphabet (a mod 4 * 16 + b / 16);
       b64_url_alphabet (b mod 16 * 4)]
  | a :: b :: c :: r =>
      b64_url_alphabet (a / 4) :: b64_url_alphabet (a mod 4 * 16 + b / 16) ::
      b64_url_alphabet (b mod 16 * 4 + c / 64) :: b64_url_alphabet (c mod 64) :: b64_url r
  end.

(** Induction three bytes at a time. *)
Lemma list_ind3 (P : bytes -> Prop) :
  P [] -> (forall a, P [a]) -> (forall a b, P [a; b]) ->
  (forall a b c r, P r -> P (a :: b :: c :: r)) -> forall l, P l.
Proof.
  intros H0 H1 H2 H3. refine (fix IH l := _).
  destruct l as [|a [|b [|c r]]]; [apply H0|apply H1|apply H2|apply H3, IH].
Qed.

Definition b64_pad_of (d : bytes) : bytes :=
  match (length d mod 3)%nat with 1%nat => [61; 61] | 2%nat => [61] | _ => [] end.

Lemma b64_std_url d : map b64_url_char (b64_std d) = b64_url d ++ b64_pad_of d.
Proof.
  induction d as [|a|a b|a b c r IH] using list_ind3; try reflexivity.
  cbn [b64_std b64_url map app]. rewrite IH. unfold b64_url_alphabet.
  replace (b64_pad_of (a :: b :: c :: r)) with (b64_pad_of r); [done|].
  unfold b64_pad_of. replace (length (a :: b :: c :: r)) with (length r + 1 * 3)%nat by (cbn; lia).
  by rewrite Nat.Div0.mod_add.
Qed.

Lemma b64_alpha v :
  0 <= v < 64 -> b64_char_val (b64_url_alphabet v) = v /\ b64_url_alphabet v <> 61.
Proof.
  intros Hv. pose proof (below_spec 64 (fun v =>
    (b64_char_val (b64_url_alphabet v) =? v) && negb (b64_url_alphabet v =? 61))
    ltac:(vm_compute; reflexivity) v Hv). cbn beta in *. lia.
Qed.

Lemma b64_val v : 0 <= v < 64 -> b64_char_val (b64_url_alphabet v) = v.
Proof. apply b64_alpha. Qed.

Lemma b64_url_no_pad_char d : bytes_ok d -> Forall (fun c => c <> 61) (b64_url d).
Proof.
  induction d as [|a|a b|a b c r IH] using list_ind3; intros H;
    repeat (apply Forall_cons in H as [? H]); unfold is_byte in *; cbn [b64_url];
    repeat constructor; try (apply b64_alpha; lia). by apply IH.
Qed.

Lemma strip_pad_app s k e :
  Forall (fun c => c = 61) e -> length e = k -> (forall c, last s = Some c -> c <> 61) ->
  strip_pad (s ++ e) (length s + k) = length s.
Proof.
  revert e. induction k as [|k IH]; intros e He Hk Hs.
  - apply nil_length_inv in Hk as ->. rewrite app_nil_r, Nat.add_0_r.
    destruct s as [|c s'] using rev_ind; [done|]. clear IHs'.
    rewrite length_app, Nat.add_1_r. cbn [strip_pad].
    rewrite at_app_r by (unfold zlen; lia). unfold zlen. rewrite Z.sub_diag, at_cons_0.
    specialize (Hs c). rewrite last_snoc in Hs. destruct (c =? 61) eqn:E; [|done].
    exfalso. apply Hs; [done|lia].
  - rewrite Nat.add_succ_r. cbn [strip_pad].
    rewrite at_app_r by (unfold zlen; lia).
    replace (e.[_]) with 61.
    2:{ symmetry. apply (Forall_lookup_1 _ _ k _ He). rewrite <- (Nat2Z.id k) at 1.
        replace (Z.of_nat (length s + k) - zlen s) with (Z.of_nat k) by (unfold zlen; lia).
        apply at_lookup. unfold zlen. lia. }
    cbn. destruct e as [|x e' _] using rev_ind; [done|].
    rewrite length_app in Hk. cbn in Hk. apply Forall_app in He as [He _].
    rewrite app_assoc.
    assert (forall n l x, (n <= length l)%nat -> strip_pad (l ++ [x]) n = strip_pad l n) as Hx.
    { clear. induction n as [|n IH]; intros l x Hn; [done|]. cbn [strip_pad].
      rewrite at_app_l by (unfold zlen; lia). case_match; [apply IH; lia|done]. }
    rewrite Hx by (rewrite length_app; lia). apply IH; [done|lia|done].
Qed.

Lemma b64_b1 a b : is_byte a -> is_byte b ->
  u8 (Z.lor (Z.shiftl (a / 4) 2) (Z.shiftr (a mod 4 * 16 + b / 16) 4)) = a.
Proof.
  unfold is_byte. intros. rewrite Z.shiftr_div_pow2 by lia. change (2 ^ 4) with 16.
  replace ((a mod 4 * 16 + b / 16) / 16) with (a mod 4) by lia.
  rewrite lor_shiftl_add by lia. rewrite u8_small; lia.
Qed.

Lemma b64_b2 a b c : is_byte a -> is_byte b -> is_byte c ->
  u8 (Z.lor (Z.shiftl (Z.land (a mod 4 * 16 + b / 16) 15) 4) (Z.shiftr (b mod 16 * 4 + c / 64) 2)) = b.
Proof.
  unfold is_byte. intros. change 15 with (Z.ones 4). rewrite Z.land_ones, Z.shiftr_div_pow2 by lia.
  change (2 ^ 4) with 16. change (2 ^ 2) with 4.
  replace ((a mod 4 * 16 + b / 16) mod 16) with (b / 16) by lia.
  replace ((b mod 16 * 4 + c / 64) / 4) with (b mod 16) by lia.
  rewrite lor_shiftl_add by lia. rewrite u8_small; lia.
Qed.

Lemma b64_b3 b c : is_byte b -> is_byte c ->
  u8 (Z.lor (Z.shiftl (Z.land (b mod 16 * 4 + c / 64) 3) 6) (c mod 64)) = c.
Proof.
  unfold is_byte. intros. change 3 with (Z.ones 2). rewrite Z.land_ones by lia.
  change (2 ^ 2) with 4. replace ((b mod 16 * 4 + c / 64) mod 4) with (c / 64) by lia.
  rewrite lor_shiftl_add by lia. rewrite u8_small; lia.
Qed.

Definition b64_rem (d : bytes) : Z :=
  match (length d mod 3)%nat with 1%nat => 2 | 2%nat => 3 | _ => 0 end.

(** Reading the characters of an encoded group that follows [p]. *)
Lemma at_after p l i j : zlen p = i -> 0 <= j -> (p ++ l).[i + j] = l.[j].
Proof.
  intros <- Hj. pose proof (zlen_nonneg p). rewrite at_app_r by lia. f_equal. lia.
Qed.

Lemma rd_after p l i j : zlen p = i -> 0 <= j < zlen l -> rd (p ++ l) (i + j) = Ret l.[j].
Proof.
  intros Hp Hj. pose proof (zlen_nonneg p). rewrite rd_ok by zlia. by rewrite at_after by lia.
Qed.

Lemma rd_after0 p l i : zlen p = i -> 0 < zlen l -> rd (p ++ l) i = Ret l.[0].
Proof. intros. rewrite <- (Z.add_0_r i). apply rd_after; lia. Qed.

Ltac b64_group :=
  rewrite rd_after0 by zlia; rewrite ?rd_after by zlia; cbn [rbind];
  repeat first [rewrite at_cons_0 | rewrite at_cons_pos by lia];
  rewrite ?b64_val by lia.

Lemma b64_groups_url d : forall p i,
  bytes_ok d -> zlen p = i * 4 ->
  b64_groups (p ++ b64_url d) (length d / 3) i (b64_rem d) = Ret (Some d).
Proof.
  induction d as [|a|a b|a b c r IH] using list_ind3; intros p i H Hp;
    repeat (apply Forall_cons in H as [? H]).
  - done.
  - change (length [a] / 3)%nat with 0%nat. change (b64_rem [a]) with 2. cbn [b64_groups b64_url].
    assert (is_byte 0) by done. unfold is_byte in *. b64_group.
    destruct (_ || _) eqn:E; [lia|]. cbn.
    pose proof (b64_b1 a 0) as Hb. rewrite Z.add_0_r in Hb. by rewrite Hb.
  - change (length [a; b] / 3)%nat with 0%nat. change (b64_rem [a; b]) with 3. cbn [b64_groups b64_url].
    unfold is_byte in *. b64_group.
    destruct (_ || _) eqn:E; [lia|]. cbn [Z.eqb Z.geb Z.compare Pos.compare Pos.compare_cont Pos.eqb].
    change (3 >=? 2) with true. change (3 =? 3) with true. cbn [rbind].
    destruct (b mod 16 * 4 <? 0) eqn:E2; [lia|].
    pose proof (b64_b2 a b 0) as Hb. rewrite Z.add_0_r in Hb. by rewrite b64_b1, Hb.
  - replace (length (a :: b :: c :: r) / 3)%nat with (S (length r / 3)).
    2:{ replace (length (a :: b :: c :: r)) with (length r + 1 * 3)%nat by (cbn; lia).
        rewrite Nat.div_add by lia. lia. }
    replace (b64_rem (a :: b :: c :: r)) with (b64_rem r).
    2:{ unfold b64_rem. replace (length (a :: b :: c :: r)) with (length r + 1 * 3)%nat by (cbn; lia).
        by rewrite Nat.Div0.mod_add. }
    cbn [b64_groups b64_url]. pose proof (zlen_nonneg (b64_url r)). unfold is_byte in *. b64_group.
    destruct (_ || _) eqn:E; [lia|].
    match goal with |- context [b64_groups (p ++ ?w :: ?x :: ?y :: ?z :: b64_url r)] =>
      replace (p ++ w :: x :: y :: z :: b64_url r) with ((p ++ [w; x; y; z]) ++ b64_url r)
        by by rewrite <- app_assoc end.
    rewrite IH; [|done|zlia]. cbn [rbind]. unfold b64_quad. by rewrite b64_b1, b64_b2, b64_b3.
Qed.

Lemma b64_url_len d :
  zlen (b64_url d) = 4 * Z.of_nat (length d / 3) + b64_rem d.
Proof.
  induction d as [|a|a b|a b c r IH] using list_ind3; try reflexivity.
  cbn [b64_url]. rewrite !zlen_cons, IH. unfold b64_rem.
  replace (length (a :: b :: c :: r)) with (length r + 1 * 3)%nat by (cbn; lia).
  rewrite Nat.Div0.mod_add, Nat.div_add by lia. lia.
Qed.

Lemma b64_groups_safe s full i rem :
  0 <= i -> 0 <= rem <= 3 -> (i + Z.of_nat full) * 4 + rem <= zlen s ->
  no_fault (b64_groups s full i rem).
Proof.
  revert i. induction full as [|full IH]; intros i Hi Hr Hl; cbn [b64_groups].
  - destruct (rem >=? 2) eqn:E; [|by eexists]. rds. case_match; [by eexists|].
    destruct (rem =? 3) eqn:E3; [|by eexists]. rds. case_match; by eexists.
  - rds. case_match; [by eexists|]. destruct (IH (i + 1)) as [o ->]; [lia..|]. by eexists.
Qed.

Lemma strip_pad_le s n : (strip_pad s n <= n)%nat.
Proof. induction n as [|n IH]; cbn [strip_pad]; [lia|]. case_match; lia. Qed.

Lemma b64_decode_raw_safe s : no_fault (b64_decode_raw s).
Proof.
  unfold b64_decode_raw. case_match; [by eexists|]. case_match; [by eexists|].
  pose proof (strip_pad_le s (length s)). apply b64_groups_safe; unfold zlen; lia.
Qed.

(** *** XOR *)

(** Reference: byte [i] of the text with byte [i mod klen] of the key. *)
Definition xor_ref (data key : bytes) : bytes :=
  imap (fun i x => Z.lxor x key.[Z.of_nat i mod zlen key]) data.

Lemma xor_bytes_imap ix i data key :
  0 <= i ->
  xor_bytes ix i data key = imap (fun j x => Z.lxor x key.[ix (i + Z.of_nat j)]) data.
Proof.
  revert i. induction data as [|x r IH]; intros i Hi; [done|]. cbn [xor_bytes].
  rewrite imap_cons, Z.add_0_r. f_equal. rewrite IH by lia. apply imap_ext. intros j y _. cbn.
  by replace (i + 1 + Z.of_nat j) with (i + Z.of_nat (S j)) by lia.
Qed.

Lemma u8_lxor a b : u8 (Z.lxor a b) = Z.lxor (u8 a) (u8 b).
Proof.
  unfold u8. rewrite <- !Z.land_ones by lia. apply Z.bits_inj'. intros k Hk.
  rewrite Z.land_spec, !Z.lxor_spec, !Z.land_spec. by destruct (Z.testbit a k), (Z.testbit b k), (Z.testbit (Z.ones 8) k).
Qed.

Lemma store_lxor n a b :
  store_le n (Z.lxor a b) = zip_with Z.lxor (store_le n a) (store_le n b).
Proof.
  revert a b. induction n as [|n IH]; intros a b; [done|]. cbn [store_le zip_with].
  by rewrite u8_lxor, Z.shiftr_lxor, IH.
Qed.

Lemma store_load b : bytes_ok b -> store_le (length b) (load_le b) = b.
Proof.
  induction b as [|x b IH]; intros H; [done|]. inversion H as [|? ? Hx Hb]; subst.
  cbn [store_le load_le length]. unfold is_byte in Hx. rewrite Z.shiftr_div_pow2 by lia.
  change (2 ^ 8) with 256. f_equal; [unfold u8; lia|].
  replace ((x + 256 * load_le b) / 256) with (load_le b) by lia. auto.
Qed.

Lemma xor_words_spec w data key :
  bytes_ok data -> bytes_ok key -> length key = 8%nat -> length data = (8 * w)%nat ->
  xor_words w data (load_le key) = xor_ref data key.
Proof.
  intros Hd Hk Hlk. revert data Hd. induction w as [|w IH]; intros data Hd Hl.
  - by destruct data.
  - cbn [xor_words]. rewrite IH; [|by apply Forall_drop|rewrite length_drop; lia].
    rewrite <- (take_drop 8 data) at 3. unfold xor_ref. rewrite imap_app, length_take.
    rewrite store_lxor. f_equal.
    + rewrite <- Hlk at 3. rewrite store_load by done.
      replace 8%nat with (length (take 8 data)) at 1 by (rewrite length_take; lia).
      rewrite store_load by by apply Forall_take.
      do 8 (destruct data as [|? data]; [cbn in Hl; lia|]).
      do 8 (destruct key as [|? key]; [cbn in Hlk; lia|]). destruct key; [|cbn in Hlk; lia].
      reflexivity.
    + apply imap_ext. intros i x _. cbn beta. unfold zlen. rewrite Hlk.
      assert (Z.of_nat i mod Z.of_nat 8 = Z.of_nat (8 `min` length data + i) mod Z.of_nat 8) as E by lia.
      cbn [compose]. by rewrite E.
Qed.

Lemma xor_crypt_ref data key :
  bytes_ok data -> bytes_ok key -> 0 < zlen key -> xor_crypt data key = xor_ref data key.
Proof.
  intros Hd Hk Hl. unfold xor_crypt. destruct (zlen key =? 0) eqn:E0; [lia|].
  destruct ((zlen key =? 8) && (zlen data >=? 8)) eqn:E8.
  - assert (Z.land (zlen data) (Z.lnot 7) = 8 * (zlen data / 8)) as ->.
    { change 7 with (Z.ones 3). rewrite <- Z.ldiff_land, Z.ldiff_ones_r, Z.shiftr_div_pow2, Z.shiftl_mul_pow2 by lia.
      change (2 ^ 3) with 8. lia. }
    set (q := zlen data / 8). assert (0 <= q) by (unfold q; lia).
    rewrite xor_words_spec; [|by apply bytes_ok_slice|done|unfold zlen in *; lia|].
    2:{ assert (zlen (slice data 0 (8 * q)) = 8 * q) as Hs by (apply zlen_slice; unfold q; lia).
        unfold zlen in Hs. lia. }
    rewrite xor_bytes_imap by lia.
    rewrite <- (take_drop (Z.to_nat (8 * q)) data) at 4. unfold xor_ref. rewrite imap_app.
    assert (slice data 0 (8 * q) = take (Z.to_nat (8 * q)) data) as -> by done.
    f_equal. unfold slice. rewrite take_ge.
    2:{ rewrite length_drop. unfold zlen in *. lia. }
    apply imap_ext. intros i x _. cbn. f_equal. f_equal.
    rewrite length_take. change 7 with (Z.ones 3). rewrite Z.land_ones by lia. change (2 ^ 3) with 8.
    unfold zlen in *. replace (Z.of_nat (length key)) with 8 by lia. f_equal. lia.
  - by rewrite xor_bytes_imap by lia.
Qed.

Lemma lxor_byte a b : is_byte a -> is_byte b -> is_byte (Z.lxor a b).
Proof.
  intros Ha Hb. rewrite <- (u8_small a), <- (u8_small b), <- u8_lxor by done. apply u8_range.
Qed.

Lemma xor_ref_ok data key : bytes_ok data -> bytes_ok key -> bytes_ok (xor_ref data key).
Proof.
  intros Hd Hk. apply Forall_lookup. intros i x Hx. unfold xor_ref in Hx.
  rewrite list_lookup_imap in Hx. destruct (data !! i) eqn:E; [|done]. injection Hx as <-.
  apply lxor_byte; [by apply (Forall_lookup_1 _ _ _ _ Hd E)|]. by apply at_byte.
Qed.

Lemma xor_ref_invol data key : xor_ref (xor_ref data key) key = data.
Proof.
  apply list_eq. intros i. unfold xor_ref. rewrite !list_lookup_imap.
  destruct (data !! i); [|done]. cbn. f_equal.
  rewrite Z.lxor_assoc, Z.lxor_nilpotent. apply Z.lxor_0_r.
Qed.

Lemma xor_crypt_ok data key :
  bytes_ok data -> bytes_ok key -> bytes_ok (xor_crypt data key).
Proof.
  intros. destruct (decide (zlen key = 0)) as [E|].
  - unfold xor_crypt. by rewrite E.
  - pose proof (zlen_nonneg key). rewrite xor_crypt_ref by (done || lia). by apply xor_ref_ok.
Qed.

Lemma xor_crypt_invol data key :
  bytes_ok data -> bytes_ok key -> xor_crypt (xor_crypt data key) key = data.
Proof.
  intros. destruct (decide (zlen key = 0)) as [E|].
  - unfold xor_crypt. by rewrite E.
  - pose proof (zlen_nonneg key). rewrite !xor_crypt_ref by (done || lia || by apply xor_crypt_ok).
    apply xor_ref_invol.
Qed.

Lemma xor_crypt_len data key :
  bytes_ok data -> bytes_ok key -> zlen (xor_crypt data key) = zlen data.
Proof.
  intros. destruct (decide (zlen key = 0)) as [E|].
  - unfold xor_crypt. by rewrite E.
  - pose proof (zlen_nonneg key). rewrite xor_crypt_ref by (done || lia).
    unfold xor_ref, zlen. by rewrite length_imap.
Qed.

(** *** Constant-time comparison *)

Lemma lor_eq_0 a b : 0 <= a -> 0 <= b -> Z.lor a b = 0 <-> a = 0 /\ b = 0.
Proof. intros. apply Z.lor_eq_0_iff. Qed.

Lemma ct_loop_spec a b k i d :
  bytes_ok a -> bytes_ok b -> 0 <= i -> 0 <= d ->
  i + Z.of_nat k <= zlen a -> i + Z.of_nat k <= zlen b ->
  exists e, ct_loop a b k i d = Ret e /\
    (e = 0 <-> d = 0 /\ forall j, i <= j < i + Z.of_nat k -> a.[j] = b.[j]).
Proof.
  intros Ha Hb. revert i d. induction k as [|k IH]; intros i d Hi Hd Hka Hkb; cbn [ct_loop].
  - exists d. split; [done|]. split; [|tauto]. intros ->. split; [done|lia].
  - rds. pose proof (lxor_byte _ _ (at_byte a i Ha) (at_byte b i Hb)) as [Hx _].
    destruct (IH (i + 1) (Z.lor d (Z.lxor a.[i] b.[i]))) as (e & -> & He); [lia| |lia..|].
    { apply Z.lor_nonneg. lia. }
    exists e. split; [done|]. rewrite He, Z.lor_eq_0_iff, Z.lxor_eq_0_iff. split.
    + intros ((-> & H1) & H2). split; [done|]. intros j Hj.
      destruct (decide (j = i)) as [->|]; [done|]. apply H2. lia.
    + intros (-> & H1). split; [split; [done|apply H1; lia]|]. intros j Hj. apply H1. lia.
Qed.

Lemma ct_eq_ok a b n :
  bytes_ok a -> bytes_ok b -> zlen a = n -> zlen b = n -> ct_eq a b n = Ret (beq a b).
Proof.
  intros Ha Hb Hla Hlb. unfold ct_eq. pose proof (zlen_nonneg a).
  destruct (ct_loop_spec a b (Z.to_nat n) 0 0) as (e & -> & He); [done|done|lia..|].
  cbn [rbind]. f_equal. destruct (beq a b) eqn:E.
  - apply beq_true in E as ->. apply Z.eqb_eq, He. done.
  - apply beq_false in E. apply Z.eqb_neq. intros H0. apply He in H0 as [_ H0].
    apply E, at_ext; [lia|]. intros j Hj. apply H0. lia.
Qed.

(** *** Keys *)
Section KeyFacts.
Context `{OpenSSLLaws}.

Lemma md5_len d : zlen (md5 d) = 16.
Proof. unfold md5. rewrite zlen_take, EVP_md5_len. lia. Qed.
Lemma md5_bytes d : bytes_ok (md5 d).
Proof. apply Forall_take, EVP_md5_bytes. Qed.
Lemma session_key_len u p : zlen (session_key u p) = 16.
Proof. apply md5_len. Qed.
Lemma session_key_bytes u p : bytes_ok (session_key u p).
Proof. apply md5_bytes. Qed.
Lemma encrypt_password_len p u : zlen (encrypt_password p u).2 = 16.
Proof.
  unfold encrypt_password. destruct (EVP_aes_128_ecb _ _) eqn:E; [|done].
  eapply EVP_aes_128_ecb_len, E.
Qed.
Lemma encrypt_password_bytes p u : bytes_ok (encrypt_password p u).2.
Proof.
  unfold encrypt_password. destruct (EVP_aes_128_ecb _ _) eqn:E.
  - eapply EVP_aes_128_ecb_bytes, E.
  - by apply Forall_replicate.
Qed.

End KeyFacts.

#[global] Hint Extern 1 (bytes_ok (md5 _)) => apply md5_bytes : bytes.
#[global] Hint Extern 1 (bytes_ok (session_key _ _)) => apply session_key_bytes : bytes.
#[global] Hint Extern 1 (bytes_ok (encrypt_password _ _).2) => apply encrypt_password_bytes : bytes.

(** A concrete instance, to run the definitions: a small mixing digest, the block
    cipher as XOR with the key, GCM as XOR with a comparison of the tag. *)
Module Toy.

Definition mix (n : nat) (d : bytes) : bytes :=
  map (fun k => u8 (fold_left (fun h b => u64 (h * 31 + b + 7)) d (Z.of_nat k * 17 + 3))) (seq 0 n).

Lemma mix_bytes n d : bytes_ok (mix n d).
Proof. apply List.Forall_forall. intros x Hx. apply in_map_iff in Hx as (k & <- & _). apply u8_range. Qed.

#[export] Instance toy_openssl : OpenSSL := {
  EVP_md5 := mix 16;
  EVP_sha256 := mix 32;
  EVP_aes_128_ecb := fun k b => Some (map u8 (take 16 (zip_with Z.lxor k b ++ fill 0 16)));
  EVP_aes_256_gcm := fun k n a c t =>
    if beq t (mix 16 (k ++ n ++ a ++ c)) then Some (xor_crypt c k) else None;
  EVP_EncodeBlock := b64_std
}.

#[export] Instance toy_laws : OpenSSLLaws.
Proof.
  split.
  - intros d. reflexivity.
  - apply mix_bytes.
  - intros d. reflexivity.
  - apply mix_bytes.
  - intros k b c [= <-]. rewrite zlen_map, zlen_take, zlen_app. change (zlen (fill 0 16)) with 16.
    pose proof (zlen_nonneg (zip_with Z.lxor k b)). lia.
  - intros k b c [= <-]. apply List.Forall_forall. intros x Hx. apply in_map_iff in Hx as (y & <- & _).
    apply u8_range.
  - done.
Qed.

(** The same with a block cipher that cannot be set up. *)
Definition broken_openssl : OpenSSL := {|
  EVP_md5 := mix 16;
  EVP_sha256 := mix 32;
  EVP_aes_128_ecb := fun _ _ => None;
  EVP_aes_256_gcm := fun _ _ _ _ _ => None;
  EVP_EncodeBlock := b64_std
|}.

Definition broken_laws : @OpenSSLLaws broken_openssl.
Proof.
  split.
  - intros d. reflexivity.
  - apply mix_bytes.
  - intros d. reflexivity.
  - apply mix_bytes.
  - intros k b c [=].
  - intros k b c [=].
  - done.
Qed.

End Toy.

(** ** Main theorems *)

(** the word-at-a-time XOR of the data path is the byte-wise stream
    [data[i] ^ key[i mod klen]] for every length and key length, it keeps the
    length, and applying it twice gives the data back. *)
Theorem xor_crypt_correct data key :
  bytes_ok data -> bytes_ok key -> 0 < zlen key ->
  xor_crypt data key = xor_ref data key /\
  zlen (xor_crypt data key) = zlen data /\
  xor_crypt (xor_crypt data key) key = data.
Proof.
  intros. split_and!; [by apply xor_crypt_ref|by apply xor_crypt_len|by apply xor_crypt_invol].
Qed.

Lemma xor_crypt_correct_witness :
  let d := [1; 2; 3; 4; 5; 6; 7; 8; 9; 10; 250] in
  let k := [17; 34; 51; 68; 85; 102; 119; 255] in
  xor_crypt d k = xor_ref d k /\ zlen (xor_crypt d k) = zlen d /\ xor_crypt (xor_crypt d k) k = d.
Proof.
  intros d k. apply (xor_crypt_correct d k);
    [by apply (bool_decide_unpack _); vm_compute|by apply (bool_decide_unpack _); vm_compute|done].
Defined.

(** decoding never reads outside its input; it inverts [hex_encode] whenever
    the output fits; and whatever it accepts has an even number of digits, half as
    many bytes, each the value of its two digits. *)
Theorem hex_roundtrip b hex outcap :
  bytes_ok b -> zlen b <= outcap ->
  hex_decode (hex_encode b) outcap = Ret (Some b) /\
  no_fault (hex_decode hex outcap) /\
  (forall o, hex_decode hex outcap = Ret (Some o) ->
     zlen hex = 2 * zlen o /\ zlen o <= outcap /\ bytes_ok o /\
     forall j, 0 <= j < zlen o -> o.[j] = hex_nibble hex.[2 * j] * 16 + hex_nibble hex.[2 * j + 1]).
Proof.
  intros Hb Hc. split_and!; unfold hex_decode.
  - rewrite hex_encode_len. rewrite Z.mul_comm, Z.mod_mul, Z.div_mul by lia. cbn [negb Z.eqb].
    destruct (zlen b >? outcap) eqn:E; [lia|]. unfold zlen. rewrite Nat2Z.id.
    by apply (hex_pairs_encode b []).
  - do 2 (case_match; [by eexists|]). pose proof (zlen_nonneg hex). apply hex_pairs_safe; lia.
  - intros o. destruct (negb (zlen hex mod 2 =? 0)) eqn:E1; [done|].
    destruct (zlen hex / 2 >? outcap) eqn:E2; [done|]. pose proof (zlen_nonneg hex).
    intros Hdec. apply hex_pairs_exact in Hdec as (Hl & Hok & Hj); [|lia..].
    assert (zlen o = zlen hex / 2) by (unfold zlen at 1; lia).
    split_and!; [lia|lia|done|]. intros j Hjr. rewrite Hj by lia. by rewrite Z.add_0_l.
Qed.

Lemma hex_roundtrip_witness :
  hex_decode (hex_encode [0; 175; 255]) 3 = Ret (Some [0; 175; 255]) /\
  hex_decode (lit "0aFf") 3 = Ret (Some [10; 255]).
Proof.
  destruct (hex_roundtrip [0; 175; 255] (lit "0aFf") 3) as (H & _ & _);
    [by apply (bool_decide_unpack _); vm_compute|done|]. split; [exact H|reflexivity].
Defined.

Lemma b64url_no_pad_url `{OpenSSLLaws} d : bytes_ok d -> b64url_no_pad d = b64_url d.
Proof.
  intros Hd. unfold b64url_no_pad. rewrite EVP_EncodeBlock_std, b64_std_url.
  rewrite length_app, strip_pad_app with (k := length (b64_pad_of d)); [by rewrite take_app_length| |done|].
  - unfold b64_pad_of. repeat case_match; repeat constructor.
  - intros c Hc. apply last_Some in Hc as [l' Hl]. pose proof (b64_url_no_pad_char d Hd) as Hf.
    rewrite Hl in Hf. apply Forall_app in Hf as [_ Hf]. by inversion Hf.
Qed.

(** the base64url decoder never reads outside its input, and it gives back
    every non-empty byte string that [b64url_no_pad] encoded. *)
Theorem b64url_roundtrip `{OpenSSLLaws} d s :
  bytes_ok d -> d <> [] ->
  b64url_decode (b64url_no_pad d) = Ret (Some d) /\ no_fault (b64url_decode s).
Proof.
  intros Hd Hne. split.
  2:{ unfold b64url_decode. case_match; [by eexists|]. apply b64_decode_raw_safe. }
  rewrite b64url_no_pad_url by done.
  pose proof (b64_url_len d) as Hl. unfold b64url_decode, b64_decode_raw.
  assert (strip_pad (b64_url d) (length (b64_url d)) = length (b64_url d)) as ->.
  { rewrite <- (app_nil_r (b64_url d)) at 1. rewrite <- (Nat.add_0_r (length (b64_url d))) at 1.
    apply strip_pad_app; [constructor|done|]. intros c Hc. apply last_Some in Hc as [l' Hl'].
    pose proof (b64_url_no_pad_char d Hd) as Hf. rewrite Hl' in Hf.
    apply Forall_app in Hf as [_ Hf]. by inversion Hf. }
  fold (zlen (b64_url d)). rewrite Hl.
  assert (0 <= b64_rem d <= 3 /\ b64_rem d <> 1) as [Hr Hr1] by (unfold b64_rem; repeat case_match; lia).
  assert (4 * Z.of_nat (length d / 3) + b64_rem d <> 0) as Hnz.
  { intros E. assert (length d / 3 = 0)%nat by lia. assert (b64_rem d = 0) by lia.
    unfold b64_rem in *. destruct d; [done|]. pose proof (Nat.div_mod_eq (length (z :: d)) 3).
    repeat case_match; cbn [length] in *; try lia. pose proof (Nat.mod_upper_bound (S (length d)) 3). lia. }
  destruct (_ =? 0) eqn:E0; [lia|].
  replace ((4 * Z.of_nat (length d / 3) + b64_rem d) mod 4) with (b64_rem d) by lia.
  destruct (_ =? 1) eqn:E1; [lia|].
  replace ((4 * Z.of_nat (length d / 3) + b64_rem d) / 4) with (Z.of_nat (length d / 3)) by lia.
  rewrite Nat2Z.id. by apply (b64_groups_url d []).
Qed.

Lemma b64url_roundtrip_witness :
  b64url_decode (b64url_no_pad (H := Toy.toy_openssl) [251; 255; 3; 200]) = Ret (Some [251; 255; 3; 200]).
Proof.
  refine (proj1 (@b64url_roundtrip Toy.toy_openssl Toy.toy_laws [251; 255; 3; 200] [] _ _)); [|done].
  by apply (bool_decide_unpack _); vm_compute.
Defined.
