(* ===== verification/Protocol.v ===== *)
(** * Wire format: headers, signatures, TLVs, addresses (src/src/common/protocol.c, protocol.h)

    A frame under construction ([buf_t *out]) is the list of its bytes; [Util.Grow]
    proves that [buf_put] is append on that view. *)

From S2P Require Import Prelude Util Crypto.

Definition IWAN_HDR_LEN : Z := 8.
Definition IWAN_SIG_LEN : Z := 16.
Definition IWAN_CTRL_LEN : Z := IWAN_HDR_LEN + IWAN_SIG_LEN.
Definition IWAN_PING_SID : Z := 65535.
Definition IWAN_PING_TOK : Z := 4294967295.
Definition IWAN_MTU_MIN : Z := 576.
Definition IWAN_MTU_MAX : Z := 1500.
Definition IWAN_DEFAULT_MTU : Z := 1400.
Definition IWAN_TLV_VLEN_MAX : Z := 253.

Definition PT_OPEN_REJECT : Z := 17.
Definition PT_OPEN_ACK : Z := 18.
Definition PT_OPEN : Z := 19.
Definition PT_DATA : Z := 20.
Definition PT_ECHO_REQ : Z := 21.
Definition PT_ECHO_RES : Z := 22.
Definition PT_CLOSE : Z := 23.
Definition PT_DATA_ENC : Z := 24.
Definition PT_PING_REQ : Z := 41.
Definition PT_PING_RSP : Z := 42.

Definition T_USERNAME : Z := 1.
Definition T_PASSWORD : Z := 2.
Definition T_MTU : Z := 3.
Definition T_IP : Z := 4.
Definition T_DNS : Z := 5.
Definition T_GATEWAY : Z := 6.
Definition T_ENCRYPT : Z := 8.
Definition T_AUTH_VERIFY : Z := 15.
Definition T_ERR_MSG : Z := 16.

Definition pkt_hdr (typ enc sid tok : Z) : bytes :=
  [u8 typ; u8 enc; u8 (Z.shiftr sid 8); u8 sid;
   u8 (Z.shiftr tok 24); u8 (Z.shiftr tok 16); u8 (Z.shiftr tok 8); u8 tok].

Section Sig.
Context `{OpenSSL}.

(** [h8] is at least [IWAN_HDR_LEN] bytes. *)
Definition pkt_sig (h8 : bytes) : res bytes :=
  let! h := rdn h8 0 IWAN_HDR_LEN in Ret (md5 (h ++ IWAN_MW)).

Definition ctrl_hdr (out : bytes) (typ enc sid tok : Z) : res bytes :=
  let h := pkt_hdr typ enc sid tok in
  let! s := pkt_sig h in
  Ret (out ++ h ++ s).

Definition verify_sig (buf : bytes) : res bool :=
  if zlen buf <? IWAN_CTRL_LEN then Ret false
  else
    let! s := pkt_sig buf in
    let! t := rdn buf IWAN_HDR_LEN IWAN_SIG_LEN in
    Ret (beq s t).

End Sig.

(** [vlen] is a [uint8_t]; the value is [val[0..vlen)]. *)
Definition tlv_put (out : bytes) (typ : Z) (val : bytes) (vlen : Z) : res bytes :=
  if vlen >? IWAN_TLV_VLEN_MAX then Fault Aborted
  else
    let! v := rdn val 0 vlen in
    Ret (out ++ [u8 typ; u8 (vlen + 2)] ++ v).

(** The loop of [parse_tlvs].  The callback [cb] updates its [ud] and says whether
    to go on; the result is the [ud] and the return code. *)
Fixpoint tlv_loop {ud} (fuel : nat) (data : bytes) (i : Z)
    (cb : ud -> Z -> bytes -> res (ud * bool)) (u : ud) : res (ud * Z) :=
  match fuel with
  | O => Fault OutOfFuel
  | S fuel =>
      let len := zlen data in
      if i + 2 <=? len then
        let! t := rd data i in
        let! l := rd data (i + 1) in
        if (l <? 2) || (l >? len - i) then Ret (u, -1)
        else
          let! val := rdn data (i + 2) (l - 2) in
          let! (u', go) := cb u t val in
          if go then tlv_loop fuel data (i + l) cb u' else Ret (u', 0)
      else Ret (u, if i =? len then 0 else -1)
  end.

Definition parse_tlvs {ud} (data : bytes) (cb : ud -> Z -> bytes -> res (ud * bool)) (u : ud)
    : res (ud * Z) :=
  tlv_loop (S (length data)) data 0 cb u.

(** ** Addresses *)

Definition ip_to_string (b : bytes) : bytes :=
  Scan.dec_str b.[0] ++ [46] ++ Scan.dec_str b.[1] ++ [46] ++ Scan.dec_str b.[2] ++ [46] ++ Scan.dec_str b.[3].

(** The loop of [s2ip4], [n] = 4 - i iterations to go. *)
Fixpoint s2ip4_loop (n : nat) (s : bytes) : option bytes :=
  match n with
  | O => Some []
  | S n =>
      let c := hd 0 s in
      if (c <? 48) || (c >? 57) then None
      else if (c =? 48) && (48 <=? hd 0 (tl s)) && (hd 0 (tl s) <=? 57) then None
      else
        let '(v, e, _) := Scan.strtol s in
        if (zlen e =? zlen s) || (v <? 0) || (v >? 255) then None
        else
          match n with
          | S _ =>
              if negb (hd 0 e =? 46) then None
              else match s2ip4_loop n (tl e) with Some o => Some (u8 v :: o) | None => None end
          | O => if negb (hd 0 e =? 0) then None else Some [u8 v]
          end
  end.

Definition s2ip4 (s : bytes) : option bytes := s2ip4_loop 4 s.

Definition ip4_u32 (b : bytes) : Z := be32 b.[0] b.[1] b.[2] b.[3].

Definition u32_ip4 (v : Z) : bytes := put32 v.

Definition IWAN_IP6_ULA_BYTE0 : Z := 253.

Definition ip6_derive_ula (v4 : Z) : bytes :=
  IWAN_IP6_ULA_BYTE0 :: fill 0 11 ++ u32_ip4 v4.

(** ** Properties *)

(** *** Headers and signatures *)

Lemma pkt_hdr_len typ enc sid tok : zlen (pkt_hdr typ enc sid tok) = IWAN_HDR_LEN.
Proof. done. Qed.

Lemma pkt_hdr_ok typ enc sid tok : bytes_ok (pkt_hdr typ enc sid tok).
Proof. repeat constructor; apply u8_range. Qed.

#[global] Hint Resolve pkt_hdr_ok : bytes.

(** The field extractions every receiver does on a frame that starts with a header. *)
Definition hdr_sid (d : bytes) : Z := be16 d.[2] d.[3].
Definition hdr_tok (d : bytes) : Z := be32 d.[4] d.[5] d.[6] d.[7].

Lemma pkt_hdr_fields typ enc sid tok rest :
  is_byte typ -> is_byte enc -> 0 <= sid < 65536 -> 0 <= tok < 2 ^ 32 ->
  let d := pkt_hdr typ enc sid tok ++ rest in
  d.[0] = typ /\ d.[1] = enc /\ hdr_sid d = sid /\ hdr_tok d = tok.
Proof.
  intros Ht He Hs Hk d. unfold d, hdr_sid, hdr_tok, pkt_hdr, at_. cbn [app nth].
  change (Z.to_nat 0) with 0%nat. cbn [nth].
  rewrite !u8_small with (x := typ), !u8_small with (x := enc) by done.
  split_and!; [done|done|by apply be16_put16|by apply be32_put32].
Qed.

Section SigFacts.
Context `{OpenSSLLaws}.

Lemma pkt_sig_ok h rest : zlen h = IWAN_HDR_LEN -> pkt_sig (h ++ rest) = Ret (md5 (h ++ IWAN_MW)).
Proof.
  intros Hl. unfold pkt_sig, IWAN_HDR_LEN in *. pose proof (zlen_nonneg rest).
  rewrite rdn_ok by zlia. cbn [rbind]. by rewrite slice_app_l by lia.
Qed.

Lemma ctrl_hdr_ok out typ enc sid tok :
  ctrl_hdr out typ enc sid tok =
  Ret (out ++ pkt_hdr typ enc sid tok ++ md5 (pkt_hdr typ enc sid tok ++ IWAN_MW)).
Proof.
  unfold ctrl_hdr. pose proof (pkt_sig_ok (pkt_hdr typ enc sid tok) []) as Hp.
  rewrite app_nil_r in Hp. by rewrite Hp.
Qed.

Lemma verify_sig_spec d :
  verify_sig d =
  Ret (if zlen d <? IWAN_CTRL_LEN then false
       else beq (slice d 8 16) (md5 (slice d 0 8 ++ IWAN_MW))).
Proof.
  unfold verify_sig, IWAN_CTRL_LEN, pkt_sig, IWAN_HDR_LEN, IWAN_SIG_LEN.
  destruct (zlen d <? 8 + 16) eqn:E; [done|]. rds. f_equal.
  destruct (beq (slice d 8 16) _) eqn:B; [apply beq_true in B; by apply beq_true|].
  apply beq_false in B. apply beq_false. congruence.
Qed.

Lemma verify_sig_frame h s rest :
  zlen h = 8 -> zlen s = 16 ->
  verify_sig (h ++ s ++ rest) = Ret (beq s (md5 (h ++ IWAN_MW))).
Proof.
  intros Hh Hs. rewrite verify_sig_spec. unfold IWAN_CTRL_LEN, IWAN_HDR_LEN, IWAN_SIG_LEN.
  pose proof (zlen_nonneg rest). zl. destruct (_ <? _) eqn:E; [lia|].
  by rewrite slice_app_mid, slice_app_l by lia.
Qed.

End SigFacts.

(** *** TLV sequences *)

(** A TLV as a type and a value, and its bytes. *)
Definition tlv : Type := Z * bytes.
Definition tlv_ok (x : tlv) : Prop := is_byte x.1 /\ bytes_ok x.2 /\ zlen x.2 <= IWAN_TLV_VLEN_MAX.
Definition tlv_enc (x : tlv) : bytes := x.1 :: (zlen x.2 + 2) :: x.2.
Definition tlvs_enc (l : list tlv) : bytes := concat (map tlv_enc l).

(** The end of a TLV area: nothing, or bytes that do not start a TLV. *)
Definition tlv_end (t : bytes) : Prop :=
  t = [] \/ (t <> [] /\ (zlen t < 2 \/ t.[1] < 2 \/ zlen t < t.[1])).

(** Folding a callback over decoded TLVs; [false] once it asked to stop. *)
Fixpoint tlv_fold {ud} (cb : ud -> Z -> bytes -> res (ud * bool)) (u : ud) (l : list tlv) : res (ud * bool) :=
  match l with
  | [] => Ret (u, true)
  | (t, v) :: r =>
      let! (u', go) := cb u t v in
      if go then tlv_fold cb u' r else Ret (u', false)
  end.

(** The result of [parse_tlvs] from the outcome of the fold. *)
Definition tlv_result {ud} (tail : bytes) (x : ud * bool) : ud * Z :=
  (x.1, if x.2 then (if beq tail [] then 0 else -1) else 0).

Lemma tlvs_enc_cons x l : tlvs_enc (x :: l) = tlv_enc x ++ tlvs_enc l.
Proof. done. Qed.
Lemma tlvs_enc_app a b : tlvs_enc (a ++ b) = tlvs_enc a ++ tlvs_enc b.
Proof. unfold tlvs_enc. by rewrite map_app, concat_app. Qed.
Lemma tlv_enc_len x : zlen (tlv_enc x) = zlen x.2 + 2.
Proof. unfold tlv_enc. zlia. Qed.

Lemma tlv_fold_app {ud} (cb : ud -> Z -> bytes -> res (ud * bool)) u a b :
  tlv_fold cb u (a ++ b) =
  let! (u', go) := tlv_fold cb u a in if go then tlv_fold cb u' b else Ret (u', false).
Proof.
  revert u. induction a as [|[t v] a IH]; intros u; [done|]. cbn [tlv_fold app].
  destruct (cb u t v) as [[u' []]|]; cbn [rbind]; [apply IH|done|done].
Qed.

(** A callback that never faults makes the fold safe. *)
Lemma tlv_fold_safe {ud} (cb : ud -> Z -> bytes -> res (ud * bool)) (I : ud -> Prop) l :
  (forall u t v, I u -> tlv_ok (t, v) -> exists u' go, cb u t v = Ret (u', go) /\ I u') ->
  Forall tlv_ok l -> forall u, I u -> exists u' go, tlv_fold cb u l = Ret (u', go) /\ I u'.
Proof.
  intros Hcb. induction l as [|[t v] l IH]; intros Hl u Hu; [by eexists _, _|].
  inversion Hl; subst. cbn [tlv_fold]. destruct (Hcb u t v) as (u' & go & -> & Hu'); [done..|].
  cbn [rbind]. destruct go; [by apply IH|by eexists _, _].
Qed.

Lemma tlv_loop_end {ud} (cb : ud -> Z -> bytes -> res (ud * bool)) fuel p tail u :
  tlv_end tail ->
  tlv_loop (S fuel) (p ++ tail) (zlen p) cb u = Ret (u, if beq tail [] then 0 else -1).
Proof.
  intros Ht. cbn [tlv_loop]. pose proof (zlen_nonneg p). pose proof (zlen_nonneg tail). zl.
  destruct Ht as [->|[Hne Ht]].
  - zl. destruct (_ <=? _) eqn:E; [lia|]. destruct (_ =? _) eqn:E2; [done|lia].
  - destruct (beq tail []) eqn:B; [by apply beq_true in B|].
    assert (zlen tail <> 0) by (intros E; by apply zlen_0_nil in E).
    destruct (_ <=? _) eqn:E.
    + rewrite rd_ok by zlia. cbn [rbind]. rewrite rd_after by lia. cbn [rbind].
      destruct (_ || _) eqn:E3; [done|]. exfalso. lia.
    + destruct (_ =? _) eqn:E2; [lia|done].
Qed.

Lemma tlv_loop_enc {ud} (cb : ud -> Z -> bytes -> res (ud * bool)) l : forall fuel p tail u,
  Forall tlv_ok l -> tlv_end tail -> (length (tlvs_enc l) < fuel)%nat ->
  tlv_loop fuel (p ++ tlvs_enc l ++ tail) (zlen p) cb u =
  rbind (tlv_fold cb u l) (fun x => Ret (tlv_result tail x)).
Proof.
  induction l as [|[t v] l IH]; intros fuel p tail u Hl Ht Hf.
  - destruct fuel; [lia|]. cbn [tlvs_enc app tlv_fold rbind map concat]. by apply tlv_loop_end.
  - inversion Hl as [|? ? (Hty & Hv & Hlen) Hl']; subst. cbn [fst snd] in *.
    unfold IWAN_TLV_VLEN_MAX in *. pose proof (zlen_nonneg v). pose proof (zlen_nonneg p).
    rewrite tlvs_enc_cons in *. rewrite length_app in Hf.
    pose proof (tlv_enc_len (t, v)) as Hel. cbn [snd] in Hel.
    destruct fuel as [|fuel]; [unfold zlen in *; lia|]. cbn [tlv_loop tlv_fold].
    pose proof (zlen_nonneg (tlvs_enc l)). pose proof (zlen_nonneg tail).
    zl. rewrite Hel. destruct (_ <=? _) eqn:E; [|lia]. clear E.
    rewrite <- (app_assoc (tlv_enc (t, v))).
    rewrite rd_after0, rd_after by (zlia). cbn [rbind].
    change ((tlv_enc (t, v) ++ ?r).[0]) with t. change ((tlv_enc (t, v) ++ ?r).[1]) with (zlen v + 2).
    destruct (_ || _) eqn:E; [lia|]. clear E.
    replace (zlen v + 2 - 2) with (zlen v) by lia. rewrite rdn_ok by (zl; lia). cbn [rbind].
    replace (slice _ _ _) with v.
    2:{ symmetry. change (tlv_enc (t, v) ++ tlvs_enc l ++ tail)
          with ([t; zlen v + 2] ++ v ++ tlvs_enc l ++ tail).
        rewrite app_assoc. apply slice_app_mid; zlia. }
    destruct (cb u t v) as [[u' []]|]; cbn [rbind]; [|done|done].
    replace (zlen p + (zlen v + 2)) with (zlen (p ++ tlv_enc (t, v))) by (zlia).
    rewrite app_assoc. apply IH; [done|done|]. unfold zlen in Hel. lia.
Qed.

Lemma parse_tlvs_enc {ud} (cb : ud -> Z -> bytes -> res (ud * bool)) l tail u :
  Forall tlv_ok l -> tlv_end tail ->
  parse_tlvs (tlvs_enc l ++ tail) cb u = rbind (tlv_fold cb u l) (fun x => Ret (tlv_result tail x)).
Proof.
  intros. unfold parse_tlvs. apply (tlv_loop_enc cb l _ []); [done|done|].
  rewrite length_app. lia.
Qed.

(** Every byte string is a sequence of TLVs and an end. *)
Lemma tlvs_split d :
  bytes_ok d -> exists l tail, d = tlvs_enc l ++ tail /\ Forall tlv_ok l /\ tlv_end tail.
Proof.
  remember (length d) as n eqn:Hn. revert d Hn.
  induction (lt_wf n) as [n _ IH]. intros d Hn Hd.
  destruct (decide (zlen d < 2 \/ d.[1] < 2 \/ zlen d < d.[1])) as [Hb|Hb].
  - exists [], d. split; [done|]. split; [constructor|].
    destruct d; [by left|right; split; [done|exact Hb]].
  - destruct d as [|t [|l r]]; [exfalso; zlia|exfalso; zlia|].
    change ((t :: l :: r).[1]) with l in Hb. rewrite !zlen_cons in Hb.
    apply Forall_cons in Hd as [Ht Hd]. apply Forall_cons in Hd as [Hl Hr]. unfold is_byte in *.
    set (v := take (Z.to_nat (l - 2)) r).
    assert (zlen v = l - 2) as Hv by (unfold v; zlia).
    destruct (IH (length (drop (Z.to_nat (l - 2)) r))) with (d := drop (Z.to_nat (l - 2)) r)
      as (ls & tail & He & Hok & Hend); [|done|by apply Forall_drop|].
    { subst n. rewrite length_drop. cbn. lia. }
    exists ((t, v) :: ls), tail. split_and!; [|constructor; [|done]|done].
    + rewrite tlvs_enc_cons. unfold tlv_enc. cbn [fst snd app]. rewrite Hv.
      replace (l - 2 + 2) with l by lia. rewrite <- app_assoc, <- He. unfold v. by rewrite take_drop.
    + unfold tlv_ok, IWAN_TLV_VLEN_MAX. cbn [fst snd]. split_and!; [done|by apply Forall_take|lia].
Qed.

Lemma tlv_put_ok out t v :
  tlv_ok (t, v) -> tlv_put out t v (zlen v) = Ret (out ++ tlv_enc (t, v)).
Proof.
  intros (Ht & Hv & Hl). cbn [fst snd] in *. unfold tlv_put, IWAN_TLV_VLEN_MAX in *.
  destruct (_ >? _) eqn:E; [lia|]. pose proof (zlen_nonneg v). rewrite rdn_ok by lia. cbn [rbind].
  rewrite slice_all. unfold tlv_enc. cbn [fst snd app]. by rewrite !u8_small by (done || lia).
Qed.

(** *** Dotted quads *)

#[local] Opaque Scan.dec_str.

Lemma s2ip4_octet n v r :
  0 <= v <= 255 -> (match n with O => r = [] | S _ => hd 0 r = 46 end) ->
  s2ip4_loop (S n) (Scan.dec_str v ++ r) =
  match n with
  | O => Some [v]
  | S _ => match s2ip4_loop n (tl r) with Some o => Some (v :: o) | None => None end
  end.
Proof.
  intros Hv Hr. destruct (Scan.dec_str_spec v) as (Hd & Hval & Hne & Hz); [lia|].
  remember (Scan.dec_str v) as d eqn:Hdd. clear Hdd.
  assert (isdigit (hd 0 r) = false) as Hnd by (destruct n; [by subst|by rewrite Hr]).
  cbn [s2ip4_loop]. rewrite Scan.strtol_digits, Hval by done.
  destruct d as [|c d']; [done|]. cbn [app hd tl] in *.
  assert (isdigit c = true) as Hc by (cbn [forallb] in Hd; by apply andb_true_iff in Hd as [? _]).
  unfold isdigit in Hc. destruct ((c <? 48) || (c >? 57)) eqn:E1; [lia|].
  assert ((c =? 48) && (48 <=? hd 0 (d' ++ r)) && (hd 0 (d' ++ r) <=? 57) = false) as ->.
  { destruct (c =? 48) eqn:Ec; [|done]. apply Z.eqb_eq in Ec. specialize (Hz Ec). injection Hz as _ ->.
    cbn [app]. exact Hnd. }
  unfold Scan.LLONG_MAX. destruct (v >? _) eqn:E2; [lia|].
  assert ((zlen r =? zlen (c :: d' ++ r)) || (v <? 0) || (v >? 255) = false) as ->.
  { rewrite zlen_cons, zlen_app. pose proof (zlen_nonneg d'). lia. }
  rewrite u8_small by lia. destruct n; [by subst|]. by rewrite Hr.
Qed.

Lemma s2ip4_print b :
  bytes_ok b -> zlen b = 4 -> s2ip4 (ip_to_string b) = Some b.
Proof.
  intros Hb Hl. destruct b as [|a [|b [|c [|d [|e l]]]]]; try (exfalso; unfold zlen in Hl; cbn in Hl; lia).
  repeat (apply Forall_cons in Hb as [? Hb]). unfold is_byte in *.
  unfold s2ip4. change (ip_to_string [a; b; c; d]) with (Scan.dec_str a ++ 46 :: Scan.dec_str b ++
    46 :: Scan.dec_str c ++ 46 :: Scan.dec_str d).
  rewrite s2ip4_octet by (done || lia). cbn [tl app].
  rewrite s2ip4_octet by (done || lia). cbn [tl app].
  rewrite s2ip4_octet by (done || lia). cbn [tl app].
  rewrite <- (app_nil_r (Scan.dec_str d)). by rewrite s2ip4_octet by (done || lia).
Qed.

Lemma s2ip4_octet_inv n s o :
  s2ip4_loop (S n) s = Some o ->
  exists v r, s = Scan.dec_str v ++ r /\ 0 <= v <= 255 /\
    match n with
    | O => hd 0 r = 0 /\ o = [v]
    | S _ => exists o', r = 46 :: tl r /\ s2ip4_loop n (tl r) = Some o' /\ o = v :: o'
    end.
Proof.
  cbn [s2ip4_loop]. intros H. destruct ((hd 0 s <? 48) || (hd 0 s >? 57)) eqn:E1; [done|].
  destruct (_ && _ && _) eqn:E2; [done|].
  destruct (Scan.span_digits_spec s) as (Hs & Hd & Hr).
  remember (Scan.span_digits s).1 as d eqn:Hdd. clear Hdd.
  remember (Scan.span_digits s).2 as r eqn:Hrr. clear Hrr.
  assert (d <> []) as Hne.
  { intros Hd0. rewrite Hd0 in Hs. cbn in Hs. rewrite <- Hs in Hr. unfold isdigit in Hr. lia. }
  assert (hd 0 s = hd 0 d) as Hhd by (rewrite Hs; by destruct d).
  assert (Scan.strtol s = if Scan.digits_val d >? Scan.LLONG_MAX then (Scan.LLONG_MAX, r, true)
          else (Scan.digits_val d, r, false)) as Hst by (rewrite Hs at 1; by apply Scan.strtol_digits).
  rewrite Hst in H. clear Hst. pose proof (Scan.digits_val_nonneg d Hd) as Hv0.
  remember (Scan.digits_val d) as v eqn:Hv. unfold Scan.LLONG_MAX in H.
  destruct (v >? _) eqn:E3.
  { destruct (_ || _) eqn:E4 in H; [done|]. lia. }
  destruct (_ || _) eqn:E4 in H; [done|].
  assert (d = Scan.dec_str v) as Hdv.
  { subst v. apply Scan.digits_canonical; [done|done| |lia]. intros H48. rewrite <- Hhd in H48.
    destruct d as [|c d']; [done|]. cbn in Hhd. rewrite Hs in E2. cbn [app tl hd] in E2.
    destruct d' as [|x d'']; [congruence|]. exfalso. cbn [app hd forallb] in *.
    unfold isdigit in Hd. lia. }
  exists v, r. split; [by rewrite <- Hdv|]. split; [lia|]. rewrite u8_small in H by lia.
  destruct n as [|n].
  - destruct (negb (hd 0 r =? 0)) eqn:E5; [done|]. injection H as <-. split; [lia|done].
  - destruct (negb (hd 0 r =? 46)) eqn:E5; [done|].
    destruct (s2ip4_loop (S n) (tl r)) as [o'|] eqn:E6; [|done]. injection H as <-.
    exists o'. split; [|done]. destruct r as [|x r']; [done|]. cbn in *. f_equal. lia.
Qed.

Lemma hd_cstr_nil r : cstr_ok r -> hd 0 r = 0 -> r = [].
Proof. intros H Hh. destruct r as [|x r]; [done|]. inversion H; subst. cbn in Hh. lia. Qed.

Lemma s2ip4_canonical s b :
  cstr_ok s -> s2ip4 s = Some b -> bytes_ok b /\ zlen b = 4 /\ s = ip_to_string b.
Proof.
  intros Hs H. unfold s2ip4 in H.
  apply s2ip4_octet_inv in H as (v0 & r0 & -> & Hv0 & o0 & Hr0 & H & ->).
  apply s2ip4_octet_inv in H as (v1 & r1 & E1 & Hv1 & o1 & Hr1 & H & ->).
  apply s2ip4_octet_inv in H as (v2 & r2 & E2 & Hv2 & o2 & Hr2 & H & ->).
  apply s2ip4_octet_inv in H as (v3 & r3 & E3 & Hv3 & Hh & ->).
  rewrite E1 in Hr0. rewrite E2 in Hr1. rewrite E3 in Hr2.
  clear E1 E2 E3. rewrite Hr2 in Hr1. rewrite Hr1 in Hr0. rewrite Hr0 in *. clear Hr0 Hr1 Hr2.
  assert (r3 = []) as ->.
  { apply hd_cstr_nil; [|done]. apply Forall_app in Hs as [_ Hs].
    do 3 (apply Forall_cons in Hs as [_ Hs]; apply Forall_app in Hs as [_ Hs]). exact Hs. }
  split_and!; [repeat constructor; unfold is_byte; lia|done|]. by rewrite app_nil_r.
Qed.

Lemma ip4_u32_put v rest : 0 <= v < 2 ^ 32 -> ip4_u32 (u32_ip4 v ++ rest) = v.
Proof. intros. unfold ip4_u32, u32_ip4, put32, at_. cbn [app nth]. by apply be32_put32. Qed.

Lemma ip4_put32 v : 0 <= v < 2 ^ 32 -> ip4_u32 (put32 v) = v.
Proof. intros. unfold ip4_u32. by apply be32_put32. Qed.

Lemma ip4_u32_range b : bytes_ok b -> 0 <= ip4_u32 b < 2 ^ 32.
Proof. intros. unfold ip4_u32. apply be32_range; by apply at_byte. Qed.

Lemma u32_ip4_ok v : bytes_ok (u32_ip4 v).
Proof. apply put32_ok. Qed.
#[global] Hint Resolve u32_ip4_ok : bytes.

(** ** Main theorems *)

(** a control frame carries its header fields and verifies.  For any type,
    encryption byte, 16-bit session id and 32-bit token, what [ctrl_hdr] appends
    is 24 bytes from which a receiver reads the same fields, and [verify_sig]
    accepts it with any payload behind it; a frame whose signature bytes differ is
    refused. *)
Theorem ctrl_frame_roundtrip `{OpenSSLLaws} typ enc sid tok out payload :
  is_byte typ -> is_byte enc -> 0 <= sid < 65536 -> 0 <= tok < 2 ^ 32 ->
  exists f, ctrl_hdr out typ enc sid tok = Ret (out ++ f) /\ zlen f = IWAN_CTRL_LEN /\
    (f ++ payload).[0] = typ /\ (f ++ payload).[1] = enc /\
    hdr_sid (f ++ payload) = sid /\ hdr_tok (f ++ payload) = tok /\
    verify_sig (f ++ payload) = Ret true /\
    forall s, zlen s = IWAN_SIG_LEN -> s <> slice f 8 16 ->
      verify_sig (slice f 0 8 ++ s ++ payload) = Ret false.
Proof.
  intros Ht He Hs Hk. rewrite ctrl_hdr_ok.
  set (h := pkt_hdr typ enc sid tok). set (m := md5 (h ++ IWAN_MW)).
  assert (zlen h = 8) as Hh by done. assert (zlen m = 16) as Hm by apply md5_len.
  destruct (pkt_hdr_fields typ enc sid tok (m ++ payload)) as (H1 & H2 & H3 & H4); [done..|].
  exists (h ++ m). rewrite <- !app_assoc. fold h in H1, H2, H3, H4.
  split_and!; try done.
  - zl. rewrite Hh, Hm. done.
  - rewrite verify_sig_frame by done. unfold m. by rewrite beq_refl.
  - intros s Hs' Hne. rewrite slice_app_l by lia. rewrite verify_sig_frame by done.
    f_equal. apply beq_false. intros ->. apply Hne.
    rewrite <- (app_nil_r m). by rewrite slice_app_mid by lia.
Qed.

Lemma ctrl_frame_roundtrip_witness :
  exists f, ctrl_hdr (H := Toy.toy_openssl) [] PT_OPEN 0 513 305419896 = Ret f /\
    hdr_tok (f ++ [9]) = 305419896 /\ verify_sig (H := Toy.toy_openssl) (f ++ [9]) = Ret true.
Proof.
  destruct (@ctrl_frame_roundtrip Toy.toy_openssl Toy.toy_laws PT_OPEN 0 513 305419896 [] [9])
    as (f & H1 & _ & _ & _ & _ & H4 & H5 & _); [done..|]. exists f. done.
Defined.

(** The TLV iterator is exact and memory safe on every byte string.  The input
    splits in one way into TLVs and an end, the callback sees exactly those TLVs
    in order until it stops, and the return code is 0 when the callback stopped or
    the end is empty and -1 otherwise; TLVs written with [tlv_put] come back as
    they were put. *)
Theorem parse_tlvs_exact {ud} (cb : ud -> Z -> bytes -> res (ud * bool)) (u : ud) data :
  bytes_ok data ->
  (exists l tail, data = tlvs_enc l ++ tail /\ Forall tlv_ok l /\ tlv_end tail /\
     parse_tlvs data cb u = rbind (tlv_fold cb u l) (fun x => Ret (tlv_result tail x)) /\
     forall l' tail', data = tlvs_enc l' ++ tail' -> Forall tlv_ok l' -> tlv_end tail' ->
       l' = l /\ tail' = tail) /\
  (forall t v, tlv_ok (t, v) -> tlv_put data t v (zlen v) = Ret (data ++ tlvs_enc [(t, v)])).
Proof.
  intros Hd. split.
  2:{ intros t v Hv. rewrite tlv_put_ok by done. unfold tlvs_enc. cbn. by rewrite app_nil_r. }
  destruct (tlvs_split data Hd) as (l & tail & Hdata & Hl & Ht).
  exists l, tail. split_and!; [done..| |].
  - subst data. by apply parse_tlvs_enc.
  - intros l' tail' Hdata' Hl' Ht'.
    set (collect := fun (acc : list tlv) t v => Ret (acc ++ [(t, v)], true)).
    assert (forall k acc, tlv_fold collect acc k = Ret (acc ++ k, true)) as Hc.
    { induction k as [|[t v] k IH]; intros acc; [by rewrite app_nil_r|].
      cbn [tlv_fold collect rbind]. rewrite IH. by rewrite <- app_assoc. }
    pose proof (parse_tlvs_enc collect l tail [] Hl Ht) as E1.
    pose proof (parse_tlvs_enc collect l' tail' [] Hl' Ht') as E2.
    rewrite Hc in E1, E2. rewrite <- Hdata in E1. rewrite <- Hdata' in E2. rewrite E1 in E2.
    injection E2 as E2 _. cbn in E2. subst l'. split; [done|].
    rewrite Hdata in Hdata'. by apply app_inv_head in Hdata'.
Qed.

Lemma parse_tlvs_exact_witness :
  exists l tail, [3; 4; 5; 120; 8; 2; 9] = tlvs_enc l ++ tail /\ Forall tlv_ok l /\
    parse_tlvs [3; 4; 5; 120; 8; 2; 9] (fun n t v => Ret (n + t, true)) 0 =
    rbind (tlv_fold (fun n t v => Ret (n + t, true)) 0 l) (fun x => Ret (tlv_result tail x)).
Proof.
  destruct (parse_tlvs_exact (fun n t (v : bytes) => Ret (n + t, true)) 0 [3; 4; 5; 120; 8; 2; 9])
    as ((l & tail & H1 & H2 & H3 & H4 & _) & _); [by apply (bool_decide_unpack _); vm_compute|].
  exists l, tail. done.
Defined.

(** [s2ip4] accepts exactly the texts [ip_to_string] prints, and each is the
    text of the four octets it returns: no leading zeros, no spaces, no sign, no
    value above 255, nothing after the last octet. *)
Theorem s2ip4_iff_printed s b :
  cstr_ok s -> s2ip4 s = Some b <-> bytes_ok b /\ zlen b = 4 /\ s = ip_to_string b.
Proof.
  intros Hs. split; [by apply s2ip4_canonical|]. intros (Hb & Hl & ->). by apply s2ip4_print.
Qed.

Lemma s2ip4_iff_printed_witness :
  s2ip4 (ip_to_string [10; 0; 200; 7]) = Some [10; 0; 200; 7] /\
  s2ip4 (lit "10.0.010.7") = None.
Proof.
  split; [|vm_compute; reflexivity].
  apply (s2ip4_iff_printed (ip_to_string [10; 0; 200; 7]) [10; 0; 200; 7]);
    [by apply (bool_decide_unpack _); vm_compute|].
  split; [by apply (bool_decide_unpack _); vm_compute|]. done.
Defined.
