(* ===== verification/Ipv4.v ===== *)
(** * Checksums and the inner-packet gate (src/src/common/ipv4.c) *)

From S2P Require Import Prelude Util Crypto Protocol.

(** ** Definitions *)

Definition IPV4_MULTICAST (a : Z) : bool := Z.land a 4026531840 =? 3758096384.
Definition IPV4_BROADCAST (a : Z) : bool := a =? 4294967295.

Fixpoint ip_csum_accum (sum : Z) (p : bytes) : Z :=
  match p with
  | a :: b :: r => ip_csum_accum (u32 (sum + Z.lor (Z.shiftl a 8) b)) r
  | [a] => u32 (sum + Z.shiftl a 8)
  | [] => sum
  end.

Fixpoint fold_loop (fuel : nat) (sum : Z) : res Z :=
  match fuel with
  | O => Fault OutOfFuel
  | S fuel =>
      if Z.shiftr sum 16 =? 0 then Ret sum
      else fold_loop fuel (u32 (Z.land sum 65535 + Z.shiftr sum 16))
  end.

(** Two rounds always suffice for a 32-bit sum. *)
Definition ip_csum_fold (sum : Z) : res Z :=
  let! s := fold_loop 3 sum in Ret (u16 (Z.lnot s)).

Definition ip_tcp_csum (sip dip : Z) (tcp : bytes) : res Z :=
  let n := zlen tcp in
  let ph := put32 sip ++ put32 dip ++ [0; 6; u8 (Z.shiftr n 8); u8 n] in
  ip_csum_fold (ip_csum_accum (ip_csum_accum 0 ph) tcp).

(** [sip] and [dip] are 16-byte addresses. *)
Definition ip6_tcp_csum (sip dip tcp : bytes) : res Z :=
  let n := zlen tcp in
  let! s := rdn sip 0 16 in
  let! d := rdn dip 0 16 in
  let ph := s ++ d ++ [0; 0; 0; 6; u8 (Z.shiftr n 24); u8 (Z.shiftr n 16); u8 (Z.shiftr n 8); u8 n] in
  ip_csum_fold (ip_csum_accum (ip_csum_accum 0 ph) tcp).

Definition ip_udp_csum (sip dip : Z) (udp : bytes) : res Z :=
  let n := zlen udp in
  let sum := ip_csum_accum 0 (put32 sip ++ put32 dip) in
  let sum := u32 (sum + 17) in
  let sum := u32 (sum + u32 n) in
  ip_csum_fold (ip_csum_accum sum udp).

(** The addresses on success, [None] for -1. *)
Definition ip6_pkt_ok (pkt : bytes) : res (option (bytes * bytes)) :=
  let len := zlen pkt in
  if len <? 40 then Ret None
  else
    let! b0 := rd pkt 0 in
    if negb (Z.shiftr b0 4 =? 6) then Ret None
    else
      let! p4 := rd pkt 4 in
      let! p5 := rd pkt 5 in
      let plen := Z.lor (Z.shiftl p4 8) p5 in
      if 40 + plen >? len then Ret None
      else
        let! s := rdn pkt 8 16 in
        if forallb (fun b => b =? 0) s then Ret None
        else
          let! b8 := rd pkt 8 in
          if Z.land b8 255 =? 255 then Ret None
          else
            let! b24 := rd pkt 24 in
            if Z.land b24 255 =? 255 then Ret None
            else
              let! d := rdn pkt 24 16 in
              Ret (Some (s, d)).

Definition ipv4_pkt_ok (pkt : bytes) : res (option (Z * Z)) :=
  let len := zlen pkt in
  if len <? 20 then Ret None
  else
    let! b0 := rd pkt 0 in
    if negb (Z.shiftr b0 4 =? 4) then Ret None
    else
      let ihl := Z.land b0 15 in
      if (ihl <? 5) || (ihl * 4 >? len) then Ret None
      else
        let! b2 := rd pkt 2 in
        let! b3 := rd pkt 3 in
        let tot := Z.lor (Z.shiftl b2 8) b3 in
        if (tot <? ihl * 4) || (tot >? len) then Ret None
        else
          let! s := rdn pkt 12 4 in
          let! d := rdn pkt 16 4 in
          let src := ip4_u32 s in
          let dst := ip4_u32 d in
          if (src =? 0) || IPV4_MULTICAST src || IPV4_BROADCAST src then Ret None
          else if IPV4_MULTICAST dst || IPV4_BROADCAST dst then Ret None
          else Ret (Some (src, dst)).

(** ** Checksum lemmas *)

(** The sum of the big-endian 16-bit words, an odd last byte padded with zero. *)
Fixpoint wsum (p : bytes) : Z :=
  match p with
  | a :: b :: r => a * 256 + b + wsum r
  | [a] => a * 256
  | [] => 0
  end.

(** Induction two bytes at a time. *)
Lemma list_ind2 (P : bytes -> Prop) :
  P [] -> (forall a, P [a]) -> (forall a b r, P r -> P (a :: b :: r)) -> forall l, P l.
Proof.
  intros H0 H1 H2. refine (fix IH l := _).
  destruct l as [|a [|b r]]; [apply H0|apply H1|apply H2, IH].
Qed.

Lemma ip_csum_accum_spec p sum :
  bytes_ok p -> 0 <= sum < 2 ^ 32 -> ip_csum_accum sum p = u32 (sum + wsum p).
Proof.
  revert sum. induction p as [|a|a b r IH] using list_ind2; intros sum Hp Hs.
  - cbn [ip_csum_accum wsum]. by rewrite Z.add_0_r, u32_small.
  - cbn [ip_csum_accum wsum]. by rewrite Z.shiftl_mul_pow2 by lia.
  - apply Forall_cons in Hp as [Ha Hp]. apply Forall_cons in Hp as [Hb Hp].
    cbn [ip_csum_accum wsum]. fold (be16 a b). rewrite be16_val by done.
    rewrite IH by (done || apply u32_range). unfold u32. rewrite Zplus_mod_idemp_l. f_equal. lia.
Qed.

Lemma wsum_bounds p : bytes_ok p -> 0 <= wsum p <= 65535 * ((zlen p + 1) / 2).
Proof.
  induction p as [|a|a b r IH] using list_ind2; intros Hp; cbn [wsum].
  - zlia.
  - apply Forall_cons in Hp as [Ha _]. unfold is_byte in Ha. zlia.
  - apply Forall_cons in Hp as [Ha Hp]. apply Forall_cons in Hp as [Hb Hp]. specialize (IH Hp).
    unfold is_byte in *. rewrite !zlen_cons. lia.
Qed.

Lemma wsum_app p q : Nat.even (length p) = true -> wsum (p ++ q) = wsum p + wsum q.
Proof.
  induction p as [|a|a b r IH] using list_ind2; intros H; [done|done|].
  cbn [wsum app]. rewrite IH by done. lia.
Qed.

(** The folded value: in range, congruent modulo 65535, zero only for zero. *)
Lemma fold_loop_spec sum :
  0 <= sum < 2 ^ 32 ->
  exists s, fold_loop 3 sum = Ret s /\ 0 <= s <= 65535 /\ s mod 65535 = sum mod 65535 /\
    (s = 0 <-> sum = 0).
Proof.
  intros Hs.
  assert (forall fuel x, 0 <= x < 2 ^ 32 -> fold_loop (S fuel) x =
    if x <? 65536 then Ret x else fold_loop fuel (x mod 65536 + x / 65536)) as Hstep.
  { intros fuel x Hx. cbn [fold_loop]. rewrite Z.shiftr_div_pow2 by lia.
    change 65535 with (Z.ones 16). rewrite Z.land_ones by lia. change (2 ^ 16) with 65536.
    destruct (x / 65536 =? 0) eqn:E1, (x <? 65536) eqn:E2; try lia; [done|].
    rewrite u32_small by lia. done. }
  assert (forall x, 65536 <= x < 2 ^ 32 -> let y := x mod 65536 + x / 65536 in
    1 <= y <= 131070 /\ y mod 65535 = x mod 65535 /\ (x <= 131070 -> y <= 65535)) as Hfold.
  { intros x Hx. cbn zeta. lia. }
  rewrite Hstep by done. destruct (sum <? 65536) eqn:E1; [exists sum; split; [done|lia]|].
  destruct (Hfold sum) as (H1 & H2 & _); [lia|]. set (y := sum mod 65536 + sum / 65536) in *.
  rewrite Hstep by lia. destruct (y <? 65536) eqn:E2; [eexists; split; [done|lia]|].
  destruct (Hfold y) as (H3 & H4 & H5); [lia|]. set (z := y mod 65536 + y / 65536) in *.
  rewrite Hstep by lia. destruct (z <? 65536) eqn:E3; [eexists; split; [done|lia]|]. lia.
Qed.

Lemma ip_csum_fold_spec sum :
  0 <= sum < 2 ^ 32 ->
  exists c, ip_csum_fold sum = Ret c /\ 0 <= c <= 65535 /\
    (c + sum) mod 65535 = 0 /\ (c = 65535 <-> sum = 0).
Proof.
  intros Hs. destruct (fold_loop_spec sum Hs) as (s & Hf & Hr & Hm & Hz).
  unfold ip_csum_fold. rewrite Hf. cbn [rbind]. exists (65535 - s). split.
  - f_equal. unfold u16, Z.lnot. change (2 ^ 16) with 65536. lia.
  - lia.
Qed.

(** Writing the checksum in a zeroed even-aligned field makes the total fold to 0. *)
Lemma csum_verifies base a b c :
  bytes_ok a -> bytes_ok b -> Nat.even (length a) = true -> 0 <= base ->
  base + 65535 + wsum (a ++ [0; 0] ++ b) < 2 ^ 32 ->
  0 < base + wsum (a ++ [0; 0] ++ b) ->
  ip_csum_fold (u32 (base + wsum (a ++ [0; 0] ++ b))) = Ret c ->
  ip_csum_fold (u32 (base + wsum (a ++ put16 c ++ b))) = Ret 0.
Proof.
  intros Ha Hb He H0 Hlt Hpos Hc.
  pose proof (wsum_bounds a Ha) as Hwa. pose proof (wsum_bounds b Hb) as Hwb.
  rewrite !wsum_app in * by done. change (wsum [0; 0]) with 0 in *. rewrite Z.add_0_l in *.
  rewrite u32_small in Hc by lia.
  destruct (ip_csum_fold_spec (base + (wsum a + wsum b))) as (c' & Hc' & Hcr & Hm & Hz); [lia|].
  rewrite Hc' in Hc. injection Hc as ->.
  assert (wsum (put16 c) = c) as ->.
  { unfold put16. cbn [app wsum]. rewrite u8_shiftr by lia. unfold u8. lia. }
  rewrite u32_small by lia.
  destruct (ip_csum_fold_spec (base + (wsum a + (c + wsum b)))) as (d & Hd & Hdr & Hdm & Hdz); [lia|].
  rewrite Hd. f_equal. lia.
Qed.

(** The checksum routines share this shape: a pseudo-header sum, then the segment. *)
Lemma csum_field ph a b c :
  bytes_ok ph -> bytes_ok a -> bytes_ok b -> Nat.even (length a) = true ->
  zlen ph <= 40 -> zlen a + zlen b <= 65535 -> 0 < wsum ph ->
  ip_csum_fold (ip_csum_accum (ip_csum_accum 0 ph) (a ++ [0; 0] ++ b)) = Ret c ->
  ip_csum_fold (ip_csum_accum (ip_csum_accum 0 ph) (a ++ put16 c ++ b)) = Ret 0.
Proof.
  intros Hph Ha Hb He Hlp Hl Hpos.
  pose proof (wsum_bounds ph Hph). pose proof (wsum_bounds a Ha). pose proof (wsum_bounds b Hb).
  pose proof (zlen_nonneg a). pose proof (zlen_nonneg b). pose proof (zlen_nonneg ph).
  rewrite (ip_csum_accum_spec ph 0), Z.add_0_l, (u32_small (wsum ph)) by (done || lia).
  rewrite !ip_csum_accum_spec by (lia || bok).
  intros Hc. eapply csum_verifies; [done..|lia| | |exact Hc];
    rewrite !wsum_app by done; change (wsum [0; 0]) with 0; lia.
Qed.

Lemma ip_csum_fold_total ph p :
  bytes_ok ph -> bytes_ok p ->
  exists c, ip_csum_fold (ip_csum_accum (ip_csum_accum 0 ph) p) = Ret c /\ 0 <= c < 65536.
Proof.
  intros Hph Hp. rewrite (ip_csum_accum_spec ph) by (done || lia).
  rewrite ip_csum_accum_spec by (done || apply u32_range).
  match goal with |- context [ip_csum_fold (u32 ?x)] =>
    destruct (ip_csum_fold_spec (u32 x) (u32_range x)) as (c & -> & Hc & _) end.
  exists c. split; [done|lia].
Qed.

Lemma udp_pseudo sip dip udp :
  zlen udp < 65536 ->
  ip_csum_accum (u32 (u32 (ip_csum_accum 0 (put32 sip ++ put32 dip) + 17) + u32 (zlen udp))) udp =
  ip_csum_accum (ip_csum_accum 0 (put32 sip ++ put32 dip ++ [0; 17] ++ put16 (zlen udp))) udp.
Proof.
  intros Hl. pose proof (zlen_nonneg udp). f_equal.
  assert (forall v, bytes_ok (put32 v)) as H32 by apply put32_ok.
  rewrite !ip_csum_accum_spec by (lia || bok).
  rewrite !wsum_app by done. change (wsum [0; 17]) with 17.
  assert (wsum (put16 (zlen udp)) = zlen udp) as ->.
  { unfold put16. cbn [wsum]. rewrite u8_shiftr by lia. unfold u8. lia. }
  unfold u32. rewrite (Z.mod_small (zlen udp)) by lia.
  rewrite !Zplus_mod_idemp_l. rewrite <- Z.add_assoc, Zplus_mod_idemp_l. f_equal. lia.
Qed.

(** ** Gate lemmas *)

Lemma shiftr4 b : Z.shiftr b 4 = b / 16.
Proof. by rewrite Z.shiftr_div_pow2. Qed.
Lemma land15 b : Z.land b 15 = b mod 16.
Proof. change 15 with (Z.ones 4). by rewrite Z.land_ones. Qed.
Lemma land255 b : is_byte b -> Z.land b 255 = b.
Proof. intros. change 255 with (Z.ones 8). rewrite Z.land_ones by lia. by apply u8_small. Qed.

Lemma IPV4_MULTICAST_spec a : 0 <= a < 2 ^ 32 -> IPV4_MULTICAST a = (a / 2 ^ 28 =? 14).
Proof.
  intros Ha. unfold IPV4_MULTICAST. change 4026531840 with (Z.shiftl (Z.ones 4) 28).
  assert (Z.land a (Z.shiftl (Z.ones 4) 28) = a / 2 ^ 28 * 2 ^ 28) as ->; [|lia].
  rewrite <- Z.shiftr_div_pow2, <- Z.shiftl_mul_pow2 by lia.
  rewrite <- Z.ldiff_ones_r by lia. apply Z.bits_inj'. intros k Hk.
  rewrite Z.land_spec, Z.ldiff_spec, Z.shiftl_spec by lia.
  destruct (decide (k < 28)).
  - rewrite (Z.testbit_neg_r _ (k - 28)), Z.ones_spec_low by lia. cbn. by rewrite !andb_false_r.
  - rewrite (Z.ones_spec_high 28) by lia. destruct (decide (k < 32)).
    + by rewrite Z.ones_spec_low by lia.
    + rewrite (testbit_high a 32) by lia. done.
Qed.

(** What the IPv4 gate requires, on the bytes of the packet. *)
Definition ipv4_valid (p : bytes) : Prop :=
  20 <= zlen p /\ p.[0] / 16 = 4 /\ 5 <= p.[0] mod 16 /\
  p.[0] mod 16 * 4 <= be16 p.[2] p.[3] <= zlen p /\
  be32 p.[12] p.[13] p.[14] p.[15] <> 0 /\ p.[12] / 16 <> 14 /\
  be32 p.[12] p.[13] p.[14] p.[15] <> 4294967295 /\
  p.[16] / 16 <> 14 /\ be32 p.[16] p.[17] p.[18] p.[19] <> 4294967295.

#[global] Instance ipv4_valid_dec p : Decision (ipv4_valid p).
Proof. unfold ipv4_valid. apply _. Defined.

Lemma slice_ip4 p off :
  0 <= off -> off + 4 <= zlen p ->
  ip4_u32 (slice p off 4) = be32 p.[off] p.[off + 1] p.[off + 2] p.[off + 3].
Proof. intros. unfold ip4_u32. rewrite !at_slice by lia. by rewrite Z.add_0_r. Qed.

Lemma mcast_be32 b0 b1 b2 b3 :
  is_byte b0 -> is_byte b1 -> is_byte b2 -> is_byte b3 ->
  IPV4_MULTICAST (be32 b0 b1 b2 b3) = (b0 / 16 =? 14).
Proof.
  intros. rewrite IPV4_MULTICAST_spec by by apply be32_range. rewrite be32_val by done.
  unfold is_byte in *. f_equal. lia.
Qed.

Lemma ipv4_pkt_ok_spec p :
  bytes_ok p ->
  ipv4_pkt_ok p =
  Ret (if decide (ipv4_valid p)
       then Some (be32 p.[12] p.[13] p.[14] p.[15], be32 p.[16] p.[17] p.[18] p.[19])
       else None).
Proof.
  intros Hp. assert (forall i, is_byte p.[i]) as Hb by (intros; by apply at_byte).
  unfold ipv4_pkt_ok. head_if E0.
  { rewrite decide_False; [done|]. unfold ipv4_valid. lia. }
  rds. rewrite shiftr4, land15. head_if E1.
  { rewrite decide_False; [done|]. unfold ipv4_valid. lia. }
  head_if E2.
  { rewrite decide_False; [done|]. unfold ipv4_valid. lia. }
  rds. fold (be16 p.[2] p.[3]). head_if E3.
  { rewrite decide_False; [done|]. unfold ipv4_valid. lia. }
  rds. rewrite !slice_ip4 by lia.
  change (12 + 1) with 13. change (12 + 2) with 14. change (12 + 3) with 15.
  change (16 + 1) with 17. change (16 + 2) with 18. change (16 + 3) with 19.
  rewrite !mcast_be32 by done. unfold IPV4_BROADCAST. head_if E4.
  { rewrite decide_False; [done|]. unfold ipv4_valid. lia. }
  head_if E5.
  { rewrite decide_False; [done|]. unfold ipv4_valid. lia. }
  rewrite decide_True; [done|]. unfold ipv4_valid. lia.
Qed.

Definition ip6_valid (p : bytes) : Prop :=
  40 <= zlen p /\ p.[0] / 16 = 6 /\ 40 + be16 p.[4] p.[5] <= zlen p /\
  slice p 8 16 <> fill 0 16 /\ p.[8] <> 255 /\ p.[24] <> 255.

#[global] Instance ip6_valid_dec p : Decision (ip6_valid p).
Proof. unfold ip6_valid. apply _. Defined.

Lemma forallb_zero l n : zlen l = n -> forallb (fun b => b =? 0) l = true <-> l = fill 0 n.
Proof.
  intros Hl. rewrite forallb_forall. unfold fill. split.
  - intros H. unfold zlen in Hl. subst n. rewrite Nat2Z.id. symmetry. apply replicate_as_Forall_2; [done|].
    apply List.Forall_forall. intros x Hx. specialize (H x Hx). lia.
  - intros -> x Hx. assert (Forall (fun b => b = 0) (replicate (Z.to_nat n) 0)) as Hf by by apply Forall_replicate.
    rewrite List.Forall_forall in Hf. by rewrite (Hf x Hx).
Qed.

Lemma ip6_pkt_ok_spec p :
  bytes_ok p ->
  ip6_pkt_ok p = Ret (if decide (ip6_valid p) then Some (slice p 8 16, slice p 24 16) else None).
Proof.
  intros Hp. assert (forall i, is_byte p.[i]) as Hb by (intros; by apply at_byte).
  unfold ip6_pkt_ok. head_if E0.
  { rewrite decide_False; [done|]. unfold ip6_valid. lia. }
  rds. rewrite shiftr4. head_if E1.
  { rewrite decide_False; [done|]. unfold ip6_valid. lia. }
  rds. fold (be16 p.[4] p.[5]). head_if E2.
  { rewrite decide_False; [done|]. unfold ip6_valid. lia. }
  rds. pose proof (forallb_zero (slice p 8 16) 16 (zlen_slice p 8 16 ltac:(lia) ltac:(lia) ltac:(lia))) as Hz.
  head_if E3.
  { rewrite decide_False; [done|]. unfold ip6_valid. intros (_ & _ & _ & H & _). by apply H, Hz. }
  rds. rewrite !land255 by done. head_if E4.
  { rewrite decide_False; [done|]. unfold ip6_valid. lia. }
  rds. rewrite ?land255 by done. head_if E5.
  { rewrite decide_False; [done|]. unfold ip6_valid. lia. }
  rds. rewrite decide_True; [done|]. unfold ip6_valid. split_and!; try lia.
  intros H. apply Hz in H. congruence.
Qed.

(** ** Main theorems *)

(** the TCP and UDP checksums verify.  For IPv4 and IPv6 pseudo-headers and any
    segment of at most 65535 bytes whose checksum field (offset 16 in TCP, 6 in
    UDP) is zero, the routine returns a 16-bit value, and recomputing over the
    segment with that value in the field gives 0, which is what a receiver checks
    (RFC 1071); no carry is lost in the 32-bit accumulator. *)
Theorem transport_checksums_verify sip dip s6 d6 ta tb ua ub :
  bytes_ok ta -> bytes_ok tb -> bytes_ok ua -> bytes_ok ub -> bytes_ok s6 -> bytes_ok d6 ->
  zlen ta = 16 -> zlen ua = 6 -> zlen s6 = 16 -> zlen d6 = 16 ->
  16 + 2 + zlen tb <= 65535 -> 6 + 2 + zlen ub <= 65535 ->
  (exists c, ip_tcp_csum sip dip (ta ++ [0; 0] ++ tb) = Ret c /\ 0 <= c < 65536 /\
     ip_tcp_csum sip dip (ta ++ put16 c ++ tb) = Ret 0) /\
  (exists c, ip6_tcp_csum s6 d6 (ta ++ [0; 0] ++ tb) = Ret c /\ 0 <= c < 65536 /\
     ip6_tcp_csum s6 d6 (ta ++ put16 c ++ tb) = Ret 0) /\
  (exists c, ip_udp_csum sip dip (ua ++ [0; 0] ++ ub) = Ret c /\ 0 <= c < 65536 /\
     ip_udp_csum sip dip (ua ++ put16 c ++ ub) = Ret 0).
Proof.
  intros Hta Htb Hua Hub Hs6 Hd6 Lta Lua Ls Ld Lt Lu.
  assert (forall a b c, zlen (a ++ put16 c ++ b) = zlen (a ++ [0; 0] ++ b)) as Hlen.
  { intros. unfold put16. zlia. }
  assert (forall (a b : bytes), zlen (a ++ [0; 0] ++ b) = zlen a + 2 + zlen b) as Hlen0 by (intros; zlia).
  assert (forall (a : bytes) k, zlen a = Z.of_nat k -> Nat.even k = true -> Nat.even (length a) = true) as Hev.
  { intros a k Hk. unfold zlen in Hk. by replace (length a) with k by lia. }
  pose proof (zlen_nonneg tb). pose proof (zlen_nonneg ub).
  split_and!.
  - destruct (ip_csum_fold_total (put32 sip ++ put32 dip ++ [0; 6; u8 (Z.shiftr (zlen (ta ++ [0; 0] ++ tb)) 8);
      u8 (zlen (ta ++ [0; 0] ++ tb))]) (ta ++ [0; 0] ++ tb)) as (c & Hc & Hr); [by bok|by bok|].
    exists c. unfold ip_tcp_csum. rewrite Hlen. split; [exact Hc|]. split; [done|].
    eapply csum_field; [by bok|done|done|by apply (Hev ta 16%nat)|zlia|lia| |exact Hc].
    rewrite !wsum_app by done. pose proof (wsum_bounds (put32 sip) (put32_ok _)).
    pose proof (wsum_bounds (put32 dip) (put32_ok _)). cbn [wsum].
    pose proof (u8_range (Z.shiftr (zlen (ta ++ [0; 0] ++ tb)) 8)).
    pose proof (u8_range (zlen (ta ++ [0; 0] ++ tb))). lia.
  - unfold ip6_tcp_csum. rewrite !rdn_ok by lia. cbn [rbind].
    assert (slice s6 0 16 = s6) as -> by (rewrite <- Ls; apply slice_all).
    assert (slice d6 0 16 = d6) as -> by (rewrite <- Ld; apply slice_all).
    set (n := zlen (ta ++ [0; 0] ++ tb)).
    set (ph := s6 ++ d6 ++ [0; 0; 0; 6; u8 (Z.shiftr n 24); u8 (Z.shiftr n 16); u8 (Z.shiftr n 8); u8 n]).
    assert (bytes_ok ph) as Hph by (unfold ph; by bok).
    destruct (ip_csum_fold_total ph (ta ++ [0; 0] ++ tb)) as (c & Hc & Hr); [done|by bok|].
    exists c. rewrite Hlen. fold n. fold ph. split; [exact Hc|]. split; [done|].
    eapply csum_field; [done|done|done|by apply (Hev ta 16%nat)|unfold ph; zlia|lia| |exact Hc].
    unfold ph. rewrite !wsum_app by (by eapply (Hev _ 16%nat)). cbn [wsum].
    pose proof (wsum_bounds s6 Hs6). pose proof (wsum_bounds d6 Hd6).
    pose proof (u8_range (Z.shiftr n 24)). pose proof (u8_range (Z.shiftr n 16)).
    pose proof (u8_range (Z.shiftr n 8)). pose proof (u8_range n). lia.
  - unfold ip_udp_csum. rewrite udp_pseudo by (rewrite Hlen0; lia).
    set (ph := put32 sip ++ put32 dip ++ [0; 17] ++ put16 (zlen (ua ++ [0; 0] ++ ub))).
    assert (bytes_ok ph) as Hph by (unfold ph; by bok).
    destruct (ip_csum_fold_total ph (ua ++ [0; 0] ++ ub)) as (c & Hc & Hr); [done|by bok|].
    exists c. rewrite udp_pseudo by (rewrite Hlen, Hlen0; lia). rewrite Hlen. fold ph.
    split; [exact Hc|]. split; [done|].
    eapply csum_field; [done|done|done|by apply (Hev ua 6%nat)|unfold ph, put16; zlia|lia| |exact Hc].
    unfold ph. rewrite !wsum_app by done. pose proof (wsum_bounds (put32 sip) (put32_ok _)).
    pose proof (wsum_bounds (put32 dip) (put32_ok _)).
    pose proof (wsum_bounds (put16 (zlen (ua ++ [0; 0] ++ ub))) (put16_ok _)). cbn [wsum] in *. lia.
Qed.

Lemma transport_checksums_verify_witness :
  exists c, ip_udp_csum 167772162 167772161 ([0; 53; 4; 1; 0; 11] ++ [0; 0] ++ [1; 2; 3]) = Ret c /\
    ip_udp_csum 167772162 167772161 ([0; 53; 4; 1; 0; 11] ++ put16 c ++ [1; 2; 3]) = Ret 0.
Proof.
  destruct (transport_checksums_verify 167772162 167772161 (fill 1 16) (fill 2 16) (fill 3 16) [7; 8]
    [0; 53; 4; 1; 0; 11] [1; 2; 3]) as (_ & _ & c & H1 & _ & H2);
    try (by apply (bool_decide_unpack _); vm_compute); try done.
  exists c. done.
Defined.

(** the inner-packet gates decide exactly their documented conditions and read
    nothing outside the packet: version, header length, total length within the
    buffer, usable source and destination.  What is accepted yields the source and
    destination fields of the packet. *)
Theorem packet_gates_exact p :
  bytes_ok p ->
  ipv4_pkt_ok p =
    Ret (if decide (ipv4_valid p)
         then Some (be32 p.[12] p.[13] p.[14] p.[15], be32 p.[16] p.[17] p.[18] p.[19])
         else None) /\
  ip6_pkt_ok p =
    Ret (if decide (ip6_valid p) then Some (slice p 8 16, slice p 24 16) else None) /\
  ~ (ipv4_valid p /\ ip6_valid p).
Proof.
  intros Hp. split_and!; [by apply ipv4_pkt_ok_spec|by apply ip6_pkt_ok_spec|].
  unfold ipv4_valid, ip6_valid. lia.
Qed.

Lemma packet_gates_exact_witness :
  let p := [69; 0; 0; 20; 0; 0; 0; 0; 64; 17; 0; 0; 10; 0; 0; 2; 8; 8; 8; 8] in
  ipv4_pkt_ok p = Ret (Some (167772162, 134744072)) /\ ip6_pkt_ok p = Ret None.
Proof.
  intros p. destruct (packet_gates_exact p) as (H1 & H2 & _); [by apply (bool_decide_unpack _); vm_compute|].
  split; [rewrite H1; vm_compute; reflexivity|rewrite H2; vm_compute; reflexivity].
Defined.
