(* ===== verification/Rate.v ===== *)
(** * Per-source rate limits of the server (src/src/common/server_rate.c)

    Sixteen shards of 64 buckets, looked up by linear probing, and three gate
    tables that remember sources over budget without taking a shard lock.  A table
    is a finite map whose missing entries are the zero-initialised ones.  Every
    public function runs under one shard lock and is one transition here. *)

From S2P Require Import Prelude Util Protocol.

Definition RATE_BUCKETS : Z := 1024.
Definition RATE_WINDOW_MS : Z := 1000.
Definition RATE_HASH_MUL : Z := 2654435761.
Definition RATE_HASH_SHIFT : Z := 22.
Definition RATE_PROBE_MAX : nat := 8.
Definition RATE_SHARDS : Z := 16.
Definition RATE_SHARD_BITS : Z := 6.
Definition RATE_BUCKETS_PER_SHARD : Z := RATE_BUCKETS / RATE_SHARDS.
Definition RATE_GATE_WAYS : nat := 16.

Record rate_bucket := mk_bucket {
  b_ip : Z;
  b_win : Z;
  open_cnt : Z;
  ping_cnt : Z;
  echo_cnt : Z;
  miss_cnt : Z;
  tokbad_cnt : Z;
  close_cnt : Z
}.

Definition bucket0 : rate_bucket := mk_bucket 0 0 0 0 0 0 0 0.

Record rate_gate := mk_gate { g_ip : Z; over_until_ms : Z }.
Definition gate0 : rate_gate := mk_gate 0 0.

(** Shards are keyed by (shard, index), gates by (slot, way). *)
Record rate_state := mk_rate {
  shards : gmap (Z * Z) rate_bucket;
  g_rate_gate : gmap (Z * nat) rate_gate;
  g_tokbad_gate : gmap (Z * nat) rate_gate;
  g_close_gate : gmap (Z * nat) rate_gate;
  g_rate_drops : Z;
  rate_open_max : Z;
  rate_echo_max : Z;
  rate_miss_max : Z;
  rate_tokbad_max : Z;
  rate_close_max : Z;
  up_throttle_ms : Z
}.

Definition bucket_at (st : rate_state) (k : Z * Z) : rate_bucket := default bucket0 (shards st !! k).
Definition gate_at (t : gmap (Z * nat) rate_gate) (k : Z * nat) : rate_gate := default gate0 (t !! k).

Definition set_bucket (st : rate_state) (k : Z * Z) (b : rate_bucket) : rate_state :=
  mk_rate (<[k := b]> (shards st)) (g_rate_gate st) (g_tokbad_gate st) (g_close_gate st) (g_rate_drops st)
    (rate_open_max st) (rate_echo_max st) (rate_miss_max st) (rate_tokbad_max st) (rate_close_max st)
    (up_throttle_ms st).

Definition set_gates (st : rate_state) (r t c : gmap (Z * nat) rate_gate) : rate_state :=
  mk_rate (shards st) r t c (g_rate_drops st)
    (rate_open_max st) (rate_echo_max st) (rate_miss_max st) (rate_tokbad_max st) (rate_close_max st)
    (up_throttle_ms st).

Definition server_rate_drop_inc (st : rate_state) : rate_state :=
  mk_rate (shards st) (g_rate_gate st) (g_tokbad_gate st) (g_close_gate st) (g_rate_drops st + 1)
    (rate_open_max st) (rate_echo_max st) (rate_miss_max st) (rate_tokbad_max st) (rate_close_max st)
    (up_throttle_ms st).

(** ** Start-up limits *)

Fixpoint rate_limit_acc (s : bytes) (v : Z) : option Z :=
  match s with
  | [] => Some v
  | c :: r =>
      if negb (isdigit c) then None
      else
        let d := c - 48 in
        if v >? (65535 - d) / 10 then None else rate_limit_acc r (v * 10 + d)
  end.

Definition rate_limit_parse (s : bytes) : option Z :=
  match s with
  | [] => None
  | _ => match rate_limit_acc s 0 with
         | Some 0 | None => None
         | Some v => Some v
         end
  end.

Definition rate_limit_env (getenv : option bytes) (dflt : Z) : Z :=
  match getenv with
  | None => dflt
  | Some v => match rate_limit_parse v with Some n => n | None => dflt end
  end.

(** The limits from the environment, with empty tables. *)
Definition server_rate_limits_init (getenv : bytes -> option bytes) : rate_state :=
  mk_rate ∅ ∅ ∅ ∅ 0
    (rate_limit_env (getenv (lit "IWAN_RATE_OPEN_MAX")) 20)
    (rate_limit_env (getenv (lit "IWAN_RATE_ECHO_MAX")) 60)
    (rate_limit_env (getenv (lit "IWAN_RATE_MISS_MAX")) 2000)
    (rate_limit_env (getenv (lit "IWAN_RATE_TOKBAD_MAX")) 4096)
    (rate_limit_env (getenv (lit "IWAN_RATE_CLOSE_MAX")) 4096)
    (rate_limit_env (getenv (lit "IWAN_SRV_THROTTLE_MS")) 2).

(** ** Hashing *)

Definition rate_hash (ip : Z) : Z := Z.shiftr (u32 (ip * RATE_HASH_MUL)) RATE_HASH_SHIFT.

Definition rate_ip_shard (ip : Z) : Z :=
  Z.land (Z.shiftr (rate_hash ip) RATE_SHARD_BITS) (RATE_SHARDS - 1).

Definition rate_gate_slot (ip : Z) : Z := rate_hash ip.

(** ** Gates *)

(** [k] ways to go, [w] the current one. *)
Fixpoint gate_claim_loop (k : nat) (t : gmap (Z * nat) rate_gate) (slot : Z) (w : nat) (ip until now : Z)
    : gmap (Z * nat) rate_gate :=
  match k with
  | O => t
  | S k =>
      let g := gate_at t (slot, w) in
      if negb (g_ip g =? 0) && negb (g_ip g =? ip) && (over_until_ms g >? now)
      then gate_claim_loop k t slot (S w) ip until now
      else <[(slot, w) := mk_gate ip until]> t
  end.

Definition rate_gate_claim (t : gmap (Z * nat) rate_gate) (slot ip until now : Z) :=
  gate_claim_loop RATE_GATE_WAYS t slot 0 ip until now.

Definition rate_gate_check (t : gmap (Z * nat) rate_gate) (slot ip now : Z) : bool :=
  existsb (fun w => let g := gate_at t (slot, w) in (g_ip g =? ip) && (over_until_ms g >? now))
    (seq 0 RATE_GATE_WAYS).

(** ** Buckets *)

Definition probe_index (h i : Z) : Z := (h + i) mod RATE_BUCKETS_PER_SHARD.

(** [rate_bucket_find]: the index of the bucket to use within the shard. *)
Fixpoint find_loop (k : nat) (st : rate_state) (sh h ip i evict oldest : Z) : Z :=
  match k with
  | O => probe_index h evict
  | S k =>
      let c := bucket_at st (sh, probe_index h i) in
      let older := b_win c <? oldest in
      let oldest' := if older then b_win c else oldest in
      let evict' := if older then i else evict in
      if (b_ip c =? ip) || ((b_ip c =? 0) && (b_win c =? 0)) then probe_index h i
      else find_loop k st sh h ip (i + 1) evict' oldest'
  end.

Definition rate_bucket_find (st : rate_state) (sh ip : Z) : Z :=
  let h := Z.land (rate_hash ip) (RATE_BUCKETS_PER_SHARD - 1) in
  find_loop RATE_PROBE_MAX st sh h ip 0 0 UINT64_MAX.

Definition rate_evict_publish (st : rate_state) (b : rate_bucket) (now : Z) : rate_state :=
  let ip := b_ip b in
  if (ip =? 0) || (u64 (now - b_win b) >=? RATE_WINDOW_MS) then st
  else if (open_cnt b =? 0) && (ping_cnt b =? 0) && (echo_cnt b =? 0) &&
          (miss_cnt b =? 0) && (tokbad_cnt b =? 0) && (close_cnt b =? 0) then st
  else
    let until := u64 (b_win b + RATE_WINDOW_MS) in
    let slot := rate_gate_slot ip in
    set_gates st (rate_gate_claim (g_rate_gate st) slot ip until now)
      (rate_gate_claim (g_tokbad_gate st) slot ip until now)
      (rate_gate_claim (g_close_gate st) slot ip until now).

(** [now] is the [now_ms()] of the call. *)
Definition rate_bucket_touch (st : rate_state) (k : Z * Z) (ip now : Z) : rate_state :=
  let b := bucket_at st k in
  if negb (b_ip b =? ip) || (u64 (now - b_win b) >=? RATE_WINDOW_MS) then
    set_bucket (rate_evict_publish st b now) k (mk_bucket ip now 0 0 0 0 0 0)
  else st.

(** The state after the bucket is entered and the key of the bucket. *)
Definition rate_bucket_enter (st : rate_state) (ip now : Z) : rate_state * (Z * Z) :=
  let sh := rate_ip_shard ip in
  let k := (sh, rate_bucket_find st sh ip) in
  (rate_bucket_touch st k ip now, k).

(** ** Decisions *)

(** Which counter a control type uses, as a read and an update. *)
Definition ctl_cnt (typ : Z) (b : rate_bucket) : Z :=
  if typ =? PT_OPEN then open_cnt b else if typ =? PT_PING_REQ then ping_cnt b else echo_cnt b.

Definition ctl_inc (typ : Z) (b : rate_bucket) : rate_bucket :=
  let '(mk_bucket ip win o p e m t c) := b in
  if typ =? PT_OPEN then mk_bucket ip win (u32 (o + 1)) p e m t c
  else if typ =? PT_PING_REQ then mk_bucket ip win o (u32 (p + 1)) e m t c
  else mk_bucket ip win o p (u32 (e + 1)) m t c.

Definition ctl_limit (st : rate_state) (typ : Z) : option Z :=
  if typ =? PT_OPEN then Some (rate_open_max st)
  else if (typ =? PT_PING_REQ) || (typ =? PT_ECHO_REQ) then Some (rate_echo_max st)
  else None.

Definition server_rate_allow_control (st : rate_state) (ip typ now : Z) : rate_state * bool :=
  match ctl_limit st typ with
  | None => (st, true)
  | Some limit =>
      let (st, k) := rate_bucket_enter st ip now in
      let b := bucket_at st k in
      if ctl_cnt typ b >=? limit then (server_rate_drop_inc st, false)
      else (set_bucket st k (ctl_inc typ b), true)
  end.

(** The three budgets behind a gate differ in their counter, limit and gate table;
    [now] is the caller's clock, [clk] the one [rate_bucket_touch] reads. *)
Inductive budget := MISS | TOKBAD | CLOSE.

Definition budget_cnt (k : budget) (b : rate_bucket) : Z :=
  match k with MISS => miss_cnt b | TOKBAD => tokbad_cnt b | CLOSE => close_cnt b end.

Definition budget_inc (k : budget) (b : rate_bucket) : rate_bucket :=
  let '(mk_bucket ip win o p e m t c) := b in
  match k with
  | MISS => mk_bucket ip win o p e (u32 (m + 1)) t c
  | TOKBAD => mk_bucket ip win o p e m (u32 (t + 1)) c
  | CLOSE => mk_bucket ip win o p e m t (u32 (c + 1))
  end.

Definition budget_max (k : budget) (st : rate_state) : Z :=
  match k with MISS => rate_miss_max st | TOKBAD => rate_tokbad_max st | CLOSE => rate_close_max st end.

Definition budget_gate (k : budget) (st : rate_state) : gmap (Z * nat) rate_gate :=
  match k with MISS => g_rate_gate st | TOKBAD => g_tokbad_gate st | CLOSE => g_close_gate st end.

Definition set_budget_gate (k : budget) (st : rate_state) (t : gmap (Z * nat) rate_gate) : rate_state :=
  match k with
  | MISS => set_gates st t (g_tokbad_gate st) (g_close_gate st)
  | TOKBAD => set_gates st (g_rate_gate st) t (g_close_gate st)
  | CLOSE => set_gates st (g_rate_gate st) (g_tokbad_gate st) t
  end.

Definition allow_budget (kind : budget) (st : rate_state) (ip now clk : Z) : rate_state * bool :=
  let slot := rate_gate_slot ip in
  if rate_gate_check (budget_gate kind st) slot ip now then (st, false)
  else
    let (st, k) := rate_bucket_enter st ip clk in
    let b := budget_inc kind (bucket_at st k) in
    let st := set_bucket st k b in
    let ok := budget_cnt kind b <=? budget_max kind st in
    if ok then (st, true)
    else (set_budget_gate kind st
            (rate_gate_claim (budget_gate kind st) slot ip (u64 (b_win b + RATE_WINDOW_MS)) now), false).

Definition server_rate_allow_sid_miss := allow_budget MISS.
Definition server_rate_allow_tokbad := allow_budget TOKBAD.
Definition server_rate_allow_close := allow_budget CLOSE.

(** ** Properties *)

(** A probe position the search stops at. *)
Definition probe_hit (st : rate_state) (sh h ip i : Z) : bool :=
  let c := bucket_at st (sh, probe_index h i) in
  (b_ip c =? ip) || ((b_ip c =? 0) && (b_win c =? 0)).

Lemma find_loop_first k st sh h ip i j evict oldest :
  i <= j < i + Z.of_nat k -> probe_hit st sh h ip j = true ->
  (forall x, i <= x < j -> probe_hit st sh h ip x = false) ->
  find_loop k st sh h ip i evict oldest = probe_index h j.
Proof.
  revert i evict oldest. induction k as [|k IH]; intros i evict oldest Hj Hh Hb; [lia|].
  cbn [find_loop]. fold (probe_hit st sh h ip i).
  destruct (probe_hit st sh h ip i) eqn:E.
  - destruct (decide (i = j)) as [->|]; [done|]. rewrite Hb in E by lia. done.
  - destruct (decide (i = j)) as [->|]; [congruence|]. apply IH; [lia|done|]. intros x Hx. apply Hb. lia.
Qed.

Lemma find_loop_none k st sh h ip i evict oldest :
  (forall x, i <= x < i + Z.of_nat k -> probe_hit st sh h ip x = false) ->
  evict = 0 \/ evict < i -> 0 <= evict -> 0 <= i ->
  exists e, find_loop k st sh h ip i evict oldest = probe_index h e /\ 0 <= e /\ (e = 0 \/ e < i + Z.of_nat k).
Proof.
  revert i evict oldest. induction k as [|k IH]; intros i evict oldest Hn He H0 Hi.
  - exists evict. split; [done|]. lia.
  - cbn [find_loop]. fold (probe_hit st sh h ip i). rewrite Hn by lia.
    match goal with |- context [find_loop k st sh h ip (i + 1) ?e ?o] =>
      destruct (IH (i + 1) e o) as (e' & -> & He') end;
      [intros x Hx; apply Hn; lia|destruct (_ <? _); lia|destruct (_ <? _); lia|lia|].
    exists e'. split; [done|]. lia.
Qed.

(** The bucket found for [ip] is its own exactly when the search stops at it. *)
Lemma find_owned st sh ip :
  ip <> 0 -> b_ip (bucket_at st (sh, rate_bucket_find st sh ip)) = ip ->
  exists j, 0 <= j < 8 /\
    rate_bucket_find st sh ip = probe_index (Z.land (rate_hash ip) (RATE_BUCKETS_PER_SHARD - 1)) j /\
    probe_hit st sh (Z.land (rate_hash ip) (RATE_BUCKETS_PER_SHARD - 1)) ip j = true /\
    forall x, 0 <= x < j -> probe_hit st sh (Z.land (rate_hash ip) (RATE_BUCKETS_PER_SHARD - 1)) ip x = false.
Proof.
  intros Hip Hown. unfold rate_bucket_find in *.
  set (h := Z.land (rate_hash ip) (RATE_BUCKETS_PER_SHARD - 1)) in *.
  assert (forall k j0, (forall x, 0 <= x < j0 -> probe_hit st sh h ip x = false) -> 0 <= j0 ->
    (exists j, j0 <= j < j0 + Z.of_nat k /\ probe_hit st sh h ip j = true /\
       forall x, 0 <= x < j -> probe_hit st sh h ip x = false) \/
    (forall x, 0 <= x < j0 + Z.of_nat k -> probe_hit st sh h ip x = false)) as Hscan.
  { induction k as [|k IH]; intros j0 Hb H0; [right; intros; apply Hb; lia|].
    destruct (probe_hit st sh h ip j0) eqn:E; [left; exists j0; split; [lia|done]|].
    destruct (IH (j0 + 1)) as [(j & Hj & Hr)|Hn]; [|lia|left; exists j; split; [lia|done]|].
    - intros x Hx. destruct (decide (x = j0)) as [->|]; [done|apply Hb; lia].
    - right. intros x Hx. apply Hn. lia. }
  destruct (Hscan RATE_PROBE_MAX 0) as [(j & Hj & Hh & Hb)|Hn]; [intros; lia|lia| |].
  - exists j. change (Z.of_nat RATE_PROBE_MAX) with 8 in Hj.
    split_and!; [lia|lia| |done|done]. apply find_loop_first; [change (Z.of_nat RATE_PROBE_MAX) with 8; lia|done|]. intros; apply Hb; lia.
  - exfalso. destruct (find_loop_none RATE_PROBE_MAX st sh h ip 0 0 UINT64_MAX) as (e & He & H0 & He');
      [done|lia|lia|lia|]. rewrite He in Hown.
    assert (probe_hit st sh h ip e = false) as Hf by (apply Hn; change (Z.of_nat RATE_PROBE_MAX) with 8 in *; lia).
    unfold probe_hit in Hf. rewrite Hown, Z.eqb_refl in Hf. done.
Qed.

(** Changing another bucket to one that is in use does not move [ip]'s bucket. *)
Lemma find_stable st st' sh ip k b :
  ip <> 0 -> b_ip (bucket_at st (sh, rate_bucket_find st sh ip)) = ip ->
  k <> (sh, rate_bucket_find st sh ip) -> shards st' = <[k := b]> (shards st) ->
  b_ip b <> ip -> (b_ip b <> 0 \/ b_win b <> 0) ->
  rate_bucket_find st' sh ip = rate_bucket_find st sh ip /\
  bucket_at st' (sh, rate_bucket_find st sh ip) = bucket_at st (sh, rate_bucket_find st sh ip).
Proof.
  intros Hip Hown Hk Hst Hb Hb0.
  destruct (find_owned st sh ip Hip Hown) as (j & Hj & Hf & Hh & Hbefore).
  set (h := Z.land (rate_hash ip) (RATE_BUCKETS_PER_SHARD - 1)) in *.
  assert (forall x, (sh, probe_index h x) = k \/ bucket_at st' (sh, probe_index h x) = bucket_at st (sh, probe_index h x)) as Hat.
  { intros x. destruct (decide ((sh, probe_index h x) = k)) as [|Hne]; [by left|right].
    unfold bucket_at. by rewrite Hst, lookup_insert_ne. }
  assert (bucket_at st' (sh, rate_bucket_find st sh ip) = bucket_at st (sh, rate_bucket_find st sh ip)) as Hsame.
  { rewrite Hf. destruct (Hat j) as [E|E]; [|done]. rewrite Hf in Hk. congruence. }
  split; [|done]. rewrite Hf. unfold rate_bucket_find. fold h. apply find_loop_first; [change (Z.of_nat RATE_PROBE_MAX) with 8; lia| |].
  - unfold probe_hit in *. rewrite <- Hf, Hsame, Hf. done.
  - intros x Hx. specialize (Hbefore x Hx). unfold probe_hit in *. destruct (Hat x) as [E|E].
    + unfold bucket_at. rewrite Hst, E, lookup_insert_eq. simpl. lia.
    + by rewrite E.
Qed.

(** One control call and a run of them; each call is (source, type, clock). *)
Definition control_call : Type := Z * Z * Z.

Fixpoint control_run (st : rate_state) (l : list control_call) : rate_state * list bool :=
  match l with
  | [] => (st, [])
  | (ip, typ, now) :: r =>
      let (st1, ok) := server_rate_allow_control st ip typ now in
      let (st2, oks) := control_run st1 r in
      (st2, ok :: oks)
  end.

(** How many calls of type [typ] from [ip] were allowed. *)
Fixpoint allowed (ip typ : Z) (l : list control_call) (oks : list bool) : Z :=
  match l, oks with
  | (i, t, _) :: l, ok :: oks =>
      (if (i =? ip) && (t =? typ) && ok then 1 else 0) + allowed ip typ l oks
  | _, _ => 0
  end.

(** The run leaves [ip]'s bucket alone: calls of [ip] fall in its current window,
    calls of other sources are resolved to other buckets. *)
Fixpoint undisturbed (st : rate_state) (ip : Z) (l : list control_call) : Prop :=
  match l with
  | [] => True
  | (i, t, now) :: r =>
      let k := (rate_ip_shard ip, rate_bucket_find st (rate_ip_shard ip) ip) in
      i <> 0 /\
      (if i =? ip then u64 (now - b_win (bucket_at st k)) < RATE_WINDOW_MS
       else (rate_ip_shard i, rate_bucket_find st (rate_ip_shard i) i) <> k) /\
      undisturbed (server_rate_allow_control st i t now).1 ip r
  end.

Lemma evict_publish_shards st b now :
  shards (rate_evict_publish st b now) = shards st /\
  forall t, ctl_limit (rate_evict_publish st b now) t = ctl_limit st t.
Proof. unfold rate_evict_publish. by ifs. Qed.

Lemma bucket_at_set st k b : bucket_at (set_bucket st k b) k = b.
Proof. unfold bucket_at, set_bucket. cbn. by rewrite lookup_insert_eq. Qed.

(** Entering a bucket keeps it or takes it over for the source. *)
Lemma touch_effect st k ip now :
  let st' := rate_bucket_touch st k ip now in
  (forall t, ctl_limit st' t = ctl_limit st t) /\ b_ip (bucket_at st' k) = ip /\
  (st' = st \/ exists b, shards st' = <[k := b]> (shards st) /\ b_ip b = ip).
Proof.
  cbn zeta. unfold rate_bucket_touch.
  destruct (negb (b_ip (bucket_at st k) =? ip) || _) eqn:E.
  - destruct (evict_publish_shards st (bucket_at st k) now) as [Hs Hl]. split_and!.
    + exact Hl.
    + by rewrite bucket_at_set.
    + right. eexists. cbn [shards set_bucket]. rewrite Hs. split; done.
  - split_and!; [done|lia|by left].
Qed.

Lemma ctl_inc_ip typ b : b_ip (ctl_inc typ b) = b_ip b /\ b_win (ctl_inc typ b) = b_win b.
Proof. destruct b. unfold ctl_inc. by ifs. Qed.

Lemma allow_control_effect st i t now :
  let k := (rate_ip_shard i, rate_bucket_find st (rate_ip_shard i) i) in
  let st' := (server_rate_allow_control st i t now).1 in
  (forall t', ctl_limit st' t' = ctl_limit st t') /\
  (shards st' = shards st \/ exists b, shards st' = <[k := b]> (shards st) /\ b_ip b = i).
Proof.
  cbn zeta. unfold server_rate_allow_control. destruct (ctl_limit st t) as [limit|]; [|by auto].
  unfold rate_bucket_enter. set (k := (rate_ip_shard i, rate_bucket_find st (rate_ip_shard i) i)).
  destruct (touch_effect st k i now) as (Hl & Hown & Hs). cbn zeta in *.
  set (st1 := rate_bucket_touch st k i now) in *.
  destruct (ctl_cnt t (bucket_at st1 k) >=? limit); cbn [fst].
  - split; [exact Hl|]. cbn [shards server_rate_drop_inc]. destruct Hs as [->|(b & Hb & Hip)]; [by left|].
    right. by exists b.
  - split; [exact Hl|]. right. cbn [shards set_bucket].
    destruct (ctl_inc_ip t (bucket_at st1 k)) as [Hi _].
    destruct Hs as [->|(b & Hb & Hip)]; eexists; (split; [|by rewrite Hi]).
    + done.
    + rewrite Hb. by rewrite insert_insert_eq.
Qed.

(** A call from the bucket's owner inside its window. *)
Lemma allow_control_own st ip t now limit :
  let k := (rate_ip_shard ip, rate_bucket_find st (rate_ip_shard ip) ip) in
  b_ip (bucket_at st k) = ip -> u64 (now - b_win (bucket_at st k)) < RATE_WINDOW_MS ->
  ctl_limit st t = Some limit ->
  server_rate_allow_control st ip t now =
    if ctl_cnt t (bucket_at st k) >=? limit then (server_rate_drop_inc st, false)
    else (set_bucket st k (ctl_inc t (bucket_at st k)), true).
Proof.
  cbn zeta. intros Hown Hwin Hl. unfold server_rate_allow_control. rewrite Hl.
  unfold rate_bucket_enter, rate_bucket_touch. rewrite Hown, Z.eqb_refl. cbn [negb orb].
  destruct (_ >=? RATE_WINDOW_MS) eqn:E; [lia|]. done.
Qed.

Lemma find_stable_own st st' sh ip b :
  ip <> 0 -> b_ip (bucket_at st (sh, rate_bucket_find st sh ip)) = ip ->
  shards st' = <[(sh, rate_bucket_find st sh ip) := b]> (shards st) -> b_ip b = ip ->
  rate_bucket_find st' sh ip = rate_bucket_find st sh ip.
Proof.
  intros Hip Hown Hst Hb. destruct (find_owned st sh ip Hip Hown) as (j & Hj & Hf & Hh & Hbefore).
  set (h := Z.land (rate_hash ip) (RATE_BUCKETS_PER_SHARD - 1)) in *.
  rewrite Hf in *. unfold rate_bucket_find. fold h.
  apply find_loop_first; [change (Z.of_nat RATE_PROBE_MAX) with 8; lia| |].
  - unfold probe_hit, bucket_at. rewrite Hst, lookup_insert_eq. simpl. lia.
  - intros x Hx. specialize (Hbefore x Hx). unfold probe_hit, bucket_at in *. rewrite Hst.
    destruct (decide ((sh, probe_index h x) = (sh, probe_index h j))) as [E|E].
    + rewrite E in Hbefore. exfalso. rewrite Hown in Hbefore. lia.
    + by rewrite lookup_insert_ne.
Qed.

Lemma bucket_at_shards st st' k : shards st' = shards st -> bucket_at st' k = bucket_at st k.
Proof. unfold bucket_at. by intros ->. Qed.

Lemma find_loop_shards k st st' sh h ip i e o :
  shards st' = shards st -> find_loop k st' sh h ip i e o = find_loop k st sh h ip i e o.
Proof.
  intros Hs. revert i e o. induction k as [|k IH]; intros; cbn [find_loop]; [done|].
  rewrite (bucket_at_shards st st') by done. by rewrite IH.
Qed.

Lemma find_shards st st' sh ip : shards st' = shards st -> rate_bucket_find st' sh ip = rate_bucket_find st sh ip.
Proof. apply find_loop_shards. Qed.

Lemma ctl_cnt_inc_same t b : 0 <= ctl_cnt t b < 2 ^ 32 - 1 -> ctl_cnt t (ctl_inc t b) = ctl_cnt t b + 1.
Proof.
  destruct b. unfold ctl_cnt, ctl_inc.
  destruct (t =? PT_OPEN), (t =? PT_PING_REQ); cbn; intros; rewrite u32_small; lia.
Qed.

(** Requests that count against different counters do not interfere. *)
Definition same_counter (t t' : Z) : bool :=
  Bool.eqb (t =? PT_OPEN) (t' =? PT_OPEN) && Bool.eqb (t =? PT_PING_REQ) (t' =? PT_PING_REQ).

Lemma ctl_cnt_inc_other t t' b : same_counter t t' = false -> ctl_cnt t (ctl_inc t' b) = ctl_cnt t b.
Proof.
  destruct b. unfold same_counter, ctl_cnt, ctl_inc, PT_OPEN, PT_PING_REQ.
  destruct (t =? 19) eqn:?, (t =? 41) eqn:?, (t' =? 19) eqn:?, (t' =? 41) eqn:?; cbn; intros; (done || lia).
Qed.

Lemma same_counter_eq st t t' l l' :
  ctl_limit st t = Some l -> ctl_limit st t' = Some l' -> same_counter t t' = true -> t = t'.
Proof.
  unfold ctl_limit, same_counter, PT_OPEN, PT_PING_REQ, PT_ECHO_REQ.
  destruct (t =? 19) eqn:?, (t =? 41) eqn:?, (t =? 21) eqn:?,
    (t' =? 19) eqn:?, (t' =? 41) eqn:?, (t' =? 21) eqn:?; cbn; intros; (done || lia).
Qed.

Fixpoint calls_of (ip typ : Z) (l : list control_call) : Z :=
  match l with
  | [] => 0
  | (i, t, _) :: r => (if (i =? ip) && (t =? typ) then 1 else 0) + calls_of ip typ r
  end.

Lemma calls_of_nonneg ip typ l : 0 <= calls_of ip typ l.
Proof. induction l as [|[[i t] n] l IH]; cbn; [lia|]. destruct (_ && _); lia. Qed.

Lemma control_run_budget ip typ l : forall st limit,
  let k := (rate_ip_shard ip, rate_bucket_find st (rate_ip_shard ip) ip) in
  ip <> 0 -> ctl_limit st typ = Some limit -> limit < 2 ^ 32 - 1 ->
  b_ip (bucket_at st k) = ip -> 0 <= ctl_cnt typ (bucket_at st k) ->
  undisturbed st ip l ->
  allowed ip typ l (control_run st l).2 =
    Z.min (calls_of ip typ l) (Z.max 0 (limit - ctl_cnt typ (bucket_at st k))).
Proof.
  induction l as [|[[i t] now] l IH]; intros st limit k Hip Hlim Hsmall Hown Hcnt Hu.
  { cbn. lia. }
  cbn [undisturbed] in Hu. fold k in Hu. destruct Hu as (Hi0 & Hcase & Hu).
  cbn [control_run calls_of]. pose proof (calls_of_nonneg ip typ l) as Hnn.
  destruct (server_rate_allow_control st i t now) as [st1 ok] eqn:Ea. cbn [fst] in Hu.
  destruct (control_run st1 l) as [st2 oks] eqn:Er. cbn [snd allowed].
  destruct (i =? ip) eqn:Eip.
  - apply Z.eqb_eq in Eip as ->.
    destruct (ctl_limit st t) as [limit'|] eqn:El'.
    2:{ unfold server_rate_allow_control in Ea. rewrite El' in Ea. injection Ea as <- <-.
        destruct (t =? typ) eqn:Et; [apply Z.eqb_eq in Et as ->; congruence|].
        specialize (IH st limit Hip Hlim Hsmall Hown Hcnt Hu). rewrite Er in IH. exact IH. }
    rewrite (allow_control_own st ip t now limit' Hown Hcase El') in Ea. fold k in Ea.
    destruct (ctl_cnt t (bucket_at st k) >=? limit') eqn:Eover.
    + injection Ea as <- <-.
      assert (rate_bucket_find (server_rate_drop_inc st) (rate_ip_shard ip) ip =
              rate_bucket_find st (rate_ip_shard ip) ip) as Hf by by apply find_shards.
      specialize (IH (server_rate_drop_inc st) limit). cbn zeta in IH. rewrite Hf in IH. fold k in IH.
      rewrite (bucket_at_shards st (server_rate_drop_inc st)) in IH by done.
      specialize (IH Hip Hlim Hsmall Hown Hcnt Hu). rewrite Er in IH. cbn [snd] in IH. rewrite IH.
      destruct (t =? typ) eqn:Et; cbn [andb]; [|lia].
      apply Z.eqb_eq in Et as ->. assert (limit' = limit) by congruence. lia.
    + injection Ea as <- <-. destruct (ctl_inc_ip t (bucket_at st k)) as [Hinc _].
      assert (rate_bucket_find (set_bucket st k (ctl_inc t (bucket_at st k))) (rate_ip_shard ip) ip =
              rate_bucket_find st (rate_ip_shard ip) ip) as Hf.
      { eapply find_stable_own; [done|exact Hown|done|]. by rewrite Hinc. }
      specialize (IH (set_bucket st k (ctl_inc t (bucket_at st k))) limit). cbn zeta in IH. rewrite Hf in IH. fold k in IH.
      rewrite bucket_at_set in IH. rewrite Hinc in IH.
      destruct (t =? typ) eqn:Et.
      * apply Z.eqb_eq in Et as ->. assert (limit' = limit) as -> by congruence.
        rewrite ctl_cnt_inc_same in IH by lia.
        specialize (IH Hip Hlim Hsmall Hown ltac:(lia) Hu). rewrite Er in IH. cbn [snd] in IH.
        rewrite IH. cbn [andb]. lia.
      * assert (same_counter typ t = false) as Hsc.
        { destruct (same_counter typ t) eqn:Esc; [|done].
          rewrite (same_counter_eq st typ t _ _ Hlim El' Esc) in Et. lia. }
        rewrite (ctl_cnt_inc_other typ t) in IH by done.
        specialize (IH Hip Hlim Hsmall Hown Hcnt Hu). rewrite Er in IH. exact IH.
  - cbn [andb]. destruct (allow_control_effect st i t now) as [Hl Hs]. cbn zeta in *. rewrite Ea in *.
    cbn [fst] in *.
    assert (rate_bucket_find st1 (rate_ip_shard ip) ip = rate_bucket_find st (rate_ip_shard ip) ip /\
            bucket_at st1 k = bucket_at st k) as [Hf Hb].
    { destruct Hs as [Hs|(b & Hs & Hbi)].
      - split; [by apply find_shards|by apply bucket_at_shards].
      - eapply find_stable; [done|exact Hown|exact Hcase|exact Hs|lia|left; lia]. }
    specialize (IH st1 limit). cbn zeta in IH. rewrite Hf in IH. fold k in IH. rewrite Hb, Hl in IH.
    specialize (IH Hip Hlim Hsmall Hown Hcnt Hu). rewrite Er in IH. exact IH.
Qed.

(** A gate entry that is still running survives claims for other sources. *)
Lemma gate_claim_loop_keeps k t slot w ip until now slot' ip' later :
  rate_gate_check t slot' ip' later = true -> ip' <> ip -> ip' <> 0 -> now <= later ->
  rate_gate_check (gate_claim_loop k t slot w ip until now) slot' ip' later = true.
Proof.
  intros Hc Hne H0 Hle. revert w. induction k as [|k IH]; intros w; cbn [gate_claim_loop]; [done|].
  destruct (_ && _) eqn:E; [apply IH|].
  unfold rate_gate_check in *. apply existsb_exists in Hc as (v & Hv & Hg).
  apply existsb_exists. exists v. split; [done|]. unfold gate_at in *.
  destruct (decide ((slot, w) = (slot', v))) as [Heq|Hneq].
  - exfalso. rewrite Heq in E. lia.
  - by rewrite lookup_insert_ne.
Qed.

(** ** Main theorems *)

(** the per-source budget of control frames is exact.  In any run of calls in
    which the source's bucket is not taken over by a colliding source and its own
    calls stay in the current one-second window, exactly the first
    [limit - already counted] of its OPEN (or PING, or ECHO) frames are let through
    and every later one is dropped, however many calls other sources make in
    between. *)
Theorem control_budget_exact st ip typ limit l :
  let k := (rate_ip_shard ip, rate_bucket_find st (rate_ip_shard ip) ip) in
  ip <> 0 -> ctl_limit st typ = Some limit -> limit < 2 ^ 32 - 1 ->
  b_ip (bucket_at st k) = ip -> 0 <= ctl_cnt typ (bucket_at st k) ->
  undisturbed st ip l ->
  allowed ip typ l (control_run st l).2 =
    Z.min (calls_of ip typ l) (Z.max 0 (limit - ctl_cnt typ (bucket_at st k))).
Proof. apply control_run_budget. Qed.

Definition wit_state : rate_state :=
  (server_rate_allow_control (server_rate_limits_init (fun _ => Some (lit "2"))) 16777226 PT_OPEN 5000).1.
Definition wit_calls : list control_call :=
  [(16777226, PT_OPEN, 5001); (33554442, PT_OPEN, 5002); (16777226, PT_PING_REQ, 5003);
   (16777226, PT_OPEN, 5900); (16777226, PT_OPEN, 5999)].

Lemma control_budget_exact_witness :
  allowed 16777226 PT_OPEN wit_calls (control_run wit_state wit_calls).2 = 1.
Proof.
  rewrite (control_budget_exact wit_state 16777226 PT_OPEN 2 wit_calls);
    [vm_compute; reflexivity|done|vm_compute; reflexivity|done|vm_compute; reflexivity|vm_compute; discriminate|].
  vm_compute. repeat split; discriminate.
Defined.

(** an over-budget mark lasts.  While a source is marked in a gate table for
    time [later], no claim made for another source before that time removes the
    mark, so the source keeps being refused without touching its bucket. *)
Theorem gate_mark_persists kind st slot ip until now ip' later :
  rate_gate_check (budget_gate kind st) (rate_gate_slot ip') ip' later = true ->
  ip' <> ip -> ip' <> 0 -> now <= later ->
  let st' := set_budget_gate kind st (rate_gate_claim (budget_gate kind st) slot ip until now) in
  forall clk, allow_budget kind st' ip' later clk = (st', false).
Proof.
  intros Hc Hne H0 Hle st' clk. unfold allow_budget.
  assert (rate_gate_check (budget_gate kind st') (rate_gate_slot ip') ip' later = true) as ->; [|done].
  unfold st'. replace (budget_gate kind (set_budget_gate kind st _))
    with (rate_gate_claim (budget_gate kind st) slot ip until now) by by destruct kind.
  by apply gate_claim_loop_keeps.
Qed.

Lemma gate_mark_persists_witness :
  let st := set_gates (server_rate_limits_init (fun _ => None))
              (<[(rate_gate_slot 16777226, 0%nat) := mk_gate 16777226 6000]> ∅) ∅ ∅ in
  let st' := set_budget_gate MISS st (rate_gate_claim (budget_gate MISS st) (rate_gate_slot 33554442) 33554442 7000 5500) in
  server_rate_allow_sid_miss st' 16777226 5900 5900 = (st', false).
Proof.
  intros st st'.
  apply (gate_mark_persists MISS st (rate_gate_slot 33554442) 33554442 7000 5500 16777226 5900);
    [vm_compute; reflexivity|done|done|done].
Defined.
