(* ===== verification/Session.v ===== *)
(** * The session table and the downlink path (src/src/common/server.c, server.h)

    One record per slot, an index from session id to slot, and the operations that
    read and write them: lookups, scrubbing, the token-guess budget, idle expiry,
    and the preparation of a packet for the session that owns its destination.
    Invariant [ctx_ok] describes every reachable table. *)

From S2P Require Import Prelude Util Crypto Protocol Ipv4.

Definition SERVER_MAX_SESSIONS : Z := 256.
Definition SERVER_USER_MAX : Z := 63.
Definition IDLE_TIMEOUT_MS : Z := 120000.
Definition RATE_WINDOW : Z := 1000.
Definition RATE_TOKEN_MISMATCH_MAX : Z := 4.
Definition RATE_TOKEN_MISMATCH_BOUND_MAX : Z := 64.

(** The address part of [struct sockaddr_in]; the family is always AF_INET and the
    padding zero, so comparing the structs is comparing these two. *)
Record sockaddr_in := mk_addr { s_addr : Z; sin_port : Z }.

#[global] Instance sockaddr_in_eq_dec : EqDecision sockaddr_in.
Proof. solve_decision. Defined.

Definition same_peer (a b : sockaddr_in) : bool := bool_decide (a = b).

Record server_session := mk_sess {
  valid : bool;
  sid : Z;
  token : Z;
  peer : sockaddr_in;
  ip : bytes;
  xor_key : bytes;
  enc : Z;
  last_active_ms : Z;
  tok_mis_cnt : Z;
  tok_mis_bound : Z;
  tok_mis_win : Z;
  throttle_until_ms : Z;
  user : bytes
}.

Record server_ctx := mk_ctx {
  sess : list server_session;
  sid_map : gmap Z Z;
  server_ip : bytes;
  dns : bytes;
  next_ip : Z;
  ip_base : Z;
  ip_end : Z;
  subnet_base : Z;
  subnet_mask : Z;
  subnet_set : bool;
  tun_fd : Z;
  qpool : bool
}.

Definition addr0 : sockaddr_in := mk_addr 0 0.

(** A zero-initialised slot. *)
Definition sess0 : server_session :=
  mk_sess false 0 0 addr0 (fill 0 4) (fill 0 8) 0 0 0 0 0 0 [].

Definition sess_at (c : server_ctx) (i : nat) : server_session := default sess0 (sess c !! i).
Definition map_at (c : server_ctx) (s : Z) : Z := default (-1) (sid_map c !! s).

Definition set_sess (c : server_ctx) (i : nat) (s : server_session) : server_ctx :=
  let '(mk_ctx l m sip d n b e sb sm ss t q) := c in mk_ctx (<[i := s]> l) m sip d n b e sb sm ss t q.

Definition set_map (c : server_ctx) (k v : Z) : server_ctx :=
  let '(mk_ctx l m sip d n b e sb sm ss t q) := c in mk_ctx l (<[k := v]> m) sip d n b e sb sm ss t q.

Definition set_next_ip (c : server_ctx) (v : Z) : server_ctx :=
  let '(mk_ctx l m sip d _ b e sb sm ss t q) := c in mk_ctx l m sip d v b e sb sm ss t q.

(** Field updates of a session. *)
Definition set_peer (s : server_session) (p : sockaddr_in) : server_session :=
  let '(mk_sess v i t _ a k e l c b w th u) := s in mk_sess v i t p a k e l c b w th u.
Definition set_last_active (s : server_session) (now : Z) : server_session :=
  let '(mk_sess v i t p a k e _ c b w th u) := s in mk_sess v i t p a k e now c b w th u.
Definition set_throttle (s : server_session) (x : Z) : server_session :=
  let '(mk_sess v i t p a k e l c b w _ u) := s in mk_sess v i t p a k e l c b w x u.
Definition set_tok (s : server_session) (cnt bound win : Z) : server_session :=
  let '(mk_sess v i t p a k e l _ _ _ th u) := s in mk_sess v i t p a k e l cnt bound win th u.

(** ** Start-up *)

(** [parse_subnet]: base address and mask length. *)
Definition parse_subnet (s : bytes) : option (Z * Z) :=
  match find_index (fun c => c =? 47 (* '/' *)) s with
  | None => None
  | Some n =>
      if (Z.of_nat n =? 0) || (Z.of_nat n >=? 64) then None
      else
        let rest := drop (S n) s in
        let '(m, e, _) := Scan.strtol rest in
        if (zlen e =? zlen rest) || negb (hd 0 e =? 0) || (m <? 8) || (m >? 30) then None
        else
          match s2ip4 (take n s) with
          | None => None
          | Some a => Some (Z.land (ip4_u32 a) (u32 (Z.shiftl 4294967295 (32 - m))), m)
          end
  end.

Definition server_ctx_init : list server_session * gmap Z Z :=
  (replicate (Z.to_nat SERVER_MAX_SESSIONS) sess0, ∅).

(** The subnets [main] goes on with: a session id is 16 bits of the address. *)
Definition subnet_accepted (s : bytes) : option (Z * Z) :=
  match parse_subnet s with
  | Some (base, m) => if m <? 16 then None else Some (base, m)
  | None => None
  end.

(** The context [main] builds, [None] for the configurations it refuses. *)
Definition server_setup (sip dip : bytes) (subnet : bytes) (tun : Z) (pool : bool) : option server_ctx :=
  match subnet_accepted subnet with
  | None => None
  | Some (base, m) =>
      let mask32 := u32 (Z.shiftl 4294967295 (32 - m)) in
      let b := u32 (base + 2) in
      let e := u32 (Z.lor base (4294967295 - mask32) - 1) in
      let sipu := ip4_u32 sip in
      let dipu := ip4_u32 dip in
      if (sipu >=? b) && (sipu <=? e) then None
      else if negb (Z.land sipu mask32 =? base) then None
      else if (dipu >=? b) && (dipu <=? e) then None
      else
        let (l, mp) := server_ctx_init in
        Some (mk_ctx l mp sip dip b b e base mask32 true tun pool)
  end.

(** ** Lookups (the caller holds the lock) *)

Definition find_session_unlocked (c : server_ctx) (s : Z) : option nat :=
  let slot := map_at c s in
  if slot <? 0 then None
  else if (slot <? SERVER_MAX_SESSIONS) && valid (sess_at c (Z.to_nat slot)) &&
          (sid (sess_at c (Z.to_nat slot)) =? s)
  then Some (Z.to_nat slot)
  else find_index (fun x => valid x && (sid x =? s)) (sess c).

Definition find_session_by_ip_unlocked (c : server_ctx) (a : bytes) : option nat :=
  let s := u16 (Z.lor (Z.shiftl a.[2] 8) a.[3]) in
  let slot := map_at c s in
  if slot <? 0 then None
  else if (slot <? SERVER_MAX_SESSIONS) && valid (sess_at c (Z.to_nat slot)) &&
          (sid (sess_at c (Z.to_nat slot)) =? s) && beq (ip (sess_at c (Z.to_nat slot))) a
  then Some (Z.to_nat slot)
  else find_index (fun x => valid x && beq (ip x) a) (sess c).

Definition sess_wipe (c : server_ctx) (i : nat) : server_ctx :=
  let s := sess_at c i in
  if negb (valid s) then c
  else
    let '(mk_sess _ sd _ p a k e l cn b w th u) := s in
    set_map (set_sess c i (mk_sess false sd 0 p a (wipe k) e l cn b w th u)) sd (-1).

(** Fill a slot and point the index at it (the end of [handle_open]). *)
Definition install (c : server_ctx) (slot : nat) (s : server_session) : server_ctx :=
  set_map (set_sess c slot s) (sid s) (Z.of_nat slot).

(** ** The token-guess budget *)

Definition tok_win_live (s : server_session) (now : Z) : bool :=
  negb (tok_mis_win s =? 0) && (u64 (now - tok_mis_win s) <? RATE_WINDOW).

Definition tok_budget_over (s : server_session) (now : Z) : bool :=
  tok_win_live s now && (tok_mis_cnt s >=? RATE_TOKEN_MISMATCH_MAX).

Definition tok_budget_charge (s : server_session) (bound : bool) (now : Z) : server_session :=
  let s := if tok_win_live s now then s else set_tok s 0 0 now in
  if bound then
    if tok_mis_bound s <? RATE_TOKEN_MISMATCH_BOUND_MAX
    then set_tok s (tok_mis_cnt s) (tok_mis_bound s + 1) (tok_mis_win s) else s
  else
    if tok_mis_cnt s <? RATE_TOKEN_MISMATCH_MAX
    then set_tok s (tok_mis_cnt s + 1) (tok_mis_bound s) (tok_mis_win s) else s.

Definition tok_rebind_allowed (s : server_session) (now : Z) : bool :=
  negb (tok_win_live s now) || (tok_mis_cnt s =? 0).

Definition tok_charge_upgrade (c : server_ctx) (sd tok : Z) (p : sockaddr_in) (now : Z) : server_ctx :=
  match find_session_unlocked c sd with
  | Some i =>
      let s := sess_at c i in
      if negb (token s =? tok) then set_sess c i (tok_budget_charge s (same_peer (peer s) p) now) else c
  | None => c
  end.

(** ** Idle expiry *)

(** [now] is the clock read under the write lock. *)
Definition purge_step (now : Z) (c : server_ctx) (i : nat) : server_ctx :=
  let s := sess_at c i in
  if valid s && (u64 (now - last_active_ms s) >? IDLE_TIMEOUT_MS) then sess_wipe c i else c.

Definition purge_expired (c : server_ctx) (now : Z) : server_ctx :=
  fold_left (purge_step now) (seq 0 (Z.to_nat SERVER_MAX_SESSIONS)) c.

(** ** Downlink *)

Record server_sess_snap := mk_snap {
  sn_peer : sockaddr_in;
  sn_xor_key : bytes;
  sn_sid : Z;
  sn_token : Z;
  sn_enc : Z
}.

Definition snap_of (s : server_session) : server_sess_snap :=
  mk_snap (peer s) (xor_key s) (sid s) (token s) (enc s).

(** The session the packet is for: [None] when it is dropped or consumed locally;
    the flag says whether the drop counter is bumped. *)
Definition downlink_session (c : server_ctx) (p : bytes) : res (option nat * bool) :=
  let! b0 := rd p 0 in
  if Z.shiftr b0 4 =? 6 then
    let! r := ip6_pkt_ok p in
    match r with
    | None => Ret (None, true)
    | Some (_, d6) =>
        if beq d6 (ip6_derive_ula (ip4_u32 (server_ip c))) then Ret (None, false)
        else if negb ((d6.[0] =? IWAN_IP6_ULA_BYTE0) && forallb (fun b => b =? 0) (slice d6 1 11))
        then Ret (None, false)
        else
          let! a := rdn d6 12 4 in
          Ret (find_session_by_ip_unlocked c a, false)
    end
  else
    let! r := ipv4_pkt_ok p in
    match r with
    | None => Ret (None, true)
    | Some (_, daddr) =>
        if daddr =? ip4_u32 (server_ip c) then Ret (None, false)
        else
          let! a := rdn p 16 4 in
          Ret (find_session_by_ip_unlocked c a, false)
    end.

(** Snapshot, outer header and (encrypted) payload, or nothing to send. *)
Definition tun_prep_downlink (c : server_ctx) (p : bytes)
    : res (option (server_sess_snap * bytes * bytes) * bool) :=
  if (zlen p <? 20) || (zlen p >? 65536) then Ret (None, false)
  else
    let! (r, drop) := downlink_session c p in
    match r with
    | None => Ret (None, drop)
    | Some i =>
        let sn := snap_of (sess_at c i) in
        let hdr := pkt_hdr (if sn_enc sn =? 0 then PT_DATA else PT_DATA_ENC) (sn_enc sn) (sn_sid sn) (sn_token sn) in
        let p' := if sn_enc sn =? 0 then p else xor_crypt p (sn_xor_key sn) in
        Ret (Some (sn, hdr, p'), drop)
    end.

(** The datagram sent, as destination and bytes. *)
Definition handle_tun_downlink (c : server_ctx) (p : bytes) : res (option (sockaddr_in * bytes) * bool) :=
  let! (r, drop) := tun_prep_downlink c p in
  Ret (match r with
       | Some (sn, hdr, p') => Some (sn_peer sn, hdr ++ p')
       | None => None
       end, drop).

(** ** Well-formed tables *)

(** A live slot. *)
Definition live (c : server_ctx) (i : nat) (s : server_session) : Prop :=
  sess c !! i = Some s /\ valid s = true.

Record live_ok (c : server_ctx) (s : server_session) : Prop := {
  lo_ip : bytes_ok (ip s) /\ zlen (ip s) = 4;
  lo_pool : ip_base c <= ip4_u32 (ip s) <= ip_end c;
  lo_sid : sid s = u16 (ip4_u32 (ip s));
  lo_token : 0 < token s < 2 ^ 32;
  lo_key : bytes_ok (xor_key s) /\ zlen (xor_key s) = 8;
  lo_enc : enc s = 0 \/ enc s = 1;
  lo_cnt : 0 <= tok_mis_cnt s <= RATE_TOKEN_MISMATCH_MAX;
  lo_bound : 0 <= tok_mis_bound s <= RATE_TOKEN_MISMATCH_BOUND_MAX;
  lo_user : cstr_ok (user s) /\ zlen (user s) <= SERVER_USER_MAX
}.

(** A dead slot keeps no secrets. *)
Definition dead_ok (s : server_session) : Prop := token s = 0 /\ xor_key s = fill 0 8.

Record cfg_ok (c : server_ctx) : Prop := {
  cf_pool : 0 <= ip_base c /\ ip_base c <= next_ip c <= ip_end c /\ ip_end c < 2 ^ 32 - 1;
  cf_server : bytes_ok (server_ip c) /\ zlen (server_ip c) = 4;
  cf_dns : bytes_ok (dns c) /\ zlen (dns c) = 4;
  cf_out : ip4_u32 (server_ip c) < ip_base c \/ ip_end c < ip4_u32 (server_ip c)
}.

Record ctx_ok (c : server_ctx) : Prop := {
  ok_len : length (sess c) = Z.to_nat SERVER_MAX_SESSIONS;
  ok_live : forall i s, live c i s -> live_ok c s;
  ok_dead : forall i s, sess c !! i = Some s -> valid s = false -> dead_ok s;
  ok_map : forall i s, live c i s -> map_at c (sid s) = Z.of_nat i;
  ok_back : forall k, 0 <= map_at c k -> exists s, live c (Z.to_nat (map_at c k)) s /\ sid s = k;
  ok_users : forall i j s t, live c i s -> live c j t -> user s = user t -> i = j;
  ok_cfg : cfg_ok c
}.

(** ** Accessor lemmas *)

Lemma sess_set_sess c i s : sess (set_sess c i s) = <[i := s]> (sess c).
Proof. by destruct c. Qed.
Lemma sess_set_map c k v : sess (set_map c k v) = sess c.
Proof. by destruct c. Qed.
Lemma sess_set_next c v : sess (set_next_ip c v) = sess c.
Proof. by destruct c. Qed.
Lemma map_set_sess c i s k : map_at (set_sess c i s) k = map_at c k.
Proof. by destruct c. Qed.
Lemma map_set_next c v k : map_at (set_next_ip c v) k = map_at c k.
Proof. by destruct c. Qed.
Lemma map_set_map c k v k' : map_at (set_map c k v) k' = if k =? k' then v else map_at c k'.
Proof.
  destruct c. unfold map_at. cbn. destruct (k =? k') eqn:E.
  - apply Z.eqb_eq in E as ->. by rewrite lookup_insert_eq.
  - rewrite lookup_insert_ne; [done|lia].
Qed.

(** The configuration part of a context. *)
Definition same_cfg (c c' : server_ctx) : Prop :=
  server_ip c' = server_ip c /\ dns c' = dns c /\ ip_base c' = ip_base c /\ ip_end c' = ip_end c /\
  subnet_base c' = subnet_base c /\ subnet_mask c' = subnet_mask c /\ subnet_set c' = subnet_set c /\
  tun_fd c' = tun_fd c /\ qpool c' = qpool c.

#[global] Instance same_cfg_preorder : PreOrder same_cfg.
Proof.
  split; [by intros c|]. intros a b c. unfold same_cfg. intros H1 H2.
  destruct_and!. split_and!; congruence.
Qed.

Lemma same_cfg_set_sess c i s : same_cfg c (set_sess c i s).
Proof. by destruct c. Qed.
Lemma same_cfg_set_map c k v : same_cfg c (set_map c k v).
Proof. by destruct c. Qed.
Lemma next_set_sess c i s : next_ip (set_sess c i s) = next_ip c.
Proof. by destruct c. Qed.
Lemma next_set_map c k v : next_ip (set_map c k v) = next_ip c.
Proof. by destruct c. Qed.

Lemma live_ok_cfg c c' s : same_cfg c c' -> live_ok c s -> live_ok c' s.
Proof.
  intros (_ & _ & Hb & He & _) [H1 H2 H3 H4 H5 H6 H7 H8 H9]. split; try done. by rewrite Hb, He.
Qed.

Lemma cfg_ok_same c c' : same_cfg c c' -> next_ip c' = next_ip c -> cfg_ok c -> cfg_ok c'.
Proof.
  intros (Hs & Hd & Hb & He & _) Hn [H1 H2 H3 H4].
  split; rewrite ?Hs, ?Hd, ?Hb, ?He, ?Hn; done.
Qed.

Lemma sess_at_lookup c i s : sess c !! i = Some s -> sess_at c i = s.
Proof. intros H. unfold sess_at. by rewrite H. Qed.

Lemma live_lt c i s : ctx_ok c -> live c i s -> (i < 256)%nat.
Proof.
  intros Hok [Hl _]. apply lookup_lt_Some in Hl. rewrite (ok_len c Hok) in Hl. exact Hl.
Qed.

Lemma live_sess_at c i s : live c i s -> sess_at c i = s.
Proof. intros [H _]. by apply sess_at_lookup. Qed.

Lemma live_det c i s t : live c i s -> live c i t -> s = t.
Proof. intros [H1 _] [H2 _]. congruence. Qed.

Lemma live_sid_inj c i j s t : ctx_ok c -> live c i s -> live c j t -> sid s = sid t -> i = j.
Proof.
  intros Hok Hs Ht E. apply (ok_map c Hok) in Hs. apply (ok_map c Hok) in Ht.
  rewrite E in Hs. lia.
Qed.

(** ** Lookups *)

Lemma find_session_Some c k i :
  ctx_ok c -> find_session_unlocked c k = Some i <-> exists s, live c i s /\ sid s = k.
Proof.
  intros Hok. unfold find_session_unlocked. split.
  - destruct (map_at c k <? 0) eqn:E0; [done|].
    destruct (ok_back c Hok k) as (s & Hl & Hs); [lia|].
    rewrite (live_sess_at _ _ _ Hl). destruct Hl as [Hl Hv]. rewrite Hv, Hs, Z.eqb_refl.
    pose proof (lookup_lt_Some _ _ _ Hl) as Hlt. rewrite (ok_len c Hok) in Hlt.
    assert ((map_at c k <? SERVER_MAX_SESSIONS) = true) as -> by (unfold SERVER_MAX_SESSIONS in *; lia).
    cbn [andb]. intros [= <-]. exists s. done.
  - intros (s & Hl & Hs). pose proof (ok_map c Hok i s Hl) as Hm. rewrite Hs in Hm. rewrite Hm.
    pose proof (live_lt c i s Hok Hl).
    destruct (Z.of_nat i <? 0) eqn:E0; [lia|]. rewrite Nat2Z.id, (live_sess_at _ _ _ Hl).
    destruct Hl as [_ Hv]. rewrite Hv, Hs, Z.eqb_refl.
    assert ((Z.of_nat i <? SERVER_MAX_SESSIONS) = true) as -> by (unfold SERVER_MAX_SESSIONS; lia). done.
Qed.

Lemma find_session_None c k :
  ctx_ok c -> find_session_unlocked c k = None <-> forall i s, live c i s -> sid s <> k.
Proof.
  intros Hok. destruct (find_session_unlocked c k) as [i|] eqn:E.
  - apply find_session_Some in E as (s & Hl & Hs); [|done]. split; [done|]. intros H. by apply H in Hl.
  - split; [|done]. intros _ i s Hl Hs.
    assert (find_session_unlocked c k = Some i) as E' by (apply find_session_Some; [done|by exists s]).
    congruence.
Qed.

Lemma low16 a : zlen a = 4 -> bytes_ok a -> u16 (Z.lor (Z.shiftl a.[2] 8) a.[3]) = u16 (ip4_u32 a).
Proof.
  intros Hl Ha. unfold ip4_u32. fold (be16 a.[2] a.[3]).
  rewrite be16_val, be32_val by by apply at_byte. unfold u16. lia.
Qed.

Lemma ip4_u32_inj a b :
  zlen a = 4 -> zlen b = 4 -> bytes_ok a -> bytes_ok b -> ip4_u32 a = ip4_u32 b -> a = b.
Proof.
  intros Ha Hb Oa Ob E. unfold ip4_u32 in E. rewrite !be32_val in E by by apply at_byte.
  apply at_ext; [lia|]. intros i Hi.
  pose proof (at_byte a 0 Oa). pose proof (at_byte a 1 Oa). pose proof (at_byte a 2 Oa). pose proof (at_byte a 3 Oa).
  pose proof (at_byte b 0 Ob). pose proof (at_byte b 1 Ob). pose proof (at_byte b 2 Ob). pose proof (at_byte b 3 Ob).
  unfold is_byte in *. assert (i = 0 \/ i = 1 \/ i = 2 \/ i = 3) as [->|[->|[->| ->]]] by lia; lia.
Qed.

Lemma find_by_ip_Some c a i :
  ctx_ok c -> zlen a = 4 -> bytes_ok a ->
  find_session_by_ip_unlocked c a = Some i <-> exists s, live c i s /\ ip s = a.
Proof.
  intros Hok Hla Ha. unfold find_session_by_ip_unlocked. rewrite low16 by done. split.
  - destruct (map_at c _ <? 0) eqn:E0; [done|].
    destruct (ok_back c Hok (u16 (ip4_u32 a))) as (s & Hl & Hs); [lia|].
    destruct (_ && _) eqn:E1.
    + intros [= <-]. apply andb_true_iff in E1 as [_ Hb]. apply beq_true in Hb.
      exists s. rewrite (live_sess_at _ _ _ Hl) in Hb. done.
    + intros Hf. apply find_index_Some in Hf as [(x & Hx & Hv) _]. apply andb_true_iff in Hv as [Hv Hb].
      apply beq_true in Hb. exists x. done.
  - intros (s & Hl & Hs). pose proof (ok_map c Hok i s Hl) as Hm.
    rewrite (lo_sid c s (ok_live c Hok i s Hl)), Hs in Hm. rewrite Hm.
    pose proof (live_lt c i s Hok Hl).
    destruct (Z.of_nat i <? 0) eqn:E0; [lia|]. rewrite Nat2Z.id, (live_sess_at _ _ _ Hl).
    rewrite (lo_sid c s (ok_live c Hok i s Hl)), Hs, Z.eqb_refl, beq_refl. destruct Hl as [_ Hv]. rewrite Hv.
    assert ((Z.of_nat i <? SERVER_MAX_SESSIONS) = true) as -> by (unfold SERVER_MAX_SESSIONS; lia). done.
Qed.

(** ** Preservation *)

(** Updating mutable fields of a live session. *)
Lemma ctx_ok_update c i s s' :
  ctx_ok c -> live c i s -> valid s' = true -> sid s' = sid s -> user s' = user s -> live_ok c s' ->
  ctx_ok (set_sess c i s').
Proof.
  intros Hok Hl Hv Hsid Huser Hlo.
  assert (forall j t, live (set_sess c i s') j t -> (j = i /\ t = s') \/ (j <> i /\ live c j t)) as Hlive.
  { intros j t [Hj Ht]. rewrite sess_set_sess in Hj. destruct (decide (i = j)) as [->|].
    - rewrite list_lookup_insert_eq in Hj by (destruct Hl as [Hl _]; by eapply lookup_lt_Some).
      injection Hj as <-. by left.
    - rewrite list_lookup_insert_ne in Hj by done. right. done. }
  assert (forall j t, live c j t -> j <> i -> live (set_sess c i s') j t) as Hother.
  { intros j t [Hj Ht] Hne. split; [|done]. by rewrite sess_set_sess, list_lookup_insert_ne. }
  assert (live (set_sess c i s') i s') as Hself.
  { split; [|done]. rewrite sess_set_sess. apply list_lookup_insert_eq.
    destruct Hl as [Hl _]. by eapply lookup_lt_Some. }
  split.
  - rewrite sess_set_sess, length_insert. apply Hok.
  - intros j t Ht. apply (live_ok_cfg c); [apply same_cfg_set_sess|].
    apply Hlive in Ht as [[-> ->]|[Hne Ht]]; [done|by eapply ok_live].
  - intros j t Hj Hd. rewrite sess_set_sess in Hj. destruct (decide (i = j)) as [->|].
    + rewrite list_lookup_insert_eq in Hj by (destruct Hl as [Hl _]; by eapply lookup_lt_Some). congruence.
    + rewrite list_lookup_insert_ne in Hj by done. by eapply ok_dead.
  - intros j t Ht. rewrite map_set_sess. apply Hlive in Ht as [[-> ->]|[Hne Ht]].
    + rewrite Hsid. by eapply ok_map.
    + by eapply ok_map.
  - intros k Hk. rewrite map_set_sess in *. destruct (ok_back c Hok k Hk) as (t & Ht & E).
    destruct (decide (Z.to_nat (map_at c k) = i)) as [Ei|].
    + exists s'. rewrite Ei in *. split; [done|]. rewrite Hsid. by rewrite (live_det c i s t).
    + exists t. split; [by apply Hother|done].
  - intros j k t t' Hj Hk E.
    apply Hlive in Hj as [[-> ->]|[Hnj Hj]]; apply Hlive in Hk as [[-> ->]|[Hnk Hk]]; try done.
    + rewrite Huser in E. exfalso. apply Hnk. symmetry. by eapply (ok_users c Hok i k).
    + rewrite Huser in E. exfalso. apply Hnj. by eapply (ok_users c Hok j i).
    + by eapply (ok_users c Hok j k).
  - eapply cfg_ok_same; [apply same_cfg_set_sess|apply next_set_sess|apply Hok].
Qed.

(** A scrubbed session. *)
Definition wiped (s : server_session) : server_session :=
  let '(mk_sess _ sd _ p a k e l cn b w th u) := s in
  mk_sess false sd 0 p a (wipe k) e l cn b w th u.

Lemma sess_wipe_live c i s :
  live c i s -> sess_wipe c i = set_map (set_sess c i (wiped s)) (sid s) (-1).
Proof.
  intros Hl. unfold sess_wipe. rewrite (live_sess_at _ _ _ Hl). destruct Hl as [_ Hv]. rewrite Hv.
  by destruct s.
Qed.

Lemma sess_wipe_dead c i : valid (sess_at c i) = false -> sess_wipe c i = c.
Proof. intros H. unfold sess_wipe. by rewrite H. Qed.

Lemma valid_wiped s : valid (wiped s) = false.
Proof. by destruct s. Qed.

Lemma wiped_dead c s : live_ok c s -> dead_ok (wiped s).
Proof.
  intros Hlo. destruct (lo_key c s Hlo) as [_ Hk]. destruct s. cbn in *. split; [done|].
  cbn. unfold wipe. by rewrite Hk.
Qed.

Lemma ctx_ok_wipe c i : ctx_ok c -> ctx_ok (sess_wipe c i).
Proof.
  intros Hok. destruct (valid (sess_at c i)) eqn:Ev; [|by rewrite sess_wipe_dead].
  assert (live c i (sess_at c i)) as Hl.
  { unfold sess_at in *. destruct (sess c !! i) eqn:E; [by split|]. by cbn in Ev. }
  set (s := sess_at c i) in *. rewrite (sess_wipe_live c i s Hl).
  assert ((i < length (sess c))%nat) as Hlt by (destruct Hl as [Hl _]; by eapply lookup_lt_Some).
  set (c' := set_map (set_sess c i (wiped s)) (sid s) (-1)).
  assert (forall j t, live c' j t -> j <> i /\ live c j t) as Hlive.
  { intros j t [Hj Ht]. unfold c' in Hj. rewrite sess_set_map, sess_set_sess in Hj.
    destruct (decide (i = j)) as [->|].
    - rewrite list_lookup_insert_eq in Hj by done. injection Hj as <-. by rewrite valid_wiped in Ht.
    - rewrite list_lookup_insert_ne in Hj by done. done. }
  assert (same_cfg c c') as Hcfg.
  { unfold c'. transitivity (set_sess c i (wiped s)); [apply same_cfg_set_sess|apply same_cfg_set_map]. }
  split.
  - unfold c'. rewrite sess_set_map, sess_set_sess, length_insert. apply Hok.
  - intros j t Ht. apply Hlive in Ht as [_ Ht]. eapply live_ok_cfg; [done|by eapply ok_live].
  - intros j t Hj Hd. unfold c' in Hj. rewrite sess_set_map, sess_set_sess in Hj.
    destruct (decide (i = j)) as [->|].
    + rewrite list_lookup_insert_eq in Hj by done. injection Hj as <-.
      eapply wiped_dead. by eapply ok_live.
    + rewrite list_lookup_insert_ne in Hj by done. by eapply ok_dead.
  - intros j t Ht. apply Hlive in Ht as [Hne Ht]. unfold c'. rewrite map_set_map, map_set_sess.
    destruct (sid s =? sid t) eqn:E; [|by eapply ok_map].
    exfalso. apply Hne. eapply live_sid_inj; [done|exact Ht|exact Hl|lia].
  - intros k Hk. unfold c' in *. rewrite map_set_map, map_set_sess in *.
    destruct (sid s =? k) eqn:E; [lia|]. destruct (ok_back c Hok k Hk) as (t & Ht & Et).
    exists t. split; [|done]. destruct Ht as [Ht Hv]. split; [|done].
    rewrite sess_set_map, sess_set_sess, list_lookup_insert_ne; [done|].
    intros Ei. subst i. pose proof (live_det _ _ _ _ Hl (conj Ht Hv)). subst t. lia.
  - intros j k t t' Hj Hk Eu. apply Hlive in Hj as [_ Hj]. apply Hlive in Hk as [_ Hk].
    by eapply (ok_users c Hok).
  - eapply cfg_ok_same; [exact Hcfg| |apply Hok]. unfold c'. by rewrite next_set_map, next_set_sess.
Qed.

Lemma sess_wipe_other c i j : j <> i -> sess (sess_wipe c i) !! j = sess c !! j.
Proof.
  intros Hne. unfold sess_wipe. destruct (negb _); [done|]. destruct (sess_at c i).
  by rewrite sess_set_map, sess_set_sess, list_lookup_insert_ne.
Qed.

Lemma same_cfg_wipe c i : same_cfg c (sess_wipe c i).
Proof.
  unfold sess_wipe. destruct (negb _); [done|]. destruct (sess_at c i).
  etransitivity; [apply same_cfg_set_sess|apply same_cfg_set_map].
Qed.

(** Charging a guess keeps the session in shape. *)
Lemma set_tok_fields s a b w :
  valid (set_tok s a b w) = valid s /\ sid (set_tok s a b w) = sid s /\ user (set_tok s a b w) = user s /\
  token (set_tok s a b w) = token s /\ peer (set_tok s a b w) = peer s /\ ip (set_tok s a b w) = ip s /\
  xor_key (set_tok s a b w) = xor_key s /\ enc (set_tok s a b w) = enc s /\
  last_active_ms (set_tok s a b w) = last_active_ms s /\ throttle_until_ms (set_tok s a b w) = throttle_until_ms s /\
  tok_mis_cnt (set_tok s a b w) = a /\ tok_mis_bound (set_tok s a b w) = b /\ tok_mis_win (set_tok s a b w) = w.
Proof. by destruct s. Qed.

(** The fields a frame can never change. *)
Definition same_core (s t : server_session) : Prop :=
  valid t = valid s /\ sid t = sid s /\ user t = user s /\ token t = token s /\ ip t = ip s /\
  xor_key t = xor_key s /\ enc t = enc s.

Lemma charge_core s b now :
  let t := tok_budget_charge s b now in
  same_core s t /\ peer t = peer s /\ last_active_ms t = last_active_ms s /\
  throttle_until_ms t = throttle_until_ms s.
Proof.
  cbn zeta. unfold tok_budget_charge, same_core. destruct s. cbn.
  destruct (tok_win_live _ now); cbn; destruct b; cbn; ifs; cbn; done.
Qed.

Lemma charge_range s b now :
  0 <= tok_mis_cnt s <= RATE_TOKEN_MISMATCH_MAX ->
  0 <= tok_mis_bound s <= RATE_TOKEN_MISMATCH_BOUND_MAX ->
  let t := tok_budget_charge s b now in
  0 <= tok_mis_cnt t <= RATE_TOKEN_MISMATCH_MAX /\ 0 <= tok_mis_bound t <= RATE_TOKEN_MISMATCH_BOUND_MAX.
Proof.
  cbn zeta. unfold tok_budget_charge, RATE_TOKEN_MISMATCH_MAX, RATE_TOKEN_MISMATCH_BOUND_MAX. destruct s. cbn.
  destruct (tok_win_live _ now); cbn; destruct b; cbn; ifs; cbn; lia.
Qed.

Lemma live_ok_core c s t :
  same_core s t -> 0 <= tok_mis_cnt t <= RATE_TOKEN_MISMATCH_MAX ->
  0 <= tok_mis_bound t <= RATE_TOKEN_MISMATCH_BOUND_MAX -> live_ok c s -> live_ok c t.
Proof.
  intros (_ & Hs & Hu & Ht & Hi & Hk & He) Hc Hb [H1 H2 H3 H4 H5 H6 H7 H8 H9].
  split; rewrite ?Hs, ?Hu, ?Ht, ?Hi, ?Hk, ?He; done.
Qed.

Lemma ctx_ok_core c i s t :
  ctx_ok c -> live c i s -> same_core s t ->
  0 <= tok_mis_cnt t <= RATE_TOKEN_MISMATCH_MAX -> 0 <= tok_mis_bound t <= RATE_TOKEN_MISMATCH_BOUND_MAX ->
  ctx_ok (set_sess c i t).
Proof.
  intros Hok Hl Hc H1 H2. pose proof (ok_live c Hok i s Hl) as Hlo. destruct Hc as (Hv & Hs & Hu & Hr).
  eapply ctx_ok_update; [done|done|destruct Hl; congruence|done|done|].
  eapply live_ok_core; [|done|done|exact Hlo]. done.
Qed.

Lemma ctx_ok_charge c i s b now :
  ctx_ok c -> live c i s -> ctx_ok (set_sess c i (tok_budget_charge s b now)).
Proof.
  intros Hok Hl. pose proof (ok_live c Hok i s Hl) as Hlo.
  destruct (charge_core s b now) as [Hc _]. destruct (charge_range s b now) as [H1 H2]; [apply Hlo..|].
  by eapply ctx_ok_core.
Qed.

(** ** Expiry *)

Definition expired (now : Z) (s : server_session) : bool :=
  valid s && (u64 (now - last_active_ms s) >? IDLE_TIMEOUT_MS).

Lemma purge_step_ok now c i : ctx_ok c -> ctx_ok (purge_step now c i).
Proof. intros. unfold purge_step. case_match; [by apply ctx_ok_wipe|done]. Qed.

Lemma purge_step_sess now c i j :
  sess (purge_step now c i) !! j =
  if decide (j = i) then (fun s => if expired now s then wiped s else s) <$> (sess c !! i)
  else sess c !! j.
Proof.
  unfold purge_step. fold (expired now (sess_at c i)). destruct (decide (j = i)) as [->|Hne].
  - destruct (sess c !! i) as [s|] eqn:E.
    + rewrite (sess_at_lookup _ _ _ E). cbn. destruct (expired now s) eqn:Ex; [|done].
      assert (live c i s) as Hl by (split; [done|unfold expired in Ex; by apply andb_true_iff in Ex as [? _]]).
      rewrite (sess_wipe_live c i s Hl), sess_set_map, sess_set_sess, list_lookup_insert_eq; [done|].
      by eapply lookup_lt_Some.
    + unfold sess_at. rewrite E. cbn. by rewrite E.
  - case_match; [by apply sess_wipe_other|done].
Qed.

Lemma purge_fold now n c :
  ctx_ok c ->
  let c' := fold_left (purge_step now) (seq 0 n) c in
  ctx_ok c' /\ same_cfg c c' /\
  forall j, sess c' !! j =
    if decide (j < n)%nat then (fun s => if expired now s then wiped s else s) <$> (sess c !! j) else sess c !! j.
Proof.
  intros Hok. induction n as [|n (IH1 & IH2 & IH3)]; [done|].
  rewrite seq_S, fold_left_app. cbn [fold_left Nat.add]. split_and!.
  - by apply purge_step_ok.
  - etransitivity; [exact IH2|]. unfold purge_step. case_match; [apply same_cfg_wipe|done].
  - intros j. rewrite purge_step_sess, !IH3. destruct (decide (j = n)) as [->|].
    + rewrite (decide_False (P := (n < n)%nat)) by lia. by rewrite decide_True by lia.
    + destruct (decide (j < n)%nat); [by rewrite decide_True by lia|by rewrite decide_False by lia].
Qed.

Lemma purge_expired_spec c now :
  ctx_ok c ->
  ctx_ok (purge_expired c now) /\ same_cfg c (purge_expired c now) /\
  forall j, sess (purge_expired c now) !! j = (fun s => if expired now s then wiped s else s) <$> (sess c !! j).
Proof.
  intros Hok. destruct (purge_fold now (Z.to_nat SERVER_MAX_SESSIONS) c Hok) as (H1 & H2 & H3).
  split_and!; [done|done|]. intros j. unfold purge_expired. rewrite H3.
  destruct (decide _) as [|Hge]; [done|]. rewrite lookup_ge_None_2; [done|]. rewrite (ok_len c Hok). lia.
Qed.

(** ** Downlink *)

(** The session address a packet is destined to: the IPv4 destination, or the last
    four bytes of a destination in the tunnel's ULA prefix. *)
Definition inner_dst (p : bytes) : option bytes :=
  if p.[0] / 16 =? 6 then
    if bool_decide (ip6_valid p) && (p.[24] =? IWAN_IP6_ULA_BYTE0) && forallb (fun b => b =? 0) (slice p 25 11)
    then Some (slice p 36 4) else None
  else if bool_decide (ipv4_valid p) then Some (slice p 16 4) else None.

Lemma slice_slice d a n b k :
  0 <= a -> 0 <= b -> 0 <= k -> b + k <= n -> a + n <= zlen d -> slice (slice d a n) b k = slice d (a + b) k.
Proof.
  intros. apply at_ext.
  - rewrite !zlen_slice; [done|..]; rewrite ?zlen_slice; lia.
  - intros i Hi. rewrite zlen_slice in Hi by (rewrite ?zlen_slice; lia).
    rewrite !at_slice by (rewrite ?zlen_slice; lia). f_equal. lia.
Qed.

Lemma ula_bytes v4 : zlen (ip6_derive_ula v4) = 16 /\ bytes_ok (ip6_derive_ula v4) /\ slice (ip6_derive_ula v4) 12 4 = u32_ip4 v4.
Proof. split_and!; [done| |done]. unfold ip6_derive_ula. apply Forall_cons; split; [done|]. apply bytes_ok_app; split; [by apply Forall_replicate|apply u32_ip4_ok]. Qed.

Lemma u32_ip4_ip4 a : zlen a = 4 -> bytes_ok a -> u32_ip4 (ip4_u32 a) = a.
Proof.
  intros Hl Ha. unfold u32_ip4, ip4_u32. rewrite put32_be32 by by apply at_byte.
  destruct a as [|x [|y [|z [|w [|v l]]]]]; try (exfalso; unfold zlen in Hl; cbn [length] in Hl; lia). done.
Qed.

Lemma downlink_session_spec c p :
  ctx_ok c -> bytes_ok p -> 20 <= zlen p ->
  exists drop, downlink_session c p =
    Ret (match inner_dst p with Some a => find_session_by_ip_unlocked c a | None => None end, drop).
Proof.
  intros Hok Hp Hl. unfold downlink_session, inner_dst. rds. rewrite shiftr4.
  assert (forall a, zlen a = 4 -> bytes_ok a -> ip4_u32 a = ip4_u32 (server_ip c) ->
    find_session_by_ip_unlocked c a = None) as Hsrv.
  { intros a La Oa E. destruct (find_session_by_ip_unlocked c a) as [i|] eqn:Ef; [|done].
    apply find_by_ip_Some in Ef as (s & Hs & Ea); [|done..].
    pose proof (lo_pool c s (ok_live c Hok i s Hs)). pose proof (cf_out c (ok_cfg c Hok)).
    rewrite Ea, E in *. lia. }
  destruct (p.[0] / 16 =? 6) eqn:E6.
  - rewrite ip6_pkt_ok_spec by done. cbn [rbind].
    destruct (decide (ip6_valid p)) as [Hv|Hv].
    2:{ rewrite bool_decide_eq_false_2 by done. by eexists. }
    rewrite bool_decide_eq_true_2 by done. cbn [andb]. assert (40 <= zlen p) by apply Hv.
    assert ((slice p 24 16).[0] = p.[24]) as -> by (rewrite at_slice by lia; done).
    rewrite slice_slice by lia. change (24 + 1) with 25.
    destruct (beq (slice p 24 16) _) eqn:Eb.
    + apply beq_true in Eb.
      assert (slice p 36 4 = server_ip c) as Hs36.
      { assert (slice p 36 4 = slice (slice p 24 16) 12 4) as -> by (rewrite slice_slice by lia; done).
        rewrite Eb. destruct (ula_bytes (ip4_u32 (server_ip c))) as (_ & _ & ->).
        destruct (cf_server c (ok_cfg c Hok)). by apply u32_ip4_ip4. }
      exists false. destruct (_ && _); [|done]. rewrite Hs36, Hsrv; [done| | |done]; apply Hok.
    + destruct ((p.[24] =? IWAN_IP6_ULA_BYTE0) && _) eqn:Eu; cbn [negb]; [|by eexists].
      rewrite rdn_ok by (rewrite ?zlen_slice; lia). cbn [rbind]. rewrite slice_slice by lia.
      change (24 + 12) with 36. by eexists.
  - rewrite ipv4_pkt_ok_spec by done. cbn [rbind].
    destruct (decide (ipv4_valid p)) as [Hv|Hv].
    2:{ rewrite bool_decide_eq_false_2 by done. by eexists. }
    rewrite bool_decide_eq_true_2 by done.
    assert (be32 p.[16] p.[17] p.[18] p.[19] = ip4_u32 (slice p 16 4)) as -> by (rewrite slice_ip4 by lia; done).
    destruct (ip4_u32 (slice p 16 4) =? ip4_u32 (server_ip c)) eqn:Es.
    + exists false. rewrite Hsrv; [done|apply zlen_slice; lia|by apply bytes_ok_slice|lia].
    + rewrite ?rdn_ok by lia. cbn [rbind]. by eexists.
Qed.

(** ** Start-up *)

Lemma land_mask_base a m :
  0 <= a < 2 ^ 32 -> 0 <= m <= 32 ->
  Z.land a (u32 (Z.shiftl 4294967295 (32 - m))) = a / 2 ^ (32 - m) * 2 ^ (32 - m) /\
  4294967295 - u32 (Z.shiftl 4294967295 (32 - m)) = 2 ^ (32 - m) - 1.
Proof.
  intros Ha Hm. assert (0 < 2 ^ (32 - m) <= 2 ^ 32) as Hp.
  { split; [apply Z.pow_pos_nonneg; lia|apply Z.pow_le_mono_r; lia]. }
  assert (2 ^ 32 = 2 ^ m * 2 ^ (32 - m)) as Hsplit by (rewrite <- Z.pow_add_r by lia; f_equal; lia).
  assert (0 < 2 ^ m) as Hpm by (apply Z.pow_pos_nonneg; lia).
  assert (u32 (Z.shiftl 4294967295 (32 - m)) = 2 ^ 32 - 2 ^ (32 - m)) as Hmask.
  { rewrite Z.shiftl_mul_pow2 by lia. unfold u32. change 4294967295 with (2 ^ 32 - 1).
    replace ((2 ^ 32 - 1) * 2 ^ (32 - m)) with (2 ^ 32 - 2 ^ (32 - m) + (2 ^ (32 - m) - 1) * 2 ^ 32) by lia.
    rewrite Z.mod_add by lia. apply Z.mod_small. lia. }
  split; [|rewrite Hmask; lia]. rewrite Hmask.
  rewrite <- Z.shiftr_div_pow2, <- Z.shiftl_mul_pow2 by lia. rewrite <- Z.ldiff_ones_r by lia.
  assert (2 ^ 32 - 2 ^ (32 - m) = Z.ldiff (Z.ones 32) (Z.ones (32 - m))) as ->.
  { rewrite Z.ldiff_ones_r, Z.shiftr_div_pow2, Z.shiftl_mul_pow2, Z.ones_equiv by lia.
    assert (Z.pred (2 ^ 32) / 2 ^ (32 - m) = 2 ^ m - 1) as ->; [|lia].
    symmetry. apply (Z.div_unique _ _ _ (2 ^ (32 - m) - 1)); lia. }
  apply Z.bits_inj'. intros k Hk. rewrite Z.land_spec, !Z.ldiff_spec.
  destruct (decide (k < 32)).
  - rewrite (Z.ones_spec_low 32) by lia. done.
  - rewrite (testbit_high a 32) by lia. done.
Qed.

Lemma lor_low b k : 0 <= k -> Z.lor (b * 2 ^ k) (2 ^ k - 1) = b * 2 ^ k + (2 ^ k - 1).
Proof.
  intros Hk. rewrite <- Z.shiftl_mul_pow2 by lia. pose proof (Z.pow_pos_nonneg 2 k).
  rewrite lor_shiftl_add by lia. rewrite Z.shiftl_mul_pow2 by lia. done.
Qed.

Lemma parse_subnet_spec s base m :
  cstr_ok s -> parse_subnet s = Some (base, m) ->
  8 <= m <= 30 /\ exists q, base = q * 2 ^ (32 - m) /\ 0 <= q < 2 ^ m.
Proof.
  intros Hs. unfold parse_subnet. destruct (find_index _ s) as [n|]; [|done].
  destruct (_ || _); [done|]. destruct (Scan.strtol (drop (S n) s)) as [[v e] ?].
  destruct (_ || _) eqn:E; [done|]. destruct (s2ip4 (take n s)) as [a|] eqn:Ea; [|done].
  intros [= <- <-]. split; [lia|].
  apply s2ip4_canonical in Ea as (Oa & La & _); [|by apply Forall_take].
  pose proof (ip4_u32_range a Oa) as Ha.
  destruct (land_mask_base (ip4_u32 a) v) as [-> _]; [done|lia|].
  exists (ip4_u32 a / 2 ^ (32 - v)). split; [done|].
  assert (0 < 2 ^ (32 - v)) by (apply Z.pow_pos_nonneg; lia).
  split; [apply Z.div_pos; lia|]. apply Z.div_lt_upper_bound; [done|].
  rewrite <- Z.pow_add_r by lia. replace (32 - v + v) with 32 by lia. lia.
Qed.

Lemma ctx_ok_setup sip dip subnet tun pool c :
  bytes_ok sip -> zlen sip = 4 -> bytes_ok dip -> zlen dip = 4 -> cstr_ok subnet ->
  server_setup sip dip subnet tun pool = Some c -> ctx_ok c.
Proof.
  intros Os Ls Od Ld Hsub. unfold server_setup, subnet_accepted.
  destruct (parse_subnet subnet) as [[base m]|] eqn:Ep; [|done]. destruct (m <? 16); [done|].
  apply parse_subnet_spec in Ep as (Hm & q & -> & Hq); [|done].
  destruct (land_mask_base 0 m) as [_ Hmask]; [lia|lia|]. rewrite Hmask, lor_low by lia.
  assert (4 <= 2 ^ (32 - m)) by (apply (Z.pow_le_mono_r 2 2); lia).
  assert (q * 2 ^ (32 - m) + 2 ^ (32 - m) <= 2 ^ 32) as Hmax.
  { replace (2 ^ 32) with (2 ^ m * 2 ^ (32 - m)) by (rewrite <- Z.pow_add_r by lia; f_equal; lia). nia. }
  assert (0 <= q * 2 ^ (32 - m)) by nia.
  rewrite !u32_small with (x := _ + 2), !u32_small with (x := _ - 1) by lia.
  intros Hc. hyp_if Hc E1; [done|]. hyp_if Hc E2; [done|]. hyp_if Hc E3; [done|].
  unfold server_ctx_init in Hc. remember (replicate (Z.to_nat SERVER_MAX_SESSIONS) sess0) as L eqn:HL.
  injection Hc as <-.
  assert (forall i s, L !! i = Some s -> s = sess0) as Hrep.
  { intros i s Hi. rewrite HL in Hi. by apply lookup_replicate in Hi as [-> _]. }
  split; unfold live; cbn [sess].
  - by rewrite HL, length_replicate.
  - intros i s [Hi Hv]. rewrite (Hrep _ _ Hi) in Hv. done.
  - intros i s Hi _. rewrite (Hrep _ _ Hi). done.
  - intros i s [Hi Hv]. rewrite (Hrep _ _ Hi) in Hv. done.
  - intros k Hk. unfold map_at in Hk. cbn in Hk. rewrite lookup_empty in Hk. cbn in Hk. lia.
  - intros i j s t [Hi Hv]. rewrite (Hrep _ _ Hi) in Hv. done.
  - split; cbn; [lia|done|done|]. pose proof (ip4_u32_range sip Os). lia.
Qed.

Lemma same_ip_same_slot c i j s t :
  ctx_ok c -> live c i s -> live c j t -> ip s = ip t -> i = j.
Proof.
  intros Hok Hs Ht E. eapply (live_sid_inj c); [done|exact Hs|exact Ht|].
  by rewrite (lo_sid _ _ (ok_live c Hok i s Hs)), (lo_sid _ _ (ok_live c Hok j t Ht)), E.
Qed.

(** A search by a test that at most one slot passes. *)
Lemma find_index_unique c (f : server_session -> bool) r :
  (forall i, r = Some i <-> exists s, sess c !! i = Some s /\ f s = true) -> r = find_index f (sess c).
Proof.
  intros Hr. destruct (find_index f (sess c)) as [i|] eqn:E.
  - apply find_index_Some in E as [Hx _]. by apply Hr.
  - destruct r as [i|]; [|done]. destruct (proj1 (Hr i) eq_refl) as (s & Hs & Hf).
    rewrite find_index_None in E. by rewrite (E i s Hs) in Hf.
Qed.

Lemma ctx_ok_install c slot s :
  ctx_ok c -> (slot < 256)%nat -> valid (sess_at c slot) = false -> valid s = true -> live_ok c s ->
  (forall j t, live c j t -> sid t <> sid s /\ user t <> user s) ->
  ctx_ok (install c slot s).
Proof.
  intros Hok Hlt Hdead Hv Hlo Hfresh. unfold install.
  assert ((slot < length (sess c))%nat) as Hlt' by (rewrite (ok_len c Hok); exact Hlt).
  set (c' := set_map (set_sess c slot s) (sid s) (Z.of_nat slot)).
  assert (forall j, sess c' !! j = if decide (j = slot) then Some s else sess c !! j) as Hsess.
  { intros j. unfold c'. rewrite sess_set_map, sess_set_sess. destruct (decide (j = slot)) as [->|].
    - by apply list_lookup_insert_eq.
    - by apply list_lookup_insert_ne. }
  assert (forall j t, live c' j t -> (j = slot /\ t = s) \/ (j <> slot /\ live c j t)) as Hlive.
  { intros j t [Hj Ht]. rewrite Hsess in Hj. destruct (decide (j = slot)) as [->|]; [|by right].
    injection Hj as <-. by left. }
  assert (forall j t, live c j t -> j <> slot) as Hnslot.
  { intros j t Ht ->. rewrite (live_sess_at _ _ _ Ht) in Hdead. destruct Ht. congruence. }
  assert (same_cfg c c') as Hcfg.
  { unfold c'. etransitivity; [apply same_cfg_set_sess|apply same_cfg_set_map]. }
  split.
  - unfold c'. rewrite sess_set_map, sess_set_sess, length_insert. apply Hok.
  - intros j t Ht. eapply live_ok_cfg; [exact Hcfg|]. apply Hlive in Ht as [[-> ->]|[_ Ht]]; [done|by eapply ok_live].
  - intros j t Hj Hd. rewrite Hsess in Hj. destruct (decide (j = slot)); [congruence|by eapply ok_dead].
  - intros j t Ht. unfold c'. rewrite map_set_map, map_set_sess. apply Hlive in Ht as [[-> ->]|[_ Ht]].
    + by rewrite Z.eqb_refl.
    + destruct (sid s =? sid t) eqn:E; [|by eapply ok_map]. apply Hfresh in Ht as [Ht _]. lia.
  - intros k Hk. unfold c' in Hk |- *. rewrite map_set_map, map_set_sess in *.
    destruct (sid s =? k) eqn:E.
    + exists s. rewrite Nat2Z.id. split; [|lia]. split; [|done]. fold c'. by rewrite Hsess, decide_True.
    + destruct (ok_back c Hok k Hk) as (t & Ht & Et). exists t. split; [|done].
      pose proof (Hnslot _ _ Ht). destruct Ht as [Ht Htv]. split; [|done]. fold c'. by rewrite Hsess, decide_False.
  - intros j k t t' Hj Hk E.
    apply Hlive in Hj as [[-> ->]|[Hnj Hj]]; apply Hlive in Hk as [[-> ->]|[Hnk Hk]]; try done.
    + apply Hfresh in Hk as [_ Hk]. congruence.
    + apply Hfresh in Hj as [_ Hj]. congruence.
    + by eapply (ok_users c Hok).
  - eapply cfg_ok_same; [exact Hcfg| |apply Hok]. unfold c'. by rewrite next_set_map, next_set_sess.
Qed.

(** A concrete table with one client, 198.18.0.2. *)
Lemma handle_tun_downlink_total c p : ctx_ok c -> bytes_ok p -> no_fault (handle_tun_downlink c p).
Proof.
  intros Hok Hp. unfold handle_tun_downlink, tun_prep_downlink.
  destruct ((zlen p <? 20) || (zlen p >? 65536)) eqn:El; [by eexists|].
  destruct (downlink_session_spec c p Hok Hp) as [dr ->]; [lia|]. cbn [rbind]. case_match; by eexists.
Qed.

Module Sample.

Definition c0 : server_ctx :=
  default (mk_ctx [] ∅ [] [] 0 0 0 0 0 false 0 false)
    (server_setup [198; 18; 0; 1] [114; 114; 114; 114] (lit "198.18.0.0/16") 3 false).

Definition s1 : server_session :=
  mk_sess true 2 305419896 (mk_addr 16777226 4000) [198; 18; 0; 2] [1; 2; 3; 4; 5; 6; 7; 8] 1 1000 0 0 0 0 (lit "alice").

Definition c1 : server_ctx := install c0 0 s1.

(** A UDP packet to that client. *)
Definition pkt : bytes := [69; 0; 0; 20; 0; 0; 0; 0; 64; 17; 0; 0; 8; 8; 8; 8; 198; 18; 0; 2].

Lemma c0_ok : ctx_ok c0.
Proof.
  eapply (ctx_ok_setup [198; 18; 0; 1] [114; 114; 114; 114] (lit "198.18.0.0/16") 3 false);
    try (by apply (bool_decide_unpack _); vm_compute). vm_compute. reflexivity.
Qed.

Lemma c0_empty i t : ~ live c0 i t.
Proof.
  intros [Hi Hv]. assert (sess c0 = replicate 256 sess0) as E by (vm_compute; reflexivity).
  rewrite E in Hi. by apply lookup_replicate in Hi as [-> _].
Qed.

Lemma c1_ok : ctx_ok c1.
Proof.
  apply ctx_ok_install; [exact c0_ok|lia|vm_compute; reflexivity|reflexivity| |by intros j t Ht%c0_empty].
  split; try (vm_compute; intuition discriminate); try (by right);
    (split; [by apply (bool_decide_unpack _); vm_compute|vm_compute; (reflexivity || discriminate)]).
Qed.

Lemma s1_live : live c1 0 s1.
Proof. split; vm_compute; reflexivity. Qed.

Lemma pkt_ok : bytes_ok pkt.
Proof. by apply (bool_decide_unpack _); vm_compute. Qed.

End Sample.

(** ** Main theorems *)

(** the O(1) index is exact.  In every well-formed table the indexed lookup by
    session id gives the slot the full scan would give, and so does the lookup by
    inner address, although the index only keeps the low sixteen bits. *)
Theorem lookup_is_scan c k a :
  ctx_ok c -> bytes_ok a -> zlen a = 4 ->
  find_session_unlocked c k = find_index (fun x => valid x && (sid x =? k)) (sess c) /\
  find_session_by_ip_unlocked c a = find_index (fun x => valid x && beq (ip x) a) (sess c).
Proof.
  intros Hok Ha Hl. split; apply find_index_unique; intros i.
  - rewrite find_session_Some by done. split; intros (s & Hs & Hf); exists s.
    + destruct Hs as [Hs Hv]. split; [done|]. rewrite Hv. lia.
    + apply andb_true_iff in Hf as [Hv Hk]. split; [done|lia].
  - rewrite find_by_ip_Some by done. split; intros (s & Hs & Hf); exists s.
    + destruct Hs as [Hs Hv]. split; [done|]. by rewrite Hv, Hf, beq_refl.
    + apply andb_true_iff in Hf as [Hv Hk]. apply beq_true in Hk. done.
Qed.

(** expiry is exact.  The purge keeps the table well formed; a session survives
    it untouched exactly when it was used within the idle timeout, and an expired
    one is left without token, key and index entry. *)
Theorem purge_exact c now :
  ctx_ok c ->
  let c' := purge_expired c now in
  ctx_ok c' /\
  (forall i s, live c' i s <-> live c i s /\ u64 (now - last_active_ms s) <= IDLE_TIMEOUT_MS) /\
  (forall i s, live c i s -> IDLE_TIMEOUT_MS < u64 (now - last_active_ms s) ->
     exists t, sess c' !! i = Some t /\ valid t = false /\ token t = 0 /\ xor_key t = fill 0 8 /\
       find_session_unlocked c' (sid s) = None /\ find_session_by_ip_unlocked c' (ip s) = None).
Proof.
  intros Hok c'. destruct (purge_expired_spec c now Hok) as (Hok' & Hcfg & Hs). fold c' in Hok', Hs.
  assert (forall i s, live c' i s <-> live c i s /\ u64 (now - last_active_ms s) <= IDLE_TIMEOUT_MS) as Hlive.
  { intros i s. unfold live. rewrite Hs. destruct (sess c !! i) as [t|]; cbn.
    2:{ split; [intros [[=] _]|intros [[[=] _] _]]. }
    destruct (expired now t) eqn:Ex; unfold expired in Ex.
    - split.
      + intros [[= <-] Hv]. by rewrite valid_wiped in Hv.
      + intros [[[= <-] Hv] Hi]. rewrite Hv in Ex. lia.
    - split.
      + intros [[= <-] Hv]. split; [done|]. rewrite Hv in Ex. lia.
      + intros [[[= <-] Hv] _]. done. }
  split_and!; [done|done|]. intros i s Hl Hidle.
  assert (expired now s = true) as Hex by (destruct Hl as [_ Hv]; unfold expired; rewrite Hv; lia).
  exists (wiped s). destruct (wiped_dead c s (ok_live c Hok i s Hl)) as [Ht Hk].
  pose proof (ok_live c Hok i s Hl) as Hlo. destruct (lo_ip c s Hlo) as [Hi1 Hi2].
  split_and!; [rewrite Hs; destruct Hl as [-> _]; cbn; by rewrite Hex|apply valid_wiped|done|done| |].
  - apply find_session_None; [done|]. intros j t [Htl Hti]%Hlive E.
    pose proof (live_sid_inj c j i t s Hok Htl Hl E) as ->. rewrite (live_det c i t s Htl Hl) in Hti. lia.
  - destruct (find_session_by_ip_unlocked c' (ip s)) as [j|] eqn:E; [|done].
    apply find_by_ip_Some in E as (t & [Htl Hti]%Hlive & Ei); [|done..].
    pose proof (same_ip_same_slot c j i t s Hok Htl Hl Ei) as ->. rewrite (live_det c i t s Htl Hl) in Hti. lia.
Qed.

Lemma downlink_owner c p :
  ctx_ok c -> bytes_ok p ->
  exists r counted, handle_tun_downlink c p = Ret (r, counted) /\
  (forall i s, live c i s -> 20 <= zlen p <= 65536 -> inner_dst p = Some (ip s) -> r <> None) /\
  (forall to d, r = Some (to, d) ->
     20 <= zlen p <= 65536 /\
     exists i s, live c i s /\ inner_dst p = Some (ip s) /\ to = peer s /\
       d.[0] = (if enc s =? 0 then PT_DATA else PT_DATA_ENC) /\ hdr_sid d = sid s /\ hdr_tok d = token s /\
       (if enc s =? 0 then drop 8 d else xor_crypt (drop 8 d) (xor_key s)) = p /\ bytes_ok d).
Proof.
  intros Hok Hp. unfold handle_tun_downlink, tun_prep_downlink.
  destruct ((zlen p <? 20) || (zlen p >? 65536)) eqn:El.
  { eexists _, _. split; [done|]. split; [intros; lia|done]. }
  destruct (downlink_session_spec c p Hok Hp) as [dr ->]; [lia|]. cbn [rbind].
  assert (forall a, inner_dst p = Some a -> zlen a = 4 /\ bytes_ok a) as Ha.
  { intros a. unfold inner_dst. destruct (p.[0] / 16 =? 6).
    - destruct (bool_decide (ip6_valid p)) eqn:Ev; [|done]. apply bool_decide_eq_true in Ev. destruct Ev as [Hl40 _].
      destruct (_ && _); [|done]. intros [= <-]. split; [apply zlen_slice; lia|by apply bytes_ok_slice].
    - destruct (bool_decide _); [|done]. intros [= <-]. split; [apply zlen_slice; lia|by apply bytes_ok_slice]. }
  destruct (inner_dst p) as [a|] eqn:Ed; [destruct (find_session_by_ip_unlocked c a) as [i|] eqn:Ef|].
  - destruct (Ha a eq_refl) as [Hla Hba]. apply find_by_ip_Some in Ef as (s & Hs & Hip); [|done..].
    rewrite (live_sess_at _ _ _ Hs). cbn [snap_of sn_enc sn_sid sn_token sn_xor_key rbind].
    eexists _, _. split; [done|]. split; [done|]. intros to d Eq. apply some_pair_inv in Eq as [<- <-]. split; [lia|].
    exists i, s. pose proof (ok_live c Hok i s Hs) as Hlo. subst a.
    destruct (lo_key c s Hlo) as [Hk _]. pose proof (lo_token c s Hlo) as Htok.
    assert (0 <= sid s < 65536) as Hsid by (rewrite (lo_sid c s Hlo); apply u16_range).
    match goal with |- context [pkt_hdr ?t ?e ?sd ?tk ++ ?r] =>
      destruct (pkt_hdr_fields t e sd tk r) as (F1 & F2 & F3 & F4) end;
      [destruct (enc s =? 0); done|destruct (lo_enc c s Hlo) as [-> | ->]; done|done|lia|].
    split_and!; try done.
    + change (drop 8 (pkt_hdr ?t ?e ?sd ?tk ++ ?r)) with r. destruct (enc s =? 0); [done|]. by apply xor_crypt_invol.
    + apply bytes_ok_app. split; [apply pkt_hdr_ok|]. destruct (enc s =? 0); [done|]. by apply xor_crypt_ok.
  - eexists _, _. split; [done|]. split; [|done]. intros j s Hs _ [= ->].
    destruct (Ha (ip s) eq_refl) as [Hla Hba].
    assert (find_session_by_ip_unlocked c (ip s) = Some j) as E by (apply find_by_ip_Some; [done..|by exists s]). congruence.
  - eexists _, _. split; [done|]. split; [done|done].
Qed.

(** C27: the downlink delivers to the owner and to nobody else.  For every buffer, the
    handler returns without reading outside it; it sends a datagram exactly when the
    packet is 20 to 65536 bytes long, passes its gate, and its destination (IPv4, or
    the tunnel's ULA form of it) is the address of a live session; the datagram goes
    to that session's peer, carries its id and token, and its payload decrypts to
    the packet. *)
Theorem downlink_reaches_owner c p :
  ctx_ok c -> bytes_ok p ->
  exists r counted, handle_tun_downlink c p = Ret (r, counted) /\
  (forall i s, live c i s -> 20 <= zlen p <= 65536 -> inner_dst p = Some (ip s) -> r <> None) /\
  (forall to d, r = Some (to, d) ->
     20 <= zlen p <= 65536 /\
     exists i s, live c i s /\ inner_dst p = Some (ip s) /\ to = peer s /\
       d.[0] = (if enc s =? 0 then PT_DATA else PT_DATA_ENC) /\ hdr_sid d = sid s /\ hdr_tok d = token s /\
       (if enc s =? 0 then drop 8 d else xor_crypt (drop 8 d) (xor_key s)) = p).
Proof.
  intros Hok Hp. destruct (downlink_owner c p Hok Hp) as (r & k & E & H1 & H2). exists r, k. split_and!; [done..|].
  intros to d Er. destruct (H2 to d Er) as (Hl & i & s & ? & ? & ? & ? & ? & ? & ? & _). split; [done|]. by exists i, s.
Qed.

Lemma lookup_is_scan_witness :
  find_session_unlocked Sample.c1 2 = Some 0%nat /\
  find_session_by_ip_unlocked Sample.c1 [198; 18; 0; 2] = Some 0%nat.
Proof.
  destruct (lookup_is_scan Sample.c1 2 [198; 18; 0; 2] Sample.c1_ok) as [H1 H2];
    [by apply (bool_decide_unpack _); vm_compute|done|].
  split; [rewrite H1; vm_compute; reflexivity|rewrite H2; vm_compute; reflexivity].
Defined.

Lemma purge_exact_witness :
  live (purge_expired Sample.c1 100000) 0 Sample.s1 /\
  find_session_unlocked (purge_expired Sample.c1 200000) 2 = None.
Proof.
  destruct (purge_exact Sample.c1 100000 Sample.c1_ok) as (_ & H1 & _).
  destruct (purge_exact Sample.c1 200000 Sample.c1_ok) as (_ & _ & H2). split.
  - apply H1. split; [exact Sample.s1_live|]. vm_compute. discriminate.
  - destruct (H2 0%nat Sample.s1 Sample.s1_live) as (t & _ & _ & _ & _ & Hf & _); [vm_compute; reflexivity|exact Hf].
Defined.

Lemma downlink_reaches_owner_witness :
  exists d counted, handle_tun_downlink Sample.c1 Sample.pkt = Ret (Some (mk_addr 16777226 4000, d), counted).
Proof.
  destruct (downlink_reaches_owner Sample.c1 Sample.pkt Sample.c1_ok Sample.pkt_ok) as (r & k & H1 & H2 & H3).
  specialize (H2 0%nat Sample.s1 Sample.s1_live ltac:(vm_compute; split; discriminate) ltac:(vm_compute; reflexivity)).
  destruct r as [[to d]|]; [|destruct (H2 eq_refl)].
  destruct (H3 to d eq_refl) as (_ & i & s & Hs & Hd & Ht & _). exists d, k. rewrite H1, Ht.
  assert (i = 0%nat) as ->.
  { apply (same_ip_same_slot Sample.c1 i 0 s Sample.s1 Sample.c1_ok Hs Sample.s1_live).
    assert (inner_dst Sample.pkt = Some (ip Sample.s1)) as E by (vm_compute; reflexivity). congruence. }
  rewrite (live_det _ _ _ _ Hs Sample.s1_live). reflexivity.
Defined.
