(* ===== verification/Open.v ===== *)
(** * Authentication on the server: the OPEN handler (src/src/common/server.c)

    [handle_open] is the whole handler: signature, TLVs, credentials, slot choice,
    takeover guard, address allocation, token, installation and the OPEN_ACK.  It
    maps the session table and one frame to the new table and the datagrams sent.
    The environment supplies the clock readings and the values [rand_u32]
    returns. *)

From S2P Require Import Prelude Util Crypto Protocol Ipv4 Session.

(** What leaves the program: a datagram to a peer, a packet to the TUN device. *)
Inductive output :=
| Send (to : sockaddr_in) (d : bytes)
| TunWrite (p : bytes).

(** One line of the users file. *)
Record server_user := mk_user { name : bytes; pass : bytes }.

Record open_ctx := mk_open {
  oc_user : bytes;
  oc_ct : bytes;
  oc_mtu : Z;
  oc_enc : Z;
  oc_nonce : Z;
  oc_have_av : bool;
  oc_user_too_long : bool
}.

(** The state [handle_open] hands to the TLV iterator. *)
Definition open_ctx0 : open_ctx := mk_open [] (fill 0 16) IWAN_DEFAULT_MTU 1 0 false false.

(** [user] is kept as the C string the later [strcmp]s see. *)
Definition open_tlv (a : open_ctx) (typ : Z) (val : bytes) : res (open_ctx * bool) :=
  let '(mk_open u ct mtu e nonce av too) := a in
  let vlen := zlen val in
  if typ =? T_USERNAME then
    if vlen >? 0 then
      let n := if vlen <? SERVER_USER_MAX then vlen else SERVER_USER_MAX in
      let! v := rdn val 0 n in
      Ret (mk_open (cstr v) ct mtu e nonce av (if vlen >? SERVER_USER_MAX then true else too), true)
    else Ret (mk_open [] ct mtu e nonce av too, true)
  else if typ =? T_PASSWORD then
    if vlen >=? 16 then let! v := rdn val 0 16 in Ret (mk_open u v mtu e nonce av too, true)
    else Ret (a, true)
  else if typ =? T_MTU then
    if vlen >=? 2 then
      let! v0 := rd val 0 in
      let! v1 := rd val 1 in
      Ret (mk_open u ct (u16 (Z.lor (Z.shiftl v0 8) v1)) e nonce av too, true)
    else Ret (a, true)
  else if typ =? T_ENCRYPT then
    if vlen >=? 1 then
      let! v0 := rd val 0 in
      Ret (mk_open u ct mtu (if v0 =? 0 then 0 else 1) nonce av too, true)
    else Ret (a, true)
  else if typ =? T_AUTH_VERIFY then
    if vlen =? 4 then
      let! v0 := rd val 0 in
      let! v1 := rd val 1 in
      let! v2 := rd val 2 in
      let! v3 := rd val 3 in
      Ret (mk_open u ct mtu e (be32 v0 v1 v2 v3) true too, true)
    else Ret (a, true)
  else Ret (a, true).

(** What the environment answers during one OPEN: the clock at the takeover guard
    and at the installation, and the successive results of [rand_u32]. *)
Record open_io := mk_open_io { now_guard : Z; now_store : Z; rands : list Z }.

Section Open.
Context `{OpenSSL}.

Definition send_reject (p : sockaddr_in) (msg : bytes) : res (list output) :=
  let mlen := if zlen msg >? IWAN_TLV_VLEN_MAX then IWAN_TLV_VLEN_MAX else zlen msg in
  let! b := ctrl_hdr [] PT_OPEN_REJECT 0 0 0 in
  let! b := tlv_put b T_ERR_MSG msg mlen in
  Ret [Send p b].

Definition open_reject (p : sockaddr_in) (reason : bytes) : res (list output) := send_reject p reason.

(** The first user of that name. *)
Definition find_pass (users : list server_user) (u : bytes) : option bytes :=
  match find_index (fun x => beq (name x) u) users with
  | Some i => pass <$> (users !! i)
  | None => None
  end.

(** One slot per user, else the first free one. *)
Definition pick_slot (c : server_ctx) (u : bytes) : option nat :=
  match find_index (fun s => valid s && beq (user s) u) (sess c) with
  | Some i => Some i
  | None => find_index (fun s => negb (valid s)) (sess c)
  end.

(** The forward probe for an address whose session id is free. *)
Fixpoint probe_loop (k : nat) (c : server_ctx) (probe : Z) : option Z :=
  match k with
  | O => None
  | S k =>
      let probe := if probe >? ip_end c then ip_base c else probe in
      match find_session_unlocked c (u16 probe) with
      | None => Some probe
      | Some _ => probe_loop k c (u32 (probe + 1))
      end
  end.

(** Address, session id and the context with the advanced [next_ip]; [None] when
    the pool is too wide or exhausted. *)
Definition choose_addr (c : server_ctx) (slot : nat) : option (Z * Z * server_ctx) :=
  let s := sess_at c slot in
  if valid s then Some (ip4_u32 (ip s), sid s, c)
  else
    let pool := u32 (ip_end c - ip_base c + 1) in
    if pool >? 65536 then None
    else
      match probe_loop (Z.to_nat pool) c (next_ip c) with
      | None => None
      | Some ipu =>
          Some (ipu, u16 ipu, set_next_ip c (if ipu =? ip_end c then ip_base c else u32 (ipu + 1)))
      end.

(** [do { tok = rand_u32(); } while (tok == 0)] *)
Fixpoint mint_token (l : list Z) : res Z :=
  match l with
  | [] => Fault OutOfFuel
  | t :: r => if u32 t =? 0 then mint_token r else Ret (u32 t)
  end.

(** Replace any session with the same id. *)
Definition wipe_sid (sd : Z) (c : server_ctx) (i : nat) : server_ctx :=
  if valid (sess_at c i) && (sid (sess_at c i) =? sd) then sess_wipe c i else c.

Definition wipe_same_sid (c : server_ctx) (sd : Z) : server_ctx :=
  fold_left (wipe_sid sd) (seq 0 (Z.to_nat SERVER_MAX_SESSIONS)) c.

Definition clamp_mtu (m : Z) : Z :=
  if m <? IWAN_MTU_MIN then IWAN_MTU_MIN else if m >? IWAN_MTU_MAX then IWAN_MTU_MAX else m.

Definition open_ack (c : server_ctx) (a : open_ctx) (sd tok ipu : Z) : res bytes :=
  let! b := ctrl_hdr [] PT_OPEN_ACK (oc_enc a) sd tok in
  let! b := tlv_put b T_MTU (put16 (clamp_mtu (oc_mtu a))) 2 in
  let! b := tlv_put b T_IP (u32_ip4 ipu) 4 in
  let! b := tlv_put b T_GATEWAY (server_ip c) 4 in
  let! b := tlv_put b T_DNS (dns c) 4 in
  let! b := tlv_put b T_ENCRYPT [oc_enc a] 1 in
  tlv_put b T_AUTH_VERIFY (put32 (oc_nonce a)) 4.

(** The part of [handle_open] behind the credential check. *)
Definition open_session (c : server_ctx) (p : sockaddr_in) (io : open_io) (a : open_ctx) (pw : bytes)
    : res (server_ctx * list output) :=
  let sk := session_key (oc_user a) pw in
  match pick_slot c (oc_user a) with
  | None => let! o := open_reject p (lit "server full") in Ret (c, o)
  | Some slot =>
      let s := sess_at c slot in
      if valid s && negb (s_addr (peer s) =? s_addr p) &&
         (u64 (now_guard io - last_active_ms s) <=? IDLE_TIMEOUT_MS)
      then let! o := open_reject p (lit "session active elsewhere") in Ret (c, o)
      else
        match choose_addr c slot with
        | None => let! o := open_reject p (lit "server full") in Ret (c, o)
        | Some (ipu, sd, c) =>
            let! tok := mint_token (rands io) in
            let c := wipe_same_sid c sd in
            let c := install c slot (mk_sess true sd tok p (u32_ip4 ipu) (take 8 sk) (oc_enc a) (now_store io)
                                       0 0 0 0 (oc_user a)) in
            let! b := open_ack c a sd tok ipu in
            Ret (c, [Send p b])
        end
  end.

Definition handle_open (c : server_ctx) (users : list server_user) (raw : bytes) (p : sockaddr_in) (io : open_io)
    : res (server_ctx * list output) :=
  let! ok := if zlen raw <? IWAN_CTRL_LEN then Ret false else verify_sig raw in
  if negb ok then Ret (c, [])
  else
    let! body := rdn raw IWAN_CTRL_LEN (zlen raw - IWAN_CTRL_LEN) in
    let! (a, rc) := parse_tlvs body open_tlv open_ctx0 in
    if negb (rc =? 0) then let! o := open_reject p (lit "malformed TLVs") in Ret (c, o)
    else if oc_user_too_long a then let! o := open_reject p (lit "username too long") in Ret (c, o)
    else if negb (oc_have_av a) then let! o := open_reject p (lit "missing AV") in Ret (c, o)
    else
      match find_pass users (oc_user a) with
      | None => let! o := open_reject p (lit "invalid credentials") in Ret (c, o)
      | Some pw =>
          let (_, expect) := encrypt_password pw (oc_user a) in
          if negb (beq expect (oc_ct a)) then let! o := open_reject p (lit "invalid credentials") in Ret (c, o)
          else open_session c p io a pw
      end.

End Open.

(** ** TLVs of an OPEN *)

Record oc_ok (a : open_ctx) : Prop := {
  ao_user : cstr_ok (oc_user a) /\ zlen (oc_user a) <= SERVER_USER_MAX;
  ao_ct : bytes_ok (oc_ct a) /\ zlen (oc_ct a) = 16;
  ao_mtu : 0 <= oc_mtu a < 65536;
  ao_enc : oc_enc a = 0 \/ oc_enc a = 1;
  ao_nonce : 0 <= oc_nonce a < 2 ^ 32
}.

Lemma oc_ok0 : oc_ok open_ctx0.
Proof.
  split; cbn; [split; [constructor|done]|split; [by apply Forall_replicate|done]|done|by right|done].
Qed.

Lemma cstr_len l : zlen (cstr l) <= zlen l.
Proof. induction l as [|b l IH]; cbn [cstr]; [done|]. case_match; zl; pose proof (zlen_nonneg l); lia. Qed.

Lemma open_tlv_ok a t v :
  oc_ok a -> tlv_ok (t, v) -> exists a', open_tlv a t v = Ret (a', true) /\ oc_ok a'.
Proof.
  intros [Hu Hc Hm He Hn] (_ & Hv & Hl). destruct a as [u ct mtu e nonce av too]. cbn [fst snd oc_user oc_ct oc_mtu oc_enc oc_nonce] in *.
  unfold open_tlv. pose proof (zlen_nonneg v).
  destruct (t =? T_USERNAME).
  { destruct (zlen v >? 0) eqn:E.
    - set (n := if zlen v <? SERVER_USER_MAX then zlen v else SERVER_USER_MAX).
      assert (0 <= n <= zlen v /\ n <= SERVER_USER_MAX) as [Hn1 Hn2].
      { unfold n, SERVER_USER_MAX. destruct (zlen v <? 63) eqn:?; lia. }
      rewrite rdn_ok by lia. cbn [rbind]. eexists. split; [done|]. split; cbn; try done. split.
      + apply cstr_ok_cstr. by apply bytes_ok_slice.
      + etransitivity; [apply cstr_len|]. rewrite zlen_slice by lia. lia.
    - eexists. split; [done|]. split; cbn; try done. split; [constructor|done]. }
  destruct (t =? T_PASSWORD).
  { destruct (zlen v >=? 16) eqn:E; [|eexists; split; [done|by split]].
    rds. eexists. split; [done|]. split; cbn; try done. split; [by apply bytes_ok_slice|apply zlen_slice; lia]. }
  destruct (t =? T_MTU).
  { destruct (zlen v >=? 2) eqn:E; [|eexists; split; [done|by split]].
    rds. eexists. split; [done|]. split; cbn; try done. apply u16_range. }
  destruct (t =? T_ENCRYPT).
  { destruct (zlen v >=? 1) eqn:E; [|eexists; split; [done|by split]].
    rds. eexists. split; [done|]. split; cbn; try done. case_match; [by left|by right]. }
  destruct (t =? T_AUTH_VERIFY).
  { destruct (zlen v =? 4) eqn:E; [|eexists; split; [done|by split]].
    rds. eexists. split; [done|]. split; cbn; try done. apply be32_range; by apply at_byte. }
  eexists. split; [done|by split].
Qed.

Lemma open_parse_ok body :
  bytes_ok body -> exists a rc, parse_tlvs body open_tlv open_ctx0 = Ret (a, rc) /\ oc_ok a.
Proof.
  intros Hb. destruct (tlvs_split body Hb) as (l & tail & -> & Hl & Ht).
  rewrite parse_tlvs_enc by done.
  destruct (tlv_fold_safe open_tlv oc_ok l) with (u := open_ctx0) as (a & go & -> & Ha).
  - intros u t v Hu Hv. destruct (open_tlv_ok u t v Hu Hv) as (a' & -> & Ha'). by eexists _, _.
  - done.
  - apply oc_ok0.
  - cbn [rbind tlv_result fst]. by eexists _, _.
Qed.

(** ** Table steps *)

Lemma wipe_sid_none c sd l :
  (forall i s, live c i s -> sid s <> sd) -> fold_left (wipe_sid sd) l c = c.
Proof.
  intros H. induction l as [|i l IH]; cbn [fold_left]; [done|].
  assert (wipe_sid sd c i = c) as ->; [|done]. unfold wipe_sid.
  destruct (_ && _) eqn:E; [|done]. apply andb_true_iff in E as [Hv Hs]. exfalso.
  unfold sess_at in Hv, Hs. destruct (sess c !! i) as [s|] eqn:Ei; cbn in Hv, Hs; [|done].
  apply (H i s); [by split|lia].
Qed.

Lemma wipe_sid_notin c sd l :
  (forall i s, i ∈ l -> live c i s -> sid s <> sd) -> fold_left (wipe_sid sd) l c = c.
Proof.
  induction l as [|i l IH]; intros H; cbn [fold_left]; [done|].
  assert (wipe_sid sd c i = c) as ->.
  - unfold wipe_sid. destruct (_ && _) eqn:E; [|done]. apply andb_true_iff in E as [Hv Hs]. exfalso.
    unfold sess_at in Hv, Hs. destruct (sess c !! i) as [s|] eqn:Ei; cbn in Hv, Hs; [|done].
    apply (H i s); [by left|by split|lia].
  - apply IH. intros j s Hj. apply H. by right.
Qed.

Lemma live_wipe c i s j t :
  live c i s -> live (sess_wipe c i) j t <-> j <> i /\ live c j t.
Proof.
  intros Hl. assert ((i < length (sess c))%nat) as Hlt by (destruct Hl as [Hl _]; by eapply lookup_lt_Some).
  unfold live. destruct (decide (j = i)) as [->|Hne].
  - rewrite (sess_wipe_live c i s Hl), sess_set_map, sess_set_sess, list_lookup_insert_eq by done.
    split; [|tauto]. intros [[= <-] Hv]. by rewrite valid_wiped in Hv.
  - rewrite sess_wipe_other by done. tauto.
Qed.

Lemma wipe_same_sid_live c i s :
  ctx_ok c -> live c i s -> wipe_same_sid c (sid s) = sess_wipe c i.
Proof.
  intros Hok Hl. unfold wipe_same_sid. pose proof (live_lt c i s Hok Hl) as Hlt.
  change (Z.to_nat SERVER_MAX_SESSIONS) with 256%nat.
  replace 256%nat with (i + (1 + (255 - i)))%nat by lia.
  rewrite seq_app, fold_left_app, (wipe_sid_notin c (sid s) (seq 0 i)).
  2:{ intros j t Hj Ht E. apply elem_of_seq in Hj. pose proof (live_sid_inj c j i t s Hok Ht Hl E). lia. }
  cbn [Nat.add seq fold_left]. assert (wipe_sid (sid s) c i = sess_wipe c i) as ->.
  { unfold wipe_sid. rewrite (live_sess_at _ _ _ Hl). destruct Hl as [_ Hv]. by rewrite Hv, Z.eqb_refl. }
  apply wipe_sid_none. intros j t Ht E. apply (live_wipe c i s) in Ht as [Hne Ht]; [|done].
  apply Hne. by apply (live_sid_inj c j i t s).
Qed.

Lemma pick_slot_spec c u slot :
  ctx_ok c -> pick_slot c u = Some slot ->
  (slot < 256)%nat /\
  ((exists s, live c slot s /\ user s = u) \/
   (valid (sess_at c slot) = false /\ forall j t, live c j t -> user t <> u)).
Proof.
  intros Hok. unfold pick_slot.
  assert (forall i x, sess c !! i = Some x -> (i < 256)%nat) as Hlt.
  { intros i x Hx. apply lookup_lt_Some in Hx. rewrite (ok_len c Hok) in Hx. exact Hx. }
  destruct (find_index (fun s => valid s && beq (user s) u) (sess c)) as [i|] eqn:E1.
  - intros [= ->]. apply find_index_Some in E1 as [(s & Hs & Hf) _].
    apply andb_true_iff in Hf as [Hv Hu]. apply beq_true in Hu. split; [by eapply Hlt|]. left. by exists s.
  - intros E2. apply find_index_Some in E2 as [(s & Hs & Hf) _]. split; [by eapply Hlt|]. right. split.
    + rewrite (sess_at_lookup _ _ _ Hs). by destruct (valid s).
    + intros j t [Hj Hv] Hu. rewrite find_index_None in E1. specialize (E1 j t Hj).
      rewrite Hv, Hu, beq_refl in E1. done.
Qed.

Lemma probe_loop_spec k c probe a :
  ctx_ok c -> ip_base c <= probe <= ip_end c + 1 -> probe_loop k c probe = Some a ->
  ip_base c <= a <= ip_end c /\ forall j t, live c j t -> sid t <> u16 a.
Proof.
  intros Hok. pose proof (cf_pool c (ok_cfg c Hok)) as Hp.
  revert probe. induction k as [|k IH]; intros probe Hr; [done|]. cbn [probe_loop].
  set (q := if probe >? ip_end c then ip_base c else probe).
  assert (ip_base c <= q <= ip_end c) as Hq by (unfold q; destruct (probe >? ip_end c) eqn:?; lia).
  destruct (find_session_unlocked c (u16 q)) as [i|] eqn:E.
  - rewrite u32_small by lia. apply IH. lia.
  - intros [= <-]. split; [done|]. by apply find_session_None.
Qed.

Lemma mint_token_spec l t : mint_token l = Ret t -> 0 < t < 2 ^ 32.
Proof.
  induction l as [|x l IH]; cbn [mint_token]; [done|]. pose proof (u32_range x).
  destruct (u32 x =? 0) eqn:E; [done|]. intros [= <-]. lia.
Qed.

(** What the address choice leaves: a context that differs in [next_ip] only. *)
Lemma choose_addr_spec c slot ipu sd c1 :
  ctx_ok c -> choose_addr c slot = Some (ipu, sd, c1) ->
  ctx_ok c1 /\ same_cfg c c1 /\ sess c1 = sess c /\ sid_map c1 = sid_map c /\
  ip_base c <= ipu <= ip_end c /\ sd = u16 ipu /\
  if valid (sess_at c slot) then ipu = ip4_u32 (ip (sess_at c slot)) /\ sd = sid (sess_at c slot)
  else forall j t, live c j t -> sid t <> sd.
Proof.
  intros Hok. unfold choose_addr. destruct (valid (sess_at c slot)) eqn:Ev.
  - intros [= <- <- <-].
    assert (live c slot (sess_at c slot)) as Hl.
    { unfold sess_at in *. destruct (sess c !! slot) eqn:E; [by split|]. by cbn in Ev. }
    pose proof (ok_live c Hok _ _ Hl) as Hlo. split_and!; try done; apply Hlo.
  - destruct (_ >? 65536) eqn:Ep; [done|]. destruct (probe_loop _ _ _) as [a|] eqn:E; [|done].
    intros [= <- <- <-]. pose proof (cf_pool c (ok_cfg c Hok)) as Hp.
    apply probe_loop_spec in E as [Ha Hfree]; [|done|lia].
    split_and!; try (done || lia); [|by destruct c..].
    set (n := if a =? ip_end c then ip_base c else u32 (a + 1)).
    assert (ip_base c <= n <= ip_end c) as Hn.
    { unfold n. destruct (a =? ip_end c) eqn:?; [lia|]. rewrite u32_small; lia. }
    clearbody n. destruct Hok as [H1 H2 H3 H4 H5 H6 [C1 C2 C3 C4]]. destruct c. split; cbn in *; try done.
    + intros i s Hl. destruct (H2 i s Hl) as [L1 L2 L3 L4 L5 L6 L7 L8 L9]. by split.
    + split; cbn; [lia|done|done|done].
Qed.

Section OpenFacts.
Context `{OpenSSLLaws}.

Lemma take8_key u pw : bytes_ok (take 8 (session_key u pw)) /\ zlen (take 8 (session_key u pw)) = 8.
Proof. split; [apply Forall_take, session_key_bytes|]. rewrite zlen_take, session_key_len. done. Qed.

(** The relation between the table before and after an accepted OPEN. *)
Record installed (c c' : server_ctx) (p : sockaddr_in) (io : open_io) (a : open_ctx) (pw : bytes)
    (slot : nat) (s : server_session) : Prop := {
  in_pick : pick_slot c (oc_user a) = Some slot;
  in_live : live c' slot s;
  in_user : user s = oc_user a;
  in_peer : peer s = p;
  in_key : xor_key s = take 8 (session_key (oc_user a) pw);
  in_enc : enc s = oc_enc a;
  in_active : last_active_ms s = now_store io;
  in_fresh : tok_mis_cnt s = 0 /\ tok_mis_bound s = 0 /\ tok_mis_win s = 0 /\ throttle_until_ms s = 0;
  in_others : forall j t, j <> slot -> live c j t <-> live c' j t;
  in_guard : forall t, live c slot t -> user t = oc_user a /\ ip t = ip s /\ sid t = sid s /\
    (s_addr (peer t) = s_addr p \/ IDLE_TIMEOUT_MS < u64 (now_guard io - last_active_ms t));
  in_new : (forall t, ~ live c slot t) -> forall j t, live c j t -> user t <> oc_user a
}.

Lemma open_session_cases c p io a pw c' o :
  ctx_ok c -> oc_ok a -> open_session c p io a pw = Ret (c', o) ->
  (c' = c /\ exists why, open_reject p why = Ret o) \/
  (exists slot s b, installed c c' p io a pw slot s /\ ctx_ok c' /\ same_cfg c c' /\
     open_ack c' a (sid s) (token s) (ip4_u32 (ip s)) = Ret b /\ o = [Send p b]).
Proof.
  intros Hok Ha. unfold open_session. destruct (pick_slot c (oc_user a)) as [slot|] eqn:Es.
  2:{ intros E. apply rbind_ret_inv in E as (o' & Ho & [= <- <-]). left. eauto. }
  destruct (pick_slot_spec c (oc_user a) slot Hok Es) as [Hlt Hslot].
  intros E. hyp_if E Eg.
  { apply rbind_ret_inv in E as (o' & Ho & [= <- <-]). left. eauto. }
  destruct (choose_addr c slot) as [[[ipu sd] c1]|] eqn:Ec.
  2:{ apply rbind_ret_inv in E as (o' & Ho & [= <- <-]). left. eauto. }
  destruct (choose_addr_spec c slot ipu sd c1 Hok Ec) as (Hok1 & Hcfg1 & Hs1 & Hm1 & Hipu & Hsd & Hcase).
  apply rbind_ret_inv in E as (tok & Htok & E). apply mint_token_spec in Htok.
  destruct (rbind_ret_inv _ _ _ E) as (b & Hb & E2). apply ret_pair_inv in E2 as [<- <-]. clear E. right.
  set (s := mk_sess true sd tok p (u32_ip4 ipu) (take 8 (session_key (oc_user a) pw)) (oc_enc a) (now_store io)
              0 0 0 0 (oc_user a)) in *.
  set (c2 := wipe_same_sid c1 sd) in *.
  pose proof (cf_pool c (ok_cfg c Hok)) as Hpool.
  assert (forall j t, live c1 j t <-> live c j t) as Hlive1 by (intros; unfold live; by rewrite Hs1).
  assert (forall i, sess_at c1 i = sess_at c i) as Hat1 by (intros; unfold sess_at; by rewrite Hs1).
  assert (ctx_ok c2 /\ same_cfg c c2 /\ valid (sess_at c2 slot) = false /\
          forall j t, live c2 j t <-> j <> slot /\ live c j t) as (Hok2 & Hcfg2 & Hdead2 & Hlive2).
  { destruct Hslot as [(t & Ht & Hu)|[Hdead Hnone]].
    - rewrite (live_sess_at _ _ _ Ht) in Hcase. pose proof Ht as [_ Hv]. rewrite Hv in Hcase.
      destruct Hcase as [_ Hsid]. assert (c2 = sess_wipe c1 slot) as ->.
      { unfold c2. rewrite Hsid. apply wipe_same_sid_live; [done|by apply Hlive1]. }
      assert (live c1 slot t) as Ht1 by by apply Hlive1.
      split_and!; [by apply ctx_ok_wipe|etransitivity; [exact Hcfg1|apply same_cfg_wipe]| |].
      + destruct (sess (sess_wipe c1 slot) !! slot) as [x|] eqn:Ex.
        * rewrite (sess_at_lookup _ _ _ Ex). destruct (valid x) eqn:Evx; [|done].
          destruct (live_wipe c1 slot t slot x Ht1) as [Hw _]. by destruct Hw.
        * unfold sess_at. by rewrite Ex.
      + intros j x. rewrite (live_wipe c1 slot t j x Ht1), Hlive1. done.
    - rewrite Hdead in Hcase. assert (c2 = c1) as ->.
      { apply wipe_sid_none. intros j t Ht. apply Hlive1 in Ht. by eapply Hcase. }
      split_and!; [done|done|by rewrite Hat1|]. intros j x. rewrite Hlive1. split; [|tauto].
      intros Hx. split; [|done]. intros ->. rewrite (live_sess_at _ _ _ Hx) in Hdead. destruct Hx. congruence. }
  assert (ip4_u32 (u32_ip4 ipu) = ipu) as Hback by (rewrite <- (app_nil_r (u32_ip4 ipu)); apply ip4_u32_put; lia).
  assert (ctx_ok (install c2 slot s)) as Hok3.
  { apply ctx_ok_install; [done|done|done|done| |].
    - split; cbn; [split; [apply u32_ip4_ok|done]| |by rewrite Hback|done|apply take8_key|apply Ha|done|done|apply Ha].
      rewrite Hback. destruct Hcfg2 as (_ & _ & -> & -> & _). done.
    - intros j t Ht. apply Hlive2 in Ht as [Hne Ht]. cbn. destruct Hslot as [(t0 & Ht0 & Hu)|[Hdead Hnone]].
      + rewrite (live_sess_at _ _ _ Ht0) in Hcase. pose proof Ht0 as [_ Hv]. rewrite Hv in Hcase.
        destruct Hcase as [_ ->]. split; intros E; apply Hne.
        * by eapply (live_sid_inj c).
        * eapply (ok_users c Hok); [exact Ht|exact Ht0|congruence].
      + rewrite Hdead in Hcase. split; [by eapply Hcase|by eapply Hnone]. }
  assert (live (install c2 slot s) slot s) as Hself.
  { split; [|done]. unfold install. rewrite sess_set_map, sess_set_sess. apply list_lookup_insert_eq.
    rewrite (ok_len c2 Hok2). exact Hlt. }
  assert (forall j t, j <> slot -> live c j t <-> live (install c2 slot s) j t) as Hoth.
  { intros j t Hne. unfold live at 2, install. rewrite sess_set_map, sess_set_sess, list_lookup_insert_ne by done.
    fold (live c2 j t). rewrite Hlive2. tauto. }
  exists slot, s, b. split_and!; [|done| |change (ip s) with (u32_ip4 ipu); rewrite Hback; exact Hb|done].
  - split; [exact Es|exact Hself|reflexivity|reflexivity|reflexivity|reflexivity|reflexivity|split_and!; reflexivity|exact Hoth| |].
    + intros t Ht. rewrite (live_sess_at _ _ _ Ht) in Hcase, Eg. pose proof Ht as [_ Hv]. rewrite Hv in Hcase, Eg.
      destruct Hcase as [Hi Hsid]. pose proof (ok_live c Hok _ _ Ht) as Hlo. destruct (lo_ip c t Hlo) as [Hi1 Hi2].
      destruct Hslot as [(t0 & Ht0 & Hu)|[Hdead _]].
      2:{ rewrite (live_sess_at _ _ _ Ht) in Hdead. congruence. }
      rewrite (live_det _ _ _ _ Ht Ht0). split_and!; [done| |by rewrite <- (live_det _ _ _ _ Ht Ht0)|].
      * rewrite <- (live_det _ _ _ _ Ht Ht0). unfold s. cbn [ip]. rewrite Hi. symmetry. by apply u32_ip4_ip4.
      * rewrite <- (live_det _ _ _ _ Ht Ht0). lia.
    + intros Hno j t Ht. destruct Hslot as [(t0 & Ht0 & _)|[_ Hnone]]; [by destruct (Hno t0)|by eapply Hnone].
  - etransitivity; [exact Hcfg2|]. unfold install.
    etransitivity; [apply same_cfg_set_sess|apply same_cfg_set_map].
Qed.

End OpenFacts.

(** ** The whole handler *)

Section OpenMain.
Context `{OpenSSLLaws}.

(** The frame is a signed, well-formed OPEN of a listed user with the right
    password ciphertext. *)
Record open_accepts (users : list server_user) (raw : bytes) (a : open_ctx) (pw : bytes) : Prop := {
  oa_len : IWAN_CTRL_LEN <= zlen raw;
  oa_sig : verify_sig raw = Ret true;
  oa_tlvs : parse_tlvs (slice raw 24 (zlen raw - 24)) open_tlv open_ctx0 = Ret (a, 0);
  oa_short : oc_user_too_long a = false;
  oa_av : oc_have_av a = true;
  oa_pass : find_pass users (oc_user a) = Some pw;
  oa_ct : (encrypt_password pw (oc_user a)).2 = oc_ct a
}.

Lemma open_reject_ok p why : exists b, open_reject p why = Ret [Send p b] /\ b.[0] = PT_OPEN_REJECT.
Proof.
  unfold open_reject, send_reject. rewrite ctrl_hdr_ok. cbn [rbind].
  set (m := if zlen why >? _ then _ else _). unfold tlv_put.
  assert (0 <= m <= IWAN_TLV_VLEN_MAX /\ m <= zlen why) as [Hm Hm'].
  { unfold m, IWAN_TLV_VLEN_MAX. pose proof (zlen_nonneg why). destruct (zlen why >? 253) eqn:?; lia. }
  destruct (m >? _) eqn:E; [lia|]. rewrite rdn_ok by lia. cbn [rbind]. eexists. split; [done|done].
Qed.

Lemma handle_open_accept c users raw p io a pw :
  bytes_ok raw -> open_accepts users raw a pw ->
  handle_open c users raw p io = open_session c p io a pw /\ oc_ok a.
Proof.
  intros Hraw [Hl Hs Ht Hsh Hav Hp Hct]. unfold IWAN_CTRL_LEN, IWAN_HDR_LEN, IWAN_SIG_LEN in *. split.
  - unfold handle_open, IWAN_CTRL_LEN, IWAN_HDR_LEN, IWAN_SIG_LEN. change (8 + 16) with 24 in *.
    destruct (zlen raw <? 24) eqn:E; [lia|]. rewrite Hs. cbn [rbind negb].
    rewrite rdn_ok by lia. cbn [rbind]. rewrite Ht. cbn [rbind]. change (0 =? 0) with true. cbn [negb].
    rewrite Hsh, Hav, Hp. cbn [negb]. destruct (encrypt_password pw (oc_user a)) as [rc e] eqn:Ee.
    cbn [snd] in Hct. by rewrite Hct, beq_refl.
  - destruct (open_parse_ok (slice raw 24 (zlen raw - 24))) as (a' & rc & Ha & Hok); [by apply bytes_ok_slice|].
    congruence.
Qed.

Lemma handle_open_cases c users raw p io :
  bytes_ok raw ->
  (exists a pw, open_accepts users raw a pw) \/
  (handle_open c users raw p io = Ret (c, [])) \/
  (exists b, handle_open c users raw p io = Ret (c, [Send p b]) /\ b.[0] = PT_OPEN_REJECT).
Proof.
  intros Hraw. unfold handle_open.
  assert (forall why, exists b, (let! o := open_reject p why in Ret (c, o)) = Ret (c, [Send p b]) /\
            b.[0] = PT_OPEN_REJECT) as Hrej.
  { intros why. destruct (open_reject_ok p why) as (b & -> & Hb). by exists b. }
  destruct (zlen raw <? IWAN_CTRL_LEN) eqn:El; [by right; left|].
  rewrite verify_sig_spec, El. cbn [rbind].
  destruct (beq _ _) eqn:Esig; [|by right; left]. cbn [negb].
  unfold IWAN_CTRL_LEN, IWAN_HDR_LEN, IWAN_SIG_LEN in *. change (8 + 16) with 24 in *.
  rewrite rdn_ok by lia. cbn [rbind].
  destruct (open_parse_ok (slice raw 24 (zlen raw - 24))) as (a & rc & Ea & Hoc); [by apply bytes_ok_slice|].
  rewrite Ea. cbn [rbind]. destruct (rc =? 0) eqn:Erc; cbn [negb]; [|right; right; apply Hrej].
  apply Z.eqb_eq in Erc as ->.
  destruct (oc_user_too_long a) eqn:Esh; [right; right; apply Hrej|].
  destruct (oc_have_av a) eqn:Eav; cbn [negb]; [|right; right; apply Hrej].
  destruct (find_pass users (oc_user a)) as [pw|] eqn:Ep; [|right; right; apply Hrej].
  destruct (encrypt_password pw (oc_user a)) as [st ex] eqn:Ee.
  destruct (beq ex (oc_ct a)) eqn:Eb; cbn [negb]; [|right; right; apply Hrej].
  left. exists a, pw. apply beq_true in Eb. split; try done.
  - unfold IWAN_CTRL_LEN, IWAN_HDR_LEN, IWAN_SIG_LEN. lia.
  - rewrite verify_sig_spec. unfold IWAN_CTRL_LEN, IWAN_HDR_LEN, IWAN_SIG_LEN. change (8 + 16) with 24.
    by rewrite El, Esig.
  - by rewrite Ee.
Qed.

Lemma handle_open_inv c users raw p io c' o :
  ctx_ok c -> bytes_ok raw -> handle_open c users raw p io = Ret (c', o) ->
  (c' = c /\ (o = [] \/ exists b, o = [Send p b] /\ b.[0] = PT_OPEN_REJECT)) \/
  (exists a pw slot s b, open_accepts users raw a pw /\ oc_ok a /\ installed c c' p io a pw slot s /\
     ctx_ok c' /\ same_cfg c c' /\
     open_ack c' a (sid s) (token s) (ip4_u32 (ip s)) = Ret b /\ o = [Send p b]).
Proof.
  intros Hok Hraw E. destruct (handle_open_cases c users raw p io Hraw) as [(a & pw & Ha)|[E'|(b & E' & Hb)]].
  - destruct (handle_open_accept c users raw p io a pw Hraw Ha) as [E' Hoc]. rewrite E' in E.
    destruct (open_session_cases c p io a pw c' o Hok Hoc E) as [(-> & why & Hwhy)|(slot & s & b & Hin & Hr)].
    + left. split; [done|]. right. destruct (open_reject_ok p why) as (b & Hb & Hb0). exists b.
      rewrite Hb in Hwhy. apply ret_inj in Hwhy as <-. done.
    + right. exists a, pw, slot, s, b. destruct Hr as (? & ? & ? & ?). split_and!; done.
  - rewrite E' in E. apply ret_pair_inv in E as [<- <-]. left. auto.
  - rewrite E' in E. apply ret_pair_inv in E as [<- <-]. left. eauto.
Qed.

Lemma ctx_ok_handle_open c users raw p io c' o :
  ctx_ok c -> bytes_ok raw -> handle_open c users raw p io = Ret (c', o) -> ctx_ok c' /\ same_cfg c c'.
Proof.
  intros Hok Hraw E. destruct (handle_open_inv _ _ _ _ _ _ _ Hok Hraw E) as [(-> & _)|(a & pw & slot & s & b & H')];
    [done|]. by destruct H' as (_ & _ & _ & ? & ? & _).
Qed.

(** The acknowledgement as bytes. *)
Definition ack_tlvs (c : server_ctx) (a : open_ctx) (ipu : Z) : list tlv :=
  [(T_MTU, put16 (clamp_mtu (oc_mtu a))); (T_IP, u32_ip4 ipu); (T_GATEWAY, server_ip c); (T_DNS, dns c);
   (T_ENCRYPT, [oc_enc a]); (T_AUTH_VERIFY, put32 (oc_nonce a))].

Lemma ack_tlvs_ok c a ipu : cfg_ok c -> oc_ok a -> Forall tlv_ok (ack_tlvs c a ipu).
Proof.
  intros Hc Ha. destruct (cf_server c Hc) as [Hs1 Hs2]. destruct (cf_dns c Hc) as [Hd1 Hd2].
  assert (forall t v, is_byte t -> bytes_ok v -> zlen v <= IWAN_TLV_VLEN_MAX -> tlv_ok (t, v)) as Hk by done.
  assert (bytes_ok [oc_enc a]) as He.
  { apply Forall_cons; split; [|constructor]. destruct (ao_enc a Ha) as [-> | ->]; done. }
  unfold ack_tlvs. repeat (apply Forall_cons; split); [..|constructor];
    (apply Hk; [done|first [done|apply put16_ok|apply put32_ok|apply u32_ip4_ok]|rewrite ?Hs2, ?Hd2; done]).
Qed.

Lemma open_ack_ok c a sd tok ipu :
  cfg_ok c -> oc_ok a ->
  open_ack c a sd tok ipu =
  Ret (pkt_hdr PT_OPEN_ACK (oc_enc a) sd tok ++ md5 (pkt_hdr PT_OPEN_ACK (oc_enc a) sd tok ++ IWAN_MW) ++
       tlvs_enc (ack_tlvs c a ipu)).
Proof.
  intros Hc Ha. pose proof (ack_tlvs_ok c a ipu Hc Ha) as Hok. unfold ack_tlvs in Hok.
  repeat (apply Forall_cons in Hok as [? Hok]). destruct (cf_server c Hc) as [_ Hs]. destruct (cf_dns c Hc) as [_ Hd].
  unfold open_ack. rewrite ctrl_hdr_ok. cbn [rbind].
  rewrite (tlv_put_ok _ T_MTU (put16 _)) by done. cbn [rbind].
  rewrite (tlv_put_ok _ T_IP (u32_ip4 ipu)) by done. cbn [rbind].
  rewrite <- Hs at 1. rewrite (tlv_put_ok _ T_GATEWAY) by done. cbn [rbind].
  rewrite <- Hd at 1. rewrite (tlv_put_ok _ T_DNS) by done. cbn [rbind].
  rewrite (tlv_put_ok _ T_ENCRYPT [oc_enc a]) by done. cbn [rbind].
  rewrite (tlv_put_ok _ T_AUTH_VERIFY (put32 _)) by done.
  f_equal. unfold ack_tlvs, tlvs_enc. cbn [map concat]. rewrite app_nil_r, !app_assoc. done.
Qed.

Lemma mint_token_some l : Exists (fun t => u32 t <> 0) l -> exists t, mint_token l = Ret t.
Proof.
  induction l as [|x l IH]; intros Hl; [by inversion Hl|]. cbn [mint_token].
  destruct (u32 x =? 0) eqn:E; [|by eexists]. inversion Hl; subst; [lia|]. by apply IH.
Qed.

Lemma open_session_total c p io a pw :
  ctx_ok c -> oc_ok a -> Exists (fun t => u32 t <> 0) (rands io) -> no_fault (open_session c p io a pw).
Proof.
  intros Hok Ha Hr. unfold open_session.
  assert (forall why, no_fault (let! o := open_reject p why in Ret (c, o))) as Hrej.
  { intros why. destruct (open_reject_ok p why) as (b & -> & _). by eexists. }
  destruct (pick_slot c (oc_user a)) as [slot|]; [|apply Hrej].
  destruct (_ && _ && _); [apply Hrej|].
  destruct (choose_addr c slot) as [[[ipu sd] c1]|] eqn:Ec; [|apply Hrej].
  destruct (mint_token_some _ Hr) as [tok Ht]. rewrite Ht. cbn [rbind].
  rewrite open_ack_ok; [by eexists| |done].
  destruct (choose_addr_spec c slot ipu sd c1 Hok Ec) as (Hok1 & Hcfg & _).
  assert (forall l c0, cfg_ok c0 -> cfg_ok (fold_left (wipe_sid sd) l c0)) as Hfold.
  { induction l as [|i l IH]; intros c0 Hc0; cbn [fold_left]; [done|]. apply IH. unfold wipe_sid.
    destruct (_ && _); [|done]. eapply cfg_ok_same; [apply same_cfg_wipe| |done].
    unfold sess_wipe. destruct (negb _); [done|]. destruct (sess_at c0 i). by rewrite next_set_map, next_set_sess. }
  unfold install. eapply cfg_ok_same; [etransitivity; [apply same_cfg_set_sess|apply same_cfg_set_map]
    |by rewrite next_set_map, next_set_sess|]. apply Hfold, Hok1.
Qed.

End OpenMain.

(** ** Availability of addresses *)

(** The address the probe looks at after [i] steps from offset [d] of the pool. *)
Definition pool_addr (c : server_ctx) (d i : Z) : Z := ip_base c + (d + i) mod (ip_end c - ip_base c + 1).

Lemma probe_loop_none c : ctx_ok c -> forall k d,
  0 <= d <= ip_end c - ip_base c + 1 -> probe_loop k c (ip_base c + d) = None ->
  forall i, 0 <= i < Z.of_nat k -> exists j t, live c j t /\ sid t = u16 (pool_addr c d i).
Proof.
  intros Hok. pose proof (cf_pool c (ok_cfg c Hok)) as Hp.
  induction k as [|k IH]; intros d Hd Hn i Hi; [lia|]. cbn [probe_loop] in Hn.
  set (n := ip_end c - ip_base c + 1) in *.
  set (q := if ip_base c + d >? ip_end c then ip_base c else ip_base c + d) in Hn.
  assert (q = pool_addr c d 0) as Hq.
  { unfold q, pool_addr. fold n. rewrite Z.add_0_r. destruct (ip_base c + d >? ip_end c) eqn:E.
    - replace d with n by lia. rewrite Z.mod_same; lia.
    - rewrite Z.mod_small; lia. }
  destruct (find_session_unlocked c (u16 q)) as [j|] eqn:Ef; [|done].
  destruct (decide (i = 0)) as [->|].
  - apply find_session_Some in Ef as (t & Ht & Es); [|done]. exists j, t. by rewrite <- Hq.
  - assert (pool_addr c d 0 = ip_base c + d mod n) as Hp0 by (unfold pool_addr; fold n; by rewrite Z.add_0_r).
    assert (0 <= d mod n < n) by (apply Z.mod_pos_bound; lia).
    rewrite Hq, Hp0, u32_small in Hn by lia.
    replace (ip_base c + d mod n + 1) with (ip_base c + (d mod n + 1)) in Hn by lia.
    destruct (IH (d mod n + 1) ltac:(lia) Hn (i - 1) ltac:(lia)) as (j' & t & Ht & Es).
    exists j', t. split; [done|]. rewrite Es. f_equal. unfold pool_addr. fold n. f_equal.
    replace (d mod n + 1 + (i - 1)) with (d mod n + i) by lia. by rewrite Zplus_mod_idemp_l.
Qed.

(** With a free slot and at least 256 addresses in the pool, one is found. *)
Lemma probe_loop_found c slot :
  ctx_ok c -> (slot < 256)%nat -> valid (sess_at c slot) = false ->
  256 <= ip_end c - ip_base c + 1 <= 65536 ->
  exists a, probe_loop (Z.to_nat (ip_end c - ip_base c + 1)) c (next_ip c) = Some a.
Proof.
  intros Hok Hslot Hdead Hpool. pose proof (cf_pool c (ok_cfg c Hok)) as Hp.
  destruct (probe_loop _ c (next_ip c)) as [a|] eqn:E; [by exists a|]. exfalso.
  set (d := next_ip c - ip_base c). replace (next_ip c) with (ip_base c + d) in E by (unfold d; lia).
  pose proof (probe_loop_none c Hok _ d ltac:(unfold d; lia) E) as Hall.
  set (slotof := fun i : nat => find_session_unlocked c (u16 (pool_addr c d (Z.of_nat i)))).
  assert (forall i, (i < 256)%nat -> exists j t, slotof i = Some j /\ live c j t /\ sid t = u16 (pool_addr c d (Z.of_nat i))) as Hs.
  { intros i Hi. destruct (Hall (Z.of_nat i)) as (j & t & Ht & Et); [lia|]. exists j, t. split_and!; [|done|done].
    apply find_session_Some; [done|]. by exists t. }
  set (js := map (fun i => default 256%nat (slotof i)) (seq 0 256)).
  assert (List.NoDup js) as Hnd.
  { apply Finite.Injective_map_NoDup_in; [|apply seq_NoDup].
    intros x y Hx Hy Exy. apply in_seq in Hx, Hy.
    destruct (Hs x) as (j & t & Ej & Ht & Et); [lia|]. destruct (Hs y) as (j' & t' & Ej' & Ht' & Et'); [lia|].
    rewrite Ej, Ej' in Exy. cbn in Exy. subst j'. rewrite (live_det c j t' t) in Et' by done.
    rewrite Et in Et'. unfold pool_addr, u16 in Et'. set (n := ip_end c - ip_base c + 1) in *.
    assert (0 <= (d + Z.of_nat x) mod n < n /\ 0 <= (d + Z.of_nat y) mod n < n) as [? ?]
      by (split; apply Z.mod_pos_bound; lia).
    assert ((d + Z.of_nat x) mod n = (d + Z.of_nat y) mod n) as En by lia.
    assert (0 <= d < n) by (unfold d, n; lia).
    pose proof (Z.div_mod (d + Z.of_nat x) n ltac:(lia)) as D1. pose proof (Z.div_mod (d + Z.of_nat y) n ltac:(lia)) as D2.
    rewrite En in D1. assert (n * ((d + Z.of_nat x) / n - (d + Z.of_nat y) / n) = Z.of_nat x - Z.of_nat y) as D3 by lia.
    assert ((d + Z.of_nat x) / n - (d + Z.of_nat y) / n = 0) by nia. lia. }
  assert (incl js (remove Nat.eq_dec slot (seq 0 256))) as Hincl.
  { intros j Hj. apply in_map_iff in Hj as (i & <- & Hi). apply in_seq in Hi.
    destruct (Hs i) as (j & t & -> & Ht & _); [lia|]. cbn [default from_option id].
    apply in_in_remove; [|apply in_seq; pose proof (live_lt c j t Hok Ht); lia].
    intros ->. rewrite (live_sess_at _ _ _ Ht) in Hdead. destruct Ht. congruence. }
  pose proof (List.NoDup_incl_length Hnd Hincl) as Hlen. unfold js in Hlen. rewrite length_map, length_seq in Hlen.
  pose proof (remove_length_lt Nat.eq_dec (seq 0 256) slot ltac:(apply in_seq; lia)) as Hr.
  rewrite length_seq in Hr. lia.
Qed.

Section Available.
Context `{OpenSSLLaws}.

(** The accepting path, step by step. *)
Lemma open_session_run c p io a pw slot ipu sd c1 tok :
  pick_slot c (oc_user a) = Some slot ->
  (forall t, live c slot t -> s_addr (peer t) = s_addr p \/ IDLE_TIMEOUT_MS < u64 (now_guard io - last_active_ms t)) ->
  choose_addr c slot = Some (ipu, sd, c1) -> mint_token (rands io) = Ret tok ->
  exists c2, open_session c p io a pw = rbind (open_ack c2 a sd tok ipu) (fun b => Ret (c2, [Send p b])).
Proof.
  intros Hs Hg Hc Ht. unfold open_session. rewrite Hs, Hc, Ht. cbn [rbind].
  assert (valid (sess_at c slot) && negb (s_addr (peer (sess_at c slot)) =? s_addr p) &&
    (u64 (now_guard io - last_active_ms (sess_at c slot)) <=? IDLE_TIMEOUT_MS) = false) as ->; [|by eexists].
  destruct (valid (sess_at c slot)) eqn:Ev; [|done].
  assert (live c slot (sess_at c slot)) as Hl.
  { unfold sess_at in *. destruct (sess c !! slot) eqn:E; [by split|]. by cbn in Ev. }
  specialize (Hg _ Hl). lia.
Qed.

Lemma choose_addr_found c slot :
  ctx_ok c -> (slot < 256)%nat -> 256 <= ip_end c - ip_base c + 1 <= 65536 -> is_Some (choose_addr c slot).
Proof.
  intros Hok Hlt Hpool. unfold choose_addr. destruct (valid (sess_at c slot)) eqn:Hd; [by eexists|].
  pose proof (cf_pool c (ok_cfg c Hok)) as Hp. rewrite u32_small by lia.
  destruct (ip_end c - ip_base c + 1 >? 65536) eqn:E6; [lia|].
  destruct (probe_loop_found c slot Hok Hlt Hd Hpool) as [x ->]. by eexists.
Qed.

Lemma open_session_available c p io a pw slot :
  ctx_ok c -> oc_ok a -> pick_slot c (oc_user a) = Some slot ->
  256 <= ip_end c - ip_base c + 1 <= 65536 ->
  (forall t, live c slot t -> s_addr (peer t) = s_addr p \/ IDLE_TIMEOUT_MS < u64 (now_guard io - last_active_ms t)) ->
  Exists (fun t => u32 t <> 0) (rands io) ->
  exists c' s b, open_session c p io a pw = Ret (c', [Send p b]) /\ installed c c' p io a pw slot s /\
    ctx_ok c' /\ same_cfg c c' /\ open_ack c' a (sid s) (token s) (ip4_u32 (ip s)) = Ret b.
Proof.
  intros Hok Ha Hs Hpool Hg Hr. destruct (open_session_total c p io a pw Hok Ha Hr) as [[c' o] E].
  destruct (pick_slot_spec c (oc_user a) slot Hok Hs) as [Hlt Hslot].
  destruct (choose_addr_found c slot Hok Hlt Hpool) as [[[ipu sd] c1] Ec].
  destruct (mint_token_some _ Hr) as [tok Ht].
  destruct (open_session_run c p io a pw slot ipu sd c1 tok Hs Hg Ec Ht) as [c2 E0]. rewrite E in E0. symmetry in E0.
  apply rbind_ret_inv in E0 as (b & Hb & E0). apply ret_pair_inv in E0 as [E1 E2].
  destruct (open_session_cases c p io a pw c' o Hok Ha E) as [(Ecc & why & Hw)|(slot' & s & b' & Hin & Hok' & Hcfg & Hack & Ho)].
  - exfalso. destruct (open_reject_ok p why) as (rb & Hrb & Hrb0). rewrite Hrb in Hw. apply ret_inj in Hw.
    rewrite <- Hw in E2. injection E2 as E2. rewrite <- E2 in Hrb0.
    rewrite open_ack_ok in Hb; [|rewrite E1, Ecc; apply Hok|done].
    apply ret_inj in Hb. rewrite <- Hb in Hrb0. discriminate.
  - pose proof (in_pick _ _ _ _ _ _ _ _ Hin) as Hs'. rewrite Hs in Hs'. injection Hs' as <-.
    rewrite Ho in E. exists c', s, b'. split_and!; [exact E|exact Hin|exact Hok'|exact Hcfg|exact Hack].
Qed.

End Available.

(** A small concrete server, to run the handlers on. *)
Module Demo.

Definition ssl : OpenSSL := Toy.toy_openssl.
Definition laws : @OpenSSLLaws ssl := Toy.toy_laws.
#[global] Existing Instances ssl laws | 100.

Definition users : list server_user := [mk_user (lit "alice") (lit "secret"); mk_user (lit "bob") (lit "hunter2")].

Definition ctx0 : server_ctx :=
  default (mk_ctx [] ∅ [] [] 0 0 0 0 0 false 0 false)
    (server_setup [198; 18; 0; 1] [114; 114; 114; 114] (lit "198.18.0.0/16") 3 false).

Definition open_frame (u pw : bytes) (nonce : Z) : bytes :=
  let h := pkt_hdr PT_OPEN 0 0 0 in
  h ++ md5 (h ++ IWAN_MW) ++
  tlvs_enc [(T_USERNAME, u); (T_PASSWORD, (encrypt_password pw u).2); (T_AUTH_VERIFY, put32 nonce)].

Definition alice : sockaddr_in := mk_addr 16777226 4000.
Definition mallory : sockaddr_in := mk_addr 33554442 5000.
Definition io1 : open_io := mk_open_io 1000 1001 [0; 305419896].
Definition io2 : open_io := mk_open_io 2000 2001 [7].

(** The table once alice has connected. *)
Definition opened : server_ctx :=
  match handle_open ctx0 users (open_frame (lit "alice") (lit "secret") 99) alice io1 with
  | Ret (c, _) => c
  | Fault _ => ctx0
  end.

Definition session1 : server_session := sess_at opened 0.

Lemma ctx0_ok : ctx_ok ctx0.
Proof.
  eapply (ctx_ok_setup [198; 18; 0; 1] [114; 114; 114; 114] (lit "198.18.0.0/16") 3 false);
    try (by apply (bool_decide_unpack _); vm_compute). vm_compute. reflexivity.
Qed.

Lemma frame_ok u pw n : bytes_ok u -> bytes_ok pw -> zlen u <= 253 -> bytes_ok (open_frame u pw n).
Proof.
  intros. unfold open_frame. bok. unfold tlvs_enc, tlv_enc. cbn [map concat fst snd]. bok.
  all: rewrite ?encrypt_password_len; pose proof (zlen_nonneg u); (done || (unfold is_byte; lia)).
Qed.

Lemma alice_ok n : bytes_ok (open_frame (lit "alice") (lit "secret") n).
Proof. apply frame_ok; (by apply (bool_decide_unpack _); vm_compute) || done. Qed.

Lemma opened_run :
  exists o, handle_open ctx0 users (open_frame (lit "alice") (lit "secret") 99) alice io1 = Ret (opened, o).
Proof. eexists. vm_compute. reflexivity. Qed.

Lemma opened_ok : ctx_ok opened.
Proof.
  destruct opened_run as [o Ho].
  exact (proj1 (ctx_ok_handle_open ctx0 users _ alice io1 opened o ctx0_ok (alice_ok 99) Ho)).
Qed.

Lemma session1_live : live opened 0 session1.
Proof. split; vm_compute; reflexivity. Qed.

(** What the server reads in alice's frame. *)
Definition alice_open (n : Z) : open_ctx :=
  mk_open (lit "alice") (encrypt_password (lit "secret") (lit "alice")).2 IWAN_DEFAULT_MTU 1 n true false.

Lemma alice_accepts : open_accepts users (open_frame (lit "alice") (lit "secret") 99) (alice_open 99) (lit "secret").
Proof. split; vm_compute; (reflexivity || discriminate). Qed.

Lemma ctx0_facts :
  pick_slot ctx0 (oc_user (alice_open 99)) = Some 0%nat /\ 256 <= ip_end ctx0 - ip_base ctx0 + 1 <= 65536 /\
  valid (sess_at ctx0 0) = false.
Proof. vm_compute. repeat split; discriminate. Qed.

(** While alice is active, the same credentials from elsewhere are refused. *)
Lemma takeover_run :
  exists o, handle_open opened users (open_frame (lit "alice") (lit "secret") 5) mallory io2 = Ret (opened, o).
Proof. eexists. vm_compute. reflexivity. Qed.

#[global] Opaque ctx0 opened session1.

End Demo.

Lemma handle_open_returns `{OpenSSLLaws} c users raw p io :
  ctx_ok c -> bytes_ok raw -> Exists (fun t => u32 t <> 0) (rands io) ->
  no_fault (handle_open c users raw p io).
Proof.
  intros Hok Hraw Hr. destruct (handle_open_cases c users raw p io Hraw) as [(a & pw & Ha)|[->|(b & -> & _)]].
  - destruct (handle_open_accept c users raw p io a pw Hraw Ha) as [-> Hoc]. by apply open_session_total.
  - by eexists.
  - by eexists.
Qed.

(** ** Main theorems *)

(** C3: only an authenticated OPEN changes the session table.  Whatever datagram
    arrives, the handler either leaves the table as it is and sends nothing or an
    OPEN_REJECT, or the frame carried a valid signature, well-formed TLVs, a nonce,
    a listed user name and the ciphertext of that user's password; then exactly one
    slot changes, to a session bound to the sender with that user's key, a non-zero
    token and an address of the pool, the table stays well formed, and the
    OPEN_ACK sent to the same peer announces that session. *)
Theorem open_authenticates `{OpenSSLLaws} c users raw p io c' o :
  ctx_ok c -> bytes_ok raw -> handle_open c users raw p io = Ret (c', o) ->
  (c' = c /\ (o = [] \/ exists b, o = [Send p b] /\ b.[0] = PT_OPEN_REJECT)) \/
  (exists a pw slot s, open_accepts users raw a pw /\ installed c c' p io a pw slot s /\
     ctx_ok c' /\ 0 < token s < 2 ^ 32 /\ ip_base c <= ip4_u32 (ip s) <= ip_end c /\
     o = [Send p (pkt_hdr PT_OPEN_ACK (enc s) (sid s) (token s) ++
                  md5 (pkt_hdr PT_OPEN_ACK (enc s) (sid s) (token s) ++ IWAN_MW) ++
                  tlvs_enc (ack_tlvs c a (ip4_u32 (ip s))))]).
Proof.
  intros Hok Hraw E.
  destruct (handle_open_inv _ _ _ _ _ _ _ Hok Hraw E) as [Hl|(a & pw & slot & s & b & Ha & Hoc & Hin & Hok' & Hcfg & Hack & Ho)];
    [by left|]. right. exists a, pw, slot, s.
  pose proof (ok_live c' Hok' slot s (in_live _ _ _ _ _ _ _ _ Hin)) as Hlo.
  destruct Hcfg as (Hs & Hd & Hb & He & _).
  rewrite open_ack_ok in Hack; [|apply Hok'|done]. apply ret_inj in Hack as <-.
  rewrite (in_enc _ _ _ _ _ _ _ _ Hin). unfold ack_tlvs in *. rewrite Hs, Hd in Ho. rewrite <- Hb, <- He.
  split_and!; try done; apply Hlo.
Qed.

Lemma open_authenticates_witness :
  exists a pw slot s, open_accepts Demo.users (Demo.open_frame (lit "alice") (lit "secret") 99) a pw /\
    installed Demo.ctx0 Demo.opened Demo.alice Demo.io1 a pw slot s.
Proof.
  destruct Demo.opened_run as [o Ho].
  destruct (open_authenticates Demo.ctx0 Demo.users (Demo.open_frame (lit "alice") (lit "secret") 99)
    Demo.alice Demo.io1 Demo.opened o Demo.ctx0_ok) as [[Hc _]|(a & pw & slot & s & H1 & H2 & _)].
  - apply Demo.alice_ok.
  - exact Ho.
  - exfalso. assert (valid (sess_at Demo.opened 0) = valid (sess_at Demo.ctx0 0)) as E by by rewrite Hc.
    vm_compute in E. discriminate.
  - exists a, pw, slot, s. split; [exact H1|exact H2].
Defined.

(** C24: no OPEN can push out another client's session.  For every live session, after
    any OPEN frame from anyone either it is still there unchanged, or the frame
    authenticated as that session's own user and came from the same address or the
    session had been idle longer than the timeout. *)
Theorem open_takeover_guarded `{OpenSSLLaws} c users raw p io c' o i t :
  ctx_ok c -> bytes_ok raw -> handle_open c users raw p io = Ret (c', o) -> live c i t ->
  live c' i t \/
  (exists a pw, open_accepts users raw a pw /\ oc_user a = user t /\
     (s_addr (peer t) = s_addr p \/ IDLE_TIMEOUT_MS < u64 (now_guard io - last_active_ms t)) /\
     exists s, live c' i s /\ ip s = ip t /\ sid s = sid t /\ peer s = p).
Proof.
  intros Hok Hraw E Hl.
  destruct (handle_open_inv _ _ _ _ _ _ _ Hok Hraw E) as [[-> _]|(a & pw & slot & s & b & Ha & Hoc & Hin & Hr)];
    [by left|]. destruct (decide (i = slot)) as [->|Hne].
  - right. exists a, pw. destruct (in_guard _ _ _ _ _ _ _ _ Hin t Hl) as (Hu & Hip & Hsid & Hg).
    split_and!; [done|done|done|]. exists s. split_and!; [apply Hin|done|done|apply Hin].
  - left. by apply (in_others _ _ _ _ _ _ _ _ Hin).
Qed.

Lemma open_takeover_guarded_witness :
  exists o, handle_open Demo.opened Demo.users (Demo.open_frame (lit "alice") (lit "secret") 5) Demo.mallory Demo.io2
            = Ret (Demo.opened, o) /\ live Demo.opened 0 Demo.session1.
Proof.
  destruct Demo.takeover_run as [o Ho]. exists o. split; [exact Ho|].
  destruct (open_takeover_guarded Demo.opened Demo.users (Demo.open_frame (lit "alice") (lit "secret") 5) Demo.mallory
    Demo.io2 Demo.opened o 0 Demo.session1 Demo.opened_ok (Demo.alice_ok 5) Ho Demo.session1_live)
    as [Hl|_]; [exact Hl|exact Demo.session1_live].
Defined.

(** a legitimate client gets in.  For a well-formed table over a pool of 256 to
    65536 addresses, an authenticated OPEN is answered with an OPEN_ACK and a fresh
    session whenever the user has a slot (its own, or any free one) and, if it
    already has a session, the request comes from the same address or that session
    idled out; the forward probe never fails to find an address. *)
Theorem open_available `{OpenSSLLaws} c users raw p io a pw slot :
  ctx_ok c -> bytes_ok raw -> open_accepts users raw a pw ->
  pick_slot c (oc_user a) = Some slot ->
  256 <= ip_end c - ip_base c + 1 <= 65536 ->
  (forall t, live c slot t -> s_addr (peer t) = s_addr p \/ IDLE_TIMEOUT_MS < u64 (now_guard io - last_active_ms t)) ->
  Exists (fun t => u32 t <> 0) (rands io) ->
  exists c' s b, handle_open c users raw p io = Ret (c', [Send p b]) /\ installed c c' p io a pw slot s.
Proof.
  intros Hok Hraw Ha Hs Hpool Hg Hr.
  destruct (handle_open_accept c users raw p io a pw Hraw Ha) as [-> Hoc].
  destruct (open_session_available c p io a pw slot Hok Hoc Hs Hpool Hg Hr) as (c' & s & b & E & Hin & _).
  by exists c', s, b.
Qed.

Lemma open_available_witness :
  exists c' s b, handle_open Demo.ctx0 Demo.users (Demo.open_frame (lit "alice") (lit "secret") 99) Demo.alice Demo.io1
    = Ret (c', [Send Demo.alice b]) /\ installed Demo.ctx0 c' Demo.alice Demo.io1 (Demo.alice_open 99) (lit "secret") 0 s.
Proof.
  destruct Demo.ctx0_facts as (H1 & H2 & H3).
  apply (open_available Demo.ctx0 Demo.users (Demo.open_frame (lit "alice") (lit "secret") 99) Demo.alice Demo.io1
    (Demo.alice_open 99) (lit "secret") 0 Demo.ctx0_ok (Demo.alice_ok 99) Demo.alice_accepts H1 H2).
  - intros t Ht. exfalso. rewrite (live_sess_at _ _ _ Ht) in H3. destruct Ht as [_ Hv]. congruence.
  - apply Exists_cons_tl, Exists_cons_hd. discriminate.
Defined.

(** the handler is total and memory safe.  On every datagram, of any length and
    content, over every well-formed table, it returns: no read outside the frame, no
    abort in [tlv_put], and the token loop ends as soon as the generator yields a
    non-zero word. *)
Theorem handle_open_total `{OpenSSLLaws} c users raw p io :
  ctx_ok c -> bytes_ok raw -> Exists (fun t => u32 t <> 0) (rands io) ->
  no_fault (handle_open c users raw p io).
Proof. apply handle_open_returns. Qed.

Lemma handle_open_total_witness :
  no_fault (handle_open Demo.ctx0 Demo.users (Demo.open_frame (lit "alice") (lit "secret") 99) Demo.alice Demo.io1).
Proof.
  apply handle_open_total; [exact Demo.ctx0_ok|apply Demo.alice_ok|].
  apply Exists_cons_tl, Exists_cons_hd. discriminate.
Defined.

(** An OPEN without a password TLV. *)
Definition bare_open `{OpenSSL} (u : bytes) (nonce : Z) : bytes :=
  let h := pkt_hdr PT_OPEN 0 0 0 in
  h ++ md5 (h ++ IWAN_MW) ++ tlvs_enc [(T_USERNAME, u); (T_AUTH_VERIFY, put32 nonce)].

Lemma tlvs_enc_bytes l : Forall tlv_ok l -> bytes_ok (tlvs_enc l).
Proof.
  unfold tlvs_enc. induction 1 as [|[t v] l (Ht & Hv & Hn) _ IH]; [constructor|]. cbn [map concat].
  apply bytes_ok_app; split; [|done]. unfold IWAN_TLV_VLEN_MAX in Hn. cbn [fst snd] in *. pose proof (zlen_nonneg v).
  unfold tlv_enc. cbn [fst snd]. apply Forall_cons; split; [done|]. apply Forall_cons; split; [unfold is_byte; lia|done].
Qed.

Lemma bare_tlvs_ok u nonce :
  cstr_ok u -> 0 < zlen u <= SERVER_USER_MAX -> Forall tlv_ok [(T_USERNAME, u); (T_AUTH_VERIFY, put32 nonce)].
Proof.
  intros Hu Hlu. unfold SERVER_USER_MAX in *. repeat constructor; cbn [fst snd]; try (done || apply put32_ok || by apply cstr_bytes_ok).
  all: unfold IWAN_TLV_VLEN_MAX; try (apply u8_range); zl; lia.
Qed.

(** With a failing cipher the frame passes every check of the handler. *)
Lemma bare_open_accepts `{OpenSSLLaws} users u pw nonce :
  cstr_ok u -> 0 < zlen u <= SERVER_USER_MAX -> 0 <= nonce < 2 ^ 32 ->
  find_pass users u = Some pw -> (encrypt_password pw u).1 = -1 ->
  open_accepts users (bare_open u nonce) (mk_open u (fill 0 16) IWAN_DEFAULT_MTU 1 nonce true false) pw.
Proof.
  intros Hu Hlu Hn Hp Hfail. unfold bare_open, SERVER_USER_MAX in *. set (h := pkt_hdr PT_OPEN 0 0 0).
  set (m := md5 (h ++ IWAN_MW)). set (l := [(T_USERNAME, u); (T_AUTH_VERIFY, put32 nonce)]).
  assert (zlen h = 8) as Hh by done. assert (zlen m = 16) as Hm by apply md5_len.
  pose proof (zlen_nonneg (tlvs_enc l)) as Hl0.
  assert (Forall tlv_ok l) as Hl by by apply bare_tlvs_ok.
  split; try done.
  - unfold IWAN_CTRL_LEN, IWAN_HDR_LEN, IWAN_SIG_LEN. zl. lia.
  - rewrite verify_sig_frame by done. unfold m. by rewrite beq_refl.
  - replace (slice (h ++ m ++ tlvs_enc l) 24 _) with (tlvs_enc l).
    2:{ rewrite app_assoc. rewrite <- (app_nil_r (tlvs_enc l)) at 2. rewrite slice_app_mid; [done|zlia|zlia]. }
    rewrite <- (app_nil_r (tlvs_enc l)). rewrite parse_tlvs_enc by (done || by left).
    unfold l. cbn [tlv_fold]. unfold open_tlv at 1. cbn [Z.eqb T_USERNAME Pos.eqb open_ctx0].
    destruct (zlen u >? 0) eqn:E; [|lia].
    assert ((if zlen u <? SERVER_USER_MAX then zlen u else SERVER_USER_MAX) = zlen u) as ->
      by (unfold SERVER_USER_MAX; destruct (zlen u <? 63) eqn:?; lia).
    rewrite rdn_ok, slice_all by lia. cbn [rbind]. rewrite cstr_cstr_ok by done.
    unfold SERVER_USER_MAX. destruct (zlen u >? 63) eqn:E2; [lia|].
    unfold open_tlv. cbn [Z.eqb T_AUTH_VERIFY T_USERNAME T_PASSWORD T_MTU T_ENCRYPT Pos.eqb].
    change (zlen (put32 nonce)) with 4. cbn [Z.eqb Pos.eqb rbind].
    rewrite !rd_ok by (change (zlen (put32 nonce)) with 4; lia). cbn [rbind tlv_result fst snd].
    change (be32 _ _ _ _) with (be32 (u8 (Z.shiftr nonce 24)) (u8 (Z.shiftr nonce 16)) (u8 (Z.shiftr nonce 8)) (u8 nonce)).
    by rewrite be32_put32.
  - cbn [oc_ct oc_user]. unfold encrypt_password in *. by destruct (EVP_aes_128_ecb _ _).
Qed.

Lemma bare_open_ok `{OpenSSLLaws} u nonce :
  cstr_ok u -> 0 < zlen u <= SERVER_USER_MAX -> bytes_ok (bare_open u nonce).
Proof.
  intros Hu Hl. unfold bare_open. rewrite !bytes_ok_app. split; [repeat constructor; apply u8_range|].
  split; [apply md5_bytes|]. by apply tlvs_enc_bytes, bare_tlvs_ok.
Qed.

(** C36: the OPEN handler ignores the status of [encrypt_password].  If the block
    cipher fails while the server derives the expected ciphertext, the expected
    value is sixteen zero bytes, which is also what an OPEN without a password TLV
    leaves in the request: for any listed user that may open a session (a slot of its
    own or a free one, a pool of 256 to 65536 addresses, no live session elsewhere),
    [handle_open] answers such a frame with an OPEN_ACK and installs a session of that
    user, bound to the sender. *)
Theorem aes_failure_accepts_no_password `{OpenSSLLaws} c users u pw nonce p io slot :
  ctx_ok c -> cstr_ok u -> 0 < zlen u <= SERVER_USER_MAX -> 0 <= nonce < 2 ^ 32 ->
  find_pass users u = Some pw -> (encrypt_password pw u).1 = -1 ->
  pick_slot c u = Some slot -> 256 <= ip_end c - ip_base c + 1 <= 65536 ->
  (forall t, live c slot t -> s_addr (peer t) = s_addr p \/ IDLE_TIMEOUT_MS < u64 (now_guard io - last_active_ms t)) ->
  Exists (fun t => u32 t <> 0) (rands io) ->
  exists c' s b, handle_open c users (bare_open u nonce) p io = Ret (c', [Send p b]) /\ b.[0] = PT_OPEN_ACK /\
    live c' slot s /\ user s = u /\ peer s = p /\ 0 < token s < 2 ^ 32.
Proof.
  intros Hok Hu Hlu Hn Hp Hfail Hs Hpool Hg Hr.
  pose proof (bare_open_accepts users u pw nonce Hu Hlu Hn Hp Hfail) as Ha.
  pose proof (bare_open_ok u nonce Hu Hlu) as Hraw.
  destruct (handle_open_accept c users _ p io _ pw Hraw Ha) as [-> Hoc].
  destruct (open_session_available c p io _ pw slot Hok Hoc Hs Hpool Hg Hr) as (c' & s & b & E & Hin & Hok' & _ & Hack).
  exists c', s, b. rewrite open_ack_ok in Hack by (apply Hok' || done). apply ret_inj in Hack as <-.
  split; [exact E|]. split; [done|].
  split_and!; [apply Hin|apply Hin|apply Hin|apply (ok_live c' Hok' slot s (in_live _ _ _ _ _ _ _ _ Hin))..].
Qed.

Lemma aes_failure_accepts_no_password_witness :
  exists c' s b, @handle_open Toy.broken_openssl Demo.ctx0 Demo.users (@bare_open Toy.broken_openssl (lit "alice") 7)
      Demo.mallory Demo.io1 = Ret (c', [Send Demo.mallory b]) /\ b.[0] = PT_OPEN_ACK /\
    live c' 0 s /\ user s = lit "alice" /\ peer s = Demo.mallory /\ 0 < token s < 2 ^ 32.
Proof.
  destruct Demo.ctx0_facts as (H1 & H2 & H3).
  apply (@aes_failure_accepts_no_password Toy.broken_openssl Toy.broken_laws Demo.ctx0 Demo.users (lit "alice")
    (lit "secret") 7 Demo.mallory Demo.io1 0 Demo.ctx0_ok);
    [by apply (bool_decide_unpack _); vm_compute|done|done|reflexivity|reflexivity|exact H1|exact H2|..].
  - intros t Ht. exfalso. rewrite (live_sess_at _ _ _ Ht) in H3. destruct Ht as [_ Hv]. congruence.
  - apply Exists_cons_tl, Exists_cons_hd. discriminate.
Defined.
