(* ===== verification/Echo.v ===== *)
(** * The --no-tun echo mirror (src/src/common/server.c)

    Per-connection mirror state and the packet rewriting.  The table update of
    [echo_lookup] and the counter update of [echo_seq_advance] are one transition:
    the code takes the lock twice, but the entry it got cannot be reclaimed in
    between (it was stamped with the current time). *)

From S2P Require Import Prelude Util Crypto Protocol Ipv4 Session.

Definition TCP_FIN : Z := 1.
Definition TCP_SYN : Z := 2.
Definition TCP_RST : Z := 4.
Definition TCP_ACK : Z := 16.
Definition ECHO_MAX_CONN : Z := 64.

Record echo_conn := mk_echo {
  af : Z;
  c_ip : Z;
  c6 : bytes;
  c_port : Z;
  t_ip : Z;
  t6 : bytes;
  t_port : Z;
  client_max : Z;
  emit_seq : Z;
  seeded : bool;
  last_ms : Z
}.

Definition echo0 : echo_conn := mk_echo 0 0 (fill 0 16) 0 0 (fill 0 16) 0 0 0 false 0.

Definition set_last (ec : echo_conn) (now : Z) : echo_conn :=
  let '(mk_echo a ci c6 cp ti t6 tp cm es sd _) := ec in mk_echo a ci c6 cp ti t6 tp cm es sd now.

(** The 4-tuple of a lookup: client address and port, target address and port. *)
Inductive echo_key :=
| K4 (c cport t tport : Z)
| K6 (c : bytes) (cport : Z) (t : bytes) (tport : Z).

#[global] Instance echo_key_eq_dec : EqDecision echo_key.
Proof. solve_decision. Defined.

Definition echo_match (ec : echo_conn) (k : echo_key) : bool :=
  match k with
  | K4 c cport t tport =>
      negb (last_ms ec =? 0) && (af ec =? 4) && (c_port ec =? cport) && (t_port ec =? tport) &&
      (c_ip ec =? c) && (t_ip ec =? t)
  | K6 c cport t tport =>
      negb (last_ms ec =? 0) && (af ec =? 6) && (c_port ec =? cport) && (t_port ec =? tport) &&
      beq (c6 ec) c && beq (t6 ec) t
  end.

(** A fresh entry over a free one. *)
Definition echo_claim (old : echo_conn) (k : echo_key) (now : Z) : echo_conn :=
  match k with
  | K4 c cport t tport => mk_echo 4 c (c6 old) cport t (t6 old) tport 0 0 false now
  | K6 c cport t tport => mk_echo 6 (c_ip old) c cport (t_ip old) t tport 0 0 false now
  end.

(** The scan from index [i]: the table with stamps and reclaimed entries, the entry
    found, and the last free one seen. *)
Fixpoint echo_scan (l : list echo_conn) (i : nat) (free : option nat) (k : echo_key) (now : Z)
    : list echo_conn * option nat * option nat :=
  match l with
  | [] => ([], None, free)
  | ec :: r =>
      if echo_match ec k then (set_last ec now :: r, Some i, free)
      else if last_ms ec =? 0 then
        let '(r', h, f) := echo_scan r (S i) (Some i) k now in (ec :: r', h, f)
      else if u64 (now - last_ms ec) >? 60000 then
        let '(r', h, f) := echo_scan r (S i) (Some i) k now in (set_last ec 0 :: r', h, f)
      else
        let '(r', h, f) := echo_scan r (S i) free k now in (ec :: r', h, f)
  end.

Definition echo_lookup (l : list echo_conn) (k : echo_key) (create : bool) (now : Z)
    : list echo_conn * option nat :=
  let '(l', h, f) := echo_scan l 0 None k now in
  match h with
  | Some i => (l', Some i)
  | None =>
      match f with
      | Some j =>
          if create then (<[j := echo_claim (default echo0 (l' !! j)) k now]> l', Some j) else (l', None)
      | None => (l', None)
      end
  end.

(** The counter step on one entry: the sequence number to use and the entry. *)
Definition echo_step (ec : echo_conn) (s_orig len : Z) : Z * echo_conn :=
  let '(mk_echo a ci c6 cp ti t6 tp cm es sd lm) := ec in
  let back := u32 (cm - s_orig) in
  if sd && negb (back =? 0) && (back <? 2147483648) then (u32 (es - back), ec)
  else (es, mk_echo a ci c6 cp ti t6 tp (u32 (s_orig + len)) (u32 (es + len)) true lm).

(** How much sequence space a segment takes. *)
Definition seg_len (flags paylen : Z) : Z :=
  let len := u32 paylen in
  if negb (Z.land flags (Z.lor TCP_SYN TCP_FIN) =? 0) then u32 (len + 1) else len.

Definition echo_seq_advance (l : list echo_conn) (k : echo_key) (flags s_orig paylen now : Z)
    : list echo_conn * option Z :=
  let (l', r) := echo_lookup l k (negb (Z.land flags TCP_SYN =? 0)) now in
  match r with
  | None => (l', None)
  | Some i =>
      let (seq, ec) := echo_step (default echo0 (l' !! i)) s_orig (seg_len flags paylen) in
      (<[i := ec]> l', Some seq)
  end.

Definition echo_mirror_ack (s_orig paylen flags : Z) : Z * Z :=
  if negb (Z.land flags TCP_SYN =? 0) then (u32 (s_orig + 1), Z.lor flags TCP_ACK)
  else if negb (Z.land flags TCP_FIN =? 0) then (u32 (u32 (s_orig + u32 paylen) + 1), Z.lor flags TCP_ACK)
  else (u32 (s_orig + u32 paylen), flags).

Definition pure_ack (paylen flags : Z) : bool :=
  (paylen =? 0) && negb (Z.land flags TCP_ACK =? 0) &&
  (Z.land flags (Z.lor (Z.lor TCP_SYN TCP_FIN) TCP_RST) =? 0).

(** The rewriting of the packet in place. *)
Definition rewrite6 (p src dst : bytes) (sport dport flags seq ack : Z) : res bytes :=
  let len := zlen p in
  let! p := wrn p 8 dst in
  let! p := wrn p 24 src in
  let! p := wrn p 40 (put16 dport ++ put16 sport) in
  let! p := wrn p 53 [u8 flags] in
  let! p := wrn p 44 (put32 seq ++ put32 ack) in
  let! p := wrn p 56 [0; 0] in
  let! a := rdn p 8 16 in
  let! b := rdn p 24 16 in
  let! tcp := rdn p 40 (len - 40) in
  let! cs := ip6_tcp_csum a b tcp in
  wrn p 56 (put16 cs).

Definition rewrite4 (p : bytes) (ihl : Z) (src dst : bytes) (sport dport flags seq ack : Z) : res bytes :=
  let len := zlen p in
  let! p := wrn p 12 dst in
  let! p := wrn p 16 src in
  let! p := wrn p ihl (put16 dport ++ put16 sport) in
  let! p := wrn p (ihl + 13) [u8 flags] in
  let! p := wrn p (ihl + 4) (put32 seq ++ put32 ack) in
  let! p := wrn p (ihl + 16) [0; 0] in
  let! tcp := rdn p ihl (len - ihl) in
  let! cs := ip_tcp_csum (ip4_u32 dst) (ip4_u32 src) tcp in
  let! p := wrn p (ihl + 16) (put16 cs) in
  let! p := wrn p 10 [0; 0] in
  let! h := rdn p 0 ihl in
  let! cs := ip_csum_fold (ip_csum_accum 0 h) in
  wrn p 10 (put16 cs).

(** The mirrored packet of [echo_mirror6]; [None] is -1. *)
Definition echo_mirror6 (l : list echo_conn) (p : bytes) (now : Z) : res (list echo_conn * option bytes) :=
  let len := zlen p in
  if len <? 60 then Ret (l, None)
  else
    let! p6 := rd p 6 in
    if negb (p6 =? 6) then Ret (l, None)
    else
      let! p52 := rd p 52 in
      let thlen := Z.land (Z.shiftr p52 4) 15 * 4 in
      if len <? 40 + thlen then Ret (l, None)
      else
        let! ports := rdn p 40 4 in
        let! sq := rdn p 44 4 in
        let! flags := rd p 53 in
        let! src := rdn p 8 16 in
        let! dst := rdn p 24 16 in
        let sport := be16 ports.[0] ports.[1] in
        let dport := be16 ports.[2] ports.[3] in
        let s_orig := ip4_u32 sq in
        let paylen := len - 40 - thlen in
        let (l, r) := echo_seq_advance l (K6 src sport dst dport) flags s_orig paylen now in
        match r with
        | None => Ret (l, None)
        | Some seq =>
            if pure_ack paylen flags then Ret (l, None)
            else
              let (ack, flags) := echo_mirror_ack s_orig paylen flags in
              let! q := rewrite6 p src dst sport dport flags seq ack in
              Ret (l, Some q)
        end.

Definition echo_mirror4 (l : list echo_conn) (p : bytes) (now : Z) : res (list echo_conn * option bytes) :=
  let len := zlen p in
  if len <? 40 then Ret (l, None)
  else
    let! p0 := rd p 0 in
    let ihl := u8 (Z.land p0 15 * 4) in
    if (ihl <? 20) || (len <? ihl + 20) then Ret (l, None)
    else
      let! p9 := rd p 9 in
      if negb (p9 =? 6) then Ret (l, None)
      else
        let! po := rd p (ihl + 12) in
        let thlen := Z.land (Z.shiftr po 4) 15 * 4 in
        if len <? ihl + thlen then Ret (l, None)
        else
          let! ports := rdn p ihl 4 in
          let! sq := rdn p (ihl + 4) 4 in
          let! flags := rd p (ihl + 13) in
          let! src := rdn p 12 4 in
          let! dst := rdn p 16 4 in
          let sport := be16 ports.[0] ports.[1] in
          let dport := be16 ports.[2] ports.[3] in
          let s_orig := ip4_u32 sq in
          let paylen := len - ihl - thlen in
          let (l, r) := echo_seq_advance l (K4 (ip4_u32 src) sport (ip4_u32 dst) dport) flags s_orig paylen now in
          match r with
          | None => Ret (l, None)
          | Some seq =>
              if pure_ack paylen flags then Ret (l, None)
              else
                let (ack, flags) := echo_mirror_ack s_orig paylen flags in
                let! q := rewrite4 p ihl src dst sport dport flags seq ack in
                Ret (l, Some q)
          end.

Definition echo_packet (l : list echo_conn) (p : bytes) (now : Z) : res (list echo_conn * option bytes) :=
  let! six := if zlen p >=? 1 then let! p0 := rd p 0 in Ret (Z.shiftr p0 4 =? 6) else Ret false in
  if six then echo_mirror6 l p now else echo_mirror4 l p now.

(** The mirrored packet goes back down the tunnel: the datagram sent, whether the
    downlink gate counted a drop, and whether the mirror succeeded (returned 0). *)
Definition echo_mirror (c : server_ctx) (l : list echo_conn) (p : bytes) (now : Z)
    : res (list echo_conn * option (sockaddr_in * bytes) * bool * bool) :=
  let! (l, r) := echo_packet l p now in
  match r with
  | None => Ret (l, None, false, false)
  | Some q => let! (d, counted) := handle_tun_downlink c q in Ret (l, d, counted, true)
  end.

(** ** The connection table *)

(** The entry the table holds for a 4-tuple. *)
Definition conn_of (l : list echo_conn) (k : echo_key) : option echo_conn :=
  List.find (fun ec => echo_match ec k) l.

Lemma match_live ec k : echo_match ec k = true -> last_ms ec <> 0.
Proof. destruct k; cbn; lia. Qed.

(** An entry serves one 4-tuple. *)
Lemma match_key ec k k' : echo_match ec k = true -> echo_match ec k' = true -> k = k'.
Proof.
  destruct k, k'; cbn; rewrite ?andb_true_iff, ?beq_true, ?Z.eqb_eq; intros; destruct_and!; subst;
    try congruence; exfalso; congruence.
Qed.

Lemma match_set_last ec k now : now <> 0 -> last_ms ec <> 0 -> echo_match (set_last ec now) k = echo_match ec k.
Proof.
  intros Hn Hl. destruct ec, k; cbn in *; destruct (now =? 0) eqn:?, (last_ms0 =? 0) eqn:?; (done || lia).
Qed.

Lemma match_free ec k : last_ms ec = 0 -> echo_match ec k = false.
Proof. intros H. destruct (echo_match ec k) eqn:E; [|done]. by apply match_live in E. Qed.

Lemma match_claim old k now : now <> 0 -> echo_match (echo_claim old k now) k = true.
Proof.
  intros. destruct k; cbn; rewrite !Z.eqb_refl, ?beq_refl; destruct (now =? 0) eqn:?; (done || lia).
Qed.

(** The entry of [k] is not idle. *)
Definition fresh (now : Z) (ec : echo_conn) : Prop := u64 (now - last_ms ec) <= 60000.

(** What a scan leaves behind: every entry as it was, stamped, or reclaimed. *)
Definition scan_post (l : list echo_conn) (i : nat) (free : option nat) (k : echo_key) (now : Z)
    (l' : list echo_conn) (h f : option nat) : Prop :=
  length l' = length l /\
  match h with
  | Some j => exists n ec, j = (i + n)%nat /\ conn_of l k = Some ec /\ l !! n = Some ec /\ echo_match ec k = true /\
      l' !! n = Some (set_last ec now) /\ (forall m x, (m < n)%nat -> l !! m = Some x -> echo_match x k = false)
  | None => conn_of l k = None
  end /\
  (forall n x, l !! n = Some x -> echo_match x k = false -> fresh now x -> l' !! n = Some x) /\
  (forall n x', l' !! n = Some x' -> exists x, l !! n = Some x /\
     (x' = x \/ x' = set_last x 0 \/ (x' = set_last x now /\ echo_match x k = true))) /\
  (match f with Some j => free = Some j \/ exists n x, j = (i + n)%nat /\ l' !! n = Some x /\ last_ms x = 0 | None => True end).

Lemma echo_scan_spec l i free k now l' h f :
  echo_scan l i free k now = (l', h, f) -> scan_post l i free k now l' h f.
Proof.
  revert i free l' h f. induction l as [|ec l IH]; intros i free l' h f; cbn [echo_scan].
  { intros [= <- <- <-]. unfold scan_post. split_and!; [done|done|set_solver|set_solver|]. destruct free; auto. }
  destruct (echo_match ec k) eqn:Em.
  { intros [= <- <- <-]. unfold scan_post, conn_of. cbn [List.find]. rewrite Em. split_and!; [done|..].
    - exists 0%nat, ec. split_and!; try done; intros; lia.
    - intros [|n] x; cbn; [|done]. intros [= <-]. congruence.
    - intros [|n] x; cbn; [intros [= <-]; exists ec; auto|]. intros ->. eauto.
    - destruct free; auto. }
  assert (forall fr e', (e' = ec \/ (e' = set_last ec 0 /\ ~ fresh now ec)) ->
    (fr = free \/ (fr = Some i /\ last_ms e' = 0)) ->
    (let '(r', h, f) := echo_scan l (S i) fr k now in (e' :: r', h, f)) = (l', h, f) ->
    scan_post (ec :: l) i free k now l' h f) as Hc; cycle 1.
  { destruct (last_ms ec =? 0) eqn:E0; [apply Hc; [by left|right; split; [done|lia]]|].
    destruct (_ >? 60000) eqn:E1.
    - apply Hc; [right; split; [done|unfold fresh; lia]|right; split; [done|by destruct ec]].
    - apply Hc; by left. }
  intros fr e' He' Hfr. destruct (echo_scan l (S i) fr k now) as [[r' h'] f'] eqn:E. intros [= <- <- <-].
  destruct (IH _ _ _ _ _ E) as (Hl & Hh & Hk & Hb & Hf).
  unfold scan_post, conn_of in *. cbn [List.find]. rewrite Em. split_and!.
  - cbn. lia.
  - destruct h' as [j|]; [|exact Hh]. destruct Hh as (n & x & -> & H1 & H2 & H3 & H4 & H5).
    exists (S n), x. split_and!; try done; [lia|]. intros [|m] y Hm; cbn; [intros [= <-]; done|].
    apply H5. lia.
  - intros [|n] x; cbn; [|apply Hk]. intros [= <-] _ Hfx. destruct He' as [-> |[_ Hno]]; [done|]. by destruct Hno.
  - intros [|n] x'; cbn; [|apply Hb]. intros [= <-]. exists ec. destruct He' as [-> |[-> _]]; auto.
  - destruct f' as [j|]; [|done]. destruct Hf as [-> |(n & x & -> & Hx & H0)].
    + destruct Hfr as [<- |[[= ->] Hz]]; [by left|]. right. exists 0%nat, e'. split_and!; [lia|done|done].
    + right. exists (S n), x. split_and!; [lia|done|done].
Qed.

Lemma conn_of_Some l k ec :
  conn_of l k = Some ec <-> echo_match ec k = true /\
    exists n, l !! n = Some ec /\ forall m x, (m < n)%nat -> l !! m = Some x -> echo_match x k = false.
Proof.
  unfold conn_of. induction l as [|e l IH]; cbn [List.find].
  { split; [done|]. intros (_ & n & ? & _). done. }
  destruct (echo_match e k) eqn:E.
  - split.
    + intros [= <-]. split; [done|]. exists 0%nat. split; [done|]. intros. lia.
    + intros (Hm & [|n] & Hn & Hb); cbn in Hn; [done|]. specialize (Hb 0%nat e). rewrite Hb in E; [done|lia|done].
  - rewrite IH. split; intros (Hm & n & Hn & Hb); (split; [done|]).
    + exists (S n). split; [done|]. intros [|m] x Hlt; cbn; [by intros [= <-]|apply Hb; lia].
    + destruct n as [|n]; cbn in Hn; [congruence|]. exists n. split; [done|].
      intros m x Hlt. apply (Hb (S m) x). lia.
Qed.

Lemma echo_step_core ec s len k : echo_match (echo_step ec s len).2 k = echo_match ec k.
Proof.
  destruct ec. cbn [echo_step]. destruct (seeded0 && _ && _); destruct k; done.
Qed.

(** The answer for a known connection is the counter step on its entry. *)
Lemma advance_known l k fl s pl now ec :
  now <> 0 -> conn_of l k = Some ec ->
  let r := echo_step (set_last ec now) s (seg_len fl pl) in
  exists l', echo_seq_advance l k fl s pl now = (l', Some r.1) /\ conn_of l' k = Some r.2.
Proof.
  intros Hn Hc r. unfold echo_seq_advance, echo_lookup.
  destruct (echo_scan l 0 None k now) as [[l' h] f] eqn:E.
  apply echo_scan_spec in E as (Hl & Hh & _ & Hb & _). destruct h as [j|]; [|congruence].
  destruct Hh as (n & ec' & -> & Hc' & Hn1 & Hm & Hn2 & Hbefore). rewrite Hc in Hc'. injection Hc' as <-.
  cbn [Nat.add]. rewrite Hn2. cbn [default from_option id]. fold r. destruct r as [q e'] eqn:Er.
  eexists. split; [done|]. apply conn_of_Some. cbn [snd]. split.
  - replace e' with r.2 by by rewrite Er. unfold r. rewrite echo_step_core, match_set_last; [done..|by eapply match_live].
  - exists n. rewrite list_lookup_insert_eq by by eapply lookup_lt_Some. split; [done|].
    intros m x Hlt Hx. rewrite list_lookup_insert_ne in Hx by lia.
    destruct (Hb m x Hx) as (y & Hy & [-> |[-> |[_ Hk]]]); [by eapply Hbefore|apply match_free; by destruct y|].
    by rewrite (Hbefore m y Hlt Hy) in Hk.
Qed.

(** Other connections keep their entry as long as it is not idle. *)
Lemma advance_other l k k' fl s pl now ec l' r :
  now <> 0 -> k <> k' -> conn_of l k' = Some ec -> fresh now ec ->
  echo_seq_advance l k fl s pl now = (l', r) -> conn_of l' k' = Some ec.
Proof.
  intros Hn Hne Hc Hf. apply conn_of_Some in Hc as (Hm & n & Hl & Hb).
  assert (echo_match ec k = false) as Hk.
  { destruct (echo_match ec k) eqn:E; [|done]. by destruct Hne; eapply match_key. }
  unfold echo_seq_advance, echo_lookup. destruct (echo_scan l 0 None k now) as [[t h] f] eqn:E.
  apply echo_scan_spec in E as (Hlen & Hh & Hkeep & Hback & Hfree).
  specialize (Hkeep n ec Hl Hk Hf).
  assert (forall m x, (m < n)%nat -> t !! m = Some x -> echo_match x k' = false) as Hbt.
  { intros m x Hlt Hx. destruct (Hback m x Hx) as (y & Hy & Hcase). specialize (Hb m y Hlt Hy).
    destruct Hcase as [-> |[-> |[-> Hyk]]]; [done|apply match_free; by destruct y|].
    rewrite match_set_last; [done..|by eapply match_live]. }
  assert (forall j e, echo_match e k = true -> (forall x, t !! j = Some x -> x <> ec) ->
    conn_of (<[j := e]> t) k' = Some ec) as Hins.
  { intros j e He Hj. apply conn_of_Some. split; [done|]. exists n.
    destruct (decide (j = n)) as [-> |Hjn]; [by destruct (Hj ec Hkeep)|].
    rewrite list_lookup_insert_ne by done. split; [done|]. intros m x Hlt Hx.
    apply list_lookup_insert_Some in Hx as [(_ & <- & _)|[_ Hx]]; [|by eapply Hbt].
    destruct (echo_match e k') eqn:E'; [|done]. by destruct Hne; eapply match_key. }
  assert (conn_of t k' = Some ec) as Ht by (apply conn_of_Some; split; [done|]; by exists n).
  destruct h as [j|].
  - destruct Hh as (i & e & -> & _ & Hi & Hmi & Hti & _). cbn [Nat.add]. rewrite Hti. cbn [default from_option id].
    destruct (echo_step _ _ _) as [q e'] eqn:Es. intros [= <- <-]. apply Hins.
    + replace e' with (echo_step (set_last e now) s (seg_len fl pl)).2 by by rewrite Es.
      rewrite echo_step_core, match_set_last; [done..|by eapply match_live].
    + rewrite Hti. intros x [= <-] <-. rewrite match_set_last in Hk; [congruence|done|by eapply match_live].
  - destruct f as [j|]; [|by intros [= <- <-]]. destruct (negb _); [|by intros [= <- <-]].
    destruct Hfree as [|(i & x & -> & Hx & H0)]; [done|]. cbn [Nat.add].
    rewrite list_lookup_insert_eq by by eapply lookup_lt_Some. cbn [default from_option id].
    destruct (echo_step _ _ _) as [q e'] eqn:Es. rewrite list_insert_insert_eq. intros [= <- <-]. apply Hins.
    + match type of Es with echo_step ?a ?b ?c = _ => replace e' with (echo_step a b c).2 by by rewrite Es end.
      rewrite echo_step_core. by apply match_claim.
    + rewrite Hx. intros y [= <-] ->. by eapply match_live.
Qed.

(** A SYN of an unknown connection that finds room starts it. *)
Lemma advance_new l k fl s pl now l' q :
  now <> 0 -> conn_of l k = None -> echo_seq_advance l k fl s pl now = (l', Some q) ->
  q = 0 /\ exists ec, conn_of l' k = Some ec /\ seeded ec = true /\
    client_max ec = u32 (s + seg_len fl pl) /\ emit_seq ec = u32 (seg_len fl pl).
Proof.
  intros Hn Hc. unfold echo_seq_advance, echo_lookup.
  destruct (echo_scan l 0 None k now) as [[t h] f] eqn:E.
  apply echo_scan_spec in E as (Hlen & Hh & _ & Hback & Hfree).
  destruct h as [j|]; [destruct Hh as (n & e & _ & He & _); congruence|].
  destruct f as [j|]; [|done]. destruct (negb _); [|done].
  destruct Hfree as [|(i & x & -> & Hx & H0)]; [done|]. cbn [Nat.add].
  rewrite list_lookup_insert_eq by by eapply lookup_lt_Some. cbn [default from_option id].
  destruct (echo_step _ _ _) as [q' e'] eqn:Es. rewrite list_insert_insert_eq. intros [= <- <-].
  assert (q' = 0 /\ seeded e' = true /\ client_max e' = u32 (s + seg_len fl pl) /\
    emit_seq e' = u32 (0 + seg_len fl pl) /\ echo_match e' k = true) as (-> & Hsd & Hcm & Hes & Hm).
  { match type of Es with echo_step ?a ?b ?c = _ =>
      assert (echo_match e' k = true) as Hm by
        (replace e' with (echo_step a b c).2 by (by rewrite Es); rewrite echo_step_core; by apply match_claim) end.
    destruct k; cbn in Es; injection Es as <- <-; done. }
  split; [done|]. exists e'. split; [|done]. apply conn_of_Some. split; [done|]. exists i.
  rewrite list_lookup_insert_eq by by eapply lookup_lt_Some. split; [done|].
  intros m y Hlt Hy. rewrite list_lookup_insert_ne in Hy by lia.
  destruct (Hback m y Hy) as (z & Hz & [-> |[-> |[_ Hk]]]).
  - destruct (echo_match z k) eqn:Ez; [|done]. exfalso.
    apply List.find_none with (x := z) in Hc; [congruence|]. apply list_elem_of_In. by eapply list_elem_of_lookup_2.
  - apply match_free. by destruct z.
  - exfalso. apply List.find_none with (x := z) in Hc; [congruence|]. apply list_elem_of_In. by eapply list_elem_of_lookup_2.
Qed.

(** ** Streams *)

(** A segment of a connection as the mirror sees it. *)
Record seg := mk_seg { g_key : echo_key; g_flags : Z; g_seq : Z; g_len : Z; g_now : Z }.

Definition seg_step (l : list echo_conn) (g : seg) : list echo_conn * option Z :=
  echo_seq_advance l (g_key g) (g_flags g) (g_seq g) (g_len g) (g_now g).

Fixpoint echo_run (l : list echo_conn) (gs : list seg) : list (option Z) :=
  match gs with
  | [] => []
  | g :: r => (seg_step l g).2 :: echo_run (seg_step l g).1 r
  end.

(** Every segment of [k] is the next one or a repetition, never ahead of the stream,
    and [k] is never idle for more than a minute while others use the table. *)
Fixpoint tracked (l : list echo_conn) (k : echo_key) (gs : list seg) : Prop :=
  match gs with
  | [] => True
  | g :: r =>
      g_now g <> 0 /\
      (forall ec, conn_of l k = Some ec ->
         (g_key g = k -> u32 (client_max ec - g_seq g) < 2 ^ 31) /\
         (g_key g <> k -> fresh (g_now g) ec)) /\
      tracked (seg_step l g).1 k r
  end.

(** The mirror's numbers are the client's, shifted by a constant. *)
Definition in_step (s0 : Z) (ec : echo_conn) : Prop :=
  seeded ec = true /\ u32 (emit_seq ec - client_max ec) = u32 (- s0).

Lemma in_step_step s0 ec now s len :
  in_step s0 ec -> 0 <= emit_seq ec < 2 ^ 32 -> 0 <= client_max ec < 2 ^ 32 -> 0 <= s < 2 ^ 32 ->
  u32 (client_max ec - s) < 2 ^ 31 ->
  let r := echo_step (set_last ec now) s len in
  r.1 = u32 (s - s0) /\ in_step s0 r.2 /\ 0 <= emit_seq r.2 < 2 ^ 32 /\ 0 <= client_max r.2 < 2 ^ 32.
Proof.
  destruct ec as [a ci k6 cp ti v6 tp cm es sd lm]. unfold in_step. cbn.
  intros [-> Hd] He Hc Hs Hb. cbn. unfold u32 in *. destruct (negb _ && _) eqn:E; cbn.
  - split_and!; try done; lia.
  - assert (cm = s) as -> by lia. split_and!; try done; lia.
Qed.

Lemma echo_run_tracked gs : forall l k s0 ec,
  conn_of l k = Some ec -> in_step s0 ec -> 0 <= emit_seq ec < 2 ^ 32 -> 0 <= client_max ec < 2 ^ 32 ->
  Forall (fun g => 0 <= g_seq g < 2 ^ 32) gs -> tracked l k gs ->
  Forall2 (fun g r => g_key g = k -> r = Some (u32 (g_seq g - s0))) gs (echo_run l gs).
Proof.
  induction gs as [|g gs IH]; intros l k s0 ec Hc Hi He Hm Hg Ht; cbn [echo_run]; [constructor|].
  apply Forall_cons in Hg as [Hg Hgs]. destruct Ht as (Hn & Hok & Ht). destruct (Hok ec Hc) as [Hk Ho].
  destruct (seg_step l g) as [l' r] eqn:E. cbn [fst snd] in *. unfold seg_step in E.
  destruct (decide (g_key g = k)) as [<- |Hne].
  2: { constructor; [done|]. eapply IH; try done. eapply advance_other; try done. by apply Ho. }
  destruct (advance_known l _ (g_flags g) (g_seq g) (g_len g) _ ec Hn Hc) as (t & Et & Hct).
  rewrite E in Et. injection Et as <- ->.
  destruct (in_step_step s0 ec (g_now g) (g_seq g) (seg_len (g_flags g) (g_len g)) Hi He Hm Hg (Hk eq_refl))
    as (-> & H1 & H2 & H3).
  constructor; [done|]. by eapply IH.
Qed.

(** The mirror plays every connection's byte stream back at one fixed offset.
    When the SYN with sequence number [s0] of an unknown connection is accepted, it
    is answered at 0, and every later segment of that connection that continues the
    stream or repeats part of it is answered at its own sequence number minus [s0]
    (modulo 2^32), whatever segments of other connections come in between: lost and
    repeated echoes land where the first copy did. *)
Theorem echo_stream_shifted l k g l' q gs :
  conn_of l k = None -> g_key g = k -> g_now g <> 0 -> 0 <= g_seq g < 2 ^ 32 ->
  seg_step l g = (l', Some q) ->
  Forall (fun g => 0 <= g_seq g < 2 ^ 32) gs -> tracked l' k gs ->
  q = 0 /\
  Forall2 (fun g' r => g_key g' = k -> r = Some (u32 (g_seq g' - g_seq g))) gs (echo_run l' gs).
Proof.
  intros Hc Hk Hn Hs E Hgs Ht. unfold seg_step in E. rewrite Hk in E.
  destruct (advance_new _ _ _ _ _ _ _ _ Hn Hc E) as (-> & ec & Hec & Hsd & Hcm & Hes).
  split; [done|]. eapply echo_run_tracked; try done.
  - split; [done|]. rewrite Hcm, Hes. unfold u32. lia.
  - rewrite Hes. apply u32_range.
  - rewrite Hcm. apply u32_range.
Qed.

Module Stream.

Definition k1 : echo_key := K4 167772162 4000 134744072 80.
Definition k2 : echo_key := K4 167772163 4001 134744072 80.
Definition table : list echo_conn := replicate 64 echo0.
Definition syn : seg := mk_seg k1 2 4000000000 0 1000.
Definition after : list echo_conn := (seg_step table syn).1.
Definition segs : list seg :=
  [mk_seg k1 16 4000000001 300000000 1001; mk_seg k2 2 5 0 1002; mk_seg k1 16 4000000001 300000000 1003;
   mk_seg k1 16 5032705 10 1004].

End Stream.

(** The repeated third segment is echoed where the first copy was. *)
Lemma echo_stream_shifted_witness : echo_run Stream.after Stream.segs !! 2%nat = Some (Some 1).
Proof.
  destruct (echo_stream_shifted Stream.table Stream.k1 Stream.syn Stream.after 0 Stream.segs) as [_ H].
  - reflexivity.
  - reflexivity.
  - discriminate.
  - cbn. lia.
  - vm_compute. reflexivity.
  - repeat constructor; cbn; lia.
  - unfold Stream.segs. cbn [tracked]. split_and!; try discriminate; try exact I; intros ec Hec;
      vm_compute in Hec; injection Hec as <-; split; intros Hk;
      first [discriminate Hk | congruence | vm_compute; reflexivity | vm_compute; discriminate].
  - destruct (Forall2_lookup_l _ _ _ 2%nat _ H eq_refl) as (r & Hr & Hv). rewrite Hr, Hv by reflexivity.
    reflexivity.
Defined.

(** ** Mirrored packets *)

(** One checked write of the goal, named. *)
Ltac wr q Hq :=
  match goal with |- context [wrn ?d ?o ?l] =>
    rewrite (wrn_ok d o l) by zlia; cbn [rbind];
    assert (zlen (upd d o l) = zlen d) as Hq by (apply zlen_upd; zlia);
    let E := fresh "E" q in remember (upd d o l) as q eqn:E
  end.

(** Filling in the checksum field at [off] makes the sum verify. *)
Lemma sum_patched ph t off :
  bytes_ok ph -> bytes_ok t -> zlen ph <= 40 -> 0 < wsum ph + wsum (take (Z.to_nat off) t) ->
  0 <= off -> off mod 2 = 0 -> off + 2 <= zlen t <= 65535 ->
  exists c, ip_csum_fold (ip_csum_accum (ip_csum_accum 0 ph) (upd t off [0; 0])) = Ret c /\
    ip_csum_fold (ip_csum_accum (ip_csum_accum 0 ph) (upd t off (put16 c))) = Ret 0.
Proof.
  intros Hph Ht Hlp Hpos H0 Heven Hl.
  destruct (ip_csum_fold_total ph (upd t off [0; 0])) as (c & Hc & _);
    [done|apply bytes_ok_upd; [done|by repeat constructor]|].
  exists c. split; [done|]. unfold upd in *. rewrite zlen_put16. change (zlen [0; 0]) with 2 in Hc.
  assert (bytes_ok (take (Z.to_nat off) t)) as Ha by bok. assert (bytes_ok (drop (Z.to_nat (off + 2)) t)) as Hb by bok.
  assert (Nat.even (length (take (Z.to_nat off) t)) = true) as He.
  { rewrite length_take. unfold zlen in Hl. apply Nat.even_spec. exists (Z.to_nat (off / 2)). lia. }
  assert (zlen (take (Z.to_nat off) t) + zlen (drop (Z.to_nat (off + 2)) t) <= 65533) as Hlen by zlia.
  pose proof (wsum_bounds _ Hph). pose proof (wsum_bounds _ Ha). pose proof (wsum_bounds _ Hb).
  revert Hc. rewrite (ip_csum_accum_spec ph) by (done || lia). rewrite Z.add_0_l.
  rewrite (u32_small (wsum ph)) by lia.
  rewrite !ip_csum_accum_spec by (try (apply bytes_ok_app; split; [done|apply bytes_ok_app; split]); (done || lia || bok)).
  apply csum_verifies; try done; try lia.
  - rewrite wsum_app by done. cbn [app wsum]. lia.
  - rewrite wsum_app by done. cbn [app wsum]. lia.
Qed.

Lemma upd_len t off : 0 <= off -> off + 2 <= zlen t -> zlen (upd t off [0; 0]) = zlen t.
Proof. intros. apply zlen_upd; [done|]. change (zlen [0; 0]) with 2. lia. Qed.

Lemma upd_len16 t off c : 0 <= off -> off + 2 <= zlen t -> zlen (upd t off (put16 c)) = zlen t.
Proof. intros. apply zlen_upd; [done|]. rewrite zlen_put16. lia. Qed.

Lemma wsum_head b t n : bytes_ok (b :: t) -> 0 < b -> (0 < n)%nat -> 0 < wsum (take n (b :: t)).
Proof.
  intros Hb H0 Hn. destruct n as [|[|n]]; [lia| |].
  { change (take 1 (b :: t)) with [b]. cbn [wsum]. lia. }
  destruct t as [|a t]; cbn [take wsum]; [lia|].
  apply Forall_cons in Hb as [_ Hb]. apply Forall_cons in Hb as [Ha Hb].
  assert (bytes_ok (take n t)) as Ht by bok. pose proof (wsum_bounds _ Ht). unfold is_byte in Ha. lia.
Qed.

Lemma tcp4_patched s d t :
  bytes_ok t -> 18 <= zlen t <= 65535 ->
  exists c, ip_tcp_csum s d (upd t 16 [0; 0]) = Ret c /\ ip_tcp_csum s d (upd t 16 (put16 c)) = Ret 0.
Proof.
  intros Ht Hl. unfold ip_tcp_csum.
  destruct (sum_patched (put32 s ++ put32 d ++ [0; 6; u8 (Z.shiftr (zlen t) 8); u8 (zlen t)]) t 16)
    as (c & H1 & H2); try done; try lia.
  - bok; unfold is_byte; lia.
  - assert (bytes_ok (take (Z.to_nat 16) t)) as Ha by bok. pose proof (wsum_bounds _ Ha).
    pose proof (wsum_bounds _ (put32_ok s)). pose proof (wsum_bounds _ (put32_ok d)).
    rewrite !wsum_app by done. cbn [wsum]. pose proof (u8_range (zlen t)).
    pose proof (u8_range (Z.shiftr (zlen t) 8)). lia.
  - exists c. rewrite upd_len, upd_len16 by lia. done.
Qed.

Lemma tcp6_patched s d t :
  bytes_ok s -> bytes_ok d -> zlen s = 16 -> zlen d = 16 -> bytes_ok t -> 18 <= zlen t <= 65535 ->
  exists c, ip6_tcp_csum s d (upd t 16 [0; 0]) = Ret c /\ ip6_tcp_csum s d (upd t 16 (put16 c)) = Ret 0.
Proof.
  intros Hs Hd Ls Ld Ht Hl. unfold ip6_tcp_csum. rewrite !rdn_ok by lia. cbn [rbind].
  assert (slice s 0 16 = s) as -> by (rewrite <- Ls; apply slice_all).
  assert (slice d 0 16 = d) as -> by (rewrite <- Ld; apply slice_all).
  destruct (sum_patched (s ++ d ++ [0; 0; 0; 6; u8 (Z.shiftr (zlen t) 24); u8 (Z.shiftr (zlen t) 16);
    u8 (Z.shiftr (zlen t) 8); u8 (zlen t)]) t 16) as (c & H1 & H2); try done; try lia.
  - bok; unfold is_byte; lia.
  - zlia.
  - assert (bytes_ok (take (Z.to_nat 16) t)) as Ha by bok. pose proof (wsum_bounds _ Ha).
    pose proof (wsum_bounds _ Hs). pose proof (wsum_bounds _ Hd).
    rewrite !wsum_app by (apply Nat.even_spec; exists 8%nat; unfold zlen in *; lia). cbn [wsum].
    pose proof (u8_range (zlen t)). pose proof (u8_range (Z.shiftr (zlen t) 8)).
    pose proof (u8_range (Z.shiftr (zlen t) 16)). pose proof (u8_range (Z.shiftr (zlen t) 24)). lia.
  - exists c. rewrite upd_len, upd_len16 by lia. done.
Qed.

Lemma hdr_patched h :
  bytes_ok h -> 12 <= zlen h <= 65535 -> 0 < h.[0] ->
  exists c, ip_csum_fold (ip_csum_accum 0 (upd h 10 [0; 0])) = Ret c /\
    ip_csum_fold (ip_csum_accum 0 (upd h 10 (put16 c))) = Ret 0.
Proof.
  intros Hh Hl H0. destruct (sum_patched [] h 10) as (c & H1 & H2); try done; try lia; [by constructor| |by exists c].
  destruct h as [|b t]; [done|]. change (wsum []) with 0. rewrite Z.add_0_l. apply wsum_head; [done|exact H0|lia].
Qed.

(** The mirror of [p] is [q] (IPv4): addresses and ports swapped, bytes behind the
    checksum field kept, both checksums right. *)
Record mirrored4 (p q : bytes) : Prop := {
  m4_len : zlen q = zlen p;
  m4_ok : bytes_ok q;
  m4_src : slice q 12 4 = slice p 16 4;
  m4_dst : slice q 16 4 = slice p 12 4;
  m4_ports : let o := p.[0] mod 16 * 4 in
    slice q o 2 = slice p (o + 2) 2 /\ slice q (o + 2) 2 = slice p o 2;
  m4_data : let o := p.[0] mod 16 * 4 in
    slice q (o + 18) (zlen p - o - 18) = slice p (o + 18) (zlen p - o - 18);
  m4_tcp : let o := p.[0] mod 16 * 4 in
    ip_tcp_csum (ip4_u32 (slice q 12 4)) (ip4_u32 (slice q 16 4)) (slice q o (zlen q - o)) = Ret 0;
  m4_hdr : ip_csum_fold (ip_csum_accum 0 (slice q 0 (p.[0] mod 16 * 4))) = Ret 0
}.

(** The same for IPv6. *)
Record mirrored6 (p q : bytes) : Prop := {
  m6_len : zlen q = zlen p;
  m6_ok : bytes_ok q;
  m6_src : slice q 8 16 = slice p 24 16;
  m6_dst : slice q 24 16 = slice p 8 16;
  m6_ports : slice q 40 2 = slice p 42 2 /\ slice q 42 2 = slice p 40 2;
  m6_data : slice q 58 (zlen p - 58) = slice p 58 (zlen p - 58);
  m6_tcp : ip6_tcp_csum (slice q 8 16) (slice q 24 16) (slice q 40 (zlen q - 40)) = Ret 0
}.

Lemma slice_pair p o : bytes_ok p -> 0 <= o -> o + 2 <= zlen p -> put16 (be16 p.[o] p.[o + 1]) = slice p o 2.
Proof.
  intros Hp H0 Hl. rewrite put16_be16 by by apply at_byte. apply at_ext; [by rewrite zlen_slice by lia|].
  change (zlen [p.[o]; p.[o + 1]]) with 2. intros i Hi. rewrite at_slice by lia.
  assert (i = 0 \/ i = 1) as [-> | ->] by lia; [by rewrite Z.add_0_r|done].
Qed.

Lemma u8_1 x : bytes_ok [u8 x].
Proof. repeat constructor; apply u8_range. Qed.

Lemma bytes_ok_00 : bytes_ok [0; 0].
Proof. by repeat constructor. Qed.

#[local] Hint Resolve u8_1 bytes_ok_00 : bytes.

(** The two halves of a four byte window. *)
Lemma swap_ports d o x y :
  zlen x = 2 -> zlen y = 2 -> 0 <= o -> o + 4 <= zlen d -> slice d o 4 = x ++ y ->
  slice d o 2 = x /\ slice d (o + 2) 2 = y.
Proof.
  intros Hx Hy Ho Hl H. split.
  - rewrite <- (slice_app_l x y 2), <- H by lia. unfold slice. by rewrite drop_0, take_take.
  - rewrite <- (slice_app_mid x y [] 2 2), app_nil_r, <- H by lia.
    assert (zlen (slice d o 4) = 4) by (apply zlen_slice; lia).
    apply at_ext; rewrite !zlen_slice by lia; [done|].
    intros i Hi. rewrite !at_slice by lia. f_equal. lia.
Qed.

Lemma rewrite4_ok p o fl sq ack :
  bytes_ok p -> zlen p <= 65535 -> o = p.[0] mod 16 * 4 -> 20 <= o -> o + 20 <= zlen p ->
  exists q, rewrite4 p o (slice p 12 4) (slice p 16 4) (be16 p.[o] p.[o + 1]) (be16 p.[o + 2] p.[o + 2 + 1]) fl sq ack
    = Ret q /\ mirrored4 p q.
Proof.
  intros Hp Hl Ho H20 Hlo. unfold rewrite4.
  assert (zlen (slice p 12 4) = 4) as L1 by (apply zlen_slice; lia).
  assert (zlen (slice p 16 4) = 4) as L2 by (apply zlen_slice; lia).
  rewrite !slice_pair by (done || lia).
  assert (zlen (slice p o 2) = 2) as L3 by (apply zlen_slice; lia).
  assert (zlen (slice p (o + 2) 2) = 2) as L4 by (apply zlen_slice; lia).
  wr p1 Z1. wr p2 Z2. wr p3 Z3. wr p4 Z4. wr p5 Z5.
  assert (bytes_ok p5) as B5 by (subst; repeat apply bytes_ok_upd; bok).
  assert (slice p5 12 4 = slice p 16 4) as S12.
  { subst p5 p4 p3 p2. rewrite !slice_upd_out by zlia. subst p1. apply slice_upd_eq; zlia. }
  assert (slice p5 16 4 = slice p 12 4) as S16.
  { subst p5 p4 p3. rewrite !slice_upd_out by zlia. subst p2. apply slice_upd_eq; zlia. }
  assert (slice p5 o 4 = slice p (o + 2) 2 ++ slice p o 2) as SP.
  { subst p5 p4. rewrite !slice_upd_out by zlia. subst p3.
    apply slice_upd_eq; zlia. }
  assert (slice p5 (o + 18) (zlen p - o - 18) = slice p (o + 18) (zlen p - o - 18)) as SD.
  { subst p5 p4 p3 p2 p1. by rewrite !slice_upd_out by zlia. }
  assert (slice p5 0 10 = slice p 0 10) as SH.
  { subst p5 p4 p3 p2 p1. by rewrite !slice_upd_out by zlia. }
  clear Ep1 Ep2 Ep3 Ep4 Ep5.
  wr p6 Z6. rewrite rdn_ok by zlia. cbn [rbind].
  assert (slice p6 o (zlen p - o) = upd (slice p5 o (zlen p - o)) 16 [0; 0]) as T6.
  { subst p6. rewrite slice_upd_in by zlia. f_equal. lia. }
  rewrite T6. destruct (tcp4_patched (ip4_u32 (slice p 16 4)) (ip4_u32 (slice p 12 4)) (slice p5 o (zlen p - o)))
    as (c & -> & Hc); [bok|rewrite zlen_slice by lia; lia|]. cbn [rbind].
  wr p7 Z7. wr p8 Z8. rewrite rdn_ok by lia. cbn [rbind].
  assert (slice p8 0 o = upd (slice p5 0 o) 10 [0; 0]) as T8.
  { subst p8. rewrite slice_upd_in by zlia. subst p7 p6. by rewrite !slice_upd_out by zlia. }
  rewrite T8. destruct (hdr_patched (slice p5 0 o)) as (d & -> & Hd); [bok|rewrite zlen_slice by lia; lia| |].
  { rewrite at_slice by lia. rewrite <- (at_slice p5 0 10 0), SH, at_slice by lia.
    change (0 + 0) with 0. pose proof (at_byte p 0 Hp) as H0. unfold is_byte in H0. lia. }
  cbn [rbind]. wr q Z9. exists q. split; [done|].
  assert (forall off n, 12 <= off -> 0 <= n -> off + n <= zlen p -> (off + n <= o + 16 \/ o + 18 <= off) ->
    slice q off n = slice p5 off n) as Hw.
  { intros off n ? ? ? ?. subst q p8 p7 p6. by rewrite !slice_upd_out by zlia. }
  assert (slice q o 4 = slice p (o + 2) 2 ++ slice p o 2) as HP by (rewrite Hw by lia; done).
  split; cbn zeta; rewrite <- ?Ho.
  - lia.
  - subst q p8 p7 p6. repeat apply bytes_ok_upd; bok.
  - rewrite Hw by lia. done.
  - rewrite Hw by lia. done.
  - apply swap_ports; try done; lia.
  - rewrite Hw by lia. done.
  - replace (zlen q) with (zlen p) by lia. rewrite !Hw, S12, S16 by lia. rewrite <- Hc. f_equal.
    subst q p8. rewrite !slice_upd_out by zlia. subst p7. rewrite slice_upd_in by zlia. rewrite T6.
    replace (o + 16 - o) with 16 by lia. apply upd_upd; rewrite ?zlen_slice by lia; zlia.
  - rewrite <- Hd. do 2 f_equal. subst q. rewrite slice_upd_in by zlia. rewrite T8.
    apply upd_upd; rewrite ?zlen_slice by lia; zlia.
Qed.

Lemma rewrite6_ok p fl sq ack :
  bytes_ok p -> zlen p <= 65535 -> 60 <= zlen p ->
  exists q, rewrite6 p (slice p 8 16) (slice p 24 16) (be16 p.[40] p.[41]) (be16 p.[42] p.[43]) fl sq ack = Ret q /\
    mirrored6 p q.
Proof.
  intros Hp Hl H60. unfold rewrite6.
  assert (zlen (slice p 8 16) = 16) as L1 by (apply zlen_slice; lia).
  assert (zlen (slice p 24 16) = 16) as L2 by (apply zlen_slice; lia).
  change p.[41] with p.[40 + 1]. change p.[43] with p.[42 + 1].
  rewrite (slice_pair p 40), (slice_pair p 42) by (done || lia).
  assert (zlen (slice p 40 2) = 2) as L3 by (apply zlen_slice; lia).
  assert (zlen (slice p 42 2) = 2) as L4 by (apply zlen_slice; lia).
  wr p1 Z1. wr p2 Z2. wr p3 Z3. wr p4 Z4. wr p5 Z5.
  assert (bytes_ok p5) as B5 by (subst; repeat apply bytes_ok_upd; bok).
  assert (slice p5 8 16 = slice p 24 16) as S8.
  { subst p5 p4 p3 p2. rewrite !slice_upd_out by zlia. subst p1. apply slice_upd_eq; zlia. }
  assert (slice p5 24 16 = slice p 8 16) as S24.
  { subst p5 p4 p3. rewrite !slice_upd_out by zlia. subst p2. apply slice_upd_eq; zlia. }
  assert (slice p5 40 4 = slice p 42 2 ++ slice p 40 2) as SP.
  { subst p5 p4. rewrite !slice_upd_out by zlia. subst p3. apply slice_upd_eq; zlia. }
  assert (slice p5 58 (zlen p - 58) = slice p 58 (zlen p - 58)) as SD.
  { subst p5 p4 p3 p2 p1. by rewrite !slice_upd_out by zlia. }
  clear Ep1 Ep2 Ep3 Ep4 Ep5. wr p6 Z6. rewrite !rdn_ok by lia. cbn [rbind].
  assert (forall off n, 0 <= off -> 0 <= n -> off + n <= zlen p -> (off + n <= 56 \/ 58 <= off) ->
    slice p6 off n = slice p5 off n) as H6.
  { intros off n ? ? ? ?. subst p6. by rewrite slice_upd_out by zlia. }
  assert (slice p6 40 (zlen p - 40) = upd (slice p5 40 (zlen p - 40)) 16 [0; 0]) as T6.
  { subst p6. by rewrite slice_upd_in by zlia. }
  rewrite (H6 8 16), (H6 24 16), S8, S24, T6 by lia.
  destruct (tcp6_patched (slice p 24 16) (slice p 8 16) (slice p5 40 (zlen p - 40))) as (c & -> & Hc);
    try done; [bok..|rewrite zlen_slice by lia; lia|]. cbn [rbind].
  wr q Z9. exists q. split; [done|].
  assert (forall off n, 0 <= off -> 0 <= n -> off + n <= zlen p -> (off + n <= 56 \/ 58 <= off) ->
    slice q off n = slice p5 off n) as Hw.
  { intros off n ? ? ? ?. subst q. rewrite slice_upd_out by zlia. by apply H6. }
  split.
  - lia.
  - subst q p6. repeat apply bytes_ok_upd; bok.
  - rewrite Hw by lia. done.
  - rewrite Hw by lia. done.
  - apply (swap_ports q 40); try done; [lia|]. by rewrite Hw by lia.
  - rewrite Hw by lia. done.
  - replace (zlen q) with (zlen p) by lia. rewrite (Hw 8 16), (Hw 24 16), S8, S24 by lia. rewrite <- Hc. f_equal.
    subst q. rewrite slice_upd_in by zlia. rewrite T6. apply upd_upd; rewrite ?zlen_slice by lia; zlia.
Qed.

(** The packet is IPv6 for the mirror. *)
Definition is_six (p : bytes) : bool := (zlen p >=? 1) && (p.[0] / 16 =? 6).

Lemma echo_mirror4_ok l p now :
  bytes_ok p -> zlen p <= 65535 ->
  exists l' r, echo_mirror4 l p now = Ret (l', r) /\ forall q, r = Some q -> mirrored4 p q.
Proof.
  intros Hp Hl. assert (forall i, is_byte p.[i]) as Hb by (intros; by apply at_byte).
  unfold echo_mirror4. destruct (zlen p <? 40) eqn:E0; [by eexists _, None|].
  rewrite rd_ok by lia. cbn [rbind]. rewrite land15.
  pose proof (Hb 0) as H0. unfold is_byte in H0. rewrite u8_small by lia.
  remember (p.[0] mod 16 * 4) as o eqn:Eo.
  destruct ((o <? 20) || (zlen p <? o + 20)) eqn:E1; [by eexists _, None|].
  rewrite rd_ok by lia. cbn [rbind]. destruct (negb _); [by eexists _, None|].
  rewrite rd_ok by lia. cbn [rbind]. rewrite land15, shiftr4.
  remember ((p.[o + 12] / 16) mod 16 * 4) as th eqn:Eth.
  destruct (zlen p <? o + th) eqn:E2; [by eexists _, None|].
  rewrite rdn_ok by lia. cbn [rbind]. rewrite rdn_ok by lia. cbn [rbind]. rewrite rd_ok by lia. cbn [rbind].
  rewrite rdn_ok by lia. cbn [rbind]. rewrite rdn_ok by lia. cbn [rbind].
  destruct (echo_seq_advance _ _ _ _ _ _) as [l' [sq|]]; [|by eexists _, None].
  destruct (pure_ack _ _); [by eexists _, None|].
  rewrite !at_slice by lia. rewrite Z.add_0_r. replace (o + 3) with (o + 2 + 1) by lia.
  destruct (echo_mirror_ack _ _ _) as [ack fl].
  destruct (rewrite4_ok p o fl sq ack Hp Hl Eo ltac:(lia) ltac:(lia)) as (q & -> & Hq).
  cbn [rbind]. eexists _, (Some q). split; [done|]. by intros ? [= <-].
Qed.

Lemma echo_mirror6_ok l p now :
  bytes_ok p -> zlen p <= 65535 ->
  exists l' r, echo_mirror6 l p now = Ret (l', r) /\ forall q, r = Some q -> mirrored6 p q.
Proof.
  intros Hp Hl. assert (forall i, is_byte p.[i]) as Hb by (intros; by apply at_byte).
  unfold echo_mirror6. destruct (zlen p <? 60) eqn:E0; [by eexists _, None|].
  rewrite rd_ok by lia. cbn [rbind]. destruct (negb _); [by eexists _, None|].
  rewrite rd_ok by lia. cbn [rbind]. rewrite land15, shiftr4.
  remember ((p.[52] / 16) mod 16 * 4) as th eqn:Eth.
  destruct (zlen p <? 40 + th) eqn:E2; [by eexists _, None|].
  rewrite rdn_ok by lia. cbn [rbind]. rewrite rdn_ok by lia. cbn [rbind]. rewrite rd_ok by lia. cbn [rbind].
  rewrite rdn_ok by lia. cbn [rbind]. rewrite rdn_ok by lia. cbn [rbind].
  destruct (echo_seq_advance _ _ _ _ _ _) as [l' [sq|]]; [|by eexists _, None].
  destruct (pure_ack _ _); [by eexists _, None|].
  rewrite !at_slice by lia. destruct (echo_mirror_ack _ _ _) as [ack fl].
  destruct (rewrite6_ok p fl sq ack Hp Hl ltac:(lia)) as (q & Hr & Hq).
  change (40 + 0) with 40. change (40 + 1) with 41. change (40 + 2) with 42. change (40 + 3) with 43.
  rewrite Hr. cbn [rbind]. eexists _, (Some q). split; [done|]. by intros ? [= <-].
Qed.

(** The mirror returns on every packet; what it sends back is the mirror image. *)
Lemma echo_packet_ok l p now :
  bytes_ok p -> zlen p <= 65535 ->
  exists l' r, echo_packet l p now = Ret (l', r) /\
    forall q, r = Some q -> if is_six p then mirrored6 p q else mirrored4 p q.
Proof.
  intros Hp Hl. unfold echo_packet, is_six. destruct (zlen p >=? 1) eqn:E; cbn [rbind andb];
    [|by apply echo_mirror4_ok].
  rewrite rd_ok by lia. cbn [rbind]. rewrite shiftr4.
  destruct (_ =? 6); [by apply echo_mirror6_ok|by apply echo_mirror4_ok].
Qed.

(** The echo mirror reads and writes only inside the packet, returns on every
    packet of at most 65535 bytes, and what it sends back is the mirror image: the
    same length, source and destination addresses exchanged, ports exchanged, every
    byte behind the TCP checksum kept, and checksums (TCP over the pseudo-header,
    and the IPv4 header) that verify. *)
Theorem echo_packet_mirrors l p now :
  bytes_ok p -> zlen p <= 65535 ->
  exists l' r, echo_packet l p now = Ret (l', r) /\
    forall q, r = Some q -> if is_six p then mirrored6 p q else mirrored4 p q.
Proof. apply echo_packet_ok. Qed.

Module MirrorSample.

(** A SYN from 10.0.0.2:4000 to 8.8.8.8:80. *)
Definition syn4 : bytes :=
  [69; 0; 0; 40; 0; 1; 0; 0; 64; 6; 0; 0; 10; 0; 0; 2; 8; 8; 8; 8;
   15; 160; 0; 80; 1; 2; 3; 4; 0; 0; 0; 0; 80; 2; 255; 255; 0; 0; 0; 0].

End MirrorSample.

Lemma echo_packet_mirrors_witness :
  exists l' q, echo_packet Stream.table MirrorSample.syn4 1000 = Ret (l', Some q) /\
    slice q 12 4 = [8; 8; 8; 8] /\ slice q 16 4 = [10; 0; 0; 2].
Proof.
  destruct (echo_packet_mirrors Stream.table MirrorSample.syn4 1000) as (l' & r & H & Hr).
  - apply (bool_decide_unpack _). vm_compute. reflexivity.
  - vm_compute. discriminate.
  - destruct r as [q|]; [|exfalso; vm_compute in H; discriminate H]. exists l', q. split; [exact H|].
    destruct (Hr q eq_refl) as [_ _ Hs Hd _ _ _ _]. rewrite Hs, Hd. split; vm_compute; reflexivity.
Defined.
