(* ===== verification/Uplink.v ===== *)
(** * The datagram handler of the server (src/src/common/server.c, handle_udp)

    [handle_udp] maps the server's state and one datagram to the new state and the
    datagrams and packets that leave.  The lock is released and taken again inside a
    handler; what the other threads did in between is the function [gap k] of the
    environment, applied to the session table at the k-th such point.  The
    environment also supplies the clock readings, the random numbers and the results
    of the TUN writes. *)

From Stdlib Require Import Sorted.
From S2P Require Import Prelude Util Crypto Protocol Ipv4 Rate Session Open Echo.

(** ** The destination gate *)

Definition up_inner_dst_blocked4 (d : Z) : bool :=
  (Z.land d 4278190080 =? 2130706432) || (Z.land d 4278190080 =? 0) || (Z.land d 4294901760 =? 2851995648).

Definition up_inner_dst_in_tunnel (c : server_ctx) (d : Z) : bool :=
  if negb (subnet_set c) then false
  else if d =? ip4_u32 (server_ip c) then true
  else Z.land d (subnet_mask c) =? subnet_base c.

Definition lo6 : bytes := fill 0 15 ++ [1].
Definition v4mapped : bytes := fill 0 10 ++ [255; 255].
Definition nat64 : bytes := [0; 100; 255; 155] ++ fill 0 8.
Definition compat : bytes := fill 0 12.
Definition siit : bytes := fill 0 8 ++ [255; 255; 0; 0].

(** The offset of the embedded IPv4 address of a 16-byte address. *)
Definition embedded_at (d : bytes) : option Z :=
  let d12 := slice d 0 12 in
  if beq d12 v4mapped then Some 12
  else if beq d12 nat64 then Some 12
  else if beq d12 compat then Some 12
  else if beq d12 siit then Some 12
  else if (d.[0] =? 32) && (d.[1] =? 2) then Some 2
  else None.

Definition up_inner_dst_blocked6 (c : server_ctx) (d : bytes) : bool :=
  if beq d lo6 then true
  else if (d.[0] =? 254) && (Z.land d.[1] 192 =? 128) then true
  else
    match embedded_at d with
    | Some o =>
        let emb := ip4_u32 (slice d o 4) in
        up_inner_dst_blocked4 emb && negb (up_inner_dst_in_tunnel c emb)
    | None => false
    end.

(** The inner packet [pl] may enter the tunnel for the session address [a]. *)
Definition h1_gate (c : server_ctx) (a : Z) (pl : bytes) : res bool :=
  let! b0 := rd pl 0 in
  if Z.shiftr b0 4 =? 6 then
    let! r := ip6_pkt_ok pl in
    match r with
    | None => Ret false
    | Some (s6, d6) => Ret (beq s6 (ip6_derive_ula a) && negb (up_inner_dst_blocked6 c d6))
    end
  else
    let! r := ipv4_pkt_ok pl in
    match r with
    | None => Ret false
    | Some (sa, da) => Ret ((sa =? a) && negb (up_inner_dst_blocked4 da && negb (up_inner_dst_in_tunnel c da)))
    end.

(** ** State and environment *)

Record server := mk_server {
  srv_ctx : server_ctx;
  srv_rate : rate_state;
  srv_echo : list echo_conn;
  up_drop : Z;
  up_h1 : Z;
  dl_drops : Z
}.

Definition with_ctx (v : server) (c : server_ctx) : server :=
  let '(mk_server _ r e d h l) := v in mk_server c r e d h l.
Definition with_rate (v : server) (r : rate_state) : server :=
  let '(mk_server c _ e d h l) := v in mk_server c r e d h l.
Definition with_echo (v : server) (e : list echo_conn) : server :=
  let '(mk_server c r _ d h l) := v in mk_server c r e d h l.
Definition drop_inc (v : server) : server :=
  let '(mk_server c r e d h l) := v in mk_server c r e (u64 (d + 1)) h l.
Definition h1_inc (v : server) : server :=
  let '(mk_server c r e d h l) := v in mk_server c r e d (u64 (h + 1)) l.
Definition dl_inc (v : server) : server :=
  let '(mk_server c r e d h l) := v in mk_server c r e d h (u64 (l + 1)).
Definition rate_drop (v : server) : server := with_rate v (server_rate_drop_inc (srv_rate v)).

(** What the environment decides during one call. *)
Record udp_io := mk_io {
  now : Z;                              (* the clock at the top of handle_udp *)
  clk_rate : Z;                         (* the clock the limiter reads *)
  now_seen : Z;                         (* the clock stored as last activity *)
  now_stall : Z;                        (* the clock of a throttle stamp *)
  now_echo : Z;                         (* the clock of the echo table *)
  opens : open_io;
  srv_tun_single : bool;
  pool_ok : bool;                       (* tun_pool_write returns 0 *)
  write_ok : bool;                      (* tun_write_retry returns 0 *)
  throttle_ms : Z;
  gap : nat -> server_ctx -> server_ctx
}.

(** ** DATA *)

Inductive verdict :=
| VMiss
| VOver
| VBad (bound : bool)
| VThrottled
| VDrop
| VPass (e : Z) (xk : bytes) (a : Z).

Definition pass (c : server_ctx) (i : nat) (s : server_session) (t : Z) : server_ctx * verdict :=
  (set_sess c i (set_last_active s t), VPass (enc s) (xor_key s) (ip4_u32 (ip s))).

(** The part of the DATA case that holds the lock. *)
Definition data_auth (c : server_ctx) (sd tok : Z) (p : sockaddr_in) (io : udp_io) : server_ctx * verdict :=
  match find_session_unlocked c sd with
  | None => (c, VMiss)
  | Some i =>
      let s := sess_at c i in
      let peer_is_peer := same_peer (peer s) p in
      if negb peer_is_peer && tok_budget_over s (now io) then (c, VOver)
      else if negb (token s =? tok) then (c, VBad peer_is_peer)
      else if (tun_fd c >=? 0) && (now io <? throttle_until_ms s) then (c, VThrottled)
      else if peer_is_peer then pass c i s (now_seen io)
      else
        let c := gap io 0 c in
        match find_session_unlocked c sd with
        | None => (c, VDrop)
        | Some i =>
            let s := sess_at c i in
            if negb (token s =? tok)
            then (set_sess c i (tok_budget_charge s (same_peer (peer s) p) (now io)), VDrop)
            else if same_peer (peer s) p then pass c i s (now_seen io)
            else if negb (tok_rebind_allowed s (now io)) then (c, VDrop)
            else pass c i (set_peer s p) (now_seen io)
        end
  end.

(** The throttle stamp after a failed TUN write. *)
Definition stamp_throttle (c : server_ctx) (sd tok : Z) (io : udp_io) : server_ctx :=
  match find_session_unlocked c sd with
  | Some i =>
      let s := sess_at c i in
      if token s =? tok then set_sess c i (set_throttle s (u64 (now_stall io + throttle_ms io))) else c
  | None => c
  end.

(** The device accepts the packet: through the pool if there is one, else, or when the
    pool refuses, through the owner's descriptor. *)
Definition tun_written (c : server_ctx) (io : udp_io) : bool :=
  if qpool c && negb (srv_tun_single io) then pool_ok io || write_ok io else write_ok io.

Definition data_deliver (v : server) (sd tok : Z) (pl : bytes) (io : udp_io) : res (server * list output) :=
  let c := srv_ctx v in
  if tun_fd c >=? 0 then
    if tun_written c io then Ret (v, [TunWrite pl])
    else Ret (with_ctx (drop_inc v) (stamp_throttle (gap io 1 c) sd tok io), [])
  else
    let! (e, d, counted, ok) := echo_mirror (gap io 1 c) (srv_echo v) pl (now_echo io) in
    let v := with_echo (with_ctx v (gap io 1 c)) e in
    let v := if counted then dl_inc v else v in
    Ret (if ok then v else drop_inc v, match d with Some (q, b) => [Send q b] | None => [] end).

Definition handle_data (v : server) (typ : Z) (raw : bytes) (sd tok : Z) (p : sockaddr_in) (io : udp_io)
    : res (server * list output) :=
  let (c, r) := data_auth (srv_ctx v) sd tok p io in
  match r with
  | VMiss =>
      let (st, ok) := server_rate_allow_sid_miss (srv_rate v) (s_addr p) (now io) (clk_rate io) in
      let v := with_rate v st in
      Ret (if ok then v else rate_drop v, [])
  | VOver => Ret (rate_drop v, [])
  | VBad bound =>
      let (st, ok) := if bound then server_rate_allow_tokbad (srv_rate v) (s_addr p) (now io) (clk_rate io)
                      else (srv_rate v, true) in
      let v := with_rate v st in
      if ok then Ret (with_ctx v (tok_charge_upgrade (gap io 0 c) sd tok p (now io)), [])
      else Ret (rate_drop v, [])
  | VThrottled => Ret (rate_drop (drop_inc v), [])
  | VDrop => Ret (with_ctx v c, [])
  | VPass e xk a =>
      let v := with_ctx v c in
      if negb (typ =? (if e =? 0 then PT_DATA else PT_DATA_ENC)) then Ret (v, [])
      else if zlen raw <=? IWAN_HDR_LEN then Ret (h1_inc v, [])
      else
        let pl := drop (Z.to_nat IWAN_HDR_LEN) raw in
        let pl := if e =? 0 then pl else xor_crypt pl xk in
        let! ok := h1_gate c a pl in
        if ok then data_deliver v sd tok pl io else Ret (h1_inc v, [])
  end.

(** ** CLOSE *)

Definition handle_close (v : server) (sd tok : Z) (p : sockaddr_in) (io : udp_io) : server :=
  let c := srv_ctx v in
  match find_session_unlocked c sd with
  | None =>
      let (st, ok) := server_rate_allow_sid_miss (srv_rate v) (s_addr p) (now io) (clk_rate io) in
      let v := with_rate v st in
      if ok then v else rate_drop v
  | Some i =>
      let s := sess_at c i in
      let cls_bound := same_peer (peer s) p in
      if negb cls_bound && tok_budget_over s (now io) then rate_drop v
      else if negb (token s =? tok) then
        let (st, ok) := server_rate_allow_close (srv_rate v) (s_addr p) (now io) (clk_rate io) in
        let v := with_rate v st in
        if negb ok then rate_drop v
        else with_ctx v (tok_charge_upgrade (gap io 0 c) sd tok p (now io))
      else
        let c := gap io 0 c in
        match find_session_unlocked c sd with
        | None => with_ctx v c
        | Some i =>
            let s := sess_at c i in
            if negb (token s =? tok)
            then with_ctx v (set_sess c i (tok_budget_charge s (same_peer (peer s) p) (now io)))
            else if negb (s_addr (peer s) =? s_addr p) || negb (sin_port (peer s) =? sin_port p) then with_ctx v c
            else with_ctx v (sess_wipe c i)
        end
  end.

(** ** PING and ECHO *)

(** The keepalive part: the new table and whether the session was verified. *)
Definition keepalive (c : server_ctx) (sd tok : Z) (p : sockaddr_in) (io : udp_io) : server_ctx * bool :=
  match find_session_unlocked c sd with
  | None => (c, false)
  | Some i =>
      let s := sess_at c i in
      if negb (token s =? tok) then (c, false)
      else if same_peer (peer s) p then (set_sess c i (set_last_active s (now_seen io)), true)
      else
        let c := gap io 0 c in
        match find_session_unlocked c sd with
        | None => (c, false)
        | Some i =>
            let s := sess_at c i in
            if (token s =? tok) && tok_rebind_allowed s (now io)
            then (set_sess c i (set_last_active (set_peer s p) (now_seen io)), true)
            else (c, false)
        end
  end.

Section Handler.
Context `{OpenSSL}.

Definition handle_ping (v : server) (typ : Z) (raw : bytes) (sd tok : Z) (p : sockaddr_in) (io : udp_io)
    : res (server * list output) :=
  let (c, ok) := keepalive (srv_ctx v) sd tok p io in
  let v := with_ctx v c in
  if (typ =? PT_ECHO_REQ) && negb ok then Ret (v, [])
  else
    let! b := if typ =? PT_PING_REQ then ctrl_hdr [] PT_PING_RSP 0 IWAN_PING_SID IWAN_PING_TOK
              else let! r1 := rd raw 1 in ctrl_hdr [] PT_ECHO_RES r1 sd tok in
    Ret (v, [Send p b]).

Definition handle_udp (v : server) (users : list server_user) (raw : bytes) (p : sockaddr_in) (io : udp_io)
    : res (server * list output) :=
  if zlen raw <? IWAN_HDR_LEN then Ret (v, [])
  else
    let! h := rdn raw 0 IWAN_HDR_LEN in
    let typ := h.[0] in
    let sd := hdr_sid h in
    let tok := hdr_tok h in
    let (st, ok) := server_rate_allow_control (srv_rate v) (s_addr p) typ (clk_rate io) in
    let v := with_rate v st in
    if negb ok then Ret (v, [])
    else if typ =? PT_OPEN then
      let! (c, o) := handle_open (srv_ctx v) users raw p (opens io) in
      Ret (with_ctx v c, o)
    else if (typ =? PT_DATA) || (typ =? PT_DATA_ENC) then handle_data v typ raw sd tok p io
    else if typ =? PT_CLOSE then
      let! good := verify_sig raw in
      Ret (if good then handle_close v sd tok p io else v, [])
    else if (typ =? PT_PING_REQ) || (typ =? PT_ECHO_REQ) then
      let! good := verify_sig raw in
      if good then handle_ping v typ raw sd tok p io else Ret (v, [])
    else Ret (v, []).

End Handler.

(** ** The abstract session machine

    What one lock section may do to the table, stated with the guards the protocol
    promises.  [frame_step] is a section run for the frame [raw] from [p];
    [sys_step] is a section run for anyone, or an expiry. *)

Inductive frame_step `{OpenSSL} (users : list server_user) (raw : bytes) (p : sockaddr_in) (io : udp_io)
    : server_ctx -> server_ctx -> Prop :=
| F_charge c i s :
    live c i s -> sid s = hdr_sid raw -> token s <> hdr_tok raw ->
    frame_step users raw p io c (set_sess c i (tok_budget_charge s (same_peer (peer s) p) (now io)))
| F_seen c i s :
    live c i s -> sid s = hdr_sid raw -> token s = hdr_tok raw ->
    peer s = p \/ tok_rebind_allowed s (now io) = true ->
    frame_step users raw p io c (set_sess c i (set_last_active (set_peer s p) (now_seen io)))
| F_throttle c i s :
    live c i s -> sid s = hdr_sid raw -> token s = hdr_tok raw ->
    frame_step users raw p io c (set_sess c i (set_throttle s (u64 (now_stall io + throttle_ms io))))
| F_close c i s :
    live c i s -> sid s = hdr_sid raw -> token s = hdr_tok raw -> peer s = p ->
    raw.[0] = PT_CLOSE -> verify_sig raw = Ret true ->
    frame_step users raw p io c (sess_wipe c i)
| F_open c c' a pw o :
    raw.[0] = PT_OPEN -> bytes_ok raw -> open_accepts users raw a pw ->
    open_session c p (opens io) a pw = Ret (c', o) ->
    frame_step users raw p io c c'.

Definition sys_step `{OpenSSL} (users : list server_user) (c c' : server_ctx) : Prop :=
  (exists raw p io, bytes_ok raw /\ frame_step users raw p io c c') \/ exists t, c' = purge_expired c t.

(** The other threads run the same program. *)
Definition rely `{OpenSSL} (users : list server_user) (io : udp_io) : Prop :=
  forall k c, rtc (sys_step users) c (gap io k c).

(** The table as one call sees it: its own sections and the other threads'. *)
Definition call_step `{OpenSSL} (users : list server_user) (raw : bytes) (p : sockaddr_in) (io : udp_io)
    (c c' : server_ctx) : Prop :=
  frame_step users raw p io c c' \/ exists k, c' = gap io k c.

Lemma set_last_core s t : same_core s (set_last_active s t).
Proof. by destruct s. Qed.
Lemma set_peer_core s p : same_core s (set_peer s p).
Proof. by destruct s. Qed.
Lemma set_throttle_core s t : same_core s (set_throttle s t).
Proof. by destruct s. Qed.

Lemma set_peer_id s p : peer s = p -> set_peer s p = s.
Proof. intros <-. by destruct s. Qed.

Lemma same_peer_true a b : same_peer a b = true <-> a = b.
Proof. apply bool_decide_eq_true. Qed.

(** The OPEN section keeps the table or installs one session. *)
Lemma open_section `{OpenSSLLaws} users raw c c' p io a pw o :
  ctx_ok c -> bytes_ok raw -> open_accepts users raw a pw -> open_session c p io a pw = Ret (c', o) ->
  c' = c \/ exists slot s, installed c c' p io a pw slot s /\ ctx_ok c' /\ same_cfg c c'.
Proof.
  intros Hok Hraw Ha E. destruct (handle_open_accept c users raw p io a pw Hraw Ha) as [_ Hoc].
  destruct (open_session_cases _ _ _ _ _ _ _ Hok Hoc E) as [[-> _]|(slot & s & b & Hin & Hok' & Hc & _)]; [by left|].
  right. by exists slot, s.
Qed.

Lemma frame_step_ok `{OpenSSLLaws} users raw p io c c' :
  ctx_ok c -> frame_step users raw p io c c' -> ctx_ok c' /\ same_cfg c c'.
Proof.
  intros Hok Hs. destruct Hs as [c i s Hl|c i s Hl|c i s Hl|c i s Hl|c c' a pw o _ Hraw Ha E];
    [..|by destruct (open_section _ _ _ _ _ _ _ _ _ Hok Hraw Ha E) as [-> |(slot & s & _ & ? & ?)]];
    try (pose proof (ok_live c Hok i s Hl) as Hlo);
    (split; [|first [apply same_cfg_set_sess|apply same_cfg_wipe]]).
  - by apply ctx_ok_charge.
  - apply (ctx_ok_core c i s); [done|done|by destruct s|destruct s; apply Hlo|destruct s; apply Hlo].
  - apply (ctx_ok_core c i s); [done|done|by destruct s|destruct s; apply Hlo|destruct s; apply Hlo].
  - by apply ctx_ok_wipe.
Qed.

Lemma sys_step_ok `{OpenSSLLaws} users c c' : ctx_ok c -> sys_step users c c' -> ctx_ok c' /\ same_cfg c c'.
Proof.
  intros Hok [(raw & p & io & _ & Hs)|[t ->]]; [by eapply frame_step_ok|].
  by destruct (purge_expired_spec c t Hok) as (? & ? & _).
Qed.

Lemma sys_steps_ok `{OpenSSLLaws} users c c' : rtc (sys_step users) c c' -> ctx_ok c -> ctx_ok c' /\ same_cfg c c'.
Proof.
  induction 1 as [c|a b c Hab _ IH]; intros Hok; [done|].
  destruct (sys_step_ok _ _ _ Hok Hab) as [Hb Hc]. destruct (IH Hb). split; [done|]. by transitivity b.
Qed.

Lemma gap_ok `{OpenSSLLaws} users io k c : rely users io -> ctx_ok c -> ctx_ok (gap io k c) /\ same_cfg c (gap io k c).
Proof. intros Hr. apply (sys_steps_ok users), Hr. Qed.

Lemma call_steps_ok `{OpenSSLLaws} users raw p io c c' :
  rely users io -> rtc (call_step users raw p io) c c' -> ctx_ok c -> ctx_ok c' /\ same_cfg c c'.
Proof.
  intros Hr. induction 1 as [c|a b c Hab _ IH]; intros Hok; [done|].
  assert (ctx_ok b /\ same_cfg a b) as [Hb Hc].
  { destruct Hab as [Hf|[k ->]]; [by eapply frame_step_ok|by eapply gap_ok]. }
  destruct (IH Hb). split; [done|]. by transitivity b.
Qed.

(** ** The handlers refine the machine *)

Lemma find_live c sd i :
  ctx_ok c -> find_session_unlocked c sd = Some i -> exists s, live c i s /\ sid s = sd /\ sess_at c i = s.
Proof.
  intros Hok Hf. apply find_session_Some in Hf as (s & Hl & Hs); [|done]. exists s. split_and!; [done..|].
  by apply live_sess_at.
Qed.

Lemma live_set_sess c i s t : live c i s -> valid t = true -> live (set_sess c i t) i t.
Proof.
  intros [Hl _] Hv. split; [|done]. rewrite sess_set_sess, list_lookup_insert_eq; [done|]. by eapply lookup_lt_Some.
Qed.

Section Refine.
Context `{OpenSSLLaws}.
Variable users : list server_user.
Variable raw : bytes.
Variable p : sockaddr_in.
Variable io : udp_io.
Hypothesis Hrely : rely users io.
Abbreviation sd := (hdr_sid raw).
Abbreviation tok := (hdr_tok raw).
Abbreviation steps := (rtc (call_step users raw p io)).

Lemma step_frame c c' : frame_step users raw p io c c' -> steps c c'.
Proof. intros Hs. apply rtc_once. by left. Qed.

Lemma step_gap k c : steps c (gap io k c).
Proof. apply rtc_once. right. by exists k. Qed.

Lemma charge_steps c : ctx_ok c -> steps c (tok_charge_upgrade c sd tok p (now io)).
Proof.
  intros Hok. unfold tok_charge_upgrade. destruct (find_session_unlocked c sd) as [i|] eqn:Ef; [|done].
  apply find_live in Ef as (s & Hl & Hs & ->); [|done]. destruct (token s =? tok) eqn:Et; cbn [negb]; [done|].
  apply step_frame, F_charge; [done|done|lia].
Qed.

Lemma throttle_steps c : ctx_ok c -> steps c (stamp_throttle c sd tok io).
Proof.
  intros Hok. unfold stamp_throttle. destruct (find_session_unlocked c sd) as [i|] eqn:Ef; [|done].
  apply find_live in Ef as (s & Hl & Hs & ->); [|done]. destruct (token s =? tok) eqn:Et; [|done].
  apply step_frame, F_throttle; [done|done|lia].
Qed.

(** The session a passed frame speaks for, as the table holds it afterwards. *)
Definition owner (c : server_ctx) (s : server_session) : Prop :=
  exists i, live c i s /\ sid s = sd /\ token s = tok /\ peer s = p /\ last_active_ms s = now_seen io.

Lemma pass_steps c i s :
  ctx_ok c -> live c i s -> sid s = sd -> token s = tok -> peer s = p \/ tok_rebind_allowed s (now io) = true ->
  let t := set_last_active (set_peer s p) (now_seen io) in
  steps c (set_sess c i t) /\ owner (set_sess c i t) t.
Proof.
  intros Hok Hl Hs Ht Hp t. split; [by apply step_frame, F_seen|].
  exists i. split; [eapply live_set_sess; [done|]; destruct Hl; by destruct s|]. destruct s. cbn in *. by subst.
Qed.

Lemma data_auth_steps c c' r :
  ctx_ok c -> data_auth c sd tok p io = (c', r) ->
  steps c c' /\
  match r with
  | VPass e xk a => exists s, owner c' s /\ e = enc s /\ xk = xor_key s /\ a = ip4_u32 (ip s)
  | VMiss | VOver | VBad _ | VThrottled => c' = c
  | VDrop => True
  end.
Proof.
  intros Hok. unfold data_auth. destruct (find_session_unlocked c sd) as [i|] eqn:Ef; [|by intros [= <- <-]].
  apply find_live in Ef as (s & Hl & Hs & ->); [|done].
  destruct (negb (same_peer (peer s) p) && _); [by intros [= <- <-]|].
  destruct (token s =? tok) eqn:Et; cbn [negb]; [|by intros [= <- <-]].
  destruct (_ && (now io <? _)); [by intros [= <- <-]|].
  destruct (same_peer (peer s) p) eqn:Ep.
  { apply same_peer_true in Ep. unfold pass. intros [= <- <-].
    destruct (pass_steps c i s Hok Hl Hs ltac:(lia) (or_introl Ep)) as [H1 H2].
    rewrite (set_peer_id s p Ep) in H1, H2. split; [done|]. eexists. split; [done|]. by destruct s. }
  destruct (gap_ok users io 0 c Hrely Hok) as [Hok1 _]. set (c1 := gap io 0 c) in *.
  assert (steps c c1) as H01 by apply step_gap.
  destruct (find_session_unlocked c1 sd) as [j|] eqn:Ef; [|by intros [= <- <-]].
  apply find_live in Ef as (t & Hl1 & Hs1 & ->); [|done].
  destruct (token t =? tok) eqn:Et1; cbn [negb].
  2: { intros [= <- <-]. split; [|done]. etransitivity; [done|]. apply step_frame, F_charge; [done|done|lia]. }
  destruct (same_peer (peer t) p) eqn:Ep1; [|destruct (tok_rebind_allowed t (now io)) eqn:Er; cbn [negb];
    [|by intros [= <- <-]]].
  - apply same_peer_true in Ep1. unfold pass. intros [= <- <-].
    destruct (pass_steps c1 j t Hok1 Hl1 Hs1 ltac:(lia) (or_introl Ep1)) as [H1 H2].
    rewrite (set_peer_id t p Ep1) in H1, H2. split; [by transitivity c1|]. eexists. split; [done|]. by destruct t.
  - unfold pass. intros [= <- <-].
    destruct (pass_steps c1 j t Hok1 Hl1 Hs1 ltac:(lia) (or_intror Er)) as [H1 H2].
    split; [by transitivity c1|]. eexists. split; [done|]. by destruct t.
Qed.

Lemma close_steps v :
  ctx_ok (srv_ctx v) -> raw.[0] = PT_CLOSE -> verify_sig raw = Ret true ->
  steps (srv_ctx v) (srv_ctx (handle_close v sd tok p io)).
Proof.
  destruct v as [c rt ec d h l]. cbn [srv_ctx]. intros Hok Hty Hsig. unfold handle_close. cbn [srv_ctx srv_rate].
  destruct (find_session_unlocked c sd) as [i|] eqn:Ef.
  2: { destruct (server_rate_allow_sid_miss _ _ _ _) as [st [|]]; done. }
  apply find_live in Ef as (s & Hl & Hs & ->); [|done].
  destruct (gap_ok users io 0 c Hrely Hok) as [Hok1 _]. set (c1 := gap io 0 c) in *.
  assert (steps c c1) as H01 by apply step_gap.
  destruct (negb (same_peer (peer s) p) && _); [done|].
  destruct (token s =? tok) eqn:Et; cbn [negb].
  2: { destruct (server_rate_allow_close _ _ _ _) as [st [|]]; [|done]. cbn.
       etransitivity; [done|]. by apply charge_steps. }
  destruct (find_session_unlocked c1 sd) as [j|] eqn:Ef; [|done].
  apply find_live in Ef as (t & Hl1 & Hs1 & ->); [|done].
  destruct (token t =? tok) eqn:Et1; cbn [negb].
  2: { cbn. etransitivity; [done|]. apply step_frame, F_charge; [done|done|lia]. }
  destruct (_ || _) eqn:Ea; [done|]. cbn. etransitivity; [done|]. eapply step_frame, F_close; try done; [lia|].
  destruct (peer t), p. cbn in Ea. f_equal; lia.
Qed.

Lemma keepalive_steps c c' ok :
  ctx_ok c -> keepalive c sd tok p io = (c', ok) ->
  steps c c' /\ (ok = true -> exists s, owner c' s).
Proof.
  intros Hok. unfold keepalive. destruct (find_session_unlocked c sd) as [i|] eqn:Ef; [|by intros [= <- <-]].
  apply find_live in Ef as (s & Hl & Hs & ->); [|done].
  destruct (token s =? tok) eqn:Et; cbn [negb]; [|by intros [= <- <-]].
  destruct (same_peer (peer s) p) eqn:Ep.
  { apply same_peer_true in Ep. intros [= <- <-].
    destruct (pass_steps c i s Hok Hl Hs ltac:(lia) (or_introl Ep)) as [H1 H2].
    rewrite (set_peer_id s p Ep) in H1, H2. split; [done|]. by eexists. }
  destruct (gap_ok users io 0 c Hrely Hok) as [Hok1 _]. set (c1 := gap io 0 c) in *.
  assert (steps c c1) as H01 by apply step_gap.
  destruct (find_session_unlocked c1 sd) as [j|] eqn:Ef; [|by intros [= <- <-]].
  apply find_live in Ef as (t & Hl1 & Hs1 & ->); [|done].
  destruct (_ && _) eqn:Et1; [|by intros [= <- <-]]. intros [= <- <-].
  destruct (pass_steps c1 j t Hok1 Hl1 Hs1 ltac:(lia)) as [H1 H2]; [right; by apply andb_true_iff in Et1 as [_ ?]|].
  split; [by transitivity c1|]. by eexists.
Qed.

End Refine.

(** ** The gate *)

(** Addresses of the host itself: 127.0.0.0/8, 0.0.0.0/8 and 169.254.0.0/16. *)
Definition host_local4 (d : Z) : Prop := d / 2 ^ 24 = 127 \/ d / 2 ^ 24 = 0 \/ d / 2 ^ 16 = 169 * 256 + 254.

Lemma blocked4_spec d : 0 <= d < 2 ^ 32 -> up_inner_dst_blocked4 d = true <-> host_local4 d.
Proof.
  intros Hd. unfold up_inner_dst_blocked4, host_local4.
  destruct (land_mask_base d 8 Hd) as [H8 _]; [lia|]. destruct (land_mask_base d 16 Hd) as [H16 _]; [lia|].
  change (u32 (Z.shiftl 4294967295 (32 - 8))) with 4278190080 in H8.
  change (u32 (Z.shiftl 4294967295 (32 - 16))) with 4294901760 in H16.
  rewrite H8, H16. change (2 ^ (32 - 8)) with 16777216. change (2 ^ (32 - 16)) with 65536.
  change (2 ^ 24) with 16777216. change (2 ^ 16) with 65536.
  rewrite !orb_true_iff, !Z.eqb_eq. lia.
Qed.

(** What may enter the network from the session with address [a]. *)
Definition may_enter (c : server_ctx) (a : Z) (pl : bytes) : Prop :=
  if pl.[0] / 16 =? 6 then
    ip6_valid pl /\ slice pl 8 16 = ip6_derive_ula a /\ up_inner_dst_blocked6 c (slice pl 24 16) = false
  else
    ipv4_valid pl /\ be32 pl.[12] pl.[13] pl.[14] pl.[15] = a /\
    let d := be32 pl.[16] pl.[17] pl.[18] pl.[19] in
    host_local4 d -> up_inner_dst_in_tunnel c d = true.

Lemma h1_gate_spec c a pl :
  bytes_ok pl -> 0 < zlen pl -> exists b, h1_gate c a pl = Ret b /\ (b = true <-> may_enter c a pl).
Proof.
  intros Hp Hl. unfold h1_gate, may_enter. rewrite rd_ok by lia. cbn [rbind]. rewrite shiftr4.
  destruct (pl.[0] / 16 =? 6).
  - rewrite ip6_pkt_ok_spec by done. cbn [rbind]. destruct (decide (ip6_valid pl)) as [Hv|Hv].
    + eexists. split; [done|]. rewrite andb_true_iff, beq_true, negb_true_iff. tauto.
    + exists false. split; [done|]. split; [done|tauto].
  - rewrite ipv4_pkt_ok_spec by done. cbn [rbind]. destruct (decide (ipv4_valid pl)) as [Hv|Hv].
    + eexists. split; [done|]. rewrite andb_true_iff, Z.eqb_eq, negb_true_iff, andb_false_iff, negb_false_iff.
      rewrite <- blocked4_spec by (apply be32_range; by apply at_byte).
      destruct (up_inner_dst_blocked4 _); intuition congruence.
    + exists false. split; [done|]. split; [done|tauto].
Qed.

Lemma prefix_window x y : zlen x = 12 -> slice (x ++ y) 0 12 = x.
Proof. intros. apply slice_app_l; lia. Qed.

Lemma put32_window x v y : zlen x = 12 \/ zlen x = 2 -> slice (x ++ put32 v ++ y) (zlen x) 4 = put32 v.
Proof. intros. apply slice_app_mid; done. Qed.

(** ** The whole handler *)

Lemma hdr_of_frame raw :
  8 <= zlen raw ->
  (slice raw 0 8).[0] = raw.[0] /\ hdr_sid (slice raw 0 8) = hdr_sid raw /\ hdr_tok (slice raw 0 8) = hdr_tok raw.
Proof. intros. unfold hdr_sid, hdr_tok. rewrite !at_slice by lia. done. Qed.

Lemma ctx_with v c : srv_ctx (with_ctx v c) = c.
Proof. by destruct v. Qed.
Lemma ctx_with_rate v r : srv_ctx (with_rate v r) = srv_ctx v.
Proof. by destruct v. Qed.
Lemma ctx_rate_drop v : srv_ctx (rate_drop v) = srv_ctx v.
Proof. by destruct v. Qed.
Lemma ctx_drop_inc v : srv_ctx (drop_inc v) = srv_ctx v.
Proof. by destruct v. Qed.
Lemma ctx_h1_inc v : srv_ctx (h1_inc v) = srv_ctx v.
Proof. by destruct v. Qed.
Lemma ctx_dl_inc v : srv_ctx (dl_inc v) = srv_ctx v.
Proof. by destruct v. Qed.
Lemma ctx_with_echo v e : srv_ctx (with_echo v e) = srv_ctx v.
Proof. by destruct v. Qed.

Create Rewrite HintDb srv.
#[global] Hint Rewrite ctx_with ctx_with_rate ctx_rate_drop ctx_drop_inc ctx_h1_inc ctx_dl_inc ctx_with_echo : srv.

Lemma drop_len n (d : bytes) : 0 <= n <= zlen d -> zlen (drop (Z.to_nat n) d) = zlen d - n.
Proof. intros. rewrite zlen_drop. lia. Qed.

Section Whole.
Context `{OpenSSLLaws}.
Variable users : list server_user.
Variable raw : bytes.
Variable p : sockaddr_in.
Variable io : udp_io.
Hypothesis Hrely : rely users io.
Hypothesis Hraw : bytes_ok raw.
Hypothesis Hlen : zlen raw <= 65535.
Abbreviation sd := (hdr_sid raw).
Abbreviation tok := (hdr_tok raw).
Abbreviation steps := (rtc (call_step users raw p io)).

Lemma data_deliver_spec v pl :
  ctx_ok (srv_ctx v) -> bytes_ok pl -> zlen pl <= 65535 ->
  exists v' o, data_deliver v sd tok pl io = Ret (v', o) /\ steps (srv_ctx v) (srv_ctx v') /\
    (forall q, TunWrite q ∈ o -> q = pl).
Proof.
  intros Hok Hpl Hl. unfold data_deliver.
  destruct (gap_ok users io 1 (srv_ctx v) Hrely Hok) as [Hok1 _].
  assert (steps (srv_ctx v) (gap io 1 (srv_ctx v))) as Hg by apply step_gap.
  destruct (tun_fd (srv_ctx v) >=? 0).
  - destruct (tun_written (srv_ctx v) io).
    + eexists _, _. split; [done|]. split; [done|]. by intros q [= ->]%list_elem_of_singleton.
    + eexists _, _. split; [done|]. autorewrite with srv. split; [|by intros q ?%elem_of_nil].
      etransitivity; [done|]. by apply throttle_steps.
  - unfold echo_mirror. destruct (echo_packet_ok (srv_echo v) pl (now_echo io) Hpl Hl) as (l' & r & -> & Hr).
    cbn [rbind]. destruct r as [q|].
    + assert (bytes_ok q) as Hq.
      { specialize (Hr q eq_refl). destruct (is_six pl); [apply (m6_ok _ _ Hr)|apply (m4_ok _ _ Hr)]. }
      destruct (handle_tun_downlink_total _ q Hok1 Hq) as [[d counted] ->]. cbn [rbind].
      eexists _, _. split; [done|]. destruct counted; autorewrite with srv; (split; [done|]);
        (intros q' Hq'; destruct d as [[to b]|]; [by apply list_elem_of_singleton in Hq'|by apply elem_of_nil in Hq']).
    + cbn [rbind]. eexists _, _. split; [done|]. autorewrite with srv. split; [done|]. by intros q ?%elem_of_nil.
Qed.

(** The payload as the session's owner meant it. *)
Definition payload (s : server_session) : bytes :=
  let pl := drop 8 raw in if enc s =? 0 then pl else xor_crypt pl (xor_key s).

Lemma handle_data_spec v :
  ctx_ok (srv_ctx v) -> 8 <= zlen raw ->
  exists v' o, handle_data v raw.[0] raw sd tok p io = Ret (v', o) /\ steps (srv_ctx v) (srv_ctx v') /\
    (forall q, TunWrite q ∈ o ->
       exists c1 s, steps (srv_ctx v) c1 /\ ctx_ok c1 /\ owner raw p io c1 s /\
         raw.[0] = (if enc s =? 0 then PT_DATA else PT_DATA_ENC) /\ q = payload s /\
         may_enter c1 (ip4_u32 (ip s)) q).
Proof.
  intros Hok H8. unfold handle_data.
  destruct (data_auth (srv_ctx v) sd tok p io) as [c r] eqn:Ea.
  destruct (data_auth_steps users raw p io Hrely _ _ _ Hok Ea) as [Hst Hr].
  assert (forall w, srv_ctx w = srv_ctx v \/ srv_ctx w = c ->
    exists v' o, Ret (w, []) = Ret (v', o) /\ steps (srv_ctx v) (srv_ctx v') /\
      (forall q, TunWrite q ∈ o -> exists c1 s, steps (srv_ctx v) c1 /\ ctx_ok c1 /\ owner raw p io c1 s /\
         raw.[0] = (if enc s =? 0 then PT_DATA else PT_DATA_ENC) /\ q = payload s /\
         may_enter c1 (ip4_u32 (ip s)) q)) as Hsilent.
  { intros w Hw. eexists _, _. split; [done|]. split; [by destruct Hw as [-> | ->]|]. by intros q ?%elem_of_nil. }
  destruct r as [| |bound| | |e xk a].
  - destruct (server_rate_allow_sid_miss _ _ _ _) as [st [|]]; apply Hsilent; left; by autorewrite with srv.
  - apply Hsilent. left. by autorewrite with srv.
  - destruct (if bound then _ else _) as [st [|]]; [|apply Hsilent; left; by autorewrite with srv].
    eexists _, _. split; [done|]. autorewrite with srv. split; [|by intros q ?%elem_of_nil]. subst c.
    etransitivity; [apply (step_gap users raw p io 0)|]. apply charge_steps. by apply (gap_ok users).
  - apply Hsilent. left. by autorewrite with srv.
  - apply Hsilent. right. by autorewrite with srv.
  - destruct Hr as (s & Hown & -> & -> & ->).
    destruct (call_steps_ok _ _ _ _ _ _ Hrely Hst Hok) as [Hokc _].
    destruct (negb _) eqn:Ety; [apply Hsilent; right; by autorewrite with srv|].
    unfold IWAN_HDR_LEN. destruct (zlen raw <=? 8) eqn:E8; [apply Hsilent; right; by autorewrite with srv|].
    fold (payload s). change (Z.to_nat 8) with 8%nat. fold (payload s).
    assert (bytes_ok (payload s) /\ zlen (payload s) = zlen raw - 8) as [Hpl Hpn].
    { assert (zlen (drop 8 raw) = zlen raw - 8) as Hd by (rewrite zlen_drop; lia).
      unfold payload. destruct (enc s =? 0); [split; [bok|lia]|].
      destruct Hown as (i & Hl & _). destruct (lo_key _ _ (ok_live _ Hokc i s Hl)) as [Hk1 Hk2].
      split; [apply xor_crypt_ok; [bok|done]|rewrite xor_crypt_len; [lia|bok|done]]. }
    destruct (h1_gate_spec c (ip4_u32 (ip s)) (payload s) Hpl ltac:(lia)) as (b & -> & Hb). cbn [rbind].
    destruct b; [|apply Hsilent; right; by autorewrite with srv].
    destruct (data_deliver_spec (with_ctx v c) (payload s)) as (v' & o & -> & Hs' & Ho);
      [by autorewrite with srv|done|lia|].
    autorewrite with srv in Hs'. eexists _, _. split; [done|]. split; [by transitivity c|].
    intros q Hq. apply Ho in Hq as ->. exists c, s. split_and!; try done; [|by apply Hb].
    apply negb_false_iff, Z.eqb_eq in Ety. done.
Qed.

(** A frame's outputs to the network come from a session that owns them. *)
Definition delivered (v : server) (q : bytes) : Prop :=
  exists c1 s, steps (srv_ctx v) c1 /\ ctx_ok c1 /\ owner raw p io c1 s /\
    raw.[0] = (if enc s =? 0 then PT_DATA else PT_DATA_ENC) /\ q = payload s /\
    may_enter c1 (ip4_u32 (ip s)) q.

Lemma handle_ping_spec v :
  ctx_ok (srv_ctx v) -> 8 <= zlen raw ->
  exists v' o, handle_ping v raw.[0] raw sd tok p io = Ret (v', o) /\ steps (srv_ctx v) (srv_ctx v') /\
    (forall q, TunWrite q ∈ o -> False).
Proof.
  intros Hok H8. unfold handle_ping. destruct (keepalive (srv_ctx v) sd tok p io) as [c ok] eqn:Ek.
  destruct (keepalive_steps users raw p io Hrely _ _ _ Hok Ek) as [Hst _].
  destruct (_ && _); [eexists _, _; split; [done|]; autorewrite with srv; split; [done|by intros q ?%elem_of_nil]|].
  destruct (raw.[0] =? PT_PING_REQ); [|rewrite rd_ok by lia]; cbn [rbind]; rewrite ctrl_hdr_ok; cbn [rbind];
    (eexists _, _; split; [done|]; autorewrite with srv; split; [done|by intros q ?%list_elem_of_singleton]).
Qed.

Lemma open_steps c c' o :
  ctx_ok c -> raw.[0] = PT_OPEN -> handle_open c users raw p (opens io) = Ret (c', o) ->
  steps c c' /\ (forall q, TunWrite q ∈ o -> False).
Proof.
  intros Hok Hty E. destruct (handle_open_inv _ _ _ _ _ _ _ Hok Hraw E)
    as [[-> Ho]|(a & pw & slot & s & b & Ha & _ & Hin & Hok' & Hc & _ & ->)].
  - split; [done|]. intros q Hq. destruct Ho as [-> |(b & -> & _)]; [by apply elem_of_nil in Hq|].
    by apply list_elem_of_singleton in Hq.
  - split; [|by intros q ?%list_elem_of_singleton].
    destruct (handle_open_accept c users raw p (opens io) a pw Hraw Ha) as [E' _]. rewrite E' in E.
    by eapply step_frame, F_open.
Qed.

Lemma handle_udp_spec v :
  ctx_ok (srv_ctx v) -> Exists (fun t => u32 t <> 0) (rands (opens io)) ->
  exists v' o, handle_udp v users raw p io = Ret (v', o) /\ steps (srv_ctx v) (srv_ctx v') /\
    (forall q, TunWrite q ∈ o -> delivered v q).
Proof.
  intros Hok Hr. unfold handle_udp, IWAN_HDR_LEN.
  assert (forall w, srv_ctx w = srv_ctx v -> exists v' o, Ret (w, []) = Ret (v', o) /\
    steps (srv_ctx v) (srv_ctx v') /\ (forall q, TunWrite q ∈ o -> delivered v q)) as Hsilent.
  { intros w Hw. eexists _, _. split; [done|]. split; [by rewrite Hw|by intros q ?%elem_of_nil]. }
  destruct (zlen raw <? 8) eqn:E8; [by apply Hsilent|]. rewrite rdn_ok by lia. cbn [rbind].
  destruct (hdr_of_frame raw ltac:(lia)) as (-> & -> & ->).
  destruct (server_rate_allow_control _ _ _ _) as [st ok].
  assert (srv_ctx (with_rate v st) = srv_ctx v) as Hv by by autorewrite with srv.
  remember (with_rate v st) as w eqn:Ew. clear Ew.
  destruct ok; cbn [negb]; [|by apply Hsilent].
  destruct (raw.[0] =? PT_OPEN) eqn:Eo.
  { rewrite Hv. destruct (handle_open_returns (srv_ctx v) users raw p (opens io) Hok Hraw Hr) as [[c o] Ec].
    rewrite Ec. cbn [rbind]. destruct (open_steps _ _ _ Hok ltac:(lia) Ec) as [Hst Ho].
    eexists _, _. split; [done|]. autorewrite with srv. split; [done|]. by intros q ?%Ho. }
  destruct ((raw.[0] =? PT_DATA) || (raw.[0] =? PT_DATA_ENC)) eqn:Ed.
  { destruct (handle_data_spec w) as (v' & o & -> & Hst & Ho); [by rewrite Hv|lia|]. rewrite Hv in *.
    eexists _, _. split; [done|]. split; [done|]. exact Ho. }
  destruct (raw.[0] =? PT_CLOSE) eqn:Ec.
  { destruct (verify_sig raw) as [[|]|] eqn:Es; [|cbn [rbind]; by apply Hsilent|by rewrite verify_sig_spec in Es].
    cbn [rbind]. eexists _, _. split; [done|]. split; [|by intros q ?%elem_of_nil].
    rewrite <- Hv at 1. apply close_steps; [done|by rewrite Hv|lia|done]. }
  destruct ((raw.[0] =? PT_PING_REQ) || (raw.[0] =? PT_ECHO_REQ)) eqn:Ep; [|by apply Hsilent].
  rewrite verify_sig_spec. cbn [rbind]. destruct (if _ <? _ then _ else _); [|by apply Hsilent].
  destruct (handle_ping_spec w) as (v' & o & -> & Hst & Ho); [by rewrite Hv|lia|]. rewrite Hv in *.
  eexists _, _. split; [done|]. split; [done|]. by intros q ?%Ho.
Qed.

End Whole.

Lemma wiped_gone c i t :
  ctx_ok c -> live c i t ->
  (forall u, ~ live (sess_wipe c i) i u) /\ find_session_unlocked (sess_wipe c i) (sid t) = None /\
  find_session_by_ip_unlocked (sess_wipe c i) (ip t) = None /\
  exists w, sess (sess_wipe c i) !! i = Some w /\ valid w = false /\ token w = 0 /\ xor_key w = fill 0 8.
Proof.
  intros Hok Ht. assert (forall u, ~ live (sess_wipe c i) i u) as Hno.
  { intros u [Hu Hv]. rewrite (sess_wipe_live c i t Ht), sess_set_map, sess_set_sess in Hu.
    rewrite list_lookup_insert_eq in Hu by (destruct Ht; by eapply lookup_lt_Some).
    injection Hu as <-. by rewrite valid_wiped in Hv. }
  assert (forall k u, live (sess_wipe c i) k u -> k <> i /\ live c k u) as Hrest.
  { intros k u Hk. destruct (decide (k = i)) as [-> |Hki]; [by apply Hno in Hk|].
    destruct Hk as [Hu Hv]. rewrite sess_wipe_other in Hu by done. done. }
  pose proof (ok_live c Hok i t Ht) as Hlo. pose proof (ctx_ok_wipe c i Hok) as Hok'. split_and!; [done|..].
  - apply find_session_None; [done|]. intros k u Hk Hsu. apply Hrest in Hk as [Hki Hk].
    by apply Hki, (live_sid_inj c k i u t Hok).
  - destruct (find_session_by_ip_unlocked _ _) as [k|] eqn:E; [|done]. exfalso.
    apply find_by_ip_Some in E as (u & Hk & Hip); [|done|apply Hlo..]. apply Hrest in Hk as [Hki Hk].
    by apply Hki, (same_ip_same_slot c k i u t Hok).
  - exists (wiped t). split; [|split; [apply valid_wiped|by apply (wiped_dead c)]].
    rewrite (sess_wipe_live c i t Ht), sess_set_map, sess_set_sess, list_lookup_insert_eq; [done|].
    destruct Ht. by eapply lookup_lt_Some.
Qed.

(** ** Main theorems *)

(** C1: [handle_udp] refines the session machine.  On every datagram, over every
    well-formed table and under any interference by other threads running the same
    program, the handler returns (no out-of-bounds access, no abort), its effect on
    the session table is a sequence of the machine's guarded steps interleaved with
    the other threads', and the table is well formed afterwards with its
    configuration untouched. *)
Theorem handle_udp_refines `{OpenSSLLaws} v users raw p io :
  ctx_ok (srv_ctx v) -> rely users io -> bytes_ok raw -> zlen raw <= 65535 ->
  Exists (fun t => u32 t <> 0) (rands (opens io)) ->
  exists v' o, handle_udp v users raw p io = Ret (v', o) /\
    rtc (call_step users raw p io) (srv_ctx v) (srv_ctx v') /\
    ctx_ok (srv_ctx v') /\ same_cfg (srv_ctx v) (srv_ctx v').
Proof.
  intros Hok Hr Hraw Hl Hn. destruct (handle_udp_spec users raw p io Hr Hraw Hl v Hok Hn) as (v' & o & E & Hs & _).
  destruct (call_steps_ok _ _ _ _ _ _ Hr Hs Hok). by exists v', o.
Qed.

(** C4: every table the running server can reach is well formed.  Starting from any
    accepted configuration, after any interleaving of lock sections of any number of
    threads (datagrams of any content from anyone, and idle expiry), the session
    index is exact, each user has one session, addresses are unique and inside the
    pool, live tokens are non-zero and dead slots hold no secrets. *)
Theorem reachable_well_formed `{OpenSSLLaws} users sip dip subnet tun pool c0 c :
  bytes_ok sip -> zlen sip = 4 -> bytes_ok dip -> zlen dip = 4 -> cstr_ok subnet ->
  server_setup sip dip subnet tun pool = Some c0 ->
  rtc (sys_step users) c0 c ->
  ctx_ok c /\ same_cfg c0 c.
Proof.
  intros H1 H2 H3 H4 H5 H6 H7. eapply sys_steps_ok; [exact H7|]. exact (ctx_ok_setup _ _ _ _ _ _ H1 H2 H3 H4 H5 H6).
Qed.

(** C2: only the owner's packets enter the network.  A packet written to the TUN
    device for a datagram was carried by a DATA frame naming a live session by id and
    token, of the kind (plain or encrypted) that session uses, from the address now
    bound to it; it is the payload decrypted with that session's key, a valid IP
    packet whose source is the session's own address (or its derived ULA) and whose
    destination is not an address of the server host outside the tunnel. *)
Theorem uplink_authentic `{OpenSSLLaws} v users raw p io v' o q :
  ctx_ok (srv_ctx v) -> rely users io -> bytes_ok raw -> zlen raw <= 65535 ->
  Exists (fun t => u32 t <> 0) (rands (opens io)) ->
  handle_udp v users raw p io = Ret (v', o) -> TunWrite q ∈ o ->
  exists c i s, rtc (call_step users raw p io) (srv_ctx v) c /\ live c i s /\
    sid s = hdr_sid raw /\ token s = hdr_tok raw /\ peer s = p /\
    raw.[0] = (if enc s =? 0 then PT_DATA else PT_DATA_ENC) /\
    q = (if enc s =? 0 then drop 8 raw else xor_crypt (drop 8 raw) (xor_key s)) /\
    may_enter c (ip4_u32 (ip s)) q.
Proof.
  intros Hok Hr Hraw Hl Hn E Hq.
  destruct (handle_udp_spec users raw p io Hr Hraw Hl v Hok Hn) as (v1 & o1 & E1 & _ & Ho).
  rewrite E in E1. apply ret_pair_inv in E1 as [<- <-].
  destruct (Ho q Hq) as (c & s & Hs & Hokc & (i & Hli & H1 & H2 & H3 & _) & H4 & H5 & H6).
  by exists c, i, s.
Qed.

Lemma with_rate_id v : with_rate v (srv_rate v) = v.
Proof. by destruct v. Qed.

(** Frames without a control budget are not limited and leave the limiter alone. *)
Lemma allow_control_other st a typ t :
  typ <> PT_OPEN -> typ <> PT_PING_REQ -> typ <> PT_ECHO_REQ -> server_rate_allow_control st a typ t = (st, true).
Proof.
  intros H1 H2 H3. unfold server_rate_allow_control, ctl_limit.
  destruct (typ =? PT_OPEN) eqn:E1; [lia|]. destruct (typ =? PT_PING_REQ) eqn:E2; [lia|].
  destruct (typ =? PT_ECHO_REQ) eqn:E3; [lia|]. done.
Qed.

Lemma same_cfg_sym c c' : same_cfg c c' -> same_cfg c' c.
Proof. unfold same_cfg. intuition congruence. Qed.

Lemma blocked6_cfg c c' d : same_cfg c c' -> up_inner_dst_blocked6 c' d = up_inner_dst_blocked6 c d.
Proof.
  intros (Hs & _ & _ & _ & Hb & Hm & Ht & _). unfold up_inner_dst_blocked6, up_inner_dst_in_tunnel.
  by rewrite Hs, Hb, Hm, Ht.
Qed.

Lemma may_enter_cfg c c' a q : same_cfg c c' -> may_enter c a q -> may_enter c' a q.
Proof.
  intros Hc. pose proof (blocked6_cfg c c' (slice q 24 16) Hc) as H6.
  destruct Hc as (Hs & _ & _ & _ & Hb & Hm & Ht & _). unfold may_enter, up_inner_dst_in_tunnel.
  by rewrite H6, Hs, Hb, Hm, Ht.
Qed.

Lemma find_owner c i s : ctx_ok c -> live c i s -> find_session_unlocked c (sid s) = Some i.
Proof. intros Hok Hl. apply find_session_Some; [done|]. by exists s. Qed.

(** What a DATA frame of the bound peer with the right token comes to. *)
Lemma peer_data `{OpenSSLLaws} v users raw p io i s :
  let c := srv_ctx v in
  let c' := set_sess c i (set_last_active s (now_seen io)) in
  let q := if enc s =? 0 then drop 8 raw else xor_crypt (drop 8 raw) (xor_key s) in
  ctx_ok c -> bytes_ok raw -> 8 < zlen raw <= 65535 ->
  live c i s -> sid s = hdr_sid raw -> token s = hdr_tok raw -> peer s = p ->
  raw.[0] = (if enc s =? 0 then PT_DATA else PT_DATA_ENC) -> throttle_until_ms s <= now io ->
  handle_udp v users raw p io = (let! ok := h1_gate c' (ip4_u32 (ip s)) q in
    if ok then data_deliver (with_ctx v c') (hdr_sid raw) (hdr_tok raw) q io else Ret (h1_inc (with_ctx v c'), [])) /\
  bytes_ok q /\ 0 < zlen q.
Proof.
  intros c c' q Hok Hraw Hl Hli Hs Ht Hp Hty Hth.
  unfold handle_udp, IWAN_HDR_LEN. destruct (zlen raw <? 8) eqn:E8; [lia|]. rewrite rdn_ok by lia. cbn [rbind].
  destruct (hdr_of_frame raw ltac:(lia)) as (-> & -> & ->).
  assert (raw.[0] = PT_DATA \/ raw.[0] = PT_DATA_ENC) as Hd by (destruct (enc s =? 0); auto).
  assert (PT_OPEN = 19 /\ PT_DATA = 20 /\ PT_DATA_ENC = 24 /\ PT_PING_REQ = 41 /\ PT_ECHO_REQ = 21) as HPT by done.
  rewrite allow_control_other by lia. cbn [negb]. rewrite with_rate_id.
  destruct (raw.[0] =? PT_OPEN) eqn:E1; [lia|].
  destruct ((raw.[0] =? PT_DATA) || (raw.[0] =? PT_DATA_ENC)) eqn:E2; [|lia].
  assert (data_auth c (hdr_sid raw) (hdr_tok raw) p io = pass c i s (now_seen io)) as Ha.
  { unfold data_auth. rewrite <- Hs, (find_owner c i s Hok Hli), (live_sess_at _ _ _ Hli).
    assert (same_peer (peer s) p = true) as -> by by apply same_peer_true. cbn [negb andb].
    rewrite Ht, Z.eqb_refl. cbn [negb]. destruct (_ && (now io <? _)) eqn:E; [lia|done]. }
  unfold handle_data. fold c. rewrite Ha. unfold pass. rewrite Hty, Z.eqb_refl. cbn [negb].
  unfold IWAN_HDR_LEN. destruct (zlen raw <=? 8) eqn:E9; [lia|]. change (Z.to_nat 8) with 8%nat. fold q. split; [done|].
  assert (zlen (drop 8 raw) = zlen raw - 8) as Hz by (rewrite zlen_drop; lia).
  destruct (lo_key _ _ (ok_live c Hok i s Hli)) as [Hk _]. unfold q. destruct (enc s =? 0); [split; [bok|lia]|].
  split; [apply xor_crypt_ok; [bok|done]|rewrite xor_crypt_len; [lia|bok|done]].
Qed.

Lemma peer_delivers `{OpenSSLLaws} v users raw p io i s :
  let c := srv_ctx v in
  let q := if enc s =? 0 then drop 8 raw else xor_crypt (drop 8 raw) (xor_key s) in
  ctx_ok c -> bytes_ok raw -> 8 < zlen raw <= 65535 ->
  live c i s -> sid s = hdr_sid raw -> token s = hdr_tok raw -> peer s = p ->
  raw.[0] = (if enc s =? 0 then PT_DATA else PT_DATA_ENC) ->
  0 <= tun_fd c -> throttle_until_ms s <= now io -> tun_written c io = true ->
  may_enter c (ip4_u32 (ip s)) q ->
  handle_udp v users raw p io = Ret (with_ctx v (set_sess c i (set_last_active s (now_seen io))), [TunWrite q]).
Proof.
  intros c q Hok Hraw Hl Hli Hs Ht Hp Hty Htun Hth Hw Hm.
  destruct (peer_data v users raw p io i s Hok Hraw Hl Hli Hs Ht Hp Hty Hth) as (-> & Hq1 & Hq2). fold q in Hq1, Hq2 |- *. fold c.
  set (c' := set_sess c i (set_last_active s (now_seen io))).
  assert (same_cfg c c') as Hc by apply same_cfg_set_sess.
  destruct (h1_gate_spec c' (ip4_u32 (ip s)) q Hq1 Hq2) as (b & -> & Hb). cbn [rbind].
  destruct b; [|exfalso; discriminate (proj2 Hb (may_enter_cfg c c' _ _ Hc Hm))].
  unfold data_deliver, tun_written in *. rewrite ctx_with.
  destruct Hc as (_ & _ & _ & _ & _ & _ & _ & Hfd & Hqp). rewrite Hfd, Hqp, Hw.
  destruct (tun_fd c >=? 0) eqn:Ef; [done|lia].
Qed.

(** The congestion throttle of the session drops the frame before it is looked at. *)
Lemma peer_throttled `{OpenSSLLaws} v users raw p io i s :
  ctx_ok (srv_ctx v) -> 8 < zlen raw -> live (srv_ctx v) i s -> sid s = hdr_sid raw -> token s = hdr_tok raw ->
  peer s = p -> raw.[0] = (if enc s =? 0 then PT_DATA else PT_DATA_ENC) -> 0 <= tun_fd (srv_ctx v) ->
  now io < throttle_until_ms s -> handle_udp v users raw p io = Ret (rate_drop (drop_inc v), []).
Proof.
  intros Hok Hl Hli Hs Ht Hp Hty Hfd Hth.
  unfold handle_udp, IWAN_HDR_LEN. destruct (zlen raw <? 8) eqn:E8; [lia|]. rewrite rdn_ok by lia. cbn [rbind].
  destruct (hdr_of_frame raw ltac:(lia)) as (-> & -> & ->).
  assert (raw.[0] = PT_DATA \/ raw.[0] = PT_DATA_ENC) as Hd by (destruct (enc s =? 0); auto).
  assert (PT_OPEN = 19 /\ PT_DATA = 20 /\ PT_DATA_ENC = 24 /\ PT_PING_REQ = 41 /\ PT_ECHO_REQ = 21) as HPT by done.
  rewrite allow_control_other by lia. cbn [negb]. rewrite with_rate_id.
  destruct (raw.[0] =? PT_OPEN) eqn:E1; [lia|].
  destruct ((raw.[0] =? PT_DATA) || (raw.[0] =? PT_DATA_ENC)) eqn:E2; [|lia].
  unfold handle_data, data_auth. rewrite <- Hs, (find_owner _ i s Hok Hli), (live_sess_at _ _ _ Hli).
  assert (same_peer (peer s) p = true) as -> by by apply same_peer_true. cbn [negb andb].
  rewrite Ht, Z.eqb_refl. cbn [negb]. destruct (_ && (now io <? _)) eqn:E; [done|lia].
Qed.

(** C25: what a DATA frame of the session's own peer comes to.  On a server with a TUN
    device, a DATA frame of the session's kind with its token from its bound address is
    dropped while the session is under the throttle its own failed device writes set;
    otherwise the session is marked active, and the packet is dropped if it fails the
    packet gate, written to the device if the device takes it, and else dropped with
    the throttle set.  Nothing else has a say: neither the wrong guesses charged to the
    session nor anything the rate limiter holds. *)
Theorem bound_peer_delivers `{OpenSSLLaws} v users raw p io i s :
  let c := srv_ctx v in
  let c' := set_sess c i (set_last_active s (now_seen io)) in
  let q := if enc s =? 0 then drop 8 raw else xor_crypt (drop 8 raw) (xor_key s) in
  ctx_ok c -> bytes_ok raw -> 8 < zlen raw <= 65535 ->
  live c i s -> sid s = hdr_sid raw -> token s = hdr_tok raw -> peer s = p ->
  raw.[0] = (if enc s =? 0 then PT_DATA else PT_DATA_ENC) -> 0 <= tun_fd c ->
  (now io < throttle_until_ms s -> handle_udp v users raw p io = Ret (rate_drop (drop_inc v), [])) /\
  (throttle_until_ms s <= now io ->
    (~ may_enter c (ip4_u32 (ip s)) q -> handle_udp v users raw p io = Ret (h1_inc (with_ctx v c'), [])) /\
    (may_enter c (ip4_u32 (ip s)) q ->
       handle_udp v users raw p io =
       Ret (if tun_written c io then (with_ctx v c', [TunWrite q])
            else (with_ctx (drop_inc (with_ctx v c')) (stamp_throttle (gap io 1 c') (sid s) (token s) io), [])))).
Proof.
  intros c c' q Hok Hraw Hl Hli Hs Ht Hp Hty Htun. split; [intros; eapply peer_throttled; try done; lia|]. intros Hth.
  destruct (peer_data v users raw p io i s Hok Hraw Hl Hli Hs Ht Hp Hty Hth) as (-> & Hq1 & Hq2). fold q in Hq1, Hq2 |- *. fold c.
  fold c'. assert (same_cfg c c') as Hc by apply same_cfg_set_sess.
  destruct (h1_gate_spec c' (ip4_u32 (ip s)) q Hq1 Hq2) as (b & -> & Hb). cbn [rbind]. split; intros Hm.
  - destruct b; [|done]. exfalso. by apply Hm, (may_enter_cfg c' c), Hb; [apply same_cfg_sym|].
  - rewrite (proj2 Hb (may_enter_cfg c c' _ _ Hc Hm)). unfold data_deliver, tun_written. rewrite ctx_with.
    destruct Hc as (_ & _ & _ & _ & _ & _ & _ & Hfd & Hqp). rewrite Hfd, Hqp.
    destruct (tun_fd c >=? 0) eqn:Ef; [|lia]. rewrite Hs, Ht. by destruct (if _ && _ then _ else _).
Qed.

(** C33: CLOSE works for the owner and for nobody else.  A signed CLOSE with the
    session's token from its bound address, when no other thread intervenes, ends the
    session: the id and the address are unknown from then on and the slot keeps
    neither token nor key; from any other address or with any other token the session
    stays, with its token, key, address and peer. *)
Theorem close_exact `{OpenSSLLaws} v users raw p io i s :
  let c := srv_ctx v in
  ctx_ok c -> bytes_ok raw -> raw.[0] = PT_CLOSE -> verify_sig raw = Ret true ->
  gap io 0 c = c -> live c i s -> sid s = hdr_sid raw ->
  exists v', handle_udp v users raw p io = Ret (v', []) /\
  (token s = hdr_tok raw -> peer s = p ->
     find_session_unlocked (srv_ctx v') (sid s) = None /\ find_session_by_ip_unlocked (srv_ctx v') (ip s) = None /\
     exists t, sess (srv_ctx v') !! i = Some t /\ valid t = false /\ token t = 0 /\ xor_key t = fill 0 8) /\
  (token s <> hdr_tok raw \/ peer s <> p ->
     exists t, live (srv_ctx v') i t /\ same_core s t /\ peer t = peer s).
Proof.
  intros c Hok Hraw Hty Hsig Hgap Hli Hs.
  assert (24 <= zlen raw) as Hl.
  { rewrite verify_sig_spec in Hsig. unfold IWAN_CTRL_LEN, IWAN_HDR_LEN, IWAN_SIG_LEN in Hsig.
    destruct (zlen raw <? 8 + 16) eqn:E; [done|lia]. }
  unfold handle_udp, IWAN_HDR_LEN. destruct (zlen raw <? 8) eqn:E8; [lia|]. rewrite rdn_ok by lia. cbn [rbind].
  destruct (hdr_of_frame raw ltac:(lia)) as (-> & -> & ->).
  rewrite Hty, allow_control_other, with_rate_id by done. cbn [negb]. rewrite Hsig. cbn [rbind Z.eqb Pos.eqb orb PT_CLOSE PT_OPEN PT_DATA PT_DATA_ENC].
  eexists. split; [reflexivity|]. rewrite <- Hs. unfold handle_close. fold c.
  rewrite (find_owner c i s Hok Hli), (live_sess_at _ _ _ Hli), Hgap, (find_owner c i s Hok Hli), (live_sess_at _ _ _ Hli).
  assert (forall w, srv_ctx w = c -> exists t, live (srv_ctx w) i t /\ same_core s t /\ peer t = peer s) as Hsame.
  { intros w ->. by exists s. }
  split.
  - intros Ht Hp. assert (same_peer (peer s) p = true) as -> by by apply same_peer_true. cbn [negb andb].
    rewrite Ht, Z.eqb_refl, Hp, !Z.eqb_refl. cbn [negb orb]. rewrite ctx_with.
    by destruct (wiped_gone c i s Hok Hli) as (_ & ? & ? & ?).
  - intros Hne. destruct (_ && _); [apply Hsame; by autorewrite with srv|].
    destruct (token s =? hdr_tok raw) eqn:Et; cbn [negb].
    + destruct (_ || _) eqn:Ea; [apply Hsame; by autorewrite with srv|]. exfalso.
      destruct Hne as [|Hne]; [lia|]. apply Hne. destruct (peer s), p. cbn in Ea. f_equal; lia.
    + destruct (server_rate_allow_close _ _ _ _) as [st [|]]; cbn [negb]; [|apply Hsame; by autorewrite with srv].
      rewrite ctx_with. unfold tok_charge_upgrade. rewrite (find_owner c i s Hok Hli), (live_sess_at _ _ _ Hli), Et.
      cbn [negb]. destruct (charge_core s (same_peer (peer s) p) (now io)) as (Hc & Hp & _).
      eexists. split; [|split; [exact Hc|exact Hp]]. eapply live_set_sess; [exact Hli|].
      destruct Hc as (-> & _). by destruct Hli.
Qed.

(** keepalives are no oracle.  An ECHO_REQ is answered only when it names a live
    session and carries its token (which is then marked active and bound to the
    sender), and the answer is the signed ECHO_RES with the same id and token; the
    session's own peer always gets it.  A PING_REQ within the source's budget is
    answered with the fixed wildcard, whatever the table holds. *)
Theorem keepalive_exact `{OpenSSLLaws} v users raw p io :
  let c := srv_ctx v in
  ctx_ok c -> rely users io -> bytes_ok raw -> raw.[0] = PT_ECHO_REQ \/ raw.[0] = PT_PING_REQ ->
  verify_sig raw = Ret true -> (server_rate_allow_control (srv_rate v) (s_addr p) raw.[0] (clk_rate io)).2 = true ->
  exists v' o, handle_udp v users raw p io = Ret (v', o) /\
    (raw.[0] = PT_ECHO_REQ ->
       (o = [] \/ (exists i s, live (srv_ctx v') i s /\ sid s = hdr_sid raw /\ token s = hdr_tok raw /\ peer s = p /\
          last_active_ms s = now_seen io /\
          o = [Send p (pkt_hdr PT_ECHO_RES raw.[1] (hdr_sid raw) (hdr_tok raw) ++
                       md5 (pkt_hdr PT_ECHO_RES raw.[1] (hdr_sid raw) (hdr_tok raw) ++ IWAN_MW))])) /\
       (forall i s, live c i s -> sid s = hdr_sid raw -> token s = hdr_tok raw -> peer s = p -> o <> [])) /\
    (raw.[0] = PT_PING_REQ ->
       o = [Send p (pkt_hdr PT_PING_RSP 0 65535 4294967295 ++ md5 (pkt_hdr PT_PING_RSP 0 65535 4294967295 ++ IWAN_MW))]).
Proof.
  intros c Hok Hr Hraw Hty Hsig Hrate.
  assert (24 <= zlen raw) as Hl.
  { rewrite verify_sig_spec in Hsig. unfold IWAN_CTRL_LEN, IWAN_HDR_LEN, IWAN_SIG_LEN in Hsig.
    destruct (zlen raw <? 8 + 16) eqn:E; [done|lia]. }
  unfold handle_udp, IWAN_HDR_LEN. destruct (zlen raw <? 8) eqn:E8; [lia|]. rewrite rdn_ok by lia. cbn [rbind].
  destruct (hdr_of_frame raw ltac:(lia)) as (-> & -> & ->).
  destruct (server_rate_allow_control _ _ _ _) as [st ok]. cbn [snd] in Hrate. subst ok. cbn [negb].
  unfold PT_ECHO_REQ, PT_PING_REQ, PT_OPEN, PT_DATA, PT_DATA_ENC, PT_CLOSE in *.
  destruct (raw.[0] =? 19) eqn:E1; [lia|]. destruct ((raw.[0] =? 20) || (raw.[0] =? 24)) eqn:E2; [lia|].
  destruct (raw.[0] =? 23) eqn:E3; [lia|]. destruct ((raw.[0] =? 41) || (raw.[0] =? 21)) eqn:E4; [|lia].
  rewrite Hsig. cbn [rbind]. unfold handle_ping, PT_ECHO_REQ, PT_PING_REQ. rewrite ctx_with_rate. fold c.
  destruct (keepalive c (hdr_sid raw) (hdr_tok raw) p io) as [c' ok] eqn:Ek.
  destruct (keepalive_steps users raw p io Hr _ _ _ Hok Ek) as [_ Hown].
  assert (forall i s, live c i s -> sid s = hdr_sid raw -> token s = hdr_tok raw -> peer s = p -> ok = true) as Hok1.
  { intros i s Hli Hs Ht Hp. unfold keepalive in Ek. rewrite <- Hs, (find_owner c i s Hok Hli), (live_sess_at _ _ _ Hli) in Ek.
    assert (same_peer (peer s) p = true) as Esp by by apply same_peer_true. rewrite Esp, Ht, Z.eqb_refl in Ek.
    cbn [negb] in Ek. by injection Ek as _ <-. }
  destruct Hty as [Hty|Hty]; rewrite Hty; cbn [Z.eqb Pos.eqb andb].
  - destruct ok; cbn [negb].
    + rewrite rd_ok by lia. cbn [rbind]. rewrite ctrl_hdr_ok. cbn [rbind app]. eexists _, _. split; [reflexivity|].
      split; [|done]. intros _. split; [|done]. right. rewrite ctx_with.
      destruct (Hown eq_refl) as (s & i & Hli & H1 & H2 & H3 & H4). exists i, s. done.
    + eexists _, _. split; [reflexivity|]. split; [|done]. intros _. split; [by left|].
      intros i s Hli Hs Ht Hp. discriminate (Hok1 i s Hli Hs Ht Hp).
  - rewrite ctrl_hdr_ok. cbn [rbind app]. eexists _, _. split; [reflexivity|]. split; [done|]. done.
Qed.

(** the host-local gate sees through IPv6 spellings.  An IPv4-mapped, NAT64,
    IPv4-compatible, SIIT or 6to4 spelling of an IPv4 address is refused exactly when
    that address is refused in IPv4 (with the same exemption for the tunnel's own
    addresses), except ::1, which is always refused. *)
Theorem embedded_spellings_blocked c v4 x :
  0 <= v4 < 2 ^ 32 -> zlen x = 10 ->
  let blocked := up_inner_dst_blocked4 v4 && negb (up_inner_dst_in_tunnel c v4) in
  up_inner_dst_blocked6 c (v4mapped ++ put32 v4) = blocked /\
  up_inner_dst_blocked6 c (nat64 ++ put32 v4) = blocked /\
  up_inner_dst_blocked6 c (siit ++ put32 v4) = blocked /\
  up_inner_dst_blocked6 c (compat ++ put32 v4) = ((v4 =? 1) || blocked) /\
  up_inner_dst_blocked6 c ([32; 2] ++ put32 v4 ++ x) = blocked.
Proof.
  intros Hv Hx blocked.
  assert (forall pre, zlen pre = 12 -> pre.[0] <> 254 -> (exists k, 0 <= k < 12 /\ pre.[k] <> 0) ->
    embedded_at (pre ++ put32 v4) = Some 12 ->
    up_inner_dst_blocked6 c (pre ++ put32 v4) = blocked) as Hpre.
  { intros pre Hl H0 (k & Hk & Hne) He. unfold up_inner_dst_blocked6. rewrite He.
    destruct (beq _ lo6) eqn:E.
    { apply beq_true in E. apply (f_equal (fun l => l.[k])) in E. rewrite at_app_l in E by lia.
      pose proof (below_spec 12 (fun k => lo6.[k] =? 0) eq_refl k Hk) as Hz. cbn beta in Hz. lia. }
    rewrite at_app_l by lia. destruct (pre.[0] =? 254) eqn:E0; [lia|]. cbn [andb].
    rewrite <- (app_nil_r (put32 v4)), slice_app_mid by done. rewrite ip4_put32 by done. done. }
  split_and!.
  - apply Hpre; [done|done|by exists 10|]. unfold embedded_at. by rewrite prefix_window.
  - apply Hpre; [done|done|by exists 1|]. unfold embedded_at. by rewrite prefix_window.
  - apply Hpre; [done|done|by exists 8|]. unfold embedded_at. by rewrite prefix_window.
  - unfold up_inner_dst_blocked6, embedded_at. rewrite prefix_window by done. cbn [beq].
    change (beq compat v4mapped) with false. change (beq compat nat64) with false. change (beq compat compat) with true.
    cbn iota. change ((compat ++ put32 v4).[0] =? 254) with false. cbn [andb].
    rewrite <- (app_nil_r (put32 v4)) at 2 3. rewrite slice_app_mid by done. rewrite ip4_put32 by done. fold blocked.
    destruct (v4 =? 1) eqn:E1; [apply Z.eqb_eq in E1 as ->; done|].
    destruct (beq _ lo6) eqn:E; [|done]. exfalso. apply beq_true in E.
    apply (f_equal (fun l => ip4_u32 (slice l 12 4))) in E.
    rewrite <- (app_nil_r (put32 v4)), slice_app_mid, ip4_put32 in E by done. change (ip4_u32 (slice lo6 12 4)) with 1 in E. lia.
  - unfold up_inner_dst_blocked6, embedded_at.
    assert (slice ([32; 2] ++ put32 v4 ++ x) 2 4 = put32 v4) as Hw by (apply slice_app_mid; done).
    assert (forall pre, zlen pre = 12 -> pre.[0] <> 32 -> beq (slice ([32; 2] ++ put32 v4 ++ x) 0 12) pre = false) as Hno.
    { intros pre Hl H0. apply beq_false. intros E. apply H0. rewrite <- E. by rewrite at_slice by zlia. }
    rewrite !Hno by done. change (([32; 2] ++ put32 v4 ++ x).[0]) with 32. change (([32; 2] ++ put32 v4 ++ x).[1]) with 2.
    cbn [Z.eqb Pos.eqb andb]. rewrite Hw, ip4_put32 by done. fold blocked.
    destruct (beq _ lo6) eqn:E; [|done]. apply beq_true in E. discriminate E.
Qed.

(** ** The guess budget *)

(** A datagram with its source and environment. *)
Definition arrival : Type := bytes * sockaddr_in * udp_io.

(** The frame's token is compared with the session's. *)
Definition tested (c : server_ctx) (x : arrival) : bool :=
  let '(raw, p, io) := x in
  match (data_auth c (hdr_sid raw) (hdr_tok raw) p io).2 with VMiss | VOver => false | _ => true end.

(** A DATA frame naming the session with a wrong token, not from its peer, while no
    other thread intervenes. *)
Definition guess (s : server_session) (x : arrival) : Prop :=
  let '(raw, p, io) := x in
  8 <= zlen raw /\ (raw.[0] = PT_DATA \/ raw.[0] = PT_DATA_ENC) /\
  hdr_sid raw = sid s /\ hdr_tok raw <> token s /\ p <> peer s /\ forall c, gap io 0 c = c.

Lemma guess_step `{OpenSSL} users v i s raw p io :
  ctx_ok (srv_ctx v) -> live (srv_ctx v) i s -> guess s (raw, p, io) ->
  tested (srv_ctx v) (raw, p, io) = negb (tok_budget_over s (now io)) /\
  exists v', handle_udp v users raw p io = Ret (v', []) /\
    srv_ctx v' = if tok_budget_over s (now io) then srv_ctx v
                 else set_sess (srv_ctx v) i (tok_budget_charge s false (now io)).
Proof.
  intros Hok Hli (Hl & Hty & Hs & Ht & Hp & Hg).
  assert (same_peer (peer s) p = false) as Hsp by (apply bool_decide_eq_false; congruence).
  assert (data_auth (srv_ctx v) (hdr_sid raw) (hdr_tok raw) p io =
    (srv_ctx v, if tok_budget_over s (now io) then VOver else VBad false)) as Ha.
  { unfold data_auth. rewrite Hs, (find_owner _ i s Hok Hli), (live_sess_at _ _ _ Hli), Hsp. cbn [negb andb].
    destruct (tok_budget_over s (now io)); [done|]. destruct (token s =? hdr_tok raw) eqn:E; [lia|done]. }
  split; [unfold tested; rewrite Ha; cbn; by destruct (tok_budget_over s (now io))|].
  unfold handle_udp, IWAN_HDR_LEN. destruct (zlen raw <? 8) eqn:E8; [lia|]. rewrite rdn_ok by lia. cbn [rbind].
  destruct (hdr_of_frame raw ltac:(lia)) as (-> & -> & ->).
  assert (PT_OPEN = 19 /\ PT_DATA = 20 /\ PT_DATA_ENC = 24 /\ PT_PING_REQ = 41 /\ PT_ECHO_REQ = 21) as HPT by done.
  rewrite allow_control_other by lia. cbn [negb]. rewrite with_rate_id.
  destruct (raw.[0] =? PT_OPEN) eqn:E1; [lia|].
  destruct ((raw.[0] =? PT_DATA) || (raw.[0] =? PT_DATA_ENC)) eqn:E2; [|lia].
  unfold handle_data. rewrite Ha. destruct (tok_budget_over s (now io)).
  - eexists. split; [reflexivity|]. by autorewrite with srv.
  - rewrite with_rate_id. eexists. split; [reflexivity|]. rewrite ctx_with, Hg. unfold tok_charge_upgrade.
    rewrite Hs, (find_owner _ i s Hok Hli), (live_sess_at _ _ _ Hli), Hsp.
    destruct (token s =? hdr_tok raw) eqn:E; [lia|done].
Qed.

(** a late frame reopens the budget.  The clock is read before the lock is taken,
    and the window test subtracts without a sign: when a frame whose reading is older
    than the start of the running window is processed, an exhausted budget counts as
    not running, the token is compared, and the window restarts with one guess. *)
Theorem late_clock_reopens_budget `{OpenSSL} users v i s raw p io :
  ctx_ok (srv_ctx v) -> live (srv_ctx v) i s -> guess s (raw, p, io) ->
  0 <= now io < tok_mis_win s -> tok_mis_win s - now io <= 1000 -> tok_mis_win s < 2 ^ 64 -> tok_mis_cnt s = 4 ->
  tok_budget_over s (tok_mis_win s) = true /\
  tested (srv_ctx v) (raw, p, io) = true /\
  exists v' t, handle_udp v users raw p io = Ret (v', []) /\ live (srv_ctx v') i t /\
    tok_mis_cnt t = 1 /\ tok_mis_win t = now io.
Proof.
  intros Hok Hli Hg Hn Hd H64 Hc. destruct (guess_step users v i s raw p io Hok Hli Hg) as (Htst & v' & Hv & Hc').
  assert (tok_win_live s (now io) = false) as Hlive.
  { unfold tok_win_live, RATE_WINDOW, u64. destruct (_ && _) eqn:E; [|done]. lia. }
  assert (tok_budget_over s (now io) = false) as Ho by (unfold tok_budget_over; by rewrite Hlive).
  rewrite Ho in *. split_and!.
  - unfold tok_budget_over, tok_win_live. rewrite Hc, Z.sub_diag. change (u64 0) with 0.
    destruct (tok_mis_win s =? 0) eqn:E; [lia|done].
  - exact Htst.
  - exists v', (tok_budget_charge s false (now io)). split; [done|]. rewrite Hc'. split.
    + eapply live_set_sess; [done|]. destruct (charge_core s false (now io)) as ((-> & _) & _). by destruct Hli.
    + unfold tok_budget_charge. rewrite Hlive. by destruct s.
Qed.

(** a CLOSE guess can go uncharged.  When the source has spent its CLOSE budget, a
    CLOSE with a wrong token from an address that is not the session's peer is compared
    and dropped without charging the session, so the session's own budget never stops
    the next one. *)
Theorem close_guess_uncharged `{OpenSSLLaws} users v i s raw p io :
  ctx_ok (srv_ctx v) -> live (srv_ctx v) i s -> 8 <= zlen raw ->
  raw.[0] = PT_CLOSE -> verify_sig raw = Ret true -> hdr_sid raw = sid s -> hdr_tok raw <> token s -> peer s <> p ->
  tok_budget_over s (now io) = false ->
  (server_rate_allow_close (srv_rate v) (s_addr p) (now io) (clk_rate io)).2 = false ->
  exists v', handle_udp v users raw p io = Ret (v', []) /\ srv_ctx v' = srv_ctx v.
Proof.
  intros Hok Hli Hl Hty Hsig Hs Ht Hp Ho Hr.
  unfold handle_udp, IWAN_HDR_LEN. destruct (zlen raw <? 8) eqn:E8; [lia|]. rewrite rdn_ok by lia. cbn [rbind].
  destruct (hdr_of_frame raw ltac:(lia)) as (-> & -> & ->).
  rewrite Hty, allow_control_other, with_rate_id by done. cbn [negb]. rewrite Hsig.
  cbn [rbind Z.eqb Pos.eqb orb PT_CLOSE PT_OPEN PT_DATA PT_DATA_ENC].
  eexists. split; [reflexivity|]. unfold handle_close.
  rewrite Hs, (find_owner _ i s Hok Hli), (live_sess_at _ _ _ Hli), Ho, andb_false_r.
  destruct (token s =? hdr_tok raw) eqn:E; [lia|]. cbn [negb].
  destruct (server_rate_allow_close _ _ _ _) as [st ok]. cbn in Hr. subst ok. by destruct v.
Qed.

(** ** A running example *)

Module UpDemo.

Definition srv : server := mk_server Sample.c1 (server_rate_limits_init (fun _ => None)) [] 0 0 0.
Definition io_at (t : Z) : udp_io :=
  mk_io t t t t t (mk_open_io t t [7]) false true true 2 (fun _ c => c).
Definition alice : sockaddr_in := mk_addr 16777226 4000.
Definition mallory : sockaddr_in := mk_addr 33554442 5000.
Definition inner : bytes := [69; 0; 0; 20; 0; 0; 0; 0; 64; 17; 0; 0; 198; 18; 0; 2; 8; 8; 8; 8].
Definition data (tok : Z) : bytes := pkt_hdr PT_DATA_ENC 1 2 tok ++ xor_crypt inner [1; 2; 3; 4; 5; 6; 7; 8].
Definition ctrl (typ tok : Z) : bytes := pkt_hdr typ 0 2 tok ++ md5 (pkt_hdr typ 0 2 tok ++ IWAN_MW).
Definition good : Z := 305419896.

Lemma rely_id users t : rely users (io_at t).
Proof. intros k c. apply rtc_refl. Qed.

Lemma data_ok tok : bytes_ok (data tok).
Proof.
  apply bytes_ok_app. split; [repeat constructor; apply u8_range|].
  apply xor_crypt_ok; by apply (bool_decide_unpack _); vm_compute.
Qed.

Lemma rands_ok t : Exists (fun t => u32 t <> 0) (rands (opens (io_at t))).
Proof. by apply Exists_cons_hd. Qed.

Lemma inner_enters : may_enter Sample.c1 3323068418 inner.
Proof.
  unfold may_enter. change (inner.[0] / 16 =? 6) with false. cbn iota. split; [|split; [reflexivity|]].
  - apply (bool_decide_unpack _). vm_compute. reflexivity.
  - cbn zeta. intros [H|[H|H]]; vm_compute in H; discriminate H.
Qed.

End UpDemo.

Lemma handle_udp_refines_witness :
  exists v' o, handle_udp UpDemo.srv Demo.users (UpDemo.data UpDemo.good) UpDemo.alice (UpDemo.io_at 5000) = Ret (v', o) /\
    ctx_ok (srv_ctx v').
Proof.
  destruct (handle_udp_refines UpDemo.srv Demo.users (UpDemo.data UpDemo.good) UpDemo.alice (UpDemo.io_at 5000)
    Sample.c1_ok (UpDemo.rely_id _ _) (UpDemo.data_ok _) ltac:(vm_compute; discriminate) (UpDemo.rands_ok _))
    as (v' & o & H1 & _ & H2 & _).
  exists v', o. split; [exact H1|exact H2].
Defined.

Lemma reachable_well_formed_witness : ctx_ok (purge_expired Sample.c0 99).
Proof.
  apply (reachable_well_formed Demo.users [198; 18; 0; 1] [114; 114; 114; 114] (lit "198.18.0.0/16") 3 false Sample.c0);
    try (by apply (bool_decide_unpack _); vm_compute); [vm_compute; reflexivity|].
  apply rtc_once. right. by exists 99.
Defined.

Lemma bound_peer_delivers_witness :
  handle_udp UpDemo.srv Demo.users (UpDemo.data UpDemo.good) UpDemo.alice (UpDemo.io_at 5000) =
  Ret (with_ctx UpDemo.srv (set_sess (srv_ctx UpDemo.srv) 0 (set_last_active Sample.s1 (now_seen (UpDemo.io_at 5000)))),
       [TunWrite UpDemo.inner]).
Proof.
  pose proof (bound_peer_delivers UpDemo.srv Demo.users (UpDemo.data UpDemo.good) UpDemo.alice (UpDemo.io_at 5000) 0
    Sample.s1) as H. cbn zeta in H.
  assert ((if enc Sample.s1 =? 0 then drop 8 (UpDemo.data UpDemo.good)
           else xor_crypt (drop 8 (UpDemo.data UpDemo.good)) (xor_key Sample.s1)) = UpDemo.inner) as E
    by (vm_compute; reflexivity).
  rewrite E in H. refine (proj2 (proj2 (H Sample.c1_ok (UpDemo.data_ok _) _ Sample.s1_live _ _ _ _ _) _) UpDemo.inner_enters); clear H E.
  - vm_compute. split; [reflexivity|discriminate].
  - vm_compute. reflexivity.
  - vm_compute. reflexivity.
  - reflexivity.
  - vm_compute. reflexivity.
  - vm_compute. discriminate.
  - vm_compute. discriminate.
Defined.

Lemma uplink_authentic_witness :
  exists c i s, live c i s /\ token s = UpDemo.good /\ peer s = UpDemo.alice /\ may_enter c (ip4_u32 (ip s)) UpDemo.inner.
Proof.
  destruct (uplink_authentic UpDemo.srv Demo.users (UpDemo.data UpDemo.good) UpDemo.alice (UpDemo.io_at 5000)
    (with_ctx UpDemo.srv (set_sess Sample.c1 0 (set_last_active Sample.s1 5000))) [TunWrite UpDemo.inner] UpDemo.inner
    Sample.c1_ok (UpDemo.rely_id _ _) (UpDemo.data_ok _) ltac:(vm_compute; discriminate) (UpDemo.rands_ok _)
    ltac:(vm_compute; reflexivity) ltac:(by apply list_elem_of_singleton)) as (c & i & s & _ & H1 & _ & H2 & H3 & _ & _ & H4).
  exists c, i, s. split; [exact H1|]. split; [rewrite H2; vm_compute; reflexivity|]. split; [exact H3|exact H4].
Defined.

Lemma close_exact_witness :
  exists v', handle_udp UpDemo.srv Demo.users (UpDemo.ctrl PT_CLOSE UpDemo.good) UpDemo.alice (UpDemo.io_at 5000) = Ret (v', []) /\
    find_session_unlocked (srv_ctx v') 2 = None.
Proof.
  destruct (close_exact UpDemo.srv Demo.users (UpDemo.ctrl PT_CLOSE UpDemo.good) UpDemo.alice (UpDemo.io_at 5000) 0 Sample.s1
    Sample.c1_ok) as (v' & H1 & H2 & _).
  - apply (bool_decide_unpack _). vm_compute. reflexivity.
  - reflexivity.
  - vm_compute. reflexivity.
  - reflexivity.
  - exact Sample.s1_live.
  - vm_compute. reflexivity.
  - exists v'. split; [exact H1|]. apply H2; vm_compute; reflexivity.
Defined.

Lemma keepalive_exact_witness :
  exists v' o, handle_udp UpDemo.srv Demo.users (UpDemo.ctrl PT_ECHO_REQ UpDemo.good) UpDemo.alice (UpDemo.io_at 5000) = Ret (v', o) /\
    o <> [].
Proof.
  destruct (keepalive_exact UpDemo.srv Demo.users (UpDemo.ctrl PT_ECHO_REQ UpDemo.good) UpDemo.alice (UpDemo.io_at 5000)
    Sample.c1_ok (UpDemo.rely_id _ _)) as (v' & o & H1 & H2 & _).
  - apply (bool_decide_unpack _). vm_compute. reflexivity.
  - left. reflexivity.
  - vm_compute. reflexivity.
  - vm_compute. reflexivity.
  - exists v', o. split; [exact H1|]. apply (proj2 (H2 eq_refl) 0%nat Sample.s1 Sample.s1_live); vm_compute; reflexivity.
Defined.

Lemma embedded_spellings_blocked_witness :
  up_inner_dst_blocked6 Sample.c1 (v4mapped ++ [127; 0; 0; 1]) = true /\
  up_inner_dst_blocked6 Sample.c1 (nat64 ++ [8; 8; 8; 8]) = false.
Proof.
  destruct (embedded_spellings_blocked Sample.c1 2130706433 (fill 0 10) ltac:(lia) eq_refl) as (H1 & _).
  destruct (embedded_spellings_blocked Sample.c1 134744072 (fill 0 10) ltac:(lia) eq_refl) as (_ & H2 & _).
  change [127; 0; 0; 1] with (put32 2130706433). change [8; 8; 8; 8] with (put32 134744072).
  rewrite H1, H2. split; vm_compute; reflexivity.
Defined.

(** The session after four wrong guesses at time 5000. *)
Definition spent : server :=
  with_ctx UpDemo.srv (set_sess Sample.c1 0 (set_tok Sample.s1 4 0 5000)).

Lemma spent_ok : ctx_ok (srv_ctx spent) /\ live (srv_ctx spent) 0 (set_tok Sample.s1 4 0 5000).
Proof.
  split; [|by eapply live_set_sess; [exact Sample.s1_live|]].
  apply (ctx_ok_core Sample.c1 0 Sample.s1); [exact Sample.c1_ok|exact Sample.s1_live|done|..]; vm_compute; split; discriminate.
Qed.

Lemma late_clock_reopens_budget_witness :
  tested (srv_ctx spent) (UpDemo.data 1, UpDemo.mallory, UpDemo.io_at 4999) = true.
Proof.
  apply (late_clock_reopens_budget Demo.users spent 0 (set_tok Sample.s1 4 0 5000) (UpDemo.data 1) UpDemo.mallory (UpDemo.io_at 4999)
    (proj1 spent_ok) (proj2 spent_ok)).
  - split; [vm_compute; discriminate|]. split; [right; reflexivity|].
    split; [vm_compute; reflexivity|]. split; [vm_compute; discriminate|]. split; [discriminate|reflexivity].
  - vm_compute. split; [discriminate|reflexivity].
  - vm_compute. discriminate.
  - vm_compute. reflexivity.
  - reflexivity.
Defined.

(** A server that allows no CLOSE guesses from a source. *)
Definition strict : server :=
  with_rate UpDemo.srv (server_rate_limits_init (fun _ => Some (lit "1"))).

Lemma close_guess_uncharged_witness :
  let v1 := with_rate strict (server_rate_allow_close (srv_rate strict) (s_addr UpDemo.mallory) 4000 5000).1 in
  exists v', handle_udp v1 Demo.users (UpDemo.ctrl PT_CLOSE 1) UpDemo.mallory (UpDemo.io_at 5000) = Ret (v', []) /\
    srv_ctx v' = Sample.c1.
Proof.
  intros v1.
  apply (close_guess_uncharged Demo.users v1 0 Sample.s1 (UpDemo.ctrl PT_CLOSE 1) UpDemo.mallory (UpDemo.io_at 5000)).
  - exact Sample.c1_ok.
  - exact Sample.s1_live.
  - vm_compute. discriminate.
  - reflexivity.
  - vm_compute. reflexivity.
  - vm_compute. reflexivity.
  - vm_compute. discriminate.
  - discriminate.
  - vm_compute. reflexivity.
  - vm_compute. reflexivity.
Defined.
