(* ===== verification/Evolve.v ===== *)
(** * The life of one session under the datagram handler

    What a call of [handle_udp] (src/src/common/server.c) does to one live session, on
    every branch of the handler, and the budget of token guesses this leaves to a
    stranger over any run of frames.  Other threads may run between the lock sections
    of a call as long as they leave the session in question alone. *)

From Stdlib Require Import Sorted.
From S2P Require Import Prelude Util Crypto Protocol Ipv4 Rate Session Open Echo Uplink.

#[global] Instance server_session_eq_dec : EqDecision server_session.
Proof. solve_decision. Defined.

(** The guess counters of a session: strangers' count, peer's count, window start. *)
Definition counters (s : server_session) : Z * Z * Z := (tok_mis_cnt s, tok_mis_bound s, tok_mis_win s).

(** What a frame may do to a session it does not end: its identity and secrets stay;
    it is touched only if the frame names it; its peer and its time of activity move
    only with its token, the peer only when no stranger's guess is being counted; its
    guess counters move only on a wrong token, by one charge. *)
Record kept (raw : bytes) (p : sockaddr_in) (io : udp_io) (s t : server_session) : Prop := {
  kp_core : same_core s t;
  kp_named : t = s \/ sid s = hdr_sid raw;
  kp_peer : peer t = peer s \/ (token s = hdr_tok raw /\ peer t = p /\ tok_rebind_allowed s (now io) = true);
  kp_seen : last_active_ms t = last_active_ms s \/
            (token s = hdr_tok raw /\ peer t = p /\ last_active_ms t = now_seen io);
  kp_count : counters t = counters s \/
             (token s <> hdr_tok raw /\ counters t = counters (tok_budget_charge s (same_peer (peer s) p) (now io)))
}.

(** The other threads leave slot [i] alone. *)
Definition calm (i : nat) (io : udp_io) : Prop := forall k c, sess (gap io k c) !! i = sess c !! i.

Section Evolve.
Context `{OpenSSLLaws}.
Variable users : list server_user.
Variable raw : bytes.
Variable p : sockaddr_in.
Variable io : udp_io.
Variable i : nat.
Hypothesis Hrely : rely users io.
Hypothesis Hcalm : calm i io.
Abbreviation sd := (hdr_sid raw).
Abbreviation tok := (hdr_tok raw).
Abbreviation keep := (kept raw p io).

Lemma kept_refl s : keep s s.
Proof. split; auto. done. Qed.

Lemma live_calm k c s : live c i s -> live (gap io k c) i s.
Proof. intros [Hs Hv]. split; [|done]. by rewrite Hcalm. Qed.

(** Slot [i] lives on from [c] to [c']. *)
Definition lives (c c' : server_ctx) : Prop := forall s, live c i s -> exists t, live c' i t /\ keep s t.

Lemma lives_refl c : lives c c.
Proof. intros s Hs. exists s. split; [done|apply kept_refl]. Qed.

Lemma lives_gap k c c' : lives (gap io k c) c' -> lives c c'.
Proof. intros Hl s Hs. apply Hl. by apply live_calm. Qed.

Lemma lives_set c j u u' : live c j u -> keep u u' -> lives c (set_sess c j u').
Proof.
  intros Hj Hk s Hs. destruct (decide (j = i)) as [-> |Hne].
  - rewrite (live_det _ _ _ _ Hs Hj). exists u'. split; [|done]. eapply live_set_sess; [done|].
    destruct (kp_core _ _ _ _ _ Hk) as [-> _]. by destruct Hj.
  - exists s. split; [|apply kept_refl]. destruct Hs as [Hs Hv]. split; [|done]. by rewrite sess_set_sess, list_lookup_insert_ne.
Qed.

Lemma kept_charge s :
  sid s = sd -> token s <> tok -> keep s (tok_budget_charge s (same_peer (peer s) p) (now io)).
Proof.
  intros Hs Ht. destruct (charge_core s (same_peer (peer s) p) (now io)) as (Hc & Hp & Ha & _).
  split; auto.
Qed.

Lemma kept_seen s :
  sid s = sd -> token s = tok -> peer s = p \/ tok_rebind_allowed s (now io) = true ->
  keep s (set_last_active (set_peer s p) (now_seen io)).
Proof. intros Hs Ht Hp. destruct s. cbn in *. split; cbn; try done; [by right| |by right|by left]. destruct Hp; auto. Qed.

Lemma kept_throttle s t x : keep s t -> sid t = sd -> keep s (set_throttle t x).
Proof.
  intros [Hc Hn Hp Hs Hk] Hsd. assert (sid s = sd) as Hss by (destruct Hc as (_ & <- & _); done).
  destruct t. cbn in *. split; cbn; try done. by right.
Qed.

Lemma charge_lives c : ctx_ok c -> lives c (tok_charge_upgrade c sd tok p (now io)).
Proof.
  intros Hok. unfold tok_charge_upgrade. destruct (find_session_unlocked c sd) as [j|] eqn:Ef; [|apply lives_refl].
  apply find_live in Ef as (s & Hl & Hs & ->); [|done]. destruct (token s =? tok) eqn:Et; cbn [negb]; [apply lives_refl|].
  eapply lives_set; [done|]. apply kept_charge; [done|lia].
Qed.

Lemma data_auth_lives c c' r : ctx_ok c -> data_auth c sd tok p io = (c', r) -> lives c c'.
Proof.
  intros Hok. unfold data_auth. destruct (find_session_unlocked c sd) as [j|] eqn:Ef;
    [|intros [= <- <-]; apply lives_refl].
  apply find_live in Ef as (s & Hl & Hs & ->); [|done].
  destruct (negb (same_peer (peer s) p) && _); [intros [= <- <-]; apply lives_refl|].
  destruct (token s =? tok) eqn:Et; cbn [negb]; [|intros [= <- <-]; apply lives_refl].
  destruct (_ && (now io <? _)); [intros [= <- <-]; apply lives_refl|].
  destruct (same_peer (peer s) p) eqn:Ep.
  { apply same_peer_true in Ep. intros [= <- <-]. eapply lives_set; [done|].
    rewrite <- (set_peer_id s p Ep) at 2. apply kept_seen; [done|lia|by left]. }
  destruct (gap_ok users io 0 c Hrely Hok) as [Hok1 _]. intros E. apply (lives_gap 0). revert E.
  set (c1 := gap io 0 c) in *. destruct (find_session_unlocked c1 sd) as [k|] eqn:Ef; [|intros [= <- <-]; apply lives_refl].
  apply find_live in Ef as (t & Hl1 & Hs1 & ->); [|done].
  destruct (token t =? tok) eqn:Et1; cbn [negb].
  2: { intros [= <- <-]. eapply lives_set; [done|]. apply kept_charge; [done|lia]. }
  destruct (same_peer (peer t) p) eqn:Ep1; [|destruct (tok_rebind_allowed t (now io)) eqn:Er; cbn [negb];
    [|intros [= <- <-]; apply lives_refl]]; intros [= <- <-]; (eapply lives_set; [done|]).
  - apply same_peer_true in Ep1. rewrite <- (set_peer_id t p Ep1) at 2. apply kept_seen; [done|lia|by left].
  - apply kept_seen; [done|lia|by right].
Qed.

Lemma stamp_lives c s t :
  ctx_ok c -> live c i t -> keep s t -> exists t', live (stamp_throttle c sd tok io) i t' /\ keep s t'.
Proof.
  intros Hok Ht Hk. unfold stamp_throttle. destruct (find_session_unlocked c sd) as [j|] eqn:Ef; [|by exists t].
  apply find_live in Ef as (u & Hl & Hs & ->); [|done]. destruct (token u =? tok); [|by exists t].
  destruct (decide (j = i)) as [-> |Hne].
  - rewrite (live_det _ _ _ _ Ht Hl) in *. eexists. split; [eapply live_set_sess; [done|]|by apply kept_throttle].
    destruct Hl. by destruct u.
  - exists t. split; [|done]. destruct Ht. split; [|done]. by rewrite sess_set_sess, list_lookup_insert_ne.
Qed.

Lemma deliver_lives v pl v' o s t :
  ctx_ok (srv_ctx v) -> data_deliver v sd tok pl io = Ret (v', o) -> live (srv_ctx v) i t -> keep s t ->
  exists t', live (srv_ctx v') i t' /\ keep s t'.
Proof.
  intros Hok. unfold data_deliver. destruct (gap_ok users io 1 (srv_ctx v) Hrely Hok) as [Hok1 _].
  destruct (tun_fd (srv_ctx v) >=? 0).
  - destruct (tun_written (srv_ctx v) io); intros [<- <-]%ret_pair_inv Ht Hk; [by exists t|].
    autorewrite with srv. apply (stamp_lives _ s t); [done|by apply live_calm|done].
  - intros ([[[e d] counted] ok] & _ & E)%rbind_ret_inv Ht Hk. apply ret_pair_inv in E as [<- <-].
    exists t. split; [|done]. destruct ok, counted; autorewrite with srv; by apply live_calm.
Qed.

Lemma handle_data_lives v v' o :
  ctx_ok (srv_ctx v) -> handle_data v raw.[0] raw sd tok p io = Ret (v', o) -> lives (srv_ctx v) (srv_ctx v').
Proof.
  intros Hok. unfold handle_data. destruct (data_auth (srv_ctx v) sd tok p io) as [c r] eqn:Ea.
  pose proof (data_auth_lives _ _ _ Hok Ea) as Hc.
  destruct (data_auth_steps users raw p io Hrely _ _ _ Hok Ea) as [Hst Hr].
  destruct (call_steps_ok _ _ _ _ _ _ Hrely Hst Hok) as [Hokc _].
  destruct r as [| |bound| | |e xk a].
  - destruct (server_rate_allow_sid_miss _ _ _ _) as [st [|]]; intros [<- _]%ret_pair_inv; autorewrite with srv; apply lives_refl.
  - intros [<- _]%ret_pair_inv. autorewrite with srv. apply lives_refl.
  - destruct (if bound then _ else _) as [st [|]]; intros [<- _]%ret_pair_inv; autorewrite with srv; [|apply lives_refl].
    subst c. apply (lives_gap 0), charge_lives. by apply (gap_ok users).
  - intros [<- _]%ret_pair_inv. autorewrite with srv. apply lives_refl.
  - intros [<- _]%ret_pair_inv. by autorewrite with srv.
  - destruct (negb _); [intros [<- _]%ret_pair_inv; by autorewrite with srv|].
    destruct (zlen raw <=? IWAN_HDR_LEN); [intros [<- _]%ret_pair_inv; by autorewrite with srv|].
    intros (ok & _ & E)%rbind_ret_inv. destruct ok; [|apply ret_pair_inv in E as [<- _]; by autorewrite with srv].
    intros s Hs. destruct (Hc s Hs) as (t & Ht & Hk). eapply deliver_lives; [..|exact E| |exact Hk]; by autorewrite with srv.
Qed.

Lemma keepalive_lives c c' ok : ctx_ok c -> keepalive c sd tok p io = (c', ok) -> lives c c'.
Proof.
  intros Hok. unfold keepalive. destruct (find_session_unlocked c sd) as [j|] eqn:Ef; [|intros [= <- <-]; apply lives_refl].
  apply find_live in Ef as (s & Hl & Hs & ->); [|done].
  destruct (token s =? tok) eqn:Et; cbn [negb]; [|intros [= <- <-]; apply lives_refl].
  destruct (same_peer (peer s) p) eqn:Ep.
  { apply same_peer_true in Ep. intros [= <- <-]. eapply lives_set; [done|].
    rewrite <- (set_peer_id s p Ep) at 2. apply kept_seen; [done|lia|by left]. }
  destruct (gap_ok users io 0 c Hrely Hok) as [Hok1 _]. intros E. apply (lives_gap 0). revert E.
  set (c1 := gap io 0 c) in *. destruct (find_session_unlocked c1 sd) as [k|] eqn:Ef; [|intros [= <- <-]; apply lives_refl].
  apply find_live in Ef as (t & Hl1 & Hs1 & ->); [|done].
  destruct (_ && _) eqn:Et1; intros [= <- <-]; [|apply lives_refl]. apply andb_true_iff in Et1 as [Et1 Er].
  eapply lives_set; [done|]. apply kept_seen; [done|lia|by right].
Qed.

(** The session was ended by its peer. *)
Definition closed (c' : server_ctx) (s : server_session) : Prop :=
  sid s = sd /\ token s = tok /\ peer s = p /\ (forall t, ~ live c' i t) /\
  find_session_unlocked c' (sid s) = None /\ find_session_by_ip_unlocked c' (ip s) = None.

Lemma close_lives v s :
  ctx_ok (srv_ctx v) -> live (srv_ctx v) i s ->
  let c' := srv_ctx (handle_close v sd tok p io) in
  (exists t, live c' i t /\ keep s t) \/ closed c' s.
Proof.
  destruct v as [c rt ec d h l]. cbn [srv_ctx]. intros Hok Hli. unfold handle_close. cbn [srv_ctx srv_rate].
  assert (forall c', lives c c' -> (exists t, live c' i t /\ keep s t) \/ closed c' s) as Hlives by (left; auto).
  destruct (find_session_unlocked c sd) as [j|] eqn:Ef.
  2: { destruct (server_rate_allow_sid_miss _ _ _ _) as [st [|]]; apply Hlives, lives_refl. }
  apply find_live in Ef as (s0 & Hl & Hs & ->); [|done].
  destruct (gap_ok users io 0 c Hrely Hok) as [Hok1 _].
  destruct (negb (same_peer (peer s0) p) && _); [apply Hlives, lives_refl|].
  destruct (token s0 =? tok) eqn:Et; cbn [negb].
  2: { destruct (server_rate_allow_close _ _ _ _) as [st [|]]; [|apply Hlives, lives_refl].
       apply Hlives, (lives_gap 0), charge_lives. done. }
  pose proof (live_calm 0 c s Hli) as Hli1. set (c1 := gap io 0 c) in *.
  assert (lives c c1) as Hl01 by (intros u Hu; exists u; split; [by apply live_calm|apply kept_refl]).
  destruct (find_session_unlocked c1 sd) as [k|] eqn:Ef; [|by apply Hlives].
  apply find_live in Ef as (t & Hl1 & Hs1 & ->); [|done].
  destruct (token t =? tok) eqn:Et1; cbn [negb].
  2: { apply Hlives, (lives_gap 0). eapply lives_set; [done|]. apply kept_charge; [done|lia]. }
  destruct (_ || _) eqn:Ea; [by apply Hlives|]. cbn.
  destruct (decide (k = i)) as [-> |Hne].
  - right. rewrite (live_det _ _ _ _ Hli1 Hl1). destruct (wiped_gone c1 i t Hok1 Hl1) as (? & ? & ? & _).
    split_and!; try done; [lia|]. destruct (peer t), p. cbn in Ea. f_equal; lia.
  - left. exists s. split; [|apply kept_refl]. destruct Hli1. split; [|done]. by rewrite sess_wipe_other.
Qed.

(** The session was replaced by an authenticated OPEN of its own user. *)
Definition reopened (c' : server_ctx) (s : server_session) : Prop :=
  exists a pw t, open_accepts users raw a pw /\ oc_user a = user s /\
    (s_addr (peer s) = s_addr p \/ IDLE_TIMEOUT_MS < u64 (now_guard (opens io) - last_active_ms s)) /\
    live c' i t /\ sid t = sid s /\ ip t = ip s /\ user t = user s /\ peer t = p /\
    xor_key t = take 8 (session_key (oc_user a) pw).

Lemma open_lives c c' o s :
  ctx_ok c -> bytes_ok raw -> handle_open c users raw p (opens io) = Ret (c', o) -> live c i s ->
  live c' i s \/ reopened c' s.
Proof.
  intros Hok Hraw E Hl.
  destruct (handle_open_inv _ _ _ _ _ _ _ Hok Hraw E) as [[-> _]|(a & pw & slot & t & b & Ha & _ & Hin & _)]; [by left|].
  destruct (decide (i = slot)) as [->|Hne]; [|left; by apply (in_others _ _ _ _ _ _ _ _ Hin)].
  right. destruct (in_guard _ _ _ _ _ _ _ _ Hin s Hl) as (Hu & Hip & Hsid & Hg). exists a, pw, t.
  destruct Hin as [_ Hlive Huser Hpeer Hkey _ _ _ _ _ _]. split_and!; try done; congruence.
Qed.

(** What one call does to the session: the whole handler. *)
Lemma handle_udp_session v v' o s :
  ctx_ok (srv_ctx v) -> bytes_ok raw -> handle_udp v users raw p io = Ret (v', o) -> live (srv_ctx v) i s ->
  (exists t, live (srv_ctx v') i t /\ keep s t /\ (raw.[0] = PT_OPEN -> t = s)) \/
  (raw.[0] = PT_CLOSE /\ verify_sig raw = Ret true /\ closed (srv_ctx v') s) \/
  (raw.[0] = PT_OPEN /\ reopened (srv_ctx v') s).
Proof.
  intros Hok Hraw E Hl. unfold handle_udp, IWAN_HDR_LEN in E.
  assert (forall w, srv_ctx w = srv_ctx v -> exists t, live (srv_ctx w) i t /\ keep s t /\ (raw.[0] = PT_OPEN -> t = s)) as Hsame.
  { intros w ->. exists s. split; [done|]. split; [apply kept_refl|done]. }
  assert (forall w, raw.[0] <> PT_OPEN -> lives (srv_ctx v) (srv_ctx w) ->
    exists t, live (srv_ctx w) i t /\ keep s t /\ (raw.[0] = PT_OPEN -> t = s)) as Hlv.
  { intros w Hw Hx. destruct (Hx s Hl) as (t & Ht & Hk). by exists t. }
  destruct (zlen raw <? 8) eqn:E8; [apply ret_pair_inv in E as [<- _]; left; by apply Hsame|].
  rewrite rdn_ok in E by lia. cbn [rbind] in E. destruct (hdr_of_frame raw ltac:(lia)) as (E1 & E2 & E3).
  rewrite E1, E2, E3 in E. clear E1 E2 E3.
  destruct (server_rate_allow_control _ _ _ _) as [st ok].
  assert (srv_ctx (with_rate v st) = srv_ctx v) as Hv by by autorewrite with srv.
  remember (with_rate v st) as w eqn:Ew. clear Ew.
  destruct ok; cbn [negb] in E; [|apply ret_pair_inv in E as [<- _]; left; by apply Hsame].
  destruct (raw.[0] =? PT_OPEN) eqn:Eo.
  { apply rbind_ret_inv in E as ([c o1] & Ec & E). apply ret_pair_inv in E as [<- _]. rewrite Hv in Ec. rewrite ctx_with.
    destruct (open_lives _ _ _ s Hok Hraw Ec Hl) as [Hs|Hre]; [left; exists s|right; right; split; [lia|done]].
    split; [done|]. split; [apply kept_refl|done]. }
  destruct ((raw.[0] =? PT_DATA) || (raw.[0] =? PT_DATA_ENC)) eqn:Ed.
  { left. apply Hlv; [lia|]. rewrite <- Hv. eapply handle_data_lives; [by rewrite Hv|exact E]. }
  destruct (raw.[0] =? PT_CLOSE) eqn:Ec.
  { apply rbind_ret_inv in E as (good & Eg & E). apply ret_pair_inv in E as [<- _].
    destruct good; [|left; by apply Hsame]. rewrite <- Hv in Hok, Hl.
    destruct (close_lives w s Hok Hl) as [(t & Ht & Hk)|Hcl]; [left; exists t|right; left]; split_and!; try done; lia. }
  destruct ((raw.[0] =? PT_PING_REQ) || (raw.[0] =? PT_ECHO_REQ)) eqn:Ep;
    [|apply ret_pair_inv in E as [<- _]; left; by apply Hsame].
  apply rbind_ret_inv in E as (good & _ & E). destruct good; [|apply ret_pair_inv in E as [<- _]; left; by apply Hsame].
  left. apply Hlv; [lia|]. unfold handle_ping in E. rewrite Hv in E.
  destruct (keepalive (srv_ctx v) sd tok p io) as [c ok] eqn:Ek. pose proof (keepalive_lives _ _ _ Hok Ek) as Hc.
  destruct (_ && _); [apply ret_pair_inv in E as [<- _]; by rewrite ctx_with|].
  apply rbind_ret_inv in E as (b & _ & E). apply ret_pair_inv in E as [<- _]. by rewrite ctx_with.
Qed.

End Evolve.

(** C23: what can happen to a session.  Whatever frame is handled, from anyone and at any
    clock, while the other threads leave the session alone: a live session is kept, in
    the sense of [kept] (identity and secrets as they were; peer, time of activity and
    guess counters moved only as its token and the frame's source allow; untouched if
    the frame names another session, and by OPEN frames); or the frame was a signed
    CLOSE with its token from its peer, and it is gone from the table and both indexes;
    or the frame was an authenticated OPEN of its own user, from its address or after
    the idle timeout, and the new session of that user has its id and address.  The
    idle purge keeps it as it is, or wipes it when it was idle past the timeout. *)
Theorem session_evolution `{OpenSSLLaws} v users raw p io v' o i s :
  ctx_ok (srv_ctx v) -> rely users io -> calm i io -> bytes_ok raw -> live (srv_ctx v) i s ->
  handle_udp v users raw p io = Ret (v', o) ->
  ((exists t, live (srv_ctx v') i t /\ kept raw p io s t /\ (raw.[0] = PT_OPEN -> t = s)) \/
   (raw.[0] = PT_CLOSE /\ verify_sig raw = Ret true /\ closed raw p i (srv_ctx v') s) \/
   (raw.[0] = PT_OPEN /\ reopened users raw p io i (srv_ctx v') s)) /\
  (forall now, if u64 (now - last_active_ms s) <=? IDLE_TIMEOUT_MS then live (purge_expired (srv_ctx v) now) i s
               else (forall t, ~ live (purge_expired (srv_ctx v) now) i t) /\
                    find_session_unlocked (purge_expired (srv_ctx v) now) (sid s) = None).
Proof.
  intros Hok Hr Hc Hraw Hl E. split; [by eapply handle_udp_session|]. intros now.
  destruct (purge_exact (srv_ctx v) now Hok) as (_ & H1 & H2).
  destruct (u64 (now - last_active_ms s) <=? IDLE_TIMEOUT_MS) eqn:Ei; [apply H1; split; [done|lia]|].
  split; [|by destruct (H2 i s Hl ltac:(lia)) as (? & _ & _ & _ & _ & ? & _)].
  intros t [Ht Hi]%H1. rewrite (live_det _ _ _ _ Ht Hl) in Hi. lia.
Qed.

(** ** The guess budget *)

(** A DATA frame that names the session with a wrong token, not from its peer. *)
Definition stranger (s : server_session) (x : arrival) : bool :=
  let '(raw, p, _) := x in
  (8 <=? zlen raw) && ((raw.[0] =? PT_DATA) || (raw.[0] =? PT_DATA_ENC)) && (hdr_sid raw =? sid s) &&
  negb (hdr_tok raw =? token s) && negb (same_peer (peer s) p).

(** The session of the slot goes on: it was neither ended nor opened anew. *)
Definition lasts (raw : bytes) (s t : server_session) : bool :=
  valid t && (negb (raw.[0] =? PT_OPEN) || bool_decide (t = s)).

(** How many of the strangers' tokens in the run are compared with that of the session
    in slot [i], for as long as the session lasts. *)
Fixpoint compared `{OpenSSL} (users : list server_user) (v : server) (i : nat) (s : server_session) (l : list arrival) : Z :=
  match l with
  | [] => 0
  | (raw, p, io) :: r =>
      (if stranger s (raw, p, io) && tested (srv_ctx v) (raw, p, io) then 1 else 0) +
      match handle_udp v users raw p io with
      | Ret (v', _) =>
          match sess (srv_ctx v') !! i with
          | Some t => if lasts raw s t then compared users v' i t r else 0
          | None => 0
          end
      | Fault _ => 0
      end
  end.

Definition when (x : arrival) : Z := now x.2.

(** A frame as the server may get it, handled while the other threads leave slot [i]
    alone. *)
Definition frame_in `{OpenSSL} (users : list server_user) (i : nat) (x : arrival) : Prop :=
  let '(raw, _, io) := x in
  bytes_ok raw /\ zlen raw <= 65535 /\ rely users io /\ calm i io /\ Exists (fun t => u32 t <> 0) (rands (opens io)).

(** What is left of the budget between [t] and [t + 1000]. *)
Definition budget_left (t : Z) (s : server_session) : Z :=
  if t <=? tok_mis_win s then 4 - tok_mis_cnt s
  else if tok_win_live s t then 8 - tok_mis_cnt s else 4.

Lemma budget_left_counters t s u : counters s = counters u -> budget_left t s = budget_left t u.
Proof. intros [= H1 H2 H3]. unfold budget_left, tok_win_live. by rewrite H1, H3. Qed.

(** A charge never adds to the budget, and one that counts a stranger takes one. *)
Lemma charge_pays t nw s b :
  0 < t -> t <= nw < t + 1000 -> nw < 2 ^ 64 -> 0 <= tok_mis_win s <= nw -> 0 <= tok_mis_cnt s <= 4 ->
  let s' := tok_budget_charge s b nw in
  budget_left t s' <= budget_left t s - (if negb b && negb (tok_budget_over s nw) then 1 else 0) /\
  0 <= tok_mis_win s' <= nw /\ 0 <= tok_mis_cnt s' <= 4.
Proof.
  intros Ht Hn H64 Hw Hc. unfold budget_left, tok_budget_charge, tok_budget_over, tok_win_live, RATE_WINDOW,
    RATE_TOKEN_MISMATCH_MAX, RATE_TOKEN_MISMATCH_BOUND_MAX, u64. destruct s as [va sd tk pe a k e la cn bd w th u]. cbn in *.
  rewrite (Z.mod_small (nw - w)) by lia.
  destruct (negb (w =? 0) && (nw - w <? 1000)) eqn:El; cbn.
  - assert (forall z, (if t <=? w then 4 - z else if negb (w =? 0) && ((t - w) mod 2 ^ 64 <? 1000) then 8 - z else 4) =
      (if t <=? w then 4 - z else 8 - z)) as Hz.
    { intros z. destruct (t <=? w) eqn:Etw; [done|]. rewrite (Z.mod_small (t - w)) by lia.
      destruct (negb (w =? 0) && (t - w <? 1000)) eqn:Et; [done|lia]. }
    destruct b; cbn; [destruct (bd <? _); cbn; lia|]. destruct (cn >=? 4) eqn:E4.
    + destruct (cn <? 4) eqn:E5; [lia|]. cbn. lia.
    + destruct (cn <? 4) eqn:E5; [|lia]. cbn. rewrite !Hz. destruct (t <=? w); lia.
  - assert (4 <= (if t <=? w then 4 - cn else if negb (w =? 0) && ((t - w) mod 2 ^ 64 <? 1000) then 8 - cn else 4)) as Hold.
    { destruct (t <=? w) eqn:Etw; [lia|]. rewrite (Z.mod_small (t - w)) by lia. clear El. destruct (_ && _); lia. }
    destruct b; cbn; (destruct (t <=? nw) eqn:E; [|lia]); cbn; lia.
Qed.

Lemma budget_left_nonneg t s : 0 <= tok_mis_cnt s <= 4 -> 0 <= budget_left t s.
Proof. intros. unfold budget_left. ifs; lia. Qed.

(** A stranger's token is compared exactly while the budget is open, and then charged. *)
Lemma stranger_charged `{OpenSSLLaws} users v i s raw p io v' o :
  ctx_ok (srv_ctx v) -> live (srv_ctx v) i s -> frame_in users i (raw, p, io) -> stranger s (raw, p, io) = true ->
  handle_udp v users raw p io = Ret (v', o) ->
  tested (srv_ctx v) (raw, p, io) = negb (tok_budget_over s (now io)) /\
  (tok_budget_over s (now io) = false ->
     exists t, live (srv_ctx v') i t /\ counters t = counters (tok_budget_charge s false (now io))).
Proof.
  intros Hok Hli (_ & _ & Hr & Hcalm & _) Hg E. unfold stranger in Hg. rewrite !andb_true_iff, !negb_true_iff in Hg.
  destruct Hg as ((((Hl & Hty) & Hs) & Ht) & Hsp). apply Z.eqb_eq in Hs.
  assert (data_auth (srv_ctx v) (hdr_sid raw) (hdr_tok raw) p io =
    (srv_ctx v, if tok_budget_over s (now io) then VOver else VBad false)) as Ha.
  { unfold data_auth. rewrite Hs, (find_owner _ i s Hok Hli), (live_sess_at _ _ _ Hli), Hsp. cbn [negb andb].
    destruct (tok_budget_over s (now io)); [done|]. rewrite Z.eqb_sym, Ht. done. }
  split; [unfold tested; rewrite Ha; cbn; by destruct (tok_budget_over s (now io))|]. intros Ho.
  unfold handle_udp, IWAN_HDR_LEN in E. destruct (zlen raw <? 8) eqn:E8; [lia|]. rewrite rdn_ok in E by lia. cbn [rbind] in E.
  destruct (hdr_of_frame raw ltac:(lia)) as (E1 & E2 & E3). rewrite E1, E2, E3 in E.
  assert (PT_OPEN = 19 /\ PT_DATA = 20 /\ PT_DATA_ENC = 24 /\ PT_PING_REQ = 41 /\ PT_ECHO_REQ = 21) as HPT by done.
  rewrite allow_control_other in E by lia. cbn [negb] in E. rewrite with_rate_id, Hty in E.
  destruct (raw.[0] =? PT_OPEN) eqn:E4; [lia|]. unfold handle_data in E. rewrite Ha, Ho, with_rate_id in E.
  apply ret_pair_inv in E as [<- _]. rewrite ctx_with. destruct (gap_ok users io 0 (srv_ctx v) Hr Hok) as [Hok1 _].
  pose proof (live_calm io i Hcalm 0 _ _ Hli) as Hl1. unfold tok_charge_upgrade.
  rewrite Hs, (find_owner _ i s Hok1 Hl1), (live_sess_at _ _ _ Hl1), Hsp, Z.eqb_sym, Ht. cbn [negb].
  eexists. split; [eapply live_set_sess; [done|]|done]. destruct (charge_core s false (now io)) as ((-> & _) & _). by destruct Hli.
Qed.

(** One frame: the session lasts with no more budget, less one for a stranger's token
    that was compared; or it does not last. *)
Lemma frame_pays `{OpenSSLLaws} users v i s raw p io t :
  ctx_ok (srv_ctx v) -> live (srv_ctx v) i s -> frame_in users i (raw, p, io) ->
  0 < t -> t <= now io < t + 1000 -> now io < 2 ^ 64 -> 0 <= tok_mis_win s <= now io ->
  exists v' o, handle_udp v users raw p io = Ret (v', o) /\ ctx_ok (srv_ctx v') /\
    (if stranger s (raw, p, io) && tested (srv_ctx v) (raw, p, io) then 1 else 0) <= budget_left t s /\
    forall u, sess (srv_ctx v') !! i = Some u -> lasts raw s u = true ->
      live (srv_ctx v') i u /\ 0 <= tok_mis_win u <= now io /\
      budget_left t u <= budget_left t s - (if stranger s (raw, p, io) && tested (srv_ctx v) (raw, p, io) then 1 else 0).
Proof.
  intros Hok Hl Hin Ht Hn H64 Hw. pose proof Hin as (Hraw & Hlen & Hr & Hc & Hrand).
  destruct (handle_udp_spec users raw p io Hr Hraw Hlen v Hok Hrand) as (v' & o & E & Hst & _).
  destruct (call_steps_ok _ _ _ _ _ _ Hr Hst Hok) as [Hok' _]. exists v', o. split; [done|]. split; [done|].
  pose proof (lo_cnt _ _ (ok_live _ Hok i s Hl)) as Hcnt. unfold RATE_TOKEN_MISMATCH_MAX in Hcnt.
  pose proof (fun b => charge_pays t (now io) s b Ht Hn H64 Hw Hcnt) as Hpay.
  assert (stranger s (raw, p, io) = true -> tested (srv_ctx v) (raw, p, io) = true ->
    exists u, live (srv_ctx v') i u /\ counters u = counters (tok_budget_charge s false (now io)) /\
      budget_left t u <= budget_left t s - 1 /\ 0 <= tok_mis_win u <= now io /\ 0 <= budget_left t u) as Hguess.
  { intros Eg Et. destruct (stranger_charged users v i s raw p io v' o Hok Hl Hin Eg E) as [Et' Hch]. rewrite Et in Et'.
    symmetry in Et'. apply negb_true_iff in Et'. destruct (Hch Et') as (u & Hu & Hcu). exists u.
    destruct (Hpay false) as (Hb & Hwin & Hcn). rewrite Et' in Hb. cbn in Hb. pose proof (budget_left_nonneg t _ Hcn).
    rewrite (budget_left_counters _ _ _ Hcu). pose proof Hcu as [= _ _ ->]. done. }
  split.
  { destruct (stranger s (raw, p, io) && _) eqn:Eg; [|by apply budget_left_nonneg].
    apply andb_true_iff in Eg as [Eg Et]. destruct (Hguess Eg Et) as (u & _ & _ & ? & _ & ?). lia. }
  intros u Hu Hlast. apply andb_true_iff in Hlast as [Hv Hsame]. assert (live (srv_ctx v') i u) as Hlu by done.
  split; [done|]. destruct (stranger s (raw, p, io) && tested (srv_ctx v) (raw, p, io)) eqn:Eg.
  { apply andb_true_iff in Eg as [Eg Et]. destruct (Hguess Eg Et) as (u2 & Hu2 & _ & ? & ? & _).
    by rewrite (live_det _ _ _ _ Hlu Hu2). }
  rewrite Z.sub_0_r.
  destruct (handle_udp_session users raw p io i Hr Hc v v' o s Hok Hraw E Hl) as [(u' & Hu' & Hk & _)|[(_ & _ & Hcl)|(Hop & _)]].
  - rewrite <- (live_det _ _ _ _ Hlu Hu') in Hk.
    destruct (kp_count _ _ _ _ _ Hk) as [Hcu|[_ Hcu]]; rewrite (budget_left_counters _ _ _ Hcu); pose proof Hcu as [= _ _ ->]; [lia|].
    destruct (Hpay (same_peer (peer s) p)) as (Hb & Hwin & _). destruct (_ && _) in Hb; lia.
  - exfalso. destruct Hcl as (_ & _ & _ & Hno & _). by apply (Hno u).
  - rewrite Hop, Z.eqb_refl in Hsame. cbn in Hsame. apply bool_decide_eq_true in Hsame as ->. lia.
Qed.

Lemma compared_bounded `{OpenSSLLaws} users i l : forall v s t low,
  ctx_ok (srv_ctx v) -> live (srv_ctx v) i s -> Forall (frame_in users i) l ->
  0 < t -> 0 <= tok_mis_win s <= low -> t <= low -> t + 1000 <= 2 ^ 64 ->
  Sorted Z.le (low :: map when l) -> Forall (fun x => when x < t + 1000) l ->
  compared users v i s l <= budget_left t s.
Proof.
  induction l as [|[[raw p] io] l IH]; intros v s t low Hok Hli Hf Ht Hw Htl H64 Hsort Hbd; cbn [compared].
  { apply budget_left_nonneg. apply (ok_live _ Hok i s Hli). }
  apply Forall_cons in Hf as [Hf Hfs]. apply Forall_cons in Hbd as [Hb Hbs].
  cbn [map] in Hsort. apply Sorted_inv in Hsort as [Hsort Hlow]. apply HdRel_inv in Hlow.
  change (when (raw, p, io)) with (now io) in *.
  destruct (frame_pays users v i s raw p io t Hok Hli Hf Ht) as (v' & o & -> & Hok' & Hone & Hnext); [lia..|].
  destruct (sess (srv_ctx v') !! i) as [u|] eqn:Eu; [|lia].
  destruct (lasts raw s u) eqn:El; [|lia]. destruct (Hnext u eq_refl El) as (Hlu & Hwu & Hbu).
  pose proof (IH v' u t (now io) Hok' Hlu Hfs Ht Hwu ltac:(lia) H64 Hsort Hbs). lia.
Qed.

(** C11: guessing by DATA frames is capped.  Take any run of frames of any kinds, from
    any sources and for any sessions, handled in the order of their clock readings and
    within one second, while other threads leave this session alone between the lock
    sections.  For as long as the session lasts (it is not closed and not opened anew
    by its user), at most four tokens of DATA frames from addresses other than its peer
    are compared and found wrong if no budget window was running at the start of that
    second, and never more than eight (four of a window that is about to end and four
    of the next).  CLOSE frames have no such bound ([close_guess_uncharged]), and a
    frame handled with an older clock reading than the window's reopens it
    ([late_clock_reopens_budget]). *)
Theorem guess_budget `{OpenSSLLaws} users v i s t l :
  ctx_ok (srv_ctx v) -> live (srv_ctx v) i s -> Forall (frame_in users i) l ->
  0 < t -> 0 <= tok_mis_win s < t -> t + 1000 <= 2 ^ 64 ->
  Sorted Z.le (t :: map when l) -> Forall (fun x => when x < t + 1000) l ->
  compared users v i s l <= 8 /\ (tok_win_live s t = false -> compared users v i s l <= 4).
Proof.
  intros Hok Hli Hg Ht Hw H64 Hs Hb.
  assert (compared users v i s l <= budget_left t s) as Hle by (eapply compared_bounded; try done; lia).
  pose proof (lo_cnt _ _ (ok_live _ Hok i s Hli)) as Hc. unfold RATE_TOKEN_MISMATCH_MAX in Hc.
  unfold budget_left in Hle. destruct (t <=? tok_mis_win s) eqn:E; [lia|].
  destruct (tok_win_live s t); split; intros; (done || lia).
Qed.

(** ** A running example *)

Module EvolveDemo.

Definition guess_of (tok : Z) : arrival := (UpDemo.data tok, UpDemo.mallory, UpDemo.io_at 5000).

(** Six guesses from a stranger, with a packet of the peer between them. *)
Definition traffic : list arrival :=
  replicate 3 (guess_of 1) ++ (UpDemo.data UpDemo.good, UpDemo.alice, UpDemo.io_at 5000) :: replicate 3 (guess_of 2).

Lemma calm_io i t : calm i (UpDemo.io_at t).
Proof. intros k c. reflexivity. Qed.

Lemma data_in tok p t : frame_in Demo.users 0 (UpDemo.data tok, p, UpDemo.io_at t).
Proof.
  split; [apply UpDemo.data_ok|]. split; [|split; [apply UpDemo.rely_id|split; [apply calm_io|apply UpDemo.rands_ok]]].
  unfold UpDemo.data. rewrite zlen_app, xor_crypt_len; [vm_compute; discriminate|..]; by apply (bool_decide_unpack _); vm_compute.
Qed.

Lemma traffic_in : Forall (frame_in Demo.users 0) traffic.
Proof.
  unfold traffic, guess_of. apply Forall_app. split; [apply Forall_replicate; exact (data_in 1 UpDemo.mallory 5000)|].
  apply Forall_cons. split; [exact (data_in UpDemo.good UpDemo.alice 5000)|].
  apply Forall_replicate; exact (data_in 2 UpDemo.mallory 5000).
Qed.

Lemma traffic_when : map when traffic = replicate 7 5000.
Proof. reflexivity. Qed.

(** The server after one wrong guess. *)
Definition guessed : server :=
  with_ctx UpDemo.srv (set_sess Sample.c1 0 (tok_budget_charge Sample.s1 false 5000)).

Lemma guessed_run : handle_udp UpDemo.srv Demo.users (UpDemo.data 1) UpDemo.mallory (UpDemo.io_at 5000) = Ret (guessed, []).
Proof. vm_compute. reflexivity. Qed.

End EvolveDemo.

Lemma guess_budget_witness :
  compared Demo.users UpDemo.srv 0 Sample.s1 EvolveDemo.traffic <= 4 /\
  compared Demo.users UpDemo.srv 0 Sample.s1 EvolveDemo.traffic = 4.
Proof.
  split; [|vm_compute; reflexivity].
  apply (guess_budget Demo.users UpDemo.srv 0 Sample.s1 5000 EvolveDemo.traffic Sample.c1_ok Sample.s1_live).
  - exact EvolveDemo.traffic_in.
  - lia.
  - vm_compute. split; [discriminate|reflexivity].
  - lia.
  - rewrite EvolveDemo.traffic_when. cbn. repeat constructor; lia.
  - apply (Forall_map when (fun z => z < 5000 + 1000)). rewrite EvolveDemo.traffic_when. apply Forall_replicate. lia.
  - vm_compute. reflexivity.
Defined.

Lemma session_evolution_witness :
  exists t, live (srv_ctx EvolveDemo.guessed) 0 t /\ kept (UpDemo.data 1) UpDemo.mallory (UpDemo.io_at 5000) Sample.s1 t.
Proof.
  destruct (session_evolution UpDemo.srv Demo.users (UpDemo.data 1) UpDemo.mallory (UpDemo.io_at 5000)
    EvolveDemo.guessed [] 0 Sample.s1 Sample.c1_ok (UpDemo.rely_id _ _) (EvolveDemo.calm_io _ _) (UpDemo.data_ok _)
    Sample.s1_live EvolveDemo.guessed_run) as [[(t & H1 & H2 & _)|[(H & _)|(H & _)]] _].
  - exists t. split; [exact H1|exact H2].
  - vm_compute in H. discriminate H.
  - vm_compute in H. discriminate H.
Defined.
