(* ===== verification/Auth.v ===== *)
(** * Authentication on the client (src/src/common/auth.c)

    The OPEN request, the parser of the answer, the retry loop, and the theorem that
    client and server agree.  The socket is a list of outcomes of its calls. *)

From S2P Require Import Prelude Util Crypto Protocol Ipv4 Session Open.

Record AuthResult := mk_auth {
  r_sid : Z;
  r_tok : Z;
  r_tun : bytes;
  r_gw : bytes;
  r_dns : bytes;
  r_mtu : Z;
  r_enc : Z
}.

(** The messages [parse_ack] fails with. *)
Inductive ack_err :=
| TooShort
| BadSig
| Rejected (reason : bytes)
| UnexpectedType (t : Z) (tlvs : bytes)
| Oversized
| ZeroToken
| MalformedTlvs
| MissingTlvs
| AvWrongLen
| AvMismatch (echo : Z)
| ShortTlv.

Record ack_ctx := mk_ack { a_res : AuthResult; a_expect : Z; a_err : Z; a_echo : Z; a_got : Z }.

Definition ack_fail (c : ack_ctx) (e : Z) : ack_ctx :=
  let '(mk_ack r x _ ec g) := c in mk_ack r x e ec g.

Definition ack_tlv (c : ack_ctx) (typ : Z) (val : bytes) : res (ack_ctx * bool) :=
  let '(mk_ack (mk_auth sd tk tun gw dn mtu en) x e ec g) := c in
  let vlen := zlen val in
  if typ =? T_IP then
    if vlen <? 4 then Ret (ack_fail c 3, false)
    else let! v := rdn val 0 4 in Ret (mk_ack (mk_auth sd tk (ip_to_string v) gw dn mtu en) x e ec (Z.lor g 1), true)
  else if typ =? T_GATEWAY then
    if vlen <? 4 then Ret (ack_fail c 3, false)
    else let! v := rdn val 0 4 in Ret (mk_ack (mk_auth sd tk tun (ip_to_string v) dn mtu en) x e ec (Z.lor g 2), true)
  else if typ =? T_DNS then
    if vlen <? 4 then Ret (ack_fail c 3, false)
    else let! v := rdn val 0 4 in Ret (mk_ack (mk_auth sd tk tun gw (ip_to_string v) mtu en) x e ec (Z.lor g 4), true)
  else if typ =? T_MTU then
    if vlen <? 2 then Ret (ack_fail c 3, false)
    else
      let! v0 := rd val 0 in
      let! v1 := rd val 1 in
      Ret (mk_ack (mk_auth sd tk tun gw dn (clamp_mtu (u16 (Z.lor (Z.shiftl v0 8) v1))) en) x e ec (Z.lor g 8), true)
  else if typ =? T_ENCRYPT then
    if vlen <? 1 then Ret (ack_fail c 3, false)
    else let! v0 := rd val 0 in Ret (mk_ack (mk_auth sd tk tun gw dn mtu (if v0 =? 0 then 0 else 1)) x e ec g, true)
  else if typ =? T_AUTH_VERIFY then
    if negb (vlen =? 4) then Ret (ack_fail c 1, false)
    else
      let! v := rdn val 0 4 in
      let echo := ip4_u32 v in
      if negb (echo =? x) then Ret (mk_ack (mk_auth sd tk tun gw dn mtu en) x 2 echo g, false)
      else Ret (mk_ack (mk_auth sd tk tun gw dn mtu en) x e echo g, true)
  else Ret (c, true).

(** The reason of an OPEN_REJECT: the last message that fits the 128-byte buffer. *)
Fixpoint reject_loop (fuel : nat) (p : bytes) (reason : bytes) : res bytes :=
  match fuel with
  | O => Fault OutOfFuel
  | S fuel =>
      if zlen p >=? 2 then
        let! lt := rd p 0 in
        let! ll := rd p 1 in
        if (ll <? 2) || (ll >? zlen p) then Ret reason
        else
          let! reason := if (lt =? T_ERR_MSG) && (ll - 2 <? 128) then rdn p 2 (ll - 2) else Ret reason in
          reject_loop fuel (drop (Z.to_nat ll) p) reason
      else Ret reason
  end.

Definition sanitize (c : Z) : Z := if (c <? 32) || ((c >=? 127) && (c <=? 159)) then 63 else c.

Section Client.
Context `{OpenSSL}.

(** [None] is the return code -1. *)
Definition build_open (out user ct : bytes) (mtu enc nonce : Z) : res (option bytes) :=
  let ulen := zlen user in
  if ulen >? IWAN_TLV_VLEN_MAX then Ret None
  else
    let mb := [u8 (Z.shiftr mtu 8); u8 (Z.land mtu 255)] in
    let! pl := tlv_put [] T_MTU mb 2 in
    let! pl := tlv_put pl T_USERNAME user (u8 ulen) in
    let! pl := tlv_put pl T_PASSWORD ct 16 in
    let! pl := tlv_put pl T_ENCRYPT [enc] 1 in
    let! pl := tlv_put pl T_AUTH_VERIFY (put32 nonce) 4 in
    let! out := ctrl_hdr out PT_OPEN enc 0 0 in
    Ret (Some (out ++ pl)).

Definition parse_ack (buf : bytes) (expect_nonce : Z) : res (ack_err + AuthResult) :=
  let len := zlen buf in
  if len <? IWAN_CTRL_LEN then Ret (inl TooShort)
  else
    let! t := rd buf 0 in
    if t =? PT_OPEN_REJECT then
      let! ok := verify_sig buf in
      if negb ok then Ret (inl BadSig)
      else
        let! body := rdn buf IWAN_CTRL_LEN (len - IWAN_CTRL_LEN) in
        let! reason := reject_loop (S (length body)) body [] in
        Ret (inl (Rejected (map sanitize reason)))
    else if negb (t =? PT_OPEN_ACK) then
      let! body := rdn buf IWAN_CTRL_LEN (len - IWAN_CTRL_LEN) in
      Ret (inl (UnexpectedType t (hex_encode body)))
    else if len >? IWAN_CTRL_LEN + 31 then Ret (inl Oversized)
    else
      let! ok := verify_sig buf in
      if negb ok then Ret (inl BadSig)
      else
        let! h := rdn buf 0 8 in
        let tok := hdr_tok h in
        if tok =? 0 then Ret (inl ZeroToken)
        else
          let r := mk_auth (hdr_sid h) tok [] [] [] IWAN_DEFAULT_MTU 1 in
          let! body := rdn buf IWAN_CTRL_LEN (len - IWAN_CTRL_LEN) in
          let! (c, rc) := parse_tlvs body ack_tlv (mk_ack r expect_nonce 0 0 0) in
          if negb (rc =? 0) then Ret (inl MalformedTlvs)
          else if negb (Z.land (a_got c) 15 =? 15) then Ret (inl MissingTlvs)
          else if a_err c =? 1 then Ret (inl AvWrongLen)
          else if a_err c =? 2 then Ret (inl (AvMismatch (a_echo c)))
          else if a_err c =? 3 then Ret (inl ShortTlv)
          else Ret (inr (a_res c)).

(** [None] is -1; [ct_pass_hex] may be absent. *)
Definition get_ct (user pass : bytes) (ct_pass_hex : option bytes) : res (option bytes) :=
  let derive := let (rc, out) := encrypt_password pass user in if rc =? 0 then Ret (Some out) else Ret None in
  match ct_pass_hex with
  | Some h =>
      if zlen h =? 0 then derive
      else
        let h := if (hd 0 h =? 48) && ((hd 0 (tl h) =? 120) || (hd 0 (tl h) =? 88)) then drop 2 h else h in
        if negb (zlen h =? 32) then Ret None
        else let! o := hex_decode h 16 in
             Ret (match o with Some d => if zlen d =? 16 then Some d else None | None => None end)
  | None => derive
  end.

(** The outcomes of [port_send]: bytes taken, interrupted, a full buffer (and whether
    the bounded window is still open), nothing taken, or an error. *)
Inductive send_res :=
| Wrote (w : Z)
| Eintr
| Again (in_window : bool)
| SendFail.

(** The pieces of the frame handed over and whether all of it went. *)
Fixpoint auth_send_open (rs : list send_res) (pkt : bytes) : list bytes * bool :=
  if zlen pkt =? 0 then ([], true)
  else
    match rs with
    | [] => ([], false)
    | Wrote w :: rs =>
        if w >? 0 then
          let (l, ok) := auth_send_open rs (drop (Z.to_nat w) pkt) in (take (Z.to_nat w) pkt :: l, ok)
        else ([], false)
    | Eintr :: rs => auth_send_open rs pkt
    | Again true :: rs => auth_send_open rs pkt
    | Again false :: _ => ([], false)
    | SendFail :: _ => ([], false)
    end.

(** One round: how the send goes, and the datagram received ([None] for a timeout). *)
Definition round : Type := list send_res * option bytes.

(** The rounds left; the result is the answer accepted and the OPENs sent. *)
Fixpoint auth_loop (k : nat) (rounds : list round) (pkt : bytes) (nonce : Z) : res (option AuthResult * nat) :=
  match k with
  | O => Ret (None, 0%nat)
  | S k =>
      match rounds with
      | [] => Ret (None, 0%nat)
      | (rs, reply) :: rest =>
          if (auth_send_open rs pkt).2 then
            match reply with
            | Some d =>
                let! r := parse_ack d nonce in
                Ret (match r with inr a => Some a | inl _ => None end, 1%nat)
            | None => let! (a, n) := auth_loop k rest pkt nonce in Ret (a, S n)
            end
          else Ret (None, 0%nat)
      end
  end.

Definition AUTH_SEND_MAX : nat := 4.

Definition do_auth (rounds : list round) (pkt : bytes) (nonce : Z) : res (option AuthResult * nat) :=
  auth_loop AUTH_SEND_MAX rounds pkt nonce.

End Client.

(** ** Lemmas *)

Lemma send_open_pieces rs : forall pkt l,
  auth_send_open rs pkt = (l, true) -> concat l = pkt.
Proof.
  induction rs as [|r rs IH]; intros pkt l; cbn [auth_send_open].
  - destruct (zlen pkt =? 0) eqn:E; [|done]. intros [= <-]. symmetry. apply zlen_0_nil. lia.
  - destruct (zlen pkt =? 0) eqn:E; [intros [= <-]; symmetry; apply zlen_0_nil; lia|].
    destruct r as [w| |[|]|]; try done; [|by apply IH|by apply IH].
    destruct (w >? 0); [|done]. destruct (auth_send_open rs _) as [l' ok] eqn:El. intros [= <- ->].
    cbn [concat]. rewrite (IH _ _ El). apply take_drop.
Qed.

Lemma reject_loop_ok fuel : forall p reason,
  (length p < fuel)%nat -> bytes_ok p -> bytes_ok reason -> zlen reason < 128 ->
  exists r, reject_loop fuel p reason = Ret r /\ zlen r < 128 /\ bytes_ok r.
Proof.
  induction fuel as [|fuel IH]; intros p reason Hf Hp Hr Hl; [lia|]. cbn [reject_loop].
  destruct (zlen p >=? 2) eqn:E2; [|by eexists]. rewrite !rd_ok by lia. cbn [rbind].
  destruct (_ || _) eqn:E; [by eexists|].
  assert (length (drop (Z.to_nat p.[1]) p) < fuel)%nat as Hd by (rewrite length_drop; unfold zlen in *; lia).
  destruct ((p.[0] =? T_ERR_MSG) && (p.[1] - 2 <? 128)) eqn:Et; [rewrite rdn_ok by lia|]; cbn [rbind].
  - apply IH; [done|bok|bok|rewrite zlen_slice by lia; lia].
  - apply IH; [done|bok|done|done].
Qed.

Lemma ack_tlv_safe c t v : tlv_ok (t, v) -> exists c' go, ack_tlv c t v = Ret (c', go).
Proof.
  intros _. destruct c as [[sd tk tun gw dn mtu en] x e ec g]. unfold ack_tlv. pose proof (zlen_nonneg v).
  ifs; rds; cbn [rbind]; ifs; by eexists _, _.
Qed.

(** The TLVs of an OPEN. *)
Definition open_tlvs (u ct : bytes) (mtu enc nonce : Z) : list tlv :=
  [(T_MTU, put16 mtu); (T_USERNAME, u); (T_PASSWORD, ct); (T_ENCRYPT, [enc]); (T_AUTH_VERIFY, put32 nonce)].

Lemma open_tlvs_ok u ct mtu enc nonce :
  bytes_ok u -> zlen u <= IWAN_TLV_VLEN_MAX -> bytes_ok ct -> zlen ct = 16 -> is_byte enc ->
  Forall tlv_ok (open_tlvs u ct mtu enc nonce).
Proof.
  intros Hu Hl Hc Hlc He.
  assert (forall t v, is_byte t -> bytes_ok v -> zlen v <= IWAN_TLV_VLEN_MAX -> tlv_ok (t, v)) as Hk by done.
  assert (bytes_ok [enc]) as He' by by constructor.
  unfold open_tlvs. repeat apply Forall_cons_2; [..|constructor];
    (apply Hk; [done|first [done|apply put16_ok|apply put32_ok]|rewrite ?Hlc; done]).
Qed.

Section Interop.
Context `{OpenSSLLaws}.

(** A control frame with TLVs. *)
Definition ctrl_frame (typ enc sd tok : Z) (l : list tlv) : bytes :=
  pkt_hdr typ enc sd tok ++ md5 (pkt_hdr typ enc sd tok ++ IWAN_MW) ++ tlvs_enc l.

Lemma ctrl_frame_len typ enc sd tok l : zlen (ctrl_frame typ enc sd tok l) = 24 + zlen (tlvs_enc l).
Proof. unfold ctrl_frame. rewrite !zlen_app, md5_len. change (zlen (pkt_hdr typ enc sd tok)) with 8. lia. Qed.

Lemma ctrl_frame_sig typ enc sd tok l : verify_sig (ctrl_frame typ enc sd tok l) = Ret true.
Proof. unfold ctrl_frame. rewrite verify_sig_frame by (done || apply md5_len). by rewrite beq_refl. Qed.

Lemma ctrl_frame_body typ enc sd tok l :
  slice (ctrl_frame typ enc sd tok l) 24 (zlen (ctrl_frame typ enc sd tok l) - 24) = tlvs_enc l.
Proof.
  rewrite ctrl_frame_len. unfold ctrl_frame. rewrite app_assoc. rewrite <- (app_nil_r (tlvs_enc l)) at 1.
  apply slice_app_mid; [rewrite zlen_app, md5_len; done|lia].
Qed.

Lemma ctrl_frame_parse {ud} (cb : ud -> Z -> bytes -> res (ud * bool)) typ enc sd tok l u u' go :
  Forall tlv_ok l -> tlv_fold cb u l = Ret (u', go) ->
  parse_tlvs (slice (ctrl_frame typ enc sd tok l) 24 (zlen (ctrl_frame typ enc sd tok l) - 24)) cb u = Ret (u', 0).
Proof.
  intros Hl Hf. rewrite ctrl_frame_body, <- (app_nil_r (tlvs_enc l)), parse_tlvs_enc by (done || by left).
  rewrite Hf. cbn [rbind]. unfold tlv_result. cbn [fst snd]. rewrite beq_refl. by destruct go.
Qed.

Lemma ctrl_frame_bytes typ enc sd tok l : Forall tlv_ok l -> bytes_ok (ctrl_frame typ enc sd tok l).
Proof.
  intros Hl. unfold ctrl_frame. apply bytes_ok_app; split; [repeat constructor; apply u8_range|].
  apply bytes_ok_app; split; [apply md5_bytes|by apply tlvs_enc_bytes].
Qed.

Lemma build_open_ok out u ct mtu enc nonce :
  bytes_ok u -> zlen u <= IWAN_TLV_VLEN_MAX -> bytes_ok ct -> zlen ct = 16 -> is_byte enc ->
  build_open out u ct mtu enc nonce = Ret (Some (out ++ ctrl_frame PT_OPEN enc 0 0 (open_tlvs u ct mtu enc nonce))).
Proof.
  intros Hu Hl Hc Hlc He. pose proof (open_tlvs_ok u ct mtu enc nonce Hu Hl Hc Hlc He) as Hok. unfold open_tlvs in Hok.
  repeat (apply Forall_cons in Hok as [? Hok]). unfold build_open. destruct (_ >? _) eqn:E; [lia|].
  unfold IWAN_TLV_VLEN_MAX in Hl. pose proof (zlen_nonneg u). rewrite (u8_small (zlen u)) by lia.
  assert (u8 (Z.land mtu 255) = u8 mtu) as ->.
  { change 255 with (Z.ones 8). rewrite Z.land_ones by lia. unfold u8. apply Z.mod_mod. lia. }
  change (tlv_put [] T_MTU _ 2) with (tlv_put [] T_MTU (put16 mtu) (zlen (put16 mtu))).
  rewrite tlv_put_ok by done. cbn [rbind].
  rewrite (tlv_put_ok _ T_USERNAME u) by done. cbn [rbind].
  rewrite <- Hlc. rewrite (tlv_put_ok _ T_PASSWORD ct) by done. cbn [rbind].
  rewrite (tlv_put_ok _ T_ENCRYPT [enc]) by done. cbn [rbind].
  rewrite (tlv_put_ok _ T_AUTH_VERIFY (put32 nonce)) by done. cbn [rbind].
  rewrite ctrl_hdr_ok. cbn [rbind]. f_equal. f_equal.
  unfold ctrl_frame, open_tlvs, tlvs_enc. cbn [map concat]. rewrite app_nil_r, <- !app_assoc. done.
Qed.

(** The server reads back what the client wrote. *)
Lemma open_fold u ct mtu enc nonce :
  cstr_ok u -> 0 < zlen u <= SERVER_USER_MAX -> bytes_ok ct -> zlen ct = 16 -> 0 <= mtu < 65536 -> enc = 0 \/ enc = 1 ->
  0 <= nonce < 2 ^ 32 ->
  tlv_fold open_tlv open_ctx0 (open_tlvs u ct mtu enc nonce) = Ret (mk_open u ct mtu enc nonce true false, true).
Proof.
  intros Hu Hl Hc Hlc Hm He Hn. unfold open_tlvs, SERVER_USER_MAX in *. cbn [tlv_fold].
  unfold open_tlv at 1. cbn [Z.eqb Pos.eqb T_USERNAME T_PASSWORD T_MTU open_ctx0]. rewrite zlen_put16.
  change (2 >=? 2) with true. cbn iota. rewrite !rd_ok by (rewrite zlen_put16; lia). cbn [rbind].
  change (Z.lor _ _) with (be16 (u8 (Z.shiftr mtu 8)) (u8 mtu)). rewrite be16_put16, u16_small by done.
  unfold open_tlv at 1. cbn [Z.eqb Pos.eqb T_USERNAME]. destruct (zlen u >? 0) eqn:E; [|lia].
  assert ((if zlen u <? SERVER_USER_MAX then zlen u else SERVER_USER_MAX) = zlen u) as ->
    by (unfold SERVER_USER_MAX; destruct (zlen u <? 63) eqn:?; lia).
  rewrite rdn_ok, slice_all by lia. cbn [rbind]. rewrite cstr_cstr_ok by done.
  unfold SERVER_USER_MAX. destruct (zlen u >? 63) eqn:E2; [lia|].
  unfold open_tlv at 1. cbn [Z.eqb Pos.eqb T_USERNAME T_PASSWORD]. destruct (zlen ct >=? 16) eqn:E3; [|lia].
  rewrite rdn_ok by lia. rewrite <- Hlc, slice_all. cbn [rbind].
  unfold open_tlv at 1. cbn [Z.eqb Pos.eqb T_USERNAME T_PASSWORD T_MTU T_ENCRYPT]. change (zlen [enc] >=? 1) with true.
  cbn iota. rewrite rd_ok by (change (zlen [enc]) with 1; lia). cbn [rbind]. change [enc].[0] with enc.
  assert ((if enc =? 0 then 0 else 1) = enc) as -> by (destruct He as [-> | ->]; done).
  unfold open_tlv. cbn [Z.eqb Pos.eqb T_USERNAME T_PASSWORD T_MTU T_ENCRYPT T_AUTH_VERIFY].
  change (zlen (put32 nonce)) with 4. cbn [Z.eqb Pos.eqb]. rewrite !rd_ok by (change (zlen (put32 nonce)) with 4; lia).
  cbn [rbind].
  change (be32 _ _ _ _) with (be32 (u8 (Z.shiftr nonce 24)) (u8 (Z.shiftr nonce 16)) (u8 (Z.shiftr nonce 8)) (u8 nonce)).
  by rewrite be32_put32.
Qed.

(** The acknowledgement without its nonce. *)
Definition ack_core (c : server_ctx) (a : open_ctx) (ipu : Z) : list tlv :=
  [(T_MTU, put16 (clamp_mtu (oc_mtu a))); (T_IP, u32_ip4 ipu); (T_GATEWAY, server_ip c); (T_DNS, dns c);
   (T_ENCRYPT, [oc_enc a])].

(** The client reads back what the server answered. *)
Lemma ack_core_fold c a ipu sd tk x :
  cfg_ok c -> oc_ok a -> 0 <= ipu < 2 ^ 32 ->
  tlv_fold ack_tlv (mk_ack (mk_auth sd tk [] [] [] IWAN_DEFAULT_MTU 1) x 0 0 0) (ack_core c a ipu) =
  Ret (mk_ack (mk_auth sd tk (ip_to_string (u32_ip4 ipu)) (ip_to_string (server_ip c)) (ip_to_string (dns c))
                 (clamp_mtu (oc_mtu a)) (oc_enc a)) x 0 0 15, true).
Proof.
  intros Hc Ha Hi. destruct (cf_server c Hc) as [_ Hs].
  destruct (cf_dns c Hc) as [_ Hd]. pose proof (ao_mtu a Ha) as Hm.
  assert (0 <= clamp_mtu (oc_mtu a) < 65536 /\ clamp_mtu (clamp_mtu (oc_mtu a)) = clamp_mtu (oc_mtu a)) as [Hr Hcl].
  { unfold clamp_mtu, IWAN_MTU_MIN, IWAN_MTU_MAX. ifs; lia. }
  unfold ack_core. cbn [tlv_fold].
  unfold ack_tlv at 1. cbn [Z.eqb Pos.eqb T_IP T_GATEWAY T_DNS T_MTU]. rewrite zlen_put16. change (2 <? 2) with false.
  cbn iota. rewrite !rd_ok by (rewrite zlen_put16; lia). cbn [rbind].
  change (Z.lor _ _) with (be16 (u8 (Z.shiftr (clamp_mtu (oc_mtu a)) 8)) (u8 (clamp_mtu (oc_mtu a)))) at 1.
  rewrite be16_put16, u16_small, Hcl by done.
  unfold ack_tlv at 1. cbn [Z.eqb Pos.eqb T_IP]. change (zlen (u32_ip4 ipu)) with 4. cbn [Z.ltb Z.compare Pos.compare Pos.compare_cont].
  rewrite (rdn_all (u32_ip4 ipu) 4) by done. cbn [rbind].
  unfold ack_tlv at 1. cbn [Z.eqb Pos.eqb T_IP T_GATEWAY]. rewrite Hs. change (4 <? 4) with false. cbn iota.
  rewrite (rdn_all (server_ip c) 4) by done. cbn [rbind].
  unfold ack_tlv at 1. cbn [Z.eqb Pos.eqb T_IP T_GATEWAY T_DNS]. rewrite Hd. change (4 <? 4) with false. cbn iota.
  rewrite (rdn_all (dns c) 4) by done. cbn [rbind].
  unfold ack_tlv at 1. cbn [Z.eqb Pos.eqb T_IP T_GATEWAY T_DNS T_MTU T_ENCRYPT]. change (zlen [oc_enc a] <? 1) with false. cbn iota.
  rewrite rd_ok by (change (zlen [oc_enc a]) with 1; lia). cbn [rbind]. change [oc_enc a].[0] with (oc_enc a).
  assert ((if oc_enc a =? 0 then 0 else 1) = oc_enc a) as -> by (destruct (ao_enc a Ha) as [-> | ->]; done).
  done.
Qed.

Lemma ack_fold c a ipu sd tk :
  cfg_ok c -> oc_ok a -> 0 <= ipu < 2 ^ 32 ->
  tlv_fold ack_tlv (mk_ack (mk_auth sd tk [] [] [] IWAN_DEFAULT_MTU 1) (oc_nonce a) 0 0 0) (ack_tlvs c a ipu) =
  Ret (mk_ack (mk_auth sd tk (ip_to_string (u32_ip4 ipu)) (ip_to_string (server_ip c)) (ip_to_string (dns c))
                 (clamp_mtu (oc_mtu a)) (oc_enc a)) (oc_nonce a) 0 (oc_nonce a) 15, true).
Proof.
  intros Hc Ha Hi. change (ack_tlvs c a ipu) with (ack_core c a ipu ++ [(T_AUTH_VERIFY, put32 (oc_nonce a))]).
  rewrite tlv_fold_app, ack_core_fold by done. cbn [rbind tlv_fold].
  unfold ack_tlv. cbn [Z.eqb Pos.eqb T_IP T_GATEWAY T_DNS T_MTU T_ENCRYPT T_AUTH_VERIFY].
  change (zlen (put32 (oc_nonce a)) =? 4) with true. cbn [negb]. rewrite (rdn_all (put32 (oc_nonce a)) 4) by done.
  cbn [rbind]. rewrite ip4_put32, Z.eqb_refl by apply (ao_nonce a Ha). done.
Qed.

(** A signed ACK is accepted as soon as its TLVs are. *)
Lemma parse_ack_frame enc sd tok l x r echo :
  is_byte enc -> 0 <= sd < 65536 -> 0 < tok < 2 ^ 32 -> Forall tlv_ok l -> zlen (tlvs_enc l) <= 31 ->
  tlv_fold ack_tlv (mk_ack (mk_auth sd tok [] [] [] IWAN_DEFAULT_MTU 1) x 0 0 0) l = Ret (mk_ack r x 0 echo 15, true) ->
  parse_ack (ctrl_frame PT_OPEN_ACK enc sd tok l) x = Ret (inr r).
Proof.
  intros He Hsd Ht Hok Hl Hfold.
  set (f := ctrl_frame PT_OPEN_ACK enc sd tok l). pose proof (zlen_nonneg (tlvs_enc l)).
  assert (24 <= zlen f <= 55) as Hf by (unfold f; rewrite ctrl_frame_len; lia).
  unfold parse_ack, IWAN_CTRL_LEN, IWAN_HDR_LEN, IWAN_SIG_LEN. change (8 + 16) with 24.
  destruct (zlen f <? 24) eqn:E; [lia|]. rewrite rd_ok by lia. cbn [rbind]. change f.[0] with PT_OPEN_ACK.
  cbn [Z.eqb Pos.eqb PT_OPEN_ACK PT_OPEN_REJECT negb]. destruct (zlen f >? 24 + 31) eqn:E1; [lia|].
  assert (verify_sig f = Ret true) as -> by apply ctrl_frame_sig. cbn [rbind negb].
  rewrite rdn_ok by lia. cbn [rbind].
  assert (slice f 0 8 = pkt_hdr PT_OPEN_ACK enc sd tok) as -> by (unfold f, ctrl_frame; by apply slice_app_l).
  destruct (pkt_hdr_fields PT_OPEN_ACK enc sd tok []) as (_ & _ & Fs & Ft); [done|done|done|lia|].
  rewrite app_nil_r in Fs, Ft. rewrite Fs, Ft.
  destruct (tok =? 0) eqn:E0; [lia|]. rewrite rdn_ok by lia. cbn [rbind]. unfold f.
  by rewrite (ctrl_frame_parse ack_tlv _ _ _ _ _ _ _ _ Hok Hfold).
Qed.

Lemma ack_len c a ipu : cfg_ok c -> zlen (tlvs_enc (ack_tlvs c a ipu)) = 31 /\ zlen (tlvs_enc (ack_core c a ipu)) = 25.
Proof.
  intros Hc. destruct (cf_server c Hc) as [_ Hs]. destruct (cf_dns c Hc) as [_ Hd].
  unfold tlvs_enc, ack_tlvs, ack_core. cbn [map concat]. rewrite !zlen_app, !tlv_enc_len. cbn [snd]. rewrite Hs, Hd. done.
Qed.

End Interop.

(** ** What an accepted answer carries *)

(** The state of the parser: values in range, and a field set for every bit seen. *)
Record ack_inv (c : ack_ctx) : Prop := {
  ai_mtu : IWAN_MTU_MIN <= r_mtu (a_res c) <= IWAN_MTU_MAX;
  ai_enc : r_enc (a_res c) = 0 \/ r_enc (a_res c) = 1;
  ai_got : 0 <= a_got c < 16;
  ai_tun : Z.testbit (a_got c) 0 = true -> exists v, bytes_ok v /\ zlen v = 4 /\ r_tun (a_res c) = ip_to_string v;
  ai_gw : Z.testbit (a_got c) 1 = true -> exists v, bytes_ok v /\ zlen v = 4 /\ r_gw (a_res c) = ip_to_string v;
  ai_dns : Z.testbit (a_got c) 2 = true -> exists v, bytes_ok v /\ zlen v = 4 /\ r_dns (a_res c) = ip_to_string v
}.

(** Setting one of the four bits. *)
Lemma got_bits g b k :
  0 <= g < 16 -> b = 1 \/ b = 2 \/ b = 4 \/ b = 8 -> 0 <= k ->
  0 <= Z.lor g b < 16 /\ Z.testbit (Z.lor g b) k = Z.testbit g k || Z.testbit b k.
Proof.
  intros Hg Hb Hk. split; [|apply Z.lor_spec].
  pose proof (below_spec 16 (fun g => forallb (fun b => (0 <=? Z.lor g b) && (Z.lor g b <? 16)) [1; 2; 4; 8]) eq_refl g Hg) as H.
  cbn beta in H. rewrite forallb_forall in H. specialize (H b). cbn [In] in H. assert ((0 <=? Z.lor g b) && (Z.lor g b <? 16) = true)
    as Hb' by (apply H; destruct Hb as [-> |[-> |[-> | ->]]]; auto). lia.
Qed.

(** What one TLV does to the state. *)
Definition ack_post (c : ack_ctx) (t : Z) (v : bytes) (c' : ack_ctx) (go : bool) : Prop :=
  ack_inv c' /\ r_sid (a_res c') = r_sid (a_res c) /\ r_tok (a_res c') = r_tok (a_res c) /\ a_expect c' = a_expect c /\
  (if go then a_err c' = a_err c /\ (t = T_AUTH_VERIFY -> v = put32 (a_expect c)) else 1 <= a_err c' <= 3).

(** The invariant after a TLV that sets one bit of [got]. *)
Ltac ack_bit B :=
  split; cbn [a_res a_got r_mtu r_enc r_tun r_gw r_dns]; try done;
  try (rewrite B by lia; change (Z.testbit 1 0) with true; change (Z.testbit 2 1) with true; change (Z.testbit 4 2) with true;
       change (Z.testbit 1 1) with false; change (Z.testbit 1 2) with false; change (Z.testbit 2 0) with false;
       change (Z.testbit 2 2) with false; change (Z.testbit 4 0) with false; change (Z.testbit 4 1) with false;
       change (Z.testbit 8 0) with false; change (Z.testbit 8 1) with false; change (Z.testbit 8 2) with false;
       rewrite ?orb_false_r; by eauto).

Lemma ack_tlv_step c t v c' go :
  ack_inv c -> tlv_ok (t, v) -> ack_tlv c t v = Ret (c', go) -> ack_post c t v c' go.
Proof.
  intros Hi (Ht & Hv & Hl). cbn [fst snd] in *. destruct c as [[sd tk tun gw dn mtu en] x e ec g].
  pose proof Hi as [Hm He Hg H0 H1 H2]. cbn in Hm, He, Hg, H0, H1, H2. unfold ack_tlv. pose proof (zlen_nonneg v).
  set (c := mk_ack (mk_auth sd tk tun gw dn mtu en) x e ec g) in *.
  assert (forall e', 1 <= e' <= 3 -> ack_post c t v (ack_fail c e') false) as Hfail by (intros e' ?; by destruct Hi).
  assert (forall r' g' ec', ack_inv (mk_ack r' x e ec' g') -> r_sid r' = sd -> r_tok r' = tk ->
    (t = T_AUTH_VERIFY -> v = put32 x) -> ack_post c t v (mk_ack r' x e ec' g') true) as Hset by done.
  assert (forall b, b = 1 \/ b = 2 \/ b = 4 \/ b = 8 -> 0 <= Z.lor g b < 16 /\
    forall k, 0 <= k -> Z.testbit (Z.lor g b) k = Z.testbit g k || Z.testbit b k) as Hbits.
  { intros b Hb. split; [by apply (got_bits g b 0)|]. intros k Hk. by apply (got_bits g b k). }
  assert (4 <= zlen v -> bytes_ok (slice v 0 4) /\ zlen (slice v 0 4) = 4) as Hw.
  { intros H4. split; [bok|apply zlen_slice; lia]. }
  destruct (t =? T_IP) eqn:E1; [|destruct (t =? T_GATEWAY) eqn:E2; [|destruct (t =? T_DNS) eqn:E3;
    [|destruct (t =? T_MTU) eqn:E4; [|destruct (t =? T_ENCRYPT) eqn:E5; [|destruct (t =? T_AUTH_VERIFY) eqn:E6]]]]].
  - destruct (zlen v <? 4) eqn:E; [intros [= <- <-]; by apply Hfail|]. rewrite rdn_ok by lia. cbn [rbind].
    intros [= <- <-]. destruct (Hbits 1) as [B1 B2]; [auto|]. destruct Hw as [W1 W2]; [lia|].
    apply Hset; try done; [|intros ->; done]. ack_bit B2.
  - destruct (zlen v <? 4) eqn:E; [intros [= <- <-]; by apply Hfail|]. rewrite rdn_ok by lia. cbn [rbind].
    intros [= <- <-]. destruct (Hbits 2) as [B1 B2]; [auto|]. destruct Hw as [W1 W2]; [lia|].
    apply Hset; try done; [|intros ->; done]. ack_bit B2.
  - destruct (zlen v <? 4) eqn:E; [intros [= <- <-]; by apply Hfail|]. rewrite rdn_ok by lia. cbn [rbind].
    intros [= <- <-]. destruct (Hbits 4) as [B1 B2]; [auto|]. destruct Hw as [W1 W2]; [lia|].
    apply Hset; try done; [|intros ->; done]. ack_bit B2.
  - destruct (zlen v <? 2) eqn:E; [intros [= <- <-]; by apply Hfail|]. rewrite !rd_ok by lia. cbn [rbind].
    intros [= <- <-]. destruct (Hbits 8) as [B1 B2]; [auto|].
    apply Hset; try done; [|intros ->; done]. ack_bit B2.
    unfold clamp_mtu, IWAN_MTU_MIN, IWAN_MTU_MAX. ifs; lia.
  - destruct (zlen v <? 1) eqn:E; [intros [= <- <-]; by apply Hfail|]. rewrite rd_ok by lia. cbn [rbind].
    intros [= <- <-]. apply Hset; try done; [|intros ->; done]. split; cbn; try done. destruct (_ =? 0); auto.
  - destruct (zlen v =? 4) eqn:E; cbn [negb]; [|intros [= <- <-]; by apply Hfail]. rewrite rdn_all by lia. cbn [rbind].
    destruct (ip4_u32 v =? x) eqn:Ex; cbn [negb]; intros [= <- <-].
    + apply Hset; try done. intros _. apply Z.eqb_eq in Ex. rewrite <- Ex. fold (u32_ip4 (ip4_u32 v)).
      symmetry. apply u32_ip4_ip4; [lia|done].
    + split_and!; try done.
  - intros [= <- <-]. apply Hset; try done. lia.
Qed.

Lemma ack_fold_steps l : forall c c' go,
  ack_inv c -> a_err c = 0 -> Forall tlv_ok l -> tlv_fold ack_tlv c l = Ret (c', go) ->
  ack_inv c' /\ r_sid (a_res c') = r_sid (a_res c) /\ r_tok (a_res c') = r_tok (a_res c) /\
  (a_err c' = 0 -> go = true /\ Forall (fun x => x.1 = T_AUTH_VERIFY -> x.2 = put32 (a_expect c)) l) /\
  0 <= a_err c' <= 3.
Proof.
  induction l as [|[t v] l IH]; intros c c' go Hi He Hl; cbn [tlv_fold].
  { intros [= <- <-]. split_and!; try done; lia. }
  apply Forall_cons in Hl as [Htv Hl]. destruct (ack_tlv_safe c t v Htv) as (c1 & g1 & E). rewrite E. cbn [rbind].
  destruct (ack_tlv_step _ _ _ _ _ Hi Htv E) as (H1 & H2 & H3 & H4 & H5). destruct g1.
  - destruct H5 as [H5 H6]. intros Hf. destruct (IH c1 c' go H1 ltac:(congruence) Hl Hf) as (J1 & J2 & J3 & J4 & J5).
    split_and!; [done|congruence|congruence| |lia|lia]. intros E0. destruct (J4 E0) as [-> J6]. split; [done|].
    constructor; [done|]. by rewrite <- H4.
  - intros [= <- <-]. split_and!; try done; lia.
Qed.

Lemma parse_ack_total `{OpenSSLLaws} buf x : bytes_ok buf -> no_fault (parse_ack buf x).
Proof.
  intros Hb. unfold parse_ack, IWAN_CTRL_LEN, IWAN_HDR_LEN, IWAN_SIG_LEN. change (8 + 16) with 24.
  destruct (zlen buf <? 24) eqn:E; [by eexists|]. rewrite rd_ok by lia. cbn [rbind].
  assert (bytes_ok (slice buf 24 (zlen buf - 24))) as Hbody by bok.
  destruct (_ =? PT_OPEN_REJECT).
  { rewrite verify_sig_spec. cbn [rbind]. destruct (negb _); [by eexists|]. rewrite rdn_ok by lia. cbn [rbind].
    destruct (reject_loop_ok (S (length (slice buf 24 (zlen buf - 24)))) (slice buf 24 (zlen buf - 24)) [])
      as (r & -> & _); [lia|done|constructor|done|]. by eexists. }
  destruct (negb _); [rewrite rdn_ok by lia; by eexists|]. destruct (_ >? _); [by eexists|].
  rewrite verify_sig_spec. cbn [rbind]. destruct (negb _); [by eexists|]. rewrite rdn_ok by lia. cbn [rbind].
  destruct (_ =? 0); [by eexists|]. rewrite rdn_ok by lia. cbn [rbind].
  destruct (tlvs_split _ Hbody) as (l & tail & -> & Hl & Ht). rewrite parse_tlvs_enc by done.
  destruct (tlv_fold_safe ack_tlv (fun _ => True) l) with (u := mk_ack (mk_auth (hdr_sid (slice buf 0 8))
    (hdr_tok (slice buf 0 8)) [] [] [] IWAN_DEFAULT_MTU 1) x 0 0 0) as (c' & go & -> & _); [|done|done|].
  { intros u t v _ Hv. destruct (ack_tlv_safe u t v Hv) as (c' & go & Hc). by exists c', go. }
  cbn [rbind]. destruct (tlv_result _ _) as [c1 rc]. ifs; by eexists.
Qed.

Lemma dotted v : bytes_ok v -> zlen v = 4 -> s2ip4 (ip_to_string v) = Some v.
Proof. intros. by apply s2ip4_print. Qed.

(** ** Main theorems *)

(** C5: client and server agree.  The OPEN that [build_open] makes for a listed user
    with the ciphertext [get_ct] derives is accepted by [handle_open] (when the table
    and the takeover rule permit a session), and the client's [parse_ack] accepts the
    answer and ends up with the id, token, address and encryption mode of exactly the
    session the server installed, with the server's gateway, resolver and the clamped
    MTU. *)
Theorem client_server_agree `{OpenSSLLaws} c users u pw ct p io slot mtu e nonce :
  ctx_ok c -> cstr_ok u -> 0 < zlen u <= SERVER_USER_MAX -> 0 <= mtu < 65536 -> e = 0 \/ e = 1 -> 0 <= nonce < 2 ^ 32 ->
  find_pass users u = Some pw -> get_ct u pw None = Ret (Some ct) ->
  pick_slot c u = Some slot -> 256 <= ip_end c - ip_base c + 1 <= 65536 ->
  (forall t, live c slot t -> s_addr (peer t) = s_addr p \/ IDLE_TIMEOUT_MS < u64 (now_guard io - last_active_ms t)) ->
  Exists (fun t => u32 t <> 0) (rands io) ->
  exists frame c' b s,
    build_open [] u ct mtu e nonce = Ret (Some frame) /\
    handle_open c users frame p io = Ret (c', [Send p b]) /\ live c' slot s /\ user s = u /\ peer s = p /\
    parse_ack b nonce = Ret (inr (mk_auth (sid s) (token s) (ip_to_string (ip s)) (ip_to_string (server_ip c))
                                    (ip_to_string (dns c)) (clamp_mtu mtu) (enc s))).
Proof.
  intros Hok Hu Hl Hm He Hn Hp Hct Hs Hpool Hg Hr. unfold SERVER_USER_MAX in Hl.
  unfold get_ct in Hct. destruct (encrypt_password pw u) as [rc ct0] eqn:Ect. destruct (rc =? 0); [|done].
  apply ret_inj in Hct. injection Hct as ->.
  assert (ct = (encrypt_password pw u).2) as Hct by by rewrite Ect.
  assert (bytes_ok ct) as Hcb by (rewrite Hct; apply encrypt_password_bytes).
  assert (zlen ct = 16) as Hcl by (rewrite Hct; apply encrypt_password_len).
  assert (is_byte e) as Heb by (destruct He as [-> | ->]; done).
  assert (Forall tlv_ok (open_tlvs u ct mtu e nonce)) as Hok5.
  { apply open_tlvs_ok; try done; [by apply cstr_bytes_ok|unfold IWAN_TLV_VLEN_MAX; lia]. }
  set (frame := ctrl_frame PT_OPEN e 0 0 (open_tlvs u ct mtu e nonce)).
  set (a := mk_open u ct mtu e nonce true false).
  assert (open_accepts users frame a pw) as Hacc.
  { split; try done.
    - unfold frame. rewrite ctrl_frame_len. unfold IWAN_CTRL_LEN, IWAN_HDR_LEN, IWAN_SIG_LEN.
      pose proof (zlen_nonneg (tlvs_enc (open_tlvs u ct mtu e nonce))). lia.
    - apply ctrl_frame_sig.
    - eapply ctrl_frame_parse; [done|]. by apply open_fold. }
  assert (bytes_ok frame) as Hfb by by apply ctrl_frame_bytes.
  destruct (handle_open_accept c users frame p io a pw Hfb Hacc) as [Hrun Hoc].
  destruct (open_session_available c p io a pw slot Hok Hoc Hs Hpool Hg Hr) as (c' & s & b & E & Hin & Hok' & Hcfg & Hack).
  destruct Hin as [_ Hlive Huser Hpeer _ Henc _ _ _ _ _]. pose proof (ok_live c' Hok' slot s Hlive) as Hlo.
  destruct (lo_ip _ _ Hlo) as [Hib Hil].
  exists frame, c', b, s. split_and!; try done; [|by rewrite Hrun|].
  - rewrite build_open_ok; [done|by apply cstr_bytes_ok|unfold IWAN_TLV_VLEN_MAX; lia|done..].
  - rewrite open_ack_ok in Hack by (done || apply (ok_cfg c' Hok')). apply ret_inj in Hack. rewrite <- Hack, Henc.
    fold (ctrl_frame PT_OPEN_ACK (oc_enc a) (sid s) (token s) (ack_tlvs c' a (ip4_u32 (ip s)))).
    destruct Hcfg as (Hsip & Hdns & _). rewrite <- Hsip, <- Hdns.
    replace (ip_to_string (ip s)) with (ip_to_string (u32_ip4 (ip4_u32 (ip s)))) by by rewrite u32_ip4_ip4.
    eapply parse_ack_frame; [by destruct (ao_enc a Hoc) as [-> | ->]|rewrite (lo_sid _ _ Hlo); apply u16_range|
      apply (lo_token _ _ Hlo)|by apply ack_tlvs_ok; [apply ok_cfg|]|
      rewrite (proj1 (ack_len c' a _ (ok_cfg c' Hok'))); lia|].
    apply (ack_fold c' a); [apply (ok_cfg c' Hok')|done|by apply ip4_u32_range].
Qed.

(** what the client accepts.  [parse_ack] returns on every datagram without reading
    outside it; an answer it accepts is a signed OPEN_ACK of at most 55 bytes whose id
    and token are the header's, the token not zero; its addresses are dotted quads,
    its MTU is between 576 and 1500, and every nonce it carries is the one sent. *)
Theorem parse_ack_sound `{OpenSSLLaws} buf x r :
  bytes_ok buf ->
  no_fault (parse_ack buf x) /\
  (parse_ack buf x = Ret (inr r) ->
     24 <= zlen buf <= 55 /\ buf.[0] = PT_OPEN_ACK /\ verify_sig buf = Ret true /\
     r_sid r = hdr_sid buf /\ r_tok r = hdr_tok buf /\ r_tok r <> 0 /\
     576 <= r_mtu r <= 1500 /\ (r_enc r = 0 \/ r_enc r = 1) /\
     is_Some (s2ip4 (r_tun r)) /\ is_Some (s2ip4 (r_gw r)) /\ is_Some (s2ip4 (r_dns r)) /\
     exists l, slice buf 24 (zlen buf - 24) = tlvs_enc l /\
       Forall (fun tv => tv.1 = T_AUTH_VERIFY -> tv.2 = put32 x) l).
Proof.
  intros Hb. split; [by apply parse_ack_total|]. unfold parse_ack, IWAN_CTRL_LEN, IWAN_HDR_LEN, IWAN_SIG_LEN.
  change (8 + 16) with 24. destruct (zlen buf <? 24) eqn:E; [done|]. rewrite rd_ok by lia. cbn [rbind].
  destruct (buf.[0] =? PT_OPEN_REJECT) eqn:Er.
  { rewrite verify_sig_spec. cbn [rbind]. destruct (negb _); [done|]. rewrite rdn_ok by lia. cbn [rbind].
    by destruct (reject_loop _ _ _). }
  destruct (buf.[0] =? PT_OPEN_ACK) eqn:Ea; cbn [negb]; [|rewrite rdn_ok by lia; done].
  destruct (zlen buf >? 24 + 31) eqn:El; [done|].
  destruct (verify_sig buf) as [[|]|] eqn:Es; cbn [rbind negb]; [|done|done].
  rewrite rdn_ok by lia. cbn [rbind]. assert (hdr_sid (slice buf 0 8) = hdr_sid buf /\ hdr_tok (slice buf 0 8) = hdr_tok buf)
    as [-> ->] by (unfold hdr_sid, hdr_tok; rewrite !at_slice by lia; done).
  destruct (hdr_tok buf =? 0) eqn:Et; [done|]. rewrite rdn_ok by lia. cbn [rbind].
  assert (bytes_ok (slice buf 24 (zlen buf - 24))) as Hbody by bok.
  destruct (tlvs_split _ Hbody) as (l & tail & Hsplit & Hl & Htl). rewrite Hsplit, parse_tlvs_enc by done.
  set (c0 := mk_ack (mk_auth (hdr_sid buf) (hdr_tok buf) [] [] [] IWAN_DEFAULT_MTU 1) x 0 0 0).
  assert (ack_inv c0) as Hi0 by (split; cbn; try done; by right).
  destruct (tlv_fold ack_tlv c0 l) as [[c' go]|] eqn:Ef; cbn [rbind]; [|done].
  destruct (ack_fold_steps l c0 c' go Hi0 eq_refl Hl Ef) as (Hi & Hsd & Htk & Hav & He).
  unfold tlv_result. cbn [fst snd]. intros Hres.
  hyp_if Hres E1; [done|]. hyp_if Hres E2; [done|]. hyp_if Hres E3; [done|]. hyp_if Hres E4; [done|].
  hyp_if Hres E5; [done|]. apply ret_inj in Hres. injection Hres as <-.
  destruct Hav as [-> Hav]; [lia|].
  assert (tail = []) as -> by (apply beq_true; destruct (beq tail []); done).
  assert (a_got c' = 15) as Hgot.
  { apply negb_false_iff, Z.eqb_eq in E2. change 15 with (Z.ones 4) in E2 at 1. rewrite Z.land_ones in E2 by lia.
    rewrite Z.mod_small in E2; [done|apply (ai_got c' Hi)]. }
  assert (forall f, (exists v, bytes_ok v /\ zlen v = 4 /\ f = ip_to_string v) -> is_Some (s2ip4 f)) as Hdot.
  { intros f (v & H1 & H2 & ->). rewrite dotted by done. by eexists. }
  split_and!; try lia; try done; try (apply Hdot).
  - rewrite Htk. change (r_tok (a_res c0)) with (hdr_tok buf). lia.
  - apply (ai_mtu c' Hi).
  - apply (ai_mtu c' Hi).
  - apply (ai_enc c' Hi).
  - apply (ai_tun c' Hi). by rewrite Hgot.
  - apply (ai_gw c' Hi). by rewrite Hgot.
  - apply (ai_dns c' Hi). by rewrite Hgot.
  - exists l. split; [by rewrite app_nil_r|done].
Qed.

(** the nonce is optional for this client.  A signed OPEN_ACK with the mandatory
    TLVs and no nonce at all is accepted, whatever nonce was sent. *)
Theorem ack_without_nonce_accepted `{OpenSSLLaws} c a sd tok ipu x :
  cfg_ok c -> oc_ok a -> 0 <= ipu < 2 ^ 32 -> 0 <= sd < 65536 -> 0 < tok < 2 ^ 32 ->
  exists r, parse_ack (ctrl_frame PT_OPEN_ACK (oc_enc a) sd tok (ack_core c a ipu)) x = Ret (inr r).
Proof.
  intros Hc Ha Hi Hsd Ht. eexists. eapply parse_ack_frame; [by destruct (ao_enc a Ha) as [-> | ->]|done|done| | |].
  - pose proof (ack_tlvs_ok c a ipu Hc Ha) as Hok. unfold ack_tlvs in Hok.
    change (Forall tlv_ok (ack_core c a ipu ++ [(T_AUTH_VERIFY, put32 (oc_nonce a))])) in Hok.
    by apply Forall_app in Hok as [? _].
  - rewrite (proj2 (ack_len c a ipu Hc)). lia.
  - by apply ack_core_fold.
Qed.

(** C35: the handshake is bounded and sends whole frames.  [do_auth] sends at most four
    OPENs, each of them complete whatever the sizes of the partial writes, and its
    outcome is the verdict of [parse_ack] on the first datagram received: a reply that
    does not parse ends the attempt, only timeouts are retried. *)
Theorem do_auth_bounded `{OpenSSLLaws} rounds pkt nonce :
  Forall (fun rd => forall d, rd.2 = Some d -> bytes_ok d) rounds ->
  exists r n, do_auth rounds pkt nonce = Ret (r, n) /\ (n <= 4)%nat /\ (n <= length rounds)%nat /\
    (forall i rs rep, (i < n)%nat -> rounds !! i = Some (rs, rep) ->
       concat (auth_send_open rs pkt).1 = pkt /\ (S i < n -> rep = None)%nat) /\
    (forall a, r = Some a -> exists rs d, (0 < n)%nat /\ rounds !! pred n = Some (rs, Some d) /\ parse_ack d nonce = Ret (inr a)).
Proof.
  intros Hrs. unfold do_auth, AUTH_SEND_MAX. revert rounds Hrs. generalize 4%nat. induction n as [|k IH]; intros rounds Hrs.
  { exists None, 0%nat. split_and!; try done; try lia; intros; lia. }
  cbn [auth_loop]. destruct rounds as [|[rs rep] rest].
  { exists None, 0%nat. split_and!; try done; try lia; intros; lia. }
  apply Forall_cons in Hrs as [Hd Hrest]. cbn [snd] in Hd.
  destruct (auth_send_open rs pkt) as [pieces ok] eqn:Es. cbn [snd]. destruct ok.
  2: { exists None, 0%nat. split_and!; try done; try lia; intros; lia. }
  pose proof (send_open_pieces _ _ _ Es) as Hp. destruct rep as [d|].
  - destruct (parse_ack_total d nonce (Hd d eq_refl)) as [v Hv]. rewrite Hv. cbn [rbind].
    eexists _, 1%nat. split; [reflexivity|]. split_and!; try (cbn; lia).
    + intros [|i] rs' rep' Hi; [|lia]. cbn. intros [= <- <-]. rewrite Es. split; [done|lia].
    + intros a Ha. exists rs, d. split; [lia|]. split; [done|]. destruct v; [done|]. by injection Ha as ->.
  - destruct (IH rest Hrest) as (r & n & -> & H1 & H2 & H3 & H4). cbn [rbind].
    exists r, (S n). split; [reflexivity|]. split_and!; try (cbn; lia).
    + intros [|i] rs' rep' Hi; cbn; [intros [= <- <-]; rewrite Es; by split|]. intros Hlk.
      destruct (H3 i rs' rep' ltac:(lia) Hlk) as [Hc Hn]. split; [done|]. intros. apply Hn. lia.
    + intros a Ha. destruct (H4 a Ha) as (rs' & d & Hn & Hlk & Hpa). exists rs', d. split; [lia|].
      destruct n as [|n]; [lia|]. done.
Qed.

(** ** Witnesses *)

Lemma client_server_agree_witness :
  exists frame c' b s,
    build_open [] (lit "alice") (snd (encrypt_password (lit "secret") (lit "alice"))) 1400 1 99 = Ret (Some frame) /\
    handle_open Demo.ctx0 Demo.users frame Demo.alice Demo.io1 = Ret (c', [Send Demo.alice b]) /\ live c' 0 s /\
    user s = lit "alice" /\ peer s = Demo.alice /\
    parse_ack b 99 = Ret (inr (mk_auth (sid s) (token s) (ip_to_string (ip s)) (ip_to_string (server_ip Demo.ctx0))
                                 (ip_to_string (dns Demo.ctx0)) (clamp_mtu 1400) (enc s))).
Proof.
  destruct Demo.ctx0_facts as (H1 & H2 & H3).
  apply (client_server_agree Demo.ctx0 Demo.users (lit "alice") (lit "secret") _ Demo.alice Demo.io1 0 1400 1 99 Demo.ctx0_ok).
  - by apply (bool_decide_unpack _); vm_compute.
  - vm_compute. split; [reflexivity|discriminate].
  - lia.
  - by right.
  - lia.
  - reflexivity.
  - vm_compute. reflexivity.
  - exact H1.
  - exact H2.
  - intros t Ht. exfalso. rewrite (live_sess_at _ _ _ Ht) in H3. destruct Ht as [_ Hv]. congruence.
  - apply Exists_cons_tl, Exists_cons_hd. discriminate.
Defined.

Module AckSample.

Definition frame : bytes :=
  ctrl_frame PT_OPEN_ACK 1 2 305419896
    [(T_MTU, [5; 120]); (T_IP, [198; 18; 0; 2]); (T_GATEWAY, [198; 18; 0; 1]); (T_DNS, [1; 1; 1; 1]);
     (T_ENCRYPT, [1]); (T_AUTH_VERIFY, [0; 0; 0; 99])].
Definition result : AuthResult :=
  mk_auth 2 305419896 (lit "198.18.0.2") (lit "198.18.0.1") (lit "1.1.1.1") 1400 1.

End AckSample.

Lemma parse_ack_sound_witness :
  parse_ack AckSample.frame 99 = Ret (inr AckSample.result) /\ r_tok AckSample.result = hdr_tok AckSample.frame.
Proof.
  assert (parse_ack AckSample.frame 99 = Ret (inr AckSample.result)) as H by (vm_compute; reflexivity).
  split; [exact H|].
  destruct (parse_ack_sound AckSample.frame 99 AckSample.result) as [_ Hs]; [by apply (bool_decide_unpack _); vm_compute|].
  destruct (Hs H) as (_ & _ & _ & _ & Ht & _). exact Ht.
Defined.

Lemma ack_without_nonce_accepted_witness :
  exists r, parse_ack (ctrl_frame PT_OPEN_ACK 1 2 7 (ack_core Sample.c0 open_ctx0 3323068418)) 99 = Ret (inr r).
Proof.
  apply (ack_without_nonce_accepted Sample.c0 open_ctx0 2 7 3323068418 99 (ok_cfg _ Sample.c0_ok) oc_ok0); lia.
Defined.

Lemma do_auth_bounded_witness :
  do_auth [([Wrote 1; Eintr; Wrote 2], None); ([Wrote 3], Some AckSample.frame)] [1; 2; 3] 99
    = Ret (Some AckSample.result, 2%nat).
Proof.
  destruct (do_auth_bounded [([Wrote 1; Eintr; Wrote 2], None); ([Wrote 3], Some AckSample.frame)] [1; 2; 3] 99)
    as (r & n & H & _).
  - repeat constructor; intros d [= <-]. by apply (bool_decide_unpack _); vm_compute.
  - rewrite H. symmetry. rewrite <- H. vm_compute. reflexivity.
Defined.
