(* ===== verification/PumpSend.v ===== *)
(** * Sending on the session socket (src/src/common/udp_send.c, and the send paths of proxy.c)

    One UDP socket carries the packets of all reader threads and the control frames.  A batch of packets of one
    size may leave in one call that the kernel cuts into datagrams (UDP_SEGMENT); every other batch leaves with
    sendmmsg.  The state [Sock] holds what the code remembers about the socket and the calls it made, with their
    answers; a send section runs under [send_lock], so sections of different threads follow one another.  The kernel is
    the class [Udp]. *)

From S2P Require Import Prelude Util Crypto Protocol.
Import Pace.

(** ** The socket *)

Inductive errno := EINTR | EAGAIN | ENOBUFS | EPERM | ENOMEM | EMSGSIZE | EINVAL | E_other.

(** The calls on the socket, each with its answer. *)
Inductive sock_call :=
  | K_opt (mss : Z) (ok : bool)
  | K_mmsg (fs : list bytes) (r : Z + errno)
  | K_msg (fs : list bytes) (r : Z + errno)
  | K_send (f : bytes) (r : Z + errno).

(** What udp_send.c and proxy.c remember, the flag [g_stop] as far as this program sets it, and the calls so far, oldest first. *)
Record Sock := mk_sock {
  gso_ok : Z;
  gso_mss : Z;
  gso_pending_mss : Z;
  gso_streak : Z;
  last_probe_ms : Z;
  pace : pace_bucket;
  session_lost : bool;
  g_stop : bool;
  calls_made : list sock_call
}.

Definition made (p : Sock) (c : sock_call) : Sock :=
  let '(mk_sock k m pm st lp pc ls sp cs) := p in mk_sock k m pm st lp pc ls sp (cs ++ [c]).
Definition set_gso (k m pm st : Z) (p : Sock) : Sock :=
  let '(mk_sock _ _ _ _ lp pc ls sp cs) := p in mk_sock k m pm st lp pc ls sp cs.
Definition set_mss (m : Z) (p : Sock) : Sock := set_gso (gso_ok p) m (gso_pending_mss p) (gso_streak p) p.
Definition set_ok (k : Z) (p : Sock) : Sock := set_gso k (gso_mss p) (gso_pending_mss p) (gso_streak p) p.
Definition set_probe (t : Z) (p : Sock) : Sock :=
  let '(mk_sock k m pm st _ pc ls sp cs) := p in mk_sock k m pm st t pc ls sp cs.
Definition set_pace (b : pace_bucket) (p : Sock) : Sock :=
  let '(mk_sock k m pm st lp _ ls sp cs) := p in mk_sock k m pm st lp b ls sp cs.
Definition set_lost (p : Sock) : Sock :=
  let '(mk_sock k m pm st lp pc _ _ cs) := p in mk_sock k m pm st lp pc true true cs.

(** ** Segmentation offload (udp_send.c) *)

Definition IWAN_GSO_HYST : Z := 8.

Definition udp_gso_clear (answer : bool) (p : Sock) : Sock :=
  if gso_mss p =? 0 then p else set_mss 0 (made p (K_opt 0 answer)).

(** The answer of setsockopt, the clock, and whether the exchange of [last_probe_ms] succeeds. *)
Record prep_io := { pr_opt : bool; pr_now : Z; pr_cas : bool }.

Definition udp_gso_prepare (io : prep_io) (mss : Z) (p : Sock) : bool * Sock :=
  let arm := made p (K_opt mss (pr_opt io)) in
  if gso_ok p =? -1 then
    if pr_opt io then (true, set_gso 1 mss mss 0 arm) else (false, set_mss 0 (set_ok 0 arm))
  else if gso_ok p =? 0 then
    if u64 (pr_now io - last_probe_ms p) <? 1000 then (false, p)
    else if negb (pr_cas io) then (false, p)
    else
      let arm := set_probe (pr_now io) arm in
      if pr_opt io then (true, set_gso 1 mss mss 0 arm) else (false, arm)
  else if negb (gso_mss p =? mss) then
    let streak := if gso_pending_mss p =? mss then u32 (gso_streak p + 1) else 1 in
    if (gso_mss p =? 0) || (streak >=? IWAN_GSO_HYST) then
      if pr_opt io then (true, set_gso (gso_ok p) mss mss 0 arm) else (false, set_gso 0 0 mss streak arm)
    else (false, set_gso (gso_ok p) (gso_mss p) mss streak p)
  else (true, set_gso (gso_ok p) (gso_mss p) mss 0 p).

(** True to retry, false once the budget is spent. *)
Definition udp_send_stall_wait (now retry_t0 budget_ms : Z) : bool := u64 (now - retry_t0) <? budget_ms.

(** ** Batches (proxy.c) *)

Definition PUMP_SEND_RETRY_MS : Z := 5.
Definition IWAN_UDP_GSO_UNIT : Z := 65507.
Definition IWAN_GSO_UNIT_SAFE : Z := 4096.
Definition IWAN_GSO_MSS_MIN : Z := 512.

Inductive tx_result := TX_DONE | TX_FALLBACK | TX_FATAL.

(** One turn of a send loop: the flag [g_stop] as other threads and the signal handler left it, the answer of the call, and the clock
    at the wait. *)
Record tick := { t_stop : bool; t_answer : Z + errno; t_now : Z }.

Definition transient (e : errno) : bool := match e with EAGAIN | ENOBUFS | EPERM | ENOMEM => true | _ => false end.
Definition pump_send_retry (now retry_t0 : Z) : bool := udp_send_stall_wait now retry_t0 PUMP_SEND_RETRY_MS.

(** [fs] are the messages not sent yet. *)
Fixpoint batch_loop (ts : list tick) (retry_t0 : Z) (fs : list bytes) (p : Sock) : res (tx_result * Sock) :=
  if zlen fs =? 0 then Ret (TX_DONE, p)
  else
    match ts with
    | [] => Fault OutOfFuel
    | t :: ts =>
        if g_stop p || t_stop t then Ret (TX_DONE, p)
        else
          let p := made p (K_mmsg fs (t_answer t)) in
          match t_answer t with
          | inl sm => if sm >? 0 then batch_loop ts retry_t0 (drop (Z.to_nat sm) fs) p else Ret (TX_DONE, p)
          | inr EINTR => batch_loop ts retry_t0 fs p
          | inr e =>
              if transient e then
                if pump_send_retry (t_now t) retry_t0 then batch_loop ts retry_t0 fs p else Ret (TX_DONE, p)
              else match e with
                   | EMSGSIZE | EINVAL => batch_loop ts retry_t0 (drop 1 fs) p
                   | _ => Ret (TX_FATAL, set_lost p)
                   end
          end
    end.

(** A pass over the socket: the clock at its start, the answer to switching segmentation off, the turns of its loop. *)
Record pass_io := { ps_t0 : Z; ps_clear : bool; ps_ticks : list tick }.

Definition send_batch (io : pass_io) (fs : list bytes) (p : Sock) : res (tx_result * Sock) :=
  batch_loop (ps_ticks io) (ps_t0 io) fs (udp_gso_clear (ps_clear io) p).

(** The part of [fs] behind the first [skip] bytes, as far as whole messages go. *)
Fixpoint skip_sent (fs : list bytes) (skip : Z) : list bytes * Z :=
  match fs with
  | [] => ([], skip)
  | f :: rest => if skip >=? zlen f then skip_sent rest (skip - zlen f) else (fs, skip)
  end.

(** The message header [mh] is built before the loop; the code moves [iov] and [n] ([rest] here) but not the header. *)
Fixpoint gso_loop (ts : list tick) (io : pass_io) (mh rest : list bytes) (total : Z) (p : Sock) : res (tx_result * Sock) :=
  match ts with
  | [] => Fault OutOfFuel
  | t :: ts =>
      if g_stop p || t_stop t then Ret (TX_DONE, p)
      else
        let p := made p (K_msg mh (t_answer t)) in
        match t_answer t with
        | inl r =>
            if r =? total then Ret (TX_DONE, p)
            else
              let '(rest, skip) := skip_sent rest r in
              if zlen rest =? 0 then Ret (TX_DONE, p) else if skip >? 0 then Ret (TX_DONE, p) else gso_loop ts io mh rest total p
        | inr EINTR => gso_loop ts io mh rest total p
        | inr e =>
            if transient e then
              if pump_send_retry (t_now t) (ps_t0 io) then gso_loop ts io mh rest total p else Ret (TX_DONE, p)
            else Ret (TX_FALLBACK, set_ok 0 (udp_gso_clear (ps_clear io) p))
        end
  end.

Definition send_gso (pio : prep_io) (io : pass_io) (fs : list bytes) (mss : Z) (p : Sock) : res (tx_result * Sock) :=
  let total := fold_right (fun f n => zlen f + n) 0 fs in
  let '(ready, p) := udp_gso_prepare pio mss p in
  if negb ready then Ret (TX_FALLBACK, p)
  else if gso_ok p =? 0 then Ret (TX_FALLBACK, p)
  else gso_loop (ps_ticks io) io fs fs total p.

(** What the environment does during one [pump_tx_send]: to the offload path, the plain path and the pacing. *)
Record send_io := { si_prep : prep_io; si_gso : pass_io; si_batch : pass_io; si_pace_now : Z; si_pace_stop : nat -> bool }.

(** Whether a batch may leave in one call. *)
Definition uniform (fs : list bytes) : bool :=
  match fs with
  | f0 :: rest =>
      let l0 := zlen f0 in let n := zlen fs in
      (n >=? 2) && forallb (fun f => zlen f =? l0) rest && (l0 >=? IWAN_GSO_MSS_MIN) && (n * l0 <=? IWAN_UDP_GSO_UNIT) && (n * l0 <=? IWAN_GSO_UNIT_SAFE)
  | [] => false
  end.

Definition pump_tx_send (io : send_io) (fs : list bytes) (p : Sock) : res Sock :=
  if zlen fs =? 0 then Ret p
  else
    let! r := if uniform fs then send_gso (si_prep io) (si_gso io) fs (zlen (hd [] fs)) p else Ret (TX_FALLBACK, p) in
    let! r := match r with (TX_FALLBACK, p) => send_batch (si_batch io) fs p | _ => Ret r end in
    match r with
    | (TX_FATAL, p) => Ret p
    | (_, p) =>
        let! b := pace_take (pace p) (zlen fs) (si_pace_now io) (si_pace_stop io) in
        Ret (set_pace b.1 p)
    end.

(** The answers around one control frame: switching segmentation off, the send, switching it on again. *)
Record ctrl_io := { ct_clear : bool; ct_send : Z + errno; ct_arm : bool }.

Section Control.
Context `{OpenSSL}.

(** True for 0, false for -1. *)
Definition send_ctrl (io : ctrl_io) (typ enc sid tok : Z) (p : Sock) : res (bool * Sock) :=
  let! pkt := ctrl_hdr [] typ enc sid tok in
  let armed := gso_mss p in
  let p := if armed =? 0 then p else set_mss 0 (made p (K_opt 0 (ct_clear io))) in
  let p := made p (K_send pkt (ct_send io)) in
  let p := if armed =? 0 then p
           else let p := made p (K_opt armed (ct_arm io)) in if ct_arm io then set_mss armed p else p in
  Ret (match ct_send io with inl r => r =? zlen pkt | inr _ => false end, p).

Definition signed_frame (typ enc sid tok : Z) : bytes := pkt_hdr typ enc sid tok ++ md5 (pkt_hdr typ enc sid tok ++ IWAN_MW).

Lemma ctrl_returns io typ enc sid tok p : exists p',
  send_ctrl io typ enc sid tok p = Ret (match ct_send io with inl r => r =? zlen (signed_frame typ enc sid tok) | inr _ => false end, p') /\
  g_stop p' = g_stop p /\ session_lost p' = session_lost p.
Proof.
  unfold send_ctrl. rewrite ctrl_hdr_ok. cbn [rbind app]. fold (signed_frame typ enc sid tok). eexists. split; [reflexivity|].
  destruct p as [? m ? ? ? ? ? ? ?]. cbn. destruct (m =? 0), (ct_arm io); done.
Qed.

End Control.

(** * The kernel *)

(** [segment m d] are the datagrams that leave when [d] is sent with a segment size of [m] in force, 0 for none. *)
Class Udp := { segment : Z -> bytes -> list bytes }.

(** udp(7): without a segment size a message is one datagram; with one, messages of that size that are sent in one call leave as they are. *)
Class UdpLaws `{Udp} := {
  segment_off d : segment 0 d = [d];
  segment_uniform m fs : 0 < m -> fs <> [] -> Forall (fun f => zlen f = m) fs -> segment m (concat fs) = fs
}.

Section Kernel.
Context `{Udp}.

(** The segment size in force, and the datagrams that left. *)
Record Kernel := mk_kernel { armed : Z; wire : list bytes }.

Definition k_step (k : Kernel) (c : sock_call) : Kernel :=
  match c with
  | K_opt m true => mk_kernel m (wire k)
  | K_mmsg fs (inl n) => mk_kernel (armed k) (wire k ++ concat (map (segment (armed k)) (take (Z.to_nat n) fs)))
  | K_msg fs (inl r) => mk_kernel (armed k) (wire k ++ segment (armed k) (take (Z.to_nat r) (concat fs)))
  | K_send f (inl r) => mk_kernel (armed k) (wire k ++ segment (armed k) (take (Z.to_nat r) f))
  | _ => k
  end.

Definition replay (cs : list sock_call) : Kernel := fold_left k_step cs (mk_kernel 0 []).
Definition kernel (p : Sock) : Kernel := replay (calls_made p).

(** Steady answers: a call takes a message whole or not at all, as datagram sockets do, and no setsockopt fails while a segment size is
    in force.  The second is a condition on the run, not a promise of the kernel: [failed_rearm_cuts_frames] below is a run without it, and
    [partial_unit_sent_twice] one without the first. *)
Definition answer_ok (k : Kernel) (c : sock_call) : Prop :=
  match c with
  | K_opt _ ok => ok = true \/ armed k = 0
  | K_mmsg _ (inl n) => 0 <= n
  | K_msg fs (inl r) => r = zlen (concat fs)
  | K_send f (inl r) => r = zlen f
  | _ => True
  end.

Fixpoint answers_ok (k : Kernel) (cs : list sock_call) : Prop :=
  match cs with [] => True | c :: cs => answer_ok k c /\ answers_ok (k_step k c) cs end.

Definition steady (p : Sock) : Prop := answers_ok (mk_kernel 0 []) (calls_made p).

(** What the code remembers is what is in force. *)
Definition sock_ok (p : Sock) : Prop := armed (kernel p) = gso_mss p.

(** [p'] comes from [p] by calls that put some of [fs] on the wire, whole, in order and once each; all of them if [all]. *)
Record sends (all : bool) (fs : list bytes) (p p' : Sock) : Prop := {
  sends_calls : exists cs, calls_made p' = calls_made p ++ cs;
  sends_wire : steady p' -> sock_ok p -> sock_ok p' /\ exists ds, wire (kernel p') = wire (kernel p) ++ ds /\ ds `sublist_of` fs /\ (all = true -> ds = fs);
  sends_stop : all = true -> g_stop p' = g_stop p
}.

End Kernel.

Section Sends.
Context `{UdpLaws}.

Lemma answers_app k cs c : answers_ok k (cs ++ [c]) <-> answers_ok k cs /\ answer_ok (fold_left k_step cs k) c.
Proof. revert k. induction cs as [|x cs IH]; intros k; cbn; [tauto|]. rewrite IH. tauto. Qed.

Lemma answers_prefix k cs ds : answers_ok k (cs ++ ds) -> answers_ok k cs.
Proof. revert k. induction cs as [|x cs IH]; intros k; cbn; [done|]. intros [? ?]. split; eauto. Qed.

Lemma calls_set (p : Sock) k m pm st t b :
  calls_made (set_gso k m pm st p) = calls_made p /\ calls_made (set_probe t p) = calls_made p /\
  calls_made (set_pace b p) = calls_made p /\ calls_made (set_lost p) = calls_made p.
Proof. by destruct p. Qed.

Lemma made_calls p c : calls_made (made p c) = calls_made p ++ [c].
Proof. by destruct p. Qed.

Lemma made_kernel p c : kernel (made p c) = k_step (kernel p) c.
Proof. unfold kernel, replay. by rewrite made_calls, fold_left_app. Qed.

Lemma made_steady p c : steady (made p c) <-> steady p /\ answer_ok (kernel p) c.
Proof. unfold steady. rewrite made_calls, answers_app. done. Qed.

Lemma sends_steady b fs p p' : sends b fs p p' -> steady p' -> steady p.
Proof. intros [[cs E] _ _] Hh. unfold steady in *. rewrite E in Hh. by eapply answers_prefix. Qed.

(** Same calls, same segment size. *)
Lemma sends_same b p p' : calls_made p' = calls_made p -> gso_mss p' = gso_mss p -> (b = true -> g_stop p' = g_stop p) -> sends b [] p p'.
Proof.
  intros E Em Es. split; [exists []; by rewrite app_nil_r| |done]. intros _ Hok. unfold sock_ok, kernel in *. rewrite E, Em. split; [done|].
  exists []. rewrite app_nil_r. done.
Qed.

Lemma sends_trans b c fs gs p q r : sends b fs p q -> sends c gs q r -> sends (b && c) (fs ++ gs) p r.
Proof.
  intros H1 H2. pose proof (sends_steady _ _ _ _ H2) as Hh. destruct H1 as [[cs E1] H1 G1], H2 as [[ds E2] H2 G2].
  split; [exists (cs ++ ds); by rewrite E2, E1, app_assoc| |intros [Hb Hc]%andb_prop; by rewrite G2, G1]. intros Hr Hok. destruct (H1 (Hh Hr) Hok) as (Hq & d1 & W1 & S1 & A1).
  destruct (H2 Hr Hq) as (Hok' & d2 & W2 & S2 & A2). split; [done|]. exists (d1 ++ d2).
  split; [by rewrite W2, W1, app_assoc|]. split; [by apply sublist_app|]. intros [Hb Hc]%andb_prop. by rewrite A1, A2.
Qed.

Lemma sends_weaken b b' fs fs' p q : sends b fs p q -> fs `sublist_of` fs' -> (b' = true -> b = true /\ fs = fs') -> sends b' fs' p q.
Proof.
  intros [He Hs Hg] Hsub Hb. split; [done| |intros Hb'; by apply Hg, Hb]. intros Hh Hok. destruct (Hs Hh Hok) as (? & ds & ? & Hd & Ha). split; [done|]. exists ds. split_and!; [done|by etransitivity|].
  intros Hb'. destruct (Hb Hb') as [Hbt <-]. by apply Ha.
Qed.

(** Switching segmentation off before anything else leaves. *)
Lemma clear_sends a p : sends true [] p (udp_gso_clear a p) /\ gso_mss (udp_gso_clear a p) = 0.
Proof.
  unfold udp_gso_clear. destruct (gso_mss p =? 0) eqn:E; [split; [by apply sends_same|lia]|]. split; [|by destruct p].
  unfold set_mss. set (q := made p (K_opt 0 a)). destruct (calls_set q (gso_ok q) 0 (gso_pending_mss q) (gso_streak q) 0 (pace q)) as (C & _).
  split; [exists [K_opt 0 a]; rewrite C; apply made_calls| |intros _; by destruct p]. unfold steady, sock_ok, kernel. rewrite C. intros Hh Ha.
  fold (steady q) in Hh. apply made_steady in Hh as [_ [Ht|Hz]]; [|unfold kernel in Hz; lia]. subst a. fold (kernel q). unfold q. rewrite made_kernel. cbn.
  destruct p; cbn in *. split; [done|]. exists []. rewrite app_nil_r. done.
Qed.

(** A call that was refused leaves nothing. *)
Lemma refused_sends b p fs e : sends b [] p (made p (K_mmsg fs (inr e))) /\ sends b [] p (made p (K_msg fs (inr e))).
Proof.
  split; (split; [eexists; apply made_calls| |intros _; by destruct p]; intros _; unfold sock_ok; rewrite made_kernel; intros Hok; split; [by destruct p|]; exists []; rewrite app_nil_r; done).
Qed.

Lemma concat_singles (fs : list bytes) : concat (map (segment 0) fs) = fs.
Proof. induction fs as [|f fs IH]; [done|]. cbn. by rewrite segment_off, IH. Qed.

Lemma mmsg_sends p fs n : gso_mss p = 0 -> sends true (take (Z.to_nat n) fs) p (made p (K_mmsg fs (inl n))).
Proof.
  intros Hm. split; [eexists; apply made_calls| |intros _; by destruct p]. intros _ Ha. unfold sock_ok in *. rewrite made_kernel. cbn. rewrite Ha, Hm.
  split; [destruct p; cbn in *; lia|]. eexists. split; [by rewrite concat_singles|]. done.
Qed.

(** ** Plain batches *)

(** A turn that keeps the batch whole. *)
Definition quiet (t0 : Z) (t : tick) : bool :=
  negb (t_stop t) && match t_answer t with inl sm => sm >? 0 | inr EINTR => true | inr e => transient e && pump_send_retry (t_now t) t0 end.

(** A turn after which the loop does not come back to the same message. *)
Definition calm (t0 : Z) (t : tick) : bool :=
  t_stop t || match t_answer t with inl _ => true | inr EINTR => false | inr e => negb (transient e && pump_send_retry (t_now t) t0) end.

Definition calms (t0 : Z) (ts : list tick) : nat := length (List.filter (calm t0) ts).

(** The same for a unit: a call that took a part of it comes back to the rest. *)
Definition calm_unit (t0 : Z) (t : tick) : bool := calm t0 t && (t_stop t || match t_answer t with inl r => r >? 0 | inr _ => true end).

Definition calm_units (t0 : Z) (ts : list tick) : nat := length (List.filter (calm_unit t0) ts).

Lemma made_fields p c : gso_ok (made p c) = gso_ok p /\ gso_mss (made p c) = gso_mss p /\ g_stop (made p c) = g_stop p.
Proof. by destruct p. Qed.

Lemma batch_spec ts t0 fs p : gso_mss p = 0 -> (length fs <= calms t0 ts)%nat ->
  exists r p', batch_loop ts t0 fs p = Ret (r, p') /\ gso_mss p' = 0 /\ r <> TX_FALLBACK /\
    sends (negb (g_stop p) && forallb (quiet t0) ts) fs p p'.
Proof.
  revert fs p. induction ts as [|t ts IH]; intros fs p Hm Hc.
  { destruct fs; [|cbn in Hc; lia]. cbn. eexists _, _. split_and!; [done..|]. by apply sends_same. }
  cbn [batch_loop]. destruct fs as [|f fs]; [eexists _, _; split_and!; [done..|]; by apply sends_same|].
  destruct (zlen (f :: fs) =? 0) eqn:E0; [rewrite zlen_cons in E0; pose proof (zlen_nonneg fs); lia|]. clear E0.
  destruct (g_stop p) eqn:Es; [eexists _, _; split_and!; [done..|]; eapply sends_weaken; [by apply (sends_same false)|apply sublist_nil_l|done]|].
  unfold calms in Hc. cbn [List.filter orb negb andb forallb] in *. unfold calm in Hc at 1. unfold quiet at 1.
  destruct (t_stop t) eqn:Et; [eexists _, _; split_and!; [done..|]; eapply sends_weaken; [by apply (sends_same false)|apply sublist_nil_l|done]|].
  cbn [orb negb andb] in *. set (c := K_mmsg (f :: fs) (t_answer t)). destruct (made_fields p c) as (_ & Gm & Gs). rewrite Es in Gs.
  (* going on with the messages behind the first [n] *)
  assert (forall n b, (length (drop n (f :: fs)) <= calms t0 ts)%nat -> sends b (take n (f :: fs)) p (made p c) ->
    exists r p', batch_loop ts t0 (drop n (f :: fs)) (made p c) = Ret (r, p') /\ gso_mss p' = 0 /\ r <> TX_FALLBACK /\ sends (b && forallb (quiet t0) ts) (f :: fs) p p') as Hgo.
  { intros n b Hn Hs. destruct (IH (drop n (f :: fs)) (made p c)) as (r & p' & -> & Hm' & Hr & Hs'); [by rewrite Gm|done|]. exists r, p'. split_and!; [done..|].
    rewrite Gs in Hs'. pose proof (sends_trans _ _ _ _ _ _ _ Hs Hs') as Ht. by rewrite take_drop in Ht. }
  (* stopping here *)
  assert (forall n b p', sends b (take n (f :: fs)) p (made p c) -> calls_made p' = calls_made (made p c) -> gso_mss p' = gso_mss (made p c) -> sends false (f :: fs) p p') as Hend.
  { intros n b p' Hs E1 E2. eapply sends_weaken; [exact (sends_trans _ false _ [] _ _ _ Hs (sends_same false _ _ E1 E2 ltac:(done)))|rewrite app_nil_r; apply sublist_take|done]. }
  pose proof (fun b e => proj1 (refused_sends b p (f :: fs) e)) as Hrf.
  destruct (t_answer t) as [sm|e] eqn:Ea; unfold c in *.
  - destruct (sm >? 0) eqn:Ep.
    + apply (Hgo (Z.to_nat sm) true); [|by apply mmsg_sends]. rewrite length_drop. cbn [length] in *. unfold calms. lia.
    + eexists _, _. split; [reflexivity|]. rewrite Gm. split_and!; [done..|]. apply (Hend (Z.to_nat sm) true); [by apply mmsg_sends|done..].
  - destruct e; cbn [transient negb andb] in *;
      try (apply (Hgo 0%nat true); [cbn [drop length] in *; unfold calms; lia|apply (Hrf true)]);
      try (apply (Hgo 1%nat false); [rewrite length_drop; cbn [length] in *; unfold calms; lia|eapply sends_weaken; [apply (Hrf false)|apply sublist_nil_l|done]]);
      try (destruct (pump_send_retry (t_now t) t0) eqn:Ew; cbn [negb] in Hc;
        [apply (Hgo 0%nat true); [cbn [drop length] in *; unfold calms; lia|apply (Hrf true)]|
         eexists _, _; split; [reflexivity|]; rewrite Gm; split_and!; [done..|]; apply (Hend 0%nat true); [apply (Hrf true)|done..]]).
    eexists _, _. split; [reflexivity|]. split; [by destruct p|]. split; [done|].
    apply (Hend 0%nat true); [apply (Hrf true)|by destruct p..].
Qed.

Lemma send_batch_spec io fs p : (length fs <= calms (ps_t0 io) (ps_ticks io))%nat ->
  exists r p', send_batch io fs p = Ret (r, p') /\ r <> TX_FALLBACK /\ sends (negb (g_stop p) && forallb (quiet (ps_t0 io)) (ps_ticks io)) fs p p'.
Proof.
  intros Hc. unfold send_batch. destruct (clear_sends (ps_clear io) p) as [Hs Hm]. destruct (batch_spec _ _ fs _ Hm Hc) as (r & p' & -> & _ & Hr & Hs').
  exists r, p'. split_and!; [done..|]. pose proof (sends_trans _ _ _ _ _ _ _ Hs Hs') as Ht. cbn [app andb] in Ht.
  replace (g_stop (udp_gso_clear (ps_clear io) p)) with (g_stop p) in Ht; [done|]. unfold udp_gso_clear. destruct (_ =? _); by destruct p.
Qed.

(** ** Offloaded batches *)

Lemma opt_sends b p q m a : calls_made q = calls_made p ++ [K_opt m a] ->
  gso_mss q = (if a then m else gso_mss q) -> (a = false -> gso_mss q = gso_mss p \/ gso_mss q = 0) -> g_stop q = g_stop p -> sends b [] p q.
Proof.
  intros E Ha Hf Hg. assert (kernel q = k_step (kernel p) (K_opt m a)) as Ek by (unfold kernel, replay; by rewrite E, fold_left_app).
  split; [by eexists| |done]. intros Hh Hk. assert (answer_ok (kernel p) (K_opt m a)) as Ho.
  { unfold steady in Hh. rewrite E in Hh. by apply answers_app in Hh as []. }
  unfold sock_ok in *. rewrite Ek. destruct a; cbn in *.
  - split; [lia|]. exists []. rewrite app_nil_r. done.
  - destruct Ho as [|Ho]; [done|]. split; [destruct (Hf eq_refl); lia|]. exists []. rewrite app_nil_r. done.
Qed.

Lemma prepare_spec io mss p : 0 < mss -> exists ready q, udp_gso_prepare io mss p = (ready, q) /\ sends true [] p q /\
  (ready = true -> gso_mss q = mss /\ gso_ok q <> 0).
Proof.
  intros Hm. destruct p as [k m pm st lp pc ls sp cs], io as [o now cas]. unfold udp_gso_prepare. cbn.
  destruct (k =? -1) eqn:E1; [destruct o; eexists _, _; (split; [reflexivity|]); (split; [by eapply opt_sends; [reflexivity|done|right|]|done])|].
  destruct (k =? 0) eqn:E2.
  - destruct (_ <? 1000); [eexists _, _; split; [reflexivity|]; split; [by apply sends_same|done]|].
    destruct cas; cbn; [|eexists _, _; split; [reflexivity|]; split; [by apply sends_same|done]].
    destruct o; eexists _, _; (split; [reflexivity|]); (split; [by eapply opt_sends; [reflexivity|done|left|]|done]).
  - destruct (m =? mss) eqn:E3; cbn.
    + eexists _, _. split; [reflexivity|]. split; [by apply sends_same|]. cbn. intros _. lia.
    + destruct ((m =? 0) || _); [|eexists _, _; split; [reflexivity|]; split; [by apply sends_same|done]].
      destruct o; eexists _, _; (split; [reflexivity|]); (split; [by eapply opt_sends; [reflexivity|done|right|]|]); cbn; [intros _; lia|done].
Qed.

Lemma total_concat (fs : list bytes) : fold_right (fun f n => zlen f + n) 0 fs = zlen (concat fs).
Proof. induction fs as [|f fs IH]; [done|]. cbn. rewrite zlen_app. lia. Qed.

(** A call with an unsteady answer was made: nothing is promised from there on. *)
Lemma unsteady_sends b fs p q c cs :
  calls_made q = calls_made p ++ c :: cs -> ~ answer_ok (kernel p) c -> g_stop q = g_stop p -> sends b fs p q.
Proof.
  intros E Hc Hg. split; [by eexists| |done]. intros Hh _. exfalso. apply Hc. unfold steady in Hh. rewrite E in Hh.
  change (c :: cs) with ([c] ++ cs) in Hh. rewrite app_assoc in Hh. apply answers_prefix, answers_app in Hh as [_ Hh]. exact Hh.
Qed.

Lemma skip_sent_spec fs r rest k : Forall (fun f => 0 < zlen f) fs -> skip_sent fs r = (rest, k) ->
  Forall (fun f => 0 < zlen f) rest /\ (length rest <= length fs)%nat /\ (0 < r -> (length rest < length fs)%nat \/ 0 < k).
Proof.
  intros Hf. revert r. induction Hf as [|f fs Hf0 Hf IH]; intros r; cbn [skip_sent].
  { intros [= <- <-]. split_and!; [done|done|]. intros Hr. by right. }
  destruct (r >=? zlen f) eqn:E.
  - intros Hs. destruct (IH _ Hs) as (H1 & H2 & _). cbn [length]. split_and!; [done|lia|]. intros _. left. lia.
  - intros [= <- <-]. split_and!; [by constructor|done|]. intros Hr. by right.
Qed.

Lemma clear_calls a p : exists cs, calls_made (set_ok 0 (udp_gso_clear a p)) = calls_made p ++ cs /\ g_stop (set_ok 0 (udp_gso_clear a p)) = g_stop p.
Proof.
  unfold udp_gso_clear. destruct (gso_mss p =? 0); [exists []; rewrite app_nil_r|exists [K_opt 0 a]]; by destruct p.
Qed.

(** The loop ends whatever part of the unit the kernel takes each time. *)
Lemma gso_ends ts io mh rest total p : Forall (fun f => 0 < zlen f) rest -> rest <> [] -> (length rest <= calm_units (ps_t0 io) ts)%nat ->
  exists r p' cs, gso_loop ts io mh rest total p = Ret (r, p') /\ calls_made p' = calls_made p ++ cs /\ g_stop p' = g_stop p /\
    (r = TX_DONE \/ r = TX_FALLBACK).
Proof.
  revert rest p. induction ts as [|t ts IH]; intros rest p Hf Hne Hc; [destruct rest; [done|cbn in Hc; lia]|]. cbn [gso_loop].
  destruct (g_stop p || t_stop t) eqn:Es; [eexists _, _, []; rewrite app_nil_r; split_and!; try done; by left|]. apply orb_false_iff in Es as [_ Et].
  set (c := K_msg mh (t_answer t)). destruct (made_fields p c) as (_ & _ & Gs).
  assert (forall l, Forall (fun f => 0 < zlen f) l -> l <> [] -> (length l <= calm_units (ps_t0 io) ts)%nat ->
    exists r p' cs, gso_loop ts io mh l total (made p c) = Ret (r, p') /\ calls_made p' = calls_made p ++ cs /\ g_stop p' = g_stop p /\
      (r = TX_DONE \/ r = TX_FALLBACK)) as Hgo.
  { intros l Hl Hn Hlen. destruct (IH l (made p c) Hl Hn Hlen) as (r & p' & cs & -> & Ec & Eg & Hr).
    exists r, p', (c :: cs). rewrite made_calls, <- app_assoc in Ec. split_and!; try done. by rewrite Eg. }
  assert (exists r p' cs, Ret (TX_DONE, made p c) = Ret (r, p') /\ calls_made p' = calls_made p ++ cs /\ g_stop p' = g_stop p /\
      (r = TX_DONE \/ r = TX_FALLBACK)) as Hdone.
  { eexists _, _, [c]. split; [reflexivity|]. split; [apply made_calls|]. split; [done|by left]. }
  unfold calm_units in Hc. cbn [List.filter] in Hc. unfold calm_unit in Hc at 1. unfold calm in Hc at 1. rewrite Et in Hc. cbn [orb] in Hc.
  destruct (t_answer t) as [r|e] eqn:Ea; fold c.
  - cbn [andb] in Hc. destruct (r =? total); [exact Hdone|]. destruct (skip_sent rest r) as [l k] eqn:Ek.
    destruct (skip_sent_spec rest r l k Hf Ek) as (Hl & Hlen & Hshort). destruct (zlen l =? 0) eqn:E0; [exact Hdone|].
    destruct (k >? 0) eqn:E1; [exact Hdone|]. apply Hgo; [done|by intros ->|].
    destruct (r >? 0) eqn:Er; [|unfold calm_units; lia]. destruct (Hshort ltac:(lia)); [|lia]. cbn [length] in Hc. unfold calm_units. lia.
  - destruct e; cbn [transient negb andb] in *; try (by apply Hgo; [..|unfold calm_units; lia]);
      try (destruct (pump_send_retry (t_now t) (ps_t0 io)); cbn [negb andb] in *; [by apply Hgo; [..|unfold calm_units; lia]|exact Hdone]).
    all: destruct (clear_calls (ps_clear io) (made p c)) as (cs & Ec & Eg); eexists _, _, (c :: cs); split; [reflexivity|];
      rewrite Ec, made_calls, <- app_assoc, Eg; split_and!; try done; by right.
Qed.

Lemma gso_spec ts io fs mss p : 0 < mss -> fs <> [] -> Forall (fun f => zlen f = mss) fs -> gso_mss p = mss -> gso_ok p <> 0 ->
  (length fs <= calm_units (ps_t0 io) ts)%nat ->
  exists r p', gso_loop ts io fs fs (zlen (concat fs)) p = Ret (r, p') /\
    ((r = TX_DONE /\ sends (negb (g_stop p) && forallb (quiet (ps_t0 io)) ts) fs p p') \/
     (r = TX_FALLBACK /\ sends true [] p p')).
Proof.
  intros Hmss Hne Hu. revert p. induction ts as [|t ts IH]; intros p Hm Hk Hc; [destruct fs; [done|cbn in Hc; lia]|].
  cbn [gso_loop]. destruct (g_stop p) eqn:Es; [eexists _, _; split; [reflexivity|]; left; split; [done|]; eapply sends_weaken; [by apply (sends_same false)|apply sublist_nil_l|done]|].
  pose proof Hc as Hc0. unfold calm_units in Hc. cbn [List.filter orb negb andb forallb] in *. unfold calm_unit in Hc at 1. unfold calm in Hc at 1. unfold quiet at 1.
  destruct (t_stop t) eqn:Et; [eexists _, _; split; [reflexivity|]; left; split; [done|]; eapply sends_weaken; [by apply (sends_same false)|apply sublist_nil_l|done]|].
  cbn [orb negb andb] in *. set (c := K_msg fs (t_answer t)). destruct (made_fields p c) as (Gk & Gm & Gs). rewrite Es in Gs.
  pose proof (fun b e => proj2 (refused_sends b p fs e)) as Hrf.
  (* going round *)
  assert (forall e, t_answer t = inr e -> (length fs <= calm_units (ps_t0 io) ts)%nat ->
    exists r p', gso_loop ts io fs fs (zlen (concat fs)) (made p c) = Ret (r, p') /\
      ((r = TX_DONE /\ sends (forallb (quiet (ps_t0 io)) ts) fs p p') \/ (r = TX_FALLBACK /\ sends true [] p p'))) as Hgo.
  { intros e Ee Hc'. destruct (IH (made p c)) as (r & p' & -> & Hr); [congruence|congruence|done|]. exists r, p'. split; [done|]. rewrite Gs in Hr.
    assert (sends true [] p (made p c)) as Hs by (unfold c; rewrite Ee; apply Hrf).
    destruct Hr as [[-> Hr]|(-> & Hr)]; [left|right]; (split; [done|]); exact (sends_trans _ _ _ _ _ _ _ Hs Hr). }
  destruct (t_answer t) as [r|e] eqn:Ea; unfold c in *.
  - destruct (r =? zlen (concat fs)) eqn:Er.
    { apply Z.eqb_eq in Er as ->. eexists _, _. split; [reflexivity|]. left. split; [done|]. split; [eexists; apply made_calls| |intros _; by destruct p].
      intros _ Ha. unfold sock_ok in *. rewrite made_kernel. cbn. rewrite Ha, Hm. split; [destruct p; cbn in *; lia|].
      exists fs. rewrite take_ge by (unfold zlen; lia). rewrite segment_uniform by done. done. }
    assert (~ answer_ok (kernel p) (K_msg fs (inl r))) as Hbad by (cbn; lia).
    assert (forall x q cs, calls_made q = calls_made p ++ K_msg fs (inl r) :: cs -> g_stop q = g_stop p ->
      x = TX_DONE \/ x = TX_FALLBACK -> exists r' p', Ret (x, q) = Ret (r', p') /\
        ((r' = TX_DONE /\ sends ((r >? 0) && forallb (quiet (ps_t0 io)) ts) fs p p') \/ (r' = TX_FALLBACK /\ sends true [] p p'))) as Hend.
    { intros x q cs Hcs Hg Hx. eexists _, _. split; [reflexivity|]. destruct Hx as [-> | ->]; [left|right]; (split; [done|]);
        by eapply unsteady_sends. }
    assert (Forall (fun f => 0 < zlen f) fs) as Hpos by (eapply Forall_impl; [exact Hu|]; cbn beta; intros; lia).
    destruct (skip_sent fs r) as [l k] eqn:Ek. destruct (skip_sent_spec fs r l k Hpos Ek) as (Hl & Hlen & Hshort).
    assert (calls_made (made p (K_msg fs (inl r))) = calls_made p ++ [K_msg fs (inl r)]) as Hm1 by apply made_calls.
    destruct (zlen l =? 0) eqn:E0; [apply (Hend _ _ _ Hm1); [congruence|by left]|].
    destruct (k >? 0) eqn:E1; [apply (Hend _ _ _ Hm1); [congruence|by left]|].
    destruct (gso_ends ts io fs l (zlen (concat fs)) (made p (K_msg fs (inl r)))) as (x & q & cs & -> & Hcs & Hg & Hx); [done|by intros ->| |].
    + destruct (r >? 0) eqn:Er'; [|unfold calm_units; cbn [andb] in Hc; lia]. destruct (Hshort ltac:(lia)); [|lia]. cbn [andb length] in Hc. unfold calm_units. lia.
    + apply (Hend x q cs); [by rewrite Hcs, Hm1, <- app_assoc|congruence|done].
  - destruct e; cbn [transient negb andb] in *; try (by apply (Hgo _ eq_refl));
      try (destruct (pump_send_retry (t_now t) (ps_t0 io)); cbn [negb andb] in *; [by apply (Hgo _ eq_refl)|];
        eexists _, _; split; [reflexivity|]; left; split; [done|]; eapply sends_weaken; [apply (Hrf false)|apply sublist_nil_l|done]).
    all: eexists _, _; split; [reflexivity|]; right; split; [done|];
      match goal with |- context [made ?p ?c] => destruct (clear_sends (ps_clear io) (made p c)) as [Hs0 _] end;
      eapply (sends_trans true true [] []); [eapply (sends_trans true true [] []); [apply (Hrf true)|exact Hs0]|by apply sends_same; destruct (udp_gso_clear _ _)].
Qed.

Lemma send_gso_spec pio io fs mss p : 0 < mss -> fs <> [] -> Forall (fun f => zlen f = mss) fs -> (length fs <= calm_units (ps_t0 io) (ps_ticks io))%nat ->
  exists r p', send_gso pio io fs mss p = Ret (r, p') /\
    ((r = TX_DONE /\ sends (negb (g_stop p) && forallb (quiet (ps_t0 io)) (ps_ticks io)) fs p p') \/
     (r = TX_FALLBACK /\ sends true [] p p')).
Proof.
  intros Hmss Hne Hu Hc. unfold send_gso. destruct (prepare_spec pio mss p Hmss) as (ready & q & -> & Hs & Hr).
  destruct ready; cbn [negb]; [|eexists _, _; split; [reflexivity|]; right; auto]. destruct (Hr eq_refl) as [Hm Hk].
  destruct (gso_ok q =? 0) eqn:Ek; [lia|]. rewrite total_concat. destruct (gso_spec (ps_ticks io) io fs mss q) as (r & p' & -> & Hrr); [done..|].
  exists r, p'. split; [done|]. rewrite (sends_stop _ _ _ _ Hs eq_refl) in Hrr. destruct Hrr as [[-> Hrr]|(-> & Hrr)]; [left|right]; (split; [done|]); exact (sends_trans _ _ _ _ _ _ _ Hs Hrr).
Qed.

(** ** A batch *)

(** Answers that a send section ends on: each loop it may enter meets as many turns it does not repeat as it has messages.  A turn is
    repeated on EINTR, and on a transient error while the clock is inside the budget of 5 ms; so this asks that interruptions and the clock do not stand still. *)
Definition enough (io : send_io) (fs : list bytes) : Prop :=
  (uniform fs = true -> (length fs <= calm_units (ps_t0 (si_gso io)) (ps_ticks (si_gso io)))%nat) /\
  (length fs <= calms (ps_t0 (si_batch io)) (ps_ticks (si_batch io)))%nat.

(** No stop, no refusal of a message and no stall beyond the budget. *)
Definition undisturbed (io : send_io) : bool :=
  forallb (quiet (ps_t0 (si_gso io))) (ps_ticks (si_gso io)) && forallb (quiet (ps_t0 (si_batch io))) (ps_ticks (si_batch io)).

Lemma sleep_total fuel need stop k : need <= 10000 * (Z.of_nat fuel - 1) -> exists l, sleep_loop fuel need stop k = Ret l \/ fuel = O.
Proof.
  revert need k. induction fuel as [|fuel IH]; intros need k Hn; [exists []; by right|]. cbn [sleep_loop]. destruct (need >? 0) eqn:E; [|exists []; by left].
  destruct (stop k); [eexists; by left|]. destruct (need <? 10000) eqn:E2.
  - destruct (IH (need - need) (S k)) as [l [-> | ->]]; [lia|eexists; by left|lia].
  - destruct (IH (need - 10000) (S k)) as [l [-> | ->]]; [lia|eexists; by left|lia].
Qed.

Lemma pace_total b n now stop : exists r, pace_take b n now stop = Ret r.
Proof.
  unfold pace_take. destruct (pps b =? 0); [by eexists|]. cbv zeta. destruct (_ >? _); [|by eexists].
  match goal with |- context [sleep_loop ?f ?n ?s ?k] => destruct (sleep_total f n s k) as [l [-> | E]]; [lia|by eexists|done] end.
Qed.

Lemma uniform_spec fs : uniform fs = true -> exists mss, mss = zlen (hd [] fs) /\ 0 < mss /\ fs <> [] /\ Forall (fun f => zlen f = mss) fs.
Proof.
  unfold uniform. destruct fs as [|f fs]; [done|]. intros E. exists (zlen f). unfold IWAN_GSO_MSS_MIN in E. rewrite !andb_true_iff in E. destruct E as [[[[_ E1] E2] _] _].
  split_and!; [done|lia|done|]. constructor; [done|]. apply Forall_forall. intros g Hg%list_elem_of_In. rewrite forallb_forall in E1. specialize (E1 g Hg). lia.
Qed.

Lemma tx_spec io fs p : enough io fs -> exists p', pump_tx_send io fs p = Ret p' /\ sends (negb (g_stop p) && undisturbed io) fs p p'.
Proof.
  intros (Hg & Hb). unfold pump_tx_send. destruct fs as [|f fs]; [eexists; split; [reflexivity|]; by apply sends_same|].
  destruct (zlen (f :: fs) =? 0) eqn:E0; [rewrite zlen_cons in E0; pose proof (zlen_nonneg fs); lia|]. clear E0. remember (f :: fs) as gs eqn:Eg. clear Eg f fs.
  set (q1 := forallb (quiet (ps_t0 (si_gso io))) (ps_ticks (si_gso io))). set (q2 := forallb (quiet (ps_t0 (si_batch io))) (ps_ticks (si_batch io))).
  (* the offload path *)
  assert (exists r p1, (if uniform gs then send_gso (si_prep io) (si_gso io) gs (zlen (hd [] gs)) p else Ret (TX_FALLBACK, p)) = Ret (r, p1) /\
    ((r = TX_DONE /\ sends (negb (g_stop p) && q1) gs p p1) \/ (r = TX_FALLBACK /\ sends true [] p p1))) as (r & p1 & -> & Hr).
  { destruct (uniform gs) eqn:Eu; [|eexists _, _; split; [reflexivity|]; right; split; [done|]; by apply sends_same].
    destruct (uniform_spec _ Eu) as (mss & -> & Hm & Hne & Hf). by apply send_gso_spec; [..|apply Hg]. }
  cbn [rbind].
  assert (exists r2 p2, match r with TX_FALLBACK => send_batch (si_batch io) gs p1 | _ => Ret (r, p1) end = Ret (r2, p2) /\ sends (negb (g_stop p) && (q1 && q2)) gs p p2) as (r2 & p2 & E2 & Hs).
  { destruct Hr as [[-> Hr]|[-> Hr]].
    - eexists _, _. split; [reflexivity|]. eapply sends_weaken; [exact Hr|done|]. intros [E1 [E2 E3]%andb_prop]%andb_prop. by rewrite E1, E2.
    - destruct (send_batch_spec (si_batch io) gs p1 Hb) as (r2 & p2 & -> & _ & Hs). eexists _, _. split; [reflexivity|].
      rewrite (sends_stop _ _ _ _ Hr eq_refl) in Hs. fold q2 in Hs. eapply sends_weaken; [exact (sends_trans _ _ _ _ _ _ _ Hr Hs)|done|]. intros [E1 [E2 E3]%andb_prop]%andb_prop. by rewrite E1, E3. }
  replace (match r with TX_DONE => Ret (r, p1) | TX_FALLBACK => send_batch (si_batch io) gs p1 | TX_FATAL => Ret (r, p1) end) with (Ret (r2, p2)) by (rewrite <- E2; by destruct r).
  cbn [rbind]. assert (forall b, sends (negb (g_stop p) && (q1 && q2)) gs p (set_pace b p2)) as Hp.
  { intros b. eapply sends_weaken; [eapply (sends_trans _ true _ []); [exact Hs|by apply sends_same; destruct p2]|by rewrite app_nil_r|]. rewrite app_nil_r. intros E. by rewrite E. }
  destruct r2; [| |by exists p2]; destruct (pace_total (pace p2) (zlen gs) (si_pace_now io) (si_pace_stop io)) as [b ->]; (eexists; split; [reflexivity|]); apply Hp.
Qed.

(** ** Control frames *)

Lemma send_sends p f a : gso_mss p = 0 -> sends (match a with inl r => r =? zlen f | inr _ => false end) [f] p (made p (K_send f a)).
Proof.
  intros Hm. split; [eexists; apply made_calls| |intros _; by destruct p]. intros Hh Ha. apply made_steady in Hh as [_ Ho]. unfold sock_ok in *. rewrite made_kernel.
  destruct a as [r|e]; cbn in *.
  - subst r. rewrite Ha, Hm. split; [destruct p; cbn in *; lia|]. exists [f]. rewrite take_ge by (unfold zlen; lia). by rewrite segment_off.
  - split; [destruct p; cbn in *; lia|]. exists []. rewrite app_nil_r. split_and!; [done|apply sublist_nil_l|done].
Qed.

Context `{OpenSSL}.

Lemma ctrl_spec io typ enc sid tok p : exists b p', send_ctrl io typ enc sid tok p = Ret (b, p') /\ sends b [signed_frame typ enc sid tok] p p' /\ g_stop p' = g_stop p /\
  session_lost p' = session_lost p /\ b = (match ct_send io with inl r => r =? zlen (signed_frame typ enc sid tok) | inr _ => false end).
Proof.
  unfold send_ctrl. rewrite ctrl_hdr_ok. cbn [rbind app]. fold (signed_frame typ enc sid tok). set (f := signed_frame typ enc sid tok).
  eexists _, _. split; [reflexivity|]. assert (forall p, gso_mss p = 0 -> sends _ [f] p (made p (K_send f (ct_send io)))) as Hs by (intros; by apply send_sends).
  destruct (gso_mss p =? 0) eqn:E; [split; [apply Hs; lia|]; by destruct p|].
  destruct (clear_sends (ct_clear io) p) as [Hc Hm]. unfold udp_gso_clear in Hc, Hm. rewrite E in Hc, Hm. specialize (Hs _ Hm).
  set (q := made (set_mss 0 (made p (K_opt 0 (ct_clear io)))) (K_send f (ct_send io))) in *.
  assert (sends true [] q (if ct_arm io then set_mss (gso_mss p) (made q (K_opt (gso_mss p) (ct_arm io))) else made q (K_opt (gso_mss p) (ct_arm io)))) as Ha.
  { eapply (opt_sends _ _ _ (gso_mss p) (ct_arm io)); [destruct (ct_arm io), q; done|destruct (ct_arm io), q; done|destruct (ct_arm io), q; [done|by left]|destruct (ct_arm io), q; done]. }
  split; [|by destruct p, (ct_arm io)].
  pose proof (sends_trans _ _ _ _ _ _ _ Hc (sends_trans _ _ _ _ _ _ _ Hs Ha)) as Hx. cbn [app andb] in Hx. eapply sends_weaken; [exact Hx|done|]. rewrite andb_true_r. done.
Qed.

(** ** Any order of sections *)

(** One hold of [send_lock]: the batch of a reader, or a control frame. *)
Inductive section :=
  | S_batch (io : send_io) (fs : list bytes)
  | S_ctrl (io : ctrl_io) (typ enc sid tok : Z).

Definition run_section (x : section) (p : Sock) : res Sock :=
  match x with
  | S_batch io fs => pump_tx_send io fs p
  | S_ctrl io typ enc sid tok => let! r := send_ctrl io typ enc sid tok p in Ret r.2
  end.

Fixpoint run_sections (l : list section) (p : Sock) : res Sock :=
  match l with [] => Ret p | x :: l => let! p := run_section x p in run_sections l p end.

Definition handed (x : section) : list bytes := match x with S_batch _ fs => fs | S_ctrl _ typ enc sid tok => [signed_frame typ enc sid tok] end.
Definition can_end (x : section) : Prop := match x with S_batch io fs => enough io fs | S_ctrl _ _ _ _ _ => True end.
Definition undisturbed_section (x : section) : bool :=
  match x with S_batch io _ => undisturbed io | S_ctrl io typ enc sid tok => match ct_send io with inl r => r =? zlen (signed_frame typ enc sid tok) | inr _ => false end end.

Lemma sections_spec l p : Forall can_end l -> exists p', run_sections l p = Ret p' /\ sends (negb (g_stop p) && forallb undisturbed_section l) (concat (map handed l)) p p'.
Proof.
  intros Hl. revert p. induction Hl as [|x l Hx Hl IH]; intros p; [eexists; split; [done|]; by apply sends_same|]. cbn [run_sections map concat forallb].
  assert (exists q, run_section x p = Ret q /\ sends (negb (g_stop p) && undisturbed_section x) (handed x) p q) as (q & -> & Hs).
  { destruct x as [io fs|io typ enc sid tok]; cbn [run_section undisturbed_section handed can_end] in *; [by apply tx_spec|]. destruct (ctrl_spec io typ enc sid tok p) as (b & q & -> & Hs & Hg & _ & Hb). exists q. split; [done|].
    eapply sends_weaken; [exact Hs|done|]. intros [_ E]%andb_prop. by rewrite Hb, E. }
  cbn [rbind]. destruct (IH q) as (p' & -> & Hs'). exists p'. split; [done|]. eapply sends_weaken; [exact (sends_trans _ _ _ _ _ _ _ Hs Hs')|done|].
  intros [E1 [E2 E3]%andb_prop]%andb_prop. split; [|done]. rewrite E1, E2. cbn. rewrite (sends_stop _ _ _ _ Hs) by (by rewrite E1, E2). by rewrite E1, E3.
Qed.

(** C9: Whatever the readers and the keepalive thread send on the session socket, in any order of their sections: every section ends,
    however the kernel refuses or stalls its calls or takes a part of a unit, once its loops have met enough turns that they do not repeat
    ([enough]).  If on that run no setsockopt failed while a segment size was in force and no call took a part of a message ([steady]), then
    what left are whole frames, each at most once and in the order of the sections, whether a batch left in one call or message by message: segmentation
    cuts no frame, because the size in force is the one the program remembers; and when nothing stopped, refused or stalled a section
    beyond its budget, all frames left. *)
Theorem frames_leave_whole (l : list section) (p : Sock) : Forall can_end l -> sock_ok p ->
  exists p', run_sections l p = Ret p' /\ (steady p' ->
    sock_ok p' /\ exists ds, wire (kernel p') = wire (kernel p) ++ ds /\ ds `sublist_of` concat (map handed l) /\
      (g_stop p = false -> forallb undisturbed_section l = true -> ds = concat (map handed l))).
Proof.
  intros Hl Hp. destruct (sections_spec l p Hl) as (p' & -> & Hs). exists p'. split; [done|]. intros Hh. destruct (sends_wire _ _ _ _ Hs Hh Hp) as (Hok & ds & Hw & Hd & Ha).
  split; [done|]. exists ds. split_and!; [done..|]. intros E1 E2. apply Ha. by rewrite E1, E2.
Qed.

(** ** Two flaws *)

(** C38: The segment size that is in force can be another than the remembered one.  When a batch of another size has been seen
    often enough and setting its size fails, the program notes that nothing is in force, although the old size still is; the batch
    that follows leaves message by message without switching segmentation off, and the kernel cuts every message at the old size. *)
Theorem failed_rearm_cuts_frames (io : send_io) (fs : list bytes) (p : Sock) (t : tick) (old : Z) :
  let mss := zlen (hd [] fs) in
  sock_ok p -> gso_ok p = 1 -> gso_mss p = old -> old <> 0 -> old <> mss -> gso_pending_mss p = mss -> IWAN_GSO_HYST - 1 <= gso_streak p < 2 ^ 32 - 1 ->
  uniform fs = true -> g_stop p = false -> pr_opt (si_prep io) = false ->
  ps_ticks (si_batch io) = [t] -> t_stop t = false -> t_answer t = inl (zlen fs) ->
  exists p', pump_tx_send io fs p = Ret p' /\ gso_mss p' = 0 /\ armed (kernel p') = old /\
    wire (kernel p') = wire (kernel p) ++ concat (map (segment old) fs).
Proof.
  intros mss Hok Hk Hm Hold Hne Hpd Hst Hu Hg Ho Hts Htt Hta. destruct (uniform_spec _ Hu) as (m & Em & Hm0 & Hnil & _). fold mss in Em. subst m.
  assert (0 < zlen fs) as Hn by (destruct fs; [done|rewrite zlen_cons; pose proof (zlen_nonneg fs); lia]).
  unfold pump_tx_send. rewrite Hu. fold mss. destruct (zlen fs =? 0) eqn:E0; [lia|]. unfold send_gso, udp_gso_prepare. rewrite Hk, Hm, Hpd, Ho. cbn [Z.eqb Pos.eqb].
  destruct (old =? mss) eqn:E1; [lia|]. rewrite Z.eqb_refl. cbn [negb]. unfold u32. rewrite Z.mod_small by (unfold IWAN_GSO_HYST in Hst; lia).
  destruct ((old =? 0) || _) eqn:E2; [|unfold IWAN_GSO_HYST in *; lia]. cbn [negb rbind]. unfold send_batch. rewrite Hts.
  set (q := set_gso 0 0 mss (gso_streak p + 1) (made p (K_opt mss false))). assert (udp_gso_clear (ps_clear (si_batch io)) q = q) as -> by (by destruct p).
  cbn [batch_loop]. rewrite E0, Htt, Hta. assert (g_stop q = false) as -> by (by destruct p). cbn [orb]. destruct (zlen fs >? 0) eqn:E3; [|lia].
  rewrite drop_ge by (unfold zlen; lia). cbn [batch_loop rbind]. destruct (zlen (@nil bytes) =? 0) eqn:E4; [|done].
  cbn [rbind]. match goal with |- context [pace_take ?b ?n ?a ?s] => destruct (pace_total b n a s) as [b' ->] end. cbn [rbind]. eexists. split; [reflexivity|].
  assert (kernel (set_pace b'.1 (made q (K_mmsg fs (inl (zlen fs))))) = k_step (kernel p) (K_mmsg fs (inl (zlen fs)))) as ->.
  { unfold kernel at 1. destruct p. cbn. unfold replay. rewrite !fold_left_app. done. }
  cbn. unfold sock_ok in Hok. rewrite Hok, Hm. split; [by destruct p|]. split; [done|]. by rewrite take_ge by (unfold zlen; lia).
Qed.

(** When the kernel takes only the first messages of a unit, the loop moves its own pointers but not the header it sends: the
    next turn sends the whole unit again. *)
Theorem partial_unit_sent_twice (io : pass_io) (fs : list bytes) (k : nat) (p : Sock) (t1 t2 : tick) :
  let mss := zlen (hd [] fs) in
  sock_ok p -> gso_mss p = mss -> 0 < mss -> Forall (fun f => zlen f = mss) fs -> g_stop p = false -> t_stop t1 = false -> t_stop t2 = false ->
  (0 < k < length fs)%nat -> t_answer t1 = inl (zlen (concat (take k fs))) -> t_answer t2 = inl (zlen (concat fs)) ->
  exists p', gso_loop [t1; t2] io fs fs (zlen (concat fs)) p = Ret (TX_DONE, p') /\ wire (kernel p') = wire (kernel p) ++ take k fs ++ fs.
Proof.
  intros mss Hok Hm Hpos Hf Hg S1 S2 Hk A1 A2. set (total := zlen (concat fs)).
  assert (forall l : list bytes, Forall (fun f => zlen f = mss) l -> zlen (concat l) = mss * zlen l) as Hlen.
  { intros l Hl. induction Hl as [|f l Hl0 Hl IH]; [symmetry; apply Z.mul_0_r|]. cbn [concat]. rewrite zlen_app, zlen_cons. lia. }
  assert (Forall (fun f => zlen f = mss) (take k fs)) as Hfk by (by apply Forall_take).
  assert (zlen (concat (take k fs)) < total) as Hlt by (unfold total; rewrite !Hlen by done; rewrite zlen_take; unfold zlen; nia).
  assert (forall (l r : list bytes) x, Forall (fun f => zlen f = mss) l -> 0 <= x -> skip_sent (l ++ r) (zlen (concat l) + x) = skip_sent r x) as Hskip.
  { intros l r x Hl Hx. induction Hl as [|f l Hl0 Hl IH]; [done|]. cbn [app concat skip_sent]. rewrite zlen_app. pose proof (zlen_nonneg (concat l)).
    destruct (_ >=? zlen f) eqn:E; [|lia]. replace (zlen f + zlen (concat l) + x - zlen f) with (zlen (concat l) + x) by lia. exact IH. }
  pose proof (Hskip (take k fs) (drop k fs) 0 Hfk ltac:(lia)) as Hsk. rewrite take_drop, Z.add_0_r in Hsk.
  destruct (drop k fs) as [|f rest] eqn:Ed; [exfalso; apply (f_equal length) in Ed; rewrite length_drop in Ed; cbn in Ed; lia|].
  assert (zlen f = mss) as Hfl by (assert (Forall (fun f => zlen f = mss) (drop k fs)) as Hd by (by apply Forall_drop); rewrite Ed in Hd; by inversion Hd).
  cbn [skip_sent] in Hsk. destruct (0 >=? zlen f) eqn:E2; [lia|].
  cbn [gso_loop]. rewrite Hg, S1, A1, Hsk. cbn [orb]. destruct (_ =? total) eqn:E1; [lia|].
  destruct (zlen (f :: rest) =? 0) eqn:E3; [rewrite zlen_cons in E3; pose proof (zlen_nonneg rest); lia|]. cbn [Z.gtb Z.compare].
  rewrite S2, A2. set (q := made p (K_msg fs (inl (zlen (concat (take k fs)))))). assert (g_stop q = false) as -> by (by destruct p). cbn [orb]. rewrite Z.eqb_refl.
  eexists. split; [reflexivity|]. rewrite made_kernel. unfold q. rewrite made_kernel. cbn. unfold sock_ok in Hok. rewrite Hok, Hm.
  rewrite (take_ge (concat fs) (Z.to_nat (zlen (concat fs)))) by (unfold zlen; lia). rewrite (segment_uniform mss fs) by (done || by intros ->).
  replace (take (Z.to_nat (zlen (concat (take k fs)))) (concat fs)) with (concat (take k fs)).
  - rewrite segment_uniform; [by rewrite <- app_assoc|done| |done]. intros E. apply (f_equal length) in E. rewrite length_take in E. cbn in E. lia.
  - pose proof (concat_app (take k fs) (drop k fs)) as Ec. rewrite take_drop in Ec. rewrite Ec. unfold zlen. rewrite Nat2Z.id. by rewrite take_app_length.
Qed.

End Sends.

(** ** A kernel *)

Module SendDemo.

Fixpoint chunks (fuel : nat) (m : nat) (d : bytes) : list bytes :=
  match fuel with
  | O => []
  | S fuel => match d with [] => [] | _ => take m d :: chunks fuel m (drop m d) end
  end.

#[export] Instance udp : Udp := {| segment m d := if m <=? 0 then [d] else chunks (length d) (Z.to_nat m) d |}.

Lemma chunks_uniform fuel m fs : (0 < m)%nat -> Forall (fun f => zlen f = Z.of_nat m) fs -> (length (concat fs) <= fuel)%nat -> chunks fuel m (concat fs) = fs.
Proof.
  intros Hm Hf. revert fuel. induction Hf as [|f fs Hf0 Hf IH]; intros fuel Hl; [by destruct fuel|]. cbn [concat] in *.
  assert (length f = m) as Hlen by (unfold zlen in Hf0; lia). rewrite length_app in Hl. destruct fuel as [|fuel]; [lia|]. cbn [chunks].
  destruct (f ++ concat fs) as [|x l] eqn:E; [destruct f; cbn in *; [lia|done]|]. subst m. rewrite <- E, take_app_length, drop_app_length, IH by lia. done.
Qed.

#[export] Instance udp_laws : UdpLaws.
Proof.
  split; [done|]. intros m fs Hm Hne Hf. cbn. destruct (m <=? 0) eqn:E; [lia|]. apply chunks_uniform; [lia| |done]. eapply Forall_impl; [exact Hf|]. cbn. intros. lia.
Qed.

Definition sock : Sock := mk_sock (-1) 0 0 0 0 (mk_pace 0 0 0) false false [].
Definition took (n : Z) : tick := {| t_stop := false; t_answer := inl n; t_now := 0 |}.
Definition busy : tick := {| t_stop := false; t_answer := inr ENOBUFS; t_now := 3 |}.

(** Two packets of 600 bytes, which leave in one call; then one of 600 and one of 700. *)
Definition long (n : Z) : bytes := fill 7 n.
Definition io (gso batch : list tick) : send_io :=
  {| si_prep := {| pr_opt := true; pr_now := 0; pr_cas := true |}; si_gso := {| ps_t0 := 0; ps_clear := true; ps_ticks := gso |};
     si_batch := {| ps_t0 := 0; ps_clear := true; ps_ticks := batch |}; si_pace_now := 0; si_pace_stop := fun _ => false |}.
Definition uniform_batch : section := S_batch (io [busy; took 1200; took 1200] [took 1; took 1]) [long 600; long 600].
Definition mixed_batch : section := S_batch (io [took 1300] [took 1; busy; took 1]) [long 600; long 700].
Definition ping : section := S_ctrl {| ct_clear := true; ct_send := inl 24; ct_arm := true |} PT_ECHO_REQ 1 2 3.

Definition after : Sock := match run_sections (H1 := Toy.toy_openssl) [uniform_batch; ping; mixed_batch] sock with Ret p => p | Fault _ => sock end.

Lemma frames_leave_whole_witness :
  exists p', run_sections (H1 := Toy.toy_openssl) [uniform_batch; ping; mixed_batch] sock = Ret p' /\ g_stop p' = false /\
    wire (kernel p') = [long 600; long 600; signed_frame (H := Toy.toy_openssl) PT_ECHO_REQ 1 2 3; long 600; long 700].
Proof.
  destruct (@frames_leave_whole udp udp_laws Toy.toy_openssl [uniform_batch; ping; mixed_batch] sock) as (p' & E & Hw).
  - constructor; [|constructor; [done|constructor; [|constructor]]].
    + split; [intros _|]; vm_compute; lia.
    + split; [by intros ?%(f_equal negb); vm_compute in *|vm_compute; lia].
  - done.
  - exists p'. split; [exact E|]. assert (p' = after) as -> by (unfold after; by rewrite E). split; [vm_compute; reflexivity|].
    destruct Hw as (_ & ds & Ew & _ & Ha); [vm_compute; repeat split; by auto|]. rewrite Ew, Ha; [reflexivity|reflexivity|vm_compute; reflexivity].
Defined.

Definition armed_600 : Sock := mk_sock 1 600 700 7 0 (mk_pace 0 0 0) false false [K_opt 600 true].
Definition no_opt : send_io :=
  {| si_prep := {| pr_opt := false; pr_now := 0; pr_cas := true |}; si_gso := {| ps_t0 := 0; ps_clear := true; ps_ticks := [] |};
     si_batch := {| ps_t0 := 0; ps_clear := true; ps_ticks := [took 2] |}; si_pace_now := 0; si_pace_stop := fun _ => false |}.

Lemma failed_rearm_cuts_frames_witness :
  exists p', pump_tx_send no_opt [long 700; long 700] armed_600 = Ret p' /\ wire (kernel p') = [long 600; long 100; long 600; long 100].
Proof.
  destruct (@failed_rearm_cuts_frames udp no_opt [long 700; long 700] armed_600 (took 2) 600) as (p' & E & _ & _ & Hw);
    [done|done|done|done|done|done|done|vm_compute; done|done|done|done|done|done|].
  exists p'. split; [exact E|]. rewrite Hw. vm_compute. done.
Defined.

End SendDemo.
