(* ===== verification/Pump.v ===== *)
(** * The packet pump of the client (src/src/common/proxy.c)

    Between the TUN device and the session socket.  Uplink: reader threads put packets into batches of their own and flush
    them to the socket.  Downlink: one thread receives datagrams, answers keepalives, sends its own, watches
    for silence, and writes packets to the device.  Clocks, the kernel's answers and the flag [g_stop] as other threads leave it are
    inputs. *)

From S2P Require Import Prelude Util Crypto Protocol Ipv4 Rate Session Open Uplink PumpSend.
Import Scan.

(** ** Uplink *)

Definition PUMP_BATCH : Z := 32.
Definition PUMP_SLOT : Z := 2048.
Definition PUMP_MAX_LAT_US : Z := 20.

(** The members of [pump_ctx_t] that a session does not change. *)
Record pump_ctx := { pc_key : bytes; pc_sid : Z; pc_tok : Z; pc_ip : Z; pc_enc : Z }.

(** The batch of one reader: its block of slots once it is allocated, the header of its frames, the used slots as offset and
    length, and the time of the first one. *)
Record pump_tx := mk_tx { tx_batch : option bytes; tx_hdr : bytes; tx_iov : list (Z * Z); tx_t0 : Z }.

Definition tx_empty : pump_tx := mk_tx None [] [] 0.

(** What happens around one packet: malloc, the clock before and after the copy, [g_stop], and the answers to a send. *)
Record pkt_io := { pk_malloc : option bytes; pk_t0 : Z; pk_stop : bool; pk_now : Z; pk_send : list bytes -> send_io }.

Definition frames (q : pump_tx) : list bytes := map (fun v => slice (default [] (tx_batch q)) v.1 v.2) (tx_iov q).

Definition pump_flush (io : list bytes -> send_io) (q : pump_tx) (p : Sock) : res (pump_tx * Sock) :=
  if zlen (tx_iov q) =? 0 then Ret (q, p)
  else
    let! p := pump_tx_send (io (frames q)) (frames q) p in
    Ret (mk_tx (tx_batch q) (tx_hdr q) [] (tx_t0 q), p).

Definition slot : Z := 8 + PUMP_SLOT.

(** The first packet of a batch: the block, the header, the time. [None] when malloc fails. *)
Definition pump_begin (c : pump_ctx) (io : pkt_io) (q : pump_tx) : option pump_tx :=
  if negb (zlen (tx_iov q) =? 0) then Some q
  else
    match tx_batch q, pk_malloc io with
    | None, None => None
    | None, Some b => Some (mk_tx (Some b) (pkt_hdr (if pc_enc c =? 0 then PT_DATA else PT_DATA_ENC) (pc_enc c) (pc_sid c) (pc_tok c)) [] (pk_t0 io))
    | Some b, _ => Some (mk_tx (Some b) (tx_hdr q) [] (pk_t0 io))
    end.

Definition pump_tun_pkt (c : pump_ctx) (io : pkt_io) (pkt : bytes) (last : bool) (q : pump_tx) (p : Sock) : res (pump_tx * Sock) :=
  let len := zlen pkt in
  if last then pump_flush (pk_send io) q p
  else if (len =? 0) || (len >? PUMP_SLOT) then Ret (q, p)
  else
    match pump_begin c io q with
    | None => Ret (q, set_lost p)
    | Some q =>
        if g_stop p || pk_stop io then Ret (q, p)
        else
          let n := zlen (tx_iov q) in
          let s := n * slot in
          let! b := wrn (default [] (tx_batch q)) s (tx_hdr q) in
          let! b := wrn b (s + 8) pkt in
          let! pl := rdn b (s + 8) len in
          let! b := wrn b (s + 8) (xor_crypt pl (pc_key c)) in
          let q := mk_tx (Some b) (tx_hdr q) (tx_iov q ++ [(s, len + 8)]) (tx_t0 q) in
          if (n + 1 =? PUMP_BATCH) || (u64 (pk_now io - tx_t0 q) >=? PUMP_MAX_LAT_US) then pump_flush (pk_send io) q p else Ret (q, p)
    end.

Definition pump_reader_exit (q : pump_tx) : pump_tx := mk_tx None (tx_hdr q) [] (tx_t0 q).

(** ** Downlink *)

Definition PUMP_KEEPALIVE_MS : Z := 10000.
Definition PUMP_KA_FAIL_MAX : Z := 3.
Definition PUMP_ERR_POLL_MAX : Z := 64.
Definition PUMP_RX_STALE_MS_DEFAULT : Z := 120000.
Definition PUMP_POLL_CEIL_MS : Z := 1000.

Definition pump_rx_stale_ms (getenv : option bytes) : Z := env_ms_range getenv PUMP_RX_STALE_MS_DEFAULT (3 * PUMP_KEEPALIVE_MS) 86400000 true.

(** The local variables of [udp2tun_thread]. *)
Record down := mk_down { last_ka : Z; last_rx : Z; ka_fail : Z; ka_res_fail : Z; err_poll_n : Z }.

Definition down_init (t1 t2 t3 : Z) : down := mk_down (if t1 >? PUMP_KEEPALIVE_MS then u64 (t2 - PUMP_KEEPALIVE_MS) else 0) t3 0 0 0.

(** The answer of [tun_write_retry]; a failure with the two stop flags and whether errno is EAGAIN or EINTR. *)
Inductive tun_answer := T_written | T_failed (user_stop stop again : bool).

(** A received datagram, whether it was cut, and what happens while it is handled: the clock, the answers to a control frame, the device. *)
Record dgram := { dg_data : bytes; dg_trunc : bool; dg_now : Z; dg_ctrl : ctrl_io; dg_write : tun_answer }.

(** What the loop over a batch of datagrams does next. *)
Inductive next := Continue | Break.

Section Downlink.
Context `{OpenSSL} (c : pump_ctx).

(** The checks of an inner packet: true when it goes to the device. *)
Definition inner_gate (pl : bytes) : res bool :=
  let plen := zlen pl in
  if plen =? 0 then Ret false
  else
    let! b := rd pl 0 in
    if Z.shiftr b 4 =? 6 then
      if plen <? 40 then Ret false
      else
        let! r := ip6_pkt_ok pl in
        match r with
        | None => Ret false
        | Some (s6, d6) => let want6 := ip6_derive_ula (pc_ip c) in Ret (negb (negb (beq d6 want6) || beq s6 want6))
        end
    else
      let! r := ipv4_pkt_ok pl in
      match r with None => Ret false | Some (saddr, daddr) => Ret (negb (negb (daddr =? pc_ip c) || (saddr =? pc_ip c))) end.

(** One datagram: what comes next, the state, and the packet handed to the device. *)
Definition down_dgram (g : dgram) (s : down) (p : Sock) : res (next * down * Sock * list bytes) :=
  let m := dg_data g in
  let n := zlen m in
  if (n <? 8) || dg_trunc g then Ret (Continue, s, p, [])
  else
    let! h := rdn m 0 8 in
    if negb (hdr_sid h =? pc_sid c) || negb (hdr_tok h =? pc_tok c) then Ret (Continue, s, p, [])
    else
      let t := h.[0] in
      let s := mk_down (last_ka s) (dg_now g) (ka_fail s) (ka_res_fail s) (err_poll_n s) in
      if t =? PT_CLOSE then
        let! ok := verify_sig m in
        if negb ok then Ret (Continue, s, p, []) else Ret (Break, s, set_lost p, [])
      else if t =? PT_ECHO_REQ then
        let! ok := verify_sig m in
        if negb ok then Ret (Continue, s, p, [])
        else
          let! r := send_ctrl (dg_ctrl g) PT_ECHO_RES (pc_enc c) (pc_sid c) (pc_tok c) p in
          let '(sent, p) := r in
          let fails := if sent then 0 else ka_res_fail s + 1 in
          let s := mk_down (last_ka s) (last_rx s) (ka_fail s) fails (err_poll_n s) in
          if fails >=? PUMP_KA_FAIL_MAX then Ret (Break, s, set_lost p, []) else Ret (Continue, s, p, [])
      else if negb (t =? PT_DATA) && negb (t =? PT_DATA_ENC) then Ret (Continue, s, p, [])
      else if (t =? PT_DATA) && negb (pc_enc c =? 0) then Ret (Continue, s, p, [])
      else if (t =? PT_DATA_ENC) && (pc_enc c =? 0) then Ret (Continue, s, p, [])
      else
        let! pl := rdn m 8 (n - 8) in
        let pl := if t =? PT_DATA_ENC then xor_crypt pl (pc_key c) else pl in
        let! ok := inner_gate pl in
        if negb ok then Ret (Continue, s, p, [])
        else
          match dg_write g with
          | T_written => Ret (Continue, s, p, [pl])
          | T_failed user_stop stop again =>
              if user_stop then Ret (Break, s, p, [pl])
              else if stop then Ret (Break, s, p, [pl])
              else if again then Ret (Continue, s, p, [pl])
              else Ret (Break, s, set_lost p, [pl])
          end.

Fixpoint down_dgrams (l : list dgram) (s : down) (p : Sock) : res (down * Sock * list bytes) :=
  match l with
  | [] => Ret (s, p, [])
  | g :: l =>
      let! r := down_dgram g s p in
      match r with
      | (Break, s, p, w) => Ret (s, p, w)
      | (Continue, s, p, w) => let! r := down_dgrams l s p in let '(s, p, w') := r in Ret (s, p, w ++ w')
      end
  end.

(** Answers of recvmmsg and poll. *)
Inductive rx_answer := Rx_got (l : list dgram) | Rx_again | Rx_intr | Rx_refused | Rx_error.
Inductive poll_answer := Po_error | Po_none | Po_ready (nval err inp : bool).

(** One turn of the loop: [g_stop]; the clock; the keepalive and the clock after it; recvmmsg; the clock before poll, and poll. *)
Record round := { rn_stop : bool; rn_now : Z; rn_ctrl : ctrl_io; rn_ka_now : Z; rn_recv : rx_answer; rn_poll_now : Z; rn_poll : poll_answer }.

(** The conversion to [int]. *)
Definition int32 (x : Z) : Z := if u32 x >=? 2 ^ 31 then u32 x - 2 ^ 32 else u32 x.

(** The time to park in poll. *)
Definition poll_timeout (s : down) (now : Z) : Z :=
  let ka_ms := u64 (last_ka s + PUMP_KEEPALIVE_MS) in
  let t := if ka_ms >? now then int32 (ka_ms - now) else 1 in
  if t >? PUMP_POLL_CEIL_MS then PUMP_POLL_CEIL_MS else t.

(** The keepalive of a turn; true to break. *)
Definition down_keepalive (r : round) (s : down) (p : Sock) : res (bool * down * Sock) :=
  if rn_now r >=? u64 (last_ka s + PUMP_KEEPALIVE_MS) then
    let! x := send_ctrl (rn_ctrl r) PT_ECHO_REQ (pc_enc c) (pc_sid c) (pc_tok c) p in
    let '(sent, p) := x in
    let fails := if sent then 0 else ka_fail s + 1 in
    if fails >=? PUMP_KA_FAIL_MAX then Ret (true, mk_down (last_ka s) (last_rx s) fails (ka_res_fail s) (err_poll_n s), set_lost p)
    else Ret (false, mk_down (rn_ka_now r) (last_rx s) fails (ka_res_fail s) (err_poll_n s), p)
  else Ret (false, s, p).

(** No datagram: park until data or the next keepalive. *)
Definition down_park (r : round) (s : down) (p : Sock) : down * Sock :=
  let polls n := mk_down (last_ka s) (last_rx s) (ka_fail s) (ka_res_fail s) n in
  match rn_poll r with
  | Po_error => (s, set_lost p)
  | Po_none => (polls 0, p)
  | Po_ready nval err inp =>
      if nval || err then
        if nval then (s, set_lost p)
        else if negb inp then
          if err_poll_n s + 1 >? PUMP_ERR_POLL_MAX then (polls (err_poll_n s + 1), set_lost p) else (polls (err_poll_n s + 1), p)
        else (polls 0, p)
      else (polls 0, p)
  end.

Definition down_round (stale : Z) (r : round) (s : down) (p : Sock) : res (down * Sock * list bytes) :=
  if negb (stale =? 0) && (u64 (rn_now r - last_rx s) >? stale) then Ret (s, set_lost p, [])
  else
    let! k := down_keepalive r s p in
    let '(broke, s, p) := k in
    if broke then Ret (s, p, [])
    else
      match rn_recv r with
      | Rx_got (g :: l) => down_dgrams (g :: l) (mk_down (last_ka s) (last_rx s) (ka_fail s) (ka_res_fail s) 0) p
      | Rx_got [] | Rx_again => Ret (down_park r s p, [])
      | Rx_intr | Rx_refused => Ret (s, p, [])
      | Rx_error => Ret (s, set_lost p, [])
      end.

(** The loop for as many turns as [rs] has, with what it handed to the device. *)
Fixpoint udp2tun (stale : Z) (rs : list round) (s : down) (p : Sock) : res (down * Sock * list bytes) :=
  match rs with
  | [] => Ret (s, p, [])
  | r :: rs =>
      if g_stop p || rn_stop r then Ret (s, p, [])
      else
        let! x := down_round stale r s p in
        let '(s, p, w) := x in
        let! y := udp2tun stale rs s p in
        let '(s, p, w') := y in Ret (s, p, w ++ w')
  end.

(** The thread: its buffers, then the loop. *)
Definition udp2tun_thread (mem : bool) (stale : Z) (rs : list round) (s : down) (p : Sock) : res (down * Sock * list bytes) :=
  if mem then udp2tun stale rs s p else Ret (s, set_lost p, []).

End Downlink.

(** * Proofs *)

(** A parked thread wakes within a second, and no later than its next keepalive is due. *)
Lemma poll_timeout_bounds (s : down) (now : Z) :
  0 <= last_ka s <= now -> now < 2 ^ 64 - PUMP_KEEPALIVE_MS ->
  1 <= poll_timeout s now <= PUMP_POLL_CEIL_MS /\ (now < last_ka s + PUMP_KEEPALIVE_MS -> now + poll_timeout s now <= last_ka s + PUMP_KEEPALIVE_MS).
Proof.
  unfold poll_timeout, int32, PUMP_KEEPALIVE_MS, PUMP_POLL_CEIL_MS, u64, u32. intros H0 H1. rewrite (Z.mod_small (last_ka s + _)) by lia.
  destruct (_ >? now) eqn:E; [rewrite !(Z.mod_small (last_ka s + _ - now)) by lia|]; ifs; lia.
Qed.

(** ** Uplink *)

Section Uplink.
Context (c : pump_ctx).

Definition ctx_wf : Prop := bytes_ok (pc_key c) /\ zlen (pc_key c) = 8.

Definition data_hdr : bytes := pkt_hdr (if pc_enc c =? 0 then PT_DATA else PT_DATA_ENC) (pc_enc c) (pc_sid c) (pc_tok c).

(** The frame of a packet. *)
Definition frame_of (pkt : bytes) : bytes := data_hdr ++ xor_crypt pkt (pc_key c).

(** A batch has fewer than 32 used slots, in order and each inside its slot. *)
Definition tx_ok (q : pump_tx) : Prop :=
  match tx_batch q with
  | None => tx_iov q = []
  | Some b => zlen b = PUMP_BATCH * slot /\ tx_hdr q = data_hdr /\ zlen (tx_iov q) < PUMP_BATCH /\
      forall i v, tx_iov q !! i = Some v -> v.1 = Z.of_nat i * slot /\ 8 <= v.2 <= slot
  end.

Definition io_ok (io : pkt_io) : Prop :=
  (forall b, pk_malloc io = Some b -> zlen b = PUMP_BATCH * slot) /\
  (forall fs, fs <> [] -> (length fs <= 32)%nat -> enough (pk_send io fs) fs).

Context `{UdpLaws}.

Lemma flush_spec io q p : (tx_ok q \/ (tx_batch q <> None /\ zlen (tx_iov q) = PUMP_BATCH)) ->
  (forall b, tx_batch q = Some b -> zlen b = PUMP_BATCH * slot /\ tx_hdr q = data_hdr) ->
  (forall fs, fs <> [] -> (length fs <= 32)%nat -> enough (io fs) fs) ->
  exists q' p' b, pump_flush io q p = Ret (q', p') /\ tx_ok q' /\ frames q' = [] /\ sends b (frames q) p p' /\ (g_stop p = false -> (forall fs, undisturbed (io fs) = true) -> b = true).
Proof.
  intros Hq Hb Hio. unfold pump_flush. destruct (zlen (tx_iov q) =? 0) eqn:E.
  - assert (tx_iov q = []) as Ei by (apply zlen_0_nil; lia). exists q, p, true. split; [done|]. split; [by destruct Hq as [?|[_ ?]]; [|exfalso; unfold PUMP_BATCH in *; lia]|].
    unfold frames. rewrite Ei. split; [done|]. split; [by apply sends_same|done].
  - assert (zlen (tx_iov q) <= 32) as Hn.
    { destruct Hq as [Hq|[_ ->]]; [|done]. unfold tx_ok in Hq. destruct (tx_batch q) as [b|]; [destruct Hq as (_ & _ & ? & _); unfold PUMP_BATCH in *; lia|rewrite Hq; done]. }
    destruct (tx_spec (io (frames q)) (frames q) p) as (p' & -> & Hs).
    { apply Hio; [|unfold frames; rewrite length_map; unfold zlen in Hn; lia]. unfold frames. intros Ef. apply (f_equal length) in Ef. rewrite length_map in Ef. unfold zlen in E. cbn in Ef. lia. }
    cbn [rbind]. eexists _, p', _. split; [reflexivity|]. split; [|split; [done|split; [exact Hs|]]].
    + unfold tx_ok. cbn. destruct (tx_batch q) as [b|] eqn:Eb; [|done]. destruct (Hb b eq_refl). split_and!; [done..|]. intros i v. by rewrite lookup_nil.
    + intros Hg Hu. by rewrite Hg, Hu.
Qed.

Lemma upd_adjacent d off h x : 0 <= off -> off + zlen h + zlen x <= zlen d -> upd (upd d off h) (off + zlen h) x = upd d off (h ++ x).
Proof.
  intros Ho Hl. pose proof (zlen_nonneg h). pose proof (zlen_nonneg x). assert (zlen (upd d off h) = zlen d) as E1 by (apply zlen_upd; lia).
  apply at_ext; [rewrite !zlen_upd; rewrite ?zlen_app; lia|]. intros i Hi. rewrite zlen_upd in Hi by lia.
  rewrite (at_upd _ (off + zlen h) x), (at_upd d off (h ++ x)), (at_upd d off h) by (rewrite ?zlen_app; lia). rewrite zlen_app.
  destruct ((off + zlen h <=? i) && (i <? off + zlen h + zlen x)) eqn:E1'.
  - destruct ((off <=? i) && (i <? off + (zlen h + zlen x))) eqn:E2; [|lia]. rewrite at_app_r by lia. f_equal. lia.
  - destruct ((off <=? i) && (i <? off + zlen h)) eqn:E3; destruct ((off <=? i) && (i <? off + (zlen h + zlen x))) eqn:E2; try lia. by rewrite at_app_l by lia.
Qed.

(** Writing a slot: its frame is there, the slots before it are as they were. *)
Lemma slot_write b n pkt : ctx_wf -> bytes_ok pkt -> zlen b = PUMP_BATCH * slot -> 0 <= n < PUMP_BATCH -> 0 < zlen pkt <= PUMP_SLOT ->
  exists b', (let! b := wrn b (n * slot) data_hdr in let! b := wrn b (n * slot + 8) pkt in let! pl := rdn b (n * slot + 8) (zlen pkt) in
              let! b := wrn b (n * slot + 8) (xor_crypt pl (pc_key c)) in Ret b) = Ret b' /\
    zlen b' = zlen b /\ slice b' (n * slot) (zlen pkt + 8) = frame_of pkt /\
    forall o k, 0 <= o -> 0 <= k -> o + k <= n * slot -> slice b' o k = slice b o k.
Proof.
  intros [Hk Hkl] Hp Hb Hn Hl. set (x := xor_crypt pkt (pc_key c)). assert (zlen x = zlen pkt) as Hx by (by apply xor_crypt_len). assert (zlen data_hdr = 8) as Hh by done.
  assert (PUMP_BATCH * slot = 65792 /\ slot = 2056 /\ PUMP_BATCH = 32 /\ PUMP_SLOT = 2048) as (E1 & E2 & E3 & E4) by done. rewrite E2 in *.
  rewrite wrn_ok by lia. cbn [rbind]. assert (zlen (upd b (n * 2056) data_hdr) = zlen b) as L1 by (apply zlen_upd; lia).
  rewrite wrn_ok by lia. cbn [rbind]. assert (zlen (upd (upd b (n * 2056) data_hdr) (n * 2056 + 8) pkt) = zlen b) as L2 by (rewrite zlen_upd; lia).
  rewrite rdn_ok by lia. cbn [rbind]. rewrite slice_upd_eq by lia. fold x. rewrite wrn_ok by lia. cbn [rbind]. eexists. split; [reflexivity|].
  rewrite upd_upd by lia. rewrite <- Hh, upd_adjacent by lia. change (data_hdr ++ x) with (frame_of pkt).
  assert (zlen (frame_of pkt) = 8 + zlen pkt) as Lf by (unfold frame_of; fold x; rewrite zlen_app; lia).
  split; [apply zlen_upd; lia|]. split; [apply slice_upd_eq; lia|]. intros o k Ho Hk0 Hok. apply slice_upd_out; lia.
Qed.

Lemma begin_spec io q : tx_ok q -> (forall b, pk_malloc io = Some b -> zlen b = PUMP_BATCH * slot) ->
  match pump_begin c io q with
  | None => tx_batch q = None /\ pk_malloc io = None
  | Some q' => tx_ok q' /\ tx_batch q' <> None /\ frames q' = frames q
  end.
Proof.
  intros Hq Hm. unfold pump_begin. unfold tx_ok in Hq. destruct (zlen (tx_iov q) =? 0) eqn:E; cbn [negb].
  - assert (tx_iov q = []) as Ei by (apply zlen_0_nil; lia). destruct (tx_batch q) as [b|] eqn:Eb.
    + destruct Hq as (H1 & H2 & H3 & H4). split_and!; [unfold tx_ok; cbn; split_and!; try done; intros i v; by rewrite lookup_nil|done|unfold frames; by rewrite Ei].
    + destruct (pk_malloc io) as [b|] eqn:Em; [|done]. split_and!; [unfold tx_ok; cbn; split_and!; [by apply Hm|done..|]; intros i v; by rewrite lookup_nil|done|unfold frames; by rewrite Ei].
  - destruct (tx_batch q) eqn:Eb; [|by rewrite Hq in E]. split_and!; [unfold tx_ok; by rewrite Eb|done|done].
Qed.

(** Whether a packet fits a slot. *)
Definition fits (pkt : bytes) : bool := (0 <? zlen pkt) && (zlen pkt <=? PUMP_SLOT).

Lemma pkt_spec io pkt last q p : ctx_wf -> bytes_ok pkt -> tx_ok q -> io_ok io ->
  exists q' p' b taken out, pump_tun_pkt c io pkt last q p = Ret (q', p') /\ tx_ok q' /\ sends b out p p' /\ frames q ++ taken = out ++ frames q' /\
    taken `sublist_of` (if negb last && fits pkt then [frame_of pkt] else []) /\ (last = true -> frames q' = []) /\
    (g_stop p = false -> (forall fs, undisturbed (pk_send io fs) = true) -> pk_stop io = false -> pk_malloc io <> None ->
       b = true /\ taken = if negb last && fits pkt then [frame_of pkt] else []).
Proof.
  intros Hc Hp Hq [Hm Hs]. unfold pump_tun_pkt, fits. destruct last; cbn [negb andb].
  { destruct (flush_spec (pk_send io) q p (or_introl Hq)) as (q' & p' & b & -> & Hq' & Hf & Hss & Hb); [|done|].
    - intros b Eb. unfold tx_ok in Hq. rewrite Eb in Hq. by destruct Hq as (? & ? & _).
    - exists q', p', b, [], (frames q). rewrite Hf, !app_nil_r. split_and!; try done. intros ? ? _ _. split; [by apply Hb|done]. }
  destruct ((zlen pkt =? 0) || (zlen pkt >? PUMP_SLOT)) eqn:El.
  { exists q, p, true, [], []. rewrite app_nil_r. pose proof (zlen_nonneg pkt). destruct (_ && _) eqn:E; [lia|]. split_and!; try done. by apply sends_same. }
  pose proof (zlen_nonneg pkt). destruct ((0 <? zlen pkt) && (zlen pkt <=? PUMP_SLOT)) eqn:Ef; [|lia].
  pose proof (begin_spec io q Hq Hm) as Hbg. destruct (pump_begin c io q) as [q1|].
  2: { exists q, (set_lost p), false, [], []. rewrite app_nil_r. split_and!; try done; [by apply sends_same; destruct p|apply sublist_nil_l|]. intros _ _ _ Hn. by destruct Hbg. }
  destruct Hbg as (Hq1 & Hb1 & <-). destruct (g_stop p || pk_stop io) eqn:Est.
  { exists q1, p, true, [], []. rewrite app_nil_r. split_and!; try done; [by apply sends_same|apply sublist_nil_l|]. intros Hg _ Hps _. rewrite Hg, Hps in Est. done. }
  unfold tx_ok in Hq1. destruct (tx_batch q1) as [b|] eqn:Eb; [|done]. destruct Hq1 as (Lb & Hh & Hn & Hv). pose proof (zlen_nonneg (tx_iov q1)) as Hn0.
  cbv zeta. change (default [] (Some b)) with b. destruct (slot_write b (zlen (tx_iov q1)) pkt Hc Hp Lb ltac:(lia) ltac:(lia)) as (b' & Ew & Lb' & Hfr & Hold). rewrite Hh.
  set (q2 := mk_tx (Some b') data_hdr (tx_iov q1 ++ [(zlen (tx_iov q1) * slot, zlen pkt + 8)]) (tx_t0 q1)).
  assert (frames q2 = frames q1 ++ [frame_of pkt]) as Hf2.
  { unfold frames, q2. rewrite Eb. cbn [tx_batch tx_iov default]. rewrite map_app. cbn [map]. f_equal; [|exact (f_equal (fun x => [x]) Hfr)].
    apply list_eq. intros i. rewrite !list_lookup_fmap. destruct (tx_iov q1 !! i) as [v|] eqn:Ei; [|done]. cbn. f_equal. destruct (Hv i v Ei) as [E1 E2]. apply lookup_lt_Some in Ei.
    apply Hold; [unfold slot, PUMP_SLOT in *; lia|lia|]. rewrite E1. unfold zlen, slot, PUMP_SLOT in *. nia. }
  assert (forall i v, tx_iov q2 !! i = Some v -> v.1 = Z.of_nat i * slot /\ 8 <= v.2 <= slot) as Hv2.
  { intros i v. unfold q2. cbn [tx_iov]. rewrite lookup_app_Some. intros [Hi|[Hi1 Hi2]]; [by apply Hv|]. apply list_lookup_singleton_Some in Hi2 as [Hi2 <-]. cbn. unfold zlen, slot, PUMP_SLOT in *. lia. }
  revert Ew. destruct (wrn b _ data_hdr) as [w1|]; [|done]. cbn [rbind]. destruct (wrn w1 _ pkt) as [w2|]; [|done]. cbn [rbind]. destruct (rdn w2 _ _) as [w3|]; [|done]. cbn [rbind].
  destruct (wrn w2 _ _) as [w4|]; [|done]. cbn [rbind]. intros [= ->]. fold q2. cbn [tx_t0].
  destruct ((zlen (tx_iov q1) + 1 =? PUMP_BATCH) || _) eqn:Efl.
  - destruct (flush_spec (pk_send io) q2 p) as (q' & p' & fl & -> & Hq' & Hf & Hss & Hfl); [|intros ? [= <-]; by rewrite Lb'|done|].
    + destruct (zlen (tx_iov q1) + 1 =? PUMP_BATCH) eqn:E32.
      * right. split; [done|]. unfold q2. cbn [tx_iov]. rewrite zlen_app, zlen_cons, zlen_nil. lia.
      * left. unfold tx_ok. cbn [q2 tx_batch tx_hdr]. split_and!; [by rewrite Lb'|done| |done]. unfold q2. cbn [tx_iov]. rewrite zlen_app, zlen_cons, zlen_nil. lia.
    + exists q', p', fl, [frame_of pkt], (frames q2). rewrite Hf, app_nil_r, Hf2. split_and!; try done; [by rewrite <- Hf2|]. intros ? ? _ _. split; [by apply Hfl|done].
  - exists q2, p, true, [frame_of pkt], []. split_and!; try done; [|by apply sends_same].
    unfold tx_ok. cbn [q2 tx_batch tx_hdr]. split_and!; [by rewrite Lb'|done| |done]. unfold q2. cbn [tx_iov]. rewrite zlen_app, zlen_cons, zlen_nil. lia.
Qed.

Lemma reader_exit_ok q : tx_ok (pump_reader_exit q) /\ frames (pump_reader_exit q) = [].
Proof. done. Qed.

(** ** Readers in any order *)

Context `{OpenSSL}.

(** A packet, or the end of a burst, at reader [i]; a control frame of the session. *)
Inductive pump_event :=
  | E_packet (i : nat) (io : pkt_io) (pkt : bytes) (last : bool)
  | E_control (io : ctrl_io) (typ : Z).

Fixpoint pump_run (evs : list pump_event) (qs : list pump_tx) (p : Sock) : res (list pump_tx * Sock) :=
  match evs with
  | [] => Ret (qs, p)
  | E_packet i io pkt last :: evs =>
      let! r := pump_tun_pkt c io pkt last (default tx_empty (qs !! i)) p in
      pump_run evs (<[i := r.1]> qs) r.2
  | E_control io typ :: evs =>
      let! r := send_ctrl io typ (pc_enc c) (pc_sid c) (pc_tok c) p in
      pump_run evs qs r.2
  end.

(** The frames of the packets that came to reader [i] and fit a slot. *)
Definition offered (i : nat) (evs : list pump_event) : list bytes :=
  concat (map (fun e => match e with E_packet j _ pkt last => if bool_decide (i = j) && (negb last && fits pkt) then [frame_of pkt] else [] | _ => [] end) evs).

Definition event_ok (n : nat) (e : pump_event) : Prop := match e with E_packet i io pkt _ => (i < n)%nat /\ bytes_ok pkt /\ io_ok io | E_control _ _ => True end.

(** No stop, no allocation failure and no disturbance of a send. *)
Definition event_calm (e : pump_event) : Prop :=
  match e with
  | E_packet _ io _ _ => (forall fs, undisturbed (pk_send io fs) = true) /\ pk_stop io = false /\ pk_malloc io <> None
  | E_control io typ => match ct_send io with inl r => r = zlen (signed_frame typ (pc_enc c) (pc_sid c) (pc_tok c)) | inr _ => False end
  end.

(** What was put on the socket: by the reader that did it, or a control frame. *)
Definition by_reader (i : nat) (l : list (option nat * list bytes)) : list bytes := concat (map (fun x => if bool_decide (x.1 = Some i) then x.2 else []) l).

Lemma by_reader_cons i j fs l : by_reader i ((j, fs) :: l) = (if bool_decide (j = Some i) then fs else []) ++ by_reader i l.
Proof. done. Qed.

Lemma run_spec evs qs p : ctx_wf -> Forall tx_ok qs -> Forall (event_ok (length qs)) evs ->
  exists qs' p' b l acc, pump_run evs qs p = Ret (qs', p') /\ length qs' = length qs /\ Forall tx_ok qs' /\ sends b (concat (map snd l)) p p' /\
    (forall i q q', qs !! i = Some q -> qs' !! i = Some q' -> frames q ++ acc i = by_reader i l ++ frames q' /\ acc i `sublist_of` offered i evs) /\
    (g_stop p = false -> Forall event_calm evs -> b = true /\ forall i, (i < length qs)%nat -> acc i = offered i evs).
Proof.
  intros Hc. revert qs p. induction evs as [|e evs IH]; intros qs p Hqs Hev.
  { exists qs, p, true, [], (fun _ => []). split_and!; try done; [by apply sends_same|]. intros i q q' Hq Hq'. rewrite Hq in Hq'. injection Hq' as ->. by rewrite app_nil_r. }
  apply Forall_cons in Hev as [He Hev]. cbn [pump_run]. destruct e as [i io pkt last|io typ].
  - destruct He as (Hi & Hp & Hio). destruct (lookup_lt_is_Some_2 qs i Hi) as [q Hq]. rewrite Hq. change (default tx_empty (Some q)) with q.
    assert (tx_ok q) as Hqok by (by eapply Forall_lookup_1).
    destruct (pkt_spec io pkt last q p Hc Hp Hqok Hio) as (q' & p1 & b1 & tk & out & -> & Hq' & Hs1 & Hfr & Htk & _ & Hcalm). cbn [rbind fst snd].
    destruct (IH (<[i:=q']> qs) p1) as (qs' & p' & b & l & acc & -> & Hlen & Hqs' & Hs & Hacc & Hall); [by apply Forall_insert|by rewrite length_insert|].
    rewrite length_insert in Hlen, Hall.
    exists qs', p', (b1 && b), ((Some i, out) :: l), (fun j => (if bool_decide (j = i) then tk else []) ++ acc j).
    split_and!; try done; [exact (sends_trans _ _ _ _ _ _ _ Hs1 Hs)| |].
    + intros j x x' Hx Hx'. rewrite by_reader_cons. change (offered j (E_packet i io pkt last :: evs)) with ((if bool_decide (j = i) && (negb last && fits pkt) then [frame_of pkt] else []) ++ offered j evs).
      destruct (decide (j = i)) as [->|Hne].
      * rewrite !bool_decide_eq_true_2 by done. rewrite Hq in Hx. injection Hx as <-. destruct (Hacc i q' x') as [Ha Hb]; [by apply list_lookup_insert_eq|done|].
        split; [by rewrite app_assoc, Hfr, <- app_assoc, Ha, app_assoc|]. by apply sublist_app.
      * rewrite !bool_decide_eq_false_2 by congruence. cbn [app andb]. apply (Hacc j x x'); [|done]. by rewrite list_lookup_insert_ne.
    + intros Hg Hca. apply Forall_cons in Hca as [(Hu & Hst & Hml) Hca]. destruct (Hcalm Hg Hu Hst Hml) as [-> ->].
      destruct (Hall) as [-> Hacc2]; [by rewrite (sends_stop _ _ _ _ Hs1 eq_refl)|done|]. split; [done|]. intros j Hj.
      change (offered j (E_packet i io pkt last :: evs)) with ((if bool_decide (j = i) && (negb last && fits pkt) then [frame_of pkt] else []) ++ offered j evs).
      rewrite Hacc2 by done. f_equal. by destruct (bool_decide (j = i)).
  - destruct (ctrl_spec io typ (pc_enc c) (pc_sid c) (pc_tok c) p) as (b1 & p1 & -> & Hs1 & Hg1 & _ & Hb1). cbn [rbind snd].
    destruct (IH qs p1) as (qs' & p' & b & l & acc & -> & Hlen & Hqs' & Hs & Hacc & Hall); [done..|].
    exists qs', p', (b1 && b), ((None, [signed_frame typ (pc_enc c) (pc_sid c) (pc_tok c)]) :: l), acc. split_and!; try done; [exact (sends_trans _ _ _ _ _ _ _ Hs1 Hs)|].
    intros Hg Hca. apply Forall_cons in Hca as [Hc1 Hca]. destruct (Hall) as [-> Hacc2]; [by rewrite Hg1|done|]. split; [|done].
    rewrite Hb1. cbn in Hc1. destruct (ct_send io); [|done]. rewrite andb_true_r. by apply Z.eqb_eq.
Qed.

(** C8: Reader threads and the keepalive thread share the socket in any order.  Every packet of 1 to 2048 bytes becomes one frame,
    the header of the session and the packet under its key, and nothing is written outside its slot.  For each reader, what
    it held at the start and the frames of the packets it took are, in order, what it has put on the socket and what it still holds.  What leaves
    on the wire are whole frames, each once, in the order of the sends; when nothing is stopped, refused or stalled, all packets were taken and all that was put on
    the socket left. *)
Theorem uplink_conserved (evs : list pump_event) (qs : list pump_tx) (p : Sock) :
  ctx_wf -> Forall tx_ok qs -> Forall (event_ok (length qs)) evs -> sock_ok p ->
  exists qs' p' l acc, pump_run evs qs p = Ret (qs', p') /\ length qs' = length qs /\ Forall tx_ok qs' /\
    (forall i q q', qs !! i = Some q -> qs' !! i = Some q' -> frames q ++ acc i = by_reader i l ++ frames q' /\ acc i `sublist_of` offered i evs) /\
    (g_stop p = false -> Forall event_calm evs -> forall i, (i < length qs)%nat -> acc i = offered i evs) /\
    (steady p' -> exists ds, wire (kernel p') = wire (kernel p) ++ ds /\ ds `sublist_of` concat (map snd l) /\
       (g_stop p = false -> Forall event_calm evs -> ds = concat (map snd l))).
Proof.
  intros Hc Hqs Hev Hok. destruct (run_spec evs qs p Hc Hqs Hev) as (qs' & p' & b & l & acc & E & Hlen & Hqs' & Hs & Hacc & Hall).
  exists qs', p', l, acc. split_and!; try done; [intros Hg Hca; by apply Hall|]. intros Hh. destruct (sends_wire _ _ _ _ Hs Hh Hok) as (_ & ds & Hw & Hd & Ha).
  exists ds. split_and!; [done..|]. intros Hg Hca. by apply Ha, Hall.
Qed.

End Uplink.

(** ** Downlink *)

Section Down.
Context `{OpenSSLLaws} (c : pump_ctx).
Hypothesis Hc : ctx_wf c.

(** A datagram of this session. *)
Definition genuine (g : dgram) : Prop := dg_trunc g = false /\ 8 <= zlen (dg_data g) /\ hdr_sid (dg_data g) = pc_sid c /\ hdr_tok (dg_data g) = pc_tok c.

#[global] Instance genuine_dec g : Decision (genuine g).
Proof. unfold genuine. apply _. Defined.

(** A packet that is addressed to this session and does not claim to come from it. *)
Definition deliverable (q : bytes) : Prop :=
  if q.[0] / 16 =? 6 then ip6_valid q /\ slice q 24 16 = ip6_derive_ula (pc_ip c) /\ slice q 8 16 <> ip6_derive_ula (pc_ip c)
  else ipv4_valid q /\ be32 q.[16] q.[17] q.[18] q.[19] = pc_ip c /\ be32 q.[12] q.[13] q.[14] q.[15] <> pc_ip c.

#[global] Instance deliverable_dec q : Decision (deliverable q).
Proof. unfold deliverable. destruct (_ =? _); apply _. Defined.

Definition content (d : bytes) : bytes := if pc_enc c =? 0 then drop 8 d else xor_crypt (drop 8 d) (pc_key c).
Definition data_type : Z := if pc_enc c =? 0 then PT_DATA else PT_DATA_ENC.

(** The packet a datagram brings to the device. *)
Definition brings (g : dgram) : option bytes :=
  if decide (genuine g) then if (dg_data g).[0] =? data_type then if decide (deliverable (content (dg_data g))) then Some (content (dg_data g)) else None else None else None.

Definition signed (t : Z) (g : dgram) : Prop := genuine g /\ (dg_data g).[0] = t /\ verify_sig (dg_data g) = Ret true.

(** Why a datagram can end the session: a signed CLOSE of the session; the third reply in a row that could not be sent; a device that is gone. *)
Definition kills (s : down) (g : dgram) : Prop :=
  signed PT_CLOSE g \/
  (signed PT_ECHO_REQ g /\ ct_send (dg_ctrl g) <> inl IWAN_CTRL_LEN /\ ka_res_fail s + 1 >= PUMP_KA_FAIL_MAX) \/
  (brings g <> None /\ dg_write g = T_failed false false false).

Lemma gate_runs q : bytes_ok q -> exists b, inner_gate c q = Ret b /\ (b = true <-> deliverable q).
Proof.
  intros Hq. unfold inner_gate, deliverable. pose proof (zlen_nonneg q). destruct (zlen q =? 0) eqn:E0.
  { exists false. split; [done|]. split; [done|]. destruct (_ =? 6); intros [[? _] _]; lia. }
  rewrite rd_ok by lia. cbn [rbind]. rewrite shiftr4. destruct (q.[0] / 16 =? 6) eqn:E6.
  - destruct (zlen q <? 40) eqn:E40; [exists false; split; [done|]; split; [done|]; intros [[? _] _]; lia|]. rewrite ip6_pkt_ok_spec by done. cbn [rbind].
    destruct (decide (ip6_valid q)) as [Hv|Hv]; [|exists false; split; [done|]; split; [done|tauto]]. eexists. split; [reflexivity|].
    rewrite negb_true_iff, orb_false_iff, negb_false_iff, beq_true, beq_false. tauto.
  - rewrite ipv4_pkt_ok_spec by done. cbn [rbind]. destruct (decide (ipv4_valid q)) as [Hv|Hv]; [|exists false; split; [done|]; split; [done|tauto]].
    eexists. split; [reflexivity|]. rewrite negb_true_iff, orb_false_iff, negb_false_iff, Z.eqb_eq, Z.eqb_neq. tauto.
Qed.

Lemma gate_spec q : bytes_ok q -> inner_gate c q = Ret (bool_decide (deliverable q)).
Proof.
  intros Hq. destruct (gate_runs q Hq) as (b & -> & Hb). f_equal. destruct b; [symmetry; apply bool_decide_eq_true_2; tauto|].
  symmetry. apply bool_decide_eq_false_2. intros Hd. by apply Hb in Hd.
Qed.

Lemma signed_len typ en sd tk : zlen (signed_frame typ en sd tk) = IWAN_CTRL_LEN.
Proof. unfold signed_frame. rewrite zlen_app. change (zlen (pkt_hdr typ en sd tk)) with 8. rewrite md5_len. done. Qed.

Lemma lost_flags p : session_lost (set_lost p) = true /\ g_stop (set_lost p) = true.
Proof. by destruct p. Qed.

(** What one datagram does. *)
Record dgram_effect (g : dgram) (s s' : down) (p p' : Sock) (nx : next) : Prop := {
  de_rest : last_ka s' = last_ka s /\ ka_fail s' = ka_fail s /\ err_poll_n s' = err_poll_n s;
  de_rx : last_rx s' = if decide (genuine g) then dg_now g else last_rx s;
  de_forged : ~ genuine g -> nx = Continue /\ s' = s /\ p' = p;
  de_lost : session_lost p' = true <-> session_lost p = true \/ kills s g;
  de_stop : g_stop p' = true <-> g_stop p = true \/ kills s g;
  de_break : nx = Break <-> kills s g \/ (brings g <> None /\ exists u b a, dg_write g = T_failed u b a /\ (u || b) = true)
}.

Lemma brings_data g : genuine g -> (dg_data g).[0] = data_type -> brings g = if decide (deliverable (content (dg_data g))) then Some (content (dg_data g)) else None.
Proof. intros Hg Ht. unfold brings. rewrite decide_True by done. by rewrite Ht, Z.eqb_refl. Qed.

Lemma brings_other g : (dg_data g).[0] <> data_type -> brings g = None.
Proof. intros Ht. unfold brings. destruct (decide (genuine g)); [|done]. destruct (_ =? data_type) eqn:E; [lia|done]. Qed.

Lemma brings_genuine g : brings g <> None -> genuine g.
Proof. unfold brings. by destruct (decide (genuine g)). Qed.

Lemma kills_genuine s g : kills s g -> genuine g.
Proof. intros [[? _]|[[[? _] _]|[? _]]]; [done|done|by apply brings_genuine]. Qed.

Lemma forged_effect g s p : ~ genuine g -> brings g = None /\ dgram_effect g s s p p Continue.
Proof.
  intros Hg. assert (brings g = None) as Hb by (unfold brings; by rewrite decide_False). split; [done|].
  assert (~ kills s g) as Hk by (by intros ?%kills_genuine). split; try done; [by rewrite decide_False|tauto|tauto|].
  split; [done|]. intros [?|[? _]]; [done|congruence].
Qed.

Lemma type_apart : PT_CLOSE <> data_type /\ PT_ECHO_REQ <> data_type.
Proof. unfold data_type. by destruct (_ =? 0). Qed.

(** A datagram of the session that is not its death. *)
Lemma live_effect g s s' p p' : genuine g -> last_ka s' = last_ka s -> ka_fail s' = ka_fail s -> err_poll_n s' = err_poll_n s -> last_rx s' = dg_now g ->
  session_lost p' = session_lost p -> g_stop p' = g_stop p -> ~ kills s g -> (brings g <> None -> dg_write g = T_written \/ exists a, dg_write g = T_failed false false a) ->
  dgram_effect g s s' p p' Continue.
Proof.
  intros Hg E1 E2 E3 E4 E5 E6 Hk Hw. split; [done|by rewrite decide_True|done|rewrite E5; tauto|rewrite E6; tauto|].
  split; [done|]. intros [?|[Hb (u & b & a & E & Hub)]]; [done|]. destruct (Hw Hb) as [Ew|[a' Ew]]; [congruence|]. rewrite Ew in E. injection E as <- <- _. done.
Qed.

Lemma death_effect g s s' p p' : genuine g -> last_ka s' = last_ka s -> ka_fail s' = ka_fail s -> err_poll_n s' = err_poll_n s -> last_rx s' = dg_now g ->
  kills s g -> dgram_effect g s s' p (set_lost p') Break.
Proof.
  intros Hg E1 E2 E3 E4 Hk. destruct (lost_flags p') as [F1 F2]. split; [done|by rewrite decide_True|done|tauto|tauto|tauto].
Qed.

Lemma data_kills s g : (dg_data g).[0] = data_type -> kills s g <-> brings g <> None /\ dg_write g = T_failed false false false.
Proof.
  intros Ht. destruct type_apart as [T1 T2]. unfold kills, signed. split; [|tauto]. intros [(_ & E & _)|[[(_ & E & _) _]|?]]; [congruence|congruence|done].
Qed.

Lemma control_kills s g : (dg_data g).[0] <> data_type -> kills s g <-> signed PT_CLOSE g \/ (signed PT_ECHO_REQ g /\ ct_send (dg_ctrl g) <> inl IWAN_CTRL_LEN /\ ka_res_fail s + 1 >= PUMP_KA_FAIL_MAX).
Proof. intros Ht. unfold kills. rewrite (brings_other g Ht). split; [|tauto]. intros [?|[?|[? _]]]; tauto. Qed.

Lemma dgram_spec g s p : bytes_ok (dg_data g) ->
  exists nx s' p', down_dgram c g s p = Ret (nx, s', p', option_list (brings g)) /\ dgram_effect g s s' p p' nx.
Proof.
  intros Hb. unfold down_dgram.
  assert (~ genuine g -> exists nx s' p', Ret (Continue, s, p, []) = Ret (nx, s', p', option_list (brings g)) /\ dgram_effect g s s' p p' nx) as Hforged.
  { intros Hg. destruct (forged_effect g s p Hg) as [E He]. rewrite E. by eexists _, _, _. }
  destruct ((zlen (dg_data g) <? 8) || dg_trunc g) eqn:E0; [apply Hforged; intros (Ht & Hl & _); rewrite Ht in E0; lia|].
  apply orb_false_iff in E0 as [E0 Etr]. rewrite rdn_ok by lia. cbn [rbind]. destruct (hdr_of_frame (dg_data g) ltac:(lia)) as (-> & -> & ->).
  destruct (negb (hdr_sid (dg_data g) =? pc_sid c) || _) eqn:E1; [apply Hforged; intros (_ & _ & ? & ?); lia|].
  assert (genuine g) as Hg by (split_and!; [done|lia..]). clear Hforged. cbv zeta. destruct type_apart as [T1 T2].
  destruct ((dg_data g).[0] =? PT_CLOSE) eqn:E2.
  { assert ((dg_data g).[0] = PT_CLOSE) as Et by lia. assert ((dg_data g).[0] <> data_type) as Hd by congruence. rewrite (brings_other g Hd). rewrite verify_sig_spec.
    destruct (if zlen _ <? _ then false else _) eqn:Ev; cbn [rbind negb]; eexists _, _, _; (split; [reflexivity|]).
    - apply death_effect; try done. left. split_and!; [done..|]. by rewrite verify_sig_spec, Ev.
    - apply live_effect; try done; [|by rewrite (brings_other g Hd)]. rewrite control_kills by done. intros [(_ & _ & Es)|[(_ & Et' & _) _]]; [|by rewrite Et in Et'].
      rewrite verify_sig_spec, Ev in Es. done. }
  destruct ((dg_data g).[0] =? PT_ECHO_REQ) eqn:E3.
  { assert ((dg_data g).[0] = PT_ECHO_REQ) as Et by lia. assert ((dg_data g).[0] <> data_type) as Hd by congruence. rewrite (brings_other g Hd). rewrite verify_sig_spec.
    destruct (if zlen _ <? _ then false else _) eqn:Ev; cbn [rbind negb].
    - destruct (ctrl_returns (dg_ctrl g) PT_ECHO_RES (pc_enc c) (pc_sid c) (pc_tok c) p) as (p' & -> & Hst & Hls). cbn [rbind]. rewrite signed_len.
      assert (signed PT_ECHO_REQ g) as Hsig by (split_and!; [done..|]; by rewrite verify_sig_spec, Ev).
      assert (kills s g <-> ct_send (dg_ctrl g) <> inl IWAN_CTRL_LEN /\ ka_res_fail s + 1 >= PUMP_KA_FAIL_MAX) as Hk.
      { rewrite control_kills by done. split; [|tauto]. intros [(_ & Et' & _)|(_ & ?)]; [by rewrite Et in Et'|done]. }
      cbn [ka_res_fail].
      destruct (match ct_send (dg_ctrl g) with inl r => r =? IWAN_CTRL_LEN | inr _ => false end) eqn:Es.
      + change (0 >=? PUMP_KA_FAIL_MAX) with false. eexists _, _, _. split; [reflexivity|]. apply live_effect; try done; [|by rewrite (brings_other g Hd)].
        rewrite Hk. intros [Hne _]. apply Hne. destruct (ct_send (dg_ctrl g)); [f_equal; lia|done].
      + assert (ct_send (dg_ctrl g) <> inl IWAN_CTRL_LEN) as Hne by (intros E; rewrite E in Es; done).
        destruct (ka_res_fail s + 1 >=? PUMP_KA_FAIL_MAX) eqn:E5; eexists _, _, _; (split; [reflexivity|]).
        * apply death_effect; try done. apply Hk. split; [done|lia].
        * apply live_effect; try done; [|by rewrite (brings_other g Hd)]. rewrite Hk. intros [_ ?]. lia.
    - eexists _, _, _. split; [reflexivity|]. apply live_effect; try done; [|by rewrite (brings_other g Hd)]. rewrite control_kills by done. intros [(_ & Et' & _)|((_ & _ & Es) & _)]; [by rewrite Et in Et'|].
      rewrite verify_sig_spec, Ev in Es. done. }
  assert ((dg_data g).[0] <> data_type -> exists nx s' p', Ret (Continue, mk_down (last_ka s) (dg_now g) (ka_fail s) (ka_res_fail s) (err_poll_n s), p, []) = Ret (nx, s', p', option_list (brings g)) /\ dgram_effect g s s' p p' nx) as Hother.
  { intros Hd. rewrite (brings_other g Hd). eexists _, _, _. split; [reflexivity|]. apply live_effect; try done; [|by rewrite (brings_other g Hd)]. rewrite control_kills by done.
    intros [(_ & ? & _)|((_ & ? & _) & _)]; lia. }
  assert (PT_DATA = 20 /\ PT_DATA_ENC = 24) as [P1 P2] by done. unfold data_type in Hother.
  destruct (negb ((dg_data g).[0] =? PT_DATA) && _) eqn:E4; [apply Hother; destruct (pc_enc c =? 0); lia|].
  destruct (((dg_data g).[0] =? PT_DATA) && _) eqn:E5; [apply Hother; destruct (pc_enc c =? 0); lia|].
  destruct (((dg_data g).[0] =? PT_DATA_ENC) && _) eqn:E6; [apply Hother; destruct (pc_enc c =? 0); lia|]. clear Hother.
  assert ((dg_data g).[0] = data_type) as Hd by (unfold data_type; destruct (pc_enc c =? 0); lia).
  rewrite rdn_ok by lia. cbn [rbind].
  assert ((if (dg_data g).[0] =? PT_DATA_ENC then xor_crypt (slice (dg_data g) 8 (zlen (dg_data g) - 8)) (pc_key c) else slice (dg_data g) 8 (zlen (dg_data g) - 8)) = content (dg_data g)) as ->.
  { assert (slice (dg_data g) 8 (zlen (dg_data g) - 8) = drop 8 (dg_data g)) as ->. { unfold slice. change (Z.to_nat 8) with 8%nat. apply take_ge. rewrite length_drop. unfold zlen. lia. }
    unfold content. unfold data_type in Hd. rewrite Hd. by destruct (pc_enc c =? 0). }
  assert (bytes_ok (content (dg_data g))) as Hcb by (unfold content; destruct (pc_enc c =? 0); [bok|apply xor_crypt_ok; [bok|by apply Hc]]).
  rewrite gate_spec by done. cbn [rbind]. pose proof (brings_data g Hg Hd) as Hbr. pose proof (data_kills s g Hd) as Hk.
  destruct (decide (deliverable (content (dg_data g)))) as [Hdel|Hdel].
  - rewrite bool_decide_eq_true_2 by done. cbn [negb]. rewrite Hbr in Hk |- *. cbn [option_list]. destruct (dg_write g) as [|u b a] eqn:Ew.
    + eexists _, _, _. split; [reflexivity|]. apply live_effect; try done; [|intros; by left]. rewrite Hk. intros [_ ?]. done.
    + assert (forall p', session_lost p' = session_lost p -> g_stop p' = g_stop p -> (u || b) = true -> dgram_effect g s (mk_down (last_ka s) (dg_now g) (ka_fail s) (ka_res_fail s) (err_poll_n s)) p p' Break) as Hstop.
      { intros p' F1 F2 Hub. assert (~ kills s g) as Hnk by (rewrite Hk; intros [_ [= -> -> ->]]; done). split; [done|by rewrite decide_True|done|rewrite F1; tauto|rewrite F2; tauto|].
        split; [|done]. intros _. right. rewrite Hbr. split; [done|]. by exists u, b, a. }
      destruct u; [eexists _, _, _; split; [reflexivity|]; by apply Hstop|]. destruct b; [eexists _, _, _; split; [reflexivity|]; by apply Hstop|].
      destruct a; eexists _, _, _; (split; [reflexivity|]).
      * apply live_effect; try done; [rewrite Hk; intros [_ ?]; done|]. intros _. right. by exists true.
      * apply death_effect; try done. by apply Hk.
  - rewrite bool_decide_eq_false_2 by done. cbn [negb]. rewrite Hbr in Hk |- *. eexists _, _, _. split; [reflexivity|]. apply live_effect; try done; first [by rewrite Hbr|rewrite Hk; tauto].
Qed.

(** ** Batches of datagrams *)

(** The device writes of [l] that fail do not fail because of a stop. *)
Definition no_stop (g : dgram) : Prop := forall u b a, dg_write g = T_failed u b a -> (u || b) = false.

Lemma dgrams_spec l s p : Forall (fun g => bytes_ok (dg_data g)) l ->
  exists s' p' w, down_dgrams c l s p = Ret (s', p', w) /\
    (last_ka s' = last_ka s /\ ka_fail s' = ka_fail s /\ err_poll_n s' = err_poll_n s) /\
    (last_rx s' = last_rx s \/ exists g, g ∈ l /\ genuine g /\ last_rx s' = dg_now g) /\
    w `sublist_of` omap brings l /\
    (session_lost p' = true -> session_lost p = true \/
       exists l1 g l2 s1 p1 w1, l = l1 ++ g :: l2 /\ down_dgrams c l1 s p = Ret (s1, p1, w1) /\ kills s1 g) /\
    (g_stop p = true -> g_stop p' = true) /\
    (g_stop p' = false -> Forall no_stop l -> w = omap brings l).
Proof.
  intros Hl. revert s p. induction Hl as [|g l Hg Hl IH]; intros s p.
  { eexists _, _, _. split; [done|]. split_and!; try done; by left. }
  cbn [down_dgrams]. destruct (dgram_spec g s p Hg) as (nx & s1 & p1 & E1 & [He1 He2 He3 He4 He5 He6]). rewrite E1. cbn [rbind].
  assert (omap brings (g :: l) = option_list (brings g) ++ omap brings l) as Eo by (cbn; by destruct (brings g)). rewrite Eo.
  destruct nx.
  - destruct (IH s1 p1) as (s' & p' & w & E & (Hr1 & Hr2 & Hr3) & Hrx & Hw & Hlost & Hstop & Hall). rewrite E. cbn [rbind]. eexists _, _, _. split; [done|]. split_and!.
    + destruct He1 as (? & ? & ?). congruence.
    + destruct He1 as (? & ? & ?). congruence.
    + destruct He1 as (? & ? & ?). congruence.
    + destruct Hrx as [Hrx|(x & Hx & Hgx & Ex)]; [|right; exists x; split; [by constructor|done]]. rewrite Hrx, He2.
      destruct (decide (genuine g)) as [Hgg|]; [right; exists g; split; [constructor|done]|by left].
    + by apply sublist_app.
    + intros Hls. destruct (Hlost Hls) as [Hls1|(l1 & x & l2 & s2 & p2 & w2 & -> & E2 & Hk)].
      * apply He4 in Hls1 as [?|Hk]; [by left|]. right. exists [], g, l, s, p, []. done.
      * right. exists (g :: l1), x, l2, s2, p2, (option_list (brings g) ++ w2). split_and!; try done. cbn [down_dgrams]. rewrite E1. cbn [rbind]. by rewrite E2.
    + intros Hs. apply Hstop, He5. by left.
    + intros Hs Hns. apply Forall_cons in Hns as [_ Hns]. by rewrite (Hall Hs Hns).
  - eexists _, _, _. split; [done|]. split_and!; try (by destruct He1 as (? & ? & ?)).
    + rewrite He2. destruct (decide (genuine g)) as [Hgg|]; [right; exists g; split; [constructor|done]|by left].
    + apply sublist_inserts_r. done.
    + intros Hls. apply He4 in Hls as [?|Hk]; [by left|]. right. by exists [], g, l, s, p, [].
    + intros Hs. apply He5. by left.
    + intros Hs Hns. exfalso. destruct He6 as [He6 _]. destruct (He6 eq_refl) as [Hk|[_ (u & b & a & Ew & Hub)]].
      * assert (g_stop p1 = true) by (apply He5; by right). congruence.
      * apply Forall_cons in Hns as [Hns _]. by rewrite (Hns _ _ _ Ew) in Hub.
Qed.

(** Datagrams that are not of this session might as well not have come. *)
Lemma forged_skipped l s p : Forall (fun g => bytes_ok (dg_data g)) l -> down_dgrams c l s p = down_dgrams c (filter genuine l) s p.
Proof.
  intros Hl. revert s p. induction Hl as [|g l Hg Hl IH]; intros s p; [done|]. destruct (decide (genuine g)) as [Hgg|Hgg].
  - rewrite filter_cons_True by done. cbn [down_dgrams]. destruct (down_dgram c g s p) as [[[[nx s1] p1] w]|]; [|done]. cbn [rbind]. destruct nx; [|done]. by rewrite IH.
  - rewrite filter_cons_False by done. rewrite <- IH. cbn [down_dgrams]. destruct (dgram_spec g s p Hg) as (nx & s1 & p1 & -> & [_ _ He _ _ _]).
    destruct (He Hgg) as (-> & -> & ->). destruct (forged_effect g s p Hgg) as [-> _]. cbn [rbind option_list]. by destruct (down_dgrams c l s p) as [[[? ?] ?]|].
Qed.

(** ** Turns of the loop *)

Definition got (r : round) : list dgram := match rn_recv r with Rx_got l => l | _ => [] end.
Definition arrived (rs : list round) : list dgram := concat (map got rs).

(** Why a turn that starts in state [s] may declare the session lost. *)
Inductive reason (stale : Z) (r : round) (s : down) : Prop :=
  | Because_silent : stale <> 0 -> stale < u64 (rn_now r - last_rx s) -> reason stale r s
  | Because_keepalive : u64 (last_ka s + PUMP_KEEPALIVE_MS) <= rn_now r -> ct_send (rn_ctrl r) <> inl IWAN_CTRL_LEN -> PUMP_KA_FAIL_MAX <= ka_fail s + 1 -> reason stale r s
  | Because_recv : rn_recv r = Rx_error -> reason stale r s
  | Because_poll : got r = [] -> rn_poll r = Po_error \/ (exists e i, rn_poll r = Po_ready true e i) \/ (rn_poll r = Po_ready false true false /\ PUMP_ERR_POLL_MAX < err_poll_n s + 1) -> reason stale r s
  | Because_dgram l1 g l2 s0 p0 s1 p1 w1 : got r = l1 ++ g :: l2 -> ka_res_fail s0 = ka_res_fail s -> down_dgrams c l1 s0 p0 = Ret (s1, p1, w1) -> kills s1 g -> reason stale r s.

Lemma keepalive_spec r s p : exists broke s' p', down_keepalive c r s p = Ret (broke, s', p') /\ last_rx s' = last_rx s /\ ka_res_fail s' = ka_res_fail s /\ err_poll_n s' = err_poll_n s /\
  (if broke then session_lost p' = true /\ g_stop p' = true /\ forall stale, reason stale r s else session_lost p' = session_lost p /\ g_stop p' = g_stop p).
Proof.
  unfold down_keepalive. destruct (rn_now r >=? _) eqn:E; [|by eexists _, _, _].
  destruct (ctrl_returns (rn_ctrl r) PT_ECHO_REQ (pc_enc c) (pc_sid c) (pc_tok c) p) as (p' & -> & Hst & Hls). cbn [rbind]. rewrite signed_len.
  destruct (match ct_send (rn_ctrl r) with inl x => x =? IWAN_CTRL_LEN | inr _ => false end) eqn:Es.
  - change (0 >=? PUMP_KA_FAIL_MAX) with false. by eexists _, _, _.
  - destruct (ka_fail s + 1 >=? PUMP_KA_FAIL_MAX) eqn:Ef; eexists _, _, _; (split; [reflexivity|]); split_and!; try done.
    + by destruct (lost_flags p').
    + by destruct (lost_flags p').
    + intros stale. apply Because_keepalive; [lia| |lia]. intros Ec. by rewrite Ec in Es.
Qed.

Lemma park_spec stale r s0 s p : got r = [] -> err_poll_n s0 = err_poll_n s -> last_rx (down_park r s0 p).1 = last_rx s0 /\
  (session_lost (down_park r s0 p).2 = true -> session_lost p = true \/ reason stale r s) /\ (g_stop p = true -> g_stop (down_park r s0 p).2 = true).
Proof.
  intros Hg He. unfold down_park. destruct (lost_flags p) as [F1 F2]. destruct (rn_poll r) as [| |nval err inp] eqn:Ep.
  - split; [done|]. split; [|done]. intros _. right. apply Because_poll; [done|by left].
  - split; [done|]. split; [by left|done].
  - destruct (nval || err) eqn:E1; [|split; [done|]; split; [by left|done]]. destruct nval.
    + split; [done|]. split; [|done]. intros _. right. apply Because_poll; [done|]. right. left. eauto.
    + destruct inp; cbn [negb]; [split; [done|]; split; [by left|done]|]. destruct err; [|done]. destruct (_ >? _) eqn:E2; [|split; [done|]; split; [by left|done]].
      split; [done|]. split; [|done]. intros _. right. apply Because_poll; [done|]. right. right. split; [done|]. lia.
Qed.

Definition round_ok (r : round) : Prop := Forall (fun g => bytes_ok (dg_data g)) (got r).

Lemma round_spec stale r s p : round_ok r ->
  exists s' p' w, down_round c stale r s p = Ret (s', p', w) /\
    (last_rx s' = last_rx s \/ exists g, g ∈ got r /\ genuine g /\ last_rx s' = dg_now g) /\
    w `sublist_of` omap brings (got r) /\
    (session_lost p' = true -> session_lost p = true \/ reason stale r s) /\
    (g_stop p = true -> g_stop p' = true) /\
    (g_stop p' = false -> Forall no_stop (got r) -> w = omap brings (got r)).
Proof.
  intros Hr. unfold down_round.
  (* turns that hand nothing to the device *)
  assert (forall s' p', last_rx s' = last_rx s -> (session_lost p' = true -> session_lost p = true \/ reason stale r s) -> (g_stop p = true -> g_stop p' = true) ->
    (g_stop p' = false -> omap brings (got r) = []) -> exists s'' p'' w, Ret (s', p', []) = Ret (s'', p'', w) /\ (last_rx s'' = last_rx s \/ exists g, g ∈ got r /\ genuine g /\ last_rx s'' = dg_now g) /\
    w `sublist_of` omap brings (got r) /\ (session_lost p'' = true -> session_lost p = true \/ reason stale r s) /\ (g_stop p = true -> g_stop p'' = true) /\
    (g_stop p'' = false -> Forall no_stop (got r) -> w = omap brings (got r))) as Hnone.
  { intros s' p' F1 F2 F3 F4. eexists _, _, _. split; [reflexivity|]. split_and!; [by left|apply sublist_nil_l|done|done|]. intros Hg _. symmetry. auto. }
  destruct (lost_flags p) as [L1 L2]. destruct (negb (stale =? 0) && _) eqn:Est.
  { apply Hnone; [done|intros _; right; apply Because_silent; lia|done|congruence]. }
  destruct (keepalive_spec r s p) as (broke & s1 & p1 & -> & Hrx & Hres & Herr & Hb). cbn [rbind]. destruct broke.
  { destruct Hb as (Hl & Hs & Hre). apply Hnone; [done|intros _; right; apply Hre|done|congruence]. }
  destruct Hb as [Hl Hs]. unfold round_ok in Hr. destruct (lost_flags p1) as [M1 M2]. destruct (rn_recv r) as [l| | | |] eqn:Er.
  - assert (got r = l) as Egot by (unfold got; by rewrite Er). destruct l as [|g l].
    + destruct (park_spec stale r s1 s p1 Egot Herr) as (P1 & P2 & P3). destruct (down_park r s1 p1) as [s2 p2]. cbn [fst snd] in *. apply Hnone; [congruence|rewrite <- Hl; exact P2|rewrite <- Hs; exact P3|by rewrite Egot].
    + rewrite Egot in *. set (s2 := mk_down (last_ka s1) (last_rx s1) (ka_fail s1) (ka_res_fail s1) 0).
      destruct (dgrams_spec (g :: l) s2 p1 Hr) as (s' & p' & w & -> & _ & Hrx' & Hw & Hlost & Hstop & Hall). eexists _, _, _. split; [reflexivity|]. split_and!; try done.
      * destruct Hrx' as [->|?]; [left; exact Hrx|by right].
      * rewrite <- Hl. intros Hls. destruct (Hlost Hls) as [?|(l1 & x & l2 & s3 & p3 & w3 & El & E3 & Hk)]; [by left|]. right. eapply (Because_dgram stale r s l1 x l2 s2 p1); [by rewrite Egot|done|done|done].
      * by rewrite <- Hs.
  - assert (got r = []) as Egot by (unfold got; by rewrite Er). destruct (park_spec stale r s1 s p1 Egot Herr) as (P1 & P2 & P3). destruct (down_park r s1 p1) as [s2 p2]. cbn [fst snd] in *.
    apply Hnone; [congruence|rewrite <- Hl; exact P2|rewrite <- Hs; exact P3|by rewrite Egot].
  - apply Hnone; [done|rewrite Hl; by left|by rewrite Hs|unfold got; by rewrite Er].
  - apply Hnone; [done|rewrite Hl; by left|by rewrite Hs|unfold got; by rewrite Er].
  - apply Hnone; [done|intros _; right; by apply Because_recv|done|unfold got; by rewrite Er].
Qed.

(** Nobody has stopped the pump without declaring the session lost. *)
Definition reported (p : Sock) : Prop := g_stop p = true -> session_lost p = true.

Lemma dgrams_reported l s p s' p' w : Forall (fun g => bytes_ok (dg_data g)) l -> reported p -> down_dgrams c l s p = Ret (s', p', w) -> reported p'.
Proof.
  intros Hl. revert s p w. induction Hl as [|g l Hg Hl IH]; intros s p w Hp E; cbn [down_dgrams] in E; [apply ret_inj in E; by injection E as <- <- <-|].
  destruct (dgram_spec g s p Hg) as (nx & s1 & p1 & E1 & [_ _ _ He4 He5 _]). rewrite E1 in E. cbn [rbind] in E.
  assert (reported p1) as Hp1 by (intros H1; apply He4; apply He5 in H1 as [H1|?]; [left; by apply Hp|by right]).
  destruct nx; [|apply ret_inj in E; by injection E as <- <- <-].
  destruct (down_dgrams c l s1 p1) as [[[s2 p2] w2]|] eqn:E2; [|done]. cbn [rbind] in E. apply ret_inj in E. injection E as <- <- <-. by eapply IH.
Qed.

Lemma round_reported stale r s p s' p' w : round_ok r -> reported p -> down_round c stale r s p = Ret (s', p', w) -> reported p'.
Proof.
  intros Hr Hp. unfold down_round. assert (forall q, reported (set_lost q)) as Hlost by (intros q _; apply lost_flags).
  destruct (negb (stale =? 0) && _); [intros E; apply ret_inj in E; by injection E as <- <- <-|].
  destruct (keepalive_spec r s p) as (broke & s1 & p1 & -> & _ & _ & _ & Hb). cbn [rbind].
  assert (reported p1) as Hp1 by (destruct broke; [intros _; apply Hb|destruct Hb as [H1 H2]; unfold reported; by rewrite H1, H2]).
  assert (reported (down_park r s1 p1).2) as Hpark by (unfold down_park; destruct (rn_poll r) as [| |nval err inp]; repeat case_match; (exact Hp1 || apply Hlost)).
  destruct broke; [intros E; apply ret_inj in E; by injection E as <- <- <-|]. unfold round_ok, got in Hr.
  destruct (rn_recv r) as [[|g l]| | | |]; try (by intros E; apply dgrams_reported in E);
    try (destruct (down_park r s1 p1)); intros E; apply ret_inj in E; by injection E as <- <- <-.
Qed.

(** The turn that ended the session, and the state it started in. *)
Definition ended (stale : Z) (rs : list round) (s : down) (p : Sock) : Prop :=
  exists rs1 r rs2 s1 p1 w1, rs = rs1 ++ r :: rs2 /\ udp2tun c stale rs1 s p = Ret (s1, p1, w1) /\ g_stop p1 = false /\ reason stale r s1.

Lemma arrived_cons r rs : arrived (r :: rs) = got r ++ arrived rs.
Proof. done. Qed.

(** The loop: what it hands on, why it declares the session lost, and what counts as a sign of life. *)
Lemma udp2tun_safe (stale : Z) (rs : list round) (s : down) (p : Sock) : Forall round_ok rs ->
  exists s' p' w, udp2tun c stale rs s p = Ret (s', p', w) /\
    w `sublist_of` omap brings (arrived rs) /\
    (g_stop p' = false -> Forall (fun r => rn_stop r = false /\ Forall no_stop (got r)) rs -> w = omap brings (arrived rs)) /\
    (session_lost p' = true -> session_lost p = true \/ ended stale rs s p) /\
    (last_rx s' = last_rx s \/ exists g, g ∈ arrived rs /\ genuine g /\ last_rx s' = dg_now g).
Proof.
  intros Hrs. revert s p. induction Hrs as [|r rs Hr Hrs IH]; intros s p.
  { eexists _, _, _. split; [done|]. split_and!; try done; by left. }
  cbn [udp2tun]. rewrite arrived_cons, omap_app. destruct (g_stop p || rn_stop r) eqn:Es.
  { eexists _, _, _. split; [done|]. split_and!; [apply sublist_nil_l| |by left|by left]. intros Hg Hn. apply Forall_cons in Hn as [[Hn _] _]. rewrite Hg, Hn in Es. done. }
  apply orb_false_iff in Es as [Eg Er]. destruct (round_spec stale r s p Hr) as (s1 & p1 & w1 & E1 & Hrx & Hw & Hlost & Hstop & Hall). rewrite E1. cbn [rbind].
  destruct (IH s1 p1) as (s' & p' & w & E & Hw' & Hall' & Hlost' & Hrx'). rewrite E. cbn [rbind]. eexists _, _, _. split; [done|]. split_and!.
  - by apply sublist_app.
  - intros Hg Hn. apply Forall_cons in Hn as [[_ Hn1] Hn2]. rewrite (Hall' Hg Hn2). f_equal. apply Hall; [|done].
    destruct (g_stop p1) eqn:Eg1; [|done]. exfalso. destruct rs as [|r2 rs]; cbn [udp2tun] in E; [|rewrite Eg1 in E; cbn in E]; apply ret_inj in E; injection E as <- <- <-; congruence.
  - intros Hls. destruct (Hlost' Hls) as [Hls1|(rs1 & x & rs2 & s2 & p2 & w2 & -> & E2 & Hg2 & Hre)].
    + destruct (Hlost Hls1) as [?|Hre]; [by left|]. right. by exists [], r, rs, s, p, [].
    + right. exists (r :: rs1), x, rs2, s2, p2, (w1 ++ w2). split_and!; try done. cbn [udp2tun]. rewrite Eg, Er. cbn [orb]. rewrite E1. cbn [rbind]. by rewrite E2.
  - destruct Hrx' as [Hx|(g & Hg & Hgg & Hx)]; [|right; exists g; split; [apply elem_of_app; by right|done]].
    rewrite Hx. destruct Hrx as [Hy|(g & Hg & Hgg & Hy)]; [by left|]. right. exists g. split; [apply elem_of_app; by left|done].
Qed.

(** C7: Whatever arrives on the session socket, in whatever order of turns, clocks, errors and failing sends, the downlink thread reads nothing outside a
    datagram.  What it hands to the device are, in order and at most once each, the packets that datagrams with the session's id
    and token bring: of the type the session's encryption asks for, decrypted, well formed, addressed to the session and not claiming to
    come from it; none is left out while the thread runs.  The session ends only for a reason: silence beyond the limit, keepalives or replies that
    cannot be sent three times in a row, a broken socket or device, no memory for its buffers, or a signed CLOSE with the session's id and token.  Only datagrams with that id and token
    count as a sign of life. *)
Theorem downlink_safe (mem : bool) (stale : Z) (rs : list round) (s : down) (p : Sock) : Forall round_ok rs ->
  exists s' p' w, udp2tun_thread c mem stale rs s p = Ret (s', p', w) /\
    w `sublist_of` omap brings (arrived rs) /\
    (mem = true -> g_stop p' = false -> Forall (fun r => rn_stop r = false /\ Forall no_stop (got r)) rs -> w = omap brings (arrived rs)) /\
    (session_lost p' = true -> session_lost p = true \/ mem = false \/ ended stale rs s p) /\
    (last_rx s' = last_rx s \/ exists g, g ∈ arrived rs /\ genuine g /\ last_rx s' = dg_now g).
Proof.
  intros Hrs. unfold udp2tun_thread. destruct mem.
  - destruct (udp2tun_safe stale rs s p Hrs) as (s' & p' & w & E & Hw & Hall & Hlost & Hrx). exists s', p', w.
    split_and!; try done. intros [?|?]%Hlost; auto.
  - eexists _, _, _. split; [reflexivity|]. split_and!; [apply sublist_nil_l|done|by right; left|by left].
Qed.

Lemma nothing_brought l : (forall g, g ∈ l -> ~ genuine g) -> omap brings l = [].
Proof.
  induction l as [|g l IH]; intros Hl; [done|]. assert (brings g = None) as Hb by (unfold brings; rewrite decide_False; [done|]; apply Hl; constructor).
  cbn. rewrite Hb. apply IH. intros x Hx. apply Hl. by constructor.
Qed.

Lemma udp2tun_silence (stale : Z) (rs1 rs2 : list round) (r : round) (s : down) (p : Sock) :
  Forall round_ok (rs1 ++ r :: rs2) -> (forall g, g ∈ arrived (rs1 ++ r :: rs2) -> ~ genuine g) -> Forall (fun x => rn_stop x = false) (rs1 ++ [r]) ->
  reported p -> stale <> 0 -> stale < u64 (rn_now r - last_rx s) ->
  exists s' p', udp2tun c stale (rs1 ++ r :: rs2) s p = Ret (s', p', []) /\ g_stop p' = true /\ session_lost p' = true.
Proof.
  revert s p. induction rs1 as [|x rs1 IH]; intros s p Hok Hgen Hst Hp Hz Hlate; cbn [app udp2tun] in *.
  - apply Forall_cons in Hst as [-> _]. rewrite orb_false_r. destruct (g_stop p) eqn:Eg; [specialize (Hp Eg); by eexists _, _|]. unfold down_round.
    destruct (negb (stale =? 0) && _) eqn:E; [|lia]. cbn [rbind]. destruct (lost_flags p) as [F1 F]. destruct rs2 as [|y rs2]; cbn [udp2tun]; [by eexists _, _|]. rewrite F. cbn [orb rbind]. by eexists _, _.
  - apply Forall_cons in Hst as [-> Hst]. rewrite orb_false_r. destruct (g_stop p) eqn:Eg; [specialize (Hp Eg); by eexists _, _|]. apply Forall_cons in Hok as [Hx Hok].
    destruct (round_spec stale x s p Hx) as (s1 & p1 & w1 & E1 & Hrx & Hw & _). pose proof (round_reported _ _ _ _ _ _ _ Hx Hp E1) as Hp1. rewrite E1. cbn [rbind]. rewrite arrived_cons in Hgen.
    assert (forall g, g ∈ got x -> ~ genuine g) as Hgx by (intros g Hg; apply Hgen, elem_of_app; by left).
    assert (w1 = []) as ->.
    { rewrite (nothing_brought _ Hgx) in Hw. by apply sublist_nil_r in Hw. }
    assert (last_rx s1 = last_rx s) as Hs1 by (destruct Hrx as [?|(g & Hg & Hgg & _)]; [done|exfalso; by apply (Hgx g)]).
    destruct (IH s1 p1) as (s' & p' & -> & Hg'); [done| |done|done|done|by rewrite Hs1|].
    + intros g Hg. apply Hgen, elem_of_app. by right.
    + cbn [rbind]. by eexists _, _.
Qed.

(** C26: A silent session is given up.  When no datagram of the session arrives, a turn later than the limit after the last sign of
    life finds the thread stopped and the session declared lost, however much other traffic reaches the socket. *)
Theorem silence_ends_session (mem : bool) (stale : Z) (rs1 rs2 : list round) (r : round) (s : down) (p : Sock) :
  Forall round_ok (rs1 ++ r :: rs2) -> (forall g, g ∈ arrived (rs1 ++ r :: rs2) -> ~ genuine g) -> Forall (fun x => rn_stop x = false) (rs1 ++ [r]) ->
  reported p -> stale <> 0 -> stale < u64 (rn_now r - last_rx s) ->
  exists s' p', udp2tun_thread c mem stale (rs1 ++ r :: rs2) s p = Ret (s', p', []) /\ g_stop p' = true /\ session_lost p' = true.
Proof.
  intros. unfold udp2tun_thread. destruct mem; [by apply udp2tun_silence|]. eexists _, _. split; [reflexivity|]. destruct (lost_flags p). done.
Qed.

End Down.

(** ** Both ends of a tunnel *)

(** The client runs the session [s] of the server. *)
Definition same_session (s : server_session) (c : pump_ctx) : Prop :=
  sid s = pc_sid c /\ token s = pc_tok c /\ xor_key s = pc_key c /\ enc s = pc_enc c /\ ip4_u32 (ip s) = pc_ip c.

Section Tunnel.
Context `{OpenSSLLaws} `{UdpLaws} (c : pump_ctx).

Lemma live_ctx ctx i s : ctx_ok ctx -> live ctx i s -> same_session s c -> ctx_wf c /\ 0 <= pc_sid c < 65536 /\ 0 < pc_tok c < 2 ^ 32 /\ (pc_enc c = 0 \/ pc_enc c = 1).
Proof.
  intros Hok Hl (E1 & E2 & E3 & E4 & _). pose proof (ok_live ctx Hok i s Hl) as Hlo. destruct (lo_key _ _ Hlo). pose proof (lo_token _ _ Hlo).
  pose proof (lo_enc _ _ Hlo). assert (0 <= sid s < 65536) by (rewrite (lo_sid _ _ Hlo); apply u16_range). unfold ctx_wf. rewrite <- E1, <- E2, <- E3, <- E4. done.
Qed.

Lemma frame_fields q : ctx_wf c -> 0 <= pc_sid c < 65536 -> 0 < pc_tok c < 2 ^ 32 -> (pc_enc c = 0 \/ pc_enc c = 1) -> bytes_ok q ->
  let f := frame_of c q in
  bytes_ok f /\ zlen f = 8 + zlen q /\ f.[0] = (if pc_enc c =? 0 then PT_DATA else PT_DATA_ENC) /\ hdr_sid f = pc_sid c /\ hdr_tok f = pc_tok c /\ drop 8 f = xor_crypt q (pc_key c).
Proof.
  intros [Hk Hkl] Hs Ht He Hq f. unfold f, frame_of, data_hdr.
  match goal with |- context [pkt_hdr ?t ?e ?sd ?tk ++ ?r] => destruct (pkt_hdr_fields t e sd tk r) as (F1 & _ & F3 & F4) end;
    [by destruct (_ =? 0)|by destruct He as [-> | ->]|done|lia|].
  split_and!; try done; [apply bytes_ok_app; split; [apply pkt_hdr_ok|by apply xor_crypt_ok]|].
  rewrite zlen_app, xor_crypt_len by done. done.
Qed.

Lemma ula_of q : 40 <= zlen q -> q.[24] = IWAN_IP6_ULA_BYTE0 -> forallb (fun b => b =? 0) (slice q 25 11) = true -> forall a, bytes_ok a -> zlen a = 4 -> slice q 36 4 = a ->
  slice q 24 16 = ip6_derive_ula (ip4_u32 a).
Proof.
  intros Hl E1 E2 a Ha Hla <-. rewrite forallb_zero in E2 by (apply zlen_slice; lia). unfold ip6_derive_ula. rewrite u32_ip4_ip4 by done. rewrite <- E1.
  assert (slice q 24 16 = slice q 24 1 ++ slice q 25 11 ++ slice q 36 4) as ->.
  { unfold slice. change (Z.to_nat 16) with (1 + (11 + 4))%nat. rewrite <- !take_take_drop. rewrite !drop_drop. done. }
  rewrite E2. assert (slice q 24 1 = [q.[24]]) as ->; [|done]. apply at_ext; [rewrite zlen_slice by lia; done|].
  intros i Hi. rewrite zlen_slice in Hi by lia. rewrite at_slice by lia. replace i with 0 by lia. done.
Qed.

(** A packet that claims to come from this session. *)
Definition own_source (q : bytes) : Prop :=
  if q.[0] / 16 =? 6 then slice q 8 16 = ip6_derive_ula (pc_ip c) else be32 q.[12] q.[13] q.[14] q.[15] = pc_ip c.

Lemma addressed_deliverable s q : bytes_ok (ip s) -> zlen (ip s) = 4 -> ip4_u32 (ip s) = pc_ip c -> inner_dst q = Some (ip s) -> ~ own_source q -> deliverable c q.
Proof.
  intros Hib Hil Hip Hd Ho. unfold inner_dst, own_source, deliverable in *. rewrite <- Hip in *. destruct (q.[0] / 16 =? 6).
  - destruct (bool_decide (ip6_valid q) && _ && _) eqn:E; [|done]. rewrite !andb_true_iff, bool_decide_eq_true in E. destruct E as [[Hv E1] E2]. injection Hd as Hd.
    split_and!; [done| |done]. apply ula_of; [by destruct Hv|lia|done..].
  - destruct (bool_decide (ipv4_valid q)) eqn:E; [|done]. apply bool_decide_eq_true in E. injection Hd as Hd. split_and!; [done| |done].
    rewrite <- Hd. destruct E as [Hl _]. by rewrite slice_ip4 by lia.
Qed.

(** What one packet needs to get on its way: nothing stops, refuses or stalls its reader. *)
Definition pump_calm (pio : pkt_io) (sk : Sock) : Prop :=
  g_stop sk = false /\ pk_stop pio = false /\ pk_malloc pio <> None /\ forall fs, undisturbed (pk_send pio fs) = true.

(** The pump takes a packet: behind what has left and what its batch holds comes the frame of the packet, and nothing else. *)
Lemma pump_takes pio q tx sk : ctx_wf c -> bytes_ok q -> fits q = true -> tx_ok c tx -> io_ok pio -> sock_ok sk -> pump_calm pio sk ->
  exists tx' sk', pump_tun_pkt c pio q false tx sk = Ret (tx', sk') /\
    (steady sk' -> wire (kernel sk') ++ frames tx' = wire (kernel sk) ++ frames tx ++ [frame_of c q]).
Proof.
  intros Hc Hq Hf Htx Hio Hsk (Hg & Hst & Hml & Hu).
  destruct (pkt_spec c pio q false tx sk Hc Hq Htx Hio) as (tx' & sk' & b & taken & out & E & _ & Hs & Hfr & _ & _ & Hcalm).
  destruct (Hcalm Hg Hu Hst Hml) as [-> ->]. rewrite Hf in Hfr. exists tx', sk'. split; [done|]. intros Hh.
  destruct (sends_wire _ _ _ _ Hs Hh Hsk) as (_ & ds & -> & _ & Ha). rewrite Ha by done. cbn [negb andb] in Hfr. by rewrite Hfr, app_assoc.
Qed.

(** C6: The tunnel is transparent.  The client pumps for a live, encrypted session of the server, from its bound address.  Uplink: a packet of 1 to 2048
    bytes that may enter the network, read while nothing stops or stalls its reader, becomes one frame behind the earlier ones; and that frame,
    when the server gets it while the session is not throttled and the device takes the write, makes the server write to its device exactly that
    packet.  Downlink, encrypted or not: a packet of 20 to 2048 bytes for the session's address that does not claim to come from it leaves the server as one
    datagram to the session's peer, which fits a receive slot of the client and makes the client hand exactly that packet to its device. *)
Theorem tunnel_transparent (v : server) (users : list server_user) (p : sockaddr_in) (io : udp_io) (i : nat) (s : server_session) :
  ctx_ok (srv_ctx v) -> live (srv_ctx v) i s -> same_session s c -> peer s = p ->
  (forall q pio tx sk, enc s = 1 -> bytes_ok q -> fits q = true -> may_enter (srv_ctx v) (pc_ip c) q ->
     tx_ok c tx -> io_ok pio -> sock_ok sk -> pump_calm pio sk ->
     0 <= tun_fd (srv_ctx v) -> throttle_until_ms s <= now io -> tun_written (srv_ctx v) io = true ->
     exists d tx' sk', pump_tun_pkt c pio q false tx sk = Ret (tx', sk') /\
       (steady sk' -> wire (kernel sk') ++ frames tx' = wire (kernel sk) ++ frames tx ++ [d]) /\
       handle_udp v users d p io = Ret (with_ctx v (set_sess (srv_ctx v) i (set_last_active s (now_seen io))), [TunWrite q])) /\
  (forall q, bytes_ok q -> 20 <= zlen q <= PUMP_SLOT -> inner_dst q = Some (ip s) -> ~ own_source q ->
     exists d counted, handle_tun_downlink (srv_ctx v) q = Ret (Some (p, d), counted) /\ zlen d <= slot /\
       forall g st sk, dg_data g = d -> dg_trunc g = false ->
         exists nx st' sk', down_dgram c g st sk = Ret (nx, st', sk', [q])).
Proof.
  intros Hok Hl Hs Hp. destruct (live_ctx _ _ _ Hok Hl Hs) as (Hwf & Hsid & Htok & Henc). pose proof Hs as (E1 & E2 & E3 & E4 & E5). pose proof (ok_live _ Hok i s Hl) as Hlo. split.
  - intros q pio tx sk He Hq Hf Hm Htx Hio Hsk Hcalm Htun Hth Hw. destruct (pump_takes pio q tx sk Hwf Hq Hf Htx Hio Hsk Hcalm) as (tx' & sk' & E & Hwire).
    exists (frame_of c q), tx', sk'. split; [done|]. split; [done|]. destruct (frame_fields q Hwf Hsid Htok Henc Hq) as (F1 & F2 & F3 & F4 & F5 & F6). unfold fits, PUMP_SLOT in Hf.
    pose proof (peer_delivers v users (frame_of c q) p io i s Hok F1 ltac:(lia) Hl) as Hd. cbv zeta in Hd. rewrite E4, E5, E3, F6 in Hd. rewrite He in E4.
    rewrite <- E4 in *. cbn [Z.eqb Pos.eqb] in *. destruct Hwf as [Hk _]. rewrite xor_crypt_invol in Hd by done. rewrite F3, F4, F5 in Hd. by apply Hd.
  - intros q Hq Hlen Hd Ho. destruct (downlink_owner (srv_ctx v) q Hok Hq) as (r & counted & E & Hne & Hsent). unfold PUMP_SLOT in Hlen.
    destruct r as [[to d]|]; [|exfalso; by apply (Hne i s Hl ltac:(lia) Hd)]. destruct (Hsent to d eq_refl) as (Hbd & j & t & Ht & Hdt & -> & D0 & D1 & D2 & D3 & D4).
    assert (ip t = ip s) as Eip by congruence. pose proof (same_ip_same_slot _ j i t s Hok Ht Hl Eip) as ->. pose proof (live_det _ _ _ _ Ht Hl) as ->. clear Eip Ht Hdt.
    assert (content c d = q) as Hcont by (unfold content; by rewrite <- E4, <- E3).
    assert (zlen (drop 8 d) = zlen q) as Hdl.
    { destruct (lo_key _ _ Hlo) as [Hk _]. destruct (enc s =? 0); [by rewrite <- D3|]. rewrite <- D3, xor_crypt_len; [done|bok|done]. }
    rewrite zlen_drop in Hdl. exists d, counted. rewrite E, Hp. split; [done|]. split; [unfold slot, PUMP_SLOT; lia|]. intros g st sk Hg Htr.
    assert (genuine c g) as Hgen by (unfold genuine; rewrite Hg; split_and!; [done|lia|congruence|congruence]).
    assert (brings c g = Some q) as Hbr.
    { rewrite brings_data; [|done|rewrite Hg; unfold data_type; by rewrite <- E4]. rewrite Hg, Hcont. rewrite decide_True; [done|].
      destruct (lo_ip _ _ Hlo) as [Hib Hil]. by eapply addressed_deliverable. }
    destruct (dgram_spec c Hwf g st sk) as (nx & st' & sk' & Ed & _); [by rewrite Hg|]. rewrite Hbr in Ed. by exists nx, st', sk'.
Qed.

(** ** A session without encryption *)

Lemma xor_first q k : bytes_ok q -> bytes_ok k -> 0 < zlen q -> 0 < zlen k -> (xor_crypt q k).[0] = Z.lxor q.[0] k.[0].
Proof.
  intros Hq Hk Hl Hkl. rewrite xor_crypt_ref by done. unfold xor_ref. destruct q as [|x q]; [done|].
  rewrite imap_cons. change (Z.of_nat 0 mod zlen k) with (0 mod zlen k). rewrite Zmod_0_l. done.
Qed.

Lemma lxor_nibble a b : 0 <= a -> 0 <= b -> Z.lxor a b / 16 = Z.lxor (a / 16) (b / 16).
Proof. intros. change 16 with (2 ^ 4). rewrite <- !Z.shiftr_div_pow2 by lia. apply Z.shiftr_lxor. Qed.

(** C37: In a session without encryption the pump still applies the key: it marks its frames as plain data, but the payload is not the
    packet.  The server takes the payload as it is: it writes the enciphered bytes to its device if they happen to pass its gate for packets, and
    drops them otherwise.  No IPv4 or IPv6 packet passes unless the first four bits of the key are 0 or 2. *)
Theorem plain_session_garbled (v : server) (users : list server_user) (p : sockaddr_in) (io : udp_io) (i : nat) (s : server_session)
    (q : bytes) (pio : pkt_io) (tx : pump_tx) (sk : Sock) :
  let x := xor_crypt q (pc_key c) in
  ctx_ok (srv_ctx v) -> live (srv_ctx v) i s -> same_session s c -> peer s = p -> enc s = 0 ->
  0 <= tun_fd (srv_ctx v) -> throttle_until_ms s <= now io -> tun_written (srv_ctx v) io = true ->
  bytes_ok q -> fits q = true -> tx_ok c tx -> io_ok pio -> sock_ok sk -> pump_calm pio sk ->
  exists d tx' sk', pump_tun_pkt c pio q false tx sk = Ret (tx', sk') /\
    (steady sk' -> wire (kernel sk') ++ frames tx' = wire (kernel sk) ++ frames tx ++ [d]) /\
    let c' := set_sess (srv_ctx v) i (set_last_active s (now_seen io)) in
    (may_enter (srv_ctx v) (pc_ip c) x -> handle_udp v users d p io = Ret (with_ctx v c', [TunWrite x])) /\
    (~ may_enter (srv_ctx v) (pc_ip c) x -> handle_udp v users d p io = Ret (h1_inc (with_ctx v c'), [])) /\
    (q.[0] / 16 = 4 \/ q.[0] / 16 = 6 -> (pc_key c).[0] / 16 <> 0 -> (pc_key c).[0] / 16 <> 2 -> ~ may_enter (srv_ctx v) (pc_ip c) x).
Proof.
  intros x Hok Hl Hs Hp He Htun Hth Hw Hq Hf Htx Hio Hsk Hcalm. destruct (live_ctx _ _ _ Hok Hl Hs) as (Hwf & Hsid & Htok & Henc). pose proof Hs as (E1 & E2 & E3 & E4 & E5).
  destruct (pump_takes pio q tx sk Hwf Hq Hf Htx Hio Hsk Hcalm) as (tx' & sk' & E & Hwire). exists (frame_of c q), tx', sk'. split; [done|]. split; [done|]. cbv zeta. unfold fits, PUMP_SLOT in Hf.
  destruct (frame_fields q Hwf Hsid Htok Henc Hq) as (F1 & F2 & F3 & F4 & F5 & F6).
  assert ((frame_of c q).[0] = (if enc s =? 0 then PT_DATA else PT_DATA_ENC)) as Hty by (rewrite F3, E4; done). split; [|split].
  - intros Hm. pose proof (peer_delivers v users (frame_of c q) p io i s Hok F1 ltac:(lia) Hl) as Hd. cbv zeta in Hd. rewrite He, F6, E5 in Hd.
    rewrite He in Hty. apply Hd; try done; congruence.
  - intros Hm. destruct (peer_data v users (frame_of c q) p io i s Hok F1 ltac:(lia) Hl) as (-> & Hb & Hz); [congruence|congruence|done|done|done|].
    rewrite He in Hb, Hz |- *. cbn [Z.eqb] in *. rewrite F6 in *. fold x in Hb, Hz |- *. set (c' := set_sess _ _ _).
    destruct (h1_gate_spec c' (ip4_u32 (ip s)) x Hb Hz) as (b & -> & Hg). cbn [rbind]. destruct b; [|done]. exfalso. apply Hm.
    rewrite <- E5. apply (may_enter_cfg c'); [apply same_cfg_sym, same_cfg_set_sess|by apply Hg].
  - intros Hv H0k H2k Hm. destruct Hwf as [Hk Hkl]. assert (is_byte (pc_key c).[0] /\ is_byte q.[0]) as [Hk0 Hq0] by (split; by apply at_byte). unfold is_byte in *.
    assert (x.[0] / 16 = Z.lxor (q.[0] / 16) ((pc_key c).[0] / 16)) as Hx by (unfold x; rewrite xor_first, lxor_nibble by (done || lia); done).
    set (n := (pc_key c).[0] / 16) in *. set (w := q.[0] / 16) in *. assert (Z.lxor w (Z.lxor w n) = n) as Hn by (rewrite <- Z.lxor_assoc, Z.lxor_nilpotent; apply Z.lxor_0_l).
    assert (x.[0] / 16 = 6 \/ x.[0] / 16 = 4) as Hx46 by (unfold may_enter in Hm; destruct (x.[0] / 16 =? 6) eqn:E6; [left; lia|right; apply Hm]).
    rewrite Hx in Hx46. clearbody n w. destruct Hv as [Hv|Hv], Hx46 as [Hn6|Hn6]; rewrite Hn6, Hv in Hn; vm_compute in Hn; congruence.
Qed.

End Tunnel.

(** ** Examples *)

Module PumpDemo.

Import SendDemo.

(** The client of the sample session, and a plain one. *)
Definition ctx : pump_ctx := {| pc_key := [1; 2; 3; 4; 5; 6; 7; 8]; pc_sid := 2; pc_tok := 305419896; pc_ip := 3323068418; pc_enc := 1 |}.

Lemma ctx_is_wf : ctx_wf ctx.
Proof. split; [by apply (bool_decide_unpack _); vm_compute|done]. Qed.

Lemma sample_session : same_session Sample.s1 ctx.
Proof. by vm_compute. Qed.

Definition total (fs : list bytes) : Z := zlen (concat fs).
(** A system that sends each batch at once. *)
Definition smooth (fs : list bytes) : send_io := io (replicate 32 (took (Z.max 1 (total fs)))) (replicate 32 (took (Z.max 1 (zlen fs)))).
Definition pio (now : Z) : pkt_io := {| pk_malloc := Some (fill 0 65792); pk_t0 := 0; pk_stop := false; pk_now := now; pk_send := smooth |}.

Lemma filter_took (P : tick -> bool) n k : P (took n) = true -> List.filter P (replicate k (took n)) = replicate k (took n).
Proof. intros HP. induction k as [|k IH]; [done|]. cbn [replicate List.filter]. by rewrite HP, IH. Qed.

Lemma forallb_took (P : tick -> bool) n k : P (took n) = true -> forallb P (replicate k (took n)) = true.
Proof. intros HP. induction k as [|k IH]; [done|]. cbn [replicate forallb]. by rewrite HP, IH. Qed.

Lemma pio_ok now : io_ok (pio now).
Proof.
  split; [intros b Hb; cbn [pio pk_malloc] in Hb; apply (inj Some) in Hb; subst b; rewrite zlen_fill by lia; reflexivity|]. intros fs Hne Hl.
  unfold enough, calm_units, calms. cbn [smooth pio pk_send si_gso si_batch io ps_ticks ps_t0].
  rewrite !filter_took by (unfold calm_unit, calm; cbn; lia). rewrite !length_replicate. done.
Qed.

Lemma pio_calm now : pump_calm (pio now) sock.
Proof.
  split_and!; try done. intros fs. unfold undisturbed. cbn [smooth pio pk_send si_gso si_batch io ps_ticks ps_t0].
  rewrite !forallb_took by (unfold quiet; cbn; lia). done.
Qed.

(** Two packets at reader 0, one at reader 1, a keepalive between, then the ends of both bursts. *)
Definition evs : list pump_event :=
  [E_packet 0 (pio 1) [69; 1] false; E_packet 1 (pio 1) [69; 2; 3] false; E_control {| ct_clear := true; ct_send := inl 24; ct_arm := true |} PT_ECHO_REQ;
   E_packet 0 (pio 2) [69; 4] false; E_packet 0 (pio 3) [] true; E_packet 1 (pio 3) [] true].

Lemma uplink_conserved_witness : exists qs' p', pump_run (H1 := Toy.toy_openssl) ctx evs [tx_empty; tx_empty] sock = Ret (qs', p') /\ Forall (tx_ok ctx) qs'.
Proof.
  destruct (uplink_conserved (H1 := Toy.toy_openssl) ctx evs [tx_empty; tx_empty] sock ctx_is_wf) as (qs' & p' & l & acc & E & _ & Hq & _).
  - by repeat constructor.
  - unfold evs. repeat (apply Forall_cons; split; [first [exact I|split; [cbn; lia|split; [by apply (bool_decide_unpack _); vm_compute|apply pio_ok]]]|]). constructor.
  - done.
  - exists qs', p'. split; [exact E|exact Hq].
Defined.

(** A turn in which a forged CLOSE, a packet and a signed CLOSE arrive. *)
Definition arrives (d : bytes) : dgram := {| dg_data := d; dg_trunc := false; dg_now := 6000; dg_ctrl := {| ct_clear := true; ct_send := inl 24; ct_arm := true |}; dg_write := T_written |}.
Definition server_frame (q : bytes) : bytes := pkt_hdr PT_DATA_ENC 1 2 305419896 ++ xor_crypt q [1; 2; 3; 4; 5; 6; 7; 8].
Definition close_frame (tok : Z) : bytes := signed_frame (H := Toy.toy_openssl) PT_CLOSE 1 2 tok.
Definition turn (t : Z) (l : list dgram) : round :=
  {| rn_stop := false; rn_now := t; rn_ctrl := {| ct_clear := true; ct_send := inl 24; ct_arm := true |}; rn_ka_now := t; rn_recv := Rx_got l; rn_poll_now := t; rn_poll := Po_none |}.
Definition turns : list round := [turn 5000 [arrives (close_frame 7); arrives (server_frame Sample.pkt)]; turn 5500 []; turn 6000 [arrives (close_frame 305419896); arrives (server_frame Sample.pkt)]].

Lemma close_ok tok : bytes_ok (close_frame tok).
Proof. apply bytes_ok_app. split; [apply pkt_hdr_ok|apply (md5_bytes (H0 := Toy.toy_laws))]. Qed.

Lemma server_frame_ok : bytes_ok (server_frame Sample.pkt).
Proof. by apply (bool_decide_unpack _); vm_compute. Qed.

Lemma two_ok d e : bytes_ok d -> bytes_ok e -> Forall (fun g => bytes_ok (dg_data g)) [arrives d; arrives e].
Proof. intros. constructor; [done|]. constructor; [done|constructor]. Qed.

Lemma turns_ok : Forall round_ok turns.
Proof.
  constructor; [apply two_ok; [apply close_ok|apply server_frame_ok]|]. constructor; [constructor|]. constructor; [|constructor]. apply two_ok; [apply close_ok|apply server_frame_ok].
Qed.

Definition run : res (down * Sock * list bytes) := udp2tun_thread (H := Toy.toy_openssl) ctx true 120000 turns (down_init 5000 5000 5000) sock.

Lemma run_outcome : match run with Ret (_, p, w) => Some (session_lost p, w) | Fault _ => None end = Some (true, [Sample.pkt]).
Proof. vm_compute. reflexivity. Qed.

Lemma downlink_safe_witness : exists s' p', run = Ret (s', p', [Sample.pkt]) /\ session_lost p' = true.
Proof.
  destruct (downlink_safe (H0 := Toy.toy_laws) ctx ctx_is_wf true 120000 turns (down_init 5000 5000 5000) sock turns_ok) as (s' & p' & w & E & _). fold run in E.
  pose proof run_outcome as Ho. rewrite E in Ho |- *. injection Ho as Hl ->. exists s', p'. split; [reflexivity|exact Hl].
Defined.

Lemma silence_ends_session_witness :
  exists s' p', udp2tun_thread (H := Toy.toy_openssl) ctx true 120000 [turn 5000 [arrives (close_frame 7)]; turn 130000 []] (down_init 5000 5000 5000) sock = Ret (s', p', []) /\ g_stop p' = true /\ session_lost p' = true.
Proof.
  apply (silence_ends_session (H0 := Toy.toy_laws) ctx ctx_is_wf true 120000 [turn 5000 [arrives (close_frame 7)]] [] (turn 130000 [])).
  - constructor; [constructor; [apply close_ok|constructor]|]. constructor; [constructor|constructor].
  - intros g Hg. apply list_elem_of_singleton in Hg as ->. apply (bool_decide_unpack _). vm_compute. exact I.
  - by repeat constructor.
  - discriminate.
  - done.
  - by vm_compute.
Defined.

Lemma tunnel_transparent_witness :
  (exists d tx' sk', pump_tun_pkt ctx (pio 1) UpDemo.inner false tx_empty sock = Ret (tx', sk') /\
     handle_udp UpDemo.srv Demo.users d UpDemo.alice (UpDemo.io_at 5000) =
       Ret (with_ctx UpDemo.srv (set_sess (srv_ctx UpDemo.srv) 0 (set_last_active Sample.s1 (now_seen (UpDemo.io_at 5000)))), [TunWrite UpDemo.inner])) /\
  exists d counted nx st' sk', handle_tun_downlink Sample.c1 Sample.pkt = Ret (Some (UpDemo.alice, d), counted) /\
    down_dgram ctx (arrives d) (down_init 5000 5000 5000) sock = Ret (nx, st', sk', [Sample.pkt]).
Proof.
  destruct (tunnel_transparent (H2 := udp_laws) ctx UpDemo.srv Demo.users UpDemo.alice (UpDemo.io_at 5000) 0 Sample.s1 Sample.c1_ok Sample.s1_live sample_session eq_refl) as [Hup Hdown]. split.
  - destruct (Hup UpDemo.inner (pio 1) tx_empty sock) as (d & tx' & sk' & E & _ & Hd);
      [done|by apply (bool_decide_unpack _); vm_compute|done|exact UpDemo.inner_enters|done|apply pio_ok|done|apply pio_calm|by vm_compute|by vm_compute|by vm_compute|].
    exists d, tx', sk'. split; [exact E|exact Hd].
  - destruct (Hdown Sample.pkt) as (d & k & E & _ & Hb); [exact Sample.pkt_ok|by vm_compute|by vm_compute|by vm_compute|].
    destruct (Hb (arrives d) (down_init 5000 5000 5000) sock eq_refl eq_refl) as (nx & st' & sk' & Ed). exists d, k, nx, st', sk'. split; [exact E|exact Ed].
Defined.

(** The same session without encryption, under a key that begins with 16. *)
Definition plain_sess : server_session := mk_sess true 2 305419896 (mk_addr 16777226 4000) [198; 18; 0; 2] [16; 2; 3; 4; 5; 6; 7; 8] 0 1000 0 0 0 0 (lit "alice").
Definition plain_c : server_ctx := install Sample.c0 0 plain_sess.
Definition plain_srv : server := mk_server plain_c (server_rate_limits_init (fun _ => None)) [] 0 0 0.
Definition plain_ctx : pump_ctx := {| pc_key := [16; 2; 3; 4; 5; 6; 7; 8]; pc_sid := 2; pc_tok := 305419896; pc_ip := 3323068418; pc_enc := 0 |}.

Lemma plain_c_ok : ctx_ok plain_c.
Proof.
  apply ctx_ok_install; [exact Sample.c0_ok|lia|vm_compute; reflexivity|reflexivity| |by intros j t Ht%Sample.c0_empty].
  split; try (vm_compute; intuition discriminate); try (by left); (split; [by apply (bool_decide_unpack _); vm_compute|vm_compute; (reflexivity || discriminate)]).
Qed.

Lemma plain_session_garbled_witness :
  exists d tx' sk', pump_tun_pkt plain_ctx (pio 1) UpDemo.inner false tx_empty sock = Ret (tx', sk') /\
    handle_udp plain_srv Demo.users d UpDemo.alice (UpDemo.io_at 5000) =
      Ret (h1_inc (with_ctx plain_srv (set_sess plain_c 0 (set_last_active plain_sess (now_seen (UpDemo.io_at 5000))))), []).
Proof.
  destruct (plain_session_garbled (H2 := udp_laws) plain_ctx plain_srv Demo.users UpDemo.alice (UpDemo.io_at 5000) 0 plain_sess UpDemo.inner (pio 1) tx_empty sock plain_c_ok)
    as (d & tx' & sk' & E & _ & _ & Hd & Hno);
    [split; vm_compute; reflexivity|by vm_compute|done|done|by vm_compute|by vm_compute|by vm_compute|by apply (bool_decide_unpack _); vm_compute|done|done|apply pio_ok|done|apply pio_calm|].
  exists d, tx', sk'. split; [exact E|]. apply Hd, Hno; [by left; vm_compute|by vm_compute|by vm_compute].
Defined.

End PumpDemo.
