(* ===== verification/ProtoParse.v ===== *)
(** * SOCKS5 and HTTP proxy handshakes (src/src/common/proto_parse.c)

    The pure parsers shared by the two proxies.  [inet_pton] of the C library is the
    class [Inet]. *)

From S2P Require Import Prelude Util Crypto Protocol.

(** The two address families of [inet_pton]; [None] is any result but 1. *)
Class Inet := {
  inet_pton4 : bytes -> option bytes;
  inet_pton6 : bytes -> option bytes
}.

Record pp_target := mk_target { tg_af : Z; tg_ip4 : bytes; tg_ip6 : bytes; tg_host : bytes; tg_port : Z }.

Definition target0 : pp_target := mk_target 0 (fill 0 4) (fill 0 16) [] 0.

(** ** HTTP method probe *)

Definition methods : list bytes :=
  [lit "CONNECT"; lit "GET"; lit "POST"; lit "HEAD"; lit "PUT"; lit "DELETE"; lit "OPTIONS"; lit "TRACE"; lit "PATCH"].

(** The verdict of the first method that [d] starts with. *)
Fixpoint method_loop (ms : list bytes) (d : bytes) : res (option Z) :=
  match ms with
  | [] => Ret None
  | m :: ms =>
      let n := zlen d in
      let! hit := if n >=? zlen m then let! x := rdn d 0 (zlen m) in Ret (beq x m) else Ret false in
      if hit then
        let! sp := if n >? zlen m then let! c := rd d (zlen m) in Ret (c =? 32) else Ret false in
        Ret (Some (if sp then 1 else if n =? zlen m then -1 else 0))
      else method_loop ms d
  end.

Definition pp_http_probe (d : bytes) : res Z :=
  let n := zlen d in
  if n =? 0 then Ret (-1)
  else
    let! r := method_loop methods d in
    match r with
    | Some v => Ret v
    | None =>
        let! c := rd d 0 in
        Ret (if ((c =? 67) && (n <? 7)) || ((c =? 79) && (n <? 7)) || ((c =? 68) && (n <? 6)) ||
                ((c =? 71) && (n <? 3)) || ((c =? 72) && (n <? 4)) || (((c =? 80) || (c =? 84)) && (n <? 5))
             then -1 else 0)
    end.

(** ** HTTP request target *)

Fixpoint port_acc (s : bytes) (v : Z) : option Z :=
  match s with
  | [] => Some v
  | c :: s =>
      if (c <? 48) || (c >? 57) then None
      else
        let v := v * 10 + (c - 48) in
        if v >? 65535 then None else port_acc s v
  end.

Definition pp_parse_port (s : bytes) : option Z := if zlen s =? 0 then None else port_acc s 0.

(** The bytes before the first one that satisfies [f]. *)
Fixpoint cut (f : Z -> bool) (s : bytes) : bytes :=
  match s with
  | [] => []
  | c :: r => if f c then [] else c :: cut f r
  end.

Definition host_char (c : Z) : bool :=
  ((97 <=? c) && (c <=? 122)) || ((65 <=? c) && (c <=? 90)) || ((48 <=? c) && (c <=? 57)) ||
  (c =? 46) || (c =? 45) || (c =? 95).

(** [host:port] at the single colon; [None] for a second or a final colon. *)
Definition split_colon (s : bytes) (port : Z) : option (bytes * Z) :=
  let h := cut (Z.eqb 58) s in
  let r := drop (length h) s in
  match r with
  | [] => Some (h, port)
  | _ :: r =>
      if zlen r =? 0 then None
      else if existsb (Z.eqb 58) r then None
      else match pp_parse_port r with Some p => Some (h, p) | None => None end
  end.

Section Target.
Context `{Inet}.

(** A bracketed literal: [s] starts with the bracket. *)
Definition bracket_target (s : bytes) (port : Z) : option pp_target :=
  let close := zlen (cut (Z.eqb 93) s) in
  if (close =? zlen s) || (close <? 3) then None
  else
    let hn6 := close - 1 in
    if hn6 >? 45 then None
    else
      match inet_pton6 (cstr (slice s 1 hn6)) with
      | None => None
      | Some a =>
          let rest := drop (Z.to_nat (close + 1)) s in
          match rest with
          | [] => Some (mk_target 6 (fill 0 4) a [] port)
          | c :: r =>
              if negb (c =? 58) then None
              else match pp_parse_port r with
                   | Some p => Some (mk_target 6 (fill 0 4) a [] p)
                   | None => None
                   end
          end
      end.

Definition plain_target (s : bytes) (port : Z) : option pp_target :=
  match split_colon s port with
  | None => None
  | Some (h, port) =>
      if (zlen h =? 0) || (zlen h >? 255) then None
      else if negb (forallb host_char h) then None
      else match inet_pton4 h with
           | Some a => Some (mk_target 4 a (fill 0 16) h port)
           | None => Some (mk_target 0 (fill 0 4) (fill 0 16) h port)
           end
  end.

(** The authority of an absolute URI and its default port. *)
Definition strip_scheme (s : bytes) : bytes * Z :=
  if (zlen s >=? 7) && strncaseeq s (lit "http://") 7 then (drop 7 s, 80)
  else if (zlen s >=? 8) && strncaseeq s (lit "https://") 8 then (drop 8 s, 443)
  else (s, 80).

Definition uri_end (c : Z) : bool := (c =? 47) || (c =? 63) || (c =? 35).

Definition pp_http_target (s : bytes) (is_connect : bool) : option pp_target :=
  let (s, port) := if is_connect then (s, 443) else
                     let (s, port) := strip_scheme s in (cut uri_end s, port) in
  let s := cut (Z.eqb 32) s in
  match s with
  | [] => None
  | c :: _ => if c =? 91 then bracket_target s port else plain_target s port
  end.

End Target.

(** ** SOCKS5 *)

(** [None]: incomplete; otherwise the method, 255 for none acceptable. *)
Definition pp_socks_greeting (d : bytes) (have_token : bool) : res (option Z) :=
  let n := zlen d in
  let want := if have_token then 2 else 0 in
  if n <? 2 then Ret None
  else
    let! v := rd d 0 in
    if negb (v =? 5) then Ret None
    else
      let! nmethods := rd d 1 in
      if n <? 2 + nmethods then Ret None
      else
        let! ms := rdn d 2 nmethods in
        let m := if existsb (Z.eqb want) ms then want else 255 in
        Ret (Some (if (m =? 255) && negb have_token && existsb (Z.eqb 2) ms then 2 else m)).

Definition pp_socks_pick_method (have_token : bool) (method : Z) : Z :=
  if method =? 255 then 255 else if have_token || (method =? 2) then 2 else 0.

(** The difference accumulated over [n] positions; an absent side reads as 0. *)
Fixpoint auth_diff (n : nat) (i : Z) (pass token : bytes) (diff : Z) : Z :=
  match n with
  | O => diff
  | S n =>
      let a := if i <? zlen pass then pass.[i] else 0 in
      let b := if i <? zlen token then token.[i] else 0 in
      auth_diff n (i + 1) pass token (Z.lor diff (Z.lxor a b))
  end.

(** [token = None]: no token configured. *)
Definition pp_socks_auth_ok (pass : bytes) (token : option bytes) : bool :=
  match token with
  | None => true
  | Some t =>
      let n := Z.max (zlen pass) (zlen t) in
      auth_diff (Z.to_nat n) 0 pass t (u32 (Z.lxor (zlen pass) (zlen t))) =? 0
  end.

(** The return codes of [pp_socks_auth_frame]. *)
Inductive auth_frame :=
| AFValid (user pass : bytes)
| AFTooLong
| AFMalformed
| AFIncomplete.

Definition pp_socks_auth_frame (d : bytes) (usz : Z) : res auth_frame :=
  let n := zlen d in
  if n <? 2 then Ret AFIncomplete
  else
    let! v := rd d 0 in
    let! ulen := rd d 1 in
    if negb (v =? 1) || (ulen =? 0) then Ret AFMalformed
    else if n <? 2 + ulen + 1 then Ret AFIncomplete
    else
      let! plen := rd d (2 + ulen) in
      if plen =? 0 then Ret AFMalformed
      else if n <? 2 + ulen + 1 + plen then Ret AFIncomplete
      else if ulen >=? usz then Ret AFTooLong
      else
        let! user := rdn d 2 ulen in
        let! pass := rdn d (2 + ulen + 1) plen in
        Ret (AFValid user pass).

(** [*cmd], [*rep] and [*out] of a call that returns 0; [None] is a variable the call
    left alone.  [tg_host] is the C string in the 256-byte field. *)
Record request := mk_request { rq_cmd : option Z; rq_rep : Z; rq_out : option pp_target }.

(** [None]: incomplete. *)
Definition pp_socks_request (d : bytes) : res (option request) :=
  let n := zlen d in
  if n <? 4 then Ret None
  else
    let! ver := rd d 0 in
    if negb (ver =? 5) then Ret (Some (mk_request None 1 None))
    else
      let! cmd := rd d 1 in
      let reply rep out := Ret (Some (mk_request (Some cmd) rep out)) in
      if negb (cmd =? 1) then reply 7 None
      else
        let! rsv := rd d 2 in
        if negb (rsv =? 0) then reply 7 None
        else
          let! atyp := rd d 3 in
          if atyp =? 1 then
            if n <? 10 then Ret None
            else
              let! a := rdn d 4 4 in
              let! p0 := rd d 8 in
              let! p1 := rd d 9 in
              reply 0 (Some (mk_target 4 a (fill 0 16) [] (be16 p0 p1)))
          else if atyp =? 4 then
            if n <? 22 then Ret None
            else
              let! a := rdn d 4 16 in
              let! p0 := rd d 20 in
              let! p1 := rd d 21 in
              reply 0 (Some (mk_target 6 (fill 0 4) a [] (be16 p0 p1)))
          else if atyp =? 3 then
            if n <? 5 then Ret None
            else
              let! l := rd d 4 in
              if l =? 0 then reply 8 (Some target0)
              else if n <? 5 + l + 2 then Ret None
              else
                let! h := rdn d 5 l in
                let! p0 := rd d (5 + l) in
                let! p1 := rd d (6 + l) in
                reply 0 (Some (mk_target 0 (fill 0 4) (fill 0 16) (cstr h) (be16 p0 p1)))
          else reply 8 (Some target0).

(** ** The probe decides on a prefix of the stream *)

Definition wait_byte (d : bytes) : bool :=
  let c := d.[0] in
  let n := zlen d in
  ((c =? 67) && (n <? 7)) || ((c =? 79) && (n <? 7)) || ((c =? 68) && (n <? 6)) ||
  ((c =? 71) && (n <? 3)) || ((c =? 72) && (n <? 4)) || (((c =? 80) || (c =? 84)) && (n <? 5)).

(** A request line opens with a method and a space. *)
Definition request_line (d : bytes) : Prop := exists m rest, m ∈ methods /\ d = m ++ 32 :: rest.

Lemma rdn_prefix (m d : bytes) : zlen m <= zlen d -> rdn d 0 (zlen m) = Ret (take (length m) d).
Proof.
  intros. rewrite rdn_ok by (pose proof (zlen_nonneg m); lia).
  unfold slice, zlen. by rewrite Nat2Z.id.
Qed.

Lemma method_loop_spec ms d :
  exists r, method_loop ms d = Ret r /\
    match r with
    | None => forall m, m ∈ ms -> ~ m `prefix_of` d
    | Some v => exists m e, m ∈ ms /\ d = m ++ e /\
                  v = match e with [] => -1 | c :: _ => if c =? 32 then 1 else 0 end
    end.
Proof.
  induction ms as [|m ms IH]; cbn [method_loop]; [eexists; split; [done|]; intros m Hm; by apply not_elem_of_nil in Hm|].
  destruct (zlen d >=? zlen m) eqn:E; cbn [rbind].
  2: { destruct IH as (r & -> & H). exists r. split; [done|]. destruct r.
       - destruct H as (m' & e & Hm & Hv). exists m', e. split; [by right|done].
       - intros m' [->|?]%elem_of_cons; [|by apply H]. intros [e ->]. zl. pose proof (zlen_nonneg e). lia. }
  rewrite rdn_prefix by lia. cbn [rbind].
  destruct (beq (take (length m) d) m) eqn:B.
  - apply beq_true in B. rewrite <- (take_drop (length m) d), B.
    destruct (drop (length m) d) as [|c e].
    + rewrite app_nil_r. replace (zlen m >? zlen m) with false by lia. cbn [rbind]. rewrite Z.eqb_refl.
      eexists; split; [done|]. exists m, []. by rewrite app_nil_r; split_and!; [left| |].
    + pose proof (zlen_nonneg e). replace (zlen (m ++ c :: e) >? zlen m) with true by zlia.
      rewrite rd_ok by (pose proof (zlen_nonneg m); zlia). cbn [rbind].
      rewrite at_app_r by (pose proof (zlen_nonneg m); lia). rewrite Z.sub_diag, at_cons_0.
      replace (zlen (m ++ c :: e) =? zlen m) with false by zlia.
      eexists; split; [done|]. exists m, (c :: e). split_and!; [left|done|]. by destruct (c =? 32).
  - apply beq_false in B. destruct IH as (r & -> & H). exists r. split; [done|]. destruct r.
    + destruct H as (m' & e & Hm & Hv). exists m', e. split; [by right|done].
    + intros m' [->|?]%elem_of_cons; [|by apply H]. intros [e ->]. apply B, take_app_length.
Qed.

(** No method is a prefix of another, and each proper prefix of one makes the probe wait. *)
Lemma methods_apart m m' : m ∈ methods -> m' ∈ methods -> m `prefix_of` m' -> m = m'.
Proof.
  assert (H : Forall (fun m => Forall (fun m' => m `prefix_of` m' -> m = m') methods) methods)
    by (apply (bool_decide_unpack _); vm_compute; exact I).
  rewrite Forall_forall in H. intros Hm Hm'. apply H in Hm. rewrite Forall_forall in Hm. by apply Hm.
Qed.

Lemma methods_wait m d e : m ∈ methods -> d ++ e = m -> d <> [] -> e <> [] -> wait_byte d = true.
Proof.
  assert (H : Forall (fun m => Forall (fun k => wait_byte (take k m) = true) (seq 1 (length m - 1))) methods)
    by (apply (bool_decide_unpack _); vm_compute; exact I).
  rewrite Forall_forall in H. intros Hm <- Hd He. apply H in Hm. rewrite Forall_forall in Hm.
  rewrite <- (take_app_length d e). apply Hm, elem_of_seq.
  rewrite length_app. destruct d, e; cbn; try done; lia.
Qed.

Lemma pp_http_probe_eq d :
  d <> [] -> exists r, method_loop methods d = Ret r /\
    pp_http_probe d = Ret match r with Some v => v | None => if wait_byte d then -1 else 0 end.
Proof.
  intros Hd. destruct (method_loop_spec methods d) as (r & E & _). exists r. split; [done|].
  unfold pp_http_probe. rewrite E. destruct d as [|c d]; [done|]. zl. pose proof (zlen_nonneg d).
  replace (1 + zlen d =? 0) with false by lia. cbn [rbind]. destruct r; [done|].
  rewrite rd_ok by zlia. cbn [rbind]. unfold wait_byte. by zl.
Qed.

(** What the verdict [v] on [d] promises. *)
Definition probe_verdict (d : bytes) (v : Z) : Prop :=
  (v = 1 \/ v = 0 \/ v = -1) /\ (v = 1 <-> request_line d) /\
  (v = 0 -> forall e, ~ request_line (d ++ e)) /\ (v = -1 -> zlen d < 8).

Lemma request_line_method m e : m ∈ methods -> request_line (m ++ e) -> exists r, e = 32 :: r.
Proof.
  intros Hm (m' & rest & Hm' & Eq). assert (m = m') as <-.
  { destruct (prefix_weak_total m m' (m ++ e)); [by exists e|by exists (32 :: rest)| |symmetry]; by apply methods_apart. }
  apply app_inv_head in Eq. by exists rest.
Qed.

Lemma method_hit m e :
  m ∈ methods -> probe_verdict (m ++ e) match e with [] => -1 | c :: _ => if c =? 32 then 1 else 0 end.
Proof.
  intros Hm. destruct e as [|c e].
  - split; [lia|split; [|split]]; [split; [lia|]|lia|].
    + by intros [? ?]%request_line_method.
    + intros _. rewrite app_nil_r.
      assert (F : Forall (fun m => zlen m < 8) methods) by (by apply (bool_decide_unpack _); vm_compute).
      rewrite Forall_forall in F. by apply F.
  - destruct (c =? 32) eqn:C.
    + apply Z.eqb_eq in C. subst. split; [lia|split; [|lia]]. split; [|done]. intros _. by exists m, e.
    + split; [lia|split; [|split]]; [split; [lia|]| |lia].
      * intros [r ?]%request_line_method; [|done]. simplify_eq.
      * intros _ e'. rewrite <- app_assoc. intros [r ?]%request_line_method; [|done]. simplify_list_eq.
Qed.

Lemma method_miss d :
  (forall m, m ∈ methods -> ~ m `prefix_of` d) -> d <> [] -> probe_verdict d (if wait_byte d then -1 else 0).
Proof.
  intros H Hd. assert (~ request_line d) by (intros (m & rest & Hm & ->); destruct (H m Hm); by exists (32 :: rest)).
  destruct (wait_byte d) eqn:W.
  - split; [lia|split; [|split]]; [split; [lia|done]|lia|]. unfold wait_byte in W. lia.
  - split; [lia|split; [|split]]; [split; [lia|done]| |lia]. intros _ e (m & rest & Hm & Eq).
    destruct (prefix_weak_total m d (d ++ e)) as [?|[e' Em]]; [by exists (32 :: rest)|by exists e| |].
    + by apply (H m).
    + destruct e' as [|c e']; [apply (H m); [done|]; exists []; subst; by rewrite !app_nil_r|].
      by rewrite (methods_wait m d (c :: e')) in W.
Qed.

(** The HTTP probe on a partial buffer is exact and final.  It reads no byte out of
    range; it answers 1 exactly on a buffer that opens with a known method and a space; when
    it answers 0 no later bytes can turn the buffer into a request line; and it asks for more
    data only while fewer than eight bytes are there, so a caller that waits makes progress. *)
Theorem pp_http_probe_exact (d : bytes) :
  exists v, pp_http_probe d = Ret v /\ (v = 1 \/ v = 0 \/ v = -1) /\
    (v = 1 <-> request_line d) /\
    (v = 0 -> forall e, ~ request_line (d ++ e)) /\
    (v = -1 -> zlen d < 8).
Proof.
  destruct (decide (d = [])) as [->|Hd].
  { exists (-1). split; [done|split; [lia|split; [|split]]]; [split; [lia|]|lia|by vm_compute].
    intros (m & rest & _ & [_ ?]%eq_sym%app_eq_nil). done. }
  destruct (pp_http_probe_eq d Hd) as (r & E & ->). eexists; split; [done|].
  destruct (method_loop_spec methods d) as (r' & E' & H). rewrite E in E'. apply ret_inj in E'. subst r'.
  destruct r as [v|]; [|by apply method_miss].
  destruct H as (m & e & Hm & -> & ->). by apply method_hit.
Qed.

(** ** RFC 1929 frames *)

(** The verdicts RFC 1929 assigns to a buffer, for a user buffer of [usz] bytes. *)
Inductive auth_grammar (usz : Z) : bytes -> auth_frame -> Prop :=
| ag_short d : zlen d < 2 -> auth_grammar usz d AFIncomplete
| ag_head v ul d : v <> 1 \/ ul = 0 -> auth_grammar usz (v :: ul :: d) AFMalformed
| ag_user ul d : 0 < ul -> zlen d < ul + 1 -> auth_grammar usz (1 :: ul :: d) AFIncomplete
| ag_nopass u d : 0 < zlen u -> auth_grammar usz (1 :: zlen u :: u ++ 0 :: d) AFMalformed
| ag_pass u pl d : 0 < zlen u -> 0 < pl -> zlen d < pl -> auth_grammar usz (1 :: zlen u :: u ++ pl :: d) AFIncomplete
| ag_frame u p d : 0 < zlen u -> 0 < zlen p ->
    auth_grammar usz (1 :: zlen u :: u ++ zlen p :: p ++ d) (if zlen u <? usz then AFValid u p else AFTooLong).

Lemma auth_frame_head v ul d usz :
  pp_socks_auth_frame (v :: ul :: d) usz =
  if negb (v =? 1) || (ul =? 0) then Ret AFMalformed
  else if zlen d <? ul + 1 then Ret AFIncomplete
  else
    let! pl := rd (v :: ul :: d) (2 + ul) in
    if pl =? 0 then Ret AFMalformed
    else if zlen d <? ul + 1 + pl then Ret AFIncomplete
    else if ul >=? usz then Ret AFTooLong
    else
      let! user := rdn (v :: ul :: d) 2 ul in
      let! pass := rdn (v :: ul :: d) (2 + ul + 1) pl in
      Ret (AFValid user pass).
Proof.
  unfold pp_socks_auth_frame. pose proof (zlen_nonneg d). rewrite !zlen_cons.
  replace (1 + (1 + zlen d) <? 2) with false by lia. rewrite !rd_ok by zlia. cbn [rbind].
  rewrite at_cons_0, at_cons_pos, at_cons_0 by lia. cbn [rbind].
  replace (1 + (1 + zlen d) <? 2 + ul + 1) with (zlen d <? ul + 1) by lia.
  destruct (negb _ || _); [done|]. destruct (zlen d <? ul + 1); [done|].
  destruct (rd _ (2 + ul)) as [pl|]; [|done]. cbn [rbind].
  by replace (1 + (1 + zlen d) <? 2 + ul + 1 + pl) with (zlen d <? ul + 1 + pl) by lia.
Qed.

Lemma auth_read_plen u pl d : rd (1 :: zlen u :: u ++ pl :: d) (2 + zlen u) = Ret pl.
Proof.
  pose proof (zlen_nonneg u). pose proof (zlen_nonneg d). rewrite rd_ok by zlia.
  rewrite !at_cons_pos, at_app_r by lia. by replace (2 + zlen u - 1 - 1 - zlen u) with 0 by lia.
Qed.

Lemma auth_grammar_run usz d r : auth_grammar usz d r -> pp_socks_auth_frame d usz = Ret r.
Proof.
  destruct 1 as [d Hd|v ul d Hv|ul d Hu Hd|u d Hu|u pl d Hu Hp Hd|u p d Hu Hp]; pose proof (zlen_nonneg d);
    [unfold pp_socks_auth_frame; by replace (zlen d <? 2) with true by lia|..]; rewrite auth_frame_head;
    [by replace (negb (v =? 1) || (ul =? 0)) with true by lia|..];
    [replace (negb _ || (ul =? 0)) with false by lia; by replace (zlen d <? ul + 1) with true by lia|..];
    replace (negb _ || (zlen u =? 0)) with false by lia; rewrite auth_read_plen; cbn [rbind].
  - by replace (zlen (u ++ 0 :: d) <? zlen u + 1) with false by zlia.
  - replace (zlen (u ++ pl :: d) <? zlen u + 1) with false by zlia. replace (pl =? 0) with false by lia.
    by replace (zlen (u ++ pl :: d) <? zlen u + 1 + pl) with true by zlia.
  - replace (zlen (u ++ zlen p :: p ++ d) <? zlen u + 1) with false by zlia.
    replace (zlen p =? 0) with false by lia.
    replace (zlen (u ++ zlen p :: p ++ d) <? zlen u + 1 + zlen p) with false by zlia.
    replace (zlen u >=? usz) with (negb (zlen u <? usz)) by lia. destruct (zlen u <? usz); [|done]. cbn [negb].
    rewrite !rdn_ok by zlia. cbn [rbind]. do 2 f_equal.
    + apply (slice_app_mid [1; zlen u] u); zlia.
    + replace (1 :: zlen u :: u ++ zlen p :: p ++ d) with ((1 :: zlen u :: u ++ [zlen p]) ++ p ++ d)
        by (by cbn; rewrite <- app_assoc).
      apply slice_app_mid; zlia.
Qed.

Lemma split_at (d : bytes) n : 0 <= n <= zlen d -> exists a b, d = a ++ b /\ zlen a = n.
Proof. intros. exists (take (Z.to_nat n) d), (drop (Z.to_nat n) d). rewrite take_drop. split; [done|zlia]. Qed.

Lemma auth_grammar_total usz d : bytes_ok d -> exists r, auth_grammar usz d r.
Proof.
  destruct d as [|v [|ul d]]; [by eexists; apply ag_short..|].
  intros (_ & (Hul & Hd)%Forall_cons)%Forall_cons.
  destruct (decide (v = 1)) as [->|]; [|eexists; apply ag_head; auto].
  destruct (decide (ul = 0)) as [->|]; [eexists; apply ag_head; auto|]. unfold is_byte in Hul.
  destruct (decide (zlen d < ul + 1)); [eexists; apply ag_user; lia|].
  destruct (split_at d ul) as (u & [|pl r] & -> & <-); [lia|zlia|].
  apply Forall_app in Hd as (_ & (Hpl & _)%Forall_cons). unfold is_byte in Hpl.
  destruct (decide (pl = 0)) as [->|]; [eexists; apply ag_nopass; lia|].
  destruct (decide (zlen r < pl)); [eexists; apply ag_pass; lia|].
  destruct (split_at r pl) as (p & e & -> & <-); [lia|]. eexists; apply ag_frame; lia.
Qed.

Lemma auth_grammar_extend usz d r e : auth_grammar usz d r -> r <> AFIncomplete -> auth_grammar usz (d ++ e) r.
Proof.
  destruct 1; try done; intros _; cbn [app]; rewrite <- ?app_assoc; cbn [app]; rewrite <- ?app_assoc; by constructor.
Qed.

(** ** The password comparison *)

Lemma auth_diff_zero n i p t d :
  auth_diff n i p t d = 0 <-> d = 0 /\ forall j, i <= j < i + Z.of_nat n -> p.[j] = t.[j].
Proof.
  assert (P : forall (l : bytes) k, (if k <? zlen l then l.[k] else 0) = l.[k])
    by (intros l k; destruct (k <? zlen l) eqn:?; [done|]; rewrite at_over; lia).
  revert i d. induction n as [|n IH]; intros i d; cbn [auth_diff]; [split; [|tauto]; split; [done|lia]|].
  rewrite !P, IH, Z.lor_eq_0_iff, Z.lxor_eq_0_iff. split.
  - intros [[-> E] H]. split; [done|]. intros j Hj. destruct (decide (j = i)) as [->|]; [done|]. apply H. lia.
  - intros [-> H]. split; [split; [done|]; apply H; lia|]. intros j Hj. apply H. lia.
Qed.

Lemma log2_lt32 x : 0 <= x < 2 ^ 32 -> Z.log2 x < 32.
Proof. intros. destruct (decide (x = 0)) as [->|]; [done|]. apply Z.log2_lt_pow2; lia. Qed.

Lemma pp_socks_auth_ok_iff pass token :
  zlen pass < 2 ^ 32 -> zlen token < 2 ^ 32 -> pp_socks_auth_ok pass (Some token) = true <-> pass = token.
Proof.
  intros Hp Ht. pose proof (zlen_nonneg pass) as N1. pose proof (zlen_nonneg token) as N2.
  unfold pp_socks_auth_ok. rewrite Z.eqb_eq, auth_diff_zero, u32_small, Z.lxor_eq_0_iff.
  - split; [|by intros ->]. intros [E Q]. apply at_ext; [done|]. intros j Hj. apply Q. lia.
  - split; [apply Z.lxor_nonneg; lia|]. destruct (decide (Z.lxor (zlen pass) (zlen token) = 0)) as [->|]; [done|].
    apply Z.log2_lt_pow2; [pose proof (Z.lxor_nonneg (zlen pass) (zlen token)); lia|].
    eapply Z.le_lt_trans; [apply Z.log2_lxor; lia|]. apply Z.max_lub_lt; apply log2_lt32; lia.
Qed.

Lemma auth_grammar_pass usz d u p : bytes_ok d -> auth_grammar usz d (AFValid u p) -> zlen p < 2 ^ 32.
Proof.
  intros Hd G. inversion G as [| | | | |u' p' e Hu Hp Ed Er]. subst.
  destruct (zlen u' <? usz); [|done]. injection Er as -> ->.
  apply Forall_cons in Hd as [_ [_ [_ [Hl _]%Forall_cons]%Forall_app]%Forall_cons]. unfold is_byte in Hl. lia.
Qed.

Lemma existsb_elem x l : existsb (Z.eqb x) l = bool_decide (x ∈ l).
Proof.
  induction l as [|y l IH]; [done|]. cbn [existsb]. rewrite IH. destruct (Z.eqb_spec x y) as [->|].
  - symmetry. apply bool_decide_eq_true. left.
  - apply bool_decide_ext. rewrite elem_of_cons. tauto.
Qed.

Lemma greeting_run (have_token : bool) ms rest :
  pp_socks_greeting (5 :: zlen ms :: ms ++ rest) have_token =
  Ret (Some (if bool_decide ((if have_token then 2 else 0) ∈ ms) then if have_token then 2 else 0
             else if negb have_token && bool_decide (2 ∈ ms) then 2 else 255)).
Proof.
  pose proof (zlen_nonneg ms). pose proof (zlen_nonneg rest). unfold pp_socks_greeting.
  replace (zlen (5 :: zlen ms :: ms ++ rest) <? 2) with false by zlia. rewrite rd_ok by zlia.
  cbn [rbind]. rewrite at_cons_0. cbn [negb Z.eqb Pos.eqb]. rewrite rd_ok by zlia. cbn [rbind].
  rewrite at_cons_pos, at_cons_0 by lia.
  replace (zlen (5 :: zlen ms :: ms ++ rest) <? 2 + zlen ms) with false by zlia.
  rewrite rdn_ok by zlia. cbn [rbind]. replace (slice (5 :: zlen ms :: ms ++ rest) 2 (zlen ms)) with ms
    by (symmetry; apply (slice_app_mid [5; zlen ms] ms); zlia).
  rewrite !existsb_elem. do 2 f_equal. destruct have_token; destruct (bool_decide (_ ∈ ms)); try done.
Qed.

(** The password login of both proxies accepts the token and nothing else.  On any
    buffer the RFC 1929 parser stays in bounds and returns the verdict of the frame grammar;
    a verdict other than "incomplete" does not change when more bytes arrive; the password
    of a valid frame passes exactly when it is the token, byte for byte and in length
    (the fold over the padded maximum neither accepts a prefix nor a zero-padded guess); and
    with a token configured a greeting selects the password method when the client offers
    it and is refused otherwise, so the login cannot be skipped. *)
Theorem socks_login_exact (usz : Z) (d token : bytes) :
  bytes_ok d -> zlen token < 2 ^ 32 ->
  (exists r, pp_socks_auth_frame d usz = Ret r /\ auth_grammar usz d r /\
     (r <> AFIncomplete -> forall e, pp_socks_auth_frame (d ++ e) usz = Ret r) /\
     (forall u p, r = AFValid u p -> pp_socks_auth_ok p (Some token) = true <-> p = token)) /\
  (forall ms rest, exists m, pp_socks_greeting (5 :: zlen ms :: ms ++ rest) true = Ret (Some m) /\
     pp_socks_pick_method true m = if bool_decide (2 ∈ ms) then 2 else 255).
Proof.
  intros Hd Hl. split.
  - destruct (auth_grammar_total usz d Hd) as [r G]. exists r. split; [by apply auth_grammar_run|]. split; [done|].
    split; [intros Hr e; by apply auth_grammar_run, auth_grammar_extend|].
    intros u p ->. apply pp_socks_auth_ok_iff; [|done]. by eapply auth_grammar_pass.
  - intros ms rest. rewrite greeting_run. eexists; split; [done|]. by destruct (bool_decide (2 ∈ ms)).
Qed.

Lemma socks_login_exact_witness :
  pp_socks_auth_frame (1 :: 2 :: lit "me" ++ 3 :: lit "key") 64 = Ret (AFValid (lit "me") (lit "key")) /\
  pp_socks_auth_ok (lit "key") (Some (lit "key")) = true /\
  pp_socks_auth_ok (lit "ke") (Some (lit "key")) = false /\
  (exists r, pp_socks_auth_frame (1 :: 2 :: lit "me" ++ 3 :: lit "key") 64 = Ret r).
Proof.
  split; [vm_compute; reflexivity|]. split; [vm_compute; reflexivity|]. split; [vm_compute; reflexivity|].
  destruct (socks_login_exact 64 (1 :: 2 :: lit "me" ++ 3 :: lit "key") (lit "key")) as [(r & E & _) _].
  - apply (bool_decide_unpack _). vm_compute. exact I.
  - vm_compute. reflexivity.
  - exists r. exact E.
Defined.

(** ** RFC 1928 requests *)

Inductive request_grammar : bytes -> option request -> Prop :=
| rg_short d : zlen d < 4 -> request_grammar d None
| rg_version v d : v <> 5 -> 3 <= zlen d -> request_grammar (v :: d) (Some (mk_request None 1 None))
| rg_command c d : c <> 1 -> 2 <= zlen d -> request_grammar (5 :: c :: d) (Some (mk_request (Some c) 7 None))
| rg_reserved r d : r <> 0 -> 1 <= zlen d -> request_grammar (5 :: 1 :: r :: d) (Some (mk_request (Some 1) 7 None))
| rg_type a d : a <> 1 -> a <> 3 -> a <> 4 ->
    request_grammar (5 :: 1 :: 0 :: a :: d) (Some (mk_request (Some 1) 8 (Some target0)))
| rg_ip4 a p0 p1 d : zlen a = 4 ->
    request_grammar (5 :: 1 :: 0 :: 1 :: a ++ p0 :: p1 :: d)
      (Some (mk_request (Some 1) 0 (Some (mk_target 4 a (fill 0 16) [] (be16 p0 p1)))))
| rg_ip4_wait d : zlen d < 6 -> request_grammar (5 :: 1 :: 0 :: 1 :: d) None
| rg_ip6 a p0 p1 d : zlen a = 16 ->
    request_grammar (5 :: 1 :: 0 :: 4 :: a ++ p0 :: p1 :: d)
      (Some (mk_request (Some 1) 0 (Some (mk_target 6 (fill 0 4) a [] (be16 p0 p1)))))
| rg_ip6_wait d : zlen d < 18 -> request_grammar (5 :: 1 :: 0 :: 4 :: d) None
| rg_noname d : request_grammar (5 :: 1 :: 0 :: 3 :: 0 :: d) (Some (mk_request (Some 1) 8 (Some target0)))
| rg_name h p0 p1 d : 0 < zlen h ->
    request_grammar (5 :: 1 :: 0 :: 3 :: zlen h :: h ++ p0 :: p1 :: d)
      (Some (mk_request (Some 1) 0 (Some (mk_target 0 (fill 0 4) (fill 0 16) (cstr h) (be16 p0 p1)))))
| rg_name_wait0 : request_grammar [5; 1; 0; 3] None
| rg_name_wait l d : 0 < l -> zlen d < l + 2 -> request_grammar (5 :: 1 :: 0 :: 3 :: l :: d) None.

(** The fixed-size fields behind a prefix of known length. *)
Lemma fields_at q a p0 p1 d k n :
  zlen q = k -> zlen a = n ->
  rdn (q ++ a ++ p0 :: p1 :: d) k n = Ret a /\
  rd (q ++ a ++ p0 :: p1 :: d) (k + n) = Ret p0 /\ rd (q ++ a ++ p0 :: p1 :: d) (k + n + 1) = Ret p1.
Proof.
  intros <- <-. pose proof (zlen_nonneg q). pose proof (zlen_nonneg a). pose proof (zlen_nonneg d).
  split; [rewrite rdn_ok by zlia; f_equal; apply slice_app_mid; lia|].
  rewrite !rd_ok by zlia. rewrite !at_app_r by zlia. split; f_equal.
  - by replace (zlen q + zlen a - zlen q - zlen a) with 0 by lia.
  - by replace (zlen q + zlen a + 1 - zlen q - zlen a) with 1 by lia.
Qed.

Lemma request_head atyp d :
  pp_socks_request (5 :: 1 :: 0 :: atyp :: d) =
  let f := 5 :: 1 :: 0 :: atyp :: d in
  let reply rep out := Ret (Some (mk_request (Some 1) rep out)) in
  if atyp =? 1 then
    if zlen d <? 6 then Ret None
    else
      let! a := rdn f 4 4 in let! p0 := rd f 8 in let! p1 := rd f 9 in
      reply 0 (Some (mk_target 4 a (fill 0 16) [] (be16 p0 p1)))
  else if atyp =? 4 then
    if zlen d <? 18 then Ret None
    else
      let! a := rdn f 4 16 in let! p0 := rd f 20 in let! p1 := rd f 21 in
      reply 0 (Some (mk_target 6 (fill 0 4) a [] (be16 p0 p1)))
  else if atyp =? 3 then
    if zlen d <? 1 then Ret None
    else
      let! l := rd f 4 in
      if l =? 0 then reply 8 (Some target0)
      else if zlen d <? 1 + l + 2 then Ret None
      else
        let! h := rdn f 5 l in let! p0 := rd f (5 + l) in let! p1 := rd f (6 + l) in
        reply 0 (Some (mk_target 0 (fill 0 4) (fill 0 16) (cstr h) (be16 p0 p1)))
  else reply 8 (Some target0).
Proof.
  pose proof (zlen_nonneg d) as N. unfold pp_socks_request.
  assert (E : zlen (5 :: 1 :: 0 :: atyp :: d) = 4 + zlen d) by zlia. rewrite E.
  replace (4 + zlen d <? 4) with false by lia. rewrite (rd_ok _ 0), (rd_ok _ 1), (rd_ok _ 2), (rd_ok _ 3) by lia.
  change ((5 :: 1 :: 0 :: atyp :: d).[0]) with 5. change ((5 :: 1 :: 0 :: atyp :: d).[1]) with 1.
  change ((5 :: 1 :: 0 :: atyp :: d).[2]) with 0. change ((5 :: 1 :: 0 :: atyp :: d).[3]) with atyp.
  cbn [rbind negb Z.eqb Pos.eqb].
  replace (4 + zlen d <? 10) with (zlen d <? 6) by lia. replace (4 + zlen d <? 22) with (zlen d <? 18) by lia.
  replace (4 + zlen d <? 5) with (zlen d <? 1) by lia.
  destruct (atyp =? 1); [done|]. destruct (atyp =? 4); [done|]. destruct (atyp =? 3); [|done].
  destruct (zlen d <? 1); [done|]. destruct (rd _ 4) as [l|]; [|done]. cbn [rbind]. destruct (l =? 0); [done|].
  by replace (4 + zlen d <? 5 + l + 2) with (zlen d <? 1 + l + 2) by lia.
Qed.

Lemma request_reject d :
  4 <= zlen d -> (d.[0] <> 5 \/ d.[1] <> 1 \/ d.[2] <> 0) ->
  pp_socks_request d = Ret (Some (if d.[0] =? 5 then mk_request (Some d.[1]) 7 None else mk_request None 1 None)).
Proof.
  intros Hl Hr. unfold pp_socks_request. replace (zlen d <? 4) with false by lia. rewrite !rd_ok by lia.
  cbn [rbind]. destruct (d.[0] =? 5) eqn:E0; [|done]. cbn [negb]. destruct (d.[1] =? 1) eqn:E1; [|done].
  cbn [negb]. by replace (d.[2] =? 0) with false by lia.
Qed.


Lemma request_grammar_run d r : request_grammar d r -> pp_socks_request d = Ret r.
Proof.
  destruct 1 as [d Hd|v d Hv Hd|c d Hc Hd|x d Hx Hd|a d Ha Hb Hc|a p0 p1 d Ha|d Hd|a p0 p1 d Ha|d Hd|d|h p0 p1 d Hh| |l d Hl Hd];
    try pose proof (zlen_nonneg d) as N.
  - unfold pp_socks_request. by replace (zlen d <? 4) with true by lia.
  - rewrite request_reject by (rewrite ?at_cons_0; zl; lia). rewrite at_cons_0. by replace (v =? 5) with false by lia.
  - rewrite request_reject; [done|zlia|right; by left].
  - rewrite request_reject; [done|zlia|right; by right].
  - rewrite request_head. cbv zeta. replace (a =? 1) with false by lia. replace (a =? 4) with false by lia.
    by replace (a =? 3) with false by lia.
  - rewrite request_head. cbv zeta. replace (zlen (a ++ p0 :: p1 :: d) <? 6) with false by zlia.
    destruct (fields_at [5; 1; 0; 1] a p0 p1 d 4 4 eq_refl Ha) as (Ea & E0 & E1). cbn [app] in Ea, E0, E1.
    change (4 + 4) with 8 in E0, E1. change (8 + 1) with 9 in E1. cbn [Z.eqb Pos.eqb]. by rewrite Ea, E0, E1.
  - rewrite request_head. cbv zeta. by replace (zlen d <? 6) with true by lia.
  - rewrite request_head. cbv zeta. replace (zlen (a ++ p0 :: p1 :: d) <? 18) with false by zlia.
    destruct (fields_at [5; 1; 0; 4] a p0 p1 d 4 16 eq_refl Ha) as (Ea & E0 & E1). cbn [app] in Ea, E0, E1.
    change (4 + 16) with 20 in E0, E1. change (20 + 1) with 21 in E1. cbn [Z.eqb Pos.eqb]. by rewrite Ea, E0, E1.
  - rewrite request_head. cbv zeta. by replace (zlen d <? 18) with true by lia.
  - rewrite request_head. cbv zeta. replace (zlen (0 :: d) <? 1) with false by zlia. by rewrite (rd_ok _ 4) by zlia.
  - rewrite request_head. cbv zeta. replace (zlen (zlen h :: h ++ p0 :: p1 :: d) <? 1) with false by zlia.
    rewrite (rd_ok _ 4) by zlia. cbn [rbind Z.eqb Pos.eqb]. change ((5 :: 1 :: 0 :: 3 :: ?x :: _).[4]) with x.
    replace (zlen h =? 0) with false by lia.
    replace (zlen (zlen h :: h ++ p0 :: p1 :: d) <? 1 + zlen h + 2) with false by zlia.
    destruct (fields_at [5; 1; 0; 3; zlen h] h p0 p1 d 5 (zlen h) eq_refl eq_refl) as (Eh & E0 & E1).
    replace (6 + zlen h) with (5 + zlen h + 1) by lia. cbn [app] in Eh, E0, E1. by rewrite Eh, E0, E1.
  - done.
  - rewrite request_head. cbv zeta. replace (zlen (l :: d) <? 1) with false by zlia. rewrite (rd_ok _ 4) by zlia.
    cbn [rbind Z.eqb Pos.eqb]. change ((5 :: 1 :: 0 :: 3 :: l :: d).[4]) with l. replace (l =? 0) with false by lia.
    by replace (zlen (l :: d) <? 1 + l + 2) with true by zlia.
Qed.

Lemma split_fields (d : bytes) n : 0 <= n -> n + 2 <= zlen d -> exists a p0 p1 e, d = a ++ p0 :: p1 :: e /\ zlen a = n.
Proof.
  intros. destruct (split_at d n) as (a & [|p0 [|p1 e]] & -> & <-); [lia|zlia|zlia|]. by exists a, p0, p1, e.
Qed.

Lemma request_grammar_total d : bytes_ok d -> exists r, request_grammar d r.
Proof.
  intros Hd. destruct (decide (zlen d < 4)); [eexists; by apply rg_short|].
  destruct d as [|v [|c [|x [|a d]]]]; [zlia..|]. pose proof (zlen_nonneg d) as N.
  destruct (decide (v = 5)) as [->|]; [|eexists; apply rg_version; zlia].
  destruct (decide (c = 1)) as [->|]; [|eexists; apply rg_command; zlia].
  destruct (decide (x = 0)) as [->|]; [|eexists; apply rg_reserved; zlia].
  destruct (decide (a = 1)) as [->|].
  { destruct (decide (zlen d < 6)); [eexists; by apply rg_ip4_wait|].
    destruct (split_fields d 4) as (b & p0 & p1 & e & -> & ?); [lia..|]. eexists; by apply rg_ip4. }
  destruct (decide (a = 4)) as [->|].
  { destruct (decide (zlen d < 18)); [eexists; by apply rg_ip6_wait|].
    destruct (split_fields d 16) as (b & p0 & p1 & e & -> & ?); [lia..|]. eexists; by apply rg_ip6. }
  destruct (decide (a = 3)) as [->|]; [|eexists; by apply rg_type].
  destruct d as [|l d]; [eexists; apply rg_name_wait0|].
  destruct (decide (l = 0)) as [->|]; [eexists; apply rg_noname|].
  assert (is_byte l) as Hl by (unfold bytes_ok in Hd; rewrite !Forall_cons in Hd; tauto). unfold is_byte in Hl.
  destruct (decide (zlen d < l + 2)); [eexists; apply rg_name_wait; lia|].
  destruct (split_fields d l) as (h & p0 & p1 & e & -> & <-); [lia..|]. eexists; apply rg_name; lia.
Qed.

Lemma request_grammar_extend d r e : request_grammar d (Some r) -> request_grammar (d ++ e) (Some r).
Proof.
  pose proof (zlen_nonneg e). inversion 1; subst; cbn [app]; rewrite <- ?app_assoc; cbn [app]; constructor; zl; try done; lia.
Qed.

(** The bytes a client sends to ask for a target. *)
Definition request_of (t : pp_target) : bytes :=
  [5; 1; 0] ++ (if tg_af t =? 4 then 1 :: tg_ip4 t else if tg_af t =? 6 then 4 :: tg_ip6 t
                else 3 :: zlen (tg_host t) :: tg_host t) ++ put16 (tg_port t).

(** Targets in the form the parsers produce. *)
Definition target_ok (t : pp_target) : Prop :=
  0 <= tg_port t < 65536 /\
  ((tg_af t = 4 /\ zlen (tg_ip4 t) = 4 /\ tg_ip6 t = fill 0 16 /\ tg_host t = []) \/
   (tg_af t = 6 /\ zlen (tg_ip6 t) = 16 /\ tg_ip4 t = fill 0 4 /\ tg_host t = []) \/
   (tg_af t = 0 /\ tg_ip4 t = fill 0 4 /\ tg_ip6 t = fill 0 16 /\ cstr_ok (tg_host t) /\ 0 < zlen (tg_host t) < 256)).

Lemma request_of_accepted t rest :
  target_ok t -> request_grammar (request_of t ++ rest) (Some (mk_request (Some 1) 0 (Some t))).
Proof.
  destruct t as [af ip4 ip6 host port]. unfold target_ok, request_of. cbn [tg_af tg_ip4 tg_ip6 tg_host tg_port].
  intros [Hp Hc]. rewrite <- (be16_put16 port Hp) at 2. unfold put16.
  destruct Hc as [(-> & Ha & -> & ->)|[(-> & Ha & -> & ->)|(-> & -> & -> & Hh & Hl)]];
    cbn [Z.eqb Pos.eqb app]; rewrite <- app_assoc; cbn [app].
  - by apply rg_ip4.
  - by apply rg_ip6.
  - rewrite <- (cstr_cstr_ok host Hh) at 3. apply rg_name. lia.
Qed.

Lemma request_of_prefix t k :
  target_ok t -> (k < length (request_of t))%nat -> request_grammar (take k (request_of t)) None.
Proof.
  destruct t as [af ip4 ip6 host port]. unfold target_ok, request_of. cbn [tg_af tg_ip4 tg_ip6 tg_host tg_port].
  intros [_ Hc] Hk. destruct (decide (k < 4)%nat); [apply rg_short; rewrite zlen_take; lia|].
  destruct k as [|[|[|[|k]]]]; [lia..|].
  assert (forall l : bytes, zlen (take k l) <= Z.of_nat k) as L by (intros; rewrite zlen_take; lia).
  destruct Hc as [(-> & Ha & _)|[(-> & Ha & _)|(-> & _ & _ & _ & Hl)]];
    cbn [Z.eqb Pos.eqb app take length] in *; rewrite ?length_app in Hk; cbn [put16 length] in Hk;
    try unfold zlen in Ha.
  - apply rg_ip4_wait. specialize (L (ip4 ++ put16 port)). lia.
  - apply rg_ip6_wait. specialize (L (ip6 ++ put16 port)). lia.
  - destruct k as [|k]; [apply rg_name_wait0|]. cbn [take]. apply rg_name_wait; [lia|].
    rewrite zlen_take. unfold zlen at 2. lia.
Qed.

(** SOCKS requests are parsed exactly.  On every buffer the parser stays in bounds and
    returns what the RFC 1928 grammar assigns; a verdict does not change when more bytes
    arrive; the encoding of any IPv4, IPv6 or domain target is accepted with exactly that
    target, whatever follows it; and each proper prefix of the encoding makes the caller wait. *)
Theorem pp_socks_request_exact (d : bytes) (t : pp_target) :
  bytes_ok d -> target_ok t ->
  (exists r, pp_socks_request d = Ret r /\ request_grammar d r /\
     (r <> None -> forall e, pp_socks_request (d ++ e) = Ret r)) /\
  (forall rest, pp_socks_request (request_of t ++ rest) = Ret (Some (mk_request (Some 1) 0 (Some t)))) /\
  (forall k, (k < length (request_of t))%nat -> pp_socks_request (take k (request_of t)) = Ret None).
Proof.
  intros Hd Ht. split; [|split].
  - destruct (request_grammar_total d Hd) as [r G]. exists r. split; [by apply request_grammar_run|]. split; [done|].
    destruct r; [|done]. intros _ e. by apply request_grammar_run, request_grammar_extend.
  - intros rest. by apply request_grammar_run, request_of_accepted.
  - intros k Hk. by apply request_grammar_run, request_of_prefix.
Qed.

Lemma pp_socks_request_exact_witness :
  let t := mk_target 0 (fill 0 4) (fill 0 16) (lit "ustc.edu.cn") 443 in
  pp_socks_request (request_of t ++ [71]) = Ret (Some (mk_request (Some 1) 0 (Some t))) /\
  pp_socks_request (take 9 (request_of t)) = Ret None.
Proof.
  intros t. destruct (pp_socks_request_exact [] t) as (_ & A & P).
  - apply Forall_nil_2.
  - split; [split; [discriminate|reflexivity]|]. right. right. split; [reflexivity|]. split; [reflexivity|].
    split; [reflexivity|]. split; [apply (bool_decide_unpack _); vm_compute; exact I|split; vm_compute; reflexivity].
  - split; [apply (A [71])|]. apply P. apply Nat.ltb_lt. vm_compute. reflexivity.
Defined.

(** ** HTTP targets *)

Definition digit (c : Z) : bool := (48 <=? c) && (c <=? 57).
Definition dec (v : Z) (s : bytes) : Z := fold_left (fun v c => v * 10 + (c - 48)) s v.

Lemma dec_grows s v : 0 <= v -> forallb digit s = true -> v <= dec v s.
Proof.
  revert v. induction s as [|c s IH]; intros v Hv Hs; [done|]. cbn [forallb] in Hs. apply andb_true_iff in Hs as [Hc Hs].
  unfold digit in Hc. cbn. transitivity (v * 10 + (c - 48)); [lia|]. apply IH; [lia|done].
Qed.

Lemma port_acc_spec s v :
  0 <= v <= 65535 -> port_acc s v = if forallb digit s && (dec v s <=? 65535) then Some (dec v s) else None.
Proof.
  revert v. induction s as [|c s IH]; intros v Hv; cbn [port_acc forallb dec fold_left].
  - cbn. by replace (v <=? 65535) with true by lia.
  - replace ((c <? 48) || (c >? 57)) with (negb (digit c)) by (unfold digit; lia).
    destruct (digit c) eqn:Hc; [|done]. cbn [negb andb]. unfold digit in Hc.
    fold (dec (v * 10 + (c - 48)) s). destruct (v * 10 + (c - 48) >? 65535) eqn:E; [|apply IH; lia].
    destruct (forallb digit s) eqn:Hs; [|done]. cbn [andb].
    pose proof (dec_grows s (v * 10 + (c - 48)) ltac:(lia) Hs). by replace (_ <=? 65535) with false by lia.
Qed.

Lemma pp_parse_port_spec s p :
  pp_parse_port s = Some p <-> s <> [] /\ forallb digit s = true /\ p = dec 0 s /\ p <= 65535.
Proof.
  unfold pp_parse_port. destruct s as [|c s]; [split; [done|tauto]|].
  pose proof (zlen_nonneg s). replace (zlen (c :: s) =? 0) with false by zlia. rewrite port_acc_spec by lia.
  destruct (forallb digit (c :: s)); cbn [andb]; [|split; [done|intros (_ & ? & _); done]].
  destruct (dec 0 (c :: s) <=? 65535) eqn:E; split.
  - intros <-%(inj Some). split_and!; [done..|lia].
  - by intros (_ & _ & -> & _).
  - done.
  - intros (_ & _ & -> & ?). lia.
Qed.

Lemma port_range s p : pp_parse_port s = Some p -> 0 <= p < 65536.
Proof. intros (_ & Hd & -> & ?)%pp_parse_port_spec. pose proof (dec_grows s 0 ltac:(lia) Hd). lia. Qed.

Lemma cut_app f a c r : forallb (fun x => negb (f x)) a = true -> f c = true -> cut f (a ++ c :: r) = a.
Proof.
  intros Ha Hc. induction a as [|x a IH]; cbn [app cut]; [by rewrite Hc|]. cbn [forallb] in Ha.
  apply andb_true_iff in Ha as [Hx Ha]. destruct (f x); [done|]. by rewrite IH.
Qed.

Lemma cut_none f a : forallb (fun x => negb (f x)) a = true -> cut f a = a.
Proof.
  induction a as [|x a IH]; cbn [forallb cut]; [done|]. intros [Hx Ha]%andb_true_iff. destruct (f x); [done|]. by rewrite IH.
Qed.

Lemma forallb_impl {A} (f g : A -> bool) l : (forall x, f x = true -> g x = true) -> forallb f l = true -> forallb g l = true.
Proof. rewrite !forallb_forall. naive_solver. Qed.

Section TargetFacts.
Context `{Inet}.

(** The target of a host name or IPv4 literal. *)
Definition named_target (h : bytes) (port : Z) : pp_target :=
  match inet_pton4 h with
  | Some a => mk_target 4 a (fill 0 16) h port
  | None => mk_target 0 (fill 0 4) (fill 0 16) h port
  end.

Definition host_ok (h : bytes) : Prop := h <> [] /\ zlen h <= 255 /\ forallb host_char h = true.

Lemma host_no (f : Z -> bool) h : host_ok h -> (forall c, f c = true -> host_char c = false) -> forallb (fun x => negb (f x)) h = true.
Proof.
  intros (_ & _ & Hh) Hf. revert Hh. apply forallb_impl. intros x Hx. destruct (f x) eqn:E; [|done]. apply Hf in E. congruence.
Qed.

Lemma host_ok_test h : host_ok h -> ((zlen h =? 0) || (zlen h >? 255)) = false /\ forallb host_char h = true.
Proof. intros (Hn & Hl & Hh). split; [|done]. destruct h; [done|]. pose proof (zlen_nonneg h). zl. lia. Qed.

Lemma plain_target_sound s port t :
  0 <= port < 65536 -> plain_target s port = Some t ->
  exists h p, host_ok h /\ 0 <= p < 65536 /\ t = named_target h p.
Proof.
  intros Hp. unfold plain_target. destruct (split_colon s port) as [[h p]|] eqn:E; [|done].
  assert (0 <= p < 65536).
  { unfold split_colon in E. destruct (drop _ s) as [|c r]; [congruence|]. destruct (zlen r =? 0); [done|].
    destruct (existsb _ r); [done|]. destruct (pp_parse_port r) as [q|] eqn:Q; [|done]. apply port_range in Q. congruence. }
  destruct ((zlen h =? 0) || (zlen h >? 255)) eqn:Hl; [done|]. destruct (forallb host_char h) eqn:Hh; [|done].
  intros Ht. exists h, p. unfold host_ok. split_and!; [by intros ->|lia|done|lia|lia|].
  cbn [negb] in Ht. unfold named_target. destruct (inet_pton4 h); congruence.
Qed.

Lemma bracket_target_sound s port t :
  0 <= port < 65536 -> bracket_target s port = Some t ->
  exists lit6 a p, inet_pton6 lit6 = Some a /\ 0 <= p < 65536 /\ t = mk_target 6 (fill 0 4) a [] p.
Proof.
  intros Hp. unfold bracket_target. destruct (_ || (_ <? 3)); [done|]. destruct (_ >? 45); [done|].
  destruct (inet_pton6 _) as [a|] eqn:Ea; [|done]. destruct (drop _ s) as [|c r].
  - intros [= <-]. eauto 10.
  - destruct (c =? 58); [|done]. cbn [negb]. destruct (pp_parse_port r) as [p|] eqn:Ep; [|done].
    intros [= <-]. apply port_range in Ep. eauto 10.
Qed.

Lemma plain_target_port h ds port p :
  host_ok h -> pp_parse_port ds = Some p -> plain_target (h ++ 58 :: ds) port = Some (named_target h p).
Proof.
  intros Hh Hp. destruct (host_ok_test h Hh) as [Hl Hc]. unfold plain_target, split_colon.
  rewrite cut_app; [|apply host_no; [done|]; intros c Ec; unfold host_char; lia|done].
  rewrite drop_app_length. pose proof Hp as (Hd & Hg & _)%pp_parse_port_spec.
  assert ((zlen ds =? 0) = false) as -> by (destruct ds; [done|]; pose proof (zlen_nonneg ds); zlia).
  assert (existsb (Z.eqb 58) ds = false) as ->.
  { apply not_true_is_false. intros (x & Hx & Ex)%existsb_exists. rewrite forallb_forall in Hg.
    apply Hg in Hx. unfold digit in Hx. lia. }
  rewrite Hp, Hl, Hc. unfold named_target. cbn [negb]. by destruct (inet_pton4 h).
Qed.

Lemma plain_target_default h port : host_ok h -> plain_target h port = Some (named_target h port).
Proof.
  intros Hh. destruct (host_ok_test h Hh) as [Hl Hc]. unfold plain_target, split_colon.
  rewrite cut_none by (apply host_no; [done|]; intros c Ec; unfold host_char; lia).
  rewrite drop_all, Hl, Hc. unfold named_target. cbn [negb]. by destruct (inet_pton4 h).
Qed.

Lemma plain_dispatch s port :
  s <> [] -> hd 0 s <> 91 ->
  match s with [] => None | c :: _ => if c =? 91 then bracket_target s port else plain_target s port end = plain_target s port.
Proof. destruct s as [|c s]; [done|]. intros _ Hc. cbn in Hc. by replace (c =? 91) with false by lia. Qed.

Lemma host_hd h e : host_ok h -> h ++ e <> [] /\ hd 0 (h ++ e) <> 91.
Proof.
  destruct h as [|x h]; [by intros []|]. intros (_ & _ & Hx). split; [done|].
  cbn [forallb] in Hx. apply andb_true_iff in Hx as [Hx _]. cbn. intros ->. done.
Qed.

Lemma connect_target h ds p rest :
  host_ok h -> pp_parse_port ds = Some p -> pp_http_target (h ++ 58 :: ds ++ 32 :: rest) true = Some (named_target h p).
Proof.
  intros Hh Hp. unfold pp_http_target.
  replace (h ++ 58 :: ds ++ 32 :: rest) with ((h ++ 58 :: ds) ++ 32 :: rest) by (by rewrite <- app_assoc).
  rewrite cut_app; [|rewrite forallb_app; apply andb_true_iff; split; [|apply andb_true_iff; split; [done|]]|done].
  - destruct (host_hd h (58 :: ds) Hh). rewrite plain_dispatch by done. by apply plain_target_port.
  - apply host_no; [done|]. intros c Ec. unfold host_char. lia.
  - pose proof Hp as (_ & Hg & _)%pp_parse_port_spec. revert Hg. apply forallb_impl. unfold digit. intros. lia.
Qed.

Lemma uri_target (https : bool) h path :
  host_ok h ->
  pp_http_target ((if https then lit "https://" else lit "http://") ++ h ++ 47 :: path) false =
  Some (named_target h (if https then 443 else 80)).
Proof.
  intros Hh. unfold pp_http_target.
  assert (strip_scheme ((if https then lit "https://" else lit "http://") ++ h ++ 47 :: path) =
          (h ++ 47 :: path, if https then 443 else 80)) as ->.
  { unfold strip_scheme. set (e := h ++ 47 :: path). pose proof (zlen_nonneg e).
    destruct https; rewrite zlen_app.
    - change (zlen (lit "https://")) with 8. replace (8 + zlen e >=? 7) with true by lia.
      by replace (8 + zlen e >=? 8) with true by lia.
    - change (zlen (lit "http://")) with 7. by replace (7 + zlen e >=? 7) with true by lia. }
  assert (N : forall f : Z -> bool, (forall c, f c = true -> host_char c = false) -> forallb (fun x => negb (f x)) h = true)
    by (intros; by apply host_no).
  rewrite cut_app by (try apply N; try done; intros c; unfold uri_end, host_char; lia).
  rewrite cut_none by (apply N; intros c; unfold host_char; lia).
  destruct (host_hd h [] Hh) as [H1 H2]. rewrite app_nil_r in H1, H2. rewrite plain_dispatch by done.
  by apply plain_target_default.
Qed.

(** HTTP proxy targets are exact on hosts and ports.  Whatever the client sends, an
    accepted target has a 16-bit port and is either an IPv6 literal the library recognised or
    a host of 1 to 255 letters, digits, dots, hyphens and underscores (no CR, LF or NUL
    reaches the resolver), marked IPv4 exactly when the library reads it as one.  A CONNECT
    authority host:port with a decimal port up to 65535 yields that host and port, an absolute
    URI without a port yields 80 or 443 by its scheme, whatever follows. *)
Theorem pp_http_target_exact (s h ds rest : bytes) (is_connect https : bool) (p : Z) :
  host_ok h -> ds <> [] -> forallb digit ds = true -> dec 0 ds = p -> p <= 65535 ->
  (forall t, pp_http_target s is_connect = Some t -> 0 <= tg_port t < 65536 /\
     ((tg_af t = 6 /\ tg_host t = [] /\ exists l, inet_pton6 l = Some (tg_ip6 t)) \/
      (host_ok (tg_host t) /\ t = named_target (tg_host t) (tg_port t)))) /\
  pp_http_target (h ++ 58 :: ds ++ 32 :: rest) true = Some (named_target h p) /\
  pp_http_target ((if https then lit "https://" else lit "http://") ++ h ++ 47 :: rest) false =
    Some (named_target h (if https then 443 else 80)).
Proof.
  intros Hh Hn Hg Hv Hp. split; [|split].
  - intros t. unfold pp_http_target.
    assert (exists s' q, (if is_connect then (s, 443) else let (s, port) := strip_scheme s in (cut uri_end s, port)) =
              (s', q) /\ 0 <= q < 65536) as (s' & q & -> & Hq).
    { destruct is_connect; [by do 2 eexists|]. unfold strip_scheme. by destruct (_ && _); [|destruct (_ && _)]; do 2 eexists. }
    destruct (cut (Z.eqb 32) s') as [|c r] eqn:E; [done|]. destruct (c =? 91).
    + intros (l & a & p' & Hl & Hp' & ->)%bracket_target_sound; [|done]. cbn. eauto 10.
    + intros (h' & p' & Hh' & Hp' & ->)%plain_target_sound; [|done]. unfold named_target.
      destruct (inet_pton4 h') eqn:E4; cbn; rewrite ?E4; eauto.
  - apply connect_target; [done|]. by apply pp_parse_port_spec.
  - by apply uri_target.
Qed.

End TargetFacts.

(** A library that reads one IPv4 and one IPv6 literal. *)
Definition demo_inet : Inet := {|
  inet_pton4 h := if beq h (lit "10.0.0.1") then Some [10; 0; 0; 1] else None;
  inet_pton6 h := if beq h (lit "::1") then Some (fill 0 15 ++ [1]) else None
|}.

Lemma pp_http_target_exact_witness :
  @pp_http_target demo_inet (lit "10.0.0.1:8080 HTTP/1.1") true =
    Some (mk_target 4 [10; 0; 0; 1] (fill 0 16) (lit "10.0.0.1") 8080) /\
  @pp_http_target demo_inet (lit "[::1]:22") true = Some (mk_target 6 (fill 0 4) (fill 0 15 ++ [1]) [] 22) /\
  @pp_http_target demo_inet (lit "ustc.edu.cn" ++ 58 :: lit "8080" ++ 32 :: []) true =
    Some (@named_target demo_inet (lit "ustc.edu.cn") 8080).
Proof.
  split; [vm_compute; reflexivity|]. split; [vm_compute; reflexivity|].
  refine (proj1 (proj2 (@pp_http_target_exact demo_inet [] (lit "ustc.edu.cn") (lit "8080") [] true true 8080 _ _ _ _ _))).
  - split; [discriminate|]. split; [vm_compute; discriminate|vm_compute; reflexivity].
  - discriminate.
  - vm_compute. reflexivity.
  - vm_compute. reflexivity.
  - vm_compute. discriminate.
Defined.
