(* ===== verification/Route.v ===== *)
(** * Routes of the client (src/src/common/route_common.c, route_linux.c and the route targets of proxy.c)

    The texts that name routes, the expansion of route targets, and the programs of [ip] commands that bring the tunnel
    up and down on Linux.  The tool is the class [Ip], the C library's resolver the class [Resolver]; the routing table behind the tool
    is described by [IpLaws]. *)

From S2P Require Import Prelude Util Crypto Protocol Session ProtoParse.
Import Scan.

(** ** Texts (route_common.c) *)

Definition cidr_parse (s : bytes) : option (Z * Z) :=
  match find_index (fun c => c =? 47 (* '/' *)) s with
  | None => None
  | Some n =>
      let rest := drop (S n) s in
      if (Z.of_nat n =? 0) || existsb (fun c => c =? 47) rest then None
      else if (Z.of_nat n =? 0) || (Z.of_nat n >=? 16) then None
      else
        match s2ip4 (take n s) with
        | None => None
        | Some b =>
            if (hd 0 rest <? 48) || (hd 0 rest >? 57) then None
            else
              let '(p, e, _) := strtol rest in
              if (zlen e =? zlen rest) || negb (hd 0 e =? 0) || (p <? 0) || (p >? 32) then None
              else if (p =? 0) && negb (ip4_u32 b =? 0) then None
              else Some (ip4_u32 b, p)
        end
  end.

(** [plen == 0 ? 0 : ~((1u << (32 - plen)) - 1)]. *)
Definition netmask (plen : Z) : Z := if plen =? 0 then 0 else u32 (Z.lnot (u32 (Z.shiftl 1 (32 - plen)) - 1)).

(** [%u.%u.%u.%u/%d], at most 18 characters. *)
Definition net_text (net plen : Z) : bytes := ip_to_string (u32_ip4 net) ++ [47] ++ dec_str plen.

Definition canon_v4_cidr (c : bytes) : option bytes :=
  match cidr_parse c with
  | None => None
  | Some (net, prefix) => Some (net_text (Z.land net (netmask prefix)) prefix)
  end.

(** Sixteen bytes as eight groups of four digits. *)
Fixpoint groups6 (n : nat) (b : bytes) : bytes :=
  match n with
  | O => hex_encode (take 2 b)
  | S n => hex_encode (take 2 b) ++ [58 (* ':' *)] ++ groups6 n (drop 2 b)
  end.

Definition tun_ula_str (tun_ip : bytes) : option bytes :=
  match s2ip4 tun_ip with
  | None => None
  | Some v4 => Some (groups6 7 (ip6_derive_ula (ip4_u32 v4)))
  end.

Definition is_default_v4 (c : bytes) : bool := beq c (lit "default") || beq c (lit "0.0.0.0/0").

Definition copy_token (cap : Z) (tok : bytes) : bytes := take (Z.to_nat (if zlen tok >=? cap then cap - 1 else zlen tok)) tok.

(** ** Route targets (proxy.c) *)

Definition slist_has (s : list bytes) (str : bytes) : bool := existsb (fun v => beq v str) s.

Definition push_unique (s : list bytes) (str : bytes) : list bytes := if slist_has s str then s else Slist.slist_push s str.

(** Where [strtoul] with base 0 stops; [None] when it takes nothing. *)
Definition ishex (c : Z) : bool := isdigit c || ((97 <=? c) && (c <=? 102)) || ((65 <=? c) && (c <=? 70)).
Definition isoctal (c : Z) : bool := (48 <=? c) && (c <=? 55).

Fixpoint skip_while (f : Z -> bool) (s : bytes) : bytes :=
  match s with
  | c :: r => if f c then skip_while f r else s
  | [] => []
  end.

Definition strtoul0 (s : bytes) : option bytes :=
  let (_, t) := strtol_sign (skip_space s) in
  match t with
  | c :: r =>
      if c =? 48 then
        match r with
        | x :: h :: r' => if ((x =? 120) || (x =? 88)) && ishex h then Some (skip_while ishex r') else Some (skip_while isoctal r)
        | _ => Some (skip_while isoctal r)
        end
      else if isdigit c then Some (skip_while isdigit r) else None
  | [] => None
  end.

Fixpoint numeric_loop (fuel : nat) (q : bytes) (parts : Z) : res bool :=
  match fuel with
  | O => Fault OutOfFuel
  | S fuel =>
      match strtoul0 q with
      | None => Ret false
      | Some [] => Ret (parts + 1 <=? 4)
      | Some (c :: r) => if negb (c =? 46) then Ret false else numeric_loop fuel r (parts + 1)
      end
  end.

Definition numeric_v4_spelling (s : bytes) : res bool := numeric_loop (S (length s)) s 0.

(** [getaddrinfo] of a family with the entries it gives, true for AF_INET6; [None] is an error. *)
Class Resolver := {
  getaddrinfo : bool -> bytes -> option (list (bool * bytes));
  inet_ntop6 : bytes -> bytes
}.

Definition blank (c : Z) : bool := (c =? 32) || (c =? 9) || (c =? 13) || (c =? 10).
Definition trim_blank (s : bytes) : bytes := rev (skip_while blank (rev (skip_while blank s))).

Section Targets.
Context `{Inet} `{Resolver}.

Definition host_route (v6 : bool) (e : bool * bytes) : bytes := if v6 then take 45 (inet_ntop6 e.2) ++ lit "/128" else ip_to_string e.2 ++ lit "/32".

(** The addresses of a name; [None] when there are none of the family. *)
Definition resolve (v6 : bool) (p : bytes) : option (list bytes) :=
  match getaddrinfo v6 p with
  | None => None
  | Some l =>
      match filter (fun e : bool * bytes => e.1 = v6) l with
      | [] => None
      | l => Some (map (host_route v6) l)
      end
  end.

(** A target that holds a slash. *)
Definition target_cidr6 (p : bytes) (an : nat) : bool :=
  if (Z.of_nat an =? 0) || (Z.of_nat an >=? 64) then false
  else
    match inet_pton6 (take an p) with
    | None => false
    | Some _ =>
        let rest := drop (S an) p in
        if (hd 0 rest <? 48) || (hd 0 rest >? 57) then false
        else let '(plen, e, _) := strtol rest in negb (negb (hd 0 e =? 0) || (plen <? 0) || (plen >? 128))
    end.

(** The entries of one trimmed target; [None] for -1. *)
Definition expand_target (v6 : bool) (p : bytes) : res (option (list bytes)) :=
  if negb v6 && beq p (lit "default") then Ret (Some [p])
  else
    match find_index (fun c => c =? 47) p with
    | Some an =>
        if negb v6 then Ret (match cidr_parse p with None => None | Some _ => Some [p] end)
        else Ret (if target_cidr6 p an then Some [p] else None)
    | None =>
        if negb v6 then
          match inet_pton4 p with
          | Some _ => Ret (Some [snprintf 64 (p ++ lit "/32")])
          | None => let! num := numeric_v4_spelling p in if num then Ret None else Ret (resolve false p)
          end
        else
          match inet_pton6 p with
          | Some _ => Ret (Some [snprintf 64 (p ++ lit "/128")])
          | None => if existsb (fun c => c =? 58) p then Ret None else Ret (resolve true p)
          end
    end.

Fixpoint expand_loop (v6 : bool) (targets out : list bytes) : res (option (list bytes)) :=
  match targets with
  | [] => Ret (Some out)
  | raw :: r =>
      match trim_blank raw with
      | [] => expand_loop v6 r out
      | p =>
          let! x := expand_target v6 p in
          match x with
          | None => Ret None
          | Some l => expand_loop v6 r (fold_left push_unique l out)
          end
      end
  end.

(** [None] for a null list of targets. *)
Definition expand_route_targets_fam (v6 : bool) (targets : option (list bytes)) : res (option (list bytes)) :=
  match targets with None => Ret (Some []) | Some l => expand_loop v6 l [] end.

End Targets.

(** ** The tool (route_linux.c) *)

(** A machine, [ip_run] with its exit status as success, and the output of [cmd_capture]. *)
Class Ip := {
  machine : Type;
  ip_run : list bytes -> machine -> bool * machine;
  cmd_capture : list bytes -> machine -> option bytes
}.

(** The tokens [strtok_r] gives one after the other. *)
Fixpoint strtok (delim : Z -> bool) (cur : bytes) (s : bytes) : list bytes :=
  let emit l := match cur with [] => l | _ => cur :: l end in
  match s with
  | [] => emit []
  | c :: r => if delim c then emit (strtok delim [] r) else strtok delim (cur ++ [c]) r
  end.

Definition lines (s : bytes) : list bytes := strtok (fun c => c =? 10) [] s.
Definition words (s : bytes) : list bytes := strtok (fun c => (c =? 32) || (c =? 9) || (c =? 13)) [] s.

(** The words after via, dev and metric, the last of each. *)
Fixpoint default_line (toks : list bytes) (gw dev metric : option bytes) : option bytes * option bytes * option bytes :=
  match toks with
  | [] => (gw, dev, metric)
  | t :: r =>
      if beq t (lit "via") then match r with x :: r => default_line r (Some x) dev metric | [] => (None, dev, metric) end
      else if beq t (lit "dev") then match r with x :: r => default_line r gw (Some x) metric | [] => (gw, None, metric) end
      else if beq t (lit "metric") then match r with x :: r => default_line r gw dev (Some x) | [] => (gw, dev, None) end
      else default_line r gw dev metric
  end.

Record gateway := mk_gw { og_gw : bytes; og_dev : bytes; og_metric : bytes }.

Fixpoint first_default (ls : list bytes) : option gateway :=
  match ls with
  | [] => None
  | l :: r =>
      match default_line (words l) None None None with
      | (Some g, Some d, m) => Some (mk_gw (copy_token 16 g) (copy_token 16 d) (match m with Some x => copy_token 16 x | None => [] end))
      | _ => first_default r
      end
  end.

(** The network of [ip/plen], [None] when the line is given up. *)
Definition subnet_of (cidr : bytes) (slash : nat) : option bytes :=
  match s2ip4 (take slash cidr) with
  | None => None
  | Some b =>
      let rest := drop (S slash) cidr in
      let '(p, e, _) := strtol rest in
      let plen := if (zlen e =? zlen rest) || negb (hd 0 e =? 0) || (p <? 0) then 24 else if p >? 32 then 32 else p in
      Some (net_text (Z.land (ip4_u32 b) (netmask plen)) plen)
  end.

Fixpoint line_subnet (toks : list bytes) (inet : bool) : option bytes :=
  match toks with
  | [] => None
  | t :: r =>
      if inet then match find_index (fun c => c =? 47) t with Some n => subnet_of t n | None => line_subnet r true end
      else line_subnet r (beq t (lit "inet"))
  end.

Fixpoint first_subnet (ls : list bytes) : option bytes :=
  match ls with
  | [] => None
  | l :: r => match line_subnet (words l) false with Some s => Some s | None => first_subnet r end
  end.

(** [srv_default_installed] and [srv_pin_installed]. *)
Record flags := mk_flags { srv_default_installed : bool; srv_pin_installed : bool }.

Section Tool.
Context `{Inet} `{Ip}.

(** Commands in order, up to the first that fails. *)
Fixpoint run_all (cmds : list (list bytes)) (m : machine) : bool * machine :=
  match cmds with
  | [] => (true, m)
  | a :: r => let (ok, m) := ip_run a m in if ok then run_all r m else (false, m)
  end.

Definition tun_iface_up6 (tun tun_ip : bytes) (m : machine) : machine :=
  match tun_ula_str tun_ip with
  | None => m
  | Some ula => (ip_run [lit "-6"; lit "addr"; lit "add"; snprintf 72 (ula ++ lit "/96"); lit "dev"; tun] m).2
  end.

Definition route_iface_up (tun tun_ip : bytes) (mtu : Z) (m : machine) : bool * machine :=
  let (ok, m) := run_all
    [ [lit "addr"; lit "flush"; lit "dev"; tun];
      [lit "link"; lit "set"; tun; lit "up"];
      [lit "link"; lit "set"; lit "dev"; tun; lit "mtu"; dec_str mtu];
      [lit "addr"; lit "add"; snprintf 64 (tun_ip ++ lit "/24"); lit "dev"; tun] ] m in
  if ok then (true, tun_iface_up6 tun tun_ip m) else (false, m).

Definition route_iface_down (tun : bytes) (m : machine) : machine :=
  let m := (ip_run [lit "addr"; lit "flush"; lit "dev"; tun] m).2 in
  (ip_run [lit "link"; lit "set"; tun; lit "down"] m).2.

Definition capture_default (m : machine) : option gateway :=
  match cmd_capture [lit "-4"; lit "route"; lit "show"; lit "default"] m with
  | None => None
  | Some out => first_default (lines out)
  end.

Definition local_subnet (dev : bytes) (m : machine) : option bytes :=
  match cmd_capture [lit "-4"; lit "addr"; lit "show"; lit "dev"; dev] m with
  | None => None
  | Some cap => first_subnet (lines cap)
  end.

Definition pinned (srv : bytes) : bool :=
  match inet_pton4 srv with Some s4 => negb (Z.shiftr (ip4_u32 s4) 24 =? 127) | None => false end.

Definition srv32 (srv : bytes) : bytes := snprintf 64 (srv ++ lit "/32").

Definition target_of (c : bytes) : bytes := match canon_v4_cidr c with Some n => n | None => c end.

Definition flush_cache (m : machine) : machine := (ip_run [lit "route"; lit "flush"; lit "cache"] m).2.

(** One target of [route_setup]; false to roll back. *)
Definition setup_target (tun odev c : bytes) (f : flags) (m : machine) : bool * flags * machine :=
  if is_default_v4 c then
    let (ok, m) := match local_subnet odev m with
                   | Some loc => ip_run [lit "route"; lit "replace"; loc; lit "dev"; odev] m
                   | None => (true, m)
                   end in
    if negb ok then (false, f, m)
    else
      let (ok, m) := ip_run [lit "route"; lit "replace"; lit "default"; lit "dev"; tun] m in
      if ok then (true, mk_flags true (srv_pin_installed f), m) else (false, f, m)
  else
    let (ok, m) := ip_run [lit "route"; lit "replace"; target_of c; lit "dev"; tun] m in (ok, f, m).

Fixpoint setup_loop (tun odev : bytes) (routes : list bytes) (f : flags) (m : machine) : bool * flags * machine :=
  match routes with
  | [] => (true, f, m)
  | c :: r => let '(ok, f, m) := setup_target tun odev c f m in if ok then setup_loop tun odev r f m else (false, f, m)
  end.

Definition metric_args (x : bytes) : list bytes := match x with [] => [] | _ => [lit "metric"; x] end.

(** The pre-VPN default again, or at least one on its device. *)
Definition restore_default (g : gateway) (m : machine) : machine :=
  let d2 := [lit "route"; lit "replace"; lit "default"; lit "via"; og_gw g; lit "dev"; og_dev g] ++
            metric_args (og_metric g) in
  let (ok, m) := ip_run d2 m in
  if ok then m else (ip_run [lit "route"; lit "replace"; lit "default"; lit "dev"; og_dev g] m).2.

Definition teardown_target (tun : bytes) (g : gateway) (c : bytes) (f : flags) (m : machine) : flags * machine :=
  if is_default_v4 c then
    if negb (srv_default_installed f) then (f, m)
    else
      let f := mk_flags false (srv_pin_installed f) in
      let (ok, m) := ip_run [lit "route"; lit "del"; lit "default"; lit "dev"; tun] m in
      if ok then (f, restore_default g m) else (f, m)
  else (f, (ip_run [lit "route"; lit "del"; target_of c; lit "dev"; tun] m).2).

Fixpoint teardown_loop (tun : bytes) (g : gateway) (routes : list bytes) (f : flags) (m : machine) : flags * machine :=
  match routes with
  | [] => (f, m)
  | c :: r => let (f, m) := teardown_target tun g c f m in teardown_loop tun g r f m
  end.

Definition route_teardown (tun srv : bytes) (g : gateway) (routes : list bytes) (f : flags) (m : machine) : flags * machine :=
  let (f, m) := teardown_loop tun g routes f m in
  let (f, m) := if pinned srv && srv_pin_installed f
                then (mk_flags (srv_default_installed f) false,
                      (ip_run [lit "route"; lit "del"; srv32 srv; lit "via"; og_gw g; lit "dev"; og_dev g] m).2)
                else (f, m) in
  (f, flush_cache (route_iface_down tun m)).

Definition route_setup (tun tun_ip : bytes) (mtu : Z) (srv : bytes) (g : gateway) (routes : list bytes) (m : machine) : bool * flags * machine :=
  let f := mk_flags false false in
  let (ok, m) := route_iface_up tun tun_ip mtu m in
  if negb ok then (false, f, route_iface_down tun m)
  else
    let (ok, m) := if pinned srv then ip_run [lit "route"; lit "replace"; srv32 srv; lit "via"; og_gw g; lit "dev"; og_dev g] m else (true, m) in
    if negb ok then (false, f, route_iface_down tun m)
    else
      let '(ok, f, m) := setup_loop tun (og_dev g) routes (mk_flags false (pinned srv)) m in
      if ok then (true, f, flush_cache m)
      else let (f, m) := route_teardown tun srv g routes f m in (false, f, m).

Fixpoint route_setup6 (tun : bytes) (routes6 : list bytes) (m : machine) : machine :=
  match routes6 with
  | [] => m
  | c :: r => route_setup6 tun r (ip_run [lit "-6"; lit "route"; lit "replace"; c; lit "dev"; tun; lit "metric"; lit "0"] m).2
  end.

Fixpoint route_teardown6 (tun : bytes) (routes6 : list bytes) (m : machine) : machine :=
  match routes6 with
  | [] => m
  | c :: r => route_teardown6 tun r (ip_run [lit "-6"; lit "route"; lit "del"; c; lit "dev"; tun] m).2
  end.

(** [teardown_routes] of proxy.c. *)
Definition teardown_routes (tun srv : bytes) (g : gateway) (routes routes6 : list bytes) (f : flags) (m : machine) : flags * machine :=
  let m := route_teardown6 tun routes6 m in
  if 0 <? zlen routes then route_teardown tun srv g routes f m else (f, route_iface_down tun m).

End Tool.

(** * The routing table *)

(** A route of the main IPv4 table: network and prefix length, metric (empty for none), gateway, device. *)
Record route := mk_route { rt_net : Z * Z; rt_metric : bytes; rt_via : option bytes; rt_dev : bytes }.

#[export] Instance route_eq_dec : EqDecision route.
Proof. solve_decision. Defined.

Definition table : Type := route -> Prop.
Definition same (R R' : table) : Prop := forall y, R' y <-> R y.

Definition same_slot (x y : route) : Prop := rt_net x = rt_net y /\ rt_metric x = rt_metric y.

(** [ip route replace]: a route of the slot, if there is one, gives way. *)
Definition replaced (R R' : table) (r : route) : Prop :=
  exists x : option route,
    match x with Some x => R x /\ same_slot x r | None => forall y, R y -> ~ same_slot y r end /\
    forall y, R' y <-> y = r \/ (R y /\ Some y <> x).

Definition selects (n : Z * Z) (via : option bytes) (dev : bytes) (y : route) : Prop :=
  rt_net y = n /\ rt_dev y = dev /\ (via = None \/ rt_via y = via).

(** [ip route del]: one of the selected routes goes, one without metric first. *)
Definition deleted (R R' : table) (n : Z * Z) (via : option bytes) (dev : bytes) : Prop :=
  exists x, R x /\ selects n via dev x /\ ((exists z, R z /\ selects n via dev z /\ rt_metric z = []) -> rt_metric x = []) /\
    forall y, R' y <-> R y /\ y <> x.

(** The network a text names on the command line. *)
Definition net_of (p : bytes) : option (Z * Z) := if beq p (lit "default") then Some (0, 0) else cidr_parse p.

Definition via_args (v : option bytes) : list bytes := match v with None => [] | Some g => [lit "via"; g] end.

(** Commands on the addresses and the state of a device. *)
Inductive iface_cmd (d : bytes) : list bytes -> Prop :=
  | If_flush : iface_cmd d [lit "addr"; lit "flush"; lit "dev"; d]
  | If_up : iface_cmd d [lit "link"; lit "set"; d; lit "up"]
  | If_mtu x : iface_cmd d [lit "link"; lit "set"; lit "dev"; d; lit "mtu"; x]
  | If_add x : iface_cmd d [lit "addr"; lit "add"; x; lit "dev"; d]
  | If_add6 x : iface_cmd d [lit "-6"; lit "addr"; lit "add"; x; lit "dev"; d]
  | If_down : iface_cmd d [lit "link"; lit "set"; d; lit "down"].

(** What iproute2 documents: a command that fails changes no route; a delete fails only when nothing is selected; the commands
    on a device touch no route of another one and add at most routes to its networks, without gateway and metric, and taking addresses away adds none; a device that is down has no routes; route
    commands change no address; [route show default] prints one route per line. *)
Class IpLaws `{Ip} := {
  routes : machine -> table;
  ip_replace : forall m p v d x n, net_of p = Some n ->
    let c := ip_run ([lit "route"; lit "replace"; p] ++ via_args v ++ [lit "dev"; d] ++ metric_args x) m in
    if c.1 then replaced (routes m) (routes c.2) (mk_route n x v d) else same (routes m) (routes c.2);
  ip_del : forall m p v d n, net_of p = Some n ->
    let c := ip_run ([lit "route"; lit "del"; p] ++ via_args v ++ [lit "dev"; d]) m in
    if c.1 then deleted (routes m) (routes c.2) n v d else same (routes m) (routes c.2) /\ forall y, routes m y -> ~ selects n v d y;
  ip_iface : forall m d a, iface_cmd d a ->
    (forall y, rt_dev y <> d -> routes (ip_run a m).2 y <-> routes m y) /\
    (forall y, rt_dev y = d -> routes (ip_run a m).2 y -> routes m y \/ (rt_via y = None /\ rt_metric y = [] /\ rt_net y <> (0, 0)));
  ip_leave : forall m d a y, a = [lit "addr"; lit "flush"; lit "dev"; d] \/ a = [lit "link"; lit "set"; d; lit "down"] ->
    routes (ip_run a m).2 y -> routes m y;
  ip_down : forall m d y, (ip_run [lit "link"; lit "set"; d; lit "down"] m).1 = true -> routes (ip_run [lit "link"; lit "set"; d; lit "down"] m).2 y -> rt_dev y <> d;
  ip_cache : forall m, same (routes m) (routes (ip_run [lit "route"; lit "flush"; lit "cache"] m).2);
  ip_six : forall m a, same (routes m) (routes (ip_run (lit "-6" :: lit "route" :: a) m).2);
  ip_addr : forall m d e a, (exists r, a = lit "route" :: r \/ a = lit "-6" :: lit "route" :: r) \/ (iface_cmd e a /\ e <> d) ->
    cmd_capture [lit "-4"; lit "addr"; lit "show"; lit "dev"; d] (ip_run a m).2 = cmd_capture [lit "-4"; lit "addr"; lit "show"; lit "dev"; d] m;
  ip_text : forall m a out, cmd_capture a m = Some out -> cstr_ok out;
  ip_show : forall m out l g d x, cmd_capture [lit "-4"; lit "route"; lit "show"; lit "default"] m = Some out -> l ∈ lines out ->
    default_line (words l) None None None = (Some g, Some d, x) ->
    routes m (mk_route (0, 0) (default [] x) (Some g) d) /\ zlen g < 16 /\ zlen d < 16 /\ zlen (default [] x) < 16
}.

(** [inet_pton] takes dotted decimal without leading zeros only, and no IPv6 address has more than 45 characters. *)
Class InetLaws `{Inet} := {
  inet_pton4_quad : forall s b, inet_pton4 s = Some b -> s2ip4 s = Some b;
  inet_pton6_len : forall s b, inet_pton6 s = Some b -> zlen s <= 45
}.

(** Addresses of the resolver have four bytes, and their texts fit [INET6_ADDRSTRLEN]. *)
Class ResolverLaws `{Resolver} := {
  gai_quad : forall p l b, getaddrinfo false p = Some l -> (false, b) ∈ l -> bytes_ok b /\ zlen b = 4;
  ntop6_len : forall b, zlen (inet_ntop6 b) <= 45
}.

(** * Proofs *)

(** ** Texts *)

Lemma octet_text v : 0 <= v < 256 -> forallb isdigit (dec_str v) = true /\ zlen (dec_str v) <= 3.
Proof.
  intros Hv. assert (forallb isdigit (dec_str v) && (zlen (dec_str v) <=? 3) = true) as [H1 H2]%andb_prop; [|split; [done|lia]].
  by apply (below_spec 256 (fun v => forallb isdigit (dec_str v) && (zlen (dec_str v) <=? 3))); [vm_compute|].
Qed.

Lemma quad_text b : bytes_ok b -> Forall (fun c => c = 46 \/ isdigit c = true) (ip_to_string b) /\ 0 < zlen (ip_to_string b) < 16.
Proof.
  intros Hb. unfold ip_to_string. destruct (octet_text b.[0]) as [D0 L0]; [by apply at_byte|]. destruct (octet_text b.[1]) as [D1 L1]; [by apply at_byte|].
  destruct (octet_text b.[2]) as [D2 L2]; [by apply at_byte|]. destruct (octet_text b.[3]) as [D3 L3]; [by apply at_byte|].
  assert (forall d, forallb isdigit d = true -> Forall (fun c => c = 46 \/ isdigit c = true) d) as Hd.
  { intros d Hd. apply Forall_forall. intros c Hc. right. rewrite forallb_forall in Hd. apply Hd. by apply list_elem_of_In. }
  split; [repeat (apply Forall_app; split); auto; (constructor; [by left|constructor])|].
  zl. pose proof (zlen_nonneg (dec_str b.[0])). pose proof (zlen_nonneg (dec_str b.[1])). pose proof (zlen_nonneg (dec_str b.[2])). pose proof (zlen_nonneg (dec_str b.[3])). lia.
Qed.

Lemma slash_after a r : Forall (fun c => c <> 47) a -> find_index (fun c => c =? 47) (a ++ 47 :: r) = Some (length a).
Proof.
  intros Ha. apply find_index_Some. rewrite list_lookup_middle by done. split; [by exists 47|]. intros j x Hj Hx. rewrite lookup_app_l in Hx by done.
  apply (Forall_lookup_1 _ _ _ _ Ha) in Hx. lia.
Qed.

Lemma slash_split s n : find_index (fun c => c =? 47) s = Some n -> s = take n s ++ 47 :: drop (S n) s.
Proof.
  intros [(x & Hx & Ex) _]%find_index_Some. rewrite <- (take_drop_middle s n x Hx) at 1. by replace x with 47 by lia.
Qed.

Lemma plain_digits d : forallb isdigit d = true -> existsb (fun c => c =? 47) d = false.
Proof. induction d as [|c d IH]; [done|]. cbn [forallb existsb]. intros [Hc Hd]%andb_prop. rewrite IH by done. unfold isdigit in Hc. lia. Qed.

(** [cidr_parse] accepts exactly a dotted quad without leading zeros, a slash and digits of value at most 32, and a prefix length of zero only with the
    address zero. *)
Lemma cidr_parse_exact s net p : cstr_ok s ->
  cidr_parse s = Some (net, p) <->
  exists b d, s = ip_to_string b ++ 47 :: d /\ bytes_ok b /\ zlen b = 4 /\ net = ip4_u32 b /\ d <> [] /\ forallb isdigit d = true /\
    p = digits_val d /\ p <= 32 /\ (p = 0 -> net = 0).
Proof.
  intros Hs. split.
  - unfold cidr_parse. destruct (find_index _ s) as [n|] eqn:En; [|done]. apply slash_split in En. cbv zeta. remember (drop (S n) s) as rest eqn:Er. clear Er.
    destruct (_ || existsb _ rest) eqn:E1; [done|]. destruct ((Z.of_nat n =? 0) || (Z.of_nat n >=? 16)) eqn:E2; [done|]. assert (cstr_ok (take n s) /\ cstr_ok rest) as [Ht Hr].
    { rewrite En in Hs. apply Forall_app in Hs as [? Hs]. by inversion Hs. }
    destruct (s2ip4 (take n s)) as [b|] eqn:Eb; [|done]. apply s2ip4_canonical in Eb as (Hb & Hl & Et); [|done].
    destruct ((hd 0 rest <? 48) || _) eqn:E3; [done|]. destruct (span_digits_spec rest) as (Hsp & Hd & Hnd).
    remember (span_digits rest).1 as d eqn:Ed. remember (span_digits rest).2 as e eqn:Ee. clear Ed Ee.
    assert (d <> []) as Hne by (intros ->; cbn in Hsp; rewrite <- Hsp in Hnd; unfold isdigit in Hnd; lia).
    rewrite Hsp at 1. rewrite strtol_digits by done. pose proof (digits_val_nonneg d Hd) as Hv.
    assert (forall v x, (if (zlen e =? zlen rest) || negb (hd 0 e =? 0) || (v <? 0) || (v >? 32) then None else x) = Some (net, p) -> e = [] /\ v <= 32 /\ x = Some (net, p)) as Hif.
    { intros v x Hx. hyp_if Hx E; [done|]. split_and!; [|lia|done]. apply hd_cstr_nil; [|lia]. rewrite Hsp in Hr. by apply Forall_app in Hr as [_ Hr]. }
    destruct (digits_val d >? LLONG_MAX) eqn:E4; intros (-> & Hp & Hx)%Hif; [unfold LLONG_MAX in Hp; lia|]. destruct (_ && _) eqn:E5; [done|]. injection Hx as <- <-.
    exists b, d. rewrite app_nil_r in Hsp. rewrite Et, Hsp in En. split_and!; try done. intros H0. rewrite H0 in E5. cbn in E5. lia.
  - intros (b & d & -> & Hb & Hl & -> & Hne & Hd & Hp & Hp32 & H0). destruct (quad_text b Hb) as [Hq Hql]. unfold cidr_parse.
    assert (Forall (fun c => c <> 47) (ip_to_string b)) as Hns by (eapply Forall_impl; [exact Hq|]; intros c [->|Hc]; [done|unfold isdigit in Hc; lia]).
    rewrite slash_after by done. rewrite take_app_length. replace (S (length (ip_to_string b))) with (length (ip_to_string b ++ [47])) by (rewrite length_app; apply Nat.add_1_r).
    replace (ip_to_string b ++ 47 :: d) with ((ip_to_string b ++ [47]) ++ d) by (by rewrite <- app_assoc). rewrite drop_app_length. cbv zeta.
    rewrite plain_digits by done. fold (zlen (ip_to_string b)). destruct ((zlen (ip_to_string b) =? 0) || false) eqn:E1; [lia|]. destruct (_ || (_ >=? 16)) eqn:E2; [lia|].
    rewrite s2ip4_print by done. destruct d as [|c d]; [done|]. assert (isdigit c = true) as Hc by (cbn [forallb] in Hd; by apply andb_prop in Hd as [? _]). unfold isdigit in Hc.
    cbn [hd]. destruct ((c <? 48) || _) eqn:E3; [lia|]. pose proof (digits_val_nonneg _ Hd) as Hv. rewrite <- (app_nil_r (c :: d)) at 1. rewrite strtol_digits by done.
    rewrite <- Hp in *. destruct (p >? LLONG_MAX) eqn:E4; [unfold LLONG_MAX in E4; lia|]. rewrite zlen_nil, zlen_cons. pose proof (zlen_nonneg d). cbn [hd].
    head_if E5; [lia|]. head_if E6; [lia|done].
Qed.

Lemma netmask_spec a p : 0 <= a < 2 ^ 32 -> 0 <= p <= 32 -> Z.land a (netmask p) = a / 2 ^ (32 - p) * 2 ^ (32 - p).
Proof.
  intros Ha Hp. unfold netmask. destruct (p =? 0) eqn:E.
  - rewrite Z.land_0_r. replace (32 - p) with 32 by lia. by rewrite Z.div_small by lia.
  - rewrite <- (proj1 (land_mask_base a p Ha Hp)). f_equal. destruct (land_mask_base 0 p) as [_ Hm]; [lia|lia|].
    assert (0 < 2 ^ (32 - p) <= 2 ^ 31) by (split; [apply Z.pow_pos_nonneg; lia|apply Z.pow_le_mono_r; lia]).
    rewrite Z.shiftl_1_l, (u32_small (2 ^ _)) by lia. unfold Z.lnot, u32. rewrite <- (Z.mod_add _ 1) by lia. rewrite Z.mod_small by lia. fold (u32 (Z.shiftl 4294967295 (32 - p))). lia.
Qed.

Lemma masked_range a p : 0 <= a < 2 ^ 32 -> 0 <= p <= 32 -> 0 <= Z.land a (netmask p) < 2 ^ 32 /\ (p = 0 -> Z.land a (netmask p) = 0).
Proof.
  intros Ha Hp. rewrite netmask_spec by done. assert (0 < 2 ^ (32 - p)) by (apply Z.pow_pos_nonneg; lia). pose proof (Z.mul_div_le a (2 ^ (32 - p))). pose proof (Z.div_pos a (2 ^ (32 - p))).
  split; [nia|]. intros ->. by rewrite Z.div_small by lia.
Qed.

Lemma net_text_ok a p : 0 <= a < 2 ^ 32 -> 0 <= p <= 32 -> (p = 0 -> a = 0) -> cidr_parse (net_text a p) = Some (a, p) /\ net_of (net_text a p) = Some (a, p).
Proof.
  intros Ha Hp H0. destruct (dec_str_spec p) as (Hd & Hv & Hne & _); [lia|]. destruct (quad_text (u32_ip4 a) (u32_ip4_ok a)) as [Hq Hl].
  assert (cidr_parse (net_text a p) = Some (a, p)) as Hc.
  { apply cidr_parse_exact; [|exists (u32_ip4 a), (dec_str p); split_and!; try done; [apply u32_ip4_ok|by rewrite ip4_put32|lia]].
    apply Forall_app. split; [eapply Forall_impl; [exact Hq|]; intros c [->|Hc]; [done|unfold isdigit in Hc; lia]|]. constructor; [done|].
    apply Forall_forall. intros c Hc%list_elem_of_In. rewrite forallb_forall in Hd. specialize (Hd c Hc). unfold isdigit in Hd. lia. }
  split; [done|]. unfold net_of. destruct (beq _ _) eqn:E; [|done]. apply beq_true in E. by rewrite E in Hc.
Qed.

Lemma quad_cidr b : bytes_ok b -> zlen b = 4 -> cidr_parse (ip_to_string b ++ lit "/32") = Some (ip4_u32 b, 32) /\ net_of (ip_to_string b ++ lit "/32") = Some (ip4_u32 b, 32).
Proof.
  intros Hb Hl. assert (cidr_parse (ip_to_string b ++ lit "/32") = Some (ip4_u32 b, 32)) as Hc.
  { apply cidr_parse_exact; [|by exists b, (lit "32")]. destruct (quad_text b Hb) as [Hq _]. apply Forall_app. split; [|by repeat constructor].
    eapply Forall_impl; [exact Hq|]. intros c [->|Hc]; [done|unfold isdigit in Hc; lia]. }
  split; [done|]. unfold net_of. destruct (beq _ _) eqn:E; [|done]. apply beq_true in E. by rewrite E in Hc.
Qed.

Lemma quad_buffer b : bytes_ok b -> snprintf 64 (ip_to_string b ++ lit "/32") = ip_to_string b ++ lit "/32".
Proof.
  intros Hb. destruct (quad_text b Hb) as [_ Hl]. apply snprintf_fits. rewrite zlen_app. change (zlen (lit "/32")) with 3. lia.
Qed.

(** What a text of a target names is what its canonical text names, without the host bits. *)
Lemma target_net c net p : cstr_ok c -> cidr_parse c = Some (net, p) -> net_of (target_of c) = Some (Z.land net (netmask p), p).
Proof.
  intros Hc E. unfold target_of, canon_v4_cidr. rewrite E. apply cidr_parse_exact in E as (b & d & _ & Hb & _ & -> & _ & Hd & -> & Hp & _); [|done].
  pose proof (digits_val_nonneg d Hd). destruct (masked_range (ip4_u32 b) (digits_val d)) as [Hr H0]; [by apply ip4_u32_range|lia|]. by apply net_text_ok.
Qed.

Lemma subnet_net cidr n loc : cstr_ok cidr -> subnet_of cidr n = Some loc -> exists a p, net_of loc = Some (a, p).
Proof.
  intros Hc. unfold subnet_of. destruct (s2ip4 _) as [b|] eqn:Eb; [|done]. apply s2ip4_canonical in Eb as (Hb & _ & _); [|by apply Forall_take].
  destruct (strtol _) as [[v e] ?]. cbv zeta. set (plen := if _ || _ then _ else _). intros [= <-]. assert (0 <= plen <= 32) as Hp by (unfold plen; ifs; lia). clearbody plen.
  destruct (masked_range (ip4_u32 b) plen) as [Hr H0]; [by apply ip4_u32_range|done|]. eexists _, _. by apply net_text_ok.
Qed.

Lemma strtok_ok delim s : forall cur, cstr_ok s -> cstr_ok cur -> Forall cstr_ok (strtok delim cur s).
Proof.
  induction s as [|c s IH]; intros cur Hs Hc; cbn [strtok]; [destruct cur; [constructor|by constructor; [|constructor]]|]. inversion Hs; subst.
  destruct (delim c); [|apply IH; [done|]; apply Forall_app; split; [done|by constructor]]. destruct cur; [|constructor; [done|]]; apply IH; by try constructor.
Qed.

Lemma local_net s loc : cstr_ok s -> first_subnet (lines s) = Some loc -> exists a p, net_of loc = Some (a, p).
Proof.
  intros Hs. pose proof (strtok_ok (fun c => c =? 10) s [] Hs ltac:(constructor)) as Hl. fold (lines s) in Hl. induction Hl as [|l ls Hl _ IH]; [done|]. cbn [first_subnet].
  destruct (line_subnet (words l) false) as [x|] eqn:E; [|done]. intros [= <-]. revert E.
  pose proof (strtok_ok (fun c => (c =? 32) || (c =? 9) || (c =? 13)) l [] Hl ltac:(constructor)) as Hw. fold (words l) in Hw.
  generalize false. induction Hw as [|t ts Ht _ IHt]; intros inet; [done|]. cbn [line_subnet]. destruct inet; [|apply IHt].
  destruct (find_index _ t) as [n|]; [by apply subnet_net|apply IHt].
Qed.

(** ** Changes of a table *)

Lemma replaced_other R R' r y : replaced R R' r -> rt_net y <> rt_net r -> R' y <-> R y.
Proof.
  intros (x & Hx & Hr) Hn. rewrite Hr. split; [intros [->|[? _]]; done|]. intros Hy. right. split; [done|]. intros E. destruct x as [x|]; [|done]. injection E as ->. by destruct Hx as [_ [? _]].
Qed.

Lemma replaced_in R R' r y : replaced R R' r -> R' y -> y = r \/ R y.
Proof. intros (x & _ & Hr) Hy. apply Hr in Hy as [?|[? _]]; tauto. Qed.

Lemma deleted_other R R' n v d y : deleted R R' n v d -> rt_net y <> n -> R' y <-> R y.
Proof. intros (x & _ & (Hx & _) & _ & Hr) Hn. rewrite Hr. split; [tauto|]. intros Hy. split; [done|]. congruence. Qed.

Lemma deleted_in R R' n v d y : deleted R R' n v d -> R' y -> R y.
Proof. intros (x & _ & _ & _ & Hr) Hy. by apply Hr in Hy as [? _]. Qed.

(** A selected route without metric that is told apart by what selects it is the one that goes. *)
Lemma deleted_gone R R' n v d z : deleted R R' n v d -> R z -> selects n v d z -> rt_metric z = [] ->
  (forall y, R y -> selects n v d y -> rt_metric y = [] -> y = z) -> forall y, R' y <-> R y /\ y <> z.
Proof. intros (x & Hx & Hs & Hm & Hr) Hz Hsz Hmz Hu. assert (x = z) as ->; [|done]. apply Hu; [done..|]. apply Hm. eauto. Qed.

(** ** A session of the tunnel *)

Section Restore.
Context `{InetLaws} `{IpLaws} (tun srv : bytes) (g : gateway) (rts : list bytes) (m0 : machine).

Definition captured : route := mk_route (0, 0) (og_metric g) (Some (og_gw g)) (og_dev g).
Definition tunnel (n : Z * Z) : route := mk_route n [] None tun.
Definition pin (n : Z * Z) : route := mk_route n [] (Some (og_gw g)) (og_dev g).
Definition preserved (n : Z * Z) : route := mk_route n [] None (og_dev g).

(** The default is spelled as [is_default_v4] knows it. *)
Definition known_target (c : bytes) : Prop := cstr_ok c /\ (is_default_v4 c = true \/ exists net p, cidr_parse c = Some (net, p) /\ p <> 0).

Definition is_target (n : Z * Z) : Prop := exists c, c ∈ rts /\ is_default_v4 c = false /\ net_of (target_of c) = Some n.
Definition is_pin (n : Z * Z) : Prop := pinned srv = true /\ net_of (srv32 srv) = Some n.
Definition is_local (n : Z * Z) : Prop :=
  existsb is_default_v4 rts = true /\ exists loc, local_subnet (og_dev g) m0 = Some loc /\ net_of loc = Some n.

(** The networks a session replaces routes of. *)
Definition touched (n : Z * Z) : Prop := is_target n \/ is_pin n \/ is_local n.

(** The machine refused to put the default back. *)
Definition refused : Prop :=
  exists m, (ip_run ([lit "route"; lit "replace"; lit "default"] ++ via_args (Some (og_gw g)) ++ [lit "dev"; og_dev g] ++ metric_args (og_metric g)) m).1 = false.

Definition addresses (m : machine) : option bytes := cmd_capture [lit "-4"; lit "addr"; lit "show"; lit "dev"; og_dev g] m.

(** Between set-up and teardown. *)
Record mid (ref : Prop) (f : flags) (m : machine) : Prop := {
  mid_tun : forall y, routes m y -> rt_dev y = tun -> rt_via y = None /\ rt_metric y = [];
  mid_out : forall y, rt_dev y <> tun -> rt_net y <> (0, 0) -> ~ touched (rt_net y) -> routes m y <-> routes m0 y;
  mid_in : forall y, routes m y -> rt_dev y <> tun -> rt_net y <> (0, 0) ->
    routes m0 y \/ (is_local (rt_net y) /\ y = preserved (rt_net y)) \/ (srv_pin_installed f = true /\ is_pin (rt_net y) /\ y = pin (rt_net y));
  mid_def : if srv_default_installed f
    then forall y, rt_net y = (0, 0) -> routes m y <-> y = tunnel (0, 0) \/ (routes m0 y /\ rt_metric y <> [])
    else (forall y, rt_net y = (0, 0) -> routes m y <-> routes m0 y) \/ (ref /\ forall y, routes m y -> rt_net y = (0, 0) -> rt_dev y <> tun);
  mid_addr : addresses m = addresses m0
}.

Hypothesis Hts : Forall known_target rts.
Hypothesis Hsrv : cstr_ok srv.
Hypothesis Hdev : og_dev g <> tun.
Hypothesis Hfresh : forall y, routes m0 y -> rt_dev y <> tun.
Hypothesis Hcap : routes m0 captured.
Hypothesis Hsole : forall y, routes m0 y -> rt_net y = (0, 0) -> rt_metric y = [] \/ rt_metric y = og_metric g -> y = captured.
Hypothesis Hloc : forall loc, local_subnet (og_dev g) m0 = Some loc -> net_of loc <> Some (0, 0).

Lemma mid_start : mid False (mk_flags false false) m0.
Proof. split; try done; [by intros y Hy%Hfresh|by left|by left]. Qed.

Lemma mid_same ref f m m' : same (routes m) (routes m') -> addresses m' = addresses m -> mid ref f m -> mid ref f m'.
Proof.
  intros Hs Ha [M1 M2 M3 M4 M5]. split; [| | | |congruence]; try (intros y; rewrite (Hs y); auto).
  destruct (srv_default_installed f); [intros y; rewrite (Hs y); auto|]. destruct M4 as [M4|[Hr M4]]; [left|right; split; [done|]]; intros y; rewrite (Hs y); auto.
Qed.

Lemma mid_iface ref f m a : iface_cmd tun a -> srv_default_installed f = false -> mid ref f m -> mid ref f (ip_run a m).2.
Proof.
  intros Ha Hf [M1 M2 M3 M4 M5]. destruct (ip_iface m tun a Ha) as [Ho Hi]. split.
  - intros y Hy Hd. destruct (Hi y Hd Hy) as [Hy'|?]; [by apply M1|tauto].
  - intros y Hd. rewrite (Ho y Hd). by apply M2.
  - intros y Hy Hd. apply M3; [|done]. by apply Ho.
  - rewrite Hf in *. destruct M4 as [M4|[Hr M4]]; [left|right; split; [done|]]; intros y.
    + intros Hn. destruct (decide (rt_dev y = tun)) as [Hd|Hd]; [|by rewrite (Ho y Hd), M4]. split; [|by intros ?%Hfresh].
      intros Hy. destruct (Hi y Hd Hy) as [Hy'|(_ & _ & ?)]; [by apply M4|done].
    + intros Hy Hn. destruct (decide (rt_dev y = tun)) as [Hd|Hd]; [|done]. destruct (Hi y Hd Hy) as [Hy'|(_ & _ & ?)]; [by apply M4|done].
  - unfold addresses. rewrite (ip_addr _ _ tun); [done|]. by right.
Qed.

(** A change at a network the session may touch. *)
Lemma mid_change ref f f' m m' n : n <> (0, 0) -> touched n -> (forall y, rt_net y <> n -> routes m' y <-> routes m y) ->
  (forall y, rt_net y = n -> routes m' y -> routes m y \/ y = tunnel n \/ (is_local n /\ y = preserved n) \/ (srv_pin_installed f' = true /\ is_pin n /\ y = pin n)) ->
  srv_default_installed f' = srv_default_installed f -> (srv_pin_installed f = true -> srv_pin_installed f' = true) -> addresses m' = addresses m ->
  mid ref f m -> mid ref f' m'.
Proof.
  intros Hn Ht Ho Hi Hfd Hfp Ha [M1 M2 M3 M4 M5]. split; [| | | |congruence].
  - intros y Hy Hd. destruct (decide (rt_net y = n)) as [E|E]; [|apply M1; [by apply Ho|done]].
    destruct (Hi y E Hy) as [?|[->|[[_ ->]|(_ & _ & ->)]]]; [by apply M1|done|done|done].
  - intros y Hd Hz Hu. rewrite Ho by (intros E; by rewrite E in Hu). by apply M2.
  - intros y Hy Hd Hz. assert (routes m y -> routes m0 y \/ (is_local (rt_net y) /\ y = preserved (rt_net y)) \/
      (srv_pin_installed f' = true /\ is_pin (rt_net y) /\ y = pin (rt_net y))) as Hold by (intros Hy'; destruct (M3 y Hy' Hd Hz) as [?|[?|(? & ?)]]; auto).
    destruct (decide (rt_net y = n)) as [E|E]; [|apply Hold; by apply Ho]. destruct (Hi y E Hy) as [?|[->|[?|?]]]; [auto|done| |]; rewrite E; auto.
  - rewrite Hfd. destruct (srv_default_installed f); [intros y E; rewrite Ho by congruence; auto|].
    destruct M4 as [M4|[Hr M4]]; [left|right; split; [done|]]; intros y; [intros E; rewrite Ho by congruence; auto|]. intros Hy E. apply M4; [|done]. apply Ho in Hy; [done|congruence].
Qed.

Lemma addr_route m a : addresses (ip_run (lit "route" :: a) m).2 = addresses m.
Proof. unfold addresses. apply (ip_addr _ _ tun). left. exists a. by left. Qed.

Lemma target_facts c : known_target c -> is_default_v4 c = false -> exists n, net_of (target_of c) = Some n /\ n <> (0, 0).
Proof. intros [Hc [E|(net & p & E & Hp)]] Hd; [congruence|]. exists (Z.land net (netmask p), p). split; [by apply target_net|congruence]. Qed.


Lemma pin_facts : pinned srv = true -> exists n, net_of (srv32 srv) = Some n /\ n <> (0, 0).
Proof.
  unfold pinned. destruct (inet_pton4 srv) as [b|] eqn:E; [|done]. intros _. apply inet_pton4_quad in E. apply s2ip4_canonical in E as (Hb & Hl & ->); [|done].
  unfold srv32. rewrite quad_buffer by done. exists (ip4_u32 b, 32). split; [by apply quad_cidr|done].
Qed.

Lemma replace_step ref f f' m p v d n : net_of p = Some n -> n <> (0, 0) -> touched n ->
  (mk_route n [] v d = tunnel n \/ (is_local n /\ mk_route n [] v d = preserved n) \/ (srv_pin_installed f' = true /\ is_pin n /\ mk_route n [] v d = pin n)) ->
  srv_default_installed f' = srv_default_installed f -> (srv_pin_installed f = true -> srv_pin_installed f' = true) -> mid ref f m ->
  let c := ip_run ([lit "route"; lit "replace"; p] ++ via_args v ++ [lit "dev"; d] ++ metric_args []) m in if c.1 then mid ref f' c.2 else mid ref f c.2.
Proof.
  intros Hp Hn Ht Hr Hfd Hfp M. cbv zeta. pose proof (ip_replace m p v d [] n Hp) as L. cbv zeta in L. destruct (ip_run _ m) as [ok m'] eqn:E.
  assert (addresses m' = addresses m) as Ha by (change m' with ((ok, m').2); rewrite <- E; apply addr_route). cbn [fst snd] in *.
  destruct ok; [|by apply (mid_same _ f m)]. apply (mid_change ref f f' m m' n); try done.
  - intros y Hy. by apply (replaced_other _ _ _ y L).
  - intros y _ Hy. destruct (replaced_in _ _ _ y L Hy) as [->|?]; [by right|by left].
Qed.

Lemma default_step f m : mid False f m ->
  let c := ip_run [lit "route"; lit "replace"; lit "default"; lit "dev"; tun] m in if c.1 then mid False (mk_flags true (srv_pin_installed f)) c.2 else mid False f c.2.
Proof.
  intros M. cbv zeta. pose proof (ip_replace m (lit "default") None tun [] (0, 0) eq_refl) as L. cbv zeta in L. cbn [via_args metric_args app] in L. destruct (ip_run _ m) as [ok m'] eqn:E.
  assert (addresses m' = addresses m) as Ha by (change m' with ((ok, m').2); rewrite <- E; apply addr_route). cbn [fst snd] in *.
  destruct ok; [|by apply (mid_same _ f m)]. fold (tunnel (0, 0)) in L. destruct M as [M1 M2 M3 M4 M5].
  assert (srv_default_installed f = false -> forall y, rt_net y = (0, 0) -> routes m y <-> routes m0 y) as Hf by (intros Ef; rewrite Ef in M4; by destruct M4 as [?|[? _]]).
  split; cbn [srv_default_installed srv_pin_installed]; [| | | |congruence].
  - intros y Hy Hd. destruct (replaced_in _ _ _ y L Hy) as [->|?]; [done|by apply M1].
  - intros y Hd Hn. rewrite (replaced_other _ _ _ y L) by done. by apply M2.
  - intros y Hy Hd Hn. apply M3; [|done..]. by apply (replaced_other _ _ _ y L).
  - destruct L as (x & Hx & L). intros y Hn. rewrite L. split; [intros [?|[Hy Hne]]; [by left|]|intros [?|[Hy Hmt]]; [by left|]].
    + destruct (srv_default_installed f) eqn:Ef; [by apply M4|]. apply Hf in Hy as Hy0; [|done|done]. destruct (decide (rt_metric y = [])) as [Em|Em]; [|by right].
      exfalso. pose proof (Hsole y Hy0 Hn (or_introl Em)) as ->. destruct x as [x|]; [|by apply (Hx captured)]. destruct Hx as [Hx [Hs1 Hs2]]. apply Hne. f_equal. symmetry.
      apply Hsole; [by apply Hf|done|by left].
    + right. assert (routes m y) as Hym by (destruct (srv_default_installed f) eqn:Ef; [apply M4; [done|by right]|by apply Hf]). split; [done|]. intros <-.
      by destruct Hx as [_ [_ ?]].
Qed.

(** ** Set-up *)

Lemma mid_iface_all cmds : Forall (iface_cmd tun) cmds -> forall m, mid False (mk_flags false false) m -> mid False (mk_flags false false) (run_all cmds m).2.
Proof.
  induction 1 as [|a cmds Ha _ IH]; intros m M; [done|]. cbn [run_all]. pose proof (mid_iface False (mk_flags false false) m a Ha eq_refl M) as M'.
  destruct (ip_run a m) as [[|] m']; [by apply IH|done].
Qed.

Lemma mid_up tun_ip mtu m : mid False (mk_flags false false) m -> mid False (mk_flags false false) (route_iface_up tun tun_ip mtu m).2.
Proof.
  intros M. unfold route_iface_up. set (cmds := [_; _; _; _]). assert (Forall (iface_cmd tun) cmds) as Hc by (repeat constructor).
  pose proof (mid_iface_all cmds Hc m M) as M'. destruct (run_all cmds m) as [[|] m']; [|done]. cbn [snd] in *. unfold tun_iface_up6. destruct (tun_ula_str tun_ip); [|done].
  apply mid_iface; [constructor|done|done].
Qed.

Lemma mid_down ref f m : srv_default_installed f = false -> mid ref f m -> mid ref f (route_iface_down tun m).
Proof. intros Hf M. unfold route_iface_down. apply mid_iface; [constructor|done|]. apply mid_iface; [constructor|done|done]. Qed.

Lemma local_same m : addresses m = addresses m0 -> local_subnet (og_dev g) m = local_subnet (og_dev g) m0.
Proof. unfold addresses, local_subnet. by intros ->. Qed.

Lemma setup_target_mid c f m : c ∈ rts -> mid False f m -> let '(ok, f', m') := setup_target tun (og_dev g) c f m in
  mid False f' m' /\ srv_pin_installed f' = srv_pin_installed f.
Proof.
  intros Hin M. pose proof (proj1 (Forall_forall _ _) Hts c Hin) as Hc. unfold setup_target. destruct (is_default_v4 c) eqn:Ed.
  - set (q := match local_subnet _ _ with Some _ => _ | None => _ end). assert (mid False f q.2) as Mq.
    { unfold q. rewrite local_same by apply M. destruct (local_subnet (og_dev g) m0) as [loc|] eqn:El; [|done]. pose proof El as El'. unfold local_subnet in El'.
      destruct (cmd_capture _ m0) as [out|] eqn:Eo; [|done]. apply local_net in El' as (a & p & En); [|by eapply ip_text]. pose proof (Hloc loc eq_refl) as Hn.
      assert (is_local (a, p)) as Hi by (split; [apply existsb_exists; exists c; by rewrite <- list_elem_of_In|by exists loc]).
      pose proof (replace_step False f f m loc None (og_dev g) (a, p) En) as L. cbv zeta in L. cbn [via_args metric_args app] in L.
      destruct (ip_run _ m) as [[|] m']; apply L; try done; [congruence|right; by right|right; by left|congruence|right; by right|right; by left]. }
    destruct q as [[|] m1]; cbn [negb snd] in *; [|done]. pose proof (default_step f m1 Mq) as L. cbv zeta in L. by destruct (ip_run _ m1) as [[|] m'].
  - destruct (target_facts c Hc Ed) as (n & En & Hn). pose proof (replace_step False f f m (target_of c) None tun n En Hn) as L. cbv zeta in L. cbn [via_args metric_args app] in L.
    destruct (ip_run _ m) as [[|] m']; (split; [|done]); apply L; try done; (by left; exists c) || by left.
Qed.

Lemma setup_loop_mid cs : (forall c, c ∈ cs -> c ∈ rts) -> forall f m, mid False f m -> let '(ok, f', m') := setup_loop tun (og_dev g) cs f m in
  mid False f' m' /\ srv_pin_installed f' = srv_pin_installed f.
Proof.
  induction cs as [|c cs IH]; intros Hin f m M; [done|]. cbn [setup_loop]. pose proof (setup_target_mid c f m (Hin c ltac:(constructor)) M) as Hc.
  destruct (setup_target tun (og_dev g) c f m) as [[[|] f1] m1]; [|done]. destruct Hc as [M1 E1].
  specialize (IH (fun x Hx => Hin x (list_elem_of_further _ _ _ Hx)) f1 m1 M1). destruct (setup_loop tun (og_dev g) cs f1 m1) as [[ok f2] m2]. destruct IH as [? ?]. split; [done|congruence].
Qed.

(** ** Teardown *)

(** What a step leaves of the tunnel's routes. *)
Definition fewer (m m' : machine) : Prop := forall y, rt_dev y = tun -> routes m' y -> routes m y.
Definition gone (n : Z * Z) (m : machine) : Prop := forall y, routes m y -> rt_net y = n -> rt_dev y <> tun.

Lemma mid_weaken (ref ref' : Prop) f m : (ref -> ref') -> mid ref f m -> mid ref' f m.
Proof. intros Hr [M1 M2 M3 M4 M5]. split; try done. destruct (srv_default_installed f); [done|]. destruct M4 as [?|[? ?]]; auto. Qed.

Lemma tun_route ref f m y : mid ref f m -> routes m y -> rt_dev y = tun -> y = tunnel (rt_net y).
Proof. intros M Hy Hd. destruct (mid_tun _ _ _ M y Hy Hd) as [Hv Hm]. destruct y; cbn in *. by subst. Qed.

Lemma del_target_step ref f m p n : net_of p = Some n -> n <> (0, 0) -> touched n -> mid ref f m ->
  let m' := (ip_run [lit "route"; lit "del"; p; lit "dev"; tun] m).2 in mid ref f m' /\ fewer m m' /\ gone n m'.
Proof.
  intros Hp Hn Ht M. cbv zeta. pose proof (ip_del m p None tun n Hp) as L. cbv zeta in L. cbn [via_args app] in L. destruct (ip_run _ m) as [ok m'] eqn:E.
  assert (addresses m' = addresses m) as Ha by (change m' with ((ok, m').2); rewrite <- E; apply addr_route). cbn [fst snd] in *. destruct ok.
  - split_and!.
    + apply (mid_change ref f f m m' n); try done; [intros y Hy; by apply (deleted_other _ _ _ _ _ y L)|]. intros y _ Hy. left. by apply (deleted_in _ _ _ _ _ y L).
    + intros y _ Hy. by apply (deleted_in _ _ _ _ _ y L).
    + intros y Hy Hny Hd. pose proof (deleted_in _ _ _ _ _ y L Hy) as Hym. pose proof (tun_route _ _ _ y M Hym Hd) as Et. rewrite Hny in Et. subst y.
      apply (deleted_gone _ _ _ _ _ (tunnel n) L) in Hy as [_ Hy]; try done; [split_and!; [done|done|by left]|].
      intros y Hy1 (Hy2 & Hy3 & _) _. rewrite (tun_route _ _ _ y M Hy1 Hy3). congruence.
  - destruct L as [Hs Hno]. split_and!; [by apply (mid_same _ f m)|intros y _ Hy; by apply Hs|]. intros y Hy Hny Hd. apply Hs in Hy. apply (Hno y Hy). split_and!; [done|done|by left].
Qed.

Lemma mid_default_change ref ref' f f' m m' : (forall y, rt_net y <> (0, 0) -> routes m' y <-> routes m y) -> srv_pin_installed f' = srv_pin_installed f ->
  (forall y, routes m' y -> rt_net y = (0, 0) -> rt_dev y <> tun) -> srv_default_installed f' = false ->
  ((forall y, rt_net y = (0, 0) -> routes m' y <-> routes m0 y) \/ ref') -> addresses m' = addresses m -> mid ref f m -> mid ref' f' m'.
Proof.
  intros Ho Hp Hnt Hf Hd Ha [M1 M2 M3 M4 M5]. split; [| | | |congruence].
  - intros y Hy Ht. apply M1; [|done]. apply Ho; [|done]. intros Hn. by apply (Hnt y).
  - intros y Ht Hn. rewrite (Ho y Hn). by apply M2.
  - intros y Hy Ht Hn. rewrite Hp. apply M3; [|done..]. by apply Ho.
  - rewrite Hf. destruct Hd as [?|?]; [by left|by right].
Qed.

(** After the tunnel's default has been deleted, the one of before is put back or the machine refused. *)
Lemma restore_step f f' m0' m : mid refused f m0' -> (forall y, rt_net y <> (0, 0) -> routes m y <-> routes m0' y) -> addresses m = addresses m0' ->
  (forall y, rt_net y = (0, 0) -> routes m y <-> routes m0 y /\ rt_metric y <> []) -> srv_default_installed f' = false -> srv_pin_installed f' = srv_pin_installed f ->
  mid refused f' (restore_default g m) /\ fewer m (restore_default g m).
Proof.
  intros M Ho Hadr Hm Hf Hp. unfold restore_default. pose proof (ip_replace m (lit "default") (Some (og_gw g)) (og_dev g) (og_metric g) (0, 0) eq_refl) as L. cbv zeta in L. cbn [via_args app] in *.
  fold captured in L. destruct (ip_run _ m) as [ok m1] eqn:E.
  assert (addresses m1 = addresses m) as Ha by (change m1 with ((ok, m1).2); rewrite <- E; apply addr_route). cbn [fst snd] in *. destruct ok.
  - split; [|intros y Hd Hy; destruct (replaced_in _ _ _ y L Hy) as [->|?]; [by destruct Hdev|done]].
    apply (mid_default_change refused refused f f' m0' m1); try done; [| |left|congruence].
    + intros y Hy. rewrite (replaced_other _ _ _ y L) by done. by apply Ho.
    + intros y Hy Hn. destruct (replaced_in _ _ _ y L Hy) as [->|Hy']; [done|]. apply Hm in Hy' as [Hy' _]; [by apply Hfresh|done].
    + destruct L as (x & Hx & L). intros y Hn. rewrite L. split; [intros [->|[Hy _]]; [done|by apply Hm in Hy as [? _]]|]. intros Hy. destruct (decide (y = captured)) as [?|Hne]; [by left|].
      right. assert (rt_metric y <> []) as Hmy by (intros Em; apply Hne, Hsole; auto). split; [by apply Hm|]. intros <-. destruct Hx as [_ [_ Hx]]. apply Hne, Hsole; auto.
  - assert (refused) as Hr by (exists m; cbn [via_args app]; by rewrite E). pose proof (ip_replace m1 (lit "default") None (og_dev g) [] (0, 0) eq_refl) as L2. cbv zeta in L2. cbn [via_args metric_args app] in L2.
    destruct (ip_run _ m1) as [ok m2] eqn:E2. assert (addresses m2 = addresses m1) as Ha2 by (change m2 with ((ok, m2).2); rewrite <- E2; apply addr_route). cbn [fst snd] in *.
    assert (forall y, routes m1 y <-> routes m y) as L1 by exact L. assert (forall y, routes m2 y -> routes m y \/ y = preserved (0, 0)) as Hin.
    { intros y Hy. destruct ok; [destruct (replaced_in _ _ _ y L2 Hy) as [->|?]; [by right|left; by apply L1]|]. left. by apply L1, L2. }
    assert (forall y, rt_net y <> (0, 0) -> routes m2 y <-> routes m y) as Hot.
    { intros y Hn. destruct ok; [rewrite (replaced_other _ _ _ y L2) by done; apply L1|rewrite (L2 y); apply L1]. }
    split; [|intros y Hd Hy; destruct (Hin y Hy) as [?| ->]; [done|by destruct Hdev]]. apply (mid_default_change refused refused f f' m0' m2); try done; [| |by right|congruence].
    + intros y Hn. rewrite Hot by done. by apply Ho.
    + intros y Hy Hn. destruct (Hin y Hy) as [Hy'| ->]; [|done]. apply Hm in Hy' as [Hy' _]; [by apply Hfresh|done].
Qed.

Lemma del_default_step f m : mid refused f m -> srv_default_installed f = true ->
  let f' := mk_flags false (srv_pin_installed f) in let c := ip_run [lit "route"; lit "del"; lit "default"; lit "dev"; tun] m in
  c.1 = true /\ mid refused f' (restore_default g c.2) /\ fewer m (restore_default g c.2).
Proof.
  intros M Hf. cbv zeta. pose proof (mid_def _ _ _ M) as Md. rewrite Hf in Md. pose proof (ip_del m (lit "default") None tun (0, 0) eq_refl) as L. cbv zeta in L. cbn [via_args app] in L.
  assert (routes m (tunnel (0, 0))) as Hin by (apply Md; [done|by left]). assert (selects (0, 0) None tun (tunnel (0, 0))) as Hs by (split_and!; [done|done|by left]).
  destruct (ip_run _ m) as [ok m1] eqn:E. assert (addresses m1 = addresses m) as Ha by (change m1 with ((ok, m1).2); rewrite <- E; apply addr_route).
  cbn [fst snd] in *. destruct ok; [|destruct L as [_ L]; by destruct (L _ Hin)]. split; [done|].
  assert (forall y, routes m1 y <-> routes m y /\ y <> tunnel (0, 0)) as L1.
  { apply (deleted_gone _ _ _ _ _ _ L Hin Hs); [done|]. intros y Hy (Hn & Hd & _) _. rewrite (tun_route _ _ _ y M Hy Hd). congruence. }
  destruct (restore_step f (mk_flags false (srv_pin_installed f)) m m1) as [M' F]; try done.
  - intros y Hn. rewrite L1. split; [tauto|]. intros Hy. split; [done|]. by intros ->.
  - intros y Hn. rewrite L1, Md by done. split; [tauto|]. intros [Hy Hmt]. split; [by right|]. by intros ->.
  - split; [done|]. intros y Hd Hy. by apply L1, F.
Qed.

Lemma teardown_target_mid c f m : c ∈ rts -> mid refused f m -> let '(f', m') := teardown_target tun g c f m in
  mid refused f' m' /\ srv_pin_installed f' = srv_pin_installed f /\ (srv_default_installed f = false -> srv_default_installed f' = false) /\ fewer m m' /\
  if is_default_v4 c then srv_default_installed f' = false else forall n, net_of (target_of c) = Some n -> gone n m'.
Proof.
  intros Hin M. pose proof (proj1 (Forall_forall _ _) Hts c Hin) as Hc. unfold teardown_target. destruct (is_default_v4 c) eqn:Ed.
  - destruct (srv_default_installed f) eqn:Ef; cbn [negb]; [|unfold fewer; by split_and!]. pose proof (del_default_step f m M Ef) as L. cbv zeta in L.
    destruct (ip_run _ m) as [ok m1]. cbn [fst snd] in L. destruct L as (-> & M' & F). by split_and!.
  - destruct (target_facts c Hc Ed) as (n & En & Hn). destruct (del_target_step refused f m (target_of c) n En Hn) as (M' & F & G); [by left; exists c|done|].
    split_and!; try done. intros n' En'. rewrite En in En'. by injection En' as <-.
Qed.

Lemma teardown_loop_mid cs : (forall c, c ∈ cs -> c ∈ rts) -> forall f m, mid refused f m -> let '(f', m') := teardown_loop tun g cs f m in
  mid refused f' m' /\ srv_pin_installed f' = srv_pin_installed f /\ (srv_default_installed f = false \/ existsb is_default_v4 cs = true -> srv_default_installed f' = false) /\ fewer m m' /\
  forall c n, c ∈ cs -> is_default_v4 c = false -> net_of (target_of c) = Some n -> gone n m'.
Proof.
  induction cs as [|c cs IH]; intros Hin f m M.
  { cbn [teardown_loop]. split_and!; try done; [by intros [?|?]|by intros y|by intros c n ?%elem_of_nil]. }
  cbn [teardown_loop]. pose proof (teardown_target_mid c f m (Hin c ltac:(constructor)) M) as Hc. destruct (teardown_target tun g c f m) as [f1 m1]. destruct Hc as (M1 & P1 & D1 & F1 & G1).
  specialize (IH (fun x Hx => Hin x (list_elem_of_further _ _ _ Hx)) f1 m1 M1). destruct (teardown_loop tun g cs f1 m1) as [f2 m2]. destruct IH as (M2 & P2 & D2 & F2 & G2). split_and!.
  - done.
  - congruence.
  - intros Hd. apply D2. cbn [existsb] in Hd. destruct (is_default_v4 c); [by left|]. destruct Hd as [?|?]; [left; auto|by right].
  - intros y Hd Hy. by apply F1, F2.
  - intros x n Hx Ex En. apply elem_of_cons in Hx as [->|Hx]; [|by apply (G2 x)]. rewrite Ex in G1. intros y Hy Hn Hd. by apply (G1 n En y (F2 y Hd Hy)).
Qed.

Lemma del_pin_step f m n : is_pin n -> mid refused f m ->
  let m' := (ip_run [lit "route"; lit "del"; srv32 srv; lit "via"; og_gw g; lit "dev"; og_dev g] m).2 in
  mid refused (mk_flags (srv_default_installed f) false) m' /\ fewer m m'.
Proof.
  intros Hi M. cbv zeta. destruct (pin_facts (proj1 Hi)) as (n' & En & Hn). assert (n' = n) as -> by (destruct Hi as [_ Hi]; congruence).
  pose proof (ip_del m (srv32 srv) (Some (og_gw g)) (og_dev g) n En) as L. cbv zeta in L. cbn [via_args app] in L. destruct (ip_run _ m) as [ok m'] eqn:E.
  assert (addresses m' = addresses m) as Ha by (change m' with ((ok, m').2); rewrite <- E; apply addr_route). cbn [fst snd] in *.
  assert (selects n (Some (og_gw g)) (og_dev g) (pin n)) as Hs by (split_and!; [done|done|by right]).
  assert ((forall y, rt_net y <> n -> routes m' y <-> routes m y) /\ (forall y, routes m' y -> routes m y) /\ ~ routes m' (pin n)) as (Ho & Hin & Hno).
  { destruct ok; [|destruct L as [L Hno]; split_and!; [intros y _; apply L|intros y; apply L|intros Hy; apply (Hno (pin n)); [by apply L|done]]].
    split_and!; [intros y; by apply (deleted_other _ _ _ _ _ y L)|intros y; by apply (deleted_in _ _ _ _ _ y L)|]. intros Hy.
    apply (deleted_gone _ _ _ _ _ (pin n) L) in Hy as [_ Hy]; try done; [by apply (deleted_in _ _ _ _ _ _ L)|].
    intros [a b v d] _ (H1a & H2a & [?|H3a]) Hmt; [done|]. cbn in *. by subst. }
  split; [|intros y _; apply Hin]. assert (mid refused f m') as M'.
  { apply (mid_change refused f f m m' n); try done; [by right; left|]. intros y _ Hy. left. by apply Hin. }
  destruct M' as [M1 M2 M3 M4 M5]. split; try done. intros y Hy Hd Hz. destruct (M3 y Hy Hd Hz) as [?|[?|(_ & [_ Hnet] & Hp)]]; [by left|right; by left|].
  rewrite En in Hnet. injection Hnet as Hnet. rewrite <- Hnet in Hp. exfalso. apply Hno. by rewrite <- Hp.
Qed.

(** The tunnel could not be taken down. *)
Definition stuck : Prop := exists m, (ip_run [lit "link"; lit "set"; tun; lit "down"] m).1 = false.

(** The table after a session, compared with the one before. *)
Record restored (m : machine) : Prop := {
  rs_out : forall y, rt_dev y <> tun -> rt_net y <> (0, 0) -> ~ touched (rt_net y) -> routes m y <-> routes m0 y;
  rs_in : forall y, routes m y -> rt_dev y <> tun -> rt_net y <> (0, 0) -> routes m0 y \/ (is_local (rt_net y) /\ y = preserved (rt_net y));
  rs_default : (forall y, rt_net y = (0, 0) -> routes m y <-> routes m0 y) \/ refused;
  rs_own : forall y, routes m y -> rt_net y = (0, 0) -> rt_dev y <> tun;
  rs_tunnel : (forall y, routes m y -> rt_dev y <> tun) \/ stuck
}.

Lemma down_restored f m : mid refused f m -> srv_default_installed f = false -> (pinned srv = true -> srv_pin_installed f = false) ->
  restored (route_iface_down tun m) /\ fewer m (route_iface_down tun m).
Proof.
  intros M Hf Hp. pose proof (mid_down _ f m Hf M) as [M1 M2 M3 M4 M5]. rewrite Hf in M4. split.
  - split.
    + exact M2.
    + intros y Hy Hd Hn. destruct (M3 y Hy Hd Hn) as [?|[?|(Hpi & [Hpn _] & _)]]; [by left|by right|]. rewrite Hp in Hpi; done.
    + destruct M4 as [?|[? _]]; [by left|by right].
    + intros y Hy Hn. destruct M4 as [M4|[_ M4]]; [|by apply M4]. apply M4 in Hy; [by apply Hfresh|done].
    + unfold route_iface_down. set (m1 := (ip_run _ m).2). destruct (ip_run [lit "link"; lit "set"; tun; lit "down"] m1).1 eqn:E; [|right; by exists m1].
      left. intros y. by apply ip_down.
  - intros y Hd Hy. unfold route_iface_down in Hy. eapply ip_leave in Hy; [|by right]. eapply ip_leave; [by left|exact Hy].
Qed.

Lemma restored_same m m' : same (routes m) (routes m') -> restored m -> restored m'.
Proof.
  intros Hs [R1 R2 R3 R4 R5]. split; try (intros y; rewrite (Hs y); auto).
  - destruct R3 as [R3|?]; [left|by right]. intros y. rewrite (Hs y). auto.
  - destruct R5 as [R5|?]; [left|by right]. intros y. rewrite (Hs y). auto.
Qed.

Lemma teardown_restored f m : mid refused f m -> (srv_default_installed f = false \/ existsb is_default_v4 rts = true) ->
  let m' := (route_teardown tun srv g rts f m).2 in restored m' /\ forall n, is_target n -> gone n m'.
Proof.
  intros M Hf. unfold route_teardown. pose proof (teardown_loop_mid rts (fun _ H => H) f m M) as Hl. destruct (teardown_loop tun g rts f m) as [f1 m1].
  destruct Hl as (M1 & P1 & D1 & F1 & G1). specialize (D1 Hf).
  set (q := if pinned srv && srv_pin_installed f1 then _ else _).
  assert (mid refused q.1 q.2 /\ srv_default_installed q.1 = false /\ (pinned srv = true -> srv_pin_installed q.1 = false) /\ fewer m1 q.2) as (M2 & D2 & P2 & F2).
  { unfold q. destruct (pinned srv) eqn:Ep; cbn [andb]; [|unfold fewer; by split_and!]. destruct (srv_pin_installed f1) eqn:Ef; [|unfold fewer; by split_and!].
    destruct (pin_facts Ep) as (n & En & _). destruct (del_pin_step f1 m1 n (conj Ep En) M1) as [M2 F2]. by split_and!. }
  clearbody q. destruct q as [f2 m2]. cbn [fst snd] in *. destruct (down_restored f2 m2 M2 D2 P2) as [Hr F3]. unfold flush_cache.
  pose proof (ip_cache (route_iface_down tun m2)) as Hc. split; [by apply (restored_same _ _ Hc)|].
  intros n (c & Hc1 & Hc2 & Hc3) y Hy Hn Hd. apply Hc in Hy. by apply (G1 c n Hc1 Hc2 Hc3 y (F2 y Hd (F3 y Hd Hy))).
Qed.

Lemma six_mid ref f cs : forall m, mid ref f m -> mid ref f (route_setup6 tun cs m) /\ mid ref f (route_teardown6 tun cs m).
Proof.
  assert (forall m a, mid ref f m -> mid ref f (ip_run (lit "-6" :: lit "route" :: a) m).2) as Hs.
  { intros m a. apply mid_same; [apply ip_six|]. unfold addresses. apply (ip_addr _ _ tun). left. exists a. by right. }
  induction cs as [|c cs IH]; intros m M; [done|]. cbn [route_setup6 route_teardown6]. split; apply IH, Hs, M.
Qed.

Lemma setup_loop_flag cs f m : let '(ok, f', m') := setup_loop tun (og_dev g) cs f m in
  srv_default_installed f' = true -> srv_default_installed f = true \/ existsb is_default_v4 cs = true.
Proof.
  revert f m. induction cs as [|c cs IH]; intros f m; [by left|]. cbn [setup_loop existsb]. unfold setup_target. destruct (is_default_v4 c) eqn:Ed.
  - set (q := match local_subnet _ _ with Some _ => _ | None => _ end). destruct q as [[|] m1]; cbn [negb]; [|by left].
    destruct (ip_run _ m1) as [[|] m2]; [|by left]. match goal with |- context [setup_loop ?a ?b ?c ?d ?e] => destruct (setup_loop a b c d e) as [[ok f'] m'] end. by right.
  - destruct (ip_run _ m) as [[|] m2]; [|by left]. apply IH.
Qed.

(** A set-up that fails leaves the table as it was; after one that succeeds the table is between set-up and teardown. *)
Lemma setup_mid tun_ip mtu : let '(ok, f, m) := route_setup tun tun_ip mtu srv g rts m0 in
  if ok then mid refused f m /\ (srv_default_installed f = false \/ existsb is_default_v4 rts = true) else restored m.
Proof.
  unfold route_setup. pose proof (mid_up tun_ip mtu m0 mid_start) as M1. destruct (route_iface_up tun tun_ip mtu m0) as [[|] m1]; cbn [negb snd] in *.
  2: { apply (down_restored (mk_flags false false)); [|done|done]. eapply mid_weaken; [|exact M1]. done. }
  set (q := if pinned srv then _ else _).
  assert (if q.1 then mid False (mk_flags false (pinned srv)) q.2 else mid False (mk_flags false false) q.2) as M2.
  { unfold q. destruct (pinned srv) eqn:Ep; [|done]. destruct (pin_facts Ep) as (n & En & Hn).
    pose proof (replace_step False (mk_flags false false) (mk_flags false true) m1 (srv32 srv) (Some (og_gw g)) (og_dev g) n En Hn) as L. cbv zeta in L. cbn [via_args metric_args app] in L.
    apply L; try done; [right; by left|right; by right]. }
  destruct q as [[|] m2]; cbn [negb fst snd] in *; [|apply (down_restored (mk_flags false false)); [|done|done]; eapply mid_weaken; [|exact M2]; done].
  pose proof (setup_loop_mid rts (fun _ H => H) _ m2 M2) as M3. pose proof (setup_loop_flag rts (mk_flags false (pinned srv)) m2) as Hd.
  destruct (setup_loop tun (og_dev g) rts (mk_flags false (pinned srv)) m2) as [[ok f] m3]. destruct M3 as [M3 _].
  assert (mid refused f m3) as M4 by (eapply mid_weaken; [|exact M3]; done).
  assert (srv_default_installed f = false \/ existsb is_default_v4 rts = true) as Hf by (destruct (srv_default_installed f); [right; by destruct Hd|by left]).
  destruct ok; [split; [|done]|].
  - apply (mid_same _ f m3); [apply ip_cache|apply addr_route|done].
  - pose proof (teardown_restored f m3 M4 Hf) as Hr. cbv zeta in Hr. destruct (route_teardown tun srv g rts f m3) as [f' m']. by destruct Hr.
Qed.

Lemma session_restored tun_ip mtu routes6 : rts <> [] -> let '(ok, f, m) := route_setup tun tun_ip mtu srv g rts m0 in
  if ok then let m' := (teardown_routes tun srv g rts routes6 f (route_setup6 tun routes6 m)).2 in restored m' /\ forall n, is_target n -> gone n m'
  else restored m.
Proof.
  intros Hne. pose proof (setup_mid tun_ip mtu) as Hs. destruct (route_setup tun tun_ip mtu srv g rts m0) as [[[|] f] m]; [|done]. destruct Hs as [M Hf].
  unfold teardown_routes. destruct (0 <? zlen rts) eqn:E; [|exfalso; apply Hne, zlen_0_nil; pose proof (zlen_nonneg rts); lia].
  apply teardown_restored; [|done]. by apply six_mid, six_mid.
Qed.

End Restore.

(** ** The captured default *)

(** [capture_default] takes gateway, device and metric from one route, the first listed with a gateway and a device. *)
Lemma capture_one `{IpLaws} m g : capture_default m = Some g -> routes m (captured g).
Proof.
  unfold capture_default. destruct (cmd_capture _ m) as [out|] eqn:E; [|done]. pose proof (ip_show m out) as L.
  assert (forall l, l ∈ lines out -> l ∈ lines out) as Hin by done. revert Hin. generalize (lines out) at 1 3 as ls. induction ls as [|l ls IH]; intros Hin; cbn [first_default]; [done|].
  destruct (default_line (words l) None None None) as [[[a|] [d|]] x] eqn:El; try (apply IH; intros y Hy; apply Hin; by constructor).
  intros [= <-]. destruct (L l a d x E (Hin l ltac:(constructor)) El) as (Hr & Ha & Hd & Hx). unfold captured. cbn [og_gw og_dev og_metric].
  assert (forall t, zlen t < 16 -> copy_token 16 t = t) as Ht by (intros t Ht; unfold copy_token; destruct (zlen t >=? 16) eqn:E1; [lia|]; apply take_ge; unfold zlen; lia).
  rewrite !Ht by done. destruct x as [x|]; [by rewrite Ht|done].
Qed.

(** ** Route targets *)

(** A number as [strtoul] with base 0 reads one. *)
Definition number (w : bytes) : Prop := strtoul0 w = Some [].

Lemma skip_while_dot f w r : f 46 = false -> skip_while f (w ++ 46 :: r) = skip_while f w ++ 46 :: r.
Proof. intros Hf. induction w as [|c w IH]; cbn; [by rewrite Hf|]. by destruct (f c). Qed.

Lemma skip_space_dot w r : skip_space (w ++ 46 :: r) = skip_space w ++ 46 :: r.
Proof. induction w as [|c w IH]; [done|]. cbn [skip_space app]. by destruct (isspace c). Qed.

Lemma strtoul0_dot w r : strtoul0 (w ++ 46 :: r) = (fun e => e ++ 46 :: r) <$> strtoul0 w.
Proof.
  unfold strtoul0. rewrite skip_space_dot. set (t := skip_space w). assert (exists b u, strtol_sign t = (b, u) /\ strtol_sign (t ++ 46 :: r) = (b, u ++ 46 :: r)) as (b & u & -> & ->).
  { destruct t as [|c t]; [by exists false, []|]. cbn [strtol_sign app]. destruct (c =? 45); [by eexists _, _|]. destruct (c =? 43); by eexists _, _. }
  destruct u as [|c u]; [done|]. cbn [app]. destruct (c =? 48); [|destruct (isdigit c); [|done]; cbn; by rewrite skip_while_dot].
  destruct u as [|x [|h u]]; cbn [app]; [by destruct r| |].
  - change (ishex 46) with false. rewrite andb_false_r. cbn. destruct (isoctal x); done.
  - destruct (_ && ishex h); cbn [fmap option_fmap option_map]; [by rewrite skip_while_dot|]. f_equal. by apply (skip_while_dot isoctal (x :: h :: u)).
Qed.

Lemma skip_while_suffix f s : exists w, s = w ++ skip_while f s.
Proof. induction s as [|c s [w IH]]; [by exists []|]. cbn. destruct (f c); [|by exists []]. exists (c :: w). cbn. by rewrite <- IH. Qed.

Lemma strtoul0_suffix s e : strtoul0 s = Some e -> exists w, s = w ++ e.
Proof.
  unfold strtoul0. assert (exists w, s = w ++ (strtol_sign (skip_space s)).2) as [w Hw].
  { assert (exists w, s = w ++ skip_space s) as [w Hw] by (induction s as [|c s [w IH]]; [by exists []|]; cbn; destruct (isspace c); [exists (c :: w); cbn; by rewrite <- IH|by exists []]).
    destruct (skip_space s) as [|c t]; [by exists w|]. cbn [strtol_sign]. destruct (c =? 45); [|destruct (c =? 43)]; cbn [snd]; [exists (w ++ [c])..|by exists w]; by rewrite <- app_assoc. }
  destruct (strtol_sign _) as [b t]. cbn [snd] in Hw. subst s. destruct t as [|c r]; [done|].
  assert (forall f k, exists u, c :: r = u ++ skip_while f (drop k r)) as Hs.
  { intros f k. destruct (skip_while_suffix f (drop k r)) as [u Hu]. exists (c :: take k r ++ u). cbn. rewrite <- app_assoc, <- Hu. by rewrite take_drop. }
  assert (forall f k, exists w', w ++ c :: r = w' ++ skip_while f (drop k r)) as Hs' by (intros f k; destruct (Hs f k) as [u Hu]; exists (w ++ u); by rewrite Hu, <- app_assoc).
  destruct (c =? 48).
  - destruct r as [|x [|h r]]; [| |destruct (_ && ishex h)]; intros [= <-]; [apply (Hs' isoctal 0%nat)|apply (Hs' isoctal 0%nat)|apply (Hs' ishex 2%nat)|apply (Hs' isoctal 0%nat)].
  - destruct (isdigit c); [|done]. intros [= <-]. apply (Hs' isdigit 0%nat).
Qed.

Fixpoint dotted_text (ws : list bytes) : bytes :=
  match ws with
  | [] => []
  | w :: r => match r with [] => w | _ => w ++ 46 :: dotted_text r end
  end.

Lemma number_head w ws : number w -> strtoul0 (dotted_text (w :: ws)) = Some (match ws with [] => [] | _ => 46 :: dotted_text ws end).
Proof. intros Hw. destruct ws as [|x ws]; [done|]. cbn [dotted_text]. by rewrite strtoul0_dot, Hw. Qed.

(** One to four numbers with dots between them are a numeric spelling, and nothing else is. *)
Lemma numeric_loop_spec fuel : forall q k, (length q < fuel)%nat -> exists b, numeric_loop fuel q k = Ret b /\
  (b = true <-> exists ws : list bytes, ws <> [] /\ k + zlen ws <= 4 /\ q = dotted_text ws /\ Forall number ws).
Proof.
  induction fuel as [|fuel IH]; intros q k Hl; [lia|]. cbn [numeric_loop]. destruct (strtoul0 q) as [[|c r]|] eqn:E.
  - eexists. split; [done|]. split; [intros Hk; exists [q]; split_and!; [done|change (zlen [q]) with 1; lia|done|by repeat constructor]|].
    intros (ws & Hne & Hk & -> & Hw). destruct ws as [|w ws]; [done|]. inversion Hw; subst. rewrite number_head in E by done. destruct ws; [change (zlen [w]) with 1 in Hk; lia|done].
  - destruct (negb (c =? 46)) eqn:Ec.
    + exists false. split; [done|]. split; [done|]. intros (ws & Hne & _ & -> & Hw). destruct ws as [|w ws]; [done|]. inversion Hw; subst. rewrite number_head in E by done.
      destruct ws; [done|]. injection E as <- <-. done.
    + assert (c = 46) as -> by lia. destruct (strtoul0_suffix q _ E) as [w ->]. rewrite strtoul0_dot in E. destruct (strtoul0 w) as [e|] eqn:Ew; [|done]. injection E as Ee.
      assert (e = []) as -> by (destruct e; [done|]; apply (f_equal length) in Ee; rewrite length_app in Ee; cbn in Ee; lia).
      destruct (IH r (k + 1)) as (b & -> & Hb); [rewrite length_app in Hl; cbn in Hl; lia|]. exists b. split; [done|]. rewrite Hb. split.
      * intros (ws & Hne & Hk & -> & Hw). exists (w :: ws). split_and!; [done|rewrite zlen_cons; lia| |by constructor]. by destruct ws.
      * intros (ws & Hne & Hk & Eq & Hw). destruct ws as [|v ws]; [done|]. inversion Hw as [|? ? Hv Hws]; subst. pose proof (number_head v ws Hv) as Ev. rewrite <- Eq, strtoul0_dot, Ew in Ev.
        cbn in Ev. destruct ws as [|x ws]; [done|]. injection Ev as ->. exists (x :: ws). split_and!; [done|rewrite zlen_cons in Hk; lia|done|done].
  - exists false. split; [done|]. split; [done|]. intros (ws & Hne & _ & -> & Hw). destruct ws as [|w ws]; [done|]. inversion Hw; subst. by rewrite number_head in E.
Qed.

Section TargetSpec.
Context `{InetLaws} `{ResolverLaws}.

Definition numeric (p : bytes) : Prop := exists ws : list bytes, ws <> [] /\ zlen ws <= 4 /\ p = dotted_text ws /\ Forall number ws.

Definition host_entry (v6 : bool) (e : bool * bytes) : bytes := if v6 then inet_ntop6 e.2 ++ lit "/128" else ip_to_string e.2 ++ lit "/32".

(** What a target stands for; a text without a meaning is malformed or cannot be resolved. *)
Inductive denotes (p : bytes) : bool -> list bytes -> Prop :=
  | De_default : p = lit "default" -> denotes p false [p]
  | De_cidr b d : p = ip_to_string b ++ 47 :: d -> bytes_ok b -> zlen b = 4 -> d <> [] -> forallb isdigit d = true -> digits_val d <= 32 ->
      (digits_val d = 0 -> ip4_u32 b = 0) -> denotes p false [p]
  | De_cidr6 a b d : p = a ++ 47 :: d -> Forall (fun c => c <> 47) a -> a <> [] -> inet_pton6 a = Some b -> d <> [] -> forallb isdigit d = true -> digits_val d <= 128 ->
      denotes p true [p]
  | De_addr b : Forall (fun c => c <> 47) p -> p <> lit "default" -> inet_pton4 p = Some b -> denotes p false [p ++ lit "/32"]
  | De_addr6 b : Forall (fun c => c <> 47) p -> inet_pton6 p = Some b -> denotes p true [p ++ lit "/128"]
  | De_name (v6 : bool) l : Forall (fun c => c <> 47) p -> (if v6 then inet_pton6 p = None /\ Forall (fun c => c <> 58) p else p <> lit "default" /\ inet_pton4 p = None /\ ~ numeric p) ->
      getaddrinfo v6 p = Some l -> filter (fun e : bool * bytes => e.1 = v6) l <> [] -> denotes p v6 (map (host_entry v6) (filter (fun e : bool * bytes => e.1 = v6) l)).

Lemma no_char k p : find_index (fun c => c =? k) p = None <-> Forall (fun c => c <> k) p.
Proof. rewrite find_index_None, Forall_lookup. split; intros Hp i x Hx; specialize (Hp i x Hx); cbn in *; lia. Qed.

Lemma no_char_exists k p : existsb (fun c => c =? k) p = false <-> Forall (fun c => c <> k) p.
Proof. induction p as [|c p IH]; cbn [existsb]; [split; [constructor|done]|]. rewrite orb_false_iff, Forall_cons, IH. split; intros [Hx Hy]; (split; [lia|done]). Qed.

Lemma host_route_whole v6 (e : bool * bytes) : host_route v6 e = host_entry v6 e.
Proof. unfold host_route, host_entry. destruct v6; [|done]. rewrite take_ge; [done|]. pose proof (ntop6_len e.2). unfold zlen in *. lia. Qed.

Lemma pton4_text p b : cstr_ok p -> inet_pton4 p = Some b -> p = ip_to_string b /\ bytes_ok b /\ zlen b = 4 /\ snprintf 64 (p ++ lit "/32") = p ++ lit "/32".
Proof. intros Hp E%inet_pton4_quad. apply s2ip4_canonical in E as (Hb & Hl & ->); [|done]. split_and!; try done. by apply quad_buffer. Qed.

Lemma pton6_text p b : inet_pton6 p = Some b -> snprintf 64 (p ++ lit "/128") = p ++ lit "/128".
Proof. intros E%inet_pton6_len. apply snprintf_fits. rewrite zlen_app. change (zlen (lit "/128")) with 4. lia. Qed.

(** A prefix length of digits up to the end of the text. *)
Lemma plen_exact d k : cstr_ok d -> k < LLONG_MAX -> ((hd 0 d <? 48) || (hd 0 d >? 57) = false /\ let '(v, e, _) := strtol d in negb (hd 0 e =? 0) || (v <? 0) || (v >? k) = false) <->
  (d <> [] /\ forallb isdigit d = true /\ digits_val d <= k).
Proof.
  intros Hc Hk. destruct (span_digits_spec d) as (Hs & Hd & Hr). remember (span_digits d).1 as x eqn:Ex. remember (span_digits d).2 as e eqn:Ee. clear Ex Ee. split.
  - intros [Hh Hv]. assert (x <> []) as Hne by (intros ->; cbn in Hs; rewrite <- Hs in Hr; unfold isdigit in Hr; lia).
    rewrite Hs in Hv. rewrite strtol_digits in Hv by done. assert (cstr_ok e) as He by (rewrite Hs in Hc; by apply Forall_app in Hc as [_ Hc]).
    destruct (digits_val x >? LLONG_MAX) eqn:E; [lia|]. assert (e = []) as -> by (apply hd_cstr_nil; [done|lia]). rewrite app_nil_r in Hs. subst. split_and!; [done|done|lia].
  - intros (Hne & Hdd & Hle). pose proof (digits_val_nonneg d Hdd). destruct d as [|c d]; [done|]. assert (isdigit c = true) as Hic by (cbn [forallb] in Hdd; by apply andb_prop in Hdd as [? _]).
    unfold isdigit in Hic. cbn [hd]. split; [lia|]. rewrite <- (app_nil_r (c :: d)). rewrite strtol_digits by done. destruct (_ >? LLONG_MAX) eqn:E; [lia|]. cbn [hd]. lia.
Qed.

Lemma target_sound v6 p : cstr_ok p -> exists r, expand_target v6 p = Ret r /\ forall l, r = Some l -> denotes p v6 l.
Proof.
  intros Hp. unfold expand_target. destruct (negb v6 && beq p (lit "default")) eqn:Ed.
  { apply andb_prop in Ed as [Ev Ed]. destruct v6; [done|]. eexists. split; [done|]. intros l [= <-]. apply De_default. by apply beq_true. }
  destruct (find_index (fun c => c =? 47) p) as [an|] eqn:Es.
  - pose proof (slash_split p an Es) as Esp. destruct v6; cbn [negb]; eexists; (split; [done|]); intros l.
    + destruct (target_cidr6 p an) eqn:Et; [|done]. intros [= <-]. unfold target_cidr6 in Et. destruct ((Z.of_nat an =? 0) || (Z.of_nat an >=? 64)) eqn:E1; [done|]. destruct (inet_pton6 (take an p)) as [b|] eqn:Eb; [|done].
      cbv zeta in Et. destruct ((hd 0 (drop (S an) p) <? 48) || _) eqn:E2; [done|]. apply find_index_Some in Es as [_ Es].
      destruct (proj1 (plen_exact (drop (S an) p) 128 ltac:(by apply Forall_drop) ltac:(done))) as (D1 & D2 & D3).
      { split; [done|]. destruct (strtol _) as [[v e] ?]. by apply negb_true_iff in Et. }
      apply (De_cidr6 p (take an p) b (drop (S an) p)); try done; [|intros E; rewrite E in Esp; destruct an; [by cbn in E1|by destruct p]].
      apply Forall_lookup. intros i x Hx. apply lookup_take_Some in Hx as [Hx Hi]. specialize (Es i x Hi Hx). lia.
    + destruct (cidr_parse p) as [[net q]|] eqn:Ec; [|done]. intros [= <-]. apply cidr_parse_exact in Ec as (b & d & -> & ? & ? & -> & ? & ? & -> & ? & ?); [|done]. by apply (De_cidr _ b d).
  - apply no_char in Es. destruct v6; cbn [negb].
    + destruct (inet_pton6 p) as [b|] eqn:Eb; [eexists; split; [done|]; intros l [= <-]; rewrite (pton6_text p b Eb); by apply (De_addr6 p b)|].
      destruct (existsb _ p) eqn:Ex; [by eexists|]. apply no_char_exists in Ex. eexists. split; [done|]. intros l. unfold resolve. destruct (getaddrinfo true p) as [es|] eqn:Eg; [|done].
      destruct (filter _ es) as [|e es'] eqn:Ef; [done|]. intros [= <-]. change (denotes p true (map (host_route true) (e :: es'))). rewrite <- Ef, (map_ext _ _ (host_route_whole true)). apply De_name; [done|done|done|by rewrite Ef].
    + destruct (inet_pton4 p) as [b|] eqn:Eb.
      { eexists. split; [done|]. intros l [= <-]. destruct (pton4_text p b Hp Eb) as (_ & _ & _ & ->). apply (De_addr p b); [done| |done]. intros E. by rewrite E in Ed. }
      destruct (numeric_loop_spec (S (length p)) p 0) as (b & E & Hb); [lia|]. unfold numeric_v4_spelling. rewrite E. cbn [rbind]. destruct b; [by eexists|]. eexists. split; [done|].
      intros l. unfold resolve. destruct (getaddrinfo false p) as [es|] eqn:Eg; [|done]. destruct (filter _ es) as [|e es'] eqn:Ef; [done|]. intros [= <-].
      change (denotes p false (map (host_route false) (e :: es'))). rewrite <- Ef, (map_ext _ _ (host_route_whole false)). apply De_name; [done| |done|by rewrite Ef].
      split_and!; [intros E'; by rewrite E' in Ed|done|]. intros Hnum. assert (false = true) as ?; [|done]. by apply Hb.
Qed.

Lemma quad_no_slash b : bytes_ok b -> Forall (fun c => c <> 47) (ip_to_string b).
Proof. intros Hb. destruct (quad_text b Hb) as [Hq _]. eapply Forall_impl; [exact Hq|]. intros c [->|Hc]; [done|unfold isdigit in Hc; lia]. Qed.

Lemma target_complete v6 p l : cstr_ok p -> denotes p v6 l -> expand_target v6 p = Ret (Some l).
Proof.
  intros Hp Hd. unfold expand_target. destruct Hd as [->|b d -> Hb Hl Hne Hd Hv H0'|a b d -> Ha Han Hb Hne Hd Hv|b Hs Hnd Hb|b Hs Hb|v6 l Hs Hn Hg Hf].
  - done.
  - assert (cidr_parse (ip_to_string b ++ 47 :: d) = Some (ip4_u32 b, digits_val d)) as Hc by (apply cidr_parse_exact; [done|]; by exists b, d).
    rewrite slash_after by (by apply quad_no_slash). cbn [negb andb]. destruct (beq _ _) eqn:E; [done|]. by rewrite Hc.
  - cbn [negb andb]. rewrite slash_after by done. unfold target_cidr6. rewrite take_app_length.
    assert (drop (S (length a)) (a ++ 47 :: d) = d) as -> by (replace (a ++ 47 :: d) with ((a ++ [47]) ++ d) by (by rewrite <- app_assoc); apply drop_app_length'; rewrite length_app; cbn; lia).
    rewrite Hb. apply inet_pton6_len in Hb. unfold zlen in Hb. destruct ((Z.of_nat (length a) =? 0) || (Z.of_nat (length a) >=? 64)) eqn:E1; [destruct a as [|z a]; [done|]; exfalso; apply orb_prop in E1 as [E1|E1]; [by apply Z.eqb_eq in E1|lia]|]. cbv zeta.
    assert (cstr_ok d) as Hcd by (apply Forall_app in Hp as [_ Hp]; by inversion Hp). destruct (proj2 (plen_exact d 128 Hcd ltac:(done)) (conj Hne (conj Hd Hv))) as [-> Hs].
    destruct (strtol d) as [[v e] ?]. by rewrite Hs.
  - destruct (pton4_text p b Hp Hb) as (_ & _ & _ & ->). apply no_char in Hs. rewrite Hs, Hb. cbn [negb andb]. destruct (beq p _) eqn:E; [by apply beq_true in E|done].
  - rewrite (pton6_text p b Hb). apply no_char in Hs. by rewrite Hs, Hb.
  - apply no_char in Hs. rewrite Hs. assert (resolve v6 p = Some (map (host_entry v6) (filter (fun e : bool * bytes => e.1 = v6) l))) as Hr.
    { unfold resolve. rewrite Hg, <- (map_ext _ _ (host_route_whole v6)). destruct (filter _ l) eqn:Ef; [done|]. done. }
    destruct v6; cbn [negb andb].
    + destruct Hn as [-> Hc]. apply no_char_exists in Hc. by rewrite Hc, Hr.
    + destruct Hn as (Hnd & -> & Hnn). destruct (beq p _) eqn:E; [by apply beq_true in E|]. destruct (numeric_loop_spec (S (length p)) p 0) as (b & En & Hb); [lia|].
      unfold numeric_v4_spelling. rewrite En. cbn [rbind]. destruct b; [by destruct Hnn; apply Hb|]. by rewrite Hr.
Qed.

Lemma push_unique_spec l : forall out, NoDup out -> NoDup (fold_left push_unique l out) /\ forall e, e ∈ fold_left push_unique l out <-> e ∈ out \/ e ∈ l.
Proof.
  induction l as [|x l IH]; intros out Hn; cbn [fold_left].
  - split; [done|]. intros e. split; [by left|]. intros [?|He]; [done|by inversion He].
  - assert (NoDup (push_unique out x) /\ forall e, e ∈ push_unique out x <-> e ∈ out \/ e = x) as [Hn' He].
    { unfold push_unique, slist_has, Slist.slist_push. destruct (existsb _ out) eqn:E.
      - apply existsb_exists in E as (y & Hy & E). apply beq_true in E as ->. apply list_elem_of_In in Hy. split; [done|]. intros e. split; [by left|]. by intros [?| ->].
      - assert (x ∉ out) as Hx. { intros Hx. assert (existsb (fun v => beq v x) out = true); [|congruence]. apply existsb_exists. exists x. split; [by apply list_elem_of_In|apply beq_refl]. }
        split; [apply NoDup_app; split_and!; [done|by intros y Hy ->%list_elem_of_singleton|apply NoDup_singleton]|]. intros e. rewrite elem_of_app, list_elem_of_singleton. done. }
    destruct (IH _ Hn') as [Hd Hi]. split; [done|]. intros e. rewrite Hi, He, elem_of_cons. tauto.
Qed.

Lemma skip_while_in f s c : c ∈ skip_while f s -> c ∈ s.
Proof. induction s as [|x s IH]; cbn; [done|]. destruct (f x); [|done]. intros Hc. constructor. auto. Qed.

Lemma trim_ok s : cstr_ok s -> cstr_ok (trim_blank s).
Proof.
  intros Hs. apply Forall_forall. intros c Hc. unfold trim_blank in Hc. apply list_elem_of_In, in_rev, list_elem_of_In in Hc. apply skip_while_in in Hc.
  apply list_elem_of_In, in_rev, list_elem_of_In in Hc. apply skip_while_in in Hc. by apply (proj1 (Forall_forall _ _) Hs).
Qed.

Definition entry_of (v6 : bool) (targets : list bytes) (e : bytes) : Prop := exists t l, t ∈ targets /\ trim_blank t <> [] /\ denotes (trim_blank t) v6 l /\ e ∈ l.

Lemma expand_loop_spec v6 targets : Forall cstr_ok targets -> forall out, NoDup out -> exists r, expand_loop v6 targets out = Ret r /\
  match r with
  | Some res => NoDup res /\ (forall e, e ∈ res <-> e ∈ out \/ entry_of v6 targets e) /\ forall t, t ∈ targets -> trim_blank t = [] \/ exists l, denotes (trim_blank t) v6 l
  | None => exists t, t ∈ targets /\ trim_blank t <> [] /\ ~ exists l, denotes (trim_blank t) v6 l
  end.
Proof.
  induction 1 as [|t ts Ht _ IH]; intros out Hn; cbn [expand_loop].
  { eexists. split; [done|]. cbn. split_and!; [done| |by intros t ?%elem_of_nil]. intros e. split; [by left|]. by intros [?|(t & l & ?%elem_of_nil & _)]. }
  assert (forall e, entry_of v6 (t :: ts) e <-> (exists l, trim_blank t <> [] /\ denotes (trim_blank t) v6 l /\ e ∈ l) \/ entry_of v6 ts e) as He.
  { intros e. split; [intros (x & l & Hx & ?); apply elem_of_cons in Hx as [->|Hx]; [left; eauto|right; by exists x, l]|].
    intros [(l & ?)|(x & l & Hx & ?)]; [exists t, l; split; [constructor|done]|exists x, l; split; [by constructor|done]]. }
  destruct (decide (trim_blank t = [])) as [Eb|Eb].
  - rewrite Eb. destruct (IH out Hn) as (r & -> & Hr). exists r. split; [done|]. destruct r as [res|].
    + destruct Hr as (H1' & H2' & H3'). split_and!; [done| |intros x Hx; apply elem_of_cons in Hx as [->|Hx]; [by left|auto]].
      intros e. rewrite H2', He. split; [tauto|]. intros [?|[(l & ? & _)|?]]; [by left|done|by right].
    + destruct Hr as (x & Hx & ?). exists x. split; [by constructor|done].
  - destruct (target_sound v6 (trim_blank t) (trim_ok t Ht)) as (r & E & Hs).
    assert (forall l, denotes (trim_blank t) v6 l -> r = Some l) as Hc by (intros l Hl; apply target_complete in Hl; [congruence|by apply trim_ok]).
    destruct (trim_blank t) as [|c p] eqn:Et; [done|]. rewrite E. cbn [rbind]. destruct r as [l|].
    + destruct (push_unique_spec l out Hn) as [Hn' Hi]. destruct (IH _ Hn') as (r & -> & Hr). exists r. split; [done|]. destruct r as [res|].
      * destruct Hr as (H1' & H2' & H3'). split_and!; [done| |intros x Hx; apply elem_of_cons in Hx as [->|Hx]; [right; exists l; rewrite Et; auto|auto]].
        intros e. rewrite H2', He, Hi. split; [intros [[?|?]|?]; [by left|right; left; exists l; auto|by right; right]|].
        intros [?|[(l' & _ & Hl & ?)|?]]; [by left; left| |by right]. apply Hc in Hl as [= ->]. by left; right.
      * destruct Hr as (x & Hx & ?). exists x. split; [by constructor|done].
    + exists None. split; [done|]. exists t. rewrite Et. split_and!; [constructor|done|]. intros [l Hl]. by apply Hc in Hl.
Qed.

Lemma entry_valid p l e : cstr_ok p -> denotes p false l -> e ∈ l -> cstr_ok e /\ (e = lit "default" \/ exists net p, cidr_parse e = Some (net, p)).
Proof.
  assert (forall b, bytes_ok b -> zlen b = 4 -> cstr_ok (ip_to_string b ++ lit "/32") /\ exists net p, cidr_parse (ip_to_string b ++ lit "/32") = Some (net, p)) as Hq.
  { intros b Hb Hl. split; [|exists (ip4_u32 b), 32; by apply quad_cidr]. apply Forall_app. split; [|by repeat constructor]. destruct (quad_text b Hb) as [Hq _].
    eapply Forall_impl; [exact Hq|]. intros c [->|Hc]; [done|unfold isdigit in Hc; lia]. }
  intros Hp Hd. inversion Hd as [E|b d E ? ? ? ? ? ?|a b d E|b Hs Hnd Hb|b E1 E2|v l' Hs Hn Hg Hf]; subst.
  - intros ->%list_elem_of_singleton. split; [done|by left].
  - intros ->%list_elem_of_singleton. split; [done|right]. exists (ip4_u32 b), (digits_val d). apply cidr_parse_exact; [done|]. by exists b, d.
  - intros ->%list_elem_of_singleton. destruct (pton4_text p b Hp Hb) as (-> & Hb4 & Hl & _). destruct (Hq b Hb4 Hl); auto.
  - intros He. apply list_elem_of_In, in_map_iff in He as ([f b] & <- & Hx). apply list_elem_of_In, list_elem_of_filter in Hx as [Hf1 Hx]. cbn in Hf1. subst f.
    destruct (gai_quad p l' b Hg Hx) as [Hb Hl]. destruct (Hq b Hb Hl); auto.
Qed.

Lemma expand_returns v6 targets : Forall cstr_ok targets -> exists r, expand_route_targets_fam v6 (Some targets) = Ret r /\
  match r with
  | Some out => NoDup out /\ (forall e, e ∈ out <-> entry_of v6 targets e) /\ (forall t, t ∈ targets -> trim_blank t = [] \/ exists l, denotes (trim_blank t) v6 l) /\
      (v6 = false -> forall e, e ∈ out -> cstr_ok e /\ (e = lit "default" \/ exists net p, cidr_parse e = Some (net, p)))
  | None => exists t, t ∈ targets /\ trim_blank t <> [] /\ ~ exists l, denotes (trim_blank t) v6 l
  end.
Proof.
  intros Ht. destruct (expand_loop_spec v6 targets Ht [] (NoDup_nil_2)) as (r & E & Hr). exists r. split; [done|]. destruct r as [out|]; [|done].
  destruct Hr as (H1' & H2' & H3'). assert (forall e, e ∈ out <-> entry_of v6 targets e) as He by (intros e; rewrite H2'; split; [intros [?%elem_of_nil|?]; done|by right]).
  split_and!; [done..|]. intros -> e (t & l & Hin & _ & Hd & Hel)%He. apply (entry_valid (trim_blank t) l); [|done..]. apply trim_ok. by apply (proj1 (Forall_forall _ _) Ht).
Qed.

(** C32: Expanding the route targets of a family returns for every list of texts.  It succeeds exactly when every target that is not blank has a
    meaning: the word default, a dotted quad or IPv6 address with a prefix length in range (zero only for the zero address), an address,
    or a name that is no numeric spelling of an address and resolves to addresses of the family.  The result then holds every entry of every
    target, each once, and nothing else; and each IPv4 entry is the word default or a text that [cidr_parse] takes. *)
Theorem targets_exact (v6 : bool) (targets : list bytes) : Forall cstr_ok targets ->
  exists r, expand_route_targets_fam v6 (Some targets) = Ret r /\
  match r with
  | Some out => NoDup out /\ (forall e, e ∈ out <-> entry_of v6 targets e) /\ (forall t, t ∈ targets -> trim_blank t = [] \/ exists l, denotes (trim_blank t) v6 l) /\
      (v6 = false -> forall e, e ∈ out -> e = lit "default" \/ exists net p, cidr_parse e = Some (net, p))
  | None => exists t, t ∈ targets /\ trim_blank t <> [] /\ ~ exists l, denotes (trim_blank t) v6 l
  end.
Proof.
  intros Ht. destruct (expand_returns v6 targets Ht) as (r & E & Hr). exists r. split; [done|]. destruct r as [out|]; [|done]. destruct Hr as (H1' & H2' & H3' & H4').
  split_and!; [done..|]. intros Hv e He. by apply H4'.
Qed.

End TargetSpec.

(** ** Examples *)

Module RouteDemo.

Definition inet : Inet := {| inet_pton4 := s2ip4; inet_pton6 := fun _ => None |}.
Lemma inet_laws : @InetLaws inet.
Proof. split; [done|done]. Qed.

(** One name with two addresses. *)
Definition resolver : Resolver :=
  {| getaddrinfo v6 p := if negb v6 && beq p (lit "vpn.example") then Some [(false, [10; 1; 2; 3]); (false, [10; 1; 2; 4])] else None; inet_ntop6 b := [] |}.
Lemma resolver_laws : @ResolverLaws resolver.
Proof.
  split; [|done]. intros p l b. cbn [getaddrinfo resolver negb andb]. destruct (beq p (lit "vpn.example")); [|done]. intros [= <-] Hb.
  repeat (apply elem_of_cons in Hb as [[= ->]|Hb]; [split; [apply (bool_decide_unpack _); vm_compute; exact I|reflexivity]|]). by apply elem_of_nil in Hb.
Qed.

Lemma targets_exact_witness : exists r, expand_route_targets_fam (H := inet) (H0 := resolver) false (Some [lit " 10.0.0.0/8 "; lit "10.1.2.3"; lit "vpn.example"]) = Ret (Some r) /\ NoDup r /\ zlen r = 3.
Proof.
  destruct (targets_exact (H := inet) (H0 := inet_laws) (H1 := resolver) (H2 := resolver_laws) false [lit " 10.0.0.0/8 "; lit "10.1.2.3"; lit "vpn.example"]) as (r & E & Hr).
  { apply (bool_decide_unpack _). vm_compute. exact I. }
  assert (expand_route_targets_fam (H := inet) (H0 := resolver) false (Some [lit " 10.0.0.0/8 "; lit "10.1.2.3"; lit "vpn.example"]) = Ret (Some [lit "10.0.0.0/8"; lit "10.1.2.3/32"; lit "10.1.2.4/32"])) as E' by (vm_compute; reflexivity).
  rewrite E' in E. apply ret_inj in E. subst r. eexists. split; [exact E'|]. split; [exact (proj1 Hr)|reflexivity].
Defined.

(** Short, octal and hexadecimal spellings are refused, and so are prefix lengths out of range. *)
Example spellings_refused :
  forallb (fun t => match expand_route_targets_fam (H := inet) (H0 := resolver) false (Some [t]) with Ret None => true | _ => false end)
    [lit "127.1"; lit "0x7f000001"; lit "010.0.0.1"; lit "1.2.3.4/0"; lit "10.0.0.0/33"; lit "10.0.0.0/+8"] = true.
Proof. vm_compute. reflexivity. Qed.

(** A machine whose state is the list of its routes. *)
#[local] Instance slot_dec x y : Decision (same_slot x y).
Proof. unfold same_slot. apply _. Defined.
#[local] Instance selects_dec n v d y : Decision (selects n v d y).
Proof. unfold selects. apply _. Defined.

Definition without (x : option (nat * route)) (l : list route) : list route := match x with Some (_, x) => filter (fun y => y <> x) l | None => l end.

Definition put (r : route) (l : list route) : list route := r :: without (list_find (fun y => same_slot y r) l) l.

Definition take_out (n : Z * Z) (v : option bytes) (d : bytes) (l : list route) : bool * list route :=
  match list_find (fun y => selects n v d y /\ rt_metric y = []) l with
  | Some x => (true, without (Some x) l)
  | None => match list_find (fun y => selects n v d y) l with Some x => (true, without (Some x) l) | None => (false, l) end
  end.

Definition metric_word (l : list bytes) : option bytes :=
  match l with [] => Some [] | [k; x] => if beq k (lit "metric") then Some x else None | _ => None end.

Definition dev_words (v : option bytes) (l : list bytes) : option (option bytes * bytes * bytes) :=
  match l with
  | k :: d :: r => if beq k (lit "dev") then (fun x => (v, d, x)) <$> metric_word r else None
  | _ => None
  end.

Definition route_words (l : list bytes) : option (option bytes * bytes * bytes) :=
  match l with
  | k :: g :: r => if beq k (lit "via") then dev_words (Some g) r else dev_words None l
  | _ => None
  end.

(** [ip_run] of a machine that refuses nothing it understands. *)
Definition run_words (a : list bytes) (l : list route) : bool * list route :=
  match a with
  | c :: o :: p :: r =>
      if beq c (lit "route") then
        match net_of p, route_words r with
        | Some n, Some (v, d, x) => if beq o (lit "replace") then (true, put (mk_route n x v d) l) else if beq o (lit "del") then take_out n v d l else (false, l)
        | _, _ => (true, l)
        end
      else if beq c (lit "link") && match r with [w] => beq w (lit "down") | _ => false end then (true, filter (fun y => rt_dev y <> p) l)
      else (true, l)
  | _ => (true, l)
  end.

(** Its default, with a metric or without. *)
Section Toy.
Context (with_metric : bool).

Definition shown : route := mk_route (0, 0) (if with_metric then lit "100" else []) (Some (lit "10.0.2.2")) (lit "eth0").

Definition toy : Ip := {|
  machine := list route;
  ip_run := run_words;
  cmd_capture a l := if existsb (fun w => beq w (lit "addr")) a then Some (lit "inet 10.0.2.15/24 brd 10.0.2.255")
                     else if decide (shown ∈ l) then Some (lit "default via 10.0.2.2 dev eth0" ++ if with_metric then lit " metric 100" else []) else None
|}.

Lemma words_back v d x : route_words (via_args v ++ [lit "dev"; d] ++ metric_args x) = Some (v, d, x).
Proof. destruct v as [v|], x as [|c x]; reflexivity. Qed.

Lemma put_replaced r l : replaced (fun y => y ∈ l) (fun y => y ∈ put r l) r.
Proof.
  unfold put. destruct (list_find _ l) as [[i x]|] eqn:E.
  - apply list_find_Some in E as (Hx & Hs & _). exists (Some x). split; [split; [by eapply list_elem_of_lookup_2|done]|]. intros y. cbn [without]. rewrite elem_of_cons, list_elem_of_filter.
    split; (intros [->|Hy]; [by left|right]); [destruct Hy; split; [done|congruence]|destruct Hy as [Hy Hn]; split; [congruence|done]].
  - apply list_find_None in E. exists None. split; [by apply Forall_forall|]. intros y. cbn [without]. rewrite elem_of_cons. split; (intros [->|Hy]; [by left|right]); [done|by destruct Hy].
Qed.

Lemma take_out_deleted n v d l : let c := take_out n v d l in
  if c.1 then deleted (fun y => y ∈ l) (fun y => y ∈ c.2) n v d else same (fun y => y ∈ l) (fun y => y ∈ c.2) /\ forall y, y ∈ l -> ~ selects n v d y.
Proof.
  cbv zeta. unfold take_out. assert (forall x, (forall y, y ∈ filter (fun y => y <> x) l <-> y ∈ l /\ y <> x)) as Hf by (intros x y; rewrite list_elem_of_filter; tauto).
  destruct (list_find (fun y => selects n v d y /\ rt_metric y = []) l) as [[i x]|] eqn:E1; cbn [fst snd without].
  - apply list_find_Some in E1 as (Hx & [Hs Hm] & _). exists x. split_and!; [by eapply list_elem_of_lookup_2|done|done|apply Hf].
  - apply list_find_None in E1. destruct (list_find (fun y => selects n v d y) l) as [[i x]|] eqn:E2; cbn [fst snd without].
    + apply list_find_Some in E2 as (Hx & Hs & _). exists x. split_and!; [by eapply list_elem_of_lookup_2|done| |apply Hf]. intros (z & Hz & Hs' & Hm). destruct (proj1 (Forall_forall _ _) E1 z Hz). done.
    + apply list_find_None in E2. split; [done|]. by apply Forall_forall.
Qed.

Lemma run_iface l d a : iface_cmd d a -> run_words a l = (true, l) \/ run_words a l = (true, filter (fun y => rt_dev y <> d) l).
Proof. destruct 1; [by left..|by right]. Qed.

Definition toy_laws : @IpLaws toy.
Proof.
  refine {| routes (l : @machine toy) := fun y => y ∈ (l : list route) |}.
  - intros l p v d x n Hp. change ([lit "route"; lit "replace"; p] ++ via_args v ++ [lit "dev"; d] ++ metric_args x) with (lit "route" :: lit "replace" :: p :: via_args v ++ [lit "dev"; d] ++ metric_args x).
    cbn [ip_run toy]. unfold run_words. rewrite Hp, words_back. cbv zeta. apply put_replaced.
  - intros l p v d n Hp. change ([lit "route"; lit "del"; p] ++ via_args v ++ [lit "dev"; d]) with (lit "route" :: lit "del" :: p :: via_args v ++ [lit "dev"; d]).
    cbn [ip_run toy]. unfold run_words. pose proof (words_back v d []) as Hw. cbn [metric_args] in Hw. rewrite app_nil_r in Hw. rewrite Hp, Hw. cbv zeta. apply take_out_deleted.
  - intros l d a Ha. cbn [ip_run toy]. destruct (run_iface l d a Ha) as [-> | ->]; cbn [snd]; [split; [done|by left]|].
    split; intros y Hd; rewrite list_elem_of_filter; [tauto|]. intros [? _]. done.
  - intros l d a y Ha. cbn [ip_run toy]. assert (iface_cmd d a) as Hi by (destruct Ha as [-> | ->]; constructor). destruct (run_iface l d a Hi) as [-> | ->]; cbn [snd]; [done|]. rewrite list_elem_of_filter. tauto.
  - intros l d y _. change ((ip_run [lit "link"; lit "set"; d; lit "down"] l).2) with (filter (fun y => rt_dev y <> d) (l : list route)). rewrite list_elem_of_filter. tauto.
  - intros l y. reflexivity.
  - intros l [|p a] y; reflexivity.
  - intros l d e a _. reflexivity.
  - intros l a out. cbn [cmd_capture toy]. destruct (existsb _ a); [intros [= <-]; apply (bool_decide_unpack _); vm_compute; exact I|].
    destruct (decide _); [|done]. intros [= <-]. destruct with_metric; apply (bool_decide_unpack _); vm_compute; exact I.
  - intros l out w g d x. cbn [cmd_capture toy]. change (existsb _ _) with false. cbn iota. destruct (decide (shown ∈ (l : list route))) as [Hin|]; [|done]. intros [= <-] Hw.
    unfold shown in Hin. destruct with_metric; vm_compute in Hw; apply list_elem_of_singleton in Hw as ->; intros E; vm_compute in E; injection E as <- <- <-; (split_and!; [exact Hin|reflexivity..]).
Defined.

End Toy.

End RouteDemo.
