(* ===== verification/PumpRun.v ===== *)
(** * A session of the client (src/src/common/proxy.c, run_pump)

    [run_pump] from the route targets to the return code: routes up, threads, the watch loop, routes down, CLOSE.  What the
    threads do to the socket (see [Pump]), the pool, the clock ticks and the signals are inputs. *)

From S2P Require Import Prelude Util Crypto Protocol Session Open PumpSend Pump ProtoParse Route.
Import Scan Pace.

Definition TUN_POOL_MAX : Z := 8.

Definition pump_queues_env (defq : Z) (v : option bytes) : Z :=
  match v with
  | None | Some [] => defq
  | Some (c :: r) =>
      if (c <? 48) || (c >? 57) then defq
      else
        let '(qn, e, erange) := strtol (c :: r) in
        if erange || (zlen e =? zlen (c :: r)) || negb (hd 0 e =? 0) then defq
        else if (qn <? 1) || (qn >? TUN_POOL_MAX) then defq else qn
  end.

Record run_args := {
  ra_tun_fd : Z; ra_tun : bytes; ra_key : bytes; ra_sid : Z; ra_tok : Z; ra_enc : Z; ra_server : bytes;
  ra_targets : option (list bytes); ra_targets6 : option (list bytes); ra_ip : bytes; ra_mtu : Z
}.

(** One turn of the watch loop: [g_stop] and [g_user_stop] at its head, [session_lost] and the device at its probe. *)
Record watch_tick := { wt_stop : bool; wt_user : bool; wt_lost : bool; wt_present : bool }.

Record run_io := {
  ri_user_stop : bool;
  ri_ncpu : Z;
  ri_queues : option bytes;
  ri_pool : Z -> bool;
  ri_thread : bool;
  ri_ticks : list watch_tick;
  ri_probe : Z;
  ri_pace : pace_bucket;
  ri_threads : pump_ctx -> Sock -> Sock;
  ri_close : ctrl_io
}.

(** The loop of the main thread; true when it found the device gone. *)
Fixpoint watch (tun_fd : Z) (ticks : list watch_tick) : res bool :=
  match ticks with
  | [] => Fault OutOfFuel
  | t :: r =>
      if wt_stop t || wt_user t then Ret false
      else if negb (wt_lost t) && (tun_fd >=? 0) && negb (wt_present t) then Ret true
      else watch tun_fd r
  end.

(** The socket state [run_pump] starts the threads with; the time of the last probe of segmentation outlives a session. *)
Definition sock0 (io : run_io) : Sock := mk_sock (-1) 0 0 0 (ri_probe io) (ri_pace io) false false [].

Section Run.
Context `{OpenSSL} `{Inet} `{Resolver} `{Ip}.

(** Routes or at least the interface; [inl] when the session gives up here. *)
Definition routes_up (a : run_args) (rts : list bytes) (m : machine) : machine + (gateway * flags * machine) :=
  if 0 <? zlen rts then
    match capture_default m with
    | None => inl m
    | Some g =>
        let '(ok, f, m) := route_setup (ra_tun a) (ra_ip a) (ra_mtu a) (ra_server a) g rts m in
        if ok then inr (g, f, m) else inl m
    end
  else
    let (ok, m) := route_iface_up (ra_tun a) (ra_ip a) (ra_mtu a) m in
    if ok then inr (mk_gw [] [] [], mk_flags false false, m) else inl (route_iface_down (ra_tun a) m).

Definition run_pump (a : run_args) (io : run_io) (m : machine) : res (Z * machine * option Sock) :=
  let! x := expand_route_targets_fam false (ra_targets a) in
  match x with
  | None => Ret (-1, m, None)
  | Some rts =>
      let! y := expand_route_targets_fam true (ra_targets6 a) in
      match y with
      | None => Ret (-1, m, None)
      | Some rts6 =>
          match routes_up a rts m with
          | inl m => Ret (-1, m, None)
          | inr (g, f, m) =>
              let m := route_setup6 (ra_tun a) rts6 m in
              let down m := (teardown_routes (ra_tun a) (ra_server a) g rts rts6 f m).2 in
              if ri_user_stop io then Ret (0, down m, None)
              else
                match s2ip4 (ra_ip a) with
                | None => Ret (-1, down m, None)
                | Some b4 =>
                    let ctx := {| pc_key := ra_key a; pc_sid := ra_sid a; pc_tok := ra_tok a; pc_ip := ip4_u32 b4; pc_enc := ra_enc a |} in
                    let maxq := if (ri_ncpu io >? 0) && (ri_ncpu io <? TUN_POOL_MAX) then ri_ncpu io else TUN_POOL_MAX in
                    if negb (ri_pool io (pump_queues_env maxq (ri_queues io))) then Ret (-1, down m, None)
                    else if negb (ri_thread io) then Ret (-1, down m, None)
                    else
                      let! gone := watch (ra_tun_fd a) (ri_ticks io) in
                      let p := ri_threads io ctx (sock0 io) in
                      let p := if gone then set_lost p else p in
                      let m := down m in
                      let! c := send_ctrl (ri_close io) PT_CLOSE (ra_enc a) (ra_sid a) (ra_tok a) p in
                      Ret (if session_lost c.2 then 1 else 0, m, Some c.2)
                end
          end
      end
  end.

End Run.

(** * Proofs *)



Lemma queues_range defq v : 1 <= defq <= TUN_POOL_MAX -> 1 <= pump_queues_env defq v <= TUN_POOL_MAX.
Proof.
  intros Hd. unfold pump_queues_env. destruct v as [[|c r]|]; [done| |done]. destruct (_ || (c >? 57)); [done|]. destruct (strtol _) as [[q e] er].
  destruct (er || _ || _); [done|]. destruct ((q <? 1) || _) eqn:E; [done|lia].
Qed.

Section Safe.
Context `{OpenSSL} `{InetLaws} `{ResolverLaws} `{IpLaws}.















End Safe.

(** ** Examples *)

Module RunDemo.
Import RouteDemo.

Definition args (targets : list bytes) : run_args := {|
  ra_tun_fd := 3; ra_tun := lit "iwan0"; ra_key := [1; 2; 3; 4; 5; 6; 7; 8]; ra_sid := 2; ra_tok := 305419896; ra_enc := 1; ra_server := lit "192.0.2.1";
  ra_targets := Some targets; ra_targets6 := None; ra_ip := lit "198.18.0.2"; ra_mtu := 1400
|}.

(** The session runs for one tick and is then lost. *)
Definition io : run_io := {|
  ri_user_stop := false; ri_ncpu := 4; ri_queues := None; ri_pool := fun _ => true; ri_thread := true;
  ri_ticks := [{| wt_stop := false; wt_user := false; wt_lost := false; wt_present := true |}; {| wt_stop := true; wt_user := false; wt_lost := true; wt_present := true |}];
  ri_probe := 0; ri_pace := mk_pace 0 0 0; ri_threads := fun _ p => set_lost p; ri_close := {| ct_clear := true; ct_send := inl 24; ct_arm := true |}
|}.

Definition lan : route := mk_route (167772672, 24) [] None (lit "eth0").
Definition ppp : route := mk_route (0, 0) [] None (lit "ppp0").

Definition run (with_metric : bool) (targets : list bytes) (m : list route) : res (Z * list route * option Sock) :=
  run_pump (H := Toy.toy_openssl) (H0 := inet) (H1 := resolver) (H2 := toy with_metric) (args targets) io m.




(** The set-up replaces a default without metric.  One that has no gateway is not what [capture_default] takes when another default has one, and is not
    put back. *)
Example other_default_lost : match run true [lit "default"] [shown true; ppp; lan] with Ret (rc, m, _) => (rc, bool_decide (shown true ∈ m), bool_decide (ppp ∈ m)) | _ => (0, false, false) end = (1, true, false).
Proof. vm_compute. reflexivity. Qed.

(** A zero prefix length with a second zero is a default route that [is_default_v4] does not know: it replaces the default, and the teardown deletes it and puts nothing
    back. *)
Example zero_prefix_lost : match run false [lit "0.0.0.0/00"] [shown false; lan] with Ret (rc, m, _) => (rc, bool_decide (shown false ∈ m), zlen (filter (fun y => rt_net y = (0, 0)) m)) | _ => (0, false, 0) end = (1, false, 0).
Proof. vm_compute. reflexivity. Qed.

End RunDemo.
