(* ===== verification/Http.v ===== *)
(** * HTTP messages of the login client (src/src/common/http_parser.c and https_tls_read
    of src/src/common/https.c)

    [Msg] holds the pure parsers and builders, [Read] the loop that collects a response
    from the TLS connection and decides when it is complete. *)

From S2P Require Import Prelude Util Crypto.

Definition is_eol (c : Z) : bool := (c =? 13) || (c =? 10).
Definition is_lws (c : Z) : bool := (c =? 32) || (c =? 9).

(** [while (p < end && f(p[0])) p++;] *)
Fixpoint skipw (f : Z -> bool) (s : bytes) : bytes :=
  match s with
  | [] => []
  | c :: r => if f c then skipw f r else s
  end.

(** The bytes before the first one satisfying [f] ([memchr], [strchr] and the scan loops). *)
Fixpoint upto (f : Z -> bool) (s : bytes) : bytes :=
  match s with
  | [] => []
  | c :: r => if f c then [] else c :: upto f r
  end.

(** What is left from that byte on. *)
Fixpoint from (f : Z -> bool) (s : bytes) : bytes :=
  match s with
  | [] => []
  | c :: r => if f c then s else from f r
  end.

(** [while (n > 0 && f(s[n - 1])) n--;] *)
Definition rtrim (f : Z -> bool) (s : bytes) : bytes := rev (skipw f (rev s)).

(** The offset of the first occurrence of [needle]. *)
Fixpoint find_sub (needle hay : bytes) : option Z :=
  if beq (take (length needle) hay) needle then Some 0
  else
    match hay with
    | [] => None
    | _ :: r => match find_sub needle r with Some i => Some (i + 1) | None => None end
    end.

(** [strstr(d, needle)] stops at the terminator. *)
Definition strstr (d needle : bytes) : option Z := find_sub needle (cstr d).

Module Msg.

Definition HTTPS_CHUNK_SZ_CAP : Z := 2147483647.
Definition HTTPS_MAX_RESP : Z := 16 * 1024 * 1024.
Definition HTTPS_LOG_SAN_MAX : Z := 64.
Definition CRLF : bytes := [13; 10].

(** ** Log hygiene *)

Definition https_utf8_seq (d : bytes) : res Z :=
  let avail := zlen d in
  let! c := rd d 0 in
  let lenlohi :=
    if (c >=? 194) && (c <=? 223) then Some (2, 128, 191)
    else if (c >=? 224) && (c <=? 239) then
      Some (3, if c =? 224 then 160 else 128, if c =? 224 then 191 else if c =? 237 then 159 else 191)
    else if (c >=? 240) && (c <=? 244) then
      Some (4, if c =? 240 then 144 else 128, if c =? 240 then 191 else if c =? 244 then 143 else 191)
    else None in
  match lenlohi with
  | None => Ret 0
  | Some (len, lo, hi) =>
      if avail <? 2 then Ret 0
      else
        let! c1 := rd d 1 in
        if negb (Z.land c1 192 =? 128) || (c1 <? lo) || (c1 >? hi) then Ret 0
        else if (len >=? 3) && (avail <? 3) then Ret 0
        else
          let! c2 := if len >=? 3 then rd d 2 else Ret 128 in
          if negb (Z.land c2 192 =? 128) then Ret 0
          else if (len >=? 4) && (avail <? 4) then Ret 0
          else
            let! c3 := if len >=? 4 then rd d 3 else Ret 128 in
            if negb (Z.land c3 192 =? 128) then Ret 0 else Ret len
  end.

(** A store of [l] behind [out] in an array of [outsz] bytes. *)
Definition store (outsz : Z) (out l : bytes) : res bytes :=
  if zlen out + zlen l <=? outsz then Ret (out ++ l) else Fault OutOfBounds.

(** The copy loop: the rest of the input when it stops, and the output. *)
Fixpoint san_loop (fuel : nat) (budget outsz : Z) (d out : bytes) : res (bytes * bytes) :=
  match fuel with
  | O => Fault OutOfFuel
  | S fuel =>
      if (zlen d =? 0) || (zlen out >=? budget) then Ret (d, out)
      else
        let! c := rd d 0 in
        let! seq := https_utf8_seq d in
        if seq >=? 2 then
          if zlen out + seq >? budget then Ret (d, out)
          else
            let! c1 := rd d 1 in
            if (seq =? 2) && (c =? 194) && (c1 >=? 128) && (c1 <=? 159) then
              let! out := store outsz out [63] in
              san_loop fuel budget outsz (drop (Z.to_nat seq) d) out
            else
              let! l := rdn d 0 seq in
              let! out := store outsz out l in
              san_loop fuel budget outsz (drop (Z.to_nat seq) d) out
        else
          let c := if (c =? 0) || (c <? 32) || (c >=? 127) then 63 else c in
          let! out := store outsz out [c] in
          san_loop fuel budget outsz (drop 1 d) out
  end.

(** The bytes written to [out], the terminator included; [None] for [outsz = 0]. *)
Definition https_log_san (d : bytes) (outsz : Z) : res (option bytes) :=
  if outsz =? 0 then Ret None
  else
    let budget := if outsz >? 4 then outsz - 4 else 0 in
    let! (rest, out) := san_loop (S (length d)) budget outsz d [] in
    let! out := if (zlen rest >? 0) && (outsz >=? 4) then store outsz out (lit "...") else Ret out in
    let! out := store outsz out [0] in
    Ret (Some out).

(** ** Chunked bodies *)

Fixpoint hex_acc (s : bytes) (v : Z) : Z :=
  match s with
  | [] => v
  | c :: r =>
      let h := hex_nibble c in
      if h <? 0 then -1 else if v >? (HTTPS_CHUNK_SZ_CAP - h) / 16 then -1 else hex_acc r (v * 16 + h)
  end.

Definition hex_parse_sz (s : bytes) : Z := hex_acc s 0.

(** [Some out] for the return value 1. *)
Fixpoint chunk_loop (fuel : nat) (d out : bytes) : res (option bytes) :=
  match fuel with
  | O => Fault OutOfFuel
  | S fuel =>
      if zlen d =? 0 then Ret None
      else
        let sz := hex_parse_sz (upto (fun c => is_eol c || (c =? 59)) d) in
        if sz <? 0 then Ret None
        else
          let j := skipw is_eol (from is_eol (from (fun c => is_eol c || (c =? 59)) d)) in
          if sz =? 0 then Ret (Some out)
          else if sz >? zlen j then Ret None
          else
            let! l := rdn j 0 sz in
            chunk_loop fuel (skipw is_eol (drop (Z.to_nat sz) j)) (out ++ l)
  end.

Definition chunk_decode (d : bytes) : res (option bytes) := chunk_loop (S (length d)) d [].

(** ** Header fields *)

(** The lines the loop of [https_hdr_value] visits. *)
Fixpoint lf_lines (cur d : bytes) : list bytes :=
  match d with
  | [] => if zlen cur =? 0 then [] else [cur]
  | c :: r => if c =? 10 then cur :: lf_lines [] r else lf_lines (cur ++ [c]) r
  end.

Definition strip_cr (l : bytes) : bytes :=
  match rev l with
  | c :: r => if c =? 13 then rev r else l
  | [] => []
  end.

Fixpoint hdr_loop (name : bytes) (ls : list bytes) (val : bytes) (matched : bool) : bytes :=
  match ls with
  | [] => val
  | l :: ls =>
      match strip_cr l with
      | [] => val
      | (c :: _) as l =>
          if is_lws c then hdr_loop name ls (if matched then val ++ [32] ++ skipw is_lws l else val) matched
          else
            match from (Z.eqb 58) l with
            | [] => hdr_loop name ls val matched
            | _ :: v =>
                let n := upto (Z.eqb 58) l in
                if (zlen n =? zlen name) && strncaseeq n name (zlen name)
                then hdr_loop name ls ((if zlen val =? 0 then val else val ++ [44; 32]) ++ skipw is_lws v) true
                else hdr_loop name ls val matched
            end
      end
  end.

Definition https_hdr_value (hdr name : bytes) : option bytes :=
  match hdr_loop name (lf_lines [] hdr) [] false with
  | [] => None
  | val => Some (rtrim is_lws val)
  end.

(** The comma-separated elements of a string. *)
Fixpoint commas (cur s : bytes) : list bytes :=
  match s with
  | [] => [cur]
  | c :: r => if c =? 44 then cur :: commas [] r else commas (cur ++ [c]) r
  end.

Fixpoint te_loop (ls : list bytes) (codings : Z) (ok : bool) : bool :=
  match ls with
  | [] => ok && (codings =? 1)
  | e :: ls =>
      let e := rtrim is_lws (skipw is_lws e) in
      if zlen e =? 0 then false
      else te_loop ls (codings + 1) ((zlen e =? 7) && strncaseeq e (lit "chunked") 7)
  end.

Definition https_te_is_chunked (val : bytes) : bool := te_loop (commas [] (cstr val)) 0 false.

(** *** [https_te_header_chunked]

    This scan works on offsets into the block and subtracts pointers, so offsets are kept. *)

Definition scan_eol (d : bytes) (i : Z) : Z := i + zlen (upto is_eol (drop (Z.to_nat i) d)).

(** [while (p < stop && lws(d[p])) p++;] *)
Definition skip_lws (d : bytes) (p stop : Z) : Z :=
  if p <? stop then stop - zlen (skipw is_lws (slice d p (stop - p))) else p.

(** The obs-fold loop: append the continuation lines behind the line that ends at [j]. *)
Fixpoint fold_loop (fuel : nat) (d : bytes) (j : Z) (v : Grow.buf_t) : res Grow.buf_t :=
  match fuel with
  | O => Fault OutOfFuel
  | S fuel =>
      let hlen := zlen d in
      if j >=? hlen then Ret v
      else
        let leol := j in
        let! c := rd d j in
        let j := if c =? 13 then j + 1 else j in
        let! j := if j <? hlen then let! c := rd d j in Ret (if c =? 10 then j + 1 else j) else Ret j in
        let! stop := if j >=? hlen then Ret true else let! c := rd d j in Ret (negb (is_lws c)) in
        if stop then Ret v
        else
          let leol := scan_eol d leol in
          let lp := skip_lws d j leol in
          let! v := Grow.sbuf_app v [32] 1 in
          let! v := Grow.sbuf_app v (drop (Z.to_nat lp) d) (u64 (leol - lp)) in
          fold_loop fuel d leol v
  end.

Definition TE : bytes := lit "Transfer-Encoding:".

(** One list element: parameters and blanks dropped, is it the coding? *)
Definition te_elem (e : bytes) : bool :=
  let e := rtrim is_lws (skipw is_lws e) in
  let e := rtrim is_lws (upto (Z.eqb 59) e) in
  (zlen e =? 7) && strncaseeq e (lit "chunked") 7.

Fixpoint te_header_loop (fuel : nat) (d : bytes) (i : Z) : res bool :=
  match fuel with
  | O => Fault OutOfFuel
  | S fuel =>
      let hlen := zlen d in
      if i >=? hlen then Ret false
      else
        let eol := scan_eol d i in
        let! yes :=
          if (eol - i >=? zlen TE) && strncaseeq (drop (Z.to_nat i) d) TE (zlen TE) then
            let p := skip_lws d (i + zlen TE) eol in
            let! v := Grow.sbuf_app (Grow.mk_buf [] 0) (drop (Z.to_nat p) d) (u64 (eol - p)) in
            let! v := fold_loop (S (length d)) d eol v in
            Ret (existsb te_elem (commas [] (cstr (rtrim is_lws (Grow.data v)))))
          else Ret false in
        if yes then Ret true
        else te_header_loop fuel d (hlen - zlen (skipw is_eol (drop (Z.to_nat eol) d)))
  end.

Definition https_te_header_chunked (d : bytes) : res bool := te_header_loop (S (length d)) d 0.

(** ** Content-Length *)

(** The lines between runs of CR and LF. *)
Fixpoint eol_lines (cur d : bytes) : list bytes :=
  match d with
  | [] => [cur]
  | c :: r => if is_eol c then cur :: eol_lines [] r else eol_lines (cur ++ [c]) r
  end.

Fixpoint cl_acc (s : bytes) (v : Z) : Z :=
  match s with
  | [] => v
  | c :: r =>
      if (c <? 48) || (c >? 57) then -1
      else
        let v := v * 10 + (c - 48) in
        if v >? HTTPS_MAX_RESP then -1 else cl_acc r v
  end.

Fixpoint cl_loop (ls : list bytes) : Z :=
  match ls with
  | [] => -1
  | l :: ls =>
      if (zlen l >=? 15) && strncaseeq l (lit "Content-Length:") 15
      then cl_acc (skipw is_lws (drop 15 l)) 0
      else cl_loop ls
  end.

Definition https_content_length (d : bytes) : Z := cl_loop (eol_lines [] d).

(** ** Requests *)

Definition http_ctrl_in (s : bytes) : bool := existsb (fun c => (c <? 32) || (c =? 127)) s.

(** Host and path of an absolute URL. *)
Definition https_url_split (url : bytes) : option (bytes * bytes) :=
  if negb (strncaseeq url (lit "https://") 8) then None
  else
    let auth := drop 8 url in
    let slash := from (Z.eqb 47) auth in
    let host := upto (fun c => (c =? 47) || (c =? 63) || (c =? 35)) auth in
    if zlen host =? 0 then None
    else if existsb (Z.eqb 64) host then None
    else if existsb (Z.eqb 58) host then None
    else if http_ctrl_in host then None
    else
      match slash with
      | [] => Some (host, [47])
      | _ =>
          let path := upto (Z.eqb 35) slash in
          if http_ctrl_in path then None else Some (host, path)
      end.

Definition https_req_build (req host path : bytes) (body : option bytes) (headers : list bytes) (is_get : bool)
    : option bytes :=
  if http_ctrl_in path then None
  else if http_ctrl_in host then None
  else if existsb http_ctrl_in headers then None
  else
    let body := default [] body in
    let cl := lit "Content-Length: " ++ Scan.dec_str (zlen body) in
    let req := req ++ (if is_get then lit "GET " else lit "POST ") in
    let req := req ++ path in
    let req := req ++ lit " HTTP/1.1" ++ CRLF ++ lit "Host: " in
    let req := req ++ host in
    let req := req ++ CRLF ++ lit "Connection: close" ++ CRLF in
    let req := fold_left (fun r h => r ++ h ++ CRLF) headers req in
    let req := if is_get then req else req ++ cl ++ CRLF in
    let req := req ++ CRLF in
    Some (if is_get then req else req ++ body).

(** ** Responses *)

(** [sbuf_find], as an offset. *)
Definition sbuf_find (hay needle : bytes) : option Z :=
  if (zlen needle =? 0) || (zlen hay <? zlen needle) then None else find_sub needle hay.

(** Offsets of the header lines and of the body. *)
Definition https_hdr_body (d : bytes) : Z * Z :=
  let eol_in l :=
    let n := zlen (upto (Z.eqb 10) l) in if n <? zlen l then Some n else None in
  let at_term term tlen :=
    (match eol_in (take (Z.to_nat term) d) with Some e => e + 1 | None => term end, term + tlen) in
  match strstr d (CRLF ++ CRLF) with
  | Some term => at_term term 4
  | None =>
      match strstr d [10; 10] with
      | Some term => at_term term 2
      | None => (match eol_in d with Some e => e + 1 | None => 0 end, zlen d)
      end
  end.

Definition https_resp_status (d : bytes) : Z :=
  let p := skipw (fun c => is_eol c || is_lws c) d in
  if (zlen p <? 7) || negb (beq (take 7 p) (lit "HTTP/1.")) then -1
  else
    match from (Z.eqb 32) p with
    | [] => -1
    | _ :: s =>
        let s := cstr s in
        let '(code, endp, _) := Scan.strtol s in
        if (zlen endp =? zlen s) || (code <? 100) || (code >? 999) then -1 else code
    end.

(** [Some body] for the return value 1; the status in both cases. *)
Definition https_resp_parse (d : bytes) : res (Z * option bytes) :=
  let status := https_resp_status d in
  if status <? 0 then Ret (status, None)
  else
    let '(hdr_start, body) := https_hdr_body d in
    let hdr_len := if body >? hdr_start then body - hdr_start else 0 in
    let! hdr := rdn d hdr_start hdr_len in
    let te := https_hdr_value hdr (lit "transfer-encoding") in
    let! tail := rdn d body (u64 (zlen d - body)) in
    match te with
    | Some v =>
        if https_te_is_chunked v then
          let! r := chunk_decode tail in Ret (status, r)
        else let! _ := https_log_san v HTTPS_LOG_SAN_MAX in Ret (status, None)
    | None =>
        let cl := https_content_length hdr in
        if cl <? 0 then Ret (status, Some tail)
        else if zlen tail <? cl then Ret (status, None)
        else let! b := rdn tail 0 cl in Ret (status, Some b)
    end.

End Msg.

(** ** Collecting a response *)

Module Read.
Import Msg.

(** What one turn of the loop meets: a deadline or error that ends it, a result of
    [SSL_read] to retry, the end of the stream, or data. *)
Inductive event :=
| Data (b : bytes)
| Eof
| Retry
| Broken.

Record state := mk_state {
  resp : bytes;
  crlf_hit : option Z;
  lf_hit : option Z;
  crlf_probe : Z;
  lf_probe : Z;
  body_start : Z;
  content_len : Z;
  chunked : bool
}.

Definition state0 : state := mk_state [] None None 0 0 0 (-1) false.

Inductive outcome :=
| Done (resp : bytes)
| Failed
| Waiting (s : state).

(** One resumed search: the hit, kept for good, or the next offset to look at. *)
Definition probe (needle : bytes) (keep : Z) (d : bytes) (at0 : Z) : option Z * Z :=
  match sbuf_find (drop (Z.to_nat at0) d) needle with
  | Some i => (Some (at0 + i), at0)
  | None => (None, if zlen d >=? keep + 1 then zlen d - keep else at0)
  end.

(** The two searches after [b] has been appended. *)
Definition scan (s : state) (b : bytes) : state :=
  let d := resp s ++ b in
  let '(ch, cp) := match crlf_hit s with
                   | Some i => (Some i, crlf_probe s)
                   | None => probe (CRLF ++ CRLF) 3 d (crlf_probe s)
                   end in
  let '(lh, lp) := match ch, lf_hit s with
                   | None, None => probe [10; 10] 1 d (lf_probe s)
                   | _, h => (h, lf_probe s)
                   end in
  mk_state d ch lh cp lp (body_start s) (content_len s) (chunked s).

(** Adopt the terminator; [None] when the loop returns 0 at once. *)
Definition adopt (s : state) : res (option state) :=
  match (match crlf_hit s with Some i => Some (i + 4) | None =>
         match lf_hit s with Some i => Some (i + 2) | None => None end end) with
  | None => Ret (Some s)
  | Some want =>
      if want =? body_start s then Ret (Some s)
      else
        let block := take (Z.to_nat want) (resp s) in
        let! ch := https_te_header_chunked block in
        let cl := if ch then content_len s else https_content_length block in
        if negb ch && (cl =? 0) then Ret None
        else Ret (Some (mk_state (resp s) (crlf_hit s) (lf_hit s) (crlf_probe s) (lf_probe s) want cl ch))
  end.

Definition short (s : state) : bool := (content_len s >? 0) && (zlen (resp s) - body_start s <? content_len s).
Definition full (s : state) : bool := (content_len s >? 0) && (zlen (resp s) - body_start s >=? content_len s).

Fixpoint https_tls_read (s : state) (evs : list event) : res outcome :=
  match evs with
  | [] => Ret (Waiting s)
  | e :: evs =>
      if zlen (resp s) >? HTTPS_MAX_RESP then Ret Failed
      else
        match e with
        | Broken => Ret Failed
        | Retry => https_tls_read s evs
        | Eof => Ret (if short s then Failed else Done (resp s))
        | Data b =>
            let s := scan s b in
            let! r := adopt s in
            match r with
            | None => Ret (Done (resp s))
            | Some s => if full s then Ret (Done (resp s)) else https_tls_read s evs
            end
        end
  end.

End Read.

(** ** Scanning lemmas *)

Definition none (f : Z -> bool) (s : bytes) : Prop := Forall (fun c => f c = false) s.

Lemma upto_from f s : upto f s ++ from f s = s.
Proof. induction s as [|c s IH]; cbn; [done|]. destruct (f c); [done|]. cbn. by rewrite IH. Qed.

Lemma upto_none f s : none f (upto f s).
Proof. induction s as [|c s IH]; cbn; [constructor|]. destruct (f c) eqn:E; [constructor|by constructor]. Qed.

Lemma from_head f s : from f s = [] \/ exists c r, from f s = c :: r /\ f c = true.
Proof. induction s as [|c s IH]; cbn; [by left|]. destruct (f c) eqn:E; [right; by eexists _, _|done]. Qed.

Lemma upto_all f a : none f a -> upto f a = a.
Proof. induction 1 as [|c a Hc _ IH]; cbn; [done|]. by rewrite Hc, IH. Qed.

Lemma from_all f a : none f a -> from f a = [].
Proof. induction 1 as [|c a Hc _ IH]; cbn; [done|]. by rewrite Hc. Qed.

Lemma upto_app f a c r : none f a -> f c = true -> upto f (a ++ c :: r) = a.
Proof. intros Ha Hc. induction Ha as [|x a Hx _ IH]; cbn; [by rewrite Hc|]. by rewrite Hx, IH. Qed.

Lemma from_app f a c r : none f a -> f c = true -> from f (a ++ c :: r) = c :: r.
Proof. intros Ha Hc. induction Ha as [|x a Hx _ IH]; cbn; [by rewrite Hc|]. by rewrite Hx. Qed.

Lemma skipw_head f c r : f c = false -> skipw f (c :: r) = c :: r.
Proof. cbn. by intros ->. Qed.

Lemma skipw_app f a s : Forall (fun c => f c = true) a -> skipw f (a ++ s) = skipw f s.
Proof. induction 1 as [|x a Hx _ IH]; cbn; [done|]. by rewrite Hx. Qed.

Lemma skipw_split f s : exists a, s = a ++ skipw f s /\ Forall (fun c => f c = true) a.
Proof.
  induction s as [|c s (a & E & Ha)]; cbn; [by exists []|].
  destruct (f c) eqn:Hc; [|by exists []]. exists (c :: a). split; [by rewrite E at 1|by constructor].
Qed.

Lemma skipw_le f s : zlen (skipw f s) <= zlen s.
Proof.
  destruct (skipw_split f s) as (a & E & _). rewrite E at 2. rewrite zlen_app. pose proof (zlen_nonneg a). lia.
Qed.

Lemma rtrim_id f s : (forall r c, s = r ++ [c] -> f c = false) -> rtrim f s = s.
Proof.
  intros Hl. unfold rtrim. destruct (rev s) as [|c r] eqn:E.
  - by rewrite <- (rev_involutive s), E.
  - assert (s = rev r ++ [c]) as Es by (by rewrite <- (rev_involutive s), E). rewrite skipw_head by (by eapply Hl).
    by rewrite Es, <- E, Es, rev_involutive.
Qed.

(** [needle] occurs at offset [j]. *)
Definition occ (needle hay : bytes) (j : nat) : Prop := take (length needle) (drop j hay) = needle.

Lemma find_sub_Some needle hay i :
  find_sub needle hay = Some i -> 0 <= i /\ occ needle hay (Z.to_nat i) /\ forall j, (j < Z.to_nat i)%nat -> ~ occ needle hay j.
Proof.
  revert i. induction hay as [|c hay IH]; intros i; cbn [find_sub].
  - destruct (beq _ _) eqn:B; [|done]. intros [= <-]. apply beq_true in B. split; [done|]. split; [done|lia].
  - destruct (beq _ _) eqn:B.
    + intros [= <-]. apply beq_true in B. split; [done|]. split; [done|lia].
    + apply beq_false in B. destruct (find_sub needle hay) as [k|]; [|done]. intros [= <-].
      destruct (IH k eq_refl) as (Hk & Ho & Hn). split; [lia|].
      replace (Z.to_nat (k + 1)) with (S (Z.to_nat k)) by lia. split; [done|].
      intros [|j] Hj; [done|]. apply (Hn j). lia.
Qed.

Lemma find_sub_None needle hay : needle <> [] -> find_sub needle hay = None -> forall j, ~ occ needle hay j.
Proof.
  intros Hne. induction hay as [|c hay IH]; cbn [find_sub].
  - intros _ j. unfold occ. rewrite drop_nil, take_nil. congruence.
  - destruct (beq _ _) eqn:B; [done|]. apply beq_false in B. destruct (find_sub needle hay); [done|].
    intros _ [|j]; [done|]. by apply IH.
Qed.

Lemma find_sub_first needle hay i :
  needle <> [] -> occ needle hay i -> (forall j, (j < i)%nat -> ~ occ needle hay j) -> find_sub needle hay = Some (Z.of_nat i).
Proof.
  intros Hne Ho Hn. destruct (find_sub needle hay) as [k|] eqn:E; [|by destruct (find_sub_None _ _ Hne E i)].
  apply find_sub_Some in E as (Hk & Hok & Hnk). f_equal.
  destruct (decide (Z.to_nat k < i)%nat); [by destruct (Hn (Z.to_nat k))|].
  destruct (decide (i < Z.to_nat k)%nat); [by destruct (Hnk i)|]. lia.
Qed.

Lemma occ_len needle hay j : occ needle hay j -> needle <> [] -> (j + length needle <= length hay)%nat.
Proof.
  intros Ho Hn. apply (f_equal length) in Ho. rewrite length_take, length_drop in Ho.
  destruct needle; [done|]. cbn [length] in *. lia.
Qed.

Lemma occ_app needle a b j : (j + length needle <= length a)%nat -> occ needle (a ++ b) j <-> occ needle a j.
Proof.
  intros Hj. unfold occ. rewrite drop_app_le by lia. rewrite take_app_le by (rewrite length_drop; lia). done.
Qed.

Lemma occ_drop needle hay p j : occ needle (drop p hay) j <-> occ needle hay (p + j).
Proof. unfold occ. by rewrite drop_drop. Qed.

Lemma sbuf_find_eq hay needle : needle <> [] -> Msg.sbuf_find hay needle = find_sub needle hay.
Proof.
  intros Hne. unfold Msg.sbuf_find. replace (zlen needle =? 0) with false
    by (destruct needle; [done|]; pose proof (zlen_nonneg needle); zlia).
  destruct (zlen hay <? zlen needle) eqn:E; [|done]. cbn [orb]. symmetry.
  destruct (find_sub needle hay) as [k|] eqn:F; [|done]. apply find_sub_Some in F as (Hk & Ho & _).
  apply occ_len in Ho; [|done]. unfold zlen in E. lia.
Qed.

(** ** Transfer-Encoding in a block without folded lines *)

(** No line starts with a blank. *)
Definition unfolded (d : bytes) : Prop :=
  forall j c c', d !! j = Some c -> d !! S j = Some c' -> is_eol c = true -> is_lws c' = false.

Fixpoint unfolded_b (d : bytes) : bool :=
  match d with
  | c :: ((c' :: _) as r) => negb (is_eol c && is_lws c') && unfolded_b r
  | _ => true
  end.

Lemma unfolded_b_ok d : unfolded_b d = true -> unfolded d.
Proof.
  induction d as [|x d IH]; intros Hb j c c' H1 H2 He; [by destruct j|]. destruct d as [|y d]; [by destruct j|].
  cbn [unfolded_b] in Hb. apply andb_true_iff in Hb as [Hx Hd].
  destruct j as [|j]; [|by eapply (IH Hd j)]. cbn in H1, H2. simplify_eq. rewrite He in Hx. by destruct (is_lws c').
Qed.

Lemma unfolded_take n d : unfolded d -> unfolded (take n d).
Proof.
  intros Hu j c c' H1 H2. apply lookup_take_Some in H1 as [H1 _]. apply lookup_take_Some in H2 as [H2 _]. by apply (Hu j).
Qed.

Lemma sbuf_app_take s p n :
  Grow.sbuf_wf s -> 0 <= n <= zlen p -> Grow.len s + n + 1 <= SIZE_MAX ->
  exists s', Grow.sbuf_app s p n = Ret s' /\ Grow.data s' = Grow.data s ++ take (Z.to_nat n) p /\ Grow.sbuf_wf s'.
Proof.
  intros Hs Hn Hl. assert (zlen (take (Z.to_nat n) p) = n) as E by (rewrite zlen_take; lia).
  destruct (Grow.sbuf_app_spec s (take (Z.to_nat n) p) Hs) as (s' & H & Hd & Hw); [lia|]. exists s'. split; [|done].
  rewrite E in H. rewrite <- H. unfold Grow.sbuf_app. destruct (Grow.grow_cap _ _ _ _ _) as [[rv [nc|]]|]; try done.
  cbn [rbind]. rewrite !rdn_ok by lia. unfold slice. change (Z.to_nat 0) with 0%nat. by rewrite !drop_0, take_take, Nat.min_id.
Qed.

(** The loop that joins folded lines stops at once. *)
Lemma fold_loop_unfolded fuel d j v :
  unfolded d -> 0 <= j <= zlen d -> (j < zlen d -> is_eol d.[j] = true) -> Msg.fold_loop (S fuel) d j v = Ret v.
Proof.
  intros Hu Hj He. cbn [Msg.fold_loop]. destruct (j >=? zlen d) eqn:E; [done|]. rewrite rd_ok by lia. cbn [rbind].
  specialize (He ltac:(lia)).
  assert (Hn : forall k, 0 <= k < zlen d -> is_eol d.[k] = true -> k + 1 < zlen d -> is_lws d.[k + 1] = false).
  { intros k Hk Hek Hk1. apply (Hu (Z.to_nat k) d.[k]); [by apply at_lookup| |done].
    replace (S (Z.to_nat k)) with (Z.to_nat (k + 1)) by lia. apply at_lookup. lia. }
  set (j1 := if d.[j] =? 13 then j + 1 else j).
  assert (exists j2, (if j1 <? zlen d then let! c := rd d j1 in Ret (if c =? 10 then j1 + 1 else j1) else Ret j1) = Ret j2 /\
    (zlen d <= j2 \/ (0 <= j2 < zlen d /\ is_lws d.[j2] = false))) as (j2 & -> & H2).
  { destruct (j1 <? zlen d) eqn:E1; [|exists j1; split; [done|lia]]. subst j1.
    rewrite rd_ok by (destruct (d.[j] =? 13); lia). cbn [rbind]. eexists; split; [done|].
    destruct (d.[j] =? 13) eqn:E13.
    - destruct (d.[j + 1] =? 10) eqn:E10.
      + destruct (decide (j + 1 + 1 < zlen d)); [|lia]. right. split; [lia|]. apply Hn; [lia| |lia].
        unfold is_eol. rewrite E10. apply orb_true_r.
      + right. split; [lia|]. apply Hn; [lia|done|lia].
    - unfold is_eol in He. rewrite E13 in He. cbn [orb] in He. rewrite He.
      destruct (decide (j + 1 < zlen d)); [|lia]. right. split; [lia|]. apply Hn; [lia| |lia].
      unfold is_eol. rewrite He. apply orb_true_r. }
  cbn [rbind].
  destruct H2 as [H2|[H2 Hb]].
  - by replace (j2 >=? zlen d) with true by lia.
  - replace (j2 >=? zlen d) with false by lia. rewrite rd_ok by lia. cbn [rbind]. by rewrite Hb.
Qed.

Lemma drop_upto f s : drop (length (upto f s)) s = from f s.
Proof. rewrite <- (upto_from f s) at 2. by rewrite drop_app_length. Qed.

Lemma at_drop0 d i : 0 <= i -> d.[i] = (drop (Z.to_nat i) d).[0].
Proof.
  intros _. unfold at_. change (Z.to_nat 0) with 0%nat. generalize (Z.to_nat i). intros n.
  revert d. induction n as [|n IH]; intros [|c d]; cbn; done || apply IH.
Qed.

Lemma drop_tail (d a t : bytes) : d = a ++ t -> drop (Z.to_nat (zlen d - zlen t)) d = t.
Proof.
  intros ->. rewrite zlen_app. replace (Z.to_nat (zlen a + zlen t - zlen t)) with (length a) by (unfold zlen; lia).
  apply drop_app_length.
Qed.

Lemma skip_lws_spec d p stop :
  0 <= p <= stop -> stop <= zlen d ->
  let q := Msg.skip_lws d p stop in p <= q <= stop /\ slice d q (stop - q) = skipw is_lws (slice d p (stop - p)).
Proof.
  intros Hp Hs. unfold Msg.skip_lws. destruct (p <? stop) eqn:E.
  - destruct (skipw_split is_lws (slice d p (stop - p))) as (a & Ea & _). set (t := skipw is_lws (slice d p (stop - p))) in *.
    assert (zlen a + zlen t = stop - p) as L by (rewrite <- (zlen_slice d p (stop - p)) by lia; rewrite Ea; by rewrite zlen_app).
    pose proof (zlen_nonneg a). pose proof (zlen_nonneg t). split; [lia|].
    replace (stop - (stop - zlen t)) with (zlen t) by lia. unfold slice in *.
    replace (Z.to_nat (stop - zlen t)) with (Z.to_nat p + length a)%nat by (unfold zlen in *; lia).
    rewrite <- drop_drop. rewrite <- (take_drop (Z.to_nat (stop - p)) (drop (Z.to_nat p) d)), Ea, <- app_assoc, drop_app_length.
    unfold zlen. by rewrite Nat2Z.id, take_app_length.
  - replace stop with p by lia. split; [lia|]. rewrite Z.sub_diag. done.
Qed.

(** What the scan decides about one line. *)
Definition te_line (l : bytes) : bool :=
  (zlen l >=? 18) && strncaseeq l Msg.TE 18 &&
  existsb Msg.te_elem (Msg.commas [] (cstr (rtrim is_lws (skipw is_lws (drop 18 l))))).

Lemma eol_lines_eq cur s :
  Msg.eol_lines cur s = (cur ++ upto is_eol s) :: match from is_eol s with [] => [] | _ :: r => Msg.eol_lines [] r end.
Proof.
  revert cur. induction s as [|c s IH]; intros cur; cbn; [by rewrite app_nil_r|].
  destruct (is_eol c); [by rewrite app_nil_r|]. by rewrite IH, <- app_assoc.
Qed.

Lemma eol_lines_skip f s : f [] = false -> existsb f (Msg.eol_lines [] (skipw is_eol s)) = existsb f (Msg.eol_lines [] s).
Proof.
  intros Hf. induction s as [|c s IH]; [done|]. cbn [skipw]. destruct (is_eol c) eqn:E; [|done].
  rewrite IH. cbn [Msg.eol_lines]. rewrite E. cbn [existsb]. by rewrite Hf.
Qed.

Lemma eol_lines_step f s :
  f [] = false ->
  existsb f (Msg.eol_lines [] s) = f (upto is_eol s) || existsb f (Msg.eol_lines [] (skipw is_eol (from is_eol s))).
Proof.
  intros Hf. rewrite eol_lines_eq, eol_lines_skip by done. cbn [app existsb]. f_equal.
  destruct (from_head is_eol s) as [-> |(c & r & -> & Hc)].
  - cbn [Msg.eol_lines existsb]. by rewrite Hf.
  - cbn [Msg.eol_lines]. rewrite Hc. cbn [existsb]. by rewrite Hf.
Qed.

Lemma strncaseeq_app l r b n : n <= zlen l -> strncaseeq (l ++ r) b n = strncaseeq l b n.
Proof.
  intros Hn. unfold strncaseeq. rewrite map_app, <- app_assoc.
  rewrite (take_app_le (map tolower l) (map tolower r ++ [0])) by (rewrite length_map; unfold zlen in Hn; lia).
  rewrite (take_app_le (map tolower l) [0]) by (rewrite length_map; unfold zlen in Hn; lia). done.
Qed.

Section TeBlock.
Variable d : bytes.
Hypothesis Hun : unfolded d.
Hypothesis Hsz : zlen d < 2 ^ 32.

(** The value of the field on the line that starts at [i]. *)
Lemma te_value (i : Z) (s := drop (Z.to_nat i) d) (eol := Msg.scan_eol d i) :
  0 <= i < zlen d -> zlen (upto is_eol s) >= 18 ->
  exists v, Grow.sbuf_app (Grow.mk_buf [] 0) (drop (Z.to_nat (Msg.skip_lws d (i + 18) eol)) d)
              (u64 (eol - Msg.skip_lws d (i + 18) eol)) = Ret v /\
    Grow.data v = skipw is_lws (drop 18 (upto is_eol s)).
Proof.
  intros Hi Hl. assert (d = take (Z.to_nat i) d ++ upto is_eol s ++ from is_eol s) as Ed
    by (rewrite upto_from; unfold s; by rewrite take_drop).
  assert (eol <= zlen d) as He.
  { apply (f_equal zlen) in Ed. rewrite !zlen_app, zlen_take in Ed. unfold eol, Msg.scan_eol. fold s.
    pose proof (zlen_nonneg (from is_eol s)). lia. }
  assert (eol = i + zlen (upto is_eol s)) as Eeol by done.
  destruct (skip_lws_spec d (i + 18) eol ltac:(lia) He) as [Hq Hs]. set (q := Msg.skip_lws d (i + 18) eol) in *.
  rewrite u64_small by lia.
  destruct (sbuf_app_take (Grow.mk_buf [] 0) (drop (Z.to_nat q) d) (eol - q)) as (v & E & Hd & _).
  - left. done.
  - rewrite zlen_drop. lia.
  - change (Grow.len (Grow.mk_buf [] 0)) with 0. unfold SIZE_MAX. lia.
  - exists v. split; [done|]. rewrite Hd. cbn [Grow.data app]. unfold slice in Hs. rewrite Hs. f_equal.
    replace (Z.to_nat (i + 18)) with (Z.to_nat i + 18)%nat by lia. rewrite <- drop_drop. fold s.
    rewrite <- (upto_from is_eol s) at 1. rewrite drop_app_le by (unfold zlen in Hl; lia).
    rewrite take_app_le by (rewrite length_drop; unfold zlen in *; lia).
    apply take_ge. rewrite length_drop. unfold zlen in *. lia.
Qed.

Lemma te_header_loop_spec fuel i :
  0 <= i <= zlen d -> zlen d - i < Z.of_nat fuel ->
  Msg.te_header_loop fuel d i = Ret (existsb te_line (Msg.eol_lines [] (drop (Z.to_nat i) d))).
Proof.
  revert i. induction fuel as [|fuel IH]; intros i Hi Hf; [lia|]. cbn [Msg.te_header_loop].
  destruct (i >=? zlen d) eqn:E.
  { rewrite drop_ge by (unfold zlen in *; lia). done. }
  set (s := drop (Z.to_nat i) d). rewrite (eol_lines_step te_line s) by done.
  assert (d = take (Z.to_nat i) d ++ upto is_eol s ++ from is_eol s) as Ed
    by (rewrite upto_from; unfold s; by rewrite take_drop).
  assert (zlen s = zlen d - i) as Ls by (unfold s; rewrite zlen_drop; lia).
  assert (Msg.scan_eol d i = i + zlen (upto is_eol s)) as Ee by done. change (zlen Msg.TE) with 18.
  assert (0 <= Msg.scan_eol d i <= zlen d) as Hb.
  { pose proof (f_equal zlen Ed) as L. rewrite !zlen_app, zlen_take in L. pose proof (zlen_nonneg (from is_eol s)).
    pose proof (zlen_nonneg (upto is_eol s)). lia. }
  assert (drop (Z.to_nat (Msg.scan_eol d i)) d = from is_eol s) as Er.
  { rewrite Ee. replace (Z.to_nat (i + zlen (upto is_eol s))) with (Z.to_nat i + length (upto is_eol s))%nat by (unfold zlen; lia).
    rewrite <- drop_drop. apply drop_upto. }
  assert (forall yes : bool, (if yes then Ret true
    else Msg.te_header_loop fuel d (zlen d - zlen (skipw is_eol (drop (Z.to_nat (Msg.scan_eol d i)) d)))) =
    Ret (yes || existsb te_line (Msg.eol_lines [] (skipw is_eol (from is_eol s))))) as Hnext.
  { intros [|]; [done|]. cbn [orb]. rewrite Er. destruct (skipw_split is_eol (from is_eol s)) as (a & Ea & Ha).
    set (t := skipw is_eol (from is_eol s)) in *.
    assert (zlen d = i + zlen (upto is_eol s) + zlen a + zlen t) as Ld.
    { apply (f_equal zlen) in Ed. rewrite Ea, !zlen_app, zlen_take in Ed. lia. }
    pose proof (zlen_nonneg t). pose proof (zlen_nonneg a). pose proof (zlen_nonneg (upto is_eol s)).
    assert (0 < zlen (upto is_eol s) + zlen a).
    { destruct (from_head is_eol s) as [F|(c & r & F & Hc)].
      - rewrite F in Ea. symmetry in Ea. apply app_eq_nil in Ea as [-> Et]. rewrite Et in Ld. cbn in Ld. lia.
      - destruct a as [|x a]; [|pose proof (zlen_nonneg a); zlia]. exfalso. cbn in Ea. unfold t in Ea. rewrite F in Ea.
        cbn [skipw] in Ea. rewrite Hc in Ea. apply (f_equal zlen) in Ea. pose proof (skipw_le is_eol r). zl. lia. }
    rewrite IH by lia. do 3 f_equal. apply (drop_tail d (take (Z.to_nat i) d ++ upto is_eol s ++ a)).
    rewrite <- !app_assoc. rewrite <- Ea. done. }
  destruct ((Msg.scan_eol d i - i >=? 18) && strncaseeq s Msg.TE 18) eqn:Et; rewrite <- Hnext.
  - apply andb_true_iff in Et as [El Ec]. assert (zlen (upto is_eol s) >= 18) as H18 by lia.
    destruct (te_value i ltac:(lia) H18) as (v & Eq & Hv). rewrite Eq. cbn [rbind].
    rewrite fold_loop_unfolded; [|done|lia|].
    + cbn [rbind]. rewrite Hv. unfold te_line. fold s.
      replace (zlen (upto is_eol s) >=? 18) with true by lia.
      rewrite <- (strncaseeq_app (upto is_eol s) (from is_eol s)), upto_from by lia. by rewrite Ec.
    + intros Hlt. destruct (from_head is_eol s) as [F|(c & r & F & Hc)].
      * pose proof (upto_from is_eol s) as U. rewrite F, app_nil_r in U. apply (f_equal zlen) in U. lia.
      * rewrite at_drop0, Er, F by lia. done.
  - replace (te_line (upto is_eol s)) with false; [done|]. symmetry. unfold te_line.
    destruct (zlen (upto is_eol s) >=? 18) eqn:El; [|done]. cbn [andb].
    rewrite <- (strncaseeq_app (upto is_eol s) (from is_eol s)), upto_from by lia.
    replace (Msg.scan_eol d i - i >=? 18) with true in Et by lia. cbn [andb] in Et. by rewrite Et.
Qed.

Lemma te_header_unfolded : Msg.https_te_header_chunked d = Ret (existsb te_line (Msg.eol_lines [] d)).
Proof.
  unfold Msg.https_te_header_chunked. rewrite te_header_loop_spec; [done|pose proof (zlen_nonneg d); lia|].
  unfold zlen. lia.
Qed.

End TeBlock.

(** ** Folded Transfer-Encoding fields *)

Lemma scan_eol_at d a c r : d = a ++ c :: r -> is_eol c = true -> Msg.scan_eol d (zlen a) = zlen a.
Proof.
  intros -> Hc. unfold Msg.scan_eol, zlen. rewrite Nat2Z.id, drop_app_length. cbn [upto]. rewrite Hc. cbn. lia.
Qed.

Lemma scan_eol_line d a l c r : d = a ++ l ++ c :: r -> none is_eol l -> is_eol c = true -> Msg.scan_eol d (zlen a) = zlen a + zlen l.
Proof.
  intros -> Hl Hc. unfold Msg.scan_eol. f_equal. unfold zlen at 2. rewrite Nat2Z.id, drop_app_length. by rewrite upto_app.
Qed.

Lemma rd_app a c r : rd (a ++ c :: r) (zlen a) = Ret c.
Proof.
  pose proof (zlen_nonneg a). pose proof (zlen_nonneg r). rewrite rd_ok by zlia. rewrite at_app_r, Z.sub_diag by lia. done.
Qed.

Lemma sbuf_grown s p n s' : Grow.sbuf_wf s -> Grow.len s + zlen p + 1 <= SIZE_MAX -> n = zlen p -> 0 < n ->
  Grow.sbuf_app s p n = Ret s' -> Grow.sbuf_wf s' /\ 0 < Grow.len s' /\ 0 < Grow.cap s'.
Proof.
  intros Hw Hl -> Hn E. destruct (Grow.sbuf_app_spec s p Hw Hl) as (t & E' & Hd & Hw'). rewrite E in E'.
  apply ret_inj in E' as <-. split; [done|]. unfold Grow.sbuf_wf, Grow.len in *. rewrite Hd in *. rewrite zlen_app in *.
  pose proof (zlen_nonneg (Grow.data s)). lia.
Qed.

(** The length of a folded line is computed from the wrong end and wraps. *)
Lemma fold_loop_faults fuel d a eol b rest v :
  d = a ++ eol ++ b :: rest -> eol = [13; 10] \/ eol = [10] \/ eol = [13] -> is_lws b = true ->
  zlen d < 2 ^ 32 -> Grow.sbuf_wf v -> Grow.len v < 2 ^ 32 ->
  Msg.fold_loop (S fuel) d (zlen a) v = Fault (if bool_decide (eol = [13; 10]) then Aborted else OutOfBounds).
Proof.
  intros Ed He Hb Hsz Hw Hv. pose proof (zlen_nonneg a) as Na. pose proof (zlen_nonneg rest) as Nr.
  assert (zlen d = zlen a + zlen eol + 1 + zlen rest) as Ld by (rewrite Ed; zl; lia).
  assert (b <> 10) by (intros ->; done). assert (b <> 13) by (intros ->; done).
  cbn [Msg.fold_loop]. replace (zlen a >=? zlen d) with false by (pose proof (zlen_nonneg eol); lia).
  assert (exists c, rd d (zlen a) = Ret c /\ is_eol c = true /\ (c =? 13) = negb (bool_decide (eol = [10]))) as (c & -> & Hc & E13).
  { destruct He as [-> |[-> | ->]]; rewrite Ed; cbn [app]; rewrite rd_app; by eexists. }
  cbn [rbind].
  assert (scan : Msg.scan_eol d (zlen a) = zlen a).
  { destruct He as [-> |[-> | ->]]; by eapply scan_eol_at. }
  set (j := if c =? 13 then zlen a + 1 else zlen a).
  assert ((if j <? zlen d then let! c := rd d j in Ret (if c =? 10 then j + 1 else j) else Ret j) = Ret (zlen a + zlen eol)) as ->.
  { unfold j. rewrite E13. destruct He as [-> |[-> | ->]].
    - change (zlen [13; 10]) with 2 in *. rewrite bool_decide_eq_false_2 by done. cbn [negb]. replace (zlen a + 1 <? zlen d) with true by lia.
      replace (zlen a + 1) with (zlen (a ++ [13])) by (by rewrite zlen_app). rewrite Ed. cbn [app].
      replace (a ++ 13 :: 10 :: b :: rest) with ((a ++ [13]) ++ 10 :: b :: rest) by (by rewrite <- app_assoc).
      rewrite rd_app. cbn [rbind Z.eqb Pos.eqb]. f_equal. rewrite zlen_app. change (zlen [13]) with 1. lia.
    - change (zlen [10]) with 1 in *. rewrite bool_decide_eq_true_2 by done. cbn [negb]. replace (zlen a <? zlen d) with true by lia. rewrite Ed. cbn [app].
      by rewrite rd_app.
    - change (zlen [13]) with 1 in *. rewrite bool_decide_eq_false_2 by done. cbn [negb]. replace (zlen a + 1 <? zlen d) with true by lia.
      replace (zlen a + 1) with (zlen (a ++ [13])) by (by rewrite zlen_app). rewrite Ed. cbn [app].
      replace (a ++ 13 :: b :: rest) with ((a ++ [13]) ++ b :: rest) by (by rewrite <- app_assoc).
      rewrite rd_app. cbn [rbind]. by replace (b =? 10) with false by lia. }
  cbn [rbind]. assert (rd d (zlen a + zlen eol) = Ret b) as Hrb.
  { rewrite <- zlen_app, Ed, app_assoc. apply rd_app. }
  replace (zlen a + zlen eol >=? zlen d) with false by lia. rewrite Hrb. cbn [rbind]. rewrite Hb. cbn [negb].
  rewrite scan. assert (1 <= zlen eol <= 2) by (destruct He as [-> |[-> | ->]]; split; by vm_compute).
  unfold Msg.skip_lws. replace (zlen a + zlen eol <? zlen a) with false by lia.
  destruct (Grow.sbuf_app_spec v [32] Hw) as (v1 & E1 & _); [unfold SIZE_MAX; change (zlen [32]) with 1; lia|].
  change (zlen [32]) with 1 in E1. rewrite E1. cbn [rbind].
  destruct (sbuf_grown v [32] 1 v1 Hw ltac:(unfold SIZE_MAX; change (zlen [32]) with 1; lia) eq_refl ltac:(lia) E1) as (Hw1 & Hl1 & Hc1).
  replace (zlen a - (zlen a + zlen eol)) with (- zlen eol) by lia.
  destruct He as [-> |[-> | ->]].
  - change (u64 (- zlen [13; 10])) with (SIZE_MAX - 1). unfold Grow.sbuf_app, Grow.grow_cap.
    change (u64 (SIZE_MAX - 1 + 1)) with SIZE_MAX.
    replace (SIZE_MAX >? SIZE_MAX - Grow.len v1) with true by (unfold SIZE_MAX; lia). done.
  - change (u64 (- zlen [10])) with SIZE_MAX.
    rewrite Grow.sbuf_app_wrap; [done|done|lia|rewrite zlen_drop; unfold SIZE_MAX; lia].
  - change (u64 (- zlen [13])) with SIZE_MAX.
    rewrite Grow.sbuf_app_wrap; [done|done|lia|rewrite zlen_drop; unfold SIZE_MAX; lia].
Qed.

Definition is_te (l : bytes) : bool := (zlen l >=? 18) && strncaseeq l Msg.TE 18.
Definition crlf_lines (ls : list bytes) : bytes := concat (map (fun l => l ++ Msg.CRLF) ls).
Definition starts_line (t : bytes) : Prop := exists c r, t = c :: r /\ is_eol c = false.

Lemma te_head d a l c r :
  d = a ++ l ++ c :: r -> none is_eol l -> is_eol c = true ->
  (Msg.scan_eol d (zlen a) - zlen a >=? 18) && strncaseeq (drop (Z.to_nat (zlen a)) d) Msg.TE 18 = is_te l.
Proof.
  intros Ed Hl Hc. rewrite (scan_eol_line d a l c r Ed Hl Hc). replace (zlen a + zlen l - zlen a) with (zlen l) by lia.
  unfold is_te. destruct (zlen l >=? 18) eqn:E; [|done]. cbn [andb].
  rewrite Ed. unfold zlen at 1. rewrite Nat2Z.id, drop_app_length. apply strncaseeq_app. lia.
Qed.

Lemma te_skip_line fuel d a l t :
  d = a ++ (l ++ Msg.CRLF) ++ t -> starts_line t -> none is_eol l -> is_te l = false ->
  Msg.te_header_loop (S fuel) d (zlen a) = Msg.te_header_loop fuel d (zlen (a ++ l ++ Msg.CRLF)).
Proof.
  intros Ed (c & r & -> & Hc) Hl Ht. cbn [Msg.te_header_loop].
  assert (d = a ++ l ++ 13 :: 10 :: c :: r) as Ed' by (by rewrite Ed, <- !app_assoc).
  assert (zlen d = zlen a + zlen l + 3 + zlen r) as Ld by (rewrite Ed'; zl; lia).
  pose proof (zlen_nonneg l). pose proof (zlen_nonneg r). replace (zlen a >=? zlen d) with false by lia.
  change (zlen Msg.TE) with 18. rewrite (te_head d a l 13 (10 :: c :: r) Ed' Hl eq_refl), Ht. cbn [rbind].
  rewrite (scan_eol_line d a l 13 (10 :: c :: r) Ed' Hl eq_refl). f_equal.
  replace (Z.to_nat (zlen a + zlen l)) with (length (a ++ l)) by (rewrite length_app; unfold zlen; lia).
  rewrite Ed', app_assoc, drop_app_length. cbn [skipw]. change (is_eol 13) with true. change (is_eol 10) with true. cbn iota.
  rewrite Hc, <- app_assoc. change (13 :: 10 :: c :: r) with (Msg.CRLF ++ c :: r). zl. lia.
Qed.

Lemma crlf_lines_start ls t : Forall (fun l => none is_eol l /\ l <> []) ls -> starts_line t -> starts_line (crlf_lines ls ++ t).
Proof.
  intros Hls Ht. destruct Hls as [|l ls [Hn Hne] _]; [done|]. destruct l as [|c l]; [done|].
  exists c. eexists. split; [done|]. by inversion Hn.
Qed.

Lemma te_skip_lines ls : forall fuel d a t,
  d = a ++ crlf_lines ls ++ t -> starts_line t ->
  Forall (fun l => none is_eol l /\ l <> []) ls -> Forall (fun l => is_te l = false) ls ->
  Msg.te_header_loop (length ls + fuel) d (zlen a) = Msg.te_header_loop fuel d (zlen (a ++ crlf_lines ls)).
Proof.
  induction ls as [|l ls IH]; intros fuel d a t Ed Ht Hl Hte; [by rewrite app_nil_r|].
  inversion Hl as [|? ? [Hn Hne] Hl']; inversion Hte as [|? ? Ht1 Hte']; subst l0 l1 x x0 || subst.
  cbn [length Nat.add]. rewrite (te_skip_line _ d a l (crlf_lines ls ++ t)); [| |by apply crlf_lines_start|done|done].
  - rewrite (IH fuel d (a ++ l ++ Msg.CRLF) t); [|by rewrite Ed; cbn; rewrite <- !app_assoc|done..].
    do 2 f_equal. cbn. by rewrite <- !app_assoc.
  - rewrite Ed. cbn. by rewrite <- !app_assoc.
Qed.

(** C39: A folded Transfer-Encoding field crashes the client.  In a response header of any
    ordinary lines followed by a Transfer-Encoding field whose value is continued on a
    line that starts with a blank (obs-fold, which the function means to join), the end of
    the continuation is taken before its start is advanced; the length wraps around, and
    the call ends in the allocator's abort (after CRLF) or in a copy far outside the
    buffer (after a lone LF or CR).  [https_tls_read] runs it on what the server sent. *)
Theorem te_fold_faults (ls : list bytes) (v eol rest : bytes) (b : Z) :
  Forall (fun l => none is_eol l /\ l <> []) ls -> Forall (fun l => is_te l = false) ls ->
  none is_eol v -> eol = [13; 10] \/ eol = [10] \/ eol = [13] -> is_lws b = true ->
  zlen (crlf_lines ls ++ Msg.TE ++ v ++ eol ++ b :: rest) < 2 ^ 32 ->
  Msg.https_te_header_chunked (crlf_lines ls ++ Msg.TE ++ v ++ eol ++ b :: rest) =
    Fault (if bool_decide (eol = [13; 10]) then Aborted else OutOfBounds).
Proof.
  intros Hls Hte Hv He Hb Hsz. set (d := crlf_lines ls ++ Msg.TE ++ v ++ eol ++ b :: rest) in *.
  pose proof (zlen_nonneg (crlf_lines ls)) as N0. pose proof (zlen_nonneg v) as N1. pose proof (zlen_nonneg rest) as N2.
  assert (1 <= zlen eol <= 2) as N3 by (destruct He as [-> |[-> | ->]]; split; by vm_compute).
  assert (zlen d = zlen (crlf_lines ls) + 18 + zlen v + zlen eol + 1 + zlen rest) as Ld
    by (unfold d; rewrite !zlen_app, zlen_cons; change (zlen Msg.TE) with 18; lia).
  assert (length ls <= length d)%nat as Hfuel.
  { assert (Z.of_nat (length ls) <= zlen (crlf_lines ls)) as L; [|unfold zlen in *; lia].
    clear. induction ls as [|l ls IH]; [done|]. unfold crlf_lines in *. cbn [map concat length]. zl.
    pose proof (zlen_nonneg l). change (zlen Msg.CRLF) with 2. lia. }
  assert (exists c r, eol ++ b :: rest = c :: r /\ is_eol c = true) as (c & r & Ec & Hc)
    by (destruct He as [-> |[-> | ->]]; by eexists _, _).
  assert (none is_eol (Msg.TE ++ v)) as Hn by (apply Forall_app_2; [by apply (bool_decide_unpack _); vm_compute|done]).
  assert (d = crlf_lines ls ++ (Msg.TE ++ v) ++ c :: r) as Ed by (unfold d; by rewrite Ec, <- app_assoc).
  unfold Msg.https_te_header_chunked.
  replace (S (length d)) with (length ls + S (length d - length ls))%nat by lia. change 0 with (zlen (@nil Z)).
  rewrite (te_skip_lines ls _ d [] (Msg.TE ++ v ++ eol ++ b :: rest)); [|done|by eexists _, _|done|done].
  cbn [app Msg.te_header_loop]. replace (zlen (crlf_lines ls) >=? zlen d) with false by lia.
  change (zlen Msg.TE) with 18. rewrite (te_head d _ _ c r Ed Hn Hc).
  assert (is_te (Msg.TE ++ v) = true) as ->.
  { unfold is_te. rewrite zlen_app. change (zlen Msg.TE) with 18. replace (18 + zlen v >=? 18) with true by lia.
    rewrite strncaseeq_app by (by vm_compute). by vm_compute. }
  rewrite (scan_eol_line d _ _ c r Ed Hn Hc), zlen_app. change (zlen Msg.TE) with 18.
  set (eo := zlen (crlf_lines ls) + (18 + zlen v)).
  destruct (skip_lws_spec d (zlen (crlf_lines ls) + 18) eo ltac:(lia) ltac:(lia)) as [Hq _].
  set (q := Msg.skip_lws d (zlen (crlf_lines ls) + 18) eo) in *. rewrite u64_small by lia.
  destruct (sbuf_app_take (Grow.mk_buf [] 0) (drop (Z.to_nat q) d) (eo - q)) as (buf & -> & Hd & Hw);
    [by left|rewrite zlen_drop; lia|change (Grow.len (Grow.mk_buf [] 0)) with 0; unfold SIZE_MAX; lia|].
  cbn [rbind]. replace eo with (zlen (crlf_lines ls ++ Msg.TE ++ v)) by (rewrite !zlen_app; reflexivity).
  rewrite (fold_loop_faults _ d (crlf_lines ls ++ Msg.TE ++ v) eol b rest buf); [done|by unfold d; rewrite <- !app_assoc|done..|].
  unfold Grow.len. rewrite Hd. cbn [Grow.data app]. rewrite zlen_take. lia.
Qed.

Lemma te_fold_faults_witness :
  Msg.https_te_header_chunked (crlf_lines [lit "HTTP/1.1 200 OK"] ++ Msg.TE ++ lit " gzip," ++ [13; 10] ++ 32 :: lit "chunked")
    = Fault Aborted.
Proof.
  apply (te_fold_faults [lit "HTTP/1.1 200 OK"] (lit " gzip,") [13; 10] (lit "chunked") 32).
  - constructor; [|constructor]. split; [apply (bool_decide_unpack _); vm_compute; exact I|discriminate].
  - constructor; [|constructor]. vm_compute. reflexivity.
  - apply (bool_decide_unpack _). vm_compute. exact I.
  - left. reflexivity.
  - reflexivity.
  - vm_compute. reflexivity.
Defined.

(** ** The reading loop and the frame of the buffer *)

Section Frame.
Import Msg Read.

(** Where the body starts, by the rule on the whole buffer. *)
Definition frame_end (d : bytes) : option Z :=
  match find_sub (CRLF ++ CRLF) d with
  | Some i => Some (i + 4)
  | None => match find_sub [10; 10] d with Some i => Some (i + 2) | None => None end
  end.

(** A resume offset is sound: a later match starts there or behind it. *)
Definition resumable (keep : Z) (d : bytes) (p : Z) : Prop := p = 0 \/ (0 <= p /\ p + keep <= zlen d).

Lemma probe_spec needle keep d b p :
  zlen needle = keep + 1 -> 0 <= keep -> find_sub needle d = None -> resumable keep d p ->
  exists q, probe needle keep (d ++ b) p = (find_sub needle (d ++ b), q) /\
    (find_sub needle (d ++ b) = None -> resumable keep (d ++ b) q).
Proof.
  intros Hk Hk0 Hn Hp. assert (needle <> []) as Hne by (intros ->; rewrite zlen_nil in Hk; lia).
  assert (0 <= p) as Hp0 by (destruct Hp; lia).
  assert (Hbefore : forall j, (j < Z.to_nat p)%nat -> ~ occ needle (d ++ b) j).
  { intros j Hj Ho. apply occ_app in Ho; [by eapply find_sub_None|]. destruct Hp as [->|[_ Hp]]; [lia|].
    unfold zlen in *. lia. }
  unfold probe. rewrite sbuf_find_eq by done.
  destruct (find_sub needle (drop (Z.to_nat p) (d ++ b))) as [i|] eqn:E.
  - apply find_sub_Some in E as (Hi & Ho & Hfirst). apply occ_drop in Ho.
    rewrite (find_sub_first needle (d ++ b) (Z.to_nat p + Z.to_nat i)); [|done|done|].
    + eexists; split; [|done]. do 2 f_equal. lia.
    + intros j Hj Hoj. destruct (decide (j < Z.to_nat p)%nat); [by apply (Hbefore j)|].
      apply (Hfirst (j - Z.to_nat p)%nat); [lia|]. apply occ_drop. by replace (Z.to_nat p + (j - Z.to_nat p))%nat with j by lia.
  - assert (find_sub needle (d ++ b) = None) as ->.
    { destruct (find_sub needle (d ++ b)) as [k|] eqn:F; [|done]. apply find_sub_Some in F as (Hk' & Ho & _).
      destruct (decide (Z.to_nat k < Z.to_nat p)%nat); [by destruct (Hbefore (Z.to_nat k))|].
      destruct (find_sub_None _ _ Hne E (Z.to_nat k - Z.to_nat p)). apply occ_drop.
      by replace (Z.to_nat p + (Z.to_nat k - Z.to_nat p))%nat with (Z.to_nat k) by lia. }
    eexists; split; [done|]. intros _. destruct (zlen (d ++ b) >=? keep + 1) eqn:El; [right; lia|].
    destruct Hp as [->|[_ Hp]]; [by left|]. right. split; [lia|]. rewrite zlen_app. pose proof (zlen_nonneg b). lia.
Qed.

(** A match stays the first match while the buffer grows. *)
Lemma find_sub_app needle d b i : needle <> [] -> find_sub needle d = Some i -> find_sub needle (d ++ b) = Some i.
Proof.
  intros Hne E. apply find_sub_Some in E as (Hi & Ho & Hf). pose proof (occ_len _ _ _ Ho Hne) as L.
  rewrite (find_sub_first needle (d ++ b) (Z.to_nat i)); [f_equal; lia|done|by apply occ_app|].
  intros j Hj Hoj. apply (Hf j Hj). apply occ_app in Hoj; [done|]. lia.
Qed.

Record scanned (s : state) : Prop := {
  sc_crlf : crlf_hit s = find_sub (CRLF ++ CRLF) (resp s);
  sc_crlf_probe : crlf_hit s = None -> resumable 3 (resp s) (crlf_probe s);
  sc_lf : crlf_hit s = None -> lf_hit s = find_sub [10; 10] (resp s);
  sc_lf_probe : crlf_hit s = None -> lf_hit s = None -> resumable 1 (resp s) (lf_probe s)
}.

Lemma scan_scanned s b : scanned s -> scanned (scan s b) /\ resp (scan s b) = resp s ++ b /\
  body_start (scan s b) = body_start s /\ content_len (scan s b) = content_len s /\ chunked (scan s b) = chunked s.
Proof.
  intros [Hc Hcp Hl Hlp]. unfold scan. destruct (crlf_hit s) as [i|] eqn:Ec.
  - cbn. split; [|done]. split; cbn; [|done|done|done]. symmetry. apply find_sub_app; done.
  - destruct (probe_spec (CRLF ++ CRLF) 3 (resp s) b (crlf_probe s) eq_refl ltac:(lia) (eq_sym Hc) (Hcp eq_refl)) as (q & -> & Hq).
    destruct (find_sub (CRLF ++ CRLF) (resp s ++ b)) as [i|] eqn:Ef; [cbn; split; [|done]; by split; cbn|].
    specialize (Hl eq_refl). specialize (Hlp eq_refl). destruct (lf_hit s) as [i|] eqn:El.
    + cbn. split; [|done]. split; cbn; [done|by intros _; apply Hq| |done]. intros _. symmetry. apply find_sub_app; done.
    + destruct (probe_spec [10; 10] 1 (resp s) b (lf_probe s) eq_refl ltac:(lia) (eq_sym Hl) (Hlp eq_refl)) as (q' & -> & Hq').
      cbn. split; [|done]. split; cbn; [done|by intros _; apply Hq|done|]. intros _. apply Hq'.
Qed.

(** The frame fields are those of the buffer. *)
Definition framed (s : state) : Prop :=
  match frame_end (resp s) with
  | None => body_start s = 0 /\ content_len s = -1 /\ chunked s = false
  | Some w =>
      body_start s = w /\ Ret (chunked s) = https_te_header_chunked (take (Z.to_nat w) (resp s)) /\
      (chunked s = false -> content_len s = https_content_length (take (Z.to_nat w) (resp s)))
  end.

Lemma frame_end_range d w : frame_end d = Some w -> 2 <= w <= zlen d.
Proof.
  unfold frame_end. destruct (find_sub (CRLF ++ CRLF) d) as [i|] eqn:E.
  - intros [= <-]. apply find_sub_Some in E as (Hi & Ho & _). apply occ_len in Ho; [|done]. cbn in Ho. unfold zlen. lia.
  - destruct (find_sub [10; 10] d) as [i|] eqn:F; [|done]. intros [= <-].
    apply find_sub_Some in F as (Hi & Ho & _). apply occ_len in Ho; [|done]. cbn in Ho. unfold zlen. lia.
Qed.

Lemma adopt_framed s b :
  scanned s -> framed s -> unfolded (resp s ++ b) -> zlen (resp s ++ b) < 2 ^ 32 ->
  exists r, adopt (scan s b) = Ret r /\
    match r with None => True | Some t => scanned t /\ framed t /\ resp t = resp s ++ b end.
Proof.
  intros Hs Hf Hu Hz. destruct (scan_scanned s b Hs) as (Ht & Er & Eb & Ecl & Ech).
  set (t := scan s b) in *. unfold adopt.
  assert ((match crlf_hit t with Some i => Some (i + 4) | None => match lf_hit t with Some i => Some (i + 2) | None => None end end)
    = frame_end (resp t)) as ->.
  { unfold frame_end. rewrite <- (sc_crlf t Ht). destruct (crlf_hit t) eqn:E; [done|]. by rewrite (sc_lf t Ht E). }
  unfold framed in Hf. destruct (frame_end (resp t)) as [w|] eqn:Ew.
  - pose proof (frame_end_range _ _ Ew) as Hw. destruct (w =? body_start t) eqn:Eq.
    + apply Z.eqb_eq in Eq. exists (Some t). split; [done|]. split; [done|]. split; [|done]. unfold framed. rewrite Ew.
      destruct (frame_end (resp s)) as [w0|] eqn:E0; [|lia]. destruct Hf as (Hb & Hc & Hl).
      pose proof (frame_end_range _ _ E0). assert (w = w0) as <- by congruence.
      assert (take (Z.to_nat w) (resp t) = take (Z.to_nat w) (resp s)) as -> by (rewrite Er, take_app_le; [done|unfold zlen in *; lia]).
      rewrite Ech, Ecl. done.
    + assert (unfolded (take (Z.to_nat w) (resp t))) as Hu' by (apply unfolded_take; by rewrite Er).
      assert (zlen (take (Z.to_nat w) (resp t)) < 2 ^ 32) as Hz' by (rewrite zlen_take, Er; lia).
      rewrite (te_header_unfolded _ Hu' Hz'). cbn [rbind]. set (ch := existsb _ _).
      destruct (negb ch && (_ =? 0)) eqn:Ez; [by exists None|]. eexists; split; [done|]. split; [by destruct Ht; split|].
      split; [|done]. unfold framed. cbn [resp body_start chunked content_len]. rewrite Ew. split; [done|]. rewrite (te_header_unfolded _ Hu' Hz'). split; [done|].
      by intros ->.
  - exists (Some t). split; [done|]. split; [done|]. split; [|done]. unfold framed. rewrite Ew.
    destruct (frame_end (resp s)) as [w0|] eqn:E0; [|by rewrite Eb, Ecl, Ech].
    exfalso. rewrite Er in Ew. unfold frame_end in E0, Ew. destruct (find_sub (CRLF ++ CRLF) (resp s)) as [i|] eqn:F.
    + by rewrite (find_sub_app (CRLF ++ CRLF) (resp s) b i ltac:(done) F) in Ew.
    + destruct (find_sub [10; 10] (resp s)) as [i|] eqn:G; [|done]. destruct (find_sub (CRLF ++ CRLF) (resp s ++ b)); [done|].
      by rewrite (find_sub_app [10; 10] (resp s) b i ltac:(done) G) in Ew.
Qed.

Definition data_of (evs : list event) : bytes := concat (map (fun e => match e with Data b => b | _ => [] end) evs).

Lemma tls_read_spec evs : forall s,
  scanned s -> framed s -> unfolded (resp s ++ data_of evs) -> zlen (resp s ++ data_of evs) < 2 ^ 32 ->
  exists o, https_tls_read s evs = Ret o /\
    match o with
    | Waiting t => resp t = resp s ++ data_of evs /\ scanned t /\ framed t
    | Done d => d `prefix_of` resp s ++ data_of evs
    | Failed => True
    end.
Proof.
  induction evs as [|e evs IH]; intros s Hs Hf Hu Hz; cbn [https_tls_read].
  { eexists; split; [done|]. cbn. by rewrite app_nil_r. }
  destruct (_ >? _); [by eexists|]. destruct e as [b| | |].
  - change (data_of (Data b :: evs)) with (b ++ data_of evs) in *. rewrite app_assoc in *.
    destruct (adopt_framed s b Hs Hf) as (r & -> & Hr).
    + intros j c c' H1 H2. apply (Hu j); by apply lookup_app_l_Some.
    + rewrite zlen_app in Hz. pose proof (zlen_nonneg (data_of evs)). lia.
    + destruct (scan_scanned s b Hs) as (_ & Er & _). cbn [rbind]. destruct r as [t|].
      * destruct Hr as (Ht & Hft & Et). rewrite <- Et in *. destruct (full t); [|by apply IH].
        eexists; split; [done|]. cbn. by exists (data_of evs).
      * eexists; split; [done|]. cbn. rewrite Er. by exists (data_of evs).
  - eexists; split; [done|]. destruct (short s); [done|]. by eexists.
  - by apply IH.
  - by eexists.
Qed.

(** For any response without folded lines, also one whose frame moves: while the loop is
    still reading, the resumed searches have found exactly what a search of the whole buffer
    finds, a first CRLFCRLF replacing an earlier LFLF; what it hands over is a prefix of what
    arrived. *)
Lemma read_frame_tracks (evs : list event) :
  unfolded (data_of evs) -> zlen (data_of evs) < 2 ^ 32 ->
  exists o, https_tls_read state0 evs = Ret o /\
    match o with
    | Waiting t =>
        resp t = data_of evs /\ crlf_hit t = sbuf_find (resp t) (CRLF ++ CRLF) /\
        (crlf_hit t = None -> lf_hit t = sbuf_find (resp t) [10; 10]) /\
        match frame_end (resp t) with
        | None => body_start t = 0 /\ content_len t = -1
        | Some w =>
            body_start t = w /\ chunked t = existsb te_line (eol_lines [] (take (Z.to_nat w) (resp t))) /\
            (chunked t = false -> content_len t = https_content_length (take (Z.to_nat w) (resp t)))
        end
    | Done d => d `prefix_of` data_of evs
    | Failed => True
    end.
Proof.
  intros Hu Hz. destruct (tls_read_spec evs state0) as (o & E & Ho); [|done|done|done|].
  { split; try done; intros; by left. }
  exists o. split; [done|]. destruct o as [d| |t]; [done|done|]. destruct Ho as (Er & Ht & Hf).
  split; [done|]. rewrite !sbuf_find_eq by done. split; [apply (sc_crlf t Ht)|]. split; [apply (sc_lf t Ht)|].
  unfold framed in Hf. destruct (frame_end (resp t)) as [w|] eqn:Ew; [|tauto]. destruct Hf as (Hb & Hc & Hl).
  split; [done|]. split; [|done]. rewrite te_header_unfolded in Hc; [by apply ret_inj in Hc| |].
  - apply unfolded_take. by rewrite Er.
  - rewrite zlen_take, Er. cbn [resp state0 app]. lia.
Qed.

(** ** The reader against a reader that starts over

    [need d] is where the response that begins with [d] ends by its length: unknown while the
    header block has no end, and for a chunked response or one without a length. *)

Definition need (d : bytes) : option Z :=
  match frame_end d with
  | None => None
  | Some w =>
      let block := take (Z.to_nat w) d in
      if existsb te_line (eol_lines [] block) then None
      else if https_content_length block <? 0 then None else Some (w + https_content_length block)
  end.

Inductive reading := R_done (d : bytes) | R_failed | R_more (d : bytes).

(** The loop when everything received is framed afresh after each read. *)
Fixpoint rescan (d : bytes) (evs : list event) : reading :=
  match evs with
  | [] => R_more d
  | e :: evs =>
      if zlen d >? HTTPS_MAX_RESP then R_failed
      else
        match e with
        | Broken => R_failed
        | Retry => rescan d evs
        | Eof => match need d with Some n => if zlen d <? n then R_failed else R_done d | None => R_done d end
        | Data b =>
            match need (d ++ b) with
            | Some n => if n <=? zlen (d ++ b) then R_done (d ++ b) else rescan (d ++ b) evs
            | None => rescan (d ++ b) evs
            end
        end
  end.

(** The end of the header block, once found, stays where it is: no CRLFCRLF after an LFLF that was
    taken for it. *)
Definition settled (d : bytes) : Prop := forall n, frame_end (take n d) = None \/ frame_end (take n d) = frame_end d.

(** The lines of the header block are not folded. *)
Definition head_unfolded (d : bytes) : Prop := forall w, frame_end d = Some w -> unfolded (take (Z.to_nat w) d).

(** The state after [resp s], when more is needed. *)
Record fresh (s : state) : Prop := {
  fr_scanned : scanned s;
  fr_short : forall n, need (resp s) = Some n -> zlen (resp s) < n;
  fr_frame : match frame_end (resp s) with
             | None => body_start s = 0 /\ content_len s = -1 /\ chunked s = false
             | Some w =>
                 body_start s = w /\ chunked s = existsb te_line (eol_lines [] (take (Z.to_nat w) (resp s))) /\
                 content_len s = if chunked s then -1 else https_content_length (take (Z.to_nat w) (resp s))
             end
}.

Lemma fresh0 : fresh state0.
Proof. split; [split; try done; intros; by left|done|done]. Qed.

(** The length test of the loop is the one of [need]. *)
Lemma fresh_short s : fresh s -> short s = match need (resp s) with Some n => zlen (resp s) <? n | None => false end.
Proof.
  intros [_ Hs Hf]. unfold short, need in *. destruct (frame_end (resp s)) as [w|] eqn:Ew; [|by destruct Hf as (_ & -> & _)].
  pose proof (frame_end_range _ _ Ew) as Hw.
  destruct Hf as (Hb & Hc & Hl). rewrite <- Hc in *. rewrite Hb, Hl. destruct (chunked s); [done|].
  destruct (_ <? 0) eqn:E; [lia|]. specialize (Hs _ eq_refl). lia.
Qed.

(** What the buffer holds after a read, as the whole response [D] frames it. *)
Lemma settled_frame d D : settled D -> head_unfolded D -> d `prefix_of` D -> zlen D < 2 ^ 32 ->
  match frame_end d with
  | None => True
  | Some w => frame_end D = Some w /\ https_te_header_chunked (take (Z.to_nat w) d) = Ret (existsb te_line (eol_lines [] (take (Z.to_nat w) d)))
  end.
Proof.
  intros Hs Hu [r ->] Hz. specialize (Hs (length d)). rewrite take_app_length in Hs. destruct (frame_end d) as [w|] eqn:E; [|done].
  destruct Hs as [?|Hs]; [done|]. split; [done|]. pose proof (frame_end_range _ _ E) as Hw. symmetry in Hs.
  assert (take (Z.to_nat w) d = take (Z.to_nat w) (d ++ r)) as Et by (rewrite take_app_le; [done|unfold zlen in *; lia]).
  apply te_header_unfolded; rewrite Et; [by apply Hu|rewrite zlen_take; lia].
Qed.

Lemma frame_end_none d b : frame_end (d ++ b) = None -> frame_end d = None.
Proof.
  intros E. destruct (frame_end d) as [w|] eqn:E0; [|done]. exfalso. unfold frame_end in E0, E.
  destruct (find_sub (CRLF ++ CRLF) d) as [i|] eqn:F; [by rewrite (find_sub_app (CRLF ++ CRLF) d b i ltac:(done) F) in E|].
  destruct (find_sub [10; 10] d) as [i|] eqn:G; [|done]. destruct (find_sub (CRLF ++ CRLF) (d ++ b)); [done|].
  by rewrite (find_sub_app [10; 10] d b i ltac:(done) G) in E.
Qed.

(** The state [t] ends the read, or goes on, as [need] says of its bytes. *)
Definition judged (t : state) : Prop :=
  match need (resp t) with
  | Some n => if n <=? zlen (resp t) then full t = true else full t = false /\ fresh t
  | None => full t = false /\ fresh t
  end.

Lemma judged_frame t w (cl := https_content_length (take (Z.to_nat w) (resp t))) :
  scanned t -> frame_end (resp t) = Some w -> body_start t = w ->
  chunked t = existsb te_line (eol_lines [] (take (Z.to_nat w) (resp t))) ->
  content_len t = (if chunked t then -1 else cl) -> (chunked t = false -> cl <> 0) -> judged t.
Proof.
  intros Ht Ew Hb Hc Hl H0. assert ((forall n, need (resp t) = Some n -> zlen (resp t) < n) -> fresh t) as Hf.
  { intros Hn. split; [done|done|]. by rewrite Ew. }
  unfold judged. revert Hf. unfold need, full. rewrite Ew, <- Hc. fold cl. rewrite Hb, Hl. destruct (chunked t); intros Hf; [by split; [|apply Hf]|].
  specialize (H0 eq_refl). destruct (cl <? 0) eqn:E; [split; [lia|by apply Hf]|]. destruct (_ <=? _) eqn:En; [lia|].
  split; [lia|]. apply Hf. intros n [= <-]. lia.
Qed.

(** One read: the loop goes on, or ends, as a fresh look at all bytes says. *)
Lemma read_step s b D : fresh s -> (resp s ++ b) `prefix_of` D -> settled D -> head_unfolded D -> zlen D < 2 ^ 32 ->
  resp (scan s b) = resp s ++ b /\
  exists r, adopt (scan s b) = Ret r /\
    match r with
    | None => exists n, need (resp s ++ b) = Some n /\ n <= zlen (resp s ++ b)
    | Some t => resp t = resp s ++ b /\ judged t
    end.
Proof.
  intros [Hsc Hsh Hfr] Hpre Hset Hun Hz. destruct (scan_scanned s b Hsc) as (Ht & Er & Eb & Ecl & Ech). set (t := scan s b) in *. split; [done|].
  unfold adopt.
  assert ((match crlf_hit t with Some i => Some (i + 4) | None => match lf_hit t with Some i => Some (i + 2) | None => None end end)
    = frame_end (resp t)) as ->.
  { unfold frame_end. rewrite <- (sc_crlf t Ht). destruct (crlf_hit t) eqn:E; [done|]. by rewrite (sc_lf t Ht E). }
  pose proof (settled_frame (resp t) D Hset Hun ltac:(by rewrite Er) Hz) as Hst. rewrite <- Er.
  pose proof (settled_frame (resp s) D Hset Hun (prefix_app_l _ _ _ Hpre) Hz) as Hst0.
  destruct (frame_end (resp t)) as [w|] eqn:Ew.
  2: { eexists. split; [done|]. split; [done|]. rewrite Er in Ew. rewrite (frame_end_none _ _ Ew) in Hfr. rewrite <- Er in Ew.
       destruct Hfr as (F1 & F2 & F3). unfold judged, full, need. rewrite Ew, Ecl, F2. split; [done|].
       split; [done| |by rewrite Ew, Eb, Ecl, Ech]. unfold need. by rewrite Ew. }
  destruct Hst as (HD & Hte). pose proof (frame_end_range _ _ Ew) as Hw. destruct (w =? body_start t) eqn:Eq.
  - apply Z.eqb_eq in Eq. eexists. split; [done|]. split; [done|].
    destruct (frame_end (resp s)) as [w0|] eqn:E0; [|lia]. destruct Hfr as (Hb & Hc & Hl). assert (w0 = w) as -> by congruence.
    pose proof (frame_end_range _ _ E0) as Hw0.
    assert (take (Z.to_nat w) (resp s) = take (Z.to_nat w) (resp t)) as Et by (rewrite Er, take_app_le; [done|unfold zlen in *; lia]).
    apply (judged_frame t w); rewrite <- ?Et, ?Ech, ?Ecl; try done. intros Hch H0.
    assert (need (resp s) = Some (w + 0)) as Hn0; [|specialize (Hsh _ Hn0); lia]. unfold need. by rewrite E0, <- Hc, Hch, H0.
  - assert (content_len s = -1) as Ecs.
    { destruct (frame_end (resp s)) as [w0|] eqn:E0; [|tauto]. destruct Hst0 as (HD0 & _). destruct Hfr as (Hb & _).
      assert (w0 = w) by congruence. rewrite Eb in Eq. lia. }
    rewrite Hte, Ecl, Ecs. cbn [rbind]. destruct (negb _ && _) eqn:E0.
    + eexists. split; [done|]. apply andb_true_iff in E0 as [E1 E2]. apply negb_true_iff in E1. rewrite E1 in E2. apply Z.eqb_eq in E2.
      exists w. unfold need. rewrite Ew, E1, E2. split; [f_equal; cbn; lia|lia].
    + eexists. split; [done|]. split; [done|]. apply (judged_frame _ w); try done; [by destruct Ht; split|].
      cbn [chunked resp]. intros E1. rewrite E1 in E0. cbn in E0. lia.
Qed.

Lemma read_rescan D evs : forall s,
  fresh s -> settled D -> head_unfolded D -> zlen D < 2 ^ 32 -> (resp s ++ data_of evs) `prefix_of` D ->
  exists o, https_tls_read s evs = Ret o /\
    match o with
    | Done d => rescan (resp s) evs = R_done d
    | Failed => rescan (resp s) evs = R_failed
    | Waiting t => rescan (resp s) evs = R_more (resp t) /\ fresh t
    end.
Proof.
  induction evs as [|e evs IH]; intros s Hf Hs Hu Hz Hp; cbn [https_tls_read rescan]; [by eexists|].
  destruct (_ >? _); [by eexists|]. destruct e as [b| | |].
  - change (data_of (Data b :: evs)) with (b ++ data_of evs) in Hp. rewrite app_assoc in Hp.
    destruct (read_step s b D) as (Er & r & -> & Hr); try done; [etransitivity; [|exact Hp]; by eexists|]. cbn [rbind]. destruct r as [t|].
    + destruct Hr as [Et Hj]. unfold judged in Hj. rewrite Et in *.
      assert (fresh t -> exists o, https_tls_read t evs = Ret o /\
        match o with Done d => rescan (resp s ++ b) evs = R_done d | Failed => rescan (resp s ++ b) evs = R_failed
        | Waiting t => rescan (resp s ++ b) evs = R_more (resp t) /\ fresh t end) as Hgo.
      { intros Hft. rewrite <- Et. apply IH; try done. by rewrite Et. }
      destruct (need (resp s ++ b)) as [n|]; [destruct (n <=? _)|]; [rewrite Hj; by eexists|..]; destruct Hj as [-> Hft]; by apply Hgo.
    + destruct Hr as (n & -> & Hn). eexists. split; [done|]. rewrite Er. by destruct (n <=? _) eqn:E; [|lia].
  - eexists. split; [done|]. rewrite (fresh_short s Hf). destruct (need (resp s)) as [n|]; [|done]. by destruct (_ <? n).
  - apply IH; try done.
  - by eexists.
Qed.

(** The length of the response is known from any part that has its header block. *)
Lemma need_settled d D : settled D -> d `prefix_of` D -> frame_end d <> None -> need d = need D.
Proof.
  intros Hs [r ->] Hne. specialize (Hs (length d)). rewrite take_app_length in Hs. unfold need. destruct (frame_end d) as [w|] eqn:E; [|done].
  destruct Hs as [?|<-]; [done|]. pose proof (frame_end_range _ _ E) as Hw.
  assert (take (Z.to_nat w) (d ++ r) = take (Z.to_nat w) d) as -> by (rewrite take_app_le; [done|unfold zlen in *; lia]). done.
Qed.

Lemma rescan_done evs : forall d0 d, rescan d0 evs = R_done d -> d `prefix_of` d0 ++ data_of evs /\ forall n, need d = Some n -> n <= zlen d.
Proof.
  induction evs as [|e evs IH]; intros d0 d; cbn [rescan]; [done|]. destruct (_ >? _); [done|]. destruct e as [b| | |].
  - change (data_of (Data b :: evs)) with (b ++ data_of evs). rewrite app_assoc. destruct (need (d0 ++ b)) as [n|] eqn:En; [|apply IH].
    destruct (n <=? _) eqn:El; [|apply IH]. intros [= <-]. split; [by eexists|]. intros n'. rewrite En. intros [= <-]. lia.
  - change (data_of (Eof :: evs)) with (data_of evs). destruct (need d0) as [n|] eqn:En; [destruct (_ <? n) eqn:El; [done|]|]; intros [= <-]; (split; [by eexists|]); rewrite En; [intros n' [= <-]; lia|done].
  - apply IH.
  - done.
Qed.

(** C34: the incremental reader ends a response as a reader does that frames all received bytes
    afresh after each read.  For a response whose header block is not folded and whose end of the
    header block, once found, does not move (it ends in CRLFCRLF with no LFLF before it, or in
    LFLF with no CRLFCRLF anywhere), and any sequence of reads, retries, errors and end of stream:
    the loop returns, with the same outcome and the same bytes as [rescan], and while it waits its
    frame fields are those of the bytes received.  When it hands over a response that has its
    header block and declares a length, it has all of that length, and up to its end the bytes do
    not depend on how the reads cut the stream.  [framing_rules_differ] is a response whose end
    of header moves, and which ends at different points by the cut. *)
Theorem read_frame_exact (evs : list event) :
  settled (data_of evs) -> head_unfolded (data_of evs) -> zlen (data_of evs) < 2 ^ 32 ->
  exists o, https_tls_read state0 evs = Ret o /\
    match o with
    | Done d =>
        rescan [] evs = R_done d /\
        forall n, frame_end d <> None -> need (data_of evs) = Some n -> n <= zlen d /\ take (Z.to_nat n) d = take (Z.to_nat n) (data_of evs)
    | Failed => rescan [] evs = R_failed
    | Waiting t =>
        rescan [] evs = R_more (resp t) /\
        match frame_end (resp t) with
        | None => body_start t = 0 /\ content_len t = -1 /\ chunked t = false
        | Some w =>
            body_start t = w /\ chunked t = existsb te_line (eol_lines [] (take (Z.to_nat w) (resp t))) /\
            content_len t = if chunked t then -1 else https_content_length (take (Z.to_nat w) (resp t))
        end
    end.
Proof.
  intros Hs Hu Hz. destruct (read_rescan (data_of evs) evs state0 fresh0 Hs Hu Hz) as (o & E & Ho); [done|].
  exists o. split; [done|]. destruct o as [d| |t]; [|done|].
  - split; [done|]. intros n Hne Hn. destruct (rescan_done evs [] d Ho) as [Hp Hl]. cbn [app] in Hp.
    rewrite <- (need_settled d _ Hs Hp Hne) in Hn. specialize (Hl n Hn). split; [done|]. destruct Hp as [r ->].
    rewrite take_app_le; [done|]. unfold zlen in Hl. lia.
  - by destruct Ho as (Hr & [_ _ Hfr]).
Qed.

Definition sample_head : bytes := lit "HTTP/1.1 200 OK" ++ CRLF ++ lit "Content-Length: 2".

Definition settled_b (d : bytes) : bool :=
  forallb (fun n => bool_decide (frame_end (take n d) = None) || bool_decide (frame_end (take n d) = frame_end d)) (seq 0 (length d)).

Lemma settled_b_ok d : settled_b d = true -> settled d.
Proof.
  unfold settled_b. intros Hb n. destruct (decide (length d <= n)%nat) as [Hn|Hn]; [right; by rewrite take_ge|].
  rewrite forallb_forall in Hb. specialize (Hb n ltac:(apply in_seq; lia)). apply orb_true_iff in Hb as [Hb|Hb]; apply bool_decide_eq_true in Hb; tauto.
Qed.

Definition sample_reads : list event := [Data (sample_head ++ [13; 10; 13]); Retry; Data (10 :: lit "ok")].

Lemma read_frame_exact_witness :
  need (data_of sample_reads) = Some 40 /\
  exists o, https_tls_read state0 sample_reads = Ret o /\
    match o with Done d => rescan [] sample_reads = R_done d /\ zlen d = 40 | _ => False end.
Proof.
  split; [vm_compute; reflexivity|]. destruct (read_frame_exact sample_reads) as (o & E & Ho).
  - apply settled_b_ok. vm_compute. reflexivity.
  - intros w Hw. apply unfolded_b_ok. vm_compute in Hw. injection Hw as <-. vm_compute. reflexivity.
  - vm_compute. reflexivity.
  - exists o. split; [exact E|]. destruct o as [d| |t]; [|vm_compute in E; discriminate E|vm_compute in E; discriminate E].
    split; [exact (proj1 Ho)|]. vm_compute in E. injection E as <-. vm_compute. reflexivity.
Defined.

(** A response with both framings, the terminator arriving in mixed line ends. *)
Definition mixed1 : bytes := lit "HTTP/1.1 200 OK" ++ [10] ++ lit "Content-Length: 5" ++ [10; 10].
Definition mixed2 : bytes := lit "Transfer-Encoding: chunked" ++ CRLF ++ CRLF ++ lit "5" ++ CRLF ++ lit "he".
Definition mixed3 : bytes := lit "llo" ++ CRLF ++ lit "0" ++ CRLF ++ CRLF.

(** The reader and the parser frame this response differently: the reader takes it as
    chunked, the parser stops at the empty line and counts.  The reader also keeps the
    length of the first block after the second one replaced it, so the same bytes end the
    read at different points when they come in one piece or in three. *)
Lemma framing_rules_differ :
  https_te_header_chunked (mixed1 ++ take 30 mixed2) = Ret true /\
  https_hdr_value (drop 16 (mixed1 ++ take 30 mixed2)) (lit "transfer-encoding") = None /\
  https_tls_read state0 [Data (mixed1 ++ mixed2 ++ mixed3); Eof] = Ret (Done (mixed1 ++ mixed2 ++ mixed3)) /\
  https_tls_read state0 [Data mixed1; Data mixed2; Data mixed3; Eof] = Ret (Done (mixed1 ++ mixed2)).
Proof. by vm_compute. Qed.

End Frame.
