(* ===== verification/HttpResp.v ===== *)
(** * What the HTTP parsers return (theorems on [Http.Msg])

    Chunked and counted response bodies, the requests the client builds, and the
    sanitised copies it logs. *)

From S2P Require Import Prelude Util Crypto Http.
Import Msg.

(** ** Chunked bodies *)

Lemma hex_acc_digits s : forall v, 0 <= hex_acc s v -> 0 <= v -> Forall (fun c => 0 <= hex_nibble c) s /\ v <= hex_acc s v.
Proof.
  induction s as [|c s IH]; intros v; cbn [hex_acc]; [by split|].
  destruct (hex_nibble c <? 0) eqn:E1; [lia|]. destruct (v >? _); [lia|]. intros H Hv.
  destruct (IH (v * 16 + hex_nibble c) H) as [H1 H2]; [lia|]. split; [constructor; [lia|done]|lia].
Qed.

Lemma hex_not_eol c : 0 <= hex_nibble c -> (is_eol c || (c =? 59)) = false.
Proof. unfold hex_nibble, is_eol. ifs; lia. Qed.

Lemma hex_line s : 0 <= hex_parse_sz s -> none (fun c => is_eol c || (c =? 59)) s.
Proof.
  intros Hs. destruct (hex_acc_digits s 0 Hs) as [H _]; [lia|]. eapply Forall_impl; [done|]. apply hex_not_eol.
Qed.

Lemma chunk_loop_total fuel : forall d out, (length d < fuel)%nat -> no_fault (chunk_loop fuel d out).
Proof.
  induction fuel as [|fuel IH]; intros d out Hf; [lia|]. cbn [chunk_loop].
  destruct (zlen d =? 0); [by eexists|]. set (sz := hex_parse_sz _). destruct (sz <? 0) eqn:E1; [by eexists|].
  set (j := skipw is_eol _). destruct (sz =? 0) eqn:E2; [by eexists|]. destruct (sz >? zlen j) eqn:E3; [by eexists|].
  rewrite rdn_ok by lia. cbn [rbind]. apply IH.
  assert (zlen j <= zlen d) as Hj.
  { unfold j. etransitivity; [apply skipw_le|]. set (g := fun c => _ || _).
    assert (forall f s, zlen (from f s) <= zlen s) as Hfr.
    { intros f s. rewrite <- (upto_from f s) at 2. rewrite zlen_app. pose proof (zlen_nonneg (upto f s)). lia. }
    etransitivity; apply Hfr. }
  pose proof (skipw_le is_eol (drop (Z.to_nat sz) j)) as Hk. rewrite zlen_drop in Hk. unfold zlen in *. lia.
Qed.

Lemma chunk_decode_total d : no_fault (chunk_decode d).
Proof. apply chunk_loop_total. lia. Qed.

(** One chunk: size digits, an extension, and the data. *)
Record chunk := mk_chunk { ck_size : bytes; ck_ext : bytes; ck_data : bytes }.

Definition chunk_ok (c : chunk) : Prop :=
  ck_size c <> [] /\ hex_parse_sz (ck_size c) = zlen (ck_data c) /\ none is_eol (ck_ext c) /\
  (ck_ext c = [] \/ exists e, ck_ext c = 59 :: e).

(** The data does not open with a line end. *)
Definition chunk_plain (c : chunk) : Prop := exists b r, ck_data c = b :: r /\ is_eol b = false.

Definition chunk_enc (c : chunk) : bytes := ck_size c ++ ck_ext c ++ CRLF ++ ck_data c ++ CRLF.

Lemma size_line size ext t :
  0 <= hex_parse_sz size -> none is_eol ext -> (ext = [] \/ exists e, ext = 59 :: e) ->
  upto (fun c => is_eol c || (c =? 59)) (size ++ ext ++ CRLF ++ t) = size /\
  from is_eol (from (fun c => is_eol c || (c =? 59)) (size ++ ext ++ CRLF ++ t)) = CRLF ++ t.
Proof.
  intros Hs He Hx. pose proof (hex_line _ Hs) as Hl. destruct Hx as [->|[e ->]].
  - cbn [app CRLF]. rewrite upto_app, from_app by done. done.
  - cbn [app CRLF]. rewrite upto_app, from_app by done. split; [done|].
    apply (from_app is_eol (59 :: e) 13 (10 :: t)); done.
Qed.

Lemma skip_crlf t : skipw is_eol (CRLF ++ t) = skipw is_eol t.
Proof. done. Qed.

Lemma nonempty_len (s t : bytes) : s <> [] -> (zlen (s ++ t) =? 0) = false.
Proof. destruct s as [|c s]; [done|]. intros _. pose proof (zlen_nonneg (s ++ t)). cbn [app]. rewrite zlen_cons. lia. Qed.

Lemma chunk_step fuel c t out :
  chunk_ok c -> chunk_plain c ->
  chunk_loop (S fuel) (chunk_enc c ++ t) out = chunk_loop fuel (skipw is_eol t) (out ++ ck_data c).
Proof.
  intros (Hne & Hsz & He & Hx) (b & r & Ed & Hb). unfold chunk_enc. rewrite <- !app_assoc.
  pose proof (zlen_nonneg (ck_data c)) as N. assert (0 < zlen (ck_data c)) as N' by (rewrite Ed; pose proof (zlen_nonneg r); zlia).
  destruct (size_line (ck_size c) (ck_ext c) (ck_data c ++ CRLF ++ t)) as [E1 E2]; [lia|done|done|].
  cbn [chunk_loop]. rewrite E1, E2, Hsz, skip_crlf.
  rewrite (nonempty_len (ck_size c)) by done.
  replace (zlen (ck_data c) <? 0) with false by lia. replace (zlen (ck_data c) =? 0) with false by lia.
  assert (skipw is_eol (ck_data c ++ CRLF ++ t) = ck_data c ++ CRLF ++ t) as -> by (rewrite Ed; cbn [app skipw]; by rewrite Hb).
  assert (zlen (ck_data c) <= zlen (ck_data c ++ CRLF ++ t)) as Hle by (rewrite zlen_app; pose proof (zlen_nonneg (CRLF ++ t)); lia).
  replace (zlen (ck_data c) >? zlen (ck_data c ++ CRLF ++ t)) with false by lia. rewrite rdn_ok by lia. cbn [rbind].
  rewrite slice_app_l by lia. unfold zlen at 1. by rewrite Nat2Z.id, drop_app_length.
Qed.

Lemma chunk_last fuel size ext t out :
  size <> [] -> hex_parse_sz size = 0 -> none is_eol ext -> (ext = [] \/ exists e, ext = 59 :: e) ->
  chunk_loop (S fuel) (size ++ ext ++ CRLF ++ t) out = Ret (Some out).
Proof.
  intros Hne Hs He Hx. destruct (size_line size ext t) as [E1 E2]; [lia|done|done|].
  cbn [chunk_loop]. rewrite E1, Hs. by rewrite (nonempty_len size).
Qed.

Lemma skip_size size t : size <> [] -> 0 <= hex_parse_sz size -> skipw is_eol (size ++ t) = size ++ t.
Proof.
  intros Hne Hs. pose proof (hex_line _ Hs) as Hl. destruct Hl as [|c s Hc _]; [done|].
  cbn [app]. apply skipw_head. by apply orb_false_iff in Hc as [? _].
Qed.

Lemma chunk_loop_enc cs : forall fuel size ext t out,
  Forall chunk_ok cs -> Forall chunk_plain cs -> (length cs < fuel)%nat ->
  size <> [] -> hex_parse_sz size = 0 -> none is_eol ext -> (ext = [] \/ exists e, ext = 59 :: e) ->
  chunk_loop fuel (concat (map chunk_enc cs) ++ size ++ ext ++ CRLF ++ t) out = Ret (Some (out ++ concat (map ck_data cs))).
Proof.
  induction cs as [|c cs IH]; intros [|fuel] size ext t out Hok Hp Hf Hne Hs He Hx; [cbn in Hf; lia| |cbn in Hf; lia|].
  - cbn [map concat app]. rewrite app_nil_r. by apply chunk_last.
  - inversion Hok as [|? ? Hc Hok']; inversion Hp as [|? ? Hpc Hp']; subst.
    cbn [map concat]. rewrite <- app_assoc, chunk_step by done.
    assert (skipw is_eol (concat (map chunk_enc cs) ++ size ++ ext ++ CRLF ++ t) =
            concat (map chunk_enc cs) ++ size ++ ext ++ CRLF ++ t) as ->.
    { destruct Hok' as [|c' cs' (Hne' & Hs' & _) _]; [cbn; apply skip_size; [done|lia]|].
      cbn [map concat]. rewrite <- (app_assoc (chunk_enc c')). generalize (concat (map chunk_enc cs') ++ size ++ ext ++ CRLF ++ t).
      intros R. unfold chunk_enc. rewrite <- !app_assoc. apply skip_size; [done|].
      rewrite Hs'. apply zlen_nonneg. }
    rewrite IH by (done || (cbn in Hf; lia)). by rewrite <- app_assoc.
Qed.

Lemma chunk_loop_keeps fuel : forall d out r, chunk_loop fuel d out = Ret (Some r) -> out `prefix_of` r.
Proof.
  induction fuel as [|fuel IH]; intros d out r; cbn [chunk_loop]; [done|].
  destruct (zlen d =? 0); [done|]. destruct (_ <? 0); [done|]. destruct (_ =? 0); [by intros [= <-]|].
  destruct (_ >? _); [done|]. destruct (rdn _ _ _) as [l|]; [|done]. cbn [rbind]. intros H. apply IH in H.
  etransitivity; [|done]. by exists l.
Qed.

(** ** Header blocks *)

Lemma lf_lines_line l t cur : none (Z.eqb 10) l -> lf_lines cur (l ++ 10 :: t) = (cur ++ l) :: lf_lines [] t.
Proof.
  revert cur. induction l as [|c l IH]; intros cur Hl; cbn [app lf_lines]; [by rewrite app_nil_r|].
  inversion Hl as [|? ? Hc Hl']; subst. replace (c =? 10) with false by lia. rewrite IH by done. by rewrite <- app_assoc.
Qed.

Lemma strip_cr_line l : strip_cr (l ++ [13]) = l.
Proof. unfold strip_cr. rewrite rev_app_distr. cbn. by rewrite rev_involutive. Qed.

Lemma eol_lf l : none is_eol l -> none (Z.eqb 10) l /\ none (Z.eqb 13) l.
Proof. intros H. split; eapply Forall_impl; try done; unfold is_eol; intros c; lia. Qed.

Lemma crlf_lines_lf ls t :
  Forall (none is_eol) ls -> lf_lines [] (crlf_lines ls ++ t) = map (fun l => l ++ [13]) ls ++ lf_lines [] t.
Proof.
  induction 1 as [|l ls Hl _ IH]; [done|]. change (crlf_lines (l :: ls)) with ((l ++ CRLF) ++ crlf_lines ls).
  replace (((l ++ CRLF) ++ crlf_lines ls) ++ t) with ((l ++ [13]) ++ 10 :: crlf_lines ls ++ t) by (by rewrite <- !app_assoc).
  rewrite lf_lines_line; [by rewrite IH|]. apply Forall_app_2; [by apply eol_lf|by repeat constructor].
Qed.

(** The field [name] on a line of its own. *)
Definition hdr_match (name l : bytes) : bool :=
  match from (Z.eqb 58) l with
  | [] => false
  | _ :: _ => (zlen (upto (Z.eqb 58) l) =? zlen name) && strncaseeq (upto (Z.eqb 58) l) name (zlen name)
  end.

(** A header line: not empty, no line end or NUL in it, not a continuation. *)
Definition line_ok (l : bytes) : Prop := none is_eol l /\ cstr_ok l /\ exists c r, l = c :: r /\ is_lws c = false.

Lemma line_ok_none ls : Forall line_ok ls -> Forall (none is_eol) ls.
Proof. intros H. eapply Forall_impl; [done|]. by intros l [? _]. Qed.

Lemma hdr_loop_skip name ls tl val m :
  Forall line_ok ls -> Forall (fun l => hdr_match name l = false) ls ->
  hdr_loop name (map (fun l => l ++ [13]) ls ++ tl) val m = hdr_loop name tl val m.
Proof.
  intros Hl Hm. induction ls as [|l ls IH]; [done|]. inversion Hl as [|? ? Hl1 Hl']; inversion Hm as [|? ? Hm1 Hm']; subst.
  destruct Hl1 as (_ & _ & c & r & Er & Hc). cbn [map app hdr_loop]. rewrite strip_cr_line, Er, Hc, <- Er.
  unfold hdr_match in Hm1. destruct (from (Z.eqb 58) l) as [|x v]; [by apply IH|]. rewrite Hm1. by apply IH.
Qed.

Lemma hdr_loop_hit name n v tl :
  line_ok (n ++ 58 :: v) -> none (Z.eqb 58) n -> zlen n = zlen name -> strncaseeq n name (zlen name) = true ->
  hdr_loop name (((n ++ 58 :: v) ++ [13]) :: tl) [] false = hdr_loop name tl (skipw is_lws v) true.
Proof.
  intros (_ & _ & c & r & Er & Hc) Hn Hl He. cbn [hdr_loop]. rewrite strip_cr_line, Er, Hc, <- Er.
  rewrite upto_app, from_app by done. rewrite Hl, Z.eqb_refl, He. done.
Qed.

Lemma hdr_loop_end name val m : hdr_loop name [[13]] val m = val.
Proof. done. Qed.

Lemma block_lines hs : Forall line_ok hs -> lf_lines [] (crlf_lines hs ++ CRLF) = map (fun l => l ++ [13]) hs ++ [[13]].
Proof. intros H. by rewrite crlf_lines_lf by (by apply line_ok_none). Qed.

Lemma hdr_value_absent name hs :
  Forall line_ok hs -> Forall (fun l => hdr_match name l = false) hs -> https_hdr_value (crlf_lines hs ++ CRLF) name = None.
Proof. intros Hl Hm. unfold https_hdr_value. rewrite block_lines by done. by rewrite hdr_loop_skip. Qed.

Lemma hdr_value_once name pre n v post :
  Forall line_ok (pre ++ (n ++ 58 :: v) :: post) ->
  Forall (fun l => hdr_match name l = false) pre -> Forall (fun l => hdr_match name l = false) post ->
  none (Z.eqb 58) n -> zlen n = zlen name -> strncaseeq n name (zlen name) = true -> skipw is_lws v <> [] ->
  https_hdr_value (crlf_lines (pre ++ (n ++ 58 :: v) :: post) ++ CRLF) name = Some (rtrim is_lws (skipw is_lws v)).
Proof.
  intros Hl Hpre Hpost Hn Hz He Hv. unfold https_hdr_value. rewrite block_lines by done.
  apply Forall_app in Hl as [Hl1 Hl2]. inversion Hl2 as [|? ? Hl3 Hl4]; subst.
  rewrite map_app, <- app_assoc, hdr_loop_skip by done. cbn [map app]. rewrite hdr_loop_hit by done.
  rewrite hdr_loop_skip by done. rewrite hdr_loop_end. by destruct (skipw is_lws v).
Qed.

(** *** Content-Length *)

Definition is_cl (l : bytes) : bool := (zlen l >=? 15) && strncaseeq l (lit "Content-Length:") 15.

Lemma cl_loop_line l t : none is_eol l ->
  cl_loop (eol_lines [] (l ++ CRLF ++ t)) = if is_cl l then cl_acc (skipw is_lws (drop 15 l)) 0 else cl_loop (eol_lines [] t).
Proof.
  intros Hl. rewrite eol_lines_eq. change (CRLF ++ t) with (13 :: 10 :: t). rewrite upto_app, from_app by done. done.
Qed.

Lemma content_length_first pre l post t :
  Forall (none is_eol) (pre ++ l :: post) -> Forall (fun l => is_cl l = false) pre -> is_cl l = true ->
  https_content_length (crlf_lines (pre ++ l :: post) ++ t) = cl_acc (skipw is_lws (drop 15 l)) 0.
Proof.
  intros Hl Hp Hc. unfold https_content_length. induction pre as [|x pre IH]; cbn [app] in *.
  - inversion Hl; subst. change (crlf_lines (l :: post)) with ((l ++ CRLF) ++ crlf_lines post).
    rewrite <- !app_assoc, cl_loop_line by done. by rewrite Hc.
  - inversion Hl; inversion Hp as [|? ? Hx Hp']; subst. change (crlf_lines (x :: ?y)) with ((x ++ CRLF) ++ crlf_lines y).
    rewrite <- !app_assoc, cl_loop_line by done. rewrite Hx. by apply IH.
Qed.

Lemma cl_acc_digits s v :
  forallb isdigit s = true -> 0 <= v -> fold_left (fun v c => v * 10 + (c - 48)) s v <= HTTPS_MAX_RESP ->
  cl_acc s v = fold_left (fun v c => v * 10 + (c - 48)) s v.
Proof.
  revert v. induction s as [|c s IH]; intros v Hs Hv Hm; [done|]. cbn [forallb] in Hs. apply andb_true_iff in Hs as [Hc Hs].
  cbn [cl_acc fold_left] in *. unfold isdigit in Hc. replace ((c <? 48) || (c >? 57)) with false by lia.
  assert (v * 10 + (c - 48) <= fold_left (fun v c => v * 10 + (c - 48)) s (v * 10 + (c - 48))).
  { rewrite Scan.digits_val_acc. pose proof (Scan.digits_val_nonneg s Hs).
    assert (1 <= 10 ^ zlen s) by (pose proof (Z.pow_pos_nonneg 10 (zlen s) ltac:(lia) (zlen_nonneg s)); lia). nia. }
  replace (v * 10 + (c - 48) >? HTTPS_MAX_RESP) with false by lia. apply IH; [done|lia|done].
Qed.

Lemma cl_acc_dec n : 0 <= n <= HTTPS_MAX_RESP -> cl_acc (Scan.dec_str n) 0 = n.
Proof.
  intros Hn. destruct (Scan.dec_str_spec n) as (Hd & Hv & _); [unfold HTTPS_MAX_RESP in Hn; lia|].
  rewrite cl_acc_digits; [done|done|lia|]. fold (Scan.digits_val (Scan.dec_str n)). lia.
Qed.

(** ** Whole responses *)

Lemma find_sub_skip needle l r :
  none (Z.eqb 13) l ->
  find_sub (13 :: needle) (l ++ r) = match find_sub (13 :: needle) r with Some i => Some (zlen l + i) | None => None end.
Proof.
  induction 1 as [|c l Hc _ IH]; cbn [app].
  - by destruct (find_sub (13 :: needle) r).
  - cbn [find_sub]. replace (beq (take (length (13 :: needle)) (c :: l ++ r)) (13 :: needle)) with false
      by (symmetry; apply beq_false; cbn; intros [= -> _]; done).
    rewrite IH. destruct (find_sub (13 :: needle) r); [|done]. rewrite zlen_cons. f_equal. lia.
Qed.

Lemma find_term_plain ls t :
  ls <> [] -> Forall (fun l => none is_eol l /\ l <> []) ls -> find_sub (CRLF ++ CRLF) (crlf_lines ls ++ CRLF ++ t) = Some (zlen (crlf_lines ls) - 2).
Proof.
  intros Hne Hls. induction Hls as [|l ls [Hl _] Hls IH]; [done|].
  change (crlf_lines (l :: ls)) with ((l ++ CRLF) ++ crlf_lines ls). rewrite <- !app_assoc.
  change (CRLF ++ CRLF) with (13 :: [10; 13; 10]). rewrite find_sub_skip by (by apply eol_lf).
  destruct Hls as [|[|c r] ls' [Hl' Hne'] Hls']; [|done|].
  - change (crlf_lines []) with (@nil Z). cbn [app CRLF find_sub].
    replace (beq _ _) with true by (by vm_compute). f_equal. zl. lia.
  - inversion Hl' as [|? ? Hc _]; subst. specialize (IH ltac:(done)).
    set (T := crlf_lines ((c :: r) :: ls') ++ CRLF ++ t) in *.
    assert (exists T', T = c :: T') as [T' ET] by (by eexists). change (CRLF ++ T) with (13 :: 10 :: T).
    cbn [find_sub]. rewrite ET. replace (beq (take _ (13 :: 10 :: c :: T')) _) with false
      by (symmetry; apply beq_false; cbn; intros [= -> _]; done).
    replace (beq (take _ (10 :: c :: T')) _) with false by (symmetry; by apply beq_false). rewrite <- ET.
    change (13 :: [10; 13; 10]) with (CRLF ++ CRLF). rewrite IH. f_equal. rewrite !zlen_app. change (zlen CRLF) with 2. lia.
Qed.

Lemma find_term ls t :
  ls <> [] -> Forall line_ok ls -> find_sub (CRLF ++ CRLF) (crlf_lines ls ++ CRLF ++ t) = Some (zlen (crlf_lines ls) - 2).
Proof.
  intros Hne Hls. apply find_term_plain; [done|]. eapply Forall_impl; [done|]. by intros l (? & _ & c & r & -> & _).
Qed.

Lemma cstr_of_app a b : cstr_ok a -> cstr (a ++ b) = a ++ cstr b.
Proof. induction 1 as [|c a Hc _ IH]; [done|]. cbn [app cstr]. replace (c =? 0) with false by lia. by rewrite IH. Qed.

Lemma crlf_lines_cstr ls : Forall line_ok ls -> cstr_ok (crlf_lines ls).
Proof.
  induction 1 as [|l ls (_ & Hl & _) _ IH]; [constructor|]. apply Forall_app_2; [|done]. apply Forall_app_2; [done|].
  by repeat constructor.
Qed.

(** [HTTP/1.x code reason]. *)
Definition status_line (x : bytes) (code : Z) (reason : bytes) : bytes :=
  lit "HTTP/1." ++ x ++ [32] ++ Scan.dec_str code ++ reason.

Definition reply (x : bytes) (code : Z) (reason : bytes) (hs : list bytes) (body : bytes) : bytes :=
  crlf_lines (status_line x code reason :: hs) ++ CRLF ++ body.

Record reply_ok (x : bytes) (code : Z) (reason : bytes) (hs : list bytes) : Prop := {
  ro_version : none (Z.eqb 32) x;
  ro_code : 100 <= code <= 999;
  ro_line : line_ok (status_line x code reason);
  ro_reason : isdigit (hd 0 reason) = false;
  ro_hs : hs <> [] /\ Forall line_ok hs
}.

Section Reply.
Variables (x reason : bytes) (code : Z) (hs : list bytes) (body : bytes).
Hypothesis Hr : reply_ok x code reason hs.
Abbreviation st := (status_line x code reason).
Abbreviation d := (reply x code reason hs body).

Lemma reply_lines : Forall line_ok (st :: hs).
Proof. destruct Hr as [_ _ Hl _ [_ Hh]]. by constructor. Qed.

Lemma reply_status : https_resp_status d = code.
Proof.
  destruct Hr as [Hx Hc Hl Hrs _]. destruct Hl as (Hn & Hcs & _).
  assert (d = lit "HTTP/1." ++ x ++ 32 :: Scan.dec_str code ++ reason ++ CRLF ++ crlf_lines hs ++ CRLF ++ body) as Ed
    by (unfold reply, status_line, crlf_lines; cbn [map concat]; by rewrite <- !app_assoc).
  destruct (Scan.dec_str_spec code) as (Hd & Hv & Hne & _); [lia|].
  unfold https_resp_status. replace (skipw _ d) with d by (by rewrite Ed). cbn zeta.
  assert ((zlen d <? 7) = false) as ->.
  { rewrite Ed, zlen_app. change (zlen (lit "HTTP/1.")) with 7. pose proof (zlen_nonneg (x ++ 32 :: Scan.dec_str code ++ reason ++ CRLF ++ crlf_lines hs ++ CRLF ++ body)). lia. }
  assert (beq (take 7 d) (lit "HTTP/1.") = true) as -> by (rewrite Ed; by apply beq_true). cbn [negb orb].
  rewrite Ed, app_assoc, from_app; [|apply Forall_app_2; [by apply (bool_decide_unpack _); vm_compute|done]|done].
  set (tl := reason ++ CRLF ++ crlf_lines hs ++ CRLF ++ body).
  assert (cstr_ok (Scan.dec_str code)) as Hdc.
  { apply Forall_forall. intros c Hin. rewrite forallb_forall in Hd. apply list_elem_of_In in Hin.
    specialize (Hd c Hin). unfold isdigit in Hd. lia. }
  rewrite cstr_of_app by done. rewrite Scan.strtol_digits; [|done|done|].
  - rewrite Hv. replace (code >? Scan.LLONG_MAX) with false by (unfold Scan.LLONG_MAX; lia).
    replace (zlen (cstr tl) =? zlen (Scan.dec_str code ++ cstr tl)) with false.
    + replace (code <? 100) with false by lia. by replace (code >? 999) with false by lia.
    + symmetry. rewrite zlen_app. apply Z.eqb_neq. destruct (Scan.dec_str code); [done|]. zl. pose proof (zlen_nonneg l). lia.
  - unfold tl. destruct reason as [|c r]; [done|]. cbn [app cstr]. destruct (c =? 0); [done|]. done.
Qed.

Lemma crlf_lines_len l : 0 <= zlen (crlf_lines l).
Proof. apply zlen_nonneg. Qed.

Lemma reply_bodies : https_hdr_body d = (zlen st + 2, zlen (crlf_lines (st :: hs)) + 2).
Proof.
  pose proof reply_lines as Hl. unfold https_hdr_body, strstr.
  assert (cstr d = crlf_lines (st :: hs) ++ CRLF ++ cstr body) as ->.
  { unfold reply. rewrite cstr_of_app by (by apply crlf_lines_cstr). f_equal. }
  rewrite find_term by done. set (H := crlf_lines (st :: hs)).
  assert (H = st ++ 13 :: 10 :: crlf_lines hs) as EH by (unfold H, crlf_lines; cbn [map concat]; by rewrite <- app_assoc).
  assert (3 <= zlen (crlf_lines hs)) as Hh.
  { destruct Hr as [_ _ _ _ [Hne Hok]]. destruct Hok as [|l ls (_ & _ & c & r & -> & _) _]; [done|].
    unfold crlf_lines. cbn [map concat]. rewrite !zlen_app, zlen_cons. change (zlen CRLF) with 2.
    pose proof (zlen_nonneg r). pose proof (zlen_nonneg (concat (map (fun l => l ++ CRLF) ls))). lia. }
  assert (zlen H = zlen st + 2 + zlen (crlf_lines hs)) as LH by (rewrite EH; zl; lia).
  assert (exists t, take (Z.to_nat (zlen H - 2)) d = (st ++ [13]) ++ 10 :: t) as [t Et].
  { assert (length (st ++ CRLF) <= Z.to_nat (zlen H - 2))%nat as Hle by (rewrite length_app; change (length CRLF) with 2%nat; clearbody H; unfold zlen in *; lia).
    revert Hle. generalize (Z.to_nat (zlen H - 2)). intros n Hle. unfold reply. fold H. rewrite EH.
    replace ((st ++ 13 :: 10 :: crlf_lines hs) ++ CRLF ++ body) with ((st ++ [13; 10]) ++ crlf_lines hs ++ CRLF ++ body)
      by (by rewrite <- !app_assoc).
    rewrite take_app_ge by done. generalize (take (n - length (st ++ [13; 10])) (crlf_lines hs ++ CRLF ++ body)). intros t.
    exists t. by rewrite <- !app_assoc. }
  rewrite Et. destruct Hr as [_ _ (Hn & _) _ _].
  rewrite upto_app; [|apply Forall_app_2; [by apply eol_lf|by repeat constructor]|done].
  assert ((zlen (st ++ [13]) <? zlen ((st ++ [13]) ++ 10 :: t)) = true) as -> by (rewrite (zlen_app _ (10 :: t)); zl; pose proof (zlen_nonneg t); lia).
  rewrite zlen_app. change (zlen [13]) with 1. f_equal; lia.
Qed.

Lemma reply_slices :
  rdn d (zlen st + 2) (zlen (crlf_lines hs) + 2) = Ret (crlf_lines hs ++ CRLF) /\
  rdn d (zlen (crlf_lines (st :: hs)) + 2) (zlen body) = Ret body /\ zlen d = zlen (crlf_lines (st :: hs)) + 2 + zlen body.
Proof.
  pose proof (zlen_nonneg st). pose proof (zlen_nonneg (crlf_lines hs)). pose proof (zlen_nonneg body).
  assert (zlen (crlf_lines (st :: hs)) = zlen st + 2 + zlen (crlf_lines hs)) as L
    by (unfold crlf_lines; cbn [map concat]; rewrite !zlen_app; change (zlen CRLF) with 2; lia).
  assert (d = (st ++ CRLF) ++ (crlf_lines hs ++ CRLF) ++ body) as Ed
    by (unfold reply; change (crlf_lines (st :: hs)) with ((st ++ CRLF) ++ crlf_lines hs); by rewrite <- !app_assoc).
  assert (zlen d = zlen (crlf_lines (st :: hs)) + 2 + zlen body) as Ld
    by (unfold reply; rewrite !zlen_app; change (zlen CRLF) with 2; lia).
  split; [|split; [|done]]; rewrite rdn_ok by lia; f_equal.
  - rewrite Ed. apply slice_app_mid; rewrite ?zlen_app; change (zlen CRLF) with 2; lia.
  - unfold reply. rewrite app_assoc. rewrite <- (app_nil_r body) at 1. apply slice_app_mid; rewrite ?zlen_app; change (zlen CRLF) with 2; lia.
Qed.

Lemma reply_parse :
  zlen d < 2 ^ 64 ->
  https_resp_parse d =
  match https_hdr_value (crlf_lines hs ++ CRLF) (lit "transfer-encoding") with
  | Some v => if https_te_is_chunked v then let! r := chunk_decode body in Ret (code, r)
              else let! _ := https_log_san v HTTPS_LOG_SAN_MAX in Ret (code, None)
  | None =>
      let cl := https_content_length (crlf_lines hs ++ CRLF) in
      if cl <? 0 then Ret (code, Some body)
      else if zlen body <? cl then Ret (code, None) else let! b := rdn body 0 cl in Ret (code, Some b)
  end.
Proof.
  intros Hz. destruct Hr as [_ Hc _ _ _]. destruct reply_slices as (E1 & E2 & E3). pose proof (zlen_nonneg body).
  assert (zlen (crlf_lines (st :: hs)) = zlen st + 2 + zlen (crlf_lines hs)) as L
    by (unfold crlf_lines; cbn [map concat]; rewrite !zlen_app; change (zlen CRLF) with 2; lia).
  pose proof (zlen_nonneg (crlf_lines hs)). pose proof (zlen_nonneg st). unfold https_resp_parse. rewrite reply_status, reply_bodies.
  replace (code <? 0) with false by lia. replace (zlen (crlf_lines (st :: hs)) + 2 >? zlen st + 2) with true by lia.
  replace (zlen (crlf_lines (st :: hs)) + 2 - (zlen st + 2)) with (zlen (crlf_lines hs) + 2) by lia. rewrite E1. cbn [rbind].
  replace (u64 (zlen d - (zlen (crlf_lines (st :: hs)) + 2))) with (zlen body) by (rewrite u64_small; lia). rewrite E2. done.
Qed.

End Reply.

(** ** Sanitised log copies *)

Lemma continuation c : is_byte c -> (Z.land c 192 =? 128) = ((128 <=? c) && (c <=? 191)).
Proof.
  intros Hc. apply eqb_prop.
  apply (below_spec 256 (fun c => eqb (Z.land c 192 =? 128) ((128 <=? c) && (c <=? 191)))); [by vm_compute|done].
Qed.

Lemma utf8_seq_spec d :
  bytes_ok d -> d <> [] ->
  exists n, https_utf8_seq d = Ret n /\
    (n = 0 \/ (2 <= n <= 4 /\ n <= zlen d /\ 194 <= d.[0] <= 244 /\ (d.[0] <= 223 -> n = 2) /\
       forall i, 1 <= i < n -> 128 <= d.[i] <= 191)).
Proof.
  intros Hd Hne. assert (0 < zlen d) as Hl by (destruct d as [|x d]; [done|]; pose proof (zlen_nonneg d); zlia).
  unfold https_utf8_seq. rewrite rd_ok by lia. cbn [rbind].
  set (t := if _ : bool then _ else _).
  assert (t = None \/ exists n lo hi, t = Some (n, lo, hi) /\ 2 <= n <= 4 /\
    194 <= d.[0] <= 244 /\ (d.[0] <= 223 -> n = 2)) as [-> |(n & lo & hi & -> & Hn & H0 & H02)].
  { unfold t. destruct ((d.[0] >=? 194) && _) eqn:E1; [right; do 3 eexists; split; [done|lia]|].
    destruct ((d.[0] >=? 224) && _) eqn:E2; [right; do 3 eexists; split; [done|lia]|].
    destruct ((d.[0] >=? 240) && _) eqn:E3; [right; do 3 eexists; split; [done|lia]|]. by left. }
  { exists 0. split; [done|by left]. }
  pose proof (fun i => at_byte d i Hd) as B.
  destruct (zlen d <? 2) eqn:E2; [exists 0; split; [done|by left]|]. rewrite rd_ok by lia. cbn [rbind].
  destruct (negb (Z.land d.[1] 192 =? 128) || (d.[1] <? lo) || (d.[1] >? hi)) eqn:C1; [exists 0; split; [done|by left]|].
  rewrite continuation in C1 by apply B. assert (128 <= d.[1] <= 191) as H1 by lia.
  destruct (n >=? 3) eqn:N3; cbn [andb].
  - destruct (zlen d <? 3) eqn:E3; [exists 0; split; [done|by left]|]. rewrite rd_ok by lia. cbn [rbind].
    destruct (negb (Z.land d.[2] 192 =? 128)) eqn:C2; [exists 0; split; [done|by left]|].
    rewrite continuation in C2 by apply B. assert (128 <= d.[2] <= 191) as H2 by lia.
    destruct (n >=? 4) eqn:N4; cbn [andb].
    + destruct (zlen d <? 4) eqn:E4; [exists 0; split; [done|by left]|]. rewrite rd_ok by lia. cbn [rbind].
      destruct (negb (Z.land d.[3] 192 =? 128)) eqn:C3; [exists 0; split; [done|by left]|].
      rewrite continuation in C3 by apply B. exists n. split; [done|]. right. split_and!; try lia. intros i Hi.
      assert (i = 1 \/ i = 2 \/ i = 3) as [-> |[-> | ->]] by lia; lia.
    + cbn [rbind]. exists n. split; [done|]. right. split_and!; try lia. intros i Hi.
      assert (i = 1 \/ i = 2) as [-> | ->] by lia; lia.
  - cbn [rbind]. replace (n >=? 4) with false by lia. cbn [andb rbind]. exists n. split; [done|]. right.
    split_and!; try lia. intros i Hi. assert (i = 1) as -> by lia. lia.
Qed.

(** No C0 control, DEL or C1 control (in its UTF-8 form); [open_end]: nothing appended
    later can complete one. *)
Definition clean (l : bytes) : Prop :=
  forall i, 0 <= i < zlen l -> 32 <= l.[i] /\ l.[i] <> 127 /\ ~ (l.[i] = 194 /\ 128 <= l.[i + 1] <= 159).
Definition open_end (l : bytes) : Prop := forall r c, l = r ++ [c] -> c <> 194.

Lemma clean_app a b : clean a -> open_end a -> clean b -> clean (a ++ b).
Proof.
  intros Ha He Hb i Hi. rewrite zlen_app in Hi. destruct (decide (i < zlen a)).
  - rewrite at_app_l by lia. destruct (Ha i ltac:(lia)) as (H1 & H2 & H3). split; [done|]. split; [done|].
    intros [H4 H5]. destruct (decide (i + 1 < zlen a)); [rewrite at_app_l in H5 by lia; by apply H3|].
    destruct (rev a) as [|c r] eqn:E; [apply (f_equal (@rev Z)) in E; rewrite rev_involutive in E; change (rev []) with (@nil Z) in E; subst a; rewrite zlen_nil in *; lia|].
    assert (a = rev r ++ [c]) as Ea by (by rewrite <- (rev_involutive a), E). apply (He _ _ Ea).
    rewrite <- H4, Ea. rewrite Ea, zlen_app in *. change (zlen [c]) with 1 in *. rewrite at_app_r by lia.
    by replace (i - zlen (rev r)) with 0 by lia.
  - rewrite !at_app_r by lia. replace (i + 1 - zlen a) with (i - zlen a + 1) by lia. apply Hb. lia.
Qed.

Lemma open_end_app a b : b <> [] -> open_end b -> open_end (a ++ b).
Proof.
  intros Hb He r c E. destruct (rev b) as [|x q] eqn:Eb; [apply (f_equal (@rev Z)) in Eb; by rewrite rev_involutive in Eb|].
  assert (b = rev q ++ [x]) as Ex by (by rewrite <- (rev_involutive b), Eb). rewrite Ex, app_assoc in E.
  apply app_inj_tail in E as [_ <-]. by apply (He _ _ Ex).
Qed.

Lemma clean_one c : 32 <= c < 127 -> clean [c] /\ open_end [c] /\ [c] <> [].
Proof.
  intros Hc. split; [|split; [|done]].
  - intros i Hi. change (zlen [c]) with 1 in Hi. assert (i = 0) as -> by lia. change ([c].[0]) with c. lia.
  - intros [|x [|y r]] z E; [|done|done]. injection E as ->. lia.
Qed.

(** A multi-byte sequence other than a C1 control. *)
Lemma clean_seq l n :
  zlen l = n -> 2 <= n <= 4 -> 194 <= l.[0] <= 244 -> (forall i, 1 <= i < n -> 128 <= l.[i] <= 191) ->
  ~ (n = 2 /\ l.[0] = 194 /\ 128 <= l.[1] <= 159) -> (l.[0] <= 223 -> n = 2) -> clean l /\ open_end l /\ l <> [].
Proof.
  intros Hl Hn H0 Hc Hn1 H2. split; [|split].
  - intros i Hi. destruct (decide (i = 0)) as [->|]; [|specialize (Hc i ltac:(lia)); lia].
    split; [lia|]. split; [lia|]. intros [E1 E2]. apply Hn1. split; [apply H2; lia|done].
  - intros r c ->. rewrite zlen_app in Hl. change (zlen [c]) with 1 in Hl. specialize (Hc (zlen r) ltac:(lia)).
    rewrite at_app_r, Z.sub_diag in Hc by lia. change ([c].[0]) with c in Hc. lia.
  - intros ->. rewrite zlen_nil in Hl. lia.
Qed.

Lemma store_ok outsz out l : zlen out + zlen l <= outsz -> store outsz out l = Ret (out ++ l).
Proof. intros H. unfold store. by replace (_ <=? outsz) with true by lia. Qed.

Lemma open_end_nil : open_end [].
Proof. intros r c E. by apply app_cons_not_nil in E. Qed.

Lemma clean_nil : clean [].
Proof. intros i Hi. change (zlen []) with 0 in Hi. lia. Qed.

Lemma san_loop_spec budget outsz : 0 <= budget <= outsz -> forall fuel d out,
  (length d < fuel)%nat -> bytes_ok d -> clean out -> open_end out -> zlen out <= budget ->
  exists rest out', san_loop fuel budget outsz d out = Ret (rest, out') /\
    clean out' /\ open_end out' /\ zlen out' <= budget /\ rest `suffix_of` d.
Proof.
  intros Hb. induction fuel as [|fuel IH]; intros d out Hf Hd Hc Ho Hz; [lia|]. cbn [san_loop].
  destruct ((zlen d =? 0) || (zlen out >=? budget)) eqn:E0; [by exists d, out|].
  assert (d <> []) as Hne by (intros ->; cbn in E0; done). assert (0 < zlen d) as Hl by (pose proof (zlen_nonneg d); lia).
  rewrite rd_ok by lia. cbn [rbind]. destruct (utf8_seq_spec d Hd Hne) as (n & -> & Hn). cbn [rbind].
  assert (Hnext : forall k l, 1 <= k <= zlen d -> zlen out + zlen l <= budget -> clean l -> open_end l -> l <> [] ->
    exists rest out', (let! o := store outsz out l in san_loop fuel budget outsz (drop (Z.to_nat k) d) o) = Ret (rest, out') /\
      clean out' /\ open_end out' /\ zlen out' <= budget /\ rest `suffix_of` d).
  { intros k l Hk Hlen Hcl Hol Hnl. rewrite store_ok by lia. cbn [rbind].
    destruct (IH (drop (Z.to_nat k) d) (out ++ l)) as (rest & out' & -> & H1 & H2 & H3 & H4).
    - rewrite length_drop. unfold zlen in *. lia.
    - by apply bytes_ok_drop.
    - by apply clean_app.
    - by apply open_end_app.
    - rewrite zlen_app. lia.
    - exists rest, out'. split_and!; try done. etransitivity; [done|]. apply suffix_drop. }
  destruct (n >=? 2) eqn:E2.
  - destruct Hn as [->|(Hn & Hnd & H0 & H02 & Hcont)]; [done|].
    destruct (zlen out + n >? budget) eqn:E3; [by exists d, out|]. rewrite rd_ok by lia. cbn [rbind].
    destruct ((n =? 2) && (d.[0] =? 194) && (d.[1] >=? 128) && (d.[1] <=? 159)) eqn:E4.
    + destruct (clean_one 63 ltac:(lia)) as (? & ? & ?). apply (Hnext n [63]); try done; [lia|]. change (zlen [63]) with 1. lia.
    + rewrite rdn_ok by lia. cbn [rbind]. assert (zlen (slice d 0 n) = n) as Ls by (apply zlen_slice; lia).
      destruct (clean_seq (slice d 0 n) n) as (? & ? & ?); try done; try (rewrite at_slice by lia; done).
      * intros i Hi. rewrite at_slice by lia. by apply Hcont.
      * rewrite !at_slice by lia. change (0 + 0) with 0. change (0 + 1) with 1. lia.
      * apply (Hnext n (slice d 0 n)); try done; lia.
  - set (c := if _ : bool then 63 else d.[0]).
    assert (32 <= c < 127) as Hc1 by (unfold c; destruct ((d.[0] =? 0) || (d.[0] <? 32) || (d.[0] >=? 127)) eqn:?; lia).
    destruct (clean_one c Hc1) as (? & ? & ?). change 1%nat with (Z.to_nat 1). apply (Hnext 1 [c]); try done; [lia|].
    change (zlen [c]) with 1. lia.
Qed.

Lemma log_san_safe d outsz :
  bytes_ok d -> 0 < outsz ->
  exists out, https_log_san d outsz = Ret (Some (out ++ [0])) /\ zlen out < outsz /\ clean out.
Proof.
  intros Hd Hs. unfold https_log_san. replace (outsz =? 0) with false by lia.
  set (budget := if outsz >? 4 then outsz - 4 else 0).
  assert (0 <= budget /\ (budget = 0 \/ budget = outsz - 4) /\ budget < outsz) as (Hb & Hb4 & Hbo)
    by (unfold budget; destruct (outsz >? 4) eqn:?; lia).
  destruct (san_loop_spec budget outsz ltac:(lia) (S (length d)) d []) as (rest & out & -> & Hc & Ho & Hz & _);
    [lia|done|apply clean_nil|apply open_end_nil|done|].
  cbn [rbind]. destruct ((zlen rest >? 0) && (outsz >=? 4)) eqn:E.
  - change (zlen (lit "...")) with 3 in *. rewrite store_ok by (change (zlen (lit "...")) with 3; lia). cbn [rbind].
    assert (zlen (out ++ lit "...") = zlen out + 3) as L by (rewrite zlen_app; reflexivity).
    rewrite store_ok by (rewrite L; change (zlen [0]) with 1; lia). cbn [rbind]. eexists; split; [done|]. split; [lia|].
    apply clean_app; [done|done|]. intros i Hi. change (zlen (lit "...")) with 3 in Hi.
    assert (i = 0 \/ i = 1 \/ i = 2) as [-> |[-> | ->]] by lia; (split; [by vm_compute|split; [by vm_compute|intros [E2 _]; by vm_compute in E2]]).
  - cbn [rbind]. rewrite store_ok by (change (zlen [0]) with 1; lia). cbn [rbind]. eexists; split; [done|]. split; [lia|done].
Qed.

(** ** Main theorems *)

Lemma hdr_body_range d : let '(h, b) := https_hdr_body d in 0 <= h <= b /\ b <= zlen d.
Proof.
  assert (forall l : bytes, zlen (upto (Z.eqb 10) l) <= zlen l) as Hu.
  { intros l. rewrite <- (upto_from (Z.eqb 10) l) at 2. rewrite zlen_app. pose proof (zlen_nonneg (from (Z.eqb 10) l)). lia. }
  assert (forall l : bytes, zlen (cstr l) <= zlen l) as Hc.
  { induction l as [|c l IH]; cbn [cstr]; [done|]. destruct (c =? 0); zl; pose proof (zlen_nonneg l); lia. }
  assert (forall needle i, needle <> [] -> strstr d needle = Some i -> 0 <= i /\ i + zlen needle <= zlen d) as Hs.
  { intros needle i Hne E. apply find_sub_Some in E as (Hi & Ho & _). apply occ_len in Ho; [|done]. specialize (Hc d). unfold zlen in *. lia. }
  unfold https_hdr_body. destruct (strstr d (CRLF ++ CRLF)) as [i|] eqn:E1; [|destruct (strstr d [10; 10]) as [i|] eqn:E2].
  - apply Hs in E1 as [Hi Hl]; [|done]. change (zlen (CRLF ++ CRLF)) with 4 in Hl. specialize (Hu (take (Z.to_nat i) d)).
    rewrite zlen_take in *. pose proof (zlen_nonneg (upto (Z.eqb 10) (take (Z.to_nat i) d))). destruct (_ <? _) eqn:?; lia.
  - apply Hs in E2 as [Hi Hl]; [|done]. change (zlen [10; 10]) with 2 in Hl. specialize (Hu (take (Z.to_nat i) d)).
    rewrite zlen_take in *. pose proof (zlen_nonneg (upto (Z.eqb 10) (take (Z.to_nat i) d))). destruct (_ <? _) eqn:?; lia.
  - specialize (Hu d). pose proof (zlen_nonneg d). pose proof (zlen_nonneg (upto (Z.eqb 10) d)). destruct (_ <? _) eqn:?; lia.
Qed.

Lemma bytes_ok_skipw f d : bytes_ok d -> bytes_ok (skipw f d).
Proof. intros H. destruct (skipw_split f d) as (a & E & _). rewrite E in H. by apply Forall_app in H as [_ ?]. Qed.

Lemma bytes_ok_from f d : bytes_ok d -> bytes_ok (from f d).
Proof. intros H. rewrite <- (upto_from f d) in H. by apply Forall_app in H as [_ ?]. Qed.

Lemma lf_lines_ok d : forall cur, bytes_ok cur -> bytes_ok d -> Forall bytes_ok (lf_lines cur d).
Proof.
  induction d as [|c d IH]; intros cur Hc Hd; cbn [lf_lines]; [destruct (_ =? _); [constructor|by repeat constructor]|].
  inversion Hd; subst. destruct (c =? 10); [constructor; [done|by apply IH; [constructor|]]|].
  apply IH; [|done]. apply Forall_app_2; [done|by constructor].
Qed.

Lemma hdr_loop_ok name ls : forall val m, bytes_ok val -> Forall bytes_ok ls -> bytes_ok (hdr_loop name ls val m).
Proof.
  induction ls as [|l ls IH]; intros val m Hv Hls; cbn [hdr_loop]; [done|]. inversion Hls as [|? ? Hl Hls']; subst.
  assert (bytes_ok (strip_cr l)) as Hl'.
  { unfold strip_cr. destruct (rev l) as [|c r] eqn:E; [constructor|]. destruct (c =? 13); [|done].
    assert (l = rev r ++ [c]) as -> by (by rewrite <- (rev_involutive l), E). by apply Forall_app in Hl as [? _]. }
  destruct (strip_cr l) as [|c r]; [done|]. destruct (is_lws c).
  - apply IH; [|done]. destruct m; [|done]. apply Forall_app_2; [done|]. apply Forall_app_2; [by repeat constructor|]. by apply bytes_ok_skipw.
  - pose proof (bytes_ok_from (Z.eqb 58) (c :: r) Hl') as Hf. destruct (from (Z.eqb 58) (c :: r)) as [|x v]; [by apply IH|].
    inversion Hf; subst. destruct (_ && _); [|by apply IH]. apply IH; [|done]. apply Forall_app_2; [|by apply bytes_ok_skipw].
    destruct (_ =? _); [done|]. apply Forall_app_2; [done|by repeat constructor].
Qed.

Lemma hdr_value_ok d name v : bytes_ok d -> https_hdr_value d name = Some v -> bytes_ok v.
Proof.
  intros Hd. unfold https_hdr_value.
  pose proof (hdr_loop_ok name (lf_lines [] d) [] false ltac:(constructor) (lf_lines_ok d [] ltac:(constructor) Hd)) as Hv.
  destruct (hdr_loop _ _ _ _) as [|c r]; [done|]. intros [= <-]. unfold rtrim. apply Forall_rev, bytes_ok_skipw. by apply Forall_rev.
Qed.

(** [https_resp_parse] returns on every response. *)
Lemma resp_parse_total d : bytes_ok d -> zlen d < 2 ^ 64 -> no_fault (https_resp_parse d).
Proof.
  intros Hd Hz. unfold https_resp_parse. destruct (_ <? 0); [by eexists|].
  pose proof (hdr_body_range d) as Hr. destruct (https_hdr_body d) as [h b]. destruct Hr as [Hh Hb].
  assert (bytes_ok (slice d h (if b >? h then b - h else 0))) as Hs by (by apply bytes_ok_slice).
  rewrite rdn_ok by (destruct (b >? h) eqn:?; lia). cbn [rbind]. rewrite u64_small by lia. rewrite rdn_ok by lia. cbn [rbind].
  destruct (https_hdr_value _ _) as [v|] eqn:Ev.
  - destruct (https_te_is_chunked v).
    + destruct (chunk_decode_total (slice d b (zlen d - b))) as [r ->]. by eexists.
    + destruct (log_san_safe v HTTPS_LOG_SAN_MAX) as (o & -> & _); [by eapply hdr_value_ok|done|]. by eexists.
  - set (cl := https_content_length _). set (tl := slice d b (zlen d - b)).
    destruct (cl <? 0) eqn:E; [by eexists|]. destruct (zlen tl <? cl) eqn:E2; [by eexists|].
    rewrite rdn_ok by lia. by eexists.
Qed.

(** Counted responses are read exactly.  On every response the parser stays in bounds
    and returns.  For a response of a status line, any header lines without a
    Transfer-Encoding field and a first Content-Length of [n], followed by the header end and
    a body, the client gets the status and exactly the first [n] bytes of the body, whatever
    bytes they are, and an error when fewer than [n] have come. *)
Theorem resp_parse_counted (d x reason : bytes) (code n : Z) (pre post : list bytes) (body : bytes) :
  let hs := pre ++ (lit "Content-Length: " ++ Scan.dec_str n) :: post in
  bytes_ok d -> zlen d < 2 ^ 64 ->
  reply_ok x code reason hs -> 0 <= n <= HTTPS_MAX_RESP -> zlen (reply x code reason hs body) < 2 ^ 64 ->
  Forall (fun l => hdr_match (lit "transfer-encoding") l = false) hs -> Forall (fun l => is_cl l = false) pre ->
  no_fault (https_resp_parse d) /\
  https_resp_parse (reply x code reason hs body) =
    Ret (code, if zlen body <? n then None else Some (take (Z.to_nat n) body)).
Proof.
  intros hs Hd Hz Hr Hn Hz2 Hte Hcl. split; [by apply resp_parse_total|]. rewrite reply_parse by done.
  destruct Hr as [_ _ _ _ [_ Hh]]. rewrite hdr_value_absent by done. cbn zeta.
  assert (https_content_length (crlf_lines hs ++ CRLF) = n) as ->.
  { unfold hs. rewrite content_length_first; [|by apply line_ok_none|done|].
    - change (drop 15 (lit "Content-Length: " ++ Scan.dec_str n)) with (32 :: Scan.dec_str n). cbn [skipw].
      change (is_lws 32) with true. cbn iota. rewrite <- (cl_acc_dec n Hn) at 2. f_equal.
      destruct (Scan.dec_str_spec n) as (Hdg & _ & Hne & _); [unfold HTTPS_MAX_RESP in Hn; lia|].
      destruct (Scan.dec_str n) as [|c r]; [done|]. apply skipw_head. cbn [forallb] in Hdg.
      apply andb_true_iff in Hdg as [Hc _]. unfold isdigit in Hc. unfold is_lws. lia.
    - unfold is_cl. rewrite strncaseeq_app by (by vm_compute). rewrite zlen_app.
      change (zlen (lit "Content-Length: ")) with 16. pose proof (zlen_nonneg (Scan.dec_str n)).
      by replace (16 + zlen (Scan.dec_str n) >=? 15) with true by lia. }
  replace (n <? 0) with false by lia. destruct (zlen body <? n) eqn:E; [done|]. rewrite rdn_ok by lia. cbn [rbind].
  unfold slice. change (Z.to_nat 0) with 0%nat. by rewrite drop_0.
Qed.

(** Chunked responses are decoded exactly, when no chunk opens with a line end.  For a
    response whose one Transfer-Encoding field is "chunked", a body of chunks (any sizes,
    digits in either case, extensions) closed by a zero chunk and anything after it decodes
    to the concatenation of the data, whatever the header says about a length. *)
Theorem resp_parse_chunked (x reason : bytes) (code : Z) (pre post : list bytes) (cs : list chunk) (zero ext trailer : bytes) :
  let hs := pre ++ (lit "Transfer-Encoding" ++ 58 :: lit " chunked") :: post in
  let body := concat (map chunk_enc cs) ++ zero ++ ext ++ CRLF ++ trailer in
  reply_ok x code reason hs -> zlen (reply x code reason hs body) < 2 ^ 64 ->
  Forall (fun l => hdr_match (lit "transfer-encoding") l = false) pre ->
  Forall (fun l => hdr_match (lit "transfer-encoding") l = false) post ->
  Forall chunk_ok cs -> Forall chunk_plain cs ->
  zero <> [] -> hex_parse_sz zero = 0 -> none is_eol ext -> (ext = [] \/ exists e, ext = 59 :: e) ->
  https_resp_parse (reply x code reason hs body) = Ret (code, Some (concat (map ck_data cs))).
Proof.
  intros hs body Hr Hz Hpre Hpost Hok Hp Hne Hs He Hx. rewrite reply_parse by done.
  destruct Hr as [_ _ _ _ [_ Hh]]. unfold hs in Hh |- *. rewrite hdr_value_once; [|done|done|done| |done|by vm_compute|done].
  - replace (https_te_is_chunked _) with true by (by vm_compute). unfold body, chunk_decode. rewrite chunk_loop_enc; try done.
    rewrite length_app. apply Nat.lt_succ_r. transitivity (length (concat (map chunk_enc cs))); [|lia].
    clear. induction cs as [|c cs IH]; [done|]. cbn [map concat length]. rewrite length_app. unfold chunk_enc at 1.
    rewrite !length_app. change (length CRLF) with 2%nat. lia.
  - apply (bool_decide_unpack _). vm_compute. exact I.
Qed.

(** A chunk whose data opens with a line end is not decoded.  The loop skips every CR
    and LF after the size line, not just one, so it eats the start of such data; whatever
    follows, the result is an error or a body that starts with a different byte. *)
Theorem chunk_leading_newline (size ext data rest out : bytes) (c : Z) :
  is_eol c = true -> hex_parse_sz size = zlen (c :: data) -> none is_eol ext -> (ext = [] \/ exists e, ext = 59 :: e) ->
  chunk_decode (size ++ ext ++ CRLF ++ (c :: data) ++ rest) <> Ret (Some (c :: out)).
Proof.
  intros Hc Hs He Hx. pose proof (zlen_nonneg data) as N. rewrite zlen_cons in Hs.
  destruct (size_line size ext ((c :: data) ++ rest)) as [E1 E2]; [lia|done|done|].
  unfold chunk_decode. cbn [chunk_loop]. rewrite E1, E2, Hs. destruct (_ =? 0); [done|].
  replace (1 + zlen data <? 0) with false by lia. replace (1 + zlen data =? 0) with false by lia.
  rewrite skip_crlf. set (j := skipw is_eol ((c :: data) ++ rest)). destruct (1 + zlen data >? zlen j) eqn:E; [done|].
  rewrite rdn_ok by lia. cbn [rbind app]. intros H. apply chunk_loop_keeps in H as [k Hk].
  destruct j as [|b j'] eqn:Ej; [rewrite zlen_nil in E; lia|].
  assert (slice (b :: j') 0 (1 + zlen data) = b :: slice j' 0 (zlen data)) as Esl.
  { unfold slice. replace (Z.to_nat (1 + zlen data)) with (S (Z.to_nat (zlen data))) by lia. done. }
  rewrite Esl in Hk. injection Hk as <- _. clear -Ej Hc. revert Ej. unfold j. generalize ((c :: data) ++ rest). intros s.
  induction s as [|y s IH]; cbn [skipw]; [done|]. destruct (is_eol y) eqn:Ey; [done|]. intros [= -> _]. congruence.
Qed.

Lemma sample_reply_ok hs : hs <> [] -> Forall line_ok hs -> reply_ok (lit "1") 200 (lit " OK") hs.
Proof.
  intros H1 H2. split; [apply (bool_decide_unpack _); vm_compute; exact I|lia| |done|done].
  split; [apply (bool_decide_unpack _); vm_compute; exact I|]. split; [apply (bool_decide_unpack _); vm_compute; exact I|].
  by eexists _, _.
Qed.

Lemma sample_line c r : bool_decide (none is_eol (c :: r)) = true -> bool_decide (cstr_ok (c :: r)) = true -> is_lws c = false -> line_ok (c :: r).
Proof. intros H1%bool_decide_eq_true H2%bool_decide_eq_true H3. split; [done|]. split; [done|]. by eexists _, _. Qed.

Lemma resp_parse_counted_witness :
  https_resp_parse (reply (lit "1") 200 (lit " OK") ([lit "Server: x"] ++ [lit "Content-Length: " ++ Scan.dec_str 3]) (lit "abcd"))
    = Ret (200, Some (lit "abc")).
Proof.
  refine (proj2 (resp_parse_counted [] (lit "1") (lit " OK") 200 3 [lit "Server: x"] [] (lit "abcd") _ _ _ _ _ _ _)).
  - constructor.
  - reflexivity.
  - apply sample_reply_ok; [discriminate|]. constructor; [apply sample_line; vm_compute; reflexivity|].
    constructor; [apply sample_line; vm_compute; reflexivity|constructor].
  - split; [discriminate|vm_compute; discriminate].
  - vm_compute. reflexivity.
  - constructor; [vm_compute; reflexivity|]. constructor; [vm_compute; reflexivity|constructor].
  - constructor; [vm_compute; reflexivity|constructor].
Defined.

Lemma resp_parse_chunked_witness :
  https_resp_parse (reply (lit "1") 200 (lit " OK") [lit "Transfer-Encoding" ++ 58 :: lit " chunked"]
    (concat (map chunk_enc [mk_chunk (lit "5") (lit ";a=b") (lit "hello")]) ++ lit "0" ++ [] ++ CRLF ++ CRLF)) = Ret (200, Some (lit "hello")).
Proof.
  refine (resp_parse_chunked (lit "1") (lit " OK") 200 [] [] [mk_chunk (lit "5") (lit ";a=b") (lit "hello")] (lit "0") [] CRLF _ _ _ _ _ _ _ _ _ _).
  - apply sample_reply_ok; [discriminate|]. constructor; [apply sample_line; vm_compute; reflexivity|constructor].
  - vm_compute. reflexivity.
  - constructor.
  - constructor.
  - constructor; [|constructor]. split; [discriminate|]. split; [vm_compute; reflexivity|].
    split; [apply (bool_decide_unpack _); vm_compute; exact I|]. right. eexists. reflexivity.
  - constructor; [|constructor]. eexists _, _. split; reflexivity.
  - discriminate.
  - vm_compute. reflexivity.
  - constructor.
  - left. reflexivity.
Defined.

Lemma chunk_leading_newline_witness :
  chunk_decode (lit "3" ++ [] ++ CRLF ++ (10 :: lit "ab") ++ CRLF ++ lit "0" ++ CRLF) = Ret (Some (lit "ab" ++ [13])) /\
  chunk_decode (lit "3" ++ [] ++ CRLF ++ (10 :: lit "ab") ++ CRLF ++ lit "0" ++ CRLF) <> Ret (Some (10 :: lit "ab")).
Proof.
  split; [vm_compute; reflexivity|].
  apply (chunk_leading_newline (lit "3") [] (lit "ab") (CRLF ++ lit "0" ++ CRLF) (lit "ab") 10).
  - reflexivity.
  - vm_compute. reflexivity.
  - constructor.
  - left. reflexivity.
Defined.

(** ** Requests *)

Lemma ctrl_in_spec s : http_ctrl_in s = true <-> exists c, c ∈ s /\ (c < 32 \/ c = 127).
Proof.
  unfold http_ctrl_in. rewrite existsb_exists. split; intros (c & Hc & H); exists c; rewrite list_elem_of_In in *; (split; [done|lia]).
Qed.

Lemma ctrl_free s : http_ctrl_in s = false -> none is_eol s.
Proof.
  intros H. apply Forall_forall. intros c Hc. unfold is_eol. destruct (decide (c = 13 \/ c = 10)); [|lia].
  assert (http_ctrl_in s = true); [|congruence]. apply ctrl_in_spec. exists c. split; [done|lia].
Qed.

Lemma fold_lines headers req : fold_left (fun r h => r ++ h ++ CRLF) headers req = req ++ crlf_lines headers.
Proof.
  revert req. induction headers as [|h hs IH]; intros req; cbn [fold_left]; [by rewrite app_nil_r|].
  rewrite IH. change (crlf_lines (h :: hs)) with ((h ++ CRLF) ++ crlf_lines hs). by rewrite <- !app_assoc.
Qed.

Lemma crlf_lines_app a b : crlf_lines (a ++ b) = crlf_lines a ++ crlf_lines b.
Proof. unfold crlf_lines. by rewrite map_app, concat_app. Qed.

(** The lines of a request head. *)
Definition request_lines (host path : bytes) (body : bytes) (headers : list bytes) (is_get : bool) : list bytes :=
  ((if is_get then lit "GET " else lit "POST ") ++ path ++ lit " HTTP/1.1") :: (lit "Host: " ++ host) :: lit "Connection: close" ::
  headers ++ (if is_get then [] else [lit "Content-Length: " ++ Scan.dec_str (zlen body)]).

Lemma request_lines_plain host path body headers is_get :
  none is_eol path -> none is_eol host -> Forall (fun h => none is_eol h /\ h <> []) headers -> zlen body < 2 ^ 64 ->
  Forall (fun l => none is_eol l /\ l <> []) (request_lines host path body headers is_get).
Proof.
  intros Hp Hh Hhs Hz. unfold request_lines.
  assert (forall s, bool_decide (none is_eol (lit s)) = true -> none is_eol (lit s)) as L by (intros s; apply bool_decide_eq_true).
  constructor; [split; [|by destruct is_get]|].
  { apply Forall_app_2; [destruct is_get; by apply L|]. apply Forall_app_2; [done|]. by apply L. }
  constructor; [split; [|done]; apply Forall_app_2; [by apply L|done]|]. constructor; [split; [by apply L|done]|].
  apply Forall_app_2; [done|]. destruct is_get; constructor; [|constructor]. split; [|done].
  apply Forall_app_2; [by apply L|]. destruct (Scan.dec_str_spec (zlen body)) as (Hd & _); [pose proof (zlen_nonneg body); lia|].
  apply Forall_forall. intros c Hc. rewrite forallb_forall in Hd. apply list_elem_of_In in Hc. specialize (Hd c Hc).
  unfold isdigit in Hd. unfold is_eol. lia.
Qed.

(** Requests cannot be split by their inputs.  The builder refuses exactly the paths,
    hosts and headers with a control character; otherwise the request is the request line,
    Host, Connection, the caller's header lines and (for POST) the length of the body, one
    per CRLF, then the first CRLFCRLF and the body.  No input can add a line, end the head
    early, or start a second request. *)
Theorem req_build_exact (host path : bytes) (body : option bytes) (headers : list bytes) (is_get : bool) :
  Forall (fun h => h <> []) headers -> zlen (default [] body) < 2 ^ 64 ->
  let lines := request_lines host path (default [] body) headers is_get in
  match https_req_build [] host path body headers is_get with
  | None => exists s c, s ∈ path :: host :: headers /\ c ∈ s /\ (c < 32 \/ c = 127)
  | Some r =>
      r = crlf_lines lines ++ CRLF ++ (if is_get then [] else default [] body) /\
      lf_lines [] (crlf_lines lines ++ CRLF) = map (fun l => l ++ [13]) lines ++ [[13]] /\
      find_sub (CRLF ++ CRLF) r = Some (zlen (crlf_lines lines) - 2)
  end.
Proof.
  intros Hne Hz. cbn zeta. unfold https_req_build.
  destruct (http_ctrl_in path) eqn:E1; [apply ctrl_in_spec in E1 as (c & Hc); exists path, c; split; [left|done]|].
  destruct (http_ctrl_in host) eqn:E2; [apply ctrl_in_spec in E2 as (c & Hc); exists host, c; split; [right; left|done]|].
  destruct (existsb http_ctrl_in headers) eqn:E3.
  { apply existsb_exists in E3 as (h & Hh & (c & Hc)%ctrl_in_spec). exists h, c. split; [|done].
    apply list_elem_of_In in Hh. by right; right. }
  assert (Forall (fun h => none is_eol h /\ h <> []) headers) as Hhs.
  { apply Forall_forall. intros h Hh. rewrite Forall_forall in Hne. split; [|by apply Hne]. apply ctrl_free.
    destruct (http_ctrl_in h) eqn:E; [|done]. assert (existsb http_ctrl_in headers = true); [|congruence].
    apply existsb_exists. exists h. by rewrite <- list_elem_of_In. }
  pose proof (request_lines_plain host path (default [] body) headers is_get (ctrl_free _ E1) (ctrl_free _ E2) Hhs Hz) as Hl.
  set (lines := request_lines host path (default [] body) headers is_get) in *.
  match goal with |- ?r = _ /\ _ => assert (r = crlf_lines lines ++ CRLF ++ (if is_get then [] else default [] body)) as -> end.
  { rewrite fold_lines. unfold lines, request_lines.
    change (crlf_lines (?a :: ?b :: ?c :: ?t)) with ((a ++ CRLF) ++ (b ++ CRLF) ++ (c ++ CRLF) ++ crlf_lines t).
    rewrite crlf_lines_app. destruct is_get; rewrite <- !app_assoc; cbn [app]; rewrite <- ?app_assoc.
    - change (crlf_lines []) with (@nil Z). rewrite !app_nil_r. by rewrite <- ?app_assoc.
    - change (crlf_lines [?x]) with ((x ++ CRLF) ++ []). by rewrite app_nil_r, <- ?app_assoc. }
  split; [done|]. split.
  - rewrite crlf_lines_lf; [done|]. eapply Forall_impl; [done|]. by intros l [? _].
  - apply find_term_plain; [done|done].
Qed.

Lemma req_build_exact_witness :
  exists r, https_req_build [] (lit "h") (lit "/p") (Some (lit "ab")) [lit "X: y"] false = Some r /\
    find_sub (CRLF ++ CRLF) r = Some (zlen (crlf_lines (request_lines (lit "h") (lit "/p") (lit "ab") [lit "X: y"] false)) - 2).
Proof.
  pose proof (req_build_exact (lit "h") (lit "/p") (Some (lit "ab")) [lit "X: y"] false) as H.
  destruct (https_req_build [] (lit "h") (lit "/p") (Some (lit "ab")) [lit "X: y"] false) as [r|] eqn:E; [|vm_compute in E; discriminate].
  exists r. split; [reflexivity|]. apply H; [constructor; [discriminate|constructor]|vm_compute; reflexivity].
Defined.

(** A query before the first slash is taken for a path: it is lost. *)
Lemma url_split_loses_query h q p :
  h <> [] -> none (fun c => (c =? 47) || (c =? 63) || (c =? 35)) h -> existsb (Z.eqb 64) h = false -> existsb (Z.eqb 58) h = false ->
  http_ctrl_in h = false -> none (Z.eqb 47) q -> none (Z.eqb 35) p -> http_ctrl_in p = false ->
  https_url_split (lit "https://" ++ h ++ 63 :: q ++ 47 :: p) = Some (h, 47 :: p).
Proof.
  intros Hne Hh H64 H58 Hc Hq Hp Hcp. unfold https_url_split. rewrite strncaseeq_app by (by vm_compute).
  change (strncaseeq (lit "https://") (lit "https://") 8) with true. cbn [negb].
  change (drop 8 (lit "https://" ++ ?x)) with x. rewrite upto_app by done.
  assert (none (Z.eqb 47) (h ++ 63 :: q)) as Hn.
  { apply Forall_app_2; [eapply Forall_impl; [done|]; intros c Hx; cbn beta in Hx; lia|by constructor]. }
  replace (h ++ 63 :: q ++ 47 :: p) with ((h ++ 63 :: q) ++ 47 :: p) by (by rewrite <- app_assoc).
  rewrite from_app by done. rewrite <- (app_nil_r h) at 1. rewrite nonempty_len by done. rewrite H64, H58, Hc.
  cbn [upto]. change (35 =? 47) with false. cbn iota. rewrite upto_all by done.
  change (http_ctrl_in (47 :: p)) with (http_ctrl_in p). by rewrite Hcp.
Qed.
