(* ===== verification/Lockout.v ===== *)
(** * Failed-login lockout (src/src/common/lockout.c, socks_auth_guard.c and the table
    of src/src/common/relay_proxy.c)

    A fixed table of records shared by both proxies.  The reference is a map from keys to
    records of bounded size with the documented eviction; every run of the table is a run
    of that map. *)

From S2P Require Import Prelude.

Definition LOCKOUT_KEY_MAX : Z := 16.

Record lockout_rec := mk_rec {
  l_key : bytes;
  fail : Z;
  first_fail_ms : Z;
  blocked_until_ms : Z;
  in_use : bool
}.

(** A slot after [memset(.., 0, ..)]. *)
Definition rec0 : lockout_rec := mk_rec (fill 0 16) 0 0 0 false.

(** [memcmp(r->key, key, klen) == 0] *)
Definition key_is (key : bytes) (r : lockout_rec) : bool := beq (take (length key) (l_key r)) key.

Definition rec_at (tbl : list lockout_rec) (i : nat) : lockout_rec := default rec0 (tbl !! i).

(** The scan of a failure: the record of the key, else the slot to take over. *)
Fixpoint pick (tbl l : list lockout_rec) (i : nat) (key : bytes) (now : Z) (oldest : option nat) (earliest : nat) : nat :=
  match l with
  | [] => default earliest oldest
  | r :: l =>
      if in_use r && key_is key r then i
      else
        let better := match oldest with
                      | None => true
                      | Some o => first_fail_ms r <? first_fail_ms (rec_at tbl o)
                      end in
        let oldest := if negb (in_use r) || ((blocked_until_ms r <=? now) && better) then Some i else oldest in
        let earliest := if first_fail_ms r <? first_fail_ms (rec_at tbl earliest) then i else earliest in
        pick tbl l (S i) key now oldest earliest
  end.

(** [now] is the reading of [now_ms()] the call takes; [max_fails] and [window_ms] come from
    the two callers (at most 100 and 86400000), so the [int] cast of the threshold is exact. *)
Definition lockout_note (tbl : list lockout_rec) (key : bytes) (success : bool) (max_fails window_ms now : Z)
    : list lockout_rec :=
  if zlen tbl <=? 0 then tbl
  else if (zlen key =? 0) || (zlen key >? LOCKOUT_KEY_MAX) then tbl
  else if success then
    match find_index (fun r => in_use r && key_is key r) tbl with
    | Some i => <[i := rec0]> tbl
    | None => tbl
    end
  else
    let e := pick tbl tbl 0 key now None 0 in
    let r := rec_at tbl e in
    if negb (in_use r) || negb (key_is key r) || (u64 (now - first_fail_ms r) >=? window_ms) then
      if in_use r && key_is key r && negb (blocked_until_ms r =? 0) && (blocked_until_ms r >? now)
      then <[e := mk_rec (l_key r) 1 now (blocked_until_ms r) true]> tbl
      else <[e := mk_rec (upd (fill 0 16) 0 key) 1 now (if 1 >=? max_fails then u64 (now + window_ms) else 0) true]> tbl
    else
      <[e := mk_rec (upd (l_key r) 0 key) (fail r + 1) (first_fail_ms r)
               (if fail r + 1 >=? max_fails then u64 (now + window_ms) else blocked_until_ms r) (in_use r)]> tbl.

Definition lockout_blocked (tbl : list lockout_rec) (key : bytes) (now : Z) : bool :=
  if (zlen key =? 0) || (zlen key >? LOCKOUT_KEY_MAX) then false
  else
    match find_index (fun r => negb (blocked_until_ms r =? 0) && key_is key r) tbl with
    | Some i => blocked_until_ms (rec_at tbl i) >? now
    | None => false
    end.

(** ** The two tables *)

Definition AUTH_FAIL_TRACK_MAX : nat := 16.
Definition RP_FAIL_TRACK_MAX : nat := 64.
Definition RP_FAIL_MAX : Z := 5.
Definition RP_FAIL_WINDOW_MS : Z := 60000.

(** [auth_fail_note] and [auth_fail_blocked]; [ip] is the address as stored in memory. *)
Definition auth_fail_note (tbl : list lockout_rec) (ip : bytes) (success : bool) (max window now : Z) : list lockout_rec :=
  lockout_note tbl ip success max window now.
Definition auth_fail_blocked (tbl : list lockout_rec) (ip : bytes) (now : Z) : bool := lockout_blocked tbl ip now.

(** The peer of a relay connection: the address bytes by family. *)
Inductive peer_addr :=
| Peer4 (a : bytes)
| Peer6 (a : bytes)
| PeerOther.

(** [rp_fail_key_of] followed by [rp_fail_key_bytes]. *)
Definition rp_fail_key_of (p : peer_addr) : option bytes :=
  match p with
  | Peer4 a => Some (0 :: upd (fill 0 8) 0 (take 4 a))
  | Peer6 a => Some (1 :: upd (fill 0 8) 0 (take 8 a))
  | PeerOther => None
  end.

Definition rp_fail_note (tbl : list lockout_rec) (key : option bytes) (success : bool) (now : Z) : list lockout_rec :=
  match key with
  | None => tbl
  | Some k => lockout_note tbl k success RP_FAIL_MAX RP_FAIL_WINDOW_MS now
  end.

Definition rp_fail_blocked (tbl : list lockout_rec) (key : option bytes) (now : Z) : bool :=
  match key with
  | None => false
  | Some k => lockout_blocked tbl k now
  end.

(** ** The reference: a record per key *)

Record arec := mk_arec { a_fail : Z; a_first : Z; a_until : Z }.

Definition note_key (max window : Z) (a : option arec) (success : bool) (now : Z) : option arec :=
  if success then None
  else
    let fresh := mk_arec 1 now (if 1 >=? max then u64 (now + window) else 0) in
    match a with
    | None => Some fresh
    | Some a =>
        if u64 (now - a_first a) >=? window then
          Some (if negb (a_until a =? 0) && (a_until a >? now) then mk_arec 1 now (a_until a) else fresh)
        else
          Some (mk_arec (a_fail a + 1) (a_first a) (if a_fail a + 1 >=? max then u64 (now + window) else a_until a))
    end.

Definition event : Type := bytes * bool * Z.

Definition spec_note (max window : Z) (m : gmap bytes arec) (e : event) : gmap bytes arec :=
  let '(k, ok, t) := e in partial_alter (fun a => note_key max window a ok t) k m.

Definition spec_blocked (m : gmap bytes arec) (k : bytes) (now : Z) : bool :=
  match m !! k with
  | Some a => negb (a_until a =? 0) && (a_until a >? now)
  | None => false
  end.

(** Of the records held, the one a full table gives up. *)
Definition oldest_of (m : gmap bytes arec) (now : Z) (a : arec) : Prop :=
  (a_until a <= now /\ forall k b, m !! k = Some b -> a_until b <= now -> a_first a <= a_first b) \/
  (forall k b, m !! k = Some b -> now < a_until b /\ a_first a <= a_first b).

(** One event on a map that holds at most [n] records. *)
Inductive bounded_note (n : nat) (max window : Z) (m : gmap bytes arec) : event -> gmap bytes arec -> Prop :=
| B_room k ok t : ok = true \/ is_Some (m !! k) \/ (size m < n)%nat -> bounded_note n max window m (k, ok, t) (spec_note max window m (k, ok, t))
| B_evict k t v a : size m = n -> m !! k = None -> m !! v = Some a -> oldest_of m t a ->
    bounded_note n max window m (k, false, t) (spec_note max window (delete v m) (k, false, t)).

Inductive bounded_run (n : nat) (max window : Z) : list event -> gmap bytes arec -> Prop :=
| BR_nil : bounded_run n max window [] ∅
| BR_snoc es e m m' : bounded_run n max window es m -> bounded_note n max window m e m' -> bounded_run n max window (es ++ [e]) m'.

Definition tbl_note (max window : Z) (tbl : list lockout_rec) (e : event) : list lockout_rec :=
  let '(k, ok, t) := e in lockout_note tbl k ok max window t.

Definition abs (r : lockout_rec) : arec := mk_arec (fail r) (first_fail_ms r) (blocked_until_ms r).

(** ** The scan *)

Definition free (r : lockout_rec) : Prop := in_use r = false.
Definition table_ok (tbl : list lockout_rec) : Prop :=
  Forall (fun r => length (l_key r) = 16%nat /\ 0 <= first_fail_ms r /\ (in_use r = false -> r = rec0)) tbl.

Lemma rec_at_lookup tbl i r : tbl !! i = Some r -> rec_at tbl i = r.
Proof. unfold rec_at. by intros ->. Qed.

(** The slot a failure of an unknown key takes over: a free one; else, of the records
    without a live ban, one that failed first; else one that failed first of all. *)
Definition victim (tbl : list lockout_rec) (now : Z) (v : lockout_rec) : Prop :=
  free v \/
  (Forall (fun r => in_use r = true /\ (blocked_until_ms r <= now -> first_fail_ms v <= first_fail_ms r)) tbl /\
   blocked_until_ms v <= now) \/
  Forall (fun r => in_use r = true /\ now < blocked_until_ms r /\ first_fail_ms v <= first_fail_ms r) tbl.

(** What the scan has found out about the slots before the current one. *)
Definition seen (tbl pre : list lockout_rec) (now : Z) (oldest : option nat) : Prop :=
  match oldest with
  | None => Forall (fun r => in_use r = true /\ now < blocked_until_ms r) pre
  | Some o => (o < length pre)%nat /\
      (free (rec_at tbl o) \/
       (Forall (fun r => in_use r = true /\ (blocked_until_ms r <= now -> first_fail_ms (rec_at tbl o) <= first_fail_ms r)) pre /\
        blocked_until_ms (rec_at tbl o) <= now))
  end.

Lemma Forall_snoc {A} (P : A -> Prop) l x : Forall P l -> P x -> Forall P (l ++ [x]).
Proof. intros. apply Forall_app_2; [done|by constructor]. Qed.

(** One slot of the scan. *)
Lemma seen_step tbl pre l r now oldest :
  table_ok tbl -> tbl = pre ++ r :: l -> seen tbl pre now oldest ->
  seen tbl (pre ++ [r]) now
    (if negb (in_use r) || ((blocked_until_ms r <=? now) &&
        match oldest with None => true | Some o => first_fail_ms r <? first_fail_ms (rec_at tbl o) end)
     then Some (length pre) else oldest).
Proof.
  intros Hok Et Hs. assert (tbl !! length pre = Some r) as Hr by (by rewrite Et, list_lookup_middle).
  assert (length (pre ++ [r]) = S (length pre)) as Lp by (rewrite length_app; cbn; lia).
  destruct (in_use r) eqn:Eu; cbn [negb orb].
  2: { cbn. rewrite Lp, (rec_at_lookup _ _ _ Hr). split; [lia|by left]. }
  destruct oldest as [o|]; cbn [seen] in *.
  - destruct Hs as [Ho Hs]. destruct ((blocked_until_ms r <=? now) && _) eqn:Ec.
    + split; [rewrite Lp; lia|]. right. rewrite (rec_at_lookup _ _ _ Hr). split; [|lia]. apply Forall_snoc; [|done].
      destruct Hs as [Hf|[Hu Hb]]; [|apply (Forall_impl _ _ _ Hu); intros x [? Hx]; split; [done|lia]]. exfalso.
      destruct (lookup_lt_is_Some_2 tbl o) as [q Hq]; [rewrite Et, length_app; lia|]. rewrite (rec_at_lookup _ _ _ Hq) in *.
      unfold table_ok in Hok. rewrite Forall_forall in Hok. destruct (Hok q) as (_ & _ & Hq0); [by eapply list_elem_of_lookup_2|].
      rewrite (Hq0 Hf) in Ec. destruct (Hok r) as (_ & Hr0 & _); [by eapply list_elem_of_lookup_2|]. cbn in Ec. lia.
    + split; [rewrite Lp; lia|]. destruct Hs as [Hf|[Hu Hb]]; [by left|right]. split; [|done]. apply Forall_snoc; [done|].
      split; [done|lia].
  - rewrite andb_true_r. destruct (blocked_until_ms r <=? now) eqn:Ec.
    + split; [rewrite Lp; lia|]. right. rewrite (rec_at_lookup _ _ _ Hr). split; [|lia]. apply Forall_snoc; [|done].
      apply (Forall_impl _ _ _ Hs). intros x [? ?]. split; [done|lia].
    + apply Forall_snoc; [done|]. split; [done|lia].
Qed.

Lemma pick_spec tbl key now : table_ok tbl -> forall l pre oldest earliest,
  tbl = pre ++ l -> (earliest < length tbl)%nat -> seen tbl pre now oldest ->
  Forall (fun r => first_fail_ms (rec_at tbl earliest) <= first_fail_ms r) pre ->
  Forall (fun r => (in_use r && key_is key r) = false) pre ->
  exists v, tbl !! pick tbl l (length pre) key now oldest earliest = Some v /\
  ((in_use v && key_is key v) = true \/
   (Forall (fun r => (in_use r && key_is key r) = false) tbl /\ victim tbl now v)).
Proof.
  intros Hok. induction l as [|r l IH]; intros pre oldest earliest Et He Hs Hm Hn; cbn [pick].
  - rewrite app_nil_r in Et. subst pre. destruct oldest as [o|]; cbn [default].
    + destruct Hs as [Ho Hs]. destruct (lookup_lt_is_Some_2 tbl o Ho) as [v Hv]. exists v. split; [done|]. right. split; [done|].
      rewrite (rec_at_lookup _ _ _ Hv) in Hs. destruct Hs as [Hs|Hs]; [by left|by right; left].
    + destruct (lookup_lt_is_Some_2 tbl earliest He) as [v Hv]. exists v. split; [done|]. right. split; [done|].
      rewrite (rec_at_lookup _ _ _ Hv) in Hm. right; right. cbn in Hs. rewrite Forall_forall in *. intros r Hr.
      destruct (Hs r Hr). split; [done|]. split; [done|]. by apply Hm.
  - assert (tbl !! length pre = Some r) as Hr by (by rewrite Et, list_lookup_middle).
    destruct (in_use r && key_is key r) eqn:Em; [by exists r; split; [|left]|].
    replace (S (length pre)) with (length (pre ++ [r])) by (rewrite length_app; cbn; lia).
    apply IH; [by rewrite Et, <- app_assoc| |by eapply seen_step| |by apply Forall_snoc].
    { destruct (_ <? _); [by eapply lookup_lt_Some|done]. }
    destruct (first_fail_ms r <? _) eqn:Ef.
    + rewrite (rec_at_lookup _ _ _ Hr). apply Forall_snoc; [|lia]. apply (Forall_impl _ _ _ Hm). intros x Hx. cbn in *. lia.
    + apply Forall_snoc; [done|]. lia.
Qed.

Lemma pick_top tbl key now :
  table_ok tbl -> tbl <> [] ->
  exists v, tbl !! pick tbl tbl 0 key now None 0 = Some v /\
  ((in_use v && key_is key v) = true \/
   (Forall (fun r => (in_use r && key_is key r) = false) tbl /\ victim tbl now v)).
Proof.
  intros Hok Hne. apply (pick_spec tbl key now Hok tbl []); [done| |by constructor|by constructor|by constructor].
  destruct tbl; [done|cbn; lia].
Qed.

(** ** The table as a map *)

Section Rep.
Variable klen : nat.
Hypothesis Hklen : (0 < klen <= 16)%nat.

Definition holds (tbl : list lockout_rec) (k : bytes) (i : nat) (r : lockout_rec) : Prop :=
  tbl !! i = Some r /\ in_use r = true /\ take klen (l_key r) = k.

Record rep (tbl : list lockout_rec) (m : gmap bytes arec) : Prop := {
  rp_ok : table_ok tbl;
  rp_uniq : forall i j r s k, holds tbl k i r -> holds tbl k j s -> i = j;
  rp_map : forall k a, m !! k = Some a <-> exists i r, holds tbl k i r /\ a = abs r;
  rp_range : forall r, r ∈ tbl -> 0 <= blocked_until_ms r
}.

Lemma key_is_take k r : length k = klen -> key_is k r = true <-> take klen (l_key r) = k.
Proof. intros <-. apply beq_true. Qed.

Lemma holds_det tbl m k i j r s : rep tbl m -> holds tbl k i r -> holds tbl k j s -> i = j /\ r = s.
Proof.
  intros Hr H1 H2. assert (i = j) as -> by (by eapply rp_uniq). destruct H1 as [H1 _], H2 as [H2 _]. split; [done|congruence].
Qed.

Lemma holds_insert tbl i r' k j s :
  (i < length tbl)%nat -> holds (<[i:=r']> tbl) k j s <->
  (j = i /\ s = r' /\ in_use r' = true /\ take klen (l_key r') = k) \/ (j <> i /\ holds tbl k j s).
Proof.
  intros Hi. unfold holds. destruct (decide (j = i)) as [->|Hne].
  - rewrite list_lookup_insert_eq by done. split; [intros ([= ->] & ? & ?); by left|]. intros [(_ & -> & ? & ?)|[? _]]; done.
  - rewrite list_lookup_insert_ne by done. split; [by right|]. intros [(? & _)|[_ ?]]; done.
Qed.

Lemma table_ok_insert tbl i r :
  table_ok tbl -> length (l_key r) = 16%nat -> 0 <= first_fail_ms r -> (in_use r = false -> r = rec0) -> table_ok (<[i:=r]> tbl).
Proof. intros. by apply Forall_insert. Qed.

(** Writing the record of [k] into its slot or into a free one. *)
Lemma rep_insert tbl m i r' k :
  rep tbl m -> (i < length tbl)%nat -> in_use r' = true -> take klen (l_key r') = k -> length (l_key r') = 16%nat ->
  0 <= first_fail_ms r' -> 0 <= blocked_until_ms r' ->
  (forall j s, holds tbl k j s -> j = i) -> (forall k' s, holds tbl k' i s -> k' = k) ->
  rep (<[i:=r']> tbl) (<[k:=abs r']> m).
Proof.
  intros Hrep Hi Hu Hk Hl Hf Hb Hown Honly. split.
  - apply table_ok_insert; [apply Hrep|done|done|congruence].
  - intros a b r s k' H1%holds_insert H2%holds_insert; [|done|done].
    destruct H1 as [(-> & -> & _ & E1)|[N1 H1]], H2 as [(-> & -> & _ & E2)|[N2 H2]]; [done| | |by eapply rp_uniq].
    + destruct N2. apply (Hown b s). congruence.
    + destruct N1. apply (Hown a r). congruence.
  - intros k' a. rewrite lookup_insert_Some, (rp_map tbl m Hrep). split.
    + intros [[<- <-]|[Hne (j & s & Hj & ->)]].
      * exists i, r'. split; [|done]. apply holds_insert; [done|]. by left.
      * exists j, s. split; [|done]. apply holds_insert; [done|]. right. split; [|done]. intros ->.
        apply Hne. symmetry. by eapply Honly.
    + intros (j & s & [(-> & -> & _ & E)|[N Hj]]%holds_insert & ->); [left; split; [congruence|done]|right|done].
      split; [|by eauto]. intros <-. by apply N, (Hown j s).
  - intros r [j Hj]%list_elem_of_lookup. destruct (decide (j = i)) as [->|Hne].
    + rewrite list_lookup_insert_eq in Hj by done. by injection Hj as <-.
    + rewrite list_lookup_insert_ne in Hj by done. eapply rp_range; [done|]. by eapply list_elem_of_lookup_2.
Qed.

Lemma rep_delete tbl m i r k : rep tbl m -> holds tbl k i r -> rep (<[i:=rec0]> tbl) (delete k m).
Proof.
  intros Hrep Hh. assert (i < length tbl)%nat as Hi by (destruct Hh; by eapply lookup_lt_Some). split.
  - apply table_ok_insert; [apply Hrep|done|done|done].
  - intros a b s t k' H1%holds_insert H2%holds_insert; [|done|done].
    destruct H1 as [(_ & -> & ? & _)|[N1 H1]]; [done|]. destruct H2 as [(_ & -> & ? & _)|[N2 H2]]; [done|]. by eapply rp_uniq.
  - intros k' a. rewrite lookup_delete_Some, (rp_map tbl m Hrep). split.
    + intros [Hne (j & s & Hj & ->)]. exists j, s. split; [|done]. apply holds_insert; [done|]. right. split; [|done].
      intros ->. destruct Hh as (H1 & _ & H2), Hj as (H3 & _ & H4). congruence.
    + intros (j & s & [(_ & -> & ? & _)|[N Hj]]%holds_insert & ->); [done| |done]. split; [|by eauto].
      intros <-. destruct (holds_det _ _ _ _ _ _ _ Hrep Hh Hj) as [-> _]. done.
  - intros s [j Hj]%list_elem_of_lookup. destruct (decide (j = i)) as [->|Hne].
    + rewrite list_lookup_insert_eq in Hj by done. by injection Hj as <-.
    + rewrite list_lookup_insert_ne in Hj by done. eapply rp_range; [done|]. by eapply list_elem_of_lookup_2.
Qed.

Lemma alter_insert (m : gmap bytes arec) f k x : f (m !! k) = Some x -> partial_alter f k m = <[k:=x]> m.
Proof.
  intros Hf. apply map_eq. intros j. destruct (decide (k = j)) as [<-|Hne].
  - by rewrite lookup_partial_alter_eq, lookup_insert_eq.
  - by rewrite lookup_partial_alter_ne, lookup_insert_ne.
Qed.

Lemma fresh_key k : length k = klen -> take klen (upd (fill 0 16) 0 k) = k /\ length (upd (fill 0 16) 0 k) = 16%nat.
Proof.
  intros <-. unfold upd. change (Z.to_nat 0) with 0%nat. rewrite take_0. cbn [app]. split; [apply take_app_length|].
  rewrite length_app, length_drop. change (length (fill 0 16)) with 16%nat. unfold zlen. lia.
Qed.

Lemma same_key (a k : bytes) : take klen a = k -> length a = 16%nat -> upd a 0 k = a.
Proof.
  intros Hk Hl. unfold upd. change (Z.to_nat 0) with 0%nat. rewrite take_0. cbn [app].
  assert (length k = klen) as Lk by (rewrite <- Hk, length_take; lia).
  replace (Z.to_nat (0 + zlen k)) with klen by (unfold zlen; lia). rewrite <- Hk. apply take_drop.
Qed.

Lemma none_held tbl k : length k = klen -> Forall (fun r => (in_use r && key_is k r) = false) tbl -> forall j s, ~ holds tbl k j s.
Proof.
  intros Hk Hn j s (Hj & Hu & Ht). rewrite Forall_lookup in Hn. specialize (Hn j s Hj). cbn in Hn.
  apply (key_is_take k s Hk) in Ht. by rewrite Hu, Ht in Hn.
Qed.

Lemma note_success tbl m k t max window :
  rep tbl m -> length k = klen -> tbl <> [] -> rep (lockout_note tbl k true max window t) (delete k m).
Proof.
  intros Hrep Hk Hne. unfold lockout_note. destruct (zlen tbl <=? 0) eqn:E0.
  { destruct tbl as [|q tbl]; [done|]. rewrite zlen_cons in E0. pose proof (zlen_nonneg tbl). lia. }
  replace ((zlen k =? 0) || (zlen k >? LOCKOUT_KEY_MAX)) with false by (unfold zlen, LOCKOUT_KEY_MAX; lia).
  destruct (find_index _ tbl) as [i|] eqn:Ef.
  - apply find_index_Some in Ef as [(r & Hi & Hr) _]. apply andb_true_iff in Hr as [Hu Hkey].
    apply (rep_delete tbl m i r k Hrep). split; [done|]. split; [done|]. by apply key_is_take.
  - rewrite delete_id; [done|]. destruct (m !! k) as [a|] eqn:E; [|done].
    apply (rp_map _ _ Hrep) in E as (i & r & (Hi & Hu & Htk) & _).
    apply (key_is_take k r Hk) in Htk. apply find_index_None with (i := i) (x := r) in Ef; [|done]. by rewrite Hu, Htk in Ef.
Qed.

Lemma lockout_note_nonempty tbl k max window t :
  length k = klen -> tbl <> [] ->
  lockout_note tbl k false max window t =
    let e := pick tbl tbl 0 k t None 0 in
    let r := rec_at tbl e in
    let fresh := mk_rec (upd (fill 0 16) 0 k) 1 t (if 1 >=? max then u64 (t + window) else 0) true in
    if in_use r && key_is k r then
      if u64 (t - first_fail_ms r) >=? window then
        if negb (blocked_until_ms r =? 0) && (blocked_until_ms r >? t) then <[e := mk_rec (l_key r) 1 t (blocked_until_ms r) true]> tbl
        else <[e := fresh]> tbl
      else <[e := mk_rec (upd (l_key r) 0 k) (fail r + 1) (first_fail_ms r)
                    (if fail r + 1 >=? max then u64 (t + window) else blocked_until_ms r) true]> tbl
    else <[e := fresh]> tbl.
Proof.
  intros Hk Hne. unfold lockout_note. destruct (zlen tbl <=? 0) eqn:E0.
  { destruct tbl as [|q tbl]; [done|]. rewrite zlen_cons in E0. pose proof (zlen_nonneg tbl). lia. }
  replace ((zlen k =? 0) || (zlen k >? LOCKOUT_KEY_MAX)) with false by (unfold zlen, LOCKOUT_KEY_MAX; lia).
  cbv zeta. destruct (in_use _) eqn:Eu, (key_is k _) eqn:Ek; cbn [negb orb andb]; try done.
Qed.

(** A failure of a key the table holds. *)
Lemma note_known tbl m k i r t max window :
  rep tbl m -> length k = klen -> 0 <= t -> tbl <> [] -> pick tbl tbl 0 k t None 0 = i -> holds tbl k i r ->
  rep (lockout_note tbl k false max window t) (spec_note max window m (k, false, t)).
Proof.
  intros Hrep Hk Ht Hne He Hhold. rewrite lockout_note_nonempty by done. rewrite He. cbv zeta.
  destruct Hhold as (Hr & Hu & Htk) eqn:Eh. clear Eh. rewrite (rec_at_lookup _ _ _ Hr), Hu, (proj2 (key_is_take k r Hk) Htk). cbn [andb].
  pose proof (rp_ok _ _ Hrep) as Hok. unfold table_ok in Hok. rewrite Forall_lookup in Hok.
  destruct (Hok i r Hr) as (Hl16 & Hf0 & _). pose proof (rp_range _ _ Hrep r ltac:(by eapply list_elem_of_lookup_2)) as Hb0.
  destruct (fresh_key k Hk) as [Hfk Hfl]. pose proof (u64_range (t + window)).
  assert (m !! k = Some (abs r)) as Hm by (apply (rp_map _ _ Hrep); eauto).
  assert (forall r', note_key max window (Some (abs r)) false t = Some (abs r') -> in_use r' = true ->
    take klen (l_key r') = k -> length (l_key r') = 16%nat -> 0 <= first_fail_ms r' -> 0 <= blocked_until_ms r' ->
    rep (<[i:=r']> tbl) (spec_note max window m (k, false, t))) as Hins.
  { intros r' Hn ?????. unfold spec_note. rewrite (alter_insert m _ k (abs r')) by (by rewrite Hm).
    apply rep_insert; try done; [by eapply lookup_lt_Some| |].
    - intros j s Hj. by destruct (holds_det _ _ _ _ _ _ _ Hrep Hj Hhold).
    - intros k' s (? & _ & ?). congruence. }
  unfold note_key in Hins. cbn in Hins. rewrite (same_key _ _ Htk Hl16).
  destruct (u64 (t - first_fail_ms r) >=? window); [destruct (negb _ && _)|]; apply Hins; try done; cbn; destruct (_ >=? max); lia.
Qed.

(** A failure of a new key, written over the slot of [v]. *)
Lemma note_fresh tbl m i v k t max window :
  rep (<[i:=rec0]> tbl) m -> length k = klen -> 0 <= t -> tbl <> [] -> pick tbl tbl 0 k t None 0 = i -> tbl !! i = Some v ->
  (in_use v && key_is k v) = false -> m !! k = None ->
  rep (lockout_note tbl k false max window t) (spec_note max window m (k, false, t)).
Proof.
  intros Hrep Hk Ht Hne He Hv Hnk Hm. rewrite lockout_note_nonempty by done. rewrite He. cbv zeta.
  rewrite (rec_at_lookup _ _ _ Hv), Hnk. destruct (fresh_key k Hk) as [Hfk Hfl]. pose proof (u64_range (t + window)).
  assert (i < length tbl)%nat as Hi by (by eapply lookup_lt_Some).
  unfold spec_note. set (fresh := mk_rec (upd (fill 0 16) 0 k) 1 t (if 1 >=? max then u64 (t + window) else 0) true).
  rewrite (alter_insert m _ k (abs fresh)) by (by rewrite Hm).
  rewrite <- (list_insert_insert_eq tbl i fresh rec0).
  apply rep_insert; try done; [by rewrite length_insert|cbn; destruct (1 >=? max); lia| |].
  - intros j s Hj. exfalso. assert (m !! k = Some (abs s)) by (apply (rp_map _ _ Hrep); eauto). congruence.
  - intros k' s [(_ & -> & ? & _)|[? _]]%holds_insert; done.
Qed.

(** The number of records held. *)
Lemma rep_size tbl m : rep tbl m -> size m = length (filter (fun i => in_use (rec_at tbl i) = true) (seq 0 (length tbl))).
Proof.
  intros Hrep. set (idx := filter _ _). set (f := fun i => take klen (l_key (rec_at tbl i))).
  assert (forall i, i ∈ idx -> holds tbl (f i) i (rec_at tbl i)) as Hall.
  { intros i [Hu Hi%elem_of_seq]%list_elem_of_filter. destruct (lookup_lt_is_Some_2 tbl i) as [r Hr]; [lia|].
    unfold f. rewrite (rec_at_lookup _ _ _ Hr) in *. done. }
  assert (NoDup (f <$> idx)) as Hnd.
  { apply NoDup_fmap_2_strong; [|apply NoDup_filter, NoDup_seq]. intros i j Hi Hj E.
    apply Hall in Hi, Hj. rewrite E in Hi. by eapply rp_uniq. }
  assert (dom m = list_to_set (f <$> idx)) as Hd.
  { apply set_eq. intros k. rewrite elem_of_list_to_set, elem_of_dom, list_elem_of_fmap. split.
    - intros [a (i & r & (Hi & Hu & Hk) & _)%(rp_map _ _ Hrep)]. exists i. pose proof (rec_at_lookup _ _ _ Hi) as Er.
      split; [unfold f; by rewrite Er|]. apply list_elem_of_filter. rewrite Er. split; [done|]. apply elem_of_seq.
      apply lookup_lt_Some in Hi. lia.
    - intros (i & -> & Hi). exists (abs (rec_at tbl i)). apply (rp_map _ _ Hrep). eauto. }
  rewrite <- size_dom, Hd, size_list_to_set by done. by rewrite length_fmap.
Qed.

Lemma filter_all {A} (P : A -> Prop) `{forall x, Decision (P x)} (l : list A) : Forall P l -> filter P l = l.
Proof. induction 1 as [|x l Hx _ IH]; [done|]. by rewrite filter_cons_True, IH. Qed.

Lemma rep_room tbl m r : rep tbl m -> r ∈ tbl -> free r -> (size m < length tbl)%nat.
Proof.
  intros Hrep [i Hi]%list_elem_of_lookup Hf. rewrite (rep_size tbl m Hrep).
  eapply Nat.lt_le_trans; [apply (length_filter_lt _ _ i)|by rewrite length_seq].
  - apply elem_of_seq. apply lookup_lt_Some in Hi. lia.
  - rewrite (rec_at_lookup _ _ _ Hi). unfold free in Hf. congruence.
Qed.

Lemma rep_full tbl m : rep tbl m -> Forall (fun r => in_use r = true) tbl -> size m = length tbl.
Proof.
  intros Hrep Hu. rewrite (rep_size tbl m Hrep), filter_all; [apply length_seq|].
  apply Forall_forall. intros i Hi%elem_of_seq. destruct (lookup_lt_is_Some_2 tbl i) as [r Hr]; [lia|].
  rewrite (rec_at_lookup _ _ _ Hr). rewrite Forall_lookup in Hu. by apply (Hu i).
Qed.

(** A record the scan gives up is the one the bounded map gives up. *)
Lemma victim_oldest tbl m i v t :
  rep tbl m -> tbl !! i = Some v -> in_use v = true -> victim tbl t v ->
  size m = length tbl /\ oldest_of m t (abs v).
Proof.
  intros Hrep Hi Hu Hv. assert (forall k b, m !! k = Some b -> exists r, r ∈ tbl /\ b = abs r) as Hm.
  { intros k b (j & r & (Hj & _) & ->)%(rp_map _ _ Hrep). exists r. split; [by eapply list_elem_of_lookup_2|done]. }
  destruct Hv as [Hf|[[Ha Hb]|Ha]]; [unfold free in Hf; congruence| |].
  - split; [apply rep_full; [done|]; apply (Forall_impl _ _ _ Ha); by intros ? [? _]|left]. split; [done|].
    intros k b (r & Hr & ->)%Hm. rewrite Forall_forall in Ha. by apply (Ha r).
  - split; [apply rep_full; [done|]; apply (Forall_impl _ _ _ Ha); by intros ? [? _]|right].
    intros k b (r & Hr & ->)%Hm. rewrite Forall_forall in Ha. by apply (Ha r).
Qed.

Lemma note_rep max window tbl m k ok t :
  rep tbl m -> length k = klen -> 0 <= t -> tbl <> [] ->
  exists m', bounded_note (length tbl) max window m (k, ok, t) m' /\ rep (tbl_note max window tbl (k, ok, t)) m'.
Proof.
  intros Hrep Hk Ht Hne. destruct ok.
  { eexists. split; [by apply B_room; left|]. by apply note_success. }
  destruct (pick_top tbl k t (rp_ok _ _ Hrep) Hne) as (v & Hv & [Hkey|[Hn Hvic]]).
  { apply andb_true_iff in Hkey as [Hu Hkey]. apply (key_is_take k v Hk) in Hkey.
    assert (holds tbl k (pick tbl tbl 0 k t None 0) v) as Hh by done.
    eexists. split; [|by eapply note_known]. apply B_room. right; left. exists (abs v). apply (rp_map _ _ Hrep). eauto. }
  assert (m !! k = None) as Hm.
  { destruct (m !! k) as [a|] eqn:E; [|done]. apply (rp_map _ _ Hrep) in E as (j & s & Hs & _). by destruct (none_held tbl k Hk Hn j s). }
  assert ((in_use v && key_is k v) = false) as Hnk by (by apply (Forall_lookup_1 _ _ _ _ Hn Hv)).
  destruct (in_use v) eqn:Eu.
  - assert (holds tbl (take klen (l_key v)) (pick tbl tbl 0 k t None 0) v) as Hh by done.
    destruct (victim_oldest _ _ _ _ _ Hrep Hv Eu Hvic) as [Hs Ho]. eexists. split.
    + eapply B_evict; [done|done| |done]. apply (rp_map _ _ Hrep). eauto.
    + eapply note_fresh; try done; [by eapply rep_delete|by rewrite Eu|]. apply lookup_delete_None. by right.
  - eexists. split; [apply B_room; right; right; eapply rep_room; [done| |done]; by eapply list_elem_of_lookup_2|].
    eapply note_fresh; try done; [|by rewrite Eu]. rewrite list_insert_id; [done|].
    pose proof (rp_ok _ _ Hrep) as Hok. unfold table_ok in Hok. rewrite Forall_lookup in Hok. destruct (Hok _ _ Hv) as (_ & _ & H0).
    by rewrite <- (H0 Eu).
Qed.

Lemma blocked_rep tbl m k t : rep tbl m -> length k = klen -> lockout_blocked tbl k t = spec_blocked m k t.
Proof.
  intros Hrep Hk. unfold lockout_blocked, spec_blocked.
  replace ((zlen k =? 0) || (zlen k >? LOCKOUT_KEY_MAX)) with false by (unfold zlen, LOCKOUT_KEY_MAX; lia).
  destruct (find_index _ tbl) as [i|] eqn:Ef.
  - apply find_index_Some in Ef as [(r & Hi & [Hb Hkey]%andb_true_iff) _]. apply (key_is_take k r Hk) in Hkey.
    rewrite (rec_at_lookup _ _ _ Hi). assert (in_use r = true) as Hu.
    { apply not_false_iff_true. intros Hu. pose proof (rp_ok _ _ Hrep) as Hok. unfold table_ok in Hok. rewrite Forall_lookup in Hok.
      destruct (Hok _ _ Hi) as (_ & _ & H0). by rewrite (H0 Hu) in Hb. }
    assert (m !! k = Some (abs r)) as -> by (apply (rp_map _ _ Hrep); by exists i, r). cbn. by rewrite Hb.
  - destruct (m !! k) as [a|] eqn:E; [|done]. apply (rp_map _ _ Hrep) in E as (i & r & (Hi & Hu & Htk) & ->).
    apply (key_is_take k r Hk) in Htk. apply find_index_None with (i := i) (x := r) in Ef; [|done].
    rewrite Htk, andb_true_r in Ef. cbn. by rewrite Ef.
Qed.

Lemma rep_empty n : rep (replicate n rec0) ∅.
Proof.
  split.
  - apply Forall_replicate. cbn. split; [done|]. split; [lia|done].
  - intros i j r s k (Hi & Hu & _) _. apply lookup_replicate in Hi as [-> _]. done.
  - intros k a. split; [by rewrite lookup_empty|]. intros (i & r & (Hi & Hu & _) & _). apply lookup_replicate in Hi as [-> _]. done.
  - intros r Hr. apply elem_of_replicate_inv in Hr as ->. done.
Qed.

End Rep.

(** ** Runs *)

Definition tbl_run (max window : Z) (n : nat) (es : list event) : list lockout_rec :=
  foldl (tbl_note max window) (replicate n rec0) es.

Definition event_ok (klen : nat) (e : event) : Prop := length e.1.1 = klen /\ 0 <= e.2.

Lemma note_length max window tbl e : length (tbl_note max window tbl e) = length tbl.
Proof.
  destruct e as [[k ok] t]. unfold tbl_note, lockout_note. cbv zeta.
  repeat case_match; by rewrite ?length_insert.
Qed.

Lemma run_rep klen max window n es :
  (0 < klen <= 16)%nat -> (0 < n)%nat -> Forall (event_ok klen) es ->
  exists m, bounded_run n max window es m /\ rep klen (tbl_run max window n es) m /\ length (tbl_run max window n es) = n.
Proof.
  intros Hk Hn. induction es as [|e es IH] using rev_ind; intros Hes.
  { exists ∅. split; [constructor|]. split; [by apply rep_empty|apply length_replicate]. }
  apply Forall_app in Hes as [Hes He]. apply Forall_cons in He as [He _]. destruct (IH Hes) as (m & Hb & Hrep & Hl).
  unfold tbl_run in *. rewrite foldl_app. cbn. set (tbl := foldl _ _ es) in *. destruct e as [[k ok] t], He as [Hke Ht]. cbn in Hke, Ht.
  destruct (note_rep klen Hk max window tbl m k ok t Hrep Hke Ht) as (m' & Hb' & Hr').
  { intros E. rewrite E in Hl. cbn in Hl. lia. }
  rewrite Hl in Hb'. exists m'. split; [by econstructor|]. split; [done|]. by rewrite note_length.
Qed.

(** C29: Refinement.  After any sequence of failures and successes, whatever the table's
    size, window and threshold, the fixed table answers "blocked?" for every key and time
    as a map that holds at most one record per slot: a failure of a key with a record
    updates it, a success removes it, and a new key on a full table replaces the record
    that failed first among those without a live ban, or the one that failed first when
    every record is under a live ban. *)
Theorem lockout_refines (klen n : nat) (max window : Z) (es : list event) :
  (0 < klen <= 16)%nat -> (0 < n)%nat -> Forall (event_ok klen) es ->
  exists m, bounded_run n max window es m /\
    forall k t, length k = klen -> lockout_blocked (tbl_run max window n es) k t = spec_blocked m k t.
Proof.
  intros Hk Hn Hes. destruct (run_rep klen max window n es Hk Hn Hes) as (m & Hb & Hrep & _).
  exists m. split; [done|]. intros k t Hkl. by apply (blocked_rep klen).
Qed.

Lemma lockout_refines_witness :
  exists m, bounded_run 2 2 100 [([1;0;0;10], false, 0); ([2;0;0;10], false, 5); ([3;0;0;10], false, 7)] m /\
    forall k t, length k = 4%nat ->
      lockout_blocked (tbl_run 2 100 2 [([1;0;0;10], false, 0); ([2;0;0;10], false, 5); ([3;0;0;10], false, 7)]) k t = spec_blocked m k t.
Proof. apply (lockout_refines 4 2 2 100); [lia|lia|]. repeat constructor; cbn; lia. Defined.

(** A live ban outlives every event but its own success while some slot is not banned. *)
Lemma bounded_note_keeps n max window m k a k' ok t m' :
  bounded_note n max window m (k', ok, t) m' -> m !! k = Some a -> t < a_until a -> 0 <= t -> 0 < window -> t + window < 2 ^ 64 ->
  k' <> k \/ ok = false -> ((size m < n)%nat \/ exists k0 b, m !! k0 = Some b /\ a_until b <= t) ->
  spec_blocked m' k t = true.
Proof.
  intros Hb Hm Ha Ht Hw Hov Hother Hroom.
  assert (forall m2, m2 !! k = Some a -> spec_blocked (spec_note max window m2 (k', ok, t)) k t = true) as Hkeep.
  { intros m2 H2. unfold spec_blocked, spec_note. destruct (decide (k' = k)) as [->|Hne].
    - destruct Hother as [|Hok]; [done|]. subst ok. rewrite lookup_partial_alter_eq, H2. cbn.
      assert (u64 (t + window) = t + window) as Eu by (apply Z.mod_small; lia).
      destruct (u64 (t - a_first a) >=? window).
      + destruct (negb (a_until a =? 0) && (a_until a >? t)) eqn:E; [done|lia].
      + cbn. destruct (a_fail a + 1 >=? max); lia.
    - rewrite lookup_partial_alter_ne, H2 by done. lia. }
  inversion Hb as [k1 ok1 t1 Hr|k1 t1 v b Hs Hn Hv Ho]; subst; [by apply Hkeep|].
  apply Hkeep. rewrite lookup_delete_ne; [done|]. intros ->. replace b with a in * by congruence.
  destruct Hroom as [?|(k0 & c & Hk0 & Hc)]; [lia|]. destruct Ho as [[? _]|Ho]; [lia|]. destruct (Ho k0 c Hk0). lia.
Qed.

(** A ban in force is not lifted early: whatever happened before, a failed attempt of
    any source (the banned one included) or a success of another source leaves a banned
    key banned, as long as some slot of the table is empty or not under a live ban. *)
Theorem ban_kept (klen n : nat) (max window : Z) (es : list event) (k k' : bytes) (ok : bool) (t : Z) :
  (0 < klen <= 16)%nat -> (0 < n)%nat -> Forall (event_ok klen) es -> length k = klen -> event_ok klen (k', ok, t) ->
  0 < window -> t + window < 2 ^ 64 ->
  lockout_blocked (tbl_run max window n es) k t = true -> k' <> k \/ ok = false ->
  (exists r, r ∈ tbl_run max window n es /\ (in_use r = false \/ blocked_until_ms r <= t)) ->
  lockout_blocked (lockout_note (tbl_run max window n es) k' ok max window t) k t = true.
Proof.
  intros Hk Hn Hes Hkl [Hkl' Ht] Hw Hov Hb Hother (r & Hr & Hfree). cbn in Hkl', Ht.
  destruct (run_rep klen max window n es Hk Hn Hes) as (m & _ & Hrep & Hl). set (tbl := tbl_run max window n es) in *.
  destruct (note_rep klen Hk max window tbl m k' ok t Hrep Hkl' Ht) as (m' & Hb' & Hr').
  { intros E. rewrite E in Hl. cbn in Hl. lia. }
  change (lockout_note tbl k' ok max window t) with (tbl_note max window tbl (k', ok, t)).
  rewrite (blocked_rep klen Hk _ _ k t Hr' Hkl). rewrite (blocked_rep klen Hk _ _ k t Hrep Hkl) in Hb.
  unfold spec_blocked in Hb. destruct (m !! k) as [a|] eqn:Em; [|done].
  eapply bounded_note_keeps; try done; [lia|]. destruct (in_use r) eqn:Eu; [|left; by eapply rep_room].
  destruct Hfree as [?|Hfree]; [done|]. right. apply list_elem_of_lookup in Hr as [i Hi].
  exists (take klen (l_key r)), (abs r). split; [|done]. apply (rp_map _ _ _ Hrep). by exists i, r.
Qed.

Lemma ban_kept_witness :
  lockout_blocked (lockout_note (tbl_run 2 100 2 [([1;0;0;10], false, 0); ([1;0;0;10], false, 5); ([3;0;0;10], false, 7)]) [4;0;0;10] false 2 100 9)
    [1;0;0;10] 9 = true.
Proof.
  apply (ban_kept 4 2 2 100 [([1;0;0;10], false, 0); ([1;0;0;10], false, 5); ([3;0;0;10], false, 7)] [1;0;0;10] [4;0;0;10] false 9).
  - lia.
  - lia.
  - repeat constructor; cbn; lia.
  - reflexivity.
  - repeat constructor; cbn; lia.
  - lia.
  - lia.
  - vm_compute. reflexivity.
  - by left.
  - eexists. split; [left|]. right. cbn. lia.
Defined.

(** ** What one source's failures cause *)

(** The events of one key. *)
Definition own (k : bytes) (es : list event) : list (bool * Z) :=
  omap (fun e : event => if decide (e.1.1 = k) then Some (e.1.2, e.2) else None) es.

Definition sources (es : list event) : gset bytes := list_to_set ((fun e : event => e.1.1) <$> es).

Lemma sources_snoc es k ok t : sources (es ++ [(k, ok, t)]) = sources es ∪ {[k]}.
Proof. unfold sources. rewrite fmap_app, list_to_set_app_L. f_equal. apply (right_id_L ∅ (∪)). Qed.

Definition key_run (max window : Z) (l : list (bool * Z)) : option arec :=
  foldl (fun a e => note_key max window a e.1 e.2) None l.

Lemma run_keys n max window es m :
  bounded_run n max window es m -> (size (sources es) <= n)%nat ->
  dom m ⊆ sources es /\ forall k, m !! k = key_run max window (own k es).
Proof.
  induction 1 as [|es [[k ok] t] m m' Hr IH Hn]; intros Hs.
  { split; [set_solver|]. intros k. apply lookup_empty. }
  rewrite sources_snoc in Hs |- *. destruct IH as [Hd Hk].
  { eapply Nat.le_trans; [|done]. apply subseteq_size, union_subseteq_l. }
  assert (m' = spec_note max window m (k, ok, t)) as ->.
  { inversion Hn as [|k1 t1 v a Hsz Hnone Hv Ho]; [done|]. exfalso. subst. apply not_elem_of_dom in Hnone.
    assert (size (dom m ∪ {[k]}) <= size (dom m))%nat as Hc.
    { rewrite (size_dom m). eapply Nat.le_trans; [|done]. apply subseteq_size. by apply union_mono_r. }
    rewrite size_union, size_singleton in Hc by (by apply disjoint_singleton_r). lia. }
  split.
  - intros k0. unfold spec_note. rewrite elem_of_dom. destruct (decide (k = k0)) as [->|Hne]; [set_solver|].
    rewrite lookup_partial_alter_ne by done. intros Hx%elem_of_dom. set_solver.
  - intros k0. unfold spec_note, own, key_run. rewrite omap_app, foldl_app. cbn. destruct (decide (k = k0)) as [<-|Hne].
    + rewrite lookup_partial_alter_eq, Hk. done.
    + rewrite lookup_partial_alter_ne by done. apply Hk.
Qed.

(** A burst of failures inside one window. *)
Lemma burst max window t0 ts :
  0 <= t0 -> 0 < window -> t0 + 2 * window < 2 ^ 64 -> Forall (fun t => t0 <= t < t0 + window) ts ->
  key_run max window (map (pair false) (t0 :: ts)) =
    Some (mk_arec (1 + zlen ts) t0 (if 1 + zlen ts >=? max then default t0 (last ts) + window else 0)).
Proof.
  intros H0 Hw Hov. unfold key_run. induction ts as [|t ts IH] using rev_ind; intros Hts; cbn [map].
  { cbn [foldl note_key fst snd last default].
    assert (u64 (t0 + window) = t0 + window) as -> by (apply Z.mod_small; lia). done. }
  apply Forall_app in Hts as [Hts Ht]. apply Forall_cons in Ht as [Ht _]. specialize (IH Hts). cbn [map] in IH.
  rewrite map_app, app_comm_cons, foldl_app, IH. cbn [map foldl note_key a_fail a_first a_until fst snd].
  assert (u64 (t - t0) = t - t0) as -> by (apply Z.mod_small; lia).
  assert (u64 (t + window) = t + window) as -> by (apply Z.mod_small; lia).
  destruct (t - t0 >=? window) eqn:E; [lia|]. rewrite last_snoc, zlen_app. cbn [default].
  change (zlen [t]) with 1. replace (1 + zlen ts + 1) with (1 + (zlen ts + 1)) by lia.
  destruct (1 + (zlen ts + 1) >=? max) eqn:E1; [done|]. destruct (1 + zlen ts >=? max) eqn:E2; [lia|done].
Qed.

(** What the table counts.  With no more sources than slots, when the events of a
    source since its last success (or since the start) are failures at [t0 :: ts] that
    fit in one window, the source is refused at time [t] exactly when there were at least
    [max] of them and [t] is less than a window after the last; what every other source
    did in between does not matter. *)
Theorem lockout_bans (klen n : nat) (max window : Z) (es : list event) (k : bytes) (pre : list (bool * Z)) (t0 : Z) (ts : list Z) (t : Z) :
  (0 < klen <= 16)%nat -> (size (sources es) <= n)%nat -> Forall (event_ok klen) es -> length k = klen ->
  0 <= t0 -> 0 < window -> t0 + 2 * window < 2 ^ 64 -> Forall (fun t => t0 <= t < t0 + window) ts ->
  own k es = pre ++ map (pair false) (t0 :: ts) -> (pre = [] \/ exists pre' s, pre = pre' ++ [(true, s)]) ->
  lockout_blocked (tbl_run max window n es) k t = (1 + zlen ts >=? max) && (t <? default t0 (last ts) + window).
Proof.
  intros Hk Hn Hes Hkl H0 Hw Hov Hts Hown Hpre.
  assert (0 < n)%nat as Hn0.
  { assert (exists e, e ∈ es /\ e.1.1 = k) as (e & He & Ek).
    { assert ((false, t0) ∈ own k es) as H by (rewrite Hown; apply elem_of_app; right; left). apply list_elem_of_omap in H as (e & He & Hd).
      exists e. split; [done|]. by case_decide. }
    assert (size ({[k]} : gset bytes) <= size (sources es))%nat as Hc.
    { apply subseteq_size. intros x ->%elem_of_singleton. unfold sources. apply elem_of_list_to_set, list_elem_of_fmap. eauto. }
    rewrite size_singleton in Hc. lia. }
  destruct (run_rep klen max window n es Hk Hn0 Hes) as (m & Hb & Hrep & _).
  rewrite (blocked_rep klen Hk _ _ k t Hrep Hkl). unfold spec_blocked. destruct (run_keys _ _ _ _ _ Hb Hn) as [_ ->].
  assert (key_run max window (own k es) = key_run max window (map (pair false) (t0 :: ts))) as ->.
  { rewrite Hown. unfold key_run. rewrite foldl_app. f_equal. destruct Hpre as [->|(pre' & s & ->)]; [done|]. by rewrite foldl_app. }
  rewrite burst by done. cbn [a_until]. destruct (1 + zlen ts >=? max); [|done].
  assert (t0 <= default t0 (last ts)) by (destruct (last ts) as [x|] eqn:E; cbn; [|lia]; apply last_Some_elem_of in E; rewrite Forall_forall in Hts; destruct (Hts x E); lia).
  cbn [andb]. destruct (t <? default t0 (last ts) + window) eqn:E; lia.
Qed.

Lemma lockout_bans_witness :
  lockout_blocked (tbl_run 3 100 2 [([1], false, 0); ([9], true, 1); ([1], true, 2); ([1], false, 5); ([9], false, 6); ([1], false, 7); ([1], false, 60)])
    [1] 159 = true.
Proof.
  refine (lockout_bans 1 2 3 100 [([1], false, 0); ([9], true, 1); ([1], true, 2); ([1], false, 5); ([9], false, 6); ([1], false, 7); ([1], false, 60)]
    [1] [(false, 0); (true, 2)] 5 [7; 60] 159 _ _ _ _ _ _ _ _ _ _).
  - lia.
  - vm_compute. lia.
  - repeat constructor; cbn; lia.
  - reflexivity.
  - lia.
  - lia.
  - lia.
  - repeat constructor; lia.
  - reflexivity.
  - right. exists [(false, 0)], 2. reflexivity.
Defined.

(** The clock is read before the lock is taken: when a call that read an earlier time gets
    the lock later, the unsigned difference wraps and the count starts again.  Five
    failures inside one window then leave the source unblocked. *)
Lemma late_failure_restarts_count :
  lockout_blocked (tbl_run 5 60000 64 [([1], false, 1000); ([1], false, 1001); ([1], false, 1002); ([1], false, 1003); ([1], false, 999)]) [1] 1003 = false /\
  lockout_blocked (tbl_run 5 60000 64 [([1], false, 999); ([1], false, 1000); ([1], false, 1001); ([1], false, 1002); ([1], false, 1003)]) [1] 1003 = true.
Proof. vm_compute. done. Qed.

(** The relay's key of a peer: a family byte and the address, a v6 peer by its /64. *)
Lemma rp_fail_key_len p k : (forall a, p = Peer4 a -> length a = 4%nat) -> (forall a, p = Peer6 a -> length a = 16%nat) ->
  rp_fail_key_of p = Some k -> length k = 9%nat.
Proof.
  destruct p as [a|a|]; intros H4 H6 E; [| |done]; injection E as <-.
  - specialize (H4 a eq_refl). do 5 (destruct a as [|? a]; try done).
  - specialize (H6 a eq_refl). do 17 (destruct a as [|? a]; try done).
Qed.

(** Two v6 peers share a record exactly when they share the /64, and no v4 peer shares a
    record with a v6 one. *)
Lemma rp_fail_key_inj p q : (forall a, p = Peer6 a \/ q = Peer6 a -> length a = 16%nat) -> (forall a, p = Peer4 a \/ q = Peer4 a -> length a = 4%nat) ->
  rp_fail_key_of p = rp_fail_key_of q ->
  match p, q with
  | Peer4 a, Peer4 b => a = b
  | Peer6 a, Peer6 b => take 8 a = take 8 b
  | PeerOther, PeerOther => True
  | _, _ => False
  end.
Proof.
  intros H6 H4 E. destruct p as [a|a|], q as [b|b|]; try done.
  - specialize (H4 a ltac:(by left)) as Ha. specialize (H4 b ltac:(by right)) as Hb.
    do 5 (destruct a as [|? a]; try done). do 5 (destruct b as [|? b]; try done). by injection E as -> -> -> ->.
  - specialize (H6 a ltac:(by left)) as Ha. specialize (H6 b ltac:(by right)) as Hb.
    do 9 (destruct a as [|? a]; try done). do 9 (destruct b as [|? b]; try done). cbn [take].
    by injection E as -> -> -> -> -> -> -> ->.
Qed.
