(* ===== verification/Flow.v ===== *)
(** * The SOCKS5 and HTTP proxy (src/src/common/socks_flow.c with the connection slots of
    src/src/common/lwip_bridge.c and the accept gate of src/src/common/socks.c)

    The table of client flows, the netstack slots they hold, the login failures and a log of
    what the proxy did.  The event loop is single-threaded, so every handler is one step.
    The TCP/IP stack itself is the record [io]: what lwIP answers to each call, the clock
    and the random numbers of one handler call.  The byte buffers are their contents; their
    growth is the subject of Util.  socks_handshake.c holds a second copy of the handshake
    functions of socks_flow.c. *)

From S2P Require Import Prelude Util Protocol ProtoParse Lockout.

Inductive FlowState :=
| ST_GREETING | ST_REQUEST | ST_RESOLVING | ST_CONNECTING | ST_ESTABLISHED | ST_CLOSING.

#[export] Instance FlowState_eq_dec : EqDecision FlowState.
Proof. solve_decision. Defined.

Definition st_is (a b : FlowState) : bool := bool_decide (a = b).

Inductive NsState := NS_CLOSED | NS_SYN_SENT | NS_ESTABLISHED | NS_CLOSE_WAIT | NS_FIN_WAIT.

#[export] Instance NsState_eq_dec : EqDecision NsState.
Proof. solve_decision. Defined.

Definition ns_is (a b : NsState) : bool := bool_decide (a = b).

(** The address of a connection: a host-order word or sixteen bytes. *)
Inductive dest :=
| D4 (rip : Z)
| D6 (rip6 : bytes).

(** One client; [tgt] is [None] while [tgt_af] is 0. *)
Record Flow := mk_flow {
  active : bool;
  f_id : Z;
  peer_ip : bytes;
  state : FlowState;
  input : bytes;
  output : bytes;
  ns_idx : Z;
  lport : Z;
  local_eof : bool;
  state_ms : Z;
  last_progress_ms : Z;
  auth_pending : bool;
  http_mode : bool;
  http_connect : bool;
  http_scan_off : Z;
  rx_paused : bool;
  rxq_waiting : bool;
  target_af : Z;
  dns_pending : Z;
  reply_sent : bool;
  tgt : option (dest * Z);
  err_rounds : Z
}.

Definition flow0 : Flow :=
  mk_flow false 0 (fill 0 4) ST_GREETING [] [] 0 0 false 0 0 false false false 0 false false 0 0 false None 0.

Definition set_active (f : Flow) (v : bool) : Flow :=
  mk_flow v (f_id f) (peer_ip f) (state f) (input f) (output f) (ns_idx f) (lport f) (local_eof f) (state_ms f) (last_progress_ms f) (auth_pending f) (http_mode f) (http_connect f) (http_scan_off f) (rx_paused f) (rxq_waiting f) (target_af f) (dns_pending f) (reply_sent f) (tgt f) (err_rounds f).
Definition set_state (f : Flow) (v : FlowState) : Flow :=
  mk_flow (active f) (f_id f) (peer_ip f) v (input f) (output f) (ns_idx f) (lport f) (local_eof f) (state_ms f) (last_progress_ms f) (auth_pending f) (http_mode f) (http_connect f) (http_scan_off f) (rx_paused f) (rxq_waiting f) (target_af f) (dns_pending f) (reply_sent f) (tgt f) (err_rounds f).
Definition set_input (f : Flow) (v : bytes) : Flow :=
  mk_flow (active f) (f_id f) (peer_ip f) (state f) v (output f) (ns_idx f) (lport f) (local_eof f) (state_ms f) (last_progress_ms f) (auth_pending f) (http_mode f) (http_connect f) (http_scan_off f) (rx_paused f) (rxq_waiting f) (target_af f) (dns_pending f) (reply_sent f) (tgt f) (err_rounds f).
Definition set_output (f : Flow) (v : bytes) : Flow :=
  mk_flow (active f) (f_id f) (peer_ip f) (state f) (input f) v (ns_idx f) (lport f) (local_eof f) (state_ms f) (last_progress_ms f) (auth_pending f) (http_mode f) (http_connect f) (http_scan_off f) (rx_paused f) (rxq_waiting f) (target_af f) (dns_pending f) (reply_sent f) (tgt f) (err_rounds f).
Definition set_ns_idx (f : Flow) (v : Z) : Flow :=
  mk_flow (active f) (f_id f) (peer_ip f) (state f) (input f) (output f) v (lport f) (local_eof f) (state_ms f) (last_progress_ms f) (auth_pending f) (http_mode f) (http_connect f) (http_scan_off f) (rx_paused f) (rxq_waiting f) (target_af f) (dns_pending f) (reply_sent f) (tgt f) (err_rounds f).
Definition set_lport (f : Flow) (v : Z) : Flow :=
  mk_flow (active f) (f_id f) (peer_ip f) (state f) (input f) (output f) (ns_idx f) v (local_eof f) (state_ms f) (last_progress_ms f) (auth_pending f) (http_mode f) (http_connect f) (http_scan_off f) (rx_paused f) (rxq_waiting f) (target_af f) (dns_pending f) (reply_sent f) (tgt f) (err_rounds f).
Definition set_local_eof (f : Flow) (v : bool) : Flow :=
  mk_flow (active f) (f_id f) (peer_ip f) (state f) (input f) (output f) (ns_idx f) (lport f) v (state_ms f) (last_progress_ms f) (auth_pending f) (http_mode f) (http_connect f) (http_scan_off f) (rx_paused f) (rxq_waiting f) (target_af f) (dns_pending f) (reply_sent f) (tgt f) (err_rounds f).
Definition set_state_ms (f : Flow) (v : Z) : Flow :=
  mk_flow (active f) (f_id f) (peer_ip f) (state f) (input f) (output f) (ns_idx f) (lport f) (local_eof f) v (last_progress_ms f) (auth_pending f) (http_mode f) (http_connect f) (http_scan_off f) (rx_paused f) (rxq_waiting f) (target_af f) (dns_pending f) (reply_sent f) (tgt f) (err_rounds f).
Definition set_last_progress_ms (f : Flow) (v : Z) : Flow :=
  mk_flow (active f) (f_id f) (peer_ip f) (state f) (input f) (output f) (ns_idx f) (lport f) (local_eof f) (state_ms f) v (auth_pending f) (http_mode f) (http_connect f) (http_scan_off f) (rx_paused f) (rxq_waiting f) (target_af f) (dns_pending f) (reply_sent f) (tgt f) (err_rounds f).
Definition set_auth_pending (f : Flow) (v : bool) : Flow :=
  mk_flow (active f) (f_id f) (peer_ip f) (state f) (input f) (output f) (ns_idx f) (lport f) (local_eof f) (state_ms f) (last_progress_ms f) v (http_mode f) (http_connect f) (http_scan_off f) (rx_paused f) (rxq_waiting f) (target_af f) (dns_pending f) (reply_sent f) (tgt f) (err_rounds f).
Definition set_http_mode (f : Flow) (v : bool) : Flow :=
  mk_flow (active f) (f_id f) (peer_ip f) (state f) (input f) (output f) (ns_idx f) (lport f) (local_eof f) (state_ms f) (last_progress_ms f) (auth_pending f) v (http_connect f) (http_scan_off f) (rx_paused f) (rxq_waiting f) (target_af f) (dns_pending f) (reply_sent f) (tgt f) (err_rounds f).
Definition set_http_connect (f : Flow) (v : bool) : Flow :=
  mk_flow (active f) (f_id f) (peer_ip f) (state f) (input f) (output f) (ns_idx f) (lport f) (local_eof f) (state_ms f) (last_progress_ms f) (auth_pending f) (http_mode f) v (http_scan_off f) (rx_paused f) (rxq_waiting f) (target_af f) (dns_pending f) (reply_sent f) (tgt f) (err_rounds f).
Definition set_http_scan_off (f : Flow) (v : Z) : Flow :=
  mk_flow (active f) (f_id f) (peer_ip f) (state f) (input f) (output f) (ns_idx f) (lport f) (local_eof f) (state_ms f) (last_progress_ms f) (auth_pending f) (http_mode f) (http_connect f) v (rx_paused f) (rxq_waiting f) (target_af f) (dns_pending f) (reply_sent f) (tgt f) (err_rounds f).
Definition set_rx_paused (f : Flow) (v : bool) : Flow :=
  mk_flow (active f) (f_id f) (peer_ip f) (state f) (input f) (output f) (ns_idx f) (lport f) (local_eof f) (state_ms f) (last_progress_ms f) (auth_pending f) (http_mode f) (http_connect f) (http_scan_off f) v (rxq_waiting f) (target_af f) (dns_pending f) (reply_sent f) (tgt f) (err_rounds f).
Definition set_rxq_waiting (f : Flow) (v : bool) : Flow :=
  mk_flow (active f) (f_id f) (peer_ip f) (state f) (input f) (output f) (ns_idx f) (lport f) (local_eof f) (state_ms f) (last_progress_ms f) (auth_pending f) (http_mode f) (http_connect f) (http_scan_off f) (rx_paused f) v (target_af f) (dns_pending f) (reply_sent f) (tgt f) (err_rounds f).
Definition set_target_af (f : Flow) (v : Z) : Flow :=
  mk_flow (active f) (f_id f) (peer_ip f) (state f) (input f) (output f) (ns_idx f) (lport f) (local_eof f) (state_ms f) (last_progress_ms f) (auth_pending f) (http_mode f) (http_connect f) (http_scan_off f) (rx_paused f) (rxq_waiting f) v (dns_pending f) (reply_sent f) (tgt f) (err_rounds f).
Definition set_dns_pending (f : Flow) (v : Z) : Flow :=
  mk_flow (active f) (f_id f) (peer_ip f) (state f) (input f) (output f) (ns_idx f) (lport f) (local_eof f) (state_ms f) (last_progress_ms f) (auth_pending f) (http_mode f) (http_connect f) (http_scan_off f) (rx_paused f) (rxq_waiting f) (target_af f) v (reply_sent f) (tgt f) (err_rounds f).
Definition set_reply_sent (f : Flow) (v : bool) : Flow :=
  mk_flow (active f) (f_id f) (peer_ip f) (state f) (input f) (output f) (ns_idx f) (lport f) (local_eof f) (state_ms f) (last_progress_ms f) (auth_pending f) (http_mode f) (http_connect f) (http_scan_off f) (rx_paused f) (rxq_waiting f) (target_af f) (dns_pending f) v (tgt f) (err_rounds f).
Definition set_tgt (f : Flow) (v : option (dest * Z)) : Flow :=
  mk_flow (active f) (f_id f) (peer_ip f) (state f) (input f) (output f) (ns_idx f) (lport f) (local_eof f) (state_ms f) (last_progress_ms f) (auth_pending f) (http_mode f) (http_connect f) (http_scan_off f) (rx_paused f) (rxq_waiting f) (target_af f) (dns_pending f) (reply_sent f) v (err_rounds f).

Definition set_err_rounds (f : Flow) (v : Z) : Flow :=
  mk_flow (active f) (f_id f) (peer_ip f) (state f) (input f) (output f) (ns_idx f) (lport f) (local_eof f) (state_ms f) (last_progress_ms f) (auth_pending f) (http_mode f) (http_connect f) (http_scan_off f) (rx_paused f) (rxq_waiting f) (target_af f) (dns_pending f) (reply_sent f) (tgt f) v.

(** A connection slot; [pcb] says whether lwIP holds a control block for it. *)
Record TcpConn := mk_conn {
  c_state : NsState;
  rxq : bytes;
  term_reason : Z;
  pcb : bool;
  reap_pending : bool
}.

Definition set_c_state (c : TcpConn) (v : NsState) : TcpConn :=
  mk_conn v (rxq c) (term_reason c) (pcb c) (reap_pending c).
Definition set_rxq (c : TcpConn) (v : bytes) : TcpConn :=
  mk_conn (c_state c) v (term_reason c) (pcb c) (reap_pending c).
Definition set_reap_pending (c : TcpConn) (v : bool) : TcpConn :=
  mk_conn (c_state c) (rxq c) (term_reason c) (pcb c) v.

Definition NS_TERM_NONE : Z := 0.
Definition NS_TERM_TIMEOUT : Z := 2.
Definition NS_MAX_CONN : nat := 64.
Definition MAX_FLOWS : nat := 256.
Definition PORT_BASE : Z := 49152.
Definition PORT_TOP : Z := 65535.
Definition HANDSHAKE_TIMEOUT_MS : Z := 30000.
Definition ST_CLOSING_TIMEOUT_MS : Z := 30000.
Definition HANDSHAKE_INPUT_MAX : Z := 65536.
Definition IWAN_RESOLV_INPUT_CAP : Z := 1048576.
Definition NS_MSS : Z := 1460.
Definition LOCAL_WRITE_LIMIT : Z := 262144.

(** What the proxy did, oldest first. *)
Inductive action :=
| A_login (flow : Z) (peer pass : bytes) (ok : bool)
| A_open (flow : Z) (peer : bytes) (d : dest) (port : Z)
| A_resolve (flow : Z) (peer host : bytes) (port nq : Z)
| A_up (flow : Z) (sent : bytes)
| A_down (flow : Z) (sent : bytes).

Record world := mk_world {
  flows : list Flow;
  conns : list TcpConn;
  g_flow_ref : list bool;
  g_next_id : Z;
  g_flow_len : Z;
  g_auth_fail : list lockout_rec;
  log : list action
}.

Definition set_flows (w : world) (v : list Flow) : world :=
  mk_world v (conns w) (g_flow_ref w) (g_next_id w) (g_flow_len w) (g_auth_fail w) (log w).
Definition set_conns (w : world) (v : list TcpConn) : world :=
  mk_world (flows w) v (g_flow_ref w) (g_next_id w) (g_flow_len w) (g_auth_fail w) (log w).
Definition set_g_flow_ref (w : world) (v : list bool) : world :=
  mk_world (flows w) (conns w) v (g_next_id w) (g_flow_len w) (g_auth_fail w) (log w).
Definition set_g_next_id (w : world) (v : Z) : world :=
  mk_world (flows w) (conns w) (g_flow_ref w) v (g_flow_len w) (g_auth_fail w) (log w).
Definition set_g_flow_len (w : world) (v : Z) : world :=
  mk_world (flows w) (conns w) (g_flow_ref w) (g_next_id w) v (g_auth_fail w) (log w).
Definition set_g_auth_fail (w : world) (v : list lockout_rec) : world :=
  mk_world (flows w) (conns w) (g_flow_ref w) (g_next_id w) (g_flow_len w) v (log w).
Definition set_log (w : world) (v : list action) : world :=
  mk_world (flows w) (conns w) (g_flow_ref w) (g_next_id w) (g_flow_len w) (g_auth_fail w) v.

Definition flow_at (w : world) (i : nat) : Flow := default flow0 (flows w !! i).
Definition put (w : world) (i : nat) (f : Flow) : world := set_flows w (<[i := f]> (flows w)).
Definition note (w : world) (a : action) : world := set_log w (log w ++ [a]).

(** [ns_conn]: [None] outside the table. *)
Definition ns_conn (w : world) (idx : Z) : option TcpConn :=
  if (idx <? 0) || (idx >=? Z.of_nat NS_MAX_CONN) then None else conns w !! Z.to_nat idx.
Definition put_conn (w : world) (idx : Z) (c : TcpConn) : world := set_conns w (<[Z.to_nat idx := c]> (conns w)).

(** The answers of the environment during one call: clock, random number, whether lwIP
    still holds a local port, whether the [k]-th connect attempt succeeds, which slots the
    sweep after it finds alive, which slots are in TIME_WAIT, the tunnel address, and
    whether a tunnel resolver is configured. *)
Record io := mk_io {
  now : Z;
  rnd : Z;
  tw_held : Z -> bool;
  lw_connect : nat -> bool;
  lw_alive : nat -> nat -> bool;
  lw_tw : Z -> bool;
  ns_ip : Z;
  dns_server : bool
}.

Record SocksConfig := mk_cfg {
  auth_token : option bytes;
  cfg_ipv6 : bool;
  allow_remote : bool;
  open_proxy : bool
}.

(** ** The slots *)

Definition ns_flow_ref (w : world) (idx : Z) : world :=
  if (idx <? 0) || (idx >=? Z.of_nat NS_MAX_CONN) then w else set_g_flow_ref w (<[Z.to_nat idx := true]> (g_flow_ref w)).

Definition ns_flow_unref (w : world) (idx : Z) : world :=
  if (idx <? 0) || (idx >=? Z.of_nat NS_MAX_CONN) then w else set_g_flow_ref w (<[Z.to_nat idx := false]> (g_flow_ref w)).

Definition conn_cleared : TcpConn := mk_conn NS_CLOSED [] NS_TERM_NONE false false.

(** A slot whose control block is gone: [bridge_err], or the sweep, which keeps the reason. *)
Definition conn_dead (why : Z) : TcpConn := mk_conn NS_CLOSED [] why false true.

Definition conn_sweep_stale (o : io) (k : nat) (w : world) : world :=
  set_conns w (imap (fun i c => if pcb c && negb (lw_alive o k i) then conn_dead (term_reason c) else c) (conns w)).

(** The first slot without control block, guard or reference. *)
Definition conn_slot_alloc (w : world) : option nat :=
  find_index (fun p : TcpConn * bool => negb (pcb p.1) && negb (reap_pending p.1) && negb p.2) (zip (conns w) (g_flow_ref w)).

(** [ns_connect] and [ns_connect6], the [k]-th attempt of the call. *)
Definition conn_connect_af (o : io) (k : nat) (w : world) : world * Z :=
  match conn_slot_alloc w with
  | None => (w, -1)
  | Some i =>
      if lw_connect o k
      then (conn_sweep_stale o k (put_conn w (Z.of_nat i) (mk_conn NS_SYN_SENT [] NS_TERM_NONE true false)), Z.of_nat i)
      else (conn_sweep_stale o k (put_conn w (Z.of_nat i) conn_cleared), -1)
  end.

(** [tcp_abort] runs [bridge_err] unless the block is in TIME_WAIT. *)
Definition ns_abort (o : io) (w : world) (idx : Z) : world :=
  match ns_conn w idx with
  | None => w
  | Some c =>
      if pcb c then put_conn w idx (conn_dead (if lw_tw o idx then term_reason c else NS_TERM_TIMEOUT)) else w
  end.

Definition ns_close (w : world) (idx : Z) : world :=
  match ns_conn w idx with
  | None => w
  | Some c =>
      if negb (pcb c) || ns_is (c_state c) NS_CLOSED then w
      else if ns_is (c_state c) NS_SYN_SENT then put_conn w idx (conn_dead NS_TERM_TIMEOUT)
      else if ns_is (c_state c) NS_ESTABLISHED then put_conn w idx (set_c_state c NS_FIN_WAIT)
      else if ns_is (c_state c) NS_CLOSE_WAIT then put_conn w idx (set_c_state c NS_CLOSED)
      else w
  end.

(** ** Replies and states *)

Definition set_flow_state (o : io) (f : Flow) (st : FlowState) : Flow := set_state_ms (set_state f st) (now o).

Definition queue_flow_output (f : Flow) (d : bytes) : Flow := set_output f (output f ++ d).

Definition socks_reply (f : Flow) (rep bnd_ip bnd_port : Z) : Flow :=
  queue_flow_output f ([5; rep; 0; 1] ++ put32 bnd_ip ++ put16 bnd_port).

Definition socks_reply6 (f : Flow) (rep : Z) (bnd6 : bytes) (bnd_port : Z) : Flow :=
  queue_flow_output f ([5; rep; 0; 4] ++ take 16 bnd6 ++ put16 bnd_port).

Definition CRLF : bytes := [13; 10].
Definition bad_gateway : bytes := lit "HTTP/1.1 502 Bad Gateway" ++ CRLF ++ CRLF.
Definition conn_established : bytes := lit "HTTP/1.1 200 Connection Established" ++ CRLF ++ CRLF.

Definition queue_socks_error (o : io) (f : Flow) (rep : Z) : Flow :=
  if reply_sent f then set_flow_state o f ST_CLOSING
  else
    let f := if http_mode f then queue_flow_output f bad_gateway else socks_reply f rep 0 0 in
    set_flow_state o f ST_CLOSING.

(** ** Flow life cycle *)

Definition flow_alloc (o : io) (w : world) (peer : bytes) : world * option nat :=
  match find_index (fun f => negb (active f)) (flows w) with
  | None => (w, None)
  | Some i =>
      let f := mk_flow true (g_next_id w) peer ST_GREETING [] [] (-1) 0 false (now o) (now o) false false false 0 false false 0 0 false None 0 in
      (set_g_flow_len (set_g_next_id (put w i f) (u64 (g_next_id w + 1))) (g_flow_len w + 1), Some i)
  end.

Definition flow_free (o : io) (w : world) (i : nat) : world :=
  let f := flow_at w i in
  if negb (active f) then w
  else
    let w :=
      if ns_idx f >=? 0 then
        let keep := match ns_conn w (ns_idx f) with
                    | Some c => pcb c && (ns_is (c_state c) NS_CLOSED || ns_is (c_state c) NS_FIN_WAIT)
                    | None => false
                    end in
        ns_flow_unref (if keep then w else ns_abort o w (ns_idx f)) (ns_idx f)
      else w in
    set_g_flow_len (put w i (set_ns_idx (set_active (set_output (set_input f []) []) false) (-1))) (g_flow_len w - 1).

(** ** Opening a connection *)

(** The scan of [alloc_ephemeral]; 0 when 2048 ports in a row are taken. *)
Fixpoint port_scan (tries : nat) (k p0 : Z) (in_use : Z -> bool) : Z :=
  match tries with
  | O => 0
  | S t =>
      let p := PORT_BASE + (p0 - PORT_BASE + k) mod (PORT_TOP - PORT_BASE + 1) in
      if negb (in_use p) then p else port_scan t (k + 1) p0 in_use
  end.

Definition alloc_ephemeral (o : io) (in_use : Z -> bool) : Z :=
  port_scan 2048 0 (PORT_BASE + rnd o mod (PORT_TOP - PORT_BASE)) in_use.

Definition tcp_port_in_use (o : io) (w : world) (p : Z) : bool :=
  existsb (fun f => active f && (ns_idx f >=? 0) && (lport f =? p)) (flows w) || tw_held o p.

Definition alloc_port (o : io) (w : world) : Z := alloc_ephemeral o (tcp_port_in_use o w).

(** A flow [evict_stalest_idle_flow] may retire. *)
Definition evictable (o : io) (w : world) (self i : nat) (f : Flow) : bool :=
  active f && negb (Nat.eqb i self) && st_is (state f) ST_ESTABLISHED && (ns_idx f >=? 0) &&
  (zlen (output f) =? 0) && negb (rxq_waiting f) &&
  match ns_conn w (ns_idx f) with Some c => zlen (rxq c) =? 0 | None => true end &&
  (u64 (now o - last_progress_ms f) >=? 1000).

Fixpoint evict_scan (o : io) (w : world) (self i : nat) (l : list Flow) (victim : option nat) : option nat :=
  match l with
  | [] => victim
  | f :: l =>
      let better := match victim with None => true | Some v => last_progress_ms f <? last_progress_ms (flow_at w v) end in
      evict_scan o w self (S i) l (if evictable o w self i f && better then Some i else victim)
  end.

Definition evict_stalest_idle_flow (o : io) (w : world) (self : nat) : world * bool :=
  match evict_scan o w self 0 (flows w) None with
  | None => (w, false)
  | Some v =>
      let f := flow_at w v in
      let vidx := ns_idx f in
      let w := ns_flow_unref (ns_abort o w vidx) vidx in
      let w := put w v (set_flow_state o (set_local_eof (set_ns_idx f (-1)) true) ST_CLOSING) in
      (match ns_conn w vidx with Some c => put_conn w vidx (set_reap_pending c false) | None => w end, true)
  end.

(** The connect, retried once after an eviction. *)
Definition connect_slot (o : io) (w : world) (i : nat) : world * Z :=
  let (w, idx) := conn_connect_af o 0 w in
  if idx <? 0 then
    let (w, ev) := evict_stalest_idle_flow o w i in
    if ev then conn_connect_af o 1 w else (w, idx)
  else (w, idx).

Definition connecting (o : io) (f : Flow) (idx lp : Z) (d : dest) (rport : Z) : Flow :=
  set_flow_state o (set_tgt (set_lport (set_ns_idx f idx) lp) (Some (d, rport))) ST_CONNECTING.

Definition open_tcp_conn_af (o : io) (w : world) (i : nat) (d : dest) (rport : Z) : world :=
  let lp := alloc_port o w in
  if lp =? 0 then put w i (queue_socks_error o (flow_at w i) 1)
  else
    let (w, idx) := connect_slot o w i in
    let f := flow_at w i in
    if idx <? 0 then put w i (queue_socks_error o f 1)
    else
      let f := connecting o f idx lp d rport in
      note (put (ns_flow_ref w idx) i f) (A_open (f_id f) (peer_ip f) d rport).

(** ** Targets *)

Definition v4_local (p : bytes) : bool := (p.[0] =? 0) || (p.[0] =? 127) || ((p.[0] =? 169) && (p.[1] =? 254)).

Definition socks_peer_is_loopback (f : Flow) : bool := (peer_ip f).[0] =? 127.

(** The conversion of a flow id to [int] and back. *)
Definition dns_id (x : Z) : Z := let m := u32 x in u64 (if m >=? 2 ^ 31 then m - 2 ^ 32 else m).

Section Proxy.
Context `{Inet}.
Variable cfg : option SocksConfig.
Variable ssrf_off : bool.
Variables fail_max fail_window : Z.

Definition tok : option bytes := match cfg with Some c => auth_token c | None => None end.
Definition have_tok : bool := bool_decide (is_Some tok).
Definition socks_v6_ok : bool := match cfg with Some c => cfg_ipv6 c | None => false end.

Definition socks_target_blocked (f : Flow) (d : dest) : bool :=
  if ssrf_off || socks_peer_is_loopback f then false
  else
    match d with
    | D4 rip => v4_local (u32_ip4 rip)
    | D6 p =>
        beq (take 16 p) (fill 0 15 ++ [1]) || beq (take 16 p) (fill 0 16) ||
        ((p.[0] =? 254) && (Z.land p.[1] 192 =? 128)) ||
        (beq (take 12 p) (fill 0 10 ++ [255; 255]) && v4_local (drop 12 p))
    end.

Definition flow_open_gated (o : io) (w : world) (i : nat) (d : dest) (port : Z) : world :=
  let f := flow_at w i in
  if socks_target_blocked f d then put w i (queue_socks_error o f 2) else open_tcp_conn_af o w i d port.

(** The flow counts the answers to wait for; the workers run on their own. *)
Definition spawn_dns (o : io) (w : world) (i : nat) (flow_id : Z) (domain : bytes) (port : Z) : world :=
  let nq := if socks_v6_ok then if dns_server o then 2 else 1 else 1 in
  let w := match find_index (fun f => active f && (dns_id flow_id =? f_id f)) (flows w) with
           | Some j => put w j (set_dns_pending (flow_at w j) nq)
           | None => w
           end in
  note w (A_resolve flow_id (peer_ip (flow_at w i)) domain port nq).

Definition flow_start_target (o : io) (w : world) (i : nat) (t : pp_target) : world :=
  let f := flow_at w i in
  if tg_af t =? 4 then
    flow_open_gated o (put w i (set_target_af f 4)) i (D4 (ip4_u32 (tg_ip4 t))) (tg_port t)
  else if tg_af t =? 6 then
    if negb socks_v6_ok then put w i (queue_socks_error o f 8)
    else flow_open_gated o (put w i (set_target_af f 6)) i (D6 (tg_ip6 t)) (tg_port t)
  else
    spawn_dns o (put w i (set_flow_state o (set_target_af f 0) ST_RESOLVING)) i (f_id f) (tg_host t) (tg_port t).

(** ** Handshake *)

Definition auth_reject (o : io) (f : Flow) : Flow := set_flow_state o (queue_flow_output f [1; 1]) ST_CLOSING.
Definition greet_reject (o : io) (f : Flow) : Flow := set_flow_state o (queue_flow_output f [5; 255]) ST_CLOSING.

(** [buf_consume] of the input. *)
Definition consume (f : Flow) (n : Z) : Flow := set_input f (drop (Z.to_nat n) (input f)).

(** The first index from [i] on at which a blank line ends; at least the length when there
    is none. *)
Fixpoint hdr_scan (fuel : nat) (d : bytes) (i : Z) : res Z :=
  if i >=? zlen d then Ret i
  else
    match fuel with
    | O => Fault OutOfFuel
    | S fuel =>
        let! a := rd d (i - 3) in
        let! b := rd d (i - 2) in
        let! c := rd d (i - 1) in
        let! e := rd d i in
        if (a =? 13) && (b =? 10) && (c =? 13) && (e =? 10) then Ret i else hdr_scan fuel d (i + 1)
    end.

Definition is_nl (c : Z) : bool := (c =? 13) || (c =? 10).

(** Method, flag and target text of the request line; [None] is [goto bad]. *)
Definition request_line_of (d : bytes) : option (bool * bytes) :=
  let line := cut is_nl d in
  let m := cut (Z.eqb 32) line in
  if (zlen m =? 0) || (zlen m >=? zlen line) then None
  else
    let connect := (zlen m =? 7) && beq m (lit "CONNECT") in
    let r := drop (length m + 1) line in
    let sp := cut (fun c => negb (c =? 32)) r in
    Some (connect, drop (length sp) r).

Definition http_handshake (o : io) (w : world) (i : nat) : res world :=
  let f := flow_at w i in
  let d := input f in
  let n := zlen d in
  let start := if (http_scan_off f <? 3) || (http_scan_off f >? n) then 3 else http_scan_off f in
  let! hdr := hdr_scan (length d) d start in
  if hdr >=? n then Ret (put w i (set_http_scan_off f (if n >=? 3 then n - 3 else 0)))
  else
    match request_line_of d with
    | None => Ret (put w i (queue_socks_error o f 5))
    | Some (connect, t) =>
        let f := set_http_connect f connect in
        match (if zlen t =? 0 then None else pp_http_target t connect) with
        | None => Ret (put w i (queue_socks_error o f 5))
        | Some t =>
            let f := if connect then consume f (hdr + 1) else f in
            Ret (flow_start_target o (put w i f) i t)
        end
    end.

(** [handshake_greeting] before the method is chosen. *)
Definition greet (o : io) (w : world) (i : nat) : res (world * bool) :=
  let f := flow_at w i in
  let d := input f in
  if zlen d <? 2 then Ret (w, false)
  else
    let! v := rd d 0 in
    let! pr := if negb (v =? 5) && negb have_tok then pp_http_probe d else Ret 0 in
    if pr =? 1 then
      let! w := http_handshake o (put w i (set_http_mode f true)) i in
      Ret (w, false)
    else if pr =? -1 then Ret (w, false)
    else if negb (v =? 5) then Ret (put w i (greet_reject o f), false)
    else
      let! g := pp_socks_greeting d have_tok in
      match g with
      | None => Ret (w, false)
      | Some m =>
          let method := pp_socks_pick_method have_tok m in
          if method =? 255 then Ret (put w i (greet_reject o f), false)
          else
            let! nm := rd d 1 in
            let f := consume f (2 + nm) in
            if method =? 2 then Ret (put w i (set_auth_pending (queue_flow_output f [5; 2]) true), false)
            else Ret (put w i (set_flow_state o (queue_flow_output f [5; 0]) ST_REQUEST), true)
      end.

(** [handshake_greeting] while the login is pending. *)
Definition login (o : io) (w : world) (i : nat) : res (world * bool) :=
  let f := flow_at w i in
  let d := input f in
  let! r := pp_socks_auth_frame d 64 in
  match r with
  | AFIncomplete => Ret (w, false)
  | AFMalformed | AFTooLong => Ret (put w i (auth_reject o f), false)
  | AFValid user pass =>
      let ok := pp_socks_auth_ok pass tok in
      let! ul := rd d 1 in
      let f := set_auth_pending (consume f (2 + ul + 1 + zlen pass)) false in
      let w := note (set_g_auth_fail w (auth_fail_note (g_auth_fail w) (peer_ip f) ok fail_max fail_window (now o)))
                    (A_login (f_id f) (peer_ip f) pass ok) in
      if negb ok then Ret (put w i (auth_reject o f), false)
      else Ret (put w i (set_flow_state o (queue_flow_output f [1; 0]) ST_REQUEST), true)
  end.

Definition handshake_greeting (o : io) (w : world) (i : nat) : res (world * bool) :=
  if negb (auth_pending (flow_at w i)) then greet o w i else login o w i.

Definition handshake_request (o : io) (w : world) (i : nat) : res world :=
  let f := flow_at w i in
  let d := input f in
  let! r := pp_socks_request d in
  match r with
  | None => Ret w
  | Some q =>
      if negb (rq_rep q =? 0) then Ret (put w i (queue_socks_error o f (rq_rep q)))
      else
        let t := default target0 (rq_out q) in
        if tg_af t =? 4 then Ret (flow_start_target o (put w i (consume f 10)) i t)
        else if tg_af t =? 6 then Ret (flow_start_target o (put w i (consume f 22)) i t)
        else
          let! dlen := rd d 4 in
          Ret (flow_start_target o (put w i (consume f (5 + dlen + 2))) i t)
  end.

Fixpoint handshake_passes (pass : nat) (o : io) (w : world) (i : nat) : res world :=
  match pass with
  | O => Ret w
  | S pass =>
      match state (flow_at w i) with
      | ST_GREETING =>
          if http_mode (flow_at w i) then http_handshake o w i
          else
            let before := zlen (input (flow_at w i)) in
            let! r := handshake_greeting o w i in
            let (w, adv) := r in
            if adv then
              if st_is (state (flow_at w i)) ST_REQUEST && (zlen (input (flow_at w i)) >? 0)
              then handshake_passes pass o w i else Ret w
            else if zlen (input (flow_at w i)) >=? before then Ret w
            else handshake_passes pass o w i
      | ST_REQUEST => handshake_request o w i
      | _ => Ret w
      end
  end.

Definition process_socks_handshake (o : io) (w : world) (i : nat) : res world := handshake_passes 3 o w i.

(** ** DNS answers *)

Record DnsResult := mk_dns { q_flow : Z; q_dest : option dest; q_port : Z }.

Definition dns_result (o : io) (w : world) (q : DnsResult) : world :=
  match find_index (fun f => active f && st_is (state f) ST_RESOLVING && (dns_id (q_flow q) =? f_id f)) (flows w) with
  | None => w
  | Some i =>
      let f := flow_at w i in
      match q_dest q with
      | Some (D6 a) => flow_open_gated o (put w i (set_target_af f 6)) i (D6 a) (q_port q)
      | Some (D4 a) => flow_open_gated o w i (D4 a) (q_port q)
      | None =>
          let f := if dns_pending f >? 0 then set_dns_pending f (dns_pending f - 1) else f in
          put w i (if dns_pending f <=? 0 then queue_socks_error o f 4 else f)
      end
  end.

Definition handle_dns_results (o : io) (w : world) (qs : list DnsResult) : world := foldl (dns_result o) w qs.

(** ** Connection states *)

(** The success reply, sent once. *)
Definition connect_reply (o : io) (f : Flow) : Flow :=
  if negb (reply_sent f) then
    let f :=
      if http_connect f then queue_flow_output f conn_established
      else if negb (http_mode f) then
        if target_af f =? 6 then socks_reply6 f 0 (ip6_derive_ula (ns_ip o)) (lport f)
        else socks_reply f 0 (ns_ip o) (lport f)
      else f in
    set_reply_sent f true
  else f.

(** The body of the loop of [update_tcp_states] for flow [i]. *)
Definition update_tcp_state (o : io) (w : world) (i : nat) : world :=
  let f := flow_at w i in
  let expired := u64 (now o - state_ms f) >=? HANDSHAKE_TIMEOUT_MS in
  if negb (active f) then w
  else
    match state f with
    | ST_GREETING | ST_REQUEST | ST_RESOLVING =>
        if expired then put w i (if http_mode f then queue_socks_error o f 5 else set_flow_state o f ST_CLOSING) else w
    | ST_CONNECTING =>
        let c := ns_conn w (ns_idx f) in
        match (match c with Some c => c_state c | None => NS_CLOSED end) with
        | NS_ESTABLISHED | NS_CLOSE_WAIT =>
            let f := connect_reply o f in
            put w i (set_flow_state o f ST_ESTABLISHED)
        | NS_CLOSED =>
            let why := match c with Some c => term_reason c | None => NS_TERM_NONE end in
            let w := ns_flow_unref w (ns_idx f) in
            let f := set_ns_idx f (-1) in
            put w i (if reply_sent f then set_flow_state o f ST_CLOSING
                     else queue_socks_error o f (if why =? NS_TERM_TIMEOUT then 4 else 5))
        | _ =>
            if expired then
              let w := ns_abort o w (ns_idx f) in
              put w i (if reply_sent f then set_flow_state o f ST_CLOSING else queue_socks_error o f 4)
            else w
        end
    | _ => w
    end.

Definition update_tcp_states (o : io) (w : world) : world := foldl (update_tcp_state o) w (seq 0 (length (flows w))).

(** ** Client input *)

Definition flow_conn_dead (w : world) (f : Flow) : bool :=
  if ns_idx f <? 0 then false
  else match ns_conn w (ns_idx f) with None => true | Some c => negb (pcb c) end.

(** The first loop of [service_local_inputs]. *)
Definition detach_dead (o : io) (w : world) (i : nat) : world :=
  let f := flow_at w i in
  if active f && negb (st_is (state f) ST_CONNECTING) && flow_conn_dead w f
  then put (ns_flow_unref w (ns_idx f)) i (set_flow_state o (set_ns_idx f (-1)) ST_CLOSING) else w.

(** What lwIP accepts in one round of [ns_send_reservev]: no room, or as many slots as the
    list has elements, each segment taken or refused. *)
Definition room : Type := option (list bool).

(** The commits of one round over the bytes [d]: what was taken, and whether every slot was
    used. *)
Fixpoint commit_slots (oks : list bool) (d : bytes) : bytes * bool :=
  match oks with
  | [] => ([], true)
  | ok :: oks =>
      match d with
      | [] => ([], false)
      | _ =>
          let seg := take (Z.to_nat NS_MSS) d in
          if negb ok then ([], false)
          else if zlen seg <? NS_MSS then (seg, false)
          else let (r, all) := commit_slots oks (drop (Z.to_nat NS_MSS) d) in (seg ++ r, all)
      end
  end.

Definition sent_up (o : io) (w : world) (i : nat) (sent : bytes) : world :=
  match sent with
  | [] => w
  | _ => let f := flow_at w i in note (put w i (set_last_progress_ms f (now o))) (A_up (f_id f) sent)
  end.

(** The spill of buffered input; one element of [rooms] per round. *)
Fixpoint spill (o : io) (w : world) (i : nat) (rooms : list room) : world :=
  match rooms with
  | [] | None :: _ => put w i (set_rx_paused (flow_at w i) true)
  | Some oks :: rooms =>
      let (sent, all) := commit_slots oks (input (flow_at w i)) in
      let w := sent_up o w i sent in
      let w := put w i (consume (flow_at w i) (zlen sent)) in
      if (zlen (input (flow_at w i)) =? 0) || negb all then w else spill o w i rooms
  end.

(** One [readv] of the established feed: no room, end of file or error, nothing to read, or
    data with what lwIP takes of it. *)
Inductive feed_ev :=
| F_full
| F_end
| F_again
| F_data (d : bytes) (oks : list bool).

Fixpoint feed (o : io) (w : world) (i : nat) (evs : list feed_ev) : world :=
  match evs with
  | [] | F_again :: _ => w
  | F_full :: _ => put w i (set_rx_paused (flow_at w i) true)
  | F_end :: _ =>
      let w := put w i (set_local_eof (flow_at w i) true) in
      let w := ns_close w (ns_idx (flow_at w i)) in
      put w i (set_flow_state o (flow_at w i) ST_CLOSING)
  | F_data d oks :: evs =>
      let (sent, _) := commit_slots oks d in
      let w := sent_up o w i sent in
      let left := drop (length sent) d in
      if zlen left >? 0
      then put w i (set_rx_paused (set_input (flow_at w i) (input (flow_at w i) ++ left)) true)
      else feed o w i evs
  end.

(** One [recv] before the connection is established. *)
Inductive recv_ev :=
| R_data (d : bytes)
| R_eof
| R_again
| R_error.

Definition local_recv (o : io) (w : world) (i : nat) (r : recv_ev) : res world :=
  let f := flow_at w i in
  if st_is (state f) ST_CLOSING then Ret w
  else if st_is (state f) ST_RESOLVING && (zlen (input f) >=? IWAN_RESOLV_INPUT_CAP) then Ret (put w i (set_rx_paused f true))
  else
    let w :=
      match r with
      | R_eof => put w i (set_flow_state o (set_local_eof f true) ST_CLOSING)
      | R_data d =>
          let f := set_input f (input f ++ d) in
          put w i (if (zlen (input f) >? HANDSHAKE_INPUT_MAX) && (st_is (state f) ST_GREETING || st_is (state f) ST_REQUEST)
                   then set_flow_state o (set_local_eof f true) ST_CLOSING else f)
      | R_again => w
      | R_error =>
          let w := put w i (set_local_eof f true) in
          let w := if ns_idx f >=? 0 then ns_abort o w (ns_idx f) else w in
          put w i (set_flow_state o (flow_at w i) ST_CLOSING)
      end in
    if zlen (input (flow_at w i)) >? 0 then process_socks_handshake o w i else Ret w.

(** The answers of the stack and the client socket for one flow in one round. *)
Record input_ev := mk_in { in_rooms : list room; in_feed : list feed_ev; in_recv : recv_ev }.

(** Buffered input goes to the stack once the connection is on its way. *)
Definition spills (f : Flow) : bool :=
  (ns_idx f >=? 0) && negb (st_is (state f) ST_GREETING) && negb (st_is (state f) ST_REQUEST) &&
  negb (st_is (state f) ST_RESOLVING) && (zlen (input f) >? 0).

(** The body of the second loop of [service_local_inputs]. *)
Definition local_input (o : io) (w : world) (i : nat) (e : input_ev) : res world :=
  let f := flow_at w i in
  if negb (active f) || local_eof f then Ret w
  else
    let w := put w i (set_rx_paused f false) in
    let w := if spills f then spill o w i (in_rooms e) else w in
    if spills f && (zlen (input (flow_at w i)) >? 0) then Ret (put w i (set_rx_paused (flow_at w i) true))
    else if (ns_idx f >=? 0) && st_is (state f) ST_ESTABLISHED then Ret (feed o w i (in_feed e))
    else if negb (st_is (state f) ST_ESTABLISHED) then local_recv o w i (in_recv e)
    else Ret w.

Fixpoint local_inputs (o : io) (w : world) (ix : list nat) (es : nat -> input_ev) : res world :=
  match ix with
  | [] => Ret w
  | i :: ix => let! w := local_input o w i (es i) in local_inputs o w ix es
  end.

Definition service_local_inputs (o : io) (w : world) (es : nat -> input_ev) : res world :=
  let ix := seq 0 (length (flows w)) in
  local_inputs o (foldl (detach_dead o) w ix) ix es.

(** ** Client output *)

(** One [send]: [Some n] bytes taken ([0 < n]), [None] try later; and a hard error. *)
Inductive send_ev :=
| S_sent (n : Z)
| S_again
| S_error.

(** The number of bytes a call that was offered [n] took. *)
Definition taken (k n : Z) : Z := Z.max 1 (Z.min k n).

Definition sent_down (o : io) (w : world) (i : nat) (sent : bytes) : world :=
  let f := flow_at w i in note (put w i (set_last_progress_ms f (now o))) (A_down (f_id f) sent).

Fixpoint drain_output (o : io) (w : world) (i : nat) (evs : list send_ev) : world :=
  let f := flow_at w i in
  if zlen (output f) =? 0 then w
  else
    match evs with
    | [] | S_again :: _ => w
    | S_sent n :: evs =>
        let k := Z.to_nat (taken n (zlen (output f))) in
        let w := put w i (set_output f (drop k (output f))) in
        drain_output o (sent_down o w i (take k (output f))) i evs
    | S_error :: _ =>
        let w := put w i (set_local_eof f true) in
        let w := if ns_idx f >=? 0 then ns_abort o w (ns_idx f) else w in
        put w i (set_flow_state o (set_rxq_waiting (set_output (flow_at w i) []) false) ST_CLOSING)
    end.

(** The transfer of tunnel data to the client; [true] is the [continue] of the error path. *)
Definition drain_rxq (o : io) (w : world) (i : nat) (e : send_ev) : world * bool :=
  let f := flow_at w i in
  if (ns_idx f >=? 0) && (zlen (output f) =? 0) && reply_sent f then
    match ns_conn w (ns_idx f) with
    | Some c =>
        if zlen (rxq c) >? 0 then
          match e with
          | S_sent n =>
              let k := Z.to_nat (taken n (Z.min (zlen (rxq c)) LOCAL_WRITE_LIMIT)) in
              let w := put_conn w (ns_idx f) (set_rxq c (drop k (rxq c))) in
              let w := put w i (set_rxq_waiting f (negb (Z.of_nat k =? zlen (rxq c)))) in
              (sent_down o w i (take k (rxq c)), false)
          | S_again => (put w i (set_rxq_waiting f true), false)
          | S_error =>
              let w := ns_abort o (put w i (set_local_eof f true)) (ns_idx f) in
              (put w i (set_flow_state o (set_rxq_waiting (flow_at w i) false) ST_CLOSING), true)
          end
        else (put w i (set_rxq_waiting f false), false)
    | None => (put w i (set_rxq_waiting f false), false)
    end
  else (w, false).

(** The body of the loop of [service_local_outputs]. *)
Definition local_output (o : io) (w : world) (i : nat) (evs : list send_ev) (e : send_ev) : world :=
  if negb (active (flow_at w i)) then w
  else
    let (w, stop) := drain_rxq o (drain_output o w i evs) i e in
    let f := flow_at w i in
    if stop then w
    else
      match (if ns_idx f >=? 0 then ns_conn w (ns_idx f) else None) with
      | Some c =>
          if ns_is (c_state c) NS_CLOSE_WAIT && reply_sent f && (zlen (rxq c) =? 0) && (zlen (output f) =? 0) &&
             (zlen (input f) =? 0) && (u64 (now o - last_progress_ms f) >=? ST_CLOSING_TIMEOUT_MS)
          then
            let w := ns_close w (ns_idx f) in
            put w i (set_flow_state o f ST_CLOSING)
          else w
      | None => w
      end.

(** ** Reaping *)

(** The first half of the loop of [reap_flows]: the slot of flow [i]; the flag is
    [removable]. *)
Definition reap_slot (o : io) (w : world) (i : nat) : world * bool :=
  let f := flow_at w i in
  if ns_idx f >=? 0 then
    match ns_conn w (ns_idx f) with
    | Some c =>
        if negb (pcb c) then
          (put (ns_flow_unref w (ns_idx f)) i (set_flow_state o (set_ns_idx f (-1)) ST_CLOSING), false)
        else if (u64 (now o - last_progress_ms f) >=? ST_CLOSING_TIMEOUT_MS) &&
                (st_is (state f) ST_CLOSING ||
                 (st_is (state f) ST_ESTABLISHED && (ns_is (c_state c) NS_CLOSE_WAIT || ns_is (c_state c) NS_CLOSED))) then
          let w := ns_flow_unref (ns_abort o w (ns_idx f)) (ns_idx f) in
          (put w i (set_state (set_ns_idx f (-1)) ST_CLOSING), false)
        else (w, ns_is (c_state c) NS_CLOSED && (zlen (rxq c) =? 0) && (zlen (output f) =? 0))
    | None => (put (ns_flow_unref w (ns_idx f)) i (set_flow_state o (set_ns_idx f (-1)) ST_CLOSING), false)
    end
  else (w, false).

Definition reap_flow (o : io) (w : world) (i : nat) : world :=
  let f := flow_at w i in
  if negb (active f) then w
  else
    let w := if st_is (state f) ST_ESTABLISHED && (ns_idx f <? 0)
             then put w i (set_flow_state o (set_local_eof f true) ST_CLOSING) else w in
    let (w, removable) := reap_slot o w i in
    let f := flow_at w i in
    let (w, removable) :=
      if ns_idx f <? 0 then
        if st_is (state f) ST_CLOSING && (u64 (now o - state_ms f) >=? ST_CLOSING_TIMEOUT_MS)
        then (put w i (set_output f []), true)
        else (w, st_is (state f) ST_CLOSING && (zlen (output f) =? 0))
      else (w, removable) in
    if removable then flow_free o w i else w.

Definition reap_flows (o : io) (w : world) : world := foldl (reap_flow o) w (seq 0 (length (flows w))).

(** ** Poll errors, accept, rebuilt tunnel *)

Definition flow_kill_dead_client (o : io) (w : world) (i : nat) : world :=
  let f := set_local_eof (flow_at w i) true in
  let w := put w i f in
  let w := if ns_idx f >=? 0 then ns_close w (ns_idx f) else w in
  put w i (set_flow_state o (flow_at w i) ST_CLOSING).

Definition FLOW_ERR_ROUNDS_MAX : Z := 32.

(** The reaction of [wait_events] to an error bit on flow [i]; [nval] is POLLNVAL. *)
Definition poll_error (o : io) (w : world) (i : nat) (nval : bool) : world :=
  let f := flow_at w i in
  if negb (active f) then w
  else if nval then flow_free o w i
  else if negb (rx_paused f || local_eof f || st_is (state f) ST_CLOSING) then w
  else if (zlen (output f) =? 0) && negb (rxq_waiting f) then flow_kill_dead_client o w i
  else
    let f := set_err_rounds f (u8 (err_rounds f + 1)) in
    if err_rounds f >? FLOW_ERR_ROUNDS_MAX
    then flow_kill_dead_client o (put w i (set_rxq_waiting (set_output f []) false)) i
    else put w i f.

(** One accepted connection; [nonblock] is the success of the socket option. *)
Definition accept_connection (o : io) (w : world) (peer : bytes) (nonblock : bool) : world :=
  let remote_ok := match cfg with
                   | Some c => allow_remote c && (bool_decide (is_Some (auth_token c)) || open_proxy c)
                   | None => false
                   end in
  if negb remote_ok && negb (peer.[0] =? 127) then w
  else if auth_fail_blocked (g_auth_fail w) peer (now o) then w
  else if negb nonblock then w
  else (flow_alloc o w peer).1.

(** The slots after [ns_init]. *)
Definition ns_init (w : world) : world :=
  set_g_flow_ref (set_conns w (replicate NS_MAX_CONN conn_cleared)) (replicate NS_MAX_CONN false).

(** The body of the loop of [socks_reauth_flows]. *)
Definition socks_reauth_flow (os : nat -> io) (w : world) (i : nat) : world :=
  let f := flow_at w i in
  let o := os i in
  if negb (active f) then w
  else if st_is (state f) ST_RESOLVING then
    put w i (set_flow_state o (queue_socks_error o (set_ns_idx f (-1)) 4) ST_CLOSING)
  else if ns_idx f <? 0 then w
  else if negb (st_is (state f) ST_CONNECTING) && negb (st_is (state f) ST_ESTABLISHED) then put w i (set_ns_idx f (-1))
  else
    let f := set_rx_paused (set_ns_idx f (-1)) false in
    match tgt f with
    | Some (d, port) => open_tcp_conn_af o (put w i f) i d port
    | None => put w i (set_flow_state o (queue_socks_error o f 1) ST_CLOSING)
    end.

Definition socks_reauth_flows (os : nat -> io) (w : world) : world :=
  foldl (socks_reauth_flow os) w (seq 0 (length (flows w))).

(** The branch of [socks_reauth_tunnel] that keeps the stack: the flows that wait for a name fail. *)
Definition reauth_kept_flow (o : io) (w : world) (i : nat) : world :=
  let f := flow_at w i in
  if active f && st_is (state f) ST_RESOLVING
  then put w i (set_flow_state o (queue_socks_error o (set_ns_idx f (-1)) 4) ST_CLOSING) else w.

Definition socks_reauth_kept (o : io) (w : world) : world :=
  foldl (reauth_kept_flow o) w (seq 0 (length (flows w))).

End Proxy.
