(* ===== verification/FlowInv.v ===== *)
(** * Invariants of the proxy (src/src/common/socks_flow.c, socks.c, lwip_bridge.c)

    Over every interleaving of the handlers of Flow and of lwIP: a connection slot belongs
    to at most one flow and its reference flag is exact, nothing is opened or resolved for a
    client that has not logged in when a token is configured, and no connection goes to a
    host-local address for a client that is not local. *)

From S2P Require Import Prelude Util Protocol ProtoParse Lockout Flow.

Section Inv.
Context `{Inet}.
Variable cfg : option SocksConfig.
Variable ssrf_off : bool.
Variables fail_max fail_window : Z.

(** ** The invariant *)

Definition early (st : FlowState) : bool := st_is st ST_GREETING || st_is st ST_REQUEST || st_is st ST_RESOLVING.

(** The slot a flow holds, -1 for none. *)
Definition owner (f : Flow) : Z := if active f then ns_idx f else -1.

(** [os] are the slots held, flow by flow; [refs] is [g_flow_ref]. *)
Record slots_ok (os : list Z) (refs : list bool) : Prop := {
  so_len : length refs = NS_MAX_CONN;
  so_ref : forall i k, os !! i = Some k -> k = -1 \/ (0 <= k /\ refs !! Z.to_nat k = Some true);
  so_excl : forall i j k, os !! i = Some k -> os !! j = Some k -> 0 <= k -> i = j;
  so_held : forall n, refs !! n = Some true -> exists i, os !! i = Some (Z.of_nat n)
}.

Definition local_dest (d : dest) : bool :=
  match d with
  | D4 rip => v4_local (u32_ip4 rip)
  | D6 p =>
      beq (take 16 p) (fill 0 15 ++ [1]) || beq (take 16 p) (fill 0 16) ||
      ((p.[0] =? 254) && (Z.land p.[1] 192 =? 128)) ||
      (beq (take 12 p) (fill 0 10 ++ [255; 255]) && v4_local (drop 12 p))
  end.

Definition gated (peer : bytes) (d : dest) : Prop := ssrf_off = true \/ peer.[0] = 127 \/ local_dest d = false.

Definition authed (l : list action) (id : Z) (peer : bytes) : Prop :=
  tok cfg = None \/ exists pass, tok cfg = Some pass /\ A_login id peer pass true ∈ l.

(** What every action of the log owes to the log before it. *)
Definition act_ok (l : list action) (a : action) : Prop :=
  match a with
  | A_login _ _ pass ok => ok = true <-> forall t, tok cfg = Some t -> pass = t
  | A_open id peer d _ => authed l id peer /\ gated peer d
  | A_resolve id peer _ _ _ => authed l id peer
  | _ => True
  end.

Inductive trace_ok : list action -> Prop :=
| T_nil : trace_ok []
| T_snoc l a : trace_ok l -> act_ok l a -> trace_ok (l ++ [a]).

Definition act_id (a : action) : Z :=
  match a with A_login i _ _ _ | A_open i _ _ _ | A_resolve i _ _ _ _ | A_up i _ | A_down i _ => i end.

Record flow_inv (l : list action) (f : Flow) : Prop := {
  fi_slot : early (state f) = true -> ns_idx f = -1;
  fi_auth : state f <> ST_GREETING -> state f <> ST_CLOSING -> authed l (f_id f) (peer_ip f);
  fi_tgt : forall d p, tgt f = Some (d, p) -> gated (peer_ip f) d;
  fi_http : http_mode f = true -> tok cfg = None;
  fi_bytes : bytes_ok (input f)
}.

Record inv (w : world) : Prop := {
  iv_slots : slots_ok (owner <$> flows w) (g_flow_ref w);
  iv_conns : length (conns w) = NS_MAX_CONN;
  iv_flows : forall i f, flows w !! i = Some f -> active f = true -> flow_inv (log w) f;
  iv_trace : trace_ok (log w);
  iv_ids : forall i f, flows w !! i = Some f -> active f = true -> f_id f < g_next_id w;
  iv_uniq : forall i j f g, flows w !! i = Some f -> flows w !! j = Some g -> active f = true -> active g = true ->
              f_id f = f_id g -> i = j;
  iv_log : Forall (fun a => act_id a < g_next_id w) (log w);
  iv_next : 0 <= g_next_id w
}.

(** ** Elementary steps *)

Lemma authed_app l a id peer : authed l id peer -> authed (l ++ [a]) id peer.
Proof. intros [?|(p & ? & Hin)]; [by left|right]. exists p. split; [done|]. apply elem_of_app. by left. Qed.

Lemma flow_inv_app l a f : flow_inv l f -> flow_inv (l ++ [a]) f.
Proof. intros [H1 H2 H3 H4 H5]. split; [done| |done|done|done]. intros ??. apply authed_app. by apply H2. Qed.

Lemma flow_at_lookup w i f : flows w !! i = Some f -> flow_at w i = f.
Proof. unfold flow_at. by intros ->. Qed.

Lemma active_lookup w i : active (flow_at w i) = true -> flows w !! i = Some (flow_at w i).
Proof. unfold flow_at. by destruct (flows w !! i). Qed.

Lemma flow_at_put w i f : active (flow_at w i) = true -> flow_at (put w i f) i = f.
Proof.
  intros Ha%active_lookup%lookup_lt_Some. unfold flow_at, put. cbn. by rewrite list_lookup_insert_eq.
Qed.

Lemma put_put w i f g : put (put w i f) i g = put w i g.
Proof. unfold put. cbn. by rewrite list_insert_insert_eq. Qed.

(** Replacing an active flow, and the reference flags with it. *)
Lemma inv_set w i f refs :
  inv w -> active (flow_at w i) = true -> slots_ok (<[i := owner f]> (owner <$> flows w)) refs ->
  (active f = true -> f_id f = f_id (flow_at w i) /\ flow_inv (log w) f) -> inv (put (set_g_flow_ref w refs) i f).
Proof.
  intros Hi Ha Hso Hf. pose proof (active_lookup _ _ Ha) as Hl. destruct Hi as [Hs Hc Hfl Ht Hids Hu Hlog Hnx].
  assert (forall j g, <[i := f]> (flows w) !! j = Some g -> (j = i /\ g = f) \/ (j <> i /\ flows w !! j = Some g)) as Hj.
  { intros j g. destruct (decide (j = i)) as [->|Hne].
    - rewrite list_lookup_insert_eq by (by eapply lookup_lt_Some). intros [= <-]. by left.
    - rewrite list_lookup_insert_ne by done. by right. }
  split; cbn; try done.
  - by rewrite list_fmap_insert.
  - intros j g [[-> ->]|[_ Hg]]%Hj Hact; [by apply Hf|]. by apply Hfl with j.
  - intros j g [[-> ->]|[_ Hg]]%Hj Hact; [destruct (Hf Hact) as [-> _]; by eapply Hids|]. by eapply Hids.
  - intros j k g g' Hg Hg' Hact Hact' E. apply Hj in Hg as [[-> ->]|[Hne Hg]], Hg' as [[-> ->]|[Hne' Hg']]; [done| | |by eapply Hu].
    + destruct (Hf Hact) as [Hid _]. symmetry. apply (Hu k i g' (flow_at w i)); [done|done|done|done|congruence].
    + destruct (Hf Hact') as [Hid _]. apply (Hu j i g (flow_at w i)); [done|done|done|done|congruence].
Qed.

Lemma owner_lookup w i : active (flow_at w i) = true -> (owner <$> flows w) !! i = Some (ns_idx (flow_at w i)).
Proof. intros Ha. rewrite list_lookup_fmap, (active_lookup _ _ Ha). cbn. unfold owner. by rewrite Ha. Qed.

Lemma put_refs w i f : put (set_g_flow_ref w (g_flow_ref w)) i f = put w i f.
Proof. by destruct w. Qed.

(** The flow keeps its slot. *)
Lemma inv_put w i f :
  inv w -> active (flow_at w i) = true -> active f = true -> f_id f = f_id (flow_at w i) -> ns_idx f = ns_idx (flow_at w i) ->
  flow_inv (log w) f -> inv (put w i f).
Proof.
  intros Hi Ha Hf Hid Hns Hfi. rewrite <- put_refs. apply inv_set; [done|done| |done].
  rewrite list_insert_id; [apply Hi|]. rewrite owner_lookup by done. unfold owner. by rewrite Hf, Hns.
Qed.

Lemma slots_detach os refs i k :
  slots_ok os refs -> os !! i = Some k -> 0 <= k -> slots_ok (<[i := -1]> os) (<[Z.to_nat k := false]> refs).
Proof.
  intros [Hl Hr He Hh] Hi Hk. assert (i < length os)%nat as Li by (by eapply lookup_lt_Some). split.
  - by rewrite length_insert.
  - intros j x Hj. destruct (decide (j = i)) as [->|Hne].
    + rewrite list_lookup_insert_eq in Hj by done. injection Hj as <-. by left.
    + rewrite list_lookup_insert_ne in Hj by done. destruct (Hr j x Hj) as [->|[H0 Hx]]; [by left|right]. split; [done|].
      rewrite list_lookup_insert_ne; [done|]. intros E. assert (k = x) as -> by lia. destruct Hne. by eapply He.
  - intros j j' x Hj Hj' H0.
    assert (forall j, <[i := -1]> os !! j = Some x -> os !! j = Some x) as Hold.
    { intros y Hy. destruct (decide (y = i)) as [->|Hne]; [|by rewrite list_lookup_insert_ne in Hy].
      rewrite list_lookup_insert_eq in Hy by done. injection Hy as <-. lia. }
    eapply He; eauto.
  - intros n Hn. destruct (decide (n = Z.to_nat k)) as [->|Hne].
    + destruct (decide (Z.to_nat k < length refs)%nat); [by rewrite list_lookup_insert_eq in Hn|].
      rewrite list_insert_ge in Hn by lia. apply lookup_lt_Some in Hn. lia.
    + rewrite list_lookup_insert_ne in Hn by done. destruct (Hh n Hn) as [j Hj]. exists j. rewrite list_lookup_insert_ne; [done|].
      intros <-. assert (k = Z.of_nat n) by congruence. lia.
Qed.

Lemma slots_attach os refs i n :
  slots_ok os refs -> os !! i = Some (-1) -> refs !! n = Some false -> slots_ok (<[i := Z.of_nat n]> os) (<[n := true]> refs).
Proof.
  intros [Hl Hr He Hh] Hi Hn. assert (i < length os)%nat as Li by (by eapply lookup_lt_Some).
  assert (n < length refs)%nat as Ln by (by eapply lookup_lt_Some).
  assert (forall j, os !! j <> Some (Z.of_nat n)) as Hfree.
  { intros j Hj. destruct (Hr j _ Hj) as [?|[_ Hx]]; [lia|]. rewrite Nat2Z.id in Hx. congruence. }
  assert (forall j x, <[i := Z.of_nat n]> os !! j = Some x -> (j = i /\ x = Z.of_nat n) \/ (j <> i /\ os !! j = Some x)) as Hj.
  { intros j x Hx. destruct (decide (j = i)) as [->|Hne].
    - rewrite list_lookup_insert_eq in Hx by done. injection Hx as <-. by left.
    - rewrite list_lookup_insert_ne in Hx by done. by right. }
  split.
  - by rewrite length_insert.
  - intros j x [[-> ->]|[Hne Hx]]%Hj.
    + right. split; [lia|]. by rewrite Nat2Z.id, list_lookup_insert_eq.
    + destruct (Hr j x Hx) as [->|[H0 Hx']]; [by left|right]. split; [done|].
      destruct (decide (Z.to_nat x = n)) as [<-|]; [by rewrite list_lookup_insert_eq|by rewrite list_lookup_insert_ne].
  - intros j j' x [[-> ->]|[Hne Hx]]%Hj [[-> E]|[Hne' Hx']]%Hj H0; [done| | |by eapply He].
    + by destruct (Hfree j').
    + subst x. by destruct (Hfree j).
  - intros m Hm. destruct (decide (m = n)) as [->|Hne].
    + exists i. by rewrite list_lookup_insert_eq.
    + rewrite list_lookup_insert_ne in Hm by done. destruct (Hh m Hm) as [j Hjm]. exists j.
      rewrite list_lookup_insert_ne; [done|]. intros <-. assert (-1 = Z.of_nat m) by congruence. lia.
Qed.

(** The flow gives its slot back. *)
Lemma inv_detach w i f :
  inv w -> active (flow_at w i) = true -> 0 <= ns_idx (flow_at w i) -> owner f = -1 ->
  (active f = true -> f_id f = f_id (flow_at w i) /\ flow_inv (log w) f) ->
  inv (put (ns_flow_unref w (ns_idx (flow_at w i))) i f).
Proof.
  intros Hi Ha H0 Ho Hf. pose proof (owner_lookup w i Ha) as Hl. pose proof (iv_slots _ Hi) as Hs.
  destruct (so_ref _ _ Hs i _ Hl) as [?|[_ Hr]]; [lia|]. apply lookup_lt_Some in Hr. rewrite (so_len _ _ Hs) in Hr.
  unfold ns_flow_unref. destruct (_ || _) eqn:E; [lia|]. apply inv_set; [done|done| |done].
  rewrite Ho. by apply slots_detach.
Qed.

(** The flow takes a slot nobody references. *)
Lemma inv_attach w i f n :
  inv w -> active (flow_at w i) = true -> ns_idx (flow_at w i) = -1 -> g_flow_ref w !! n = Some false ->
  active f = true -> ns_idx f = Z.of_nat n -> f_id f = f_id (flow_at w i) -> flow_inv (log w) f ->
  inv (put (ns_flow_ref w (Z.of_nat n)) i f).
Proof.
  intros Hi Ha Hm Hn Hf Hns Hid Hfi. pose proof (owner_lookup w i Ha) as Hl. pose proof (iv_slots _ Hi) as Hs.
  pose proof (lookup_lt_Some _ _ _ Hn) as Ln. rewrite (so_len _ _ Hs) in Ln.
  unfold ns_flow_ref. destruct (_ || _) eqn:E; [lia|]. rewrite Nat2Z.id. apply inv_set; [done|done| |done].
  unfold owner at 1. rewrite Hf, Hns. apply slots_attach; [done|congruence|done].
Qed.

Lemma inv_note w a : inv w -> act_ok (log w) a -> act_id a < g_next_id w -> inv (note w a).
Proof.
  intros [Hs Hc Hfl Ht Hids Hu Hlog Hnx] Hok Hid. split; cbn; try done.
  - intros i f Hf Ha. apply flow_inv_app. by eapply Hfl.
  - by constructor.
  - apply Forall_app_2; [done|by constructor].
Qed.

Lemma inv_conns w cs : inv w -> length cs = length (conns w) -> inv (set_conns w cs).
Proof. intros [Hs Hc Hfl Ht Hids Hu Hlog Hnx] Hl. split; cbn; try done. by rewrite Hl. Qed.

Lemma inv_fails w t : inv w -> inv (set_g_auth_fail w t).
Proof. intros [Hs Hc Hfl Ht Hids Hu Hlog Hnx]. by split. Qed.

Lemma inv_at w i : inv w -> active (flow_at w i) = true -> flow_inv (log w) (flow_at w i).
Proof. intros Hi Ha. eapply iv_flows; [done|by apply active_lookup|done]. Qed.

(** A change of the flow that its invariant does not see. *)
Lemma inv_keep w i f :
  inv w -> active (flow_at w i) = true -> active f = true -> f_id f = f_id (flow_at w i) -> ns_idx f = ns_idx (flow_at w i) ->
  state f = state (flow_at w i) -> peer_ip f = peer_ip (flow_at w i) -> tgt f = tgt (flow_at w i) ->
  http_mode f = http_mode (flow_at w i) -> bytes_ok (input f) -> inv (put w i f).
Proof.
  intros Hi Ha Hf Hid Hns Hst Hp Ht Hh Hb. apply inv_put; try done. destruct (inv_at w i Hi Ha) as [H1 H2 H3 H4 H5].
  split; rewrite ?Hst, ?Hid, ?Hns, ?Hp, ?Ht, ?Hh; done.
Qed.

(** A flow may close at any time. *)
Lemma flow_inv_closing l f g :
  state g = ST_CLOSING -> peer_ip g = peer_ip f -> tgt g = tgt f -> http_mode g = http_mode f -> bytes_ok (input g) ->
  flow_inv l f -> flow_inv l g.
Proof. intros Hst Hp Ht Hh Hb [H1 H2 H3 H4 H5]. split; rewrite ?Hst, ?Hp, ?Ht, ?Hh; done. Qed.

Lemma inv_closing w i f :
  inv w -> active (flow_at w i) = true -> active f = true -> f_id f = f_id (flow_at w i) -> ns_idx f = ns_idx (flow_at w i) ->
  state f = ST_CLOSING -> peer_ip f = peer_ip (flow_at w i) -> tgt f = tgt (flow_at w i) ->
  http_mode f = http_mode (flow_at w i) -> bytes_ok (input f) -> inv (put w i f).
Proof.
  intros Hi Ha Hf Hid Hns Hst Hp Ht Hh Hb. apply inv_put; try done. apply (flow_inv_closing _ (flow_at w i)); try done. by apply inv_at.
Qed.

(** [queue_socks_error] closes the flow and leaves its identity alone. *)
Lemma error_fields o f rep :
  active (queue_socks_error o f rep) = active f /\ f_id (queue_socks_error o f rep) = f_id f /\
  ns_idx (queue_socks_error o f rep) = ns_idx f /\ state (queue_socks_error o f rep) = ST_CLOSING /\
  peer_ip (queue_socks_error o f rep) = peer_ip f /\ tgt (queue_socks_error o f rep) = tgt f /\
  http_mode (queue_socks_error o f rep) = http_mode f /\ input (queue_socks_error o f rep) = input f.
Proof. unfold queue_socks_error. destruct (reply_sent f); [done|]. by destruct f as [???????????? []]. Qed.

Lemma inv_error o w i f rep :
  inv w -> active (flow_at w i) = true -> active f = true -> f_id f = f_id (flow_at w i) -> ns_idx f = ns_idx (flow_at w i) ->
  peer_ip f = peer_ip (flow_at w i) -> tgt f = tgt (flow_at w i) -> http_mode f = http_mode (flow_at w i) -> bytes_ok (input f) ->
  inv (put w i (queue_socks_error o f rep)).
Proof.
  intros Hi Ha Hf Hid Hns Hp Ht Hh Hb. destruct (error_fields o f rep) as (E1 & E2 & E3 & E4 & E5 & E6 & E7 & E8).
  apply inv_closing; try done; congruence.
Qed.

Lemma inv_fail o w i f rep :
  inv w -> active (flow_at w i) = true -> active f = true -> f_id f = f_id (flow_at w i) -> ns_idx f = ns_idx (flow_at w i) ->
  peer_ip f = peer_ip (flow_at w i) -> tgt f = tgt (flow_at w i) -> http_mode f = http_mode (flow_at w i) -> bytes_ok (input f) ->
  inv (put w i (set_flow_state o (queue_socks_error o f rep) ST_CLOSING)).
Proof.
  intros Hi Ha Hf Hid Hns Hp Ht Hh Hb. destruct (error_fields o f rep) as (E1 & E2 & E3 & E4 & E5 & E6 & E7 & E8).
  apply inv_closing; try done; unfold set_flow_state; destruct (queue_socks_error o f rep); cbn in *; congruence.
Qed.

Lemma inv_bytes w i : inv w -> active (flow_at w i) = true -> bytes_ok (input (flow_at w i)).
Proof. intros. by eapply fi_bytes, inv_at. Qed.

(** ** Slots only *)

Definition only_conns (w w' : world) : Prop := exists cs, w' = set_conns w cs /\ length cs = length (conns w).

Lemma only_refl w : only_conns w w.
Proof. exists (conns w). split; [by destruct w|done]. Qed.

Lemma only_put_conn w k c : only_conns w (put_conn w k c).
Proof. eexists. split; [done|]. apply length_insert. Qed.

Lemma only_trans w1 w2 w3 : only_conns w1 w2 -> only_conns w2 w3 -> only_conns w1 w3.
Proof. intros (c1 & -> & L1) (c2 & -> & L2). exists c2. split; [done|]. cbn in L2. congruence. Qed.

Lemma only_inv w w' : only_conns w w' -> inv w -> inv w'.
Proof. intros (cs & -> & L) Hi. by apply inv_conns. Qed.

Lemma only_flow_at w w' i : only_conns w w' -> flow_at w' i = flow_at w i.
Proof. by intros (cs & -> & _). Qed.

Lemma only_log w w' : only_conns w w' -> log w' = log w /\ g_next_id w' = g_next_id w /\ g_flow_ref w' = g_flow_ref w.
Proof. by intros (cs & -> & _). Qed.

Lemma ns_abort_only o w k : only_conns w (ns_abort o w k).
Proof. unfold ns_abort. destruct (ns_conn w k); [|apply only_refl]. destruct (pcb _); [apply only_put_conn|apply only_refl]. Qed.

Lemma ns_close_only w k : only_conns w (ns_close w k).
Proof. unfold ns_close. destruct (ns_conn w k); [|apply only_refl]. repeat case_match; auto using only_refl, only_put_conn. Qed.

Lemma sweep_only o k w : only_conns w (conn_sweep_stale o k w).
Proof. eexists. split; [done|]. apply length_imap. Qed.

Lemma zip_lookup {A B} (l : list A) (k : list B) n x : zip l k !! n = Some x -> k !! n = Some x.2.
Proof. intros E. apply lookup_zip_with_Some in E as (a & b & -> & _ & E). done. Qed.

Lemma connect_spec o k w w' r :
  conn_connect_af o k w = (w', r) -> only_conns w w' /\ (r = -1 \/ exists n, r = Z.of_nat n /\ g_flow_ref w !! n = Some false).
Proof.
  unfold conn_connect_af. destruct (conn_slot_alloc w) as [n|] eqn:E.
  - apply find_index_Some in E as [(x & Hx & Hb) _]. apply zip_lookup in Hx.
    destruct (lw_connect o k); intros [= <- <-].
    + split; [eapply only_trans; [apply only_put_conn|apply sweep_only]|]. right. exists n. split; [done|]. rewrite Hx. f_equal.
      destruct (x.2); [|done]. by rewrite andb_false_r in Hb.
    + split; [eapply only_trans; [apply only_put_conn|apply sweep_only]|by left].
  - intros [= <- <-]. split; [apply only_refl|by left].
Qed.

(** ** Eviction and opening *)

Lemma evict_scan_spec o w self l : forall i victim v,
  evict_scan o w self i l victim = Some v ->
  (match victim with Some x => v = x | None => False end) \/
  exists j f, l !! j = Some f /\ v = (i + j)%nat /\ evictable o w self v f = true.
Proof.
  induction l as [|f l IH]; intros i victim v E; cbn in E; [left; destruct victim; [by injection E|done]|].
  destruct (evictable o w self i f && _) eqn:B.
  - destruct (IH _ _ _ E) as [->|(j & g & Hj & -> & Hg)]; right.
    + apply andb_true_iff in B as [B _]. exists 0%nat, f. by rewrite Nat.add_0_r.
    + exists (S j), g. rewrite Nat.add_succ_r. done.
  - destruct (IH _ _ _ E) as [Hv|(j & g & Hj & -> & Hg)]; [by left|right]. exists (S j), g. rewrite Nat.add_succ_r. done.
Qed.

Lemma evict_spec o w self w' b :
  inv w -> evict_stalest_idle_flow o w self = (w', b) ->
  inv w' /\ flow_at w' self = flow_at w self /\ log w' = log w /\ g_next_id w' = g_next_id w.
Proof.
  intros Hi. unfold evict_stalest_idle_flow. destruct (evict_scan o w self 0 (flows w) None) as [v|] eqn:E; [|by intros [= <- <-]].
  apply evict_scan_spec in E as [[]|(j & f & Hj & -> & He)]. rewrite Nat.add_0_l in *. apply flow_at_lookup in Hj as Hf.
  unfold evictable in He. repeat (apply andb_true_iff in He as [He ?]). rewrite Hf in *.
  assert (j <> self) as Hne by (intros ->; by rewrite Nat.eqb_refl in *).
  set (w1 := ns_abort o w (ns_idx f)). set (f' := set_flow_state _ _ _).
  assert (only_conns w w1) as Ho by apply ns_abort_only.
  assert (flow_at w1 j = f) as Hf1 by (by rewrite (only_flow_at w)).
  assert (inv (put (ns_flow_unref w1 (ns_idx f)) j f')) as Hi'.
  { rewrite <- Hf1. apply inv_detach; [by eapply only_inv|by rewrite Hf1|rewrite Hf1; lia|unfold owner; cbn; by destruct (active _)|].
    rewrite Hf1. intros _. split; [done|]. assert (flow_inv (log w1) f) as Hfi.
    { destruct (only_log _ _ Ho) as (-> & _ & _). rewrite <- Hf. apply inv_at; [done|by rewrite Hf]. }
    apply (flow_inv_closing _ f); try done. apply Hfi. }
  set (w2 := put _ j f') in *.
  assert (flow_at w2 self = flow_at w self /\ log w2 = log w /\ g_next_id w2 = g_next_id w) as (E1 & E2 & E3).
  { destruct (only_log _ _ Ho) as (L1 & L2 & L3). unfold w2, flow_at, ns_flow_unref. destruct (_ || _); cbn.
    - rewrite list_lookup_insert_ne by done. split; [|done]. apply (only_flow_at w w1 self Ho).
    - rewrite list_lookup_insert_ne by done. split; [|done]. apply (only_flow_at w w1 self Ho). }
  destruct (ns_conn w2 (ns_idx f)) as [c|]; intros [= <- <-]; [|done].
  pose proof (only_put_conn w2 (ns_idx f) (set_reap_pending c false)) as Hp.
  destruct (only_log _ _ Hp) as (-> & -> & _). rewrite (only_flow_at _ _ _ Hp). split; [by eapply only_inv|done].
Qed.

(** The invariant, and flow [i] is in use. *)
Definition good (w : world) (i : nat) : Prop := inv w /\ active (flow_at w i) = true.

Lemma good_put w i f : active (flow_at w i) = true -> active f = true -> inv (put w i f) -> good (put w i f) i.
Proof. intros Ha Hf Hi. split; [done|]. by rewrite flow_at_put. Qed.

Lemma error_active o f rep : active f = true -> active (queue_socks_error o f rep) = true.
Proof. intros Hf. by destruct (error_fields o f rep) as [-> _]. Qed.

Lemma connect_slot_spec o w i w2 r2 :
  inv w -> connect_slot o w i = (w2, r2) ->
  inv w2 /\ flow_at w2 i = flow_at w i /\ log w2 = log w /\ g_next_id w2 = g_next_id w /\
  (r2 = -1 \/ exists n, r2 = Z.of_nat n /\ g_flow_ref w2 !! n = Some false).
Proof.
  intros Hi. unfold connect_slot. destruct (conn_connect_af o 0 w) as [w1 r1] eqn:E1. destruct (connect_spec _ _ _ _ _ E1) as [O1 R1].
  destruct (only_log _ _ O1) as (L & N & G). pose proof (only_inv _ _ O1 Hi) as Hi1. pose proof (only_flow_at _ _ i O1) as F1.
  destruct (r1 <? 0) eqn:Er; [|intros [= <- <-]; rewrite G; done].
  destruct (evict_stalest_idle_flow o w1 i) as [w3 ev] eqn:E2. destruct (evict_spec _ _ _ _ _ Hi1 E2) as (Hi3 & F3 & L3 & N3).
  destruct ev; [|intros [= <- <-]; split_and!; try congruence; try done; left; destruct R1 as [?|(n & ? & _)]; lia].
  intros E3. destruct (connect_spec _ _ _ _ _ E3) as [O3 R3]. destruct (only_log _ _ O3) as (L4 & N4 & G4).
  rewrite (only_flow_at _ _ _ O3), L4, N4, G4. split_and!; try congruence; by eapply only_inv.
Qed.

(** The slot the connect gave, if any, and what [open_tcp_conn_af] does with it. *)
Definition opened (o : io) (w : world) (idx : Z) (i : nat) (lp : Z) (d : dest) (rport : Z) : world :=
  let f := flow_at w i in
  if idx <? 0 then put w i (queue_socks_error o f 1)
  else
    let f := connecting o f idx lp d rport in
    note (put (ns_flow_ref w idx) i f) (A_open (f_id f) (peer_ip f) d rport).

Lemma opened_good o w i lp d port r :
  good w i -> ns_idx (flow_at w i) = -1 -> authed (log w) (f_id (flow_at w i)) (peer_ip (flow_at w i)) -> gated (peer_ip (flow_at w i)) d ->
  r = -1 \/ (exists n, r = Z.of_nat n /\ g_flow_ref w !! n = Some false) -> good (opened o w r i lp d port) i.
Proof.
  intros [Hi Ha] Hns Hau Hg Hr. unfold opened. pose proof (inv_bytes w i Hi Ha) as Hby.
  destruct Hr as [->|(n & -> & Hn)]; [apply good_put; [done|by apply error_active|]; by apply inv_error|]. destruct (Z.of_nat n <? 0) eqn:En; [apply Z.ltb_lt in En; lia|].
  set (f := connecting o (flow_at w i) (Z.of_nat n) lp d port).
  assert (active (flow_at (ns_flow_ref w (Z.of_nat n)) i) = true) as Ha3 by (unfold ns_flow_ref; by destruct (_ || _)).
  assert (inv (put (ns_flow_ref w (Z.of_nat n)) i f)) as Hi3.
  { apply inv_attach; try done. split; [done|done| | |done].
    - by intros d' p' [= <- <-].
    - exact (fi_http _ _ (inv_at w i Hi Ha)). }
  assert (good (put (ns_flow_ref w (Z.of_nat n)) i f) i) as Hg3 by (by apply good_put).
  split; [|apply Hg3]. apply inv_note; [done| |].
  - cbn [act_ok]. assert (log (put (ns_flow_ref w (Z.of_nat n)) i f) = log w) as -> by (unfold ns_flow_ref; by destruct (_ || _)). done.
  - cbn [act_id]. rewrite <- (flow_at_put _ i f Ha3). destruct Hg3 as [_ Ha4]. eapply (iv_ids _ Hi3 i); [by apply active_lookup|done].
Qed.

Lemma open_inv o w i d port :
  inv w -> active (flow_at w i) = true -> ns_idx (flow_at w i) = -1 ->
  authed (log w) (f_id (flow_at w i)) (peer_ip (flow_at w i)) -> gated (peer_ip (flow_at w i)) d ->
  good (open_tcp_conn_af o w i d port) i.
Proof.
  intros Hi Ha Hns Hau Hg. unfold open_tcp_conn_af. pose proof (inv_bytes w i Hi Ha) as Hby.
  destruct (alloc_port o w =? 0); [by apply good_put, inv_error; [|apply error_active|..]|].
  destruct (connect_slot o w i) as [w2 r2] eqn:E2. destruct (connect_slot_spec _ _ _ _ _ Hi E2) as (Hi2 & F2 & L2 & N2 & R2).
  apply (opened_good o w2 i (alloc_port o w) d port r2); try done; [split; congruence|congruence|..]; by rewrite F2, ?L2.
Qed.

(** ** Targets *)

Lemma gated_open o w i d port :
  good w i -> ns_idx (flow_at w i) = -1 -> authed (log w) (f_id (flow_at w i)) (peer_ip (flow_at w i)) ->
  good (flow_open_gated ssrf_off o w i d port) i.
Proof.
  intros [Hi Ha] Hns Hau. unfold flow_open_gated. pose proof (inv_bytes w i Hi Ha). destruct (socks_target_blocked _ _ _) eqn:E.
  - apply good_put; [done|by apply error_active|]. by apply inv_error.
  - apply open_inv; try done. unfold socks_target_blocked, socks_peer_is_loopback in E. unfold gated.
    destruct ssrf_off; [by left|]. cbn [orb] in E. destruct (Z.eqb_spec (peer_ip (flow_at w i)).[0] 127) as [?|]; [by right; left|].
    right; right. by destruct d.
Qed.

Lemma good_keep w i f :
  good w i -> active f = true -> f_id f = f_id (flow_at w i) -> ns_idx f = ns_idx (flow_at w i) ->
  state f = state (flow_at w i) -> peer_ip f = peer_ip (flow_at w i) -> tgt f = tgt (flow_at w i) ->
  http_mode f = http_mode (flow_at w i) -> bytes_ok (input f) -> good (put w i f) i.
Proof. intros [Hi Ha] Hf **. apply good_put; [done|done|]. by apply inv_keep. Qed.

Lemma good_error o w i f rep :
  good w i -> active f = true -> f_id f = f_id (flow_at w i) -> ns_idx f = ns_idx (flow_at w i) ->
  peer_ip f = peer_ip (flow_at w i) -> tgt f = tgt (flow_at w i) -> http_mode f = http_mode (flow_at w i) -> bytes_ok (input f) ->
  good (put w i (queue_socks_error o f rep)) i.
Proof. intros [Hi Ha] Hf **. apply good_put; [done|by apply error_active|]. by apply inv_error. Qed.

Lemma good_closing w i f :
  good w i -> active f = true -> f_id f = f_id (flow_at w i) -> ns_idx f = ns_idx (flow_at w i) -> state f = ST_CLOSING ->
  peer_ip f = peer_ip (flow_at w i) -> tgt f = tgt (flow_at w i) -> http_mode f = http_mode (flow_at w i) -> bytes_ok (input f) ->
  good (put w i f) i.
Proof. intros [Hi Ha] Hf **. apply good_put; [done|done|]. by apply inv_closing. Qed.

Lemma spawn_good o w i host port :
  good w i -> authed (log w) (f_id (flow_at w i)) (peer_ip (flow_at w i)) ->
  good (spawn_dns cfg o w i (f_id (flow_at w i)) host port) i.
Proof.
  intros [Hi Ha] Hau. unfold spawn_dns. set (nq := if socks_v6_ok cfg then _ else _).
  assert (f_id (flow_at w i) < g_next_id w) as Hid by (eapply iv_ids; [done|by apply active_lookup|done]).
  destruct (find_index _ (flows w)) as [j|] eqn:E.
  - apply find_index_Some in E as [(g & Hg & [Hga _]%andb_true_iff) _]. apply flow_at_lookup in Hg as Fg.
    assert (active (flow_at w j) = true) as Haj by congruence.
    set (w1 := put w j (set_dns_pending (flow_at w j) nq)).
    assert (inv w1) as Hi1 by (apply inv_keep; try done; by apply inv_bytes).
    assert (active (flow_at w1 i) = true /\ peer_ip (flow_at w1 i) = peer_ip (flow_at w i)) as [Ha1 Hp1].
    { destruct (decide (j = i)) as [->|Hne]; [unfold w1; by rewrite flow_at_put|].
      unfold w1, flow_at, put. cbn. rewrite list_lookup_insert_ne by done. done. }
    split; [|done]. apply inv_note; [done| |done]. cbn. by rewrite Hp1.
  - split; [|done]. by apply inv_note.
Qed.

Lemma start_good o w i t :
  good w i -> ns_idx (flow_at w i) = -1 -> authed (log w) (f_id (flow_at w i)) (peer_ip (flow_at w i)) ->
  good (flow_start_target cfg ssrf_off o w i t) i.
Proof.
  intros Hg Hns Hau. pose proof Hg as [Hi Ha]. pose proof (inv_bytes w i Hi Ha) as Hb. unfold flow_start_target.
  assert (forall v, good (put w i (set_target_af (flow_at w i) v)) i) as Hk by (intros v; by apply good_keep).
  destruct (tg_af t =? 4); [|destruct (tg_af t =? 6)].
  - apply gated_open; [done| |]; by rewrite flow_at_put.
  - destruct (negb _); [by apply good_error|]. apply gated_open; [done| |]; by rewrite flow_at_put.
  - set (f := set_flow_state o (set_target_af (flow_at w i) 0) ST_RESOLVING).
    assert (good (put w i f) i) as Hg1.
    { apply good_put; [done|done|]. apply inv_put; try done. destruct (inv_at w i Hi Ha) as [H1 H2 H3 H4 H5]. by split. }
    replace (f_id (flow_at w i)) with (f_id (flow_at (put w i f) i)) by (by rewrite flow_at_put).
    apply spawn_good; [done|]. by rewrite flow_at_put.
Qed.

(** ** Handshake *)

Lemma consume_bytes f n : bytes_ok (input f) -> bytes_ok (input (consume f n)).
Proof. apply bytes_ok_drop. Qed.

Lemma hdr_scan_total fuel d i : 3 <= i -> zlen d - i <= Z.of_nat fuel -> exists h, hdr_scan fuel d i = Ret h.
Proof.
  revert i. induction fuel as [|fuel IH]; intros i Hi Hf; cbn; destruct (i >=? zlen d) eqn:E; [by eexists|lia|by eexists|].
  rewrite !rd_ok by lia. cbn [rbind]. destruct (_ && _); [by eexists|]. apply IH; lia.
Qed.

Lemma http_good o w i :
  good w i -> state (flow_at w i) = ST_GREETING -> tok cfg = None ->
  exists w', http_handshake cfg ssrf_off o w i = Ret w' /\ good w' i.
Proof.
  intros Hg Hst Htok. pose proof Hg as [Hi Ha]. pose proof (inv_bytes w i Hi Ha) as Hb. unfold http_handshake.
  assert (ns_idx (flow_at w i) = -1) as Hns by (apply (fi_slot _ _ (inv_at w i Hi Ha)); by rewrite Hst).
  set (f := flow_at w i) in *. set (d := input f).
  destruct (hdr_scan_total (length d) d (if (http_scan_off f <? 3) || (http_scan_off f >? zlen d) then 3 else http_scan_off f)) as [h ->].
  { destruct (_ || _) eqn:E; lia. }
  { unfold zlen in *. destruct (_ || _) eqn:E; lia. }
  cbn [rbind]. destruct (h >=? zlen d); [eexists; split; [done|]; by apply good_keep|].
  destruct (request_line_of d) as [[cn t]|]; [|eexists; split; [done|]; by apply good_error].
  destruct (if zlen t =? 0 then None else _) as [t'|]; [|eexists; split; [done|]; by apply good_error].
  eexists. split; [done|]. set (g := if cn then _ else _).
  assert (active g = true /\ f_id g = f_id f /\ ns_idx g = ns_idx f /\ state g = state f /\ peer_ip g = peer_ip f /\ tgt g = tgt f /\
    http_mode g = http_mode f /\ bytes_ok (input g)) as (? & ? & ? & ? & ? & ? & ? & ?).
  { unfold g. destruct cn; cbn; split_and!; try done. by apply bytes_ok_drop. }
  apply start_good; [by apply good_keep|by rewrite flow_at_put; [congruence|]|by left].
Qed.

Lemma tok_none : have_tok cfg = false -> tok cfg = None.
Proof. unfold have_tok. rewrite bool_decide_eq_false. destruct (tok cfg); [|done]. intros Hn. destruct Hn. by eexists. Qed.

Lemma greeting_total (d : bytes) (ht : bool) : bytes_ok d -> exists r, pp_socks_greeting d ht = Ret r.
Proof.
  intros Hb. unfold pp_socks_greeting. destruct (zlen d <? 2) eqn:E1; [by eexists|]. rewrite rd_ok by lia. cbn [rbind].
  destruct (negb _); [by eexists|]. rewrite rd_ok by lia. cbn [rbind]. pose proof (at_byte d 1 Hb) as B. unfold is_byte in B.
  destruct (zlen d <? 2 + d.[1]) eqn:E2; [by eexists|]. rewrite rdn_ok by lia. by eexists.
Qed.

(** The flow after the greeting or the login: closing, or advanced to the request. *)
Lemma good_request o w i f :
  good w i -> active f = true -> f_id f = f_id (flow_at w i) -> ns_idx f = -1 -> ns_idx (flow_at w i) = -1 ->
  peer_ip f = peer_ip (flow_at w i) -> tgt f = tgt (flow_at w i) -> http_mode f = http_mode (flow_at w i) -> bytes_ok (input f) ->
  authed (log w) (f_id f) (peer_ip f) -> good (put w i (set_flow_state o f ST_REQUEST)) i.
Proof.
  intros [Hi Ha] Hf Hid Hns Hns' Hp Ht Hh Hb Hau. apply good_put; [done|done|]. apply inv_put; try done; [cbn; congruence|].
  destruct (inv_at w i Hi Ha) as [H1 H2 H3 H4 H5]. split; cbn; try done; [by rewrite Hp, Ht|by rewrite Hh].
Qed.

Lemma probe_total d : exists v, pp_http_probe d = Ret v.
Proof.
  destruct (decide (d = [])) as [->|Hd]; [by eexists|]. destruct (pp_http_probe_eq d Hd) as (r & _ & E). eauto.
Qed.

Lemma greet_good o w i :
  good w i -> state (flow_at w i) = ST_GREETING ->
  exists w' b, greet cfg ssrf_off o w i = Ret (w', b) /\ good w' i.
Proof.
  intros Hg Hst. pose proof Hg as [Hi Ha]. pose proof (inv_bytes w i Hi Ha) as Hb.
  assert (ns_idx (flow_at w i) = -1) as Hns by (apply (fi_slot _ _ (inv_at w i Hi Ha)); by rewrite Hst).
  unfold greet. set (f := flow_at w i) in *. set (d := input f) in *.
  destruct (zlen d <? 2) eqn:E2; [by exists w, false|]. rewrite rd_ok by lia. cbn [rbind].
  assert (good (put w i (greet_reject o f)) i) as Hrej by (by apply good_closing).
  assert (exists pr, (if negb (d.[0] =? 5) && negb (have_tok cfg) then pp_http_probe d else Ret 0) = Ret pr /\
    (pr = 1 -> tok cfg = None)) as (pr & -> & Hpr).
  { destruct (negb _ && _) eqn:E; [|by exists 0]. destruct (probe_total d) as [v ->]. exists v. split; [done|].
    intros _. apply tok_none. destruct (have_tok cfg); [|done]. by rewrite andb_false_r in E. }
  cbn [rbind]. destruct (Z.eqb_spec pr 1) as [->|_].
  { specialize (Hpr eq_refl). set (w1 := put w i (set_http_mode f true)).
    assert (good w1 i) as Hg1.
    { apply good_put; [done|done|]. apply inv_put; try done. destruct (inv_at w i Hi Ha) as [H1 H2 H3 H4 H5]. by split. }
    destruct (http_good o w1 i Hg1) as (w' & -> & Hg'); [unfold w1; by rewrite flow_at_put|done|]. by exists w', false. }
  destruct (pr =? -1); [by exists w, false|]. destruct (negb (d.[0] =? 5)); [by eexists _, _|].
  destruct (greeting_total d (have_tok cfg) Hb) as [[m|] Eg]; rewrite Eg; cbn [rbind]; [|by exists w, false].
  destruct (pp_socks_pick_method (have_tok cfg) m =? 255) eqn:E5; [by eexists _, _|]. rewrite rd_ok by lia. cbn [rbind].
  destruct (pp_socks_pick_method (have_tok cfg) m =? 2) eqn:Em; eexists _, _; (split; [done|]).
  - apply good_keep; try done. by apply consume_bytes.
  - apply good_request; try done; [by apply consume_bytes|]. left. apply tok_none.
    unfold pp_socks_pick_method in Em, E5. destruct (have_tok cfg); [|done]. by destruct (m =? 255).
Qed.

Lemma login_good o w i :
  (forall t, tok cfg = Some t -> zlen t < 2 ^ 32) ->
  good w i -> state (flow_at w i) = ST_GREETING ->
  exists w' b, login cfg fail_max fail_window o w i = Ret (w', b) /\ good w' i.
Proof.
  intros Htl Hg Hst. pose proof Hg as [Hi Ha]. pose proof (inv_bytes w i Hi Ha) as Hb.
  assert (ns_idx (flow_at w i) = -1) as Hns by (apply (fi_slot _ _ (inv_at w i Hi Ha)); by rewrite Hst).
  assert (f_id (flow_at w i) < g_next_id w) as Hid by (eapply iv_ids; [done|by apply active_lookup|done]).
  unfold login. set (f := flow_at w i) in *. set (d := input f) in *.
  destruct (auth_grammar_total 64 d Hb) as [r G]. rewrite (auth_grammar_run _ _ _ G). cbn [rbind].
  assert (good (put w i (auth_reject o f)) i) as Hrej by (by apply good_closing).
  destruct r as [u p| | |]; [|by eexists _, _|by eexists _, _|by exists w, false].
  assert (2 <= zlen d) as Hl.
  { inversion G as [| | | | |u' p' e Hu Hp Ed Er]. rewrite !zlen_cons, zlen_app. pose proof (zlen_nonneg u'). pose proof (zlen_nonneg (zlen p' :: p' ++ e)). lia. }
  rewrite rd_ok by lia. cbn [rbind]. set (ok := pp_socks_auth_ok p (tok cfg)).
  set (f1 := set_auth_pending _ false).
  set (w1 := note _ (A_login (f_id f1) (peer_ip f1) p ok)).
  assert (good w1 i) as Hg1.
  { split; [|done]. apply inv_note; [by apply inv_fails| |done]. cbn [act_ok]. unfold ok. destruct (tok cfg) as [t|]; [|done].
    rewrite pp_socks_auth_ok_iff; [|exact (auth_grammar_pass 64 d u p Hb G)|by apply Htl]. split; [by intros -> ? [= ->]|]. intros Ht. by apply Ht. }
  assert (bytes_ok (input f1)) as Hb1 by (by apply consume_bytes).
  destruct (negb ok) eqn:Eok; eexists _, _; (split; [done|]).
  - by apply good_closing.
  - apply good_request; try done. unfold authed. destruct (tok cfg) as [t|] eqn:Et; [right|by left].
    exists t. split; [done|]. apply negb_false_iff in Eok. assert (p = t) as <-.
    { apply pp_socks_auth_ok_iff; [exact (auth_grammar_pass 64 d u p Hb G)|by apply Htl|done]. }
    apply elem_of_app. right. rewrite Eok. by apply list_elem_of_singleton.
Qed.

Lemma request_good o w i :
  good w i -> state (flow_at w i) = ST_REQUEST ->
  exists w', handshake_request cfg ssrf_off o w i = Ret w' /\ good w' i.
Proof.
  intros Hg Hst. pose proof Hg as [Hi Ha]. pose proof (inv_bytes w i Hi Ha) as Hb. pose proof (inv_at w i Hi Ha) as Hfi.
  assert (ns_idx (flow_at w i) = -1) as Hns by (apply (fi_slot _ _ Hfi); by rewrite Hst).
  assert (authed (log w) (f_id (flow_at w i)) (peer_ip (flow_at w i))) as Hau by (apply (fi_auth _ _ Hfi); by rewrite Hst).
  unfold handshake_request. destruct (request_grammar_total _ Hb) as [r G]. rewrite (request_grammar_run _ _ G). cbn [rbind].
  destruct r as [q|]; [|by eexists]. destruct (negb (rq_rep q =? 0)) eqn:Er; [eexists; split; [done|]; by apply good_error|].
  assert (forall n t, good (flow_start_target cfg ssrf_off o (put w i (consume (flow_at w i) n)) i t) i) as Hgo.
  { intros n t. apply start_good; [apply good_keep; try done; by apply consume_bytes|by rewrite flow_at_put|by rewrite flow_at_put]. }
  destruct (tg_af (default target0 (rq_out q)) =? 4) eqn:E4; [by eexists|].
  destruct (tg_af (default target0 (rq_out q)) =? 6) eqn:E6; [by eexists|].
  assert (5 <= zlen (input (flow_at w i))) as Hl.
  { inversion G as [|v e|c e|rr e|a e|a p0 p1 e|e|a p0 p1 e|e|e|h p0 p1 e| |l e]; subst; try done. rewrite !zlen_cons.
    pose proof (zlen_nonneg (h ++ p0 :: p1 :: e)). lia. }
  rewrite rd_ok by lia. by eexists.
Qed.

Lemma passes_good n o : (forall t, tok cfg = Some t -> zlen t < 2 ^ 32) -> forall w i, good w i ->
  exists w', handshake_passes cfg ssrf_off fail_max fail_window n o w i = Ret w' /\ good w' i.
Proof.
  intros Ht. induction n as [|n IH]; intros w i Hg; [by exists w|]. cbn [handshake_passes].
  destruct (state (flow_at w i)) eqn:Est; try by exists w.
  - destruct (http_mode (flow_at w i)) eqn:Eh.
    { apply http_good; [done|done|]. destruct Hg as [Hi Ha]. by apply (fi_http _ _ (inv_at w i Hi Ha)). }
    assert (exists w' b, handshake_greeting cfg ssrf_off fail_max fail_window o w i = Ret (w', b) /\ good w' i) as (w' & b & -> & Hg').
    { unfold handshake_greeting. destruct (negb _); [by apply greet_good|by apply login_good]. }
    cbn [rbind]. destruct b; [destruct (_ && _); [by apply IH|by exists w']|]. destruct (_ >=? _); [by exists w'|by apply IH].
  - by apply request_good.
Qed.

(** ** The other handlers *)

Lemma good_only w w' i : only_conns w w' -> good w i -> good w' i.
Proof. intros Ho [Hi Ha]. split; [by eapply only_inv|]. by rewrite (only_flow_at _ _ _ Ho). Qed.

Lemma good_bytes w i : good w i -> bytes_ok (input (flow_at w i)).
Proof. intros [Hi Ha]. by apply inv_bytes. Qed.

Lemma good_note w i a : good w i -> act_ok (log w) a -> act_id a = f_id (flow_at w i) -> good (note w a) i.
Proof.
  intros [Hi Ha] Ho Hid. split; [|done]. apply inv_note; [done|done|]. rewrite Hid. eapply iv_ids; [done|by apply active_lookup|done].
Qed.

Lemma dns_inv o w q : inv w -> inv (dns_result ssrf_off o w q).
Proof.
  intros Hi. unfold dns_result. destruct (find_index _ _) as [i|] eqn:E; [|done].
  apply find_index_Some in E as [(f & Hf & Hb) _]. apply andb_true_iff in Hb as [[Ha Hst]%andb_true_iff _].
  apply bool_decide_eq_true in Hst. rewrite <- (flow_at_lookup _ _ _ Hf) in Ha, Hst. clear Hf.
  assert (good w i) as Hg by done. pose proof (inv_at w i Hi Ha) as Hfi. pose proof (good_bytes w i Hg) as Hb.
  assert (ns_idx (flow_at w i) = -1) as Hns by (apply (fi_slot _ _ Hfi); by rewrite Hst).
  assert (authed (log w) (f_id (flow_at w i)) (peer_ip (flow_at w i))) as Hau by (apply (fi_auth _ _ Hfi); by rewrite Hst).
  destruct (q_dest q) as [[a|a]|].
  - by apply gated_open.
  - apply gated_open; [by apply good_keep|by rewrite flow_at_put|by rewrite flow_at_put].
  - set (g := if dns_pending (flow_at w i) >? 0 then _ else _).
    assert (active g = true /\ f_id g = f_id (flow_at w i) /\ ns_idx g = ns_idx (flow_at w i) /\ state g = state (flow_at w i) /\
      peer_ip g = peer_ip (flow_at w i) /\ tgt g = tgt (flow_at w i) /\ http_mode g = http_mode (flow_at w i) /\ bytes_ok (input g))
      as (? & ? & ? & ? & ? & ? & ? & ?) by (unfold g; by destruct (_ >? 0)).
    destruct (dns_pending g <=? 0); [by apply good_error|by apply good_keep].
Qed.

(** The flow gives up its slot and closes. *)
Lemma inv_drop w i f :
  good w i -> 0 <= ns_idx (flow_at w i) -> ns_idx f = -1 -> state f = ST_CLOSING -> f_id f = f_id (flow_at w i) ->
  peer_ip f = peer_ip (flow_at w i) -> tgt f = tgt (flow_at w i) -> http_mode f = http_mode (flow_at w i) ->
  input f = input (flow_at w i) -> inv (put (ns_flow_unref w (ns_idx (flow_at w i))) i f).
Proof.
  intros Hg H0 Hns Hst Hid Hp Ht Hh Hin. pose proof Hg as [Hi Ha]. apply inv_detach; try done.
  - unfold owner. rewrite Hns. by destruct (active f).
  - intros _. split; [done|]. apply (flow_inv_closing _ (flow_at w i)); try done; [rewrite Hin; by apply good_bytes|by apply inv_at].
Qed.

Lemma slot_nonneg w i : good w i -> ns_idx (flow_at w i) <> -1 -> 0 <= ns_idx (flow_at w i).
Proof.
  intros [Hi Ha] Hne. pose proof (owner_lookup w i Ha) as Hl. destruct (so_ref _ _ (iv_slots _ Hi) i _ Hl) as [?|[? _]]; [done|lia].
Qed.

Lemma reply_fields o f :
  active (connect_reply o f) = active f /\ f_id (connect_reply o f) = f_id f /\ ns_idx (connect_reply o f) = ns_idx f /\
  peer_ip (connect_reply o f) = peer_ip f /\ tgt (connect_reply o f) = tgt f /\ http_mode (connect_reply o f) = http_mode f /\
  input (connect_reply o f) = input f.
Proof. unfold connect_reply. repeat case_match; done. Qed.

Lemma established_inv o w i :
  good w i -> state (flow_at w i) = ST_CONNECTING ->
  inv (put w i (set_flow_state o (connect_reply o (flow_at w i)) ST_ESTABLISHED)).
Proof.
  intros [Hi Ha] Hst. destruct (reply_fields o (flow_at w i)) as (E1 & E2 & E3 & E4 & E5 & E6 & E7).
  destruct (inv_at w i Hi Ha) as [G1 G2 G3 G4 G5]. apply inv_put; try done; [cbn; by rewrite E1|].
  split; cbn; rewrite ?E2, ?E4, ?E5, ?E6, ?E7; try done. intros _ _. by apply G2; rewrite Hst.
Qed.

Lemma timeout_inv o w i (b : bool) :
  good w i -> inv (put (ns_abort o w (ns_idx (flow_at w i))) i
    (if b then set_flow_state o (flow_at w i) ST_CLOSING else queue_socks_error o (flow_at w i) 4)).
Proof.
  intros Hg. pose proof (good_bytes w i Hg) as Hb. pose proof (ns_abort_only o w (ns_idx (flow_at w i))) as Ho.
  pose proof (good_only _ _ _ Ho Hg) as Hg'. destruct Hg as [Hi Ha].
  destruct b; [apply good_closing|apply good_error]; try done; by rewrite (only_flow_at _ _ _ Ho).
Qed.

Lemma tcp_inv o w i : inv w -> inv (update_tcp_state o w i).
Proof.
  intros Hi. unfold update_tcp_state. destruct (active (flow_at w i)) eqn:Ha; [|done]. cbn [negb].
  assert (good w i) as Hg by done. pose proof (good_bytes w i Hg) as Hb.
  assert (inv (if u64 (now o - state_ms (flow_at w i)) >=? HANDSHAKE_TIMEOUT_MS
    then put w i (if http_mode (flow_at w i) then queue_socks_error o (flow_at w i) 5 else set_flow_state o (flow_at w i) ST_CLOSING) else w)) as Hexp.
  { destruct (_ >=? _); [|done]. destruct (http_mode _) eqn:Eh; [by apply good_error|by apply good_closing]. }
  destruct (state (flow_at w i)) eqn:Est; try done.
  destruct (match ns_conn w _ with Some c => c_state c | None => NS_CLOSED end);
    [|destruct (_ >=? _); [by apply timeout_inv|done]|by apply established_inv|by apply established_inv|destruct (_ >=? _); [by apply timeout_inv|done]].
  set (why := if _ =? NS_TERM_TIMEOUT then _ else _).
  destruct (error_fields o (set_ns_idx (flow_at w i) (-1)) why) as (E1 & E2 & E3 & E4 & E5 & E6 & E7 & E8).
  destruct (decide (ns_idx (flow_at w i) = -1)) as [Hn|Hn].
  - rewrite Hn. change (ns_flow_unref w (-1)) with w. destruct (reply_sent _); [by apply good_closing|by apply good_error].
  - pose proof (slot_nonneg w i Hg Hn) as H0.
    destruct (reply_sent (set_ns_idx (flow_at w i) (-1))); by apply inv_drop.
Qed.

Lemma detach_inv o w i : inv w -> inv (detach_dead o w i).
Proof.
  intros Hi. unfold detach_dead. destruct (_ && flow_conn_dead w _) eqn:E; [|done].
  apply andb_true_iff in E as [[Ha _]%andb_true_iff Hd]. unfold flow_conn_dead in Hd. destruct (_ <? 0) eqn:E0; [done|].
  apply inv_drop; try done. lia.
Qed.

Lemma sent_up_good o w i s : good w i -> good (sent_up o w i s) i /\ input (flow_at (sent_up o w i s) i) = input (flow_at w i).
Proof.
  intros Hg. unfold sent_up. destruct s; [done|]. set (f := set_last_progress_ms _ _).
  assert (good (put w i f) i) as Hg1 by (apply good_keep; try done; [apply Hg|by apply good_bytes]).
  assert (flow_at (put w i f) i = f) as E by (apply flow_at_put, Hg).
  split; [|by change (input (flow_at (put w i f) i) = input (flow_at w i)); rewrite E].
  apply good_note; [done|done|]. by rewrite E.
Qed.

Lemma spill_good o rooms : forall w i, good w i -> good (spill o w i rooms) i.
Proof.
  induction rooms as [|[oks|] rooms IH]; intros w i Hg; cbn [spill];
    [apply good_keep; try done; [apply Hg|by apply good_bytes]| |apply good_keep; try done; [apply Hg|by apply good_bytes]].
  destruct (commit_slots oks (input (flow_at w i))) as [sent all]. destruct (sent_up_good o w i sent Hg) as [Hg1 _].
  set (w1 := sent_up o w i sent) in *. set (w2 := put w1 i _).
  assert (good w2 i) as Hg2 by (apply good_keep; try done; [apply Hg1|by apply consume_bytes, good_bytes]).
  destruct (_ || _); [done|by apply IH].
Qed.

Lemma feed_good o evs : forall w i, good w i -> Forall (fun e => match e with F_data d _ => bytes_ok d | _ => True end) evs ->
  good (feed o w i evs) i.
Proof.
  induction evs as [|e evs IH]; intros w i Hg Hev; cbn [feed]; [done|]. apply Forall_cons in Hev as [He Hev].
  destruct e as [| | |d oks]; [apply good_keep; try done; [apply Hg|by apply good_bytes]| |done|].
  - set (w1 := put w i _). assert (good w1 i) as Hg1 by (apply good_keep; try done; [apply Hg|by apply good_bytes]).
    pose proof (good_only _ _ i (ns_close_only w1 (ns_idx (flow_at w1 i))) Hg1) as Hg2.
    apply good_closing; try done; [apply Hg2|by apply good_bytes].
  - destruct (commit_slots oks d) as [sent all]. destruct (sent_up_good o w i sent Hg) as [Hg1 _].
    destruct (_ >? 0); [|by apply IH]. apply good_keep; try done; [apply Hg1|]. cbn. apply bytes_ok_app.
    split; [by apply good_bytes|by apply bytes_ok_drop].
Qed.

Hypothesis tok_len : forall t, tok cfg = Some t -> zlen t < 2 ^ 32.

Lemma recv_good o w i r :
  good w i -> match r with R_data d => bytes_ok d | _ => True end ->
  exists w', local_recv cfg ssrf_off fail_max fail_window o w i r = Ret w' /\ good w' i.
Proof.
  intros Hg Hr. unfold local_recv. destruct (st_is _ ST_CLOSING); [by eexists|].
  destruct (st_is _ ST_RESOLVING && _); [eexists; split; [done|]; apply good_keep; try done; [apply Hg|by apply good_bytes]|].
  pose proof (good_bytes w i Hg) as Hb. set (w1 := match r with R_data _ => _ | _ => _ end).
  assert (good w1 i) as Hg1.
  { unfold w1. destruct r as [d| | |].
    - assert (bytes_ok (input (flow_at w i) ++ d)) by (by apply bytes_ok_app).
      destruct (_ && _); [apply good_closing|apply good_keep]; try done; apply Hg.
    - apply good_closing; try done; apply Hg.
    - done.
    - set (w2 := put w i _). assert (good w2 i) as Hg2 by (apply good_keep; try done; apply Hg).
      assert (good (if ns_idx (flow_at w i) >=? 0 then ns_abort o w2 (ns_idx (flow_at w i)) else w2) i) as Hg3
        by (destruct (_ >=? 0); [eapply good_only; [apply ns_abort_only|done]|done]).
      apply good_closing; try done; [apply Hg3|by apply good_bytes]. }
  destruct (_ >? 0); [by apply passes_good|by exists w1].
Qed.

Definition input_ok (e : input_ev) : Prop :=
  Forall (fun e => match e with F_data d _ => bytes_ok d | _ => True end) (in_feed e) /\
  match in_recv e with R_data d => bytes_ok d | _ => True end.

Lemma input_inv o w i e :
  inv w -> input_ok e -> exists w', local_input cfg ssrf_off fail_max fail_window o w i e = Ret w' /\ inv w'.
Proof.
  intros Hi [Hf Hr]. unfold local_input. destruct (active (flow_at w i)) eqn:Ha; cbn [negb orb]; [|by exists w].
  destruct (local_eof _); [by exists w|]. set (w1 := put w i (set_rx_paused (flow_at w i) false)).
  assert (good w1 i) as Hg1 by (apply good_keep; try done; by apply inv_bytes). set (sp := spills (flow_at w i)).
  set (w2 := if sp then spill o w1 i (in_rooms e) else w1). assert (good w2 i) as Hg2 by (unfold w2; destruct sp; [by apply spill_good|done]).
  destruct (sp && _). { eexists. split; [done|]. apply good_keep; try done; [apply Hg2|by apply good_bytes]. }
  destruct (_ && st_is _ ST_ESTABLISHED). { eexists. split; [done|]. by apply feed_good. }
  destruct (negb _); [|exists w2; split; [done|apply Hg2]].
  destruct (recv_good o w2 i (in_recv e) Hg2 Hr) as (w' & -> & Hg'). exists w'. split; [done|apply Hg'].
Qed.

Lemma inputs_inv o es ix : forall w, inv w -> (forall i, input_ok (es i)) ->
  exists w', local_inputs cfg ssrf_off fail_max fail_window o w ix es = Ret w' /\ inv w'.
Proof.
  induction ix as [|i ix IH]; intros w Hi He; cbn [local_inputs]; [by exists w|].
  destruct (input_inv o w i (es i) Hi (He i)) as (w1 & -> & Hi1). cbn [rbind]. by apply IH.
Qed.

Lemma fold_inv {A} (h : world -> A -> world) (l : list A) :
  (forall w a, inv w -> inv (h w a)) -> forall w, inv w -> inv (foldl h w l).
Proof. intros Hh. induction l as [|a l IH]; intros w Hi; [done|]. by apply IH, Hh. Qed.

Lemma service_inputs_inv o w es :
  inv w -> (forall i, input_ok (es i)) -> exists w', service_local_inputs cfg ssrf_off fail_max fail_window o w es = Ret w' /\ inv w'.
Proof. intros Hi He. apply inputs_inv; [|done]. apply fold_inv; [|done]. intros. by apply detach_inv. Qed.

Lemma sent_down_good o w i s : good w i -> good (sent_down o w i s) i.
Proof.
  intros Hg. unfold sent_down. apply good_note; [apply good_keep; try done; [apply Hg|by apply good_bytes]|done|].
  by rewrite flow_at_put by apply Hg.
Qed.

Lemma drain_output_good o evs : forall w i, good w i -> good (drain_output o w i evs) i.
Proof.
  induction evs as [|e evs IH]; intros w i Hg; cbn [drain_output]; destruct (_ =? 0); try done.
  pose proof (good_bytes w i Hg) as Hb. destruct e as [n| |]; [|done|].
  - apply IH, sent_down_good. apply good_keep; try done; apply Hg.
  - set (w1 := put w i _). assert (good w1 i) as Hg1 by (apply good_keep; try done; apply Hg).
    assert (good (if ns_idx (flow_at w i) >=? 0 then ns_abort o w1 (ns_idx (flow_at w i)) else w1) i) as Hg2
      by (destruct (_ >=? 0); [eapply good_only; [apply ns_abort_only|done]|done]).
    apply good_closing; try done; [apply Hg2|by apply good_bytes].
Qed.

Lemma drain_rxq_good o w i e : good w i -> good (drain_rxq o w i e).1 i.
Proof.
  intros Hg. pose proof (good_bytes w i Hg) as Hb. unfold drain_rxq. destruct (_ && reply_sent _); [|done].
  assert (forall v, good (put w i (set_rxq_waiting (flow_at w i) v)) i) as Hw by (intros v; apply good_keep; try done; apply Hg).
  destruct (ns_conn w _) as [c|]; [|apply Hw]. destruct (_ >? 0); [|apply Hw]. destruct e as [n| |]; [|apply Hw|].
  - set (w1 := put_conn w _ _). pose proof (only_put_conn w (ns_idx (flow_at w i)) (set_rxq c (drop (Z.to_nat (taken n (Z.min (zlen (rxq c)) LOCAL_WRITE_LIMIT))) (rxq c)))) as Ho.
    pose proof (good_only _ _ _ Ho Hg) as Hg1. apply sent_down_good. apply good_keep; try done; apply Hg.
  - set (w1 := put w i _). assert (good w1 i) as Hg1 by (apply good_keep; try done; apply Hg).
    pose proof (good_only _ _ i (ns_abort_only o w1 (ns_idx (flow_at w i))) Hg1) as Hg2.
    apply good_closing; try done; [apply Hg2|by apply good_bytes].
Qed.

Lemma output_inv o w i evs e : inv w -> inv (local_output o w i evs e).
Proof.
  intros Hi. unfold local_output. destruct (active (flow_at w i)) eqn:Ha; [|done]. cbn [negb].
  assert (good w i) as Hg by done. pose proof (drain_rxq_good o (drain_output o w i evs) i e (drain_output_good o evs w i Hg)) as Hg1.
  destruct (drain_rxq _ _ _ _) as [w1 stop]. cbn in Hg1. destruct stop; [apply Hg1|].
  destruct (if ns_idx (flow_at w1 i) >=? 0 then _ else _) as [c|]; [|apply Hg1]. destruct (_ && (_ >=? _)); [|apply Hg1].
  pose proof (ns_close_only w1 (ns_idx (flow_at w1 i))) as Ho. pose proof (good_only _ _ _ Ho Hg1) as Hg2.
  apply good_closing; try done; rewrite ?(only_flow_at _ _ _ Ho); try done; [apply Hg1|by apply good_bytes].
Qed.

Lemma inv_len w n : inv w -> inv (set_g_flow_len w n).
Proof. intros [Hs Hc Hfl Ht Hids Hu Hlog Hnx]. by split. Qed.

Lemma free_inv o w i : inv w -> inv (flow_free o w i).
Proof.
  intros Hi. unfold flow_free. destruct (active (flow_at w i)) eqn:Ha; [|done]. cbn [negb]. apply inv_len.
  assert (good w i) as Hg by done. destruct (ns_idx (flow_at w i) >=? 0) eqn:E.
  - set (keep := match _ with Some _ => _ | None => _ end).
    set (w1 := if keep then w else ns_abort o w (ns_idx (flow_at w i))).
    assert (only_conns w w1) as Ho by (unfold w1; destruct keep; [apply only_refl|apply ns_abort_only]).
    pose proof (good_only _ _ _ Ho Hg) as [Hi1 Ha1]. rewrite <- (only_flow_at _ _ i Ho). apply inv_detach; [done|done| |done|done].
    rewrite (only_flow_at _ _ i Ho). lia.
  - rewrite <- put_refs. apply inv_set; [done|done| |done]. rewrite list_insert_id; [apply Hi|]. rewrite owner_lookup by done.
    cbn. f_equal. destruct (decide (ns_idx (flow_at w i) = -1)) as [|Hn]; [done|]. pose proof (slot_nonneg w i Hg Hn). lia.
Qed.

Lemma unref_log w k : log (ns_flow_unref w k) = log w /\ flows (ns_flow_unref w k) = flows w.
Proof. unfold ns_flow_unref. by destruct (_ || _). Qed.

Lemma drop_good w w1 i f :
  good w i -> only_conns w w1 -> 0 <= ns_idx (flow_at w i) -> ns_idx f = -1 -> active f = true -> state f = ST_CLOSING ->
  f_id f = f_id (flow_at w i) -> peer_ip f = peer_ip (flow_at w i) -> tgt f = tgt (flow_at w i) ->
  http_mode f = http_mode (flow_at w i) -> input f = input (flow_at w i) ->
  good (put (ns_flow_unref w1 (ns_idx (flow_at w i))) i f) i.
Proof.
  intros Hg Ho H0 Hns Hf Hst Hid Hp Ht Hh Hin. pose proof (good_only _ _ _ Ho Hg) as Hg1. pose proof (only_flow_at _ _ i Ho) as E. split.
  - rewrite <- E in *. by apply inv_drop.
  - rewrite flow_at_put; [done|]. unfold flow_at in *. destruct (unref_log w1 (ns_idx (default flow0 (flows w !! i)))) as [_ ->].
    rewrite E. apply Hg.
Qed.

Lemma reap_slot_good o w i : good w i -> good (reap_slot o w i).1 i.
Proof.
  intros Hg. unfold reap_slot. destruct (ns_idx (flow_at w i) >=? 0) eqn:E; [|done].
  assert (0 <= ns_idx (flow_at w i)) as H0 by lia. pose proof Hg as [Hi Ha].
  assert (good (put (ns_flow_unref w (ns_idx (flow_at w i))) i (set_flow_state o (set_ns_idx (flow_at w i) (-1)) ST_CLOSING)) i) as Hd
    by (apply drop_good; try done; apply only_refl).
  destruct (ns_conn w _) as [c|]; [|done]. destruct (negb (pcb c)); [done|]. destruct (_ && _); [|done].
  apply drop_good; try done. apply ns_abort_only.
Qed.

Lemma reap_inv o w i : inv w -> inv (reap_flow o w i).
Proof.
  intros Hi. unfold reap_flow. destruct (active (flow_at w i)) eqn:Ha; [|done]. cbn [negb].
  set (w0 := if _ && (ns_idx _ <? 0) then _ else _).
  assert (good w0 i) as Hg0 by (unfold w0; destruct (_ && _); [apply good_closing; try done; by apply inv_bytes|done]). clearbody w0.
  pose proof (reap_slot_good o w0 i Hg0) as Hg1. destruct (reap_slot o w0 i) as [w1 rm]. cbn in Hg1.
  destruct (ns_idx (flow_at w1 i) <? 0); [|destruct rm; [apply free_inv, Hg1|apply Hg1]].
  destruct (_ && (_ >=? _)); [|destruct (_ && _); [apply free_inv, Hg1|apply Hg1]].
  apply free_inv. apply good_keep; try done; [apply Hg1|by apply good_bytes].
Qed.

Lemma kill_inv o w i : good w i -> inv (flow_kill_dead_client o w i).
Proof.
  intros Hg. unfold flow_kill_dead_client. set (w1 := put w i _).
  assert (good w1 i) as Hg1 by (apply good_keep; try done; [apply Hg|by apply good_bytes]). set (w2 := if ns_idx _ >=? 0 then _ else _).
  assert (good w2 i) as Hg2 by (unfold w2; destruct (_ >=? 0); [eapply good_only; [apply ns_close_only|done]|done]).
  apply good_closing; try done; [apply Hg2|by apply good_bytes].
Qed.

Lemma poll_inv o w i nval : inv w -> inv (poll_error o w i nval).
Proof.
  intros Hi. unfold poll_error. destruct (active (flow_at w i)) eqn:Ha; [|done]. cbn [negb].
  assert (good w i) as Hg by done. destruct nval; [by apply free_inv|]. destruct (negb _); [done|].
  destruct (_ && _); [by apply kill_inv|]. destruct (_ >? _).
  - apply kill_inv. apply good_keep; try done. by apply good_bytes.
  - apply good_keep; try done. by apply good_bytes.
Qed.

Lemma find_inactive w i : find_index (fun f => negb (active f)) (flows w) = Some i ->
  (i < length (flows w))%nat /\ (owner <$> flows w) !! i = Some (-1).
Proof.
  intros E. apply find_index_Some in E as [(g & Hg & Hb) _]. split; [by eapply lookup_lt_Some|].
  rewrite list_lookup_fmap, Hg. cbn. unfold owner. by destruct (active g).
Qed.

Lemma accept_inv o w peer nb : inv w -> g_next_id w + 1 < 2 ^ 64 -> inv (accept_connection cfg o w peer nb).
Proof.
  intros Hi Hn. unfold accept_connection. destruct (negb _ && negb _); [done|]. destruct (auth_fail_blocked _ _ _); [done|].
  destruct (negb nb); [done|]. unfold flow_alloc. destruct (find_index _ _) as [i|] eqn:E; [|done]. cbn [fst].
  apply find_inactive in E as [Hlt Ho]. destruct Hi as [Hs Hc Hfl Ht Hids Hu Hlog Hnx].
  assert (u64 (g_next_id w + 1) = g_next_id w + 1) as En by (apply Z.mod_small; lia). set (nf := mk_flow true _ _ _ _ _ _ _ _ _ _ _ _ _ _ _ _ _ _ _ _ _).
  assert (forall j g, <[i := nf]> (flows w) !! j = Some g -> (j = i /\ g = nf) \/ (j <> i /\ flows w !! j = Some g)) as Hj.
  { intros j g. destruct (decide (j = i)) as [->|Hne].
    - rewrite list_lookup_insert_eq by done. intros [= <-]. by left.
    - rewrite list_lookup_insert_ne by done. by right. }
  split; cbn; try done; rewrite ?En.
  - rewrite list_fmap_insert, list_insert_id; [done|]. by rewrite Ho.
  - intros j g [[-> ->]|[_ Hg]]%Hj Ha; [|by eapply Hfl]. split; cbn; try done. constructor.
  - intros j g [[-> ->]|[_ Hg]]%Hj Ha; [cbn; lia|]. specialize (Hids j g Hg Ha). lia.
  - intros j k g g' [[-> ->]|[Hne Hg]]%Hj [[-> ->]|[Hne' Hg']]%Hj Ha Ha' Eid; [done| | |by eapply Hu].
    + specialize (Hids k g' Hg' Ha'). cbn in Eid. lia.
    + specialize (Hids j g Hg Ha). cbn in Eid. lia.
  - apply (Forall_impl _ _ _ Hlog). intros a Hx. cbn in *. lia.
  - lia.
Qed.

(** ** A new session of the tunnel *)

(** With the address of the old session: the flows that wait for a name fail. *)
Lemma reauth_kept_inv o w i : inv w -> inv (reauth_kept_flow o w i).
Proof.
  intros Hi. unfold reauth_kept_flow. destruct (active (flow_at w i)) eqn:Ha; [|done]. destruct (st_is _ _) eqn:Es; [|done]. cbn [andb].
  pose proof (inv_bytes w i Hi Ha) as Hb. assert (ns_idx (flow_at w i) = -1) as En.
  { apply (fi_slot _ _ (inv_at w i Hi Ha)). unfold early. by rewrite Es, orb_true_r. }
  by apply inv_fail.
Qed.

(** With another one the stack is rebuilt.  While [socks_reauth_flows] runs, the flows from the [n]-th
    on keep slots of the old stack; the state without those satisfies the invariant. *)
Definition detached (n : nat) (w : world) : world :=
  set_flows w (imap (fun i f => if decide (i < n)%nat then f else if active f then set_ns_idx f (-1) else f) (flows w)).

(** The connect for flow [i] retires another one. *)
Definition evicts (o : io) (w : world) (i : nat) : bool :=
  let (w, idx) := conn_connect_af o 0 w in (idx <? 0) && (evict_stalest_idle_flow o w i).2.

(** The flow gets a new connection, on a state in which its old slot is forgotten. *)
Definition reopens (f : Flow) : bool :=
  active f && negb (st_is (state f) ST_RESOLVING) && (ns_idx f >=? 0) && (st_is (state f) ST_CONNECTING || st_is (state f) ST_ESTABLISHED).

(** No flow is retired while the flows [l] get their new connections. *)
Fixpoint spares (os : nat -> io) (w : world) (l : list nat) : bool :=
  match l with
  | [] => true
  | i :: l =>
      let f := flow_at w i in
      negb (reopens f && evicts (os i) (put w i (set_rx_paused (set_ns_idx f (-1)) false)) i) && spares os (socks_reauth_flow os w i) l
  end.

Definition rebuild_spares (os : nat -> io) (w : world) : bool := spares os (ns_init w) (seq 0 (length (flows w))).

Lemma detached_at n w i f :
  flows w !! i = Some f -> flow_at (detached n w) i = if decide (i < n)%nat then f else if active f then set_ns_idx f (-1) else f.
Proof. intros Hf. unfold flow_at, detached. cbn. by rewrite list_lookup_imap, Hf. Qed.

(** Flow [n] is the next one. *)
Lemma detached_put n w f : detached (S n) (put w n f) = put (detached n w) n f.
Proof.
  unfold detached, put, set_flows. cbn [flows conns g_flow_ref g_next_id g_flow_len g_auth_fail log]. f_equal.
  apply list_eq. intros i. rewrite list_lookup_imap. destruct (decide (i = n)) as [->|Hne].
  - destruct (decide (n < length (flows w))%nat) as [L|L].
    + rewrite !list_lookup_insert_eq by (rewrite ?length_imap; done). cbn. by rewrite decide_True by lia.
    + rewrite !lookup_ge_None_2 by (rewrite length_insert, ?length_imap; lia). done.
  - rewrite !list_lookup_insert_ne by done. rewrite list_lookup_imap. destruct (flows w !! i); [|done]. cbn. f_equal.
    destruct (decide (i < S n)%nat), (decide (i < n)%nat); lia || done.
Qed.

Lemma detached_put_S n w f : detached (S n) (put w n f) = put (detached (S n) w) n f.
Proof.
  rewrite detached_put. unfold detached, put, set_flows. cbn. f_equal. apply list_eq. intros i.
  destruct (decide (i = n)) as [->|Hne].
  - destruct (decide (n < length (flows w))%nat) as [L|L]; [by rewrite !list_lookup_insert_eq by (by rewrite length_imap)|].
    by rewrite !lookup_ge_None_2 by (rewrite length_insert, length_imap; lia).
  - rewrite !list_lookup_insert_ne, !list_lookup_imap by done. destruct (flows w !! i); [|done]. cbn. f_equal.
    destruct (decide (i < S n)%nat), (decide (i < n)%nat); lia || done.
Qed.

Lemma put_same w i f : flows w !! i = Some f -> put w i f = w.
Proof. intros Hf. unfold put. rewrite list_insert_id by done. by destruct w. Qed.

(** Nothing to do for the flow. *)
Lemma detached_skip n w : (active (flow_at w n) = true -> ns_idx (flow_at w n) = -1) -> detached (S n) w = detached n w.
Proof.
  intros Hn. destruct (flows w !! n) as [f|] eqn:Ef.
  - rewrite <- (put_same w n f Ef) at 1. rewrite detached_put. apply put_same. unfold detached. cbn. rewrite list_lookup_imap, Ef. cbn.
    rewrite decide_False by lia. rewrite (flow_at_lookup _ _ _ Ef) in Hn. destruct (active f) eqn:Ea; [|done]. f_equal.
    rewrite <- (Hn eq_refl). by destruct f.
  - unfold detached, set_flows. f_equal. apply list_eq. intros i. rewrite !list_lookup_imap. destruct (flows w !! i) as [f|] eqn:Ei; [|done]. cbn. f_equal.
    assert (i <> n) by congruence. destruct (decide (i < S n)%nat), (decide (i < n)%nat); lia || done.
Qed.

Lemma detached_opened o n w r lp d port : detached (S n) (opened o w r n lp d port) = opened o (detached (S n) w) r n lp d port.
Proof.
  assert (flow_at (detached (S n) w) n = flow_at w n) as Ef.
  { unfold flow_at at 2. destruct (flows w !! n) as [f|] eqn:E; [rewrite (detached_at _ _ _ f E); by rewrite decide_True by lia|].
    unfold flow_at, detached. cbn. by rewrite list_lookup_imap, E. }
  unfold opened. rewrite Ef. destruct (r <? 0); [apply detached_put_S|]. unfold note. set (f := connecting _ _ _ _ _ _).
  assert (ns_flow_ref (detached (S n) w) r = detached (S n) (ns_flow_ref w r)) as -> by (unfold ns_flow_ref; by destruct (_ || _)).
  by rewrite <- detached_put_S.
Qed.

Lemma opened_other o n w r lp d port i : i <> n -> flows (opened o w r n lp d port) !! i = flows w !! i.
Proof.
  intros Hne. assert (flows (ns_flow_ref w r) = flows w) as Ef by (unfold ns_flow_ref; by destruct (_ || _)).
  unfold opened. destruct (r <? 0); cbn [put note set_log set_flows flows]; rewrite ?Ef; by apply list_lookup_insert_ne.
Qed.

(** What holds before flow [n] is handled. *)
Definition mid (n : nat) (w : world) : Prop :=
  inv (detached n w) /\ forall i f, (n <= i)%nat -> flows w !! i = Some f -> active f = true -> -1 <= ns_idx f.

Lemma rebuild_start w : inv w -> mid 0 (ns_init w).
Proof.
  intros [Hs Hc Hfl Ht Hids Hu Hlog Hnx].
  assert (forall i f, flows (detached 0 (ns_init w)) !! i = Some f -> exists g, flows w !! i = Some g /\ f = if active g then set_ns_idx g (-1) else g) as Hd.
  { intros i f. unfold detached, ns_init. cbn. rewrite list_lookup_imap. destruct (flows w !! i) as [g|]; [|done]. intros [= <-]. by exists g. }
  assert (forall i f, flows (detached 0 (ns_init w)) !! i = Some f -> active f = true -> exists g, flows w !! i = Some g /\ active g = true /\ f = set_ns_idx g (-1)) as Ha.
  { intros i f Hf Hact. destruct (Hd i f Hf) as (g & Hg & ->). exists g. destruct (active g) eqn:E; [done|]. congruence. }
  assert (forall i k, (owner <$> flows (detached 0 (ns_init w))) !! i = Some k -> k = -1) as Ho.
  { intros i k. rewrite list_lookup_fmap. destruct (flows (detached 0 (ns_init w)) !! i) as [f|] eqn:E; [|done]. intros [= <-]. unfold owner.
    destruct (active f) eqn:Ea; [|done]. by destruct (Ha i f E Ea) as (g & _ & _ & ->). }
  split; [split; try done|].
  - split; [apply length_replicate|intros i k Hk; left; by eapply Ho|intros i j k Hk _ H0; apply Ho in Hk; lia|].
    intros n Hn. apply lookup_replicate in Hn as [? _]. done.
  - intros i f Hf Hact. destruct (Ha i f Hf Hact) as (g & Hg & Hga & ->). destruct (Hfl i g Hg Hga) as [H1 H2 H3 H4 H5]. by split.
  - intros i f Hf Hact. destruct (Ha i f Hf Hact) as (g & Hg & Hga & ->). by apply (Hids i g).
  - intros i j f g Hf Hg Haf Hag E. destruct (Ha i f Hf Haf) as (f0 & Hf0 & Ha0 & ->). destruct (Ha j g Hg Hag) as (g0 & Hg0 & Hb0 & ->). by apply (Hu i j f0 g0).
  - intros i f _ Hf Hact. destruct (so_ref _ _ Hs i (ns_idx f)) as [->|[? _]]; [|lia..].
    change (flows (ns_init w)) with (flows w) in Hf. rewrite list_lookup_fmap, Hf. cbn. unfold owner. by rewrite Hact.
Qed.

(** A connect that retires nobody touches the slots only. *)
Lemma spared_open o w i d port :
  evicts o w i = false -> exists cs r, length cs = length (conns w) /\
    (r = -1 \/ exists n, r = Z.of_nat n /\ g_flow_ref w !! n = Some false) /\
    (open_tcp_conn_af o w i d port = put w i (queue_socks_error o (flow_at w i) 1) \/
     open_tcp_conn_af o w i d port = opened o (set_conns w cs) r i (alloc_port o w) d port).
Proof.
  unfold evicts, open_tcp_conn_af, connect_slot. destruct (conn_connect_af o 0 w) as [w1 r1] eqn:E1. intros He.
  destruct (connect_spec _ _ _ _ _ E1) as [(cs & -> & Hl) R1]. exists cs, r1. split; [done|]. split; [done|]. destruct (_ =? 0); [by left|]. right.
  destruct (r1 <? 0) eqn:Er; [|unfold opened; by rewrite Er].
  cbn [andb] in He. destruct (evict_stalest_idle_flow o (set_conns w cs) i) as [w3 ev] eqn:E2. cbn [snd] in He. subst ev.
  unfold evict_stalest_idle_flow in E2. destruct (evict_scan _ _ _ _ _ _); [done|]. injection E2 as <-. unfold opened. by rewrite Er.
Qed.

Lemma mid_put n w f :
  mid n w -> inv (put (detached n w) n f) -> mid (S n) (put w n f).
Proof.
  intros [_ Hold] Hi. split; [by rewrite detached_put|]. intros i g Hn Hg. apply (Hold i g); [lia|]. revert Hg. unfold put. cbn.
  by rewrite list_lookup_insert_ne by lia.
Qed.

(** The new connection of flow [n], its old slot forgotten. *)
Lemma mid_reopen o w n d port (f := flow_at w n) :
  mid (S n) w -> active f = true -> ns_idx f = -1 -> authed (log w) (f_id f) (peer_ip f) -> gated (peer_ip f) d ->
  evicts o w n = false -> mid (S n) (open_tcp_conn_af o w n d port).
Proof.
  intros [Hi Hold] Ha Hns Hau Hga Hev. assert (flow_at (detached (S n) w) n = f) as Ed.
  { rewrite (detached_at _ _ _ _ (active_lookup _ _ Ha)). by rewrite decide_True by lia. }
  assert (active (flow_at (detached (S n) w) n) = true) as Hda by (by rewrite Ed). pose proof (inv_bytes _ _ Hi Hda) as Hb.
  destruct (spared_open o w n d port Hev) as (cs & r & Hlen & Hr & [-> | ->]); split.
  - rewrite detached_put_S. apply inv_error; rewrite ?Ed; try done. by rewrite Ed in Hb.
  - intros i g Hn. cbn [put set_flows flows]. rewrite list_lookup_insert_ne by lia. by apply Hold.
  - rewrite detached_opened. set (w2 := detached (S n) (set_conns w cs)). assert (flow_at w2 n = f) as Ed2 by exact Ed.
    apply opened_good; rewrite ?Ed2; try done. split; [exact (inv_conns _ cs Hi Hlen)|by rewrite Ed2].
  - intros i g Hn. rewrite opened_other by lia. by apply Hold.
Qed.

Lemma mid_step os w n :
  mid n w -> (reopens (flow_at w n) = true -> evicts (os n) (put w n (set_rx_paused (set_ns_idx (flow_at w n) (-1)) false)) n = false) ->
  mid (S n) (socks_reauth_flow os w n).
Proof.
  intros [Hi Hold] Hev. unfold socks_reauth_flow. set (f := flow_at w n) in *. cbv zeta.
  assert ((active f = true -> ns_idx f = -1) -> mid (S n) w) as Hskip.
  { intros Hf. split; [by rewrite detached_skip|]. intros i g Hn. apply Hold. lia. }
  destruct (active f) eqn:Ha; [|by apply Hskip]. cbn [negb]. pose proof (active_lookup w n Ha) as Hl. fold f in Hl.
  assert (flow_at (detached n w) n = set_ns_idx f (-1)) as Ef by (rewrite (detached_at _ _ _ _ Hl), decide_False, Ha by lia; done).
  assert (active (flow_at (detached n w) n) = true) as Hda by (by rewrite Ef).
  pose proof (inv_bytes _ _ Hi Hda) as Hb. pose proof (inv_at _ _ Hi Hda) as Hfi.
  assert (forall rep, mid (S n) (put w n (set_flow_state (os n) (queue_socks_error (os n) (set_ns_idx f (-1)) rep) ST_CLOSING))) as Herr.
  { intros rep. apply mid_put; [done|]. rewrite <- Ef. by apply inv_fail. }
  destruct (st_is (state f) ST_RESOLVING) eqn:E1; [apply Herr|]. destruct (ns_idx f <? 0) eqn:E2.
  { apply Hskip. intros _. specialize (Hold n f ltac:(lia) Hl Ha). lia. }
  destruct (negb _ && negb _) eqn:E3.
  { apply mid_put; [done|]. rewrite <- Ef, put_same; [done|]. by apply active_lookup. }
  set (f1 := set_rx_paused (set_ns_idx f (-1)) false) in *. change (tgt f1) with (tgt f).
  destruct (tgt f) as [[d port]|] eqn:Et; [|apply mid_put; [done|]].
  2: { apply inv_fail; rewrite ?Ef; try done. by rewrite Ef in Hb. }
  assert (mid (S n) (put w n f1)) as Hm1.
  { apply mid_put; [done|]. apply inv_keep; try done; rewrite ?Ef; try done. by rewrite Ef in Hb. }
  assert (flow_at (put w n f1) n = f1) as Ef1 by (by apply flow_at_put).
  apply mid_reopen; rewrite ?Ef1; try done.
  - rewrite Ef in Hfi. apply (fi_auth _ _ Hfi); cbn [set_ns_idx state]; intros E; by rewrite E in E3.
  - rewrite Ef in Hfi. by apply (fi_tgt _ _ Hfi d port).
  - apply Hev. unfold reopens. rewrite Ha, E1. destruct (ns_idx f >=? 0) eqn:?; [|lia]. cbn [negb andb].
    destruct (st_is (state f) ST_CONNECTING); [done|]. by destruct (st_is (state f) ST_ESTABLISHED).
Qed.

Lemma reauth_flow_len os w i : length (flows (socks_reauth_flow os w i)) = length (flows w).
Proof.
  unfold socks_reauth_flow. assert (forall v j f, length (flows (put v j f)) = length (flows v)) as Hp by (intros; apply length_insert).
  assert (forall o v j d p, length (flows (open_tcp_conn_af o v j d p)) = length (flows v)) as Ho.
  { intros o v j d p. unfold open_tcp_conn_af. destruct (_ =? 0); [apply Hp|]. destruct (connect_slot o v j) as [v2 r] eqn:E.
    assert (length (flows v2) = length (flows v)) as E2.
    { unfold connect_slot in E. destruct (conn_connect_af o 0 v) as [v1 r1] eqn:C1. destruct (connect_spec _ _ _ _ _ C1) as [(cs & -> & _) _].
      destruct (r1 <? 0); [|by injection E as <- <-]. destruct (evict_stalest_idle_flow o (set_conns v cs) j) as [v3 ev] eqn:C2.
      assert (length (flows v3) = length (flows v)) as E3.
      { unfold evict_stalest_idle_flow in C2. destruct (evict_scan _ _ _ _ _ _) as [k|]; [|by injection C2 as <- <-].
        injection C2 as <- _. destruct (ns_conn _ _); unfold ns_flow_unref, ns_abort; repeat case_match; cbn; rewrite ?length_insert; done. }
      destruct ev; [|injection E as <- <-; done]. destruct (connect_spec _ _ _ _ _ E) as [(cs' & -> & _) _]. done. }
    destruct (r <? 0); [by rewrite Hp|]. unfold note. cbn [set_log flows]. rewrite Hp. unfold ns_flow_ref. by destruct (_ || _). }
  repeat case_match; rewrite ?Ho, ?Hp; done.
Qed.

Lemma rebuild_inv os w : rebuild_spares os w = true -> inv w -> inv (socks_reauth_flows os (ns_init w)).
Proof.
  intros Hsp Hi. unfold socks_reauth_flows. change (flows (ns_init w)) with (flows w). unfold rebuild_spares in Hsp.
  enough (forall k n v, mid n v -> (n + k = length (flows v))%nat -> spares os v (seq n k) = true -> inv (foldl (socks_reauth_flow os) v (seq n k))) as Hgo.
  { apply Hgo; [by apply rebuild_start|done|done]. }
  clear. induction k as [|k IH]; intros n v Hm Hl Hs.
  - cbn. destruct Hm as [Hm _]. assert (detached n v = v) as <-; [|done]. transitivity (set_flows v (flows v)); [|by destruct v].
    unfold detached. f_equal. apply list_eq. intros i. rewrite list_lookup_imap. destruct (flows v !! i) eqn:E; [|done]. cbn.
    apply lookup_lt_Some in E. by rewrite decide_True by lia.
  - cbn [seq foldl]. cbn [seq spares] in Hs. apply andb_true_iff in Hs as [Hs1 Hs2]. apply IH; [|rewrite reauth_flow_len; lia|done].
    apply mid_step; [done|]. intros Hr. rewrite Hr in Hs1. cbn [andb] in Hs1. by apply negb_true_iff.
Qed.

(** ** Steps of the event loop *)

Inductive step (w : world) : world -> Prop :=
| SP_accept o peer nb : g_next_id w + 1 < 2 ^ 64 -> step w (accept_connection cfg o w peer nb)
| SP_inputs o es w' : (forall i, input_ok (es i)) ->
    service_local_inputs cfg ssrf_off fail_max fail_window o w es = Ret w' -> step w w'
| SP_dns o qs : step w (handle_dns_results ssrf_off o w qs)
| SP_output o i evs e : step w (local_output o w i evs e)
| SP_tcp o : step w (update_tcp_states o w)
| SP_reap o : step w (reap_flows o w)
| SP_poll o i nval : step w (poll_error o w i nval)
| SP_lwip cs : length cs = length (conns w) -> step w (set_conns w cs)
| SP_reauth_kept o : step w (socks_reauth_kept o w)
| SP_reauth_flows os : rebuild_spares os w = true -> step w (socks_reauth_flows os (ns_init w)).

Lemma step_inv w w' : step w w' -> inv w -> inv w'.
Proof.
  intros Hs Hi. destruct Hs as [o peer nb Hn|o es w' He Hw|o qs|o i evs e|o|o|o i nval|cs Hl|o|os Hsp].
  - by apply accept_inv.
  - destruct (service_inputs_inv o w es Hi He) as (w2 & E2 & Hi2). congruence.
  - apply fold_inv; [|done]. intros. by apply dns_inv.
  - by apply output_inv.
  - apply fold_inv; [|done]. intros. by apply tcp_inv.
  - apply fold_inv; [|done]. intros. by apply reap_inv.
  - by apply poll_inv.
  - by apply inv_conns.
  - apply fold_inv; [|done]. intros. by apply reauth_kept_inv.
  - by apply rebuild_inv.
Qed.

Definition world0 : world :=
  mk_world (replicate MAX_FLOWS flow0) (replicate NS_MAX_CONN conn_cleared) (replicate NS_MAX_CONN false) 1 0
    (replicate AUTH_FAIL_TRACK_MAX rec0) [].

Definition reachable (w : world) : Prop := rtc step world0 w.

Lemma world0_inv : inv world0.
Proof.
  assert (forall i f, replicate MAX_FLOWS flow0 !! i = Some f -> active f = true -> False) as Hno.
  { intros i f Hf%lookup_replicate Ha. destruct Hf as [-> _]. done. }
  split; cbn [world0 flows conns g_flow_ref g_next_id log]; try done.
  - split; [apply length_replicate| | |].
    + intros i k Hk. rewrite fmap_replicate in Hk. apply lookup_replicate in Hk as [-> _]. by left.
    + intros i j k Hk. rewrite fmap_replicate in Hk. apply lookup_replicate in Hk as [-> _]. cbn. lia.
    + intros n Hk. apply lookup_replicate in Hk as [? _]. done.
  - intros i f Hf Ha. by destruct (Hno i f).
  - constructor.
  - intros i f Hf Ha. by destruct (Hno i f).
  - intros i j f g Hf _ Ha. by destruct (Hno i f).
Qed.

Lemma reachable_inv w : reachable w -> inv w.
Proof.
  assert (forall x y, rtc step x y -> inv x -> inv y) as Hrun by (induction 1; eauto using step_inv).
  intros Hr. by eapply Hrun, world0_inv.
Qed.

Lemma trace_split l1 a l2 : trace_ok (l1 ++ a :: l2) -> act_ok l1 a.
Proof.
  induction l2 as [|b l2 IH] using rev_ind; intros Ht; inversion Ht as [E|l x Hl Ha E].
  - by destruct l1.
  - apply app_inj_tail in E as [-> ->]. done.
  - by destruct l1.
  - rewrite app_comm_cons, app_assoc in E. apply app_inj_tail in E as [-> ->]. by apply IH.
Qed.

(** C18: No connection without login.  Take any interleaving of accepted clients, client
    bytes, DNS answers, lwIP activity, timeouts, reaping and new sessions of the tunnel (a
    rebuild of the stack that retires no flow).  With a token configured, every
    connection the proxy opened and every name it resolved for a client is preceded in the
    log by a login of that very flow with exactly the token as password; a login is recorded
    as successful exactly when its password is the token; and unless the operator turned the
    gate off, no connection for a client that is not itself local goes to a loopback,
    unspecified or link-local address, in its IPv4, IPv6 or IPv4-mapped spelling, no matter
    whether the address came from the request or from a DNS answer. *)
Theorem proxy_trace (w : world) (l1 l2 : list action) (a : action) :
  reachable w -> log w = l1 ++ a :: l2 ->
  match a with
  | A_open id peer d _ =>
      (forall t, tok cfg = Some t -> A_login id peer t true ∈ l1) /\
      (ssrf_off = false -> peer.[0] <> 127 -> local_dest d = false)
  | A_resolve id peer _ _ _ => forall t, tok cfg = Some t -> A_login id peer t true ∈ l1
  | A_login _ _ pass ok => ok = true <-> forall t, tok cfg = Some t -> pass = t
  | _ => True
  end.
Proof.
  intros Hr El. pose proof (iv_trace _ (reachable_inv w Hr)) as Ht. rewrite El in Ht. apply trace_split in Ht.
  assert (forall id peer, authed l1 id peer -> forall t, tok cfg = Some t -> A_login id peer t true ∈ l1) as Hau.
  { intros id peer [Hn|(p & Hp & Hin)] t Et; congruence. }
  destruct a as [id peer pass ok|id peer d port|id peer host port nq|id s|id s]; cbn in Ht |- *; [done| |by apply Hau|done|done].
  destruct Ht as [Ha Hg]. split; [by apply Hau|]. intros Hs Hp. destruct Hg as [?|[?|?]]; congruence.
Qed.

(** C28: A connection slot has one owner.  Take any interleaving of the event loop's handlers, lwIP
    activity, new sessions of the tunnel that keep the stack, and rebuilds of the stack
    during which no connect fails in a way that retires another flow ([rebuild_spares];
    [reauth_shares_slot] is a rebuild that does, and breaks the property).  In every state
    reached, no two active flows hold the same slot of the TCP stack, and the reference flag of
    a slot is set exactly while an active flow holds it, so that no flow reads or writes another
    client's stream and no slot is lost. *)
Theorem slot_exclusive (w : world) :
  reachable w ->
  (forall i j f g, flows w !! i = Some f -> flows w !! j = Some g -> active f = true -> active g = true ->
     0 <= ns_idx f -> ns_idx f = ns_idx g -> i = j) /\
  (forall n, g_flow_ref w !! n = Some true <-> exists i f, flows w !! i = Some f /\ active f = true /\ ns_idx f = Z.of_nat n).
Proof.
  intros Hr. destruct (iv_slots _ (reachable_inv w Hr)) as [Hl Href Hex Hh].
  assert (forall i f, flows w !! i = Some f -> active f = true -> (owner <$> flows w) !! i = Some (ns_idx f)) as Ho.
  { intros i f Hf Ha. rewrite list_lookup_fmap, Hf. cbn. unfold owner. by rewrite Ha. }
  split.
  - intros i j f g Hf Hg Haf Hag H0 E. apply (Hex i j (ns_idx f)); [by apply Ho|rewrite E; by apply Ho|done].
  - intros n. split.
    + intros Hn. destruct (Hh n Hn) as [i Hi]. rewrite list_lookup_fmap in Hi. destruct (flows w !! i) as [f|] eqn:Ef; [|done].
      cbn in Hi. injection Hi as Hi. unfold owner in Hi. destruct (active f) eqn:Ea; [|lia]. by exists i, f.
    + intros (i & f & Hf & Ha & En). destruct (Href i _ (Ho i f Hf Ha)) as [?|[_ Hx]]; [lia|]. by rewrite En, Nat2Z.id in Hx.
Qed.

(** The input handler is total.  Whatever the clients send and the stack answers, the
    service of all flows reads no byte outside a buffer, finishes, and leads to a state that
    satisfies the same invariants. *)
Theorem inputs_total (o : io) (w : world) (es : nat -> input_ev) :
  reachable w -> (forall i, input_ok (es i)) ->
  exists w', service_local_inputs cfg ssrf_off fail_max fail_window o w es = Ret w' /\ inv w'.
Proof. intros Hr He. by apply service_inputs_inv; [apply reachable_inv|]. Qed.

End Inv.

(** ** A run *)

Definition demo_io : io := mk_io 1000 0 (fun _ => false) (fun _ => true) (fun _ _ => true) (fun _ => false) 174063617 false.
Definition demo_cfg : option SocksConfig := Some (mk_cfg (Some (lit "key")) false true false).

(** Greeting, login and request in one segment. *)
Definition demo_bytes : bytes := [5; 1; 2] ++ [1; 1; 117; 3] ++ lit "key" ++ [5; 1; 0; 1; 93; 184; 216; 34; 0; 80].
Definition demo_es (b : bytes) (i : nat) : input_ev := mk_in [] [] (match i with O => R_data b | _ => R_again end).

Definition run_inputs (c : option SocksConfig) (o : io) (w : world) (es : nat -> input_ev) : world :=
  match @service_local_inputs demo_inet c false 5 60000 o w es with Ret w => w | Fault _ => w end.

Definition demo1 : world := accept_connection demo_cfg demo_io world0 [10; 0; 0; 9] true.
Definition demo2 : world := run_inputs demo_cfg demo_io demo1 (demo_es demo_bytes).

Lemma demo_ok b : bytes_ok b -> forall i, input_ok (demo_es b i).
Proof. intros Hb [|i]; (split; [constructor|done]). Qed.

Lemma demo_tok_len t : tok demo_cfg = Some t -> zlen t < 2 ^ 32.
Proof. intros [= <-]. done. Qed.

Lemma demo2_reachable : @reachable demo_inet demo_cfg false 5 60000 demo2.
Proof.
  eapply rtc_l; [by apply (SP_accept _ _ _ _ world0 demo_io [10; 0; 0; 9] true)|]. apply rtc_once.
  apply (SP_inputs _ _ _ _ demo1 demo_io (demo_es demo_bytes)); [apply demo_ok; apply (bool_decide_unpack _); vm_compute; exact I|].
  unfold demo2, run_inputs. destruct (@service_local_inputs demo_inet demo_cfg false 5 60000 demo_io demo1 (demo_es demo_bytes)) eqn:E; [done|].
  exfalso. vm_compute in E. done.
Qed.

Lemma proxy_trace_witness :
  log demo2 = [A_login 1 [10; 0; 0; 9] (lit "key") true; A_open 1 [10; 0; 0; 9] (D4 1572395042) 80] /\
  (forall t, tok demo_cfg = Some t -> A_login 1 [10; 0; 0; 9] t true ∈ [A_login 1 [10; 0; 0; 9] (lit "key") true]) /\
  (false = false -> [10; 0; 0; 9].[0] <> 127 -> local_dest (D4 1572395042) = false).
Proof.
  assert (log demo2 = [A_login 1 [10; 0; 0; 9] (lit "key") true; A_open 1 [10; 0; 0; 9] (D4 1572395042) 80]) as E by (vm_compute; reflexivity).
  split; [exact E|].
  exact (@proxy_trace demo_inet demo_cfg false 5 60000 demo_tok_len demo2 [A_login 1 [10; 0; 0; 9] (lit "key") true] [] (A_open 1 [10; 0; 0; 9] (D4 1572395042) 80) demo2_reachable E).
Defined.

Lemma inputs_total_witness :
  exists w', @service_local_inputs demo_inet demo_cfg false 5 60000 demo_io demo2 (demo_es [1; 2; 3]) = Ret w' /\ @inv demo_cfg false w'.
Proof.
  apply (@inputs_total demo_inet demo_cfg false 5 60000 demo_tok_len demo_io demo2 (demo_es [1; 2; 3]) demo2_reachable).
  apply demo_ok. apply (bool_decide_unpack _). vm_compute. exact I.
Defined.

(** ** The rebuilt tunnel *)

Definition open_cfg : option SocksConfig := Some (mk_cfg None false false false).
Definition connect_bytes : bytes := [5; 1; 0; 5; 1; 0; 1; 93; 184; 216; 34; 0; 80].
Definition one_es (k : nat) (b : bytes) (i : nat) : input_ev := mk_in [] [] (if Nat.eqb i k then R_data b else R_again).

Definition three_clients : world :=
  Nat.iter 3 (fun w => accept_connection open_cfg demo_io w [127; 0; 0; 1] true) world0.

(** The third client connects first, so the slots are in the opposite order. *)
Definition three_connecting : world :=
  foldl (fun w k => run_inputs open_cfg demo_io w (one_es k connect_bytes)) three_clients [2%nat; 1%nat; 0%nat].

Definition three_up : world :=
  set_conns three_connecting (map (fun c => if pcb c then set_c_state c NS_ESTABLISHED else c) (conns three_connecting)).

Definition three_established : world :=
  foldl (fun w k => local_output demo_io w k [S_sent 100] S_again) (update_tcp_states demo_io three_up) [0%nat; 1%nat; 2%nat].

(** Five seconds later; the first connect attempt for the second client fails. *)
Definition reauth_io (i : nat) : io :=
  mk_io 6000 0 (fun _ => false) (fun k => negb (Nat.eqb i 1 && Nat.eqb k 0)) (fun _ _ => true) (fun _ => false) 174063617 false.

Lemma one_ok k b : bytes_ok b -> forall i, input_ok (one_es k b i).
Proof. intros Hb i. unfold one_es. split; [constructor|]. cbn. by destruct (Nat.eqb i k). Qed.

Lemma open_tok_len t : tok open_cfg = Some t -> zlen t < 2 ^ 32.
Proof. done. Qed.

Lemma run_inputs_step w k :
  @reachable demo_inet open_cfg false 5 60000 w -> @reachable demo_inet open_cfg false 5 60000 (run_inputs open_cfg demo_io w (one_es k connect_bytes)).
Proof.
  intros Hr. assert (forall i, input_ok (one_es k connect_bytes i)) as Hok by (apply one_ok; apply (bool_decide_unpack _); vm_compute; exact I).
  pose proof (@reachable_inv demo_inet open_cfg false 5 60000 open_tok_len w Hr) as Hi.
  destruct (@service_inputs_inv demo_inet open_cfg false 5 60000 open_tok_len demo_io w _ Hi Hok) as (w' & E & _).
  unfold run_inputs. rewrite E. eapply rtc_r; [done|]. by eapply SP_inputs.
Qed.

Lemma three_established_reachable : @reachable demo_inet open_cfg false 5 60000 three_established.
Proof.
  assert (@reachable demo_inet open_cfg false 5 60000 three_clients) as H1.
  { do 3 (eapply rtc_r; [|apply SP_accept; vm_compute; reflexivity]). apply rtc_refl. }
  assert (@reachable demo_inet open_cfg false 5 60000 three_connecting) as H2 by (do 3 apply run_inputs_step; done).
  unfold three_established. cbn [foldl]. do 3 (eapply rtc_r; [|apply SP_output]). eapply rtc_r; [|apply SP_tcp].
  eapply rtc_r; [exact H2|]. apply SP_lwip. apply length_map.
Qed.

(** The same rebuild with every connect succeeding. *)
Definition rebuilt : world := socks_reauth_flows (fun _ => demo_io) (ns_init three_established).

Lemma rebuilt_reachable : @reachable demo_inet open_cfg false 5 60000 rebuilt.
Proof. eapply rtc_r; [exact three_established_reachable|]. apply SP_reauth_flows. vm_compute. reflexivity. Qed.

Lemma slot_exclusive_witness :
  (fun f => (active f, ns_idx f)) <$> take 3 (flows three_established) = [(true, 2); (true, 1); (true, 0)] /\
  (fun f => (active f, ns_idx f)) <$> take 3 (flows rebuilt) = [(true, 0); (true, 1); (true, 2)] /\
  (g_flow_ref rebuilt !! 2%nat = Some true <-> exists i f, flows rebuilt !! i = Some f /\ active f = true /\ ns_idx f = 2).
Proof.
  split; [vm_compute; reflexivity|]. split; [vm_compute; reflexivity|].
  exact (proj2 (@slot_exclusive demo_inet open_cfg false 5 60000 open_tok_len rebuilt rebuilt_reachable) 2%nat).
Defined.

(** C40: The exclusivity of slots is lost when the tunnel is rebuilt and a connect fails.
    [socks_reauth_flows] reopens the flows one by one after [ns_init] cleared all slots, and
    the flows it has not reached yet keep slot numbers of the old stack.  If the first
    connect attempt of one flow fails, the eviction it triggers takes such a flow for an idle
    one, aborts and releases the slot that an earlier flow has just been given, and the
    second attempt gets that slot: two active clients then share one connection. *)
Theorem reauth_shares_slot :
  @reachable demo_inet open_cfg false 5 60000 three_established /\
  let w := socks_reauth_flows reauth_io (ns_init three_established) in
  exists f g, flows w !! 0%nat = Some f /\ flows w !! 1%nat = Some g /\ active f = true /\ active g = true /\
    state f = ST_CONNECTING /\ state g = ST_CONNECTING /\ 0 <= ns_idx f /\ ns_idx f = ns_idx g.
Proof.
  split; [apply three_established_reachable|]. cbv zeta. eexists _, _. split; [vm_compute; reflexivity|].
  split; [vm_compute; reflexivity|]. split_and!; vm_compute; done.
Qed.
