(* ===== verification/FlowFeed.v ===== *)
(** * The proxy handshake does not depend on segmentation (src/src/common/socks_flow.c)

    Feeding a client's bytes in two pieces leaves the proxy in the state that feeding them
    at once leaves it in, in every phase of the SOCKS5 and HTTP handshakes. *)

From S2P Require Import Prelude Util Protocol ProtoParse Lockout Flow FlowInv.

(** ** Input that nobody looks at *)

(** The two fields the handlers after the handshake do not look at. *)
Definition set_io (f : Flow) (x : bytes * Z) : Flow := set_http_scan_off (set_input f x.1) x.2.
Definition io_of (f : Flow) : bytes * Z := (input f, http_scan_off f).

(** ** The parsers on a longer buffer *)

Definition blank (d : bytes) (k : Z) : bool :=
  (d.[k - 3] =? 13) && (d.[k - 2] =? 10) && (d.[k - 1] =? 13) && (d.[k] =? 10).

Definition no_blank (d : bytes) (n : Z) : Prop := forall j, 3 <= j < n -> blank d j = false.

(** The header block of [d] ends at index [h]. *)
Definition ends (d : bytes) (h : Z) : Prop := 3 <= h < zlen d /\ blank d h = true /\ no_blank d h.

Lemma hdr_scan_spec fuel d k :
  3 <= k -> zlen d - k <= Z.of_nat fuel ->
  exists h, hdr_scan fuel d k = Ret h /\ k <= h /\ (forall j, k <= j < h -> blank d j = false) /\ (h < zlen d -> blank d h = true).
Proof.
  revert k. induction fuel as [|fuel IH]; intros k Hk Hf; cbn [hdr_scan]; destruct (k >=? zlen d) eqn:E;
    [exists k; split_and!; [done|lia|lia|lia]|lia|exists k; split_and!; [done|lia|lia|lia]|].
  rewrite !rd_ok by lia. cbn [rbind]. fold (blank d k). destruct (blank d k) eqn:B.
  - exists k. split_and!; [done|lia|lia|done].
  - destruct (IH (k + 1)) as (h & Eh & Hh & Hn & Hb); [lia|lia|]. exists h. split_and!; [done|lia| |done].
    intros j Hj. destruct (decide (j = k)) as [->|]; [done|]. apply Hn. lia.
Qed.

Lemma blank_app d b k : 3 <= k < zlen d -> blank (d ++ b) k = blank d k.
Proof. intros Hk. unfold blank. by rewrite !at_app_l by lia. Qed.

Lemma ends_app d b h : ends d h -> ends (d ++ b) h.
Proof.
  intros (H1 & H2 & H3). pose proof (zlen_nonneg b). split; [rewrite zlen_app; lia|]. split; [by rewrite blank_app|].
  intros j Hj. rewrite blank_app by lia. by apply H3.
Qed.

Lemma ends_unique d h h' : ends d h -> ends d h' -> h = h'.
Proof.
  intros (H1 & H2 & H3) (K1 & K2 & K3). destruct (Z.lt_trichotomy h h') as [L|[L|L]]; [|done|].
  - rewrite K3 in H2 by lia. done.
  - rewrite H3 in K2 by lia. done.
Qed.

Lemma cut_stop f (d b : bytes) : existsb f d = true -> cut f (d ++ b) = cut f d.
Proof. induction d as [|c d IH]; cbn; [done|]. destruct (f c); [done|]. intros E. by rewrite IH. Qed.

Lemma request_line_of_app d b h : ends d h -> request_line_of (d ++ b) = request_line_of d.
Proof.
  intros (H1 & H2 & _). unfold request_line_of. rewrite cut_stop; [done|]. apply existsb_exists. exists (d.[h]). split.
  - unfold at_. apply nth_In. unfold zlen in H1. lia.
  - unfold blank in H2. unfold is_nl. lia.
Qed.

Lemma wait_byte_app d e : d <> [] -> wait_byte d = false -> wait_byte (d ++ e) = false.
Proof.
  intros Hd. unfold wait_byte. rewrite zlen_app. pose proof (zlen_nonneg e). pose proof (zlen_nonneg d).
  rewrite at_app_l by (destruct d; [done|rewrite zlen_cons; pose proof (zlen_nonneg d); lia]). lia.
Qed.

(** A verdict other than "more bytes" does not change. *)
Lemma probe_stable d e v : d <> [] -> pp_http_probe d = Ret v -> v <> -1 -> pp_http_probe (d ++ e) = Ret v.
Proof.
  intros Hd E Hv. destruct (pp_http_probe_eq d Hd) as (r & Er & Ep). destruct (pp_http_probe_eq (d ++ e)) as (r' & Er' & ->); [by destruct d|].
  destruct (method_loop_spec methods d) as (r1 & E1 & H1). rewrite Er in E1. injection E1 as <-.
  destruct (method_loop_spec methods (d ++ e)) as (r2 & E2 & H2). rewrite Er' in E2. injection E2 as <-.
  rewrite Ep in E. injection E as <-. f_equal. destruct r as [v|].
  - destruct H1 as (m & t & Hm & -> & ->). destruct t as [|c t]; [done|]. destruct r' as [v'|].
    + destruct H2 as (m' & t' & Hm' & Eq & ->). rewrite <- app_assoc in Eq. assert (m = m') as <-.
      { destruct (prefix_weak_total m m' (m' ++ t')); [by rewrite <- Eq; eexists|by eexists| |symmetry]; by apply methods_apart. }
      apply app_inv_head in Eq. by subst t'.
    + destruct (H2 m Hm). rewrite <- app_assoc. by eexists.
  - destruct (wait_byte d) eqn:W; [done|]. destruct r' as [v'|]; [|by rewrite wait_byte_app].
    destruct H2 as (m & t & Hm & Eq & _). exfalso.
    destruct (prefix_weak_total m d (d ++ e)) as [P|[u Eu]]; [by rewrite Eq; eexists|by eexists|by destruct (H1 m Hm)|].
    destruct u as [|c u]; [rewrite app_nil_r in Eu; subst; by destruct (H1 d Hm)|].
    rewrite (methods_wait m d (c :: u)) in W; done.
Qed.

Lemma auth_frame_len d u p :
  auth_grammar 64 d (AFValid u p) -> 2 <= zlen d /\ 0 <= d.[1] /\ 2 + d.[1] + 1 + zlen p <= zlen d.
Proof.
  inversion 1 as [| | | | |u' p' r Hu Hp Ed Er]. destruct (zlen u' <? 64); [|done]. injection Er as -> ->.
  rewrite !zlen_cons, !zlen_app, !zlen_cons, zlen_app. pose proof (zlen_nonneg r).
  assert ((1 :: zlen u :: u ++ zlen p :: p ++ r).[1] = zlen u) as -> by done. lia.
Qed.

Lemma greeting_cases (tk : bool) d :
  bytes_ok d -> pp_socks_greeting d tk = Ret None \/
  exists m, 2 <= zlen d /\ 0 <= d.[1] /\ 2 + d.[1] <= zlen d /\ forall b, pp_socks_greeting (d ++ b) tk = Ret (Some m).
Proof.
  intros Hb. unfold pp_socks_greeting. destruct (zlen d <? 2) eqn:E2; [by left|]. rewrite !rd_ok by lia. cbn [rbind].
  destruct (negb (d.[0] =? 5)) eqn:E5; [by left|]. pose proof (at_byte d 1 Hb) as B. unfold is_byte in B.
  destruct (zlen d <? 2 + d.[1]) eqn:En; [by left|]. right. eexists. split_and!; [lia|lia|lia|]. intros b.
  pose proof (zlen_nonneg b). rewrite !rd_ok by (rewrite zlen_app; lia). cbn [rbind]. rewrite !at_app_l, E5 by lia.
  replace (zlen (d ++ b) <? 2) with false by (rewrite zlen_app; lia).
  replace (zlen (d ++ b) <? 2 + d.[1]) with false by (rewrite zlen_app; lia).
  rewrite rdn_ok by (rewrite ?zlen_app; lia). cbn [rbind]. by rewrite slice_app_inside by lia.
Qed.

Section Commute.
Variable i : nat.

Definition inp (w : world) (x : bytes * Z) : world := put w i (set_io (flow_at w i) x).

Lemma flow_at_inp w x : active (flow_at w i) = true -> flow_at (inp w x) i = set_io (flow_at w i) x.
Proof. intros Ha. by apply flow_at_put. Qed.

Lemma flow_at_inp_ne w x j : j <> i -> flow_at (inp w x) j = flow_at w j.
Proof. intros Hne. unfold flow_at, inp, put. cbn. by rewrite list_lookup_insert_ne. Qed.

Lemma flow_at_put_ne w j g : j <> i -> flow_at (put w j g) i = flow_at w i.
Proof. intros Hne. unfold flow_at, put. cbn. by rewrite list_lookup_insert_ne. Qed.

(** Replacing flow [i] forgets the input it had. *)
Lemma put_inp w x f : put (inp w x) i f = put w i f.
Proof. apply put_put. Qed.

Lemma inp_put w x f : active (flow_at w i) = true -> inp (put w i f) x = put w i (set_io f x).
Proof. intros Ha. unfold inp. by rewrite flow_at_put, put_put. Qed.

Lemma note_open_inp w x f d port :
  note (inp w x) (A_open (f_id (set_io f x)) (peer_ip (set_io f x)) d port) = inp (note w (A_open (f_id f) (peer_ip f) d port)) x.
Proof. done. Qed.

Lemma note_flow_at w a j : flow_at (note w a) j = flow_at w j.
Proof. done. Qed.

Lemma note_inp w x a : note (inp w x) a = inp (note w a) x.
Proof. done. Qed.

(** A predicate on flows that ignores the input. *)
Definition blind (p : Flow -> bool) : Prop := forall f x, p (set_io f x) = p f.

Lemma existsb_inp p w x : blind p -> existsb p (flows (inp w x)) = existsb p (flows w).
Proof.
  intros Hp. unfold inp, put, flow_at. cbn. generalize (flows w) as l. induction i as [|n IH]; intros [|f l]; cbn; try done.
  - by rewrite Hp.
  - f_equal. apply IH.
Qed.

Lemma find_inp p w x : blind p -> find_index p (flows (inp w x)) = find_index p (flows w).
Proof.
  intros Hp. unfold inp, put, flow_at. cbn. generalize (flows w) as l. induction i as [|n IH]; intros [|f l]; cbn; try done.
  - by rewrite Hp.
  - destruct (p f); [done|]. f_equal. apply IH.
Qed.

Lemma ns_conn_inp w x k : ns_conn (inp w x) k = ns_conn w k.
Proof. done. Qed.

Lemma port_scan_ext t p0 u v : (forall p, u p = v p) -> forall k, port_scan t k p0 u = port_scan t k p0 v.
Proof. intros E. induction t as [|t IH]; intros k; cbn; [done|]. rewrite E. by destruct (negb _). Qed.

Lemma alloc_port_inp o w x : alloc_port o (inp w x) = alloc_port o w.
Proof.
  unfold alloc_port, alloc_ephemeral. apply port_scan_ext. intros p. unfold tcp_port_in_use. f_equal. by apply existsb_inp.
Qed.

Lemma connect_inp o k w x : conn_connect_af o k (inp w x) = let (w', r) := conn_connect_af o k w in (inp w' x, r).
Proof.
  unfold conn_connect_af. change (conn_slot_alloc (inp w x)) with (conn_slot_alloc w).
  destruct (conn_slot_alloc w); [|done]. by destruct (lw_connect o k).
Qed.

Lemma ns_abort_inp o w x k : ns_abort o (inp w x) k = inp (ns_abort o w k) x.
Proof. unfold ns_abort. rewrite ns_conn_inp. destruct (ns_conn w k) as [c|]; [|done]. by destruct (pcb c). Qed.

Lemma unref_inp w x k : ns_flow_unref (inp w x) k = inp (ns_flow_unref w k) x.
Proof. unfold ns_flow_unref. by destruct (_ || _). Qed.

Lemma ref_inp w x k : ns_flow_ref (inp w x) k = inp (ns_flow_ref w k) x.
Proof. unfold ns_flow_ref. by destruct (_ || _). Qed.

Lemma last_progress_inp w x v : last_progress_ms (flow_at (inp w x) v) = last_progress_ms (flow_at w v).
Proof.
  destruct (decide (v = i)) as [->|Hne]; [|by rewrite flow_at_inp_ne]. unfold inp, put, flow_at. cbn.
  destruct (flows w !! i) as [f|] eqn:E; [rewrite list_lookup_insert_eq by (by eapply lookup_lt_Some); done|].
  rewrite list_insert_ge by (by apply lookup_ge_None). by rewrite E.
Qed.

Lemma evict_scan_inp o w x self : forall l l' k victim,
  Forall2 (fun f g => g = f \/ exists y, g = set_io f y) l l' ->
  evict_scan o (inp w x) self k l' victim = evict_scan o w self k l victim.
Proof.
  intros l l' k victim HF. revert k victim. induction HF as [|f g l l' Hfg HF IH]; intros k victim; cbn; [done|].
  rewrite IH. f_equal. assert (evictable o (inp w x) self k g = evictable o w self k f) as -> by (by destruct Hfg as [->|[y ->]]).
  assert (last_progress_ms g = last_progress_ms f) as -> by (by destruct Hfg as [->|[y ->]]).
  destruct victim as [v|]; [by rewrite last_progress_inp|done].
Qed.

Lemma flows_inp w x : Forall2 (fun f g => g = f \/ exists y, g = set_io f y) (flows w) (flows (inp w x)).
Proof.
  unfold inp, put, flow_at. cbn. generalize (flows w) as l. induction i as [|n IH]; intros [|f l]; cbn; try constructor.
  - right. by eexists.
  - apply Forall_Forall2_diag, Forall_forall. by left.
  - by left.
  - apply IH.
Qed.

Lemma put_ne_inp w x v g : v <> i -> put (inp w x) v g = inp (put w v g) x.
Proof.
  intros Hne. unfold inp, put, flow_at. cbn. f_equal. rewrite (list_lookup_insert_ne _ v i) by done.
  by rewrite list_insert_insert_ne.
Qed.

Lemma evict_inp o w x :
  evict_stalest_idle_flow o (inp w x) i = let (w', b) := evict_stalest_idle_flow o w i in (inp w' x, b).
Proof.
  unfold evict_stalest_idle_flow. rewrite (evict_scan_inp o w x i _ _ 0 None (flows_inp w x)).
  destruct (evict_scan o w i 0 (flows w) None) as [v|] eqn:E; [|done].
  apply evict_scan_spec in E as [[]|(j & f & Hj & -> & He)]. rewrite Nat.add_0_l in *.
  assert (j <> i) as Hne.
  { unfold evictable in He. repeat (apply andb_true_iff in He as [He ?]). intros ->. by rewrite Nat.eqb_refl in *. }
  rewrite flow_at_inp_ne, ns_abort_inp, unref_inp, put_ne_inp by done. rewrite ns_conn_inp.
  by destruct (ns_conn _ _).
Qed.

(** [F] neither reads nor changes the input of flow [i], and keeps the flow. *)
Definition comm_at (F : world -> world) (w : world) : Prop :=
  (forall x, F (inp w x) = inp (F w) x) /\ active (flow_at (F w) i) = true /\ io_of (flow_at (F w) i) = io_of (flow_at w i).

Definition keeps (h : Flow -> Flow) : Prop :=
  forall f, (forall x, h (set_io f x) = set_io (h f) x) /\ active (h f) = active f /\ io_of (h f) = io_of f.

Lemma comm_put w h : keeps h -> active (flow_at w i) = true -> comm_at (fun w => put w i (h (flow_at w i))) w.
Proof.
  intros Hh Ha. destruct (Hh (flow_at w i)) as (E1 & E2 & E3). split; [|rewrite flow_at_put by done; by rewrite E2].
  intros x. by rewrite flow_at_inp, put_inp, inp_put, E1.
Qed.

Lemma keeps_error o rep : keeps (fun f => queue_socks_error o f rep).
Proof. intros f. unfold queue_socks_error. split; [intros x|]; destruct f; cbn; repeat case_match; done. Qed.

Lemma keeps_connecting o idx lp d port : keeps (fun f => connecting o f idx lp d port).
Proof. intros []. done. Qed.

Lemma connect_slot_inp o w x : connect_slot o (inp w x) i = let (w', r) := connect_slot o w i in (inp w' x, r).
Proof.
  unfold connect_slot. rewrite connect_inp. destruct (conn_connect_af o 0 w) as [w1 r1]. destruct (r1 <? 0); [|done].
  rewrite evict_inp. destruct (evict_stalest_idle_flow o w1 i) as [w2 ev]. destruct ev; [|done]. apply connect_inp.
Qed.

Lemma unref_flow_at w k j : flow_at (ns_flow_unref w k) j = flow_at w j.
Proof. unfold ns_flow_unref. by destruct (_ || _). Qed.

Lemma evict_self o w : flow_at (evict_stalest_idle_flow o w i).1 i = flow_at w i.
Proof.
  unfold evict_stalest_idle_flow. destruct (evict_scan o w i 0 (flows w) None) as [v|] eqn:E; [|done].
  apply evict_scan_spec in E as [[]|(j & f & Hj & -> & He)]. rewrite Nat.add_0_l in *.
  assert (j <> i) as Hne.
  { unfold evictable in He. repeat (apply andb_true_iff in He as [He ?]). intros ->. by rewrite Nat.eqb_refl in *. }
  cbn [fst]. set (w1 := ns_flow_unref _ _). assert (flow_at w1 i = flow_at w i) as E1.
  { unfold w1. rewrite unref_flow_at. apply only_flow_at, ns_abort_only. }
  set (w2 := put w1 j _). assert (flow_at w2 i = flow_at w1 i) as E2 by (by apply flow_at_put_ne).
  rewrite <- E1, <- E2. by destruct (ns_conn w2 _).
Qed.

Lemma connect_slot_self o w : flow_at (connect_slot o w i).1 i = flow_at w i.
Proof.
  unfold connect_slot. destruct (conn_connect_af o 0 w) as [w1 r1] eqn:E1. destruct (connect_spec _ _ _ _ _ E1) as [O1 _].
  destruct (r1 <? 0); [|by apply only_flow_at]. rewrite <- (only_flow_at _ _ i O1), <- (evict_self o w1).
  destruct (evict_stalest_idle_flow o w1 i) as [w2 ev]. cbn. destruct ev; [|done].
  destruct (conn_connect_af o 1 w2) as [w3 r3] eqn:E3. destruct (connect_spec _ _ _ _ _ E3) as [O3 _]. by apply only_flow_at.
Qed.

Lemma open_comm o w d port : active (flow_at w i) = true -> comm_at (fun w => open_tcp_conn_af o w i d port) w.
Proof.
  intros Ha. pose proof (connect_slot_self o w) as Hf. unfold comm_at, open_tcp_conn_af. destruct (alloc_port o w =? 0) eqn:Ep.
  { destruct (comm_put w _ (keeps_error o 1) Ha) as (E1 & E2 & E3). split; [|done]. intros x. by rewrite alloc_port_inp, Ep, E1. }
  destruct (connect_slot o w i) as [w1 r] eqn:E. cbn in Hf. assert (active (flow_at w1 i) = true) as Ha1 by congruence.
  destruct (r <? 0) eqn:Er.
  { destruct (comm_put w1 _ (keeps_error o 1) Ha1) as (E1 & E2 & E3). split; [|by rewrite <- Hf]. intros x.
    rewrite alloc_port_inp, Ep, connect_slot_inp, E, Er. apply E1. }
  assert (active (flow_at (ns_flow_ref w1 r) i) = true) as Har by (unfold ns_flow_ref; by destruct (_ || _)).
  rewrite note_flow_at, flow_at_put by done.
  destruct (keeps_connecting o r (alloc_port o w) d port (flow_at w1 i)) as (K1 & K2 & K3). cbn beta in K1, K2, K3.
  rewrite K2, K3. split; [|by rewrite Ha1, Hf].
  intros x. rewrite alloc_port_inp, Ep, connect_slot_inp, E, Er, flow_at_inp, ref_inp, put_inp, K1 by done.
  rewrite <- inp_put by done. apply note_open_inp.
Qed.

(** ** Targets *)

Lemma comm_comp F G w : comm_at F w -> comm_at G (F w) -> comm_at (fun w => G (F w)) w.
Proof. intros (A1 & A2 & A3) (B1 & B2 & B3). split; [|by rewrite B3]. intros x. by rewrite A1, B1. Qed.

Lemma request_frame_len d q :
  request_grammar d (Some q) -> rq_rep q = 0 -> let t := default target0 (rq_out q) in
  (tg_af t = 4 -> 10 <= zlen d) /\ (tg_af t = 6 -> 22 <= zlen d) /\
  (tg_af t <> 4 -> tg_af t <> 6 -> 5 <= zlen d /\ 5 + d.[4] + 2 <= zlen d).
Proof.
  intros G E. inversion G as [|v e|c e|rr e|a e|a p0 p1 e La|e|a p0 p1 e La|e|e|h p0 p1 e Hh| |l e]; subst; try done;
    cbn [rq_out from_option id tg_af]; unfold id; cbn [tg_af]; rewrite !zlen_cons, zlen_app, !zlen_cons; pose proof (zlen_nonneg e);
    (split; [intros ?; lia|split; [intros ?; lia|intros ??; try lia]]).
  change (5 :: 1 :: 0 :: 3 :: zlen h :: ?r) with ([5; 1; 0; 3] ++ zlen h :: r). rewrite at_app_r by done.
  change (4 - zlen [5; 1; 0; 3]) with 0. rewrite at_cons_0. lia.
Qed.

Section Targets.
Context `{Inet}.
Variable cfg : option SocksConfig.
Variable ssrf_off : bool.

Lemma gated_comm o w d port : active (flow_at w i) = true -> comm_at (fun w => flow_open_gated ssrf_off o w i d port) w.
Proof.
  intros Ha. assert (forall v, active (flow_at v i) = true -> forall x, socks_target_blocked ssrf_off (flow_at (inp v x) i) d = socks_target_blocked ssrf_off (flow_at v i) d)
    as Hb by (intros v Hv x; by rewrite flow_at_inp).
  unfold flow_open_gated, comm_at. destruct (socks_target_blocked ssrf_off (flow_at w i) d) eqn:E.
  - destruct (comm_put w _ (keeps_error o 2) Ha) as (E1 & E2 & E3). split; [|done]. intros x. by rewrite Hb, E, E1.
  - destruct (open_comm o w d port Ha) as (E1 & E2 & E3). split; [|done]. intros x. by rewrite Hb, E, E1.
Qed.

Lemma spawn_comm o w fid host port : active (flow_at w i) = true -> comm_at (fun w => spawn_dns cfg o w i fid host port) w.
Proof.
  intros Ha. unfold comm_at, spawn_dns. set (nq := if socks_v6_ok cfg then _ else _).
  destruct (find_index _ (flows w)) as [j|] eqn:E.
  - destruct (decide (j = i)) as [->|Hne].
    + assert (keeps (fun f => set_dns_pending f nq)) as Hk by (by intros []).
      destruct (comm_put w _ Hk Ha) as (E1 & E2 & E3). set (w1 := put w i _) in *. split; [|done]. intros x. rewrite find_inp by done.
      rewrite E, E1. fold w1. by rewrite flow_at_inp by done.
    + set (w1 := put w j _). assert (flow_at w1 i = flow_at w i) as E1 by (by apply flow_at_put_ne).
      rewrite note_flow_at, E1. split; [|done]. intros x. rewrite find_inp, E, flow_at_inp_ne, put_ne_inp by done. fold w1.
      by rewrite flow_at_inp, E1 by (by rewrite E1).
  - split; [|done]. intros x. rewrite find_inp, E by done. by rewrite flow_at_inp.
Qed.

Lemma start_comm o w t : active (flow_at w i) = true -> comm_at (fun w => flow_start_target cfg ssrf_off o w i t) w.
Proof.
  intros Ha. assert (forall v, keeps (fun f => set_target_af f v)) as Hk by (intros v; by intros []). unfold flow_start_target.
  destruct (tg_af t =? 4); [|destruct (tg_af t =? 6)].
  - apply (comm_comp (fun w => put w i (set_target_af (flow_at w i) 4)) (fun w => flow_open_gated ssrf_off o w i _ _));
      [exact (comm_put w _ (Hk 4) Ha)|].
    apply gated_comm. by rewrite flow_at_put.
  - destruct (negb _); [exact (comm_put w _ (keeps_error o 8) Ha)|].
    apply (comm_comp (fun w => put w i (set_target_af (flow_at w i) 6)) (fun w => flow_open_gated ssrf_off o w i _ _));
      [exact (comm_put w _ (Hk 6) Ha)|].
    apply gated_comm. by rewrite flow_at_put.
  - set (h := fun f => set_flow_state o (set_target_af f 0) ST_RESOLVING). assert (keeps h) as Hh by (by intros []).
    pose proof (comm_put w h Hh Ha) as Hc. set (F := fun w => put w i (h (flow_at w i))) in *.
    assert (active (flow_at (F w) i) = true) as HaF by apply Hc.
    destruct (comm_comp F (fun v => spawn_dns cfg o v i (f_id (flow_at w i)) (tg_host t) (tg_port t)) w Hc (spawn_comm o _ _ _ _ HaF)) as (E1 & E2 & E3).
    split; [|done]. intros x. rewrite flow_at_inp at 1 2 by done. rewrite <- E1. unfold F. by rewrite flow_at_inp.
Qed.

(** ** More input *)

Definition app (w : world) (b : bytes) : world := inp w (input (flow_at w i) ++ b, http_scan_off (flow_at w i)).

Lemma comm_app F w b : comm_at F w -> F (app w b) = app (F w) b.
Proof. intros (E1 & _ & E3). unfold io_of in E3. injection E3 as E3 E4. unfold app. by rewrite E1, E3, E4. Qed.

Lemma flow_at_app w b : active (flow_at w i) = true -> flow_at (app w b) i = set_input (flow_at w i) (input (flow_at w i) ++ b).
Proof. intros Ha. unfold app. rewrite flow_at_inp by done. by destruct (flow_at w i). Qed.

(** Consuming a complete frame and going on. *)
Lemma app_consume w k n b :
  keeps k -> active (flow_at w i) = true -> 0 <= n <= zlen (input (flow_at w i)) ->
  put (app w b) i (k (consume (flow_at (app w b) i) n)) = app (put w i (k (consume (flow_at w i) n))) b.
Proof.
  intros Hk Ha Hn. rewrite flow_at_app by done. set (f := flow_at w i) in *. destruct (Hk (consume f n)) as (E1 & E2 & E3).
  assert (consume (set_input f (input f ++ b)) n = set_io (consume f n) (drop (Z.to_nat n) (input f) ++ b, http_scan_off f)) as ->.
  { unfold consume. destruct f. cbn in *. rewrite drop_app_le; [done|]. unfold zlen in Hn. lia. }
  unfold io_of in E3. injection E3 as E3 E4.
  rewrite E1. unfold app. rewrite flow_at_put by done. rewrite E3, E4. unfold inp at 1. rewrite put_put.
  rewrite inp_put by done. done.
Qed.

Definition settled (w : world) : Prop :=
  active (flow_at w i) = true /\ state (flow_at w i) <> ST_GREETING /\ state (flow_at w i) <> ST_REQUEST.

Lemma settled_put w f :
  active (flow_at w i) = true -> active f = true -> state f <> ST_GREETING -> state f <> ST_REQUEST -> settled (put w i f).
Proof. intros Ha H0 H1 H2. unfold settled. by rewrite flow_at_put. Qed.

Lemma settled_error o w f rep :
  active (flow_at w i) = true -> active f = true -> settled (put w i (queue_socks_error o f rep)).
Proof.
  intros Ha Hf. destruct (error_fields o f rep) as (_ & _ & _ & E & _), (keeps_error o rep f) as (_ & E' & _).
  apply settled_put; [done|by rewrite E'|by rewrite E|by rewrite E].
Qed.

Lemma gated_settled o w d port : active (flow_at w i) = true -> settled (flow_open_gated ssrf_off o w i d port).
Proof.
  intros Ha. unfold flow_open_gated. destruct (socks_target_blocked _ _ _); [by apply settled_error|].
  unfold open_tcp_conn_af. destruct (_ =? 0); [by apply settled_error|]. pose proof (connect_slot_self o w) as Hf.
  destruct (connect_slot o w i) as [w1 r]. cbn in Hf. assert (active (flow_at w1 i) = true) as Ha1 by congruence.
  destruct (r <? 0); [by apply settled_error|]. unfold settled. rewrite note_flow_at, flow_at_put; [done|].
  unfold ns_flow_ref. by destruct (_ || _).
Qed.

Lemma start_settled o w t : active (flow_at w i) = true -> settled (flow_start_target cfg ssrf_off o w i t).
Proof.
  intros Ha. unfold flow_start_target.
  destruct (tg_af t =? 4); [|destruct (tg_af t =? 6)]; [by apply gated_settled; rewrite flow_at_put| |].
  { destruct (negb _); [by apply settled_error|]. by apply gated_settled; rewrite flow_at_put. }
  set (f := set_flow_state o _ ST_RESOLVING). set (w1 := put w i f).
  assert (flow_at w1 i = f) as E by (unfold w1; by rewrite flow_at_put).
  unfold spawn_dns, settled. rewrite note_flow_at. destruct (find_index _ (flows w1)) as [j|]; [|by rewrite E].
  destruct (decide (j = i)) as [->|Hne]; [|by rewrite flow_at_put_ne, E].
  by rewrite flow_at_put, E by (by rewrite E).
Qed.

(** The next bytes of a phase: it waits and changes nothing, or it finishes and the rest of
    the stream stays in the buffer. *)
Definition phase (T : world -> res world) (w : world) : Prop :=
  T w = Ret w \/ exists w', T w = Ret w' /\ settled w' /\ forall b, T (app w b) = Ret (app w' b).

Lemma request_phase o w :
  active (flow_at w i) = true -> bytes_ok (input (flow_at w i)) -> phase (fun w => handshake_request cfg ssrf_off o w i) w.
Proof.
  intros Ha Hb. unfold phase, handshake_request. set (f := flow_at w i) in *. destruct (request_grammar_total _ Hb) as [r G].
  rewrite (request_grammar_run _ _ G). cbn [rbind]. destruct r as [q|]; [right|by left].
  assert (forall b, pp_socks_request (input (flow_at (app w b) i)) = Ret (Some q)) as Hq.
  { intros b. rewrite flow_at_app by done. apply request_grammar_run. by apply request_grammar_extend. }
  destruct (negb (rq_rep q =? 0)) eqn:Er.
  { eexists. split; [done|]. split; [by apply settled_error|]. intros b. rewrite Hq. cbn [rbind]. rewrite Er.
    f_equal. exact (comm_app _ w b (comm_put w _ (keeps_error o (rq_rep q)) Ha)). }
  set (t := default target0 (rq_out q)).
  assert (forall n b, 0 <= n <= zlen (input f) ->
    flow_start_target cfg ssrf_off o (put (app w b) i (consume (flow_at (app w b) i) n)) i t =
    app (flow_start_target cfg ssrf_off o (put w i (consume f n)) i t) b) as Hgo.
  { intros n b Hn. rewrite (app_consume w (fun f => f) n b) by (by try intros []).
    apply (comm_app (fun w => flow_start_target cfg ssrf_off o w i t)). apply start_comm. by rewrite flow_at_put. }
  assert (forall n, settled (flow_start_target cfg ssrf_off o (put w i (consume f n)) i t)) as Hset
    by (intros n; apply start_settled; by rewrite flow_at_put).
  destruct (request_frame_len _ _ G) as (L4 & L6 & L0); [lia|]. fold t in L4, L6, L0. pose proof (zlen_nonneg (input f)).
  destruct (tg_af t =? 4) eqn:E4; [|destruct (tg_af t =? 6) eqn:E6].
  - specialize (L4 ltac:(lia)). eexists. split; [done|]. split; [done|]. intros b. rewrite Hq. cbn [rbind]. rewrite Er. fold t.
    rewrite E4, Hgo; [done|lia].
  - specialize (L6 ltac:(lia)). eexists. split; [done|]. split; [done|]. intros b. rewrite Hq. cbn [rbind]. rewrite Er. fold t.
    rewrite E4, E6, Hgo; [done|lia].
  - destruct L0 as [L5 L7]; [lia|lia|]. rewrite rd_ok by lia. cbn [rbind]. eexists. split; [done|]. split; [done|]. intros b.
    rewrite Hq. cbn [rbind]. rewrite Er. fold t. rewrite E4, E6.
    assert (rd (input (flow_at (app w b) i)) 4 = Ret (input f).[4]) as ->.
    { rewrite flow_at_app by done. fold f. cbn [input set_input]. rewrite rd_ok by (rewrite zlen_app; pose proof (zlen_nonneg b); lia). by rewrite at_app_l by lia. }
    cbn [rbind]. pose proof (at_byte (input f) 4 Hb) as B. unfold is_byte in B. rewrite Hgo; [done|lia].
Qed.

(** ** The HTTP phase *)

(** What [http_handshake] does once the header block ends at [h]. *)
Definition http_done (o : io) (w : world) (h : Z) : world :=
  let f := flow_at w i in
  match request_line_of (input f) with
  | None => put w i (queue_socks_error o f 5)
  | Some (connect, t) =>
      match (if zlen t =? 0 then None else pp_http_target t connect) with
      | None => put w i (queue_socks_error o (set_http_connect f connect) 5)
      | Some t =>
          flow_start_target cfg ssrf_off o
            (put w i (set_http_connect (if connect then consume f (h + 1) else f) connect)) i t
      end
  end.

Definition http_wait (w : world) : world :=
  let f := flow_at w i in
  put w i (set_http_scan_off f (if zlen (input f) >=? 3 then zlen (input f) - 3 else 0)).

Definition scan_ok (f : Flow) : Prop := no_blank (input f) (http_scan_off f `min` zlen (input f)).

Lemma http_run o w :
  scan_ok (flow_at w i) ->
  (no_blank (input (flow_at w i)) (zlen (input (flow_at w i))) /\ http_handshake cfg ssrf_off o w i = Ret (http_wait w)) \/
  (exists h, ends (input (flow_at w i)) h /\ http_handshake cfg ssrf_off o w i = Ret (http_done o w h)).
Proof.
  unfold scan_ok, http_handshake, http_wait, http_done. set (f := flow_at w i). set (d := input f). intros Hs.
  set (start := if _ || _ then 3 else _). assert (3 <= start /\ no_blank d start) as [H3 Hst].
  { unfold start. destruct (_ || _) eqn:E; [split; [lia|]; intros j Hj; lia|]. split; [lia|]. intros j Hj. apply Hs. lia. }
  destruct (hdr_scan_spec (length d) d start) as (h & -> & Hh & Hn & Hb); [done|unfold zlen; lia|]. cbn [rbind].
  assert (no_blank d h) as Hnb by (intros j Hj; destruct (decide (j < start)); [apply Hst|apply Hn]; lia).
  destruct (h >=? zlen d) eqn:E.
  - left. split; [|done]. intros j Hj. apply Hnb. lia.
  - right. exists h. split; [split; [lia|]; split; [apply Hb; lia|done]|].
    destruct (request_line_of d) as [[c t]|]; [|done]. destruct (if zlen t =? 0 then None else _); [|done].
    do 3 f_equal. by destruct c, f.
Qed.

Lemma keeps_http_connect c : keeps (fun f => set_http_connect f c).
Proof. by intros []. Qed.

Lemma keeps_http_error o c : keeps (fun f => queue_socks_error o (set_http_connect f c) 5).
Proof.
  intros f. destruct (keeps_http_connect c f) as (E1 & E2 & E3), (keeps_error o 5 (set_http_connect f c)) as (F1 & F2 & F3).
  split; [intros x; by rewrite E1, F1|]. split; congruence.
Qed.

Lemma http_done_settled o w h : active (flow_at w i) = true -> settled (http_done o w h).
Proof.
  intros Ha. unfold http_done. destruct (request_line_of _) as [[c t]|]; [|by apply settled_error].
  destruct (if zlen t =? 0 then None else _); [|by apply settled_error].
  apply start_settled. rewrite flow_at_put by done. by destruct c.
Qed.

(** Up to the resume offset of the header scan. *)
Definition norm (w : world) : world := inp w (input (flow_at w i), 0).

Lemma comm_norm F w : comm_at F w -> F (norm w) = norm (F w).
Proof. intros (E1 & _ & E3). unfold io_of in E3. injection E3 as E3 _. unfold norm. by rewrite E1, E3. Qed.

Lemma norm_consume w k n :
  keeps k -> active (flow_at w i) = true ->
  put (norm w) i (k (consume (flow_at (norm w) i) n)) = norm (put w i (k (consume (flow_at w i) n))).
Proof.
  intros Hk Ha. unfold norm. rewrite flow_at_inp, put_inp by done. set (f := flow_at w i) in *.
  destruct (Hk (consume f n)) as (E1 & E2 & E3). unfold io_of in E3. injection E3 as E3 _.
  rewrite flow_at_put, inp_put, E3, <- E1 by done. by destruct f.
Qed.

Lemma http_done_app o w h b :
  active (flow_at w i) = true -> ends (input (flow_at w i)) h -> http_done o (app w b) h = app (http_done o w h) b.
Proof.
  intros Ha He. unfold http_done.
  assert (request_line_of (input (flow_at (app w b) i)) = request_line_of (input (flow_at w i))) as ->
    by (rewrite flow_at_app by done; exact (request_line_of_app _ b h He)).
  destruct (request_line_of _) as [[c t]|]; [|exact (comm_app _ w b (comm_put w _ (keeps_error o 5) Ha))].
  destruct (if zlen t =? 0 then None else _) as [t'|]; [|exact (comm_app _ w b (comm_put w _ (keeps_http_error o c) Ha))].
  set (F := fun w => flow_start_target cfg ssrf_off o w i t').
  destruct c.
  - destruct He as (Hh & _). rewrite (app_consume w (fun f => set_http_connect f true)) by (try apply keeps_http_connect; done || lia).
    apply (comm_app F), start_comm. by rewrite flow_at_put.
  - pose proof (comm_put w _ (keeps_http_connect false) Ha) as Hc. rewrite (comm_app _ w b Hc). apply (comm_app F), start_comm, Hc.
Qed.

Lemma http_done_norm o w h : active (flow_at w i) = true -> http_done o (norm w) h = norm (http_done o w h).
Proof.
  intros Ha. unfold http_done.
  assert (input (flow_at (norm w) i) = input (flow_at w i)) as -> by (unfold norm; by rewrite flow_at_inp).
  destruct (request_line_of _) as [[c t]|]; [|exact (comm_norm _ w (comm_put w _ (keeps_error o 5) Ha))].
  destruct (if zlen t =? 0 then None else _) as [t'|]; [|exact (comm_norm _ w (comm_put w _ (keeps_http_error o c) Ha))].
  set (F := fun w => flow_start_target cfg ssrf_off o w i t'). destruct c.
  - rewrite (norm_consume w (fun f => set_http_connect f true)) by (try apply keeps_http_connect; done).
    apply (comm_norm F), start_comm. by rewrite flow_at_put.
  - pose proof (comm_put w _ (keeps_http_connect false) Ha) as Hc. rewrite (comm_norm _ w Hc). apply (comm_norm F), start_comm, Hc.
Qed.

(** A scan that found no blank line, resumed after more bytes, does what one scan of all the
    bytes does. *)
Lemma http_wait_app w b :
  active (flow_at w i) = true -> no_blank (input (flow_at w i)) (zlen (input (flow_at w i))) ->
  norm (app (http_wait w) b) = norm (app w b) /\ scan_ok (flow_at (app (http_wait w) b) i).
Proof.
  intros Ha Hn. unfold http_wait. set (f := flow_at w i) in *. set (s := if zlen (input f) >=? 3 then zlen (input f) - 3 else 0).
  assert (flow_at (put w i (set_http_scan_off f s)) i = set_http_scan_off f s) as Ew by (by rewrite flow_at_put).
  split.
  - unfold norm, app. rewrite Ew. cbn [input set_http_scan_off http_scan_off]. rewrite !flow_at_inp by (by rewrite ?Ew).
    rewrite Ew. unfold inp at 2 4. rewrite !inp_put by (by rewrite ?flow_at_put). rewrite Ew, put_put. fold f. by destruct f.
  - rewrite flow_at_app by (by rewrite Ew). rewrite Ew. unfold scan_ok. cbn [input set_http_scan_off http_scan_off set_input].
    intros j Hj. pose proof (zlen_nonneg (input f)). assert (s <= zlen (input f)) by (unfold s; destruct (_ >=? _) eqn:E; lia).
    rewrite blank_app by lia. apply Hn. lia.
Qed.

Section Passes.
Variables fail_max fail_window : Z.

(** ** Login and greeting *)

(** The step [T] moved, and would have left later bytes in the buffer. *)
Definition went (T : world -> res (world * bool)) (w w' : world) (adv : bool) : Prop :=
  T w = Ret (w', adv) /\ forall b, T (app w b) = Ret (app w' b, adv).

Definition login_done (o : io) (w : world) (pass : bytes) (n : Z) : world :=
  let ok := pp_socks_auth_ok pass (tok cfg) in
  let f := set_auth_pending (consume (flow_at w i) n) false in
  put (note (set_g_auth_fail w (auth_fail_note (g_auth_fail w) (peer_ip f) ok fail_max fail_window (now o)))
            (A_login (f_id f) (peer_ip f) pass ok)) i
      (if ok then set_flow_state o (queue_flow_output f [1; 0]) ST_REQUEST else auth_reject o f).

Lemma login_done_app o w pass n b :
  active (flow_at w i) = true -> 0 <= n <= zlen (input (flow_at w i)) ->
  login_done o (app w b) pass n = app (login_done o w pass n) b.
Proof.
  intros Ha Hn. unfold login_done. set (ok := pp_socks_auth_ok pass (tok cfg)).
  set (k := fun f => if ok then set_flow_state o (queue_flow_output (set_auth_pending f false) [1; 0]) ST_REQUEST
                     else auth_reject o (set_auth_pending f false)).
  assert (keeps k) as Hk by (intros []; unfold k; by destruct ok).
  pose proof (app_consume w k n b Hk Ha Hn) as E. unfold k in E.
  assert (peer_ip (flow_at (app w b) i) = peer_ip (flow_at w i)) as Ep by (by rewrite flow_at_app).
  assert (f_id (flow_at (app w b) i) = f_id (flow_at w i)) as Ef by (by rewrite flow_at_app).
  assert (forall f, peer_ip (set_auth_pending (consume f n) false) = peer_ip f) as P1 by done.
  assert (forall f, f_id (set_auth_pending (consume f n) false) = f_id f) as P2 by done.
  rewrite !P1, !P2, Ep, Ef.
  set (g := auth_fail_note _ _ _ _ _ _). set (a := A_login _ _ _ _).
  assert (forall v f, put (note (set_g_auth_fail v g) a) i f = note (set_g_auth_fail (put v i f) g) a) as Hp by (by intros []).
  rewrite Hp. setoid_rewrite E. set (kf := if ok then _ else _). clearbody kf. rewrite Hp. by destruct (put w i kf).
Qed.

Definition requesting (w : world) : Prop :=
  active (flow_at w i) = true /\ state (flow_at w i) = ST_REQUEST /\ bytes_ok (input (flow_at w i)).

Lemma went_put T w k :
  keeps k -> active (flow_at w i) = true -> (forall f, state (k f) = ST_CLOSING) ->
  (forall b, T (app w b) = Ret (put (app w b) i (k (flow_at (app w b) i)), false)) ->
  T w = Ret (put w i (k (flow_at w i)), false) ->
  exists w', went T w w' false /\ settled w'.
Proof.
  intros Hk Ha Hs HT HT0. pose proof (comm_put w k Hk Ha) as Hc. eexists. split; [split; [exact HT0|]|].
  - intros b. rewrite HT. do 2 f_equal. exact (comm_app _ w b Hc).
  - destruct (Hk (flow_at w i)) as (_ & E & _). apply settled_put; [done|by rewrite E|by rewrite Hs|by rewrite Hs].
Qed.

Lemma keeps_auth_reject o : keeps (auth_reject o).
Proof. by intros []. Qed.

Lemma keeps_greet_reject o : keeps (greet_reject o).
Proof. by intros []. Qed.

Lemma login_done_at o w pass n :
  active (flow_at w i) = true -> bytes_ok (input (flow_at w i)) ->
  if pp_socks_auth_ok pass (tok cfg) then requesting (login_done o w pass n) else settled (login_done o w pass n).
Proof.
  intros Ha Hb. unfold login_done. set (ok := pp_socks_auth_ok pass (tok cfg)). set (g := auth_fail_note _ _ _ _ _ _).
  set (a := A_login _ _ _ _). set (f := set_auth_pending _ _).
  assert (active (flow_at (note (set_g_auth_fail w g) a) i) = true) as Ha' by (rewrite note_flow_at; by destruct w).
  destruct ok; [|by apply settled_put]. unfold requesting. rewrite flow_at_put by done.
  split_and!; [done|done|]. by apply bytes_ok_drop.
Qed.

Lemma login_cases o w :
  active (flow_at w i) = true -> bytes_ok (input (flow_at w i)) ->
  let T w := login cfg fail_max fail_window o w i in
  T w = Ret (w, false) \/ (exists w', went T w w' false /\ settled w') \/ (exists w', went T w w' true /\ requesting w').
Proof.
  intros Ha Hb T. destruct (auth_grammar_total 64 _ Hb) as [r G]. pose proof (auth_grammar_run _ _ _ G) as Er.
  assert (r <> AFIncomplete -> forall b, pp_socks_auth_frame (input (flow_at (app w b) i)) 64 = Ret r) as Eb.
  { intros Hr b. rewrite flow_at_app by done. by apply auth_grammar_run, auth_grammar_extend. }
  assert (r = AFMalformed \/ r = AFTooLong -> exists w', went T w w' false /\ settled w') as Hrej.
  { intros Hr. apply (went_put T w (auth_reject o)); [apply keeps_auth_reject|done|done| |]; unfold T, login;
      [intros b; rewrite Eb by (by destruct Hr as [-> | ->])|rewrite Er]; by destruct Hr as [-> | ->]. }
  destruct r as [u p| | |]; [right|right; left; apply Hrej; tauto..|left; unfold T, login; by rewrite Er].
  destruct (auth_frame_len _ _ _ G) as (H2 & H0 & Hl). set (d := input (flow_at w i)) in *.
  assert (forall v, pp_socks_auth_frame (input (flow_at v i)) 64 = Ret (AFValid u p) -> rd (input (flow_at v i)) 1 = Ret d.[1] ->
    T v = Ret (login_done o v p (2 + d.[1] + 1 + zlen p), pp_socks_auth_ok p (tok cfg))) as Hrun.
  { intros v E1 E2. unfold T, login, login_done. rewrite E1. cbn [rbind]. rewrite E2. cbn [rbind].
    by destruct (pp_socks_auth_ok p (tok cfg)). }
  assert (went T w (login_done o w p (2 + d.[1] + 1 + zlen p)) (pp_socks_auth_ok p (tok cfg))) as Hw.
  { pose proof (zlen_nonneg p). split; [apply Hrun; [done|apply rd_ok; lia]|]. intros b. rewrite <- login_done_app by (fold d; done || lia).
    apply Hrun; [by apply Eb|]. rewrite flow_at_app by done. cbn [input set_input]. fold d. pose proof (zlen_nonneg b).
    rewrite rd_ok by (rewrite zlen_app; lia). by rewrite at_app_l by lia. }
  pose proof (login_done_at o w p (2 + d.[1] + 1 + zlen p) Ha Hb) as Hat.
  destruct (pp_socks_auth_ok p (tok cfg)); [right|left]; eexists; split; eassumption.
Qed.

(** A flow that waits for the login frame. *)
Definition logging_in (w : world) : Prop :=
  active (flow_at w i) = true /\ state (flow_at w i) = ST_GREETING /\ http_mode (flow_at w i) = false /\
  auth_pending (flow_at w i) = true /\ http_scan_off (flow_at w i) = 0 /\ bytes_ok (input (flow_at w i)).

Definition fresh (w : world) : Prop :=
  active (flow_at w i) = true /\ state (flow_at w i) = ST_GREETING /\ http_mode (flow_at w i) = false /\
  auth_pending (flow_at w i) = false /\ http_scan_off (flow_at w i) = 0 /\ bytes_ok (input (flow_at w i)).

Definition probe (d : bytes) : res Z :=
  if negb (d.[0] =? 5) && negb (have_tok cfg) then pp_http_probe d else Ret 0.

Lemma probe_run d : 2 <= zlen d -> exists v, probe d = Ret v /\ (v <> -1 -> forall b, probe (d ++ b) = Ret v).
Proof.
  intros Hd. assert (d <> []) as Hne by (by intros ->). unfold probe. destruct (_ && _) eqn:E.
  - destruct (pp_http_probe_eq d Hne) as (r & _ & Ep). rewrite Ep. eexists. split; [done|]. intros Hv b.
    rewrite at_app_l, E by lia. by apply probe_stable.
  - exists 0. split; [done|]. intros _ b. by rewrite at_app_l, E by lia.
Qed.

Definition to_http (w : world) : world := put w i (set_http_mode (flow_at w i) true).

(** The SOCKS5 part of [greet], after the probe. *)
Definition choose (o : io) (w : world) : res (world * bool) :=
  let f := flow_at w i in
  let d := input f in
  if negb (d.[0] =? 5) then Ret (put w i (greet_reject o f), false)
  else
    let! g := pp_socks_greeting d (have_tok cfg) in
    match g with
    | None => Ret (w, false)
    | Some m =>
        let method := pp_socks_pick_method (have_tok cfg) m in
        if method =? 255 then Ret (put w i (greet_reject o f), false)
        else if method =? 2 then Ret (put w i (set_auth_pending (queue_flow_output (consume f (2 + d.[1])) [5; 2]) true), false)
        else Ret (put w i (set_flow_state o (queue_flow_output (consume f (2 + d.[1])) [5; 0]) ST_REQUEST), true)
    end.

Lemma greet_run o w :
  2 <= zlen (input (flow_at w i)) ->
  greet cfg ssrf_off o w i =
  let! pr := probe (input (flow_at w i)) in
  if pr =? 1 then let! v := http_handshake cfg ssrf_off o (to_http w) i in Ret (v, false)
  else if pr =? -1 then Ret (w, false) else choose o w.
Proof.
  intros Hd. unfold greet, probe, choose, to_http. set (d := input (flow_at w i)) in *. replace (zlen d <? 2) with false by lia.
  rewrite rd_ok by lia. cbn [rbind]. destruct (if _ && _ then pp_http_probe d else _) as [pr|]; [|done]. cbn [rbind].
  destruct (pr =? 1); [done|]. destruct (pr =? -1); [done|]. destruct (negb (d.[0] =? 5)); [done|].
  destruct (pp_socks_greeting d (have_tok cfg)) as [[m|]|]; [|done|done]. cbn [rbind]. destruct (_ =? 255); [done|].
  rewrite rd_ok by lia. cbn [rbind]. by destruct (_ =? 2).
Qed.

Lemma choose_cases o w :
  fresh w -> 2 <= zlen (input (flow_at w i)) ->
  choose o w = Ret (w, false) \/ (exists w', went (choose o) w w' false /\ settled w') \/
  (exists w', went (choose o) w w' true /\ requesting w') \/
  (exists w', went (choose o) w w' false /\ logging_in w' /\ zlen (input (flow_at w' i)) < zlen (input (flow_at w i))).
Proof.
  intros (Ha & Hg & Hh & Hp & Hs & Hb) H2. set (d := input (flow_at w i)) in *.
  assert (forall b, (input (flow_at (app w b) i)) = d ++ b) as Ed by (intros b; by rewrite flow_at_app).
  destruct (negb (d.[0] =? 5)) eqn:E5.
  { right. left. apply (went_put _ w (greet_reject o)); [apply keeps_greet_reject|done|done| |].
    - intros b. unfold choose. by rewrite Ed, at_app_l, E5 by lia.
    - unfold choose. fold d. by rewrite E5. }
  destruct (greeting_cases (have_tok cfg) d Hb) as [Eg|(m & _ & H0 & Hl & Eg)].
  { left. unfold choose. fold d. by rewrite E5, Eg. }
  pose proof (Eg []) as Eg0. rewrite app_nil_r in Eg0. right.
  destruct (pp_socks_pick_method (have_tok cfg) m =? 255) eqn:Em.
  { left. apply (went_put _ w (greet_reject o)); [apply keeps_greet_reject|done|done| |].
    - intros b. unfold choose. rewrite Ed, at_app_l, E5, Eg by lia. cbn [rbind]. by rewrite Em.
    - unfold choose. fold d. rewrite E5, Eg0. cbn [rbind]. by rewrite Em. }
  set (k2 := fun f => set_auth_pending (queue_flow_output f [5; 2]) true).
  set (k0 := fun f => set_flow_state o (queue_flow_output f [5; 0]) ST_REQUEST).
  assert (keeps k2 /\ keeps k0) as [K2 K0] by (split; by intros []). right.
  destruct (pp_socks_pick_method (have_tok cfg) m =? 2) eqn:E2; [right|left].
  - exists (put w i (k2 (consume (flow_at w i) (2 + d.[1])))). split; [split|].
    + unfold choose. fold d. rewrite E5, Eg0. cbn [rbind]. by rewrite Em, E2.
    + intros b. rewrite <- app_consume by (fold d; done || lia). unfold choose. rewrite Ed, !at_app_l, E5, Eg by lia. cbn [rbind]. by rewrite Em, E2.
    + unfold logging_in. rewrite flow_at_put by done. split; [split_and!; try done; by apply bytes_ok_drop|].
      unfold k2. cbn. fold d. unfold zlen in *. rewrite length_drop. lia.
  - exists (put w i (k0 (consume (flow_at w i) (2 + d.[1])))). split; [split|].
    + unfold choose. fold d. rewrite E5, Eg0. cbn [rbind]. by rewrite Em, E2.
    + intros b. rewrite <- app_consume by (fold d; done || lia). unfold choose. rewrite Ed, !at_app_l, E5, Eg by lia. cbn [rbind]. by rewrite Em, E2.
    + unfold requesting. rewrite flow_at_put by done. split_and!; [done|done|by apply bytes_ok_drop].
Qed.

(** ** Passes *)

Definition http_waiting (w : world) : Prop :=
  active (flow_at w i) = true /\ state (flow_at w i) = ST_GREETING /\ http_mode (flow_at w i) = true /\
  http_scan_off (flow_at w i) <= zlen (input (flow_at w i)) /\ scan_ok (flow_at w i).

Definition midway (w : world) : Prop := settled w \/ requesting w \/ logging_in w \/ fresh w \/ http_waiting w.

Variable o : io.

Definition proc (w : world) : res world := process_socks_handshake cfg ssrf_off fail_max fail_window o w i.
Definition request_run (w : world) : res world := handshake_request cfg ssrf_off o w i.
Definition http_go (w : world) : res world := http_handshake cfg ssrf_off o w i.
Definition login_run (w : world) : res world :=
  let! r := login cfg fail_max fail_window o w i in let (v, adv) := r in if adv : bool then request_run v else Ret v.
Definition fresh_run (w : world) : res world :=
  let! r := greet cfg ssrf_off o w i in
  let (v, adv) := r in
  if adv : bool then request_run v
  else if st_is (state (flow_at v i)) ST_GREETING && auth_pending (flow_at v i) then login_run v else Ret v.

Lemma app_app w a b : active (flow_at w i) = true -> app (app w a) b = app w (a ++ b).
Proof.
  intros Ha. unfold app at 1. rewrite flow_at_app by done. cbn [input set_input http_scan_off]. rewrite <- app_assoc.
  unfold app, inp. rewrite flow_at_put, put_put by done. by destruct (flow_at w i).
Qed.

Lemma midway_active w : midway w -> active (flow_at w i) = true.
Proof. intros [H1|[H1|[H1|[H1|H1]]]]; apply H1. Qed.

Lemma passes_settled n w : settled w -> handshake_passes cfg ssrf_off fail_max fail_window n o w i = Ret w.
Proof. intros (_ & H1 & H2). destruct n; [done|]. cbn [handshake_passes]. by destruct (state (flow_at w i)). Qed.

Lemma passes_request n w :
  requesting w -> handshake_passes cfg ssrf_off fail_max fail_window (S n) o w i = request_run w.
Proof. intros (_ & H1 & _). cbn [handshake_passes]. by rewrite H1. Qed.

(** With nothing left in the buffer the request pass has nothing to do. *)
Lemma request_next n w :
  requesting w ->
  (if st_is (state (flow_at w i)) ST_REQUEST && (zlen (input (flow_at w i)) >? 0)
   then handshake_passes cfg ssrf_off fail_max fail_window (S n) o w i else Ret w) = request_run w.
Proof.
  intros Hr. destruct (_ && _) eqn:E; [by apply passes_request|]. destruct Hr as (_ & H1 & _). rewrite H1 in E.
  change (st_is ST_REQUEST ST_REQUEST) with true in E. cbn [andb] in E.
  assert ((zlen (input (flow_at w i)) <? 4) = true) as L by lia.
  unfold request_run, handshake_request, pp_socks_request. by rewrite L.
Qed.

Lemma passes_login n w :
  logging_in w -> handshake_passes cfg ssrf_off fail_max fail_window (S (S n)) o w i = login_run w.
Proof.
  intros (Ha & Hg & Hh & Hp & _ & Hb). cbn [handshake_passes]. rewrite Hg, Hh. cbn [negb].
  unfold handshake_greeting, login_run. rewrite Hp. cbn [negb].
  destruct (login_cases o w Ha Hb) as [E|[(w' & [E _] & Hs)|(w' & [E _] & Hr)]]; rewrite E; cbn [rbind].
  - by replace (_ >=? _) with true by lia.
  - destruct (_ >=? _); [done|]. exact (passes_settled (S n) w' Hs).
  - exact (request_next n w' Hr).
Qed.

Lemma to_http_waiting w : fresh w -> http_waiting (to_http w).
Proof.
  intros (Ha & Hg & Hh & Hp & Hs & Hb). unfold http_waiting, to_http. rewrite flow_at_put by done. cbn. rewrite Hs.
  pose proof (zlen_nonneg (input (flow_at w i))). split_and!; [done|done|done|lia|]. unfold scan_ok. cbn. rewrite Hs. intros j Hj. lia.
Qed.

Lemma to_http_app w b : active (flow_at w i) = true -> to_http (app w b) = app (to_http w) b.
Proof.
  intros Ha. assert (keeps (fun f => set_http_mode f true)) as K by (by intros []).
  exact (comm_app _ w b (comm_put w _ K Ha)).
Qed.

Lemma http_cases w :
  http_waiting w ->
  (no_blank (input (flow_at w i)) (zlen (input (flow_at w i))) /\ http_go w = Ret (http_wait w)) \/
  (exists h, ends (input (flow_at w i)) h /\ http_go w = Ret (http_done o w h)).
Proof. intros (Ha & Hg & Hh & Ho & Hs). by apply http_run. Qed.

Lemma http_wait_waiting w :
  http_waiting w -> no_blank (input (flow_at w i)) (zlen (input (flow_at w i))) -> http_waiting (http_wait w).
Proof.
  intros (Ha & Hg & Hh & Ho & Hs) Hn. unfold http_waiting, http_wait, scan_ok. rewrite flow_at_put by done. cbn.
  pose proof (zlen_nonneg (input (flow_at w i))). split_and!; [done|done|done|destruct (_ >=? _) eqn:E; lia|].
  intros j Hj. apply Hn. lia.
Qed.

Lemma passes_fresh w : fresh w -> proc w = fresh_run w.
Proof.
  intros Hf. pose proof Hf as (Ha & Hg & Hh & Hp & Hs & Hb). unfold proc, process_socks_handshake, fresh_run.
  cbn [handshake_passes]. rewrite Hg, Hh. unfold handshake_greeting. rewrite Hp. cbn [negb].
  assert (forall v, v = w -> (if zlen (input (flow_at v i)) >=? zlen (input (flow_at w i)) then Ret v else handshake_passes cfg ssrf_off fail_max fail_window 2 o v i) =
    (if st_is (state (flow_at v i)) ST_GREETING && auth_pending (flow_at v i) then login_run v else Ret v)) as Hw.
  { intros v ->. rewrite Hp, andb_false_r. by replace (_ >=? _) with true by lia. }
  assert (forall v, settled v -> (if zlen (input (flow_at v i)) >=? zlen (input (flow_at w i)) then Ret v else handshake_passes cfg ssrf_off fail_max fail_window 2 o v i) =
    (if st_is (state (flow_at v i)) ST_GREETING && auth_pending (flow_at v i) then login_run v else Ret v)) as Hset.
  { intros v Hv. rewrite (passes_settled 2 v Hv). destruct Hv as (_ & E & _). unfold st_is. rewrite bool_decide_false by done. cbn [andb].
    by destruct (_ >=? _). }
  destruct (decide (zlen (input (flow_at w i)) < 2)) as [L|L].
  { unfold greet. replace (zlen (input (flow_at w i)) <? 2) with true by lia. cbn [rbind]. by apply Hw. }
  rewrite greet_run by lia. destruct (probe_run (input (flow_at w i))) as (v & -> & _); [lia|]. cbn [rbind].
  destruct (v =? 1).
  - pose proof (to_http_waiting w Hf) as Hq. fold (http_go (to_http w)).
    destruct (http_cases _ Hq) as [(Hn & E)|(h & He & E)]; rewrite E; cbn [rbind]; [|apply Hset, http_done_settled, Hq].
    unfold http_wait, to_http. rewrite !flow_at_put by (rewrite ?flow_at_put; done). cbn. rewrite Hp, andb_false_r.
    by replace (_ >=? _) with true by lia.
  - destruct (v =? -1); [cbn [rbind]; by apply Hw|].
    destruct (choose_cases o w Hf) as [E|[(w' & [E _] & H1)|[(w' & [E _] & H1)|(w' & [E _] & H1 & H2)]]]; [lia| | | |]; rewrite E; cbn [rbind].
    + by apply Hw.
    + by apply Hset.
    + exact (request_next 1 w' H1).
    + replace (_ >=? _) with false by lia. transitivity (login_run w'); [exact (passes_login 0 w' H1)|].
      destruct H1 as (_ & G1 & _ & G2 & _). by rewrite G1, G2.
Qed.

(** ** Resuming *)

Definition norm_res (r : res world) : res world := match r with Ret w => Ret (norm w) | Fault e => Fault e end.

(** [R] on the bytes so far and the handshake on the next ones does what [R] does on all. *)
Definition resumes (R : world -> res world) (w : world) (b : bytes) : Prop :=
  exists w1, R w = Ret w1 /\ midway w1 /\ norm_res (proc (app w1 b)) = norm_res (R (app w b)).

Lemma resumes_settled R w w' b : R w = Ret w' -> settled w' -> R (app w b) = Ret (app w' b) -> resumes R w b.
Proof.
  intros E1 Hs E2. exists w'. split; [done|]. split; [by left|]. rewrite E2. f_equal. apply passes_settled.
  unfold settled. by rewrite flow_at_app by apply Hs.
Qed.

Lemma resumes_wait R w b : R w = Ret w -> midway w -> proc (app w b) = R (app w b) -> resumes R w b.
Proof. intros E1 Hm E2. exists w. split; [done|]. split; [done|]. by rewrite E2. Qed.

Lemma resumes_via R R' w w' b : R w = R' w' -> R (app w b) = R' (app w' b) -> resumes R' w' b -> resumes R w b.
Proof. unfold resumes. intros -> ->. done. Qed.

Section Next.
Variable b : bytes.
Hypothesis Hbytes : bytes_ok b.

Lemma requesting_app w : requesting w -> requesting (app w b).
Proof.
  intros (Ha & Hs & Hb). unfold requesting. rewrite flow_at_app by done. split_and!; [done|done|]. by apply bytes_ok_app.
Qed.

Lemma logging_app w : logging_in w -> logging_in (app w b).
Proof.
  intros (Ha & Hl). unfold logging_in. rewrite flow_at_app by done. cbn. destruct_and! Hl. split_and!; [done..|]. by apply bytes_ok_app.
Qed.

Lemma fresh_app w : fresh w -> fresh (app w b).
Proof.
  intros (Ha & Hl). unfold fresh. rewrite flow_at_app by done. cbn. destruct_and! Hl. split_and!; [done..|]. by apply bytes_ok_app.
Qed.

Lemma request_resumes w : requesting w -> resumes request_run w b.
Proof.
  intros Hr. pose proof Hr as (Ha & Hs & Hb). destruct (request_phase o w Ha Hb) as [E|(w' & E & Hset & Hn)].
  - apply resumes_wait; [exact E|by right; left|]. apply (passes_request 2). by apply requesting_app.
  - exact (resumes_settled _ _ _ b E Hset (Hn b)).
Qed.

Lemma login_resumes w : logging_in w -> resumes login_run w b.
Proof.
  intros Hl. pose proof Hl as (Ha & _ & _ & _ & _ & Hb).
  destruct (login_cases o w Ha Hb) as [E|[(w' & [E En] & Hs)|(w' & [E En] & Hr)]].
  - apply resumes_wait; [unfold login_run; by rewrite E|by do 2 right; left|]. apply (passes_login 1). by apply logging_app.
  - apply (resumes_settled _ _ w'); [unfold login_run; by rewrite E|done|]. unfold login_run. by rewrite En.
  - apply (resumes_via _ request_run w w'); [unfold login_run; by rewrite E|unfold login_run; by rewrite En|]. by apply request_resumes.
Qed.

Lemma proc_http w : http_waiting w -> proc w = http_go w.
Proof. intros (_ & Hg & Hh & _). unfold proc, process_socks_handshake. cbn [handshake_passes]. by rewrite Hg, Hh. Qed.

Lemma http_same v v' : http_waiting v -> http_waiting v' -> norm v = norm v' -> norm_res (http_go v) = norm_res (http_go v').
Proof.
  intros Hv Hv' En. pose proof Hv as (Ha & _). pose proof Hv' as (Ha' & _).
  assert (set_io (flow_at v i) (input (flow_at v i), 0) = set_io (flow_at v' i) (input (flow_at v' i), 0)) as Ef.
  { apply (f_equal (fun w => flow_at w i)) in En. unfold norm in En. by rewrite !flow_at_inp in En. }
  assert (input (flow_at v i) = input (flow_at v' i)) as Ei by (by apply (f_equal input) in Ef).
  destruct (http_cases v Hv) as [(Hn & ->)|(h & He & ->)], (http_cases v' Hv') as [(Hn' & ->)|(h' & He' & ->)]; cbn [norm_res]; f_equal.
  - assert (forall w, active (flow_at w i) = true -> norm (http_wait w) = norm w) as Hw.
    { intros w Hw. unfold norm, http_wait. rewrite flow_at_put, inp_put by done. unfold inp. by destruct (flow_at w i). }
    by rewrite !Hw.
  - exfalso. destruct He' as (L & B & _). rewrite <- Ei in *. by rewrite Hn in B.
  - exfalso. destruct He as (L & B & _). rewrite Ei in *. by rewrite Hn' in B.
  - rewrite Ei in He. rewrite (ends_unique _ _ _ He He'), <- !http_done_norm by done. by rewrite En.
Qed.

Lemma waiting_app w : http_waiting w -> http_waiting (app w b).
Proof.
  intros (Ha & Hg & Hh & Ho & Hs). unfold http_waiting, scan_ok. rewrite flow_at_app by done. cbn. rewrite zlen_app.
  pose proof (zlen_nonneg b). split_and!; [done..|lia|]. intros j Hj. rewrite blank_app by lia. apply Hs. lia.
Qed.

Lemma http_resumes w : http_waiting w -> resumes http_go w b.
Proof.
  intros Hw. pose proof Hw as (Ha & _). destruct (http_cases w Hw) as [(Hn & E)|(h & He & E)].
  - pose proof (http_wait_waiting w Hw Hn) as Hw1. exists (http_wait w). split; [done|]. split; [by do 4 right|].
    rewrite proc_http by (by apply waiting_app). apply http_same; [by apply waiting_app..|]. apply http_wait_app; done.
  - apply (resumes_settled _ _ (http_done o w h)); [done|by apply http_done_settled|]. rewrite <- http_done_app by done.
    pose proof (ends_app _ b _ He) as Hb. destruct (http_cases (app w b) (waiting_app w Hw)) as [(Hn & E')|(h' & He' & E')].
    + exfalso. rewrite flow_at_app in Hn by done. destruct Hb as (L & B & _). by rewrite Hn in B.
    + rewrite E'. f_equal. f_equal. rewrite flow_at_app in He' by done. exact (ends_unique _ _ _ He' Hb).
Qed.

Lemma fresh_http v :
  fresh v -> 2 <= zlen (input (flow_at v i)) -> probe (input (flow_at v i)) = Ret 1 -> fresh_run v = http_go (to_http v).
Proof.
  intros Hf H2 E. unfold fresh_run. rewrite greet_run, E by done. cbn [rbind]. change (1 =? 1) with true. cbv iota.
  fold (http_go (to_http v)). pose proof (to_http_waiting v Hf) as Hw. pose proof Hf as (Ha & _ & _ & Hp & _).
  destruct (http_cases _ Hw) as [(Hn & ->)|(h & He & ->)]; cbn [rbind].
  - unfold http_wait, to_http. rewrite !flow_at_put by (rewrite ?flow_at_put; done). cbn. by rewrite Hp, andb_false_r.
  - destruct (http_done_settled o (to_http v) h) as (_ & Hs & _); [apply Hw|]. unfold st_is. by rewrite bool_decide_false.
Qed.

Lemma fresh_choose v pr :
  2 <= zlen (input (flow_at v i)) -> probe (input (flow_at v i)) = Ret pr -> pr <> 1 -> pr <> -1 ->
  greet cfg ssrf_off o v i = choose o v.
Proof.
  intros H2 E N1 N2. rewrite greet_run, E by done. cbn [rbind]. replace (pr =? 1) with false by lia. by replace (pr =? -1) with false by lia.
Qed.

Lemma fresh_waits w : fresh w -> greet cfg ssrf_off o w i = Ret (w, false) -> resumes fresh_run w b.
Proof.
  intros Hf E. pose proof Hf as (_ & _ & _ & Hp & _). apply resumes_wait; [|by do 3 right; left|by apply passes_fresh, fresh_app].
  unfold fresh_run. rewrite E. cbn [rbind]. by rewrite Hp, andb_false_r.
Qed.

Lemma fresh_resumes w : fresh w -> resumes fresh_run w b.
Proof.
  intros Hf. pose proof Hf as (Ha & _). set (d := input (flow_at w i)) in *.
  destruct (decide (zlen d < 2)) as [L|L].
  { apply fresh_waits; [done|]. unfold greet. fold d. by replace (zlen d <? 2) with true by lia. }
  assert (input (flow_at (app w b) i) = d ++ b) as Ed by (by rewrite flow_at_app).
  assert (2 <= zlen (input (flow_at (app w b) i))) as L' by (rewrite Ed, zlen_app; pose proof (zlen_nonneg b); lia).
  destruct (probe_run d) as (pr & Ep & Eb); [lia|].
  destruct (decide (pr = 1)) as [->|N1].
  { apply (resumes_via _ http_go w (to_http w)); [apply fresh_http; done || (fold d; lia)| |by apply http_resumes, to_http_waiting].
    rewrite <- to_http_app by done. apply fresh_http; [by apply fresh_app|done|]. rewrite Ed. apply Eb. lia. }
  destruct (decide (pr = -1)) as [->|N2].
  { apply fresh_waits; [done|]. rewrite greet_run by (fold d; lia). fold d. by rewrite Ep. }
  assert (greet cfg ssrf_off o w i = choose o w) as Ec by (apply (fresh_choose w pr); done || (fold d; lia)).
  assert (greet cfg ssrf_off o (app w b) i = choose o (app w b)) as Ec'
    by (apply (fresh_choose _ pr); try done; rewrite Ed; by apply Eb).
  assert (forall v v' adv, v = w \/ v = app w b -> choose o v = Ret (v', adv) -> fresh_run v =
    if adv : bool then request_run v'
    else if st_is (state (flow_at v' i)) ST_GREETING && auth_pending (flow_at v' i) then login_run v' else Ret v') as Hrun
    by (intros v v' adv [-> | ->] E; unfold fresh_run; [rewrite Ec, E|rewrite Ec', E]; done).
  assert (forall v, settled v -> st_is (state (flow_at v i)) ST_GREETING = false) as Hst
    by (intros v (_ & Hv & _); unfold st_is; by rewrite bool_decide_false).
  destruct (choose_cases o w Hf) as [E|[(w' & [E En] & H1)|[(w' & [E En] & H1)|(w' & [E En] & H1 & _)]]]; [fold d; lia| | | |].
  - apply fresh_waits; [done|]. by rewrite Ec.
  - apply (resumes_settled _ _ w'); [rewrite (Hrun w w' false), Hst; tauto|done|].
    rewrite (Hrun _ _ false (or_intror eq_refl) (En b)), Hst; [done|]. unfold settled. by rewrite flow_at_app by apply H1.
  - apply (resumes_via _ request_run w w'); [rewrite (Hrun w w' true); tauto| |by apply request_resumes].
    exact (Hrun _ _ true (or_intror eq_refl) (En b)).
  - assert (forall v, logging_in v -> st_is (state (flow_at v i)) ST_GREETING && auth_pending (flow_at v i) = true) as Hlog
      by (intros v (_ & G1 & _ & G2 & _); by rewrite G1, G2).
    apply (resumes_via _ login_run w w'); [rewrite (Hrun w w' false), Hlog; tauto| |by apply login_resumes].
    rewrite (Hrun _ _ false (or_intror eq_refl) (En b)), Hlog; [done|]. by apply logging_app.
Qed.

Lemma proc_resumes w : midway w -> resumes proc w b.
Proof.
  intros [H1|[H1|[H1|[H1|H1]]]].
  - apply (resumes_settled _ _ w); [by apply passes_settled|done|]. apply passes_settled. unfold settled. by rewrite flow_at_app by apply H1.
  - apply (resumes_via _ request_run w w); [by apply (passes_request 2)|by apply (passes_request 2), requesting_app|by apply request_resumes].
  - apply (resumes_via _ login_run w w); [by apply (passes_login 1)|by apply (passes_login 1), logging_app|by apply login_resumes].
  - apply (resumes_via _ fresh_run w w); [by apply passes_fresh|by apply passes_fresh, fresh_app|by apply fresh_resumes].
  - apply (resumes_via _ http_go w w); [by apply proc_http|by apply proc_http, waiting_app|by apply http_resumes].
Qed.

Lemma midway_app w : midway w -> midway (app w b).
Proof.
  intros [H1|[H1|[H1|[H1|H1]]]]; unfold midway.
  - left. unfold settled. by rewrite flow_at_app by apply H1.
  - right. left. by apply requesting_app.
  - do 2 right. left. by apply logging_app.
  - do 3 right. left. by apply fresh_app.
  - do 4 right. by apply waiting_app.
Qed.

End Next.

(** The client's segments, one after the other. *)
Fixpoint feed_segments (w : world) (segs : list bytes) : res world :=
  match segs with
  | [] => Ret w
  | s :: segs => let! w := proc (app w s) in feed_segments w segs
  end.

Lemma segments_joined w s segs :
  midway w -> Forall bytes_ok (s :: segs) ->
  norm_res (feed_segments w (s :: segs)) = norm_res (proc (app w (s ++ concat segs))).
Proof.
  revert w s. induction segs as [|s' segs IH]; intros w s Hw [Hs Hss]%Forall_cons.
  { cbn [feed_segments concat]. rewrite app_nil_r. by destruct (proc (app w s)). }
  assert (bytes_ok (s' ++ concat segs)) as Hb.
  { apply Forall_cons in Hss as [H1 H2]. apply bytes_ok_app; split; [done|]. clear -H2. induction H2; [constructor|]. by apply bytes_ok_app. }
  destruct (proc_resumes _ Hb (app w s) (midway_app _ Hs w Hw)) as (w1 & E1 & Hm & E2).
  rewrite app_app in E2 by (by apply midway_active). cbn [concat]. rewrite <- E2, <- (IH w1 s' Hm Hss).
  cbn [feed_segments]. by rewrite E1.
Qed.

Lemma segments_total w segs : midway w -> Forall bytes_ok segs -> exists w', feed_segments w segs = Ret w'.
Proof.
  intros Hw Hs. revert w Hw. induction Hs as [|s segs H1 H2 IH]; intros w Hw; [by eexists|].
  destruct (proc_resumes [] ltac:(constructor) (app w s) (midway_app s H1 w Hw)) as (w1 & E & Hm & _).
  cbn [feed_segments]. rewrite E. by apply IH.
Qed.

End Passes.

End Targets.

End Commute.

(** ** The theorem *)

(** C19: The handshake does not depend on how TCP cuts the client's bytes into segments.  From
    a freshly accepted flow, running [process_socks_handshake] after each segment succeeds and
    leaves the whole proxy (every flow, every connection slot, the login failures, the actions
    performed and the bytes still buffered for the tunnel) as running it once on all the bytes
    does.  The one exception is the resume offset of the HTTP header scan, which is not used
    once the handshake is over. *)
Theorem segmentation_independent `{Inet} cfg ssrf_off fail_max fail_window (o : io) (w : world) (i : nat) (s : bytes) (segs : list bytes) :
  fresh i w -> Forall bytes_ok (s :: segs) ->
  exists w1 w2,
    feed_segments i cfg ssrf_off fail_max fail_window o w (s :: segs) = Ret w1 /\
    process_socks_handshake cfg ssrf_off fail_max fail_window o (app i w (concat (s :: segs))) i = Ret w2 /\
    norm i w1 = norm i w2.
Proof.
  intros Hf Hs. assert (midway i w) as Hm by (by do 3 right; left).
  destruct (segments_total i cfg ssrf_off fail_max fail_window o w _ Hm Hs) as [w1 E1].
  pose proof (segments_joined i cfg ssrf_off fail_max fail_window o w s segs Hm Hs) as E. rewrite E1 in E. cbn [norm_res] in E.
  exists w1. unfold proc in E. cbn [concat]. destruct (process_socks_handshake _ _ _ _ _ _ _) as [w2|]; [|done].
  exists w2. split; [done|]. split; [done|]. exact (f_equal (fun r => match r with Ret v => v | Fault _ => w1 end) E).
Qed.

Lemma segmentation_independent_witness :
  exists w1 w2,
    @feed_segments 0 demo_inet demo_cfg false 5 60000 demo_io demo1 [[5]; [1; 2; 1]; [1; 117; 3] ++ lit "ke"; lit "y" ++ [5; 1; 0; 1; 93]; [184; 216; 34; 0; 80; 9]] = Ret w1 /\
    @process_socks_handshake demo_inet demo_cfg false 5 60000 demo_io (app 0 demo1 (demo_bytes ++ [9])) 0 = Ret w2 /\
    norm 0 w1 = norm 0 w2.
Proof.
  apply (@segmentation_independent demo_inet demo_cfg false 5 60000 demo_io demo1 0 [5] [[1; 2; 1]; [1; 117; 3] ++ lit "ke"; lit "y" ++ [5; 1; 0; 1; 93]; [184; 216; 34; 0; 80; 9]]).
  - unfold fresh. vm_compute. split_and!; constructor.
  - apply (bool_decide_unpack _). vm_compute. exact I.
Defined.
