(* ===== verification/DnsMsg.v ===== *)
(** * DNS messages of the proxy (src/src/common/socks_dns.c)

    The query a resolver thread sends through the tunnel, and the test that decides whether
    a packet from the tunnel answers an outstanding query.  The threads and the table of
    outstanding queries are in Dns. *)

From S2P Require Import Prelude Util Crypto Protocol Ipv4 ProtoParse Lockout Flow.

(** ** Names *)

Fixpoint skip_dots (d : bytes) : bytes :=
  match d with
  | [] => []
  | c :: d' => if c =? 46 then skip_dots d' else d
  end.

(** The first loop of [dns_encode_qname]: every label has 1 to 63 bytes. *)
Fixpoint labels_ok (d : bytes) (llen : Z) : bool :=
  match d with
  | [] => negb ((llen =? 0) || (llen >? 63))
  | c :: d =>
      if c =? 46 then if (llen =? 0) || (llen >? 63) then false else labels_ok d 0
      else labels_ok d (llen + 1)
  end.

(** The body of the second loop at the end of a label. *)
Definition put_label (out lab : bytes) (outsz : Z) : option bytes :=
  if zlen out + 1 + zlen lab + 1 >? outsz then None
  else Some (if zlen lab >? 0 then out ++ u8 (zlen lab) :: lab else out).

(** The second loop; [lab] is the text from [lstart] on. *)
Fixpoint put_labels (d lab out : bytes) (outsz : Z) : option bytes :=
  match d with
  | [] => put_label out lab outsz
  | c :: d =>
      if c =? 46 then
        match put_label out lab outsz with
        | None => None
        | Some out => put_labels d [] out outsz
        end
      else put_labels d (lab ++ [c]) out outsz
  end.

(** [None] is -1. *)
Definition dns_encode_qname (domain : bytes) (outsz : Z) : option bytes :=
  let d := rev (skip_dots (rev domain)) in
  if (zlen d =? 0) || (zlen d >? 253) then None
  else if negb (labels_ok d 0) then None
  else
    match put_labels d [] [] outsz with
    | None => None
    | Some out => if zlen out + 1 >? outsz then None else Some (out ++ [0])
    end.

(** ** Queries *)

(** [None] is 0; [outsz] is the size of the buffer. *)
Definition dns_build_query (id : Z) (domain : bytes) (qtype outsz : Z) : res (option bytes) :=
  if outsz <? 17 then Ret None
  else
    match dns_encode_qname domain (outsz - 12) with
    | None => Ret None
    | Some q =>
        if 12 + zlen q + 4 >? outsz then Fault OutOfBounds
        else Ret (Some (put16 id ++ [1; 0; 0; 1] ++ fill 0 6 ++ q ++ [0; u8 qtype; 0; 1]))
    end.

Definition dns_build_inner (sip dip sport ipid : Z) (dnsq : bytes) (outsz : Z) : res (option bytes) :=
  let udplen := 8 + zlen dnsq in
  let tot := 20 + udplen in
  if tot >? outsz then Ret None
  else
    let ip ck := [69; 0] ++ put16 tot ++ put16 ipid ++ [0; 0; 64; 17] ++ ck ++ put32 sip ++ put32 dip in
    let! ipc := ip_csum_fold (ip_csum_accum 0 (ip [0; 0])) in
    let udp ck := put16 sport ++ [0; 53] ++ put16 udplen ++ ck ++ dnsq in
    let! uc := ip_udp_csum sip dip (udp [0; 0]) in
    Ret (Some (ip (put16 ipc) ++ udp (put16 uc))).

Definition dns_wrap_outer (inner outer xkey : bytes) (outsz : Z) : option bytes :=
  if 8 + zlen inner >? outsz then None
  else Some (take 8 outer ++ (if outer.[0] =? PT_DATA_ENC then xor_crypt inner xkey else inner)).

(** ** Responses *)

Record DnsWait := mk_wait {
  dw_in_use : bool;
  dw_id : Z;
  dw_sport : Z;
  dw_ipid : Z;
  dw_deadline : Z;
  dw_resends : Z;
  dw_domain : bytes;
  dw_flow : Z;
  dw_port : Z;
  dw_qtype : Z
}.

Definition wait0 : DnsWait := mk_wait false 0 0 0 0 0 [] 0 0 0.

(** [None] is (size_t)-1. *)
Fixpoint dns_skip_name (fuel : nat) (p : bytes) (off : Z) : res (option Z) :=
  if off >=? zlen p then Ret None
  else
    match fuel with
    | O => Fault OutOfFuel
    | S fuel =>
        let! l := rd p off in
        if Z.land l 192 =? 192 then if off + 2 >? zlen p then Ret None else Ret (Some (off + 2))
        else if negb (Z.land l 192 =? 0) then Ret None
        else
          let off := off + 1 in
          if l =? 0 then Ret (Some off)
          else if off + l >? zlen p then Ret None
          else dns_skip_name fuel p (off + l)
    end.

(** The questions after the first one. *)
Fixpoint skip_questions (qd : nat) (dns : bytes) (off : Z) : res (option Z) :=
  match qd with
  | O => Ret (Some off)
  | S qd =>
      let! r := dns_skip_name (length dns) dns off in
      match r with
      | None => Ret None
      | Some off => if off + 4 >? zlen dns then Ret None else skip_questions qd dns (off + 4)
      end
  end.

(** The loop over the answers; [None] is [goto bad] or its fall-through. *)
Fixpoint scan_answers (an : nat) (dns : bytes) (off qtype : Z) : res (option dest) :=
  match an with
  | O => Ret None
  | S an =>
      let! r := dns_skip_name (length dns) dns off in
      match r with
      | None => Ret None
      | Some off =>
          if off + 10 >? zlen dns then Ret None
          else
            let! h := rdn dns off 10 in
            let typ := be16 h.[0] h.[1] in
            let cls := be16 h.[2] h.[3] in
            let rdlen := be16 h.[8] h.[9] in
            let off := off + 10 in
            if off + rdlen >? zlen dns then Ret None
            else if (typ =? qtype) && (cls =? 1) && (qtype =? 1) && (rdlen =? 4) then
              let! a := rdn dns off 4 in Ret (Some (D4 (ip4_u32 a)))
            else if (typ =? qtype) && (cls =? 1) && (qtype =? 28) && (rdlen =? 16) then
              let! a := rdn dns off 16 in Ret (Some (D6 a))
            else scan_answers an dns (off + rdlen) qtype
      end
  end.

(** The question section the answer must repeat. *)
Definition dns_question (w : DnsWait) : option bytes :=
  match dns_encode_qname (dw_domain w) 296 with
  | None => None
  | Some q => Some (q ++ [0; dw_qtype w; 0; 1])
  end.

(** The checks on the message after the addresses. *)
Definition dns_check (w : DnsWait) (dns : bytes) : res (option dest) :=
  let! h := rdn dns 0 12 in
  if negb (be16 h.[0] h.[1] =? dw_id w) then Ret None
  else
    let flags := be16 h.[2] h.[3] in
    if (Z.land flags 32768 =? 0) || negb (Z.land flags 15 =? 0) then Ret None
    else if negb (h.[4] =? 0) || (h.[5] <? 1) then Ret None
    else
      match dns_question w with
      | None => Ret None
      | Some q =>
          if 12 + zlen q >? zlen dns then Ret None
          else
            let! q' := rdn dns 12 (zlen q) in
            if negb (beq q' q) then Ret None
            else
              let! r := skip_questions (Z.to_nat (be16 h.[4] h.[5] - 1)) dns (12 + zlen q) in
              match r with
              | None => Ret None
              | Some off => scan_answers (Z.to_nat (be16 h.[6] h.[7])) dns off (dw_qtype w)
              end
      end.

(** What [dns_try_handle_response] makes of a packet: not an answer (returned [false]),
    dropped, or the address for the query in a slot. *)
Inductive dns_verdict :=
| V_pass
| V_bad
| V_answer (slot : nat) (a : dest).

Definition dns_judge (srv ip wait_n : Z) (waits : list DnsWait) (pkt : bytes) : res dns_verdict :=
  let n := zlen pkt in
  if n <? 40 then Ret V_pass
  else
    let! proto := rd pkt 9 in
    let! b0 := rd pkt 0 in
    if negb (proto =? 17) || negb (Z.shiftr b0 4 =? 4) then Ret V_pass
    else if wait_n =? 0 then Ret V_pass
    else
      let ihl := Z.land b0 15 * 4 in
      if (ihl <? 20) || (n <? ihl + 8 + 12) then Ret V_pass
      else
        let! udp := rdn pkt ihl 8 in
        let dport := be16 udp.[2] udp.[3] in
        let ulen := be16 udp.[4] udp.[5] in
        if (ulen <? 8 + 12) || (ihl + ulen >? n) then Ret V_pass
        else
          match find_index (fun w => dw_in_use w && (dw_sport w =? dport)) waits with
          | None => Ret V_pass
          | Some slot =>
              let w := nth slot waits wait0 in
              if negb (udp.[0] =? 0) || negb (udp.[1] =? 53) then Ret V_bad
              else
                let! s4 := rdn pkt 12 4 in
                let! d4 := rdn pkt 16 4 in
                if negb (ip4_u32 s4 =? srv) then Ret V_bad
                else if negb (ip4_u32 d4 =? ip) then Ret V_bad
                else
                  let! dns := rdn pkt (ihl + 8) (ulen - 8) in
                  let! r := dns_check w dns in
                  Ret match r with None => V_bad | Some a => V_answer slot a end
          end.

(** ** The grammar of messages (RFC 1035) *)

(** A name: labels ended by the root or by a compression pointer. *)
Inductive dname : bytes -> Prop :=
| dn_root : dname [0]
| dn_pointer c d : Z.land c 192 = 192 -> dname [c; d]
| dn_label l lab rest : 0 < l < 64 -> zlen lab = l -> dname rest -> dname (l :: lab ++ rest).

Lemma label_byte l : is_byte l -> (Z.land l 192 =? 0) = (l <? 64).
Proof.
  intros Hl. assert (forallb (fun l => Bool.eqb (Z.land l 192 =? 0) (l <? 64)) (seqZ 0 256) = true) as F by (by vm_compute).
  rewrite forallb_forall in F. specialize (F l). rewrite <- list_elem_of_In in F. apply Bool.eqb_prop, F, elem_of_seqZ. unfold is_byte in Hl. lia.
Qed.

Lemma pointer_byte l : is_byte l -> Z.land l 192 = 192 -> 192 <= l.
Proof.
  intros Hl E. assert (forallb (fun l => negb (Z.land l 192 =? 192) || (192 <=? l)) (seqZ 0 256) = true) as F by (by vm_compute).
  rewrite forallb_forall in F. specialize (F l). rewrite <- list_elem_of_In in F.
  assert (negb (Z.land l 192 =? 192) || (192 <=? l) = true) as G by (apply F, elem_of_seqZ; unfold is_byte in Hl; lia). lia.
Qed.

Lemma rd_mid p c s : rd (p ++ c :: s) (zlen p) = Ret c.
Proof.
  pose proof (zlen_nonneg p). pose proof (zlen_nonneg s). rewrite rd_ok by (rewrite zlen_app, zlen_cons; lia).
  rewrite at_app_r by lia. by rewrite Z.sub_diag, at_cons_0.
Qed.

Lemma skip_name_run fuel p nm s :
  bytes_ok nm -> dname nm -> (length nm <= fuel)%nat -> dns_skip_name fuel (p ++ nm ++ s) (zlen p) = Ret (Some (zlen p + zlen nm)).
Proof.
  intros Hb Hn. revert fuel p. induction Hn as [|c d Hc|l lab rest Hl Hlab Hn IH]; intros fuel p Hf; (destruct fuel as [|fuel]; [cbn in Hf; lia|]);
    pose proof (zlen_nonneg p); pose proof (zlen_nonneg s); cbn [dns_skip_name].
  - change ([0] ++ s) with (0 :: s). rewrite rd_mid. cbn [rbind]. replace (_ >=? _) with false by (rewrite zlen_app, zlen_cons; lia). done.
  - change ([c; d] ++ s) with (c :: d :: s). rewrite rd_mid. cbn [rbind]. replace (_ >=? _) with false by (rewrite zlen_app, !zlen_cons; lia).
    replace (Z.land c 192 =? 192) with true by lia. by replace (_ >? _) with false by (rewrite zlen_app, !zlen_cons; lia).
  - apply Forall_cons in Hb as [Hl8 Hb]. apply Forall_app in Hb as [_ Hb].
    assert ((l :: lab ++ rest) ++ s = l :: (lab ++ rest ++ s)) as -> by (cbn; by rewrite <- app_assoc).
    rewrite rd_mid. cbn [rbind]. pose proof (zlen_nonneg lab). pose proof (zlen_nonneg rest).
    replace (_ >=? _) with false by (rewrite zlen_app, zlen_cons, !zlen_app; lia).
    pose proof (label_byte l Hl8) as L. replace (Z.land l 192 =? 192) with false by lia. replace (Z.land l 192 =? 0) with true by lia. cbn [negb].
    replace (l =? 0) with false by lia. replace (_ >? _) with false by (rewrite zlen_app, zlen_cons, !zlen_app; lia).
    replace (zlen p + 1 + l) with (zlen (p ++ l :: lab)) by (rewrite zlen_app, zlen_cons; lia).
    replace (p ++ l :: lab ++ rest ++ s) with ((p ++ l :: lab) ++ rest ++ s) by (by rewrite <- app_assoc).
    rewrite IH; [|done|cbn in Hf; rewrite length_app in Hf; lia]. f_equal. f_equal.
    rewrite zlen_app, !zlen_cons, zlen_app. lia.
Qed.

Lemma skip_name_sound fuel p s :
  bytes_ok s -> (length s <= fuel)%nat ->
  exists r, dns_skip_name fuel (p ++ s) (zlen p) = Ret r /\
    match r with
    | None => True
    | Some o => exists nm t, s = nm ++ t /\ dname nm /\ o = zlen p + zlen nm
    end.
Proof.
  revert p s. induction fuel as [|fuel IH]; intros p s Hb Hf; pose proof (zlen_nonneg p); cbn [dns_skip_name].
  { destruct s; [|cbn in Hf; lia]. rewrite app_nil_r. replace (_ >=? _) with true by lia. by exists None. }
  destruct s as [|l s]; [rewrite app_nil_r; replace (_ >=? _) with true by lia; by exists None|].
  apply Forall_cons in Hb as [Hl Hb]. pose proof (zlen_nonneg s). replace (_ >=? _) with false by (rewrite zlen_app, zlen_cons; lia).
  rewrite rd_mid. cbn [rbind]. destruct (Z.land l 192 =? 192) eqn:Ep.
  { destruct (_ >? _) eqn:E2; [by exists None|]. eexists; split; [done|]. destruct s as [|d s]; [rewrite zlen_app, zlen_cons, zlen_nil in E2; lia|].
    exists [l; d], s. split_and!; [done|by apply dn_pointer, Z.eqb_eq|]. by rewrite !zlen_cons, zlen_nil. }
  rewrite label_byte by done. destruct (l <? 64) eqn:E64; cbn [negb]; [|by exists None].
  destruct (l =? 0) eqn:E0.
  { eexists; split; [done|]. exists [0], s. apply Z.eqb_eq in E0 as ->. split_and!; [done|constructor|done]. }
  destruct (_ >? _) eqn:E2; [by exists None|]. rewrite zlen_app, zlen_cons in E2. unfold is_byte in Hl.
  destruct (split_at s l) as (lab & rest & -> & Hlab); [lia|]. apply Forall_app in Hb as [_ Hb].
  replace (p ++ l :: lab ++ rest) with ((p ++ l :: lab) ++ rest) by (by rewrite <- app_assoc).
  replace (zlen p + 1 + l) with (zlen (p ++ l :: lab)) by (rewrite zlen_app, zlen_cons; lia).
  destruct (IH (p ++ l :: lab) rest Hb) as (r & E & Hr); [cbn in Hf; rewrite length_app in Hf; lia|].
  exists r. split; [done|]. destruct r as [o|]; [|done]. destruct Hr as (nm & t & -> & Hn & ->).
  exists (l :: lab ++ nm), t. split_and!; [cbn; by rewrite <- app_assoc|by apply dn_label; [lia| |]|].
  rewrite zlen_app, !zlen_cons, zlen_app. lia.
Qed.

Record rr := mk_rr { rr_name : bytes; rr_typ : Z; rr_cls : Z; rr_ttl : bytes; rr_data : bytes }.

Definition rr_bytes (r : rr) : bytes :=
  rr_name r ++ (put16 (rr_typ r) ++ put16 (rr_cls r) ++ rr_ttl r ++ put16 (zlen (rr_data r))) ++ rr_data r.

Definition rr_ok (r : rr) : Prop :=
  bytes_ok (rr_name r) /\ dname (rr_name r) /\ 0 <= rr_typ r < 65536 /\ 0 <= rr_cls r < 65536 /\ zlen (rr_ttl r) = 4 /\
  zlen (rr_data r) < 65536.

(** The address a record gives for a query of type [qt]. *)
Definition rr_answer (qt : Z) (r : rr) : option dest :=
  if (rr_typ r =? qt) && (rr_cls r =? 1) && (qt =? 1) && (zlen (rr_data r) =? 4) then Some (D4 (ip4_u32 (rr_data r)))
  else if (rr_typ r =? qt) && (rr_cls r =? 1) && (qt =? 28) && (zlen (rr_data r) =? 16) then Some (D6 (rr_data r))
  else None.

Fixpoint first_answer (qt : Z) (rs : list rr) : option dest :=
  match rs with
  | [] => None
  | r :: rs => match rr_answer qt r with Some a => Some a | None => first_answer qt rs end
  end.

Lemma rdn_mid p d s n : n = zlen d -> rdn (p ++ d ++ s) (zlen p) n = Ret d.
Proof.
  intros ->. pose proof (zlen_nonneg p). pose proof (zlen_nonneg d). pose proof (zlen_nonneg s).
  rewrite rdn_ok by (rewrite ?zlen_app; lia). by rewrite slice_app_mid.
Qed.

Lemma rdn_front d s n : n = zlen d -> rdn (d ++ s) 0 n = Ret d.
Proof. exact (rdn_mid [] d s n). Qed.

Lemma rr_head_len r : rr_ok r -> zlen (put16 (rr_typ r) ++ put16 (rr_cls r) ++ rr_ttl r ++ put16 (zlen (rr_data r))) = 10.
Proof. intros (_ & _ & _ & _ & Ht & _). rewrite !zlen_app, !zlen_put16. lia. Qed.

Lemma rr_head_fields r :
  rr_ok r -> let h := put16 (rr_typ r) ++ put16 (rr_cls r) ++ rr_ttl r ++ put16 (zlen (rr_data r)) in
  be16 h.[0] h.[1] = rr_typ r /\ be16 h.[2] h.[3] = rr_cls r /\ be16 h.[8] h.[9] = zlen (rr_data r).
Proof.
  intros (_ & _ & Hy & Hc & Ht & Hd) h. pose proof (zlen_nonneg (rr_data r)). subst h. destruct (rr_ttl r) as [|t0 [|t1 [|t2 [|t3 [|]]]]];
    rewrite ?zlen_cons, ?zlen_nil in Ht; try (pose proof (zlen_nonneg l)); try lia.
  split_and!; by apply be16_put16.
Qed.

Lemma scan_step k p r s qt :
  rr_ok r ->
  scan_answers (S k) (p ++ rr_bytes r ++ s) (zlen p) qt =
  match rr_answer qt r with
  | Some a => Ret (Some a)
  | None => scan_answers k ((p ++ rr_bytes r) ++ s) (zlen (p ++ rr_bytes r)) qt
  end.
Proof.
  intros Hr. pose proof (rr_head_len r Hr) as Lh. pose proof (rr_head_fields r Hr) as Fh. cbv zeta in Fh.
  cbn [scan_answers]. unfold rr_bytes in *. set (h := put16 (rr_typ r) ++ put16 (rr_cls r) ++ rr_ttl r ++ put16 (zlen (rr_data r))) in *.
  destruct Hr as (Hb & Hn & _). rewrite <- app_assoc. rewrite skip_name_run; [|done|done|rewrite !length_app; lia]. cbn [rbind].
  rewrite <- zlen_app. set (q := p ++ rr_name r). rewrite <- (app_assoc h).
  assert (p ++ rr_name r ++ h ++ rr_data r ++ s = q ++ h ++ rr_data r ++ s) as -> by (unfold q; by rewrite <- !app_assoc).
  pose proof (zlen_nonneg q). pose proof (zlen_nonneg (rr_data r)). pose proof (zlen_nonneg s).
  replace (_ >? _) with false by (rewrite !zlen_app; lia). rewrite rdn_mid by lia. cbn [rbind].
  destruct Fh as (-> & -> & ->).
  replace (_ >? _) with false by (rewrite !zlen_app; lia).
  replace (q ++ h ++ rr_data r ++ s) with ((q ++ h) ++ rr_data r ++ s) by (by rewrite <- app_assoc).
  replace (zlen q + 10) with (zlen (q ++ h)) by (rewrite zlen_app; lia). unfold rr_answer.
  destruct ((rr_typ r =? qt) && (rr_cls r =? 1) && (qt =? 1) && (zlen (rr_data r) =? 4)) eqn:E4.
  { rewrite rdn_mid by lia. done. }
  destruct ((rr_typ r =? qt) && (rr_cls r =? 1) && (qt =? 28) && (zlen (rr_data r) =? 16)) eqn:E6.
  { rewrite rdn_mid by lia. done. }
  unfold q. rewrite <- zlen_app. by rewrite <- !app_assoc.
Qed.

Lemma scan_answers_run k p rs s qt a :
  Forall rr_ok rs -> first_answer qt (take k rs) = Some a ->
  scan_answers k (p ++ concat (rr_bytes <$> rs) ++ s) (zlen p) qt = Ret (Some a).
Proof.
  intros Hrs. revert p k. induction Hrs as [|r rs Hr Hrs IH]; intros p k; [by rewrite take_nil|].
  destruct k as [|k]; [done|]. cbn [take first_answer fmap list_fmap concat]. rewrite <- app_assoc, scan_step by done.
  destruct (rr_answer qt r); [by intros [= ->]|]. apply IH.
Qed.

Lemma rr_of_bytes (nm h data : bytes) :
  bytes_ok nm -> dname nm -> bytes_ok h -> zlen h = 10 -> zlen data = be16 h.[8] h.[9] ->
  exists r, nm ++ h ++ data = rr_bytes r /\ rr_ok r /\ rr_typ r = be16 h.[0] h.[1] /\ rr_cls r = be16 h.[2] h.[3] /\ rr_data r = data.
Proof.
  intros Hb Hn Hh Lh Ld.
  do 10 (destruct h as [|? h]; [rewrite ?zlen_cons, zlen_nil in Lh; lia|]). destruct h; [|rewrite !zlen_cons in Lh; pose proof (zlen_nonneg h); lia].
  repeat (apply Forall_cons in Hh as [? Hh]). cbn [at_ nth Z.to_nat Pos.to_nat Pos.iter_op Nat.add] in *.
  exists (mk_rr nm (be16 z z0) (be16 z1 z2) [z3; z4; z5; z6] data). unfold rr_bytes, rr_ok. cbn [rr_name rr_typ rr_cls rr_ttl rr_data].
  assert (zlen data = be16 z7 z8) as Ld' by exact Ld. rewrite Ld', !put16_be16 by done.
  assert (0 <= be16 z z0 < 65536 /\ 0 <= be16 z1 z2 < 65536 /\ 0 <= be16 z7 z8 < 65536) as (? & ? & ?) by (split_and!; by apply be16_range).
  split_and!; done || lia.
Qed.

Lemma scan_answers_sound k p s qt :
  bytes_ok s ->
  exists x, scan_answers k (p ++ s) (zlen p) qt = Ret x /\
    match x with
    | None => True
    | Some a => exists rs t, s = concat (rr_bytes <$> rs) ++ t /\ Forall rr_ok rs /\ (length rs <= k)%nat /\ first_answer qt rs = Some a
    end.
Proof.
  revert p s. induction k as [|k IH]; intros p s Hs; [by exists None|].
  destruct (skip_name_sound (length (p ++ s)) p s) as (r & E & Hr); [done|rewrite length_app; lia|].
  destruct r as [o|]; [|exists None; split; [cbn [scan_answers]; by rewrite E|done]].
  destruct Hr as (nm & t & -> & Hn & ->). apply Forall_app in Hs as [Hnm Ht].
  pose proof (zlen_nonneg p). pose proof (zlen_nonneg nm). pose proof (zlen_nonneg t).
  destruct (decide (zlen t < 10)) as [L|L].
  { exists None. split; [|done]. cbn [scan_answers]. rewrite E. cbn [rbind]. by replace (_ >? _) with true by (rewrite !zlen_app; lia). }
  destruct (split_at t 10) as (h & t1 & -> & Lh); [lia|]. apply Forall_app in Ht as [Hh Ht1].
  pose proof (zlen_nonneg t1). rewrite zlen_app in L.
  assert (0 <= be16 h.[8] h.[9] < 65536) as Hrd by (apply be16_range; by apply at_byte).
  destruct (decide (zlen t1 < be16 h.[8] h.[9])) as [L1|L1].
  { exists None. split; [|done]. cbn [scan_answers]. rewrite E. cbn [rbind]. replace (_ >? _) with false by (rewrite !zlen_app; lia).
    replace (p ++ nm ++ h ++ t1) with ((p ++ nm) ++ h ++ t1) by (by rewrite <- app_assoc). rewrite <- zlen_app, rdn_mid by lia. cbn [rbind].
    by replace (_ >? _) with true by (rewrite !zlen_app; lia). }
  destruct (split_at t1 (be16 h.[8] h.[9])) as (data & t2 & -> & Ld); [lia|].
  destruct (rr_of_bytes nm h data) as (r & Er & Hok & _); [done..|].
  assert (p ++ nm ++ h ++ data ++ t2 = p ++ rr_bytes r ++ t2) as -> by (rewrite <- Er, <- !app_assoc; done).
  assert (nm ++ h ++ data ++ t2 = rr_bytes r ++ t2) as -> by (rewrite <- Er, <- !app_assoc; done).
  apply Forall_app in Ht1 as [_ Ht2]. rewrite scan_step by done. destruct (rr_answer qt r) as [a|] eqn:Ea.
  - exists (Some a). split; [done|]. exists [r], t2. cbn [fmap list_fmap concat first_answer length]. rewrite app_nil_r, Ea.
    split_and!; [done|by constructor|lia|done].
  - destruct (IH (p ++ rr_bytes r) t2 Ht2) as (x & Ex & Hx). exists x. split; [done|]. destruct x as [a|]; [|done].
    destruct Hx as (rs & t & -> & Hrs & Lrs & Fa). exists (r :: rs), t. cbn [fmap list_fmap concat first_answer length].
    rewrite Ea, <- app_assoc. split_and!; [done|by constructor|lia|done].
Qed.

Definition question (q : bytes) : Prop := exists nm t, q = nm ++ t /\ bytes_ok nm /\ dname nm /\ zlen t = 4.

Lemma skip_questions_run p qs s :
  Forall question qs -> skip_questions (length qs) (p ++ concat qs ++ s) (zlen p) = Ret (Some (zlen (p ++ concat qs))).
Proof.
  intros Hq. revert p. induction Hq as [|q qs (nm & t & -> & Hb & Hn & Ht) Hq IH]; intros p; [cbn; by rewrite app_nil_r|].
  cbn [length skip_questions concat]. rewrite <- !app_assoc. pose proof (zlen_nonneg (concat qs)). pose proof (zlen_nonneg s).
  rewrite skip_name_run; [|done|done|rewrite !length_app; lia]. cbn [rbind]. replace (_ >? _) with false by (rewrite !zlen_app; lia).
  replace (zlen p + zlen nm + 4) with (zlen (p ++ nm ++ t)) by (rewrite !zlen_app; lia).
  replace (p ++ nm ++ t ++ concat qs ++ s) with ((p ++ nm ++ t) ++ concat qs ++ s) by (by rewrite <- !app_assoc).
  rewrite IH. by rewrite <- !app_assoc.
Qed.

Lemma skip_questions_sound k p s :
  bytes_ok s ->
  exists x, skip_questions k (p ++ s) (zlen p) = Ret x /\
    match x with
    | None => True
    | Some o => exists qs t, s = concat qs ++ t /\ Forall question qs /\ length qs = k /\ o = zlen (p ++ concat qs)
    end.
Proof.
  revert p s. induction k as [|k IH]; intros p s Hs.
  { exists (Some (zlen p)). split; [done|]. exists [], s. cbn. by rewrite app_nil_r. }
  destruct (skip_name_sound (length (p ++ s)) p s) as (r & E & Hr); [done|rewrite length_app; lia|].
  cbn [skip_questions]. rewrite E. cbn [rbind]. destruct r as [o|]; [|by exists None]. destruct Hr as (nm & t & -> & Hn & ->).
  destruct (_ >? _) eqn:E4; [by exists None|]. rewrite !zlen_app in E4. apply Forall_app in Hs as [Hnm Ht].
  destruct (split_at t 4) as (c & t1 & -> & Lc); [pose proof (zlen_nonneg p); pose proof (zlen_nonneg nm); lia|].
  apply Forall_app in Ht as [_ Ht1]. replace (p ++ nm ++ c ++ t1) with ((p ++ nm ++ c) ++ t1) by (by rewrite <- !app_assoc).
  replace (zlen p + zlen nm + 4) with (zlen (p ++ nm ++ c)) by (rewrite !zlen_app; lia).
  destruct (IH (p ++ nm ++ c) t1 Ht1) as (x & Ex & Hx). exists x. split; [done|]. destruct x as [o|]; [|done].
  destruct Hx as (qs & t & -> & Hq & Lq & ->). exists ((nm ++ c) :: qs), t. cbn [concat length]. split_and!.
  - by rewrite <- !app_assoc.
  - constructor; [by exists nm, c|done].
  - by rewrite Lq.
  - by rewrite <- !app_assoc.
Qed.

(** The message [m] answers the query [w] with the address [a]. *)
Definition answers (w : DnsWait) (m : bytes) (a : dest) : Prop :=
  exists fl q qs cnt ns rs t,
    m = (put16 (dw_id w) ++ put16 fl ++ put16 (1 + zlen qs) ++ put16 cnt ++ ns) ++ q ++ concat qs ++ concat (rr_bytes <$> rs) ++ t /\
    0 <= fl < 65536 /\ Z.land fl 32768 <> 0 /\ Z.land fl 15 = 0 /\ zlen ns = 4 /\
    dns_question w = Some q /\ Forall question qs /\ zlen qs < 255 /\
    Forall rr_ok rs /\ zlen rs <= cnt < 65536 /\ first_answer (dw_qtype w) rs = Some a.

Lemma head_fields i fl qd cnt ns :
  0 <= i < 65536 -> 0 <= fl < 65536 -> 0 <= qd < 65536 -> 0 <= cnt < 65536 -> zlen ns = 4 ->
  let h := put16 i ++ put16 fl ++ put16 qd ++ put16 cnt ++ ns in
  zlen h = 12 /\ be16 h.[0] h.[1] = i /\ be16 h.[2] h.[3] = fl /\ be16 h.[4] h.[5] = qd /\ h.[4] = u8 (Z.shiftr qd 8) /\
  h.[5] = u8 qd /\ be16 h.[6] h.[7] = cnt.
Proof.
  intros Hi Hf Hq Hc Hn h. split; [unfold h; rewrite !zlen_app, !zlen_put16; lia|]. split_and!; try done; by apply be16_put16.
Qed.

Lemma head_of (h : bytes) :
  bytes_ok h -> zlen h = 12 ->
  exists ns, h = put16 (be16 h.[0] h.[1]) ++ put16 (be16 h.[2] h.[3]) ++ put16 (be16 h.[4] h.[5]) ++ put16 (be16 h.[6] h.[7]) ++ ns /\ zlen ns = 4.
Proof.
  intros Hh Lh. do 12 (destruct h as [|? h]; [rewrite ?zlen_cons, zlen_nil in Lh; lia|]).
  destruct h; [|rewrite !zlen_cons in Lh; pose proof (zlen_nonneg h); lia].
  repeat (apply Forall_cons in Hh as [? Hh]). exists [z7; z8; z9; z10]. split; [|done].
  change ((z :: ?x).[0]) with z. cbn [at_ nth Z.to_nat Pos.to_nat Pos.iter_op Nat.add]. by rewrite !put16_be16.
Qed.

Lemma dns_check_run w m a : 0 <= dw_id w < 65536 -> answers w m a -> dns_check w m = Ret (Some a).
Proof.
  intros Hid (fl & q & qs & cnt & ns & rs & t & -> & Hfl & Hqr & Hrc & Hns & Hq & Hqs & Lqs & Hrs & Hcnt & Hfirst).
  pose proof (zlen_nonneg qs). pose proof (zlen_nonneg rs).
  destruct (head_fields (dw_id w) fl (1 + zlen qs) cnt ns) as (Lh & F0 & F2 & F4 & F4' & F5 & F6); [lia..|].
  set (h := put16 (dw_id w) ++ put16 fl ++ put16 (1 + zlen qs) ++ put16 cnt ++ ns) in *. clearbody h.
  unfold dns_check. rewrite rdn_front by lia. cbn [rbind]. rewrite F0, F2, F4, F6, Z.eqb_refl. cbn [negb].
  replace (Z.land fl 32768 =? 0) with false by lia. replace (Z.land fl 15 =? 0) with true by lia. cbn [orb negb].
  assert (h.[4] = 0 /\ 1 <= h.[5]) as [E4 E5].
  { rewrite F4', F5, u8_shiftr by lia. unfold u8. split; [lia|]. rewrite Z.mod_small; lia. }
  replace (h.[4] =? 0) with true by lia. replace (h.[5] <? 1) with false by lia. cbn [orb negb]. rewrite Hq.
  set (rest := concat qs ++ concat (rr_bytes <$> rs) ++ t). pose proof (zlen_nonneg rest). pose proof (zlen_nonneg q).
  replace (_ >? _) with false by (rewrite !zlen_app; lia). rewrite <- Lh, rdn_mid by done. cbn [rbind].
  assert (beq q q = true) as -> by (by apply beq_true). cbn [negb]. rewrite <- zlen_app.
  replace (h ++ q ++ rest) with ((h ++ q) ++ rest) by (by rewrite <- app_assoc). unfold rest.
  replace (Z.to_nat (1 + zlen qs - 1)) with (length qs) by (unfold zlen; lia). rewrite skip_questions_run by done. cbn [rbind].
  replace ((h ++ q) ++ concat qs ++ concat (rr_bytes <$> rs) ++ t) with (((h ++ q) ++ concat qs) ++ concat (rr_bytes <$> rs) ++ t) by (by rewrite <- !app_assoc).
  apply scan_answers_run; [done|]. rewrite take_ge; [done|]. unfold zlen in Hcnt. lia.
Qed.

Lemma dns_check_sound w m :
  bytes_ok m -> 12 <= zlen m ->
  exists x, dns_check w m = Ret x /\ match x with None => True | Some a => answers w m a end.
Proof.
  intros Hm Lm. destruct (split_at m 12) as (h & m1 & -> & Lh); [lia|]. apply Forall_app in Hm as [Hh Hm1].
  unfold dns_check. rewrite rdn_front by lia. cbn [rbind]. destruct (head_of h Hh Lh) as (ns & Eh & Lns).
  destruct (be16 h.[0] h.[1] =? dw_id w) eqn:Ei; cbn [negb]; [|by exists None].
  destruct (_ || _) eqn:Ef; [by exists None|]. destruct (negb (h.[4] =? 0) || (h.[5] <? 1)) eqn:Eq; [by exists None|].
  destruct (dns_question w) as [q|] eqn:Hq; [|by exists None]. destruct (_ >? _) eqn:Lq; [by exists None|].
  rewrite zlen_app in Lq. pose proof (zlen_nonneg q). destruct (split_at m1 (zlen q)) as (q' & m2 & -> & Lq'); [lia|].
  rewrite <- Lh, rdn_mid by done. cbn [rbind]. destruct (beq q' q) eqn:Eqq; cbn [negb]; [|by exists None]. apply beq_true in Eqq as ->.
  apply Forall_app in Hm1 as [_ Hm2]. rewrite <- zlen_app, app_assoc.
  destruct (skip_questions_sound (Z.to_nat (be16 h.[4] h.[5] - 1)) (h ++ q) m2 Hm2) as (x & -> & Hx). cbn [rbind].
  destruct x as [o|]; [|by exists None]. destruct Hx as (qs & m3 & -> & Hqs & Lqs & ->). apply Forall_app in Hm2 as [_ Hm3].
  rewrite app_assoc. destruct (scan_answers_sound (Z.to_nat (be16 h.[6] h.[7])) ((h ++ q) ++ concat qs) m3 (dw_qtype w) Hm3) as (x & -> & Hx).
  exists x. split; [done|]. destruct x as [a|]; [|done]. destruct Hx as (rs & t & -> & Hrs & Lrs & Hfirst).
  assert (is_byte h.[4] /\ is_byte h.[5]) as [B4 B5] by (split; by apply at_byte). unfold is_byte in *.
  assert (be16 h.[4] h.[5] = 1 + zlen qs) as E4 by (rewrite be16_val in * by done; unfold zlen; lia).
  assert (0 <= be16 h.[6] h.[7] < 65536) as H6 by (apply be16_range; by apply at_byte).
  assert (0 <= be16 h.[2] h.[3] < 65536) as H2 by (apply be16_range; by apply at_byte).
  exists (be16 h.[2] h.[3]), q, qs, (be16 h.[6] h.[7]), ns, rs, t. apply Z.eqb_eq in Ei. rewrite <- Ei, <- E4, <- Eh.
  assert (zlen rs <= be16 h.[6] h.[7]) by (unfold zlen; lia).
  split; [by rewrite <- !app_assoc|]. rewrite be16_val in E4 by done. split_and!; done || lia.
Qed.

(** The packet [pkt] carries, from port 53 of [srv] to [ip] and the port of [w], a message
    that answers [w] with [a]. *)
Definition response_to (srv ip : Z) (w : DnsWait) (pkt : bytes) (a : dest) : Prop :=
  exists iph ck m t,
    pkt = iph ++ (put16 53 ++ put16 (dw_sport w) ++ put16 (8 + zlen m) ++ ck) ++ m ++ t /\
    20 <= zlen iph /\ zlen iph = Z.land iph.[0] 15 * 4 /\ Z.shiftr iph.[0] 4 = 4 /\ iph.[9] = 17 /\
    ip4_u32 (slice iph 12 4) = srv /\ ip4_u32 (slice iph 16 4) = ip /\ zlen ck = 2 /\ 8 + zlen m < 65536 /\ answers w m a.

(** The entry that wins: the first one in use on the port. *)
Definition first_on_port (waits : list DnsWait) (slot : nat) (w : DnsWait) : Prop :=
  waits !! slot = Some w /\ dw_in_use w = true /\
  forall j w', (j < slot)%nat -> waits !! j = Some w' -> dw_in_use w' = true -> dw_sport w' <> dw_sport w.

Definition wait_ok (w : DnsWait) : Prop := 0 <= dw_id w < 65536 /\ 0 <= dw_sport w < 65536.

Lemma answers_len w m a : answers w m a -> 12 <= zlen m.
Proof.
  intros (fl & q & qs & cnt & ns & rs & t & -> & _ & _ & _ & Hns & _). rewrite !zlen_app, !zlen_put16.
  pose proof (zlen_nonneg q). pose proof (zlen_nonneg (concat qs)). pose proof (zlen_nonneg (concat (rr_bytes <$> rs))). pose proof (zlen_nonneg t). lia.
Qed.

Lemma udp_fields sp dp ln ck :
  0 <= sp < 65536 -> 0 <= dp < 65536 -> 0 <= ln < 65536 -> zlen ck = 2 ->
  let u := put16 sp ++ put16 dp ++ put16 ln ++ ck in
  zlen u = 8 /\ be16 u.[0] u.[1] = sp /\ be16 u.[2] u.[3] = dp /\ be16 u.[4] u.[5] = ln.
Proof.
  intros Hs Hd Hl Hc u. split; [unfold u; rewrite !zlen_app, !zlen_put16; lia|]. split_and!; by apply be16_put16.
Qed.

Lemma rdn_inside d e off n : 0 <= off -> 0 <= n -> off + n <= zlen d -> rdn (d ++ e) off n = Ret (slice d off n).
Proof. intros. pose proof (zlen_nonneg e). rewrite rdn_ok by (rewrite ?zlen_app; lia). by rewrite slice_app_inside. Qed.

Lemma rd_inside d e i : 0 <= i < zlen d -> rd (d ++ e) i = Ret d.[i].
Proof. intros. pose proof (zlen_nonneg e). rewrite rd_ok by (rewrite zlen_app; lia). by rewrite at_app_l. Qed.

Lemma judge_run srv ip n waits slot w pkt a :
  wait_ok w -> n <> 0 -> first_on_port waits slot w -> response_to srv ip w pkt a ->
  dns_judge srv ip n waits pkt = Ret (V_answer slot a).
Proof.
  intros (Hid & Hsp) Hn (Hw & Hu & Hfirst) (iph & ck & m & t & -> & L20 & Lih & Hv & Hp & Hs & Hd & Lck & Lm & Ha).
  pose proof (answers_len _ _ _ Ha). pose proof (zlen_nonneg t).
  destruct (udp_fields 53 (dw_sport w) (8 + zlen m) ck) as (Lu & U0 & U2 & U4); [lia..|].
  assert ((put16 53 ++ put16 (dw_sport w) ++ put16 (8 + zlen m) ++ ck).[0] = 0 /\ (put16 53 ++ put16 (dw_sport w) ++ put16 (8 + zlen m) ++ ck).[1] = 53) as [B0 B1] by done.
  set (u := put16 53 ++ put16 (dw_sport w) ++ put16 (8 + zlen m) ++ ck) in *. clearbody u.
  unfold dns_judge. replace (_ <? 40) with false by (rewrite !zlen_app; lia). rewrite !rd_inside by lia. cbn [rbind].
  rewrite Hp, Hv. cbn [Z.eqb Pos.eqb negb orb]. replace (n =? 0) with false by lia. rewrite <- Lih.
  replace (zlen iph <? 20) with false by lia. replace (_ <? _) with false by (rewrite !zlen_app; lia). cbn [orb].
  rewrite rdn_mid by lia. cbn [rbind]. rewrite U2, U4. replace (_ <? _) with false by lia.
  replace (_ >? _) with false by (rewrite !zlen_app; lia). cbn [orb].
  assert (find_index (fun w' => dw_in_use w' && (dw_sport w' =? dw_sport w)) waits = Some slot) as ->.
  { apply find_index_Some. split; [exists w; split; [done|]; rewrite Hu; by apply Z.eqb_refl|]. intros j w' Hj Hl.
    destruct (dw_in_use w') eqn:E; [|done]. cbn [andb]. apply Z.eqb_neq. by apply (Hfirst j w'). }
  rewrite (nth_lookup_Some _ _ _ _ Hw), B0, B1. cbn [Z.eqb Pos.eqb negb orb]. rewrite !rdn_inside by lia. cbn [rbind].
  rewrite Hs, Hd, !Z.eqb_refl. cbn [negb]. rewrite app_assoc. replace (zlen iph + 8) with (zlen (iph ++ u)) by (rewrite zlen_app; lia).
  rewrite rdn_mid by lia. cbn [rbind]. by rewrite (dns_check_run w m a).
Qed.

Lemma udp_of (u : bytes) :
  bytes_ok u -> zlen u = 8 ->
  exists ck, u = put16 (be16 u.[0] u.[1]) ++ put16 (be16 u.[2] u.[3]) ++ put16 (be16 u.[4] u.[5]) ++ ck /\ zlen ck = 2.
Proof.
  intros Hh Lh. do 8 (destruct u as [|? u]; [rewrite ?zlen_cons, zlen_nil in Lh; lia|]).
  destruct u; [|rewrite !zlen_cons in Lh; pose proof (zlen_nonneg u); lia].
  repeat (apply Forall_cons in Hh as [? Hh]). exists [z5; z6]. split; [|done].
  cbn [at_ nth Z.to_nat Pos.to_nat Pos.iter_op Nat.add]. by rewrite !put16_be16.
Qed.

Lemma judge_sound srv ip n waits pkt :
  bytes_ok pkt ->
  exists v, dns_judge srv ip n waits pkt = Ret v /\
    match v with
    | V_answer slot a => n <> 0 /\ exists w, first_on_port waits slot w /\ response_to srv ip w pkt a
    | _ => True
    end.
Proof.
  intros Hb. unfold dns_judge. destruct (zlen pkt <? 40) eqn:L40; [by exists V_pass|]. rewrite !rd_ok by lia. cbn [rbind].
  destruct (negb (pkt.[9] =? 17) || _) eqn:Ev; [by exists V_pass|]. destruct (n =? 0) eqn:En; [by exists V_pass|].
  destruct ((_ <? 20) || _) eqn:Eh; [by exists V_pass|]. pose proof (zlen_nonneg pkt).
  destruct (split_at pkt (Z.land pkt.[0] 15 * 4)) as (iph & p1 & Ep & Lih); [lia|].
  assert (pkt.[0] = iph.[0] /\ pkt.[9] = iph.[9]) as [E0 E9] by (rewrite Ep, !at_app_l by lia; done). rewrite E0, E9 in *.
  rewrite Ep in *. clear Ep E0 E9. rewrite <- Lih in *. rewrite zlen_app in *. apply Forall_app in Hb as [Hih Hp1].
  destruct (split_at p1 8) as (u & p2 & -> & Lu); [lia|]. apply Forall_app in Hp1 as [Hu Hp2]. rewrite zlen_app in *.
  rewrite rdn_mid by lia. cbn [rbind]. destruct ((_ <? 8 + 12) || _) eqn:El; [by exists V_pass|].
  destruct (find_index _ waits) as [slot|] eqn:Ei; [|by exists V_pass]. apply find_index_Some in Ei as ((w & Hw & Hfw) & Hfirst).
  rewrite (nth_lookup_Some _ _ _ _ Hw). destruct (negb (u.[0] =? 0) || _) eqn:Es; [by exists V_bad|].
  rewrite !rdn_inside by lia. cbn [rbind]. destruct (ip4_u32 (slice iph 12 4) =? srv) eqn:E12; cbn [negb]; [|by exists V_bad].
  destruct (ip4_u32 (slice iph 16 4) =? ip) eqn:E16; cbn [negb]; [|by exists V_bad].
  destruct (split_at p2 (be16 u.[4] u.[5] - 8)) as (m & t & -> & Lm); [lia|]. apply Forall_app in Hp2 as [Hm _].
  rewrite app_assoc. replace (zlen iph + 8) with (zlen (iph ++ u)) by (rewrite zlen_app; lia). rewrite rdn_mid by lia. cbn [rbind].
  destruct (dns_check_sound w m Hm) as (x & -> & Hx); [lia|]. cbn [rbind]. destruct x as [a|]; [|by exists V_bad].
  apply andb_true_iff in Hfw as [Hiu Hsp]. apply Z.eqb_eq in Hsp.
  eexists; split; [done|]. split; [lia|]. exists w. split; [split; [done|]; split; [done|]|].
  - intros j w' Hj Hl Hin. specialize (Hfirst j w' Hj Hl). rewrite Hin in Hfirst. cbn [andb] in Hfirst. lia.
  - destruct (udp_of u Hu Lu) as (ck & Eu & Lck). assert (be16 u.[4] u.[5] < 65536) by (apply be16_range; by apply at_byte).
    exists iph, ck, m, t. rewrite <- app_assoc. replace (8 + zlen m) with (be16 u.[4] u.[5]) by lia.
    replace (dw_sport w) with (be16 u.[2] u.[3]) by lia. replace 53 with (be16 u.[0] u.[1]) by (assert (u.[0] = 0 /\ u.[1] = 53) as [-> ->] by lia; done).
    rewrite <- Eu. split; [done|]. split_and!; done || lia.
Qed.

(** C21: [dns_try_handle_response] accepts exactly the right answers.  On every packet the test
    returns without reading outside it, and it accepts the packet for the query in a slot
    with an address exactly when the packet is a UDP datagram from port 53 of the
    configured server to the tunnel address and the port of that query (the first one in
    use on the port), its message has the id of the query, is a response without error, repeats
    the question of the query, and its first record of the asked type holds that address. *)
Theorem dns_response_exact (srv ip n : Z) (waits : list DnsWait) (pkt : bytes) :
  bytes_ok pkt -> Forall wait_ok waits -> n <> 0 ->
  exists v, dns_judge srv ip n waits pkt = Ret v /\
    forall slot a, v = V_answer slot a <-> exists w, first_on_port waits slot w /\ response_to srv ip w pkt a.
Proof.
  intros Hb Hw Hn. destruct (judge_sound srv ip n waits pkt Hb) as (v & E & Hv). exists v. split; [done|]. intros slot a. split.
  - intros ->. apply Hv.
  - intros (w & Hf & Hr). assert (wait_ok w) as Hok by (rewrite Forall_forall in Hw; apply Hw; by eapply list_elem_of_lookup_2, Hf).
    rewrite (judge_run srv ip n waits slot w pkt a) in E by done. by injection E.
Qed.

(** ** Names on the wire *)

Fixpoint join (ls : list bytes) : bytes :=
  match ls with
  | [] => []
  | [l] => l
  | l :: ls => l ++ 46 :: join ls
  end.

Definition dotless (l : bytes) : Prop := Forall (fun c => c <> 46) l.

Definition label_size (l : bytes) : bool := (0 <? zlen l) && (zlen l <=? 63).

Definition wire_labels (ls : list bytes) : bytes := concat ((fun l => zlen l :: l) <$> ls).

Lemma split_dots d : exists ls, ls <> [] /\ Forall dotless ls /\ d = join ls.
Proof.
  induction d as [|c d (ls & Hne & Hd & ->)]; [exists [[]]; by repeat constructor|].
  destruct ls as [|l ls]; [done|]. apply Forall_cons in Hd as [Hl Hls]. destruct (decide (c = 46)) as [->|Hc].
  - exists ([] :: l :: ls). split_and!; [done|by repeat constructor|done].
  - exists ((c :: l) :: ls). split_and!; [done|by repeat constructor|]. by destruct ls.
Qed.

Lemma labels_ok_skip l rest n : dotless l -> labels_ok (l ++ rest) n = labels_ok rest (n + zlen l).
Proof.
  intros Hl. revert n. induction Hl as [|c l Hc Hl IH]; intros n; cbn [app labels_ok]; [by rewrite zlen_nil, Z.add_0_r|].
  replace (c =? 46) with false by lia. rewrite IH, zlen_cons. f_equal. lia.
Qed.

Lemma put_labels_skip l rest lab out sz : dotless l -> put_labels (l ++ rest) lab out sz = put_labels rest (lab ++ l) out sz.
Proof.
  intros Hl. revert lab. induction Hl as [|c l Hc Hl IH]; intros lab; cbn [app put_labels]; [by rewrite app_nil_r|].
  replace (c =? 46) with false by lia. rewrite IH. by rewrite <- app_assoc.
Qed.

Lemma labels_ok_join ls : ls <> [] -> Forall dotless ls -> labels_ok (join ls) 0 = forallb label_size ls.
Proof.
  intros Hne Hd. induction Hd as [|l ls Hl Hls IH]; [done|]. pose proof (zlen_nonneg l). destruct ls as [|l' ls].
  - cbn [join forallb]. rewrite <- (app_nil_r l) at 1. rewrite labels_ok_skip by done. cbn [labels_ok]. unfold label_size. lia.
  - change (join (l :: l' :: ls)) with (l ++ 46 :: join (l' :: ls)). rewrite labels_ok_skip by done. cbn [labels_ok Z.eqb Pos.eqb]. rewrite IH by done.
    change (forallb label_size (l :: l' :: ls)) with (label_size l && forallb label_size (l' :: ls)). generalize (forallb label_size (l' :: ls)).
    intros r. unfold label_size. destruct (_ || _) eqn:E, r; lia.
Qed.

Lemma put_label_fits out l sz : label_size l = true -> zlen out + zlen l + 2 <= sz -> put_label out l sz = Some (out ++ zlen l :: l).
Proof.
  unfold label_size. intros Hl Hfit. unfold put_label. replace (_ >? sz) with false by lia. replace (zlen l >? 0) with true by lia.
  by rewrite u8_small by lia.
Qed.

Lemma put_labels_join ls out sz :
  ls <> [] -> Forall dotless ls -> forallb label_size ls = true -> zlen out + zlen (join ls) + 2 <= sz ->
  put_labels (join ls) [] out sz = Some (out ++ wire_labels ls).
Proof.
  intros Hne Hd. revert out. induction Hd as [|l ls Hl Hls IH]; intros out Hs Hz; [done|].
  cbn [forallb] in Hs. apply andb_true_iff in Hs as [Hs1 Hs]. unfold wire_labels. cbn [fmap list_fmap concat]. destruct ls as [|l' ls].
  - cbn [join] in *. rewrite <- (app_nil_r l) at 1. rewrite put_labels_skip by done. cbn [put_labels app].
    rewrite put_label_fits by (done || lia). cbn [fmap list_fmap concat]. by rewrite app_nil_r.
  - change (join (l :: l' :: ls)) with (l ++ 46 :: join (l' :: ls)) in *. rewrite zlen_app, zlen_cons in Hz.
    rewrite put_labels_skip by done. cbn [put_labels app Z.eqb Pos.eqb]. pose proof (zlen_nonneg (join (l' :: ls))).
    rewrite put_label_fits by (done || lia). rewrite IH; [|done|done|rewrite zlen_app, zlen_cons; lia]. by rewrite <- app_assoc.
Qed.

(** [domain] names the host with labels [ls], with any number of trailing dots. *)
Definition host_name (domain : bytes) (ls : list bytes) : Prop :=
  ls <> [] /\ Forall dotless ls /\ forallb label_size ls = true /\ zlen (join ls) <= 253 /\
  exists k, domain = join ls ++ replicate k 46.

Lemma skip_dots_spec d : exists k, d = replicate k 46 ++ skip_dots d.
Proof.
  induction d as [|c d [k Hk]]; [by exists 0%nat|]. cbn [skip_dots]. destruct (c =? 46) eqn:E; [|by exists 0%nat].
  apply Z.eqb_eq in E as ->. exists (S k). cbn. by rewrite <- Hk.
Qed.

Lemma skip_dots_run k c d : c <> 46 -> skip_dots (replicate k 46 ++ c :: d) = c :: d.
Proof. intros Hc. induction k as [|k IH]; cbn; [by replace (c =? 46) with false by lia|done]. Qed.

Lemma replicate_rev {A} k (x : A) : rev (replicate k x) = replicate k x.
Proof. induction k as [|k IH]; [done|]. cbn [replicate rev]. rewrite IH. symmetry. apply replicate_cons_app. Qed.

Lemma join_last ls : ls <> [] -> Forall dotless ls -> forallb label_size ls = true -> exists x c, join ls = x ++ [c] /\ c <> 46.
Proof.
  intros Hne Hd. induction Hd as [|l ls Hl Hls IH]; intros Hs; [done|]. cbn [forallb] in Hs. apply andb_true_iff in Hs as [Hs1 Hs].
  destruct ls as [|l' ls].
  - destruct (exists_last (l := l)) as (x & c & ->); [intros ->; done|]. exists x, c. split; [done|]. apply Forall_app in Hl as [_ Hc].
    by apply Forall_cons in Hc as [Hc _].
  - destruct IH as (x & c & E & Hc); [done|done|]. exists (l ++ 46 :: x), c. split; [|done].
    change (join (l :: l' :: ls)) with (l ++ 46 :: join (l' :: ls)). by rewrite E, <- app_assoc.
Qed.

Lemma bare_host domain ls : host_name domain ls -> rev (skip_dots (rev domain)) = join ls.
Proof.
  intros (Hne & Hd & Hs & _ & k & ->). destruct (join_last ls Hne Hd Hs) as (x & c & E & Hc).
  rewrite E, rev_app_distr, replicate_rev, rev_app_distr. cbn [rev app]. rewrite skip_dots_run by done. cbn [rev]. by rewrite rev_involutive.
Qed.

Lemma wire_len ls : ls <> [] -> zlen (wire_labels ls) = zlen (join ls) + 1.
Proof.
  intros Hne. induction ls as [|l ls IH]; [done|]. unfold wire_labels in *. cbn [fmap list_fmap concat]. destruct ls as [|l' ls].
  - cbn [fmap list_fmap concat join]. rewrite app_nil_r, zlen_cons. lia.
  - change (join (l :: l' :: ls)) with (l ++ 46 :: join (l' :: ls)). rewrite !zlen_app, !zlen_cons, IH by done. lia.
Qed.

(** [dns_encode_qname] encodes exactly the host names. *)
Lemma encode_run domain ls sz : host_name domain ls -> 255 <= sz -> dns_encode_qname domain sz = Some (wire_labels ls ++ [0]).
Proof.
  intros Hh Hz. pose proof (bare_host _ _ Hh) as Eb. destruct Hh as (Hne & Hd & Hs & Hl & _). unfold dns_encode_qname. rewrite Eb.
  destruct (join_last ls Hne Hd Hs) as (x & c & E & _).
  assert (zlen (join ls) <> 0) by (rewrite E, zlen_app, zlen_cons, zlen_nil; pose proof (zlen_nonneg x); lia).
  replace (_ || _) with false by lia. rewrite labels_ok_join, Hs by done. cbn [negb].
  rewrite put_labels_join by (done || rewrite zlen_nil; lia). cbn [app].
  rewrite wire_len by done. by replace (_ >? sz) with false by lia.
Qed.

Lemma encode_sound domain sz q : dns_encode_qname domain sz = Some q -> exists ls, host_name domain ls.
Proof.
  unfold dns_encode_qname. set (d := rev (skip_dots (rev domain))). destruct (_ || _) eqn:El; [done|].
  destruct (split_dots d) as (ls & Hne & Hd & Ed). rewrite Ed, labels_ok_join by done. destruct (forallb label_size ls) eqn:Hs; [|done].
  intros _. exists ls. split_and!; [done..|rewrite <- Ed; lia|]. destruct (skip_dots_spec (rev domain)) as [k Hk]. exists k.
  rewrite <- Ed. unfold d. rewrite <- (rev_involutive domain) at 1. rewrite Hk at 1. by rewrite rev_app_distr, replicate_rev.
Qed.

Lemma wire_name ls : forallb label_size ls = true -> dname (wire_labels ls ++ [0]).
Proof.
  induction ls as [|l ls IH]; [by constructor|]. cbn [forallb]. intros [Hl Hs]%andb_true_iff. unfold label_size in Hl.
  unfold wire_labels in *. cbn [fmap list_fmap concat]. rewrite <- app_assoc. cbn [app]. apply dn_label; [lia|done|by apply IH].
Qed.

(** ** Queries *)

Definition query_bytes (id : Z) (ls : list bytes) (qt : Z) : bytes :=
  put16 id ++ [1; 0; 0; 1] ++ fill 0 6 ++ (wire_labels ls ++ [0]) ++ [0; qt; 0; 1].

Lemma query_run id domain ls qt :
  host_name domain ls -> 0 <= qt < 256 -> dns_build_query id domain qt 512 = Ret (Some (query_bytes id ls qt)) /\ zlen (query_bytes id ls qt) <= 271.
Proof.
  intros Hh Hq. unfold dns_build_query, query_bytes. change (512 <? 17) with false. cbv iota. rewrite (encode_run domain ls) by (done || lia).
  destruct Hh as (Hne & _ & _ & Hl & _). pose proof (wire_len ls Hne). rewrite u8_small by lia.
  split; [|rewrite !zlen_app, zlen_put16, zlen_fill, !zlen_cons, !zlen_nil by lia; lia].
  by replace (_ >? 512) with false by (rewrite zlen_app, zlen_cons, zlen_nil; lia).
Qed.

(** A message that repeats id and question of a query, with records added, answers it. *)
Lemma reply_answers id ls domain qt sport ipid dl rsd flow port fl cnt ns rs t a :
  host_name domain ls -> zlen domain <= 255 -> 0 <= fl < 65536 -> Z.land fl 32768 <> 0 -> Z.land fl 15 = 0 -> zlen ns = 4 ->
  Forall rr_ok rs -> zlen rs <= cnt < 65536 -> first_answer qt rs = Some a ->
  answers (mk_wait true id sport ipid dl rsd (take 255 domain) flow port qt)
    (take 2 (query_bytes id ls qt) ++ put16 fl ++ slice (query_bytes id ls qt) 4 2 ++ put16 cnt ++ ns ++ drop 12 (query_bytes id ls qt) ++
     concat (rr_bytes <$> rs) ++ t) a.
Proof.
  intros Hh Hd Hfl H1 H2 Hns Hrs Hcnt Ha.
  exists fl, ((wire_labels ls ++ [0]) ++ [0; qt; 0; 1]), [], cnt, ns, rs, t. cbn [dw_id dw_qtype].
  split; [|split_and!; try (done || lia)].
  - cbn [concat]. rewrite zlen_nil. change (slice (query_bytes id ls qt) 4 2) with (put16 1). change (take 2 (query_bytes id ls qt)) with (put16 id).
    change (drop 12 (query_bytes id ls qt)) with ((wire_labels ls ++ [0]) ++ [0; qt; 0; 1]). by rewrite <- !app_assoc.
  - unfold dns_question. cbn [dw_domain dw_qtype]. rewrite take_ge by (unfold zlen in Hd; lia). by rewrite (encode_run domain ls) by (done || lia).
Qed.

Lemma inner_run sip dip sport ipid q outsz :
  bytes_ok q -> 0 <= sip < 2 ^ 32 -> 0 <= dip < 2 ^ 32 -> 28 + zlen q <= outsz -> zlen q <= 1000 ->
  exists iph udp, dns_build_inner sip dip sport ipid q outsz = Ret (Some (iph ++ udp)) /\ zlen iph = 20 /\ zlen udp = 8 + zlen q /\
    bytes_ok (iph ++ udp) /\ ip_csum_fold (ip_csum_accum 0 iph) = Ret 0 /\ ip_udp_csum sip dip udp = Ret 0 /\
    iph.[0] = 69 /\ iph.[9] = 17 /\ be16 iph.[2] iph.[3] = zlen (iph ++ udp) /\ slice iph 12 4 = put32 sip /\ slice iph 16 4 = put32 dip /\
    slice udp 0 4 = put16 sport ++ put16 53 /\ drop 8 udp = q.
Proof.
  intros Hq Hs Hd Hz Lq. pose proof (zlen_nonneg q). unfold dns_build_inner. replace (_ >? outsz) with false by lia.
  set (tot := 20 + (8 + zlen q)). set (a := [69; 0] ++ put16 tot ++ put16 ipid ++ [0; 0; 64; 17]). set (b := put32 sip ++ put32 dip).
  assert (bytes_ok a /\ bytes_ok b) as [Ha Hb] by (unfold a, b; split; by bok).
  assert (forall ck, [69; 0] ++ put16 tot ++ put16 ipid ++ [0; 0; 64; 17] ++ ck ++ put32 sip ++ put32 dip = a ++ ck ++ b) as Ei by done.
  rewrite !Ei. destruct (ip_csum_fold_total [] (a ++ [0; 0] ++ b)) as (c & Ec & Hc); [constructor|by bok|]. cbn [ip_csum_accum] in Ec.
  rewrite Ec. cbn [rbind]. rewrite Ei. set (ua := put16 sport ++ [0; 53] ++ put16 (8 + zlen q)).
  assert (forall ck, put16 sport ++ [0; 53] ++ put16 (8 + zlen q) ++ ck ++ q = ua ++ ck ++ q) as Eu by done. rewrite !Eu.
  assert (bytes_ok ua) as Hua by (unfold ua; by bok). assert (zlen ua = 6) as Lua by done.
  assert (forall x y, zlen (ua ++ [x; y] ++ q) = 8 + zlen q) as Lu by (intros; rewrite zlen_app; change ([x; y] ++ q) with (x :: y :: q); rewrite !zlen_cons; lia).
  set (ph := put32 sip ++ put32 dip ++ [0; 17] ++ put16 (8 + zlen q)). assert (bytes_ok ph) as Hph by (unfold ph; by bok).
  destruct (ip_csum_fold_total ph (ua ++ [0; 0] ++ q)) as (uc & Euc & Huc); [done|by bok|].
  unfold ip_udp_csum at 1. rewrite udp_pseudo by (rewrite Lu; lia). rewrite Lu. fold ph. rewrite Euc. cbn [rbind]. rewrite Eu.
  exists (a ++ put16 c ++ b), (ua ++ put16 uc ++ q). split; [done|]. split; [done|].
  assert (zlen (ua ++ put16 uc ++ q) = 8 + zlen q) as Lu' by (apply Lu). split; [done|]. split; [unfold put16; by bok|].
  split; [|split; [|split_and!; try done]].
  - rewrite ip_csum_accum_spec in Ec |- * by (lia || unfold put16; by bok). eapply csum_verifies; [done..|lia| | |exact Ec].
    all: pose proof (wsum_bounds _ Ha); pose proof (wsum_bounds _ Hb); rewrite !wsum_app by done; change (wsum [0; 0]) with 0;
      change (zlen a) with 10 in *; change (zlen b) with 8 in *. { lia. }
    assert (69 * 256 <= wsum a) by (unfold a; rewrite !wsum_app by done; pose proof (wsum_bounds (put16 tot) (put16_ok _));
      pose proof (wsum_bounds (put16 ipid) (put16_ok _)); change (wsum [69; 0]) with 17664; change (wsum [0; 0; 64; 17]) with 16401; lia). lia.
  - unfold ip_udp_csum. rewrite udp_pseudo by (rewrite Lu'; lia). rewrite Lu'. fold ph.
    eapply csum_field; [done|done|done|done|by unfold ph|lia| |exact Euc]. unfold ph. rewrite !wsum_app by done.
    pose proof (wsum_bounds (put32 sip) (put32_ok _)). pose proof (wsum_bounds (put32 dip) (put32_ok _)).
    pose proof (wsum_bounds (put16 (8 + zlen q)) (put16_ok _)). change (wsum [0; 17]) with 17. lia.
  - rewrite zlen_app, Lu'. change (zlen (a ++ put16 c ++ b)) with 20. apply be16_put16. unfold tot. lia.
Qed.

(** The reply of a resolver to the query [q]: its id and question, with records. *)
Definition reply_of (q : bytes) (fl cnt : Z) (ns : bytes) (rs : list rr) (t : bytes) : bytes :=
  take 2 q ++ put16 fl ++ slice q 4 2 ++ put16 cnt ++ ns ++ drop 12 q ++ concat (rr_bytes <$> rs) ++ t.

Lemma query_bytes_ok id domain ls qt : bytes_ok domain -> host_name domain ls -> 0 <= qt < 256 -> bytes_ok (query_bytes id ls qt).
Proof.
  intros Hb (_ & _ & Hs & _ & k & ->) Hq. apply Forall_app in Hb as [Hb _]. unfold query_bytes.
  assert (bytes_ok (wire_labels ls)) as Hw.
  { clear -Hb Hs. induction ls as [|l ls IH]; [constructor|]. cbn [forallb] in Hs. apply andb_true_iff in Hs as [Hl Hs]. unfold label_size in Hl.
    unfold wire_labels in *. cbn [fmap list_fmap concat]. assert (bytes_ok l /\ bytes_ok (join ls)) as [Hbl Hbj].
    { destruct ls as [|l' ls]; [split; [done|constructor]|]. change (join (l :: l' :: ls)) with (l ++ 46 :: join (l' :: ls)) in Hb.
      apply Forall_app in Hb as [? Hb]. by apply Forall_cons in Hb as [_ ?]. }
    apply Forall_app. split; [|by apply IH]. constructor; [unfold is_byte; lia|done]. }
  repeat (apply Forall_app; split); [apply put16_ok|by bok|by bok|done|by bok|by bok].
Qed.

(** the tunnel resolver gets its answers.  For every host name (labels of 1 to 63 bytes, at
    most 253 in all, trailing dots allowed) the query and its packet are built inside their
    buffers; the packet passes the gate of the server with the tunnel address and the
    resolver as source and destination, and its checksums verify.  Every packet in which
    the resolver repeats id and question of that query and adds records whose first one of
    the asked type holds [a] is accepted with [a] for the entry of the query. *)
Theorem dns_query_answered (domain : bytes) (ls : list bytes) (id sport ipid qt sip dip : Z) :
  host_name domain ls -> bytes_ok domain -> zlen domain <= 255 ->
  0 <= id < 65536 -> 0 <= sport < 65536 -> 0 <= qt < 256 -> 0 < sip < 2 ^ 32 -> 0 <= dip < 2 ^ 32 ->
  IPV4_MULTICAST sip = false -> IPV4_BROADCAST sip = false -> IPV4_MULTICAST dip = false -> IPV4_BROADCAST dip = false ->
  exists q pkt,
    dns_build_query id domain qt 512 = Ret (Some q) /\ dns_build_inner sip dip sport ipid q 540 = Ret (Some pkt) /\
    ipv4_pkt_ok pkt = Ret (Some (sip, dip)) /\ ip_csum_fold (ip_csum_accum 0 (take 20 pkt)) = Ret 0 /\ ip_udp_csum sip dip (drop 20 pkt) = Ret 0 /\
    forall dl rsd flow port n waits slot iph ck fl cnt ns rs t t' a,
      n <> 0 -> first_on_port waits slot (mk_wait true id sport ipid dl rsd (take 255 domain) flow port qt) ->
      20 <= zlen iph -> zlen iph = Z.land iph.[0] 15 * 4 -> Z.shiftr iph.[0] 4 = 4 -> iph.[9] = 17 ->
      ip4_u32 (slice iph 12 4) = dip -> ip4_u32 (slice iph 16 4) = sip -> zlen ck = 2 ->
      0 <= fl < 65536 -> Z.land fl 32768 <> 0 -> Z.land fl 15 = 0 -> zlen ns = 4 ->
      Forall rr_ok rs -> zlen rs <= cnt < 65536 -> first_answer qt rs = Some a -> 8 + zlen (reply_of q fl cnt ns rs t) < 65536 ->
      dns_judge dip sip n waits
        (iph ++ (put16 53 ++ put16 sport ++ put16 (8 + zlen (reply_of q fl cnt ns rs t)) ++ ck) ++ reply_of q fl cnt ns rs t ++ t') =
      Ret (V_answer slot a).
Proof.
  intros Hh Hb Ld Hid Hsp Hqt Hsip Hdip M1 B1 M2 B2. destruct (query_run id domain ls qt Hh Hqt) as [Eq Lq].
  pose proof (query_bytes_ok id domain ls qt Hb Hh Hqt) as Hq.
  destruct (inner_run sip dip sport ipid (query_bytes id ls qt) 540 Hq) as (iph & udp & Ei & Li & Lu & Hpk & C1 & C2 & F0 & F9 & F2 & F12 & F16 & _); [lia..|].
  exists (query_bytes id ls qt), (iph ++ udp). pose proof (zlen_nonneg (query_bytes id ls qt)).
  assert (take 20 (iph ++ udp) = iph /\ drop 20 (iph ++ udp) = udp) as [-> ->].
  { replace 20%nat with (length iph) by (unfold zlen in Li; lia). by rewrite take_app_length, drop_app_length. }
  split_and!; [done|done| |done|done|].
  - unfold ipv4_pkt_ok. rewrite zlen_app in *. replace (_ <? 20) with false by lia. rewrite !rd_inside by lia. cbn [rbind]. rewrite F0.
    change (Z.shiftr 69 4 =? 4) with true. change (Z.land 69 15) with 5. cbn [negb]. replace (_ || _) with false by lia.
    fold (be16 iph.[2] iph.[3]). rewrite F2. replace (_ || _) with false by lia. rewrite !rdn_inside by lia. cbn [rbind].
    rewrite F12, F16, !ip4_put32, M1, B1, M2, B2 by lia. by replace (sip =? 0) with false by lia.
  - intros dl rsd flow port n waits slot iph' ck fl cnt ns rs t t' a Hn Hf L20 Lih V4 P17 S12 S16 Lck Hfl Q1 Q2 Hns Hrs Hcnt Ha Lm.
    apply (judge_run dip sip n waits slot (mk_wait true id sport ipid dl rsd (take 255 domain) flow port qt)); [by split|done|done|].
    exists iph', ck, (reply_of (query_bytes id ls qt) fl cnt ns rs t), t'. split; [done|]. split_and!; try done. by apply reply_answers.
Qed.

Definition demo_wait : DnsWait := mk_wait true 4660 50000 7 1500 3 (lit "ab.c") 9 80 1.
Definition demo_iph : bytes := [69; 0; 0; 62; 0; 0; 0; 0; 64; 17; 0; 0; 10; 96; 0; 1; 10; 96; 0; 2].
Definition demo_rrs : list rr := [mk_rr [192; 12] 5 1 (fill 0 4) [192; 12]; mk_rr [192; 12] 1 1 (fill 0 4) [93; 184; 216; 34]].
Definition demo_reply : bytes :=
  reply_of (query_bytes 4660 [lit "ab"; lit "c"] 1) 33152 2 (fill 0 4) demo_rrs [].
Definition demo_pkt : bytes :=
  demo_iph ++ (put16 53 ++ put16 50000 ++ put16 (8 + zlen demo_reply) ++ [0; 0]) ++ demo_reply ++ [].

Lemma demo_host : host_name (lit "ab.c") [lit "ab"; lit "c"].
Proof.
  split; [done|]. split; [apply (bool_decide_unpack _); vm_compute; exact I|]. split; [done|]. split; [by vm_compute|]. by exists 0%nat.
Qed.

Lemma demo_rrs_ok : Forall rr_ok demo_rrs.
Proof.
  assert (dname [192; 12]) as Hd by (by apply dn_pointer).
  repeat constructor; cbn; try done; unfold is_byte; lia.
Qed.

Lemma dns_response_exact_witness :
  exists v, dns_judge 174063617 174063618 1 [demo_wait] demo_pkt = Ret v /\
    forall slot a, v = V_answer slot a <-> exists w, first_on_port [demo_wait] slot w /\ response_to 174063617 174063618 w demo_pkt a.
Proof.
  apply (dns_response_exact 174063617 174063618 1 [demo_wait] demo_pkt).
  - apply (bool_decide_unpack _). vm_compute. exact I.
  - repeat constructor; cbn; lia.
  - discriminate.
Defined.

Lemma dns_query_answered_witness :
  exists q pkt,
    dns_build_query 4660 (lit "ab.c") 1 512 = Ret (Some q) /\ dns_build_inner 174063618 174063617 50000 7 q 540 = Ret (Some pkt) /\
    ipv4_pkt_ok pkt = Ret (Some (174063618, 174063617)) /\
    dns_judge 174063617 174063618 1 [demo_wait] demo_pkt = Ret (V_answer 0 (D4 1572395042)).
Proof.
  destruct (dns_query_answered (lit "ab.c") [lit "ab"; lit "c"] 4660 50000 7 1 174063618 174063617) as (q & pkt & E1 & E2 & E3 & _ & _ & E6);
    [exact demo_host|apply (bool_decide_unpack _); vm_compute; exact I|vm_compute; discriminate|lia|lia|lia|lia|lia|reflexivity..|].
  assert (q = query_bytes 4660 [lit "ab"; lit "c"] 1) as Eq.
  { destruct (query_run 4660 (lit "ab.c") [lit "ab"; lit "c"] 1 demo_host) as [E _]; [lia|]. rewrite E in E1. by injection E1. }
  exists q, pkt. split; [exact E1|]. split; [exact E2|]. split; [exact E3|]. rewrite Eq in E6.
  apply (E6 1500 3 9 80 1 [demo_wait] 0%nat demo_iph [0; 0] 33152 2 (fill 0 4) demo_rrs [] [] (D4 1572395042)); try reflexivity.
  - discriminate.
  - split; [reflexivity|]. split; [reflexivity|]. intros j w' Hj. lia.
  - lia.
  - vm_compute. discriminate.
  - exact demo_rrs_ok.
  - vm_compute. split; [discriminate|reflexivity].
Defined.
