(* ===== verification/Dns.v ===== *)
(** * The resolver of the proxy (src/src/common/socks_dns.c)

    The table of outstanding queries, the ring of results, and the resolver threads.  A
    thread is a program counter and what it holds in local variables; [worker_step] is what
    it does up to the next release of a lock, so an interleaving of steps is a run of the
    program.  The event loop is one thread: it starts resolver threads, hands them the
    answers that arrive through the tunnel, drains the results, and ends a session.  What
    lwIP, the clock, the random generator, the socket and the system resolver answer are
    parameters of each step.  [d_hist] is a history of the results pushed, handed out and
    dropped by the ring; no code reads it. *)

From S2P Require Import Prelude Util Crypto Protocol Ipv4 ProtoParse Lockout Flow DnsMsg.

Definition DNS_RESULT_Q_LEN : nat := 513.
Definition DNS_WAIT_MAX : nat := 64.
Definition DNS_POLL_MS : Z := 250.
Definition DNS_TIMEOUT_MS : Z := 1500.
Definition DNS_MAX_RESEND : Z := 3.
Definition DNS_LOCAL_MAX_INFLIGHT : Z := 8.

(** ** The ring of results *)

Record entry := mk_entry {
  e_gen : Z;
  e_flow : Z;
  e_ok : bool;
  e_af : Z;
  e_ip : Z;
  e_ip6 : bytes;
  e_port : Z
}.

Definition entry0 : entry := mk_entry 0 0 false 0 0 (fill 0 16) 0.

(** The session and flow of the results pushed, handed out by a drain, and dropped by a push
    onto a full ring. *)
Record trace := mk_trace { t_pushed : list (Z * Z); t_taken : list (Z * Z); t_lost : list (Z * Z) }.

Record dns := mk_dns_st {
  g_dns_q : list entry;
  g_dns_hd : nat;
  g_dns_tl : nat;
  g_dns_gen : Z;
  g_dns_wait : list DnsWait;
  g_dns_wait_n : Z;
  g_dns_local_inflight : Z;
  g_dns_server_ip4 : Z;
  g_dns_ip_id : Z;
  g_dns_ignored : Z;
  d_hist : trace
}.

Definition set_ring (s : dns) q hd tl : dns :=
  mk_dns_st q hd tl (g_dns_gen s) (g_dns_wait s) (g_dns_wait_n s) (g_dns_local_inflight s) (g_dns_server_ip4 s) (g_dns_ip_id s)
    (g_dns_ignored s) (d_hist s).
Definition set_gen (s : dns) v : dns :=
  mk_dns_st (g_dns_q s) (g_dns_hd s) (g_dns_tl s) v (g_dns_wait s) (g_dns_wait_n s) (g_dns_local_inflight s) (g_dns_server_ip4 s) (g_dns_ip_id s)
    (g_dns_ignored s) (d_hist s).
Definition set_waits (s : dns) ws n : dns :=
  mk_dns_st (g_dns_q s) (g_dns_hd s) (g_dns_tl s) (g_dns_gen s) ws n (g_dns_local_inflight s) (g_dns_server_ip4 s) (g_dns_ip_id s)
    (g_dns_ignored s) (d_hist s).
Definition set_inflight (s : dns) v : dns :=
  mk_dns_st (g_dns_q s) (g_dns_hd s) (g_dns_tl s) (g_dns_gen s) (g_dns_wait s) (g_dns_wait_n s) v (g_dns_server_ip4 s) (g_dns_ip_id s)
    (g_dns_ignored s) (d_hist s).
Definition set_server (s : dns) v : dns :=
  mk_dns_st (g_dns_q s) (g_dns_hd s) (g_dns_tl s) (g_dns_gen s) (g_dns_wait s) (g_dns_wait_n s) (g_dns_local_inflight s) v (g_dns_ip_id s)
    (g_dns_ignored s) (d_hist s).
Definition set_ip_id (s : dns) v : dns :=
  mk_dns_st (g_dns_q s) (g_dns_hd s) (g_dns_tl s) (g_dns_gen s) (g_dns_wait s) (g_dns_wait_n s) (g_dns_local_inflight s) (g_dns_server_ip4 s) v
    (g_dns_ignored s) (d_hist s).
Definition set_ignored (s : dns) v : dns :=
  mk_dns_st (g_dns_q s) (g_dns_hd s) (g_dns_tl s) (g_dns_gen s) (g_dns_wait s) (g_dns_wait_n s) (g_dns_local_inflight s) (g_dns_server_ip4 s)
    (g_dns_ip_id s) v (d_hist s).
Definition set_hist (s : dns) v : dns :=
  mk_dns_st (g_dns_q s) (g_dns_hd s) (g_dns_tl s) (g_dns_gen s) (g_dns_wait s) (g_dns_wait_n s) (g_dns_local_inflight s) (g_dns_server_ip4 s)
    (g_dns_ip_id s) (g_dns_ignored s) v.

Definition next (i : nat) : nat := (S i mod DNS_RESULT_Q_LEN)%nat.

Definition tag (e : entry) : Z * Z := (e_gen e, e_flow e).

(** The result [a] is [ok], [af], [ip] and [ip6]; a NULL [ip6] leaves the old bytes. *)
Definition fill_entry (old : entry) (gen flow : Z) (a : option dest) (port : Z) : entry :=
  match a with
  | None => mk_entry gen flow false 4 0 (e_ip6 old) port
  | Some (D4 ip) => mk_entry gen flow true 4 ip (e_ip6 old) port
  | Some (D6 ip6) => mk_entry gen flow true 6 0 ip6 port
  end.

Definition dns_push_g (s : dns) (gen flow : Z) (a : option dest) (port : Z) : dns :=
  let q := <[g_dns_tl s := fill_entry (nth (g_dns_tl s) (g_dns_q s) entry0) gen flow a port]> (g_dns_q s) in
  let tl := next (g_dns_tl s) in
  let hd := if bool_decide (tl = g_dns_hd s) then next (g_dns_hd s) else g_dns_hd s in
  let h := d_hist s in
  let lost := if bool_decide (tl = g_dns_hd s) then [tag (nth (g_dns_hd s) (g_dns_q s) entry0)] else [] in
  set_hist (set_ring s q hd tl) (mk_trace (t_pushed h ++ [(gen, flow)]) (t_taken h) (t_lost h ++ lost)).

(** The loop of [dns_drain]: at most the ring's length of rounds. *)
Fixpoint drain_loop (fuel : nat) (q : list entry) (hd tl : nat) (cur : Z) (max : nat) : res (list entry * nat) :=
  if bool_decide (hd = tl) || bool_decide (max = O) then Ret ([], hd)
  else
    match fuel with
    | O => Fault OutOfFuel
    | S fuel =>
        let e := nth hd q entry0 in
        if e_gen e =? cur then
          let! (out, hd) := drain_loop fuel q (next hd) tl cur (pred max) in Ret (e :: out, hd)
        else drain_loop fuel q (next hd) tl cur max
    end.

Definition dns_drain (s : dns) (max : nat) : res (dns * list entry) :=
  let! (out, hd) := drain_loop DNS_RESULT_Q_LEN (g_dns_q s) (g_dns_hd s) (g_dns_tl s) (g_dns_gen s) max in
  let h := d_hist s in
  Ret (set_hist (set_ring s (g_dns_q s) hd (g_dns_tl s)) (mk_trace (t_pushed h) (t_taken h ++ (tag <$> out)) (t_lost h)), out).

(** The result as [handle_dns_results] reads it. *)
Definition result_of (e : entry) : DnsResult :=
  mk_dns (e_flow e) (if e_ok e then Some (if e_af e =? 6 then D6 (e_ip6 e) else D4 (e_ip e)) else None) (e_port e).

(** ** The ring is a queue of at most 512 results that drops the oldest *)

Definition push_spec {A} (Q : list A) (e : A) : list A :=
  if bool_decide (S (length Q) = DNS_RESULT_Q_LEN) then tail Q ++ [e] else Q ++ [e].

Fixpoint drain_spec {A} (gen_of : A -> Z) (Q : list A) (cur : Z) (max : nat) : list A * list A :=
  match Q, max with
  | [], _ | _, O => ([], Q)
  | e :: Q', S m =>
      if gen_of e =? cur then let (out, r) := drain_spec gen_of Q' cur m in (e :: out, r) else drain_spec gen_of Q' cur max
  end.

Record ring (q : list entry) (hd tl : nat) (Q : list entry) : Prop := mk_ring {
  ring_len : length q = DNS_RESULT_Q_LEN;
  ring_hd : (hd < DNS_RESULT_Q_LEN)%nat;
  ring_room : (length Q < DNS_RESULT_Q_LEN)%nat;
  ring_tl : tl = ((hd + length Q) mod DNS_RESULT_Q_LEN)%nat;
  ring_at : forall k e, Q !! k = Some e -> q !! ((hd + k) mod DNS_RESULT_Q_LEN)%nat = Some e
}.

Lemma wrap_case (L a : nat) : (0 < L)%nat -> (a < 2 * L)%nat -> (a mod L)%nat = if decide (a < L)%nat then a else (a - L)%nat.
Proof.
  intros HL Ha. destruct (decide (a < L)%nat); [by apply Nat.mod_small|].
  symmetry. apply (Nat.mod_unique a L 1); lia.
Qed.

Lemma len_pos : (0 < DNS_RESULT_Q_LEN)%nat.
Proof. unfold DNS_RESULT_Q_LEN. lia. Qed.

Lemma ring_put q hd Q e : ring q hd ((hd + length Q) mod DNS_RESULT_Q_LEN)%nat Q ->
  forall k x, (Q ++ [e]) !! k = Some x -> <[((hd + length Q) mod DNS_RESULT_Q_LEN)%nat := e]> q !! ((hd + k) mod DNS_RESULT_Q_LEN)%nat = Some x.
Proof.
  intros [Hl Hh Hr _ Ha] k x Hk. pose proof len_pos as HL. revert Hl Hh Hr Ha HL. generalize DNS_RESULT_Q_LEN as L. intros L Hl Hh Hr Ha HL.
  assert (k < length (Q ++ [e]))%nat as Hk' by (by eapply lookup_lt_Some). rewrite length_app in Hk'. cbn [length] in Hk'.
  destruct (decide (k = length Q)) as [->|Hne].
  - rewrite lookup_app_r, Nat.sub_diag in Hk by lia. injection Hk as <-. apply list_lookup_insert_eq. rewrite Hl. by apply Nat.mod_upper_bound; lia.
  - rewrite lookup_app_l in Hk by lia. rewrite list_lookup_insert_ne; [by apply Ha|]. rewrite !wrap_case by lia. repeat destruct (decide _); lia.
Qed.

Lemma next_mod hd n : next ((hd + n) mod DNS_RESULT_Q_LEN)%nat = ((hd + S n) mod DNS_RESULT_Q_LEN)%nat.
Proof. unfold next. rewrite <- Nat.add_1_r, Nat.Div0.add_mod_idemp_l. f_equal. lia. Qed.

Lemma ring_push q hd tl Q e :
  ring q hd tl Q ->
  ring (<[tl := e]> q) (if bool_decide (next tl = hd) then next hd else hd) (next tl) (push_spec Q e).
Proof.
  intros Hr. pose proof Hr as [Hl Hh Hroom Ht Ha]. subst tl. pose proof (ring_put q hd Q e Hr) as Hput. clear Ha. pose proof len_pos as HL.
  rewrite next_mod. unfold push_spec.
  assert (bool_decide (((hd + S (length Q)) mod DNS_RESULT_Q_LEN)%nat = hd) = bool_decide (S (length Q) = DNS_RESULT_Q_LEN)) as ->.
  { apply bool_decide_ext. rewrite wrap_case by lia. destruct (decide _); lia. }
  destruct (bool_decide (S (length Q) = DNS_RESULT_Q_LEN)) eqn:Ef.
  - apply bool_decide_eq_true in Ef. assert (Q <> []) as Hne by (intros ->; unfold DNS_RESULT_Q_LEN in Ef; cbn in Ef; lia).
    destruct Q as [|e0 Q]; [done|]. cbn [tail length] in *. assert (next hd = (hd + 1) mod DNS_RESULT_Q_LEN)%nat as En by (unfold next; f_equal; lia). split.
    + by rewrite length_insert.
    + rewrite En. apply Nat.mod_upper_bound. lia.
    + rewrite length_app. cbn [length]. lia.
    + rewrite En, length_app, Nat.Div0.add_mod_idemp_l. f_equal. cbn [length]. lia.
    + intros k x Hk. rewrite En, Nat.Div0.add_mod_idemp_l. replace (hd + 1 + k)%nat with (hd + S k)%nat by lia. by apply Hput.
  - apply bool_decide_eq_false in Ef. split.
    + by rewrite length_insert.
    + done.
    + rewrite length_app. cbn [length]. lia.
    + rewrite length_app. cbn [length]. f_equal. lia.
    + done.
Qed.

Lemma ring_empty q hd tl Q : ring q hd tl Q -> hd = tl <-> Q = [].
Proof.
  intros [Hl Hh Hr -> _]. pose proof len_pos. rewrite wrap_case by lia. destruct Q as [|e Q]; cbn [length] in *.
  - destruct (decide _); split; intros; lia || done.
  - split; [|done]. destruct (decide _); lia.
Qed.

Lemma ring_pop q hd tl e Q : ring q hd tl (e :: Q) -> nth hd q entry0 = e /\ ring q (next hd) tl Q.
Proof.
  intros [Hl Hh Hr -> Ha]. pose proof len_pos. cbn [length] in *. assert (next hd = (hd + 1) mod DNS_RESULT_Q_LEN)%nat as En by (unfold next; f_equal; lia). split.
  - apply nth_lookup_Some. specialize (Ha 0%nat e eq_refl). by rewrite Nat.add_0_r, Nat.mod_small in Ha by done.
  - split.
    + done.
    + rewrite En. apply Nat.mod_upper_bound. lia.
    + lia.
    + rewrite En, Nat.Div0.add_mod_idemp_l. f_equal. lia.
    + intros k x Hk. rewrite En, Nat.Div0.add_mod_idemp_l. replace (hd + 1 + k)%nat with (hd + S k)%nat by lia. by apply Ha.
Qed.

Lemma drain_loop_spec fuel q hd tl Q cur max :
  ring q hd tl Q -> (length Q <= fuel)%nat ->
  exists hd', drain_loop fuel q hd tl cur max = Ret ((drain_spec e_gen Q cur max).1, hd') /\ ring q hd' tl (drain_spec e_gen Q cur max).2.
Proof.
  revert hd Q max. induction fuel as [|fuel IH]; intros hd Q max Hr Hf; pose proof (ring_empty _ _ _ _ Hr) as He; cbn [drain_loop].
  { destruct Q; [|cbn in Hf; lia]. rewrite bool_decide_true by (by apply He). by exists hd. }
  destruct Q as [|e Q].
  { rewrite bool_decide_true by (by apply He). by exists hd. }
  rewrite bool_decide_false by (intros E; by apply He in E). destruct max as [|max]; [by exists hd|]. cbn [orb].
  rewrite (bool_decide_false (S max = 0%nat)) by done. destruct (ring_pop _ _ _ _ _ Hr) as [-> Hr']. cbn [drain_spec pred].
  destruct (e_gen e =? cur).
  - destruct (IH (next hd) Q max Hr') as (hd' & -> & Hd); [cbn in Hf; lia|]. cbn [rbind]. exists hd'.
    by destruct (drain_spec e_gen Q cur max).
  - destruct (IH (next hd) Q (S max) Hr') as (hd' & -> & Hd); [cbn in Hf; lia|]. by exists hd'.
Qed.

(** A result with the generation it belongs to. *)
Definition view (e : entry) : Z * DnsResult := (e_gen e, result_of e).

Lemma view_fill old gen flow a port : view (fill_entry old gen flow a port) = (gen, mk_dns flow a port).
Proof. by destruct a as [[]|]. Qed.

Lemma drain_spec_map Q cur max :
  drain_spec fst (view <$> Q) cur max = (view <$> (drain_spec e_gen Q cur max).1, view <$> (drain_spec e_gen Q cur max).2).
Proof.
  revert max. induction Q as [|e Q IH]; intros [|max]; [done..|]. cbn [fmap list_fmap drain_spec]. change (view e).1 with (e_gen e).
  destruct (e_gen e =? cur); [|apply (IH (S max))]. pose proof (IH max) as E. cbn [fmap] in E. rewrite E. by destruct (drain_spec e_gen Q cur max).
Qed.

Lemma push_spec_map Q e : push_spec (view <$> Q) (view e) = view <$> push_spec Q e.
Proof.
  unfold push_spec. rewrite length_fmap. destruct (bool_decide _); rewrite fmap_app; [|done]. by destruct Q.
Qed.

(** ** The table of outstanding queries *)

Definition matches (w : DnsWait) (sport id : Z) : bool := dw_in_use w && (dw_sport w =? sport) && (dw_id w =? id).

Definition mine (s : dns) (slot : nat) (sport id : Z) : bool := matches (nth slot (g_dns_wait s) wait0) sport id.

Definition unuse (w : DnsWait) : DnsWait :=
  mk_wait false (dw_id w) (dw_sport w) (dw_ipid w) (dw_deadline w) (dw_resends w) (dw_domain w) (dw_flow w) (dw_port w) (dw_qtype w).

Definition with_resends (w : DnsWait) (r : Z) : DnsWait :=
  mk_wait (dw_in_use w) (dw_id w) (dw_sport w) (dw_ipid w) (dw_deadline w) r (dw_domain w) (dw_flow w) (dw_port w) (dw_qtype w).

Definition free_slot (s : dns) (slot : nat) : dns :=
  set_waits s (<[slot := unuse (nth slot (g_dns_wait s) wait0)]> (g_dns_wait s)) (g_dns_wait_n s - 1).

Definition dns_retire_slot_locked (s : dns) (slot : nat) (sport id : Z) : dns :=
  if mine s slot sport id then free_slot s slot else s.

(** One lookup: [DnsJob]. *)
Record job := mk_job { j_flow : Z; j_port : Z; j_domain : bytes; j_gen : Z; j_qtype : Z }.

(** The locked part of [dns_register]. *)
Definition dns_register (s : dns) (id sport : Z) (j : job) (now : Z) : dns * option nat :=
  match find_index (fun w => negb (dw_in_use w)) (g_dns_wait s) with
  | None => (s, None)
  | Some i =>
      let w := mk_wait true id sport (g_dns_ip_id s) (u64 (now + DNS_TIMEOUT_MS)) DNS_MAX_RESEND (take 255 (j_domain j)) (j_flow j) (j_port j)
                 (j_qtype j) in
      (set_ip_id (set_waits s (<[i := w]> (g_dns_wait s)) (g_dns_wait_n s + 1)) (u16 (g_dns_ip_id s + 1)), Some i)
  end.

Definition dns_stale (s : dns) (j : job) : bool := negb (g_dns_gen s =? j_gen j).

(** The answer of the system resolver: the first IPv6 address, else the first IPv4 one. *)
Definition dns_query_local (addrs : list dest) : option dest :=
  match find (fun a => match a with D6 _ => true | D4 _ => false end) addrs with
  | Some a => Some a
  | None => find (fun a => match a with D4 _ => true | D6 _ => false end) addrs
  end.

(** ** Resolver threads *)

Inductive wpc :=
| P_start
| P_server
| P_local
| P_resolving
| P_resolved (a : option dest)
| P_tunnel
| P_sport (id : Z) (q : bytes)
| P_register (id sport : Z) (q : bytes)
| P_insert (id sport : Z) (q : bytes)
| P_snapshot (slot : nat) (id sport : Z) (q : bytes)
| P_send (slot : nat) (id sport : Z) (out : bytes)
| P_wait (slot : nat) (id sport : Z) (out : bytes) (last_send : Z)
| P_fail (held : option (nat * Z * Z))
| P_push (a : option dest)
| P_done.

Record worker := mk_worker { w_job : job; w_pc : wpc }.

(** What a step of a thread finds: the clock, a random number, whether the tunnel socket is
    open, takes a datagram or fails for good, which ports the probes see in use, the tunnel address, header
    and key, and the addresses the system resolver returns. *)
Record wenv := mk_wenv {
  v_now : Z;
  v_rnd : Z;
  v_sock : bool;
  v_sent : bool;
  v_hard : bool;
  v_seen : Z -> bool;
  v_ip : Z;
  v_outer : bytes;
  v_key : bytes;
  v_addrs : list dest
}.

Definition query_of (id : Z) (j : job) : option bytes :=
  match dns_build_query id (j_domain j) (j_qtype j) 512 with Ret r => r | Fault _ => None end.

(** The datagram of a registered query. *)
Definition datagram_of (e : wenv) (s : dns) (slot : nat) (sport : Z) (q : bytes) : option bytes :=
  match dns_build_inner (v_ip e) (g_dns_server_ip4 s) sport (dw_ipid (nth slot (g_dns_wait s) wait0)) q 540 with
  | Ret (Some inner) => dns_wrap_outer inner (v_outer e) (v_key e) 548
  | _ => None
  end.

(** [dns_alloc_sport]; every probe takes the lock on its own. *)
Definition dns_alloc_sport (e : wenv) : Z := port_scan 2048 0 (PORT_BASE + v_rnd e mod (PORT_TOP - PORT_BASE)) (v_seen e).

(** [dns_worker], one lock section or atomic access at a time. *)
Definition worker_step (e : wenv) (s : dns) (w : worker) : dns * worker :=
  let j := w_job w in
  let goto p := mk_worker j p in
  match w_pc w with
  | P_start => (s, goto (if dns_stale s j then P_done else P_server))
  | P_server => (s, goto (if (g_dns_server_ip4 s =? 0) || (j_qtype j =? 0) then P_local else P_tunnel))
  | P_local =>
      if g_dns_local_inflight s <? DNS_LOCAL_MAX_INFLIGHT
      then (set_inflight s (g_dns_local_inflight s + 1), goto P_resolving) else (s, goto (P_resolved None))
  | P_resolving => (set_inflight s (g_dns_local_inflight s - 1), goto (P_resolved (dns_query_local (v_addrs e))))
  | P_resolved a => (s, goto (if dns_stale s j then P_done else P_push a))
  | P_tunnel =>
      let id := u16 (v_rnd e) in
      (s, goto (if negb (v_sock e) then P_fail None
                else match query_of id j with None => P_fail None | Some q => P_sport id q end))
  | P_sport id q =>
      let p := dns_alloc_sport e in
      (s, goto (if p =? 0 then P_fail None else P_register id p q))
  | P_register id sport q => (s, goto (if dns_stale s j then P_fail None else P_insert id sport q))
  | P_insert id sport q =>
      let (s, r) := dns_register s id sport j (v_now e) in
      (s, goto (match r with None => P_fail None | Some slot => P_snapshot slot id sport q end))
  | P_snapshot slot id sport q =>
      if negb (mine s slot sport id) then (s, goto P_done)
      else if dns_stale s j then (dns_retire_slot_locked s slot sport id, goto P_done)
      else (s, goto (match datagram_of e s slot sport q with
                     | None => P_fail (Some (slot, sport, id))
                     | Some out => P_send slot id sport out
                     end))
  | P_send slot id sport out =>
      if dns_stale s j then (dns_retire_slot_locked s slot sport id, goto P_done)
      else (s, goto (if v_hard e then P_fail (Some (slot, sport, id)) else P_wait slot id sport out (v_now e)))
  | P_wait slot id sport out last_send =>
      if dns_stale s j then (dns_retire_slot_locked s slot sport id, goto P_done)
      else if negb (mine s slot sport id) then (s, goto P_done)
      else
        let x := nth slot (g_dns_wait s) wait0 in
        if v_now e >=? dw_deadline x then (free_slot s slot, goto (P_push None))
        else if (u64 (v_now e - last_send) >=? DNS_POLL_MS) && (dw_resends x >? 0)
        then (set_waits s (<[slot := with_resends x (dw_resends x - 1)]> (g_dns_wait s)) (g_dns_wait_n s),
              goto (P_wait slot id sport out (if v_sent e then v_now e else last_send)))
        else (s, goto (P_wait slot id sport out last_send))
  | P_fail None => (s, goto (P_push None))
  | P_fail (Some (slot, sport, id)) => (dns_retire_slot_locked s slot sport id, goto (P_push None))
  | P_push a => (dns_push_g s (j_gen j) (j_flow j) a (j_port j), goto P_done)
  | P_done => (s, goto P_done)
  end.

(** ** The event loop *)

Inductive spawn_ev := SE_nomem | SE_nothread | SE_started.

(** What the event loop is in the middle of, between two lock sections: an answer matched to
    the entry [x] in [slot], the result of an entry it has freed, the lookups of [spawn_dns] still to
    start, or [dns_reset] with the ring already emptied. *)
Inductive doing :=
| Q_answer (slot : nat) (x : DnsWait) (a : dest)
| Q_push (flow port : Z) (a : dest)
| Q_spawn (flow port : Z) (domain : bytes) (nq : Z) (todo : list (Z * spawn_ev))
| Q_reset.

Record sys := mk_sys {
  y_dns : dns;
  y_ws : list worker;
  y_asked : list (Z * Z);
  y_run : bool;
  y_pend : option doing
}.

(** The lookups of one name: AAAA and A through the tunnel, one local lookup without it. *)
Definition spawn_qtypes (v6 : bool) (srv : Z) : list Z := if v6 then if srv =? 0 then [28] else [28; 1] else [1].

(** The body of the loop of [spawn_dns]. *)
Definition spawn_one (flow port : Z) (domain : bytes) (nq : Z) (y : sys) (x : Z * spawn_ev) : sys :=
  let s := y_dns y in
  let fail := mk_sys (dns_push_g s (g_dns_gen s) flow None port) (y_ws y) (y_asked y ++ [(g_dns_gen s, flow)]) (y_run y) (y_pend y) in
  match x.2 with
  | SE_nomem => fail
  | ev =>
      if g_dns_wait_n s >? Z.of_nat DNS_WAIT_MAX - nq then fail
      else
        match ev with
        | SE_started =>
            mk_sys s (y_ws y ++ [mk_worker (mk_job flow port domain (g_dns_gen s) x.1) P_start]) (y_asked y ++ [(g_dns_gen s, flow)])
              (y_run y) (y_pend y)
        | _ => fail
        end
  end.

(** The lookups of a call, each with what [malloc] and [pthread_create] give it. *)
Definition spawn_jobs (v6 : bool) (srv : Z) (flow port : Z) (domain : bytes) (evs : list spawn_ev) : doing :=
  let qs := spawn_qtypes v6 srv in Q_spawn flow port domain (zlen qs) (zip qs evs).

(** The locked part of [dns_consume_answer]; the result is pushed after it. *)
Definition dns_consume_answer (s : dns) (slot : nat) (x : DnsWait) (a : dest) : dns * option doing :=
  if mine s slot (dw_sport x) (dw_id x) then (free_slot s slot, Some (Q_push (dw_flow x) (dw_port x) a)) else (s, None).

Definition dns_stop (s : dns) : dns := set_gen s (u32 (g_dns_gen s + 1)).

(** The two lock sections of [dns_reset]. *)
Definition reset_ring (s : dns) : dns := set_ring s (g_dns_q s) 0 0.
Definition reset_table (s : dns) : dns := set_gen (set_waits s (unuse <$> g_dns_wait s) 0) (u32 (g_dns_gen s + 1)).
Definition dns_reset (s : dns) : dns := reset_table (reset_ring s).

(** [ip] is the configured text, [None] for NULL. *)
Definition dns_set_server (s : dns) (ip : option bytes) : dns :=
  match ip with
  | Some t =>
      match (if zlen t >? 0 then s2ip4 t else None) with
      | Some b => set_server s (ip4_u32 b)
      | None => set_server s 0
      end
  | None => set_server s 0
  end.

Definition with_dns (y : sys) (s : dns) : sys := mk_sys s (y_ws y) (y_asked y) (y_run y) (y_pend y).

Definition with_pend (y : sys) (p : option doing) : sys := mk_sys (y_dns y) (y_ws y) (y_asked y) (y_run y) p.

(** What the event loop and the threads do, one lock section at a time. *)
Inductive sys_step : sys -> sys -> Prop :=
| Y_worker y i w e s' w' :
    y_ws y !! i = Some w -> worker_step e (y_dns y) w = (s', w') ->
    sys_step y (mk_sys s' (<[i := w']> (y_ws y)) (y_asked y) (y_run y) (y_pend y))
| Y_spawn y v6 flow port domain evs :
    y_run y = true -> y_pend y = None -> (2 <= length evs)%nat ->
    sys_step y (with_pend y (Some (spawn_jobs v6 (g_dns_server_ip4 (y_dns y)) flow port domain evs)))
| Y_spawn_one y flow port domain nq x todo :
    y_pend y = Some (Q_spawn flow port domain nq (x :: todo)) ->
    sys_step y (with_pend (spawn_one flow port domain nq y x) (Some (Q_spawn flow port domain nq todo)))
| Y_spawn_end y flow port domain nq : y_pend y = Some (Q_spawn flow port domain nq []) -> sys_step y (with_pend y None)
| Y_packet y ip pkt v :
    y_run y = true -> y_pend y = None -> bytes_ok pkt ->
    dns_judge (g_dns_server_ip4 (y_dns y)) ip (g_dns_wait_n (y_dns y)) (g_dns_wait (y_dns y)) pkt = Ret v ->
    sys_step y match v with
               | V_pass => y
               | V_bad => with_dns y (set_ignored (y_dns y) (u64 (g_dns_ignored (y_dns y) + 1)))
               | V_answer slot a => with_pend y (Some (Q_answer slot (nth slot (g_dns_wait (y_dns y)) wait0) a))
               end
| Y_consume y slot x a :
    y_pend y = Some (Q_answer slot x a) ->
    sys_step y (let (s, p) := dns_consume_answer (y_dns y) slot x a in with_pend (with_dns y s) p)
| Y_push y flow port a :
    y_pend y = Some (Q_push flow port a) ->
    sys_step y (with_pend (with_dns y (dns_push_g (y_dns y) (g_dns_gen (y_dns y)) flow (Some a) port)) None)
| Y_drain y max s' out :
    y_pend y = None -> dns_drain (y_dns y) max = Ret (s', out) -> sys_step y (with_dns y s')
| Y_stop y :
    y_pend y = None -> sys_step y (mk_sys (dns_stop (y_dns y)) (y_ws y) (y_asked y) false None)
| Y_server y ip : y_pend y = None -> sys_step y (with_dns y (dns_set_server (y_dns y) ip))
| Y_reset y : y_pend y = None -> sys_step y (with_pend (with_dns y (reset_ring (y_dns y))) (Some Q_reset))
| Y_reset_table y :
    y_pend y = Some Q_reset -> sys_step y (mk_sys (reset_table (y_dns y)) (y_ws y) (y_asked y) true None).

Definition dns0 : dns :=
  mk_dns_st (replicate DNS_RESULT_Q_LEN entry0) 0 0 1 (replicate DNS_WAIT_MAX wait0) 0 0 0 0 0 (mk_trace [] [] []).

Definition sys0 : sys := mk_sys dns0 [] [] false None.

Definition reachable_dns (y : sys) : Prop := rtc sys_step sys0 y.

(** ** Counting *)

Definition cnt {A} (f : A -> bool) (l : list A) : nat := length (filter (fun x => f x = true) l).
Definition b2n (b : bool) : nat := if b then 1%nat else 0%nat.

Lemma cnt_cons {A} (f : A -> bool) x l : cnt f (x :: l) = (b2n (f x) + cnt f l)%nat.
Proof. unfold cnt. rewrite filter_cons. by destruct (f x). Qed.

Lemma cnt_app {A} (f : A -> bool) l l' : cnt f (l ++ l') = (cnt f l + cnt f l')%nat.
Proof. unfold cnt. by rewrite filter_app, length_app. Qed.

Lemma cnt_insert {A} (f g : A -> bool) l i x y :
  l !! i = Some x -> (forall j z, j <> i -> l !! j = Some z -> g z = f z) ->
  (cnt g (<[i := y]> l) + b2n (f x) = cnt f l + b2n (g y))%nat.
Proof.
  revert i. induction l as [|z l IH]; intros i Hi Hne; [done|]. destruct i as [|i]; cbn in Hi.
  - injection Hi as ->. change (<[0%nat := y]> (x :: l)) with (y :: l). rewrite !cnt_cons.
    assert (cnt g l = cnt f l) as ->; [|lia].
    clear IH. assert (forall j z, l !! j = Some z -> g z = f z) as H by (intros j z Hz; exact (Hne (S j) z ltac:(lia) Hz)). clear Hne.
    induction l as [|z l IH]; [done|]. rewrite !cnt_cons, (H 0%nat z eq_refl), IH; [done|]. intros j v Hj. exact (H (S j) v Hj).
  - change (<[S i := y]> (z :: l)) with (z :: <[i := y]> l). rewrite !cnt_cons, (Hne 0%nat z) by done.
    assert (cnt g (<[i := y]> l) + b2n (f x) = cnt f l + b2n (g y))%nat by (apply IH; [done|]; intros j v Hj Hv; apply (Hne (S j)); [lia|done]). lia.
Qed.

Lemma cnt_ext {A} (f g : A -> bool) l : (forall j z, l !! j = Some z -> g z = f z) -> cnt g l = cnt f l.
Proof.
  induction l as [|z l IH]; intros H; [done|]. rewrite !cnt_cons, (H 0%nat z eq_refl), IH; [done|]. intros j v Hj. exact (H (S j) v Hj).
Qed.

Lemma cnt_none {A} (f : A -> bool) l : (forall j z, l !! j = Some z -> f z = false) -> cnt f l = 0%nat.
Proof.
  induction l as [|z l IH]; intros H; [done|]. rewrite cnt_cons, (H 0%nat z eq_refl), IH; [done|]. intros j v Hj. exact (H (S j) v Hj).
Qed.

(** ** The invariant *)

Definition holds (p : wpc) : option (nat * Z * Z) :=
  match p with
  | P_snapshot slot id sport _ | P_send slot id sport _ | P_wait slot id sport _ _ => Some (slot, sport, id)
  | P_fail h => h
  | _ => None
  end.

(** The thread will still deliver its result, or the event loop will do it for it. *)
Definition owes (s : dns) (w : worker) : bool :=
  match w_pc w with
  | P_done => false
  | P_snapshot slot id sport _ | P_send slot id sport _ | P_wait slot id sport _ _ => mine s slot sport id
  | _ => true
  end.

Definition owed (s : dns) (fid : Z) (w : worker) : bool := (j_gen (w_job w) =? g_dns_gen s) && (j_flow (w_job w) =? fid) && owes s w.

Definition is_pair (g f : Z) (x : Z * Z) : bool := (x.1 =? g) && (x.2 =? f).

Definition resolving (w : worker) : bool := match w_pc w with P_resolving => true | _ => false end.

Definition unsent (p : wpc) : bool :=
  match p with P_snapshot _ _ _ _ | P_send _ _ _ _ | P_fail (Some _) => true | _ => false end.

Definition waiting (p : wpc) : bool := match p with P_wait _ _ _ _ _ => true | _ => false end.

(** The event loop has freed the entry of one of the flow's lookups and pushes its result next. *)
Definition due (p : option doing) (fid : Z) : bool := match p with Some (Q_push flow _ _) => flow =? fid | _ => false end.

(** What the conservation of results relies on, besides the code.  [ex_new]: no thread is given
    the table slot, port and id of one that held that slot before and has not yet noticed that
    its entry is gone, nor those of an answer being matched; ports and ids are drawn at random.  [ex_sent]: no answer that passes the checks
    arrives before its query is sent.  [ex_gen]: the 32-bit session counter does not wrap. *)
Record expected (y y' : sys) : Prop := mk_expected {
  ex_new : forall i w w' k sp id, y_ws y !! i = Some w -> y_ws y' !! i = Some w' -> holds (w_pc w) = None -> holds (w_pc w') = Some (k, sp, id) ->
    (forall j v, y_ws y !! j = Some v -> holds (w_pc v) <> Some (k, sp, id)) /\
    (forall x a, y_pend y = Some (Q_answer k x a) -> (dw_sport x, dw_id x) <> (sp, id));
  ex_sent : forall slot x a j w, y_pend y = None -> y_pend y' = Some (Q_answer slot x a) -> y_ws y !! j = Some w ->
    holds (w_pc w) = Some (slot, dw_sport x, dw_id x) -> waiting (w_pc w) = true;
  ex_gen : g_dns_gen (y_dns y) <= g_dns_gen (y_dns y')
}.

Definition expected_dns (y : sys) : Prop := rtc (fun a b => sys_step a b /\ expected a b) sys0 y.

(** What every run keeps. *)
Record base (y : sys) : Prop := mk_base {
  bi_len : length (g_dns_wait (y_dns y)) = DNS_WAIT_MAX;
  bi_n : g_dns_wait_n (y_dns y) = Z.of_nat (cnt dw_in_use (g_dns_wait (y_dns y)));
  bi_flight : g_dns_local_inflight (y_dns y) = Z.of_nat (cnt resolving (y_ws y)) /\ g_dns_local_inflight (y_dns y) <= DNS_LOCAL_MAX_INFLIGHT;
  bi_owner : forall k, let x := nth k (g_dns_wait (y_dns y)) wait0 in dw_in_use x = true ->
    exists i w, y_ws y !! i = Some w /\ holds (w_pc w) = Some (k, dw_sport x, dw_id x) /\ j_flow (w_job w) = dw_flow x
}.

(** The session of everything asked for and every result is the current one or an earlier one. *)
Record past (y : sys) (Q : list entry) : Prop := mk_past {
  pa_gen : 0 <= g_dns_gen (y_dns y) < 2 ^ 32;
  pa_asked : Forall (fun x => x.1 <= g_dns_gen (y_dns y)) (y_asked y);
  pa_pushed : Forall (fun x => x.1 <= g_dns_gen (y_dns y)) (t_pushed (d_hist (y_dns y)));
  pa_taken : Forall (fun x => x.1 <= g_dns_gen (y_dns y)) (t_taken (d_hist (y_dns y)));
  pa_lost : Forall (fun x => x.1 <= g_dns_gen (y_dns y)) (t_lost (d_hist (y_dns y)));
  pa_ring : Forall (fun x => x.1 <= g_dns_gen (y_dns y)) (tag <$> Q);
  pa_jobs : Forall (fun w => j_gen (w_job w) <= g_dns_gen (y_dns y)) (y_ws y)
}.

(** Every result of the session that was pushed has been handed out, was dropped, or waits. *)
Definition accounted (s : dns) (Q : list entry) : Prop :=
  forall fid, let c := cnt (is_pair (g_dns_gen s) fid) in
    c (t_pushed (d_hist s)) = (c (t_taken (d_hist s)) + c (t_lost (d_hist s)) + c (tag <$> Q))%nat.

(** What expected runs keep. *)
Record dinv (y : sys) : Prop := mk_dinv {
  di_base : base y;
  di_ring : exists Q, ring (g_dns_q (y_dns y)) (g_dns_hd (y_dns y)) (g_dns_tl (y_dns y)) Q /\ past y Q /\ (y_pend y <> Some Q_reset -> accounted (y_dns y) Q);
  di_one : forall i j v w h, y_ws y !! i = Some v -> y_ws y !! j = Some w -> holds (w_pc v) = Some h -> holds (w_pc w) = Some h -> i = j;
  di_wait : forall i w k sp id, y_run y = true -> y_ws y !! i = Some w -> waiting (w_pc w) = true -> holds (w_pc w) = Some (k, sp, id) ->
    mine (y_dns y) k sp id = true -> j_gen (w_job w) = g_dns_gen (y_dns y);
  di_unsent : forall i w k sp id, y_ws y !! i = Some w -> unsent (w_pc w) = true -> holds (w_pc w) = Some (k, sp, id) ->
    j_gen (w_job w) = g_dns_gen (y_dns y) -> mine (y_dns y) k sp id = true;
  di_pend : forall slot x a i w, y_pend y = Some (Q_answer slot x a) -> y_ws y !! i = Some w -> holds (w_pc w) = Some (slot, dw_sport x, dw_id x) ->
    waiting (w_pc w) = true /\ j_flow (w_job w) = dw_flow x /\ y_run y = true;
  di_sum : forall fid, cnt (is_pair (g_dns_gen (y_dns y)) fid) (y_asked y) =
    (cnt (is_pair (g_dns_gen (y_dns y)) fid) (t_pushed (d_hist (y_dns y))) + cnt (owed (y_dns y) fid) (y_ws y) + b2n (due (y_pend y) fid))%nat
}.

(** ** One step of a thread *)

Lemma nth_insert {A} (l : list A) k k' x d : nth k' (<[k := x]> l) d = if decide (k' = k /\ (k < length l)%nat) then x else nth k' l d.
Proof.
  rewrite !nth_lookup. destruct (decide (k' = k)) as [->|Hne].
  - destruct (decide (k < length l)%nat) as [L|L].
    + rewrite list_lookup_insert_eq by done. by rewrite decide_True.
    + rewrite list_insert_ge by lia. by rewrite decide_False by tauto.
  - rewrite list_lookup_insert_ne by done. by rewrite decide_False by tauto.
Qed.

Lemma mine_fields s k sp id :
  mine s k sp id = true -> let x := nth k (g_dns_wait s) wait0 in dw_in_use x = true /\ dw_sport x = sp /\ dw_id x = id.
Proof. unfold mine, matches. intros [[H1 H2%Z.eqb_eq]%andb_true_iff H3%Z.eqb_eq]%andb_true_iff. done. Qed.

Lemma mine_true s k : let x := nth k (g_dns_wait s) wait0 in dw_in_use x = true -> mine s k (dw_sport x) (dw_id x) = true.
Proof. cbv zeta. unfold mine, matches. intros ->. by rewrite !Z.eqb_refl. Qed.

Lemma in_table s k : dw_in_use (nth k (g_dns_wait s) wait0) = true -> (k < length (g_dns_wait s))%nat.
Proof. intros H. destruct (decide (k < length (g_dns_wait s))%nat); [done|]. rewrite nth_overflow in H by lia. done. Qed.

(** Freeing a slot, or counting a retransmission, concerns the pair of its entry only. *)
Lemma mine_free s k sp0 id0 k' sp id :
  mine s k sp0 id0 = true -> (k', sp, id) <> (k, sp0, id0) -> mine (free_slot s k) k' sp id = mine s k' sp id.
Proof.
  intros Hm Hne. destruct (mine_fields _ _ _ _ Hm) as (Hu & Hs & Hi). unfold mine, free_slot. cbn [g_dns_wait set_waits]. rewrite nth_insert.
  destruct (decide _) as [[-> _]|]; [|done]. unfold matches, unuse. cbn [dw_in_use]. rewrite Hu, Hs, Hi. cbn [andb].
  destruct (sp0 =? sp) eqn:E1, (id0 =? id) eqn:E2; try done. apply Z.eqb_eq in E1, E2. congruence.
Qed.

Lemma mine_resend s k r k' sp id :
  mine (set_waits s (<[k := with_resends (nth k (g_dns_wait s) wait0) r]> (g_dns_wait s)) (g_dns_wait_n s)) k' sp id = mine s k' sp id.
Proof. unfold mine. cbn [g_dns_wait set_waits]. rewrite nth_insert. by destruct (decide _) as [[-> _]|]. Qed.

Lemma register_some s id sport j now s' k :
  dns_register s id sport j now = (s', Some k) ->
  (k < length (g_dns_wait s))%nat /\ dw_in_use (nth k (g_dns_wait s) wait0) = false /\
  exists x, g_dns_wait s' = <[k := x]> (g_dns_wait s) /\ g_dns_wait_n s' = g_dns_wait_n s + 1 /\ dw_in_use x = true /\ dw_sport x = sport /\ dw_id x = id /\ dw_flow x = j_flow j.
Proof.
  unfold dns_register. destruct (find_index _ _) as [i|] eqn:E; [|done]. intros [= <- <-]. apply find_index_Some in E as ((x & Hx & Hu) & _).
  split; [by eapply lookup_lt_Some|]. rewrite (nth_lookup_Some _ _ _ _ Hx). split; [by destruct (dw_in_use x)|]. eexists. by split.
Qed.

Lemma register_other s id sport j now s' r k' sp id' :
  dns_register s id sport j now = (s', r) -> (forall k, r = Some k -> (k', sp, id') <> (k, sport, id)) -> mine s' k' sp id' = mine s k' sp id'.
Proof.
  intros E Hne. destruct r as [k|].
  - specialize (Hne k eq_refl). destruct (register_some _ _ _ _ _ _ _ E) as (Hk & Hu & x & Ex & _ & Hx & Hs & Hi & _). unfold mine. rewrite Ex, nth_insert.
    destruct (decide _) as [[-> _]|]; [|done]. unfold matches. rewrite Hu, Hx, Hs, Hi. cbn [andb].
    destruct (sport =? sp) eqn:E1, (id =? id') eqn:E2; try done. apply Z.eqb_eq in E1, E2. congruence.
  - unfold dns_register in E. destruct (find_index _ _); [done|]. by injection E as <-.
Qed.

(** Case analysis on the program counter and the branches of a step. *)
Ltac wstep H :=
  unfold worker_step in H; cbv zeta in H;
  match type of H with context [match w_pc ?w with _ => _ end] => let E := fresh "Hpc" in destruct (w_pc w) eqn:E; rewrite ?E end;
  repeat match type of H with
         | context [dns_register ?a ?b ?c ?d ?e] => destruct (dns_register a b c d e) eqn:?
         | context [if ?b then _ else _] => destruct b eqn:?
         | context [match ?x with Some _ => _ | None => _ end] => destruct x eqn:?
         | context [let (_, _) := ?x in _] => destruct x eqn:?
         end;
  injection H as <- <-; cbn [w_pc w_job holds waiting unsent] in *.

Lemma step_job e s w s' w' : worker_step e s w = (s', w') -> w_job w' = w_job w.
Proof. intros H. wstep H; done. Qed.

Lemma step_gen e s w s' w' : worker_step e s w = (s', w') -> g_dns_gen s' = g_dns_gen s.
Proof.
  intros H. wstep H; try done; try (unfold dns_retire_slot_locked; by destruct (mine _ _ _ _)).
  - unfold dns_register in *. by repeat case_match; simplify_eq.
  - unfold dns_register in *. by repeat case_match; simplify_eq.
Qed.

Lemma step_holds e s w s' w' h :
  worker_step e s w = (s', w') -> holds (w_pc w') = Some h -> holds (w_pc w) = Some h \/ holds (w_pc w) = None.
Proof. intros H. wstep H; intros; simplify_eq; rewrite ?Hpc; auto. Qed.

Lemma retire_waits s k sp id :
  dns_retire_slot_locked s k sp id = s \/ (mine s k sp id = true /\ dns_retire_slot_locked s k sp id = free_slot s k).
Proof. unfold dns_retire_slot_locked. destruct (mine s k sp id); auto. Qed.

Lemma step_other e s w s' w' k sp id :
  worker_step e s w = (s', w') -> holds (w_pc w) <> Some (k, sp, id) -> holds (w_pc w') <> Some (k, sp, id) -> mine s' k sp id = mine s k sp id.
Proof.
  intros H Hk Hk'. wstep H; try done; try (eapply register_other; [eassumption|intros; congruence]);
    try (match goal with |- mine (dns_retire_slot_locked ?s ?a ?b ?c) _ _ _ = _ => destruct (retire_waits s a b c) as [-> |[Hm ->]] end;
         [done|eapply mine_free; [exact Hm|congruence]]).
  - eapply mine_free; [by apply negb_false_iff|congruence].
  - apply mine_resend.
  - apply mine_resend.
Qed.

Lemma step_wait e s w s' w' : worker_step e s w = (s', w') -> waiting (w_pc w') = true -> j_gen (w_job w') = g_dns_gen s.
Proof. intros H. wstep H; try done; intros _; unfold dns_stale in *; lia. Qed.

Lemma step_waiting e s w s' w' k :
  worker_step e s w = (s', w') -> waiting (w_pc w) = true -> holds (w_pc w') = Some k -> waiting (w_pc w') = true.
Proof. intros H. wstep H; done. Qed.

Lemma mine_registered s id sport j now s' k : dns_register s id sport j now = (s', Some k) -> mine s' k sport id = true.
Proof.
  intros E. destruct (register_some _ _ _ _ _ _ _ E) as (Hk & _ & x & Ex & _ & Hx & Hs & Hi & _). unfold mine, matches. rewrite Ex, nth_insert.
  rewrite decide_True by done. by rewrite Hx, Hs, Hi, !Z.eqb_refl.
Qed.

Lemma step_unsent e s w s' w' k sp id :
  worker_step e s w = (s', w') -> unsent (w_pc w') = true -> holds (w_pc w') = Some (k, sp, id) ->
  mine s' k sp id = true \/ (unsent (w_pc w) = true /\ holds (w_pc w) = Some (k, sp, id) /\ s' = s).
Proof.
  intros H. wstep H; try done; intros _ E; simplify_eq; try (left; by apply negb_false_iff); auto.
  left. by eapply mine_registered.
Qed.

(** Every entry in use after the step is the thread's new one, or was there before and is
    still held by the thread if it was its own. *)
Definition kept (s s' : dns) (w w' : worker) (k : nat) : Prop :=
  let x' := nth k (g_dns_wait s') wait0 in
  let x := nth k (g_dns_wait s) wait0 in
  dw_in_use x = true /\ dw_sport x' = dw_sport x /\ dw_id x' = dw_id x /\ dw_flow x' = dw_flow x /\
  (holds (w_pc w) = Some (k, dw_sport x, dw_id x) -> holds (w_pc w') = holds (w_pc w)).

Lemma kept_free s w w' slot sport id k :
  holds (w_pc w) = Some (slot, sport, id) -> mine s slot sport id = true -> dw_in_use (nth k (g_dns_wait (free_slot s slot)) wait0) = true ->
  kept s (free_slot s slot) w w' k.
Proof.
  intros Hh Hm Hu. unfold kept, free_slot in *. cbn [g_dns_wait set_waits] in *. rewrite nth_insert in *. destruct (decide _) as [[-> Hl]|Hne]; [done|].
  rewrite Hh. split_and!; try done. intros [= -> _ _]. destruct Hne. split; [done|]. by apply in_table.
Qed.

Lemma kept_gone s w w' slot sport id k :
  holds (w_pc w) = Some (slot, sport, id) -> mine s slot sport id = false -> dw_in_use (nth k (g_dns_wait s) wait0) = true -> kept s s w w' k.
Proof.
  intros Hh Hm Hu. unfold kept. split_and!; try done. rewrite Hh. intros [= -> -> ->]. by rewrite (mine_true s k Hu) in Hm.
Qed.

Lemma kept_retire s w w' slot sport id k :
  holds (w_pc w) = Some (slot, sport, id) -> dw_in_use (nth k (g_dns_wait (dns_retire_slot_locked s slot sport id)) wait0) = true ->
  kept s (dns_retire_slot_locked s slot sport id) w w' k.
Proof.
  intros Hh. unfold dns_retire_slot_locked. destruct (mine s slot sport id) eqn:E; intros Hu; [by eapply kept_free|by eapply kept_gone].
Qed.

Lemma kept_resend s w w' slot sport id r k :
  holds (w_pc w) = Some (slot, sport, id) -> holds (w_pc w') = holds (w_pc w) ->
  let s' := set_waits s (<[slot := with_resends (nth slot (g_dns_wait s) wait0) r]> (g_dns_wait s)) (g_dns_wait_n s) in
  dw_in_use (nth k (g_dns_wait s') wait0) = true -> kept s s' w w' k.
Proof.
  intros Hh Hh' s' Hu. unfold kept, s' in *. cbn [g_dns_wait set_waits] in *. rewrite nth_insert in *. by destruct (decide _) as [[-> Hl]|Hne].
Qed.

Lemma register_none s id sport j now s' : dns_register s id sport j now = (s', None) -> s' = s.
Proof. unfold dns_register. destruct (find_index _ _); [done|]. by intros [= <-]. Qed.

Lemma step_entries e s w s' w' k :
  worker_step e s w = (s', w') -> dw_in_use (nth k (g_dns_wait s') wait0) = true ->
  (let x' := nth k (g_dns_wait s') wait0 in holds (w_pc w') = Some (k, dw_sport x', dw_id x') /\ dw_flow x' = j_flow (w_job w)) \/ kept s s' w w' k.
Proof.
  intros H Hu.
  assert (holds (w_pc w) = None \/ holds (w_pc w') = holds (w_pc w) -> g_dns_wait s' = g_dns_wait s -> kept s s' w w' k) as Hsame
    by (intros [E|E] Es; unfold kept; rewrite Es in *; split_and!; try done; rewrite E; done).
  wstep H; try (right; apply Hsame; rewrite ?Hpc; auto; done);
    try (right; eapply kept_retire; [rewrite Hpc; done|done]);
    try (right; eapply kept_gone; [rewrite Hpc; done|by apply negb_true_iff|done]);
    try (right; eapply kept_free; [rewrite Hpc; done|by apply negb_false_iff|done]);
    try (right; eapply kept_resend; [rewrite Hpc; done|rewrite Hpc; done|done]).
  - destruct (register_some _ _ _ _ _ _ _ Heqp) as (Hl & Hf & x & Ex & _ & Hx & Hs & Hi & Hfl). unfold kept. rewrite Ex, nth_insert in *.
    destruct (decide _) as [[-> _]|Hne]; [left; split; congruence|right]. by rewrite Hpc.
  - right. apply register_none in Heqp as ->. apply Hsame; [by left|done].
Qed.

Lemma free_count s k sp id :
  mine s k sp id = true -> g_dns_wait_n s = Z.of_nat (cnt dw_in_use (g_dns_wait s)) ->
  g_dns_wait_n (free_slot s k) = Z.of_nat (cnt dw_in_use (g_dns_wait (free_slot s k))).
Proof.
  intros Hm Hn. destruct (mine_fields _ _ _ _ Hm) as (Hu & _). pose proof (in_table _ _ Hu) as Hl. unfold free_slot. cbn [g_dns_wait g_dns_wait_n set_waits].
  destruct (lookup_lt_is_Some_2 _ _ Hl) as [x Hx]. rewrite (nth_lookup_Some _ _ _ _ Hx) in *.
  pose proof (cnt_insert dw_in_use dw_in_use _ k x (unuse x) Hx (fun _ _ _ _ => eq_refl)) as E. rewrite Hu in E. cbn [b2n unuse dw_in_use] in E. lia.
Qed.

Lemma resend_count (l : list DnsWait) (n : Z) k r :
  n = Z.of_nat (cnt dw_in_use l) -> n = Z.of_nat (cnt dw_in_use (<[k := with_resends (nth k l wait0) r]> l)).
Proof.
  intros ->. destruct (decide (k < length l)%nat) as [L|L]; [|by rewrite list_insert_ge by lia].
  destruct (lookup_lt_is_Some_2 _ _ L) as [z Hz]. rewrite (nth_lookup_Some _ _ _ _ Hz).
  pose proof (cnt_insert dw_in_use dw_in_use _ k z (with_resends z r) Hz (fun _ _ _ _ => eq_refl)) as E. cbn [dw_in_use with_resends] in E. lia.
Qed.

Lemma step_count e s w s' w' :
  worker_step e s w = (s', w') -> g_dns_wait_n s = Z.of_nat (cnt dw_in_use (g_dns_wait s)) ->
  g_dns_wait_n s' = Z.of_nat (cnt dw_in_use (g_dns_wait s')) /\ length (g_dns_wait s') = length (g_dns_wait s).
Proof.
  intros H Hn. wstep H; try done;
    try (match goal with |- context [dns_retire_slot_locked ?s ?a ?b ?c] => destruct (retire_waits s a b c) as [-> |[Hm ->]] end;
         [done|split; [by eapply free_count|apply length_insert]]).
  - destruct (register_some _ _ _ _ _ _ _ Heqp) as (Hl & Hf & x & -> & -> & Hx & _). split; [|apply length_insert].
    destruct (lookup_lt_is_Some_2 _ _ Hl) as [z Hz]. rewrite (nth_lookup_Some _ _ _ _ Hz) in *.
    pose proof (cnt_insert dw_in_use dw_in_use _ n z x Hz (fun _ _ _ _ => eq_refl)) as E. rewrite Hf, Hx in E. cbn [b2n] in E. lia.
  - by apply register_none in Heqp as ->.
  - split; [|apply length_insert]. eapply free_count; [by apply negb_false_iff|done].
  - split; [by apply resend_count|apply length_insert].
  - split; [by apply resend_count|apply length_insert].
Qed.

(** The parts of the state a step leaves alone. *)
Definition same_rest (s s' : dns) : Prop :=
  g_dns_q s' = g_dns_q s /\ g_dns_hd s' = g_dns_hd s /\ g_dns_tl s' = g_dns_tl s /\ d_hist s' = d_hist s.

Lemma step_rest e s w s' w' :
  worker_step e s w = (s', w') ->
  (same_rest s s' /\ forall a, w_pc w <> P_push a) \/ (exists a, w_pc w = P_push a /\ w_pc w' = P_done /\ s' = dns_push_g s (j_gen (w_job w)) (j_flow (w_job w)) a (j_port (w_job w))).
Proof.
  intros H. wstep H; try (left; done); try (left; unfold dns_retire_slot_locked; by destruct (mine _ _ _ _)); try (right; eauto; done).
  - left. unfold dns_register in Heqp. by repeat case_match; simplify_eq.
  - left. by apply register_none in Heqp as ->.
Qed.

Lemma step_flight e s w s' w' :
  worker_step e s w = (s', w') ->
  g_dns_local_inflight s' + Z.of_nat (b2n (resolving w)) = g_dns_local_inflight s + Z.of_nat (b2n (resolving w')) /\
  (g_dns_local_inflight s' <= g_dns_local_inflight s \/ g_dns_local_inflight s' <= DNS_LOCAL_MAX_INFLIGHT).
Proof.
  intros H. unfold resolving. wstep H; cbn [b2n]; try (unfold dns_retire_slot_locked; destruct (mine _ _ _ _)); cbn [g_dns_local_inflight set_inflight free_slot set_waits];
    try (split; [lia|left; lia]); try (split; [cbn; lia|left; cbn; lia]).
  - split; [lia|right; lia].
  - assert (g_dns_local_inflight d = g_dns_local_inflight s) as -> by (unfold dns_register in Heqp; by repeat case_match; simplify_eq). lia.
  - apply register_none in Heqp as ->. lia.
Qed.

Lemma cnt_pair_snoc g f l x : cnt (is_pair g f) (l ++ [x]) = (cnt (is_pair g f) l + b2n (is_pair g f x))%nat.
Proof. rewrite cnt_app, cnt_cons. cbn. lia. Qed.

(** A thread of the current generation either still owes its result or has just pushed it. *)
Lemma step_sum e s w s' w' fid :
  worker_step e s w = (s', w') ->
  (forall k sp id, unsent (w_pc w) = true -> holds (w_pc w) = Some (k, sp, id) -> j_gen (w_job w) = g_dns_gen s -> mine s k sp id = true) ->
  (cnt (is_pair (g_dns_gen s) fid) (t_pushed (d_hist s')) + b2n (owed s' fid w') = cnt (is_pair (g_dns_gen s) fid) (t_pushed (d_hist s)) + b2n (owed s fid w))%nat.
Proof.
  intros H Hun. pose proof (step_gen _ _ _ _ _ H) as Hg. pose proof (step_job _ _ _ _ _ H) as Hj.
  destruct (step_rest _ _ _ _ _ H) as [((_ & _ & _ & ->) & Hnp)|(a & Ep & Ep' & ->)].
  - f_equal. f_equal. unfold owed. rewrite Hg, Hj. destruct ((j_gen (w_job w) =? g_dns_gen s) && (j_flow (w_job w) =? fid)) eqn:Ec; [|done]. cbn [andb].
    assert (j_gen (w_job w) = g_dns_gen s) as Ecur by lia. assert (dns_stale s (w_job w) = false) as Hns by (unfold dns_stale; lia).
    unfold owes. wstep H; rewrite ?Hpc in *; cbn [w_pc w_job] in *; try done; try congruence;
      try (symmetry; apply (Hun _ _ _ eq_refl eq_refl Ecur)); try (apply (Hun _ _ _ eq_refl eq_refl Ecur)).
    + by eapply mine_registered.
    + symmetry. by apply negb_true_iff.
    + symmetry. by apply negb_true_iff.
    + symmetry. by apply negb_false_iff.
    + apply mine_resend.
    + apply mine_resend.
  - cbn [dns_push_g d_hist set_hist t_pushed]. rewrite cnt_pair_snoc. unfold owed, owes. rewrite Ep, Ep', andb_false_r, andb_true_r. cbn [b2n is_pair fst snd]. unfold is_pair. cbn [fst snd]. lia.
Qed.

(** ** The history of the ring *)

Lemma cnt_perm {A} (f : A -> bool) l l' : l ≡ₚ l' -> cnt f l = cnt f l'.
Proof. unfold cnt. by intros ->. Qed.

Lemma tag_fill old gen flow a port : tag (fill_entry old gen flow a port) = (gen, flow).
Proof. by destruct a as [[]|]. Qed.

Definition held (s : dns) (Q : list entry) : Prop := ring (g_dns_q s) (g_dns_hd s) (g_dns_tl s) Q.

(** A push onto a full ring drops the oldest result, any other push none. *)
Lemma push_keeps s g f a port Q :
  held s Q -> let s' := dns_push_g s g f a port in
  exists Q', held s' Q' /\ (tag <$> Q') ++ t_lost (d_hist s') ≡ₚ (tag <$> Q) ++ t_lost (d_hist s) ++ [(g, f)].
Proof.
  intros Hr s'. set (e := fill_entry (nth (g_dns_tl s) (g_dns_q s) entry0) g f a port).
  exists (push_spec Q e). split; [exact (ring_push _ _ _ _ _ Hr)|]. cbn [s' dns_push_g d_hist set_hist t_lost].
  pose proof Hr as [_ Hh Hroom Ht _]. pose proof len_pos as HL.
  assert (bool_decide (next (g_dns_tl s) = g_dns_hd s) = bool_decide (S (length Q) = DNS_RESULT_Q_LEN)) as ->.
  { rewrite Ht, next_mod. apply bool_decide_ext. rewrite wrap_case by lia. destruct (decide _); lia. }
  assert (tag e = (g, f)) as Et by apply tag_fill. unfold push_spec. destruct (bool_decide _) eqn:Ef.
  - apply bool_decide_eq_true in Ef. destruct Q as [|e0 Q]; [exfalso; unfold DNS_RESULT_Q_LEN in Ef; cbn in Ef; lia|].
    destruct (ring_pop _ _ _ _ _ Hr) as [-> _]. cbn [tail]. rewrite fmap_app. cbn [fmap list_fmap]. rewrite Et. solve_Permutation.
  - rewrite fmap_app. cbn [fmap list_fmap]. rewrite Et. solve_Permutation.
Qed.

(** A drain hands out or passes over; what it passes over is of another session. *)
Lemma drain_keeps Q cur max (c := drain_spec e_gen Q cur max) fid :
  cnt (is_pair cur fid) (tag <$> Q) = (cnt (is_pair cur fid) (tag <$> c.1) + cnt (is_pair cur fid) (tag <$> c.2))%nat.
Proof.
  subst c. revert max. induction Q as [|e Q IH]; intros [|max]; [done..|]. cbn [drain_spec]. destruct (e_gen e =? cur) eqn:E.
  - specialize (IH max). destruct (drain_spec e_gen Q cur max) as [o r]. cbn [fst snd fmap list_fmap] in *. rewrite !cnt_cons. lia.
  - cbn [fmap list_fmap]. rewrite cnt_cons, <- (IH (S max)). unfold is_pair, tag. cbn [fst]. by rewrite E.
Qed.

Lemma drain_within (P : Z * Z -> Prop) Q cur max :
  Forall P (tag <$> Q) -> Forall P (tag <$> (drain_spec e_gen Q cur max).1) /\ Forall P (tag <$> (drain_spec e_gen Q cur max).2).
Proof.
  revert max. induction Q as [|e Q IH]; intros [|max] H; [done..|by split|]. cbn [drain_spec]. cbn [fmap list_fmap] in H.
  apply Forall_cons in H as [He H]. destruct (e_gen e =? cur); [|by apply IH]. destruct (IH max H) as [H1 H2].
  destruct (drain_spec e_gen Q cur max) as [o r]. cbn [fst snd fmap list_fmap] in *. by split; [constructor|].
Qed.

Lemma dns_drain_ring s max Q :
  held s Q ->
  exists hd, dns_drain s max = Ret (set_hist (set_ring s (g_dns_q s) hd (g_dns_tl s))
      (mk_trace (t_pushed (d_hist s)) (t_taken (d_hist s) ++ (tag <$> (drain_spec e_gen Q (g_dns_gen s) max).1)) (t_lost (d_hist s))),
      (drain_spec e_gen Q (g_dns_gen s) max).1) /\
    ring (g_dns_q s) hd (g_dns_tl s) (drain_spec e_gen Q (g_dns_gen s) max).2.
Proof.
  intros HQ. unfold dns_drain. destruct (drain_loop_spec DNS_RESULT_Q_LEN _ _ _ Q (g_dns_gen s) max HQ) as (hd & E & HQ'); [destruct HQ; lia|].
  exists hd. by rewrite E.
Qed.

(** The ring's part of the invariant, on the state of the resolver alone. *)
Definition past_s (s : dns) (Q : list entry) : Prop :=
  let le (x : Z * Z) := x.1 <= g_dns_gen s in
  Forall le (t_pushed (d_hist s)) /\ Forall le (t_taken (d_hist s)) /\ Forall le ((tag <$> Q) ++ t_lost (d_hist s)).

Lemma push_past s g f a port Q :
  held s Q -> past_s s Q -> g <= g_dns_gen s ->
  exists Q', held (dns_push_g s g f a port) Q' /\ past_s (dns_push_g s g f a port) Q' /\ (accounted s Q -> accounted (dns_push_g s g f a port) Q').
Proof.
  intros HQ (H1 & H2 & H3) Hg. destruct (push_keeps s g f a port Q HQ) as (Q' & HQ' & Hp). exists Q'. split; [done|].
  assert (t_pushed (d_hist (dns_push_g s g f a port)) = t_pushed (d_hist s) ++ [(g, f)]) as E1 by done. split.
  - unfold past_s. rewrite E1. split; [apply Forall_app; split; [done|by repeat constructor]|]. split; [done|]. rewrite Hp, app_assoc.
    apply Forall_app. split; [done|by repeat constructor].
  - intros Ha fid. specialize (Ha fid). cbv zeta in *. rewrite E1. pose proof (cnt_perm (is_pair (g_dns_gen s) fid) _ _ Hp) as Hc.
    rewrite !cnt_app in Hc. rewrite cnt_app. change (g_dns_gen (dns_push_g s g f a port)) with (g_dns_gen s).
    change (t_taken (d_hist (dns_push_g s g f a port))) with (t_taken (d_hist s)). lia.
Qed.

Lemma past_split y Q :
  past y Q <-> 0 <= g_dns_gen (y_dns y) < 2 ^ 32 /\ Forall (fun x => x.1 <= g_dns_gen (y_dns y)) (y_asked y) /\ past_s (y_dns y) Q /\
               Forall (fun w => j_gen (w_job w) <= g_dns_gen (y_dns y)) (y_ws y).
Proof.
  unfold past_s. rewrite Forall_app. split.
  - intros [H1 H2 H3 H4 H5 H6 H7]. done.
  - intros (H1 & H2 & (H3 & H4 & H5 & H6) & H7). by split.
Qed.

(** ** Every step keeps the invariant *)

Lemma holds_cases p k sp id : holds p = Some (k, sp, id) -> waiting p = true \/ unsent p = true.
Proof. destruct p as [| | | | | | | | | | | |[]| |]; cbn; auto; done. Qed.

(** Another thread's debt depends on its own entry only. *)
Lemma owed_other s s' fid v :
  g_dns_gen s' = g_dns_gen s -> (forall k sp id, holds (w_pc v) = Some (k, sp, id) -> mine s' k sp id = mine s k sp id) -> owed s' fid v = owed s fid v.
Proof. intros Hg Hm. unfold owed, owes. rewrite Hg. destruct (w_pc v); try done; by rewrite (Hm _ _ _ eq_refl). Qed.

Section WorkerStep.
Variables (y : sys) (i : nat) (w w' : worker) (e : wenv) (s' : dns).
Hypothesis Hw : y_ws y !! i = Some w.
Hypothesis Hst : worker_step e (y_dns y) w = (s', w').

Lemma others_in_step j v : j <> i -> <[i := w']> (y_ws y) !! j = Some v -> y_ws y !! j = Some v.
Proof. intros Hne. by rewrite list_lookup_insert_ne by done. Qed.

Lemma self_in_step : <[i := w']> (y_ws y) !! i = Some w'.
Proof. apply list_lookup_insert_eq. by eapply lookup_lt_Some. Qed.

Lemma worker_base : base y -> base (mk_sys s' (<[i := w']> (y_ws y)) (y_asked y) (y_run y) (y_pend y)).
Proof.
  intros [Bl Bn [F1 F2] Bo]. destruct (step_count _ _ _ _ _ Hst Bn) as [Hn Hl]. pose proof (step_flight _ _ _ _ _ Hst) as (Hf1 & Hf2).
  pose proof (cnt_insert resolving resolving (y_ws y) i w w' Hw (fun _ _ _ _ => eq_refl)) as Hc.
  split; cbn [y_dns y_ws]; [by rewrite Hl|done|split; lia|]. intros k. cbv zeta. intros Hu.
  destruct (step_entries _ _ _ _ _ _ Hst Hu) as [(Hh & Hf)|(Hu0 & E1 & E2 & E3 & Hself)].
  - exists i, w'. split; [apply self_in_step|]. split; [done|]. by rewrite (step_job _ _ _ _ _ Hst).
  - destruct (Bo k Hu0) as (j & v & Hv & Hh & Hf). cbv zeta in Hh, Hf. rewrite E1, E2, E3. destruct (decide (j = i)) as [->|Hne].
    + assert (v = w) as -> by congruence. exists i, w'. split; [apply self_in_step|]. rewrite (Hself Hh), (step_job _ _ _ _ _ Hst). done.
    + exists j, v. by rewrite list_lookup_insert_ne by done.
Qed.

Hypothesis Hi : dinv y.
Hypothesis Hfresh : forall k sp id, holds (w_pc w) = None -> holds (w_pc w') = Some (k, sp, id) ->
  (forall j v, y_ws y !! j = Some v -> holds (w_pc v) <> Some (k, sp, id)) /\
  (forall x a, y_pend y = Some (Q_answer k x a) -> (dw_sport x, dw_id x) <> (sp, id)).

Lemma other_holds j v h : j <> i -> y_ws y !! j = Some v -> holds (w_pc v) = Some h -> holds (w_pc w) <> Some h /\ holds (w_pc w') <> Some h.
Proof.
  intros Hne Hv Hk. assert (holds (w_pc w) <> Some h) as H1 by (intros E; apply Hne; by eapply (di_one y Hi)). split; [done|].
  intros E. destruct (step_holds _ _ _ _ _ _ Hst E) as [E1|E1]; [done|]. destruct h as [[k sp] id]. destruct (Hfresh _ _ _ E1 E) as [Hf _]. by apply (Hf j v).
Qed.

Lemma other_mine j v k sp id : j <> i -> y_ws y !! j = Some v -> holds (w_pc v) = Some (k, sp, id) -> mine s' k sp id = mine (y_dns y) k sp id.
Proof. intros Hne Hv Hk. destruct (other_holds j v _ Hne Hv Hk). by eapply step_other. Qed.

Lemma worker_one j1 j2 v1 v2 h :
  <[i := w']> (y_ws y) !! j1 = Some v1 -> <[i := w']> (y_ws y) !! j2 = Some v2 -> holds (w_pc v1) = Some h -> holds (w_pc v2) = Some h -> j1 = j2.
Proof.
  intros H1 H2 K1 K2. destruct (decide (j1 = i)) as [->|N1], (decide (j2 = i)) as [->|N2]; [done| | |].
  - rewrite self_in_step in H1. injection H1 as <-. apply others_in_step in H2; [|done]. by destruct (other_holds j2 v2 h N2 H2 K2).
  - rewrite self_in_step in H2. injection H2 as <-. apply others_in_step in H1; [|done]. by destruct (other_holds j1 v1 h N1 H1 K1).
  - apply others_in_step in H1, H2; [|done..]. by eapply (di_one y Hi).
Qed.

Lemma worker_wait j v k sp id :
  y_run y = true -> <[i := w']> (y_ws y) !! j = Some v -> waiting (w_pc v) = true -> holds (w_pc v) = Some (k, sp, id) ->
  mine s' k sp id = true -> j_gen (w_job v) = g_dns_gen s'.
Proof.
  intros Hr Hv Hwt Hh Hm. rewrite (step_gen _ _ _ _ _ Hst). destruct (decide (j = i)) as [->|Hne].
  - rewrite self_in_step in Hv. injection Hv as <-. by eapply step_wait.
  - apply others_in_step in Hv; [|done]. rewrite (other_mine j v) in Hm by done. by eapply (di_wait y Hi).
Qed.

Lemma worker_unsent j v k sp id :
  <[i := w']> (y_ws y) !! j = Some v -> unsent (w_pc v) = true -> holds (w_pc v) = Some (k, sp, id) ->
  j_gen (w_job v) = g_dns_gen s' -> mine s' k sp id = true.
Proof.
  intros Hv Hu Hh Hg. rewrite (step_gen _ _ _ _ _ Hst) in Hg. destruct (decide (j = i)) as [->|Hne].
  - rewrite self_in_step in Hv. injection Hv as <-. rewrite (step_job _ _ _ _ _ Hst) in Hg.
    destruct (step_unsent _ _ _ _ _ _ _ _ Hst Hu Hh) as [?|(Hu0 & Hh0 & ->)]; [done|]. by eapply (di_unsent y Hi).
  - apply others_in_step in Hv; [|done]. rewrite (other_mine j v) by done. by eapply (di_unsent y Hi).
Qed.

Lemma worker_pend slot x a j v :
  y_pend y = Some (Q_answer slot x a) -> <[i := w']> (y_ws y) !! j = Some v -> holds (w_pc v) = Some (slot, dw_sport x, dw_id x) ->
  waiting (w_pc v) = true /\ j_flow (w_job v) = dw_flow x /\ y_run y = true.
Proof.
  intros Hp Hv Hk. destruct (decide (j = i)) as [->|Hne].
  - rewrite self_in_step in Hv. injection Hv as <-. destruct (step_holds _ _ _ _ _ _ Hst Hk) as [E|E].
    + destruct (di_pend y Hi _ _ _ _ _ Hp Hw E) as (H1 & H2 & H3). rewrite (step_job _ _ _ _ _ Hst). split; [by eapply step_waiting|done].
    + destruct (Hfresh _ _ _ E Hk) as [_ Hf]. by destruct (Hf _ _ Hp).
  - apply others_in_step in Hv; [|done]. by eapply (di_pend y Hi).
Qed.

Lemma worker_sum fid :
  cnt (is_pair (g_dns_gen s') fid) (y_asked y) =
  (cnt (is_pair (g_dns_gen s') fid) (t_pushed (d_hist s')) + cnt (owed s' fid) (<[i := w']> (y_ws y)) + b2n (due (y_pend y) fid))%nat.
Proof.
  pose proof (di_sum y Hi fid) as Hs. rewrite (step_gen _ _ _ _ _ Hst).
  pose proof (step_sum _ _ _ _ _ fid Hst (fun k sp id Hu Hh Hg => di_unsent y Hi i w k sp id Hw Hu Hh Hg)) as Hd.
  pose proof (cnt_insert (owed (y_dns y) fid) (owed s' fid) (y_ws y) i w w' Hw) as Hc.
  assert (cnt (owed s' fid) (<[i := w']> (y_ws y)) + b2n (owed (y_dns y) fid w) = cnt (owed (y_dns y) fid) (y_ws y) + b2n (owed s' fid w'))%nat; [|lia].
  apply Hc. intros j v Hne Hv. apply owed_other; [by eapply step_gen|]. intros k sp id Hk. by eapply other_mine.
Qed.

Lemma worker_ring :
  exists Q, held s' Q /\ past (mk_sys s' (<[i := w']> (y_ws y)) (y_asked y) (y_run y) (y_pend y)) Q /\ (y_pend y <> Some Q_reset -> accounted s' Q).
Proof.
  destruct (di_ring y Hi) as (Q & HQ & (Hg & Ha & Hp & Hj)%past_split & Hac). pose proof (step_gen _ _ _ _ _ Hst) as Eg.
  assert (j_gen (w_job w) <= g_dns_gen (y_dns y)) as Hjw by (rewrite Forall_forall in Hj; apply Hj; by eapply list_elem_of_lookup_2).
  assert (Forall (fun w => j_gen (w_job w) <= g_dns_gen s') (<[i := w']> (y_ws y))) as Hj'
    by (rewrite Eg; apply Forall_insert; [done|]; by rewrite (step_job _ _ _ _ _ Hst)).
  enough (exists Q, held s' Q /\ past_s s' Q /\ (y_pend y <> Some Q_reset -> accounted s' Q)) as (Q' & H1 & H2 & H3).
  { exists Q'. split; [done|]. split; [|done]. apply past_split. cbn [y_dns y_asked y_ws]. by rewrite Eg in *. }
  destruct (step_rest _ _ _ _ _ Hst) as [((E1 & E2 & E3 & E4) & _)|(a & _ & _ & ->)].
  - exists Q. unfold held, past_s, accounted. by rewrite E1, E2, E3, E4, Eg.
  - destruct (push_past (y_dns y) (j_gen (w_job w)) (j_flow (w_job w)) a (j_port (w_job w)) Q HQ Hp Hjw) as (Q' & H1 & H2 & H3). exists Q'. auto.
Qed.

Lemma worker_inv : dinv (mk_sys s' (<[i := w']> (y_ws y)) (y_asked y) (y_run y) (y_pend y)).
Proof.
  split; cbn [y_dns y_ws y_asked y_run y_pend].
  - apply worker_base, Hi.
  - apply worker_ring.
  - apply worker_one.
  - apply worker_wait.
  - apply worker_unsent.
  - apply worker_pend.
  - apply worker_sum.
Qed.

End WorkerStep.

Ltac ys := unfold with_pend, with_dns; cbn [y_dns y_ws y_asked y_run y_pend].

(** The table and the threads' part: only a started thread and a freed or cleared entry matter. *)
Lemma base_same y s asked run p :
  base y -> g_dns_wait s = g_dns_wait (y_dns y) -> g_dns_wait_n s = g_dns_wait_n (y_dns y) ->
  g_dns_local_inflight s = g_dns_local_inflight (y_dns y) -> base (mk_sys s (y_ws y) asked run p).
Proof. intros [H1 H2 H3 H4] E1 E2 E3. split; cbn [y_dns y_ws]; by rewrite ?E1, ?E2, ?E3. Qed.

Lemma base_start y w asked p : base y -> w_pc w = P_start -> base (mk_sys (y_dns y) (y_ws y ++ [w]) asked (y_run y) p).
Proof.
  intros [H1 H2 H3 H4] Hw. split; cbn [y_dns y_ws]; try done.
  - rewrite cnt_app, cnt_cons. unfold resolving at 2. rewrite Hw. cbn. by rewrite Nat.add_0_r.
  - intros k Hx. destruct (H4 k Hx) as (j & v & Hv & Hrest). exists j, v. split; [|done]. by apply lookup_app_l_Some.
Qed.

Lemma freed_entry s slot k :
  dw_in_use (nth k (g_dns_wait (free_slot s slot)) wait0) = true ->
  nth k (g_dns_wait (free_slot s slot)) wait0 = nth k (g_dns_wait s) wait0 /\ k <> slot.
Proof.
  cbn [g_dns_wait free_slot set_waits]. rewrite nth_insert. destruct (decide _) as [[-> _]|Hne]; [done|].
  intros Hin. split; [done|]. intros ->. apply Hne. split; [done|]. by apply in_table.
Qed.

Lemma base_free y slot sp id p : base y -> mine (y_dns y) slot sp id = true -> base (mk_sys (free_slot (y_dns y) slot) (y_ws y) (y_asked y) (y_run y) p).
Proof.
  intros [H1 H2 H3 H4] Hm. split; cbn [y_dns y_ws].
  - cbn. by rewrite length_insert.
  - exact (free_count _ _ _ _ Hm H2).
  - done.
  - intros k. cbv zeta. intros Hin. destruct (freed_entry _ _ _ Hin) as [E _]. rewrite E in *. by apply H4.
Qed.

Lemma unused_table (l : list DnsWait) k : dw_in_use (nth k (unuse <$> l) wait0) = false.
Proof. rewrite nth_lookup, list_lookup_fmap. by destruct (l !! k). Qed.

Lemma base_reset y : base y -> base (mk_sys (reset_table (y_dns y)) (y_ws y) (y_asked y) true None).
Proof.
  intros [H1 H2 H3 H4]. split; cbn [y_dns y_ws].
  - cbn. by rewrite length_fmap.
  - cbn [reset_table g_dns_wait g_dns_wait_n set_gen set_waits]. clear. induction (g_dns_wait (y_dns y)); [done|]. cbn [fmap list_fmap]. by rewrite cnt_cons.
  - done.
  - intros k. cbv zeta. cbn [reset_table g_dns_wait set_gen set_waits]. by rewrite unused_table.
Qed.

Lemma spawn_one_base flow port domain nq y x p : base y -> base (with_pend (spawn_one flow port domain nq y x) p).
Proof.
  intros Hb. unfold spawn_one. destruct x as [qt ev]. cbn [snd fst].
  destruct ev; [by ys; apply base_same| |]; destruct (_ >? _); ys; by apply base_same || by apply base_start.
Qed.

(** A drain changes the ring only, and a new server the address only. *)
Lemma drain_rest s max s' out : dns_drain s max = Ret (s', out) ->
  g_dns_wait s' = g_dns_wait s /\ g_dns_wait_n s' = g_dns_wait_n s /\ g_dns_local_inflight s' = g_dns_local_inflight s.
Proof. unfold dns_drain. destruct (drain_loop _ _ _ _ _ _) as [[o hd]|]; cbn [rbind]; [|done]. by intros [= <- <-]. Qed.

Lemma server_only s ip : exists v, dns_set_server s ip = set_server s v.
Proof. unfold dns_set_server. repeat case_match; eauto. Qed.

Lemma step_base y y' : sys_step y y' -> base y -> base y'.
Proof.
  intros [y0 i w e s' w' H1 H2|y0 v6 flow port domain evs H1 H2 H3|y0 flow port domain nq x todo H1|y0 flow port domain nq H1|y0 ip pkt v H1 H2 H3 H4
    |y0 slot x a H1|y0 flow port a H1|y0 max s' out H1 H2|y0 H1|y0 ip H1|y0 H1|y0 H1] Hb; try (ys; by apply base_same).
  - by eapply worker_base.
  - by apply spawn_one_base.
  - destruct v; [done|ys; by apply base_same..].
  - unfold dns_consume_answer. destruct (mine _ _ _ _) eqn:Hm; ys; [by eapply base_free|by apply base_same].
  - destruct (drain_rest _ _ _ _ H2) as (E1 & E2 & E3). ys. by apply base_same.
  - destruct (server_only (y_dns y0) ip) as [v ->]. ys. by apply base_same.
  - by apply base_reset.
Qed.

(** A refused lookup is asked for and answered at once. *)
Lemma refuse_inv y flow port p :
  dinv y -> p <> Some Q_reset -> y_pend y <> Some Q_reset -> (forall slot x a, p <> Some (Q_answer slot x a)) -> (forall fid, due p fid = due (y_pend y) fid) ->
  dinv (mk_sys (dns_push_g (y_dns y) (g_dns_gen (y_dns y)) flow None port) (y_ws y) (y_asked y ++ [(g_dns_gen (y_dns y), flow)]) (y_run y) p).
Proof.
  intros [Hb (Q & HQ & (Hg & Ha & Hp & Hj)%past_split & Hac) Ho Hw Hu Hpe Hs] Hp1 Hp2 Hp3 Hd. split; cbn [y_dns y_ws y_asked y_run y_pend]; try done.
  - by apply base_same.
  - destruct (push_past (y_dns y) (g_dns_gen (y_dns y)) flow None port Q HQ Hp ltac:(lia)) as (Q' & H1 & H2 & H3). exists Q'. split; [done|].
    split; [|auto]. apply past_split. cbn [y_dns y_asked y_ws]. split; [done|]. split; [|done]. apply Forall_app. split; [done|]. repeat constructor. cbn. lia.
  - intros slot x a i w E. by apply Hp3 in E.
  - intros fid. specialize (Hs fid). change (g_dns_gen (dns_push_g _ _ _ _ _)) with (g_dns_gen (y_dns y)). cbn [dns_push_g d_hist set_hist t_pushed].
    rewrite !cnt_pair_snoc, Hd. change (cnt (owed _ fid) (y_ws y)) with (cnt (owed (y_dns y) fid) (y_ws y)). lia.
Qed.

Lemma start_inv y flow port domain qt p (n := mk_worker (mk_job flow port domain (g_dns_gen (y_dns y)) qt) P_start) :
  dinv y -> y_pend y <> Some Q_reset -> (forall slot x a, p <> Some (Q_answer slot x a)) -> (forall fid, due p fid = due (y_pend y) fid) ->
  dinv (mk_sys (y_dns y) (y_ws y ++ [n]) (y_asked y ++ [(g_dns_gen (y_dns y), flow)]) (y_run y) p).
Proof.
  intros [Hb (Q & HQ & (Hg & Ha & Hp & Hj)%past_split & Hac) Ho Hw Hu Hpe Hs] Hp2 Hp3 Hd.
  assert (forall j v, (y_ws y ++ [n]) !! j = Some v -> y_ws y !! j = Some v \/ v = n) as Hin.
  { intros j v Hv. apply lookup_app_Some in Hv as [?|[_ Hv]]; [by left|]. right. apply list_lookup_singleton_Some in Hv as [_ <-]. done. }
  split; cbn [y_dns y_ws y_asked y_run y_pend]; try done.
  - by apply base_start.
  - exists Q. split; [done|]. split; [|auto]. apply past_split. cbn [y_dns y_asked y_ws]. split; [done|]. split; [|split; [done|]];
      (apply Forall_app; split; [done|]; repeat constructor; cbn; lia).
  - intros j1 j2 v1 v2 k H1 H2 K1 K2. destruct (Hin _ _ H1) as [G1| ->]; [|done]. destruct (Hin _ _ H2) as [G2| ->]; [|done]. by eapply Ho.
  - intros j v k sp id Hrun Hv. destruct (Hin _ _ Hv) as [G| ->]; [|done]. by apply Hw with (i := j).
  - intros j v k sp id Hv. destruct (Hin _ _ Hv) as [G| ->]; [|done]. by apply Hu with (i := j).
  - intros slot x a i w E. by apply Hp3 in E.
  - intros fid. specialize (Hs fid). rewrite cnt_pair_snoc, cnt_app, cnt_cons, Hd. unfold owed at 2. cbn [n w_job j_gen j_flow owes w_pc].
    change (cnt (owed (y_dns y) fid) []) with 0%nat. unfold is_pair at 2. cbn [fst snd]. unfold owes. cbn [w_pc]. rewrite andb_true_r. lia.
Qed.

Lemma spawn_one_inv flow port domain nq y x todo :
  dinv y -> y_pend y = Some (Q_spawn flow port domain nq (x :: todo)) ->
  dinv (with_pend (spawn_one flow port domain nq y x) (Some (Q_spawn flow port domain nq todo))).
Proof.
  intros Hi Hp. unfold spawn_one. destruct x as [qt ev]. cbn [snd fst].
  destruct ev; [ys; apply refuse_inv; rewrite ?Hp; done| |]; destruct (_ >? _); ys; (apply refuse_inv || apply start_inv); rewrite ?Hp; done.
Qed.

(** The loop's own position alone. *)
Lemma pend_inv y p :
  dinv y -> y_pend y <> Some Q_reset -> (forall fid, due p fid = due (y_pend y) fid) ->
  (forall slot x a i w, p = Some (Q_answer slot x a) -> y_ws y !! i = Some w -> holds (w_pc w) = Some (slot, dw_sport x, dw_id x) ->
     waiting (w_pc w) = true /\ j_flow (w_job w) = dw_flow x /\ y_run y = true) ->
  dinv (with_pend y p).
Proof.
  intros [Hb (Q & HQ & Hpa & Hac) Ho Hw Hu Hpe Hs] Hp Hd Han. split; ys; try done.
  - by apply base_same.
  - exists Q. split; [done|]. split; [|auto]. apply past_split in Hpa. by apply past_split.
  - intros fid. rewrite Hd. apply Hs.
Qed.

Lemma packet_inv y ip pkt slot a (x := nth slot (g_dns_wait (y_dns y)) wait0) :
  dinv y -> y_run y = true -> y_pend y = None -> bytes_ok pkt ->
  dns_judge (g_dns_server_ip4 (y_dns y)) ip (g_dns_wait_n (y_dns y)) (g_dns_wait (y_dns y)) pkt = Ret (V_answer slot a) ->
  (forall j w, y_ws y !! j = Some w -> holds (w_pc w) = Some (slot, dw_sport x, dw_id x) -> waiting (w_pc w) = true) ->
  dinv (with_pend y (Some (Q_answer slot x a))).
Proof.
  intros Hi Hrun Hp Hb Hj Hsent. destruct (judge_sound (g_dns_server_ip4 (y_dns y)) ip (g_dns_wait_n (y_dns y)) (g_dns_wait (y_dns y)) pkt Hb) as (v & Ev & Hv).
  rewrite Hj in Ev. injection Ev as <-. destruct Hv as (_ & w & (Hw & Hu & _) & _). pose proof (nth_lookup_Some _ _ wait0 _ Hw) as Ex.
  destruct (bi_owner y (di_base y Hi) slot) as (i & o & Ho & Hh & Hf); [by rewrite Ex|]. fold x in Hh, Hf.
  apply pend_inv; rewrite ?Hp; try done. intros sl x' a' j v [= <- <- <-] Hvj Hkey. assert (j = i) as -> by (by eapply (di_one y Hi)).
  assert (v = o) as -> by congruence. split; [by eapply Hsent|done].
Qed.

Lemma mine_used s k sp id : dw_in_use (nth k (g_dns_wait s) wait0) = false -> mine s k sp id = false.
Proof. unfold mine, matches. by intros ->. Qed.

(** The debt of the thread whose entry is freed passes to the event loop. *)
Lemma freed_sum y slot x i w fid :
  dinv y -> y_ws y !! i = Some w -> holds (w_pc w) = Some (slot, dw_sport x, dw_id x) -> waiting (w_pc w) = true -> mine (y_dns y) slot (dw_sport x) (dw_id x) = true ->
  j_gen (w_job w) = g_dns_gen (y_dns y) -> j_flow (w_job w) = dw_flow x ->
  (cnt (owed (free_slot (y_dns y) slot) fid) (y_ws y) + b2n (dw_flow x =? fid)%Z = cnt (owed (y_dns y) fid) (y_ws y))%nat.
Proof.
  intros Hi Hw Hh Hwt Hm Hg Hf. set (s1 := free_slot (y_dns y) slot).
  pose proof (cnt_insert (owed (y_dns y) fid) (owed s1 fid) (y_ws y) i w w Hw) as Hc. rewrite list_insert_id in Hc by done.
  assert (owed (y_dns y) fid w = (dw_flow x =? fid)) as E1.
  { unfold owed, owes. rewrite Hg, Hf, Z.eqb_refl. destruct (w_pc w); try done. cbn in Hh. injection Hh as -> -> ->. by rewrite Hm, andb_true_r. }
  assert (owed s1 fid w = false) as E2.
  { unfold owed, owes. destruct (w_pc w); try done. cbn in Hh. injection Hh as -> -> ->. rewrite (mine_used s1 slot); [by rewrite andb_false_r|].
    destruct (dw_in_use (nth slot (g_dns_wait s1) wait0)) eqn:E; [|done]. by destruct (freed_entry _ _ _ E). }
  rewrite E1, E2 in Hc. cbn [b2n] in Hc. rewrite Nat.add_0_r in Hc. apply Hc. intros j v Hji Hv. apply owed_other; [done|].
  intros k sp id Hkv. apply mine_free with (sp0 := dw_sport x) (id0 := dw_id x); [done|]. intros [= -> -> ->]. apply Hji. by eapply (di_one y Hi).
Qed.

Lemma consume_inv y slot x a :
  dinv y -> y_pend y = Some (Q_answer slot x a) -> dinv (let (s, p) := dns_consume_answer (y_dns y) slot x a in with_pend (with_dns y s) p).
Proof.
  intros Hi Hp. unfold dns_consume_answer. destruct (mine (y_dns y) slot (dw_sport x) (dw_id x)) eqn:Hm.
  2: { change (with_pend (with_dns y (y_dns y)) None) with (with_pend y None). apply pend_inv; rewrite ?Hp; done. }
  destruct (mine_fields _ _ _ _ Hm) as (Hu0 & Es & Ei). destruct (bi_owner y (di_base y Hi) slot Hu0) as (i & w & Hiw & Hh & _). rewrite Es, Ei in Hh.
  destruct (di_pend y Hi _ _ _ _ _ Hp Hiw Hh) as (Hwt & Hfl & Hrun). pose proof (di_wait y Hi _ _ _ _ _ Hrun Hiw Hwt Hh Hm) as Hgen.
  split; ys.
  - apply (base_free y slot _ _ (Some (Q_push (dw_flow x) (dw_port x) a)) (di_base y Hi) Hm).
  - destruct (di_ring y Hi) as (Q & HQ & Hpa & Hac). exists Q. split; [done|]. split; [|intros _; apply Hac; by rewrite Hp].
    apply past_split in Hpa. by apply past_split.
  - apply (di_one y Hi).
  - intros j v k sp id Hr Hv H1 H2 H3. eapply (di_wait y Hi j v k sp id Hr Hv H1 H2). destruct (mine_fields _ _ _ _ H3) as (Hin & <- & <-).
    destruct (freed_entry _ _ _ Hin) as [E _]. rewrite E in *. by apply mine_true.
  - intros j v k sp id Hv H1 H2 H3. rewrite (mine_free _ _ _ _ _ _ _ Hm); [by eapply (di_unsent y Hi)|]. intros [= -> -> ->].
    assert (j = i) as -> by (by eapply (di_one y Hi)). assert (v = w) as -> by congruence. by destruct (w_pc w).
  - done.
  - intros fid. pose proof (di_sum y Hi fid) as Hs. pose proof (freed_sum y slot x i w fid Hi Hiw Hh Hwt Hm Hgen Hfl) as Hf. rewrite Hp in Hs.
    cbn [due b2n] in *. change (g_dns_gen (free_slot _ _)) with (g_dns_gen (y_dns y)). change (d_hist (free_slot _ _)) with (d_hist (y_dns y)). lia.
Qed.

(** The result of the answer is pushed. *)
Lemma push_inv y flow port a :
  dinv y -> y_pend y = Some (Q_push flow port a) ->
  dinv (with_pend (with_dns y (dns_push_g (y_dns y) (g_dns_gen (y_dns y)) flow (Some a) port)) None).
Proof.
  intros [Hb (Q & HQ & (Hg & Ha & Hp & Hj)%past_split & Hac) Ho Hw Hu Hpe Hs] Hpp. split; ys; try done.
  - by apply base_same.
  - destruct (push_past (y_dns y) (g_dns_gen (y_dns y)) flow (Some a) port Q HQ Hp ltac:(lia)) as (Q' & H1 & H2 & H3). exists Q'. split; [done|].
    split; [by apply past_split|]. intros _. apply H3, Hac. by rewrite Hpp.
  - intros fid. specialize (Hs fid). rewrite Hpp in Hs. change (g_dns_gen (dns_push_g _ _ _ _ _)) with (g_dns_gen (y_dns y)).
    cbn [dns_push_g d_hist set_hist t_pushed due] in *. rewrite cnt_pair_snoc. change (cnt (owed _ fid) (y_ws y)) with (cnt (owed (y_dns y) fid) (y_ws y)) at 1.
    unfold is_pair at 3. cbn [fst snd]. rewrite Z.eqb_refl. cbn [andb b2n]. lia.
Qed.

Lemma drain_inv y max s' out : dinv y -> y_pend y = None -> dns_drain (y_dns y) max = Ret (s', out) -> dinv (with_dns y s').
Proof.
  intros [Hb (Q & HQ & (Hg & Ha & (P1 & P2 & P3) & Hj)%past_split & Hac) Ho Hw Hu Hpe Hs] Hp Hd.
  destruct (drain_rest _ _ _ _ Hd) as (E1 & E2 & E3). pose proof (base_same y s' (y_asked y) (y_run y) (y_pend y) Hb E1 E2 E3) as Hb'.
  destruct (dns_drain_ring _ max Q HQ) as (hd & E & HQ'). rewrite E in Hd. injection Hd as <- <-. split; try done.
  eexists. split; [exact HQ'|]. apply Forall_app in P3 as [P3 P4]. destruct (drain_within _ Q (g_dns_gen (y_dns y)) max P3) as [D1 D2]. split.
  - apply past_split. cbn [with_dns y_dns y_asked y_ws]. split; [done|]. split; [done|]. split; [|done]. split; [done|].
    cbn [d_hist set_hist t_taken t_lost]. by rewrite !Forall_app.
  - intros _ fid. specialize (Hac ltac:(by rewrite Hp) fid). cbv zeta in *. cbn [with_dns y_dns d_hist set_hist t_pushed t_taken t_lost].
    rewrite cnt_app. pose proof (drain_keeps Q (g_dns_gen (y_dns y)) max fid) as Hk. cbv zeta in Hk.
    change (g_dns_gen (set_hist _ _)) with (g_dns_gen (y_dns y)). lia.
Qed.

Lemma server_inv y ip : dinv y -> dinv (with_dns y (dns_set_server (y_dns y) ip)).
Proof.
  intros [Hb (Q & HQ & Hpa%past_split & Hac) Ho Hw Hu Hpe Hs]. destruct (server_only (y_dns y) ip) as [v ->]. split; try done; [by apply base_same|].
  exists Q. split; [done|]. split; [by apply past_split|done].
Qed.

(** ** The session ends, and another one begins *)

Lemma new_gen (g g' : Z) (fid : Z) (l : list (Z * Z)) : g < g' -> Forall (fun x => x.1 <= g) l -> cnt (is_pair g' fid) l = 0%nat.
Proof.
  intros Hg Hl. induction Hl as [|x l Hx Hl IH]; [done|]. rewrite cnt_cons, IH. unfold is_pair. replace (x.1 =? g') with false by lia. done.
Qed.

Lemma new_gen_owed s g (fid : Z) (ws : list worker) : g < g_dns_gen s -> Forall (fun w => j_gen (w_job w) <= g) ws -> cnt (owed s fid) ws = 0%nat.
Proof.
  intros Hg Hl. induction Hl as [|w ws Hx Hl IH]; [done|]. rewrite cnt_cons, IH. unfold owed. by replace (_ =? g_dns_gen s) with false by lia.
Qed.

(** A counter that does not go back has gone up by one. *)
Lemma next_gen g : 0 <= g < 2 ^ 32 -> g <= u32 (g + 1) -> u32 (g + 1) = g + 1 /\ g + 1 < 2 ^ 32.
Proof.
  intros Hg Hle. destruct (decide (g + 1 < 2 ^ 32)) as [Hlt|Hge]; [split; [apply u32_small; lia|done]|].
  assert (g + 1 = 2 ^ 32) as E by lia. rewrite E in Hle. change (u32 (2 ^ 32)) with 0 in Hle. lia.
Qed.

(** Nothing belongs to the session that begins. *)
Lemma gen_ring y s run (Q Q' : list entry) :
  past y Q -> (forall P : Z * Z -> Prop, Forall P (tag <$> Q) -> Forall P (tag <$> Q')) -> d_hist s = d_hist (y_dns y) -> g_dns_gen s = g_dns_gen (y_dns y) + 1 -> g_dns_gen s < 2 ^ 32 ->
  past (mk_sys s (y_ws y) (y_asked y) run None) Q' /\ accounted s Q' /\
  (forall fid, cnt (is_pair (g_dns_gen s) fid) (y_asked y) = 0%nat /\ cnt (is_pair (g_dns_gen s) fid) (t_pushed (d_hist s)) = 0%nat /\ cnt (owed s fid) (y_ws y) = 0%nat) /\
  (forall i w, y_ws y !! i = Some w -> j_gen (w_job w) <> g_dns_gen s).
Proof.
  intros [H1 H2 H3 H4 H5 H6 H7] HQ Eh Eg Hlt. apply HQ in H6. rewrite <- Eh in *. set (g := g_dns_gen (y_dns y)) in *.
  assert (forall l : list (Z * Z), Forall (fun x => x.1 <= g) l -> Forall (fun x => x.1 <= g_dns_gen s) l) as Hup
    by (intros l Hl; eapply Forall_impl; [exact Hl|]; cbn beta; intros; lia).
  assert (forall fid (l : list (Z * Z)), Forall (fun x => x.1 <= g) l -> cnt (is_pair (g_dns_gen s) fid) l = 0%nat) as H0 by (intros; apply (new_gen g); [lia|done]).
  split; [|split; [|split]].
  - split; cbn [y_dns y_asked y_ws]; auto; [lia|]. eapply Forall_impl; [exact H7|]. cbn beta. intros; lia.
  - intros fid. cbv zeta. by rewrite !H0.
  - intros fid. split; [by apply H0|]. split; [by apply H0|]. apply (new_gen_owed s g); [lia|done].
  - intros i w Hw. rewrite Forall_forall in H7. pose proof (H7 w (list_elem_of_lookup_2 _ _ _ Hw)) as G. cbv beta in G. lia.
Qed.

Lemma stop_inv y : dinv y -> y_pend y = None -> g_dns_gen (y_dns y) <= u32 (g_dns_gen (y_dns y) + 1) ->
  dinv (mk_sys (dns_stop (y_dns y)) (y_ws y) (y_asked y) false None).
Proof.
  intros [Hb (Q & HQ & Hpa & Hac) Ho Hw Hu Hpe Hs] Hp Hle. destruct (next_gen _ (pa_gen _ _ Hpa) Hle) as [Eg Hlt].
  destruct (gen_ring y (dns_stop (y_dns y)) false Q Q Hpa) as (G1 & G2 & G3 & G4); try done; [by cbn; rewrite Eg|].
  split; cbn [y_dns y_ws y_asked y_run y_pend]; try done.
  - by apply base_same.
  - by exists Q.
  - intros i w k sp id H1 _ _ H2. by destruct (G4 i w H1).
  - intros fid. destruct (G3 fid) as (-> & -> & ->). done.
Qed.

Lemma reset_ring_inv y : dinv y -> y_pend y = None -> dinv (with_pend (with_dns y (reset_ring (y_dns y))) (Some Q_reset)).
Proof.
  intros [Hb (Q & HQ & (Hg & Ha & (P1 & P2 & P3) & Hj)%past_split & Hac) Ho Hw Hu Hpe Hs] Hp. split; ys; try done.
  - by apply base_same.
  - exists []. split; [destruct HQ; split; try done; apply len_pos|]. split; [|done]. apply past_split. split; [done|]. split; [done|]. split; [|done].
    apply Forall_app in P3 as [_ P3]. done.
  - intros fid. specialize (Hs fid). by rewrite Hp in Hs.
Qed.

Lemma reset_table_inv y : dinv y -> g_dns_gen (y_dns y) <= u32 (g_dns_gen (y_dns y) + 1) ->
  dinv (mk_sys (reset_table (y_dns y)) (y_ws y) (y_asked y) true None).
Proof.
  intros [Hb (Q & HQ & Hpa & Hac) Ho Hw Hu Hpe Hs] Hle. destruct (next_gen _ (pa_gen _ _ Hpa) Hle) as [Eg Hlt].
  destruct (gen_ring y (reset_table (y_dns y)) true Q Q Hpa) as (G1 & G2 & G3 & G4); try done; [by cbn; rewrite Eg|].
  split; cbn [y_dns y_ws y_asked y_run y_pend]; try done.
  - by apply base_reset.
  - by exists Q.
  - intros i w k sp id _ Hv H1 H2 H3. destruct (mine_fields _ _ _ _ H3) as (H4 & _). cbn [reset_table g_dns_wait set_gen set_waits] in H4. by rewrite unused_table in H4.
  - intros i w k sp id H1 _ _ H2. by destruct (G4 i w H1).
  - intros fid. destruct (G3 fid) as (-> & -> & ->). done.
Qed.

Lemma dns_step_inv y y' : sys_step y y' -> expected y y' -> dinv y -> dinv y'.
Proof.
  intros [y0 i w e s' w' H1 H2|y0 v6 flow port domain evs H1 H2 H3|y0 flow port domain nq x todo H1|y0 flow port domain nq H1|y0 ip pkt v H1 H2 H3 H4
    |y0 slot x a H1|y0 flow port a H1|y0 max s' out H1 H2|y0 H1|y0 ip H1|y0 H1|y0 H1] [Xn Xs Xg] Hi.
  - eapply worker_inv; try done. intros k sp id Ha Hb. apply (Xn i w w'); try done. by apply (self_in_step y0 i w w').
  - apply pend_inv; rewrite ?H2; done.
  - by apply spawn_one_inv.
  - apply pend_inv; rewrite ?H1; done.
  - destruct v as [| |slot a]; [done| |].
    + destruct Hi as [Hb (Q & HQ & Hpa%past_split & Hac) Ho Hw Hu Hpe Hs]. split; try done; [by apply base_same|]. exists Q. split; [done|]. split; [by apply past_split|done].
    + eapply packet_inv; [done|done|done|exact H3|exact H4|]. intros j w Hj Hk. by apply (Xs slot (nth slot (g_dns_wait (y_dns y0)) wait0) a j w).
  - by apply consume_inv.
  - by apply push_inv.
  - by eapply drain_inv.
  - by apply stop_inv.
  - by apply server_inv.
  - by apply reset_ring_inv.
  - by apply reset_table_inv.
Qed.

Lemma base0 : base sys0.
Proof.
  split; cbn [y_dns y_ws sys0]; try done.
  intros k. cbv zeta. cbn [dns0 g_dns_wait]. rewrite nth_lookup. by destruct (replicate DNS_WAIT_MAX wait0 !! k) as [x|] eqn:E; [apply lookup_replicate in E as [-> _]|].
Qed.

Lemma reachable_base y : reachable_dns y -> base y.
Proof.
  assert (forall y y', rtc sys_step y y' -> base y -> base y') as Hrtc by (induction 1; [done|]; intros; eauto using step_base).
  intros Hr. eapply Hrtc; [exact Hr|]. apply base0.
Qed.

Lemma expected_dinv y : expected_dns y -> dinv y.
Proof.
  assert (forall y y', rtc (fun a b => sys_step a b /\ expected a b) y y' -> dinv y -> dinv y') as Hrtc
    by (induction 1 as [|? ? ? []]; [done|]; intros; eauto using dns_step_inv).
  intros Hr. eapply Hrtc; [exact Hr|]. clear. split; cbn [y_dns y_ws y_asked y_run y_pend sys0]; try done; [apply base0|].
  exists []. split; [split; try done; apply len_pos || apply length_replicate|]. split; [|done]. by apply past_split.
Qed.

(** ** Every lookup gives one result *)

(** The steps left to a thread before it is done. *)
Definition rank (p : wpc) : nat :=
  match p with
  | P_done => 0
  | P_push _ => 1
  | P_fail _ | P_resolved _ => 2
  | P_wait _ _ _ _ _ | P_resolving => 3
  | P_send _ _ _ _ | P_local => 4
  | P_snapshot _ _ _ _ => 5
  | P_insert _ _ _ => 6
  | P_register _ _ _ => 7
  | P_sport _ _ => 8
  | P_tunnel => 9
  | P_server => 10
  | P_start => 11
  end%nat.

(** The thread waits for an answer to its registered query and the time is not up. *)
Definition may_wait (e : wenv) (s : dns) (w : worker) : Prop :=
  exists slot id sport out ls,
    w_pc w = P_wait slot id sport out ls /\ mine s slot sport id = true /\ j_gen (w_job w) = g_dns_gen s /\
    v_now e < dw_deadline (nth slot (g_dns_wait s) wait0).

Lemma worker_progress e s w : w_pc w <> P_done -> (rank (w_pc (worker_step e s w).2) < rank (w_pc w))%nat \/ may_wait e s w.
Proof.
  intros Hd. unfold worker_step. destruct (w_pc w) as [| | | |a| |id q|id sport q|id sport q|slot id sport q|slot id sport out|slot id sport out ls|[[[k sp] i]|]|a|] eqn:Ep;
    try done; try (left; repeat case_match; cbn; lia).
  destruct (dns_stale s (w_job w)) eqn:Es; [left; cbn; lia|]. destruct (mine s slot sport id) eqn:Em; [|left; cbn; lia]. cbn [negb].
  destruct (v_now e >=? _) eqn:Et; [left; cbn; lia|]. right. exists slot, id, sport, out, ls. unfold dns_stale in Es.
  apply negb_false_iff, Z.eqb_eq in Es. split_and!; done || lia.
Qed.

(** C20: The resolver threads and the event loop, any interleaving of their lock sections.  In
    every run the table of outstanding queries counts its entries exactly, every entry is held
    by a thread, at most eight threads are in the system resolver, and each step of a thread
    brings it closer to its end, except waiting for an answer before the query's deadline.
    In a run that is [expected] (no thread is given the slot, port and id of a thread
    that has not yet noticed that its entry in that slot is gone; no answer that passes the checks arrives before
    its query was sent; the 32-bit session counter does not wrap): each entry is held by one
    thread, and for every flow the lookups asked for in the running session are the
    results pushed for it, plus the lookups still owed, each by one thread that is not done, plus the one whose
    answer the event loop is about to push; so no lookup gives two results, an answer that
    races with the timeout included.  The results pushed are those handed out by a drain, those
    waiting in the ring, and those that a push onto a full ring of 512 dropped (except while [dns_reset]
    is between its two lock sections, the ring emptied and the counter not yet advanced). *)
Theorem dns_results_conserved y :
  let s := y_dns y in let g := g_dns_gen s in
  (reachable_dns y ->
     g_dns_wait_n s = Z.of_nat (cnt dw_in_use (g_dns_wait s)) /\
     (forall k, let x := nth k (g_dns_wait s) wait0 in dw_in_use x = true ->
        exists i w, y_ws y !! i = Some w /\ holds (w_pc w) = Some (k, dw_sport x, dw_id x) /\ j_flow (w_job w) = dw_flow x) /\
     Z.of_nat (cnt resolving (y_ws y)) <= DNS_LOCAL_MAX_INFLIGHT /\
     (forall i w e, y_ws y !! i = Some w -> w_pc w <> P_done ->
        (rank (w_pc (worker_step e s w).2) < rank (w_pc w))%nat \/ may_wait e s w)) /\
  (expected_dns y ->
     (forall i j v w h, y_ws y !! i = Some v -> y_ws y !! j = Some w -> holds (w_pc v) = Some h -> holds (w_pc w) = Some h -> i = j) /\
     (forall fid, cnt (is_pair g fid) (y_asked y) =
        (cnt (is_pair g fid) (t_pushed (d_hist s)) + cnt (owed s fid) (y_ws y) + b2n (due (y_pend y) fid))%nat) /\
     (forall fid, y_pend y = None -> (forall w, w ∈ y_ws y -> j_flow (w_job w) = fid -> j_gen (w_job w) = g -> w_pc w = P_done) ->
        cnt (is_pair g fid) (y_asked y) = cnt (is_pair g fid) (t_pushed (d_hist s))) /\
     exists Q, ring (g_dns_q s) (g_dns_hd s) (g_dns_tl s) Q /\
       (y_pend y <> Some Q_reset ->
        forall fid, cnt (is_pair g fid) (t_pushed (d_hist s)) =
          (cnt (is_pair g fid) (t_taken (d_hist s)) + cnt (is_pair g fid) (t_lost (d_hist s)) + cnt (is_pair g fid) (tag <$> Q))%nat)).
Proof.
  cbv zeta. split.
  - intros Hr%reachable_base. split; [apply Hr|]. split; [apply Hr|]. split; [destruct (bi_flight y Hr); lia|]. intros i w e _. apply worker_progress.
  - intros Hr%expected_dinv. pose proof (di_sum y Hr) as Hs. split; [apply Hr|]. split; [done|]. split.
    + intros fid Hp Hd. rewrite Hs, Hp. enough (cnt (owed (y_dns y) fid) (y_ws y) = 0%nat) by (cbn; lia).
      apply cnt_none. intros j z Hj. unfold owed, owes.
      destruct (_ =? _) eqn:E1; [|done]. destruct (j_flow _ =? fid) eqn:E2; [|done].
      rewrite (Hd z) by (lia || by eapply list_elem_of_lookup_2). done.
    + destruct (di_ring y Hr) as (Q & HQ & _ & Hac). by exists Q.
Qed.

(** ** The ring refines a bounded queue *)

Inductive ring_op := O_push (gen flow : Z) (a : option dest) (port : Z) | O_drain (max : nat) | O_stop | O_reset.

Definition ring_run (s : dns) (o : ring_op) : res (dns * list DnsResult) :=
  match o with
  | O_push gen flow a port => Ret (dns_push_g s gen flow a port, [])
  | O_drain max => let! (s, out) := dns_drain s max in Ret (s, result_of <$> out)
  | O_stop => Ret (dns_stop s, [])
  | O_reset => Ret (dns_reset s, [])
  end.

Fixpoint ring_runs (s : dns) (os : list ring_op) : res (list (list DnsResult)) :=
  match os with
  | [] => Ret []
  | o :: os => let! (s, out) := ring_run s o in let! outs := ring_runs s os in Ret (out :: outs)
  end.

(** The queue: the running generation and the results that wait, the oldest first. *)
Definition queue_run (g : Z) (Q : list (Z * DnsResult)) (o : ring_op) : Z * list (Z * DnsResult) * list DnsResult :=
  match o with
  | O_push gen flow a port => (g, push_spec Q (gen, mk_dns flow a port), [])
  | O_drain max => (g, (drain_spec fst Q g max).2, snd <$> (drain_spec fst Q g max).1)
  | O_stop => (u32 (g + 1), Q, [])
  | O_reset => (u32 (g + 1), [], [])
  end.

Fixpoint queue_runs (g : Z) (Q : list (Z * DnsResult)) (os : list ring_op) : list (list DnsResult) :=
  match os with
  | [] => []
  | o :: os => let '(g', Q', out) := queue_run g Q o in out :: queue_runs g' Q' os
  end.

Definition represents (s : dns) (g : Z) (V : list (Z * DnsResult)) : Prop :=
  exists Q, ring (g_dns_q s) (g_dns_hd s) (g_dns_tl s) Q /\ V = view <$> Q /\ g = g_dns_gen s.

Lemma ring_run_sound s g V o :
  represents s g V ->
  exists s', ring_run s o = Ret (s', (queue_run g V o).2) /\ represents s' (queue_run g V o).1.1 (queue_run g V o).1.2.
Proof.
  intros (Q & HQ & -> & ->). destruct o as [gen flow a port|max| |]; cbn [ring_run queue_run fst snd].
  - eexists. split; [done|]. eexists. split; [exact (ring_push _ _ _ Q _ HQ)|]. split; [|done]. by rewrite <- push_spec_map, view_fill.
  - destruct (dns_drain_ring s max Q HQ) as (hd & -> & HQ'). cbn [rbind]. rewrite drain_spec_map. cbn [fst snd]. eexists. split.
    + by rewrite <- list_fmap_compose.
    + by eexists.
  - eexists. split; [done|]. by exists Q.
  - eexists. split; [done|]. exists []. split; [|done]. destruct HQ. split; try done; apply len_pos.
Qed.

(** Any sequence of pushes, drains, session stops and resets on the ring hands out what
    a queue of at most 512 results does: in the order of the pushes, a push onto a full
    queue drops the oldest result, a drain passes over the results of earlier sessions without
    counting them, and a reset empties it. *)
Theorem dns_ring_refines os : ring_runs dns0 os = Ret (queue_runs 1 [] os).
Proof.
  enough (forall s g V, represents s g V -> ring_runs s os = Ret (queue_runs g V os)) as H.
  { apply H. exists []. split; [|done]. split; try done; apply len_pos || apply length_replicate. }
  induction os as [|o os IH]; intros s g V HV; [done|]. cbn [ring_runs queue_runs].
  destruct (ring_run_sound s g V o HV) as (s' & -> & HV'). cbn [rbind]. destruct (queue_run g V o) as [[g' V'] out].
  by rewrite (IH s' g' V' HV').
Qed.

(** ** A run *)

Definition solo (y : sys) (e : wenv) : sys :=
  match y_ws y with
  | [w] => mk_sys (worker_step e (y_dns y) w).1 [(worker_step e (y_dns y) w).2] (y_asked y) (y_run y) (y_pend y)
  | _ => y
  end.

Lemma expected_reachable y : expected_dns y -> reachable_dns y.
Proof. apply rtc_subrel. by intros a b []. Qed.

Lemma solo_expected es y w : y_ws y = [w] -> y_pend y = None -> expected_dns y -> expected_dns (foldl solo y es).
Proof.
  revert y w. induction es as [|e es IH]; intros y w Hw Hp Hr; [done|]. cbn [foldl].
  assert (solo y e = mk_sys (worker_step e (y_dns y) w).1 (<[0%nat := (worker_step e (y_dns y) w).2]> (y_ws y)) (y_asked y) (y_run y) (y_pend y)) as E
    by (unfold solo; by rewrite Hw).
  apply (IH _ (worker_step e (y_dns y) w).2); [by rewrite E, Hw|by rewrite E|]. eapply rtc_r; [exact Hr|]. rewrite E. split.
  - apply Y_worker with w e; [by rewrite Hw|]. by destruct (worker_step e (y_dns y) w).
  - split; cbn [y_dns y_pend].
    + intros i v v' k sp id Hv _ Hh _. rewrite Hp. split; [|done]. rewrite Hw in *. apply list_lookup_singleton_Some in Hv as [_ ->].
      intros j u [_ ->]%list_lookup_singleton_Some. by rewrite Hh.
    + by rewrite Hp.
    + destruct (worker_step e (y_dns y) w) as [s' w'] eqn:Es. cbn [fst]. by rewrite (step_gen _ _ _ _ _ Es).
Qed.

(** A step of the event loop that takes no answer. *)
Lemma loop_expected y y' :
  expected_dns y -> sys_step y y' -> y_ws y `prefix_of` y_ws y' -> (forall slot x a, y_pend y' <> Some (Q_answer slot x a)) ->
  g_dns_gen (y_dns y) <= g_dns_gen (y_dns y') -> expected_dns y'.
Proof.
  intros Hr Hst Hw Hp Hg. eapply rtc_r; [exact Hr|]. split; [done|]. split; [|by intros slot x a j w _ E; apply Hp in E|done].
  intros i w w' k sp id H1 H2 H3 H4. rewrite (prefix_lookup_Some _ _ _ _ H1 Hw) in H2. congruence.
Qed.

Definition demo_env (now : Z) : wenv := mk_wenv now 5 true true false (fun _ => false) 174063618 (fill 0 8) (fill 0 16) [].

(** A lookup through the tunnel whose IPv4 half finds no thread and whose IPv6 half gets no answer. *)
Definition demo_up : sys := mk_sys (dns_set_server (dns_reset dns0) (Some (lit "10.96.0.1"))) [] [] true None.
Definition demo_call : doing := spawn_jobs true (g_dns_server_ip4 (y_dns demo_up)) 3 80 (lit "ab.c") [SE_started; SE_nothread].
Definition demo_first : sys := spawn_one 3 80 (lit "ab.c") 2 (with_pend demo_up (Some demo_call)) (28, SE_started).
Definition demo_left : list (Z * spawn_ev) := [(1, SE_nothread)].
Definition demo_asked : sys := spawn_one 3 80 (lit "ab.c") 2 (with_pend demo_first (Some (Q_spawn 3 80 (lit "ab.c") 2 demo_left))) (1, SE_nothread).

Definition demo_run (n : nat) : sys := foldl solo (with_pend demo_asked None) (replicate n (demo_env 1000) ++ replicate 2 (demo_env 2500)).

Lemma demo_up_expected : expected_dns demo_up.
Proof.
  apply (loop_expected (mk_sys (dns_reset dns0) [] [] true None)); [|by apply (Y_server (mk_sys (dns_reset dns0) [] [] true None))|done|done|vm_compute; done].
  apply (loop_expected (with_pend (with_dns sys0 (reset_ring dns0)) (Some Q_reset))); [|by apply Y_reset_table|done|done|vm_compute; done].
  apply (loop_expected sys0); [apply rtc_refl|by apply Y_reset|done|done|vm_compute; done].
Qed.

Lemma demo_asked_expected : expected_dns (with_pend demo_asked None).
Proof.
  apply (loop_expected (with_pend demo_asked (Some (Q_spawn 3 80 (lit "ab.c") 2 [])))); [|exact (Y_spawn_end (with_pend demo_asked (Some (Q_spawn 3 80 (lit "ab.c") 2 []))) 3 80 (lit "ab.c") 2 eq_refl)|done|done|vm_compute; done].
  apply (loop_expected (with_pend demo_first (Some (Q_spawn 3 80 (lit "ab.c") 2 demo_left)))); [|exact (Y_spawn_one (with_pend demo_first (Some (Q_spawn 3 80 (lit "ab.c") 2 demo_left))) 3 80 (lit "ab.c") 2 (1, SE_nothread) [] eq_refl)|done|done|vm_compute; done].
  apply (loop_expected (with_pend demo_up (Some demo_call))); [|exact (Y_spawn_one (with_pend demo_up (Some demo_call)) 3 80 (lit "ab.c") 2 (28, SE_started) demo_left eq_refl)|by eexists|done|vm_compute; done].
  apply (loop_expected demo_up); [apply demo_up_expected|apply Y_spawn; done || (cbn; lia)|done|done|vm_compute; done].
Qed.

Lemma demo_worker : exists w, y_ws demo_asked = [w].
Proof. eexists. vm_compute. reflexivity. Qed.

Lemma demo_run_expected n : expected_dns (demo_run n).
Proof.
  destruct demo_worker as [w Hw]. apply (solo_expected _ _ w); [exact Hw|vm_compute; reflexivity|apply demo_asked_expected].
Qed.

Lemma dns_results_conserved_witness :
  w_pc <$> y_ws (demo_run 7) <> [P_done] /\ w_pc <$> y_ws (demo_run 10) = [P_done] /\ g_dns_wait_n (y_dns (demo_run 10)) = 0 /\
  cnt (is_pair 2 3) (y_asked (demo_run 10)) = 2%nat /\ cnt (is_pair 2 3) (t_pushed (d_hist (y_dns (demo_run 10)))) = 2%nat.
Proof.
  split; [vm_compute; discriminate|]. split; [vm_compute; reflexivity|].
  destruct (dns_results_conserved (demo_run 10)) as (Hb & He). split; [|split; [vm_compute; reflexivity|]].
  - etransitivity; [exact (proj1 (Hb (expected_reachable _ (demo_run_expected 10))))|]. vm_compute. reflexivity.
  - destruct (He (demo_run_expected 10)) as (_ & _ & H & _).
    transitivity (cnt (is_pair 2 3) (y_asked (demo_run 10))); [|vm_compute; reflexivity].
    symmetry. etransitivity; [|etransitivity; [exact (H 3 ltac:(vm_compute; reflexivity) ltac:(intros w Hw _ _; revert w Hw; apply Forall_forall; vm_compute; repeat constructor))|]]; vm_compute; reflexivity.
Defined.
