(* ===== verification/Json.v ===== *)
(** * JSON texts (src/src/common/json.c)

    The reader of server configurations and identity tokens: the recursive-descent parser
    with its depth limit and error positions, the path lookup, the escaper and the release of
    a tree.  The pointer into the text is the rest of the text; moving it past the terminator
    is a fault.  Memory that cannot be allocated aborts the process and is left out.

    [strtod] rounds the decimal to the nearest double, ties to even, as IEEE 754 does; whether
    a result too small for a normal double also sets [errno] is left to the C library, the
    class [Libc]. *)

From Stdlib Require Import SpecFloat.
From S2P Require Import Prelude Util Crypto.

Import Scan.

Definition JSON_MAX_DEPTH : Z := 256.

#[local] Unset Elimination Schemes.
Inductive Json :=
| J_null
| J_bool (b : bool)
| J_num (d : spec_float)
| J_str (s : bytes)
| J_arr (l : list Json)
| J_obj (l : list (bytes * Json)).
#[local] Set Elimination Schemes.

(** Induction that reaches the values inside arrays and objects. *)
Fixpoint Json_ind (P : Json -> Prop) (H0 : P J_null) (H1 : forall b, P (J_bool b)) (H2 : forall d, P (J_num d)) (H3 : forall s, P (J_str s))
  (H4 : forall l, Forall P l -> P (J_arr l)) (H5 : forall l, Forall (fun x => P x.2) l -> P (J_obj l)) (j : Json) : P j :=
  let F := Json_ind P H0 H1 H2 H3 H4 H5 in
  match j with
  | J_null => H0
  | J_bool b => H1 b
  | J_num d => H2 d
  | J_str s => H3 s
  | J_arr l => H4 l ((fix go l := match l return Forall P l with [] => Forall_nil_2 _ | x :: l => Forall_cons_2 _ _ _ (F x) (go l) end) l)
  | J_obj l => H5 l ((fix go l := match l return Forall (fun x => P x.2) l with [] => Forall_nil_2 _ | x :: l => Forall_cons_2 _ _ _ (F x.2) (go l) end) l)
  end.

(** ** Numbers *)

Class Libc := { erange_tiny : bytes -> bool }.

(** Sign, digits and decimal exponent of a number. *)
Definition num_parts (x : bytes) : bool * Z * Z :=
  let (neg, x) := match x with c :: r => if c =? 45 (* - *) then (true, r) else (false, x) | [] => (false, x) end in
  let (ip, x) := span_digits x in
  let (fp, x) := match x with c :: r => if c =? 46 (* . *) then span_digits r else ([], x) | [] => ([], x) end in
  let e := match x with
           | c :: r =>
               if (c =? 101) || (c =? 69) then
                 let (sg, r) := strtol_sign r in
                 let v := digits_val (span_digits r).1 in if sg then - v else v
               else 0
           | [] => 0
           end in
  (neg, digits_val (ip ++ fp), e - zlen fp).

(** The double nearest to [m * 10 ^ e]. *)
Definition of_decimal (neg : bool) (m e : Z) : spec_float :=
  match m with
  | Zpos p =>
      if e >=? 0 then binary_normalize 53 1024 (if neg then - (m * 10 ^ e) else m * 10 ^ e) 0 neg
      else
        let '(mz, ez, lz) := SFdiv_core_binary 53 1024 m 0 (10 ^ (- e)) 0 in
        binary_round_aux 53 1024 neg mz ez lz
  | _ => S754_zero neg
  end.

(** [None] is [errno == ERANGE]. *)
Definition strtod `{Libc} (x : bytes) : option spec_float :=
  let '(neg, m, e) := num_parts x in
  let d := of_decimal neg m e in
  match d with
  | S754_infinity _ | S754_nan => None
  | S754_zero _ => if negb (m =? 0) && erange_tiny x then None else Some d
  | S754_finite _ p _ => if (Zpos p <? 2 ^ 52) && erange_tiny x then None else Some d
  end.

(** ** The parser *)

(** What a parse function leaves: a value and the rest of the text, or the error text. *)
Inductive pout (A : Type) := P_ok (v : A) (s : bytes) | P_err (e : bytes).
Arguments P_ok {A} v s.
Arguments P_err {A} e.

Definition pbind {A B} (m : res (pout A)) (k : A -> bytes -> res (pout B)) : res (pout B) :=
  let! o := m in match o with P_ok v s => k v s | P_err e => Ret (P_err e) end.

Notation "'let?' v ',' s ':=' m 'in' k" := (pbind m (fun v s => k))
  (at level 10, v name, s name, m at level 100, k at level 200) : iwan_scope.

(** [p->s += k]. *)
Definition adv (s : bytes) (k : Z) : res bytes :=
  if zlen s <? k then Fault OutOfBounds else Ret (drop (Z.to_nat k) s).

(** The line and column loop of [p_fail]; [last] is the index of the last line end. *)
Fixpoint pos_loop (l : bytes) (k line : Z) (last : option Z) : Z * option Z :=
  match l with
  | [] => (line, last)
  | c :: l => if c =? 10 then pos_loop l (k + 1) (line + 1) (Some k) else pos_loop l (k + 1) line last
  end.

Definition p_fail (t s : bytes) (off : Z) (eof : bool) (msg : bytes) : res bytes :=
  let i := if eof then zlen t else zlen t - zlen s + off + 1 in
  let! l := rdn (t ++ [0]) 0 i in
  let (line, last) := pos_loop l 0 1 None in
  let col := match last with None => i | Some k => i - k - 1 end in
  Ret (take 127 (msg ++ lit " at line " ++ dec_str line ++ lit " column " ++ dec_str col)).

Definition fail_at {A} (t s : bytes) (off : Z) (msg : bytes) : res (pout A) :=
  let! e := p_fail t s off false msg in Ret (P_err e).

Definition fail_eof {A} (t s : bytes) (msg : bytes) : res (pout A) :=
  let! e := p_fail t s 0 true msg in Ret (P_err e).

Fixpoint skip_ws (s : bytes) : bytes :=
  match s with c :: r => if isspace c then skip_ws r else s | [] => [] end.

Inductive hex4_result := HEX4_OK (v : Z) | HEX4_EOF | HEX4_BAD.

Fixpoint hex4_loop (n : nat) (s : bytes) (i v : Z) (bad : bool) : res hex4_result :=
  match n with
  | O => Ret (if bad then HEX4_BAD else HEX4_OK v)
  | S n =>
      let! c := rdc s i in
      if c =? 0 then Ret HEX4_EOF
      else if hex_nibble c <? 0 then hex4_loop n s (i + 1) v true
      else hex4_loop n s (i + 1) (Z.lor (u32 (Z.shiftl v 4)) (hex_nibble c)) bad
  end.

(** [hex4(p->s + k)]. *)
Definition hex4 (s : bytes) (k : Z) : res hex4_result := hex4_loop 4 s k 0 false.

Definition utf8_encode (cp : Z) : bytes :=
  if cp <? 128 then [u8 cp]
  else if cp <? 2048 then [u8 (Z.lor 192 (Z.shiftr cp 6)); u8 (Z.lor 128 (Z.land cp 63))]
  else if cp <? 65536 then
    if (55296 <=? cp) && (cp <=? 57343) then [63]
    else [u8 (Z.lor 224 (Z.shiftr cp 12)); u8 (Z.lor 128 (Z.land (Z.shiftr cp 6) 63)); u8 (Z.lor 128 (Z.land cp 63))]
  else [u8 (Z.lor 240 (Z.shiftr cp 18)); u8 (Z.lor 128 (Z.land (Z.shiftr cp 12) 63));
        u8 (Z.lor 128 (Z.land (Z.shiftr cp 6) 63)); u8 (Z.lor 128 (Z.land cp 63))].

(** The one-letter escapes. *)
Definition simple_escape (e : Z) : option Z :=
  if (e =? 34) || (e =? 92) || (e =? 47) then Some e
  else if e =? 98 then Some 8
  else if e =? 102 then Some 12
  else if e =? 110 then Some 10
  else if e =? 114 then Some 13
  else if e =? 116 then Some 9
  else None.

Definition EOF_STR : bytes := lit "EOF while parsing a string".
Definition EOF_VALUE : bytes := lit "EOF while parsing a value".

Definition is_high (cp : Z) : bool := (55296 <=? cp) && (cp <=? 56319).
Definition is_low (cp : Z) : bool := (56320 <=? cp) && (cp <=? 57343).

(** The case of [\u]: the bytes it stands for and the characters it takes. *)
Definition unicode_escape (t s : bytes) : res (pout (bytes * Z)) :=
  let! r := hex4 s 2 in
  match r with
  | HEX4_EOF => fail_eof t s EOF_STR
  | HEX4_BAD => fail_at t s 5 (lit "invalid escape")
  | HEX4_OK cp =>
      if cp =? 0 then fail_at t s 5 (lit "NUL escape (\u0000) is not allowed")
      else
        let! two := (if is_high cp then let! c6 := rdc s 6 in if c6 =? 92 then let! c7 := rdc s 7 in Ret (c7 =? 117) else Ret false else Ret false) in
        if two then
          let! lr := hex4 s 8 in
          match lr with
          | HEX4_EOF => fail_eof t s EOF_STR
          | HEX4_OK lo =>
              if is_low lo then Ret (P_ok (utf8_encode (65536 + Z.shiftl (cp - 55296) 10 + (lo - 56320)), 12) s)
              else Ret (P_ok (utf8_encode cp, 6) s)
          | HEX4_BAD => Ret (P_ok (utf8_encode cp, 6) s)
          end
        else Ret (P_ok (utf8_encode cp, 6) s)
  end.

(** The loop of [parse_string]: the bytes of the string from here on. *)
Fixpoint string_loop (fuel : nat) (t s : bytes) : res (pout bytes) :=
  match fuel with
  | O => Fault OutOfFuel
  | S fuel =>
      let append b k := let! s' := adv s k in let? v, r := string_loop fuel t s' in Ret (P_ok (b ++ v) r) in
      let! c := rdc s 0 in
      if c =? 0 then fail_eof t s EOF_STR
      else if c =? 34 then let! s := adv s 1 in Ret (P_ok [] s)
      else if c =? 92 then
        let! e := rdc s 1 in
        match simple_escape e with
        | Some m => append [m] 2
        | None =>
            if e =? 117 then let? bk, _s := unicode_escape t s in append bk.1 bk.2
            else if e =? 0 then fail_eof t s EOF_STR
            else fail_at t s 1 (lit "invalid escape")
        end
      else if c <? 32 then fail_at t s 0 (lit "control character (\u0000-\u001F) found while parsing a string")
      else append [c] 1
  end.

Definition parse_string (t s : bytes) : res (pout bytes) :=
  let! s := adv s 1 in string_loop (S (length s)) t s.

Definition skip_digits (s : bytes) : bytes := (span_digits s).2.

Definition BAD_NUMBER : bytes := lit "invalid number".
Definition OUT_OF_RANGE : bytes := lit "number out of range".

(** The test before a run of digits that must not be empty. *)
Definition need_digit (t s : bytes) : res (pout unit) :=
  let! c := rdc s 0 in
  if c =? 0 then fail_eof t s EOF_VALUE
  else if isdigit c then Ret (P_ok tt s) else fail_at t s 0 BAD_NUMBER.

Definition number_int (t s : bytes) : res (pout unit) :=
  let! c := rdc s 0 in
  if c =? 48 then
    let! s := adv s 1 in
    let! c := rdc s 0 in
    if isdigit c then fail_at t s 0 BAD_NUMBER else Ret (P_ok tt s)
  else Ret (P_ok tt (skip_digits s)).

Definition number_frac (t s : bytes) : res (pout unit) :=
  let! c := rdc s 0 in
  if c =? 46 then
    let! s := adv s 1 in
    let? _u, s := need_digit t s in Ret (P_ok tt (skip_digits s))
  else Ret (P_ok tt s).

Definition number_exp (t s : bytes) : res (pout unit) :=
  let! c := rdc s 0 in
  if (c =? 101) || (c =? 69) then
    let! s := adv s 1 in
    let! c := rdc s 0 in
    let! s := (if (c =? 43) || (c =? 45) then adv s 1 else Ret s) in
    let? _u, s := need_digit t s in Ret (P_ok tt (skip_digits s))
  else Ret (P_ok tt s).

Definition number_sign (t s : bytes) : res (pout unit) :=
  let! c := rdc s 0 in
  if c =? 45 then let! s := adv s 1 in need_digit t s else Ret (P_ok tt s).

Section Parse.
Context `{Libc}.

Definition parse_number (t start : bytes) : res (pout Json) :=
  let? _u, s := number_sign t start in
  let? _u, s := number_int t s in
  let? _u, s := number_frac t s in
  let? _u, s := number_exp t s in
  let n := zlen start - zlen s in
  if n >=? 128 then fail_at t start 0 OUT_OF_RANGE
  else
    let! tmp := rdn start 0 n in
    match strtod tmp with
    | None => fail_at t s 0 OUT_OF_RANGE
    | Some d => Ret (P_ok (J_num d) s)
    end.

Fixpoint parse_lit (t s l : bytes) (v : Json) : res (pout Json) :=
  match l with
  | [] => Ret (P_ok v s)
  | x :: l =>
      let! c := rdc s 0 in
      if c =? 0 then fail_eof t s EOF_VALUE
      else if negb (c =? x) then fail_at t s 0 (lit "expected ident")
      else let! s := adv s 1 in parse_lit t s l v
  end.

(** [parse_value] and the loops of [parse_array] and [parse_object], which return the items
    from here on. *)
Fixpoint parse_value (fuel : nat) (t s : bytes) (depth : Z) : res (pout Json) :=
  match fuel with
  | O => Fault OutOfFuel
  | S fuel =>
      let s := skip_ws s in
      if depth >? JSON_MAX_DEPTH then fail_at t s 0 (lit "maximum depth exceeded")
      else
        let! c := rdc s 0 in
        if c =? 0 then fail_eof t s EOF_VALUE
        else if c =? 123 then let! s := adv s 1 in let? l, s := object_loop fuel t s depth false in Ret (P_ok (J_obj l) s)
        else if c =? 91 then let! s := adv s 1 in let? l, s := array_loop fuel t s depth false in Ret (P_ok (J_arr l) s)
        else if c =? 34 then let? b, s := parse_string t s in Ret (P_ok (J_str b) s)
        else if c =? 116 then parse_lit t s (lit "true") (J_bool true)
        else if c =? 102 then parse_lit t s (lit "false") (J_bool false)
        else if c =? 110 then parse_lit t s (lit "null") J_null
        else if (c =? 45) || isdigit c then parse_number t s
        else fail_at t s 0 (lit "expected value")
  end
with array_loop (fuel : nat) (t s : bytes) (depth : Z) (after_comma : bool) : res (pout (list Json)) :=
  match fuel with
  | O => Fault OutOfFuel
  | S fuel =>
      let s := skip_ws s in
      let! c := rdc s 0 in
      if c =? 93 then
        if after_comma then fail_at t s 0 (lit "trailing comma") else let! s := adv s 1 in Ret (P_ok [] s)
      else if c =? 0 then fail_eof t s (if after_comma then EOF_VALUE else lit "EOF while parsing a list")
      else
        let? v, s := parse_value fuel t s (depth + 1) in
        let s := skip_ws s in
        let! c := rdc s 0 in
        if c =? 44 then
          let! s := adv s 1 in
          let? l, s := array_loop fuel t s depth true in Ret (P_ok (v :: l) s)
        else if c =? 93 then let! s := adv s 1 in Ret (P_ok [v] s)
        else if c =? 0 then fail_eof t s (lit "EOF while parsing a list")
        else fail_at t s 0 (lit "expected `,` or `]`")
  end
with object_loop (fuel : nat) (t s : bytes) (depth : Z) (after_comma : bool) : res (pout (list (bytes * Json))) :=
  match fuel with
  | O => Fault OutOfFuel
  | S fuel =>
      let s := skip_ws s in
      let! c := rdc s 0 in
      if c =? 125 then
        if after_comma then fail_at t s 0 (lit "trailing comma") else let! s := adv s 1 in Ret (P_ok [] s)
      else if c =? 0 then fail_eof t s (if after_comma then EOF_VALUE else lit "EOF while parsing an object")
      else if negb (c =? 34) then fail_at t s 0 (lit "key must be a string")
      else
        let? ks, s := parse_string t s in
        let s := skip_ws s in
        let! c := rdc s 0 in
        if c =? 0 then fail_eof t s (lit "EOF while parsing an object")
        else if negb (c =? 58) then fail_at t s 0 (lit "expected `:`")
        else
          let! s := adv s 1 in
          let? v, s := parse_value fuel t s (depth + 1) in
          let s := skip_ws s in
          let! c := rdc s 0 in
          if c =? 44 then
            let! s := adv s 1 in
            let? l, s := object_loop fuel t s depth true in Ret (P_ok ((ks, v) :: l) s)
          else if c =? 125 then let! s := adv s 1 in Ret (P_ok [(ks, v)] s)
          else if c =? 0 then fail_eof t s (lit "EOF while parsing an object")
          else fail_at t s 0 (lit "expected `,` or `}`")
  end.

(** [errsz] is zero when the caller gives no buffer; the error text is cut to the buffer. *)
Definition json_parse_ex (text : option bytes) (errsz : Z) : res (Json + bytes) :=
  let report e := Ret (inr (if errsz =? 0 then [] else take (Z.to_nat (errsz - 1)) e)) in
  match text with
  | None => report (lit "json_parse_ex: NULL input")
  | Some t =>
      let! o := parse_value (2 * length t + 1) t t 0 in
      match o with
      | P_err e => report e
      | P_ok v s =>
          let s := skip_ws s in
          let! c := rdc s 0 in
          if negb (c =? 0) then let! e := p_fail t s 0 false (lit "trailing characters") in report e
          else Ret (inl v)
      end
  end.

Definition json_parse (text : option bytes) : res (option Json) :=
  let! r := json_parse_ex text 0 in Ret match r with inl v => Some v | inr _ => None end.

End Parse.

(** ** Trees *)

Inductive json_kind := JSON_NULL | JSON_BOOL | JSON_NUM | JSON_STR | JSON_ARR | JSON_OBJ.

(** [None] is a NULL pointer. *)
Definition json_type (j : option Json) : json_kind :=
  match j with
  | None | Some J_null => JSON_NULL
  | Some (J_bool _) => JSON_BOOL
  | Some (J_num _) => JSON_NUM
  | Some (J_str _) => JSON_STR
  | Some (J_arr _) => JSON_ARR
  | Some (J_obj _) => JSON_OBJ
  end.

Definition json_str (j : option Json) : option bytes := match j with Some (J_str s) => Some s | _ => None end.
Definition json_num (j : option Json) : spec_float := match j with Some (J_num d) => d | _ => S754_zero false end.
Definition json_arr_len (j : option Json) : Z := match j with Some (J_arr l) => zlen l | _ => 0 end.
Definition json_arr_at (j : option Json) (i : Z) : option Json := match j with Some (J_arr l) => l !! Z.to_nat i | _ => None end.

Definition json_obj_get (j : Json) (key : bytes) : option Json :=
  match j with
  | J_obj l => fold_left (fun found kv => if beq kv.1 key then Some kv.2 else found) l None
  | _ => None
  end.

(** The characters up to the next dot, and what follows it. *)
Fixpoint segment (a : bytes) : bytes * option bytes :=
  match a with
  | [] => ([], None)
  | c :: r => if c =? 46 then ([], Some r) else let (s, b) := segment r in (c :: s, b)
  end.

Fixpoint index_loop (s : bytes) (idx : Z) : option Z :=
  match s with
  | [] => Some idx
  | c :: s => if idx >? (SIZE_MAX - 9) / 10 then None else index_loop s (u64 (idx * 10 + (c - 48)))
  end.

Definition get_step (cur : Json) (seg : bytes) : option Json :=
  match cur, forallb isdigit seg with
  | J_arr _, true =>
      if zlen seg >=? 20 then None
      else match index_loop seg 0 with None => None | Some idx => json_arr_at (Some cur) idx end
  | _, _ => if zlen seg >=? 64 then None else json_obj_get cur seg
  end.

Fixpoint get_loop (fuel : nat) (cur : Json) (a : bytes) : res (option Json) :=
  match fuel with
  | O => Fault OutOfFuel
  | S fuel =>
      let (seg, b) := segment a in
      if zlen seg =? 0 then Ret None
      else
        match get_step cur seg with
        | None => Ret None
        | Some nx => match b with None => Ret (Some nx) | Some a => get_loop fuel nx a end
        end
  end.

Definition json_get (root : option Json) (path : bytes) : res (option Json) :=
  match root with
  | None => Ret None
  | Some j => if zlen path =? 0 then Ret root else get_loop (S (length path)) j path
  end.

Definition json_get_str (root : option Json) (path : bytes) : res (option bytes) :=
  let! v := json_get root path in Ret (json_str v).

(** A literal with its double quotes written as apostrophes. *)
Definition quoted (s : bytes) : bytes := map (fun c => if c =? 39 then 34 else c) s.

(** ** Escaping *)

Definition needs_escape (c : Z) : bool := (c =? 34) || (c =? 92) || (c <? 32).

Definition escape_size (s : bytes) : Z := fold_left (fun n c => if needs_escape c then n + 6 else n + 1) s 0.

Definition escape_char (c : Z) : bytes :=
  if c =? 34 then [92; 34]
  else if c =? 92 then [92; 92]
  else if c <? 32 then [92; 117; 48; 48; HEX_DIGITS.[Z.shiftr c 4]; HEX_DIGITS.[Z.land c 15]]
  else [c].

(** The second loop writes into a buffer of [n] bytes and the terminator. *)
Fixpoint escape_loop (s o : bytes) (n : Z) : res bytes :=
  match s with
  | [] => if zlen o <=? n then Ret o else Fault OutOfBounds
  | c :: s =>
      let o := o ++ escape_char c in
      if zlen o <=? n + 1 then escape_loop s o n else Fault OutOfBounds
  end.

Definition json_escape (s : bytes) : res bytes := escape_loop s [] (escape_size s).

(** ** Release: the nodes that are freed *)

Fixpoint json_free_d (j : Json) (depth : Z) : Z :=
  if depth >? JSON_MAX_DEPTH then 0
  else
    match j with
    | J_arr l => 1 + fold_left (fun n x => n + json_free_d x (depth + 1)) l 0
    | J_obj l => 1 + fold_left (fun n x => n + json_free_d x.2 (depth + 1)) l 0
    | _ => 1
    end.

Definition json_free (j : Json) : Z := json_free_d j 0.

(** ** The grammar *)

Definition ws (w : bytes) : Prop := Forall (fun c => isspace c = true) w.
Definition digits (d : bytes) : Prop := forallb isdigit d = true.

(** The number four hexadecimal digits stand for. *)
Definition hexval (h : bytes) : option Z :=
  match h with
  | [a; b; c; d] =>
      if forallb (fun x => 0 <=? hex_nibble x) h
      then Some (hex_nibble a * 4096 + hex_nibble b * 256 + hex_nibble c * 16 + hex_nibble d) else None
  | _ => None
  end.

(** The text goes on with the second half of a surrogate pair. *)
Definition low_next (b : bytes) : Prop :=
  exists h lo r, b = 92 :: 117 :: h ++ r /\ hexval h = Some lo /\ is_low lo = true.

(** The inside of a string and the bytes it stands for. *)
Inductive sbody : bytes -> bytes -> Prop :=
| sb_nil : sbody [] []
| sb_plain c b s : 32 <= c -> c <> 34 -> c <> 92 -> sbody b s -> sbody (c :: b) (c :: s)
| sb_simple e m b s : simple_escape e = Some m -> sbody b s -> sbody (92 :: e :: b) (m :: s)
| sb_unicode h cp b s :
    hexval h = Some cp -> cp <> 0 -> ~ (is_high cp = true /\ low_next b) -> sbody b s ->
    sbody (92 :: 117 :: h ++ b) (utf8_encode cp ++ s)
| sb_pair h hi h' lo b s :
    hexval h = Some hi -> is_high hi = true -> hexval h' = Some lo -> is_low lo = true -> sbody b s ->
    sbody (92 :: 117 :: h ++ 92 :: 117 :: h' ++ b) (utf8_encode (65536 + (hi - 55296) * 1024 + (lo - 56320)) ++ s).

Definition digits1 (d : bytes) : Prop := d <> [] /\ digits d.

(** A number: no sign but minus, no leading zero, digits around every point and after every exponent. *)
Definition number (x : bytes) : Prop :=
  exists sg ip fp ep, x = sg ++ ip ++ fp ++ ep /\
    (sg = [] \/ sg = [45]) /\
    (ip = [48] \/ exists c r, ip = c :: r /\ c <> 48 /\ digits ip) /\
    (fp = [] \/ exists d, fp = 46 :: d /\ digits1 d) /\
    (ep = [] \/ exists e es d, ep = e :: es ++ d /\ (e = 101 \/ e = 69) /\ (es = [] \/ es = [43] \/ es = [45]) /\ digits1 d).

Section Grammar.
Context `{Libc}.

Inductive value : bytes -> Json -> Prop :=
| v_null : value (lit "null") J_null
| v_true : value (lit "true") (J_bool true)
| v_false : value (lit "false") (J_bool false)
| v_num x d : number x -> zlen x < 128 -> strtod x = Some d -> value x (J_num d)
| v_str b s : sbody b s -> value (34 :: b ++ [34]) (J_str s)
| v_arr0 w : ws w -> value (91 :: w ++ [93]) (J_arr [])
| v_arr b l : elements b l -> value (91 :: b ++ [93]) (J_arr l)
| v_obj0 w : ws w -> value (123 :: w ++ [125]) (J_obj [])
| v_obj b l : members b l -> value (123 :: b ++ [125]) (J_obj l)
with elements : bytes -> list Json -> Prop :=
| e_one w1 x w2 v : ws w1 -> value x v -> ws w2 -> elements (w1 ++ x ++ w2) [v]
| e_cons w1 x w2 v b l : ws w1 -> value x v -> ws w2 -> elements b l -> elements (w1 ++ x ++ w2 ++ 44 :: b) (v :: l)
with members : bytes -> list (bytes * Json) -> Prop :=
| m_one w1 k ks w2 w3 x w4 v :
    ws w1 -> sbody k ks -> ws w2 -> ws w3 -> value x v -> ws w4 ->
    members (w1 ++ 34 :: k ++ 34 :: w2 ++ 58 :: w3 ++ x ++ w4) [(ks, v)]
| m_cons w1 k ks w2 w3 x w4 v b l :
    ws w1 -> sbody k ks -> ws w2 -> ws w3 -> value x v -> ws w4 -> members b l ->
    members (w1 ++ 34 :: k ++ 34 :: w2 ++ 58 :: w3 ++ x ++ w4 ++ 44 :: b) ((ks, v) :: l).

Scheme value_mind := Minimality for value Sort Prop
  with elements_mind := Minimality for elements Sort Prop
  with members_mind := Minimality for members Sort Prop.
Combined Scheme grammar_ind from value_mind, elements_mind, members_mind.

Definition document (t : bytes) (v : Json) : Prop := exists w1 x w2, t = w1 ++ x ++ w2 /\ ws w1 /\ value x v /\ ws w2.

End Grammar.

(** How deep values are nested inside a value. *)
Fixpoint nesting (j : Json) : Z :=
  match j with
  | J_arr l => fold_right (fun x n => Z.max (1 + nesting x) n) 0 l
  | J_obj l => fold_right (fun x n => Z.max (1 + nesting x.2) n) 0 l
  | _ => 0
  end.

Fixpoint nodes (j : Json) : Z :=
  match j with
  | J_arr l => 1 + fold_right (fun x n => nodes x + n) 0 l
  | J_obj l => 1 + fold_right (fun x n => nodes x.2 + n) 0 l
  | _ => 1
  end.

(** ** Reading at the pointer *)

Lemma rdc_nil : rdc [] 0 = Ret 0.
Proof. done. Qed.

Lemma rdc_cons c s : rdc (c :: s) 0 = Ret c.
Proof. pose proof (zlen_nonneg s). rewrite rdc_ok by zlia. by replace (0 =? zlen (c :: s)) with false by zlia. Qed.

Lemma rdc_S c s i : 0 < i -> rdc (c :: s) i = rdc s (i - 1).
Proof.
  intros Hi. unfold rdc, rd. rewrite zlen_cons. replace (i - 1 =? zlen s) with (i =? 1 + zlen s) by lia.
  replace (0 <=? i - 1) with (0 <=? i) by lia. replace (i - 1 <? zlen s) with (i <? 1 + zlen s) by lia. by rewrite at_cons_pos by lia.
Qed.

Lemma adv_cons c s : adv (c :: s) 1 = Ret s.
Proof. unfold adv. rewrite zlen_cons. pose proof (zlen_nonneg s). by replace (1 + zlen s <? 1) with false by lia. Qed.

Lemma adv_app p s : adv (p ++ s) (zlen p) = Ret s.
Proof.
  unfold adv. rewrite zlen_app. pose proof (zlen_nonneg s). replace (_ <? _) with false by lia.
  unfold zlen. by rewrite Nat2Z.id, drop_app_length.
Qed.

Lemma pbind_ok {A B} (v : A) s (k : A -> bytes -> res (pout B)) : pbind (Ret (P_ok v s)) k = k v s.
Proof. done. Qed.

(** Execute a read or a move on a text whose first character is known. *)
Ltac step := rewrite ?rdc_nil, ?rdc_cons, ?adv_cons, ?pbind_ok; cbn [rbind].

(** The computation ends without a fault, and what it parsed satisfies [P]. *)
Definition good {A} (P : A -> bytes -> Prop) (m : res (pout A)) : Prop :=
  exists o, m = Ret o /\ match o with P_ok v s => P v s | P_err _ => True end.

Lemma good_ok {A} (P : A -> bytes -> Prop) v s : P v s -> good P (Ret (P_ok v s)).
Proof. intros H. by eexists. Qed.

Lemma good_bind {A B} (P : A -> bytes -> Prop) (Q : B -> bytes -> Prop) m k :
  good P m -> (forall v s, P v s -> good Q (k v s)) -> good Q (pbind m k).
Proof. intros ([v s|e] & -> & H) Hk; cbn; [by apply Hk|]. by eexists. Qed.

Lemma good_mono {A} (P Q : A -> bytes -> Prop) m : good P m -> (forall v s, P v s -> Q v s) -> good Q m.
Proof. intros ([v s|e] & -> & H) Hk; eexists; split; [done| by apply Hk|done|done]. Qed.

Lemma good_eof {A} (P : A -> bytes -> Prop) t s msg : good P (fail_eof t s msg).
Proof.
  unfold fail_eof, p_fail. rewrite rdn_ok by (pose proof (zlen_nonneg t); zlia). cbn [rbind]. destruct (pos_loop _ _ _ _). by eexists.
Qed.

Lemma good_at {A} (P : A -> bytes -> Prop) t s off msg : suffix s t -> 0 <= off <= zlen s -> good P (fail_at t s off msg).
Proof.
  intros [p ->] Ho. unfold fail_at, p_fail. rewrite zlen_app. pose proof (zlen_nonneg p).
  rewrite rdn_ok by zlia. cbn [rbind]. destruct (pos_loop _ _ _ _). by eexists.
Qed.

Lemma suffix_tail {A} (p s t : list A) : suffix (p ++ s) t -> suffix s t.
Proof. intros [q ->]. exists (q ++ p). by rewrite <- app_assoc. Qed.

Lemma suffix_cons_tail {A} (c : A) s t : suffix (c :: s) t -> suffix s t.
Proof. apply (suffix_tail [c]). Qed.

Lemma cstr_app p s : cstr_ok (p ++ s) <-> cstr_ok p /\ cstr_ok s.
Proof. apply Forall_app. Qed.

Lemma cstr_cons c s : cstr_ok (c :: s) <-> 0 < c < 256 /\ cstr_ok s.
Proof. unfold cstr_ok. by rewrite Forall_cons. Qed.

Lemma off_0 (s : bytes) : 0 <= 0 <= zlen s.
Proof. pose proof (zlen_nonneg s). lia. Qed.

Create HintDb json.
#[export] Hint Resolve good_eof good_at off_0 suffix_tail suffix_cons_tail : json.

Lemma skip_ws_spec s : exists w, s = w ++ skip_ws s /\ ws w.
Proof.
  induction s as [|c s (w & E & Hw)]; [by exists []; repeat constructor|]. cbn. destruct (isspace c) eqn:Ec.
  - exists (c :: w). rewrite <- app_comm_cons, <- E. split; [done|by constructor].
  - by exists []; repeat constructor.
Qed.

Lemma skip_ws_app w s : ws w -> match s with c :: _ => isspace c = false | [] => True end -> skip_ws (w ++ s) = s.
Proof.
  intros Hw Hs. induction Hw as [|c w Hc Hw IH]; cbn; [|by rewrite Hc]. destruct s as [|c s]; [done|]. cbn. by rewrite Hs.
Qed.

(** ** Strings *)

Lemma hex_nibble_range c : -1 <= hex_nibble c < 16.
Proof. unfold hex_nibble. repeat case_match; lia. Qed.

Lemma hex4_step n s i v c bad :
  rdc s i = Ret c -> 0 < c -> 0 <= v < 2 ^ 28 ->
  hex4_loop (S n) s i v bad =
    if hex_nibble c <? 0 then hex4_loop n s (i + 1) v true else hex4_loop n s (i + 1) (v * 16 + hex_nibble c) bad.
Proof.
  intros Hr Hc Hv. cbn [hex4_loop]. rewrite Hr. cbn [rbind]. replace (c =? 0) with false by lia. destruct (hex_nibble c <? 0) eqn:E; [done|].
  pose proof (hex_nibble_range c). rewrite u32_small, lor_shiftl_add by (rewrite ?Z.shiftl_mul_pow2; lia). done.
Qed.

Lemma hex4_skip p s k : 0 <= k -> hex4 (p ++ s) (zlen p + k) = hex4 s k.
Proof.
  intros Hk. unfold hex4. generalize 4%nat as n, 0 as v, false as bad. intros n. revert k Hk. induction n as [|n IH]; intros k Hk v bad; [done|].
  cbn [hex4_loop]. assert (rdc (p ++ s) (zlen p + k) = rdc s k) as ->.
  { unfold rdc, rd. pose proof (zlen_nonneg p). rewrite zlen_app. replace (zlen p + k =? zlen p + zlen s) with (k =? zlen s) by lia.
    replace (0 <=? zlen p + k) with (0 <=? k) by lia. replace (zlen p + k <? zlen p + zlen s) with (k <? zlen s) by lia.
    by rewrite at_app_r, Z.add_simpl_l by lia. }
  destruct (rdc s k) as [c|]; [|done]. cbn [rbind]. by rewrite <- Z.add_assoc, !IH by lia.
Qed.

Lemma hex4_short s : cstr_ok s -> (length s < 4)%nat -> hex4 s 0 = Ret HEX4_EOF.
Proof.
  intros Hs Hl. unfold hex4. assert (rdc s (zlen s) = Ret 0) as He by (rewrite rdc_ok by (pose proof (zlen_nonneg s); lia); by rewrite Z.eqb_refl).
  assert (forall n k v bad, (Z.to_nat (zlen s - k) < n)%nat -> 0 <= k <= zlen s -> hex4_loop n s k v bad = Ret HEX4_EOF) as H.
  { induction n as [|n IH]; intros k v bad Hn Hk; [lia|]. cbn [hex4_loop]. destruct (decide (k = zlen s)) as [->|Hne]; [by rewrite He|].
    rewrite rdc_ok by lia. replace (k =? zlen s) with false by lia. cbn [rbind]. repeat case_match; try done; apply IH; lia. }
  apply H; unfold zlen; lia.
Qed.

Lemma hex4_full a b c d s :
  cstr_ok [a; b; c; d] -> hex4 (a :: b :: c :: d :: s) 0 = Ret match hexval [a; b; c; d] with Some v => HEX4_OK v | None => HEX4_BAD end.
Proof.
  intros Hc. unfold cstr_ok in Hc. rewrite !Forall_cons in Hc. unfold hex4. pose proof (hex_nibble_range a). pose proof (hex_nibble_range b). pose proof (hex_nibble_range c).
  pose proof (hex_nibble_range d).
  assert (forall n i v x bad, rdc (a :: b :: c :: d :: s) i = Ret x -> 0 < x -> 0 <= v < 2 ^ 28 ->
    hex4_loop (S n) (a :: b :: c :: d :: s) i v bad = if hex_nibble x <? 0 then hex4_loop n (a :: b :: c :: d :: s) (i + 1) v true
      else hex4_loop n (a :: b :: c :: d :: s) (i + 1) (v * 16 + hex_nibble x) bad) as Hstep by (intros; by apply hex4_step).
  assert (forall x, (0 <=? hex_nibble x) = negb (hex_nibble x <? 0)) as Hb by (intros; lia). unfold hexval. cbn [forallb]. rewrite !Hb.
  rewrite (Hstep 3%nat 0 0 a) by (lia || by step).
  destruct (hex_nibble a <? 0) eqn:Ea; rewrite (Hstep 2%nat (0 + 1) _ b) by (lia || (rewrite rdc_S by lia; by step));
    destruct (hex_nibble b <? 0) eqn:Eb; rewrite (Hstep 1%nat (0 + 1 + 1) _ c) by (lia || (rewrite !rdc_S by lia; by step));
    destruct (hex_nibble c <? 0) eqn:Ec; rewrite (Hstep 0%nat (0 + 1 + 1 + 1) _ d) by (lia || (rewrite !rdc_S by lia; by step));
    destruct (hex_nibble d <? 0) eqn:Ed; cbn [hex4_loop negb andb]; try done.
  f_equal. f_equal. lia.
Qed.

(** The three outcomes of [hex4]. *)
Lemma hex4_cases s : cstr_ok s ->
  ((length s < 4)%nat /\ hex4 s 0 = Ret HEX4_EOF) \/
  (exists h r, s = h ++ r /\ length h = 4%nat /\ hex4 s 0 = Ret match hexval h with Some v => HEX4_OK v | None => HEX4_BAD end).
Proof.
  intros Hs. destruct (decide (length s < 4)%nat); [left; split; [done|by apply hex4_short]|right].
  destruct s as [|a [|b [|c [|d r]]]]; cbn [length] in *; try lia. exists [a; b; c; d], r. split; [done|]. split; [done|].
  apply hex4_full. by apply (cstr_app [a; b; c; d] r).
Qed.

Lemma hexval_length h v : hexval h = Some v -> length h = 4%nat.
Proof. by destruct h as [|? [|? [|? [|? [|]]]]]. Qed.

Lemma hex4_ok h v r : cstr_ok h -> hexval h = Some v -> hex4 (h ++ r) 0 = Ret (HEX4_OK v).
Proof.
  intros Hc Hv. pose proof (hexval_length _ _ Hv). destruct h as [|a [|b [|c [|d [|]]]]]; try done.
  cbn [app]. rewrite hex4_full by done. by rewrite Hv.
Qed.

(** The text goes on with an escape [\u]. *)
Definition u_next (b : bytes) : bool := match b with x :: y :: _ => (x =? 92) && (y =? 117) | _ => false end.

(** [\u] with the text behind its four digits. *)
Lemma unicode_run t h r cp :
  cstr_ok (h ++ r) -> hexval h = Some cp -> cp <> 0 ->
  unicode_escape t (92 :: 117 :: h ++ r) =
    if is_high cp && u_next r then
      let! lr := hex4 (drop 2 r) 0 in
      match lr with
      | HEX4_EOF => fail_eof t (92 :: 117 :: h ++ r) EOF_STR
      | HEX4_OK lo => if is_low lo then Ret (P_ok (utf8_encode (65536 + (cp - 55296) * 1024 + (lo - 56320)), 12) (92 :: 117 :: h ++ r))
                      else Ret (P_ok (utf8_encode cp, 6) (92 :: 117 :: h ++ r))
      | HEX4_BAD => Ret (P_ok (utf8_encode cp, 6) (92 :: 117 :: h ++ r))
      end
    else Ret (P_ok (utf8_encode cp, 6) (92 :: 117 :: h ++ r)).
Proof.
  intros Hc Hv Hne. apply cstr_app in Hc as [Hh Hr]. pose proof (hexval_length _ _ Hv) as Hl. unfold unicode_escape.
  change (hex4 (92 :: 117 :: h ++ r) 2) with (hex4 ([92; 117] ++ (h ++ r)) (zlen [92; 117] + 0)). rewrite hex4_skip, (hex4_ok h cp r) by done. cbn [rbind]. replace (cp =? 0) with false by lia.
  destruct (is_high cp); [|done]. cbn [andb]. destruct h as [|h0 [|h1 [|h2 [|h3 [|]]]]]; try done. cbn [app].
  assert (rdc (92 :: 117 :: h0 :: h1 :: h2 :: h3 :: r) 6 = rdc r 0) as -> by by rewrite !rdc_S by lia.
  assert (rdc (92 :: 117 :: h0 :: h1 :: h2 :: h3 :: r) 7 = rdc r 1) as -> by by rewrite !(rdc_S _ _ 7), !rdc_S by lia.
  destruct r as [|x r]; [done|]. step. cbn [u_next]. destruct (x =? 92) eqn:Ex; [|by destruct r].
  rewrite rdc_S by lia. change (1 - 1) with 0. destruct r as [|y r]; [done|]. step. cbn [andb]. destruct (y =? 117) eqn:Ey; [|done]. cbn [rbind drop].
  change (hex4 (92 :: 117 :: h0 :: h1 :: h2 :: h3 :: x :: y :: r) 8) with (hex4 ([92; 117; h0; h1; h2; h3; x; y] ++ r) (zlen [92; 117; h0; h1; h2; h3; x; y] + 0)).
  rewrite hex4_skip by done. by rewrite Z.shiftl_mul_pow2 by lia.
Qed.

Lemma low_next_u b : low_next b -> u_next b = true.
Proof. by intros (h & lo & r & -> & _). Qed.

Lemma low_next_hex4 b : cstr_ok b -> low_next b -> exists lo, hex4 (drop 2 b) 0 = Ret (HEX4_OK lo) /\ is_low lo = true.
Proof.
  intros Hc (h & lo & r & -> & Hv & Hlo). exists lo. split; [|done]. cbn [drop]. apply hex4_ok; [|done].
  apply (cstr_app [92; 117]), proj2, cstr_app in Hc as [Hh _]. done.
Qed.

(** What [\u] takes from the text: one code point that no pair follows, or a pair. *)
Definition unicode_takes (s : bytes) (out : bytes) (k : Z) : Prop :=
  (k = 6 /\ exists h r cp, s = h ++ r /\ hexval h = Some cp /\ cp <> 0 /\ ~ (is_high cp = true /\ low_next r) /\ out = utf8_encode cp) \/
  (k = 12 /\ exists h h' r hi lo, s = h ++ 92 :: 117 :: h' ++ r /\ hexval h = Some hi /\ is_high hi = true /\ hexval h' = Some lo /\ is_low lo = true /\
     out = utf8_encode (65536 + (hi - 55296) * 1024 + (lo - 56320))).

Lemma unicode_sound t s :
  suffix (92 :: 117 :: s) t -> cstr_ok s -> good (fun bk z => z = 92 :: 117 :: s /\ unicode_takes s bk.1 bk.2) (unicode_escape t (92 :: 117 :: s)).
Proof.
  intros Hs Hc. destruct (hex4_cases s Hc) as [[_ E]|(h & r & -> & Hl & E)].
  { unfold unicode_escape. change (hex4 (92 :: 117 :: s) 2) with (hex4 ([92; 117] ++ s) (zlen [92; 117] + 0)). rewrite hex4_skip, E by done. apply good_eof. }
  destruct (hexval h) as [cp|] eqn:Hv; [destruct (decide (cp = 0)) as [->|Hne]|].
  2: { rewrite unicode_run with (cp := cp) by done. assert (cstr_ok r) as Hr by (by apply cstr_app in Hc as []).
    destruct (is_high cp && u_next r) eqn:Eu; [|apply good_ok; split; [done|]; left; split; [done|]; exists h, r, cp; split_and!; try done;
      intros [H1 H2%low_next_u]; by rewrite H1, H2 in Eu].
    apply andb_true_iff in Eu as [Ehi Eu]. destruct r as [|x [|y r]]; try done. cbn [u_next drop] in *. apply andb_true_iff in Eu as [->%Z.eqb_eq ->%Z.eqb_eq].
    assert (cstr_ok r) as Hr' by (apply (cstr_app [92; 117]) in Hr; tauto).
    assert (~ (exists lo, hex4 r 0 = Ret (HEX4_OK lo) /\ is_low lo = true) -> good (fun bk z => z = 92 :: 117 :: h ++ 92 :: 117 :: r /\ unicode_takes (h ++ 92 :: 117 :: r) bk.1 bk.2)
        (Ret (P_ok (utf8_encode cp, 6) (92 :: 117 :: h ++ 92 :: 117 :: r)))) as Hone.
    { intros Hno. apply good_ok. split; [done|]. left. split; [done|]. exists h, (92 :: 117 :: r), cp. split_and!; try done. intros [_ H2]. apply Hno. by apply (low_next_hex4 (92 :: 117 :: r)). }
    rewrite drop_0. destruct (hex4_cases r Hr') as [[_ E']|(h' & r' & -> & Hl' & E')]; rewrite E'; cbn [rbind]; [apply good_eof|]. rewrite E' in Hone.
    destruct (hexval h') as [lo|] eqn:Hv'; [|apply Hone; by intros (lo & ? & _)]. destruct (is_low lo) eqn:El.
    - apply good_ok. split; [done|]. right. split; [done|]. by exists h, h', r', cp, lo.
    - apply Hone. intros (lo' & [= <-] & ?). congruence. }
  all: unfold unicode_escape; change (hex4 (92 :: 117 :: h ++ r) 2) with (hex4 ([92; 117] ++ (h ++ r)) (zlen [92; 117] + 0)); rewrite hex4_skip, E by done;
    apply good_at; [done|]; destruct h as [|? [|? [|? [|? [|]]]]]; try done; cbn [app]; rewrite !zlen_cons; pose proof (zlen_nonneg r); lia.
Qed.

Lemma string_sound fuel t s :
  suffix s t -> cstr_ok s -> (length s < fuel)%nat -> good (fun v r => exists b, s = b ++ 34 :: r /\ sbody b v) (string_loop fuel t s).
Proof.
  revert s. induction fuel as [|fuel IH]; intros s Hs Hc Hf; [lia|]. cbn [string_loop].
  assert (forall p s' out, s = p ++ s' -> p <> [] -> (forall b v, s' = b ++ 34 :: v -> forall w, sbody b w -> sbody (p ++ b) (out ++ w)) ->
    good (fun v r => exists b, s = b ++ 34 :: r /\ sbody b v)
      (let! s' := adv s (zlen p) in let? v, r := string_loop fuel t s' in Ret (P_ok (out ++ v) r))) as Happ.
  { intros p s' out -> Hp Hbody. rewrite adv_app. cbn [rbind]. eapply good_bind; [apply IH; [by eapply suffix_tail|by apply cstr_app in Hc as []|]|].
    - rewrite length_app in Hf. destruct p; cbn in *; [done|lia].
    - intros v r (b & -> & Hb). apply good_ok. exists (p ++ b). split; [by rewrite <- app_assoc|]. by eapply Hbody. }
  destruct s as [|c s]; [apply good_eof|]. rewrite rdc_cons. cbn [rbind]. apply cstr_cons in Hc as [Hc0 Hc]. replace (c =? 0) with false by lia.
  destruct (c =? 34) eqn:E34. { apply Z.eqb_eq in E34 as ->. step. apply good_ok. exists []. split; [done|constructor]. }
  destruct (c =? 92) eqn:E92.
  - apply Z.eqb_eq in E92 as ->. rewrite rdc_S by lia. change (1 - 1) with 0. destruct s as [|e s]; step; [apply good_eof|].
    destruct (simple_escape e) as [m|] eqn:Ee. { apply (Happ [92; e] s [m]); [done|done|]. intros b v _ w Hb. by constructor. }
    destruct (e =? 117) eqn:Eu; [apply Z.eqb_eq in Eu as ->|].
    2: { apply cstr_cons in Hc as [He _]. replace (e =? 0) with false by lia. apply good_at; [done|]. rewrite !zlen_cons. pose proof (zlen_nonneg s). lia. }
    apply cstr_cons in Hc as [_ Hc]. eapply good_bind; [by apply unicode_sound|].
    intros [out k] z (-> & [(-> & h & r & cp & -> & Hv & Hne & Hno & ->)|(-> & h & h' & r & hi & lo & -> & Hv & Hhi & Hv' & Hlo & ->)]); cbn [fst snd].
    + pose proof (hexval_length _ _ Hv) as Hl. replace 6 with (zlen (92 :: 117 :: h)) by (unfold zlen; cbn [length]; lia). apply (Happ (92 :: 117 :: h) r); [done|done|].
      intros b v -> w Hb. apply (sb_unicode h cp b w); try done. intros [H1 (h2 & lo & r2 & -> & H2)]. apply Hno. split; [done|]. exists h2, lo, (r2 ++ 34 :: v).
      cbn [app]. by rewrite <- app_assoc.
    + pose proof (hexval_length _ _ Hv) as Hl. pose proof (hexval_length _ _ Hv') as Hl'.
      replace 12 with (zlen (92 :: 117 :: h ++ 92 :: 117 :: h')) by (unfold zlen; cbn [length]; rewrite length_app; cbn [length]; lia).
      apply (Happ _ r); [cbn [app]; by rewrite <- app_assoc|done|]. intros b v _ w Hb. cbn [app]. rewrite <- app_assoc. by apply sb_pair.
  - destruct (c <? 32) eqn:E32; [apply good_at; [done|]; rewrite zlen_cons; pose proof (zlen_nonneg s); lia|].
    apply (Happ [c] s [c]); [done|done|]. intros b v _ w Hb. constructor; [lia..|done].
Qed.

Lemma simple_escape_cases e m : simple_escape e = Some m -> e <> 117 /\ e <> 0.
Proof. unfold simple_escape. repeat case_match; intros [=]; lia. Qed.

(** A body that goes on with [\u] goes on with a whole escape. *)
Lemma sbody_u b s z : sbody b s -> u_next (b ++ z) = true -> b <> [] -> exists h cp r, b = 92 :: 117 :: h ++ r /\ hexval h = Some cp.
Proof.
  intros Hb Hu Hne. destruct Hb as [|c b s H1 H2 H3 Hb|e m b s He Hb|h cp b s Hh H0 Hno Hb|h hi h' lo b s Hh Hhi Hh' Hlo Hb]; [done|..].
  - cbn in Hu. destruct (b ++ z); [done|]. lia.
  - cbn in Hu. apply simple_escape_cases in He. lia.
  - by exists h, cp, b.
  - by exists h, hi, (92 :: 117 :: h' ++ b).
Qed.

Lemma adv_eq s p s' k : s = p ++ s' -> zlen p = k -> adv s k = Ret s'.
Proof. intros -> <-. apply adv_app. Qed.

Lemma string_complete t b v r fuel :
  sbody b v -> cstr_ok (b ++ 34 :: r) -> (length b < fuel)%nat -> string_loop fuel t (b ++ 34 :: r) = Ret (P_ok v r).
Proof.
  intros Hb. revert fuel. induction Hb as [|c b s H1 H2 H3 Hb IH|e m b s He Hb IH|h cp b s Hh H0 Hno Hb IH|h hi h' lo b s Hh Hhi Hh' Hlo Hb IH];
    intros [|fuel] Hc Hf; try lia; cbn [string_loop].
  - cbn [app]. step. done.
  - cbn [app]. step. apply cstr_cons in Hc as [_ Hc]. replace (c =? 0) with false by lia. replace (c =? 34) with false by lia. replace (c =? 92) with false by lia.
    replace (c <? 32) with false by lia. rewrite IH; [done|done|cbn in Hf; lia].
  - cbn [app]. step. rewrite rdc_S by lia. change (1 - 1) with 0. rewrite rdc_cons. cbn [rbind Z.eqb Pos.eqb]. rewrite He.
    rewrite (adv_eq _ [92; e] (b ++ 34 :: r)) by done. cbn [rbind]. apply (cstr_app [92; e]) in Hc as [_ Hc]. rewrite IH; [done|done|cbn in Hf; lia].
  - pose proof (hexval_length _ _ Hh) as Hl. cbn [app length] in *. rewrite length_app in Hf. rewrite <- app_assoc in *. step. rewrite rdc_S by lia. change (1 - 1) with 0. rewrite rdc_cons.
    cbn [rbind Z.eqb Pos.eqb]. change (simple_escape 117) with (@None Z). cbv match. apply (cstr_app [92; 117]) in Hc as [_ Hc]. pose proof (proj2 (proj1 (cstr_app _ _) Hc)) as Hc'.
    rewrite unicode_run with (cp := cp) by done.
    assert (forall o : res (pout (bytes * Z)), o = Ret (P_ok (utf8_encode cp, 6) (92 :: 117 :: h ++ b ++ 34 :: r)) ->
      (let? bk, _s := o in let! s' := adv (92 :: 117 :: h ++ b ++ 34 :: r) bk.2 in let? v, r := string_loop fuel t s' in Ret (P_ok (bk.1 ++ v) r)) = Ret (P_ok (utf8_encode cp ++ s) r)) as Hgo.
    { intros o ->. step. cbn [fst snd]. rewrite (adv_eq _ (92 :: 117 :: h) (b ++ 34 :: r)) by (done || unfold zlen; cbn [length]; lia). cbn [rbind]. rewrite IH; [done|done|lia]. }
    apply Hgo. destruct (is_high cp && u_next (b ++ 34 :: r)) eqn:Eu; [|done]. apply andb_true_iff in Eu as [Ehi Eu].
    destruct (sbody_u b s _ Hb Eu) as (h2 & lo & r2 & -> & Hlo); [intros ->; by destruct r|]. cbn [app drop]. rewrite drop_0, <- app_assoc.
    cbn [app] in Hc'. rewrite <- app_assoc in Hc'. apply (cstr_app [92; 117]) in Hc' as [_ Hc']. apply cstr_app in Hc' as [Hc' _].
    rewrite (hex4_ok h2 lo) by done. cbn [rbind]. destruct (is_low lo) eqn:El; [|done]. exfalso. apply Hno. split; [done|]. by exists h2, lo, r2.
  - pose proof (hexval_length _ _ Hh) as Hl. pose proof (hexval_length _ _ Hh') as Hl'. cbn [app length] in *. rewrite !length_app in Hf. cbn [length] in Hf. rewrite length_app in Hf.
    rewrite <- app_assoc in *. cbn [app] in *. rewrite <- app_assoc in *. step. rewrite rdc_S by lia. change (1 - 1) with 0. rewrite rdc_cons.
    cbn [rbind Z.eqb Pos.eqb]. change (simple_escape 117) with (@None Z). cbv match. apply (cstr_app [92; 117]) in Hc as [_ Hc]. pose proof (proj2 (proj1 (cstr_app _ _) Hc)) as Hc'.
    rewrite unicode_run with (cp := hi) by (done || (unfold is_high in Hhi; lia)). rewrite Hhi. cbn [u_next Z.eqb Pos.eqb andb drop]. rewrite drop_0.
    apply (cstr_app [92; 117]) in Hc' as [_ Hc']. apply cstr_app in Hc' as [Hc1 Hc2].
    rewrite (hex4_ok h' lo) by done. cbn [rbind]. rewrite Hlo. step. cbn [fst snd].
    rewrite (adv_eq _ (92 :: 117 :: h ++ 92 :: 117 :: h') (b ++ 34 :: r)) by ((cbn [app]; by rewrite <- app_assoc) || unfold zlen; cbn [length]; rewrite length_app; cbn [length]; lia). cbn [rbind]. rewrite IH; [done|done|lia].
Qed.

(** ** Numbers *)

Lemma skip_digits_spec s : exists d, s = d ++ skip_digits s /\ digits d.
Proof. destruct (span_digits_spec s) as (H1 & H2 & _). by exists (span_digits s).1. Qed.

Lemma skip_digits_app d r : digits d -> isdigit (hd 0 r) = false -> skip_digits (d ++ r) = r.
Proof. intros Hd Hr. unfold skip_digits. by rewrite span_digits_app. Qed.

Definition digit_first (s : bytes) : Prop := isdigit (hd 0 s) = true.

Lemma digit_first_nz s : digit_first s -> exists c r, s = c :: r /\ isdigit c = true /\ c <> 0.
Proof. destruct s as [|c r]; [done|]. intros H. exists c, r. unfold digit_first, isdigit in *. cbn [hd] in *. split_and!; done || lia. Qed.

Lemma skip_digits_first s : digit_first s -> exists d, s = d ++ skip_digits s /\ digits1 d /\ hd 0 d = hd 0 s.
Proof.
  intros (c & r & -> & Hc & _)%digit_first_nz. destruct (skip_digits_spec r) as (d & E & Hd). exists (c :: d).
  assert (skip_digits (c :: r) = skip_digits r) as -> by (unfold skip_digits; cbn [span_digits]; rewrite Hc; by destruct (span_digits r)).
  rewrite <- app_comm_cons, <- E. split_and!; try done. unfold digits1, digits. cbn [forallb]. by rewrite Hc, Hd.
Qed.

Lemma need_digit_sound t s : suffix s t -> cstr_ok s -> good (fun _ r => r = s /\ digit_first s) (need_digit t s).
Proof.
  intros Hs Hc. unfold need_digit. destruct s as [|c s]; step; [apply good_eof|]. apply cstr_cons in Hc as [Hc _]. replace (c =? 0) with false by lia.
  destruct (isdigit c) eqn:Ed; [by apply good_ok|]. apply good_at; [done|auto with json].
Qed.

Lemma need_digit_run t s : digit_first s -> need_digit t s = Ret (P_ok tt s).
Proof. intros (c & r & -> & Hc & Hnz)%digit_first_nz. unfold need_digit. step. replace (c =? 0) with false by lia. by rewrite Hc. Qed.

Definition frac_part (fp : bytes) : Prop := fp = [] \/ exists d, fp = 46 :: d /\ digits1 d.
Definition exp_part (ep : bytes) : Prop :=
  ep = [] \/ exists e es d, ep = e :: es ++ d /\ (e = 101 \/ e = 69) /\ (es = [] \/ es = [43] \/ es = [45]) /\ digits1 d.
Definition int_part (ip : bytes) : Prop := ip = [48] \/ exists c r, ip = c :: r /\ c <> 48 /\ digits ip.

Section Number.
Context (t : bytes).

Lemma sign_sound s :
  suffix s t -> cstr_ok s -> hd 0 s = 45 \/ digit_first s ->
  good (fun _ r => exists sg, s = sg ++ r /\ (sg = [] \/ sg = [45]) /\ digit_first r) (number_sign t s).
Proof.
  intros Hs Hc Hf. unfold number_sign. destruct s as [|c s]; [destruct Hf; done|]. step. destruct (c =? 45) eqn:E.
  - apply Z.eqb_eq in E as ->. step. apply cstr_cons in Hc as [_ Hc]. eapply good_mono; [apply need_digit_sound; [by eapply suffix_cons_tail|done]|].
    intros _ r [-> Hd]. exists [45]. auto.
  - apply good_ok. exists []. split; [done|]. split; [auto|]. destruct Hf as [Hf|Hf]; [cbn in Hf; lia|done].
Qed.

Lemma int_sound s : suffix s t -> cstr_ok s -> digit_first s -> good (fun _ r => exists ip, s = ip ++ r /\ int_part ip) (number_int t s).
Proof.
  intros Hs Hc Hf. unfold number_int. destruct (digit_first_nz s Hf) as (c & r & -> & Hd & Hnz). step. destruct (c =? 48) eqn:E.
  - apply Z.eqb_eq in E as ->. step. assert (good (fun _ r0 => exists ip, 48 :: r = ip ++ r0 /\ int_part ip) (Ret (P_ok tt r))) as Hok
      by (apply good_ok; exists [48]; split; [done|by left]).
    destruct r as [|c r]; step; [done|]. destruct (isdigit c); [|done]. apply good_at; [by eapply suffix_cons_tail|auto with json].
  - apply good_ok. destruct (skip_digits_first (c :: r) Hf) as (d & E' & [Hne Hdd] & Hh). exists d. split; [done|]. right.
    destruct d as [|c' d]; [done|]. exists c', d. cbn in Hh. split_and!; [done|lia|done].
Qed.

Lemma frac_sound s : suffix s t -> cstr_ok s -> good (fun _ r => exists fp, s = fp ++ r /\ frac_part fp) (number_frac t s).
Proof.
  intros Hs Hc. unfold number_frac. destruct s as [|c s]; step; [apply good_ok; exists []; split; [done|by left]|]. destruct (c =? 46) eqn:E.
  - apply Z.eqb_eq in E as ->. step. apply cstr_cons in Hc as [_ Hc]. eapply good_bind; [apply need_digit_sound; [by eapply suffix_cons_tail|done]|].
    intros _ r [-> Hd]. apply good_ok. destruct (skip_digits_first s Hd) as (d & E & Hdd & _). exists (46 :: d). rewrite <- app_comm_cons, <- E.
    split; [done|]. right. by exists d.
  - apply good_ok. exists []. split; [done|by left].
Qed.

Lemma exp_sound s : suffix s t -> cstr_ok s -> good (fun _ r => exists ep, s = ep ++ r /\ exp_part ep) (number_exp t s).
Proof.
  intros Hs Hc. unfold number_exp. destruct s as [|c s]; step; [apply good_ok; exists []; split; [done|by left]|].
  destruct ((c =? 101) || (c =? 69)) eqn:E; [|apply good_ok; exists []; split; [done|by left]]. step.
  apply cstr_cons in Hc as [_ Hc]. apply suffix_cons_tail in Hs.
  assert (forall es s', s = es ++ s' -> (es = [] \/ es = [43] \/ es = [45]) ->
    good (fun _ r => exists ep, c :: s = ep ++ r /\ exp_part ep) (let? _u, s0 := need_digit t s' in Ret (P_ok tt (skip_digits s0)))) as Hgo.
  { intros es s' -> Hes. eapply good_bind; [apply need_digit_sound; [by eapply suffix_tail|by apply cstr_app in Hc as []]|].
    intros _ r [-> Hd]. apply good_ok. destruct (skip_digits_first s' Hd) as (d & E' & Hdd & _). exists (c :: es ++ d).
    rewrite <- app_comm_cons, <- app_assoc, <- E'. split; [done|]. right. exists c, es, d. split_and!; [done|lia|done..]. }
  destruct s as [|c' s]; step; [apply (Hgo []); auto|]. destruct ((c' =? 43) || (c' =? 45)) eqn:E2; step; [apply (Hgo [c'])|apply (Hgo [])]; auto.
  apply orb_true_iff in E2 as [->%Z.eqb_eq | ->%Z.eqb_eq]; auto.
Qed.

(** What may not follow a number. *)
Definition ends_number (r : bytes) : Prop := match r with [] => True | c :: _ => isdigit c = false /\ c <> 46 /\ c <> 101 /\ c <> 69 end.

Lemma ends_nodigit r : ends_number r -> isdigit (hd 0 r) = false.
Proof. by destruct r as [|c r]; [|intros []]. Qed.

Lemma digits1_first d r : digits1 d -> digit_first (d ++ r).
Proof. intros [Hne Hd]. destruct d as [|c d]; [done|]. cbn in Hd. by apply andb_true_iff in Hd as [Hd _]. Qed.

Lemma exp_run ep r : exp_part ep -> ends_number r -> number_exp t (ep ++ r) = Ret (P_ok tt r).
Proof.
  intros Hep Hr. pose proof (ends_nodigit r Hr) as Hnd. destruct Hep as [->|(e & es & d & -> & He & Hes & Hd)]; unfold number_exp.
  - cbn [app]. destruct r as [|c r]; step; [done|]. destruct Hr as (_ & _ & H1 & H2). by replace ((c =? 101) || (c =? 69)) with false by lia.
  - cbn [app]. step. replace ((e =? 101) || (e =? 69)) with true by lia. step. rewrite <- app_assoc. destruct (digit_first_nz _ (digits1_first d r Hd)) as (c & z & E & Hc & _).
    destruct Hes as [->|[->| ->]]; cbn [app]; rewrite ?E; step; rewrite <- ?E.
    1: { replace ((c =? 43) || (c =? 45)) with false by (unfold isdigit in Hc; lia). cbn [rbind]. rewrite need_digit_run by by apply digits1_first.
      step. by rewrite skip_digits_app by (done || apply Hd). }
    all: cbn [Z.eqb Pos.eqb orb]; step; rewrite need_digit_run by (by apply digits1_first); step; by rewrite skip_digits_app by (done || apply Hd).
Qed.

Lemma frac_run fp r : frac_part fp -> isdigit (hd 0 r) = false -> hd 0 r <> 46 -> number_frac t (fp ++ r) = Ret (P_ok tt r).
Proof.
  intros [->|(d & -> & Hd)] Hnd Hr; unfold number_frac; cbn [app].
  - destruct r as [|c r]; step; [done|]. cbn in Hr. by replace (c =? 46) with false by lia.
  - step. rewrite need_digit_run by by apply digits1_first. step. by rewrite skip_digits_app by (done || apply Hd).
Qed.

Lemma int_run ip r : int_part ip -> isdigit (hd 0 r) = false -> number_int t (ip ++ r) = Ret (P_ok tt r).
Proof.
  intros [->|(c & z & -> & Hc & Hd)] Hnd; unfold number_int; cbn [app].
  - step. destruct r as [|c r]; step; [done|]. cbn in Hnd. by rewrite Hnd.
  - step. replace (c =? 48) with false by lia. rewrite app_comm_cons. by rewrite skip_digits_app.
Qed.

End Number.

(** ** The parser and the grammar *)

Section Exact.
Context `{Libc}.

Lemma number_sound t s :
  suffix s t -> cstr_ok s -> hd 0 s = 45 \/ digit_first s -> good (fun v r => exists x, s = x ++ r /\ value x v /\ nesting v = 0) (parse_number t s).
Proof.
  intros Hs Hc Hf. unfold parse_number.
  eapply good_bind; [by apply sign_sound|]. intros _ s1 (sg & E1 & Hsg & Hf1). assert (suffix s1 t /\ cstr_ok s1) as [Hs1 Hc1]
    by (subst; split; [by eapply suffix_tail|by apply cstr_app in Hc as []]).
  eapply good_bind; [by apply int_sound|]. intros _ s2 (ip & E2 & Hip). assert (suffix s2 t /\ cstr_ok s2) as [Hs2 Hc2]
    by (rewrite E2 in Hs1, Hc1; split; [by eapply suffix_tail|by apply cstr_app in Hc1 as []]).
  eapply good_bind; [by apply frac_sound|]. intros _ s3 (fp & E3 & Hfp). assert (suffix s3 t /\ cstr_ok s3) as [Hs3 Hc3]
    by (rewrite E3 in Hs2, Hc2; split; [by eapply suffix_tail|by apply cstr_app in Hc2 as []]).
  eapply good_bind; [by apply exp_sound|]. intros _ s4 (ep & E4 & Hep). assert (suffix s4 t) as Hs4 by (rewrite E4 in Hs3; by eapply suffix_tail).
  assert (s = (sg ++ ip ++ fp ++ ep) ++ s4) as E by (rewrite E1, E2, E3, E4; by rewrite <- !app_assoc).
  set (x := sg ++ ip ++ fp ++ ep) in *. assert (number x) as Hx by (exists sg, ip, fp, ep; by split_and!).
  replace (zlen s - zlen s4) with (zlen x) by (rewrite E; zlia). pose proof (zlen_nonneg x). pose proof (zlen_nonneg s4).
  destruct (zlen x >=? 128) eqn:El; [auto with json|]. rewrite E at 1. rewrite rdn_ok, slice_app_l by (zlia || done). cbn [rbind].
  destruct (strtod x) as [d|] eqn:Ed; [|auto with json]. apply good_ok. exists x. split; [done|]. split; [|done]. constructor; [done|lia|done].
Qed.

Lemma int_first ip r : int_part ip -> digit_first (ip ++ r).
Proof. intros [->|(c & z & -> & _ & Hd)]; [done|]. by apply digits1_first. Qed.

Lemma frac_first fp r : frac_part fp -> isdigit (hd 0 r) = false -> isdigit (hd 0 (fp ++ r)) = false.
Proof. by intros [->|(d & -> & _)]. Qed.

Lemma exp_first ep r : exp_part ep -> ends_number r -> isdigit (hd 0 (ep ++ r)) = false /\ hd 0 (ep ++ r) <> 46.
Proof.
  intros [->|(e & es & d & -> & He & _)] Hr; cbn [app hd].
  - destruct r as [|c r]; [done|]. by destruct Hr as (H1 & H2 & _).
  - unfold isdigit. lia.
Qed.

Lemma number_complete t x r d : number x -> zlen x < 128 -> strtod x = Some d -> ends_number r -> parse_number t (x ++ r) = Ret (P_ok (J_num d) r).
Proof.
  intros (sg & ip & fp & ep & -> & Hsg & Hip & Hfp & Hep) Hl Hd Hr. unfold parse_number. rewrite <- !app_assoc.
  destruct (exp_first ep r Hep Hr) as [He1 He2]. pose proof (frac_first fp (ep ++ r) Hfp He1) as Hf.
  assert (number_sign t (sg ++ ip ++ fp ++ ep ++ r) = Ret (P_ok tt (ip ++ fp ++ ep ++ r))) as ->.
  { pose proof (int_first ip (fp ++ ep ++ r) Hip) as Hi. unfold number_sign. destruct Hsg as [->| ->]; cbn [app].
    - destruct (digit_first_nz _ Hi) as (c & z & E & Hc & _). rewrite E. step. unfold isdigit in Hc. by replace (c =? 45) with false by lia.
    - step. by apply need_digit_run. }
  step. rewrite int_run by done. step. rewrite frac_run by done. step. rewrite exp_run by done. step.
  rewrite !app_assoc, <- !app_assoc, (app_assoc sg), (app_assoc (sg ++ ip)), (app_assoc ((sg ++ ip) ++ fp)). rewrite !app_assoc in Hl, Hd.
  set (x := ((sg ++ ip) ++ fp) ++ ep) in *. replace (zlen (x ++ r) - zlen r) with (zlen x) by zlia. replace (zlen x >=? 128) with false by lia.
  pose proof (zlen_nonneg x). pose proof (zlen_nonneg r). rewrite rdn_ok, slice_app_l by (zlia || done). cbn [rbind]. by rewrite Hd.
Qed.

Lemma lit_sound t s l v : suffix s t -> cstr_ok s -> good (fun v' r => v' = v /\ s = l ++ r) (parse_lit t s l v).
Proof.
  revert s. induction l as [|x l IH]; intros s Hs Hc; cbn [parse_lit]; [by apply good_ok|]. destruct s as [|c s]; step; [apply good_eof|].
  apply cstr_cons in Hc as [Hc0 Hc]. replace (c =? 0) with false by lia. destruct (c =? x) eqn:E; cbn [negb]; [|auto with json].
  apply Z.eqb_eq in E as ->. step. eapply good_mono; [apply IH; [by eapply suffix_cons_tail|done]|]. by intros v' r [-> ->].
Qed.

Lemma lit_complete t l r v : cstr_ok l -> parse_lit t (l ++ r) l v = Ret (P_ok v r).
Proof.
  induction l as [|x l IH]; intros Hl; cbn [parse_lit app]; [done|]. apply cstr_cons in Hl as [Hx Hl]. step. replace (x =? 0) with false by lia.
  rewrite Z.eqb_refl. cbn [negb]. step. by apply IH.
Qed.

Lemma parse_string_sound t s :
  suffix (34 :: s) t -> cstr_ok s -> good (fun v r => exists b, 34 :: s = 34 :: b ++ 34 :: r /\ sbody b v) (parse_string t (34 :: s)).
Proof.
  intros Hs Hc. unfold parse_string. step. eapply good_mono; [apply string_sound; [by eapply suffix_cons_tail|done|lia]|].
  intros v r (b & -> & Hb). by exists b.
Qed.

Lemma parse_string_complete t b v r : sbody b v -> cstr_ok (b ++ 34 :: r) -> parse_string t (34 :: b ++ 34 :: r) = Ret (P_ok v r).
Proof. intros Hb Hc. unfold parse_string. step. apply string_complete; [done|done|]. rewrite length_app. lia. Qed.

Definition fits (d : Z) (v : Json) : Prop := d + nesting v <= JSON_MAX_DEPTH.

Lemma fits_arr d l : d <= JSON_MAX_DEPTH -> fits d (J_arr l) <-> Forall (fits (d + 1)) l.
Proof.
  unfold fits. intros Hd. cbn [nesting]. induction l as [|v l IH]; cbn [fold_right]; [split; [by constructor|lia]|]. rewrite Forall_cons, <- IH. lia.
Qed.

Lemma fits_obj d l : d <= JSON_MAX_DEPTH -> fits d (J_obj l) <-> Forall (fun kv => fits (d + 1) kv.2) l.
Proof.
  unfold fits. intros Hd. cbn [nesting]. induction l as [|v l IH]; cbn [fold_right]; [split; [by constructor|lia]|]. rewrite Forall_cons, <- IH. lia.
Qed.

Lemma nesting_nonneg v : 0 <= nesting v.
Proof. destruct v as [| | | |l|l]; cbn [nesting]; try lia; induction l; cbn [fold_right]; lia. Qed.

(** What a successful parse of a value, of the rest of an array and of the rest of an object means. *)
Definition is_value (d : Z) (s : bytes) (v : Json) (r : bytes) : Prop :=
  exists w x, s = w ++ x ++ r /\ ws w /\ value x v /\ fits d v.
Definition is_rest (d : Z) (s : bytes) (ac : bool) (l : list Json) (r : bytes) : Prop :=
  exists b, s = b ++ 93 :: r /\ (l = [] /\ ac = false /\ ws b \/ elements b l) /\ Forall (fits (d + 1)) l.
Definition is_fields (d : Z) (s : bytes) (ac : bool) (l : list (bytes * Json)) (r : bytes) : Prop :=
  exists b, s = b ++ 125 :: r /\ (l = [] /\ ac = false /\ ws b \/ members b l) /\ Forall (fun kv => fits (d + 1) kv.2) l.

(** Split off leading space and look at what comes next. *)
Lemma at_next s t : suffix s t -> cstr_ok s ->
  exists w, s = w ++ skip_ws s /\ ws w /\ suffix (skip_ws s) t /\ cstr_ok (skip_ws s) /\ (length (skip_ws s) <= length s)%nat.
Proof.
  intros Hs Hc. destruct (skip_ws_spec s) as (w & E & Hw). exists w. rewrite E in Hs, Hc. split_and!; [done|done|by eapply suffix_tail|by apply cstr_app in Hc as []|].
  rewrite E at 2. rewrite length_app. lia.
Qed.

Definition sound_v (fuel : nat) : Prop :=
  forall t s d, suffix s t -> cstr_ok s -> (2 * length s + 1 <= fuel)%nat -> good (is_value d s) (parse_value fuel t s d).
Definition sound_a (fuel : nat) : Prop :=
  forall t s d ac, suffix s t -> cstr_ok s -> (2 * length s + 2 <= fuel)%nat -> good (is_rest d s ac) (array_loop fuel t s d ac).
Definition sound_o (fuel : nat) : Prop :=
  forall t s d ac, suffix s t -> cstr_ok s -> (2 * length s + 2 <= fuel)%nat -> good (is_fields d s ac) (object_loop fuel t s d ac).

Lemma value_step fuel : sound_a fuel -> sound_o fuel -> sound_v (S fuel).
Proof.
  intros IHa IHo t s d Hs Hc Hf. destruct (at_next s t Hs Hc) as (w & E & Hw & Hs' & Hc' & Hl). cbn [parse_value]. replace (is_value d s) with (is_value d (w ++ skip_ws s)) by (by rewrite <- E). clear E Hs Hc.
  assert (length (skip_ws s) <= length s)%nat as Hl' by done. revert Hs' Hc' Hl'. generalize (skip_ws s) as z. intros z Hs Hc Hl'.
  destruct (d >? JSON_MAX_DEPTH) eqn:Ed; [auto with json|]. destruct z as [|c z]; step; [apply good_eof|].
  apply cstr_cons in Hc as [Hc0 Hc]. cbn [length] in Hl'. pose proof (suffix_cons_tail _ _ _ Hs) as Hs'. replace (c =? 0) with false by lia.
  assert (forall (m : res (pout Json)), good (fun v r => exists x, c :: z = x ++ r /\ value x v /\ fits d v) m -> good (is_value d (w ++ c :: z)) m) as Hgo.
  { intros m Hm. eapply good_mono; [exact Hm|]. intros v r (x & -> & Hv & Hd). by exists w, x. }
  assert (forall v, nesting v = 0 -> fits d v) as Hflat by (unfold fits; intros v ->; lia). apply Hgo.
  destruct (c =? 123) eqn:E1; [apply Z.eqb_eq in E1 as ->|destruct (c =? 91) eqn:E2; [apply Z.eqb_eq in E2 as ->|destruct (c =? 34) eqn:E3; [apply Z.eqb_eq in E3 as ->|]]].
  - step. eapply good_bind; [apply IHo; [done|done|lia]|]. intros l r (b & -> & Hb & Hd). apply good_ok. exists (123 :: b ++ [125]). cbn [app].
    rewrite <- app_assoc. split; [done|]. rewrite fits_obj by lia. split; [|done]. destruct Hb as [(-> & _ & Hw')|Hb]; by constructor.
  - step. eapply good_bind; [apply IHa; [done|done|lia]|]. intros l r (b & -> & Hb & Hd). apply good_ok. exists (91 :: b ++ [93]). cbn [app].
    rewrite <- app_assoc. split; [done|]. rewrite fits_arr by lia. split; [|done]. destruct Hb as [(-> & _ & Hw')|Hb]; by constructor.
  - eapply good_bind; [by apply parse_string_sound|]. intros v r (b & -> & Hb). apply good_ok. exists (34 :: b ++ [34]). cbn [app].
    rewrite <- app_assoc. split; [done|]. split; [by constructor|by apply Hflat].
  - pose proof (proj2 (cstr_cons c z) (conj Hc0 Hc)) as Hcz.
    assert (forall l v, value l v -> nesting v = 0 -> good (fun v r => exists x, c :: z = x ++ r /\ value x v /\ fits d v) (parse_lit t (c :: z) l v)) as Hlit.
    { intros l v Hv Hn. eapply good_mono; [by apply lit_sound|]. intros v' r [-> E]. exists l. auto. }
    destruct (c =? 116); [apply Hlit; [constructor|done]|]. destruct (c =? 102); [apply Hlit; [constructor|done]|].
    destruct (c =? 110); [apply Hlit; [constructor|done]|]. destruct ((c =? 45) || isdigit c) eqn:En; [|auto with json].
    apply orb_true_iff in En. eapply good_mono; [apply number_sound; [done|done|destruct En as [E|E]; [left; cbn; lia|by right]]|].
    intros v r (x & E & Hv & Hn). exists x. auto.
Qed.

Lemma fits_le d v : fits d v -> d <= JSON_MAX_DEPTH.
Proof. unfold fits. pose proof (nesting_nonneg v). lia. Qed.

Lemma array_step fuel : sound_v fuel -> sound_a fuel -> sound_a (S fuel).
Proof.
  intros IHv IHa t s d ac Hs Hc Hf. destruct (at_next s t Hs Hc) as (w & E & Hw & Hs' & Hc' & Hl). cbn [array_loop].
  replace (is_rest d s) with (is_rest d (w ++ skip_ws s)) by (by rewrite <- E). clear E Hs Hc.
  revert Hs' Hc' Hl. generalize (skip_ws s) as z. intros z Hs Hc Hl. destruct z as [|c z]; step; [apply good_eof|].
  destruct (c =? 93) eqn:E93.
  { apply Z.eqb_eq in E93 as ->. destruct ac; [auto with json|]. step. apply good_ok. exists w. split; [done|]. split; [auto|constructor]. }
  pose proof (proj1 (proj1 (cstr_cons c z) Hc)). replace (c =? 0) with false by lia.
  eapply good_bind; [apply (IHv t (c :: z) (d + 1)); [done|done|lia]|]. intros v r (w1 & x & E & Hw1 & Hx & Hd). rewrite E in Hs, Hc, Hl |- *.
  pose proof (suffix_tail _ _ _ (suffix_tail _ _ _ Hs)) as Hsr. apply cstr_app in Hc as [_ Hc]. apply cstr_app in Hc as [_ Hc].
  rewrite !length_app in Hl. destruct (at_next r t Hsr Hc) as (w2 & E2 & Hw2 & Hs2 & Hc2 & Hl2).
  replace (is_rest d (w ++ w1 ++ x ++ r)) with (is_rest d ((w ++ w1) ++ x ++ w2 ++ skip_ws r)) by (by rewrite <- E2, <- app_assoc). clear E E2 Hs.
  assert (ws (w ++ w1)) as Hww by by apply Forall_app.
  revert Hs2 Hc2 Hl2. generalize (skip_ws r) as y. intros y Hs2 Hc2 Hl2. destruct y as [|c' y]; step; [apply good_eof|].
  apply cstr_cons in Hc2 as [Hc0 Hc2]. pose proof (suffix_cons_tail _ _ _ Hs2) as Hs3. cbn [length] in Hl2. destruct (c' =? 44) eqn:E44.
  - apply Z.eqb_eq in E44 as ->. step. eapply good_bind; [apply (IHa t y d true); [done|done|lia]|]. intros l r' (b & -> & Hb & Hds).
    destruct Hb as [(_ & ? & _)|Hb]; [done|]. apply good_ok. exists ((w ++ w1) ++ x ++ w2 ++ 44 :: b). split; [by rewrite <- !app_assoc|]. split; [right; by constructor|by constructor].
  - destruct (c' =? 93) eqn:E93'; [apply Z.eqb_eq in E93' as ->|].
    + step. apply good_ok. exists ((w ++ w1) ++ x ++ w2). split; [by rewrite <- !app_assoc|]. split; [right; by constructor|by repeat constructor].
    + replace (c' =? 0) with false by lia. auto with json.
Qed.

Lemma object_step fuel : sound_v fuel -> sound_o fuel -> sound_o (S fuel).
Proof.
  intros IHv IHo t s d ac Hs Hc Hf. destruct (at_next s t Hs Hc) as (w & E & Hw & Hs' & Hc' & Hl). cbn [object_loop].
  replace (is_fields d s) with (is_fields d (w ++ skip_ws s)) by (by rewrite <- E). clear E Hs Hc.
  revert Hs' Hc' Hl. generalize (skip_ws s) as z. intros z Hs Hc Hl. destruct z as [|c z]; step; [apply good_eof|].
  destruct (c =? 125) eqn:E125.
  { apply Z.eqb_eq in E125 as ->. destruct ac; [auto with json|]. step. apply good_ok. exists w. split; [done|]. split; [auto|constructor]. }
  apply cstr_cons in Hc as [Hc0 Hc]. replace (c =? 0) with false by lia. destruct (c =? 34) eqn:E34; cbn [negb]; [|auto with json]. apply Z.eqb_eq in E34 as ->.
  eapply good_bind; [by apply parse_string_sound|]. intros ks r [k [[= ->] Hk]].
  pose proof (suffix_cons_tail _ _ _ (suffix_tail _ _ _ (suffix_cons_tail _ _ _ Hs))) as Hsr. apply cstr_app in Hc as [_ Hc]. apply cstr_cons in Hc as [_ Hc].
  cbn [length] in Hl. rewrite length_app in Hl. cbn [length] in Hl.
  destruct (at_next r t Hsr Hc) as (w2 & E2 & Hw2 & Hs2 & Hc2 & Hl2). rewrite E2 at 1. clear E2 Hs Hsr Hc.
  revert Hs2 Hc2 Hl2. generalize (skip_ws r) as y. intros y Hs2 Hc2 Hl2. destruct y as [|c y]; step; [apply good_eof|].
  apply cstr_cons in Hc2 as [Hc2 Hc]. replace (c =? 0) with false by lia. destruct (c =? 58) eqn:E58; cbn [negb]; [|auto with json]. apply Z.eqb_eq in E58 as ->. step.
  apply suffix_cons_tail in Hs2. cbn [length] in Hl2.
  eapply good_bind; [apply (IHv t y (d + 1)); [done|done|lia]|]. intros v q (w3 & x & -> & Hw3 & Hx & Hd).
  pose proof (suffix_tail _ _ _ (suffix_tail _ _ _ Hs2)) as Hs3. apply cstr_app in Hc as [_ Hc]. apply cstr_app in Hc as [_ Hc]. rewrite !length_app in Hl2.
  destruct (at_next q t Hs3 Hc) as (w4 & E4 & Hw4 & Hs4 & Hc4 & Hl4). rewrite E4 at 1. clear E4 Hs2 Hs3 Hc.
  revert Hs4 Hc4 Hl4. generalize (skip_ws q) as u. intros u Hs4 Hc4 Hl4. destruct u as [|c' u]; step; [apply good_eof|].
  apply cstr_cons in Hc4 as [Hc' Hc4]. pose proof (suffix_cons_tail _ _ _ Hs4) as Hs5. cbn [length] in Hl4. destruct (c' =? 44) eqn:E44.
  - apply Z.eqb_eq in E44 as ->. step. eapply good_bind; [apply (IHo t u d true); [done|done|lia]|]. intros l r' (b & -> & Hb & Hds).
    destruct Hb as [(_ & ? & _)|Hb]; [done|]. apply good_ok. exists (w ++ 34 :: k ++ 34 :: w2 ++ 58 :: w3 ++ x ++ w4 ++ 44 :: b).
    split; [by repeat (rewrite <- !app_assoc; cbn [app])|]. split; [right; by constructor|by constructor].
  - destruct (c' =? 125) eqn:E125'; [apply Z.eqb_eq in E125' as ->|].
    + step. apply good_ok. exists (w ++ 34 :: k ++ 34 :: w2 ++ 58 :: w3 ++ x ++ w4). split; [by repeat (rewrite <- !app_assoc; cbn [app])|].
      split; [right; by constructor|by repeat constructor].
    + replace (c' =? 0) with false by lia. auto with json.
Qed.

Lemma parse_sound fuel : sound_v fuel /\ sound_a fuel /\ sound_o fuel.
Proof.
  induction fuel as [|fuel (IHv & IHa & IHo)]; [split_and!; intros ?; intros; lia|]. auto using value_step, array_step, object_step.
Qed.

(** ** Completeness *)

Definition opens_value (c : Z) : Prop := isspace c = false /\ c <> 0 /\ c <> 93 /\ c <> 125.

Lemma value_first x v : value x v -> exists c z, x = c :: z /\ opens_value c.
Proof.
  unfold opens_value. intros [| | |y d Hy _ _|b s _|w _|b l _|w _|b l _]; try (eexists _, _; split_and!; done).
  destruct Hy as (sg & ip & fp & ep & -> & Hsg & Hip & _). destruct Hsg as [->| ->]; [|eexists _, _; split_and!; done].
  destruct (digit_first_nz _ (int_first ip (fp ++ ep) Hip)) as (c & z & E & Hc & _). cbn [app]. rewrite E. eexists _, _. unfold isdigit, isspace in *. split_and!; done || lia.
Qed.

Lemma ends_ws w z : ws w -> ends_number z -> ends_number (w ++ z).
Proof. intros [|c w' Hc _] Hz; [done|]. unfold isspace in Hc. cbn. unfold isdigit. lia. Qed.

Lemma at_value w x v r : ws w -> value x v -> skip_ws (w ++ x ++ r) = x ++ r.
Proof. intros Hw Hx. destruct (value_first x v Hx) as (c & z & -> & Hc & _). by apply skip_ws_app. Qed.

Lemma at_char w c r : ws w -> isspace c = false -> skip_ws (w ++ c :: r) = c :: r.
Proof. intros Hw Hc. by apply skip_ws_app. Qed.

Definition complete_v (x : bytes) (v : Json) : Prop :=
  forall fuel t w r d, ws w -> ends_number r -> cstr_ok (x ++ r) -> fits d v -> (2 * length x + 1 <= fuel)%nat ->
    parse_value fuel t (w ++ x ++ r) d = Ret (P_ok v r).
Definition complete_a (b : bytes) (l : list Json) : Prop :=
  forall fuel t r d ac, cstr_ok (b ++ 93 :: r) -> Forall (fits (d + 1)) l -> (2 * length b + 2 <= fuel)%nat ->
    array_loop fuel t (b ++ 93 :: r) d ac = Ret (P_ok l r).
Definition complete_o (b : bytes) (l : list (bytes * Json)) : Prop :=
  forall fuel t r d ac, cstr_ok (b ++ 125 :: r) -> Forall (fun kv => fits (d + 1) kv.2) l -> (2 * length b + 2 <= fuel)%nat ->
    object_loop fuel t (b ++ 125 :: r) d ac = Ret (P_ok l r).

(** A value that is neither an array nor an object. *)
Lemma scalar_complete x v :
  value x v -> (forall t r, ends_number r -> cstr_ok (x ++ r) ->
    forall c z, x = c :: z -> c <> 123 /\ c <> 91 /\
    (if c =? 34 then let? b, s := parse_string t (x ++ r) in Ret (P_ok (J_str b) s)
     else if c =? 116 then parse_lit t (x ++ r) (lit "true") (J_bool true)
     else if c =? 102 then parse_lit t (x ++ r) (lit "false") (J_bool false)
     else if c =? 110 then parse_lit t (x ++ r) (lit "null") J_null
     else if (c =? 45) || isdigit c then parse_number t (x ++ r) else fail_at t (x ++ r) 0 (lit "expected value")) = Ret (P_ok v r)) ->
  complete_v x v.
Proof.
  intros Hv Hp fuel t w r d Hw Hr Hc Hd Hf. destruct fuel as [|fuel]; [lia|]. cbn [parse_value]. rewrite (at_value w x v r Hw Hv).
  pose proof (fits_le d v Hd). replace (d >? JSON_MAX_DEPTH) with false by lia. destruct (value_first x v Hv) as (c & z & E & Ho).
  destruct (Hp t r Hr Hc c z E) as (H1 & H2 & Hrun). rewrite <- Hrun, E. cbn [app]. step. destruct Ho as (_ & Hc0 & _).
  replace (c =? 0) with false by lia. replace (c =? 123) with false by lia. by replace (c =? 91) with false by lia.
Qed.

Lemma num_complete x d : number x -> zlen x < 128 -> strtod x = Some d -> complete_v x (J_num d).
Proof.
  intros Hn Hl Hd. apply scalar_complete; [by constructor|]. intros t r Hr _ c z E. rewrite <- (number_complete t x r d) by done.
  assert (c = 45 \/ isdigit c = true) as Hc.
  { destruct Hn as (sg & ip & fp & ep & E' & Hsg & Hip & _). destruct (digit_first_nz _ (int_first ip (fp ++ ep) Hip)) as (c' & z' & E2 & Hc' & _).
    destruct Hsg as [->| ->]; cbn [app] in E'; [rewrite E2 in E'; right|left]; congruence. }
  unfold isdigit in *. destruct Hc as [->|Hc]; [done|]. split_and!; try lia. replace (c =? 34) with false by lia. replace (c =? 116) with false by lia.
  replace (c =? 102) with false by lia. replace (c =? 110) with false by lia. rewrite Hc. by rewrite orb_true_r.
Qed.

Lemma str_complete b s : sbody b s -> complete_v (34 :: b ++ [34]) (J_str s).
Proof.
  intros Hb. apply scalar_complete; [by constructor|]. intros t r Hr Hc c z [= <- _]. split_and!; try done. cbn [app] in *. rewrite <- app_assoc in *.
  cbn [app] in *. apply cstr_cons in Hc as [_ Hc]. by rewrite parse_string_complete with (v := s).
Qed.

Lemma lits_complete :
  complete_v (lit "null") J_null /\ complete_v (lit "true") (J_bool true) /\ complete_v (lit "false") (J_bool false).
Proof. split_and!; (apply scalar_complete; [constructor|]; intros t r _ _ c z [= <- _]; split_and!; try done; apply lit_complete; repeat constructor). Qed.

(** The bracket that opens an array or an object. *)
Lemma open_arr fuel t w s d :
  ws w -> d <= JSON_MAX_DEPTH -> parse_value (S fuel) t (w ++ 91 :: s) d = let? l, s := array_loop fuel t s d false in Ret (P_ok (J_arr l) s).
Proof. intros Hw Hd. cbn [parse_value]. rewrite at_char by done. replace (d >? JSON_MAX_DEPTH) with false by lia. by step. Qed.

Lemma open_obj fuel t w s d :
  ws w -> d <= JSON_MAX_DEPTH -> parse_value (S fuel) t (w ++ 123 :: s) d = let? l, s := object_loop fuel t s d false in Ret (P_ok (J_obj l) s).
Proof. intros Hw Hd. cbn [parse_value]. rewrite at_char by done. replace (d >? JSON_MAX_DEPTH) with false by lia. by step. Qed.

Lemma arr_complete b l : complete_a b l -> complete_v (91 :: b ++ [93]) (J_arr l).
Proof.
  intros Hb [|fuel] t w r d Hw Hr Hc Hd Hf; [lia|]. pose proof (fits_le _ _ Hd) as Hd0. cbn [app length] in *. rewrite length_app in Hf. cbn [length] in Hf.
  rewrite <- app_assoc in *. cbn [app] in *. apply cstr_cons in Hc as [_ Hc]. rewrite open_arr, Hb by (done || lia || by apply fits_arr). done.
Qed.

Lemma obj_complete b l : complete_o b l -> complete_v (123 :: b ++ [125]) (J_obj l).
Proof.
  intros Hb [|fuel] t w r d Hw Hr Hc Hd Hf; [lia|]. pose proof (fits_le _ _ Hd) as Hd0. cbn [app length] in *. rewrite length_app in Hf. cbn [length] in Hf.
  rewrite <- app_assoc in *. cbn [app] in *. apply cstr_cons in Hc as [_ Hc]. rewrite open_obj, Hb by (done || lia || by apply fits_obj). done.
Qed.

Lemma empty_complete w : ws w -> complete_v (91 :: w ++ [93]) (J_arr []) /\ complete_v (123 :: w ++ [125]) (J_obj []).
Proof.
  intros Hw. split; intros [|fuel] t w' r d Hw' Hr Hc Hd Hf; try lia; pose proof (fits_le _ _ Hd) as Hd0; cbn [app length] in *; rewrite <- app_assoc in *; cbn [app] in *.
  - rewrite open_arr by done. destruct fuel as [|fuel]; [lia|]. cbn [array_loop]. rewrite at_char by done. by step.
  - rewrite open_obj by done. destruct fuel as [|fuel]; [lia|]. cbn [object_loop]. rewrite at_char by done. by step.
Qed.

(** One element and what follows it. *)
Lemma element_run fuel t w1 x w2 v c y d ac :
  ws w1 -> value x v -> complete_v x v -> ws w2 -> c = 44 \/ c = 93 -> cstr_ok (x ++ w2 ++ c :: y) -> fits (d + 1) v -> (2 * length x + 1 <= fuel)%nat ->
  array_loop (S fuel) t (w1 ++ x ++ w2 ++ c :: y) d ac =
    if c =? 44 then let? l, s := array_loop fuel t y d true in Ret (P_ok (v :: l) s) else Ret (P_ok [v] y).
Proof.
  intros Hw1 Hx Hcx Hw2 Hcc Hc Hd Hf. cbn [array_loop]. rewrite (at_value w1 x v) by done. destruct (value_first x v Hx) as (c0 & z & E & Ho).
  assert (rdc (x ++ w2 ++ c :: y) 0 = Ret c0) as -> by (rewrite E; cbn [app]; by step). cbn [rbind]. destruct Ho as (_ & H1 & H2 & _).
  replace (c0 =? 93) with false by lia. replace (c0 =? 0) with false by lia.
  pose proof (Hcx fuel t [] (w2 ++ c :: y) (d + 1)) as Hrun. cbn [app] in Hrun. rewrite Hrun; [|constructor|apply ends_ws; [done|cbn; unfold isdigit; lia]|done..].
  step. rewrite at_char by (done || (unfold isspace; lia)). step. destruct Hcc as [->| ->]; by step.
Qed.

(** One member and what follows it. *)
Lemma member_run fuel t w1 k ks w2 w3 x w4 v c y d ac :
  ws w1 -> sbody k ks -> ws w2 -> ws w3 -> value x v -> complete_v x v -> ws w4 -> c = 44 \/ c = 125 ->
  cstr_ok (k ++ 34 :: w2 ++ 58 :: w3 ++ x ++ w4 ++ c :: y) -> fits (d + 1) v -> (2 * length x + 1 <= fuel)%nat ->
  object_loop (S fuel) t (w1 ++ 34 :: k ++ 34 :: w2 ++ 58 :: w3 ++ x ++ w4 ++ c :: y) d ac =
    if c =? 44 then let? l, s := object_loop fuel t y d true in Ret (P_ok ((ks, v) :: l) s) else Ret (P_ok [(ks, v)] y).
Proof.
  intros Hw1 Hk Hw2 Hw3 Hx Hcx Hw4 Hcc Hc Hd Hf. cbn [object_loop]. rewrite at_char by done. step. cbn [Z.eqb Pos.eqb negb].
  rewrite parse_string_complete with (v := ks) by done. step. rewrite at_char by done. step. cbn [Z.eqb Pos.eqb negb]. step.
  apply cstr_app in Hc as [_ Hc]. apply cstr_cons in Hc as [_ Hc]. apply cstr_app in Hc as [_ Hc]. apply cstr_cons in Hc as [_ Hc]. apply cstr_app in Hc as [_ Hc].
  rewrite (Hcx fuel t w3 (w4 ++ c :: y) (d + 1)); [|done|apply ends_ws; [done|cbn; unfold isdigit; lia]|done..].
  step. rewrite at_char by (done || (unfold isspace; lia)). step. destruct Hcc as [->| ->]; by step.
Qed.

Lemma element_complete w1 x w2 v : ws w1 -> value x v -> complete_v x v -> ws w2 -> complete_a (w1 ++ x ++ w2) [v].
Proof.
  intros Hw1 Hx Hcx Hw2 [|fuel] t r d ac Hc Hd Hf; [lia|]. rewrite !length_app in Hf. rewrite <- !app_assoc in *. apply cstr_app in Hc as [_ Hc].
  rewrite element_run with (v := v) by (auto || lia || by inversion Hd). done.
Qed.

Lemma elements_complete w1 x w2 v b l :
  ws w1 -> value x v -> complete_v x v -> ws w2 -> complete_a b l -> complete_a (w1 ++ x ++ w2 ++ 44 :: b) (v :: l).
Proof.
  intros Hw1 Hx Hcx Hw2 Hb [|fuel] t r d ac Hc Hd Hf; [lia|]. rewrite !length_app in Hf. cbn [length] in Hf. rewrite <- !app_assoc in *. cbn [app] in *.
  apply cstr_app in Hc as [_ Hc]. rewrite Forall_cons in Hd. destruct Hd as [Hd Hds]. rewrite element_run with (v := v) by (auto || lia).
  apply cstr_app in Hc as [_ Hc]. apply cstr_app in Hc as [_ Hc]. apply cstr_cons in Hc as [_ Hc]. cbn [Z.eqb Pos.eqb]. by rewrite Hb by (done || lia).
Qed.

Lemma member_complete w1 k ks w2 w3 x w4 v :
  ws w1 -> sbody k ks -> ws w2 -> ws w3 -> value x v -> complete_v x v -> ws w4 ->
  complete_o (w1 ++ 34 :: k ++ 34 :: w2 ++ 58 :: w3 ++ x ++ w4) [(ks, v)].
Proof.
  intros Hw1 Hk Hw2 Hw3 Hx Hcx Hw4 [|fuel] t r d ac Hc Hd Hf; [lia|]. repeat (rewrite length_app in Hf; cbn [length] in Hf). repeat (rewrite <- !app_assoc in *; cbn [app] in *).
  apply cstr_app in Hc as [_ Hc]. apply cstr_cons in Hc as [_ Hc]. rewrite member_run with (ks := ks) (v := v) by (auto || lia || by inversion Hd). done.
Qed.

Lemma members_complete w1 k ks w2 w3 x w4 v b l :
  ws w1 -> sbody k ks -> ws w2 -> ws w3 -> value x v -> complete_v x v -> ws w4 -> complete_o b l ->
  complete_o (w1 ++ 34 :: k ++ 34 :: w2 ++ 58 :: w3 ++ x ++ w4 ++ 44 :: b) ((ks, v) :: l).
Proof.
  intros Hw1 Hk Hw2 Hw3 Hx Hcx Hw4 Hb [|fuel] t r d ac Hc Hd Hf; [lia|]. repeat (rewrite length_app in Hf; cbn [length] in Hf). repeat (rewrite <- !app_assoc in *; cbn [app] in *).
  apply cstr_app in Hc as [_ Hc]. apply cstr_cons in Hc as [_ Hc]. rewrite Forall_cons in Hd. destruct Hd as [Hd Hds].
  rewrite member_run with (ks := ks) (v := v) by (auto || lia). cbn [Z.eqb Pos.eqb].
  rewrite Hb by (done || lia || (unfold cstr_ok in *; rewrite ?Forall_app, ?Forall_cons in *; repeat (rewrite ?Forall_app, ?Forall_cons in Hc); tauto)). done.
Qed.

Lemma parse_complete :
  (forall x v, value x v -> complete_v x v) /\ (forall b l, elements b l -> complete_a b l) /\ (forall b l, members b l -> complete_o b l).
Proof.
  destruct lits_complete as (Hnull & Htrue & Hfalse).
  apply (grammar_ind complete_v complete_a complete_o); auto using num_complete, str_complete, arr_complete, obj_complete, element_complete, elements_complete,
    member_complete, members_complete.
  - intros. by apply empty_complete.
  - intros. by apply empty_complete.
Qed.

End Exact.

(** ** Strings hold no NUL *)

Fixpoint strings_ok (j : Json) : Prop :=
  match j with
  | J_str s => cstr_ok s
  | J_arr l => fold_right (fun x P => strings_ok x /\ P) True l
  | J_obj l => fold_right (fun x P => (cstr_ok x.1 /\ strings_ok x.2) /\ P) True l
  | _ => True
  end.

Lemma u8_lor_pos a b : 0 < a < 256 -> 0 <= b < 256 -> 0 < u8 (Z.lor a b) < 256.
Proof.
  intros Ha Hb. assert (0 <= Z.lor a b < 2 ^ 8) as Hr.
  { split; [apply Z.lor_nonneg; lia|]. assert (0 <= Z.lor a b) by (apply Z.lor_nonneg; lia). destruct (decide (Z.lor a b = 0)) as [->|]; [lia|].
    apply Z.log2_lt_pow2; [lia|]. rewrite Z.log2_lor by lia. destruct (decide (b = 0)) as [->|]; [change (Z.log2 0) with 0; rewrite Z.max_l by apply Z.log2_nonneg; apply Z.log2_lt_pow2; lia|].
    apply Z.max_lub_lt; apply Z.log2_lt_pow2; lia. }
  rewrite u8_small by lia. destruct (decide (Z.lor a b = 0)) as [E|]; [|lia]. apply Z.lor_eq_0_iff in E. lia.
Qed.

Lemma utf8_nonul cp : 0 < cp < 2 ^ 21 -> cstr_ok (utf8_encode cp).
Proof.
  intros Hcp. assert (forall x, 0 <= Z.land x 63 < 256) as H63 by (intros x; change 63 with (Z.ones 6); rewrite Z.land_ones by lia; lia).
  unfold utf8_encode. repeat case_match; repeat (apply cstr_cons; split); try constructor; try (apply u8_lor_pos; [lia|]); auto; rewrite ?u8_small; rewrite ?Z.shiftr_div_pow2; lia.
Qed.

Lemma hexval_range h v : hexval h = Some v -> 0 <= v < 65536.
Proof.
  destruct h as [|a [|b [|c [|d [|]]]]]; try done. unfold hexval. destruct (forallb _ _) eqn:E; [|done]. intros [= <-]. cbn [forallb] in E.
  pose proof (hex_nibble_range a). pose proof (hex_nibble_range b). pose proof (hex_nibble_range c). pose proof (hex_nibble_range d). lia.
Qed.

Lemma sbody_nonul b s : sbody b s -> cstr_ok b -> cstr_ok s.
Proof.
  induction 1 as [|c b s H1 H2 H3 Hb IH|e m b s He Hb IH|h cp b s Hh H0 Hno Hb IH|h hi h' lo b s Hh Hhi Hh' Hlo Hb IH]; intros Hc; [constructor|..].
  - apply cstr_cons in Hc as [Hc Hb']. apply cstr_cons. auto.
  - apply cstr_cons in Hc as [_ Hc]. apply cstr_cons in Hc as [He' Hb']. apply cstr_cons. split; [|auto]. revert He. unfold simple_escape. repeat case_match; intros [= <-]; lia.
  - apply (cstr_app (92 :: 117 :: h)) in Hc as [_ Hb']. apply cstr_app. split; [|auto]. apply hexval_range in Hh. apply utf8_nonul. lia.
  - assert (cstr_ok b) as Hb' by (apply cstr_cons in Hc as [_ Hc]; apply cstr_cons in Hc as [_ Hc]; apply cstr_app in Hc as [_ Hc]; apply cstr_cons in Hc as [_ Hc];
      apply cstr_cons in Hc as [_ Hc]; by apply cstr_app in Hc as [_ Hc]).
    apply cstr_app. split; [|auto]. unfold is_high, is_low in *. apply utf8_nonul. lia.
Qed.

Lemma value_nonul `{Libc} :
  (forall x v, value x v -> cstr_ok x -> strings_ok v) /\
  (forall b l, elements b l -> cstr_ok b -> strings_ok (J_arr l)) /\ (forall b l, members b l -> cstr_ok b -> strings_ok (J_obj l)).
Proof.
  assert (forall c b d, cstr_ok (c :: b ++ [d]) -> cstr_ok b) as Hin by (intros c b d Hc; apply cstr_cons in Hc as [_ Hc]; by apply cstr_app in Hc as [? _]).
  apply grammar_ind; try done.
  - intros b s Hb Hc. eapply sbody_nonul; [exact Hb|]. by eapply Hin.
  - intros b l _ IH Hc. apply IH. by eapply Hin.
  - intros b l _ IH Hc. apply IH. by eapply Hin.
  - intros w1 x w2 v _ _ IH _ Hc. rewrite !cstr_app in Hc. cbn. split; [|done]. apply IH. tauto.
  - intros w1 x w2 v b l _ _ IH _ _ IH2 Hc. rewrite !cstr_app, cstr_cons in Hc. cbn. split; [apply IH; tauto|apply IH2; tauto].
  - intros w1 k ks w2 w3 x w4 v _ Hk _ _ _ IH _ Hc. repeat (rewrite ?cstr_app, ?cstr_cons in Hc). cbn. split; [|done]. split; [eapply sbody_nonul; [exact Hk|tauto]|apply IH; tauto].
  - intros w1 k ks w2 w3 x w4 v b l _ Hk _ _ _ IH _ _ IH2 Hc. repeat (rewrite ?cstr_app, ?cstr_cons in Hc). cbn.
    split; [split; [eapply sbody_nonul; [exact Hk|tauto]|apply IH; tauto]|apply IH2; tauto].
Qed.

(** ** Whole texts *)

Lemma free_sum {A} (f g : A -> Z) l n : Forall (fun x => f x = g x) l -> fold_left (fun n x => n + f x) l n = n + fold_right (fun x n => g x + n) 0 l.
Proof. intros Hl. revert n. induction Hl as [|x l Hx Hl IH]; intros n; cbn [fold_left fold_right]; [lia|]. rewrite IH, Hx. lia. Qed.

Lemma free_all v d : fits d v -> json_free_d v d = nodes v.
Proof.
  revert d. induction v as [|b|x|s|l IH|l IH] using Json_ind; intros d Hd; pose proof (fits_le _ _ Hd) as Hd0; cbn [json_free_d nodes];
    replace (d >? JSON_MAX_DEPTH) with false by lia; try done.
  - rewrite (free_sum _ nodes), Z.add_0_l; [done|]. apply fits_arr in Hd; [|done]. rewrite Forall_forall in IH, Hd |- *. auto.
  - rewrite (free_sum _ (fun x => nodes x.2)), Z.add_0_l; [done|]. apply fits_obj in Hd; [|done]. rewrite Forall_forall in IH, Hd |- *. auto.
Qed.

Section Theorems.
Context `{Libc}.


(** What [json_parse_ex] does with a text. *)
Lemma parse_ex_exact t errsz :
  cstr_ok t -> 0 <= errsz ->
  exists r, json_parse_ex (Some t) errsz = Ret r /\
    (forall v, r = inl v <-> document t v /\ nesting v <= JSON_MAX_DEPTH) /\
    (forall v, r = inl v -> strings_ok v /\ json_free v = nodes v) /\
    (forall e, r = inr e -> zlen e <= Z.max 0 (errsz - 1)).
Proof.
  set (ok := fun m : res (Json + bytes) => exists r, m = Ret r /\ (forall v, r = inl v <-> document t v /\ nesting v <= JSON_MAX_DEPTH) /\
    (forall v, r = inl v -> strings_ok v /\ json_free v = nodes v) /\ (forall e, r = inr e -> zlen e <= Z.max 0 (errsz - 1))).
  intros Hc He. unfold json_parse_ex.
  assert (forall v, document t v /\ nesting v <= JSON_MAX_DEPTH -> exists w, ws w /\ parse_value (2 * length t + 1) t t 0 = Ret (P_ok v w)) as Hcomp.
  { intros v [(w1 & x & w2 & -> & Hw1 & Hx & Hw2) Hn]. exists w2. split; [done|]. rewrite !length_app.
    apply (proj1 parse_complete x v Hx); [done| |by apply cstr_app in Hc as []|unfold fits; lia|lia].
    rewrite <- (app_nil_r w2). by apply ends_ws. }
  assert (forall e, (forall v, ~ (document t v /\ nesting v <= JSON_MAX_DEPTH)) -> ok (Ret (inr (if errsz =? 0 then [] else take (Z.to_nat (errsz - 1)) e)))) as Herr.
  { intros e Hno. eexists. split; [done|]. split_and!; [intros v; split; [done|intros Hv; by apply Hno in Hv]|done|].
    intros e' [= <-]. destruct (errsz =? 0) eqn:E0; [rewrite zlen_nil; lia|rewrite zlen_take; lia]. }
  destruct (proj1 (parse_sound (2 * length t + 1)) t t 0) as ([v s|e] & E & Hv); [by exists []|done|lia|..]; rewrite E in Hcomp |- *; cbn [rbind].
  2: { apply Herr. intros v Hd. by destruct (Hcomp v Hd) as (w & _ & ?). }
  destruct Hv as (w & x & Et & Hw & Hx & Hd). destruct (skip_ws_spec s) as (w2 & Es & Hw2).
  assert (forall v', document t v' /\ nesting v' <= JSON_MAX_DEPTH -> v' = v /\ skip_ws s = []) as Honly.
  { intros v' Hdoc. destruct (Hcomp v' Hdoc) as (w' & Hw' & [= <- ->]). split; [done|]. rewrite <- (app_nil_r w'). by apply skip_ws_app. }
  destruct (skip_ws s) as [|c z] eqn:Ez; step; cbn [Z.eqb negb].
  - eexists. split; [done|]. split_and!; [|intros v' [= <-]; split; [|by apply (free_all v 0)]; apply (proj1 value_nonul x v Hx); rewrite Et in Hc; by apply cstr_app in Hc as [_ [Hc _]%cstr_app]|done]. intros v'. split; [intros [= <-]|intros Hv'; by destruct (Honly v' Hv') as [-> _]].
    split; [|exact Hd]. rewrite app_nil_r in Es. subst s. by exists w, x, w2.
  - assert (cstr_ok (c :: z)) as Hcz by (rewrite Et, Es in Hc; repeat (apply cstr_app in Hc as [_ Hc]; try done)). apply cstr_cons in Hcz as [Hc0 _].
    replace (c =? 0) with false by lia. cbn [negb]. destruct (good_at (fun _ _ => True) t (c :: z) 0 (lit "trailing characters") (A := unit)) as (o & Eo & _);
      [by rewrite Et, Es; exists (w ++ x ++ w2); rewrite <- !app_assoc|apply off_0|].
    unfold fail_at in Eo. apply rbind_ret_inv in Eo as (e & -> & _). cbn [rbind]. apply Herr. intros v' Hv'. by destruct (Honly v' Hv').
Qed.

Lemma json_parse_text t : cstr_ok t -> exists r, json_parse (Some t) = Ret r /\ (forall v, r = Some v <-> document t v /\ nesting v <= JSON_MAX_DEPTH) /\ (forall v, r = Some v -> strings_ok v).
Proof.
  intros Hc. destruct (parse_ex_exact t 0 Hc) as (r & E & Hv & Hs & _); [lia|]. unfold json_parse. rewrite E. cbn [rbind]. eexists. split; [done|]. split.
  - intros v. rewrite <- Hv. destruct r; split; congruence.
  - intros v Hr. apply Hs. destruct r; congruence.
Qed.

(** C22: On every text the parser returns, reading nothing outside the text.  It accepts exactly
    the texts of the grammar whose values are nested at most 256 deep, and returns
    the value the grammar gives the text; otherwise it reports an error that fits the caller's
    buffer.  The strings of an accepted value hold no NUL byte, and releasing the value frees every
    one of its nodes. *)
Theorem json_parse_exact t errsz :
  cstr_ok t -> 0 <= errsz ->
  exists r, json_parse_ex (Some t) errsz = Ret r /\
    (forall v, r = inl v <-> document t v /\ nesting v <= JSON_MAX_DEPTH) /\
    (forall v, r = inl v -> strings_ok v /\ json_free v = nodes v) /\
    (forall e, r = inr e -> zlen e <= Z.max 0 (errsz - 1)).
Proof. apply parse_ex_exact. Qed.

(** *** Escaping *)

Lemma escape_size_acc s n : fold_left (fun n c => if needs_escape c then n + 6 else n + 1) s n = n + escape_size s.
Proof.
  unfold escape_size. revert n. induction s as [|c s IH]; intros n; cbn [fold_left]; [lia|]. rewrite IH, (IH (if needs_escape c then _ else _)).
  destruct (needs_escape c); lia.
Qed.

Lemma escape_char_size c : zlen (escape_char c) <= (if needs_escape c then 6 else 1).
Proof. unfold escape_char, needs_escape. destruct (c =? 34), (c =? 92), (c <? 32); done. Qed.

Lemma escape_size_cons c s : escape_size (c :: s) = (if needs_escape c then 6 else 1) + escape_size s.
Proof. unfold escape_size at 1. cbn [fold_left]. rewrite escape_size_acc. destruct (needs_escape c); lia. Qed.

Lemma escape_size_nonneg s : 0 <= escape_size s.
Proof. induction s as [|c s IH]; [done|]. rewrite escape_size_cons. destruct (needs_escape c); lia. Qed.

Lemma escape_run s o n : zlen o + escape_size s <= n -> escape_loop s o n = Ret (o ++ concat (map escape_char s)).
Proof.
  revert o. induction s as [|c s IH]; intros o Hn; cbn [escape_loop map concat].
  - rewrite app_nil_r. unfold escape_size in Hn. cbn in Hn. by replace (zlen o <=? n) with true by lia.
  - rewrite escape_size_cons in Hn. pose proof (escape_char_size c). pose proof (escape_size_nonneg s). replace (_ <=? _) with true by zlia.
    rewrite IH by zlia. by rewrite <- app_assoc.
Qed.

Lemma hex_digit_nibble d : 0 <= d < 16 -> hex_nibble (HEX_DIGITS.[d]) = d /\ 0 < HEX_DIGITS.[d] < 256.
Proof.
  intros Hd. assert (forallb (fun d => (hex_nibble (HEX_DIGITS.[d]) =? d) && (0 <? HEX_DIGITS.[d]) && (HEX_DIGITS.[d] <? 256)) (seqZ 0 16) = true) as Hall by done.
  rewrite forallb_forall in Hall. specialize (Hall d). rewrite <- list_elem_of_In, elem_of_seqZ in Hall. specialize (Hall ltac:(lia)). lia.
Qed.

Lemma escape_char_body c b s : 0 < c < 256 -> sbody b s -> sbody (escape_char c ++ b) (c :: s) /\ cstr_ok (escape_char c).
Proof.
  intros Hc Hb. unfold escape_char. destruct (c =? 34) eqn:E1; [apply Z.eqb_eq in E1 as ->; split; [by constructor|by repeat constructor]|].
  destruct (c =? 92) eqn:E2; [apply Z.eqb_eq in E2 as ->; split; [by constructor|by repeat constructor]|].
  destruct (c <? 32) eqn:E3; [|split; [constructor; [lia..|done]|by repeat constructor; lia]].
  assert (0 <= Z.shiftr c 4 < 2) as H1 by (rewrite Z.shiftr_div_pow2 by lia; lia). assert (Z.land c 15 = c mod 16) as E15 by (change 15 with (Z.ones 4); by rewrite Z.land_ones by lia).
  rewrite E15. assert (Z.shiftr c 4 = c / 16) as E16 by (by rewrite Z.shiftr_div_pow2 by lia). rewrite E16 in *.
  destruct (hex_digit_nibble (c / 16)) as [N1 R1]; [lia|]. destruct (hex_digit_nibble (c mod 16)) as [N2 R2]; [lia|].
  split; [|repeat (apply cstr_cons; split; [lia|]); constructor].
  replace (c :: s) with (utf8_encode c ++ s) by (unfold utf8_encode; replace (c <? 128) with true by lia; by rewrite u8_small by lia).
  apply (sb_unicode [48; 48; HEX_DIGITS.[c / 16]; HEX_DIGITS.[c mod 16]] c b s); [|lia| |done].
  - unfold hexval. cbn [forallb]. rewrite N1, N2. change (hex_nibble 48) with 0. replace (0 <=? c / 16) with true by lia. replace (0 <=? c mod 16) with true by lia.
    cbn [Z.leb andb]. f_equal. lia.
  - intros [Hh _]. unfold is_high in Hh. lia.
Qed.

Lemma escape_body s : cstr_ok s -> sbody (concat (map escape_char s)) s /\ cstr_ok (concat (map escape_char s)).
Proof.
  induction s as [|c s IH]; intros Hs; cbn [map concat]; [split; constructor|]. apply cstr_cons in Hs as [Hc Hs]. destruct (IH Hs) as [Hb Hk].
  destruct (escape_char_body c _ _ Hc Hb) as [H1 H2]. split; [done|]. by apply cstr_app.
Qed.

(** The escaper writes inside the buffer it sized, and what it writes between quotes
    parses to the string it was given, whatever bytes that holds; so an embedded string cannot
    end its quotes or change the document around it. *)
Theorem json_escape_roundtrip s :
  cstr_ok s ->
  exists e, json_escape s = Ret e /\ zlen e <= 6 * zlen s /\ cstr_ok e /\ sbody e s /\
    (forall errsz, json_parse_ex (Some (34 :: e ++ [34])) errsz = Ret (inl (J_str s))).
Proof.
  intros Hs. destruct (escape_body s Hs) as [Hb Hk]. exists (concat (map escape_char s)). split_and!; try done.
  - unfold json_escape. by rewrite escape_run by (rewrite zlen_nil; lia).
  - clear. induction s as [|c s IH]; [done|]. cbn [map concat]. rewrite zlen_app, zlen_cons. pose proof (escape_char_size c). destruct (needs_escape c); lia.
  - intros errsz. unfold json_parse_ex. set (e := concat _) in *.
    pose proof (str_complete e s Hb (2 * length (34%Z :: e ++ [34%Z]) + 1)%nat (34 :: e ++ [34]) [] [] 0) as Hp. rewrite app_nil_r in Hp. cbn [app] in Hp.
    rewrite Hp; [done|constructor|done| |unfold fits; done|lia]. apply cstr_cons. split; [done|]. apply cstr_app. split; [done|by repeat constructor].
Qed.

End Theorems.

(** *** Path lookup *)

Definition dotfree (g : bytes) : Prop := Forall (fun c => c <> 46) g.

Fixpoint path_of (gs : list bytes) : bytes :=
  match gs with
  | [] => []
  | [g] => g
  | g :: gs => g ++ 46 :: path_of gs
  end.

(** The value one step below: an array element by its index in decimal, or the last field of
    that name. *)
Inductive child : Json -> bytes -> Json -> Prop :=
| ch_arr l g v : digits g -> zlen g < 20 -> l !! Z.to_nat (digits_val g) = Some v -> child (J_arr l) g v
| ch_obj l1 g v l2 : zlen g < 64 -> Forall (fun kv => kv.1 <> g) l2 -> child (J_obj (l1 ++ (g, v) :: l2)) g v.

Inductive leads : Json -> list bytes -> Json -> Prop :=
| ld_one j g v : child j g v -> leads j [g] v
| ld_more j g k gs v : child j g k -> leads k gs v -> leads j (g :: gs) v.

Lemma index_ok s : digits s -> zlen s < 20 -> index_loop s 0 = Some (digits_val s).
Proof.
  intros Hd Hl. unfold digits_val. assert (forall s v, digits s -> 0 <= v -> (v + 1) * 10 ^ zlen s <= 10 ^ 19 ->
    index_loop s v = Some (fold_left (fun v c => v * 10 + (c - 48)) s v)) as H.
  { clear. induction s as [|c s IH]; intros v Hd Hv Hb; [done|]. cbn [index_loop fold_left]. unfold digits in *. cbn [forallb] in Hd. apply andb_true_iff in Hd as [Hc Hd].
    unfold isdigit in Hc. rewrite zlen_cons, Z.pow_add_r in Hb by (lia || apply zlen_nonneg). pose proof (Z.pow_pos_nonneg 10 (zlen s) ltac:(lia) (zlen_nonneg s)).
    assert ((v + 1) * 10 <= 10 ^ 19) by nia. replace (v >? (SIZE_MAX - 9) / 10) with false by (unfold SIZE_MAX; lia).
    rewrite u64_small by lia. apply IH; [done|lia|]. nia. }
  apply H; [done|lia|]. change (0 + 1) with 1. rewrite Z.mul_1_l. apply Z.pow_le_mono_r; lia.
Qed.

Lemma last_field l g : forall v0,
  match fold_left (fun found kv => if beq kv.1 g then Some kv.2 else found) l v0 with
  | Some v => (exists l1 l2, l = l1 ++ (g, v) :: l2 /\ Forall (fun kv => kv.1 <> g) l2) \/ (v0 = Some v /\ Forall (fun kv : bytes * Json => kv.1 <> g) l)
  | None => v0 = None /\ Forall (fun kv => kv.1 <> g) l
  end.
Proof.
  induction l as [|[k x] l IH]; intros v0; cbn [fold_left fst snd]; [destruct v0; auto|].
  specialize (IH (if beq k g then Some x else v0)). destruct (beq k g) eqn:E.
  - apply beq_true in E as ->. destruct (fold_left _ l (Some x)) as [v|]; [|by destruct IH]. left.
    destruct IH as [(l1 & l2 & -> & Hl)|[[= ->] Hl]]; [by exists ((g, x) :: l1), l2|by exists [], l].
  - apply beq_false in E. destruct (fold_left _ l v0) as [v|]; [|destruct IH; split; [done|by constructor]].
    destruct IH as [(l1 & l2 & -> & Hl)|[-> Hl]]; [left; by exists ((k, x) :: l1), l2|right; split; [done|by constructor]].
Qed.

Lemma get_step_iff j g v : get_step j g = Some v <-> child j g v.
Proof.
  unfold get_step. split.
  - destruct (forallb isdigit g) eqn:Ed; destruct j as [| | | |l|l]; try (destruct (zlen g >=? 64); done).
    + destruct (zlen g >=? 20) eqn:E; [done|]. rewrite index_ok by (done || lia). cbn. intros Hl. apply ch_arr; [done|lia|done].
    + destruct (zlen g >=? 64) eqn:E; [done|]. cbn. pose proof (last_field l g None) as Hl. intros Hv. rewrite Hv in Hl.
      destruct Hl as [(l1 & l2 & -> & Hl)|[? _]]; [|done]. apply ch_obj; [lia|done].
    + destruct (zlen g >=? 64) eqn:E; [done|]. cbn. pose proof (last_field l g None) as Hl. intros Hv. rewrite Hv in Hl.
      destruct Hl as [(l1 & l2 & -> & Hl)|[? _]]; [|done]. apply ch_obj; [lia|done].
  - intros [l g' w Hd Hz Hl|l1 g' w l2 Hz Hl].
    + unfold digits in Hd. rewrite Hd. replace (_ >=? 20) with false by lia. rewrite index_ok by done. done.
    + replace (_ >=? 64) with false by lia. cbn. destruct (forallb isdigit g'); rewrite fold_left_app; cbn [fold_left fst snd]; rewrite (proj2 (beq_true g' g') eq_refl).
      all: induction Hl as [|[k x] l2 Hk Hl IH]; [done|]; cbn [fold_left fst snd] in *; rewrite (proj2 (beq_false k g') Hk); done.
Qed.

Lemma segment_spec a : let (g, b) := segment a in dotfree g /\ a = match b with None => g | Some r => g ++ 46 :: r end.
Proof.
  induction a as [|c a IH]; cbn [segment]; [split; [constructor|done]|]. destruct (c =? 46) eqn:E; [apply Z.eqb_eq in E as ->; split; [constructor|done]|].
  destruct (segment a) as [g b]. destruct IH as [Hg ->]. split; [constructor; [lia|done]|]. by destruct b.
Qed.

Lemma segment_app g r : dotfree g -> segment (g ++ 46 :: r) = (g, Some r).
Proof. induction 1 as [|c g Hc Hg IH]; cbn [app segment]; [done|]. replace (c =? 46) with false by lia. by rewrite IH. Qed.

Lemma segment_end g : dotfree g -> segment g = (g, None).
Proof. induction 1 as [|c g Hc Hg IH]; cbn [segment]; [done|]. replace (c =? 46) with false by lia. by rewrite IH. Qed.

Definition path_segs (gs : list bytes) : Prop := Forall (fun g => g <> [] /\ dotfree g) gs.

Lemma path_cons g gs : gs <> [] -> path_of (g :: gs) = g ++ 46 :: path_of gs.
Proof. by destruct gs. Qed.

Lemma leads_inv j gs v : leads j gs v -> exists g k gs', gs = g :: gs' /\ child j g k /\ (gs' = [] /\ k = v \/ gs' <> [] /\ leads k gs' v).
Proof.
  intros [j' g v' Hc|j' g k gs' v' Hc Hl]; [exists g, v', []; auto|]. exists g, k, gs'. split_and!; try done. right. split; [|done]. by destruct Hl.
Qed.

Lemma get_loop_exact fuel cur a : (length a < fuel)%nat ->
  exists o, get_loop fuel cur a = Ret o /\ forall v, o = Some v <-> exists gs, a = path_of gs /\ path_segs gs /\ leads cur gs v.
Proof.
  revert cur a. induction fuel as [|fuel IH]; intros cur a Hf; [lia|]. cbn [get_loop]. pose proof (segment_spec a) as Hseg.
  destruct (segment a) as [g b] eqn:Es. destruct Hseg as [Hg Ha].
  assert (forall gs v, a = path_of gs -> path_segs gs -> leads cur gs v ->
    exists k gs', gs = g :: gs' /\ g <> [] /\ child cur g k /\ match b with None => gs' = [] /\ k = v | Some r => gs' <> [] /\ r = path_of gs' /\ path_segs gs' /\ leads k gs' v end) as Hinv.
  { intros gs v Hp Hs Hl. destruct (leads_inv _ _ _ Hl) as (g' & k & gs' & -> & Hc & Hrest). unfold path_segs in Hs. rewrite Forall_cons in Hs. destruct Hs as [[Hne Hdf] Hs].
    destruct Hrest as [[-> ->]|[Hne' Hl']].
    - cbn [path_of] in Hp. rewrite Hp, segment_end in Es by done. injection Es as <- <-. by exists v, [].
    - rewrite path_cons in Hp by done. rewrite Hp, segment_app in Es by done. injection Es as <- <-. by exists k, gs'. }
  destruct (zlen g =? 0) eqn:Ez.
  { eexists. split; [done|]. intros v. split; [done|]. intros (gs & Hp & Hs & Hl). destruct (Hinv gs v Hp Hs Hl) as (k & gs' & _ & Hne & _). destruct g; [done|]. rewrite zlen_cons in Ez. pose proof (zlen_nonneg g). lia. }
  assert (g <> []) as Hne by (by intros ->). destruct (get_step cur g) as [nx|] eqn:En.
  2: { eexists. split; [done|]. intros v. split; [done|]. intros (gs & Hp & Hs & Hl). destruct (Hinv gs v Hp Hs Hl) as (k & gs' & _ & _ & Hc & _).
    apply get_step_iff in Hc. congruence. }
  pose proof (proj1 (get_step_iff _ _ _) En) as Hnx. destruct b as [r|].
  - destruct (IH nx r) as (o & -> & Ho); [subst a; rewrite length_app in Hf; cbn [length] in Hf; lia|]. exists o. split; [done|]. intros v. rewrite Ho. split.
    + intros (gs & -> & Hs & Hl). exists (g :: gs). assert (gs <> []) by (by destruct Hl). rewrite path_cons by done. split; [done|]. split; [by constructor|by econstructor].
    + intros (gs & Hp & Hs & Hl). destruct (Hinv gs v Hp Hs Hl) as (k & gs' & -> & _ & Hc & _ & -> & Hs' & Hl'). exists gs'. apply get_step_iff in Hc. by replace nx with k by congruence.
  - eexists. split; [done|]. intros v. split.
    + intros [= <-]. exists [g]. split; [done|]. split; [by repeat constructor|by constructor].
    + intros (gs & Hp & Hs & Hl). destruct (Hinv gs v Hp Hs Hl) as (k & gs' & -> & _ & Hc & _ & ->). apply get_step_iff in Hc. congruence.
Qed.

(** A field of an object: the last one of that name. *)
Definition field (j : Json) (k : bytes) (v : Json) : Prop := exists l1 l2, j = J_obj (l1 ++ (k, v) :: l2) /\ Forall (fun kv => kv.1 <> k) l2.

Lemma obj_get_field j k v : json_obj_get j k = Some v <-> field j k v.
Proof.
  split.
  - destruct j as [| | | |l|l]; try done. cbn [json_obj_get]. pose proof (last_field l k None) as Hl. intros Hv. rewrite Hv in Hl.
    destruct Hl as [(l1 & l2 & -> & Hl)|[? _]]; [by exists l1, l2|done].
  - intros (l1 & l2 & -> & Hl). cbn [json_obj_get]. rewrite fold_left_app. cbn [fold_left fst snd]. rewrite (proj2 (beq_true k k) eq_refl).
    induction Hl as [|[k' x] l2 Hk Hl IH]; [done|]. cbn [fold_left fst snd] in *. by rewrite (proj2 (beq_false k' k) Hk).
Qed.

Lemma field_fun j k v v' : field j k v -> field j k v' -> v = v'.
Proof. rewrite <- !obj_get_field. congruence. Qed.

Lemma json_get_key j k : k <> [] -> dotfree k -> forallb isdigit k = false -> zlen k < 64 -> json_get (Some j) k = Ret (json_obj_get j k).
Proof.
  intros Hne Hd Hn Hl. unfold json_get. replace (zlen k =? 0) with false by (destruct k; [done|rewrite zlen_cons; pose proof (zlen_nonneg k); lia]).
  cbn [get_loop]. rewrite segment_end by done. replace (zlen k =? 0) with false by (destruct k; [done|rewrite zlen_cons; pose proof (zlen_nonneg k); lia]).
  assert (get_step j k = json_obj_get j k) as -> by (unfold get_step; rewrite Hn; replace (zlen k >=? 64) with false by lia; by destruct j).
  by destruct (json_obj_get j k).
Qed.

(** The path lookup returns on every path, and it finds a value exactly when the segments
    between the dots, none of them empty, lead to it: on an array a decimal number of fewer than
    twenty digits picks the element with that index, without wrapping around, and on an object a
    segment of fewer than 64 characters picks the last field of that name. *)
Theorem json_get_exact j path :
  exists o, json_get (Some j) path = Ret o /\
    forall v, o = Some v <-> path = [] /\ v = j \/ exists gs, path = path_of gs /\ path_segs gs /\ leads j gs v.
Proof.
  unfold json_get. destruct (zlen path =? 0) eqn:E.
  - assert (path = []) as -> by (apply zlen_0_nil; lia). eexists. split; [done|]. intros v. split; [intros [= <-]; by left|].
    intros [[_ ->]|(gs & Hp & Hs & Hl)]; [done|]. destruct (leads_inv _ _ _ Hl) as (g & k & gs' & -> & _). unfold path_segs in Hs. rewrite Forall_cons in Hs.
    destruct Hs as [[Hne _] _]. by destruct g; [|destruct gs'].
  - destruct (get_loop_exact (S (length path)) j path) as (o & -> & Ho); [lia|]. exists o. split; [done|]. intros v. rewrite Ho. split; [auto|].
    intros [[-> _]|Hv]; [done|done].
Qed.

(** ** Examples *)

#[export] Instance glibc_strict : Libc := { erange_tiny := fun _ => true }.

(** The text (quotes left out) {a: [1, true], b: x\u00e9, a: -2.5e3} *)
Definition demo_text : bytes :=
  [123; 34; 97; 34; 58; 32; 91; 49; 44; 32; 116; 114; 117; 101; 93; 44; 32; 34; 98; 34; 58; 32; 34; 120; 92; 117; 48; 48; 101; 57; 34; 44; 32; 34; 97; 34; 58; 32; 45; 50; 46; 53; 101; 51; 125].

Definition demo_json : Json :=
  J_obj [([97], J_arr [J_num (S754_finite false 4503599627370496 (-52)); J_bool true]); ([98], J_str [120; 195; 169]);
         ([97], J_num (S754_finite true 5497558138880000 (-41)))].

Lemma json_parse_exact_witness : json_parse_ex (Some demo_text) 128 = Ret (inl demo_json) /\ document demo_text demo_json /\ json_free demo_json = 6.
Proof.
  assert (json_parse_ex (Some demo_text) 128 = Ret (inl demo_json)) as E by (vm_compute; reflexivity). split; [exact E|].
  destruct (json_parse_exact demo_text 128) as (r & Er & Hv & Hf & _); [apply (bool_decide_unpack _); vm_compute; exact I|lia|].
  rewrite E in Er. injection Er as <-. split; [apply (Hv demo_json); reflexivity|]. destruct (Hf demo_json eq_refl) as [_ ->]. vm_compute. reflexivity.
Defined.

Lemma json_escape_roundtrip_witness :
  exists e, json_escape [34; 10; 195; 92] = Ret e /\ json_parse_ex (Some (34 :: e ++ [34])) 0 = Ret (inl (J_str [34; 10; 195; 92])).
Proof.
  destruct (json_escape_roundtrip [34; 10; 195; 92]) as (e & E & _ & _ & _ & Hp); [apply (bool_decide_unpack _); vm_compute; exact I|].
  exists e. split; [exact E|]. exact (Hp 0).
Defined.
