(* ===== verification/OidcText.v ===== *)
(** * Texts of the browser login (src/src/oidc/oidc_util.c, oidc_select.c, oidc_flow.c)

    Percent-encoding, query parameters, the filter for text that reaches a terminal, bearer
    tokens, and the file that keeps state and nonce while the user is in the browser.  A
    returned C string ends at its first NUL: [cstr]. *)

From S2P Require Import Prelude Util Crypto Http Json.

(** ** Percent-encoding *)

Definition UPPER_HEX : bytes := lit "0123456789ABCDEF".

Definition unreserved (c : Z) : bool :=
  ((65 <=? c) && (c <=? 90)) || ((97 <=? c) && (c <=? 122)) || ((48 <=? c) && (c <=? 57)) ||
  (c =? 45) || (c =? 95) || (c =? 46) || (c =? 126).

Definition oidc_urlenc (s : bytes) : bytes :=
  concat (map (fun c => if unreserved c then [c] else [37; UPPER_HEX.[Z.shiftr c 4]; UPPER_HEX.[Z.land c 15]]) s).

(** The bytes written to [out]. *)
Fixpoint urldec (s : bytes) : bytes :=
  match s with
  | [] => []
  | c :: r =>
      let plain := (if c =? 43 then 32 else c) :: urldec r in
      match r with
      | a :: b :: r2 =>
          if (c =? 37) && (0 <=? hex_nibble a) && (0 <=? hex_nibble b)
          then u8 (Z.lor (Z.shiftl (hex_nibble a) 4) (hex_nibble b)) :: urldec r2 else plain
      | _ => plain
      end
  end.

Definition oidc_urldec (s : bytes) : bytes := cstr (urldec s).

(** The value of a segment [name=value]. *)
Definition param_value (seg name : bytes) : option bytes :=
  match from (Z.eqb 61) seg with
  | _ :: v => if beq (upto (Z.eqb 61) seg) name then Some (oidc_urldec v) else None
  | [] => None
  end.

Fixpoint param_loop (fuel : nat) (p name : bytes) : res (option bytes) :=
  match fuel with
  | O => Fault OutOfFuel
  | S fuel =>
      match p with
      | [] => Ret None
      | _ =>
          let amp := from (Z.eqb 38) p in
          let hash := from (Z.eqb 35) p in
          if (0 <? zlen hash) && ((zlen amp =? 0) || (zlen amp <? zlen hash)) then
            Ret (param_value (upto (Z.eqb 35) p) name)
          else
            match param_value (upto (Z.eqb 38) p) name with
            | Some v => Ret (Some v)
            | None => match amp with [] => Ret None | _ :: p => param_loop fuel p name end
            end
      end
  end.

(** [None] for a NULL [s] and for a NULL result. *)
Definition oidc_url_param (s : option bytes) (name : bytes) : res (option bytes) :=
  match s with
  | None => Ret None
  | Some s => match from (Z.eqb 63) s with [] => Ret None | _ :: p => param_loop (S (length p)) p name end
  end.

(** [oidc_hex_upper]. *)
Definition oidc_hex_upper (b : bytes) : bytes := map (fun c => if (97 <=? c) && (c <=? 102) then c - 32 else c) (hex_encode b).

(** ** Text for a terminal *)

(** The length a lead byte announces, zero for a byte that leads no sequence. *)
Definition utf8_need (c : Z) : nat :=
  if (194 <=? c) && (c <=? 223) then 2
  else if (224 <=? c) && (c <=? 239) then 3
  else if (240 <=? c) && (c <=? 244) then 4
  else 0.

(** The continuation loop; [None] for a byte that is no continuation. *)
Fixpoint utf8_cont (k : nat) (s : bytes) (cp : Z) : option Z :=
  match k with
  | O => Some cp
  | S k =>
      match s with
      | x :: s => if Z.land x 192 =? 128 then utf8_cont k s (u32 (Z.lor (Z.shiftl cp 6) (Z.land x 63))) else None
      | [] => None
      end
  end.

(** The code point at the front of [c :: r] and the number of bytes it takes. *)
Definition utf8_at (c : Z) (r : bytes) : option (Z * nat) :=
  let need := utf8_need c in
  match need with
  | O => None
  | S k =>
      if zlen (c :: r) <? Z.of_nat need then None
      else
        match utf8_cont k r (Z.land c (Z.shiftr 255 (Z.of_nat need + 1))) with
        | None => None
        | Some cp =>
            if (bool_decide (need = 3%nat) && (cp <? 2048)) || (bool_decide (need = 4%nat) && (cp <? 65536)) ||
               ((55296 <=? cp) && (cp <=? 57343)) || (cp >? 1114111)
            then None else Some (cp, need)
        end
  end.

Fixpoint printable_loop (fuel : nat) (s : bytes) : res bytes :=
  match fuel with
  | O => Fault OutOfFuel
  | S fuel =>
      match s with
      | [] => Ret []
      | c :: r =>
          if c <? 128 then
            let! out := printable_loop fuel r in Ret ((if (c <? 32) || (c =? 127) then 63 else c) :: out)
          else
            match utf8_at c r with
            | Some (cp, need) =>
                let! out := printable_loop fuel (drop need s) in
                Ret ((if (128 <=? cp) && (cp <=? 159) then [63] else take need s) ++ out)
            | None => let! out := printable_loop fuel r in Ret (63 :: out)
            end
      end
  end.

(** The result must fit the [n + 1] bytes that were allocated. *)
Definition oidc_printable_dup (s : bytes) : res bytes :=
  let! out := printable_loop (S (length s)) s in
  if zlen out <=? zlen s then Ret out else Fault OutOfBounds.

(** ** Bearer tokens (RFC 6750) *)

Definition token_char (c : Z) : bool :=
  ((65 <=? c) && (c <=? 90)) || ((97 <=? c) && (c <=? 122)) || ((48 <=? c) && (c <=? 57)) ||
  (c =? 45) || (c =? 46) || (c =? 95) || (c =? 126) || (c =? 43) || (c =? 47).

Definition oidc_b64token_ok (s : option bytes) : bool :=
  match s with
  | None => false
  | Some s =>
      let h := upto (Z.eqb 61) s in
      negb (zlen s =? 0) && forallb token_char h && negb (zlen h =? 0) && forallb (Z.eqb 61) (from (Z.eqb 61) s)
  end.

(** ** The state file *)

Definition save_state_file (state nonce : bytes) : bytes := state ++ [10] ++ nonce ++ [10].

(** [content] is what the file holds, [None] when it cannot be opened or read. *)
Definition load_state_file (content : option bytes) (state_sz nonce_sz : Z) : option (bytes * bytes) :=
  match content with
  | None => None
  | Some d =>
      if zlen d =? 0 then None
      else
        let buf := cstr (take 159 d) in
        match from (Z.eqb 10) buf with
        | [] => None
        | _ :: nonce =>
            let nn := zlen nonce in
            let nonce := if (nn >? 0) && (nonce.[nn - 1] =? 10) then take (Z.to_nat (nn - 1)) nonce else nonce in
            let state := upto (Z.eqb 10) buf in
            if zlen nonce =? 0 then None
            else if (zlen state >=? state_sz) || (zlen nonce >=? nonce_sz) then None
            else Some (state, nonce)
        end
  end.

(** ** Percent-encoding and query parameters *)

Lemma urldec_plain c r : c <> 37 -> c <> 43 -> urldec (c :: r) = c :: urldec r.
Proof.
  intros H1 H2. cbn [urldec]. replace (c =? 37) with false by lia. replace (c =? 43) with false by lia. by destruct r as [|a [|b r]].
Qed.

Lemma urldec_escape a b r : 0 <= hex_nibble a -> 0 <= hex_nibble b ->
  urldec (37 :: a :: b :: r) = u8 (Z.lor (Z.shiftl (hex_nibble a) 4) (hex_nibble b)) :: urldec r.
Proof. intros Ha Hb. cbn [urldec Z.eqb Pos.eqb andb]. by replace (0 <=? hex_nibble a) with true by lia; replace (0 <=? hex_nibble b) with true by lia. Qed.

Definition enc_ok (c : Z) : bool :=
  let hi := UPPER_HEX.[Z.shiftr c 4] in
  let lo := UPPER_HEX.[Z.land c 15] in
  if unreserved c then negb (c =? 37) && negb (c =? 43)
  else (0 <=? hex_nibble hi) && (0 <=? hex_nibble lo) && (u8 (Z.lor (Z.shiftl (hex_nibble hi) 4) (hex_nibble lo)) =? c) && unreserved hi && unreserved lo.

Lemma enc_ok_all c : is_byte c -> enc_ok c = true.
Proof. apply (below_spec 256 enc_ok). vm_compute. reflexivity. Qed.

Lemma urlenc_cons c s : oidc_urlenc (c :: s) = (if unreserved c then [c] else [37; UPPER_HEX.[Z.shiftr c 4]; UPPER_HEX.[Z.land c 15]]) ++ oidc_urlenc s.
Proof. done. Qed.

Lemma urldec_enc s : bytes_ok s -> urldec (oidc_urlenc s) = s.
Proof.
  induction 1 as [|c s Hc Hs IH]; [done|]. rewrite urlenc_cons. pose proof (enc_ok_all c Hc) as He. unfold enc_ok in He. destruct (unreserved c).
  - cbn [app]. rewrite urldec_plain, IH by lia. done.
  - cbn [app]. rewrite !andb_true_iff in He. rewrite urldec_escape, IH by lia. f_equal. lia.
Qed.

Lemma cstr_bytes s : cstr_ok s -> bytes_ok s.
Proof. intros H. eapply Forall_impl; [exact H|]. cbv beta. unfold is_byte. lia. Qed.

(** Encoded text holds no separator of a query. *)
Lemma urlenc_chars s : bytes_ok s -> Forall (fun c => unreserved c = true \/ c = 37) (oidc_urlenc s).
Proof.
  induction 1 as [|c s Hc Hs IH]; [constructor|]. rewrite urlenc_cons. apply Forall_app. split; [|done]. pose proof (enc_ok_all c Hc) as He. unfold enc_ok in He.
  destruct (unreserved c) eqn:E; [by repeat constructor; auto|]. rewrite !andb_true_iff in He. repeat constructor; tauto.
Qed.

Lemma urlenc_none f s : bytes_ok s -> f 37 = false -> (forall c, unreserved c = true -> f c = false) -> none f (oidc_urlenc s).
Proof. intros Hs H1 H2. eapply Forall_impl; [by apply urlenc_chars|]. cbv beta. intros c [Hc| ->]; auto. Qed.

Fixpoint split_on (x : Z) (s : bytes) : list bytes :=
  match s with
  | [] => [[]]
  | c :: r => if c =? x then [] :: split_on x r else match split_on x r with h :: t => (c :: h) :: t | [] => [[c]] end
  end.

Lemma split_on_none x s : none (Z.eqb x) s -> split_on x s = [s].
Proof. induction 1 as [|c s Hc Hs IH]; cbn [split_on]; [done|]. replace (c =? x) with false by lia. by rewrite IH. Qed.

Lemma split_on_app x a r : none (Z.eqb x) a -> split_on x (a ++ x :: r) = a :: split_on x r.
Proof. induction 1 as [|c s Hc Hs IH]; cbn [app split_on]; [by rewrite Z.eqb_refl|]. replace (c =? x) with false by lia. by rewrite IH. Qed.

(** The first of the fields that is set. *)
Fixpoint first_field (name : bytes) (fs : list bytes) : option bytes :=
  match fs with
  | [] => None
  | f :: fs => match param_value f name with Some v => Some v | None => first_field name fs end
  end.

Lemma upto_shorter f g s : zlen (upto f s) <= zlen (upto g s) -> none g (upto f s).
Proof.
  induction s as [|c s IH]; cbn [upto]; [constructor|]. destruct (f c); [constructor|]. destruct (g c) eqn:Eg.
  - rewrite zlen_cons, zlen_nil. pose proof (zlen_nonneg (upto f s)). lia.
  - rewrite !zlen_cons. intros H. constructor; [done|]. apply IH. lia.
Qed.

Lemma upto_past f a c r : none f a -> f c = false -> upto f (a ++ c :: r) = a ++ c :: upto f r.
Proof. intros Ha Hc. induction Ha as [|x a Hx Ha IH]; cbn [app upto]; [by rewrite Hc|]. by rewrite Hx, IH. Qed.

Lemma param_loop_fields fuel p name : (length p < fuel)%nat -> param_loop fuel p name = Ret (first_field name (split_on 38 (upto (Z.eqb 35) p))).
Proof.
  revert p. induction fuel as [|fuel IH]; intros p Hf; [lia|]. cbn [param_loop]. destruct p as [|c0 p0] eqn:Ep; [done|]. rewrite <- Ep in *. clear Ep c0 p0.
  pose proof (upto_from (Z.eqb 38) p) as Ea. pose proof (upto_from (Z.eqb 35) p) as Eh.
  pose proof (upto_none (Z.eqb 38) p) as Na.
  pose proof (f_equal zlen Ea) as La. pose proof (f_equal zlen Eh) as Lh. rewrite zlen_app in La, Lh.
  destruct (_ && _) eqn:E.
  - rewrite split_on_none by (apply upto_shorter; pose proof (zlen_nonneg (from (Z.eqb 35) p)); lia). cbn [first_field]. by destruct (param_value _ name).
  - assert (none (Z.eqb 35) (upto (Z.eqb 38) p)) as Ha.
    { apply upto_shorter. pose proof (zlen_nonneg (from (Z.eqb 35) p)). pose proof (zlen_nonneg (from (Z.eqb 38) p)). lia. }
    destruct (from_head (Z.eqb 38) p) as [Ef|(c & r & Ef & Hc)]; rewrite Ef in *.
    + rewrite app_nil_r in Ea. rewrite Ea in *. rewrite (upto_all _ p Ha), split_on_none by done. cbn [first_field]. by destruct (param_value p name).
    + apply Z.eqb_eq in Hc as <-. set (a := upto (Z.eqb 38) p) in *. assert (upto (Z.eqb 35) p = a ++ 38 :: upto (Z.eqb 35) r) as Eu by (rewrite <- Ea; by apply upto_past).
      rewrite Eu, split_on_app by done. cbn [first_field]. destruct (param_value a name) as [v|]; [done|]. apply IH.
      apply (f_equal length) in Ea. rewrite length_app in Ea. cbn [length] in Ea. lia.
Qed.

(** A query string built with [oidc_urlenc]. *)
Fixpoint query_text (fs : list (bytes * bytes)) : bytes :=
  match fs with
  | [] => []
  | [(n, v)] => n ++ 61 :: oidc_urlenc v
  | (n, v) :: fs => n ++ 61 :: oidc_urlenc v ++ 38 :: query_text fs
  end.

Definition plain_name (n : bytes) : Prop := none (fun c => (c =? 61) || (c =? 38) || (c =? 35)) n.

Lemma none_weaken (f g : Z -> bool) s : (forall c, g c = true -> f c = true) -> none f s -> none g s.
Proof. intros H Hs. eapply Forall_impl; [exact Hs|]. cbv beta. intros c Hc. destruct (g c) eqn:E; [|done]. by rewrite H in Hc. Qed.

Lemma plain_none n x : plain_name n -> x = 61 \/ x = 38 \/ x = 35 -> none (Z.eqb x) n.
Proof. intros Hn Hx. eapply none_weaken; [|exact Hn]. cbv beta. intros c. lia. Qed.

Lemma enc_none v x : bytes_ok v -> x = 61 \/ x = 38 \/ x = 35 -> none (Z.eqb x) (oidc_urlenc v).
Proof. intros Hv Hx. apply urlenc_none; [done|lia|]. unfold unreserved. intros c. lia. Qed.

Lemma field_value n v name : plain_name n -> cstr_ok v -> param_value (n ++ 61 :: oidc_urlenc v) name = if beq n name then Some v else None.
Proof.
  intros Hn Hv. unfold param_value. rewrite from_app, upto_app by (done || apply plain_none; auto). destruct (beq n name); [|done].
  unfold oidc_urldec. by rewrite urldec_enc, cstr_cstr_ok by (done || by apply cstr_bytes).
Qed.

Lemma query_fields fs : fs <> [] -> Forall (fun nv => plain_name nv.1 /\ cstr_ok nv.2) fs ->
  split_on 38 (upto (Z.eqb 35) (query_text fs)) = map (fun nv => nv.1 ++ 61 :: oidc_urlenc nv.2) fs.
Proof.
  intros Hne Hfs. assert (forall n v x, plain_name n /\ cstr_ok v -> x = 38 \/ x = 35 -> none (Z.eqb x) (n ++ 61 :: oidc_urlenc v)) as Hf.
  { intros n v x [Hn Hv] Hx. apply Forall_app. split; [apply plain_none; [done|lia]|]. constructor; [lia|]. apply enc_none; [by apply cstr_bytes|lia]. }
  induction Hfs as [|[n v] fs Hnv Hfs IH]; [done|]. cbn [fst snd] in Hnv. destruct fs as [|[n' v'] fs].
  - cbn [query_text map fst snd]. rewrite upto_all by (apply Hf; auto). by rewrite split_on_none by (apply Hf; auto).
  - change (query_text ((n, v) :: (n', v') :: fs)) with (n ++ 61 :: oidc_urlenc v ++ 38 :: query_text ((n', v') :: fs)).
    rewrite app_comm_cons, app_assoc. rewrite upto_past, split_on_app, IH by (done || (apply Hf; auto)). done.
Qed.

Lemma first_lookup name fs : Forall (fun nv => plain_name nv.1 /\ cstr_ok nv.2) fs ->
  first_field name (map (fun nv => nv.1 ++ 61 :: oidc_urlenc nv.2) fs) = snd <$> find (fun nv => beq nv.1 name) fs.
Proof.
  induction 1 as [|[n v] fs [Hn Hv] Hfs IH]; [done|]. cbn [map first_field find fst snd] in *. rewrite field_value by done. by destruct (beq n name).
Qed.

Lemma url_param_split s name :
  oidc_url_param (Some s) name = Ret match from (Z.eqb 63) s with [] => None | _ :: p => first_field name (split_on 38 (upto (Z.eqb 35) p)) end.
Proof. cbn [oidc_url_param]. destruct (from (Z.eqb 63) s) as [|c p]; [done|]. apply param_loop_fields. lia. Qed.

Lemma query_no_hash fs : Forall (fun nv => plain_name nv.1 /\ cstr_ok nv.2) fs -> none (Z.eqb 35) (query_text fs).
Proof.
  induction 1 as [|[n v] fs [Hn Hv] Hfs IH]; [constructor|]. cbn [fst snd] in *.
  assert (none (Z.eqb 35) (n ++ 61 :: oidc_urlenc v)) as Hf by (apply Forall_app; split; [apply plain_none; auto|constructor; [done|apply enc_none; [by apply cstr_bytes|auto]]]).
  destruct fs as [|[n' v'] fs]; [done|]. change (query_text ((n, v) :: (n', v') :: fs)) with (n ++ 61 :: oidc_urlenc v ++ 38 :: query_text ((n', v') :: fs)).
  rewrite app_comm_cons, app_assoc. apply Forall_app. split; [done|by constructor].
Qed.

Lemma url_param_query base fs frag name : none (Z.eqb 63) base -> fs <> [] -> Forall (fun nv => plain_name nv.1 /\ cstr_ok nv.2) fs ->
  frag = [] \/ (exists r, frag = 35 :: r) ->
  oidc_url_param (Some (base ++ 63 :: query_text fs ++ frag)) name = Ret (snd <$> find (fun nv => beq nv.1 name) fs).
Proof.
  intros Hb Hne Hfs Hfrag. rewrite url_param_split, from_app by done. f_equal. rewrite <- first_lookup, <- query_fields by done. f_equal. f_equal.
  pose proof (query_no_hash fs Hfs) as Hq. destruct Hfrag as [->|(r & ->)]; [by rewrite app_nil_r|]. by rewrite upto_app, upto_all.
Qed.

(** Looking up a parameter agrees with splitting: of the text between the first
    question mark and the next hash, cut at the ampersands, the first field of that name is
    decoded, on every string.  So a value that [oidc_urlenc] put into a query comes
    back unchanged, whatever bytes it holds, with or without a fragment behind the query. *)
Theorem url_param_exact (s name : bytes) :
  oidc_url_param (Some s) name =
    Ret match from (Z.eqb 63) s with [] => None | _ :: p => first_field name (split_on 38 (upto (Z.eqb 35) p)) end /\
  (forall base fs frag, none (Z.eqb 63) base -> fs <> [] -> Forall (fun nv => plain_name nv.1 /\ cstr_ok nv.2) fs ->
     frag = [] \/ (exists r, frag = 35 :: r) ->
     oidc_url_param (Some (base ++ 63 :: query_text fs ++ frag)) name = Ret (snd <$> find (fun nv => beq nv.1 name) fs)).
Proof. split; [apply url_param_split|]. intros. by apply url_param_query. Qed.

(** ** Terminal text *)

(** The characters a terminal may be shown: no C0 or C1 control, no surrogate. *)
Definition shown (cp : Z) : Prop := 32 <= cp < 127 \/ 160 <= cp < 55296 \/ 57344 <= cp <= 1114111.

Definition clean (s : bytes) : Prop := exists cps, s = concat (map utf8_encode cps) /\ Forall shown cps.

Lemma clean_empty : clean [].
Proof. by exists []. Qed.

Lemma clean_cons cp s : shown cp -> clean s -> clean (utf8_encode cp ++ s).
Proof. intros Hc (cps & -> & Hs). exists (cp :: cps). split; [done|by constructor]. Qed.

Lemma land_byte_all : forallb (fun c => let c := Z.of_nat c in
    (negb (Z.land c 192 =? 128) || ((128 <=? c) && (c <? 192) && (Z.land c 63 =? c - 128))) &&
    (negb ((128 <=? c) && (c <? 192)) || (Z.land c 192 =? 128)) &&
    (negb ((192 <=? c) && (c <? 224)) || (Z.land c 31 =? c - 192)) &&
    (negb ((224 <=? c) && (c <? 240)) || (Z.land c 15 =? c - 224)) &&
    (negb ((240 <=? c) && (c <? 248)) || (Z.land c 7 =? c - 240))) (seq 0 256) = true.
Proof. vm_compute. reflexivity. Qed.

Lemma land_byte c : is_byte c ->
  (Z.land c 192 =? 128) = ((128 <=? c) && (c <? 192)) /\ (128 <= c < 192 -> Z.land c 63 = c - 128) /\
  (192 <= c < 224 -> Z.land c 31 = c - 192) /\ (224 <= c < 240 -> Z.land c 15 = c - 224) /\ (240 <= c < 248 -> Z.land c 7 = c - 240).
Proof.
  intros Hc. pose proof (below_spec 256 (fun c => (negb (Z.land c 192 =? 128) || ((128 <=? c) && (c <? 192) && (Z.land c 63 =? c - 128))) &&
    (negb ((128 <=? c) && (c <? 192)) || (Z.land c 192 =? 128)) &&
    (negb ((192 <=? c) && (c <? 224)) || (Z.land c 31 =? c - 192)) &&
    (negb ((224 <=? c) && (c <? 240)) || (Z.land c 15 =? c - 224)) &&
    (negb ((240 <=? c) && (c <? 248)) || (Z.land c 7 =? c - 240))) land_byte_all c Hc) as H. cbv beta in H. rewrite !andb_true_iff in H.
  destruct H as ((((H1 & H2) & H3) & H4) & H5). split_and!; intros; lia.
Qed.

Lemma land_low x n : 0 <= n -> Z.land x (Z.ones n) = x mod 2 ^ n.
Proof. intros. by rewrite Z.land_ones. Qed.

Lemma lor_high a b n : 0 <= n -> 0 <= b < 2 ^ n -> Z.lor (a * 2 ^ n) b = a * 2 ^ n + b.
Proof. intros Hn Hb. rewrite <- (lor_shiftl_add a b n) by done. by rewrite Z.shiftl_mul_pow2 by done. Qed.

(** The four forms of [utf8_encode] in arithmetic. *)
Lemma utf8_1 cp : 0 <= cp < 128 -> utf8_encode cp = [cp].
Proof. intros H. unfold utf8_encode. replace (cp <? 128) with true by lia. by rewrite u8_small by lia. Qed.

Lemma utf8_2 cp : 128 <= cp < 2048 -> utf8_encode cp = [192 + cp / 64; 128 + cp mod 64].
Proof.
  intros H. unfold utf8_encode. replace (cp <? 128) with false by lia. replace (cp <? 2048) with true by lia.
  change 63 with (Z.ones 6). rewrite land_low, Z.shiftr_div_pow2 by lia. change 192 with (6 * 2 ^ 5) at 1. change 128 with (2 * 2 ^ 6) at 1.
  rewrite !lor_high by lia. by rewrite !u8_small by lia.
Qed.

Lemma utf8_3 cp : 2048 <= cp < 65536 -> ~ (55296 <= cp <= 57343) -> utf8_encode cp = [224 + cp / 4096; 128 + cp / 64 mod 64; 128 + cp mod 64].
Proof.
  intros H Hs. unfold utf8_encode. replace (cp <? 128) with false by lia. replace (cp <? 2048) with false by lia. replace (cp <? 65536) with true by lia.
  replace ((55296 <=? cp) && (cp <=? 57343)) with false by lia. change 63 with (Z.ones 6). rewrite !land_low, !Z.shiftr_div_pow2 by lia.
  change 224 with (14 * 2 ^ 4) at 1. change 128 with (2 * 2 ^ 6) at 1 2. rewrite !lor_high by lia. by rewrite !u8_small by lia.
Qed.

Lemma utf8_4 cp : 65536 <= cp <= 1114111 -> utf8_encode cp = [240 + cp / 262144; 128 + cp / 4096 mod 64; 128 + cp / 64 mod 64; 128 + cp mod 64].
Proof.
  intros H. unfold utf8_encode. replace (cp <? 128) with false by lia. replace (cp <? 2048) with false by lia. replace (cp <? 65536) with false by lia.
  change 63 with (Z.ones 6). rewrite !land_low, !Z.shiftr_div_pow2 by lia.
  change 240 with (30 * 2 ^ 3) at 1. change 128 with (2 * 2 ^ 6) at 1 2 3. rewrite !lor_high by lia. by rewrite !u8_small by lia.
Qed.

Lemma cont_step k x s cp : is_byte x -> 0 <= cp < 2 ^ 20 ->
  utf8_cont (S k) (x :: s) cp = if (128 <=? x) && (x <? 192) then utf8_cont k s (cp * 64 + (x - 128)) else None.
Proof.
  intros Hx Hcp. cbn [utf8_cont]. destruct (land_byte x Hx) as (H1 & H2 & _). rewrite H1. destruct ((128 <=? x) && (x <? 192)) eqn:E; [|done].
  rewrite H2, lor_shiftl_add, u32_small by lia. done.
Qed.

Lemma need_cases c :
  (utf8_need c = 2%nat /\ 194 <= c <= 223) \/ (utf8_need c = 3%nat /\ 224 <= c <= 239) \/ (utf8_need c = 4%nat /\ 240 <= c <= 244) \/ utf8_need c = 0%nat.
Proof.
  unfold utf8_need. destruct ((194 <=? c) && (c <=? 223)) eqn:E1; [left; split; [done|lia]|]. destruct ((224 <=? c) && (c <=? 239)) eqn:E2; [right; left; split; [done|lia]|].
  destruct ((240 <=? c) && (c <=? 244)) eqn:E3; [right; right; left; split; [done|lia]|auto].
Qed.

Lemma cont_1 x s p : is_byte x -> 0 <= p < 2 ^ 20 -> utf8_cont 1 (x :: s) p = if (128 <=? x) && (x <? 192) then Some (p * 64 + (x - 128)) else None.
Proof. intros. by rewrite cont_step. Qed.

(** What is taken as one character is the shortest encoding of a code point that is no surrogate. *)
Lemma utf8_at_sound c r cp need :
  bytes_ok (c :: r) -> utf8_at c r = Some (cp, need) ->
  take need (c :: r) = utf8_encode cp /\ (0 < need <= length (c :: r))%nat /\ (128 <= cp < 55296 \/ 57344 <= cp <= 1114111).
Proof.
  intros Hb. apply Forall_cons in Hb as [Hc Hb]. destruct (land_byte c Hc) as (_ & _ & H2 & H3 & H4). unfold utf8_at.
  destruct (need_cases c) as [[-> R]|[[-> R]|[[-> R]| ->]]]; [..|done]; destruct (_ <? _) eqn:El; try done; rewrite zlen_cons in El.
  - destruct r as [|x r]; [by vm_compute in El|]. apply Forall_cons in Hb as [Hx Hb]. change (Z.shiftr 255 (Z.of_nat 2 + 1)) with 31. rewrite H2, cont_1 by (done || lia).
    destruct ((128 <=? x) && (x <? 192)) eqn:Ex; [|done]. rewrite !bool_decide_false by done. cbn [andb orb]. destruct (_ || _) eqn:Eb; [done|]. intros [= <- <-].
    split; [|cbn [length]; lia]. rewrite utf8_2 by lia. change (take 2 (c :: x :: r)) with [c; x]. repeat f_equal; lia.
  - destruct r as [|x [|y r]]; [by vm_compute in El..|]. apply Forall_cons in Hb as [Hx Hb]. apply Forall_cons in Hb as [Hy Hb].
    change (Z.shiftr 255 (Z.of_nat 3 + 1)) with 15. rewrite H3, cont_step by (done || lia). destruct ((128 <=? x) && (x <? 192)) eqn:Ex; [|done].
    rewrite cont_1 by (done || lia). destruct ((128 <=? y) && (y <? 192)) eqn:Ey; [|done]. rewrite bool_decide_true, bool_decide_false by done. cbn [andb orb].
    destruct (_ || _) eqn:Eb; [done|]. intros [= <- <-].
    split; [|cbn [length]; lia]. rewrite utf8_3 by lia. change (take 3 (c :: x :: y :: r)) with [c; x; y]. repeat f_equal; lia.
  - destruct r as [|x [|y [|z r]]]; [by vm_compute in El..|]. apply Forall_cons in Hb as [Hx Hb]. apply Forall_cons in Hb as [Hy Hb]. apply Forall_cons in Hb as [Hz Hb].
    change (Z.shiftr 255 (Z.of_nat 4 + 1)) with 7. rewrite H4, cont_step by (done || lia). destruct ((128 <=? x) && (x <? 192)) eqn:Ex; [|done].
    rewrite cont_step by (done || lia). destruct ((128 <=? y) && (y <? 192)) eqn:Ey; [|done].
    rewrite cont_1 by (done || lia). destruct ((128 <=? z) && (z <? 192)) eqn:Ez; [|done]. rewrite bool_decide_false, bool_decide_true by done. cbn [andb orb].
    destruct (_ || _) eqn:Eb; [done|]. intros [= <- <-].
    split; [|cbn [length]; lia]. rewrite utf8_4 by lia. change (take 4 (c :: x :: y :: z :: r)) with [c; x; y; z]. repeat f_equal; lia.
Qed.

Lemma utf8_at_complete cp r : 128 <= cp < 55296 \/ 57344 <= cp <= 1114111 ->
  exists c k, utf8_encode cp = c :: k /\ 128 <= c /\ utf8_at c (k ++ r) = Some (cp, length (utf8_encode cp)).
Proof.
  intros Hcp. assert (forall c, 194 <= c <= 244 -> is_byte c) as Hby by (unfold is_byte; lia). pose proof (zlen_nonneg r).
  destruct (decide (cp < 2048)); [|destruct (decide (cp < 65536))]; [rewrite utf8_2 by lia|rewrite utf8_3 by lia|rewrite utf8_4 by lia]; eexists _, _; (split; [done|]; split; [lia|]);
    unfold utf8_at; cbn [length].
  - set (c := 192 + cp / 64). destruct (land_byte c (Hby c ltac:(subst c; lia))) as (_ & _ & H2 & _). destruct (need_cases c) as [[-> R]|[[_ R]|[[_ R]|R]]]; [|subst c; lia..|].
    2: { unfold utf8_need in R. replace ((194 <=? c) && (c <=? 223)) with true in R by (subst c; lia). done. }
    cbn [app]. rewrite !zlen_cons. change (Z.of_nat 2) with 2. replace (_ <? 2) with false by lia. change (Z.shiftr 255 (2 + 1)) with 31. rewrite H2, cont_1 by (unfold is_byte; subst c; lia).
    replace (_ && _) with true by lia. rewrite !bool_decide_false by done. cbn [andb orb]. replace ((c - 192) * 64 + (128 + cp mod 64 - 128)) with cp by (subst c; lia).
    by replace ((55296 <=? cp) && (cp <=? 57343) || (cp >? 1114111)) with false by lia.
  - set (c := 224 + cp / 4096). destruct (land_byte c (Hby c ltac:(subst c; lia))) as (_ & _ & _ & H3 & _). destruct (need_cases c) as [[_ R]|[[-> R]|[[_ R]|R]]]; [subst c; lia| |subst c; lia|].
    2: { unfold utf8_need in R. replace ((194 <=? c) && (c <=? 223)) with false in R by (subst c; lia). replace ((224 <=? c) && (c <=? 239)) with true in R by (subst c; lia). done. }
    cbn [app]. rewrite !zlen_cons. change (Z.of_nat 3) with 3. replace (_ <? 3) with false by lia. change (Z.shiftr 255 (3 + 1)) with 15. rewrite H3, cont_step by (unfold is_byte; subst c; lia).
    replace (_ && _) with true by lia. rewrite cont_1 by (unfold is_byte; subst c; lia). replace ((128 <=? 128 + cp mod 64) && _) with true by lia.
    rewrite bool_decide_true, bool_decide_false by done. cbn [andb orb].
    replace (((c - 224) * 64 + (128 + cp / 64 mod 64 - 128)) * 64 + (128 + cp mod 64 - 128)) with cp by (subst c; lia).
    by replace ((cp <? 2048) || false || (55296 <=? cp) && (cp <=? 57343) || (cp >? 1114111)) with false by lia.
  - set (c := 240 + cp / 262144). destruct (land_byte c (Hby c ltac:(subst c; lia))) as (_ & _ & _ & _ & H4). destruct (need_cases c) as [[_ R]|[[_ R]|[[-> R]|R]]]; [subst c; lia..| |].
    2: { unfold utf8_need in R. replace ((194 <=? c) && (c <=? 223)) with false in R by (subst c; lia). replace ((224 <=? c) && (c <=? 239)) with false in R by (subst c; lia).
      replace ((240 <=? c) && (c <=? 244)) with true in R by (subst c; lia). done. }
    cbn [app]. rewrite !zlen_cons. change (Z.of_nat 4) with 4. replace (_ <? 4) with false by lia. change (Z.shiftr 255 (4 + 1)) with 7. rewrite H4, cont_step by (unfold is_byte; subst c; lia).
    replace (_ && _) with true by lia. rewrite cont_step by (unfold is_byte; subst c; lia). replace ((128 <=? 128 + cp / 64 mod 64) && _) with true by lia.
    rewrite cont_1 by (unfold is_byte; subst c; lia). replace ((128 <=? 128 + cp mod 64) && _) with true by lia.
    rewrite bool_decide_false, bool_decide_true by done. cbn [andb orb].
    replace ((((c - 240) * 64 + (128 + cp / 4096 mod 64 - 128)) * 64 + (128 + cp / 64 mod 64 - 128)) * 64 + (128 + cp mod 64 - 128)) with cp by (subst c; lia).
    by replace ((cp <? 65536) || (55296 <=? cp) && (cp <=? 57343) || (cp >? 1114111)) with false by lia.
Qed.

Lemma clean_inv c r : clean (c :: r) -> exists cp z, shown cp /\ clean z /\ c :: r = utf8_encode cp ++ z.
Proof.
  intros (cps & E & Hs). destruct Hs as [|cp cps Hcp Hs]; [done|]. exists cp, (concat (map utf8_encode cps)). split; [done|]. split; [by exists cps|done].
Qed.

(** A clean text starts with a printable ASCII character or with a decodable sequence. *)
Lemma clean_first c r : clean (c :: r) ->
  (c < 128 /\ 32 <= c < 127 /\ clean r) \/
  (128 <= c /\ exists cp, 160 <= cp /\ utf8_at c r = Some (cp, length (utf8_encode cp)) /\ exists z, clean z /\ c :: r = utf8_encode cp ++ z).
Proof.
  intros Hcl. destruct (clean_inv c r Hcl) as (cp & z & Hcp & Hz & E). destruct (decide (cp < 128)).
  - left. unfold shown in Hcp. rewrite utf8_1 in E by lia. injection E as -> ->. split; [lia|]. split; [lia|done].
  - right. unfold shown in Hcp. destruct (utf8_at_complete cp z) as (c' & k & E1 & E2 & E3); [lia|]. rewrite E1 in E. injection E as -> ->. split; [done|].
    exists cp. split; [lia|]. split; [by rewrite E3|]. exists z. by rewrite E1.
Qed.

Lemma printable_run fuel s : bytes_ok s -> (length s < fuel)%nat ->
  exists out, printable_loop fuel s = Ret out /\ clean out /\ zlen out <= zlen s /\ (clean s -> out = s).
Proof.
  revert s. induction fuel as [|fuel IH]; intros s Hb Hf; [lia|]. cbn [printable_loop]. destruct s as [|c r].
  { exists []. split_and!; [done|apply clean_empty|lia|done]. }
  pose proof Hb as Hb'. apply Forall_cons in Hb' as [Hc Hr]. unfold is_byte in Hc. cbn [length] in Hf. destruct (IH r Hr) as (out & Eo & Hcl & Hz & Hid); [lia|].
  assert (forall x, shown x -> x < 128 -> clean (x :: out)) as Hone by (intros x Hx Hx'; replace (x :: out) with (utf8_encode x ++ out);
    [by apply clean_cons|unfold shown in Hx; by rewrite utf8_1 by lia]). destruct (c <? 128) eqn:E128.
  - rewrite Eo. cbn [rbind]. eexists. split; [done|]. split; [|split; [rewrite !zlen_cons; lia|]].
    + destruct ((c <? 32) || (c =? 127)) eqn:E; apply Hone; unfold shown; lia.
    + intros [(_ & R & Hr')|(R & _)]%clean_first; [|lia]. rewrite (Hid Hr'). by replace ((c <? 32) || (c =? 127)) with false by lia.
  - destruct (utf8_at c r) as [[cp need]|] eqn:Eu.
    + destruct (utf8_at_sound c r cp need Hb Eu) as (Et & Hn & Hcp). destruct (IH (drop need (c :: r))) as (out' & Eo' & Hcl' & Hz' & Hid').
      { by apply Forall_drop. } { rewrite length_drop. cbn [length] in *. lia. }
      rewrite Eo'. cbn [rbind]. eexists. split; [done|]. rewrite zlen_drop in Hz'. split; [|split].
      * destruct ((128 <=? cp) && (cp <=? 159)) eqn:E; [apply (clean_cons 63); [unfold shown; lia|done]|]. rewrite Et. apply clean_cons; [unfold shown; lia|done].
      * rewrite zlen_app. assert (zlen (take need (c :: r)) = Z.of_nat need) as L by (rewrite zlen_take; unfold zlen; lia).
        destruct ((128 <=? cp) && (cp <=? 159)); rewrite ?L; unfold zlen in *; cbn [length] in *; lia.
      * intros [(R & _)|(_ & cp' & R & Eu' & z & Hz0 & Ez)]%clean_first; [lia|]. rewrite Eu in Eu'. injection Eu' as <- ->.
        replace ((128 <=? cp) && (cp <=? 159)) with false by lia. rewrite Hid'; [by rewrite take_drop|]. by rewrite Ez, drop_app_length.
    + rewrite Eo. cbn [rbind]. eexists. split; [done|]. split; [apply Hone; unfold shown; lia|]. split; [rewrite !zlen_cons; lia|].
      intros [(R & _)|(_ & cp' & _ & Eu' & _)]%clean_first; [lia|]. congruence.
Qed.

Lemma printable_total s : bytes_ok s -> exists out, oidc_printable_dup s = Ret out /\ clean out /\ zlen out <= zlen s /\ (clean s -> out = s).
Proof.
  intros Hb. destruct (printable_run (S (length s)) s Hb) as (out & E & Hc & Hz & Hid); [lia|]. exists out. unfold oidc_printable_dup. rewrite E. cbn [rbind].
  replace (zlen out <=? zlen s) with true by lia. by split_and!.
Qed.

(** The filter for text that reaches a terminal returns on every byte string, stays inside
    the buffer it allocated, and its result is a sequence of characters in shortest UTF-8
    form of which none is a control character (C0, DEL or C1); text that already is
    such a sequence is not changed. *)
Theorem printable_exact (s : bytes) :
  bytes_ok s -> exists out, oidc_printable_dup s = Ret out /\ clean out /\ zlen out <= zlen s /\ (clean s -> out = s).
Proof. apply printable_total. Qed.

Lemma printable_exact_witness :
  oidc_printable_dup [27; 91; 50; 74; 224; 129; 155; 194; 155; 228; 184; 173; 255] = Ret [63; 91; 50; 74; 63; 63; 63; 63; 228; 184; 173; 63] /\
  exists out, oidc_printable_dup [27; 91; 50; 74; 224; 129; 155; 194; 155; 228; 184; 173; 255] = Ret out /\ clean out.
Proof.
  split; [vm_compute; reflexivity|].
  destruct (printable_exact [27; 91; 50; 74; 224; 129; 155; 194; 155; 228; 184; 173; 255]) as (out & E & Hc & _); [apply (bool_decide_unpack _); vm_compute; exact I|].
  exists out. split; [exact E|exact Hc].
Defined.

Lemma url_param_exact_witness :
  oidc_url_param (Some (lit "com.panabit.mobile://oauth2redirect" ++ 63 :: query_text [(lit "code", [38; 61; 37; 255]); (lit "state", lit "xyz")] ++ lit "#top")) (lit "code")
    = Ret (Some [38; 61; 37; 255]).
Proof.
  destruct (url_param_exact [] (lit "code")) as [_ H].
  apply (H (lit "com.panabit.mobile://oauth2redirect") [(lit "code", [38; 61; 37; 255]); (lit "state", lit "xyz")] (lit "#top")).
  - apply (bool_decide_unpack _). vm_compute. exact I.
  - discriminate.
  - constructor; [|constructor; [|constructor]]; (split; apply (bool_decide_unpack _); vm_compute; exact I).
  - right. by exists (lit "top").
Defined.
