(* ===== verification/Jwt.v ===== *)
(** * Identity tokens (src/src/oidc/oidc_jwt.c)

    The check of the id_token: splitting, the claims, the issuer's published keys and the
    RS256 signature.  RSA verification is OpenSSL's, the class [Rsa]; the answers of
    the issuer's web server are a parameter, one function per request so that they may change
    between requests. *)

From Stdlib Require Import SpecFloat.
From S2P Require Import Prelude Util Crypto Http Json.

(** EVP_DigestVerify with SHA-256 under the public key with this modulus and exponent. *)
Class Rsa := { EVP_DigestVerify : Z -> Z -> bytes -> bytes -> bool }.

(** [https_get]: [None] when there is no response, else its status and body. *)
Definition web := bytes -> bytes -> option (Z * bytes).

Definition OIDC_AUTH_HOST : bytes := lit "auth.ivpn.ustc.edu.cn".
Definition OIDC_CLIENT_ID : bytes := lit "afc6479ffb531d71daef".
Definition DISCOVERY_PATH : bytes := lit "/.well-known/openid-configuration".
Definition JWKS_RSA_MIN_BITS : Z := 2048.

(** ** Splitting *)

Definition jwt_split (jwt : bytes) : option (bytes * bytes * bytes) :=
  match from (Z.eqb 46) jwt with
  | [] => None
  | _ :: r =>
      let hdr := upto (Z.eqb 46) jwt in
      if zlen hdr =? 0 then None
      else
        match from (Z.eqb 46) r with
        | [] => None
        | _ :: sig =>
            let payload := upto (Z.eqb 46) r in
            if (zlen payload =? 0) || (zlen sig =? 0) || existsb (Z.eqb 46) sig then None else Some (hdr, payload, sig)
        end
  end.

Definition seg_decode (seg : bytes) : res (option bytes) :=
  let! raw := b64url_decode seg in Ret (cstr <$> raw).

Definition oidc_jwt_segment (jwt : bytes) (idx : Z) : res (option bytes) :=
  match jwt_split jwt with
  | None => Ret None
  | Some (hdr, payload, sig) =>
      if idx =? 0 then seg_decode hdr
      else if idx =? 1 then seg_decode payload
      else if idx =? 2 then seg_decode sig
      else Ret None
  end.

(** ** Doubles *)

(** [(double)v] of an integer. *)
Definition dbl (v : Z) : spec_float := binary_normalize 53 1024 v 0 false.

(** ** The token *)

Section Verify.
Context `{Libc, Rsa}.

Definition decode_jwt_parts (jwt : bytes) : res (option (Json * Json * bytes)) :=
  match jwt_split jwt with
  | None => Ret None
  | Some (hdr, payload, sig) =>
      let! hdr_txt := seg_decode hdr in
      let! pay_txt := seg_decode payload in
      match hdr_txt, pay_txt with
      | Some hdr_txt, Some pay_txt =>
          let! hdr_j := json_parse (Some hdr_txt) in
          let! pay_j := json_parse (Some pay_txt) in
          match hdr_j, pay_j with
          | Some hj, Some pj =>
              let! alg := json_get_str (Some hj) (lit "alg") in
              match alg with
              | None => Ret None
              | Some alg =>
                  if negb (beq alg (lit "RS256")) then Ret None
                  else
                    let! kid := json_get_str (Some hj) (lit "kid") in
                    match kid with None => Ret None | Some _ => Ret (Some (pj, hj, sig)) end
              end
          | _, _ => Ret None
          end
      | _, _ => Ret None
      end
  end.

Fixpoint aud_in (l : list Json) (aud : bytes) : bool :=
  match l with
  | [] => false
  | J_str s :: l => if beq s aud then true else aud_in l aud
  | _ :: l => aud_in l aud
  end.

Definition aud_matches (tok : Json) (aud : bytes) : res bool :=
  let! a := json_get (Some tok) (lit "aud") in
  Ret match a with
      | Some (J_str s) => beq s aud
      | Some (J_arr l) => aud_in l aud
      | _ => false
      end.

(** A time claim that is in the future; claims of another type are passed over. *)
Definition claim_ahead (j : option Json) (limit : Z) : bool :=
  match j with Some (J_num d) => SFltb (dbl limit) d | _ => false end.

Definition validate_claims (pay_j : Json) (aud iss : bytes) (expected_nonce : option bytes) (now : Z) : res bool :=
  let! exp := json_get (Some pay_j) (lit "exp") in
  match exp with
  | Some (J_num d) =>
      if SFleb d (dbl (now - 60)) then Ret false
      else
        let! nbf := json_get (Some pay_j) (lit "nbf") in
        if claim_ahead nbf (now + 60) then Ret false
        else
          let! iat := json_get (Some pay_j) (lit "iat") in
          if claim_ahead iat (now + 60) then Ret false
          else
            let! am := aud_matches pay_j aud in
            if negb am then Ret false
            else
              let! audc := json_get (Some pay_j) (lit "aud") in
              let! azp_ok := match audc with
                             | Some (J_arr _) =>
                                 let! azp := json_get_str (Some pay_j) (lit "azp") in
                                 Ret match azp with Some z => beq z aud | None => false end
                             | _ => Ret true
                             end in
              if negb azp_ok then Ret false
              else
                let! tiss := json_get_str (Some pay_j) (lit "iss") in
                if negb match tiss with Some z => beq z iss | None => false end then Ret false
                else
                  match expected_nonce with
                  | None => Ret true
                  | Some nonce =>
                      let! tnonce := json_get_str (Some pay_j) (lit "nonce") in
                      match tnonce with
                      | None => Ret false
                      | Some tn => if negb (zlen tn =? zlen nonce) then Ret false else ct_eq tn nonce (zlen nonce)
                      end
                  end
  | _ => Ret false
  end.

(** ** The issuer's keys *)

Definition fetch_json (get : web) (host path : bytes) : res (option Json) :=
  match get host path with
  | None => Ret None
  | Some (st, body) => if negb (st =? 200) then Ret None else json_parse (Some (cstr body))
  end.

Definition fetch_jwks (get1 get2 : web) (iss : bytes) : res (option Json) :=
  let! disc := fetch_json get1 OIDC_AUTH_HOST DISCOVERY_PATH in
  match disc with
  | None => Ret None
  | Some disc =>
      let! dis_iss := json_get_str (Some disc) (lit "issuer") in
      if negb match dis_iss with Some z => beq z iss | None => false end then Ret None
      else
        let! jwks_uri := json_get_str (Some disc) (lit "jwks_uri") in
        match jwks_uri with
        | None => Ret None
        | Some uri =>
            match Msg.https_url_split uri with
            | None => Ret None
            | Some (jhost, jpath) => fetch_json get2 jhost jpath
            end
        end
  end.

(** BN_bin2bn. *)
Definition be_val (b : bytes) : Z := fold_left (fun v x => v * 256 + x) b 0.

Definition num_bits (v : Z) : Z := if v =? 0 then 0 else Z.log2 v + 1.

Definition jwks_rsa_key (key : Json) : res (option (Z * Z)) :=
  let! n_b64 := json_get_str (Some key) (lit "n") in
  let! e_b64 := json_get_str (Some key) (lit "e") in
  match n_b64, e_b64 with
  | Some n_b64, Some e_b64 =>
      let! n_raw := b64url_decode n_b64 in
      let! e_raw := b64url_decode e_b64 in
      match n_raw, e_raw with
      | Some n_raw, Some e_raw =>
          if (zlen n_raw =? 0) || (zlen e_raw =? 0) then Ret None
          else
            let n := be_val n_raw in
            let e := be_val e_raw in
            if (num_bits n <? JWKS_RSA_MIN_BITS) || (e <=? 1) || negb (Z.odd e) then Ret None else Ret (Some (n, e))
      | _, _ => Ret None
      end
  | _, _ => Ret None
  end.

Fixpoint key_loop (keys : list Json) (kid : bytes) : res (option (Z * Z)) :=
  match keys with
  | [] => Ret None
  | k :: keys =>
      let! kkid := json_get_str (Some k) (lit "kid") in
      let! use := json_get_str (Some k) (lit "use") in
      let! kty := json_get_str (Some k) (lit "kty") in
      if negb match kkid with Some z => beq z kid | None => false end then key_loop keys kid
      else if negb match use with Some z => beq z (lit "sig") | None => false end || negb match kty with Some z => beq z (lit "RSA") | None => false end
      then key_loop keys kid
      else
        let! pkey := jwks_rsa_key k in
        match pkey with Some p => Ret (Some p) | None => key_loop keys kid end
  end.

Definition select_jwks_key (jwks : Json) (kid : bytes) : res (option (Z * Z)) :=
  let! keys := json_get (Some jwks) (lit "keys") in
  match keys with Some (J_arr l) => key_loop l kid | _ => Ret None end.

(** The signed bytes are those before the signature and its dot. *)
Definition verify_signature (jwt sig : bytes) (pkey : Z * Z) : res bool :=
  let! sig_raw := b64url_decode sig in
  match sig_raw with
  | None => Ret false
  | Some raw =>
      if zlen raw =? 0 then Ret false
      else
        let! msg := rdn jwt 0 (zlen jwt - zlen sig - 1) in
        Ret (EVP_DigestVerify pkey.1 pkey.2 msg raw)
  end.

(** True is the return value 0. *)
Definition oidc_jwt_verify (get1 get2 : web) (now : Z) (jwt aud iss : bytes) (expected_nonce : option bytes) : res bool :=
  let! parts := decode_jwt_parts jwt in
  match parts with
  | None => Ret false
  | Some (pay_j, hdr_j, sig) =>
      let! ok := validate_claims pay_j aud iss expected_nonce now in
      if negb ok then Ret false
      else
        let! jwks := fetch_jwks get1 get2 iss in
        match jwks with
        | None => Ret false
        | Some jwks =>
            let! kid := json_get_str (Some hdr_j) (lit "kid") in
            let! pkey := select_jwks_key jwks (default [] kid) in
            match pkey with None => Ret false | Some pkey => verify_signature jwt sig pkey end
        end
  end.

End Verify.

(** * Specification *)

Section Spec.
Context `{Libc, Rsa}.

(** A text read as a JSON document. *)
Definition reads (t : bytes) (j : Json) : Prop := document t j /\ nesting j <= JSON_MAX_DEPTH.

(** The claims of a token that is good at [now]: the clock may be a minute off either way; a
    token for several audiences names this client as its authorized party. *)
Definition claims_ok (now : Z) (aud iss : bytes) (nonce : option bytes) (c : Json) : Prop :=
  (exists d, field c (lit "exp") (J_num d) /\ SFleb d (dbl (now - 60)) = false) /\
  (forall d, field c (lit "nbf") (J_num d) -> SFltb (dbl (now + 60)) d = false) /\
  (forall d, field c (lit "iat") (J_num d) -> SFltb (dbl (now + 60)) d = false) /\
  (field c (lit "aud") (J_str aud) \/
   exists l, field c (lit "aud") (J_arr l) /\ J_str aud ∈ l /\ field c (lit "azp") (J_str aud)) /\
  field c (lit "iss") (J_str iss) /\
  (forall n, nonce = Some n -> field c (lit "nonce") (J_str n)).

(** An entry of the key set that may verify a token naming [kid]. *)
Definition usable (kid : bytes) (k : Json) (ne : Z * Z) : Prop :=
  field k (lit "kid") (J_str kid) /\ field k (lit "use") (J_str (lit "sig")) /\ field k (lit "kty") (J_str (lit "RSA")) /\
  (exists nb eb nr er, field k (lit "n") (J_str nb) /\ field k (lit "e") (J_str eb) /\
     b64url_decode nb = Ret (Some nr) /\ b64url_decode eb = Ret (Some er) /\ be_val nr = ne.1 /\ be_val er = ne.2) /\
  2 ^ 2047 <= ne.1 /\ 1 < ne.2 /\ Z.odd ne.2 = true.

(** The first usable entry. *)
Definition signing_key (jwks : Json) (kid : bytes) (ne : Z * Z) : Prop :=
  exists before k after, field jwks (lit "keys") (J_arr (before ++ k :: after)) /\ usable kid k ne /\
    Forall (fun k' => forall ne', ~ usable kid k' ne') before.

(** What the issuer publishes: the discovery document and the key set it points to. *)
Definition published (get1 get2 : web) (iss : bytes) (jwks : Json) : Prop :=
  exists disc body uri jhost jpath body',
    get1 OIDC_AUTH_HOST DISCOVERY_PATH = Some (200, body) /\ reads (cstr body) disc /\
    field disc (lit "issuer") (J_str iss) /\ field disc (lit "jwks_uri") (J_str uri) /\
    Msg.https_url_split uri = Some (jhost, jpath) /\ get2 jhost jpath = Some (200, body') /\ reads (cstr body') jwks.

Definition dotfree_seg (s : bytes) : Prop := s <> [] /\ none (Z.eqb 46) s.

(** The three parts of a token, with its header and claims. *)
Definition token (jwt : bytes) (h p s : bytes) (hj pj : Json) : Prop :=
  jwt = h ++ 46 :: p ++ 46 :: s /\ dotfree_seg h /\ dotfree_seg p /\ dotfree_seg s /\
  exists hr pr, b64url_decode h = Ret (Some hr) /\ b64url_decode p = Ret (Some pr) /\ reads (cstr hr) hj /\ reads (cstr pr) pj.

Definition good_token (get1 get2 : web) (now : Z) (jwt aud iss : bytes) (nonce : option bytes) : Prop :=
  exists h p s hj pj kid jwks ne raw,
    token jwt h p s hj pj /\
    field hj (lit "alg") (J_str (lit "RS256")) /\ field hj (lit "kid") (J_str kid) /\
    claims_ok now aud iss nonce pj /\
    published get1 get2 iss jwks /\ signing_key jwks kid ne /\
    b64url_decode s = Ret (Some raw) /\ EVP_DigestVerify ne.1 ne.2 (h ++ 46 :: p) raw = true.

End Spec.

(** * Proofs *)

(** ** Computations that decide or find *)

Definition decides (m : res bool) (P : Prop) : Prop := exists b, m = Ret b /\ (b = true <-> P).
Definition finds {A} (m : res (option A)) (R : A -> Prop) : Prop := exists o, m = Ret o /\ forall a, o = Some a <-> R a.

Lemma decides_iff m P Q : decides m P -> (P <-> Q) -> decides m Q.
Proof. intros (b & -> & Hb) HPQ. exists b. split; [done|tauto]. Qed.

Lemma decides_false (P : Prop) : ~ P -> decides (Ret false) P.
Proof. intros HP. exists false. by split. Qed.

Lemma decides_bool (b : bool) (P : Prop) : (b = true <-> P) -> decides (Ret b) P.
Proof. intros HP. by exists b. Qed.

Lemma finds_none {A} (R : A -> Prop) : (forall a, ~ R a) -> finds (Ret None) R.
Proof. intros HR. exists None. split; [done|]. intros a. split; [done|]. intros Ha. by apply HR in Ha. Qed.

Lemma finds_iff {A} (m : res (option A)) (R R' : A -> Prop) : finds m R -> (forall a, R a <-> R' a) -> finds m R'.
Proof. intros (o & -> & Ho) HR. exists o. split; [done|]. intros a. by rewrite Ho. Qed.

(** A guard: the rest runs only when the test holds. *)
Lemma decides_guard (b : bool) (P Q : Prop) m : (b = true <-> P) -> (P -> decides m Q) -> decides (if negb b then Ret false else m) (P /\ Q).
Proof.
  intros Hb Hm. destruct b; cbn [negb].
  - eapply decides_iff; [apply Hm, Hb; done|]. intuition.
  - apply decides_false. intros [HP _]. by apply Hb in HP.
Qed.

Lemma decides_refuse (b : bool) (P Q : Prop) m : (negb b = true <-> P) -> (P -> decides m Q) -> decides (if b then Ret false else m) (P /\ Q).
Proof. intros Hb Hm. rewrite <- (negb_involutive b). by apply decides_guard. Qed.

Lemma finds_guard {A} (b : bool) (P : Prop) (R : A -> Prop) m : (b = true <-> P) -> (P -> finds m R) -> finds (if negb b then Ret None else m) (fun a => P /\ R a).
Proof.
  intros Hb Hm. destruct b; cbn [negb].
  - eapply finds_iff; [apply Hm, Hb; done|]. intuition.
  - apply finds_none. intros a [HP _]. by apply Hb in HP.
Qed.

Lemma decides_bind {A} (m : res (option A)) (R P : A -> Prop) (k : A -> res bool) :
  finds m R -> (forall a, R a -> decides (k a) (P a)) ->
  decides (let! o := m in match o with None => Ret false | Some a => k a end) (exists a, R a /\ P a).
Proof.
  intros (o & -> & Ho) Hk. cbn [rbind]. destruct o as [a|].
  - assert (R a) as Ha by (by apply Ho). eapply decides_iff; [by apply Hk|]. split; [by exists a|]. intros (a' & Ha' & HP). apply Ho in Ha' as [= <-]. done.
  - apply decides_false. intros (a & Ha & _). by apply Ho in Ha.
Qed.

Lemma finds_bind {A B} (m : res (option A)) (R : A -> Prop) (Q : A -> B -> Prop) (k : A -> res (option B)) :
  finds m R -> (forall a, R a -> finds (k a) (Q a)) ->
  finds (let! o := m in match o with None => Ret None | Some a => k a end) (fun b => exists a, R a /\ Q a b).
Proof.
  intros (o & -> & Ho) Hk. cbn [rbind]. destruct o as [a|].
  - assert (R a) as Ha by (by apply Ho). eapply finds_iff; [by apply Hk|]. intros b. split; [by exists a|]. intros (a' & Ha' & HP). apply Ho in Ha' as [= <-]. done.
  - apply finds_none. intros b (a & Ha & _). by apply Ho in Ha.
Qed.

(** ** Fields *)

Definition plain_key (k : bytes) : bool := negb (beq k []) && negb (existsb (Z.eqb 46) k) && negb (forallb isdigit k) && (zlen k <? 64).

Lemma get_plain j k : plain_key k = true -> json_get (Some j) k = Ret (json_obj_get j k).
Proof.
  unfold plain_key. rewrite !andb_true_iff, !negb_true_iff. intros (((Hne & Hd) & Hn) & Hl). apply json_get_key; [by apply beq_false in Hne| |done|lia].
  apply Forall_forall. intros c Hc ->. enough (existsb (Z.eqb 46) k = true) by congruence. apply existsb_exists. exists 46. by rewrite <- list_elem_of_In.
Qed.

Lemma finds_field j k : plain_key k = true -> finds (json_get (Some j) k) (field j k).
Proof. intros Hk. rewrite get_plain by done. eexists. split; [done|]. intros v. apply obj_get_field. Qed.

Lemma finds_text j k : plain_key k = true -> finds (json_get_str (Some j) k) (fun s => field j k (J_str s)).
Proof.
  intros Hk. unfold json_get_str. rewrite get_plain by done. eexists. split; [done|]. intros s. rewrite <- obj_get_field.
  destruct (json_obj_get j k) as [[]|]; cbn; split; congruence.
Qed.

Lemma text_is j k z : plain_key k = true ->
  exists o, json_get_str (Some j) k = Ret o /\ (match o with Some s => beq s z | None => false end = true <-> field j k (J_str z)) /\
    forall s, o = Some s <-> field j k (J_str s).
Proof.
  intros Hk. destruct (finds_text j k Hk) as (o & -> & Ho). exists o. split; [done|]. split; [|done]. rewrite <- Ho. destruct o as [s|]; [|done].
  rewrite beq_true. split; congruence.
Qed.

(** ** Decoding *)

Lemma b64_groups_bytes s full i rem o : b64_groups s full i rem = Ret (Some o) -> bytes_ok o.
Proof.
  revert i o. induction full as [|full IH]; intros i o; cbn [b64_groups].
  - destruct (rem >=? 2); [|intros [= <-]; constructor]. intros (ca & _ & E)%rbind_ret_inv. apply rbind_ret_inv in E as (cb & _ & E).
    revert E. case_match; [done|]. destruct (rem =? 3); [intros (cc & _ & E)%rbind_ret_inv; revert E; case_match; [done|]|]; intros [= <-]; repeat constructor; apply u8_range.
  - intros (ca & _ & E)%rbind_ret_inv. do 3 apply rbind_ret_inv in E as (? & _ & E). revert E. case_match; [done|]. intros ([r|] & Er & E)%rbind_ret_inv; [|done].
    injection E as <-. unfold b64_quad. repeat (apply Forall_cons; split; [apply u8_range|]). by eapply IH.
Qed.

Lemma b64_groups_some s full i rem o : b64_groups s full i rem = Ret (Some o) -> (0 < full)%nat \/ 2 <= rem -> o <> [].
Proof.
  destruct full as [|full]; cbn [b64_groups]; intros E Hf.
  - replace (rem >=? 2) with true in E by lia. apply rbind_ret_inv in E as (ca & _ & E). apply rbind_ret_inv in E as (cb & _ & E).
    revert E. case_match; [done|]. destruct (rem =? 3); [intros (cc & _ & E)%rbind_ret_inv; revert E; case_match; [done|]|]; by intros [= <-].
  - do 4 apply rbind_ret_inv in E as (? & _ & E). revert E. case_match; [done|]. intros ([r|] & Er & E)%rbind_ret_inv; [|done]. by injection E as <-.
Qed.

Lemma b64url_bytes s : exists o, b64url_decode s = Ret o /\ forall r, o = Some r -> bytes_ok r /\ r <> [].
Proof.
  unfold b64url_decode. destruct (zlen s =? 0); [by exists None|]. destruct (b64_decode_raw_safe s) as [o E]. exists o. split; [done|]. intros r ->.
  unfold b64_decode_raw in E. revert E. destruct (Z.of_nat (strip_pad s (length s)) =? 0) eqn:E0; [done|]. case_match; [done|]. intros E.
  split; [by eapply b64_groups_bytes|]. eapply b64_groups_some; [exact E|lia].
Qed.

Lemma finds_b64 s : finds (b64url_decode s) (fun r => b64url_decode s = Ret (Some r) /\ bytes_ok r /\ r <> []).
Proof.
  destruct (b64url_bytes s) as (o & E & Ho). exists o. split; [done|]. intros r. rewrite E. split; [intros ->; by split; [|apply Ho]|by intros ([= ->] & _)].
Qed.

Lemma finds_seg s : finds (seg_decode s) (fun t => exists r, b64url_decode s = Ret (Some r) /\ t = cstr r /\ cstr_ok t).
Proof.
  unfold seg_decode. destruct (b64url_bytes s) as (o & E & Ho). rewrite E. cbn [rbind]. eexists. split; [done|]. intros t. destruct o as [r|]; cbn; split.
  - intros [= <-]. exists r. split; [done|]. split; [done|]. by apply cstr_ok_cstr, Ho.
  - intros (r' & [= <-] & -> & _). done.
  - done.
  - by intros (r' & [=] & _).
Qed.

Lemma split_token jwt h p s : jwt_split jwt = Some (h, p, s) <-> jwt = h ++ 46 :: p ++ 46 :: s /\ dotfree_seg h /\ dotfree_seg p /\ dotfree_seg s.
Proof.
  assert (forall z : bytes, (zlen z =? 0) = false <-> z <> []) as Hz by (intros [|c z]; [done|]; rewrite zlen_cons; pose proof (zlen_nonneg z); split; [done|lia]).
  assert (forall z, existsb (Z.eqb 46) z = false <-> none (Z.eqb 46) z) as Hx.
  { intros z. unfold none. induction z as [|c z IH]; cbn [existsb]; [by split|]. rewrite orb_false_iff, IH, Forall_cons. done. }
  unfold jwt_split, dotfree_seg. split.
  - pose proof (upto_from (Z.eqb 46) jwt) as Ej. pose proof (upto_none (Z.eqb 46) jwt) as Hj. destruct (from_head (Z.eqb 46) jwt) as [->|(c & r & Er & Hc)]; [done|].
    rewrite Er in *. apply Z.eqb_eq in Hc as <-. destruct (zlen (upto _ jwt) =? 0) eqn:E1; [done|]. pose proof (upto_from (Z.eqb 46) r) as Ep. pose proof (upto_none (Z.eqb 46) r) as Hp.
    destruct (from_head (Z.eqb 46) r) as [->|(c & r' & Er' & Hc)]; [done|]. rewrite Er' in *. apply Z.eqb_eq in Hc as <-.
    destruct (zlen (upto _ r) =? 0) eqn:E2; [done|]. destruct (zlen r' =? 0) eqn:E3; [done|]. destruct (existsb (Z.eqb 46) r') eqn:E4; [done|]. cbn [orb].
    intros Hs. injection Hs as <- <- <-. rewrite Ep, Ej. split_and!; done || by apply Hz || by apply Hx.
  - intros (-> & [Hh Hh'] & [Hp Hp'] & [Hs Hs']). rewrite from_app, upto_app by done. rewrite (proj2 (Hz h)), from_app, upto_app by done.
    by rewrite (proj2 (Hz p)), (proj2 (Hz s)), (proj2 (Hx s)).
Qed.

Section Exact.
Context `{Libc, Rsa}.

Lemma finds_json t : cstr_ok t -> finds (json_parse (Some t)) (reads t).
Proof. intros Hc. destruct (json_parse_text t Hc) as (r & -> & Hr & _). by exists r. Qed.

Lemma reads_strings t j : cstr_ok t -> reads t j -> strings_ok j.
Proof. intros Hc Hj. destruct (json_parse_text t Hc) as (r & _ & Hr & Hs). by apply Hs, Hr. Qed.

Lemma decoded_cstr s r : b64url_decode s = Ret (Some r) -> cstr_ok (cstr r).
Proof. destruct (b64url_bytes s) as (o & -> & Ho). intros [= ->]. by apply cstr_ok_cstr, Ho. Qed.

Lemma strings_ok_field j k v : strings_ok j -> field j k v -> strings_ok v.
Proof.
  intros Hj (l1 & l2 & -> & _). cbn in Hj. revert Hj. induction l1 as [|[k' v'] l1 IH]; cbn; tauto.
Qed.

(** The token's parts, for a header that asks for RS256 and names a key. *)
Definition parts (jwt : bytes) (x : Json * Json * bytes) : Prop :=
  exists h p, token jwt h p x.2 x.1.2 x.1.1 /\ field x.1.2 (lit "alg") (J_str (lit "RS256")) /\ (exists kid, field x.1.2 (lit "kid") (J_str kid)).

Lemma finds_both {A B C} (m : res (option A)) (m' : res (option B)) (R : A -> Prop) (R' : B -> Prop) (Q : A -> B -> C -> Prop) (k : A -> B -> res (option C)) :
  finds m R -> finds m' R' -> (forall a b, R a -> R' b -> finds (k a b) (Q a b)) ->
  finds (let! o := m in let! o' := m' in match o, o' with Some a, Some b => k a b | _, _ => Ret None end) (fun c => exists a b, R a /\ R' b /\ Q a b c).
Proof.
  intros (o & -> & Ho) (o' & -> & Ho') Hk. cbn [rbind]. destruct o as [a|], o' as [b|].
  - assert (R a) as Ha by (by apply Ho). assert (R' b) as Hb by (by apply Ho'). eapply finds_iff; [by apply Hk|]. intros c. split; [by exists a, b|].
    intros (a' & b' & Ha' & Hb' & HQ). apply Ho in Ha' as [= <-]. apply Ho' in Hb' as [= <-]. done.
  - apply finds_none. intros c (a' & b' & Ha' & Hb' & HQ). by apply Ho' in Hb'.
  - apply finds_none. intros c (a' & b' & Ha' & Hb' & HQ). by apply Ho in Ha'.
  - apply finds_none. intros c (a' & b' & Ha' & Hb' & HQ). by apply Ho in Ha'.
Qed.

Lemma finds_parts jwt : finds (decode_jwt_parts jwt) (parts jwt).
Proof.
  unfold decode_jwt_parts. destruct (jwt_split jwt) as [[[h p] s]|] eqn:Es.
  2: { apply finds_none. intros [[pj hj] s] (h & p & (Ej & Hh & Hp & Hs & _) & _). cbn [fst snd] in *. enough (jwt_split jwt = Some (h, p, s)) by congruence. by apply split_token. }
  eapply finds_iff.
  - eapply finds_both; [apply finds_seg..|]. intros ht pt (hr & _ & _ & Hh) (pr & _ & _ & Hp).
    eapply finds_both; [by apply finds_json..|]. intros hj pj _ _.
    eapply finds_bind; [by apply finds_text|]. intros alg _. eapply finds_guard; [apply beq_true|]. intros _.
    eapply (finds_bind _ _ (fun _ x => x = (pj, hj, s))); [by apply finds_text|]. intros kid _.
    exists (Some (pj, hj, s)). split; [done|]. intros x. split; congruence.
  - intros [[pj hj] s']. cbn. unfold parts, token. cbn [fst snd]. split.
    + intros (ht & pt & (hr & Ehr & -> & _) & (pr & Epr & -> & _) & hj' & pj' & Hhj & Hpj & alg & Halg & -> & kid & Hkid & Ex). injection Ex as -> -> ->.
      exists h, p. apply split_token in Es as (Ej & Hh & Hp & Hs'). split; [|by eauto]. split_and!; try done || by apply Hh || by apply Hp || by apply Hs'. by exists hr, pr.
    + intros (h' & p' & (Ej & Hh & Hp & Hs & hr & pr & Ehr & Epr & Hhj & Hpj) & Halg & kid & Hkid).
      assert (jwt_split jwt = Some (h', p', s')) as Es' by (by apply split_token). rewrite Es in Es'. injection Es' as <- <- <-.
      pose proof (decoded_cstr _ _ Ehr). pose proof (decoded_cstr _ _ Epr). exists (cstr hr), (cstr pr). split_and!; [by exists hr|by exists pr|].
      exists hj, pj. split_and!; [done..|]. eexists. split; [exact Halg|]. eauto.
Qed.

Lemma aud_in_spec l aud : aud_in l aud = true <-> J_str aud ∈ l.
Proof.
  induction l as [|v l IH]; cbn [aud_in]; [split; [done|by intros ?%not_elem_of_nil]|]. rewrite elem_of_cons.
  destruct v as [| | |s| |]; try (rewrite IH; split; [by right|by intros [?|?]]).
  destruct (beq s aud) eqn:E; [apply beq_true in E as ->; split; [by left|done]|]. rewrite IH. apply beq_false in E. split; [by right|]. intros [[= ->]|?]; done.
Qed.

Lemma claim_ahead_spec j k limit : plain_key k = true ->
  exists o, json_get (Some j) k = Ret o /\ (negb (claim_ahead o limit) = true <-> forall d, field j k (J_num d) -> SFltb (dbl limit) d = false).
Proof.
  intros Hk. destruct (finds_field j k Hk) as (o & -> & Ho). exists o. split; [done|]. rewrite negb_true_iff. destruct o as [v|].
  - assert (field j k v) as Hv by (by apply Ho). split.
    + intros Hc d Hd. apply Ho in Hd as [= ->]. done.
    + intros Hd. destruct v; try done. by apply Hd.
  - split; [|done]. intros _ d Hd. by apply Ho in Hd.
Qed.

Lemma audience_ok c aud (m : res bool) P : decides m P ->
  decides (let! am := aud_matches c aud in
           if negb am then Ret false
           else
             let! audc := json_get (Some c) (lit "aud") in
             let! azp_ok := match audc with
                            | Some (J_arr _) => let! azp := json_get_str (Some c) (lit "azp") in Ret match azp with Some z => beq z aud | None => false end
                            | _ => Ret true
                            end in
             if negb azp_ok then Ret false else m)
    ((field c (lit "aud") (J_str aud) \/ exists l, field c (lit "aud") (J_arr l) /\ J_str aud ∈ l /\ field c (lit "azp") (J_str aud)) /\ P).
Proof.
  intros Hm. unfold aud_matches. destruct (finds_field c (lit "aud") eq_refl) as (o & -> & Ho). cbn [rbind].
  destruct (text_is c (lit "azp") aud eq_refl) as (z & -> & Hz & _). cbn [rbind].
  assert (forall v, o = Some v -> ((field c (lit "aud") (J_str aud) \/ exists l, field c (lit "aud") (J_arr l) /\ J_str aud ∈ l /\ field c (lit "azp") (J_str aud)) <->
    v = J_str aud \/ exists l, v = J_arr l /\ J_str aud ∈ l /\ field c (lit "azp") (J_str aud))) as Hv.
  { intros v ->. split.
    - intros [Hf|(l & Hf & Hr)]; apply Ho in Hf as [= ->]; [by left|right; by exists l].
    - intros [->|(l & -> & Hr)]; [left; by apply Ho|right; exists l; split; [by apply Ho|done]]. }
  destruct o as [[| | |s|l|]|]; cbn [rbind negb];
    try (apply decides_false; rewrite (Hv _ eq_refl); by intros [[?|(? & ? & _)] _]).
  - eapply decides_iff; [apply (decides_guard _ _ P _ (beq_true s aud)); by intros|]. rewrite (Hv _ eq_refl). split; [intros [-> ?]; auto|].
    intros [[[= ->]|(? & ? & _)] ?]; done.
  - eapply decides_iff; [eapply decides_guard; [apply aud_in_spec|]; intros _; eapply decides_guard; [exact Hz|by intros]|]. rewrite (Hv _ eq_refl). split.
    + intros (Hl & Hz' & HP). split; [|done]. right. by exists l.
    + intros [[?|(l' & [= <-] & Hl & Hz')] HP]; done.
  - apply decides_false. intros [[H'|(? & H' & _)] _]; by apply Ho in H'.
Qed.

Lemma decides_claims c aud iss nonce now : strings_ok c -> (forall n, nonce = Some n -> bytes_ok n) ->
  decides (validate_claims c aud iss nonce now) (claims_ok now aud iss nonce c).
Proof.
  intros Hc Hn. unfold validate_claims, claims_ok. destruct (finds_field c (lit "exp") eq_refl) as (oe & -> & He). cbn [rbind].
  destruct oe as [[| |d| | |]|]; try (apply decides_false; intros ((d' & Hd' & _) & _); by apply He in Hd').
  eapply decides_iff.
  - eapply (decides_refuse _ (SFleb d (dbl (now - 60)) = false)); [by rewrite negb_true_iff|]. intros _.
    destruct (claim_ahead_spec c (lit "nbf") (now + 60) eq_refl) as (onbf & -> & Hnbf). cbn [rbind]. eapply decides_refuse; [exact Hnbf|]. intros _.
    destruct (claim_ahead_spec c (lit "iat") (now + 60) eq_refl) as (oiat & -> & Hiat). cbn [rbind]. eapply decides_refuse; [exact Hiat|]. intros _.
    apply audience_ok. destruct (text_is c (lit "iss") iss eq_refl) as (oi & -> & Hi & _). cbn [rbind]. eapply decides_guard; [exact Hi|]. intros _.
    instantiate (1 := forall n, nonce = Some n -> field c (lit "nonce") (J_str n)).
    destruct nonce as [n|]; [|by apply decides_bool]. destruct (text_is c (lit "nonce") n eq_refl) as (on & -> & Hon & Hs). cbn [rbind].
    eapply decides_iff; [|split; [intros Hq n' [= <-]; exact Hq|intros Hq; exact (Hq n eq_refl)]]. destruct on as [tn|]; [|by apply decides_bool].
    assert (bytes_ok tn) as Htn by (apply cstr_bytes_ok; change (strings_ok (J_str tn)); eapply strings_ok_field; [exact Hc|by apply Hs]).
    destruct (zlen tn =? zlen n) eqn:El; cbn [negb]; [apply Z.eqb_eq in El; rewrite ct_eq_ok by auto; by apply decides_bool|].
    apply decides_false. intros Hf. apply Hon, beq_true in Hf as ->. lia.
  - assert (field c (lit "exp") (J_num d)) as Hd by (by apply He). split; [intros (Hle & Hr); split; [by exists d|exact Hr]|].
    intros ((d' & Hd' & Hle) & Hr). apply He in Hd' as [= <-]. split; [exact Hle|exact Hr].
Qed.

Definition bodies_ok (get : web) : Prop := forall host path st b, get host path = Some (st, b) -> bytes_ok b.

Lemma finds_fetch get host path : bodies_ok get ->
  finds (fetch_json get host path) (fun j => exists b, get host path = Some (200, b) /\ reads (cstr b) j).
Proof.
  intros Hg. unfold fetch_json. destruct (get host path) as [[st b]|] eqn:E; [|apply finds_none; by intros j (b & [=] & _)].
  eapply finds_iff; [eapply finds_guard; [apply Z.eqb_eq|]; intros _; by apply finds_json, cstr_ok_cstr, (Hg _ _ _ _ E)|].
  intros j. split; [intros [-> Hj]; by exists b|]. intros (b' & [= -> ->] & Hj). done.
Qed.

Lemma finds_jwks get1 get2 iss : bodies_ok get1 -> bodies_ok get2 -> finds (fetch_jwks get1 get2 iss) (published get1 get2 iss).
Proof.
  intros H1 H2. unfold fetch_jwks. eapply finds_iff.
  - eapply finds_bind; [by apply finds_fetch|]. intros disc _. destruct (text_is disc (lit "issuer") iss eq_refl) as (o & -> & Ho & _). cbn [rbind].
    eapply finds_guard; [exact Ho|]. intros _. eapply finds_bind; [by apply finds_text|]. intros uri _.
    instantiate (1 := fun uri jwks => exists hp b', Msg.https_url_split uri = Some hp /\ get2 hp.1 hp.2 = Some (200, b') /\ reads (cstr b') jwks). cbn beta.
    destruct (Msg.https_url_split uri) as [[jhost jpath]|]; [|apply finds_none; by intros j (? & ? & [=] & _)].
    eapply finds_iff; [by apply finds_fetch|]. intros j. cbn beta. split; [intros (b' & Hb & Hj); by exists (jhost, jpath), b'|].
    intros (hp & b' & [= <-] & Hb & Hj). by exists b'.
  - intros jwks. unfold published. split.
    + intros (disc & (b & Hb & Hd) & Hi & uri & Hu & [jh jp] & b' & Hs & Hb' & Hj). by exists disc, b, uri, jh, jp, b'.
    + intros (disc & b & uri & jh & jp & b' & Hb & Hd & Hi & Hu & Hs & Hb' & Hj). exists disc. split; [by exists b|]. split; [done|]. exists uri. split; [done|]. by exists (jh, jp), b'.
Qed.

Lemma num_bits_floor n : 0 <= n -> (num_bits n <? JWKS_RSA_MIN_BITS) = false <-> 2 ^ 2047 <= n.
Proof.
  intros Hn. unfold num_bits, JWKS_RSA_MIN_BITS. destruct (n =? 0) eqn:E.
  - apply Z.eqb_eq in E as ->. split; [done|]. intros Hl. assert (0 < 2 ^ 2047) by (apply Z.pow_pos_nonneg; lia). lia.
  - rewrite (Z.log2_le_pow2 n 2047) by lia. lia.
Qed.

Lemma be_val_nonneg b : bytes_ok b -> 0 <= be_val b.
Proof.
  unfold be_val. intros Hb. enough (forall v, 0 <= v -> 0 <= fold_left (fun v x => v * 256 + x) b v) by auto with lia.
  induction Hb as [|x b Hx _ IH]; intros v Hv; cbn [fold_left]; [done|]. apply IH. unfold is_byte in Hx. lia.
Qed.

Lemma finds_rsa k : finds (jwks_rsa_key k) (fun ne =>
  (exists nb eb nr er, field k (lit "n") (J_str nb) /\ field k (lit "e") (J_str eb) /\
     b64url_decode nb = Ret (Some nr) /\ b64url_decode eb = Ret (Some er) /\ be_val nr = ne.1 /\ be_val er = ne.2) /\
  2 ^ 2047 <= ne.1 /\ 1 < ne.2 /\ Z.odd ne.2 = true).
Proof.
  unfold jwks_rsa_key. set (good ne := 2 ^ 2047 <= ne.1 /\ 1 < ne.2 /\ Z.odd ne.2 = true). eapply finds_iff.
  - eapply finds_both; [by apply finds_text..|]. intros nb eb _ _. eapply finds_both; [by apply finds_b64..|]. intros nr er (_ & Hnr & Hnr0) (_ & Her & Her0).
    instantiate (1 := fun nr er ne => be_val nr = ne.1 /\ be_val er = ne.2 /\ good ne). cbn beta.
    assert (forall z : bytes, z <> [] -> (zlen z =? 0) = false) as Hz by (intros [|c z]; [done|]; rewrite zlen_cons; pose proof (zlen_nonneg z); lia).
    rewrite !Hz by done. cbn [orb]. pose proof (num_bits_floor _ (be_val_nonneg _ Hnr)) as Hf.
    destruct (num_bits (be_val nr) <? JWKS_RSA_MIN_BITS); [|destruct (be_val er <=? 1) eqn:E1; [|destruct (Z.odd (be_val er)) eqn:Eo]]; cbn [orb negb];
      try (apply finds_none; intros [n e] (E1' & E2' & ? & ? & Ho); cbn [fst snd] in *; subst; congruence || (by apply Hf) || lia).
    exists (Some (be_val nr, be_val er)). split; [done|]. intros [n e]. cbn [fst snd]. split; [|intros (-> & -> & _); done].
    intros Hs. injection Hs as <- <-. unfold good. cbn [fst snd]. split_and!; try done; [by apply Hf|lia].
  - intros ne. fold (good ne). split.
    + intros (nb & eb & Hnb & Heb & nr & er & (Hnr & _) & (Her & _) & En & Ee & Hg). split; [|done]. by exists nb, eb, nr, er.
    + intros ((nb & eb & nr & er & Hnb & Heb & Hnr & Her & En & Ee) & Hg). exists nb, eb. split_and!; [done..|]. exists nr, er.
      destruct (b64url_bytes nb) as (o & E & Ho). rewrite Hnr in E. injection E as <-. destruct (b64url_bytes eb) as (o & E & Ho'). rewrite Her in E. injection E as <-. auto.
Qed.

Lemma finds_keys kid l : finds (key_loop l kid) (fun ne =>
  exists before k after, l = before ++ k :: after /\ usable kid k ne /\ Forall (fun k' => forall ne', ~ usable kid k' ne') before).
Proof.
  induction l as [|k l IH]; cbn [key_loop]; [apply finds_none; by intros ne ([|] & ? & ? & ? & _)|].
  assert (forall m, finds m (usable kid k) -> finds (let! o := m in match o with Some p => Ret (Some p) | None => key_loop l kid end)
    (fun ne => exists before k0 after, k :: l = before ++ k0 :: after /\ usable kid k0 ne /\ Forall (fun k' => forall ne', ~ usable kid k' ne') before)) as Hcons.
  { intros m (o & -> & Ho). cbn [rbind]. destruct o as [ne0|].
    - assert (usable kid k ne0) as H0' by (by apply Ho). exists (Some ne0). split; [done|]. intros ne. split; [intros [= <-]; by exists [], k, l|].
      intros ([|k1 before] & k0 & after & E & Hu & Hb); [injection E as <- <-; by apply Ho|]. injection E as <- ->. apply Forall_cons in Hb as [Hb _]. by apply Hb in H0'.
    - eapply finds_iff; [exact IH|]. intros ne. split.
      + intros (b & k0 & a & -> & Hu & Hb). exists (k :: b), k0, a. split_and!; [done..|]. constructor; [|done]. intros ne' Hne. by apply Ho in Hne.
      + intros ([|k1 b] & k0 & a & E & Hu & Hb); [injection E as <- <-; by apply Ho in Hu|]. injection E as <- ->. apply Forall_cons in Hb as [_ Hb]. by exists b, k0, a. }
  destruct (text_is k (lit "kid") kid eq_refl) as (ok & -> & Hk & _). destruct (text_is k (lit "use") (lit "sig") eq_refl) as (ou & -> & Hu & _).
  destruct (text_is k (lit "kty") (lit "RSA") eq_refl) as (ot & -> & Ht & _). cbn [rbind].
  assert (finds (Ret None) (usable kid k) -> finds (key_loop l kid) (fun ne => exists before k0 after, k :: l = before ++ k0 :: after /\ usable kid k0 ne /\
    Forall (fun k' => forall ne', ~ usable kid k' ne') before)) as Hskip by (intros Hf; exact (Hcons _ Hf)).
  destruct (match ok with Some _ => _ | None => _ end); cbn [negb]; [|apply Hskip, finds_none; intros ne (Hk' & _); by apply Hk in Hk'].
  destruct (match ou with Some _ => _ | None => _ end); cbn [negb orb]; [|apply Hskip, finds_none; intros ne (_ & Hu' & _); by apply Hu in Hu'].
  destruct (match ot with Some _ => _ | None => _ end); cbn [negb orb]; [|apply Hskip, finds_none; intros ne (_ & _ & Ht' & _); by apply Ht in Ht'].
  apply Hcons. eapply finds_iff; [apply finds_rsa|]. intros ne. unfold usable. tauto.
Qed.

Lemma finds_select jwks kid : finds (select_jwks_key jwks kid) (signing_key jwks kid).
Proof.
  unfold select_jwks_key, signing_key. destruct (finds_field jwks (lit "keys") eq_refl) as (o & -> & Ho). cbn [rbind].
  destruct o as [[| | | |l|]|]; try (apply finds_none; intros ne (pre & k & post & Hf & _); by apply Ho in Hf).
  eapply finds_iff; [apply finds_keys|]. intros ne. assert (field jwks (lit "keys") (J_arr l)) as Hl by (by apply Ho). split.
  - intros (b & k & a & -> & Hu & Hb). by exists b, k, a.
  - intros (b & k & a & Hf & Hu & Hb). apply Ho in Hf as [= ->]. by exists b, k, a.
Qed.

Lemma decides_signature h p s jwt ne : jwt = h ++ 46 :: p ++ 46 :: s ->
  decides (verify_signature jwt s ne) (exists raw, b64url_decode s = Ret (Some raw) /\ EVP_DigestVerify ne.1 ne.2 (h ++ 46 :: p) raw = true).
Proof.
  intros ->. unfold verify_signature. eapply decides_iff.
  - eapply (decides_bind _ _ (fun raw => EVP_DigestVerify ne.1 ne.2 (h ++ 46 :: p) raw = true)); [apply finds_b64|]. intros raw (_ & _ & Hne).
    replace (zlen raw =? 0) with false by (destruct raw as [|c z]; [done|]; rewrite zlen_cons; pose proof (zlen_nonneg z); lia).
    replace (h ++ 46 :: p ++ 46 :: s) with ((h ++ 46 :: p) ++ 46 :: s) by (by rewrite <- app_assoc).
    rewrite rdn_ok, slice_app_l by (pose proof (zlen_nonneg h); pose proof (zlen_nonneg p); pose proof (zlen_nonneg s); zlia). cbn [rbind].
    apply decides_bool. reflexivity.
  - split; [intros (raw & (E & _) & Hv); by exists raw|]. intros (raw & E & Hv). exists raw. split; [|done].
    destruct (b64url_bytes s) as (o & E' & Ho). rewrite E in E'. injection E' as <-. auto.
Qed.

Lemma token_strings jwt h p s hj pj : token jwt h p s hj pj -> strings_ok pj.
Proof. intros (_ & _ & _ & _ & hr & pr & _ & Ep & _ & Hj). eapply reads_strings; [by eapply decoded_cstr|exact Hj]. Qed.

Lemma app_same_prefix (h p h' p' s : bytes) : h ++ 46 :: p ++ 46 :: s = h' ++ 46 :: p' ++ 46 :: s -> h ++ 46 :: p = h' ++ 46 :: p'.
Proof.
  replace (h ++ 46 :: p ++ 46 :: s) with ((h ++ 46 :: p) ++ 46 :: s) by (by rewrite <- app_assoc).
  replace (h' ++ 46 :: p' ++ 46 :: s) with ((h' ++ 46 :: p') ++ 46 :: s) by (by rewrite <- app_assoc). by intros ?%app_inv_tail.
Qed.

Lemma verify_decides get1 get2 now jwt aud iss nonce : bodies_ok get1 -> bodies_ok get2 -> (forall n, nonce = Some n -> bytes_ok n) ->
  decides (oidc_jwt_verify get1 get2 now jwt aud iss nonce) (good_token get1 get2 now jwt aud iss nonce).
Proof.
  intros H1 H2 Hn. apply (decides_iff _ (exists x, parts jwt x /\ claims_ok now aud iss nonce x.1.1 /\
    exists jwks, published get1 get2 iss jwks /\ exists kid, field x.1.2 (lit "kid") (J_str kid) /\ exists ne, signing_key jwks kid ne /\
      exists h p raw, jwt = h ++ 46 :: p ++ 46 :: x.2 /\ b64url_decode x.2 = Ret (Some raw) /\ EVP_DigestVerify ne.1 ne.2 (h ++ 46 :: p) raw = true)).
  - unfold oidc_jwt_verify. apply decides_bind; [apply finds_parts|]. intros [[pj hj] s] (h & p & Ht & Ha & kid & Hk). cbn [fst snd] in *.
    destruct (decides_claims pj aud iss nonce now (token_strings _ _ _ _ _ _ Ht) Hn) as (b & -> & Hb). cbn [rbind]. apply decides_guard; [exact Hb|]. intros _.
    apply decides_bind; [by apply finds_jwks|]. intros jwks _. destruct (finds_text hj (lit "kid") eq_refl) as (o & -> & Ho). cbn [rbind].
    apply Ho in Hk as ->. cbn [default]. eapply decides_iff; [eapply decides_bind; [apply finds_select|]; intros ne _; apply (decides_signature h p), Ht|].
    split.
    + intros (ne & Hs & raw & Hr & Hv). exists kid. split; [by apply Ho|]. exists ne. split; [done|]. destruct Ht as [Ej _]. by exists h, p, raw.
    + intros (kid' & Hk' & ne & Hs & h' & p' & raw & Ej & Hr & Hv). apply Ho in Hk' as [= <-]. exists ne. split; [done|]. exists raw. split; [done|].
      destruct Ht as (Ej' & _). by rewrite (app_same_prefix h p h' p' s) by congruence.
  - split.
    + intros ([[pj hj] s] & (h & p & Ht & Ha & _) & Hc & jwks & Hj & kid & Hk & ne & Hs & h' & p' & raw & Ej & Hr & Hv). cbn [fst snd] in *.
      exists h, p, s, hj, pj, kid, jwks, ne, raw. destruct (id Ht) as (Ej' & _). rewrite (app_same_prefix h p h' p' s) by congruence. done.
    + intros (h & p & s & hj & pj & kid & jwks & ne & raw & Ht & Ha & Hk & Hc & Hj & Hs & Hr & Hv). exists (pj, hj, s). cbn [fst snd].
      split; [by exists h, p; eauto|]. split; [done|]. exists jwks. split; [done|]. exists kid. split; [done|]. exists ne. split; [done|]. destruct Ht as [Ej _]. by exists h, p, raw.
Qed.

(** C13: [oidc_jwt_verify] returns on every token string, and it accepts exactly the good ones:
    three non-empty segments whose header asks for RS256 and names a key, whose claims are in
    time (within a minute), for this client, from this issuer and carry the nonce of this login,
    and whose signature over the first two segments verifies under the first usable key of that
    name (RSA, at least 2048 bits, odd exponent above 1) in the set the issuer publishes. *)
Theorem jwt_verify_exact get1 get2 now jwt aud iss nonce :
  bodies_ok get1 -> bodies_ok get2 -> (forall n, nonce = Some n -> bytes_ok n) ->
  exists b, oidc_jwt_verify get1 get2 now jwt aud iss nonce = Ret b /\ (b = true <-> good_token get1 get2 now jwt aud iss nonce).
Proof. apply verify_decides. Qed.
End Exact.

(** A token signed for a demonstration key set. *)
Definition demo_n : bytes := fill 255 256.
#[local] Instance demo_rsa : Rsa := {| EVP_DigestVerify n e msg sig := (n =? 2 ^ 2048 - 1) && (e =? 3) && beq sig [u8 (be_val msg)] |}.
Definition demo_msg : bytes :=
  b64_url (quoted (lit "{'alg':'RS256','kid':'k1'}")) ++ 46 ::
  b64_url (quoted (lit "{'exp':2000,'iat':1000,'aud':['other','me'],'azp':'me','iss':'https://i','nonce':'n0'}")).
Definition demo_jwt : bytes := demo_msg ++ 46 :: b64_url [u8 (be_val demo_msg)].
Definition demo_web : web := fun host path =>
  if beq host OIDC_AUTH_HOST && beq path DISCOVERY_PATH then Some (200, quoted (lit "{'issuer':'https://i','jwks_uri':'https://keys/set'}"))
  else if beq host (lit "keys") && beq path (lit "/set") then
    Some (200, quoted (lit "{'keys':[{'kid':'k0'},{'kid':'k1','use':'sig','kty':'RSA','n':'AQ','e':'Aw'},{'kid':'k1','use':'sig','kty':'RSA','n':'") ++
      b64_url demo_n ++ quoted (lit "','e':'Aw'}]}"))
  else None.

Lemma demo_bodies : bodies_ok demo_web.
Proof.
  intros host path st b. unfold demo_web. repeat case_match; try done; intros [= <- <-]; apply (bool_decide_eq_true_1 _); vm_compute; reflexivity.
Qed.

Lemma jwt_verify_exact_witness :
  oidc_jwt_verify demo_web demo_web 1500 demo_jwt (lit "me") (lit "https://i") (Some (lit "n0")) = Ret true /\
  good_token demo_web demo_web 1500 demo_jwt (lit "me") (lit "https://i") (Some (lit "n0")).
Proof.
  destruct (jwt_verify_exact demo_web demo_web 1500 demo_jwt (lit "me") (lit "https://i") (Some (lit "n0"))) as (b & E & Hb).
  - exact demo_bodies.
  - exact demo_bodies.
  - intros n [= <-]. repeat constructor; vm_compute; done.
  - assert (b = true) as -> by (apply ret_inj; rewrite <- E; vm_compute; reflexivity). split; [exact E|by apply Hb].
Defined.
