(* ===== verification/Double.v ===== *)
(** * Integers as doubles

    Below 2^53 the conversion of an integer to a double is exact, so that comparisons of doubles
    decide comparisons of integers and decimal texts of integers are read back without
    rounding. *)

From Stdlib Require Import Floats.SpecFloat.
From S2P Require Import Prelude Util Json Jwt.
Import Scan.

(** Digits in base 2. *)
Definition bits (v : Z) : Z := Z.log2 v + 1.

Lemma digits2_bits p : Zpos (digits2_pos p) = bits (Zpos p).
Proof.
  unfold bits. induction p as [p IH|p IH|]; [| |done]; cbn [digits2_pos]; rewrite Pos2Z.inj_succ, IH.
  - change (Zpos p~1) with (Z.succ_double (Zpos p)). rewrite Z.succ_double_spec, Z.log2_succ_double by lia. lia.
  - change (Zpos p~0) with (Z.double (Zpos p)). rewrite Z.double_spec, Z.log2_double by lia. lia.
Qed.

Lemma shift_val d p : Zpos (Pos.iter xO p d) = Zpos p * 2 ^ Zpos d.
Proof. induction d as [|d IH] using Pos.peano_ind; [cbn; lia|]. rewrite Pos.iter_succ, Pos2Z.inj_succ, Z.pow_succ_r by lia. rewrite (Pos2Z.inj_xO (Pos.iter xO p d)), IH. lia. Qed.

Lemma round_exact sx m e : bits (Zpos m) = 53 -> -1074 <= e <= 971 -> binary_round_aux 53 1024 sx (Zpos m) e loc_Exact = S754_finite sx m e.
Proof.
  intros Hm He. assert (shr_fexp 53 1024 (Zpos m) e loc_Exact = ({| shr_m := Zpos m; shr_r := false; shr_s := false |}, e)) as Hs.
  { unfold shr_fexp. cbn [Zdigits2 shr_record_of_loc]. rewrite digits2_bits, Hm. unfold fexp, emin. replace (_ - e) with 0 by lia. done. }
  unfold binary_round_aux. rewrite Hs. cbn [shr_m loc_of_shr_record round_nearest_even]. rewrite Hs. cbn [shr_m]. by replace (e <=? 1024 - 53) with true by lia.
Qed.

(** The double of a positive integer: its leading digit is moved to place 52. *)
Lemma dbl_pos v : 0 < v < 2 ^ 53 -> exists m, dbl v = S754_finite false m (bits v - 53) /\ Zpos m = v * 2 ^ (53 - bits v) /\ 2 ^ 52 <= Zpos m < 2 ^ 53.
Proof.
  intros Hv. destruct v as [|p|p]; try lia. assert (1 <= bits (Zpos p) <= 53) as Hb.
  { unfold bits. pose proof (Z.log2_nonneg (Zpos p)). pose proof (Z.log2_lt_pow2 (Zpos p) 53). lia. }
  assert (2 ^ (bits (Zpos p) - 1) <= Zpos p < 2 ^ bits (Zpos p)) as Hp by (unfold bits; rewrite Z.add_simpl_r; apply Z.log2_spec; lia).
  assert (forall m, Zpos m = Zpos p * 2 ^ (53 - bits (Zpos p)) -> 2 ^ 52 <= Zpos m < 2 ^ 53 /\ bits (Zpos m) = 53) as Hm.
  { intros m Em. replace (2 ^ 53) with (2 ^ bits (Zpos p) * 2 ^ (53 - bits (Zpos p))) by (rewrite <- Z.pow_add_r by lia; f_equal; lia).
    replace (2 ^ 52) with (2 ^ (bits (Zpos p) - 1) * 2 ^ (53 - bits (Zpos p))) by (rewrite <- Z.pow_add_r by lia; f_equal; lia).
    assert (0 < 2 ^ (53 - bits (Zpos p))) by (apply Z.pow_pos_nonneg; lia). split; [nia|]. unfold bits at 1. rewrite Em, Z.log2_mul_pow2 by lia. unfold bits. lia. }
  unfold dbl, binary_normalize, binary_round. rewrite Z.add_0_r, digits2_bits. unfold fexp, emin. replace (Z.max (bits (Zpos p) - 53) (3 - 1024 - 53)) with (bits (Zpos p) - 53) by lia.
  unfold shl_align. destruct (bits (Zpos p) - 53 - 0) as [|d|d] eqn:Ed; [|lia|].
  - assert (Zpos p = Zpos p * 2 ^ (53 - bits (Zpos p))) as E by (replace (53 - bits (Zpos p)) with 0 by lia; lia). destruct (Hm p E) as [H1 H2].
    exists p. rewrite round_exact by (done || lia). split_and!; [f_equal; lia|done|lia|lia].
  - assert (Zpos (Pos.iter xO p d) = Zpos p * 2 ^ (53 - bits (Zpos p))) as E by (rewrite shift_val; do 2 f_equal; lia). destruct (Hm _ E) as [H1 H2].
    exists (Pos.iter xO p d). rewrite round_exact by (done || lia). split_and!; [done|done|lia|lia].
Qed.

(** Comparisons. *)
Lemma dbl_compare a b : 0 <= a < 2 ^ 53 -> 0 <= b < 2 ^ 53 -> SFcompare (dbl a) (dbl b) = Some (a ?= b).
Proof.
  intros Ha Hb. destruct (decide (a = 0)) as [->|Ha0].
  { destruct (decide (b = 0)) as [->|Hb0]; [done|]. destruct (dbl_pos b) as (m & -> & _); [lia|]. by destruct b; [|..|lia]. }
  destruct (dbl_pos a) as (m & -> & Em & Hm); [lia|]. destruct (decide (b = 0)) as [->|Hb0]; [by destruct a; [|..|lia]|].
  destruct (dbl_pos b) as (n & -> & En & Hn); [lia|]. cbn [SFcompare]. f_equal.
  assert (forall x y, 0 < x < 2 ^ 53 -> 0 < y < 2 ^ 53 -> bits x < bits y -> x < y) as Hmono.
  { intros x y Hx Hy Hxy. destruct (Z.lt_ge_cases x y) as [|Hle]; [done|]. apply Z.log2_le_mono in Hle. unfold bits in Hxy. lia. }
  destruct (Z.compare_spec (bits a - 53) (bits b - 53)) as [Eb|Hlt|Hgt].
  - assert (bits a = bits b) as Eb' by lia. rewrite Eb' in Em. set (k := 2 ^ (53 - bits b)) in *. assert (0 < k).
    { apply Z.pow_pos_nonneg; [lia|]. unfold bits. pose proof (Z.log2_lt_pow2 b 53). lia. }
    change (PosDef.Pos.compare_cont Eq m n) with (Zpos m ?= Zpos n). rewrite Em, En. by rewrite <- Zmult_compare_compat_r by lia.
  - symmetry. apply Z.compare_lt_iff. apply Hmono; lia.
  - symmetry. apply Z.compare_gt_iff. apply Hmono; lia.
Qed.

Lemma dbl_ltb a b : 0 <= a < 2 ^ 53 -> 0 <= b < 2 ^ 53 -> SFltb (dbl a) (dbl b) = (a <? b).
Proof. intros Ha Hb. unfold SFltb. rewrite dbl_compare by done. unfold Z.ltb. by destruct (a ?= b). Qed.

Lemma dbl_eqb a b : 0 <= a < 2 ^ 53 -> 0 <= b < 2 ^ 53 -> SFeqb (dbl a) (dbl b) = (a =? b).
Proof. intros Ha Hb. unfold SFeqb. rewrite dbl_compare by done. rewrite Z.eqb_compare. by destruct (a ?= b). Qed.

Lemma dbl_leb a b : 0 <= a < 2 ^ 53 -> 0 <= b < 2 ^ 53 -> SFleb (dbl a) (dbl b) = (a <=? b).
Proof. intros Ha Hb. unfold SFleb. rewrite dbl_compare by done. unfold Z.leb. by destruct (a ?= b). Qed.

(** Equal doubles are the same, zeros apart. *)
Lemma SFeqb_same a b : SFeqb a b = true -> a = b \/ exists s t, a = S754_zero s /\ b = S754_zero t.
Proof.
  unfold SFeqb. destruct a as [s|s| |s m e], b as [t|t| |t n f]; cbn [SFcompare]; try done; [right; by eexists _, _|..]; destruct s; try done; destruct t; try done; try (by left).
  all: destruct (Z.compare_spec e f) as [->| |]; try done; change (PosDef.Pos.compare_cont Eq m n) with (Zpos m ?= Zpos n);
    destruct (Z.compare_spec (Zpos m) (Zpos n)) as [[= ->]| |]; try done; by left.
Qed.

Lemma SFeqb_sym a b : SFeqb a b = true -> SFeqb b a = true.
Proof. intros E. destruct (SFeqb_same a b E) as [->|(s & t & -> & ->)]; done. Qed.

Lemma SFleb_ltb a b : SFleb a b = true -> SFltb b a = false.
Proof.
  unfold SFleb, SFltb. destruct a as [s|s| |s m e], b as [t|t| |t n f]; cbn [SFcompare]; try done; try (by destruct s); try (by destruct t); try (by destruct s, t).
  change (PosDef.Pos.compare_cont Eq m n) with (m ?= n)%positive. change (PosDef.Pos.compare_cont Eq n m) with (n ?= m)%positive. rewrite (Z.compare_antisym e f), (Pos.compare_antisym m n).
  destruct s, t; try done; destruct (e ?= f); cbn; try done; by destruct (m ?= n)%positive.
Qed.

(** Truncation undoes the conversion. *)
Definition to_long (d : spec_float) : Z :=
  match d with
  | S754_finite neg m e =>
      let v := if e >=? 0 then Zpos m * 2 ^ e else Zpos m / 2 ^ (- e) in
      if neg then - v else v
  | _ => 0
  end.

Lemma to_long_dbl v : 0 <= v < 2 ^ 53 -> to_long (dbl v) = v.
Proof.
  intros Hv. destruct (decide (v = 0)) as [->|]; [done|]. destruct (dbl_pos v) as (m & -> & Em & _); [lia|]. cbn [to_long].
  assert (bits v <= 53) by (unfold bits; pose proof (Z.log2_lt_pow2 v 53); lia). destruct (bits v - 53 >=? 0) eqn:E.
  - replace (bits v - 53) with 0 by lia. rewrite Em. replace (53 - bits v) with 0 by lia. lia.
  - rewrite Em. replace (- (bits v - 53)) with (53 - bits v) by lia. apply Z.div_mul. assert (0 < 2 ^ (53 - bits v)) by (apply Z.pow_pos_nonneg; lia). lia.
Qed.

(** The decimal text of an integer is read as its double. *)
Lemma strtod_dec `{Libc} v : 0 <= v < 2 ^ 53 -> strtod (dec_str v) = Some (dbl v).
Proof.
  intros Hv. destruct (dec_str_spec v) as (Hd & Hval & Hne & _); [lia|]. assert (num_parts (dec_str v) = (false, v, 0)) as Hn.
  { unfold num_parts. destruct (dec_str v) as [|c r] eqn:E; [done|]. cbn [forallb] in Hd. pose proof Hd as Hd'. apply andb_true_iff in Hd' as [Hc _]. unfold isdigit in Hc. replace (c =? 45) with false by lia.
    pose proof (span_digits_app (c :: r) [] Hd eq_refl) as Hs. rewrite app_nil_r in Hs. rewrite Hs. rewrite app_nil_r, Hval. done. }
  unfold strtod. rewrite Hn. assert (of_decimal false v 0 = dbl v) as ->.
  { destruct v as [|p|p]; [done| |lia]. cbn [of_decimal]. replace (0 >=? 0) with true by done. rewrite Z.pow_0_r, Z.mul_1_r. done. }
  destruct (decide (v = 0)) as [->|]; [done|]. destruct (dbl_pos v) as (m & -> & _ & Hm); [lia|]. by replace (Zpos m <? 2 ^ 52) with false by lia.
Qed.

(** Rounding never lowers the exponent, and keeps the sign. *)
Lemma shr_exponent mrs e n : e <= (shr mrs e n).2.
Proof. destruct n as [|p|p]; cbn [shr snd]; lia. Qed.

Lemma round_shape sx mx ex lx :
  match binary_round_aux 53 1024 sx mx ex lx with S754_finite s m e => s = sx /\ ex <= e | S754_zero s | S754_infinity s => s = sx | S754_nan => True end.
Proof.
  unfold binary_round_aux, shr_fexp. set (n1 := fexp _ _ _ - ex). pose proof (shr_exponent (shr_record_of_loc mx lx) ex n1) as H1. destruct (shr _ ex n1) as [mrs1 e1]. cbn [snd] in H1.
  set (r := round_nearest_even _ _). set (n2 := fexp _ _ _ - e1). pose proof (shr_exponent (shr_record_of_loc r loc_Exact) e1 n2) as H2. destruct (shr _ e1 n2) as [mrs2 e2]. cbn [snd] in H2.
  destruct (shr_m mrs2); [done| |done]. destruct (_ <=? _); [split; [done|lia]|done].
Qed.

Lemma dbl_big n : 2 ^ 53 <= n -> match dbl n with S754_finite s _ e => s = false /\ 0 <= e | S754_zero s | S754_infinity s => s = false | S754_nan => True end.
Proof.
  intros Hn. destruct n as [|p|p]; [lia| |lia]. unfold dbl, binary_normalize, binary_round. rewrite Z.add_0_r, digits2_bits.
  assert (54 <= bits (Zpos p)) by (unfold bits; apply Z.log2_le_mono in Hn; rewrite Z.log2_pow2 in Hn; lia). unfold fexp, emin, shl_align.
  destruct (Z.max (bits (Zpos p) - 53) (3 - 1024 - 53) - 0) eqn:E; [|apply round_shape|lia]. apply round_shape.
Qed.

Lemma dbl_negative n : n < 0 -> match dbl n with S754_finite s _ _ | S754_zero s | S754_infinity s => s = true | S754_nan => True end.
Proof.
  intros Hn. destruct n as [|p|p]; [lia|lia|]. unfold dbl, binary_normalize, binary_round. destruct (shl_align _ _ _) as [mz ez]. pose proof (round_shape true (Zpos mz) ez loc_Exact) as H.
  destruct (binary_round_aux _ _ _ _ _ _); by destruct H.
Qed.

(** A double between two integers that equals its integer part. *)
Lemma between d a b : 0 < a -> a <= b -> b < 2 ^ 52 -> SFltb d (dbl a) = false -> SFltb (dbl b) d = false -> SFeqb d (dbl (to_long d)) = true ->
  a <= to_long d <= b /\ d = dbl (to_long d).
Proof.
  intros Ha Hab Hb Hlo Hhi Heq. destruct (dbl_pos a) as (ma & Ea & _); [lia|]. destruct (dbl_pos b) as (mb & Eb & _); [lia|].
  destruct (SFeqb_same _ _ Heq) as [Hd|(s & t & -> & _)]; [|rewrite Ea in Hlo; done]. split; [|done]. set (n := to_long d) in *. destruct (Z.lt_ge_cases n 0) as [Hn|Hn].
  { exfalso. pose proof (dbl_negative n Hn) as Hs. rewrite <- Hd in Hs. rewrite Ea in Hlo. unfold SFltb in Hlo. destruct d as [s|s| |s m e]; cbn in Hlo; by (subst s || done). }
  destruct (Z.lt_ge_cases n (2 ^ 53)) as [Hn2|Hn2]; [rewrite Hd in Hlo, Hhi; rewrite dbl_ltb in Hlo, Hhi by lia; lia|].
  exfalso. pose proof (dbl_big n Hn2) as Hs. rewrite <- Hd in Hs. rewrite Ea in Hlo. rewrite Eb in Hhi. unfold SFltb in Hlo, Hhi. assert (bits b <= 52) by (unfold bits; pose proof (Z.log2_lt_pow2 b 52); lia).
  destruct d as [s|s| |s m e]; [done|by subst s|done|]. destruct Hs as [-> He]. cbn in Hhi, Heq.
  by destruct (Z.compare_spec (bits b - 53) e); [lia| |lia].
Qed.
