(* ===== verification/Oidc.v ===== *)
(** * The browser login (src/src/oidc/oidc_flow.c, oidc_util.c)

    The authorization-code flow with PKCE, and the signed requests to the controller.  What
    the program takes from outside is the record [Env]: the words [rand_u32] draws, the
    environment and directories, the terminal, the web servers and the clock.  A run that ends in
    [oidc_die] is an [inr] with its reason; the files and the requests sent up to then are part
    of the outcome. *)

From stdpp Require Import gmap.
From S2P Require Import Prelude Util Crypto Http Json OidcText Jwt.
Import Scan.

Definition OIDC_DOMAIN : bytes := lit "iwan.ustc".
Definition OIDC_APP_SECRET : bytes := lit "ca6a3532abd2986a03b86b3a".
Definition OIDC_CONTROLLER_HOST : bytes := lit "crtl.ivpn.ustc.edu.cn".
Definition OIDC_AUTH_PATH : bytes := lit "/login/oauth/authorize".
Definition OIDC_TOKEN_PATH : bytes := lit "/api/login/oauth/access_token".
Definition OIDC_REDIRECT : bytes := lit "com.panabit.mobile://oauth2redirect".
Definition OIDC_SCOPE : bytes := lit "openid profile email offline_access".
Definition OIDC_APP_ID : bytes := lit "controller-ustc".

(** HMAC with EVP_sha256(): key, message. *)
Class Hmac := { HMAC_sha256 : bytes -> bytes -> bytes }.

Abbreviation files := (gmap bytes bytes).

(** A POST: host, path, body and header lines; [https_post] gives its verdict, the status and
    the body. *)
Definition request : Type := bytes * bytes * bytes * list bytes.

Record Env := {
  rnd : nat -> Z;
  getuid : Z;
  getenv : bytes -> option bytes;
  stat : bytes -> option (bool * Z);   (* S_ISDIR and st_uid *)
  may_create : bytes -> bool;
  may_write : bool;
  may_read : bool;
  stdin : bytes;
  https_post : request -> bool * Z * option bytes;
  https_get1 : web;
  https_get2 : web;
  clock : Z
}.

(** The reasons for [oidc_die], with the text shown where it comes from outside. *)
Inductive die :=
  | D_state_file (path : bytes)
  | D_no_redirect
  | D_redirect_long
  | D_redirect_scheme
  | D_no_state
  | D_bad_state
  | D_no_code
  | D_token (msg : bytes)
  | D_token_json
  | D_no_access_token
  | D_bad_access_token
  | D_no_id_token
  | D_bad_id_token
  | D_request_failed (path : bytes) (st : Z) (shown : bytes).

#[global] Instance die_eq_dec : EqDecision die.
Proof. solve_decision. Defined.

(** ** Helpers *)

(** [%d]. *)
Definition dec_int (v : Z) : bytes := if v <? 0 then 45 :: dec_str (- v) else dec_str v.

(** [oidc_rand_bytes]: the words from draw [k] on, little-endian. *)
Definition oidc_rand_bytes (rnd : nat -> Z) (k words : nat) : bytes := concat (map (fun i => store_le 4 (rnd i)) (seq k words)).

Definition oidc_esc_put (s : option bytes) : res bytes := json_escape (default [] s).

Definition oidc_build_dev_body (type device_id username : bytes) : res bytes :=
  let! d := oidc_esc_put (Some OIDC_DOMAIN) in
  let! t := oidc_esc_put (Some type) in
  let! i := oidc_esc_put (Some device_id) in
  let! u := oidc_esc_put (Some username) in
  Ret (quoted (lit "{'domain':'") ++ d ++ quoted (lit "','type':'") ++ t ++ quoted (lit "','oem_name':'panabit','device_id':'") ++ i ++
       quoted (lit "','userName':'") ++ u ++ quoted (lit "','serverlist_version':'0','ipfilter_version':'0','branding_version':'0'}")).

(** ** Where the state is kept *)

Definition state_dir_ok (e : Env) (dir : bytes) : bool :=
  (dir.[0] =? 47) && match stat e dir with Some (isdir, uid) => isdir && ((uid =? getuid e) || (uid =? 0)) | None => false end.

Definition state_dir_pick (e : Env) : bytes :=
  let usable d := match d with Some dir => negb (zlen dir =? 0) && state_dir_ok e dir | None => false end in
  let xdg := getenv e (lit "XDG_RUNTIME_DIR") in
  let tmp := getenv e (lit "TMPDIR") in
  if usable xdg then default [] xdg else if usable tmp then default [] tmp else lit "/tmp".

(** [%08lx] of a 32-bit word. *)
Definition hex8 (v : Z) : bytes := hex_encode (put32 v).

Definition state_file_path (e : Env) (k : nat) : bytes :=
  let dir := state_dir_pick e in
  let n := zlen dir + 64 in
  snprintf n (dir ++ lit "/iwan-oidc-state-" ++ dec_str (getuid e) ++ lit "-" ++ hex8 (rnd e k)).

(** O_CREAT with O_EXCL: an existing file is an error; a file that cannot be written is
    removed again. *)
Definition save_state (e : Env) (fs : files) (path state nonce : bytes) : bool * files :=
  match fs !! path with
  | Some _ => (false, fs)
  | None =>
      if negb (may_create e path) then (false, fs)
      else
        let fs := <[path := save_state_file state nonce]> fs in
        if may_write e then (true, fs) else (false, delete path fs)
  end.

(** ** Secrets of one login *)

Definition ALPH : bytes := lit "ABCDEFGHIJKLMNOPQRSTUVWXYZabcdefghijklmnopqrstuvwxyz0123456789".

Definition make_state (rnd : nat -> Z) (k : nat) : bytes := map (fun i => ALPH.[rnd i mod 62]) (seq k 32).

Definition make_nonce (rnd : nat -> Z) (k : nat) : bytes := oidc_hex_upper (oidc_rand_bytes rnd k 4).

Section Flow.
Context `{Libc, Rsa, OpenSSL, Hmac}.

(** Verifier and challenge. *)
Definition make_pkce (rnd : nat -> Z) (k : nat) : bytes * bytes :=
  let code_verifier := b64url_no_pad (oidc_rand_bytes rnd k 16) in
  (code_verifier, b64url_no_pad (sha256 code_verifier)).

Definition build_auth_url (code_challenge state nonce : bytes) : bytes :=
  (lit "https://" ++ OIDC_AUTH_HOST ++ OIDC_AUTH_PATH ++ lit "?client_id=") ++ oidc_urlenc OIDC_CLIENT_ID ++
  lit "&redirect_uri=" ++ oidc_urlenc OIDC_REDIRECT ++ lit "&response_type=code" ++ lit "&scope=" ++ oidc_urlenc OIDC_SCOPE ++
  lit "&code_challenge=" ++ oidc_urlenc code_challenge ++ lit "&code_challenge_method=S256" ++
  lit "&state=" ++ oidc_urlenc state ++ lit "&nonce=" ++ oidc_urlenc nonce.

(** ** The pasted address *)

(** [fgets]: the bytes stored, those left, and whether the end of input was met. *)
Fixpoint fgets_loop (n : nat) (s : bytes) : bytes * bytes * bool :=
  match n with
  | O => ([], s, false)
  | S n =>
      match s with
      | [] => ([], [], true)
      | c :: s => if c =? 10 then ([c], s, false) else let '(l, r, eof) := fgets_loop n s in (c :: l, r, eof)
      end
  end.

Definition fgets (cap : Z) (s : bytes) : option (bytes * bytes * bool) :=
  let '(l, r, eof) := fgets_loop (Z.to_nat (cap - 1)) s in
  match l with [] => None | _ => Some (l, r, eof) end.

Definition ends_with (c : Z) (l : bytes) : bool := (0 <? zlen l) && (l.[zlen l - 1] =? c).

Definition chop (l : bytes) : bytes := take (Z.to_nat (zlen l - 1)) l.

Definition is_blank (c : Z) : bool := (c =? 32) || (c =? 9).

Definition read_redirect_url (stdin : bytes) : res (bytes + die) :=
  match fgets 4096 stdin with
  | None => Ret (inr D_no_redirect)
  | Some (raw, rest, eof) =>
      let line := cstr raw in
      let cut :=
        if ends_with 10 line then
          let l := chop line in inl (if ends_with 13 l then chop l else l)
        else if negb eof && (zlen line >=? 4095) then
          match rest with
          | [] => inl line
          | c :: _ => if negb (c =? 10) && negb (c =? 13) then inr D_redirect_long else inl line
          end
        else inl line in
      match cut with
      | inr d => Ret (inr d)
      | inl rline =>
          let rp := skipw is_blank rline in
          let rl := zlen OIDC_REDIRECT in
          if negb (beq (take (Z.to_nat rl) rp) OIDC_REDIRECT) then Ret (inr D_redirect_scheme)
          else
            let! c := rdc rp rl in
            if negb (c =? 0) && negb (c =? 63) && negb (c =? 47) && negb (c =? 32) && negb (c =? 9)
            then Ret (inr D_redirect_scheme) else Ret (inl rline)
      end
  end.

(** ** Tokens *)

Definition JSON_TYPE : bytes := lit "Content-Type: application/json".

Definition token_request (code code_verifier : bytes) : res request :=
  let! i := oidc_esc_put (Some OIDC_CLIENT_ID) in
  let! c := oidc_esc_put (Some code) in
  let! v := oidc_esc_put (Some code_verifier) in
  let! u := oidc_esc_put (Some OIDC_REDIRECT) in
  Ret (OIDC_AUTH_HOST, OIDC_TOKEN_PATH,
       quoted (lit "{'client_id':'") ++ i ++ quoted (lit "','code':'") ++ c ++ quoted (lit "','code_verifier':'") ++ v ++
       quoted (lit "','redirect_uri':'") ++ u ++ quoted (lit "','grant_type':'authorization_code'}"),
       [JSON_TYPE]).

(** What a failure shows of the response. *)
Definition shown_resp (resp : option bytes) (otherwise : bytes) : res bytes :=
  oidc_printable_dup match resp with Some (c :: r) => cstr (c :: r) | _ => otherwise end.

Definition exchange_code (e : Env) (req : request) : res (Json + die) :=
  let '(ok, st, resp) := https_post e req in
  if negb ok then 
    let! s := shown_resp resp (lit "no response (transport error)") in
    Ret (inr (D_token (snprintf 512 (lit "token exchange failed (HTTP " ++ dec_int st ++ lit "): " ++ s))))
  else if negb (st =? 200) then
    let! s := shown_resp resp [] in
    Ret (inr (D_token (snprintf 512 (lit "token exchange failed HTTP " ++ dec_int st ++ lit ": " ++ s))))
  else
    let! tok := json_parse (cstr <$> resp) in
    Ret match tok with Some tok => inl tok | None => inr D_token_json end.

Definition OIDC_ISSUER : bytes := lit "https://" ++ OIDC_AUTH_HOST.

Definition verify_id_token (e : Env) (tok : Json) (expected_nonce : option bytes) : res (bytes + die) :=
  let! id := json_get_str (Some tok) (lit "id_token") in
  match id with
  | None => Ret (inr D_no_id_token)
  | Some id =>
      let! ok := oidc_jwt_verify (https_get1 e) (https_get2 e) (clock e) id OIDC_CLIENT_ID OIDC_ISSUER expected_nonce in
      Ret (if ok then inl id else inr D_bad_id_token)
  end.

(** [saved] is [None] when the file could not be read back. *)
Definition check_csrf_state (cb_state saved : option bytes) : res (unit + die) :=
  match cb_state with
  | None => Ret (inr D_no_state)
  | Some cb =>
      match saved with
      | None => Ret (inr D_bad_state)
      | Some saved =>
          if negb (zlen cb =? zlen saved) then Ret (inr D_bad_state)
          else
            let! eq := ct_eq cb saved (zlen cb) in
            Ret (if eq then inl tt else inr D_bad_state)
      end
  end.

Definition take_access_token (tok : Json) : res (bytes + die) :=
  let! at_ := json_get_str (Some tok) (lit "access_token") in
  match at_ with
  | None => Ret (inr D_no_access_token)
  | Some kp => Ret (if oidc_b64token_ok (Some kp) then inl kp else inr D_bad_access_token)
  end.

Definition oidc_extract_code (s : bytes) : res (option bytes) := oidc_url_param (Some s) (lit "code").

(** [oidc_id_token_username] of oidc_util.c. *)
Definition oidc_id_token_username (jwt : bytes) : res (option bytes) :=
  let! txt := oidc_jwt_segment jwt 1 in
  match txt with
  | None => Ret None
  | Some txt =>
      let! claims := json_parse (Some txt) in
      match claims with
      | None => Ret None
      | Some claims =>
          let! nm := json_get_str (Some claims) (lit "name") in
          match nm with
          | Some nm => Ret (Some nm)
          | None =>
              let! nm := json_get_str (Some claims) (lit "preferred_username") in
              match nm with Some nm => Ret (Some nm) | None => json_get_str (Some claims) (lit "sub") end
          end
      end
  end.

(** ** The login *)

Record Run := mk_run {
  result : bytes * bytes + die;
  auth_url : option bytes;
  posted : list request;
  files_after : files
}.

(** A step that may end the run; [k] goes on. *)
Definition or_die {A} (m : res (A + die)) (stop : die -> Run) (k : A -> res Run) : res Run :=
  let! r := m in match r with inl a => k a | inr d => Ret (stop d) end.

Notation "'let*' x 'or' stop ':=' m 'in' k" := (or_die m stop (fun x => k)) (at level 10, x name, stop at level 0, m at level 100, k at level 200).

Definition oidc_login (e : Env) (fs : files) : res Run :=
  let '(code_verifier, code_challenge) := make_pkce (rnd e) 0 in
  let state := make_state (rnd e) 16 in
  let nonce := make_nonce (rnd e) 48 in
  let state_path := state_file_path e 52 in
  let '(saved_ok, fs) := save_state e fs state_path state nonce in
  if negb saved_ok then Ret (mk_run (inr (D_state_file state_path)) None [] fs)
  else
    let url := build_auth_url code_challenge state nonce in
    let saved := load_state_file (if may_read e then fs !! state_path else None) 64 64 in
    let fs := delete state_path fs in
    let stop d := mk_run (inr d) (Some url) [] fs in
    let* rline or stop := read_redirect_url (stdin e) in
    let! code := oidc_extract_code rline in
    let! cb_state := oidc_url_param (Some rline) (lit "state") in
    let* _ or stop := check_csrf_state cb_state (fst <$> saved) in
    match code with
    | None => Ret (stop D_no_code)
    | Some code =>
        let! req := token_request code code_verifier in
        let stop d := mk_run (inr d) (Some url) [req] fs in
        let* tok or stop := exchange_code e req in
        let* kp or stop := take_access_token tok in
        let* id_token or stop := verify_id_token e tok (snd <$> saved) in
        let! username := oidc_id_token_username id_token in
        Ret (mk_run (inl (kp, default (lit "unknown") username)) (Some url) [req] fs)
    end.

(** ** Signed requests to the controller *)

Definition canonical (path body ts nonce : bytes) : bytes :=
  lit "POST" ++ [10] ++ path ++ [10; 10] ++ hex_encode (sha256 body) ++ [10] ++ ts ++ [10] ++ nonce.

Definition sign_request (path body ts nonce : bytes) : bytes := hex_encode (HMAC_sha256 OIDC_APP_SECRET (canonical path body ts nonce)).

Definition ctrl_request (e : Env) (k : nat) (path body kp_token : bytes) : request :=
  let ts := snprintf 32 (dec_str (clock e)) in
  let nonce := oidc_hex_upper (oidc_rand_bytes (rnd e) k 4) in
  let sig := sign_request path body ts nonce in
  let auth := snprintf (zlen kp_token + 32) (lit "Authorization: Bearer " ++ kp_token) in
  (OIDC_CONTROLLER_HOST, path, body,
   [JSON_TYPE; auth; lit "X-Auth-AppId: " ++ OIDC_APP_ID; snprintf 64 (lit "X-Auth-Timestamp: " ++ ts);
    snprintf 64 (lit "X-Auth-Nonce: " ++ nonce); snprintf 128 (lit "X-Auth-Sign: " ++ sig)]).

Definition oidc_ctrl_post (e : Env) (k : nat) (path body kp_token : bytes) : res (Z * option bytes + die) :=
  let '(ok, st, resp) := https_post e (ctrl_request e k path body kp_token) in
  if negb ok then let! s := shown_resp resp (lit "no response (transport error)") in Ret (inr (D_request_failed path st s))
  else Ret (inl (st, resp)).

End Flow.

(** * Proofs *)

(** ** Texts of JSON objects *)

Definition esc (s : bytes) : bytes := concat (map escape_char s).

Lemma esc_put s : oidc_esc_put (Some s) = Ret (esc s).
Proof. unfold oidc_esc_put, json_escape. cbn [default]. by rewrite escape_run by (rewrite zlen_nil; lia). Qed.

(** An object of string fields. *)
Fixpoint fields_text (kvs : list (bytes * bytes)) : bytes :=
  match kvs with
  | [] => []
  | [(k, v)] => 34 :: esc k ++ 34 :: 58 :: 34 :: esc v ++ [34]
  | (k, v) :: kvs => 34 :: esc k ++ 34 :: 58 :: 34 :: esc v ++ 34 :: 44 :: fields_text kvs
  end.

Definition object_text (kvs : list (bytes * bytes)) : bytes := 123 :: fields_text kvs ++ [125].

Definition object_of (kvs : list (bytes * bytes)) : Json := J_obj (map (fun kv => (kv.1, J_str kv.2)) kvs).

Lemma object_document `{Libc} kvs : kvs <> [] -> Forall (fun kv => cstr_ok kv.1 /\ cstr_ok kv.2) kvs -> reads (object_text kvs) (object_of kvs).
Proof.
  intros Hne Hk. assert (members (fields_text kvs) (map (fun kv => (kv.1, J_str kv.2)) kvs)) as Hm.
  { induction Hk as [|[k v] kvs [Hk Hv] Hks IH]; [done|]. cbn [fst snd map] in *. destruct (escape_body k Hk) as [Hk' _]. destruct (escape_body v Hv) as [Hv' _].
    pose proof (v_str _ _ Hv') as Hx. destruct kvs as [|[k' v'] kvs].
    - pose proof (m_one [] (esc k) k [] [] (34 :: esc v ++ [34]) [] (J_str v)) as Hm. cbn [app map] in Hm |- *. rewrite app_nil_r in Hm. apply Hm; done || constructor.
    - pose proof (m_cons [] (esc k) k [] [] (34 :: esc v ++ [34]) [] (J_str v) (fields_text ((k', v') :: kvs))) as Hm. cbn [app] in Hm. rewrite <- app_assoc in Hm. cbn [app] in Hm.
      apply Hm; try constructor; try done. by apply IH. }
  split.
  - exists [], (object_text kvs), []. rewrite app_nil_r. split_and!; [done|constructor|by constructor|constructor].
  - unfold object_of. cbn [nesting]. unfold JSON_MAX_DEPTH. clear. induction kvs as [|kv kvs IH]; cbn [map fold_right nesting snd]; lia.
Qed.

Lemma object_cstr kvs : Forall (fun kv => cstr_ok kv.1 /\ cstr_ok kv.2) kvs -> cstr_ok (object_text kvs).
Proof.
  intros Hk. apply cstr_cons. split; [done|]. apply cstr_app. split; [|by repeat constructor].
  induction Hk as [|[k v] kvs [Hk Hv] Hks IH]; [constructor|]. cbn [fst snd] in *. destruct (escape_body k Hk) as [_ Hk']. destruct (escape_body v Hv) as [_ Hv'].
  fold (esc k) in Hk'. fold (esc v) in Hv'. destruct kvs as [|kv kvs]; cbn [fields_text]; repeat (rewrite ?cstr_app, ?cstr_cons); split_and!; done || by repeat constructor.
Qed.

(** ** Drawn texts *)

(** Printing characters without the blank. *)
Definition graphic (s : bytes) : Prop := Forall (fun c => 33 <= c <= 126) s.

Lemma graphic_cstr s : graphic s -> cstr_ok s.
Proof. intros Hs. eapply Forall_impl; [exact Hs|]. cbv beta. lia. Qed.

Lemma graphic_none f s : graphic s -> (forall c, f c = true -> c < 33 \/ 126 < c) -> none f s.
Proof. intros Hs Hf. eapply Forall_impl; [exact Hs|]. cbv beta. intros c Hc. destruct (f c) eqn:E; [|done]. apply Hf in E. lia. Qed.

Lemma graphic_at (f : Z -> Z) n : forallb (fun c => let v := f (Z.of_nat c) in (33 <=? v) && (v <=? 126)) (seq 0 n) = true ->
  forall v, 0 <= v < Z.of_nat n -> 33 <= f v <= 126.
Proof.
  intros Hf v Hv. rewrite forallb_forall in Hf. specialize (Hf (Z.to_nat v)). rewrite Z2Nat.id in Hf by lia. cbv beta zeta in Hf. assert ((33 <=? f v) = true /\ (f v <=? 126) = true) by (apply andb_true_iff, Hf, in_seq; lia). lia.
Qed.

Lemma make_state_spec r k : zlen (make_state r k) = 32 /\ graphic (make_state r k).
Proof.
  unfold make_state. split; [by rewrite zlen_map; unfold zlen; rewrite length_seq|]. apply Forall_forall. intros c (i & -> & _)%list_elem_of_fmap.
  apply (graphic_at (fun v => ALPH.[v]) 62); [by vm_compute|]. change (Z.of_nat 62) with 62. apply Z.mod_pos_bound. lia.
Qed.

Lemma rand_bytes_spec r k n : zlen (oidc_rand_bytes r k n) = 4 * Z.of_nat n /\ bytes_ok (oidc_rand_bytes r k n).
Proof.
  unfold oidc_rand_bytes. revert k. induction n as [|n IH]; intros k; cbn [seq map concat]; [by split; [|constructor]|]. destruct (IH (S k)) as [H1 H2]. rewrite zlen_app, H1. split.
  - change (zlen (store_le 4 (r k))) with 4. lia.
  - apply bytes_ok_app. split; [|done]. repeat constructor; apply u8_range.
Qed.

Lemma hex_graphic b : bytes_ok b -> graphic (hex_encode b) /\ graphic (oidc_hex_upper b).
Proof.
  unfold oidc_hex_upper. induction 1 as [|x b Hx Hb [IH1 IH2]]; [split; constructor|]. cbn [hex_encode map].
  pose proof (graphic_at (fun v => HEX_DIGITS.[v]) 16 ltac:(by vm_compute)) as Hd. cbv beta in Hd. change (Z.of_nat 16) with 16 in Hd.
  assert (0 <= Z.shiftr x 4 < 16) as H1 by (unfold is_byte in Hx; rewrite Z.shiftr_div_pow2 by lia; lia).
  assert (0 <= Z.land x 15 < 16) as H2 by (change 15 with (Z.ones 4); rewrite Z.land_ones by lia; lia).
  pose proof (Hd _ H1). pose proof (Hd _ H2). split; repeat (apply Forall_cons; split); done || (destruct (_ && _) eqn:E; lia).
Qed.

Lemma make_nonce_spec r k : zlen (make_nonce r k) = 32 /\ graphic (make_nonce r k).
Proof.
  unfold make_nonce. destruct (rand_bytes_spec r k 4) as [Hl Hb]. split; [|by apply hex_graphic]. unfold oidc_hex_upper. rewrite zlen_map, hex_encode_len, Hl. done.
Qed.

Lemma b64_url_graphic d : bytes_ok d -> graphic (b64_url d).
Proof.
  pose proof (graphic_at b64_url_alphabet 64 ltac:(by vm_compute)) as Ha. change (Z.of_nat 64) with 64 in Ha.
  induction d as [|a|a b|a b c r IH] using list_ind3; intros Hd; cbn [b64_url]; repeat (apply Forall_cons in Hd as [? Hd]); unfold is_byte in *;
    repeat (apply Forall_cons; split); try apply Ha; try lia; [constructor..|by apply IH].
Qed.

Lemma b64url_graphic `{OpenSSLLaws} d : bytes_ok d -> graphic (b64url_no_pad d).
Proof. intros Hd. rewrite b64url_no_pad_url by done. by apply b64_url_graphic. Qed.

Lemma sha256_bytes `{OpenSSLLaws} d : bytes_ok (sha256 d).
Proof. apply bytes_ok_take, EVP_sha256_bytes. Qed.

(** ** The state file *)

Lemma state_roundtrip s n : graphic s -> graphic n -> n <> [] -> zlen s < 64 -> zlen n < 64 -> load_state_file (Some (save_state_file s n)) 64 64 = Some (s, n).
Proof.
  intros Hs Hn Hne Hls Hln. unfold load_state_file, save_state_file. pose proof (zlen_nonneg s). pose proof (zlen_nonneg n).
  assert (0 < zlen n) by (destruct n as [|c z]; [done|]; rewrite zlen_cons; pose proof (zlen_nonneg z); lia).
  replace (zlen (s ++ [10] ++ n ++ [10]) =? 0) with false by zlia.
  rewrite take_ge by (change (Z.of_nat 159) with 159; unfold zlen in *; rewrite !length_app; cbn [length]; lia).
  rewrite cstr_cstr_ok by (rewrite !cstr_app; split_and!; first [by apply graphic_cstr|by repeat constructor]).
  assert (none (Z.eqb 10) s) as Hs10 by (apply graphic_none; [done|]; intros c; lia). cbn [app].
  rewrite from_app, upto_app by done. rewrite zlen_app, zlen_cons, zlen_nil. replace (zlen n + (1 + 0) >? 0) with true by lia.
  rewrite at_app_r by lia.
  replace (zlen n + (1 + 0) - 1 - zlen n) with 0 by lia. rewrite at_cons_0. cbn [Z.eqb Pos.eqb andb].
  replace (Z.to_nat (zlen n + (1 + 0) - 1)) with (length n) by (unfold zlen; lia). rewrite take_app_length.
  replace (zlen n =? 0) with false by lia. replace (zlen s >=? 64) with false by lia. by replace (zlen n >=? 64) with false by lia.
Qed.

(** ** The address to open *)

Definition auth_fields (code_challenge state nonce : bytes) : list (bytes * bytes) :=
  [(lit "client_id", OIDC_CLIENT_ID); (lit "redirect_uri", OIDC_REDIRECT); (lit "response_type", lit "code"); (lit "scope", OIDC_SCOPE);
   (lit "code_challenge", code_challenge); (lit "code_challenge_method", lit "S256"); (lit "state", state); (lit "nonce", nonce)].

Lemma auth_url_query c s n : build_auth_url c s n = (lit "https://" ++ OIDC_AUTH_HOST ++ OIDC_AUTH_PATH) ++ 63 :: query_text (auth_fields c s n) ++ [].
Proof. rewrite app_nil_r. reflexivity. Qed.

Lemma auth_url_params c s n name : cstr_ok c -> cstr_ok s -> cstr_ok n ->
  oidc_url_param (Some (build_auth_url c s n)) name = Ret (snd <$> find (fun nv => beq nv.1 name) (auth_fields c s n)).
Proof.
  intros Hc Hs Hn. rewrite auth_url_query. apply url_param_query; [by apply (bool_decide_unpack _); vm_compute|done| |by left].
  repeat (apply Forall_cons; split; [split; cbn [fst snd]; first [done|by apply (bool_decide_unpack _); vm_compute]|]). constructor.
Qed.

(** ** The pasted address *)

Lemma fgets_bytes n s : bytes_ok s -> bytes_ok (fgets_loop n s).1.1.
Proof.
  revert s. induction n as [|n IH]; intros s Hs; cbn [fgets_loop]; [constructor|]. destruct Hs as [|c s Hc Hs]; [constructor|].
  destruct (c =? 10); [apply Forall_cons; split; [done|constructor]|]. specialize (IH s Hs). destruct (fgets_loop n s) as [[l r] eof]. by constructor.
Qed.

Lemma cstr_sub s : bytes_ok s -> bytes_ok (cstr s).
Proof. intros Hs. by apply cstr_bytes_ok, cstr_ok_cstr. Qed.

(** Blanks, then the redirect address of this client, then nothing of the same word. *)
Definition redirect_line (line : bytes) : Prop :=
  exists w r, line = w ++ OIDC_REDIRECT ++ r /\ Forall (fun c => is_blank c = true) w /\
    (r = [] \/ exists c z, r = c :: z /\ (c = 63 \/ c = 47 \/ is_blank c = true)).

Lemma redirect_total s : bytes_ok s -> exists o, read_redirect_url s = Ret o /\ forall line, o = inl line -> cstr_ok line /\ redirect_line line.
Proof.
  intros Hs. unfold read_redirect_url, fgets. pose proof (fgets_bytes (Z.to_nat (4096 - 1)) s Hs) as Hl. destruct (fgets_loop _ s) as [[l r] eof]. cbn [fst] in Hl.
  destruct l as [|c l]; [by eexists|]. apply cstr_ok_cstr in Hl. set (line := cstr (c :: l)) in *. cbn zeta.
  match goal with |- context [match ?x with inl _ => _ | inr _ => _ end] => assert (forall z, x = inl z -> cstr_ok z) as Hx end.
  { intros z. destruct (ends_with 10 line); [intros [= <-]; unfold chop; destruct (ends_with 13 _); by repeat apply Forall_take|].
    destruct (_ && _); [|by intros [= <-]]. destruct r as [|c' r]; [by intros [= <-]|]. destruct (_ && _); [done|by intros [= <-]]. }
  match goal with |- context [match ?x with inl _ => _ | inr _ => _ end] => destruct x as [z|d]; [|by eexists] end. specialize (Hx z eq_refl).
  destruct (beq _ OIDC_REDIRECT) eqn:E; cbn [negb]; [|by eexists]. apply beq_true in E. destruct (skipw_split is_blank z) as (w & Ez & Hw). set (rp := skipw is_blank z) in *.
  assert (rp = OIDC_REDIRECT ++ drop 35 rp) as Erp by (rewrite <- E at 1; by rewrite take_drop). rewrite Erp. clear E. set (tl := drop 35 rp) in *. clearbody tl rp. subst rp.
  pose proof (zlen_nonneg OIDC_REDIRECT). rewrite rdc_ok by (rewrite zlen_app; pose proof (zlen_nonneg tl); lia). rewrite zlen_app. cbn [rbind]. destruct tl as [|c' tl].
  - change (zlen []) with 0. rewrite Z.add_0_r, Z.eqb_refl. cbn [negb Z.eqb andb]. eexists. split; [done|]. intros line' [= <-]. split; [done|]. exists w, []. auto.
  - replace (zlen OIDC_REDIRECT =? zlen OIDC_REDIRECT + zlen (c' :: tl)) with false by (rewrite zlen_cons; pose proof (zlen_nonneg tl); lia). rewrite at_app_r, Z.sub_diag, at_cons_0 by lia.
    assert (0 < c' < 256) as Hc' by (rewrite Ez in Hx; apply cstr_app in Hx as [_ Hx]; apply cstr_app in Hx as [_ Hx]; by apply cstr_cons in Hx as [Hc' _]).
    destruct (_ && _) eqn:Eb; [by eexists|]. eexists. split; [done|]. intros line' [= <-]. split; [done|]. exists w, (c' :: tl). split; [done|]. split; [done|].
    right. exists c', tl. split; [done|]. unfold is_blank. lia.
Qed.

Lemma urldec_bytes s : bytes_ok s -> bytes_ok (urldec s).
Proof.
  induction s as [s IH] using (well_founded_ind (Wf_nat.well_founded_ltof _ (@length Z))). unfold Wf_nat.ltof in IH. intros Hs. destruct s as [|c r]; [constructor|].
  apply Forall_cons in Hs as [Hc Hr]. assert (bytes_ok ((if c =? 43 then 32 else c) :: urldec r)) as Hp.
  { constructor; [by destruct (c =? 43)|]. apply IH; [cbn; lia|done]. }
  cbn [urldec]. destruct r as [|a [|b r2]]; [done..|]. destruct (_ && _); [|done]. constructor; [apply u8_range|].
  apply IH; [cbn; lia|]. by do 2 apply Forall_cons in Hr as [_ Hr].
Qed.

Lemma split_on_bytes x s : bytes_ok s -> Forall bytes_ok (split_on x s).
Proof.
  induction 1 as [|c s Hc Hs IH]; cbn [split_on]; [by apply Forall_singleton, Forall_nil_2|]. destruct (c =? x); [constructor; [by apply Forall_nil_2|done]|].
  destruct (split_on x s) as [|h tl]; [by apply Forall_singleton, Forall_singleton|].
  apply Forall_cons in IH as [Hh Ht]. constructor; [by constructor|done].
Qed.

Lemma suffix_bytes (f : Z -> bool) s : bytes_ok s -> bytes_ok (from f s) /\ bytes_ok (upto f s).
Proof. rewrite <- (upto_from f s) at 1. by intros [? ?]%bytes_ok_app. Qed.

Lemma url_param_total s name : bytes_ok s -> exists o, oidc_url_param (Some s) name = Ret o /\ forall v, o = Some v -> cstr_ok v.
Proof.
  intros Hs. rewrite url_param_split. eexists. split; [done|]. intros v. destruct (suffix_bytes (Z.eqb 63) s Hs) as [Hf _]. destruct (from (Z.eqb 63) s) as [|c p]; [done|].
  apply Forall_cons in Hf as [_ Hp]. apply (suffix_bytes (Z.eqb 35)) in Hp as [_ Hp]. apply (split_on_bytes 38) in Hp.
  induction Hp as [|x l Hx Hl IH]; cbn [first_field]; [done|]. destruct (param_value x name) as [w|] eqn:E; [|exact IH]. intros [= <-]. revert E. unfold param_value.
  destruct (suffix_bytes (Z.eqb 61) x Hx) as [Hf _]. destruct (from (Z.eqb 61) x) as [|c' z]; [done|]. destruct (beq _ name); [|done]. intros [= <-].
  apply cstr_ok_cstr, urldec_bytes. by apply Forall_cons in Hf as [_ Hf].
Qed.

(** ** Steps that may end the run *)

Definition gives {A} (m : res (A + die)) (R : A -> Prop) : Prop := exists o, m = Ret o /\ forall a, o = inl a <-> R a.

Lemma gives_stop {A} d (R : A -> Prop) : (forall a, ~ R a) -> gives (Ret (inr d)) R.
Proof. intros HR. exists (inr d). split; [done|]. intros a. split; [done|]. intros Ha. by apply HR in Ha. Qed.

Lemma or_die_elim {A} (Q : res Run -> Prop) (m : res (A + die)) R stop k : gives m R ->
  (forall a, R a -> (forall a', R a' -> a' = a) -> Q (k a)) -> (forall d, (forall a, ~ R a) -> Q (Ret (stop d))) -> Q (or_die m stop k).
Proof.
  intros (o & Eo & Ho) Hk Hd. unfold or_die. rewrite Eo. cbn [rbind]. destruct o as [a|d].
  - apply Hk; [by apply Ho|]. intros a' Ha'. apply Ho in Ha' as [= <-]. done.
  - apply Hd. intros a Ha. by apply Ho in Ha.
Qed.

Lemma redirect_gives s : bytes_ok s -> gives (read_redirect_url s) (fun line => read_redirect_url s = Ret (inl line)).
Proof. intros Hs. destruct (redirect_total s Hs) as (o & E & _). exists o. split; [done|]. intros line. rewrite E. split; congruence. Qed.

Section Login.
Context `{Libc, Rsa, Hmac, OpenSSLLaws}.

(** The outside world deals in bytes. *)
Definition env_ok (e : Env) : Prop :=
  bytes_ok (stdin e) /\ bodies_ok (https_get1 e) /\ bodies_ok (https_get2 e) /\
  (forall r ok st b, https_post e r = (ok, st, Some b) -> bytes_ok b).

Definition token_fields (code code_verifier : bytes) : list (bytes * bytes) :=
  [(lit "client_id", OIDC_CLIENT_ID); (lit "code", code); (lit "code_verifier", code_verifier);
   (lit "redirect_uri", OIDC_REDIRECT); (lit "grant_type", lit "authorization_code")].

Definition token_post (code code_verifier : bytes) : request :=
  (OIDC_AUTH_HOST, OIDC_TOKEN_PATH, object_text (token_fields code code_verifier), [JSON_TYPE]).

Lemma token_request_text code v : token_request code v = Ret (token_post code v).
Proof. unfold token_request. rewrite !esc_put. cbn [rbind]. unfold token_post, object_text. cbn [token_fields fields_text]. repeat progress (cbn [app]; rewrite <- ?app_assoc). reflexivity. Qed.

Lemma shown_total resp otherwise : (forall b, resp = Some b -> bytes_ok b) -> bytes_ok otherwise -> no_fault (shown_resp resp otherwise).
Proof.
  intros Hr Ho. unfold shown_resp. match goal with |- no_fault (oidc_printable_dup ?s) => assert (bytes_ok s) as Hs end.
  { destruct resp as [[|c r]|]; [done|by apply cstr_sub, Hr|done]. }
  destruct (printable_total _ Hs) as (out & E & _). by exists out.
Qed.

Lemma exchange_gives e req : env_ok e ->
  gives (exchange_code e req) (fun tok => exists resp, https_post e req = (true, 200, Some resp) /\ reads (cstr resp) tok).
Proof.
  intros (_ & _ & _ & Hp). unfold exchange_code. destruct (https_post e req) as [[ok st] resp] eqn:E.
  assert (forall b, resp = Some b -> bytes_ok b) as Hr by (intros b ->; by eapply Hp).
  destruct ok; cbn [negb].
  2: { destruct (shown_total resp (lit "no response (transport error)")) as [s ->]; [done|by apply (bool_decide_unpack _); vm_compute|]. apply gives_stop. by intros tok (resp' & [=] & _). }
  destruct (st =? 200) eqn:Est; cbn [negb].
  2: { destruct (shown_total resp []) as [s ->]; [done|constructor|]. apply gives_stop. intros tok (resp' & [= -> ->] & _). done. }
  apply Z.eqb_eq in Est as ->. destruct resp as [b|]; [|apply gives_stop; by intros tok (resp' & [=] & _)].
  cbn [fmap option_fmap option_map]. destruct (finds_json (cstr b)) as (o & -> & Ho); [by apply cstr_ok_cstr, Hr|]. cbn [rbind].
  eexists. split; [done|]. intros tok. transitivity (o = Some tok); [destruct o; split; congruence|]. rewrite Ho. split; [by exists b|]. by intros (b' & [= <-] & Hj).
Qed.

Lemma access_gives tok : gives (take_access_token tok) (fun kp => field tok (lit "access_token") (J_str kp) /\ oidc_b64token_ok (Some kp) = true).
Proof.
  unfold take_access_token. destruct (finds_text tok (lit "access_token") eq_refl) as (o & -> & Ho). cbn [rbind].
  destruct o as [kp|]; [|apply gives_stop; intros a [Ha _]; by apply Ho in Ha].
  destruct (oidc_b64token_ok (Some kp)) eqn:E; [|apply gives_stop; intros a [Ha Hb]; apply Ho in Ha as [= <-]; congruence].
  exists (inl kp). split; [done|]. intros a. split; [intros [= <-]; by split; [apply Ho|]|]. intros [Ha _]. apply Ho in Ha. congruence.
Qed.

Lemma id_gives e tok nonce : env_ok e -> (forall n, nonce = Some n -> bytes_ok n) ->
  gives (verify_id_token e tok nonce) (fun id => field tok (lit "id_token") (J_str id) /\
    good_token (https_get1 e) (https_get2 e) (clock e) id OIDC_CLIENT_ID OIDC_ISSUER nonce).
Proof.
  intros (_ & Hg1 & Hg2 & _) Hn. unfold verify_id_token. destruct (finds_text tok (lit "id_token") eq_refl) as (o & -> & Ho). cbn [rbind].
  destruct o as [id|]; [|apply gives_stop; intros a [Ha _]; by apply Ho in Ha].
  destruct (verify_decides (https_get1 e) (https_get2 e) (clock e) id OIDC_CLIENT_ID OIDC_ISSUER nonce Hg1 Hg2 Hn) as (b & -> & Hb). cbn [rbind].
  destruct b; [|apply gives_stop; intros a [Ha Hg]; apply Ho in Ha as [= <-]; by apply Hb in Hg].
  exists (inl id). split; [done|]. intros a. split; [intros [= <-]; by split; [apply Ho|apply Hb]|]. intros [Ha _]. apply Ho in Ha. congruence.
Qed.

Lemma csrf_gives cb saved : (forall s, cb = Some s -> cstr_ok s) -> (forall s, saved = Some s -> bytes_ok s) ->
  gives (check_csrf_state cb saved) (fun _ => is_Some saved /\ cb = saved).
Proof.
  intros Hc Hs. unfold check_csrf_state. destruct cb as [cb|]; [|apply gives_stop; by intros _ [[s ->] [=]]].
  destruct saved as [s|]; [|apply gives_stop; by intros _ [[s [=]] _]].
  destruct (zlen cb =? zlen s) eqn:El; cbn [negb]; [|apply gives_stop; intros _ [_ [= ->]]; lia].
  rewrite ct_eq_ok by first [by apply cstr_bytes_ok, Hc|by apply Hs|lia]. cbn [rbind].
  destruct (beq cb s) eqn:E; [apply beq_true in E as ->; exists (inl tt); split; [done|]; intros []; by split|].
  apply beq_false in E. apply gives_stop. intros _ [_ [= ->]]. done.
Qed.

(** The name shown: the first of these claims that is a string. *)
Fixpoint first_text (c : Json) (ks : list bytes) (u : bytes) : Prop :=
  match ks with
  | [] => u = lit "unknown"
  | k :: ks => field c k (J_str u) \/ ((forall s, ~ field c k (J_str s)) /\ first_text c ks u)
  end.

Definition user_name (c : Json) (u : bytes) : Prop := first_text c [lit "name"; lit "preferred_username"; lit "sub"] u.

Lemma first_text_fun c ks u u' : first_text c ks u -> first_text c ks u' -> u = u'.
Proof.
  induction ks as [|k ks IH]; cbn [first_text]; [congruence|]. intros [Hu|[Hn Hu]] [Hu'|[Hn' Hu']].
  - pose proof (field_fun _ _ _ _ Hu Hu'). congruence.
  - by apply Hn' in Hu.
  - by apply Hn in Hu'.
  - by apply IH.
Qed.

Lemma username_spec id h p s hj pj : token id h p s hj pj -> exists o, oidc_id_token_username id = Ret o /\ user_name pj (default (lit "unknown") o).
Proof.
  intros (Ej & Hh & Hp & Hs & hr & pr & _ & Ep & _ & Hpj). unfold oidc_id_token_username, oidc_jwt_segment. rewrite (proj2 (split_token id h p s)) by done.
  cbn [Z.eqb Pos.eqb]. unfold seg_decode. rewrite Ep. cbn [rbind fmap option_fmap option_map].
  destruct (finds_json (cstr pr)) as (o & -> & Ho); [by eapply decoded_cstr|]. apply Ho in Hpj as ->. cbn [rbind]. unfold user_name. cbn [first_text].
  destruct (finds_text pj (lit "name") eq_refl) as (o1 & -> & Ho1). cbn [rbind]. destruct o1 as [u|]; [exists (Some u); split; [done|]; left; by apply Ho1|].
  destruct (finds_text pj (lit "preferred_username") eq_refl) as (o2 & -> & Ho2). cbn [rbind].
  destruct o2 as [u|]; [exists (Some u); split; [done|]; right; split; [intros s' Hf; by apply Ho1 in Hf|]; left; by apply Ho2|].
  destruct (finds_text pj (lit "sub") eq_refl) as (o3 & -> & Ho3). exists o3. split; [done|]. right. split; [intros s' Hf; by apply Ho1 in Hf|].
  right. split; [intros s' Hf; by apply Ho2 in Hf|]. destruct o3 as [u|]; [left; by apply Ho3|right; split; [intros s' Hf; by apply Ho3 in Hf|done]].
Qed.

(** ** The login *)

(** The answers that log a user in: the pasted address carries the state that was issued, the
    token server accepts its code together with the verifier, and answers with a bearer token
    and a good identity token for the nonce that was issued. *)
Definition logs_in (e : Env) (kp user : bytes) : Prop :=
  exists line code resp tok id h p s hj pj,
    read_redirect_url (stdin e) = Ret (inl line) /\
    oidc_url_param (Some line) (lit "state") = Ret (Some (make_state (rnd e) 16)) /\
    oidc_url_param (Some line) (lit "code") = Ret (Some code) /\
    https_post e (token_post code (make_pkce (rnd e) 0).1) = (true, 200, Some resp) /\ reads (cstr resp) tok /\
    (field tok (lit "access_token") (J_str kp) /\ oidc_b64token_ok (Some kp) = true) /\
    (field tok (lit "id_token") (J_str id) /\
     good_token (https_get1 e) (https_get2 e) (clock e) id OIDC_CLIENT_ID OIDC_ISSUER (Some (make_nonce (rnd e) 48))) /\
    token id h p s hj pj /\ user_name pj user.

(** The state file could be made, written and read back. *)
Definition file_ok (e : Env) (fs : files) : Prop :=
  let path := state_file_path e 52 in fs !! path = None /\ may_create e path = true /\ may_write e = true /\ may_read e = true.

(** The one request a login may send, and when. *)
Definition requests_ok (e : Env) (rs : list request) : Prop :=
  rs = [] \/
  exists line code body, read_redirect_url (stdin e) = Ret (inl line) /\ redirect_line line /\
    oidc_url_param (Some line) (lit "state") = Ret (Some (make_state (rnd e) 16)) /\ oidc_url_param (Some line) (lit "code") = Ret (Some code) /\
    rs = [(OIDC_AUTH_HOST, OIDC_TOKEN_PATH, body, [JSON_TYPE])] /\ reads body (object_of (token_fields code (make_pkce (rnd e) 0).1)).

(** The address shown carries the challenge of the verifier, the state and the nonce. *)
Definition url_ok (e : Env) (url : bytes) : Prop :=
  forall name, oidc_url_param (Some url) name =
    Ret (snd <$> find (fun nv => beq nv.1 name)
      (auth_fields (b64url_no_pad (sha256 (make_pkce (rnd e) 0).1)) (make_state (rnd e) 16) (make_nonce (rnd e) 48))).

Definition run_ok (e : Env) (fs : files) (r : Run) : Prop :=
  files_after r = fs /\ (forall kp user, result r = inl (kp, user) <-> file_ok e fs /\ logs_in e kp user) /\
  requests_ok e (posted r) /\ (forall url, auth_url r = Some url -> url_ok e url).

Lemma verifier_graphic r : graphic (make_pkce r 0).1.
Proof. cbn [make_pkce fst]. apply b64url_graphic, rand_bytes_spec. Qed.

Lemma url_shown e : url_ok e (build_auth_url (make_pkce (rnd e) 0).2 (make_state (rnd e) 16) (make_nonce (rnd e) 48)).
Proof.
  intros name. apply auth_url_params; apply graphic_cstr; [|apply make_state_spec|apply make_nonce_spec]. cbn [make_pkce snd]. apply b64url_graphic, sha256_bytes.
Qed.

Lemma request_posted e line code : env_ok e -> read_redirect_url (stdin e) = Ret (inl line) -> oidc_url_param (Some line) (lit "state") = Ret (Some (make_state (rnd e) 16)) ->
  oidc_url_param (Some line) (lit "code") = Ret (Some code) -> cstr_ok code -> requests_ok e [token_post code (make_pkce (rnd e) 0).1].
Proof.
  intros He Hl Hs Hc Hk. destruct (redirect_total (stdin e)) as (o & Eo & Hb); [apply He|]. rewrite Hl in Eo. injection Eo as <-. destruct (Hb line eq_refl) as [_ Hline].
  right. exists line, code, (object_text (token_fields code (make_pkce (rnd e) 0).1)). split_and!; try done. apply object_document; [done|].
  repeat (apply Forall_cons; split; [split; cbn [fst snd]; first [done|by apply graphic_cstr, verifier_graphic|by apply (bool_decide_unpack _); vm_compute]|]). constructor.
Qed.

(** What is read back is what was written. *)
Lemma saved_back (e : Env) (fs : files) (path : bytes) : let s := make_state (rnd e) 16 in let n := make_nonce (rnd e) 48 in
  load_state_file (if may_read e then (<[path := save_state_file s n]> fs) !! path else None) 64 64 = if may_read e then Some (s, n) else None.
Proof.
  cbn zeta. destruct (may_read e); [|done]. rewrite lookup_insert_eq. destruct (make_state_spec (rnd e) 16) as [Hl Hg]. destruct (make_nonce_spec (rnd e) 48) as [Hl' Hg'].
  apply state_roundtrip; done || lia.
Qed.

Lemma stopped e fs fs' d url rs : fs' = fs -> (forall kp user, ~ (file_ok e fs /\ logs_in e kp user)) -> requests_ok e rs -> (forall u, url = Some u -> url_ok e u) ->
  run_ok e fs (mk_run (inr d) url rs fs').
Proof. intros -> Hno Hr Hu. split; [done|]. split; [|done]. intros kp user. split; [done|]. intros Hl. by apply Hno in Hl. Qed.

Definition ends (e : Env) (fs : files) (m : res Run) : Prop := exists r, m = Ret r /\ run_ok e fs r.

(** What is left of [logs_in] once the state was checked. *)
Lemma logs_in_code e line code kp user : read_redirect_url (stdin e) = Ret (inl line) ->
  oidc_url_param (Some line) (lit "state") = Ret (Some (make_state (rnd e) 16)) -> oidc_url_param (Some line) (lit "code") = Ret (Some code) ->
  logs_in e kp user <-> exists tok id h p s hj pj,
    (exists resp, https_post e (token_post code (make_pkce (rnd e) 0).1) = (true, 200, Some resp) /\ reads (cstr resp) tok) /\
    (field tok (lit "access_token") (J_str kp) /\ oidc_b64token_ok (Some kp) = true) /\
    (field tok (lit "id_token") (J_str id) /\
     good_token (https_get1 e) (https_get2 e) (clock e) id OIDC_CLIENT_ID OIDC_ISSUER (Some (make_nonce (rnd e) 48))) /\
    token id h p s hj pj /\ user_name pj user.
Proof.
  intros Hl Hs Hc. split.
  - intros (line' & code' & resp & tok & id & h & p & s & hj & pj & Hl' & _ & Hc' & Hp & Hj & Hrest). rewrite Hl in Hl'. injection Hl' as <-.
    rewrite Hc in Hc'. injection Hc' as <-. exists tok, id, h, p, s, hj, pj. split; [by exists resp|done].
  - intros (tok & id & h & p & s & hj & pj & (resp & Hp & Hj) & Hrest). by exists line, code, resp, tok, id, h, p, s, hj, pj.
Qed.

(** The part of the login after the state was checked. *)
Lemma login_tail e fs line code (url : bytes) : env_ok e -> file_ok e fs -> read_redirect_url (stdin e) = Ret (inl line) ->
  oidc_url_param (Some line) (lit "state") = Ret (Some (make_state (rnd e) 16)) -> oidc_url_param (Some line) (lit "code") = Ret (Some code) -> cstr_ok code -> url_ok e url ->
  let req := token_post code (make_pkce (rnd e) 0).1 in
  let stop d := mk_run (inr d) (Some url) [req] fs in
  ends e fs (or_die (exchange_code e req) stop (fun tok =>
    or_die (take_access_token tok) stop (fun kp =>
    or_die (verify_id_token e tok (Some (make_nonce (rnd e) 48))) stop (fun id_token =>
    let! username := oidc_id_token_username id_token in
    Ret (mk_run (inl (kp, default (lit "unknown") username)) (Some url) [req] fs))))).
Proof.
  intros He Hf Hl Hs Hc Hk Hu. cbn zeta. pose proof (request_posted e line code He Hl Hs Hc Hk) as Hr. pose proof (fun kp user => logs_in_code e line code kp user Hl Hs Hc) as Hlog.
  set (req := token_post code (make_pkce (rnd e) 0).1) in *. set (stop d := mk_run (inr d) (Some url) [req] fs).
  assert (forall d, (forall kp user, ~ logs_in e kp user) -> ends e fs (Ret (stop d))) as Hstop.
  { intros d Hno. eexists. split; [done|]. apply stopped; [done| |done|by intros u [= <-]]. intros kp user [_ Hin]. by apply Hno in Hin. }
  eapply (or_die_elim (ends e fs)); [by apply exchange_gives|intros tok Htok Hun|intros d Hno; apply Hstop; intros kp user (tok & ? & ? & ? & ? & ? & ? & Ht & _)%Hlog; by apply Hno in Ht].
  eapply (or_die_elim (ends e fs)); [by apply access_gives|intros kp Hkp Hunk|intros d Hno; apply Hstop; intros kp user (tok' & ? & ? & ? & ? & ? & ? & Ht & Hkp & _)%Hlog;
    rewrite (Hun _ Ht) in Hkp; by apply Hno in Hkp].
  eapply (or_die_elim (ends e fs)); [apply id_gives; [done|]; intros n [= <-]; apply cstr_bytes_ok, graphic_cstr, make_nonce_spec|intros id Hid Huni|intros d Hno; apply Hstop;
    intros kp' user (tok' & id & ? & ? & ? & ? & ? & Ht & _ & Hid & _)%Hlog; rewrite (Hun _ Ht) in Hid; by apply Hno in Hid].
  pose proof Hid as [_ (h & p & s & hj & pj & kid & jwks & ne & raw & Ht & _)]. destruct (username_spec _ _ _ _ _ _ Ht) as (o & Eo & Ho). rewrite Eo. cbn [rbind].
  eexists. split; [done|]. split; [done|]. split; [|by split; [|intros u [= <-]]]. intros kp' user. cbn [result]. rewrite Hlog. split.
  - intros [= <- <-]. split; [done|]. by exists tok, id, h, p, s, hj, pj.
  - intros (_ & tok' & id' & h' & p' & s' & hj' & pj' & Ht' & Hkp' & Hid' & Hjwt & Hname). rewrite (Hun _ Ht') in *. rewrite (Hunk _ Hkp'), (Huni _ Hid') in *.
    destruct (username_spec _ _ _ _ _ _ Hjwt) as (o' & E' & Ho'). rewrite Eo in E'. injection E' as <-.
    by rewrite (first_text_fun _ _ _ _ Hname Ho').
Qed.

Lemma login_ends (e : Env) (fs : files) : env_ok e -> exists r, oidc_login e fs = Ret r /\ run_ok e fs r.
Proof.
  intros He. unfold oidc_login. rewrite (surjective_pairing (make_pkce (rnd e) 0)). set (path := state_file_path e 52). unfold save_state.
  assert (forall d, (forall kp user, ~ (file_ok e fs /\ logs_in e kp user)) -> ends e fs (Ret (mk_run (inr d) None [] fs))) as Hearly.
  { intros d Hno. eexists. split; [done|]. apply stopped; [done|done|by left|done]. }
  destruct (fs !! path) eqn:Epath; [apply Hearly; intros kp user [[Hp _] _]; fold path in Hp; congruence|].
  destruct (may_create e path) eqn:Ecreate; cbn [negb]; [|apply Hearly; intros kp user [(_ & Hp & _) _]; fold path in Hp; congruence].
  destruct (may_write e) eqn:Ewrite; cbn [negb]; rewrite delete_insert_id by done; [|apply Hearly; intros kp user [(_ & _ & Hp & _) _]; congruence].
  rewrite saved_back. pose proof (url_shown e) as Hu. set (url := build_auth_url _ _ _) in *.
  set (stop d := mk_run (inr d) (Some url) [] fs).
  assert (forall d, (forall kp user, may_read e = true -> ~ logs_in e kp user) -> ends e fs (Ret (stop d))) as Hstop.
  { intros d Hno. eexists. split; [done|]. apply stopped; [done| |by left|by intros u [= <-]]. intros kp user [(_ & _ & _ & Hr) Hin]. by apply Hno in Hin. }
  eapply (or_die_elim (ends e fs)); [apply redirect_gives, He|intros line Hl _|intros d Hno; apply Hstop; intros kp user _ (line & ? & ? & ? & ? & ? & ? & ? & ? & ? & Hl & _); by apply Hno in Hl].
  destruct (redirect_total (stdin e)) as (o & Eo & Hb); [apply He|]. rewrite Hl in Eo. injection Eo as <-. destruct (Hb line eq_refl) as [Hbl%cstr_bytes_ok _].
  unfold oidc_extract_code. destruct (url_param_total line (lit "code") Hbl) as (oc & Ec & Hoc). destruct (url_param_total line (lit "state") Hbl) as (os & Es & Hos).
  rewrite Ec, Es. cbn [rbind].
  eapply (or_die_elim (ends e fs)); [apply csrf_gives; [done|]|intros [] [[s Hs] Eos] _|intros d Hno; apply Hstop].
  - intros s Hs. destruct (may_read e); [|done]. injection Hs as <-. apply cstr_bytes_ok, graphic_cstr, make_state_spec.
  - destruct (may_read e) eqn:Eread; [|done]. cbn [fmap option_fmap option_map fst snd] in *. rewrite Eos in Es.
    destruct oc as [code|]; [|apply Hstop; intros kp user _ (line' & code & ? & ? & ? & ? & ? & ? & ? & ? & Hl' & _ & Hc & _); congruence].
    rewrite token_request_text. cbn [rbind]. by apply (login_tail e fs line code url); auto.
  - intros kp user Hread (line' & code & ? & ? & ? & ? & ? & ? & ? & ? & Hl' & Hs & _). rewrite Hread in Hno. apply (Hno tt). split; [by eexists|].
    assert (line' = line) as -> by congruence. change (os = Some (make_state (rnd e) 16)). congruence.
Qed.

(** C12: A login returns on every input and environment, and it gives out a bearer token and
    a user name exactly for the answers [logs_in]: the pasted address carries the issued state,
    and the identity token is good for the issued nonce.  The address shown
    carries the S256 challenge of the verifier, the state and the nonce.  The verifier leaves
    the program in at most one request, to the token server, after the pasted address was found
    to be this client's and its state was checked, in a document that holds exactly the fields of the exchange whatever the code contains.
    However the login ends, the file that kept the state is gone. *)
Theorem login_exact (e : Env) (fs : files) : env_ok e -> exists r, oidc_login e fs = Ret r /\ run_ok e fs r.
Proof. apply login_ends. Qed.

(** ** Requests to the controller *)

Class HmacLaws := {
  HMAC_len : forall k m, zlen (HMAC_sha256 k m) = 32;
  HMAC_bytes : forall k m, bytes_ok (HMAC_sha256 k m)
}.

Lemma no_ctrl s : Forall (fun c => 32 <= c <= 126) s -> Msg.http_ctrl_in s = false.
Proof.
  intros Hs. unfold Msg.http_ctrl_in. induction Hs as [|c s Hc Hs IH]; [done|]. cbn [existsb]. rewrite IH, orb_false_r. lia.
Qed.

Lemma graphic_printing s : graphic s -> Forall (fun c => 32 <= c <= 126) s.
Proof. intros Hs. eapply Forall_impl; [exact Hs|]. cbv beta. lia. Qed.

Lemma b64token_graphic kp : oidc_b64token_ok (Some kp) = true -> graphic kp.
Proof.
  unfold oidc_b64token_ok. rewrite !andb_true_iff. intros (((_ & Hh) & _) & Hp). rewrite <- (upto_from (Z.eqb 61) kp). apply Forall_app. split; apply Forall_forall; intros c Hc;
    apply list_elem_of_In in Hc.
  - rewrite forallb_forall in Hh. specialize (Hh c Hc). unfold token_char in Hh. lia.
  - rewrite forallb_forall in Hp. specialize (Hp c Hc). lia.
Qed.

Lemma dec_graphic v : 0 <= v < 2 ^ 64 -> graphic (dec_str v) /\ zlen (dec_str v) <= 20.
Proof.
  intros Hv. split.
  - destruct (dec_str_spec v Hv) as (Hd & _). rewrite forallb_forall in Hd. apply Forall_forall. intros c Hc. apply list_elem_of_In in Hc.
    specialize (Hd c Hc). unfold isdigit in Hd. lia.
  - unfold dec_str. change 20 with (Z.of_nat 20). generalize 20%nat as fuel. clear. intros fuel. revert v. induction fuel as [|fuel IH]; intros v; cbn [dec_digits]; [done|].
    destruct (v <? 10); [rewrite zlen_cons, zlen_nil; lia|]. specialize (IH (v / 10)). rewrite zlen_app, zlen_cons, zlen_nil. lia.
Qed.

Lemma hex_encode_inj a b : bytes_ok a -> bytes_ok b -> hex_encode a = hex_encode b -> a = b.
Proof.
  intros Ha Hb E. pose proof (hex_pairs_encode a [] 0 Ha eq_refl) as Pa. pose proof (hex_pairs_encode b [] 0 Hb eq_refl) as Pb. cbn [app] in *.
  assert (length a = length b) as El by (apply (f_equal zlen) in E; rewrite !hex_encode_len in E; unfold zlen in E; lia).
  rewrite E, El, Pb in Pa. congruence.
Qed.

Lemma canonical_inj p b ts n p' b' ts' n' : none (Z.eqb 10) p -> none (Z.eqb 10) p' -> graphic ts -> graphic ts' ->
  canonical p b ts n = canonical p' b' ts' n' -> p = p' /\ sha256 b = sha256 b' /\ ts = ts' /\ n = n'.
Proof.
  intros Hp Hp' Hts Hts' E. unfold canonical in E. apply app_inv_head in E. cbn [app] in E. injection E as E.
  assert (forall a r a' r', none (Z.eqb 10) a -> none (Z.eqb 10) a' -> a ++ 10 :: r = a' ++ 10 :: r' -> a = a' /\ r = r') as Hcut.
  { intros a r a' r' Ha Ha' E'. pose proof (upto_app (Z.eqb 10) a 10 r Ha eq_refl) as H1'. pose proof (upto_app (Z.eqb 10) a' 10 r' Ha' eq_refl) as H2'.
    rewrite E' in H1'. rewrite H1' in H2'. subst a'. by apply app_inv_head in E' as [= ->]. }
  apply Hcut in E as [-> E]; [|done..]. injection E as E. 
  assert (forall d, none (Z.eqb 10) (hex_encode (sha256 d))) as Hx by (intros d; apply graphic_none; [apply hex_graphic, sha256_bytes|intros c; lia]).
  apply Hcut in E as [Eh E]; [|done..]. apply Hcut in E as [-> ->]; [|apply graphic_none; [done|intros c; lia]..]. split_and!; try done.
  apply hex_encode_inj; [apply sha256_bytes..|done].
Qed.

(** A controller request carries, untruncated, the bearer token, the time, a fresh nonce
    and the HMAC of the canonical string.  With a token the login accepts, no header holds
    a control character, so the HTTP layer sends the request.  The canonical string
    determines path, body digest, time and nonce: a signature for one request is
    not a signature for another. *)
Theorem ctrl_request_exact `{HmacLaws} (e : Env) k path body kp :
  oidc_b64token_ok (Some kp) = true -> Msg.http_ctrl_in path = false -> 0 <= clock e < 2 ^ 63 ->
  let ts := dec_str (clock e) in
  let nonce := oidc_hex_upper (oidc_rand_bytes (rnd e) k 4) in
  let headers := [JSON_TYPE; lit "Authorization: Bearer " ++ kp; lit "X-Auth-AppId: " ++ OIDC_APP_ID; lit "X-Auth-Timestamp: " ++ ts;
                  lit "X-Auth-Nonce: " ++ nonce; lit "X-Auth-Sign: " ++ hex_encode (HMAC_sha256 OIDC_APP_SECRET (canonical path body ts nonce))] in
  ctrl_request e k path body kp = (OIDC_CONTROLLER_HOST, path, body, headers) /\
  is_Some (Msg.https_req_build [] OIDC_CONTROLLER_HOST path (Some body) headers false) /\
  (forall path' body' ts' nonce', none (Z.eqb 10) path' -> graphic ts' -> canonical path' body' ts' nonce' = canonical path body ts nonce ->
     path' = path /\ sha256 body' = sha256 body /\ ts' = ts /\ nonce' = nonce).
Proof.
  intros Hkp Hpath Hclock. cbn zeta. destruct (dec_graphic (clock e)) as [Hts Hlts]; [lia|]. set (ts := dec_str (clock e)) in *.
  destruct (make_nonce_spec (rnd e) k) as [Hln Hn]. unfold make_nonce in *. set (nonce := oidc_hex_upper _) in *.
  pose proof (hex_graphic _ (HMAC_bytes OIDC_APP_SECRET (canonical path body ts nonce))) as [Hsig _]. set (sig := hex_encode (HMAC_sha256 _ _)) in *.
  assert (zlen sig = 64) as Hls by (unfold sig; rewrite hex_encode_len, HMAC_len; done). split_and!.
  - unfold ctrl_request. fold ts nonce. rewrite (snprintf_fits 32 ts) by lia. unfold sign_request. fold sig. pose proof (zlen_nonneg kp).
    rewrite !snprintf_fits by (rewrite zlen_app; match goal with |- context [zlen (lit ?s)] => let v := eval vm_compute in (zlen (lit s)) in change (zlen (lit s)) with v end; lia). done.
  - unfold Msg.https_req_build. rewrite Hpath. replace (Msg.http_ctrl_in OIDC_CONTROLLER_HOST) with false by (by vm_compute).
    match goal with |- is_Some (if existsb _ ?hs then _ else _) => assert (existsb Msg.http_ctrl_in hs = false) as -> end; [|by eexists].
    assert (forall p s, Msg.http_ctrl_in p = false -> graphic s -> Msg.http_ctrl_in (p ++ s) = false) as Happ.
    { intros p s Hp Hs. unfold Msg.http_ctrl_in in *. rewrite existsb_app, Hp. apply no_ctrl. by apply graphic_printing. }
    cbn [existsb]. rewrite !Happ by (done || by apply b64token_graphic). by vm_compute.
  - intros path' body' ts' nonce' Hp' Hts' E. apply canonical_inj in E; [done|done| |done..]. unfold Msg.http_ctrl_in in Hpath.
    apply Forall_forall. intros c Hc. destruct (10 =? c) eqn:E10; [|done]. assert (existsb (fun c => (c <? 32) || (c =? 127)) path = true); [|congruence].
    apply existsb_exists. exists c. rewrite <- list_elem_of_In. split; [done|lia].
Qed.
End Login.

(** ** A login that succeeds *)

Module Demo.

#[local] Existing Instance demo_rsa.
#[local] Existing Instance Toy.toy_openssl.
#[local] Existing Instance Toy.toy_laws.
#[local] Instance toy_hmac : Hmac := {| HMAC_sha256 k m := Toy.mix 32 (k ++ m) |}.
#[local] Instance toy_hmac_laws : HmacLaws := {| HMAC_len k m := eq_refl; HMAC_bytes k m := Toy.mix_bytes 32 (k ++ m) |}.

Definition draws (k : nat) : Z := Z.of_nat k * 65537.
Definition claims : bytes :=
  quoted (lit "{'exp':2000,'aud':'" ++ OIDC_CLIENT_ID ++ lit "','iss':'" ++ OIDC_ISSUER ++ lit "','nonce':'" ++ make_nonce draws 48 ++ lit "','sub':'u'}").
Definition msg : bytes := b64_url (quoted (lit "{'alg':'RS256','kid':'k1'}")) ++ 46 :: b64_url claims.
Definition jwt : bytes := msg ++ 46 :: b64_url [u8 (be_val msg)].
Definition site : web := fun host path =>
  if beq host OIDC_AUTH_HOST && beq path DISCOVERY_PATH then Some (200, quoted (lit "{'issuer':'" ++ OIDC_ISSUER ++ lit "','jwks_uri':'https://keys/set'}"))
  else demo_web host path.
Definition answer : bytes := quoted (lit "{'access_token':'T0-k','id_token':'" ++ jwt ++ lit "'}").
Definition env : Env := {|
  rnd := draws; getuid := 1000; getenv := fun _ => None; stat := fun _ => None; may_create := fun _ => true; may_write := true; may_read := true;
  stdin := lit " com.panabit.mobile://oauth2redirect?code=a%22b&state=" ++ make_state draws 16 ++ [13; 10];
  https_post := fun r =>
    if beq r.1.2 (object_text (token_fields [97; 34; 98] (make_pkce draws 0).1))
    then (true, 200, Some answer) else (false, 0, None);
  https_get1 := site; https_get2 := site; clock := 1500
|}.

Lemma env_bytes : env_ok env.
Proof.
  assert (bodies_ok site) as Hsite.
  { intros host path st b. unfold site. case_match; [intros [= <- <-]; apply (bool_decide_eq_true_1 _); vm_compute; reflexivity|apply demo_bodies]. }
  split; [apply (bool_decide_eq_true_1 _); vm_compute; reflexivity|]. split; [done|]. split; [done|].
  intros r ok st b. cbn [https_post env]. case_match; [|done]. intros E. apply (f_equal snd) in E. cbn [snd] in E.
  assert (b = answer) as -> by congruence. apply (bool_decide_eq_true_1 _). vm_compute. reflexivity.
Qed.

Lemma login_exact_witness : exists r, oidc_login env ∅ = Ret r /\ run_ok env ∅ r /\ result r = inl (lit "T0-k", lit "u").
Proof.
  destruct (login_exact env ∅ env_bytes) as (r & E & Hr). exists r. split; [exact E|]. split; [exact Hr|].
  assert (match oidc_login env ∅ with Ret r' => bool_decide (result r' = inl (lit "T0-k", lit "u")) | Fault _ => false end = true) as H by (vm_compute; reflexivity).
  rewrite E in H. by apply bool_decide_eq_true in H.
Defined.

Lemma ctrl_request_exact_witness :
  ctrl_request env 60 (lit "/m/auth") (lit "{}") (lit "T0-k") =
    (OIDC_CONTROLLER_HOST, lit "/m/auth", lit "{}",
     [JSON_TYPE; lit "Authorization: Bearer T0-k"; lit "X-Auth-AppId: controller-ustc"; lit "X-Auth-Timestamp: 1500";
      lit "X-Auth-Nonce: " ++ oidc_hex_upper (oidc_rand_bytes draws 60 4);
      lit "X-Auth-Sign: " ++ hex_encode (HMAC_sha256 OIDC_APP_SECRET (canonical (lit "/m/auth") (lit "{}") (lit "1500") (oidc_hex_upper (oidc_rand_bytes draws 60 4))))]).
Proof.
  destruct (ctrl_request_exact env 60 (lit "/m/auth") (lit "{}") (lit "T0-k")) as (E & _); [reflexivity|reflexivity|vm_compute; intuition discriminate|exact E].
Defined.

End Demo.
