(* ===== verification/Cli.v ===== *)
(** * The option parser (src/src/common/cli.c, cli.h)

    The table-driven parser of the two clients.  A row of the table carries what its [dst] pointer does to the
    state [St] of the caller, and its validator may read and extend that state; an exit of the program is a
    value. *)

From S2P Require Import Prelude Util Http Json Oidc.
Import Scan Slist.

Section Parser.
Context {St : Type}.

Inductive cli_opt_kind :=
  | CLI_OPT_BOOL (set : St -> St)
  | CLI_OPT_STR (set : bytes -> St -> St)
  | CLI_OPT_U8 (set : Z -> St -> St)
  | CLI_OPT_U16 (set : Z -> St -> St)
  | CLI_OPT_CSV (get : St -> list bytes) (set : list bytes -> St -> St).

Record cli_opt := {
  name : bytes;
  kind : cli_opt_kind;
  valname : option bytes;
  validate : option (bytes -> St -> res (bool * St))
}.

Definition CLI_MAX_USAGE : Z := 16.

Record cli_ctl := {
  version_is_unknown : bool;
  short_aliases : option (list (bytes * option bytes))
}.

Record Cli := {
  usage_args : list bytes;
  seen_names : list bytes;
  usage_dup : bool;
  dup_name : option bytes
}.

Inductive bad_value := W_empty | W_digit | W_range | W_refused.

(** The calls of [exit]: 0 for help and version, 2 for the rest. *)
Inductive cli_exit :=
  | X_help (long : bool) | X_version | X_unknown (arg : bytes) | X_need (name : bytes)
  | X_bad (name val : bytes) (why : bad_value) | X_bool (name val : bytes) | X_dup (name : bytes) | X_alias (short : bytes).

Definition exit_code (e : cli_exit) : Z := match e with X_help _ | X_version => 0 | _ => 2 end.

Definition check_uint (name val : bytes) (max : Z) : Z + cli_exit :=
  match parse_uint val max with
  | PARSE_UINT_OK v => inl v
  | PARSE_UINT_BAD => if zlen val =? 0 then inr (X_bad name val W_empty) else inr (X_bad name val W_digit)
  | PARSE_UINT_RANGE => inr (X_bad name val W_range)
  end.

Definition find_opt (opts : list cli_opt) (n : bytes) : option cli_opt := find (fun o => (zlen (name o) =? zlen n) && beq n (name o)) opts.

Fixpoint alias_loop (l : list (bytes * option bytes)) (ch : Z) : res (option bytes) :=
  match l with
  | [] => Ret None
  | (s, t) :: l => let! c := rdc s 0 in if ch =? c then Ret t else alias_loop l ch
  end.

Definition map_short (ctl : cli_ctl) (a : bytes) : res (option bytes) :=
  match short_aliases ctl with
  | None => Ret None
  | Some l =>
      let! c0 := rdc a 0 in
      if negb (c0 =? 45) then Ret None
      else
        let! c1 := rdc a 1 in
        if (c1 =? 45) || (c1 =? 0) then Ret None
        else let! c2 := rdc a 2 in if negb (c2 =? 0) then Ret None else alias_loop l c1
  end.

(** A row that is no long option, or names none of the table. *)
Definition alias_bad (opts : list cli_opt) (t : option bytes) : bool :=
  match t with
  | Some (45 :: 45 :: c :: r) => match find_opt opts (c :: r) with Some _ => false | None => true end
  | _ => true
  end.

Fixpoint validate_aliases (opts : list cli_opt) (l : list (bytes * option bytes)) : option cli_exit :=
  match l with
  | [] => None
  | (s, t) :: l => if alias_bad opts t then Some (X_alias s) else validate_aliases opts l
  end.

Definition track_flag (c : Cli) (o : cli_opt) : Cli * option cli_exit :=
  if existsb (beq (name o)) (seen_names c) then
    match kind o with
    | CLI_OPT_BOOL _ => ({| usage_args := usage_args c; seen_names := seen_names c; usage_dup := true; dup_name := dup_name c |}, Some (X_dup (name o)))
    | CLI_OPT_CSV _ _ => (c, None)
    | _ =>
        ({| usage_args := usage_args c; seen_names := seen_names c; usage_dup := true;
            dup_name := match dup_name c with None => Some (name o) | d => d end |}, None)
    end
  else
    ({| usage_args := if zlen (usage_args c) <? CLI_MAX_USAGE
                      then usage_args c ++ [snprintf 48 (lit "--" ++ name o ++ match valname o with Some v => 32 :: v | None => [] end)]
                      else usage_args c;
        seen_names := seen_names c ++ [name o]; usage_dup := usage_dup c; dup_name := dup_name c |}, None).

Definition store_value (o : cli_opt) (val : bytes) (parsed : Z) (s : St) : res St :=
  match kind o with
  | CLI_OPT_STR set => Ret (set val s)
  | CLI_OPT_U8 set => Ret (set (u8 parsed) s)
  | CLI_OPT_U16 set => Ret (set (u16 parsed) s)
  | CLI_OPT_CSV get set => let! l := slist_push_csv (get s) val in Ret (set l s)
  | CLI_OPT_BOOL _ => Ret s
  end.

(** A value for an option: parsed, validated and stored. *)
Definition take_value (o : cli_opt) (val : bytes) (s : St) : res (option cli_exit * St) :=
  let parsed := match kind o with CLI_OPT_U8 _ => check_uint (name o) val 255 | CLI_OPT_U16 _ => check_uint (name o) val 65535 | _ => inl 0 end in
  match parsed with
  | inr e => Ret (Some e, s)
  | inl v =>
      let! r := match validate o with None => Ret (true, s) | Some f => f val s end in
      if negb r.1 then Ret (Some (X_bad (name o) val W_refused), r.2)
      else let! s := store_value o val v r.2 in Ret (None, s)
  end.

Section Run.
Context (opts : list cli_opt) (ctl : cli_ctl).

Fixpoint parse_loop (args : list bytes) (c : Cli) (s : St) : res (option cli_exit * Cli * St) :=
  match args with
  | [] => Ret (None, c, s)
  | a :: rest =>
      let stop e c := Ret (Some e, c, s) in
      if beq a (lit "-h") then stop (X_help false) c
      else if beq a (lit "--help") then stop (X_help true) c
      else if beq a (lit "-V") || beq a (lit "--version") then if version_is_unknown ctl then stop (X_unknown a) c else stop X_version c
      else
        let! long_form := map_short ctl a in
        let a := default a long_form in
        let! c0 := rdc a 0 in
        let! c1 := if c0 =? 45 then rdc a 1 else Ret 0 in
        if negb (c0 =? 45) || negb (c1 =? 45) then stop (X_unknown a) c
        else
          let text := drop 2 a in
          let val := match from (Z.eqb 61) text with [] => None | _ :: v => Some v end in
          match find_opt opts (upto (Z.eqb 61) text) with
          | None => stop (X_unknown a) c
          | Some o =>
              let '(c, dup) := track_flag c o in
              match dup, kind o with
              | Some e, _ => stop e c
              | None, CLI_OPT_BOOL set =>
                  match val with Some v => Ret (Some (X_bool (name o) v), c, set s) | None => parse_loop rest c (set s) end
              | None, _ =>
                  match val with
                  | Some v => let! r := take_value o v s in match r with (Some e, s) => Ret (Some e, c, s) | (None, s) => parse_loop rest c s end
                  | None =>
                      match rest with
                      | [] => stop (X_need (name o)) c
                      | v :: rest =>
                          let! v0 := rdc v 0 in
                          if v0 =? 45 then stop (X_need (name o)) c
                          else let! r := take_value o v s in match r with (Some e, s) => Ret (Some e, c, s) | (None, s) => parse_loop rest c s end
                      end
                  end
              end
          end
  end.

Definition cli_init : Cli := {| usage_args := []; seen_names := []; usage_dup := false; dup_name := None |}.

(** [argv] from [start] on. *)
Definition cli_parse (c : Cli) (args : list bytes) (s : St) : res (option cli_exit * Cli * St) :=
  match validate_aliases opts (default [] (short_aliases ctl)) with
  | Some e => Ret (Some e, c, s)
  | None =>
      let! r := parse_loop args c s in
      match r with
      | (None, c, s) =>
          match dup_name c with
          | Some n => Ret (Some (X_dup n), c, s)
          | None => Ret (None, {| usage_args := usage_args c; seen_names := []; usage_dup := usage_dup c; dup_name := None |}, s)
          end
      | r => Ret r
      end
  end.

End Run.
End Parser.

Arguments cli_opt_kind : clear implicits.
Arguments cli_opt : clear implicits.

(** * Specification *)

Section Spec.
Context {St : Type} (opts : list (cli_opt St)) (ctl : cli_ctl).

(** The long form of an argument. *)
Definition expand (a : bytes) : bytes :=
  match a with
  | [c0; ch] =>
      if (c0 =? 45) && negb (ch =? 45) then
        match find (fun p => hd 0 p.1 =? ch) (default [] (short_aliases ctl)) with Some (_, Some t) => t | _ => a end
      else a
  | _ => a
  end.

(** [a] is [--n], [--n=v], or short for one of them. *)
Definition means (a n : bytes) (v : option bytes) : Prop :=
  (a ∉ [lit "-h"; lit "--help"; lit "-V"; lit "--version"]) /\ expand a = lit "--" ++ n ++ match v with Some v => 61 :: v | None => [] end.

Definition is_flag (o : cli_opt St) : bool := match kind o with CLI_OPT_BOOL _ => true | _ => false end.
Definition is_list (o : cli_opt St) : bool := match kind o with CLI_OPT_CSV _ _ => true | _ => false end.

(** The command lines for a sequence of options and values. *)
Inductive spells : list bytes -> list (cli_opt St * bytes) -> Prop :=
  | sp_end : spells [] []
  | sp_flag a o args us : o ∈ opts -> is_flag o = true -> means a (name o) None -> spells args us -> spells (a :: args) ((o, []) :: us)
  | sp_equals a o v args us : o ∈ opts -> is_flag o = false -> means a (name o) (Some v) -> spells args us -> spells (a :: args) ((o, v) :: us)
  | sp_next a o v args us : o ∈ opts -> is_flag o = false -> means a (name o) None -> hd 0 v <> 45 -> spells args us -> spells (a :: v :: args) ((o, v) :: us).

(** Only the list options are used more than once. *)
Fixpoint once (us : list (cli_opt St * bytes)) : Prop :=
  match us with [] => True | u :: us => Forall (fun y => name y.1 = name u.1 -> is_list y.1 = true) us /\ once us end.

(** [v] is the decimal spelling of [x], at most [max]. *)
Definition spells_num (max : Z) (v : bytes) (x : Z) : Prop := v <> [] /\ forallb isdigit v = true /\ digits_val v = x /\ x <= max.

(** What one use does to the state. *)
Definition gives (u : cli_opt St * bytes) (s s' : St) : Prop :=
  match kind u.1 with
  | CLI_OPT_BOOL set => s' = set s
  | k =>
      exists s1, (match validate u.1 with None => s1 = s | Some f => f u.2 s = Ret (true, s1) end) /\
        match k with
        | CLI_OPT_STR set => s' = set u.2 s1
        | CLI_OPT_U8 set => exists x, spells_num 255 u.2 x /\ s' = set x s1
        | CLI_OPT_U16 set => exists x, spells_num 65535 u.2 x /\ s' = set x s1
        | CLI_OPT_CSV get set => s' = set (get s1 ++ csv_spec u.2) s1
        | CLI_OPT_BOOL _ => False
        end
  end.

Fixpoint applies (us : list (cli_opt St * bytes)) (s s' : St) : Prop :=
  match us with [] => s' = s | u :: us => exists s1, gives u s s1 /\ applies us s1 s' end.

(** What the parser relies on: names are distinct and have no [=], the short forms name options, validators
    return. *)
Record table_ok : Prop := {
  names_distinct : NoDup (map name opts);
  names_plain : Forall (fun o => cstr_ok (name o) /\ none (Z.eqb 61) (name o)) opts;
  aliases_named : Forall (fun p => exists o, o ∈ opts /\ name o <> [] /\ p.2 = Some (lit "--" ++ name o)) (default [] (short_aliases ctl));
  validators_return : forall o f v s, o ∈ opts -> validate o = Some f -> cstr_ok v -> exists b s', f v s = Ret (b, s')
}.
End Spec.

(** * Proofs *)

Section Proofs.
Context {St : Type} (opts : list (cli_opt St)) (ctl : cli_ctl) (Htab : table_ok opts ctl).

Local Abbreviation spells := (spells opts ctl).
Local Abbreviation means := (means ctl).

Lemma find_opt_spec n o : find_opt opts n = Some o <-> o ∈ opts /\ name o = n.
Proof.
  unfold find_opt. assert (forall o : cli_opt St, (zlen (name o) =? zlen n) && beq n (name o) = true <-> name o = n) as Ht.
  { intros o'. split; [intros [_ ->%beq_true]%andb_true_iff; done|]. intros <-. by rewrite Z.eqb_refl, beq_refl. }
  generalize (names_distinct _ _ Htab). generalize opts as l. induction l as [|o' l IH]; cbn [find map]; intros Hd; [split; [done|intros [H _]; inversion H]|].
  apply NoDup_cons in Hd as [Hn Hd]. destruct (_ && _) eqn:E.
  - apply Ht in E. split; [intros [= <-]; split; [constructor|done]|]. intros [Ho En]. apply elem_of_cons in Ho as [->|Ho]; [done|]. destruct Hn. rewrite E, <- En. by apply list_elem_of_fmap_2.
  - rewrite IH by done. split; [intros [Ho En]; split; [by constructor|done]|]. intros [Ho En]. apply elem_of_cons in Ho as [->|Ho]; [|done]. apply Ht in En. congruence.
Qed.

Lemma find_opt_none n o : find_opt opts n = None -> o ∈ opts -> name o <> n.
Proof. intros E Ho En. assert (find_opt opts n = Some o) by (by apply find_opt_spec). congruence. Qed.

Lemma alias_loop_spec l ch : alias_loop l ch = Ret (find (fun p => hd 0 p.1 =? ch) l ≫= snd).
Proof.
  induction l as [|[s t] l IH]; [done|]. cbn [alias_loop find fst]. assert (rdc s 0 = Ret (hd 0 s)) as -> by (by destruct s; [apply rdc_nil|apply rdc_cons]). cbn [rbind]. rewrite Z.eqb_sym. by destruct (_ =? _).
Qed.

Lemma map_short_spec a : cstr_ok a -> exists o, map_short ctl a = Ret o /\ default a o = expand ctl a.
Proof.
  intros Ha. unfold map_short, expand. destruct (short_aliases ctl) as [l|]; [|eexists; split; [done|]; destruct a as [|? [|? [|]]]; try done; by destruct (_ && _)]. cbn [default].
  destruct a as [|c0 a]; [by eexists|]. rewrite rdc_cons. cbn [rbind]. destruct (c0 =? 45) eqn:E0; [|eexists; split; [done|]; by destruct a as [|? [|]]]. cbn [negb]. rewrite rdc_S by lia.
  destruct a as [|c1 a]; [by eexists|]. change (1 - 1) with 0. rewrite rdc_cons. cbn [rbind andb]. apply Forall_cons in Ha as [_ Ha]. apply Forall_cons in Ha as [H1 Ha]. replace (c1 =? 0) with false by lia.
  destruct (c1 =? 45) eqn:E1; [eexists; split; [done|]; by destruct a|]. cbn [orb negb]. rewrite !rdc_S by lia. change (2 - 1 - 1) with 0.
  destruct a as [|c2 a]; [|rewrite rdc_cons; cbn [rbind]; apply Forall_cons in Ha as [H2 _]; replace (c2 =? 0) with false by lia; by eexists].
  rewrite rdc_nil. cbn [rbind negb Z.eqb]. rewrite alias_loop_spec. eexists. split; [done|]. change (id l) with l. destruct (find _ l) as [[s [t|]]|]; done.
Qed.

Lemma expand_cstr a : cstr_ok a -> cstr_ok (expand ctl a).
Proof.
  intros Ha. unfold expand. destruct a as [|c0 [|ch [|]]]; try done. destruct (_ && _); [|done]. destruct (find _ _) as [[s [t|]]|] eqn:E; try done. apply find_some in E as [Hin _]. apply list_elem_of_In in Hin.
  pose proof (aliases_named _ _ Htab) as Hal. rewrite Forall_forall in Hal. destruct (Hal _ Hin) as (o & Ho & _ & Ht). cbn [snd] in Ht. injection Ht as ->. pose proof (names_plain _ _ Htab) as Hp. rewrite Forall_forall in Hp. repeat (apply Forall_cons; split; [lia|]). by apply Hp.
Qed.

Lemma dashes t : exists c0 c1, rdc t 0 = Ret c0 /\ (if c0 =? 45 then rdc t 1 else Ret 0) = Ret c1 /\
  if negb (c0 =? 45) || negb (c1 =? 45) then forall r, t <> 45 :: 45 :: r else t = 45 :: 45 :: drop 2 t.
Proof.
  destruct t as [|c0 t]; [eexists _, 0; by rewrite rdc_nil|]. exists c0. rewrite rdc_cons. destruct (c0 =? 45) eqn:E0; [|eexists; split_and!; [done|done|]; intros r [= ? _]; lia]. rewrite rdc_S by lia. change (1 - 1) with 0.
  destruct t as [|c1 t]; [rewrite rdc_nil; by eexists|]. rewrite rdc_cons. eexists. split_and!; [done|done|]. cbn [negb orb]. destruct (c1 =? 45) eqn:E1; cbn; [|intros r [= _ ? _]; lia]. repeat f_equal; lia.
Qed.

(** What an argument means is unique, and it is what the parser splits. *)
Lemma means_fun a n v n' v' : none (Z.eqb 61) n -> none (Z.eqb 61) n' -> means a n v -> means a n' v' -> n = n' /\ v = v'.
Proof.
  intros Hn Hn' [_ E] [_ E']. rewrite E in E'. injection E' as E'. assert (forall n (v : option bytes), none (Z.eqb 61) n -> upto (Z.eqb 61) (n ++ match v with Some v => 61 :: v | None => [] end) = n) as Hu.
  { intros m w Hm. destruct w; [by apply upto_app|]. rewrite app_nil_r. by apply upto_all. }
  pose proof (f_equal (upto (Z.eqb 61)) E') as H. rewrite !Hu in H by done. subst n'. split; [done|]. apply app_inv_head in E'. destruct v, v'; congruence.
Qed.

Lemma means_parts a (t := drop 2 (expand ctl a)) : a ∉ [lit "-h"; lit "--help"; lit "-V"; lit "--version"] -> expand ctl a = 45 :: 45 :: t ->
  none (Z.eqb 61) (upto (Z.eqb 61) t) /\ means a (upto (Z.eqb 61) t) match from (Z.eqb 61) t with [] => None | _ :: v => Some v end.
Proof.
  intros Ha E. split; [apply upto_none|]. split; [done|]. rewrite E. assert (t = upto (Z.eqb 61) t ++ match match from (Z.eqb 61) t with [] => None | _ :: v => Some v end with Some v => 61 :: v | None => [] end) as <-; [|done].
  rewrite <- (upto_from (Z.eqb 61) t) at 1. f_equal. destruct (from_head (Z.eqb 61) t) as [->|(c & r & -> & Hc)]; [done|]. f_equal. lia.
Qed.

(** ** One use *)

Lemma uint_spec n v max : 0 <= max < 2 ^ 64 -> match check_uint n v max with inl x => 0 <= x /\ spells_num max v x | inr _ => forall x, ~ spells_num max v x end.
Proof.
  intros Hm. unfold check_uint, parse_uint, spells_num. rewrite env_scan_u64_spec by done. destruct (beq v []) eqn:Ev; cbn [negb andb].
  - apply beq_true in Ev as ->. cbn. by intros x [? _].
  - apply beq_false in Ev. destruct (forallb isdigit v) eqn:Ed; [|destruct (_ =? 0); intros x (_ & ? & _); congruence]. pose proof (digits_val_nonneg v Ed).
    destruct (digits_val v <=? max) eqn:El; [split_and!; done || lia|]. intros x (_ & _ & <- & Hx). apply Z.leb_gt in El. lia.
Qed.

Lemma take_value_spec o v s : o ∈ opts -> is_flag o = false -> cstr_ok v ->
  exists e s', take_value o v s = Ret (e, s') /\ forall sf, (e = None /\ s' = sf) <-> gives (o, v) s sf.
Proof.
  intros Ho Hf Hv. unfold take_value, gives, store_value, is_flag in *. cbn [fst snd].
  assert (exists b s1, match validate o with None => Ret (true, s) | Some f => f v s end = Ret (b, s1) /\
    forall s2, (b = true /\ s2 = s1) <-> match validate o with None => s2 = s | Some f => f v s = Ret (true, s2) end) as (b & s1 & Eval & Hval).
  { destruct (validate o) as [f|] eqn:Ef; [|exists true, s; split; [done|]; intros; split; [by intros [_ ->]|done]]. destruct (validators_return _ _ Htab o f v s Ho Ef Hv) as (b & s1 & E). exists b, s1. split; [done|].
    intros s2. rewrite E. split; [by intros [-> ->]|by intros [= -> ->]]. }
  assert (forall max (w : Z -> Z) (set : Z -> St -> St), 0 <= max < 2 ^ 64 -> (forall x, 0 <= x <= max -> w x = x) -> exists e s', match check_uint (name o) v max with
      | inl x => let! r := Ret (b, s1) in if negb r.1 then Ret (Some (X_bad (name o) v W_refused), r.2) else let! s := Ret (set (w x) r.2) in Ret (None, s)
      | inr e => Ret (Some e, s) end = Ret (e, s') /\
    forall sf, (e = None /\ s' = sf) <-> exists s2, (match validate o with None => s2 = s | Some f => f v s = Ret (true, s2) end) /\ exists x, spells_num max v x /\ sf = set x s2) as Hnum.
  { intros max w set Hmax Hw. pose proof (uint_spec (name o) v max Hmax) as H. destruct (check_uint _ _ _) as [x|e].
    - destruct H as [Hx Hn]. pose proof Hn as (_ & _ & En & Hle). cbn [rbind fst snd]. destruct b; eexists _, _; (split; [done|]); intros sf.
      + split; [intros [_ <-]; exists s1; split; [by apply Hval|]; exists x; by rewrite Hw by lia|]. intros (s2 & H2 & x' & (_ & _ & En' & _) & ->). apply Hval in H2 as [_ ->]. split; [done|]. rewrite Hw by lia. congruence.
      + split; [by intros [? _]|]. intros (s2 & H2 & _). by apply Hval in H2 as [? _].
    - eexists _, _. split; [done|]. intros sf. split; [by intros [? _]|]. intros (s2 & _ & x & Hx & _). by apply H in Hx. }
  destruct (kind o) as [set|set|set|set|get set] eqn:Ek; [done| | | |]; cbn [rbind].
  - rewrite Eval. cbn [rbind fst snd]. destruct b; eexists _, _; (split; [done|]); intros sf.
    + split; [intros [_ <-]; exists s1; split; [by apply Hval|done]|]. intros (s2 & H2 & ->). by apply Hval in H2 as [_ ->].
    + split; [by intros [? _]|]. intros (s2 & H2 & _). by apply Hval in H2 as [? _].
  - rewrite Eval. apply (Hnum 255 u8 set); [lia|]. intros x Hx. apply u8_small. lia.
  - rewrite Eval. apply (Hnum 65535 u16 set); [lia|]. intros x Hx. apply u16_small. lia.
  - rewrite Eval. cbn [rbind fst snd]. destruct b; cbn [negb]; [unfold slist_push_csv; rewrite csv_loop_spec by lia; cbn [rbind]|]; eexists _, _; (split; [done|]); intros sf.
    + split; [intros [_ <-]; exists s1; split; [by apply Hval|done]|]. intros (s2 & H2 & ->). by apply Hval in H2 as [_ ->].
    + split; [by intros [? _]|]. intros (s2 & H2 & _). by apply Hval in H2 as [? _].
Qed.

(** ** Repeated options *)

Definition fresh (seen : list bytes) (us : list (cli_opt St * bytes)) : Prop := once us /\ Forall (fun y => name y.1 ∈ seen -> is_list y.1 = true) us.

Lemma track_spec c o : exists c1 d, track_flag c o = (c1, d) /\ (d = None \/ is_flag o = true) /\
  ((d = None /\ dup_name c1 = None) <-> (dup_name c = None /\ (name o ∈ seen_names c -> is_list o = true))) /\
  ((name o ∈ seen_names c -> is_list o = true) -> forall v us, fresh (seen_names c) ((o, v) :: us) <-> fresh (seen_names c1) us).
Proof.
  assert (existsb (beq (name o)) (seen_names c) = true <-> name o ∈ seen_names c) as Hs.
  { rewrite existsb_exists. split; [intros (x & Hx & ->%beq_true); by apply list_elem_of_In|]. intros Hi. exists (name o). split; [by apply list_elem_of_In|apply beq_refl]. }
  assert (name o ∈ seen_names c -> is_list o = true -> forall v us, fresh (seen_names c) ((o, v) :: us) <-> fresh (seen_names c) us) as Hlist.
  { intros Hi Hl v us. unfold fresh. cbn [once fst]. split; [intros [[_ H1] H2]; by apply Forall_cons in H2 as [_ H2]|]. intros [H1 H2]. split; [split; [|done]|by constructor].
    eapply Forall_impl; [exact H2|]. intros y Hy E. apply Hy. by rewrite E. }
  unfold track_flag. destruct (existsb _ _) eqn:E.
  - assert (name o ∈ seen_names c) as Hi by (by apply Hs). unfold is_list, is_flag in *. destruct (kind o); eexists _, _; (split; [done|]); cbn [dup_name seen_names]; (split; [auto|]); (split; [|intros Hl v us; try discriminate (Hl Hi); by apply Hlist]);
      (split; [intros [H1 H2]|intros [H1 H2]]); try done; try (by specialize (H2 Hi)); try (by destruct (dup_name c)).
  - assert (name o ∉ seen_names c) as Hi by (intros H; apply Hs in H; congruence). eexists _, _. split; [done|]. cbn [dup_name seen_names]. split; [by left|]. split; [split; [intros [_ H]; split; [done|by intros ?]|by intros [H _]]|].
    intros _ v us. unfold fresh. cbn [once fst]. split.
    + intros [[H0 H1] H2]. apply Forall_cons in H2 as [_ H2]. split; [done|]. rewrite Forall_forall in *. intros y Hy Hin. apply elem_of_app in Hin as [Hin|Hin]; [by apply H2|]. apply list_elem_of_singleton in Hin. by apply H0.
    + intros [H1 H2]. split; [split; [|done]|constructor; [done|]]; eapply Forall_impl; try exact H2; cbn beta; intros y Hy Hin; apply Hy, elem_of_app; [right; by apply list_elem_of_singleton|by left].
Qed.

(** ** The loop *)

Lemma spells_nothing a rest us : (forall o v, o ∈ opts -> ~ means a (name o) v) -> ~ spells (a :: rest) us.
Proof. intros Hno Hsp. inversion Hsp; subst; by eapply Hno. Qed.

Lemma spells_head a rest o val us : o ∈ opts -> means a (name o) val ->
  spells (a :: rest) us <-> exists v us', us = (o, v) :: us' /\
    ((is_flag o = true /\ val = None /\ v = [] /\ spells rest us') \/ (is_flag o = false /\ val = Some v /\ spells rest us') \/
     (is_flag o = false /\ val = None /\ exists rest', rest = v :: rest' /\ hd 0 v <> 45 /\ spells rest' us')).
Proof.
  intros Ho Hm. assert (forall o', o' ∈ opts -> none (Z.eqb 61) (name o')) as Hplain by (intros o' Ho'; pose proof (names_plain _ _ Htab) as H; rewrite Forall_forall in H; by apply H).
  assert (forall o' w, o' ∈ opts -> means a (name o') w -> o' = o /\ w = val) as Huniq.
  { intros o' w Ho' Hm'. destruct (means_fun a _ _ _ _ (Hplain _ Ho) (Hplain _ Ho') Hm Hm') as [En ->]. split; [|done].
    assert (find_opt opts (name o) = Some o') by (by apply find_opt_spec). assert (find_opt opts (name o) = Some o) by (by apply find_opt_spec). congruence. }
  split.
  - intros Hsp. inversion Hsp as [|a' o' args us' Ho' Hf Hm' Hr|a' o' v args us' Ho' Hf Hm' Hr|a' o' v args us' Ho' Hf Hm' Hv Hr]; subst; destruct (Huniq _ _ Ho' Hm') as [-> <-]; eexists _, _; (split; [done|]); [by left|by right; left|right; right; split_and!; [done|done|by eexists]].
  - intros (v & us' & -> & [(Hf & -> & -> & Hr)|[(Hf & -> & Hr)|(Hf & -> & rest' & -> & Hv & Hr)]]); by constructor.
Qed.

(** The result of the parser on [args] is the one the specification gives. *)
Definition parses (args : list bytes) (c : Cli) (s : St) (m : res (option cli_exit * Cli * St)) : Prop :=
  exists e c' s', m = Ret (e, c', s') /\
    forall sf, (e = None /\ dup_name c' = None /\ s' = sf) <-> (dup_name c = None /\ exists us, spells args us /\ fresh (seen_names c) us /\ applies us s sf).

Lemma parses_stop args c s e c' s' : (forall us sf, dup_name c = None -> spells args us -> fresh (seen_names c) us -> applies us s sf -> False) -> parses args c s (Ret (Some e, c', s')).
Proof. intros Hno. eexists _, _, _. split; [done|]. intros sf. split; [by intros [? _]|]. intros (Hd & us & Hsp & Hfr & Hap). by destruct (Hno us sf). Qed.

Lemma parses_step a rest rest' o v c c1 s e s1 :
  (forall us, spells (a :: rest) us <-> exists us', us = (o, v) :: us' /\ spells rest' us') ->
  (dup_name c1 = None <-> (dup_name c = None /\ (name o ∈ seen_names c -> is_list o = true))) ->
  ((name o ∈ seen_names c -> is_list o = true) -> forall v us, fresh (seen_names c) ((o, v) :: us) <-> fresh (seen_names c1) us) ->
  (forall sf, (e = None /\ s1 = sf) <-> gives (o, v) s sf) ->
  parses rest' c1 s1 (parse_loop opts ctl rest' c1 s1) ->
  parses (a :: rest) c s match e with Some e => Ret (Some e, c1, s1) | None => parse_loop opts ctl rest' c1 s1 end.
Proof.
  intros Hsp Hdup Hfr Hgv Hrec. destruct e as [e|].
  - apply parses_stop. intros us sf _ Hu _ Hap. apply Hsp in Hu as (us' & -> & _). destruct Hap as (s2 & Hg & _). by apply Hgv in Hg as [? _].
  - destruct Hrec as (e & c' & s' & -> & H). exists e, c', s'. split; [done|]. intros sf. rewrite H. split.
    + intros (Hd & us & Hu & Hf & Hap). apply Hdup in Hd as [Hd Hl]. split; [done|]. exists ((o, v) :: us). split_and!; [apply Hsp; by eexists|by apply Hfr|]. exists s1. split; [by apply Hgv|done].
    + intros (Hd & us & Hu & Hf & Hap). apply Hsp in Hu as (us' & -> & Hu). assert (name o ∈ seen_names c -> is_list o = true) as Hl by (destruct Hf as [_ Hf]; by apply Forall_cons in Hf as [Hf _]).
      destruct Hap as (s2 & Hg & Hap). apply Hgv in Hg as [_ ->]. split; [by apply Hdup|]. exists us'. split_and!; [done|by apply (Hfr Hl v)|done].
Qed.

Lemma loop_spec k args c s : (length args < k)%nat -> Forall cstr_ok args -> parses args c s (parse_loop opts ctl args c s).
Proof.
  revert args c s. induction k as [|k IH]; intros args c s Hk Hargs; [lia|]. destruct args as [|a rest]; cbn [parse_loop].
  { eexists _, _, _. split; [done|]. intros sf. split; [intros (_ & Hd & <-); split; [done|]; exists []; split_and!; [constructor|by split|done]|]. intros (Hd & us & Hsp & _ & Hap). inversion Hsp; subst us. cbn in Hap. by subst sf. }
  apply Forall_cons in Hargs as [Ha Hrest]. cbn [length] in Hk.
  assert (forall e c' s', (forall o v, o ∈ opts -> ~ means a (name o) v) -> parses (a :: rest) c s (Ret (Some e, c', s'))) as Hnone by (intros e c' s' Hno; apply parses_stop; intros us sf _ Hsp _ _; by eapply spells_nothing).
  assert (forall x e c' s', x ∈ [lit "-h"; lit "--help"; lit "-V"; lit "--version"] -> a = x -> parses (a :: rest) c s (Ret (Some e, c', s'))) as Htext by (intros x e c' s' Hx ->; apply Hnone; by intros o v _ [? _]).
  destruct (beq a (lit "-h")) eqn:E1; [apply beq_true in E1; eapply Htext; [|exact E1]; by apply (bool_decide_unpack _); vm_compute|]. destruct (beq a (lit "--help")) eqn:E2; [apply beq_true in E2; eapply Htext; [|exact E2]; by apply (bool_decide_unpack _); vm_compute|].
  destruct (beq a (lit "-V") || beq a (lit "--version")) eqn:E3.
  { apply orb_true_iff in E3. destruct (version_is_unknown ctl), E3 as [E3|E3]; apply beq_true in E3; (eapply Htext; [|exact E3]; by apply (bool_decide_unpack _); vm_compute). }
  apply orb_false_iff in E3 as [E3 E4]. apply beq_false in E1, E2, E3, E4. assert (a ∉ [lit "-h"; lit "--help"; lit "-V"; lit "--version"]) as Hnot by (intros Hin; repeat (apply elem_of_cons in Hin as [Hin|Hin]; [done|]); by apply not_elem_of_nil in Hin).
  destruct (map_short_spec a Ha) as (lf & -> & El). cbn [rbind]. rewrite El. destruct (dashes (expand ctl a)) as (c0 & c1 & -> & Er1 & Hd). cbn [rbind]. rewrite Er1. cbn [rbind].
  destruct (negb (c0 =? 45) || negb (c1 =? 45)); [apply Hnone; intros o v _ [_ E]; by apply (Hd _ E)|].
  destruct (means_parts a Hnot Hd) as [Hnn Hm]. pose proof (expand_cstr a Ha) as Hcs. rewrite Hd in Hcs. apply Forall_cons in Hcs as [_ Hcs]. apply Forall_cons in Hcs as [_ Hcs].
  set (t := drop 2 (expand ctl a)) in *. set (val := match from _ t with [] => None | _ :: v => Some v end) in *.
  assert (forall v, val = Some v -> cstr_ok v) as Hval.
  { intros v Ev. subst val. rewrite <- (upto_from (Z.eqb 61) t) in Hcs. apply cstr_app in Hcs as [_ Hcs]. destruct (from _ t); [done|]. injection Ev as ->. by apply Forall_cons in Hcs as [_ Hcs]. }
  destruct (find_opt opts (upto (Z.eqb 61) t)) as [o|] eqn:Ef.
  2: { apply Hnone. intros o v Ho Hm'. assert (none (Z.eqb 61) (name o)) as Hp by (pose proof (names_plain _ _ Htab) as H; rewrite Forall_forall in H; by apply H). destruct (means_fun a _ _ _ _ Hp Hnn Hm' Hm) as [En _]. by apply (find_opt_none _ _ Ef Ho). }
  apply find_opt_spec in Ef as [Ho En]. rewrite <- En in Hm. pose proof (fun us => spells_head a rest o val us Ho Hm) as Hsp. destruct (track_spec c o) as (c1' & d & -> & Hd' & Hdup & Hfr).
  destruct d as [e|].
  { destruct Hd' as [?|Hf]; [done|]. apply parses_stop. intros us sf Hdn Hu [_ Hf'] _. apply Hsp in Hu as (v & us' & -> & _). apply Forall_cons in Hf' as [Hl _]. cbn [fst] in Hl. assert (Some e = None /\ dup_name c1' = None) as [? _] by (by apply Hdup). done. }
  assert (dup_name c1' = None <-> (dup_name c = None /\ (name o ∈ seen_names c -> is_list o = true))) as Hdup' by (rewrite <- Hdup; tauto).
  assert (forall v, cstr_ok v -> is_flag o = false -> forall rest', (length rest' < k)%nat -> Forall cstr_ok rest' -> (forall us, spells (a :: rest) us <-> exists us', us = (o, v) :: us' /\ spells rest' us') ->
    parses (a :: rest) c s (let! r := take_value o v s in match r with (Some e, s) => Ret (Some e, c1', s) | (None, s) => parse_loop opts ctl rest' c1' s end)) as Htake.
  { intros v Hv Hf rest' Hk' Hr' Hu. destruct (take_value_spec o v s Ho Hf Hv) as (e & s1 & -> & Hg). cbn [rbind]. pose proof (parses_step a rest rest' o v c c1' s e s1 Hu Hdup' Hfr Hg (IH rest' c1' s1 Hk' Hr')) as H. by destruct e. }
  destruct (is_flag o) eqn:Hf.
  - unfold is_flag in Hf. destruct (kind o) as [set| | | |] eqn:Ek; try done. destruct val as [v|].
    + apply parses_stop. intros us sf _ Hu _ _. apply Hsp in Hu as (v' & us' & -> & [(_ & ? & _)|[(? & _)|(? & _)]]); unfold is_flag in *; congruence.
    + apply (parses_step a rest rest o [] c c1' s None (set s)); [|done|done| |by apply IH; [lia|]].
      * intros us. rewrite Hsp. split; [intros (v & us' & -> & [(_ & _ & -> & Hr)|[(? & _)|(? & _)]]); [by eexists|congruence|congruence]|]. intros (us' & -> & Hr). eexists _, _. split; [done|]. by left.
      * intros sf. unfold gives. cbn [fst]. rewrite Ek. split; [by intros [_ <-]|by intros ->].
  - assert (parses (a :: rest) c s match val with
      | Some v => let! r := take_value o v s in match r with (Some e, s) => Ret (Some e, c1', s) | (None, s) => parse_loop opts ctl rest c1' s end
      | None => match rest with
        | [] => Ret (Some (X_need (name o)), c1', s)
        | v :: rest => let! v0 := rdc v 0 in if v0 =? 45 then Ret (Some (X_need (name o)), c1', s)
            else let! r := take_value o v s in match r with (Some e, s) => Ret (Some e, c1', s) | (None, s) => parse_loop opts ctl rest c1' s end
        end end) as Hgoal; [|by unfold is_flag in Hf; destruct (kind o)].
    destruct val as [v|].
    + apply (Htake v (Hval v eq_refl) eq_refl rest); [lia|done|]. intros us. rewrite Hsp. split; [intros (v' & us' & -> & [(? & _)|[(_ & [= ->] & Hr)|(_ & ? & _)]]); [done|by eexists|done]|]. intros (us' & -> & Hr). eexists _, _. split; [done|]. by right; left.
    + destruct rest as [|v rest]; [apply parses_stop; intros us sf _ Hu _ _; apply Hsp in Hu as (v' & us' & -> & [(? & _)|[(_ & ? & _)|(_ & _ & rest' & ? & _)]]); done|].
      apply Forall_cons in Hrest as [Hv Hrest]. assert (rdc v 0 = Ret (hd 0 v)) as -> by (by destruct v; [apply rdc_nil|apply rdc_cons]). cbn [rbind]. destruct (hd 0 v =? 45) eqn:Ev.
      * apply parses_stop. intros us sf _ Hu _ _. apply Hsp in Hu as (v' & us' & -> & [(? & _)|[(_ & ? & _)|(_ & _ & rest' & [= -> ->] & ? & _)]]); [done|done|lia].
      * cbn [length] in Hk. apply (Htake v Hv eq_refl rest); [lia|done|]. intros us. rewrite Hsp. split; [intros (v' & us' & -> & [(? & _)|[(_ & ? & _)|(_ & _ & rest' & [= -> ->] & _ & Hr)]]); [done|done|by eexists]|].
        intros (us' & -> & Hr). eexists _, _. split; [done|]. right; right. split_and!; [done|done|]. exists rest. split_and!; [done|lia|done].
Qed.

(** Values are parts of the command line. *)
Lemma spells_values args us : Forall cstr_ok args -> spells args us -> Forall (fun u => u.1 ∈ opts /\ cstr_ok u.2) us.
Proof.
  intros Ha Hs. induction Hs as [|a o args us Ho Hf Hm Hs IH|a o v args us Ho Hf [_ Hm] Hs IH|a o v args us Ho Hf Hm Hv Hs IH]; [constructor|..]; apply Forall_cons in Ha as [Ha Hr].
  - constructor; [by split; [|constructor]|by apply IH].
  - constructor; [|by apply IH]. split; [done|]. apply expand_cstr in Ha. rewrite Hm in Ha. apply cstr_app in Ha as [_ Ha]. apply cstr_app in Ha as [_ Ha]. by apply cstr_cons in Ha as [_ Ha].
  - apply Forall_cons in Hr as [Hcv Hr]. constructor; [by split|by apply IH].
Qed.

Lemma aliases_valid : validate_aliases opts (default [] (short_aliases ctl)) = None.
Proof.
  pose proof (aliases_named _ _ Htab) as Hal. induction Hal as [|[s t] l (o & Ho & Hne & Ht) Hal IH]; [done|]. cbn [validate_aliases snd] in *. subst t.
  assert (alias_bad opts (Some (lit "--" ++ name o)) = false) as ->; [|done]. change (lit "--" ++ name o) with (45 :: 45 :: name o). unfold alias_bad. destruct (name o) as [|c r] eqn:En; [done|].
  assert (find_opt opts (c :: r) = Some o) as -> by (by apply find_opt_spec). done.
Qed.

Lemma cli_parse_runs (args : list bytes) (s : St) : Forall cstr_ok args ->
  exists e c s', cli_parse opts ctl cli_init args s = Ret (e, c, s') /\
    forall sf, (e = None /\ s' = sf) <-> exists us, spells args us /\ once us /\ applies us s sf.
Proof.
  intros Hargs. unfold cli_parse. rewrite aliases_valid. destruct (loop_spec (S (length args)) args cli_init s) as (e & c & s' & -> & H); [lia|done|]. cbn [rbind].
  assert (forall us, fresh (seen_names cli_init) us <-> once us) as Hfr by (intros us; unfold fresh; cbn; split; [by intros [? _]|]; intros ?; split; [done|]; apply Forall_forall; intros y _ Hy; by apply not_elem_of_nil in Hy).
  assert (forall sf, (e = None /\ dup_name c = None /\ s' = sf) <-> exists us, spells args us /\ once us /\ applies us s sf) as H'.
  { intros sf. rewrite H. split; [intros (_ & us & H1 & H2%Hfr & H3); by exists us|]. intros (us & H1 & H2%Hfr & H3). split; [done|]. by exists us. }
  destruct e as [e|]; [|destruct (dup_name c) as [n|] eqn:Ed]; eexists _, _, _; (split; [done|]); intros sf; rewrite <- H'; [..|tauto]; (split; [by intros [? _]|]); [by intros [? _]|by intros (_ & ? & _)].
Qed.

(** C31: the parser returns for every command line, and accepts exactly those that spell a sequence of options of
    the table, [--name], [--name=value], [--name value] or the short form, in which only list options are
    repeated and every value is in range and passes its validator; the state that comes out is the one the uses give
    in order, a list option adding the trimmed fields of its value. *)
Theorem parse_exact (args : list bytes) (s : St) : Forall cstr_ok args ->
  exists e c s', cli_parse opts ctl cli_init args s = Ret (e, c, s') /\
    forall sf, (e = None /\ s' = sf) <-> exists us, spells args us /\ once us /\ applies us s sf.
Proof. apply cli_parse_runs. Qed.

End Proofs.

(** ** A small table *)

Module Demo.

Definition rows : list (cli_opt (bool * Z * list bytes)) :=
  [{| name := lit "all"; kind := CLI_OPT_BOOL (fun s => (true, s.1.2, s.2)); valname := None; validate := None |};
   {| name := lit "n"; kind := CLI_OPT_U8 (fun v s => (s.1.1, v, s.2)); valname := Some (lit "<N>"); validate := Some (fun v s => Ret (negb (beq v (lit "7")), s)) |};
   {| name := lit "add"; kind := CLI_OPT_CSV snd (fun l s => (s.1, l)); valname := Some (lit "<L>"); validate := None |}].
Definition shorts : cli_ctl := {| version_is_unknown := true; short_aliases := Some [(lit "a", Some (lit "--add")); (lit "v", Some (lit "--all"))] |}.

Lemma rows_ok : table_ok rows shorts.
Proof.
  split.
  - apply (bool_decide_unpack _). vm_compute. exact I.
  - assert (Forall (fun n => cstr_ok n /\ none (Z.eqb 61) n) (map name rows)) as Hn by (apply (bool_decide_unpack _); vm_compute; exact I). by apply Forall_map in Hn.
  - apply Forall_cons; split; [by eexists; split_and!; [do 3 constructor| |]|]. apply Forall_cons; split; [by eexists; split_and!; [constructor| |]|constructor].
  - intros o f v s Ho Ef _. repeat (apply elem_of_cons in Ho as [->|Ho]; [cbn [validate] in Ef; try discriminate Ef; injection Ef as <-; by eexists _, _|]). by apply not_elem_of_nil in Ho.
Qed.

Definition reads_as (args : list bytes) (x : bool * Z * list bytes + cli_exit) : Prop :=
  exists c s, cli_parse rows shorts cli_init args (false, 0, []) = Ret (match x with inl _ => None | inr e => Some e end, c, s) /\ match x with inl v => s = v | inr _ => True end.

Definition line : list bytes := [lit "-a"; lit "x, y"; lit "--n=255"; lit "-v"; lit "--add=z"].

Lemma parse_exact_witness :
  reads_as line (inl (true, 255, [lit "x"; lit "y"; lit "z"])) /\ reads_as [lit "--n"; lit "256"] (inr (X_bad (lit "n") (lit "256") W_range)) /\ reads_as [lit "--n=7"] (inr (X_bad (lit "n") (lit "7") W_refused)) /\
  reads_as [lit "--n=1"; lit "--n=2"] (inr (X_dup (lit "n"))) /\ reads_as [lit "-V"] (inr (X_unknown (lit "-V"))) /\ reads_as [lit "--n"; lit "-v"] (inr (X_need (lit "n"))) /\
  exists e c s', cli_parse rows shorts cli_init line (false, 0, []) = Ret (e, c, s') /\
    forall sf, (e = None /\ s' = sf) <-> exists us, spells rows shorts line us /\ once us /\ applies us (false, 0, []) sf.
Proof.
  split_and!; try (eexists _, _; vm_compute; split; reflexivity || exact I). apply (parse_exact rows shorts rows_ok line). apply (bool_decide_unpack _). vm_compute. exact I.
Defined.

End Demo.
