(* ===== verification/OidcPath.v ===== *)
(** * The canonical spelling of a path (src/src/oidc/oidc_config.c)

    [normalize_path] of the POSIX build: a relative path is put behind the current directory,
    empty names and [.] are dropped, and [..] removes the name before it.  The reference is a
    fold over the names of the path. *)

From S2P Require Import Prelude Util Crypto Http Json OidcText Jwt Oidc.
Import Scan.

(** ** The last occurrence of a character *)

Definition strrchr (c : Z) (s : bytes) : option Z :=
  let r := from (Z.eqb c) (rev s) in if zlen r =? 0 then None else Some (zlen r - 1).

Lemma from_skip f a b : none f a -> from f (a ++ b) = from f b.
Proof. induction 1 as [|c a Hc _ IH]; cbn; [done|]. by rewrite Hc. Qed.

Lemma from_short f s : zlen (from f s) <= zlen s.
Proof. induction s as [|c s IH]; cbn; [done|]. destruct (f c); [done|]. rewrite zlen_cons. lia. Qed.

Lemma none_rev f s : none f s -> none f (rev s).
Proof. apply Forall_rev. Qed.

Lemma strrchr_last c a b : none (Z.eqb c) b -> strrchr c (a ++ c :: b) = Some (zlen a).
Proof.
  intros Hb%none_rev. unfold strrchr. rewrite rev_app_distr. cbn [rev]. rewrite <- app_assoc. cbn [app]. rewrite from_app by (done || apply Z.eqb_refl).
  pose proof (zlen_nonneg a). rewrite zlen_cons. replace (zlen (rev a)) with (zlen a) by (unfold zlen; by rewrite length_rev). replace (_ =? 0) with false by lia. f_equal. lia.
Qed.

Lemma strrchr_spec c s : none (Z.eqb c) s /\ strrchr c s = None \/ exists a b, s = a ++ c :: b /\ none (Z.eqb c) b /\ strrchr c s = Some (zlen a).
Proof.
  induction s as [|x s IH] using rev_ind; [by left; split; [constructor|]|]. destruct (c =? x) eqn:E.
  - right. exists s, []. assert (c = x) as -> by lia. split_and!; [done|constructor|]. apply strrchr_last. constructor.
  - assert (none (Z.eqb c) [x]) as Hx by (by repeat constructor). destruct IH as [[Hs _]|(a & b & -> & Hb & _)].
    + left. assert (none (Z.eqb c) (s ++ [x])) as Hn by (by apply Forall_app). split; [done|]. unfold strrchr. rewrite from_all by (by apply none_rev). done.
    + right. exists a, (b ++ [x]). assert (none (Z.eqb c) (b ++ [x])) as Hn by (by apply Forall_app). split_and!; [by rewrite <- app_assoc|done|]. rewrite <- app_assoc. by apply strrchr_last.
Qed.

Lemma strrchr_before c a b : none (Z.eqb c) b -> strrchr c (a ++ b) = None \/ exists i, strrchr c (a ++ b) = Some i /\ 0 <= i < zlen a.
Proof.
  intros Hb%none_rev. unfold strrchr. rewrite rev_app_distr, from_skip by done. pose proof (from_short (Z.eqb c) (rev a)) as Hs. pose proof (zlen_nonneg (from (Z.eqb c) (rev a))).
  replace (zlen (rev a)) with (zlen a) in Hs by (unfold zlen; by rewrite length_rev). destruct (_ =? 0) eqn:E; [by left|]. right. eexists. split; [done|lia].
Qed.

Lemma strrchr_nonneg c s i : strrchr c s = Some i -> 0 <= i.
Proof. unfold strrchr. pose proof (zlen_nonneg (from (Z.eqb c) (rev s))). destruct (_ =? 0) eqn:E; [done|]. intros [= <-]. lia. Qed.

(** ** Canonical spelling *)

Definition is_path_sep (c : Z) : bool := c =? 47.

(** [getcwd]: the directory, or the errno. *)
Definition join_cwd (cwd : bytes + Z) (path : bytes) : bytes + Z :=
  match cwd with inl d => inl (d ++ 47 :: path) | inr e => inr e end.

Record NormPath := { is_root : bool; unresolved : bool; err : Z }.

(** The two loops of the case [..]: the last component and its separator go. *)
Fixpoint pop_comp (k : nat) (out : bytes) (root_end : Z) : bytes :=
  match k with
  | O => out
  | S k => if (zlen out >? root_end) && negb (is_path_sep out.[zlen out - 1]) then pop_comp k (take (Z.to_nat (zlen out - 1)) out) root_end else out
  end.

Definition pop (out : bytes) (root_end : Z) : bytes :=
  let out := pop_comp (length out) out root_end in
  if zlen out >? root_end then take (Z.to_nat (zlen out - 1)) out else out.

(** The component loop; [out] holds the [olen] bytes written, [cap] is the size of the buffer. *)
Fixpoint norm_loop (fuel : nat) (cap : Z) (rooted : bool) (root_end : Z) (s out : bytes) (unres : bool) : res (bytes * bool) :=
  match fuel with
  | O => Fault OutOfFuel
  | S fuel =>
      match s with
      | [] => Ret (out, unres)
      | _ =>
          let s := skipw is_path_sep s in
          let c := upto is_path_sep s in
          let s := from is_path_sep s in
          if zlen c =? 0 then Ret (out, unres)
          else if beq c (lit ".") then norm_loop fuel cap rooted root_end s out unres
          else if beq c (lit "..") then
            if zlen out >? root_end then norm_loop fuel cap rooted root_end s (pop out root_end) unres
            else norm_loop fuel cap rooted root_end s out (unres || negb rooted)
          else
            let out := if (zlen out >? 0) && negb (is_path_sep out.[zlen out - 1]) then out ++ [47] else out in
            if zlen (out ++ c) >? cap then Fault OutOfBounds
            else norm_loop fuel cap rooted root_end s (out ++ c) unres
      end
  end.

Definition normalize_path (cwd : bytes + Z) (path : bytes) : res (bytes * NormPath) :=
  let! c0 := rdc path 0 in
  let '(path, unres, e) :=
    if negb (c0 =? 0) && negb (is_path_sep c0) then
      match join_cwd cwd path with inl joined => (joined, false, 0) | inr e => (path, true, e) end
    else (path, false, 0) in
  let n := zlen path in
  let cap := n + 4 in
  let! c0 := rdc path 0 in
  let rooted := (n >? 0) && is_path_sep c0 in
  let s := if rooted then skipw is_path_sep path else path in
  let out := if rooted then [47] else [] in
  let root_end := zlen out in
  let! r := norm_loop (S (length path)) cap rooted root_end s out unres in
  let '(out, unres) := r in
  let root := (rooted && (zlen out =? root_end)) || unres in
  let out := if zlen out =? 0 then [46] else out in
  if zlen out >=? cap then Fault OutOfBounds else Ret (out, {| is_root := root; unresolved := unres; err := e |}).

(** * Reference

    An absolute path is a list of names; [..] removes the last name and stays in the root
    directory. *)

Definition names (path : bytes) : list bytes := filter (fun c => c <> [] /\ c <> lit ".") (split_on 47 path).

Definition walk1 (st : list bytes) (c : bytes) : list bytes := if beq c (lit "..") then removelast st else st ++ [c].

Definition resolve (path : bytes) : list bytes := fold_left walk1 (names path) [].

(** The text of a list of names. *)
Fixpoint slashed (st : list bytes) : bytes := match st with [] => [] | c :: st => 47 :: c ++ slashed st end.

Definition abs_text (st : list bytes) : bytes := match st with [] => [47] | _ => slashed st end.

Definition good_name (c : bytes) : Prop := c <> [] /\ none (Z.eqb 47) c /\ c <> lit "." /\ c <> lit "..".

(** ** Lemmas on splitting *)

Lemma sep_eqb : is_path_sep = fun c => c =? 47.
Proof. done. Qed.

Lemma upto_ext f g s : (forall c, f c = g c) -> upto f s = upto g s /\ from f s = from g s.
Proof. intros E. induction s as [|c s [IH1 IH2]]; [done|]. cbn. rewrite E. destruct (g c); [done|]. by rewrite IH1, IH2. Qed.

Lemma split_seps s : names s = names (skipw is_path_sep s).
Proof.
  induction s as [|c s IH]; [done|]. cbn [skipw]. unfold is_path_sep at 1. destruct (c =? 47) eqn:E; [|done]. rewrite <- IH. unfold names. cbn [split_on]. rewrite E.
  rewrite filter_cons_False; [done|]. by intros [].
Qed.

Lemma names_cons c s : none (Z.eqb 47) c -> c <> [] -> (s = [] \/ exists r, s = 47 :: r) ->
  names (c ++ s) = (if beq c (lit ".") then [] else [c]) ++ names s.
Proof.
  intros Hc Hne Hs. unfold names. assert (filter (fun c => c <> [] /\ c <> lit ".") [c] = if beq c (lit ".") then [] else [c]) as Hf.
  { destruct (beq c (lit ".")) eqn:E; [apply beq_true in E; rewrite filter_cons_False; [done|]; by intros [_ ?]|]. apply beq_false in E. by rewrite filter_cons_True. }
  destruct Hs as [->|(r & ->)].
  - rewrite app_nil_r, split_on_none by done. rewrite Hf. cbn [split_on]. rewrite filter_cons_False by (by intros []). by rewrite app_nil_r.
  - rewrite split_on_app by done. change (split_on 47 (47 :: r)) with ([] :: split_on 47 r). rewrite (filter_cons_False _ [] (split_on 47 r)) by (by intros []).
    rewrite filter_cons. rewrite <- Hf, filter_cons, filter_nil. by destruct (decide _).
Qed.


(** Removing the last name. *)
Lemma pop_comp_run p c : forall k, none (Z.eqb 47) c -> (length c <= k)%nat -> pop_comp k (p ++ 47 :: c) 1 = p ++ [47].
Proof.
  induction c as [|x c IH] using rev_ind; intros k Hc Hk.
  - pose proof (zlen_nonneg p). destruct k as [|k]; [done|]. cbn [pop_comp]. rewrite zlen_app, zlen_cons, zlen_nil. rewrite at_app_r by lia.
    replace (zlen p + (1 + 0) - 1 - zlen p) with 0 by lia. rewrite at_cons_0. cbn [is_path_sep Z.eqb Pos.eqb negb]. by rewrite andb_false_r.
  - rewrite length_app in Hk. cbn [length] in Hk. destruct k as [|k]; [lia|]. apply Forall_app in Hc as [Hc Hx]. apply Forall_cons in Hx as [Hx _]. cbn [pop_comp].
    pose proof (zlen_nonneg p). pose proof (zlen_nonneg c). rewrite zlen_app, zlen_cons, zlen_app, zlen_cons, zlen_nil. match goal with |- context [?a >? 1] => replace (a >? 1) with true by lia end.
    replace (zlen p + (1 + (zlen c + (1 + 0))) - 1) with (zlen (p ++ 47 :: c)) by zlia.
    replace (p ++ 47 :: c ++ [x]) with ((p ++ 47 :: c) ++ [x]) by (by rewrite <- app_assoc).
    rewrite at_app_r, Z.sub_diag, at_cons_0 by (pose proof (zlen_nonneg (p ++ 47 :: c)); lia).
    unfold is_path_sep. replace (x =? 47) with false by lia. cbn [negb andb]. rewrite take_app_le, firstn_all2 by (unfold zlen; lia). apply IH; [done|lia].
Qed.

Lemma slashed_app a b : slashed (a ++ b) = slashed a ++ slashed b.
Proof. induction a as [|c a IH]; cbn [app slashed]; [done|]. by rewrite IH, <- app_assoc. Qed.

Lemma pop_abs st : Forall good_name st -> st <> [] -> pop (abs_text st) 1 = abs_text (removelast st).
Proof.
  intros Hg Hne. destruct st as [|c st _] using rev_ind; [done|]. apply Forall_app in Hg as [Hg Hc]. apply Forall_cons in Hc as [(Hc0 & Hc & _) _]. rewrite removelast_last.
  assert (abs_text (st ++ [c]) = slashed st ++ 47 :: c) as ->.
  { transitivity (slashed (st ++ [c])); [by destruct st|]. rewrite slashed_app. cbn [slashed]. by rewrite app_nil_r. }
  unfold pop. rewrite pop_comp_run by (done || (rewrite length_app; cbn [length]; lia)). rewrite zlen_app, zlen_cons, zlen_nil. destruct st as [|d st]; [done|].
  cbn [slashed abs_text]. rewrite zlen_cons. pose proof (zlen_nonneg (d ++ slashed st)). match goal with |- context [?a >? 1] => replace (a >? 1) with true by lia end.
  match goal with |- take (Z.to_nat ?i) _ = _ => replace (Z.to_nat i) with (length (47 :: d ++ slashed st)) by (cbn [length]; unfold zlen in *; lia) end. by rewrite take_app_length.
Qed.

Lemma push_abs st c : Forall good_name st ->
  (if (zlen (abs_text st) >? 0) && negb (is_path_sep (abs_text st).[zlen (abs_text st) - 1]) then abs_text st ++ [47] else abs_text st) ++ c = abs_text (st ++ [c]).
Proof.
  intros Hg. destruct st as [|d st _] using rev_ind; [cbn; by rewrite app_nil_r|]. apply Forall_app in Hg as [_ Hd]. apply Forall_cons in Hd as [(Hd0 & Hd & _) _].
  assert (forall b, abs_text ((st ++ [d]) ++ b) = slashed st ++ 47 :: d ++ slashed b) as Ha.
  { intros b. transitivity (slashed ((st ++ [d]) ++ b)); [by destruct st|]. rewrite !slashed_app. cbn [slashed]. by rewrite app_nil_r, <- app_assoc. }
  destruct d as [|x d _] using rev_ind; [done|]. apply Forall_app in Hd as [_ Hx]. apply Forall_cons in Hx as [Hx _].
  assert (abs_text (st ++ [d ++ [x]]) = (slashed st ++ 47 :: d) ++ [x]) as ->.
  { rewrite <- (app_nil_r (st ++ [d ++ [x]])), Ha. cbn [slashed]. by rewrite app_nil_r, <- app_assoc. }
  rewrite Ha, zlen_app, zlen_cons, zlen_nil. cbn [slashed].
  pose proof (zlen_nonneg (slashed st ++ 47 :: d)). match goal with |- context [?a >? 0] => replace (a >? 0) with true by lia end. rewrite at_app_r by lia. match goal with |- context [[x].[?i]] => replace i with 0 by lia end. rewrite at_cons_0.
  unfold is_path_sep. replace (x =? 47) with false by lia. cbn [negb andb]. rewrite app_nil_r. repeat (rewrite <- ?app_assoc; cbn [app]). done.
Qed.

(** One turn of the component loop. *)
Lemma turn s : skipw is_path_sep s = [] /\ names s = [] \/
  exists c r, upto is_path_sep (skipw is_path_sep s) = c /\ from is_path_sep (skipw is_path_sep s) = r /\ c <> [] /\ none (Z.eqb 47) c /\
    (r = [] \/ exists r', r = 47 :: r') /\ names s = (if beq c (lit ".") then [] else [c]) ++ names r /\
    zlen c + zlen r <= zlen s /\ ((exists s', s = 47 :: s') -> zlen c + zlen r < zlen s) /\ (length r < length s)%nat.
Proof.
  destruct (skipw_split is_path_sep s) as (a & Ea & Ha). rewrite split_seps. remember (skipw is_path_sep s) as z eqn:Ez. destruct z as [|x z]; [by left|right].
  assert (is_path_sep x = false) as Hx.
  { clear -Ez. induction s as [|y s IH]; [done|]. cbn [skipw] in Ez. destruct (is_path_sep y) eqn:E; [by apply IH|]. by injection Ez as -> ->. }
  set (c := upto is_path_sep (x :: z)). set (r := from is_path_sep (x :: z)). exists c, r.
  pose proof (upto_from is_path_sep (x :: z)) as Ecr. fold c r in Ecr.
  assert (c <> []) as Hc0 by (unfold c; cbn [upto]; by rewrite Hx).
  assert (none (Z.eqb 47) c) as Hc by (eapply none_weaken; [|apply upto_none]; unfold is_path_sep; intros y; lia).
  assert (r = [] \/ exists r', r = 47 :: r') as Hr.
  { destruct (from_head is_path_sep (x :: z)) as [E|(y & r' & E & Hy)]; [by left|right; exists r']. fold r in E. unfold is_path_sep in Hy. rewrite E. f_equal. lia. }
  pose proof (f_equal zlen Ecr) as El. rewrite zlen_app in El. pose proof (f_equal zlen Ea) as El2. rewrite zlen_app in El2. pose proof (zlen_nonneg a).
  assert (0 < zlen c) by (destruct c as [|y c']; [done|]; rewrite zlen_cons; pose proof (zlen_nonneg c'); lia).
  split_and!; try done; try lia.
  - rewrite <- Ecr. by apply names_cons.
  - intros (s' & ->). destruct a as [|y a]; [by injection Ea as <- _|]. pose proof (zlen_cons y a). pose proof (zlen_nonneg a). lia.
  - unfold zlen in *. lia.
Qed.

Definition next_ok (s out : bytes) : Prop := out = [47] \/ out = [] \/ s = [] \/ exists s', s = 47 :: s'.

Lemma good_walk st c : Forall good_name st -> c <> [] -> none (Z.eqb 47) c -> c <> lit "." -> Forall good_name (walk1 st c).
Proof.
  intros Hst Hc0 Hc Hd. unfold walk1. destruct (beq c (lit "..")) eqn:E.
  - destruct st as [|d st _] using rev_ind; [constructor|]. rewrite removelast_last. by apply Forall_app in Hst as [? _].
  - apply beq_false in E. apply Forall_app. split; [done|]. by repeat constructor.
Qed.

Lemma abs_longer st : Forall good_name st -> st <> [] -> 1 < zlen (abs_text st).
Proof.
  intros Hst Hne. destruct st as [|d st]; [done|]. apply Forall_cons in Hst as [(Hd & _) _]. cbn [abs_text slashed]. destruct d as [|y d]; [done|].
  cbn [app]. rewrite !zlen_cons. pose proof (zlen_nonneg (d ++ slashed st)). lia.
Qed.

Lemma push_longer st c : Forall good_name st -> zlen (abs_text (st ++ [c])) <= zlen (abs_text st) + 1 + zlen c /\ (st = [] -> zlen (abs_text (st ++ [c])) = 1 + zlen c).
Proof.
  intros Hst. rewrite <- push_abs by done. rewrite zlen_app. split; [destruct (_ && _); rewrite ?zlen_app, ?zlen_cons, ?zlen_nil; lia|]. intros ->. cbn. by rewrite zlen_cons, zlen_nil.
Qed.

Lemma pop_shorter st : Forall good_name st -> st <> [] -> zlen (abs_text (removelast st)) <= zlen (abs_text st).
Proof.
  intros Hst Hne. destruct st as [|d st _] using rev_ind; [done|]. rewrite removelast_last. apply Forall_app in Hst as [Hst _]. rewrite <- push_abs by done. rewrite zlen_app.
  pose proof (zlen_nonneg d). destruct (_ && _); rewrite ?zlen_app, ?zlen_cons, ?zlen_nil; lia.
Qed.

Lemma norm_abs fuel n s st : (length s < fuel)%nat -> Forall good_name st -> zlen (abs_text st) + zlen s <= n -> next_ok s (abs_text st) ->
  norm_loop fuel (n + 4) true 1 s (abs_text st) false = Ret (abs_text (fold_left walk1 (names s) st), false) /\ Forall good_name (fold_left walk1 (names s) st) /\
  zlen (abs_text (fold_left walk1 (names s) st)) <= n.
Proof.
  revert s st. induction fuel as [|fuel IH]; intros s st Hf Hst Hn Hok; [lia|]. cbn [norm_loop]. pose proof (zlen_nonneg s).
  destruct s as [|x0 s0] eqn:Es; [change (names []) with (@nil bytes); cbn [fold_left]; split_and!; [done|done|rewrite zlen_nil in Hn; lia]|]. rewrite <- Es in *. clear Es x0 s0.
  destruct (turn s) as [[E En]|(c & r & Ec & Er & Hc0 & Hc & Hr & En & Hz & Hz' & Hl)].
  - rewrite E, En. cbn [fold_left upto]. split_and!; [done|done|lia].
  - assert (0 < zlen c) as Hcp by (destruct c as [|y c']; [done|]; rewrite zlen_cons; pose proof (zlen_nonneg c'); lia).
    rewrite Ec, Er, En. replace (zlen c =? 0) with false by lia. pose proof (zlen_nonneg r). destruct (beq c (lit ".")) eqn:E1; [apply IH; [lia|done|lia|by right; right]|]. apply beq_false in E1. cbn [app fold_left].
    pose proof (good_walk st c Hst Hc0 Hc E1) as Hg. unfold walk1 in Hg. change (fold_left walk1 (names r) (walk1 st c)) with (fold_left walk1 (names r) (if beq c (lit "..") then removelast st else st ++ [c])).
    destruct (beq c (lit "..")) eqn:E2.
    + apply beq_true in E2 as ->. destruct st as [|d st'] eqn:Est.
      * change (zlen (abs_text []) >? 1) with false. cbn [negb orb]. apply (IH r []); [lia|done|lia|by right; right].
      * rewrite <- Est in *. assert (st <> []) as Hne by (by subst). clear Est d st'. pose proof (abs_longer st Hst Hne). replace (zlen (abs_text st) >? 1) with true by lia.
        rewrite pop_abs by done. pose proof (pop_shorter st Hst Hne). apply IH; [lia|done|lia|by right; right].
    + rewrite push_abs by done. pose proof (push_longer st c Hst) as [Hl1 Hl2].
      assert (zlen (abs_text (st ++ [c])) + zlen r <= n) as Hn'.
      { destruct Hok as [Ho|[Ho|[Ho|Ho]]]; [|by destruct st| |specialize (Hz' Ho); lia]; [|subst s; rewrite zlen_nil in Hz; lia].
        assert (st = []) as -> by (destruct st as [|d st']; [done|]; apply Forall_cons in Hst as [(Hd & _) _]; by destruct d). rewrite Hl2 by done. cbn [abs_text] in Hn. rewrite zlen_cons, zlen_nil in Hn. lia. }
      match goal with |- context [?a >? n + 4] => replace (a >? n + 4) with false by lia end. apply IH; [lia|done|done|by right; right].
Qed.

Lemma pop_le out r : zlen (pop out r) <= zlen out.
Proof.
  assert (forall k out, zlen (pop_comp k out r) <= zlen out) as Hk.
  { induction k as [|k IH]; intros o; cbn [pop_comp]; [lia|]. destruct (_ && _); [|lia]. specialize (IH (take (Z.to_nat (zlen o - 1)) o)). rewrite zlen_take in IH. lia. }
  unfold pop. specialize (Hk (length out) out). destruct (_ >? r); [rewrite zlen_take|]; lia.
Qed.

(** Without a current directory the loop is still safe, and its result is marked. *)
Lemma norm_rel fuel n s out : (length s < fuel)%nat -> zlen out + zlen s <= n -> (out = [] \/ s = [] \/ exists s', s = 47 :: s') ->
  exists out', norm_loop fuel (n + 4) false 0 s out true = Ret (out', true) /\ zlen out' <= n.
Proof.
  revert s out. induction fuel as [|fuel IH]; intros s out Hf Hn Hok; [lia|]. cbn [norm_loop]. pose proof (zlen_nonneg s).
  destruct s as [|x0 s0] eqn:Es; [exists out; split; [done|rewrite zlen_nil in Hn; lia]|]. rewrite <- Es in *. assert (s <> []) as Hs0 by (by subst). clear Es x0 s0.
  destruct (turn s) as [[E _]|(c & r & Ec & Er & Hc0 & Hc & Hr & _ & Hz & Hz' & Hl)]; [rewrite E; cbn [upto]; exists out; split; [done|lia]|].
  assert (0 < zlen c) as Hcp by (destruct c as [|y c']; [done|]; rewrite zlen_cons; pose proof (zlen_nonneg c'); lia).
  rewrite Ec, Er. replace (zlen c =? 0) with false by lia. destruct (beq c (lit ".")); [apply IH; [lia|lia|auto]|]. pose proof (pop_le out 0).
  destruct (beq c (lit "..")); [destruct (zlen out >? 0); cbn [negb orb]; apply IH; auto; lia|]. set (out' := if (zlen out >? 0) && negb (is_path_sep out.[zlen out - 1]) then out ++ [47] else out).
  assert (zlen (out' ++ c) + zlen r <= n) as Hn'.
  { rewrite zlen_app. unfold out'. destruct Hok as [->|[?|Ho]]; [change (zlen (@nil Z)) with 0 in *; cbn [Z.gtb Z.compare andb]; rewrite zlen_nil; lia|done|specialize (Hz' Ho); destruct (_ && _); rewrite ?zlen_app, ?zlen_cons, ?zlen_nil; lia]. }
  pose proof (zlen_nonneg r). match goal with |- context [?a >? n + 4] => replace (a >? n + 4) with false by lia end. apply IH; [lia|lia|auto].
Qed.

(** The absolute path that a spelling denotes; [None] for a relative one without a current
    directory. *)
Definition denotes (cwd : bytes + Z) (path : bytes) : option bytes :=
  match path with
  | c :: _ => if c =? 47 then Some path else match cwd with inl d => Some (d ++ 47 :: path) | inr _ => None end
  | [] => None
  end.

Lemma denotes_cstr cwd path p : cstr_ok path -> (forall d, cwd = inl d -> cstr_ok d) -> denotes cwd path = Some p -> cstr_ok p.
Proof.
  intros Hcs Hcwd Ed. destruct path as [|c path]; [done|]. cbn [denotes] in Ed. destruct (c =? 47); [by injection Ed as <-|]. destruct cwd as [d|]; [|done]. injection Ed as <-.
  apply cstr_app. split; [by apply Hcwd|]. by apply cstr_cons.
Qed.

Lemma rdc_first c s : rdc (c :: s) 0 = Ret c.
Proof. rewrite rdc_ok by (rewrite zlen_cons; pose proof (zlen_nonneg s); lia). rewrite zlen_cons. pose proof (zlen_nonneg s). replace (0 =? 1 + zlen s) with false by lia. by rewrite at_cons_0. Qed.

(** After a relative path was put behind the current directory. *)
Lemma norm_start cwd path p : cstr_ok path -> path <> [] -> denotes cwd path = Some p -> normalize_path cwd path =
  let! c0 := rdc p 0 in
  let rooted := (zlen p >? 0) && is_path_sep c0 in
  let out := if rooted then [47] else [] in
  let! r := norm_loop (S (length p)) (zlen p + 4) rooted (zlen out) (if rooted then skipw is_path_sep p else p) out false in
  let root := (rooted && (zlen r.1 =? zlen out)) || r.2 in
  let out := if zlen r.1 =? 0 then [46] else r.1 in
  if zlen out >=? zlen p + 4 then Fault OutOfBounds else Ret (out, {| is_root := root; unresolved := r.2; err := 0 |}).
Proof.
  intros Hcs Hne Hp. destruct path as [|c path]; [done|]. apply cstr_cons in Hcs as [Hc _]. unfold normalize_path. rewrite rdc_first. cbn [rbind].
  replace (c =? 0) with false by lia. cbn [negb andb]. cbn [denotes] in Hp. unfold is_path_sep at 1. destruct (c =? 47); cbn [negb].
  - injection Hp as <-. destruct (rdc _ 0); [cbn [rbind]|done]. by destruct (norm_loop _ _ _ _ _ _ _) as [[o u]|].
  - destruct cwd as [d|e]; [|done]. injection Hp as <-. cbn [join_cwd]. destruct (rdc _ 0); [cbn [rbind]|done]. by destruct (norm_loop _ _ _ _ _ _ _) as [[o u]|].
Qed.

Lemma normalize_abs cwd path p : cstr_ok path -> (forall d, cwd = inl d -> exists d', d = 47 :: d') -> path <> [] -> denotes cwd path = Some p ->
  normalize_path cwd path = Ret (abs_text (resolve p), {| is_root := bool_decide (resolve p = []); unresolved := false; err := 0 |}) /\ Forall good_name (resolve p).
Proof.
  intros Hcs Hcwd Hne Hp. assert (exists p', p = 47 :: p') as (p' & Ep).
  { destruct path as [|c path]; [done|]. cbn [denotes] in Hp. destruct (c =? 47) eqn:E; [injection Hp as <-; exists path; f_equal; lia|].
    destruct cwd as [d|e]; [|done]. destruct (Hcwd d eq_refl) as (d' & ->). injection Hp as <-. by exists (d' ++ 47 :: c :: path). }
  assert (names p = names (skipw is_path_sep p)) as En by apply split_seps.
  pose proof (norm_abs (S (length p)) (zlen p) (skipw is_path_sep p) []) as Hloop.
  assert (zlen (skipw is_path_sep p) < zlen p) as Hlen by (subst p; cbn [skipw is_path_sep Z.eqb Pos.eqb]; pose proof (skipw_le is_path_sep p'); rewrite zlen_cons; lia).
  destruct Hloop as (Erun & Hg & Hz); [unfold zlen in Hlen; lia|constructor|cbn [abs_text]; rewrite zlen_cons, zlen_nil; lia|by left|]. rewrite <- En in *. fold (resolve p) in Erun, Hg, Hz. split; [|done].
  rewrite (norm_start cwd path p) by done. subst p. rewrite rdc_first. cbn [rbind is_path_sep Z.eqb Pos.eqb]. pose proof (zlen_nonneg p'). rewrite zlen_cons in *.
  replace (1 + zlen p' >? 0) with true by lia. cbn [andb]. change (zlen [47]) with 1. change (abs_text []) with [47] in Erun. rewrite Erun. cbn [rbind fst snd]. set (st := resolve (47 :: p')) in *.
  assert ((zlen (abs_text st) =? 1) = bool_decide (st = [])) as ->.
  { destruct st as [|d st']; [done|]. pose proof (abs_longer (d :: st') Hg ltac:(done)). rewrite bool_decide_eq_false_2 by done. lia. }
  assert (0 < zlen (abs_text st)) by (destruct st as [|d st']; [done|]; pose proof (abs_longer (d :: st') Hg ltac:(done)); lia).
  replace (zlen (abs_text st) =? 0) with false by lia. replace (zlen (abs_text st) >=? 1 + zlen p' + 4) with false by lia. by rewrite orb_false_r.
Qed.

Lemma names_join a b : names (a ++ 47 :: b) = names a ++ names b.
Proof.
  unfold names. rewrite <- filter_app. f_equal. induction a as [|c a IH]; cbn [app split_on]; [done|]. destruct (c =? 47); [by rewrite IH|]. rewrite IH.
  destruct (split_on 47 a) as [|h tl] eqn:E; [|done]. clear -E. destruct a as [|x a]; cbn [split_on] in E; [done|]. destruct (x =? 47); [done|]. by destruct (split_on 47 a).
Qed.

Lemma names_slashed st : Forall good_name st -> names (slashed st) = st.
Proof.
  induction 1 as [|c st (Hc0 & Hc & Hd & _) Hst IH]; [done|]. cbn [slashed]. rewrite split_seps. cbn [skipw is_path_sep Z.eqb Pos.eqb].
  rewrite <- split_seps, names_cons by (done || (destruct st; [by left|right; by eexists])). rewrite (proj2 (beq_false _ _) Hd), IH. done.
Qed.

Lemma walk_good st acc : Forall good_name st -> fold_left walk1 st acc = acc ++ st.
Proof.
  intros Hst. revert acc. induction Hst as [|c st (_ & _ & _ & Hd) Hst IH]; intros acc; cbn [fold_left]; [by rewrite app_nil_r|].
  unfold walk1 at 2. rewrite (proj2 (beq_false _ _) Hd), IH, <- app_assoc. done.
Qed.

Lemma resolve_abs st : Forall good_name st -> resolve (abs_text st) = st.
Proof. intros Hst. destruct st as [|c st]; [done|]. unfold resolve. cbn [abs_text]. rewrite names_slashed by done. by rewrite walk_good. Qed.

Lemma resolve_join d path : resolve (d ++ 47 :: path) = fold_left walk1 (names path) (resolve d).
Proof. unfold resolve. by rewrite names_join, fold_left_app. Qed.

Lemma abs_cstr st : Forall (fun c => cstr_ok c) st -> cstr_ok (abs_text st).
Proof.
  intros Hst. assert (cstr_ok (slashed st)) as Hs by (induction Hst as [|c st Hc Hst IH]; [constructor|]; cbn [slashed]; apply cstr_cons; split; [done|]; by apply cstr_app).
  destruct st; [by repeat constructor|done].
Qed.

Lemma resolve_cstr p : cstr_ok p -> Forall (fun c => cstr_ok c) (resolve p).
Proof.
  intros Hp. assert (Forall (fun c => cstr_ok c) (names p)) as Hn.
  { apply Forall_forall. intros x [_ Hx]%list_elem_of_filter. revert x Hx. apply Forall_forall. induction Hp as [|c p Hc Hp IH]; cbn [split_on]; [by repeat constructor|]. destruct (c =? 47); [constructor; [constructor|done]|].
    destruct (split_on 47 p) as [|h tl]; [constructor; [apply cstr_cons; split; [done|constructor]|constructor]|]. apply Forall_cons in IH as [Hh Ht]. constructor; [by apply cstr_cons|done]. }
  unfold resolve. generalize (names p) Hn. clear. intros l Hl. assert (Forall (fun c => cstr_ok c) (@nil bytes)) as Ha by constructor. revert Ha. generalize (@nil bytes) as acc.
  induction Hl as [|c l Hc Hl IH]; intros acc Ha; cbn [fold_left]; [done|]. apply IH. unfold walk1. destruct (beq c _).
  - destruct acc as [|d acc _] using rev_ind; [constructor|]. rewrite removelast_last. by apply Forall_app in Ha as [? _].
  - apply Forall_app. split; [done|]. by apply Forall_singleton.
Qed.

Lemma normalize_rel e c path : 0 < c < 256 -> (c =? 47) = false ->
  exists np r, normalize_path (inr e) (c :: path) = Ret (np, r) /\ unresolved r = true /\ is_root r = true.
Proof.
  intros Hc E47. unfold normalize_path. rewrite rdc_first. cbn [rbind]. replace (negb (c =? 0) && negb (is_path_sep c)) with true by (unfold is_path_sep; rewrite E47; lia).
  cbn [join_cwd]. rewrite rdc_first. cbn [rbind]. replace ((zlen (c :: path) >? 0) && is_path_sep c) with false by (unfold is_path_sep; by rewrite E47, andb_false_r).
  destruct (norm_rel (S (length (c :: path))) (zlen (c :: path)) (c :: path) []) as (out & Er & Hz); [lia|rewrite zlen_nil; lia|by left|].
  change (zlen []) with 0. rewrite Er. cbn [rbind andb orb]. pose proof (zlen_nonneg path). rewrite zlen_cons in *.
  match goal with |- context [?a >=? ?b] => assert ((a >=? b) = false) as -> by (destruct (zlen out =? 0); [change (zlen [46]) with 1|]; lia) end.
  eexists _, _. split; [done|]. by split.
Qed.

(** The canonical spelling is canonical. *)
Lemma normalize_idem cwd path p r : cstr_ok path -> (forall d, cwd = inl d -> cstr_ok d /\ exists d', d = 47 :: d') -> path <> [] -> denotes cwd path = Some p ->
  normalize_path cwd path = Ret (abs_text (resolve p), r) -> normalize_path cwd (abs_text (resolve p)) = Ret (abs_text (resolve p), r).
Proof.
  intros Hcs Hcwd Hne Ed E. assert (forall d, cwd = inl d -> exists d', d = 47 :: d') as Habs by (intros d Hd; by apply Hcwd).
  pose proof (denotes_cstr cwd path p Hcs (fun d Hd => proj1 (Hcwd d Hd)) Ed) as Hp. destruct (normalize_abs cwd path p Hcs Habs Hne Ed) as [E1 Hg]. rewrite E1 in E. injection E as <-.
  destruct (normalize_abs cwd (abs_text (resolve p)) (abs_text (resolve p))) as [E' _]; [by apply abs_cstr, resolve_cstr|done|by destruct (resolve p)|by destruct (resolve p)|].
  by rewrite resolve_abs in E'.
Qed.

(** C30: The canonical spelling is exact.  For an absolute path, or a relative one behind the
    current directory, it is the text of the names that walking the path leaves: empty names and
    dots vanish, dot-dot removes a name and stays in the root directory; nothing is written outside
    the buffer.  The root flag is set exactly for the root directory, and the spelling
    is its own canonical spelling.  A relative path without a current directory
    is marked as unresolved and as the root, so every caller refuses it. *)
Theorem normalize_exact (cwd : bytes + Z) (path : bytes) :
  cstr_ok path -> path <> [] -> (forall d, cwd = inl d -> cstr_ok d /\ exists d', d = 47 :: d') ->
  exists np r, normalize_path cwd path = Ret (np, r) /\
    (forall p, denotes cwd path = Some p ->
       np = abs_text (resolve p) /\ Forall good_name (resolve p) /\ is_root r = bool_decide (resolve p = []) /\ unresolved r = false /\
       normalize_path cwd np = Ret (np, r) /\ (forall d, cwd = inl d -> p = d ++ 47 :: path -> resolve p = fold_left walk1 (names path) (resolve d))) /\
    (denotes cwd path = None -> unresolved r = true /\ is_root r = true).
Proof.
  intros Hcs Hne Hcwd. assert (forall d, cwd = inl d -> exists d', d = 47 :: d') as Habs by (intros d Hd; by apply Hcwd).
  destruct (denotes cwd path) as [p|] eqn:Ed.
  - destruct (normalize_abs cwd path p Hcs Habs Hne Ed) as [E Hg]. eexists _, _. split; [exact E|]. split; [|done]. intros p' [= <-]. split_and!; try done.
    + by apply (normalize_idem cwd path).
    + intros d -> ->. apply resolve_join.
  - destruct path as [|c path]; [done|]. cbn [denotes] in Ed. destruct (c =? 47) eqn:E47; [done|]. destruct cwd as [d|e]; [done|].
    destruct (normalize_rel e c path) as (np & r & E & H1 & H2); [by apply cstr_cons in Hcs as [? _]|done|]. by exists np, r.
Qed.

Lemma normalize_exact_witness :
  normalize_path (inl (lit "/home/u")) (lit "../../..//tmp/./a/b/..") = Ret (lit "/tmp/a", {| is_root := false; unresolved := false; err := 0 |}) /\
  exists np r, normalize_path (inl (lit "/home/u")) (lit "../..") = Ret (np, r) /\ is_root r = true.
Proof.
  split; [vm_compute; reflexivity|].
  destruct (normalize_exact (inl (lit "/home/u")) (lit "../..")) as (np & r & E & Ha & _).
  - apply (bool_decide_unpack _). vm_compute. exact I.
  - done.
  - intros d [= <-]. split; [apply (bool_decide_unpack _); vm_compute; exact I|by eexists].
  - exists np, r. split; [exact E|]. destruct (Ha _ eq_refl) as (_ & _ & Hr & _). rewrite Hr. vm_compute. reflexivity.
Defined.
