(* ===== verification/OidcSave.v ===== *)
(** * Saving and loading the server list (src/src/oidc/oidc_config.c)

    [oidc_save_config] as the sequence of its system calls.  The operating system is the record
    [OS]: each answer may depend on the calls made so far (the newest first), so
    other processes may change the file system between any two calls.  The build is the
    POSIX one. *)

From S2P Require Import Prelude Util Crypto Http Json OidcText Jwt Oidc OidcPath.
Import Scan.

(** ** System calls *)

Inductive call :=
  | Lstat (p : bytes)
  | Realpath (p : bytes)
  | Mkdir (p : bytes)
  | Create (p : bytes)             (* open with O_CREAT, O_EXCL and O_NOFOLLOW *)
  | Put (p : bytes)                (* fdopen, fputs, fflush, fsync and fclose *)
  | Rename (a b : bytes)
  | Unlink (p : bytes)
  | Sync (p : bytes)               (* fsync of a directory *)
  | Chown (p : bytes) (uid gid : Z).

Inductive kind := K_link | K_dir | K_reg | K_other.

Inductive lstat_answer :=
  | L_missing
  | L_error (e : Z)
  | L_is (k : kind) (nlink : Z).

Record OS := {
  os_lstat : list call -> bytes -> lstat_answer;
  os_realpath : list call -> bytes -> option bytes;
  os_mkdir : list call -> bytes -> Z;     (* 0, or the errno *)
  os_create : list call -> bytes -> bool;
  os_put : list call -> bytes -> bool;
  os_rename : list call -> bytes -> bytes -> bool;
  os_chown : list call -> bytes -> Z -> Z -> bool;
  os_cwd : bytes + Z;
  os_uid : Z;
  os_env : bytes -> option bytes;
  os_rand : nat -> Z
}.

Definition EEXIST : Z := 17.

(** Reasons for [oidc_die]. *)
Inductive refusal :=
  | R_empty | R_unresolved | R_root | R_too_long
  | R_component (prefix : bytes) (why : lstat_answer)
  | R_target (why : lstat_answer)
  | R_mkdir (p : bytes) | R_write | R_chown (p : bytes).

(** A computation that makes system calls. *)
Definition sys (A : Type) : Type := list call -> res ((A + refusal) * list call).

Definition sret {A} (a : A) : sys A := fun l => Ret (inl a, l).
Definition sdie {A} (r : refusal) : sys A := fun l => Ret (inr r, l).
Definition sbind {A B} (m : sys A) (k : A -> sys B) : sys B :=
  fun l => let! r := m l in match r with (inl a, l) => k a l | (inr d, l) => Ret (inr d, l) end.
Definition scall {A} (c : call) (f : list call -> A) : sys A := fun l => Ret (inl (f l), c :: l).

Notation "'let+' x ':=' m 'in' k" := (sbind m (fun x => k)) (at level 10, x name, m at level 100, k at level 200).

Section Save.
Context (o : OS).

Definition lstat (p : bytes) : sys lstat_answer := scall (Lstat p) (fun l => os_lstat o l p).
Definition mkdir (p : bytes) : sys Z := scall (Mkdir p) (fun l => os_mkdir o l p).

(** ** Checks *)

Definition oidc_config_dir_resolves_to_root (dir : bytes) : sys bool :=
  if zlen dir =? 0 then sret false
  else fun l =>
    let! r := normalize_path (os_cwd o) dir in
    let '(np, res) := r in
    if is_root res then Ret (inl true, l)
    else scall (Realpath np) (fun l => match os_realpath o l np with Some rp => beq rp (lit "/") | None => false end) l.

(** [config_dir_check]: every prefix that ends before a separator, and the whole.  A verdict
    other than [DIRCHK_OK] or [TGTCHK_OK] is a refusal. *)
Fixpoint dir_check_loop (k : nat) (dir : bytes) (i : Z) : sys (option refusal) :=
  match k with
  | O => sret None
  | S k =>
      if (i <? zlen dir) && negb (dir.[i] =? 47) then dir_check_loop k dir (i + 1)
      else
        let p := take (Z.to_nat i) dir in
        let+ a := lstat p in
        match a with
        | L_is K_dir _ | L_missing => dir_check_loop k dir (i + 1)
        | _ => sret (Some (R_component p a))
        end
  end.

Definition config_dir_check (dir : bytes) : sys (option refusal) :=
  let n := zlen dir in
  if (n =? 0) || (n >=? 4096) then sdie R_too_long else dir_check_loop (length dir) dir 1.

Definition config_target_check (path : bytes) : sys (option refusal) :=
  let+ a := lstat path in
  sret match a with
       | L_missing => None
       | L_is K_reg n => if n >? 1 then Some (R_target a) else None
       | _ => Some (R_target a)
       end.

(** The two [_die] functions, after the temporary file has been removed. *)
Definition refuse {A} (tmp_to_unlink : option bytes) (r : refusal) : sys A :=
  match tmp_to_unlink with
  | Some t => let+ u := scall (Unlink t) (fun _ => tt) in sdie r
  | None => sdie r
  end.

Definition config_dest_verify (path : bytes) (dir tmp_to_unlink : option bytes) : sys unit :=
  let+ bad := match dir with Some d => config_dir_check d | None => sret None end in
  match bad with
  | Some r => refuse tmp_to_unlink r
  | None =>
      let+ bad := config_target_check path in
      match bad with Some r => refuse tmp_to_unlink r | None => sret tt end
  end.

(** ** Directories *)

Fixpoint mkdir_loop (k : nat) (tmp : bytes) (i : Z) (created : bool) : sys bool :=
  match k with
  | O => sret created
  | S k =>
      if (i <? zlen tmp) && negb ((tmp.[i] =? 47) || (tmp.[i] =? 92)) then mkdir_loop k tmp (i + 1) created
      else
        let p := take (Z.to_nat i) tmp in
        let+ r := mkdir p in
        if r =? 0 then mkdir_loop k tmp (i + 1) true
        else if r =? EEXIST then mkdir_loop k tmp (i + 1) created
        else sdie (R_mkdir p)
  end.

Definition mkdir_p (path : bytes) : sys bool :=
  let n := zlen path in
  if (n =? 0) || (n >=? 4096) then sdie R_too_long
  else
    let tmp := if path.[n - 1] =? 47 then take (Z.to_nat (n - 1)) path else path in
    mkdir_loop (Nat.max 1 (length tmp)) tmp (Z.max 0 (Z.min 1 (zlen tmp))) false.

(** ** Ownership *)

Definition parse_sudo_id (s : option bytes) (max : Z) : option Z :=
  match s with
  | None => None
  | Some s =>
      if negb (isdigit (hd 0 s)) then None
      else
        let '(d, rest) := span_digits s in
        let v := digits_val d in
        if (v >? 2 ^ 64 - 1) || negb (zlen rest =? 0) || (v >? max) then None else Some v
  end.

(** [SUDO_ID_MAX] for 32-bit ids. *)
Definition SUDO_ID_MAX : Z := 2 ^ 32 - 2.

Definition restore_owner (path : bytes) (dir : option bytes) (dir_created : bool) : sys unit :=
  let su := os_env o (lit "SUDO_UID") in
  let sg := os_env o (lit "SUDO_GID") in
  match su, sg with
  | Some _, Some _ =>
      if negb (os_uid o =? 0) then sret tt
      else
        match parse_sudo_id su SUDO_ID_MAX, parse_sudo_id sg SUDO_ID_MAX with
        | Some uid, Some gid =>
            let+ a := lstat path in
            match a with
            | L_is K_reg _ =>
                let made := if dir_created then dir else None in
                let+ ok := match made with
                           | Some d => let+ b := lstat d in sret match b with L_is K_dir _ => true | _ => false end
                           | None => sret true
                           end in
                if negb ok then sdie (R_chown (default [] made))
                else
                  let+ ok := scall (Chown path uid gid) (fun l => os_chown o l path uid gid) in
                  if negb ok then sdie (R_chown path)
                  else
                    match made with
                    | Some d =>
                        let+ ok := scall (Chown d uid gid) (fun l => os_chown o l d uid gid) in
                        if ok then sret tt else sdie (R_chown d)
                    | None => sret tt
                    end
            | _ => sdie (R_chown path)
            end
        | _, _ => sret tt
        end
  | _, _ => sret tt
  end.

(** ** The save *)

Definition last_slash (path : bytes) : option Z :=
  match strrchr 92 path, strrchr 47 path with
  | Some b, Some s => if b >? s then Some b else Some s
  | Some b, None => Some b
  | None, s => s
  end.

Definition parent_of (path : bytes) : option bytes :=
  match last_slash path with Some i => if i =? 0 then None else Some (take (Z.to_nat i) path) | None => None end.

Definition tmp_name (path : bytes) (attempt : nat) : bytes := path ++ lit ".tmp." ++ hex8 (os_rand o attempt).

Fixpoint create_loop (k : nat) (path : bytes) (attempt : nat) : sys bytes :=
  match k with
  | O => sdie R_write
  | S k =>
      let tmp := tmp_name path attempt in
      let+ ok := scall (Create tmp) (fun l => os_create o l tmp) in
      if ok then sret tmp else create_loop k path (S attempt)
  end.

(** From the first check to the end, with the spelling and its parent decided. *)
Definition save_at (path : bytes) (dir : option bytes) : sys unit :=
  let+ u := config_dest_verify path dir None in
  let+ dir_created := match dir with Some d => mkdir_p d | None => sret false end in
  let+ u := config_dest_verify path dir None in
  let+ tmp := create_loop 8 path 0 in
  let+ ok := scall (Put tmp) (fun l => os_put o l tmp) in
  if negb ok then let+ u := scall (Unlink tmp) (fun _ => tt) in sdie R_write
  else
    let+ u := config_dest_verify path dir (Some tmp) in
    let+ ok := scall (Rename tmp path) (fun l => os_rename o l tmp path) in
    if negb ok then let+ u := scall (Unlink tmp) (fun _ => tt) in sdie R_write
    else
      let+ u := match dir with Some d => scall (Sync d) (fun _ => tt) | None => sret tt end in
      restore_owner path dir dir_created.

Definition oidc_save_config (path0 : bytes) (servers : option Json) : sys unit :=
  match servers with
  | Some (J_arr (_ :: _)) => fun l =>
      let! r := normalize_path (os_cwd o) path0 in
      let '(path, nres) := r in
      if unresolved nres then Ret (inr R_unresolved, l)
      else
        let dir := parent_of path in
        (let+ parent_is_root := match dir with
                                | None => sret (is_path_sep (hd 0 path))
                                | Some d => oidc_config_dir_resolves_to_root d
                                end in
         if is_root nres || parent_is_root then sdie R_root else save_at path dir) l
  | _ => sdie R_empty
  end.

End Save.

(** The spelling [main] hands to the save, the load and every message. *)
Definition oidc_config_canon_path (cwd : bytes + Z) (path : bytes) : res (bytes + refusal) :=
  let! r := normalize_path cwd path in
  let '(np, res) := r in
  if unresolved res then Ret (inr R_unresolved) else Ret (inl np).

(** * Specification of the save *)

Section Spec.
Context (o : OS) (path : bytes) (dir : option bytes).

(** Among the calls [k] made after [l], an lstat of [p] answered as [P] says. *)
Definition seen (k l : list call) (p : bytes) (P : lstat_answer -> Prop) : Prop :=
  exists k1 k2, k = k1 ++ Lstat p :: k2 /\ P (os_lstat o (k2 ++ l) p).

(** Every component of the directory was missing or a real directory, and the target was missing
    or a file with one name. *)
Definition verified (k l : list call) : Prop :=
  (forall d i, dir = Some d -> 1 <= i <= zlen d -> i = zlen d \/ d.[i] = 47 ->
     seen k l (take (Z.to_nat i) d) (fun a => a = L_missing \/ exists n, a = L_is K_dir n)) /\
  seen k l path (fun a => a = L_missing \/ exists n, a = L_is K_reg n /\ n <= 1).

Definition is_lstat (c : call) : bool := match c with Lstat _ => true | _ => false end.

(** The call [c] is in the log and succeeded. *)
Definition did (c : call) (ok : list call -> bool) (l : list call) : Prop := exists l1 l2, l = l1 ++ c :: l2 /\ ok l2 = true.

(** [p] is the directory or what precedes a separator in it, where a backslash counts as one. *)
Definition piece (p : bytes) : Prop := exists d i, dir = Some d /\ p = take (Z.to_nat i) d /\ (i = zlen d \/ d.[i] = 47 \/ d.[i] = 92).

(** A call of [mkdir] that made the directory or a piece of it. *)
Definition made_dir (l : list call) : Prop := exists p, piece p /\ did (Mkdir p) (fun l => os_mkdir o l p =? 0) l.

Definition created (l : list call) (tmp : bytes) : Prop := did (Create tmp) (fun l => os_create o l tmp) l.

(** The whole text was written to [tmp]. *)
Definition written (l : list call) (tmp : bytes) : Prop := did (Put tmp) (fun l => os_put o l tmp) l.

(** [tmp] took the place of the saved file. *)
Definition replaced (l : list call) (tmp : bytes) : Prop := did (Rename tmp path) (fun l => os_rename o l tmp path) l.

Definition checked (l : list call) : Prop := exists k l2, l = k ++ l2 /\ verified k l2.

(** What the program may do to the file system after the calls [l]. *)
Definition allowed (c : call) (l : list call) : Prop :=
  match c with
  | Lstat _ | Realpath _ | Sync _ => True
  | Mkdir p => checked l /\ piece p
  | Create p => checked l /\ exists n, p = tmp_name o path n
  | Put p => created l p
  | Unlink p => created l p
  | Rename a b => b = path /\ exists k l2, l = k ++ l2 /\ Forall (fun c => is_lstat c = true) k /\ verified k l2 /\ created l2 a /\ written l2 a
  | Chown p _ _ => (exists a, replaced l a) /\ (p = path \/ dir = Some p /\ made_dir l)
  end.

Definition Inv (l : list call) : Prop := forall l1 c l2, l = l1 ++ c :: l2 -> allowed c l2.

(** A call that may change the file system. *)
Definition acting (c : call) : bool := match c with Lstat _ | Realpath _ => false | _ => true end.

(** No temporary file is left: it was renamed or removed. *)
Definition tidy (l : list call) : Prop := forall tmp, created l tmp -> Unlink tmp ∈ l \/ replaced l tmp.

End Spec.

(** * Proofs *)

Section Hoare.

(** [m] from a log with [P] ends with [Q], or is refused with [E]. *)
Definition hoare {A} (P : list call -> Prop) (m : sys A) (Q : A -> list call -> Prop) (E : refusal -> list call -> Prop) : Prop :=
  forall l, P l -> exists r l', m l = Ret (r, l') /\ match r with inl a => Q a l' | inr d => E d l' end.

Lemma hoare_ret {A} (a : A) (P : list call -> Prop) Q E : (forall l, P l -> Q a l) -> hoare P (sret a) Q E.
Proof. intros H l Hl. eexists _, _. split; [done|]. by apply H. Qed.

Lemma hoare_die {A} r (P : list call -> Prop) (E : refusal -> list call -> Prop) (Q : A -> list call -> Prop) : (forall l, P l -> E r l) -> hoare P (sdie r) Q E.
Proof. intros H l Hl. eexists _, _. split; [done|]. by apply H. Qed.

Lemma hoare_call {A} c (f : list call -> A) (P : list call -> Prop) Q E : (forall l, P l -> Q (f l) (c :: l)) -> hoare P (scall c f) Q E.
Proof. intros H l Hl. eexists _, _. split; [done|]. by apply H. Qed.

Lemma hoare_bind {A B} (m : sys A) (k : A -> sys B) P Q R E : hoare P m Q E -> (forall a, hoare (Q a) (k a) R E) -> hoare P (sbind m k) R E.
Proof.
  intros Hm Hk l Hl. destruct (Hm l Hl) as ([a|d] & l' & E1 & H1); unfold sbind; rewrite E1; cbn [rbind]; [by apply Hk|by eexists _, _].
Qed.

Lemma hoare_pre {A} (P P' : list call -> Prop) (m : sys A) Q E : (forall l, P l -> P' l) -> hoare P' m Q E -> hoare P m Q E.
Proof. intros H Hm l Hl. by apply Hm, H. Qed.

Lemma hoare_post {A} P (m : sys A) (Q Q' : A -> list call -> Prop) (E E' : refusal -> list call -> Prop) :
  hoare P m Q E -> (forall a l, Q a l -> Q' a l) -> (forall d l, E d l -> E' d l) -> hoare P m Q' E'.
Proof. intros Hm HQ HE l Hl. destruct (Hm l Hl) as (r & l' & E1 & H1). exists r, l'. split; [done|]. destruct r; auto. Qed.

Lemma did_cons c ok c' l : did c ok (c' :: l) <-> did c ok l \/ (c' = c /\ ok l = true).
Proof.
  split.
  - intros ([|c0 l1] & l2 & E & H); [injection E as -> ->; by right|]. injection E as _ ->. left. by exists l1, l2.
  - intros [(l1 & l2 & -> & H)|[-> H]]; [by exists (c' :: l1), l2|by exists [], l].
Qed.

Lemma did_app c ok k l : did c ok l -> did c ok (k ++ l).
Proof. intros (l1 & l2 & -> & H). exists (k ++ l1), l2. by rewrite <- app_assoc. Qed.

End Hoare.

Section Proofs.
Context (o : OS) (path : bytes) (dir : option bytes).
Context (Hfit : forall d, dir = Some d -> 0 < zlen d < 4096).

Local Abbreviation Inv := (Inv o path dir).
Local Abbreviation allowed := (allowed o path dir).
Local Abbreviation created := (created o).
Local Abbreviation replaced := (replaced o path).
Local Abbreviation checked := (checked o path dir).

(** The log is [l0] with the lstat calls [k] on top, and [R k]. *)
Definition since (l0 : list call) (R : list call -> Prop) (l : list call) : Prop := exists k, l = k ++ l0 /\ Forall (fun c => is_lstat c = true) k /\ R k.

Lemma since_weak l0 (R R' : list call -> Prop) l : (forall k, R k -> R' k) -> since l0 R l -> since l0 R' l.
Proof. intros HR (k & -> & Hk & H). exists k. auto. Qed.

Lemma seen_cons c k l p P : seen o k l p P -> seen o (c :: k) l p P.
Proof. intros (k1 & k2 & -> & HP). by exists (c :: k1), k2. Qed.

Lemma seen_now k l p (P : lstat_answer -> Prop) : P (os_lstat o (k ++ l) p) -> seen o (Lstat p :: k) l p P.
Proof. intros HP. by exists [], k. Qed.

Lemma hoare_lstat {A} l0 p (R R' : list call -> Prop) (f : lstat_answer -> sys A) Q E :
  (forall a, hoare (since l0 (fun k => R' k /\ exists k', k = Lstat p :: k' /\ os_lstat o (k' ++ l0) p = a)) (f a) Q E) ->
  (forall k, R k -> R' (Lstat p :: k)) -> hoare (since l0 R) (sbind (lstat o p) f) Q E.
Proof.
  intros Hf HR l (k & -> & Hk & Hr). unfold sbind, lstat, scall. cbn [rbind]. apply Hf. exists (Lstat p :: k). split; [done|]. split; [by constructor|]. split; [by apply HR|by exists k].
Qed.

Definition dir_ok (a : lstat_answer) : Prop := a = L_missing \/ exists n, a = L_is K_dir n.
Definition file_ok (a : lstat_answer) : Prop := a = L_missing \/ exists n, a = L_is K_reg n /\ n <= 1.
Definition walked (d : bytes) (i : Z) (l0 k : list call) : Prop := forall j, 1 <= j < i -> j = zlen d \/ d.[j] = 47 -> seen o k l0 (take (Z.to_nat j) d) dir_ok.

(** A verdict is [None], or a refusal that is not about ownership. *)
Definition early (v : option refusal) : Prop := forall p, v <> Some (R_chown p).

Lemma dir_check_hoare d l0 n i : 1 <= i -> i + Z.of_nat n = zlen d + 1 ->
  hoare (since l0 (walked d i l0)) (dir_check_loop o n d i) (fun v => since l0 (fun k => early v /\ (v = None -> walked d (zlen d + 1) l0 k))) (fun _ _ => False).
Proof.
  revert i. induction n as [|n IH]; intros i Hi Hn; cbn [dir_check_loop].
  { apply hoare_ret. intros l. apply since_weak. intros k Hk. split; [done|]. by replace (zlen d + 1) with i by lia. }
  destruct ((i <? zlen d) && negb (d.[i] =? 47)) eqn:E.
  - eapply hoare_pre; [|apply IH; lia]. intros l. apply since_weak. intros k Hw j Hj Hb. apply Hw; [|done]. assert (j <> i) by (intros ->; lia). lia.
  - set (p := take (Z.to_nat i) d). eapply (hoare_lstat l0 _ _ (walked d i l0)); [|intros k Hw j Hj Hb; by apply seen_cons, Hw]. intros a. set (R := fun k => _ /\ _).
    assert (hoare (since l0 R) (sret (Some (R_component p a))) (fun v => since l0 (fun k => early v /\ (v = None -> walked d (zlen d + 1) l0 k))) (fun _ _ => False)) as Hbad
      by (apply hoare_ret; intros l; by apply since_weak).
    assert (dir_ok a -> hoare (since l0 R) (dir_check_loop o n d (i + 1)) (fun v => since l0 (fun k => early v /\ (v = None -> walked d (zlen d + 1) l0 k))) (fun _ _ => False)) as Hgo.
    { intros Ha. eapply hoare_pre; [|apply IH; lia]. intros l. apply since_weak. intros k [Hw (k' & -> & Hans)] j Hj Hb.
      destruct (decide (j = i)) as [->|]; [apply (seen_now k' l0 p); by rewrite Hans|]. apply Hw; [lia|done]. }
    destruct a as [|e|[| | |] nl]; try exact Hbad; apply Hgo; [by left|right; by eexists].
Qed.

Lemma target_hoare l0 R : (forall c k, R k -> R (c :: k)) ->
  hoare (since l0 R) (config_target_check o path) (fun v => since l0 (fun k => early v /\ (v = None -> R k /\ seen o k l0 path file_ok))) (fun _ _ => False).
Proof.
  intros HR. unfold config_target_check. eapply (hoare_lstat l0 _ _ R); [|auto]. intros a. apply hoare_ret. intros l. apply since_weak. intros k (Hr & k' & -> & Hans).
  assert (file_ok a -> seen o (Lstat path :: k') l0 path file_ok) as Hok by (intros; apply seen_now; by rewrite Hans).
  destruct a as [|e|[| | |] nl]; try done; [by split; [|intros _; split; [|apply Hok; left]]|]. destruct (nl >? 1) eqn:E; [done|]. split; [done|]. intros _. split; [done|]. apply Hok. right. exists nl. split; [done|lia].
Qed.

(** Refusals of the check remove the temporary file. *)
Definition removed (tmp : option bytes) (l0 : list call) (d : refusal) (l : list call) : Prop :=
  early (Some d) /\ match tmp with Some t => exists l', l = Unlink t :: l' /\ since l0 (fun _ => True) l' | None => since l0 (fun _ => True) l end.

Lemma refuse_hoare {A} tmp r l0 R (Q : A -> list call -> Prop) : hoare (since l0 (fun k => early (Some r) /\ R k)) (refuse tmp r) Q (removed tmp l0).
Proof.
  intros l (k & -> & Hk & He & _). destruct tmp as [t|]; eexists _, _; (split; [done|]); (split; [done|]); [eexists; split; [done|]|]; by exists k.
Qed.

Lemma verify_hoare tmp l0 : hoare (eq l0) (config_dest_verify o path dir tmp) (fun _ => since l0 (fun k => verified o path dir k l0)) (removed tmp l0).
Proof.
  unfold config_dest_verify. set (W k := forall d, dir = Some d -> walked d (zlen d + 1) l0 k). eapply (hoare_bind _ _ _ (fun v => since l0 (fun k => early v /\ (v = None -> W k)))).
  - unfold W. destruct dir as [d|]; [|apply hoare_ret; intros l <-; by exists []]. unfold config_dir_check. specialize (Hfit d eq_refl). replace (_ || _) with false by lia.
    eapply hoare_post; [eapply hoare_pre; [|apply (dir_check_hoare d l0 _ 1); [lia|unfold zlen; lia]]| |done].
    + intros l <-. exists []. split_and!; [done|constructor|]. intros j Hj. lia.
    + intros v l. apply since_weak. intros k [He Hw]. split; [done|]. intros Hv d' [= <-]. auto.
  - intros [r|]; [apply refuse_hoare|]. eapply (hoare_bind _ _ _ (fun v => since l0 (fun k => early v /\ (v = None -> W k /\ seen o k l0 path file_ok)))).
    + eapply hoare_post; [eapply hoare_pre; [|apply (target_hoare l0 W)]|done|done]; [intros l; apply since_weak; intros k [_ Hw]; auto|]. intros c k Hk d Hd j Hj Hb. apply seen_cons. by apply Hk.
    + intros [r|]; [apply refuse_hoare|]. apply hoare_ret. intros l. apply since_weak. intros k [_ Hw]. destruct (Hw eq_refl) as [Hd Hs]. split; [|exact Hs].
      intros d i Hdd Hi Hb. apply (Hd d Hdd); [lia|done].
Qed.

(** ** The invariant along the run *)

Lemma Inv_cons c l : Inv l -> allowed c l -> Inv (c :: l).
Proof. intros Hl Hc [|c' l1] c0 l2 E; [by injection E as <- <-|]. injection E as _ ->. by apply (Hl l1). Qed.

Lemma Inv_since l0 R l : Inv l0 -> since l0 R l -> Inv l.
Proof. intros H0 (k & -> & Hk & _). induction Hk as [|c k Hc Hk IH]; [done|]. apply Inv_cons; [done|]. by destruct c. Qed.

(** A rename is of a file the program made. *)
Lemma replaced_created l t : Inv l -> replaced l t -> created l t.
Proof.
  intros Hi (l1 & l2 & -> & _). destruct (Hi l1 _ l2 eq_refl) as (_ & k & l3 & -> & _ & _ & Hc & _).
  change (l1 ++ Rename t path :: k ++ l3) with (l1 ++ (Rename t path :: k) ++ l3). rewrite app_assoc. by apply did_app.
Qed.

Lemma checked_cons c l : checked l -> checked (c :: l).
Proof. intros (k & l2 & -> & Hd & Hp). exists (c :: k), l2. split; [done|]. split; [|by apply seen_cons]. intros d i H1 H2 H3. apply seen_cons. by apply Hd. Qed.

Lemma made_cons c l : made_dir o dir l -> made_dir o dir (c :: l).
Proof. intros (p & Hp & H). exists p. split; [done|]. apply did_cons. by left. Qed.

(** An lstat changes nothing. *)
Lemma did_since l0 R l c ok : is_lstat c = false -> since l0 R l -> did c ok l <-> did c ok l0.
Proof.
  intros Hc (k & -> & Hk & _). induction Hk as [|c' k Hc' Hk IH]; [done|]. cbn [app]. rewrite did_cons, IH. split; [|by left]. intros [?|[-> _]]; [done|congruence].
Qed.

(** Facts that stay true when calls are added. *)
Definition stable (F : list call -> Prop) : Prop := forall c l, F l -> F (c :: l).

Lemma stable_since F l0 R l : stable F -> F l0 -> since l0 R l -> F l.
Proof. intros HF H0 (k & -> & _). induction k as [|c k IH]; [done|]. by apply HF. Qed.

Lemma stable_did c ok : stable (did c ok).
Proof. intros c' l H. apply did_cons. by left. Qed.

(** The end of a run: a refusal leaves the saved file as it was, unless it is about ownership. *)
Definition final (l : list call) : Prop := Inv l /\ tidy o path l.

Definition refused (d : refusal) (l : list call) : Prop := final l /\ ((forall t, ~ replaced l t) \/ exists p, d = R_chown p).

(** Before the temporary file exists. *)
Definition clean_log (F : list call -> Prop) (l : list call) : Prop := Inv l /\ (forall t, ~ created l t) /\ F l.

Lemma clean_log_cons F c l : stable F -> clean_log F l -> allowed c l -> (forall t, c = Create t -> os_create o l t = false) -> clean_log F (c :: l).
Proof.
  intros HF (Hi & Hn & Hf) Ha Hc. split_and!; [by apply Inv_cons| |by apply HF]. intros t [Ht|[-> Ht]]%did_cons; [by apply (Hn t)|]. specialize (Hc t eq_refl). congruence.
Qed.

Lemma clean_since F l0 R l : stable F -> clean_log F l0 -> since l0 R l -> clean_log F l.
Proof.
  intros HF (Hi & Hn & Hf) Hs. split_and!; [by eapply Inv_since| |by eapply stable_since]. intros t Ht. apply (Hn t). by apply (did_since l0 R l).
Qed.

Lemma clean_refused F d l : clean_log F l -> refused d l.
Proof. intros (Hi & Hn & _). split; [split; [done|]; intros t Ht; by apply Hn in Ht|]. left. intros t Ht. apply (Hn t). by apply replaced_created. Qed.

Lemma clean_die {A} F d (Q : A -> list call -> Prop) : hoare (clean_log F) (sdie d) Q refused.
Proof. apply hoare_die. intros l. apply clean_refused. Qed.

(** A check before the temporary file exists. *)
Lemma verify_clean F : stable F ->
  hoare (clean_log F) (config_dest_verify o path dir None) (fun _ => clean_log (fun l => F l /\ checked l)) refused.
Proof.
  intros HF l Hl. destruct (verify_hoare None l l eq_refl) as ([[]|d] & l' & E & H); rewrite E; eexists _, _; (split; [done|]).
  - pose proof (clean_since F _ _ _ HF Hl H) as (Hi & Hn & Hf). split_and!; [done|done|done|]. destruct H as (k & -> & _ & Hv). by exists k, l.
  - apply (clean_refused F). destruct H as [_ H]. by eapply clean_since.
Qed.

Lemma mkdir_hoare F n tmp i b : stable F -> (forall j, 0 <= j -> j = zlen tmp \/ tmp.[j] = 47 \/ tmp.[j] = 92 -> piece dir (take (Z.to_nat j) tmp)) ->
  0 <= i -> i + Z.of_nat n <= zlen tmp + 1 ->
  hoare (clean_log (fun l => (F l /\ checked l) /\ (b = true -> made_dir o dir l))) (mkdir_loop o n tmp i b)
    (fun b => clean_log (fun l => (F l /\ checked l) /\ (b = true -> made_dir o dir l))) refused.
Proof.
  intros HF Hp. revert i b. induction n as [|n IH]; intros i b Hi0 Hi; cbn [mkdir_loop]; [by apply hoare_ret|]. destruct (_ && _) eqn:E; [apply IH; lia|].
  assert (piece dir (take (Z.to_nat i) tmp)) as Hpd by (apply Hp; [done|]; destruct (tmp.[i] =? 47) eqn:E1, (tmp.[i] =? 92) eqn:E2; cbn in E; lia). set (p := take (Z.to_nat i) tmp) in *.
  assert (forall b, stable (fun l => (F l /\ checked l) /\ (b = true -> made_dir o dir l))) as Hst by (intros b' c l [[? ?] ?]; split_and!; [by apply HF|by apply checked_cons|intros; apply made_cons; auto]).
  eapply (hoare_bind _ _ _ (fun r => clean_log (fun l => (F l /\ checked l) /\ (b || (r =? 0) = true -> made_dir o dir l)))).
  - apply hoare_call. intros l Hl. pose proof Hl as (_ & _ & [_ Hv] & Hb). destruct (clean_log_cons _ (Mkdir p) l (Hst b) Hl) as (Hi' & Hn' & [Hf' Hc'] & Hb'); [by split|done|]. split_and!; try done.
    intros [Hbt|Hz]%orb_true_iff; [by apply Hb'|]. exists p. split; [done|]. apply did_cons. by right.
  - intros r. destruct (r =? 0); [rewrite orb_true_r; apply IH; lia|]. rewrite orb_false_r. destruct (r =? EEXIST); [apply IH; lia|]. apply clean_die.
Qed.

Lemma mkdir_p_hoare F d : stable F -> dir = Some d ->
  hoare (clean_log (fun l => F l /\ checked l)) (mkdir_p o d) (fun b => clean_log (fun l => F l /\ (b = true -> made_dir o dir l))) refused.
Proof.
  intros HF Hd. unfold mkdir_p. cbv zeta. destruct (_ || _) eqn:E0; [apply clean_die|]. remember (if d.[zlen d - 1] =? 47 then _ else _) as tmp eqn:Ht.
  assert (forall j, 0 <= j -> j = zlen tmp \/ tmp.[j] = 47 \/ tmp.[j] = 92 -> piece dir (take (Z.to_nat j) tmp)) as Hp.
  { intros j Hj0 Hj. destruct (d.[zlen d - 1] =? 47) eqn:E; subst tmp; [|exists d, j; by split_and!]. set (tmp := take _ d) in *. assert (zlen tmp = zlen d - 1) as Hz by (unfold tmp; pose proof (zlen_nonneg d); rewrite zlen_take; lia).
    exists d, (Z.min j (zlen tmp)). split; [done|]. split.
    - rewrite Hz. unfold tmp. rewrite take_take. f_equal. lia.
    - destruct (decide (j < zlen tmp)); [|replace (Z.min j (zlen tmp)) with (zlen d - 1) by lia; lia]. rewrite Z.min_l by lia. destruct Hj as [Hj|Hj]; [lia|]. right.
      by rewrite <- (take_drop (Z.to_nat (zlen d - 1)) d), at_app_l. }
  eapply hoare_post; [eapply hoare_pre; [|apply (mkdir_hoare F _ tmp _ false HF Hp)]| |done].
  - intros l (Hi & Hn & Hf & Hv). by split_and!.
  - lia.
  - unfold zlen. lia.
  - intros b l (Hi & Hn & [Hf _] & Hb). by split_and!.
Qed.

Lemma made_hoare od : dir = od ->
  hoare (clean_log (fun l => True /\ checked l)) match od with Some d => mkdir_p o d | None => sret false end (fun b => clean_log (fun l => b = true -> made_dir o dir l)) refused.
Proof.
  intros Hd. destruct od as [d|]; [|apply hoare_ret; intros l (Hi & Hn & _); by split_and!]. eapply hoare_post; [by apply (mkdir_p_hoare (fun _ => True) d)| |done].
  intros b l (Hi & Hn & _ & Hb). by split_and!.
Qed.

(** While the temporary file exists. *)
Definition tmp_log (F : list call -> Prop) (tmp : bytes) (l : list call) : Prop :=
  Inv l /\ created l tmp /\ (forall t, created l t -> t = tmp) /\ (forall t, ~ replaced l t) /\ F l.

Lemma create_hoare F n k : stable F ->
  hoare (clean_log (fun l => F l /\ checked l)) (create_loop o n path k) (fun tmp => tmp_log F tmp) refused.
Proof.
  intros HF. revert k. induction n as [|n IH]; intros k; cbn [create_loop]; [apply clean_die|].
  set (tmp := tmp_name o path k). intros l Hl. unfold sbind, scall. cbn [rbind]. assert (allowed (Create tmp) l) as Ha by (destruct Hl as (_ & _ & _ & ?); split; [done|by exists k]).
  destruct (os_create o l tmp) eqn:E.
  - eexists _, _. split; [done|]. destruct Hl as (Hi & Hn & Hf & _). split_and!; [by apply Inv_cons|by apply did_cons; right| | |by apply HF].
    + intros t [Ht|[[= ->] _]]%did_cons; [by apply Hn in Ht|done].
    + intros t [Ht|[? _]]%did_cons; [|done]. apply (Hn t). by apply replaced_created.
  - apply IH. apply clean_log_cons; [|done|done|by intros t [= <-]]. intros c l' [? ?]. split; [by apply HF|by apply checked_cons].
Qed.

Lemma tmp_cons F tmp c l : stable F -> tmp_log F tmp l -> allowed c l -> (forall t, c <> Create t) -> (forall t, c = Rename t path -> os_rename o l t path = false) -> tmp_log F tmp (c :: l).
Proof.
  intros HF (Hi & Hc & Hu & Hr & Hf) Ha Hn Hnr. split_and!; [by apply Inv_cons|by apply did_cons; left| | |by apply HF]; intros t [Ht|[-> Ht]]%did_cons; [by apply Hu|by destruct (Hn t)|by apply (Hr t)|].
  specialize (Hnr t eq_refl). congruence.
Qed.

Lemma tmp_since F tmp l0 R l : stable F -> tmp_log F tmp l0 -> since l0 R l -> tmp_log F tmp l.
Proof.
  intros HF (Hi & Hc & Hu & Hr & Hf) Hs. split_and!; [by eapply Inv_since|by apply (did_since l0 R)| | |by eapply stable_since]; intros t Ht; [apply Hu|apply (Hr t)]; by apply (did_since l0 R l).
Qed.

(** Removing it ends the run tidily. *)
Lemma unlink_refused F d tmp l : tmp_log F tmp l -> refused d (Unlink tmp :: l).
Proof.
  intros (Hi & Hc & Hu & Hr & _). split; [split; [by apply Inv_cons|]|left]; intros t [Ht|[? _]]%did_cons; try done; [|by apply (Hr t)]. apply Hu in Ht as ->. left. left.
Qed.

Lemma abandon_hoare {A} F tmp r (Q : A -> list call -> Prop) : hoare (tmp_log F tmp) (sbind (scall (Unlink tmp) (fun _ => tt)) (fun _ => sdie r)) Q refused.
Proof. intros l Hl. eexists _, _. split; [done|]. by eapply unlink_refused. Qed.

(** The check right before the rename. *)
Lemma reverify_hoare F tmp : stable F -> (forall l, F l -> written o l tmp) ->
  hoare (tmp_log F tmp) (config_dest_verify o path dir (Some tmp)) (fun _ l => tmp_log F tmp l /\ allowed (Rename tmp path) l) refused.
Proof.
  intros HF HW l Hl. destruct (verify_hoare (Some tmp) l l eq_refl) as ([[]|d] & l' & E & H); rewrite E; eexists _, _; (split; [done|]).
  - split; [by eapply tmp_since|]. destruct H as (k & -> & Hk & Hv). destruct Hl as (_ & Hc & _ & _ & Hf). split; [done|]. exists k, l. split_and!; auto.
  - destruct H as (_ & l'' & -> & H). apply (unlink_refused F). by eapply tmp_since.
Qed.

(** After the rename. *)
Definition renamed (b : bool) (l : list call) : Prop := final l /\ (exists a, replaced l a) /\ (b = true -> made_dir o dir l).

Lemma renamed_cons b c l : renamed b l -> allowed c l -> (forall t, c <> Create t) -> renamed b (c :: l).
Proof.
  intros ((Hi & Ht) & (a & Ha) & Hb) Hc Hn. split_and!; [split; [by apply Inv_cons|]|exists a; by apply stable_did|intros; apply made_cons; auto].
  intros t [Hcr|[-> _]]%did_cons; [|by destruct (Hn t)]. destruct (Ht t Hcr) as [Hu|Hr]; [left; by right|right; by apply stable_did].
Qed.

Lemma renamed_call {A} b c (f : list call -> A) E : (forall l, renamed b l -> allowed c l) -> (forall t, c <> Create t) ->
  hoare (renamed b) (scall c f) (fun _ => renamed b) E.
Proof. intros Hc Hn. apply hoare_call. intros l Hl. apply renamed_cons; auto. Qed.

Lemma owner_hoare b : hoare (renamed b) (restore_owner o path dir b) (fun _ => renamed b) refused.
Proof.
  assert (forall {A} p (Q : A -> list call -> Prop), hoare (renamed b) (sdie (R_chown p)) Q refused) as Hdie by (intros A p Q; apply hoare_die; intros l [? _]; split; [done|right; by exists p]).
  assert (hoare (renamed b) (sret tt) (fun _ => renamed b) refused) as Hret by (by apply hoare_ret).
  unfold restore_owner. destruct (os_env o _) as [su|]; [|done]. destruct (os_env o _) as [sg|]; [|done]. destruct (negb _); [done|].
  destruct (parse_sudo_id _ _) as [uid|]; [|done]. destruct (parse_sudo_id _ _) as [gid|]; [|done].
  eapply hoare_bind; [by apply renamed_call|]. intros a. destruct a as [|e|[| | |] n]; try apply Hdie.
  assert (forall d, (if b then dir else None) = Some d -> b = true /\ dir = Some d) as Hmade by (intros d; by destruct b). destruct (if b then dir else None) as [d|].
  - eapply (hoare_bind _ _ _ (fun _ => renamed b)); [eapply hoare_bind; [by apply renamed_call|intros a; by apply hoare_ret]|]. intros ok. destruct ok; cbn [negb]; [|apply Hdie].
    destruct (Hmade d eq_refl) as [-> Hd].
    eapply hoare_bind; [apply renamed_call; [intros l (_ & Hr & _); split; [done|by left]|done]|]. intros ok. destruct ok; cbn [negb]; [|apply Hdie].
    eapply hoare_bind; [apply renamed_call; [intros l (_ & Hr & Hb); split; [done|]; right; auto|done]|]. intros ok. destruct ok; [by apply hoare_ret|apply Hdie].
  - eapply (hoare_bind _ _ _ (fun _ => renamed b)); [by apply hoare_ret|]. intros ok. destruct ok; cbn [negb]; [|apply Hdie].
    eapply hoare_bind; [apply renamed_call; [intros l (_ & Hr & _); split; [done|by left]|done]|]. intros ok. destruct ok; cbn [negb]; [done|apply Hdie].
Qed.

Lemma sync_hoare b (od : option bytes) E : hoare (renamed b) match od with Some d => scall (Sync d) (fun _ => tt) | None => sret tt end (fun _ => renamed b) E.
Proof. destruct od; [by apply renamed_call|by apply hoare_ret]. Qed.

(** The renamed file is the one that was written. *)
Lemma save_hoare : hoare (clean_log (fun _ => True)) (save_at o path dir) (fun _ l => final l /\ exists a, replaced l a) refused.
Proof.
  unfold save_at. eapply hoare_bind; [by apply verify_clean|]. intros [].
  set (F b l := b = true -> made_dir o dir l). assert (forall b, stable (F b)) as HF by (intros b c l Hl Hb; by apply made_cons, Hl).
  eapply (hoare_bind _ _ _ (fun b => clean_log (F b))).
  { by apply made_hoare. }
  intros b. eapply hoare_bind; [by apply verify_clean|]. intros []. eapply hoare_bind; [by apply create_hoare|]. intros tmp.
  set (G l := F b l /\ written o l tmp). assert (stable G) as HG by (intros c l [H1 H2]; split; [by apply HF|by apply stable_did]).
  eapply (hoare_bind _ _ _ (fun ok => tmp_log (if ok : bool then G else F b) tmp)).
  { apply hoare_call. intros l Hl. assert (tmp_log (F b) tmp (Put tmp :: l)) as Ht by (apply tmp_cons; [done|done|apply Hl|done|done]). destruct (os_put o l tmp) eqn:E; [|done].
    destruct Ht as (H1 & H2 & H3 & H4 & H5). split_and!; try done. split; [done|]. apply did_cons. by right. }
  intros ok. destruct ok; cbn [negb]; [|apply abandon_hoare]. eapply hoare_bind; [apply reverify_hoare; [done|by intros l [_ ?]]|]. intros [].
  eapply (hoare_bind _ _ _ (fun ok => if ok : bool then renamed b else tmp_log G tmp)).
  { apply hoare_call. intros l [Hl Ha]. destruct (os_rename o l tmp path) eqn:E; [|by apply tmp_cons; [| | | |intros t [= <-]]]. assert (replaced (Rename tmp path :: l) tmp) as Hr by (apply did_cons; by right).
    destruct Hl as (Hi & Hc & Hu & _ & Hf & _). split; [split; [by apply Inv_cons|]|split; [by exists tmp|intros Hb; by apply made_cons, Hf]].
    intros t [Ht|[? _]]%did_cons; [|done]. apply Hu in Ht as ->. by right. }
  intros ok. destruct ok; cbn [negb]; [|apply abandon_hoare]. eapply hoare_bind; [apply sync_hoare|]. intros []. eapply hoare_post; [apply owner_hoare| |done]. by intros _ l (? & ? & _).
Qed.
End Proofs.

(** ** The guard *)

Lemma parent_prefix r d : parent_of (47 :: r) = Some d -> exists d', d = 47 :: d' /\ d `prefix_of` 47 :: r.
Proof.
  unfold parent_of. destruct (last_slash (47 :: r)) as [i|] eqn:El; [|done]. destruct (i =? 0) eqn:E0; [done|]. intros [= <-].
  assert (0 <= i) as Hi.
  { unfold last_slash in El. destruct (strrchr 92 _) as [b|] eqn:Eb, (strrchr 47 _) as [s|] eqn:Es; try done; [destruct (b >? s)|..]; injection El as <-; eauto using strrchr_nonneg. }
  destruct (Z.to_nat i) as [|n] eqn:En; [lia|]. eexists. split; [done|]. apply prefix_take.
Qed.

(** The parent of a path whose last name has no backslash. *)
Lemma parent_abs st c : good_name c -> none (Z.eqb 92) c -> parent_of (abs_text (st ++ [c])) = match st with [] => None | _ => Some (abs_text st) end.
Proof.
  intros (Hne & H47 & _) H92. assert (abs_text (st ++ [c]) = slashed st ++ 47 :: c) as ->.
  { transitivity (slashed (st ++ [c])); [by destruct st|]. rewrite slashed_app. cbn [slashed]. by rewrite app_nil_r. }
  assert (last_slash (slashed st ++ 47 :: c) = Some (zlen (slashed st))) as Hl.
  { unfold last_slash. rewrite (strrchr_last 47) by done. destruct (strrchr_before 92 (slashed st) (47 :: c)) as [->|(i & -> & Hi)]; [by apply Forall_cons|done|]. by replace (i >? _) with false by lia. }
  unfold parent_of. rewrite Hl. destruct st as [|d st]; [done|]. pose proof (zlen_nonneg (d ++ slashed st)). cbn [slashed abs_text]. rewrite zlen_cons. replace (_ =? 0) with false by lia.
  rewrite take_app_le, firstn_all2 by (unfold zlen; cbn [length]; lia). done.
Qed.

(** The working directory the system reports is absolute. *)
Definition cwd_ok (cwd : bytes + Z) : Prop := forall d, cwd = inl d -> cstr_ok d /\ exists d', d = 47 :: d'.

Lemma guard_runs o d : cstr_ok (47 :: d) -> cwd_ok (os_cwd o) ->
  exists b l, oidc_config_dir_resolves_to_root o (47 :: d) [] = Ret (inl b, l) /\ Forall (fun c => acting c = false) l /\
    (b = false -> l = [Realpath (abs_text (resolve (47 :: d)))] /\ resolve (47 :: d) <> [] /\ os_realpath o [] (abs_text (resolve (47 :: d))) <> Some (lit "/")).
Proof.
  intros Hd Hcwd. unfold oidc_config_dir_resolves_to_root. pose proof (zlen_nonneg d). rewrite zlen_cons. replace (_ =? 0) with false by lia.
  destruct (normalize_abs (os_cwd o) (47 :: d) (47 :: d)) as [-> Hg]; [done|intros d' Hd'; by apply Hcwd|done|done|]. cbn [rbind is_root]. destruct (bool_decide _) eqn:E; [by eexists true, []|].
  apply bool_decide_eq_false in E. eexists _, _. split; [done|]. split; [by repeat constructor|]. intros Hb. split_and!; [done|done|]. intros Hr. rewrite Hr in Hb. done.
Qed.

(** Either the run ends before anything is changed, or the checks start. *)
Lemma save_guard o path0 servers p : cstr_ok path0 -> path0 <> [] -> cwd_ok (os_cwd o) -> denotes (os_cwd o) path0 = Some p ->
  let path := abs_text (resolve p) in
  (exists d l, oidc_save_config o path0 servers [] = Ret (inr d, l) /\ Forall (fun c => acting c = false) l) \/
  exists d v vs, servers = Some (J_arr (v :: vs)) /\ parent_of path = Some d /\ resolve d <> [] /\ os_realpath o [] (abs_text (resolve d)) <> Some (lit "/") /\
    resolve p <> [] /\ oidc_save_config o path0 servers [] = save_at o path (Some d) [Realpath (abs_text (resolve d))].
Proof.
  intros Hcs Hne Hcwd Hp path. destruct servers as [[| | | |[|v vs]|]|]; try (left; by eexists _, []). cbn [oidc_save_config].
  destruct (normalize_abs (os_cwd o) path0 p) as [-> Hg]; [done|intros d' Hd'; by apply Hcwd|done|done|]. cbn [rbind is_root unresolved]. fold path.
  assert (cstr_ok p) as Hpc by (eapply denotes_cstr; [exact Hcs|intros d Hd; by apply Hcwd|exact Hp]).
  assert (cstr_ok path) as Hpath by (by apply abs_cstr, resolve_cstr). assert (exists r, path = 47 :: r) as (r & Er) by (unfold path; destruct (resolve p); by eexists).
  destruct (parent_of path) as [d|] eqn:Ed; [|left; eexists _, []; rewrite Er; split; [cbn; by rewrite orb_true_r|done]].
  rewrite Er in Ed. destruct (parent_prefix r d Ed) as (d' & -> & k & Hpre). rewrite Er, Hpre in Hpath. apply cstr_app in Hpath as [Hd _].
  destruct (guard_runs o d' Hd Hcwd) as (b & l & E & Hl & Hb). unfold sbind at 1. rewrite E. cbn [rbind]. destruct (bool_decide (resolve p = [])) eqn:Eroot; [by left; eexists _, l|].
  destruct b; [by left; eexists _, l|]. right. destruct (Hb eq_refl) as (-> & H1 & H2). apply bool_decide_eq_false in Eroot. exists (47 :: d'), v, vs. split_and!; try done. unfold sbind. by rewrite E.
Qed.

Lemma quiet_unreplaced o l : Forall (fun c => acting c = false) l -> (forall path tmp, ~ replaced o path l tmp) /\ ~ exists c, c ∈ l /\ acting c = true.
Proof.
  intros Hl. rewrite Forall_forall in Hl. split.
  - intros path tmp (l1 & l2 & -> & _). assert (acting (Rename tmp path) = false) by (apply Hl; set_solver). done.
  - intros (c & Hc & E). rewrite Hl in E; done.
Qed.

Lemma too_long o path d l : ~ (0 < zlen d < 4096) -> save_at o path (Some d) l = Ret (inr R_too_long, l).
Proof. intros Hd. pose proof (zlen_nonneg d). unfold save_at, config_dest_verify, config_dir_check, sbind. by replace (_ || _) with true by lia. Qed.

(** The parent that was checked is the parent. *)
Lemma parent_real p d : Forall good_name (resolve p) -> resolve p <> [] -> parent_of (abs_text (resolve p)) = Some d -> none (Z.eqb 92) (List.last (resolve p) []) ->
  (2 <= length (resolve p))%nat /\ d = abs_text (removelast (resolve p)) /\ resolve d = removelast (resolve p).
Proof.
  intros Hg Hne Hd H92. destruct (resolve p) as [|c st _] using rev_ind; [done|]. rewrite last_last in H92. rewrite removelast_last. apply Forall_app in Hg as [Hg Hc]. apply Forall_cons in Hc as [Hc _].
  rewrite parent_abs in Hd by done. destruct st as [|n st]; [done|]. injection Hd as <-. split_and!; [rewrite length_app; cbn; lia|done|]. by apply (resolve_abs (n :: st)).
Qed.

(** A run that changed something had the right to: [p] is the path that was asked for. *)
Definition safe_run (o : OS) (path0 : bytes) (servers : option Json) (l : list call) : Prop :=
  (exists c, c ∈ l /\ acting c = true) ->
  exists p v vs, servers = Some (J_arr (v :: vs)) /\ denotes (os_cwd o) path0 = Some p /\
    Inv o (abs_text (resolve p)) (parent_of (abs_text (resolve p))) l /\ tidy o (abs_text (resolve p)) l /\
    exists d, parent_of (abs_text (resolve p)) = Some d /\ resolve d <> [] /\ os_realpath o [] (abs_text (resolve d)) <> Some (lit "/") /\
      (none (Z.eqb 92) (List.last (resolve p) []) -> (2 <= length (resolve p))%nat /\ d = abs_text (removelast (resolve p))).

(** What the end of the run says about the saved file. *)
Definition outcome (o : OS) (path0 : bytes) (r : unit + refusal) (l : list call) : Prop :=
  match r with
  | inl _ => exists p tmp, denotes (os_cwd o) path0 = Some p /\ replaced o (abs_text (resolve p)) l tmp
  | inr d => (forall path tmp, ~ replaced o path l tmp) \/ exists p, d = R_chown p
  end.

Lemma quiet_safe o path0 servers d l : Forall (fun c => acting c = false) l -> safe_run o path0 servers l /\ outcome o path0 (inr d) l.
Proof. intros Hl. destruct (quiet_unreplaced o l Hl) as [H1 H2]. split; [by intros ?|by left]. Qed.

Lemma save_runs (o : OS) (path0 : bytes) (servers : option Json) :
  cstr_ok path0 -> path0 <> [] -> cwd_ok (os_cwd o) ->
  exists r l, oidc_save_config o path0 servers [] = Ret (r, l) /\ safe_run o path0 servers l /\ outcome o path0 r l.
Proof.
  intros Hcs Hne Hcwd. destruct (denotes (os_cwd o) path0) as [p|] eqn:Ep.
  - destruct (save_guard o path0 servers p Hcs Hne Hcwd Ep) as [(d & l & E & Hl)|(d & v & vs & -> & Ed & Hd0 & Hrp & Hp0 & E)]; [exists (inr d), l; split; [done|]; by apply quiet_safe|].
    assert (Forall (fun c => acting c = false) [Realpath (abs_text (resolve d))]) as Hq by (by repeat constructor). destruct (decide (0 < zlen d < 4096)) as [Hfit|Hfit].
    + destruct (save_hoare o (abs_text (resolve p)) (Some d)) with (l := [Realpath (abs_text (resolve d))]) as (r & l & E' & H); [by intros ? [= <-]| |].
      { split_and!; [|intros t (l1 & l2 & Hl & _); destruct l1 as [|? [|]]; done|done]. intros l1 c l2 Hl. destruct l1 as [|? [|]]; [by injection Hl as <- <-|done|done]. }
      exists r, l. rewrite E, E'. split; [done|]. destruct (normalize_abs (os_cwd o) path0 p) as [_ Hg]; [done|intros d' Hd'; by apply Hcwd|done|done|].
      assert (final o (abs_text (resolve p)) (Some d) l) as [Hi Ht] by (destruct r; by destruct H). split.
      * intros _. exists p, v, vs. split_and!; [done|done|by rewrite Ed|done|]. exists d. split_and!; [done|done|done|]. intros H92. destruct (parent_real p d Hg Hp0 Ed H92) as (H2 & Hd & _). done.
      * destruct r as [[]|rf]; [destruct H as [_ (a & Ha)]; by exists p, a|]. destruct H as [_ [H|H]]; [left|by right]. intros path tmp Hrep. pose proof Hrep as (l1 & l2 & El & _). destruct (Hi l1 _ l2 El) as [-> _]. by apply (H tmp).
    + exists (inr R_too_long), [Realpath (abs_text (resolve d))]. rewrite E, too_long by done. split; [done|]. by apply quiet_safe.
  - destruct servers as [[| | | |[|v vs]|]|]; try (eexists (inr _), []; split; [done|]; by apply quiet_safe). destruct path0 as [|c path0]; [done|]. cbn [denotes] in Ep. destruct (c =? 47) eqn:E47; [done|].
    destruct (os_cwd o) as [|e] eqn:Ec; [done|]. destruct (normalize_rel e c path0) as (np & r & E & H1 & H2); [by apply cstr_cons in Hcs as [? _]|done|].
    exists (inr R_unresolved), []. cbn [oidc_save_config]. rewrite Ec, E. cbn [rbind]. rewrite H1. split; [done|]. by apply quiet_safe.
Qed.

(** C14: [oidc_save_config] in front of any operating system, whose answers may change between any
    two calls.  The run ends.  It changes nothing unless the list has a server, the path can be
    resolved, and the directory it takes for the parent (the text before the last slash or
    backslash, which is the parent when the last name has no backslash) is neither the root nor
    resolved to it by the system.  It makes directories only on the way to that directory and only
    after a check of every component and of the target; it creates the temporary file after a
    check; right before the rename the checks ran again, on a file that was written in full; the
    owner changes only after the rename, of the saved file, and of that directory if a mkdir of it
    or of the text before a slash or backslash in it made something; no temporary file is left.
    After success the file was replaced; a refusal leaves it as it was, unless the refusal is
    about the owner.  With a backslash in a name this is less than the code means to ensure:
    [Demo.backslash_in_root], [Demo.backslash_owner]. *)
Theorem save_safe (o : OS) (path0 : bytes) (servers : option Json) :
  cstr_ok path0 -> path0 <> [] -> cwd_ok (os_cwd o) ->
  exists r l, oidc_save_config o path0 servers [] = Ret (r, l) /\ safe_run o path0 servers l /\ outcome o path0 r l.
Proof. apply save_runs. Qed.

(** The canonical spelling is saved where the path would be. *)
Theorem canon_saves_same o path0 servers np l : cstr_ok path0 -> path0 <> [] -> cwd_ok (os_cwd o) ->
  oidc_config_canon_path (os_cwd o) path0 = Ret (inl np) -> oidc_save_config o np servers l = oidc_save_config o path0 servers l.
Proof.
  intros Hcs Hne Hcwd E. destruct servers as [[| | | |[|v vs]|]|]; try done. cbn [oidc_save_config]. unfold oidc_config_canon_path in E. destruct (denotes (os_cwd o) path0) as [p|] eqn:Ep.
  - destruct (normalize_abs (os_cwd o) path0 p) as [En Hg]; [done|intros d' Hd'; by apply Hcwd|done|done|]. rewrite En in E |- *. cbn in E. injection E as <-.
    by rewrite (normalize_idem _ _ _ _ Hcs Hcwd Hne Ep En).
  - destruct path0 as [|c path0]; [done|]. cbn [denotes] in Ep. destruct (c =? 47) eqn:E47; [done|]. destruct (os_cwd o) as [|e]; [done|].
    destruct (normalize_rel e c path0) as (np' & r & En & H1 & H2); [by apply cstr_cons in Hcs as [? _]|done|]. rewrite En in E. cbn in E. by rewrite H1 in E.
Qed.

(** * Runs *)

Module Demo.

(** A system with the directories [dirs], run by root for user 1000. *)
Definition dirs : list bytes := [lit "/home"; lit "/home/u"; lit "/home/u/a\b"].

Definition is_dir (l : list call) (p : bytes) : bool :=
  existsb (beq p) dirs || existsb (fun c => match c with Mkdir q => beq p q | _ => false end) l.

Definition demo_os : OS := {|
  os_lstat l p :=
    if is_dir l p then L_is K_dir 2
    else if existsb (fun c => match c with Rename _ q => beq p q | _ => false end) l then L_is K_reg 1 else L_missing;
  os_realpath l p := if is_dir l p then Some p else None;
  os_mkdir l p := if is_dir l p then EEXIST else 0;
  os_create _ _ := true;
  os_put _ _ := true;
  os_rename _ _ _ := true;
  os_chown _ _ _ _ := true;
  os_cwd := inl (lit "/home/u");
  os_uid := 0;
  os_env _ := Some (lit "1000");
  os_rand _ := 7
|}.

Definition one_server : option Json := Some (J_arr [J_null]).

(** The calls that change something, in order. *)
Definition changes (path0 : bytes) : option (list call) :=
  match oidc_save_config demo_os path0 one_server [] with Ret (inl _, l) => Some (rev (filter (fun c => acting c = true) l)) | _ => None end.

Lemma save_safe_witness :
  changes (lit "x/../.iwan/servers.json") = Some
    [Mkdir (lit "/home"); Mkdir (lit "/home/u"); Mkdir (lit "/home/u/.iwan"); Create (lit "/home/u/.iwan/servers.json.tmp.00000007"); Put (lit "/home/u/.iwan/servers.json.tmp.00000007");
     Rename (lit "/home/u/.iwan/servers.json.tmp.00000007") (lit "/home/u/.iwan/servers.json"); Sync (lit "/home/u/.iwan");
     Chown (lit "/home/u/.iwan/servers.json") 1000 1000; Chown (lit "/home/u/.iwan") 1000 1000] /\
  exists r l, oidc_save_config demo_os (lit "x/../.iwan/servers.json") one_server [] = Ret (r, l) /\ safe_run demo_os (lit "x/../.iwan/servers.json") one_server l /\ outcome demo_os (lit "x/../.iwan/servers.json") r l.
Proof.
  split; [vm_compute; reflexivity|]. apply (save_safe demo_os (lit "x/../.iwan/servers.json") one_server).
  - apply (bool_decide_unpack _). vm_compute. exact I.
  - done.
  - intros d [= <-]. split; [apply (bool_decide_unpack _); vm_compute; exact I|by eexists].
Defined.

(** Spellings of the root are refused. *)
Lemma root_refused : changes (lit "../../servers.json") = None /\ changes (lit "/home/..//servers.json") = None /\ changes (lit "/") = None.
Proof. vm_compute. done. Qed.

(** A backslash in the last name is taken for a separator: a file of the root directory passes the
    guard, and a directory of another name is made there. *)
Lemma backslash_in_root : exists l, changes (lit "/x\y") = Some (Mkdir (lit "/x") :: l) /\ Rename (lit "/x\y.tmp.00000007") (lit "/x\y") ∈ l.
Proof. eexists. split; [vm_compute; reflexivity|]. repeat constructor. Qed.

(** A backslash in the name of an existing directory: a directory of another name is made beside
    it, and the owner of the existing one changes. *)
Lemma backslash_owner : exists l, changes (lit "a\b/servers.json") = Some l /\ Mkdir (lit "/home/u/a") ∈ l /\ Chown (lit "/home/u/a\b") 1000 1000 ∈ l.
Proof. eexists. split; [vm_compute; reflexivity|]. split; repeat constructor. Qed.

End Demo.
