(* ===== verification/OidcConfig.v ===== *)
(** * The server list (src/src/oidc/oidc_config.c, oidc_pwsecret.c)

    [oidc_fetch_config] logs in, asks the controller for the list and writes the document that is
    saved; [oidc_load_config] reads a saved document.  The build has no
    sealed password store (neither Windows nor macOS). *)

From Stdlib Require Import Floats.SpecFloat.
From stdpp Require Import gmap.
From S2P Require Import Prelude Util Crypto Http Json OidcText Jwt Double Oidc.
Import Scan.

Definition OIDC_DEFAULT_PORT : Z := 6001.

Record Config := {
  domain : bytes;
  root : Json;
  servers : option Json;
  pretty : option bytes
}.

(** ** Ports *)

(** A string read with [strtol] to its end. *)
Definition long_text (s : bytes) : option Z :=
  let '(v, rest, erange) := strtol s in
  if erange || beq rest s || negb (zlen rest =? 0) then None else Some v.

Definition server_port (s : Json) : res Z :=
  let! p := json_get (Some s) (lit "serverPort") in
  let v := match p with
           | Some (J_num dv) =>
               if SFltb dv (dbl 1) || SFltb (dbl 65535) dv || negb (SFeqb dv (dbl (to_long dv))) then 0 else to_long dv
           | Some (J_str t) => default 0 (long_text t)
           | _ => 0
           end in
  Ret (if (v >=? 1) && (v <=? 65535) then v else 0).

(** ** Passwords *)

Definition pw_is_sealed (stored : bytes) : bool := false.
Definition oidc_wrap_password (blob domain user : bytes) : option bytes := Some blob.
Definition oidc_unwrap_password (stored domain user : bytes) : option bytes := Some stored.

(** ** Fetching *)

(** The reasons for [oidc_die] in [oidc_fetch_config]. *)
Inductive fetch_die :=
  | F_die (d : die)
  | F_auth (st : Z) (shown : bytes)
  | F_keepalive (st : Z)
  | F_config (st : Z) (shown : bytes)
  | F_response
  | F_generated.

Section Fetch.
Context `{Libc, Rsa, OpenSSL, Hmac}.

Definition str_or (s : option bytes) : bytes := default [] s.

(** What is stored for the password the server sent. *)
Definition stored_form (pw_raw un_raw : option bytes) : res (option bytes) :=
  let! plain := decrypt_password (str_or pw_raw) OIDC_APP_SECRET OIDC_DOMAIN (str_or un_raw) in
  let pw := oidc_wrap_password match plain with Some p => cstr p | None => str_or pw_raw end OIDC_DOMAIN (str_or un_raw) in
  Ret (Some match pw with Some pw => pw | None => str_or pw_raw end).

(** One turn of the loop over the servers. *)
Definition server_text (s : Json) (more : bool) : res bytes :=
  let! name := json_get_str (Some s) (lit "name") in
  let! name := oidc_esc_put name in
  let! host := json_get_str (Some s) (lit "serverName") in
  let! host := oidc_esc_put host in
  let! port := server_port s in
  let! un_raw := json_get_str (Some s) (lit "userName") in
  let! user := oidc_esc_put un_raw in
  let! pw_raw := json_get_str (Some s) (lit "passWord") in
  let! pw := stored_form pw_raw un_raw in
  let! pw := oidc_esc_put pw in
  Ret (lit "    {" ++ [10] ++
       quoted (lit "      'name': '") ++ name ++
       quoted (lit "',") ++ [10] ++ quoted (lit "      'host': '") ++ host ++ quoted (lit "',") ++ [10] ++
       (if negb (port =? 0) then snprintf 64 (quoted (lit "      'port': ") ++ dec_int port ++ lit "," ++ [10]) else []) ++
       quoted (lit "      'username': '") ++ user ++
       quoted (lit "',") ++ [10] ++ quoted (lit "      'passWord': '") ++ pw ++
       quoted (lit "'") ++ [10] ++ lit "    }" ++ (if more then lit "," else []) ++ [10]).

Fixpoint servers_text (l : list Json) : res bytes :=
  match l with
  | [] => Ret []
  | s :: l =>
      let! a := server_text s (negb (zlen l =? 0)) in
      let! b := servers_text l in
      Ret (a ++ b)
  end.

Definition config_text (l : list Json) : res bytes :=
  let! b := servers_text l in
  Ret (lit "{" ++ [10] ++ quoted (lit "  'domain': '") ++ OIDC_DOMAIN ++ quoted (lit "',") ++ [10] ++ quoted (lit "  'servers': [") ++ [10] ++
       b ++ lit "  ]" ++ [10] ++ lit "}" ++ [10]).

(** A body that is shown: filtered, then cut to the size of the buffer. *)
Definition shown_body (resp : option bytes) : res bytes :=
  let! s := oidc_printable_dup (cstr (default [] resp)) in Ret (snprintf 256 s).

(** The requests of [oidc_fetch_config], in order, with the words each one draws. *)
Definition fetch_body (e : Env) (username : bytes) (type : bytes) : res bytes :=
  oidc_build_dev_body type (hex_encode (oidc_rand_bytes (rnd e) 53 2)) username.

Definition oidc_fetch_config (e : Env) (fs : files) : res (Config + fetch_die) :=
  let! run := oidc_login e fs in
  match result run with
  | inr d => Ret (inr (F_die d))
  | inl (kp, username) =>
      let! dev_body := fetch_body e username (lit "android") in
      let! ka_body := fetch_body e username (lit "keepalive") in
      let! r := oidc_ctrl_post e 55 (lit "/m/auth") dev_body kp in
      match r with
      | inr d => Ret (inr (F_die d))
      | inl (st, resp) =>
          if negb (st =? 200) then let! s := shown_body resp in Ret (inr (F_auth st s))
          else
            let! r := oidc_ctrl_post e 59 (lit "/m/keepalive") ka_body kp in
            match r with
            | inr d => Ret (inr (F_die d))
            | inl (st, _) =>
                if negb (st =? 200) then Ret (inr (F_keepalive st))
                else
                  let! r := oidc_ctrl_post e 63 (lit "/m/config") dev_body kp in
                  match r with
                  | inr d => Ret (inr (F_die d))
                  | inl (st, resp) =>
                      if negb (st =? 200) then let! s := shown_body resp in Ret (inr (F_config st s))
                      else
                        let! respj := json_parse (cstr <$> resp) in
                        match respj with
                        | None => Ret (inr F_response)
                        | Some respj =>
                            let! raw := json_get (Some respj) (lit "serverlist.serverlist") in
                            let! text := config_text match raw with Some (J_arr l) => l | _ => [] end in
                            let! root := json_parse (Some text) in
                            match root with
                            | None => Ret (inr F_generated)
                            | Some root =>
                                let! servers := json_get (Some root) (lit "servers") in
                                Ret (inl {| domain := OIDC_DOMAIN; root := root; servers := servers; pretty := Some text |})
                            end
                        end
                  end
            end
      end
  end.

(** ** Loading *)

Inductive load_die := L_open | L_parse (msg : bytes) | L_no_servers.

Definition oidc_load_config (file : option bytes) : res (Config + load_die) :=
  match file with
  | None => Ret (inr L_open)
  | Some b =>
      let! r := json_parse_ex (Some (cstr b)) 160 in
      match r with
      | inr jerr => Ret (inr (L_parse jerr))
      | inl root =>
          let! servers := json_get (Some root) (lit "servers") in
          match servers with
          | Some (J_arr l) =>
              let! dom := json_get_str (Some root) (lit "domain") in
              Ret (inl {| domain := match dom with Some (c :: d) => c :: d | _ => OIDC_DOMAIN end; root := root; servers := servers; pretty := None |})
          | _ => Ret (inr L_no_servers)
          end
      end
  end.

End Fetch.

(** * Proofs *)

(** ** Ports *)

(** The port a server entry names: a number, or a text that [strtol] reads to its end. *)
Definition sends_port (s : Json) (p : Z) : Prop :=
  1 <= p <= 65535 /\ (field s (lit "serverPort") (J_num (dbl p)) \/ exists t, field s (lit "serverPort") (J_str t) /\ long_text t = Some p).

Lemma server_port_spec s : exists v, server_port s = Ret v /\ (v = 0 \/ sends_port s v) /\ forall p, sends_port s p -> v = p.
Proof.
  unfold server_port. rewrite get_plain by done. cbn [rbind]. eexists. split; [reflexivity|]. unfold sends_port. split.
  - destruct (_ && _) eqn:E; [|by left]. right. split; [lia|]. revert E. destruct (json_obj_get s _) as [[| |d|t| |]|] eqn:Eg; intros E; try done; apply obj_get_field in Eg.
    + destruct (_ || _ || _) eqn:Eb; [done|]. rewrite !orb_false_iff, negb_false_iff in Eb. destruct Eb as [_ Eq]. left. destruct (SFeqb_same _ _ Eq) as [Ed|(z1 & z2 & Ez & _)]; [by rewrite <- Ed|]. subst d. cbn in E. lia.
    + right. exists t. split; [done|]. destruct (long_text t); [done|]. cbn in E. lia.
  - intros p [Hp [Hf|(t & Hf & Ht)]]; apply obj_get_field in Hf; rewrite Hf.
    + rewrite to_long_dbl, !dbl_ltb, dbl_eqb by lia. replace (p <? 1) with false by lia. replace (65535 <? p) with false by lia. rewrite Z.eqb_refl. cbn [orb negb]. by replace ((p >=? 1) && (p <=? 65535)) with true by lia.
    + rewrite Ht. change (default 0 (Some p)) with p. by replace ((p >=? 1) && (p <=? 65535)) with true by lia.
Qed.

(** ** The document *)

(** Fields laid out with white space: the space before the key, the key, the text of the value, its
    value, and the space after it. *)
Record layout := { before : bytes; key : bytes; text : bytes; val : Json; after : bytes }.

Fixpoint laid (fs : list layout) : bytes :=
  match fs with
  | [] => []
  | [f] => before f ++ 34 :: esc (key f) ++ 34 :: [] ++ 58 :: [32] ++ text f ++ after f
  | f :: fs => before f ++ 34 :: esc (key f) ++ 34 :: [] ++ 58 :: [32] ++ text f ++ after f ++ 44 :: laid fs
  end.

Section Document.
Context `{Libc}.

Definition laid_ok (f : layout) : Prop := ws (before f) /\ cstr_ok (key f) /\ value (text f) (val f) /\ ws (after f).

Lemma laid_members fs : fs <> [] -> Forall laid_ok fs -> members (laid fs) (map (fun f => (key f, val f)) fs).
Proof.
  intros Hne Hfs. induction Hfs as [|f fs (H1 & H2 & H3 & H4) Hfs IH]; [done|]. destruct (escape_body (key f) H2) as [Hk _]. assert (ws [32]) by (by repeat constructor). assert (ws []) by constructor.
  destruct fs as [|f' fs]; [by apply m_one|]. apply m_cons; try done. by apply IH.
Qed.

Lemma string_value s : cstr_ok s -> value (34 :: esc s ++ [34]) (J_str s).
Proof. intros Hs. apply v_str. by apply escape_body. Qed.

Lemma port_value p : 0 <= p < 2 ^ 53 -> value (dec_str p) (J_num (dbl p)).
Proof.
  intros Hp. destruct (dec_str_spec p) as (Hd & _ & Hne & Hz); [lia|]. apply v_num; [| |by apply strtod_dec].
  - exists [], (dec_str p), [], []. rewrite !app_nil_r. split_and!; [done|by left| |by left|by left]. destruct (dec_str p) as [|c r] eqn:E; [done|]. cbn [hd] in Hz.
    destruct (decide (c = 48)) as [Hc|Hc]; [left; by apply Hz|right]. by exists c, r.
  - destruct (dec_graphic p) as [_ Hl]; lia.
Qed.
End Document.

(** ** The password of an entry *)

Section Entry.
Context `{Libc, OpenSSL}.

(** Authenticated decryption gives bytes. *)
Class GcmBytes := { EVP_aes_256_gcm_bytes : forall k n a c t p, bytes_ok k -> bytes_ok c -> EVP_aes_256_gcm k n a c t = Some p -> bytes_ok p }.

(** [blob] is the text of a nonce, a ciphertext and a tag that the cipher accepts under the key
    of the domain and the user. *)
Definition decrypts (blob dom user p : bytes) : Prop :=
  exists nonce ct tag, b64url_decode blob = Ret (Some (nonce ++ ct ++ tag)) /\ zlen nonce = 12 /\ zlen tag = 16 /\
    zlen dom + 1 + zlen user <= INT_MAX /\ zlen ct <= INT_MAX /\
    EVP_aes_256_gcm (sha256 (OIDC_APP_SECRET ++ [124] ++ dom ++ [124] ++ user)) nonce (dom ++ [124] ++ user) ct tag = Some p.

Lemma finds_password blob dom user : finds (decrypt_password blob OIDC_APP_SECRET dom user) (decrypts blob dom user).
Proof.
  unfold decrypt_password. destruct (b64url_bytes blob) as (o & E & _). rewrite E. cbn [rbind]. unfold decrypts. rewrite E.
  destruct o as [data|]; [|apply finds_none; by intros p (n & c & t & Hd & _)]. change (GCM_NONCE_LEN + GCM_TAG_LEN) with 28. destruct (zlen data <? 28) eqn:El.
  { apply finds_none. intros p (n & c & t & [= ->] & Hn & Ht & _). pose proof (zlen_nonneg c). rewrite !zlen_app in El. lia. }
  assert (exists n c t, data = n ++ c ++ t /\ zlen n = 12 /\ zlen t = 16) as (n & c & t & -> & Hn & Ht).
  { exists (take 12 data), (take (Z.to_nat (zlen data - 28)) (drop 12 data)), (drop (Z.to_nat (zlen data - 28)) (drop 12 data)). rewrite !take_drop, zlen_take, !zlen_drop. split; [done|lia]. }
  pose proof (zlen_nonneg c). unfold GCM_NONCE_LEN. rewrite !rdn_ok by (rewrite ?zlen_app; lia). cbn [rbind]. rewrite slice_app_l by lia.
  assert (slice (n ++ c ++ t) 12 (zlen (n ++ c ++ t) - 12) = c ++ t) as ->.
  { rewrite <- (app_nil_r (n ++ c ++ t)), <- app_assoc. apply slice_app_mid; rewrite ?app_nil_r, ?zlen_app; lia. }
  eexists. split; [done|]. intros p. unfold gcm_decrypt, GCM_TAG_LEN.
  replace (zlen (c ++ t) <? 16) with false by (rewrite zlen_app; lia). replace (zlen (c ++ t) - 16) with (zlen c) by (rewrite zlen_app; lia). rewrite slice_app_l by lia.
  assert (slice (c ++ t) (zlen c) 16 = t) as -> by (rewrite <- (app_nil_r (c ++ t)), <- app_assoc; apply slice_app_mid; lia).
  rewrite !zlen_app. change (zlen [124]) with 1. split.
  - destruct (_ || _) eqn:Eo; [done|]. intros Hp. exists n, c, t. split_and!; try done; lia.
  - intros (n' & c' & t' & [= Heq] & Hn' & Ht' & Ha & Hb & Hp). replace (_ || _) with false.
    + apply app_inj_1 in Heq as [<- Heq]; [|unfold zlen in *; lia]. apply app_inj_2 in Heq as [<- <-]; [done|unfold zlen in *; lia].
    + apply app_inj_1 in Heq as [<- Heq]; [|unfold zlen in *; lia]. apply app_inj_2 in Heq as [<- <-]; [|unfold zlen in *; lia]. lia.
Qed.

(** ** An entry *)

(** The text of a field; empty when it is missing or not a text. *)
Definition str_field (s : Json) (k : bytes) : bytes := match json_obj_get s k with Some (J_str t) => t | _ => [] end.

(** The password kept for an entry: what the sent text decrypts to, else the text itself. *)
Definition kept_password (s : Json) (pw : bytes) : Prop :=
  (exists p, decrypts (str_field s (lit "passWord")) OIDC_DOMAIN (str_field s (lit "userName")) p /\ pw = cstr p) \/
  (forall p, ~ decrypts (str_field s (lit "passWord")) OIDC_DOMAIN (str_field s (lit "userName")) p) /\ pw = str_field s (lit "passWord").

(** The entry that is saved. *)
Definition saved_entry (s : Json) (port : Z) (pw : bytes) : Json :=
  J_obj ([(lit "name", J_str (str_field s (lit "name"))); (lit "host", J_str (str_field s (lit "serverName")))] ++
         (if port =? 0 then [] else [(lit "port", J_num (dbl port))]) ++
         [(lit "username", J_str (str_field s (lit "userName"))); (lit "passWord", J_str pw)]).

Definition saved_as (s e : Json) : Prop :=
  exists port pw, e = saved_entry s port pw /\ (port = 0 /\ (forall p, ~ sends_port s p) \/ sends_port s port) /\ kept_password s pw.

Lemma str_field_cstr s k : strings_ok s -> cstr_ok (str_field s k).
Proof. intros Hs. unfold str_field. destruct (json_obj_get s k) as [[]|] eqn:E; try constructor. apply obj_get_field in E. by apply (strings_ok_field s k _ Hs) in E. Qed.

Definition text_layout (k s : bytes) (after : bytes) : layout :=
  {| before := 10 :: lit "      "; key := k; text := 34 :: esc s ++ [34]; val := J_str s; after := after |}.

Definition entry_layout (s : Json) (port : Z) (pw : bytes) : list layout :=
  [text_layout (lit "name") (str_field s (lit "name")) []; text_layout (lit "host") (str_field s (lit "serverName")) []] ++
  (if port =? 0 then [] else [{| before := 10 :: lit "      "; key := lit "port"; text := dec_str port; val := J_num (dbl port); after := [] |}]) ++
  [text_layout (lit "username") (str_field s (lit "userName")) []; text_layout (lit "passWord") pw (10 :: lit "    ")].

Definition entry_text (s : Json) (port : Z) (pw : bytes) : bytes := 123 :: laid (entry_layout s port pw) ++ [125].

Lemma text_field s k : plain_key k = true -> exists o, json_get_str (Some s) k = Ret o /\ str_or o = str_field s k.
Proof. intros Hk. unfold json_get_str. rewrite get_plain by done. eexists. split; [done|]. unfold str_field. by destruct (json_obj_get s k) as [[]|]. Qed.

Lemma esc_or o : oidc_esc_put o = Ret (esc (str_or o)).
Proof. destruct o as [s|]; [apply esc_put|]. apply (esc_put []). Qed.

Lemma stored_kept s pw_raw un_raw : str_or pw_raw = str_field s (lit "passWord") -> str_or un_raw = str_field s (lit "userName") ->
  exists pw, stored_form pw_raw un_raw = Ret (Some pw) /\ kept_password s pw.
Proof.
  intros Hp Hu. unfold stored_form, kept_password. rewrite Hp, Hu. destruct (finds_password (str_field s (lit "passWord")) OIDC_DOMAIN (str_field s (lit "userName"))) as (o & -> & Ho).
  cbn [rbind oidc_wrap_password]. eexists. split; [done|]. destruct o as [p|]; [left; exists p; split; [by apply Ho|done]|right]. split; [|done]. intros p Hd. by apply Ho in Hd.
Qed.

(** The line with the port fits its buffer. *)
Lemma port_line v : 0 <= v <= 65535 ->
  snprintf 64 (quoted (lit "      'port': ") ++ dec_int v ++ lit "," ++ [10]) = quoted (lit "      'port': ") ++ dec_str v ++ lit "," ++ [10].
Proof.
  intros Hv. unfold dec_int. replace (v <? 0) with false by lia. apply snprintf_fits. destruct (dec_graphic v) as [_ Hl]; [lia|]. rewrite !zlen_app.
  change (zlen (quoted (lit "      'port': "))) with 14. change (zlen (lit ",")) with 1. change (zlen [10]) with 1. lia.
Qed.

Lemma server_text_layout s more : exists port pw, server_text s more = Ret (lit "    " ++ entry_text s port pw ++ (if more then lit "," else []) ++ [10]) /\
  (port = 0 /\ (forall p, ~ sends_port s p) \/ sends_port s port) /\ kept_password s pw.
Proof.
  unfold server_text. destruct (text_field s (lit "name")) as (n & -> & En); [done|]. destruct (text_field s (lit "serverName")) as (h & -> & Eh); [done|].
  destruct (text_field s (lit "userName")) as (u & -> & Eu); [done|]. destruct (text_field s (lit "passWord")) as (w & -> & Ew); [done|].
  destruct (server_port_spec s) as (v & -> & Hv & Hall). destruct (stored_kept s w u Ew Eu) as (pw & Epw & Hpw). cbn [rbind]. rewrite !esc_or. cbn [rbind]. rewrite Epw. cbn [rbind]. rewrite esc_or. cbn [rbind].
  rewrite En, Eh, Eu. change (str_or (Some pw)) with pw. exists v, pw. split_and!; [| |done].
  - f_equal. unfold entry_text, entry_layout, text_layout.
    change (esc (lit "name")) with (lit "name"). assert (0 <= v <= 65535) as Hr by (destruct Hv as [->|[? _]]; lia). rewrite port_line by done.
    generalize (esc (str_field s (lit "name"))) (esc (str_field s (lit "serverName"))) (esc (str_field s (lit "userName"))) (esc pw) (if more then lit "," else []) (dec_str v). intros a b c d e f.
    destruct (v =? 0); cbn [negb app laid before key text after]; repeat (rewrite <- app_assoc || rewrite <- app_comm_cons); reflexivity.
  - destruct Hv as [->|Hv]; [|by right]. left. split; [done|]. intros p Hp. pose proof (Hall p Hp). destruct Hp. lia.
Qed.

Lemma entry_value s port pw : strings_ok s -> cstr_ok pw -> 0 <= port <= 65535 -> value (entry_text s port pw) (saved_entry s port pw).
Proof.
  intros Hs Hpw Hport. pose proof (fun k => str_field_cstr s k Hs) as Hstr.
  assert (forall k v a, cstr_ok k -> cstr_ok v -> ws a -> laid_ok (text_layout k v a)) as Htl by (intros k v a Hk Hv Ha; split_and!; [by repeat constructor|done|by apply string_value|done]).
  assert (Forall laid_ok (entry_layout s port pw)) as Hl.
  { unfold entry_layout. rewrite !Forall_app. split_and!.
    - repeat (apply Forall_cons; split); [..|constructor]; apply Htl; done || by repeat constructor.
    - destruct (port =? 0); [constructor|]. apply Forall_singleton. split_and!; [by repeat constructor|by repeat constructor|by apply port_value; lia|constructor].
    - repeat (apply Forall_cons; split); [..|constructor]; apply Htl; done || by repeat constructor. }
  unfold entry_text, saved_entry. replace (_ ++ _ ++ _) with (map (fun f => (key f, val f)) (entry_layout s port pw)); [|unfold entry_layout; by destruct (port =? 0)].
  apply v_obj, laid_members; [by unfold entry_layout|done].
Qed.

Lemma laid_cstr fs : Forall (fun f => cstr_ok (before f) /\ cstr_ok (key f) /\ cstr_ok (text f) /\ cstr_ok (after f)) fs -> cstr_ok (laid fs).
Proof.
  intros Hfs. induction Hfs as [|f fs (H1 & H2 & H3 & H4) Hfs IH]; [constructor|]. destruct (escape_body (key f) H2) as [_ Hk]. fold (esc (key f)) in Hk.
  destruct fs as [|f' fs]; cbn [laid]; repeat (rewrite ?cstr_app, ?cstr_cons); split_and!; done || constructor.
Qed.

Lemma quoted_cstr s : cstr_ok s -> cstr_ok (34 :: esc s ++ [34]).
Proof. intros Hs. apply cstr_cons. split; [done|]. apply cstr_app. split; [by apply escape_body|by repeat constructor]. Qed.

Lemma entry_cstr s port pw : strings_ok s -> cstr_ok pw -> 0 <= port <= 65535 -> cstr_ok (entry_text s port pw).
Proof.
  intros Hs Hpw Hport. pose proof (fun k => str_field_cstr s k Hs) as Hstr.
  unfold entry_text. apply cstr_cons. split; [done|]. apply cstr_app. split; [|by repeat constructor]. apply laid_cstr. unfold entry_layout. rewrite !Forall_app.
  assert (cstr_ok (dec_str port)) by (apply graphic_cstr, dec_graphic; lia).
  split_and!; [|destruct (port =? 0); [constructor|]|]; repeat first [apply Forall_nil_2|apply Forall_cons; split]; cbn [before key text after text_layout];
    split_and!; first [done|by apply quoted_cstr|by repeat constructor].
Qed.

Context `{!OpenSSLLaws, !GcmBytes}.

Lemma kept_cstr s pw : strings_ok s -> kept_password s pw -> cstr_ok pw.
Proof.
  intros Hs [(p & (n & c & t & Hd & _ & _ & _ & _ & Hp) & ->)|[_ ->]].
  { destruct (b64url_bytes (str_field s (lit "passWord"))) as (o & Eo & Ho). rewrite Eo in Hd. injection Hd as ->. destruct (Ho _ eq_refl) as [[_ [Hc _]%bytes_ok_app]%bytes_ok_app _].
    apply cstr_ok_cstr. eapply EVP_aes_256_gcm_bytes; [|exact Hc|exact Hp]. apply sha256_bytes. }
  by apply str_field_cstr.
Qed.

Lemma server_text_spec s more : strings_ok s ->
  exists x e, server_text s more = Ret (lit "    " ++ x ++ (if more then lit "," else []) ++ [10]) /\ value x e /\ cstr_ok x /\ saved_as s e /\ nesting e <= 1.
Proof.
  intros Hs. destruct (server_text_layout s more) as (port & pw & E & Hp & Hk). exists (entry_text s port pw), (saved_entry s port pw).
  assert (cstr_ok pw) by (by eapply kept_cstr). assert (0 <= port <= 65535) by (destruct Hp as [[-> _]|[? _]]; lia).
  split_and!; [done|by apply entry_value|by apply entry_cstr|by exists port, pw|]. unfold saved_entry. by destruct (port =? 0).
Qed.

(** The list: every server in order. *)
Lemma servers_text_spec l : Forall strings_ok l ->
  exists b es, servers_text l = Ret b /\ Forall2 saved_as l es /\ cstr_ok b /\ Forall (fun e => nesting e <= 1) es /\ (l <> [] -> elements (10 :: b ++ lit "  ") es).
Proof.
  intros Hl. induction Hl as [|s l Hs Hl (b & es & E & Hes & Hb & Hn & Hel)]; [exists [], []; split_and!; done || constructor|]. cbn [servers_text].
  destruct (server_text_spec s (negb (zlen l =? 0)) Hs) as (x & e & -> & Hv & Hx & He & Hne). rewrite E. cbn [rbind]. eexists _, (e :: es). split; [done|].
  assert (ws (10 :: lit "    ")) as Hw by (by repeat constructor). split_and!; [by constructor| |by constructor|].
  - assert (cstr_ok (if negb (zlen l =? 0) then lit "," else [])) by (destruct (negb _); by repeat constructor). rewrite !cstr_app. split_and!; done || by repeat constructor.
  - intros _. destruct l as [|s' l].
    + injection E as <-. inversion Hes. subst es. replace (10 :: _ ++ lit "  ") with ((10 :: lit "    ") ++ x ++ (10 :: lit "  ")); [|change (zlen []) with 0; cbn; repeat (rewrite <- app_assoc; cbn [app]); done].
      apply e_one; done || by repeat constructor.
    + pose proof (zlen_nonneg l). rewrite zlen_cons. replace (1 + zlen l =? 0) with false by lia. cbn [negb].
      replace (10 :: _ ++ lit "  ") with ((10 :: lit "    ") ++ x ++ [] ++ 44 :: (10 :: b ++ lit "  ")); [|cbn; repeat (rewrite <- app_assoc; cbn [app]); done]. apply e_cons; [done|done|constructor|by apply Hel].
Qed.

(** ** The whole document *)

Definition config_root (es : list Json) : Json := J_obj [(lit "domain", J_str OIDC_DOMAIN); (lit "servers", J_arr es)].

Definition config_layout (b : bytes) (es : list Json) : list layout :=
  [{| before := 10 :: lit "  "; key := lit "domain"; text := 34 :: esc OIDC_DOMAIN ++ [34]; val := J_str OIDC_DOMAIN; after := [] |};
   {| before := 10 :: lit "  "; key := lit "servers"; text := 91 :: (10 :: b ++ lit "  ") ++ [93]; val := J_arr es; after := [10] |}].

Lemma nesting_list l n : 0 <= n -> Forall (fun e => nesting e <= n) l -> nesting (J_arr l) <= n + 1.
Proof. intros Hn Hl. cbn [nesting]. induction Hl as [|e l He Hl IH]; cbn [fold_right]; lia. Qed.

Lemma config_text_spec l : Forall strings_ok l ->
  exists t es, config_text l = Ret t /\ Forall2 saved_as l es /\ cstr_ok t /\ reads t (config_root es).
Proof.
  intros Hl. destruct (servers_text_spec l Hl) as (b & es & E & Hes & Hb & Hn & Hel). unfold config_text. rewrite E. cbn [rbind].
  assert (cstr_ok (laid (config_layout b es))) as Hlc.
  { apply laid_cstr. repeat first [apply Forall_nil_2|apply Forall_cons; split]; cbn [before key text after]; split_and!; try by repeat constructor.
    apply cstr_cons. split; [done|]. apply cstr_app. split; [|by repeat constructor]. apply cstr_cons. split; [done|]. apply cstr_app. split; [done|by repeat constructor]. }
  assert (value (91 :: (10 :: b ++ lit "  ") ++ [93]) (J_arr es)) as Harr.
  { destruct l as [|s l]; [|by apply v_arr, Hel]. injection E as <-. inversion Hes. by apply v_arr0; repeat constructor. }
  assert (Forall laid_ok (config_layout b es)) as Hok.
  { repeat first [apply Forall_nil_2|apply Forall_cons; split]; (split_and!; [by repeat constructor|by repeat constructor| |by repeat constructor]); [by apply string_value; repeat constructor|done]. }
  eexists _, es. split; [reflexivity|]. replace (lit "{" ++ _) with ([] ++ (123 :: laid (config_layout b es) ++ [125]) ++ [10]).
  - split_and!; [done|cbn [app]; apply cstr_cons; split; [done|]; rewrite !cstr_app; split_and!; done || by repeat constructor|]. split.
    + exists [], (123 :: laid (config_layout b es) ++ [125]), [10]. split_and!; [done|constructor| |by repeat constructor]. apply v_obj. by apply (laid_members (config_layout b es)).
    + pose proof (nesting_list es 1 ltac:(lia) Hn). unfold config_root, JSON_MAX_DEPTH. cbn [nesting fold_right snd] in *. lia.
  - clear. unfold config_layout. cbn [laid before key text after app]. repeat (rewrite <- app_assoc; cbn [app]). reflexivity.
Qed.
End Entry.

(** ** Fetching *)

Section Proofs.
Context `{Libc, Rsa, Hmac, OpenSSLLaws, !GcmBytes}.

Definition dev_fields (type id user : bytes) : list (bytes * bytes) :=
  [(lit "domain", OIDC_DOMAIN); (lit "type", type); (lit "oem_name", lit "panabit"); (lit "device_id", id); (lit "userName", user);
   (lit "serverlist_version", lit "0"); (lit "ipfilter_version", lit "0"); (lit "branding_version", lit "0")].

(** The number of this device, as drawn for the run. *)
Definition device_id (e : Env) : bytes := hex_encode (oidc_rand_bytes (rnd e) 53 2).

Lemma fetch_body_text e user type : fetch_body e user type = Ret (object_text (dev_fields type (device_id e) user)).
Proof.
  unfold fetch_body, oidc_build_dev_body. rewrite !esc_put. cbn [rbind]. f_equal. unfold object_text, dev_fields, device_id. cbn [fields_text].
  change (esc OIDC_DOMAIN) with OIDC_DOMAIN. generalize (esc type) (esc user) (esc (hex_encode (oidc_rand_bytes (rnd e) 53 2))). intros a b c. repeat (rewrite <- app_assoc || rewrite <- app_comm_cons). reflexivity.
Qed.

(** What the controller has to answer for a list to be fetched. *)
Definition asked (e : Env) (k : nat) (path type : bytes) (kp user : bytes) : request :=
  ctrl_request e k path (object_text (dev_fields type (device_id e) user)) kp.

Definition answered (e : Env) (fs : files) (kp user : bytes) (respj : Json) : Prop :=
  (file_ok e fs /\ logs_in e kp user) /\
  (exists r, https_post e (asked e 55 (lit "/m/auth") (lit "android") kp user) = (true, 200, r)) /\
  (exists r, https_post e (asked e 59 (lit "/m/keepalive") (lit "keepalive") kp user) = (true, 200, r)) /\
  exists body, https_post e (asked e 63 (lit "/m/config") (lit "android") kp user) = (true, 200, Some body) /\ reads (cstr body) respj.

(** The servers of an answer. *)
Definition listed (respj : Json) : list Json :=
  match json_obj_get respj (lit "serverlist") with
  | Some o => match json_obj_get o (lit "serverlist") with Some (J_arr l) => l | _ => [] end
  | None => []
  end.

(** The configuration made of them. *)
Definition config_for (respj : Json) (cf : Config) : Prop :=
  exists es t, Forall2 saved_as (listed respj) es /\ cf = {| domain := OIDC_DOMAIN; root := config_root es; servers := Some (J_arr es); pretty := Some t |} /\ cstr_ok t /\ reads t (config_root es).

Definition fetches (m : res (Config + fetch_die)) (P : bytes -> bytes -> Json -> Prop) : Prop :=
  exists r, m = Ret r /\ r <> inr F_generated /\ (forall cf, r = inl cf -> exists kp user respj, P kp user respj /\ config_for respj cf) /\
    (forall kp user respj, P kp user respj -> exists cf, r = inl cf).

Lemma fetch_stop d (P : bytes -> bytes -> Json -> Prop) : d <> F_generated -> (forall kp user respj, ~ P kp user respj) -> fetches (Ret (inr d)) P.
Proof. intros Hd HP. exists (inr d). split_and!; [done|congruence|done|]. intros kp user respj H'. by apply HP in H'. Qed.

(** A signed request that must be answered with 200. *)
Lemma post_200 {A} (Q : res A -> Prop) e k path body kp (other : Z -> option bytes -> res A) (stop : die -> A) next : env_ok e ->
  (forall resp, https_post e (ctrl_request e k path body kp) = (true, 200, resp) -> (forall b, resp = Some b -> bytes_ok b) -> Q (next resp)) ->
  ((forall resp, https_post e (ctrl_request e k path body kp) <> (true, 200, resp)) -> (forall d, Q (Ret (stop d))) /\ forall st resp, (forall b, resp = Some b -> bytes_ok b) -> Q (other st resp)) ->
  Q (let! r := oidc_ctrl_post e k path body kp in
     match r with inr d => Ret (stop d) | inl (st, resp) => if negb (st =? 200) then other st resp else next resp end).
Proof.
  intros (_ & _ & _ & Hp) Hok Hno. unfold oidc_ctrl_post. destruct (https_post e _) as [[ok st] resp] eqn:E. assert (forall b, resp = Some b -> bytes_ok b) as Hr by (intros b ->; by eapply Hp).
  destruct ok; cbn [negb].
  - cbn [rbind]. destruct (st =? 200) eqn:Es; cbn [negb]; [apply Hok; [f_equal; f_equal; lia|done]|]. apply Hno; [|done]. intros resp' [= -> _]. lia.
  - destruct (shown_total resp (lit "no response (transport error)") Hr) as (s & ->); [by repeat constructor|]. cbn [rbind]. by apply Hno.
Qed.

Lemma shown_body_total resp : (forall b, resp = Some b -> bytes_ok b) -> exists s, shown_body resp = Ret s.
Proof.
  intros Hr. unfold shown_body. assert (bytes_ok (cstr (default [] resp))) as Hb by (apply cstr_sub; destruct resp; [by apply Hr|constructor]).
  destruct (printable_total _ Hb) as (out & -> & _). by eexists.
Qed.

Lemma get_list j : json_get (Some j) (lit "serverlist.serverlist") =
  Ret match json_obj_get j (lit "serverlist") with Some o => json_obj_get o (lit "serverlist") | None => None end.
Proof.
  assert (forall o, get_step o (lit "serverlist") = json_obj_get o (lit "serverlist")) as Hs by (intros []; done).
  unfold json_get. change (zlen (lit "serverlist.serverlist") =? 0) with false. change (length (lit "serverlist.serverlist")) with 21%nat. cbn [get_loop].
  change (segment (lit "serverlist.serverlist")) with (lit "serverlist", Some (lit "serverlist")). cbv beta iota. change (zlen (lit "serverlist") =? 0) with false. rewrite Hs. destruct (json_obj_get j _) as [o|]; [|done].
  change (segment (lit "serverlist")) with (lit "serverlist", @None bytes). cbv beta iota. change (zlen (lit "serverlist") =? 0) with false. rewrite Hs. by destruct (json_obj_get o _).
Qed.

Lemma listed_strings j : strings_ok j -> Forall strings_ok (listed j).
Proof.
  intros Hj. unfold listed. destruct (json_obj_get j _) as [o|] eqn:E1; [|constructor]. apply obj_get_field in E1. apply (strings_ok_field _ _ _ Hj) in E1.
  destruct (json_obj_get o _) as [[| | | |l|]|] eqn:E2; try constructor. apply obj_get_field in E2. apply (strings_ok_field _ _ _ E1) in E2. cbn in E2. induction l as [|x l IH]; constructor; [by destruct E2|]. apply IH. by destruct E2.
Qed.

(** The answer to [/m/config] as a configuration. *)
Lemma config_from respj kp user (P : bytes -> bytes -> Json -> Prop) : strings_ok respj -> P kp user respj ->
  fetches (let! raw := json_get (Some respj) (lit "serverlist.serverlist") in
           let! text := config_text match raw with Some (J_arr l) => l | _ => [] end in
           let! root := json_parse (Some text) in
           match root with
           | None => Ret (inr F_generated)
           | Some root =>
               let! servers := json_get (Some root) (lit "servers") in
               Ret (inl {| domain := OIDC_DOMAIN; root := root; servers := servers; pretty := Some text |})
           end) P.
Proof.
  intros Hs HP. rewrite get_list. cbn [rbind]. assert (match match json_obj_get respj (lit "serverlist") with Some o => json_obj_get o (lit "serverlist") | None => None end with Some (J_arr l) => l | _ => [] end = listed respj) as ->
    by (unfold listed; by destruct (json_obj_get respj _)).
  destruct (config_text_spec (listed respj) (listed_strings _ Hs)) as (t & es & -> & Hes & Ht & Hr). cbn [rbind]. destruct (json_parse_text t Ht) as (o & -> & Ho & _). apply Ho in Hr as ->. cbn [rbind].
  rewrite get_plain by done. change (json_obj_get (config_root es) (lit "servers")) with (Some (J_arr es)). cbn [rbind]. eexists. split; [done|]. split_and!; [done| |intros; by eexists].
  intros cf [= <-]. exists kp, user, respj. split; [done|]. exists es, t. split_and!; try done; by apply Ho.
Qed.

Lemma fetch_runs (e : Env) (fs : files) : env_ok e -> fetches (oidc_fetch_config e fs) (answered e fs).
Proof.
  intros He. unfold oidc_fetch_config. destruct (login_ends e fs He) as (run & -> & _ & Hrun & _). cbn [rbind]. destruct (result run) as [[kp user]|d].
  2: { apply fetch_stop; [done|]. intros kp user respj [Hl _]. by apply Hrun in Hl. }
  destruct (Hrun kp user) as [Hin _]. specialize (Hin eq_refl). assert (forall kp' user', file_ok e fs /\ logs_in e kp' user' -> kp' = kp /\ user' = user) as Huniq by (intros kp' user' Hl; apply Hrun in Hl as [= -> ->]; done).
  rewrite !fetch_body_text. cbn [rbind].
  apply (post_200 (fun m => fetches m (answered e fs))); [done|intros r1 H55 _|intros Hno; split; [intros d|intros st resp Hb]].
  2: { apply fetch_stop; [done|]. intros kp' user' respj (Hl & (r & Hr) & _). destruct (Huniq _ _ Hl) as [-> ->]. by apply Hno in Hr. }
  2: { destruct (shown_body_total resp Hb) as (s & ->). apply fetch_stop; [done|]. intros kp' user' respj (Hl & (r & Hr) & _). destruct (Huniq _ _ Hl) as [-> ->]. by apply Hno in Hr. }
  apply (post_200 (fun m => fetches m (answered e fs))); [done|intros r2 H59 _|intros Hno; split; [intros d|intros st resp Hb]].
  2,3: apply fetch_stop; [done|]; intros kp' user' respj (Hl & _ & (r & Hr) & _); destruct (Huniq _ _ Hl) as [-> ->]; by apply Hno in Hr.
  apply (post_200 (fun m => fetches m (answered e fs))); [done|intros r3 H63 Hb3|intros Hno; split; [intros d|intros st resp Hb]].
  2: { apply fetch_stop; [done|]. intros kp' user' respj (Hl & _ & _ & b & Hr & _). destruct (Huniq _ _ Hl) as [-> ->]. by apply Hno in Hr. }
  2: { destruct (shown_body_total resp Hb) as (s & ->). apply fetch_stop; [done|]. intros kp' user' respj (Hl & _ & _ & b & Hr & _). destruct (Huniq _ _ Hl) as [-> ->]. by apply Hno in Hr. }
  destruct r3 as [body|]; [|apply fetch_stop; [done|]; intros kp' user' respj (Hl & _ & _ & b & Hr & _); destruct (Huniq _ _ Hl) as [-> ->]; unfold asked in Hr; congruence].
  cbn [fmap option_fmap option_map]. assert (cstr_ok (cstr body)) as Hc by (by apply cstr_ok_cstr, Hb3). destruct (finds_json (cstr body) Hc) as (o & -> & Ho). cbn [rbind]. destruct o as [respj|].
  - assert (reads (cstr body) respj) as Hr by (by apply Ho). eapply (config_from respj kp user); [by eapply reads_strings|]. split; [done|]. split; [by exists r1|]. split; [by exists r2|by exists body].
  - apply fetch_stop; [done|]. intros kp' user' respj (Hl & _ & _ & b & Hr & Hrd). destruct (Huniq _ _ Hl) as [-> ->]. unfold asked in Hr. rewrite H63 in Hr. injection Hr as <-. by apply Ho in Hrd.
Qed.

(** C16: [oidc_fetch_config] returns in every environment, and the document it writes can always be read
    back: the list the controller sent, whatever its texts contain, is saved server by server and
    in order, each with its name, host, user, the port it names between 1 and 65535 and the
    password it decrypts to.  A configuration comes out exactly when the login succeeds and the three
    requests, signed and about this device and user, are answered with 200 and the last one with a JSON document. *)
Theorem fetch_exact (e : Env) (fs : files) : env_ok e -> fetches (oidc_fetch_config e fs) (answered e fs).
Proof. apply fetch_runs. Qed.

(** ** Loading *)

(** The configuration a document stands for. *)
Definition as_config (r : Json) (l : list Json) : Config :=
  {| domain := match str_field r (lit "domain") with [] => OIDC_DOMAIN | d => d end; root := r; servers := Some (J_arr l); pretty := None |}.

Definition loads (t : bytes) (cf : Config) : Prop := exists r l, reads t r /\ field r (lit "servers") (J_arr l) /\ cf = as_config r l.

Lemma load_runs b : bytes_ok b -> exists r, oidc_load_config (Some b) = Ret r /\ forall cf, r = inl cf <-> loads (cstr b) cf.
Proof.
  intros Hb. unfold oidc_load_config, loads, reads. destruct (parse_ex_exact (cstr b) 160) as (o & -> & Ho & _); [by apply cstr_ok_cstr|lia|]. cbn [rbind]. destruct o as [r|msg].
  - rewrite get_plain by done. cbn [rbind]. assert (forall r', document (cstr b) r' /\ nesting r' <= JSON_MAX_DEPTH -> r' = r) as Hr by (intros r' Hr'; apply Ho in Hr' as [= ->]; done).
    assert (forall cf, (forall l, json_obj_get r (lit "servers") <> Some (J_arr l)) -> ~ exists r' l, (document (cstr b) r' /\ nesting r' <= JSON_MAX_DEPTH) /\ field r' (lit "servers") (J_arr l) /\ cf = as_config r' l) as Hno.
    { intros cf Hn (r' & l & Hd & Hf & _). rewrite (Hr _ Hd) in Hf. apply obj_get_field in Hf. by apply (Hn l). }
    destruct (json_obj_get r (lit "servers")) as [[| | | |l|]|] eqn:Es; try (eexists; split; [done|]; intros cf; split; [done|]; intros Hcf; by apply Hno in Hcf).
    destruct (text_field r (lit "domain")) as (d & -> & Ed); [done|]. cbn [rbind]. eexists. split; [done|]. intros cf.
    assert (as_config r l = {| domain := match d with Some (c :: d) => c :: d | _ => OIDC_DOMAIN end; root := r; servers := Some (J_arr l); pretty := None |}) as <-
      by (unfold as_config; rewrite <- Ed; by destruct d as [[|]|]).
    split; [intros [= <-]; exists r, l; split; [by apply Ho|]; split; [by apply obj_get_field|done]|]. intros (r' & l' & Hd & Hf & ->). rewrite (Hr _ Hd) in *. apply obj_get_field in Hf. congruence.
  - eexists. split; [done|]. intros cf. split; [done|]. intros (r & l & Hd & _). by apply Ho in Hd.
Qed.

(** [oidc_load_config] returns on every file, and loads one exactly when its text up to the first
    NUL is a JSON document with an array of servers: the domain is the one the document names, or the
    default when it names none.  The document of a fetched configuration is loaded as that configuration. *)
Theorem load_exact (file : option bytes) : (forall b, file = Some b -> bytes_ok b) ->
  (exists r, oidc_load_config file = Ret r /\ forall cf, r = inl cf <-> exists b, file = Some b /\ loads (cstr b) cf) /\
  (forall respj cf t, config_for respj cf -> pretty cf = Some t -> file = Some t ->
     oidc_load_config file = Ret (inl {| domain := domain cf; root := root cf; servers := servers cf; pretty := None |})).
Proof.
  intros Hb. split.
  - destruct file as [b|]; [|eexists; split; [done|]; intros cf; split; [done|by intros (b & ? & _)]]. destruct (load_runs b) as (r & E & Hr); [by apply Hb|]. exists r. split; [done|]. intros cf. rewrite Hr.
    split; [by exists b|by intros (b' & [= <-] & ?)].
  - intros respj cf t (es & t' & _ & -> & Ht & Hr) [= ->] ->. destruct (load_runs t) as (r & -> & Hl); [by apply Hb|]. f_equal. apply Hl. rewrite cstr_cstr_ok by done.
    exists (config_root es), es. split; [done|]. split; [by apply obj_get_field|done].
Qed.

End Proofs.

(** ** A list that is fetched *)

Module Demo.

#[local] Existing Instance demo_rsa.
#[local] Existing Instance Toy.toy_openssl.
#[local] Existing Instance Toy.toy_laws.
#[local] Existing Instance Oidc.Demo.toy_hmac.

#[export] Instance toy_gcm : GcmBytes.
Proof. split. intros k n a c t p Hk Hc. cbn. destruct (beq t _); [|done]. intros [= <-]. by apply xor_crypt_ok. Qed.

Definition aad : bytes := OIDC_DOMAIN ++ [124] ++ lit "u1".
Definition gcm_key : bytes := sha256 (OIDC_APP_SECRET ++ [124] ++ aad).
Definition cipher : bytes := xor_crypt (lit "p4ss") gcm_key.
Definition blob : bytes := b64_url (fill 7 12 ++ cipher ++ Toy.mix 16 (gcm_key ++ fill 7 12 ++ aad ++ cipher)).

Definition list_text : bytes :=
  quoted (lit "{'serverlist':{'serverlist':[{'name':'A\'}],\n','serverName':'h1','serverPort':' 443','userName':'u1','passWord':'") ++ blob ++
  quoted (lit "'},{'name':'B','serverPort':1e19,'passWord':'plain'}]}}").

Definition env : Env := {|
  rnd := Oidc.Demo.draws; getuid := 1000; getenv := fun _ => None; stat := fun _ => None; may_create := fun _ => true; may_write := true; may_read := true;
  stdin := Oidc.stdin Oidc.Demo.env;
  https_post := fun r => if beq r.1.1.1 OIDC_CONTROLLER_HOST then (true, 200, Some list_text) else Oidc.https_post Oidc.Demo.env r;
  https_get1 := Oidc.Demo.site; https_get2 := Oidc.Demo.site; clock := 1500
|}.

Lemma list_env_bytes : env_ok env.
Proof.
  destruct Oidc.Demo.env_bytes as (H1 & H2 & H3 & H4). split_and!; [done|done|done|]. intros r ok st b. cbn [https_post env]. destruct (beq _ _); [|apply H4]. intros E. apply (f_equal snd) in E. cbn [snd] in E.
  assert (b = list_text) as -> by congruence. apply (bool_decide_eq_true_1 _). vm_compute. reflexivity.
Qed.

Definition entries : list Json :=
  [J_obj [(lit "name", J_str (quoted (lit "A'}],") ++ [10])); (lit "host", J_str (lit "h1")); (lit "port", J_num (dbl 443)); (lit "username", J_str (lit "u1")); (lit "passWord", J_str (lit "p4ss"))];
   J_obj [(lit "name", J_str (lit "B")); (lit "host", J_str []); (lit "username", J_str []); (lit "passWord", J_str (lit "plain"))]].

Definition fetched : option Config := match oidc_fetch_config env ∅ with Ret (inl cf) => Some cf | _ => None end.

Lemma fetch_exact_witness : (exists cf, fetched = Some cf /\ root cf = config_root entries) /\ fetches (oidc_fetch_config env ∅) (answered env ∅).
Proof. split; [eexists; split; [vm_compute; reflexivity|vm_compute; reflexivity]|exact (fetch_exact env ∅ list_env_bytes)]. Defined.

Definition saved_text : bytes := quoted (lit "{ 'servers': [ ], 'domain': 'd' }").

Lemma load_exact_witness :
  (exists cf t, fetched = Some cf /\ pretty cf = Some t /\ oidc_load_config (Some t) = Ret (inl {| domain := domain cf; root := root cf; servers := servers cf; pretty := None |})) /\
  exists r, oidc_load_config (Some saved_text) = Ret r /\ forall cf, r = inl cf <-> exists b, Some saved_text = Some b /\ loads (cstr b) cf.
Proof.
  split; [eexists _, _; split_and!; [vm_compute; reflexivity|vm_compute; reflexivity|vm_compute; reflexivity]|].
  apply load_exact. intros b [= <-]. apply (bool_decide_eq_true_1 _). vm_compute. reflexivity.
Defined.

End Demo.
