(* ===== verification/OidcSelect.v ===== *)
(** * Choosing a server (src/src/oidc/oidc_select.c, oidc_connect.c)

    The list shown to the user, the server a specification addresses, the interactive choice, and
    the port and password of the chosen entry. *)

From Stdlib Require Import Floats.SpecFloat.
From S2P Require Import Prelude Util Crypto Http Json OidcText Jwt Double Oidc OidcPath OidcConfig.
Import Scan.

(** ** The list *)

Definition wide (cp : Z) : bool :=
  ((4352 <=? cp) && (cp <=? 4447)) || ((11904 <=? cp) && (cp <=? 42191)) || ((44032 <=? cp) && (cp <=? 55203)) ||
  ((63744 <=? cp) && (cp <=? 64255)) || ((65072 <=? cp) && (cp <=? 65103)) || ((65280 <=? cp) && (cp <=? 65376)) ||
  ((65504 <=? cp) && (cp <=? 65510)).

(** The code point a sequence of [need] bytes stands for, without a check of its form; [None] when the
    text ends inside it. *)
Definition width_step (c : Z) (r : bytes) : option (Z * bytes) :=
  if c <? 128 then Some (c, r)
  else if Z.land c 224 =? 192 then
    match r with
    | b1 :: r => Some (Z.lor (Z.shiftl (Z.land c 31) 6) (Z.land b1 63), r)
    | _ => None
    end
  else if Z.land c 240 =? 224 then
    match r with
    | b1 :: b2 :: r => Some (Z.lor (Z.lor (Z.shiftl (Z.land c 15) 12) (Z.shiftl (Z.land b1 63) 6)) (Z.land b2 63), r)
    | _ => None
    end
  else
    match r with
    | b1 :: b2 :: b3 :: r =>
        Some (Z.lor (Z.lor (Z.lor (Z.shiftl (Z.land c 7) 18) (Z.shiftl (Z.land b1 63) 12)) (Z.shiftl (Z.land b2 63) 6)) (Z.land b3 63), r)
    | _ => None
    end.

Fixpoint width_loop (fuel : nat) (s : bytes) (w : Z) : res Z :=
  match s with
  | [] => Ret w
  | c :: r =>
      match fuel with
      | O => Fault OutOfFuel
      | S fuel =>
          match width_step c r with
          | None => Ret w
          | Some (cp, r) => width_loop fuel r (w + if wide cp then 2 else 1)
          end
      end
  end.

Definition utf8_width (s : bytes) : res Z := width_loop (length s) s 0.

(** The port of a row; a value that is no port is shown as the default. *)
Definition row_port (portj : option Json) : Z :=
  match portj with
  | Some (J_num dv) =>
      if SFleb (dbl 1) dv && SFleb dv (dbl 65535) && SFeqb dv (dbl (to_long dv)) then to_long dv else OIDC_DEFAULT_PORT
  | Some (J_str t) =>
      match long_text t with Some pv => if (1 <=? pv) && (pv <=? 65535) then pv else OIDC_DEFAULT_PORT | None => OIDC_DEFAULT_PORT end
  | _ => OIDC_DEFAULT_PORT
  end.

(** [%2llu] *)
Definition dec2 (v : Z) : bytes := fill 32 (2 - zlen (dec_str v)) ++ dec_str v.

Definition print_row (i : Z) (s : Json) : res bytes :=
  let! name := json_get_str (Some s) (lit "name") in
  let! host := json_get_str (Some s) (lit "host") in
  let! portj := json_get (Some s) (lit "port") in
  let! nm_s := oidc_printable_dup (default [] name) in
  let! host_s := oidc_printable_dup (default [] host) in
  let! w := utf8_width nm_s in
  let pad := if w <? 30 then 30 - w else 0 in
  Ret (dec2 (i + 1) ++ lit ". " ++ nm_s ++ fill 32 pad ++ lit " " ++ host_s ++ lit ":" ++ dec_str (row_port portj) ++ [10]).

Fixpoint print_rows (i : Z) (l : list Json) : res bytes :=
  match l with
  | [] => Ret []
  | s :: l => let! a := print_row i s in let! b := print_rows (i + 1) l in Ret (a ++ b)
  end.

Definition oidc_print_servers (servers : Json) : res bytes := print_rows 0 match servers with J_arr l => l | _ => [] end.

(** ** The port of an entry *)

Inductive port_answer := PORT_OK (v : Z) | PORT_ABSENT | PORT_BAD (raw : spec_float).

Definition oidc_server_port (srv : Json) : res port_answer :=
  let! p := json_get (Some srv) (lit "port") in
  Ret match p with
      | None => PORT_ABSENT
      | Some j =>
          let v := json_num p in
          match j with
          | J_num _ =>
              if negb (SFeqb v v) || SFltb v (dbl 1) || SFltb (dbl 65535) v || negb (SFeqb (dbl (to_long v)) v) then PORT_BAD v
              else PORT_OK (u16 (to_long v))
          | _ => PORT_BAD v
          end
      end.

(** ** Finding *)

Definition strcaseeq (a b : bytes) : bool := beq (map tolower a) (map tolower b).

(** The end of a search: an entry, none, or [oidc_die] with the port and the name it shows. *)
Inductive find_result :=
  | FOUND (s : Json)
  | NOT_FOUND
  | FIND_DIE (raw : spec_float) (shown : bytes).

(** [last] is the place of the last colon. *)
Definition match_host_port (s : Json) (spec : bytes) (last : Z) (name : option bytes) (host : bytes) : res find_result :=
  if last >=? 64 then Ret NOT_FOUND
  else
    match str_to_u16 (drop (Z.to_nat (last + 1)) spec) with
    | None => Ret NOT_FOUND
    | Some sport =>
        let! shost := unbracket_ipv6 (take (Z.to_nat last) spec) 64 in
        let! hhost := unbracket_ipv6 host 64 in
        let! pr := oidc_server_port s in
        match pr with
        | PORT_BAD pv =>
            if strcaseeq shost hhost then let! shown := oidc_printable_dup (default host name) in Ret (FIND_DIE pv shown)
            else Ret NOT_FOUND
        | _ =>
            let hport := match pr with PORT_OK v => v | _ => OIDC_DEFAULT_PORT end in
            if (sport =? hport) && strcaseeq shost hhost then Ret (FOUND s) else Ret NOT_FOUND
        end
    end.

Fixpoint server_loop (l : list Json) (spec : bytes) : res find_result :=
  match l with
  | [] => Ret NOT_FOUND
  | s :: l =>
      let! name := json_get_str (Some s) (lit "name") in
      let! host := json_get_str (Some s) (lit "host") in
      if match name with Some n => beq n spec | None => false end then Ret (FOUND s)
      else
        let! m := match strrchr 58 spec, host with
                  | Some last, Some host => match_host_port s spec last name host
                  | _, _ => Ret NOT_FOUND
                  end in
        match m with NOT_FOUND => server_loop l spec | _ => Ret m end
  end.

Definition oidc_find_server (servers : Json) (spec : bytes) : res find_result :=
  server_loop match servers with J_arr l => l | _ => [] end spec.

(** ** Asking *)

(** The entry chosen; [None] is the end of input, where the program dies. *)
Fixpoint select_loop (fuel : nat) (l : list Json) (stdin : bytes) : res (option Json) :=
  match fuel with
  | O => Fault OutOfFuel
  | S fuel =>
      match fgets 32 stdin with
      | None => Ret None
      | Some (line, rest, _) =>
          let buf := cstr line in
          let '(v, e, _) := strtol buf in
          if negb (beq e buf) && (v >=? 1) && (v <=? zlen l) then Ret (l !! Z.to_nat (v - 1))
          else select_loop fuel l rest
      end
  end.

Definition oidc_select_server (servers : Json) (stdin : bytes) : res (option Json) :=
  select_loop (S (length stdin)) match servers with J_arr l => l | _ => [] end stdin.

(** ** The password *)

Section Password.
Context `{OpenSSL}.

Definition blob_looks_encrypted (blob : bytes) : res bool :=
  let! raw := b64url_decode blob in
  Ret match raw with Some r => zlen r >=? GCM_NONCE_LEN + GCM_TAG_LEN | None => false end.

(** What the log says about the password: nothing, that a ciphertext could not be decrypted, or
    that it was stored in the clear. *)
Inductive pw_note := N_decrypted | N_suspect | N_plain.

Definition stored_password (stored : option bytes) (domain : bytes) (user : option bytes) : res (option (bytes * pw_note)) :=
  match oidc_unwrap_password (default [] stored) domain (default [] user) with
  | None => Ret None
  | Some blob =>
      let! pw := decrypt_password blob OIDC_APP_SECRET domain (default [] user) in
      match pw with
      | Some pw => Ret (Some (cstr pw, N_decrypted))
      | None => let! enc := blob_looks_encrypted blob in Ret (Some (blob, if enc then N_suspect else N_plain))
      end
  end.

End Password.

(** * Proofs *)

(** ** The port of an entry *)

(** The port an entry is reached at. *)
Definition port_of (s : Json) (p : Z) : Prop :=
  (1 <= p <= 65535 /\ field s (lit "port") (J_num (dbl p))) \/ ((forall j, ~ field s (lit "port") j) /\ p = OIDC_DEFAULT_PORT).

Lemma server_port_runs s : exists r, oidc_server_port s = Ret r /\
  match r with
  | PORT_OK v => 1 <= v <= 65535 /\ field s (lit "port") (J_num (dbl v))
  | PORT_ABSENT => forall j, ~ field s (lit "port") j
  | PORT_BAD _ => (exists j, field s (lit "port") j) /\ forall p, 1 <= p <= 65535 -> ~ field s (lit "port") (J_num (dbl p))
  end.
Proof.
  unfold oidc_server_port. rewrite get_plain by done. cbn [rbind]. eexists. split; [done|]. destruct (json_obj_get s (lit "port")) as [j|] eqn:E; [|intros j Hj; apply obj_get_field in Hj; congruence].
  apply obj_get_field in E. assert (forall p, J_num (dbl p) <> j -> ~ field s (lit "port") (J_num (dbl p))) as Hno by (intros p Hp Hf; by rewrite (field_fun _ _ _ _ Hf E) in Hp).
  destruct j as [| |d| | |]; try (split; [by eexists|]; intros p _; by apply Hno). cbn [json_num]. destruct (_ || _) eqn:Eb.
  - split; [by eexists|]. intros p Hp. apply Hno. intros [= <-]. rewrite to_long_dbl, !dbl_ltb, !dbl_eqb in Eb by lia. lia.
  - rewrite !orb_false_iff, !negb_false_iff in Eb. destruct Eb as [[[_ H1] H2] H3]. destruct (between d 1 65535) as [Hr Hd]; try done; [by apply SFeqb_sym|]. rewrite u16_small by lia. by rewrite <- Hd.
Qed.

(** ** Addresses *)

(** The text between the brackets of an address in brackets. *)
Definition bare (s x : bytes) : Prop :=
  (s = 91 :: x ++ [93] /\ 1 <= zlen x < 64) \/ (x = s /\ forall m, 1 <= zlen m < 64 -> s <> 91 :: m ++ [93]).

Lemma bare_fun s x y : bare s x -> bare s y -> x = y.
Proof.
  intros [[-> Hx]|[-> Hx]] [[Hy Hz]|[-> Hy]]; [|by destruct (Hy x Hx)|by destruct (Hx y Hz)|done]. injection Hy as Hy. by apply app_inj_2 in Hy as [? _].
Qed.

Lemma unbracket_runs s : exists x, unbracket_ipv6 s 64 = Ret x /\ bare s x.
Proof.
  assert (forall x, (forall m, 1 <= zlen m < 64 -> s <> 91 :: m ++ [93]) -> x = s -> exists y, Ret x = Ret y /\ bare s y) as Hno by (intros x Hs ->; exists s; split; [done|by right]).
  unfold unbracket_ipv6. destruct s as [|c s]; [by apply Hno|]. rewrite rdc_cons. cbn [rbind]. destruct (c =? 91) eqn:E0; [|apply Hno; [|done]; intros m _ [= ? _]; lia].
  destruct (zlen (c :: s) >=? 3) eqn:E1; [|apply Hno; [|done]; intros m Hm [= _ ->]; revert E1; rewrite zlen_cons, zlen_app, zlen_cons, zlen_nil; lia].
  destruct s as [|z m _] using rev_ind; [cbn in E1; done|]. pose proof (zlen_nonneg m). assert (zlen (c :: m ++ [z]) = zlen m + 2) as El by (rewrite zlen_cons, zlen_app, zlen_cons, zlen_nil; lia). rewrite El.
  rewrite rdc_ok by lia. rewrite El. replace (zlen m + 2 - 1 =? zlen m + 2) with false by lia. cbn [rbind]. change (c :: m ++ [z]) with ((c :: m) ++ [z]). rewrite at_app_r by (rewrite ?zlen_cons; lia).
  replace (zlen m + 2 - 1 - zlen (c :: m)) with 0 by (rewrite zlen_cons; lia). rewrite at_cons_0. assert (c = 91) as -> by lia. destruct ((z =? 93) && (zlen m + 2 - 2 <? 64)) eqn:E2.
  - rewrite rdn_ok by (cbn [app]; lia). eexists. split; [done|]. left. replace (slice _ 1 _) with m; [split; [cbn [app]; do 2 f_equal; f_equal; lia|lia]|]. cbn [app]. symmetry. apply (slice_app_mid [91] m [z]); [done|lia].
  - apply Hno; [|done]. intros m' Hm' [= Hs]. apply app_inj_2 in Hs as [-> [= ->]]; [|done]. lia.
Qed.

(** ** Finding *)

(** [spec] is a host, a colon and a decimal port. *)
Definition host_port (spec h : bytes) (p : Z) : Prop :=
  exists ps, spec = h ++ 58 :: ps /\ none (Z.eqb 58) ps /\ zlen h < 64 /\ ps <> [] /\ digits ps /\ digits_val ps = p /\ p <= 65535.

(** The host of [s] is the one in [spec], up to case and brackets. *)
Definition hosts (spec : bytes) (s : Json) (p : Z) : Prop :=
  exists h host a b, host_port spec h p /\ field s (lit "host") (J_str host) /\ bare h a /\ bare host b /\ map tolower a = map tolower b.

Definition addressed (spec : bytes) (s : Json) : Prop :=
  field s (lit "name") (J_str spec) \/ exists p, hosts spec s p /\ port_of s p.

(** The host of [s] is in [spec], but its port is no port. *)
Definition unusable (spec : bytes) (s : Json) : Prop :=
  ~ field s (lit "name") (J_str spec) /\ (exists p, hosts spec s p) /\ forall p, ~ port_of s p.

Lemma hosts_fun spec s p q : hosts spec s p -> hosts spec s q -> p = q.
Proof.
  intros (h & host & a & b & (ps & E1 & N1 & _ & _ & _ & V1 & _) & _) (h' & host' & a' & b' & (ps' & E2 & N2 & _ & _ & _ & V2 & _) & _).
  subst spec. pose proof (strrchr_last 58 h ps N1) as S1. rewrite E2 in S1. rewrite strrchr_last in S1 by done. injection S1 as S1. apply app_inj_1 in E2 as [_ [= ->]]; [congruence|unfold zlen in S1; lia].
Qed.

Lemma str_to_u16_spec s : match str_to_u16 s with Some v => s <> [] /\ digits s /\ digits_val s = v /\ 0 <= v <= 65535 | None => s = [] \/ ~ digits s \/ 65535 < digits_val s end.
Proof.
  unfold str_to_u16, parse_uint, digits. rewrite env_scan_u64_spec by lia. destruct (beq s []) eqn:E; cbn [negb andb]; [left; by apply beq_true|]. destruct (forallb isdigit s) eqn:Ed; [|right; left; congruence].
  pose proof (digits_val_nonneg s Ed). apply beq_false in E. destruct (_ <=? _) eqn:El; [rewrite u16_small by lia; split_and!; done || lia|]. right. right. lia.
Qed.

Lemma caseeq_spec a b : strcaseeq a b = true <-> map tolower a = map tolower b.
Proof. apply beq_true. Qed.

(** What one entry says to a specification. *)
Definition verdict (spec : bytes) (s : Json) (r : find_result) : Prop :=
  match r with
  | FOUND s' => s' = s /\ addressed spec s
  | NOT_FOUND => ~ addressed spec s /\ ~ unusable spec s
  | FIND_DIE _ shown => unusable spec s /\ clean shown
  end.

Lemma port_none s j : field s (lit "port") j -> (forall p, 1 <= p <= 65535 -> ~ field s (lit "port") (J_num (dbl p))) -> forall p, ~ port_of s p.
Proof. intros Hj Hn p [[Hp Hf]|[Hno _]]; [by apply (Hn p)|by apply (Hno j)]. Qed.

Lemma port_ok_iff s v : 1 <= v <= 65535 /\ field s (lit "port") (J_num (dbl v)) -> forall p, port_of s p <-> p = v.
Proof.
  intros [Hv Hf] p. split; [|intros ->; by left]. intros [[Hp Hf']|[Hno _]]; [|by apply Hno in Hf]. pose proof (field_fun _ _ _ _ Hf Hf') as [= E].
  rewrite <- (to_long_dbl p), <- (to_long_dbl v) by lia. by rewrite E.
Qed.

Lemma port_absent_iff s : (forall j, ~ field s (lit "port") j) -> forall p, port_of s p <-> p = OIDC_DEFAULT_PORT.
Proof. intros Hno p. split; [|intros ->; by right]. intros [[_ Hf]|[_ ->]]; [by apply Hno in Hf|done]. Qed.

Lemma match_verdict s h ps name host : strings_ok s -> ~ field s (lit "name") (J_str (h ++ 58 :: ps)) -> none (Z.eqb 58) ps -> field s (lit "host") (J_str host) ->
  (forall n, name = Some n -> bytes_ok n) ->
  exists r, match_host_port s (h ++ 58 :: ps) (zlen h) name host = Ret r /\ verdict (h ++ 58 :: ps) s r.
Proof.
  intros Hs Hname Hps Hhost Hnb. set (spec := h ++ 58 :: ps) in *. pose proof (zlen_nonneg h).
  assert (forall p, hosts spec s p -> exists a b, host_port spec h p /\ bare h a /\ bare host b /\ map tolower a = map tolower b) as Hh.
  { intros p (h' & host' & a & b & (ps' & E & N & Hrest) & Hf & Ha & Hb & Hc). assert (h' = h /\ ps' = ps) as [-> ->].
    { unfold spec in E. pose proof (strrchr_last 58 h ps Hps) as S1. rewrite E in S1. rewrite strrchr_last in S1 by done. injection S1 as S1. apply app_inj_1 in E as [-> [= ->]]; [done|unfold zlen in S1; lia]. }
    pose proof (field_fun _ _ _ _ Hf Hhost) as [= ->]. exists a, b. split_and!; try done. by exists ps. }
  assert ((forall p, ~ hosts spec s p) -> exists r, Ret NOT_FOUND = Ret r /\ verdict spec s r) as Hnone.
  { intros Hno. eexists. split; [done|]. split; [intros [?|(p & Hp & _)]; [done|by apply (Hno p)]|]. intros (_ & (p & Hp) & _). by apply (Hno p). }
  unfold match_host_port. destruct (zlen h >=? 64) eqn:El; [apply Hnone; intros p Hp; destruct (Hh p Hp) as (a & b & (ps' & _ & _ & Hl & _) & _); lia|].
  assert (drop (Z.to_nat (zlen h + 1)) spec = ps) as ->.
  { unfold spec. rewrite drop_app_ge by (unfold zlen; lia). by replace (Z.to_nat (zlen h + 1) - length h)%nat with 1%nat by (unfold zlen; lia). }
  assert (take (Z.to_nat (zlen h)) spec = h) as -> by (unfold spec, zlen; rewrite Nat2Z.id; apply take_app_length).
  pose proof (str_to_u16_spec ps) as Hport. destruct (str_to_u16 ps) as [sport|].
  2: { apply Hnone. intros p Hp. destruct (Hh p Hp) as (a & b & (ps' & E & _ & _ & Hne & Hd & Hv & Hm) & _). apply app_inj_1 in E as [_ [= ->]]; [|done]. destruct Hport as [?|[?|?]]; [done|done|lia]. }
  destruct Hport as (Hne & Hd & Hv & Hr). destruct (unbracket_runs h) as (a & -> & Ha). destruct (unbracket_runs host) as (b & -> & Hb). destruct (server_port_runs s) as (pr & -> & Hpr). cbn [rbind].
  assert (hosts spec s sport <-> strcaseeq a b = true) as Hiff.
  { rewrite caseeq_spec. split; [intros Hp; destruct (Hh _ Hp) as (a' & b' & _ & Ha' & Hb' & Hc); by rewrite (bare_fun _ _ _ Ha Ha'), (bare_fun _ _ _ Hb Hb')|].
    intros Hc. exists h, host, a, b. split_and!; try done. exists ps. split_and!; done || lia. }
  assert (forall p, hosts spec s p -> p = sport /\ strcaseeq a b = true) as Hall.
  { intros p Hp. assert (p = sport) as ->; [|split; [done|by apply Hiff]]. destruct (Hh p Hp) as (a' & b' & (ps' & E & _ & _ & _ & _ & Hv' & _) & _). apply app_inj_1 in E as [_ [= ->]]; [congruence|done]. }
  assert (forall hport, (forall p, port_of s p <-> p = hport) -> exists r, (if (sport =? hport) && strcaseeq a b then Ret (FOUND s) else Ret NOT_FOUND) = Ret r /\ verdict spec s r) as Hgood.
  { intros hport Hp. destruct ((sport =? hport) && strcaseeq a b) eqn:Em; eexists; (split; [done|]).
    - apply andb_true_iff in Em as [Ep Ec]. split; [done|]. right. exists sport. split; [by apply Hiff|]. apply Hp. lia.
    - split; [|intros (_ & _ & Hno); by apply (Hno hport), Hp]. intros [?|(p & Hh1 & Hp1)]; [done|]. destruct (Hall p Hh1) as [-> Hc]. apply Hp in Hp1. rewrite Hc in Em. lia. }
  destruct pr as [v| |raw]; [apply Hgood; by apply port_ok_iff|apply Hgood; by apply port_absent_iff|]. destruct Hpr as [(j & Hj) Hnp]. pose proof (port_none s j Hj Hnp) as Hno. destruct (strcaseeq a b) eqn:Ec.
  - assert (bytes_ok (default host name)) as Hdb by (destruct name as [n|]; [by apply Hnb|]; apply cstr_bytes_ok; by apply (strings_ok_field s _ _ Hs) in Hhost).
    destruct (printable_total _ Hdb) as (out & -> & Hcl & _). cbn [rbind]. eexists. split; [done|]. split; [|done]. split_and!; [done| |done]. exists sport. by apply Hiff.
  - apply Hnone. intros p Hp. by destruct (Hall p Hp).
Qed.

Lemma find_verdict l spec : Forall strings_ok l ->
  exists r, server_loop l spec = Ret r /\
    match r with
    | NOT_FOUND => Forall (fun s => verdict spec s NOT_FOUND) l
    | _ => exists l1 s l2, l = l1 ++ s :: l2 /\ Forall (fun s => verdict spec s NOT_FOUND) l1 /\ verdict spec s r
    end.
Proof.
  intros Hl. induction Hl as [|s l Hs Hl (r & E & Hr)]; [by eexists; split; [done|constructor]|]. cbn [server_loop].
  destruct (text_is s (lit "name") spec) as (name & -> & Hname & Hn); [done|]. destruct (finds_text s (lit "host")) as (host & -> & Hhost); [done|]. cbn [rbind].
  destruct (match name with Some n => beq n spec | None => false end) eqn:En; [eexists; split; [done|]; exists [], s, l; split_and!; [done|constructor|]; split; [done|left; by apply Hname]|].
  assert (~ field s (lit "name") (J_str spec)) as Hnn by (intros Hf; apply Hname in Hf; congruence).
  assert (exists m, match strrchr 58 spec, host with Some last, Some host => match_host_port s spec last name host | _, _ => Ret NOT_FOUND end = Ret m /\ verdict spec s m) as (m & -> & Hm).
  { assert ((forall p, ~ hosts spec s p) -> exists m, Ret NOT_FOUND = Ret m /\ verdict spec s m) as Hnone.
    { intros Hno. eexists. split; [done|]. split; [intros [?|(p & Hp & _)]; [done|by apply (Hno p)]|]. intros (_ & (p & Hp) & _). by apply (Hno p). }
    destruct (strrchr_spec 58 spec) as [[Hc ->]|(h & ps & -> & Hps & ->)].
    - apply Hnone. intros p (h & ? & ? & ? & (ps & -> & _) & _). apply Forall_app in Hc as [_ Hc]. apply Forall_cons in Hc as [? _]. done.
    - destruct host as [host|]; [|apply Hnone; intros p (? & host & ? & ? & _ & Hf & _); by apply Hhost in Hf]. apply match_verdict; [done|done|done|by apply Hhost|].
      intros n ->. apply cstr_bytes_ok. assert (field s (lit "name") (J_str n)) as Hf by (by apply Hn). by apply (strings_ok_field s _ _ Hs) in Hf. }
  cbn [rbind]. destruct m as [s'| |raw sh]; [eexists; split; [done|]; by exists [], s, l| |eexists; split; [done|]; by exists [], s, l]. rewrite E. exists r. split; [done|].
  destruct r; [|by constructor|]; destruct Hr as (l1 & x & l2 & -> & H1 & H2); exists (s :: l1), x, l2; (split_and!; [done|by constructor|done]).
Qed.

(** [oidc_find_server] returns for every list that was parsed and every specification, and finds the
    first entry the specification addresses: by its exact name, or by host and decimal port, where
    hosts are compared without regard to case and brackets and a missing port stands
    for 6001.  An earlier entry with that host whose port is no integer from 1 to 65535 ends the program,
    with a message that is safe to show. *)
Theorem find_exact (l : list Json) (spec : bytes) : Forall strings_ok l ->
  exists r, oidc_find_server (J_arr l) spec = Ret r /\
    match r with
    | FOUND s => exists l1 l2, l = l1 ++ s :: l2 /\ Forall (fun x => ~ addressed spec x /\ ~ unusable spec x) l1 /\ addressed spec s
    | NOT_FOUND => Forall (fun x => ~ addressed spec x /\ ~ unusable spec x) l
    | FIND_DIE _ shown => exists l1 s l2, l = l1 ++ s :: l2 /\ Forall (fun x => ~ addressed spec x /\ ~ unusable spec x) l1 /\ unusable spec s /\ clean shown
    end.
Proof.
  intros Hl. destruct (find_verdict l spec Hl) as (r & E & Hr). exists r. split; [done|]. destruct r as [s| |raw shown]; [|done|].
  - destruct Hr as (l1 & s' & l2 & -> & H1 & -> & H2). by exists l1, l2.
  - destruct Hr as (l1 & s & l2 & -> & H1 & H2 & H3). by exists l1, s, l2.
Qed.

(** ** Asking *)

(** The entry a line asks for. *)
Definition choice (l : list Json) (line : bytes) : option Json :=
  let '(v, e, _) := strtol line in
  if negb (beq e line) && (1 <=? v) && (v <=? zlen l) then l !! Z.to_nat (v - 1) else None.

Fixpoint first_choice (l : list Json) (lines : list bytes) : option Json :=
  match lines with
  | [] => None
  | x :: lines => match choice l (x ++ [10]) with Some s => Some s | None => first_choice l lines end
  end.

(** Lines as they are typed. *)
Definition typed (lines : list bytes) : bytes := concat (map (fun x => x ++ [10]) lines).

Lemma fgets_line n x r : none (Z.eqb 10) x -> (length x < n)%nat -> fgets_loop n (x ++ 10 :: r) = (x ++ [10], r, false).
Proof.
  revert n. induction x as [|c x IH]; intros n Hx Hn; (destruct n as [|n]; [cbn in Hn; lia|]); cbn [fgets_loop app]; [done|]. apply Forall_cons in Hx as [Hc Hx]. replace (c =? 10) with false by lia.
  rewrite IH; [done|done|cbn in Hn; lia].
Qed.

Lemma fgets_rest n s : let '(l, r, _) := fgets_loop n s in s = l ++ r.
Proof.
  revert s. induction n as [|n IH]; intros s; [done|]. destruct s as [|c s]; [done|]. cbn [fgets_loop]. destruct (c =? 10); [done|]. specialize (IH s). destruct (fgets_loop n s) as [[l r] e]. by rewrite IH.
Qed.

Lemma select_runs fuel l s : (length s < fuel)%nat -> exists o, select_loop fuel l s = Ret o /\ forall j, o = Some j -> j ∈ l.
Proof.
  revert s. induction fuel as [|fuel IH]; intros s Hs; [lia|]. cbn [select_loop]. unfold fgets. pose proof (fgets_rest (Z.to_nat (32 - 1)) s) as Hr. destruct (fgets_loop _ s) as [[line rest] e].
  destruct line as [|c line]; [by eexists|]. destruct (strtol _) as [[v e'] er]. destruct (_ && _ && _) eqn:E.
  - eexists. split; [done|]. intros j Hj. by apply list_elem_of_lookup_2 in Hj.
  - apply IH. subst s. rewrite length_app in Hs. cbn in Hs. lia.
Qed.

Lemma select_lines l lines fuel : Forall (fun x => cstr_ok x /\ none (Z.eqb 10) x /\ zlen x <= 30) lines -> (length (typed lines) < fuel)%nat ->
  select_loop fuel l (typed lines) = Ret (first_choice l lines).
Proof.
  intros Hl. revert fuel. induction Hl as [|x lines (Hx & H10 & Hz) Hl IH]; intros fuel Hf; (destruct fuel as [|fuel]; [lia|]); [done|]. unfold typed in *. cbn [map concat first_choice] in *. cbn [select_loop]. unfold fgets.
  rewrite <- app_assoc. cbn [app]. rewrite fgets_line by (done || (unfold zlen in Hz; lia)). destruct (x ++ [10]) as [|c y] eqn:Ex; [by destruct x|]. rewrite <- Ex in *.
  assert (cstr (x ++ [10]) = x ++ [10]) as -> by (apply cstr_cstr_ok; apply cstr_app; split; [done|by repeat constructor]). unfold choice. destruct (strtol (x ++ [10])) as [[v e] er].
  replace (v >=? 1) with (1 <=? v) by lia. destruct (_ && _ && _) eqn:E; [|apply IH; rewrite !length_app in Hf; cbn [length] in Hf; lia]. destruct (l !! Z.to_nat (v - 1)) as [j|] eqn:Ej; [done|]. apply lookup_ge_None in Ej. unfold zlen in E. lia.
Qed.

(** [oidc_select_server] returns on every input; it chooses an entry of the list or meets the end of
    input.  Of lines of at most 30 characters it takes the first that begins with a number of the list. *)
Theorem select_exact (l : list Json) (stdin : bytes) :
  (exists o, oidc_select_server (J_arr l) stdin = Ret o /\ forall j, o = Some j -> j ∈ l) /\
  (forall lines, Forall (fun x => cstr_ok x /\ none (Z.eqb 10) x /\ zlen x <= 30) lines -> stdin = typed lines ->
     oidc_select_server (J_arr l) stdin = Ret (first_choice l lines)).
Proof. split; [apply select_runs; lia|]. intros lines Hl ->. apply select_lines; [done|lia]. Qed.

(** ** The list *)

Lemma lead_all : forallb (fun c => let c := Z.of_nat c in
    (Bool.eqb (Z.land c 224 =? 192) ((192 <=? c) && (c <? 224))) && (Bool.eqb (Z.land c 240 =? 224) ((224 <=? c) && (c <? 240)))) (seq 0 256) = true.
Proof. vm_compute. reflexivity. Qed.

Lemma lead_class c : is_byte c -> (Z.land c 224 =? 192) = ((192 <=? c) && (c <? 224)) /\ (Z.land c 240 =? 224) = ((224 <=? c) && (c <? 240)).
Proof.
  intros Hc. pose proof (below_spec 256 (fun c => (Bool.eqb (Z.land c 224 =? 192) ((192 <=? c) && (c <? 224))) && (Bool.eqb (Z.land c 240 =? 224) ((224 <=? c) && (c <? 240)))) lead_all c Hc) as H.
  cbv beta in H. apply andb_true_iff in H as [H1%eqb_prop H2%eqb_prop]. done.
Qed.

Lemma cont_low x : 128 <= x < 192 -> Z.land x 63 = x - 128.
Proof. intros Hx. apply land_byte; [unfold is_byte; lia|done]. Qed.

Lemma width_step_char cp r : shown cp -> exists c k, utf8_encode cp = c :: k /\ width_step c (k ++ r) = Some (cp, r).
Proof.
  intros Hcp. unfold shown in Hcp. destruct (decide (cp < 128)); [rewrite utf8_1 by lia; eexists _, _; split; [done|]; unfold width_step; by replace (cp <? 128) with true by lia|].
  destruct (decide (cp < 2048)); [|destruct (decide (cp < 65536))]; [rewrite utf8_2 by lia|rewrite utf8_3 by lia|rewrite utf8_4 by lia]; eexists _, _; (split; [done|]); unfold width_step; cbn [app].
  - set (c := 192 + cp / 64). assert (194 <= c < 224) as Hc by (subst c; lia). destruct (lead_class c) as [-> _]; [unfold is_byte; lia|]. destruct (land_byte c) as (_ & _ & H2 & _); [unfold is_byte; lia|].
    replace (c <? 128) with false by lia. replace ((192 <=? c) && (c <? 224)) with true by lia. rewrite H2, cont_low, lor_shiftl_add by lia. do 2 f_equal. subst c. lia.
  - set (c := 224 + cp / 4096). assert (224 <= c < 240) as Hc by (subst c; lia). destruct (lead_class c) as [-> ->]; [unfold is_byte; lia|]. destruct (land_byte c) as (_ & _ & _ & H3 & _); [unfold is_byte; lia|].
    replace (c <? 128) with false by lia. replace ((192 <=? c) && (c <? 224)) with false by lia. replace ((224 <=? c) && (c <? 240)) with true by lia. rewrite H3, !cont_low by lia.
    rewrite (Z.shiftl_mul_pow2 _ 6), lor_shiftl_add by lia. match goal with |- context [Z.lor (?a * 2 ^ 12 + ?b * 2 ^ 6) _] => replace (a * 2 ^ 12 + b * 2 ^ 6) with ((a * 64 + b) * 2 ^ 6) by lia end.
    rewrite lor_high by lia. do 2 f_equal. subst c. lia.
  - set (c := 240 + cp / 262144). assert (240 <= c < 248) as Hc by (subst c; lia). destruct (lead_class c) as [-> ->]; [unfold is_byte; lia|]. destruct (land_byte c) as (_ & _ & _ & _ & H4); [unfold is_byte; lia|].
    replace (c <? 128) with false by lia. replace ((192 <=? c) && (c <? 224)) with false by lia. replace ((224 <=? c) && (c <? 240)) with false by lia. rewrite H4, !cont_low by lia.
    rewrite (Z.shiftl_mul_pow2 _ 6), (Z.shiftl_mul_pow2 _ 12), lor_shiftl_add by lia.
    match goal with |- context [Z.lor (?a * 2 ^ 18 + ?b * 2 ^ 12) _] => replace (a * 2 ^ 18 + b * 2 ^ 12) with ((a * 64 + b) * 2 ^ 12) by lia end. rewrite lor_high by lia.
    match goal with |- context [Z.lor (?a * 2 ^ 12 + ?b * 2 ^ 6) _] => replace (a * 2 ^ 12 + b * 2 ^ 6) with ((a * 64 + b) * 2 ^ 6) by lia end. rewrite lor_high by lia. do 2 f_equal. subst c. lia.
Qed.

(** The columns a text takes. *)
Definition columns (cps : list Z) : Z := foldr (fun cp w => (if wide cp then 2 else 1) + w) 0 cps.

Lemma width_run fuel cps w : Forall shown cps -> (length (concat (map utf8_encode cps)) <= fuel)%nat -> width_loop fuel (concat (map utf8_encode cps)) w = Ret (w + columns cps).
Proof.
  intros Hc. revert fuel w. induction Hc as [|cp cps Hcp Hc IH]; intros fuel w Hf; [destruct fuel; cbn; f_equal; lia|]. cbn [map concat columns foldr] in *.
  destruct (width_step_char cp (concat (map utf8_encode cps)) Hcp) as (c & k & E & Hs). rewrite E in *. cbn [app length] in *. rewrite length_app in Hf. destruct fuel as [|fuel]; [lia|].
  cbn [width_loop]. rewrite Hs, IH by lia. f_equal. unfold columns. lia.
Qed.

Lemma width_clean s : clean s -> exists cps, s = concat (map utf8_encode cps) /\ Forall shown cps /\ utf8_width s = Ret (columns cps).
Proof. intros (cps & -> & Hs). exists cps. split_and!; [done|done|]. unfold utf8_width. by rewrite width_run by done. Qed.

(** Printing ASCII is clean, and clean texts have no control character. *)
Lemma clean_ascii s : Forall (fun c => 32 <= c < 127) s -> clean s.
Proof.
  intros Hs. induction Hs as [|c s Hc Hs IH]; [apply clean_empty|]. replace (c :: s) with (utf8_encode c ++ s) by (by rewrite utf8_1 by lia). apply clean_cons; [by left|done].
Qed.

Lemma printable_app a b : clean a -> clean b -> clean (a ++ b).
Proof. intros (x & -> & Hx) (y & -> & Hy). exists (x ++ y). rewrite map_app, concat_app. split; [done|by apply Forall_app]. Qed.

Lemma clean_bytes s : clean s -> Forall (fun c => 32 <= c < 256 /\ c <> 127) s.
Proof.
  intros (cps & -> & Hs). induction Hs as [|cp cps Hcp Hs IH]; [constructor|]. cbn [map concat]. apply Forall_app. split; [|done]. unfold shown in Hcp. destruct (decide (cp < 128)).
  - rewrite utf8_1 by lia. apply Forall_singleton. lia.
  - destruct (decide (cp < 2048)); [|destruct (decide (cp < 65536))]; [rewrite utf8_2 by lia|rewrite utf8_3 by lia|rewrite utf8_4 by lia]; repeat (apply Forall_cons; split); try apply Forall_nil_2; lia.
Qed.

Lemma dec_clean v : 0 <= v < 2 ^ 64 -> clean (dec_str v).
Proof. intros Hv. apply clean_ascii. destruct (dec_graphic v Hv) as [Hg _]. eapply Forall_impl; [exact Hg|]. cbn. lia. Qed.

Lemma blanks_clean n : clean (fill 32 n).
Proof. apply clean_ascii. unfold fill. apply Forall_replicate. lia. Qed.

Lemma row_port_range j : 1 <= row_port j <= 65535.
Proof.
  unfold row_port, OIDC_DEFAULT_PORT. destruct j as [[| |d|t| |]|]; try lia.
  - destruct (_ && _ && _) eqn:E; [|lia]. rewrite !andb_true_iff in E. destruct E as [[H1 H2] H3]. destruct (between d 1 65535) as [Hr _]; lia || by apply SFleb_ltb || done.
  - destruct (long_text t) as [pv|]; [|lia]. destruct (_ && _) eqn:E; lia.
Qed.

Lemma row_port_of s p : port_of s p -> row_port (json_obj_get s (lit "port")) = p.
Proof.
  intros [[Hp Hf]|[Hno ->]].
  - apply obj_get_field in Hf. rewrite Hf. unfold row_port. rewrite to_long_dbl, !dbl_leb, dbl_eqb, Z.eqb_refl by lia. by replace ((1 <=? p) && (p <=? 65535) && true) with true by lia.
  - destruct (json_obj_get s (lit "port")) as [j|] eqn:E; [|done]. apply obj_get_field in E. by apply Hno in E.
Qed.

(** A row: number, name, blanks up to column 30, host and port. *)
Definition row_of (i : Z) (s : Json) (row : bytes) : Prop :=
  exists cps host p, row = dec2 (i + 1) ++ lit ". " ++ concat (map utf8_encode cps) ++ fill 32 (30 - columns cps) ++ lit " " ++ host ++ lit ":" ++ dec_str p /\
    (clean (str_field s (lit "name")) -> concat (map utf8_encode cps) = str_field s (lit "name")) /\ (clean (str_field s (lit "host")) -> host = str_field s (lit "host")) /\
    1 <= p <= 65535 /\ forall q, port_of s q -> p = q.

Lemma print_row_spec i s : strings_ok s -> exists row, print_row i s = Ret (row ++ [10]) /\ (0 <= i < 2 ^ 63 -> clean row /\ row_of i s row).
Proof.
  intros Hs. unfold print_row. destruct (text_field s (lit "name")) as (n & -> & En); [done|]. destruct (text_field s (lit "host")) as (h & -> & Eh); [done|]. rewrite get_plain by done. cbn [rbind].
  change (default [] n) with (str_or n). change (default [] h) with (str_or h). rewrite En, Eh. pose proof (str_field_cstr s (lit "name") Hs) as Hn. pose proof (str_field_cstr s (lit "host") Hs) as Hh.
  destruct (printable_total _ (cstr_bytes_ok _ Hn)) as (nm & -> & Hcn & _ & Hidn). destruct (printable_total _ (cstr_bytes_ok _ Hh)) as (hs & -> & Hch & _ & Hidh). cbn [rbind].
  destruct (width_clean nm Hcn) as (cps & -> & Hsh & ->). cbn [rbind]. set (p := row_port _). assert (1 <= p <= 65535) as Hp by apply row_port_range.
  exists (dec2 (i + 1) ++ lit ". " ++ concat (map utf8_encode cps) ++ fill 32 (30 - columns cps) ++ lit " " ++ hs ++ lit ":" ++ dec_str p). split; [|intros Hi; split].
  - assert (fill 32 (if columns cps <? 30 then 30 - columns cps else 0) = fill 32 (30 - columns cps)) as -> by (unfold fill; f_equal; destruct (_ <? _) eqn:E; lia). repeat (rewrite <- app_assoc; cbn [app]). done.
  - repeat apply printable_app; try done; try apply blanks_clean; try (apply dec_clean; lia); apply clean_ascii; by repeat constructor.
  - exists cps, hs, p. split_and!; [done|done|done|lia|lia|]. intros q Hq. by apply row_port_of.
Qed.

Lemma print_rows_spec l i : Forall strings_ok l ->
  exists rows, print_rows i l = Ret (typed rows) /\ length rows = length l /\
    (0 <= i -> i + zlen l <= 2 ^ 63 -> Forall clean rows /\ forall k s row, l !! k = Some s -> rows !! k = Some row -> row_of (i + Z.of_nat k) s row).
Proof.
  intros Hl. revert i. induction Hl as [|s l Hs Hl IH]; intros i; [exists []; split_and!; done || constructor|]. cbn [print_rows].
  destruct (print_row_spec i s Hs) as (row & -> & Hr). destruct (IH (i + 1)) as (rows & -> & Hlen & Hrs). cbn [rbind]. exists (row :: rows). split_and!; [done|cbn; lia|].
  intros Hi Hn. rewrite zlen_cons in Hn. pose proof (zlen_nonneg l). destruct Hr as [Hc Hr]; [lia|]. destruct Hrs as [Hcs Hrs]; [lia|lia|]. split; [by constructor|].
  intros [|k] s' row'; cbn [lookup list_lookup]; [intros [= <-] [= <-]; by rewrite Z.add_0_r|]. intros H1 H2. replace (i + Z.of_nat (S k)) with (i + 1 + Z.of_nat k) by lia. by apply Hrs.
Qed.

(** [oidc_print_servers] prints exactly one line for each server, in order, whatever names and
    hosts the controller sent: a line holds no control character and is made of shortest UTF-8
    encodings, so that no name can forge a line or move the cursor.  Names and hosts that are clean appear unchanged, the
    host begins in the same column for every name of at most 30 columns, and the port is the one the entry is reached at. *)
Theorem print_exact (l : list Json) : Forall strings_ok l -> zlen l <= 2 ^ 63 ->
  exists rows, oidc_print_servers (J_arr l) = Ret (typed rows) /\ length rows = length l /\
    Forall (fun row => clean row /\ Forall (fun c => 32 <= c < 256 /\ c <> 127) row) rows /\
    forall i s row, l !! i = Some s -> rows !! i = Some row -> row_of (Z.of_nat i) s row.
Proof.
  intros Hl Hn. destruct (print_rows_spec l 0 Hl) as (rows & E & Hlen & Hr). destruct Hr as [Hc Hr]; [lia|lia|]. exists rows. split_and!; [done|done| |done]. eapply Forall_impl; [exact Hc|]. intros row H. split; [done|by apply clean_bytes].
Qed.

(** ** The password *)

Section PasswordProofs.
Context `{OpenSSL}.

(** [stored_password] always gives a password. *)
Lemma stored_runs stored dom user : exists pw note, stored_password stored dom user = Ret (Some (pw, note)).
Proof.
  unfold stored_password. cbn [oidc_unwrap_password]. destruct (finds_password (default [] stored) dom (default [] user)) as (o & -> & _). cbn [rbind]. destruct o as [p|]; [by eexists _, _|].
  unfold blob_looks_encrypted. destruct (b64url_bytes (default [] stored)) as (r & -> & _). by eexists _, _.
Qed.

(** [stored_password] returns for every stored value: what it decrypts to under this domain and user,
    else the value itself, with a warning exactly when it has the shape of a ciphertext. *)
Theorem stored_exact (stored : option bytes) (dom : bytes) (user : option bytes) :
  exists pw note, stored_password stored dom user = Ret (Some (pw, note)) /\
    match note with
    | N_decrypted => exists p, decrypts (str_or stored) dom (str_or user) p /\ pw = cstr p
    | _ => (forall p, ~ decrypts (str_or stored) dom (str_or user) p) /\ pw = str_or stored /\
           (note = N_suspect <-> exists raw, b64url_decode pw = Ret (Some raw) /\ 28 <= zlen raw)
    end.
Proof.
  unfold stored_password. cbn [oidc_unwrap_password]. destruct (finds_password (str_or stored) dom (str_or user)) as (o & E & Ho). unfold str_or in *. rewrite E. cbn [rbind].
  destruct o as [p|]; [eexists _, _; split; [done|]; exists p; split; [by apply Ho|done]|]. assert (forall p, ~ decrypts (default [] stored) dom (default [] user) p) as Hno by (intros p Hp; by apply Ho in Hp).
  unfold blob_looks_encrypted. destruct (b64url_bytes (default [] stored)) as (r & Er & _). rewrite Er. cbn [rbind]. eexists _, _. split; [done|]. change (GCM_NONCE_LEN + GCM_TAG_LEN) with 28.
  destruct r as [raw|]; [destruct (zlen raw >=? 28) eqn:El|]; (split_and!; [done|done|]); rewrite Er; split; try done; [intros _; exists raw; split; [done|lia]|intros (raw' & [= <-] & ?); lia|by intros (raw' & ? & _)].
Qed.

End PasswordProofs.

(** ** A list and its rows *)

Module Demo.

Definition entries : list Json :=
  [J_obj [(lit "name", J_str ([27; 99; 10] ++ lit "evil")); (lit "host", J_str (lit "h1")); (lit "port", J_num (dbl 80))];
   J_obj [(lit "name", J_str [228; 184; 173]); (lit "host", J_str (lit "FE80::1"))];
   J_obj [(lit "name", J_str (lit "C")); (lit "host", J_str (lit "h3")); (lit "port", J_num (dbl 70000))]].

Lemma entries_ok : Forall strings_ok entries.
Proof. repeat (apply Forall_cons; split); [..|constructor]; cbn; split_and!; try done; apply (bool_decide_unpack _); vm_compute; exact I. Qed.

Lemma find_exact_witness :
  oidc_find_server (J_arr entries) (lit "[fe80::1]:6001") = Ret (FOUND (default J_null (entries !! 1%nat))) /\
  (exists d, oidc_find_server (J_arr entries) (lit "h3:443") = Ret (FIND_DIE d (lit "C"))) /\
  exists r, oidc_find_server (J_arr entries) (lit "H1:80") = Ret r /\
    match r with
    | FOUND s => exists l1 l2, entries = l1 ++ s :: l2 /\ Forall (fun x => ~ addressed (lit "H1:80") x /\ ~ unusable (lit "H1:80") x) l1 /\ addressed (lit "H1:80") s
    | NOT_FOUND => Forall (fun x => ~ addressed (lit "H1:80") x /\ ~ unusable (lit "H1:80") x) entries
    | FIND_DIE _ shown => exists l1 s l2, entries = l1 ++ s :: l2 /\ Forall (fun x => ~ addressed (lit "H1:80") x /\ ~ unusable (lit "H1:80") x) l1 /\ unusable (lit "H1:80") s /\ clean shown
    end.
Proof. split; [vm_compute; reflexivity|]. split; [eexists; vm_compute; reflexivity|]. exact (find_exact entries (lit "H1:80") entries_ok). Defined.

Lemma print_exact_witness :
  oidc_print_servers (J_arr entries) = Ret (typed
    [lit " 1. ?c?evil                        h1:80"; lit " 2. " ++ [228; 184; 173] ++ lit "                             FE80::1:6001"; lit " 3. C                              h3:6001"]) /\
  exists rows, oidc_print_servers (J_arr entries) = Ret (typed rows) /\ length rows = length entries /\
    Forall (fun row => clean row /\ Forall (fun c => 32 <= c < 256 /\ c <> 127) row) rows /\
    forall i s row, entries !! i = Some s -> rows !! i = Some row -> row_of (Z.of_nat i) s row.
Proof. split; [vm_compute; reflexivity|]. apply (print_exact entries entries_ok). vm_compute. discriminate. Defined.

(** Blanks and a sign before the digits of a port are accepted. *)
Lemma port_text_blank : long_text (lit "  +443") = Some 443 /\ long_text (lit "443 ") = None.
Proof. done. Qed.

(** A port written as a text is shown in the list, and refused when the server is chosen. *)
Lemma port_text_listed :
  let s := J_obj [(lit "name", J_str (lit "D")); (lit "host", J_str (lit "h4")); (lit "port", J_str (lit "8443"))] in
  oidc_print_servers (J_arr [s]) = Ret (typed [lit " 1. D                              h4:8443"]) /\ exists raw, oidc_server_port s = Ret (PORT_BAD raw).
Proof. split; [vm_compute; reflexivity|]. eexists. vm_compute. reflexivity. Qed.

End Demo.
