(* ===== verification/OidcConnect.v ===== *)
(** * Connecting to a chosen server (src/src/oidc/oidc_connect.c, src/src/common/cli_common.c, addr.c, tun.h)

    [oidc_connect_server] from the choice of an entry to the end of its reconnect loop, as the
    sequence of what it does to sockets, devices and signal handlers.  The runners [run_pump] and [run_socks] are
    the return codes of the record [attempt], one for each turn of the loop; [run_socks] closes the socket it is
    given. *)

From Stdlib Require Import Floats.SpecFloat.
From S2P Require Import Prelude Util Crypto Protocol Ipv4 Session Open Auth ProtoParse Http Json OidcText Jwt Double Oidc OidcPath OidcConfig OidcSelect.
Import Scan.

(** ** Shared helpers *)

Record SocksConfig := {
  listen_addr : bytes * Z;
  auth_token : option bytes;
  allow_remote : bool;
  open_proxy : bool;
  ipv6 : bool;
  inner_ip : Z;
  gateway : Z;
  mtu : Z;
  xor_key : bytes;
  sid : Z;
  token : Z;
  encryption : Z;
  dns : bytes
}.

Section Helpers.
Context `{Inet, OpenSSL}.

Definition parse_host_port (s : bytes) : option (bytes * Z) :=
  match from (Z.eqb 58) s with
  | [] => None
  | _ :: r =>
      let ip := upto (Z.eqb 58) s in
      if (zlen ip =? 0) || existsb (Z.eqb 58) r || (zlen ip >=? 128) then None
      else
        match inet_pton4 ip with
        | None => None
        | Some a => match str_to_u16 r with Some port => Some (a, port) | None => None end
        end
  end.

Definition check_server_ip (server : bytes) : res bool :=
  let! c0 := rdc server 0 in
  let ok ip := match inet_pton4 ip, inet_pton6 ip with None, None => false | _, _ => true end in
  if c0 =? 91 (* [ *) then let! ip := unbracket_ipv6 server 64 in Ret (ok ip)
  else if existsb (Z.eqb 58) server then Ret false
  else Ret (ok server).

Definition reserved : list bytes :=
  [lit "eth"; lit "enp"; lit "eno"; lit "ens"; lit "wlp"; lit "wlo"; lit "wwan"; lit "docker"; lit "br-"; lit "veth"; lit "tailscale";
   lit "br0"; lit "virbr"; lit "vmbr"; lit "bond"; lit "team"; lit "ovs"; lit "tap"; lit "tun"; lit "vxlan"; lit "vlan"; lit "dummy"; lit "wg"; lit "ppp"; lit "gre"; lit "sit"].

Definition tun_name_reserved (name : bytes) : bool :=
  beq name (lit "lo") || existsb (fun r => beq (take (length r) name) r) reserved.

Definition lower (c : Z) : bool := (97 <=? c) && (c <=? 122).

Definition tun_name_valid (name : bytes) : bool :=
  if (zlen name =? 0) || (zlen name >? 15) then false
  else if negb (lower (hd 0 name)) then false
  else if negb (forallb (fun c => lower c || isdigit c || (c =? 45) || (c =? 95)) name) then false
  else negb (tun_name_reserved name).

(** The two addresses, or the code for the one that is missing. *)
Definition auth_result_addrs (r : AuthResult) : (Z * Z) + Z :=
  match s2ip4 (r_tun r) with
  | None => inr 0
  | Some b => match s2ip4 (r_gw r) with None => inr (-1) | Some g => inl (ip4_u32 b, ip4_u32 g) end
  end.

Definition socks_cfg_from_auth (cfg : SocksConfig) (r : AuthResult) (inner gw : Z) (sk : bytes) (m : Z) : SocksConfig :=
  {| listen_addr := listen_addr cfg; auth_token := auth_token cfg; allow_remote := allow_remote cfg; open_proxy := open_proxy cfg; ipv6 := ipv6 cfg;
     inner_ip := inner; gateway := gw; mtu := if m <? IWAN_MTU_MIN then IWAN_MTU_MIN else if m >? IWAN_MTU_MAX then IWAN_MTU_MAX else m;
     xor_key := take 8 sk; sid := r_sid r; token := r_tok r; encryption := r_enc r; dns := snprintf 16 (r_dns r) |}.

Definition collect_routes (cidr ips domains : list bytes) : list bytes := cidr ++ ips ++ domains.
Definition collect_routes6 (cidr6 : list bytes) : list bytes := cidr6.

(** [inr] is the stage that failed. *)
Definition authenticate_ex (user password : bytes) (ct_pass : option bytes) (m nonce : Z) (rounds : list round) : res (AuthResult + Z) :=
  let! ct := get_ct user password ct_pass in
  match ct with
  | None => Ret (inr (-1))
  | Some ct =>
      let! open := build_open [] user ct m 1 nonce in
      match open with
      | None => Ret (inr (-2))
      | Some pkt => let! r := do_auth rounds pkt nonce in Ret match r.1 with Some a => inl a | None => inr (-3) end
      end
  end.

End Helpers.

(** ** The connection *)

Record Opts := mk_opts {
  o_server : option bytes;
  o_tun : bytes;
  o_socks : bool;
  o_listen : option bytes;
  o_mtu : Z;                       (* socks_mtu *)
  o_cidr : list bytes;
  o_ip : list bytes;
  o_domain : list bytes;
  o_cidr6 : list bytes;
  o_token : option bytes;
  o_no_token : bool;
  o_allow_remote : bool;
  o_ipv6 : bool
}.

(** One turn of the loop: the word drawn, the exchange with the server, the code of the runner and
    whether the user has asked to stop when the wait after it is over. *)
Record attempt := { at_nonce : Z; at_rounds : list round; at_rc : Z; at_stop : bool }.

Record World := {
  w_stdin : bytes;
  w_tun : bool;                    (* open_tun succeeds *)
  w_proxy : bool;                  (* relay_proxy_start succeeds *)
  w_attempt : nat -> attempt
}.

(** Sockets are named by the turn that opened them. *)
Inductive event :=
  | Ev_tun (name : bytes)
  | Ev_proxy (listen : bytes)
  | Ev_signals
  | Ev_auth (k : nat) (host : bytes) (port : Z) (ok : bool)
  | Ev_pump (k : nat) (key : bytes) (sid tok enc : Z) (host : bytes) (routes routes6 : list bytes) (tun : bytes) (mtu : Z)
  | Ev_socks (k : nat) (cfg : SocksConfig)
  | Ev_close (k : nat)
  | Ev_sleep (ms : Z)
  | Ev_restore
  | Ev_proxy_stop
  | Ev_tun_close.

Inductive stop_reason :=
  | S_no_servers | S_no_match | S_find (raw : spec_float) (shown : bytes) | S_select | S_no_host
  | S_bad_port (raw : spec_float) (shown : bytes) | S_address | S_no_user (shown : bytes) | S_tun_name | S_tun
  | S_password | S_derive | S_user_long | S_auth | S_listen.

Inductive ending := E_stopped | E_exit | E_die (r : stop_reason) | E_running.

Section Connect.
Context `{Inet, OpenSSL}.
Context (o : Opts) (w : World).

(** [run_socks_mode]: its return code, or [oidc_die]. *)
Definition run_socks_mode (k : nat) (sk : bytes) (r : AuthResult) (log : list event) : res ((Z + stop_reason) * list event) :=
  match auth_result_addrs r with
  | inr _ => Ret (inl (-1), Ev_close k :: log)
  | inl (ip, gw) =>
      let! listen := match o_listen o with Some l => Ret l | None => Fault OutOfBounds end in
      match parse_host_port listen with
      | None => Ret (inr S_listen, log)
      | Some addr =>
          let cfg := {| listen_addr := addr; auth_token := o_token o; allow_remote := o_allow_remote o; open_proxy := o_no_token o; ipv6 := o_ipv6 o;
                        inner_ip := 0; gateway := 0; mtu := 0; xor_key := fill 0 8; sid := 0; token := 0; encryption := 0; dns := [] |} in
          let cfg := socks_cfg_from_auth cfg r ip gw sk (if r_mtu r <? o_mtu o then r_mtu r else o_mtu o) in
          Ret (inl (at_rc (w_attempt w k)), Ev_socks k cfg :: log)
      end
  end.

(** [oidc_socks_reauth_cb]: the code, the configuration, refreshed for 0, and what was done. *)
Definition oidc_socks_reauth_cb (cfg : SocksConfig) (k : nat) (host : bytes) (port : Z) (user dom : bytes) (encrypted_pw : option bytes) : res (Z * SocksConfig * list event) :=
  let a := w_attempt w k in
  let! pw := stored_password encrypted_pw dom (Some user) in
  match pw with
  | None => Ret (-1, cfg, [])
  | Some (password, _) =>
      let! r := authenticate_ex user password None (o_mtu o) (at_nonce a) (at_rounds a) in
      match r with
      | inr _ => Ret (-1, cfg, [Ev_auth k host port false])
      | inl r =>
          match auth_result_addrs r with
          | inr _ => Ret (-1, cfg, [Ev_auth k host port true; Ev_close k])
          | inl (ip, gw) =>
              Ret (0, socks_cfg_from_auth cfg r ip gw (session_key user password) (if r_mtu r <? o_mtu o then r_mtu r else o_mtu o), [Ev_auth k host port true])
          end
      end
  end.

(** The loop, at most [n] turns of it; the newest event is first. *)
Fixpoint connect_loop (n k : nat) (host : bytes) (port : Z) (user dom : bytes) (encrypted_pw : option bytes) (reconnecting : bool) (log : list event) : res (ending * list event) :=
  match n with
  | O => Ret (E_running, log)
  | S n =>
      let a := w_attempt w k in
      let! pw := stored_password encrypted_pw dom (Some user) in
      match pw with
      | None => Ret (E_die S_password, log)
      | Some (password, _) =>
          let! r := authenticate_ex user password None (o_mtu o) (at_nonce a) (at_rounds a) in
          match r with
          | inr code =>
              let log := Ev_auth k host port false :: log in
              if code =? -1 then Ret (E_die S_derive, log)
              else if code =? -2 then Ret (E_die S_user_long, log)
              else if negb reconnecting then Ret (E_die S_auth, log)
              else
                let log := Ev_sleep 3000 :: log in
                if at_stop a then Ret (E_stopped, log) else connect_loop n (S k) host port user dom encrypted_pw reconnecting log
          | inl r =>
              let log := Ev_auth k host port true :: log in
              let sk := session_key user password in
              let! run :=
                if o_socks o then run_socks_mode k sk r log
                else
                  let routes := collect_routes (o_cidr o) (o_ip o) (o_domain o) in
                  Ret (inl (at_rc a), Ev_close k :: Ev_pump k sk (r_sid r) (r_tok r) (r_enc r) host routes (collect_routes6 (o_cidr6 o)) (r_tun r) (r_mtu r) :: log) in
              let '(rc, log) := run in
              match rc with
              | inr d => Ret (E_die d, log)
              | inl rc =>
                  if rc <? 0 then Ret (E_exit, log)
                  else if rc =? 0 then Ret (E_stopped, log)
                  else
                    let log := Ev_sleep 1000 :: log in
                    if at_stop a then Ret (E_stopped, log) else connect_loop n (S k) host port user dom encrypted_pw true log
              end
          end
      end
  end.

(** What follows the loop when it is left. *)
Definition teardown (tun proxy : bool) (log : list event) : list event :=
  let log := Ev_restore :: log in
  let log := if proxy then Ev_proxy_stop :: log else log in
  if tun then Ev_tun_close :: log else log.

(** The session part: device, side proxy, loop and teardown. *)
Definition connect_session (n : nat) (host : bytes) (port : Z) (user dom : bytes) (encrypted_pw : option bytes) : res (ending * list event) :=
  let run tun proxy log :=
    let! r := connect_loop n 0 host port user dom encrypted_pw false (Ev_signals :: log) in
    Ret match r with (E_stopped, log) => (E_stopped, teardown tun proxy log) | r => r end in
  if o_socks o then run false false []
  else if negb (tun_name_valid (o_tun o)) then Ret (E_die S_tun_name, [])
  else if negb (w_tun w) then Ret (E_die S_tun, [])
  else
    match o_listen o with
    | Some listen => if w_proxy w then run true true [Ev_proxy listen; Ev_tun (o_tun o)] else run true false [Ev_tun (o_tun o)]
    | None => run true false [Ev_tun (o_tun o)]
    end.

(** The chosen entry, or the reason to die. *)
Definition choose_server (servers : Json) : res (Json + stop_reason) :=
  match o_server o with
  | Some spec =>
      let! f := oidc_find_server servers spec in
      Ret match f with FOUND s => inl s | NOT_FOUND => inr S_no_match | FIND_DIE raw shown => inr (S_find raw shown) end
  | None => let! s := oidc_select_server servers (w_stdin w) in Ret match s with Some s => inl s | None => inr S_select end
  end.

(** The events in order, and how the run ends; [n] bounds the turns of the loop that are looked at. *)
Definition oidc_connect_server (n : nat) (cf : Config) : res (ending * list event) :=
  let die r := Ret (E_die r, []) in
  match servers cf with
  | Some (J_arr (e :: l)) =>
      let! c := choose_server (J_arr (e :: l)) in
      match c with
      | inr r => die r
      | inl srv =>
          let! name := json_get_str (Some srv) (lit "name") in
          let! host := json_get_str (Some srv) (lit "host") in
          match host with
          | Some (c :: h) =>
              let host := c :: h in
              let! pr := oidc_server_port srv in
              match pr with
              | PORT_BAD raw => let! shown := oidc_printable_dup (default host name) in die (S_bad_port raw shown)
              | _ =>
                  let port := match pr with PORT_OK v => v | _ => OIDC_DEFAULT_PORT end in
                  let! user := json_get_str (Some srv) (lit "username") in
                  let! pw := json_get_str (Some srv) (lit "passWord") in
                  let! ok := check_server_ip host in
                  if negb ok then die S_address
                  else
                    match user with
                    | Some (u :: us) => let! r := connect_session n host port (u :: us) (domain cf) pw in Ret (r.1, rev r.2)
                    | _ => let! shown := oidc_printable_dup (default host name) in die (S_no_user shown)
                    end
              end
          | _ => die S_no_host
          end
      end
  | _ => die S_no_servers
  end.

End Connect.

(** * Specification *)

(** The life of a run: what is held. *)
Inductive phase :=
  | Setup (tun proxy : bool)
  | Idle (tun proxy : bool)
  | Live (k : nat) (tun proxy : bool)
  | Ran (k : nat) (tun proxy : bool)
  | Down (tun proxy : bool).

(** A step of the life; [None] for an event out of place. *)
Definition life (e : event) (p : phase) : option phase :=
  match e, p with
  | Ev_tun _, Setup false false => Some (Setup true false)
  | Ev_proxy _, Setup true false => Some (Setup true true)
  | Ev_signals, Setup t p => Some (Idle t p)
  | Ev_auth _ _ _ false, Idle t p => Some (Idle t p)
  | Ev_auth k _ _ true, Idle t p => Some (Live k t p)
  | Ev_pump k _ _ _ _ _ _ _ _ _, Live k' true p => if Nat.eqb k k' then Some (Ran k true p) else None
  | Ev_socks k _, Live k' false p => if Nat.eqb k k' then Some (Idle false p) else None
  | Ev_close k, Live k' t p => if Nat.eqb k k' then Some (Idle t p) else None
  | Ev_close k, Ran k' t p => if Nat.eqb k k' then Some (Idle t p) else None
  | Ev_sleep _, Idle t p => Some (Idle t p)
  | Ev_restore, Idle t p => Some (Down t p)
  | Ev_proxy_stop, Down t true => Some (Down t false)
  | Ev_tun_close, Down true false => Some (Down false false)
  | _, _ => None
  end.

(** The phase after a log, newest event first. *)
Definition reached (log : list event) : option phase := foldr (fun e p => match p with Some p => life e p | None => None end) (Some (Setup false false)) log.

Section Spec.
Context `{Inet, OpenSSL}.
Context (o : Opts) (w : World) (host : bytes) (port : Z) (user dom : bytes) (encrypted_pw : option bytes).

(** The exchange of turn [k] was accepted with [r], under the password that is stored. *)
Definition accepted (k : nat) (r : AuthResult) (key : bytes) : Prop :=
  exists pw note ct pkt n, stored_password encrypted_pw dom (Some user) = Ret (Some (pw, note)) /\ key = session_key user pw /\
    get_ct user pw None = Ret (Some ct) /\ build_open [] user ct (o_mtu o) 1 (at_nonce (w_attempt w k)) = Ret (Some pkt) /\
    do_auth (at_rounds (w_attempt w k)) pkt (at_nonce (w_attempt w k)) = Ret (Some r, n).

(** The configuration of the SOCKS stack is that of the session accepted in turn [k]. *)
Definition session_of (k : nat) (cfg : SocksConfig) : Prop :=
  exists r b g key, accepted k r key /\ s2ip4 (r_tun r) = Some b /\ s2ip4 (r_gw r) = Some g /\ inner_ip cfg = ip4_u32 b /\ gateway cfg = ip4_u32 g /\ xor_key cfg = take 8 key /\
    sid cfg = r_sid r /\ token cfg = r_tok r /\ encryption cfg = r_enc r /\ mtu cfg = clamp_mtu (Z.min (r_mtu r) (o_mtu o)) /\ IWAN_MTU_MIN <= mtu cfg <= IWAN_MTU_MAX.

(** A session runs on what the server has accepted. *)
Definition event_ok (e : event) : Prop :=
  match e with
  | Ev_auth _ h p _ => h = host /\ p = port
  | Ev_pump k key s t en h rs rs6 ip m => o_socks o = false /\ h = host /\ rs = o_cidr o ++ o_ip o ++ o_domain o /\ rs6 = o_cidr6 o /\ exists r, accepted k r key /\ s = r_sid r /\ t = r_tok r /\ en = r_enc r /\ ip = r_tun r /\ m = r_mtu r
  | Ev_socks k cfg => (o_socks o = true /\ auth_token cfg = o_token o /\ allow_remote cfg = o_allow_remote o /\ open_proxy cfg = o_no_token o) /\ session_of k cfg
  | _ => True
  end.

(** What is held when a run ends so. *)
Definition end_ok (e : ending) (p : phase) : Prop :=
  match e with
  | E_stopped => p = Down false false
  | E_exit | E_running => exists tun proxy, p = Idle tun proxy
  | E_die _ => match p with Ran _ _ _ | Down _ _ => False | _ => True end
  end.
End Spec.

(** * Proofs *)

Section Proofs.
Context `{Inet, OpenSSLLaws}.

Lemma auth_loop_total k rounds pkt nonce : Forall (fun rd => forall d, rd.2 = Some d -> bytes_ok d) rounds -> exists r, auth_loop k rounds pkt nonce = Ret r.
Proof.
  revert rounds. induction k as [|k IH]; intros rounds Hr; [by eexists|]. cbn [auth_loop]. destruct Hr as [|[rs reply] rest Hd Hr]; [by eexists|]. destruct (auth_send_open rs pkt).2; [|by eexists]. destruct reply as [d|].
  - destruct (parse_ack_total d nonce (Hd d eq_refl)) as (r & ->). by eexists.
  - destruct (IH rest Hr) as ([a n] & ->). by eexists.
Qed.

Lemma get_ct_total user pw : exists o, get_ct user pw None = Ret o /\ forall ct, o = Some ct -> bytes_ok ct /\ zlen ct = 16.
Proof.
  unfold get_ct, encrypt_password. destruct (EVP_aes_128_ecb _ _) as [ct|] eqn:E; cbn; eexists; (split; [done|]); [|done].
  intros ct' [= <-]. split; [by eapply EVP_aes_128_ecb_bytes|by eapply EVP_aes_128_ecb_len].
Qed.

Lemma authenticate_total user pw m nonce rounds : bytes_ok user -> Forall (fun rd => forall d, rd.2 = Some d -> bytes_ok d) rounds ->
  exists r, authenticate_ex user pw None m nonce rounds = Ret r /\
    forall a, r = inl a -> exists ct pkt n, get_ct user pw None = Ret (Some ct) /\ build_open [] user ct m 1 nonce = Ret (Some pkt) /\ do_auth rounds pkt nonce = Ret (Some a, n).
Proof.
  intros Hu Hr. unfold authenticate_ex. destruct (get_ct_total user pw) as (o & -> & Ho). cbn [rbind]. destruct o as [ct|]; [|by eexists]. destruct (Ho ct eq_refl) as [Hc Hl].
  assert (exists p, build_open [] user ct m 1 nonce = Ret p) as (p & Ep).
  { destruct (decide (zlen user <= IWAN_TLV_VLEN_MAX)); [rewrite build_open_ok by done; by eexists|]. unfold build_open. replace (zlen user >? IWAN_TLV_VLEN_MAX) with true by lia. by eexists. }
  rewrite Ep. cbn [rbind]. destruct p as [pkt|]; [|by eexists]. destruct (auth_loop_total AUTH_SEND_MAX rounds pkt nonce Hr) as ([[a|] n] & E); unfold do_auth; rewrite E; cbn [rbind fst]; eexists; (split; [done|]); [|done].
  intros a' [= <-]. exists ct, pkt, n. by rewrite E.
Qed.

Lemma cfg_session o w user dom encrypted_pw k r key cfg b g : accepted o w user dom encrypted_pw k r key -> s2ip4 (r_tun r) = Some b -> s2ip4 (r_gw r) = Some g ->
  session_of o w user dom encrypted_pw k (socks_cfg_from_auth cfg r (ip4_u32 b) (ip4_u32 g) key (if r_mtu r <? o_mtu o then r_mtu r else o_mtu o)).
Proof.
  intros Ha Eb Eg. exists r, b, g, key. cbn [socks_cfg_from_auth xor_key inner_ip gateway sid token encryption mtu]. split; [done|].
  split_and!; try done; unfold clamp_mtu, IWAN_MTU_MIN, IWAN_MTU_MAX; destruct (r_mtu r <? o_mtu o) eqn:E; ifs; lia.
Qed.

Section Loop.
Context (o : Opts) (w : World) (host : bytes) (port : Z) (user dom : bytes) (encrypted_pw : option bytes).
Context (Huser : bytes_ok user) (Hw : forall k, Forall (fun rd => forall d, rd.2 = Some d -> bytes_ok d) (at_rounds (w_attempt w k))).
Context (Hlisten : o_socks o = true -> exists l, o_listen o = Some l).

Local Abbreviation event_ok := (event_ok o w host port user dom encrypted_pw).
Local Abbreviation accepted := (accepted o w user dom encrypted_pw).

(** Where the loop leaves the run. *)
Definition loop_ok (p : bool) (e : ending) (log : list event) : Prop :=
  Forall event_ok log /\ exists ph, reached log = Some ph /\
    match e with E_die _ => match ph with Ran _ _ _ | Down _ _ => False | _ => True end | _ => ph = Idle (negb (o_socks o)) p end.

Lemma socks_mode_ok p k sk r log : accepted k r sk -> o_socks o = true -> Forall event_ok log -> reached log = Some (Live k false p) ->
  exists rc log', run_socks_mode o w k sk r log = Ret (rc, log') /\ Forall event_ok log' /\
    match rc with inl _ => reached log' = Some (Idle false p) | inr _ => log' = log end.
Proof.
  intros Ha Hs Hl Hp. unfold run_socks_mode, auth_result_addrs. assert (reached (Ev_close k :: log) = Some (Idle false p)) as Hclose by (cbn; fold (reached log); rewrite Hp; cbn; by rewrite Nat.eqb_refl).
  destruct (s2ip4 (r_tun r)) as [b|] eqn:Eb; [|eexists _, _; split; [done|]; split; [by constructor|done]]. destruct (s2ip4 (r_gw r)) as [g|] eqn:Eg; [|eexists _, _; split; [done|]; split; [by constructor|done]].
  destruct (Hlisten Hs) as (l & ->). cbn [rbind]. destruct (parse_host_port l); eexists _, _; (split; [done|]); [|done]. split; [|cbn; fold (reached log); rewrite Hp; cbn; by rewrite Nat.eqb_refl]. constructor; [|done]. split; [done|by apply cfg_session].
Qed.

Lemma reached_cons ev log ph : reached log = Some ph -> reached (ev :: log) = life ev ph.
Proof. intros E. cbn. fold (reached log). by rewrite E. Qed.

Lemma loop_runs n k p reconnecting log : Forall event_ok log -> reached log = Some (Idle (negb (o_socks o)) p) ->
  exists e log', connect_loop o w n k host port user dom encrypted_pw reconnecting log = Ret (e, log') /\ loop_ok p e log'.
Proof.
  revert k reconnecting log. induction n as [|n IH]; intros k rec log Hl Hp; cbn [connect_loop]; [eexists _, _; split; [done|]; split; [done|]; by eexists|].
  destruct (stored_runs encrypted_pw dom (Some user)) as (pw & note & Epw). rewrite Epw. cbn [rbind]. destruct (authenticate_total user pw (o_mtu o) (at_nonce (w_attempt w k)) (at_rounds (w_attempt w k)) Huser (Hw k)) as (r & -> & Hr). cbn [rbind].
  assert (forall e log, Forall event_ok log -> reached log = Some (Idle (negb (o_socks o)) p) -> exists e' log', Ret (e, log) = Ret (e', log') /\ loop_ok p e' log') as Hend.
  { intros e l Hlk Hpl. eexists _, _. split; [done|]. split; [done|]. eexists. split; [done|]. by destruct e. }
  assert (forall l b ms, Forall event_ok l -> reached l = Some (Idle (negb (o_socks o)) p) -> exists e' log',
    (if at_stop (w_attempt w k) then Ret (E_stopped, Ev_sleep ms :: l) else connect_loop o w n (S k) host port user dom encrypted_pw b (Ev_sleep ms :: l)) = Ret (e', log') /\ loop_ok p e' log') as Hwait.
  { intros l b ms Hlk Hpl. assert (reached (Ev_sleep ms :: l) = Some (Idle (negb (o_socks o)) p)) by (exact (reached_cons _ _ _ Hpl)). destruct (at_stop _); [apply Hend|apply IH]; done || by constructor. }
  destruct r as [r|code].
  - destruct (Hr r eq_refl) as (ct & pkt & m & E1 & E2 & E3). assert (accepted k r (session_key user pw)) as Ha by (by exists pw, note, ct, pkt, m). clear Hr.
    set (l1 := Ev_auth k host port true :: log). assert (Forall event_ok l1) as Hl1 by (by constructor). assert (reached l1 = Some (Live k (negb (o_socks o)) p)) as Hp1 by (exact (reached_cons _ _ _ Hp)).
    assert (exists rc l2, (if o_socks o then run_socks_mode o w k (session_key user pw) r l1
        else Ret (inl (at_rc (w_attempt w k)), Ev_close k :: Ev_pump k (session_key user pw) (r_sid r) (r_tok r) (r_enc r) host (collect_routes (o_cidr o) (o_ip o) (o_domain o)) (collect_routes6 (o_cidr6 o)) (r_tun r) (r_mtu r) :: l1)) = Ret (rc, l2) /\
      Forall event_ok l2 /\ match rc with inl _ => reached l2 = Some (Idle (negb (o_socks o)) p) | inr _ => l2 = l1 end) as (rc & l2 & -> & Hl2 & Hp2).
    { pose proof (socks_mode_ok p k (session_key user pw) r l1 Ha) as Hsocks. destruct (o_socks o) eqn:Es; cbn [negb] in *.
      - by apply Hsocks.
      - eexists _, _. split; [done|]. split; [constructor; [done|]; constructor; [|done]; split; [done|]; split; [done|]; split; [done|]; split; [done|]; by exists r|]. erewrite reached_cons; [|rewrite (reached_cons _ _ _ Hp1); cbn; rewrite Nat.eqb_refl; done]. cbn. by rewrite Nat.eqb_refl. }
    cbn [rbind]. destruct rc as [rc|d]; [|subst l2; eexists _, _; split; [done|]; split; [done|]; by eexists]. destruct (rc <? 0); [by apply Hend|]. destruct (rc =? 0); [by apply Hend|]. by apply Hwait.
  - set (l1 := Ev_auth k host port false :: log). assert (Forall event_ok l1) by (by constructor). assert (reached l1 = Some (Idle (negb (o_socks o)) p)) by (exact (reached_cons _ _ _ Hp)).
    destruct (code =? -1); [by apply Hend|]. destruct (code =? -2); [by apply Hend|]. destruct (negb rec); [by apply Hend|by apply Hwait].
Qed.

Lemma session_runs n : exists e log, connect_session o w n host port user dom encrypted_pw = Ret (e, log) /\ Forall event_ok log /\ exists ph, reached log = Some ph /\ end_ok e ph.
Proof.
  unfold connect_session. assert (forall p log, Forall event_ok log -> reached log = Some (Setup (negb (o_socks o)) p) -> (p = true -> o_socks o = false) ->
    exists e log', (let! r := connect_loop o w n 0 host port user dom encrypted_pw false (Ev_signals :: log) in Ret match r with (E_stopped, log) => (E_stopped, teardown (negb (o_socks o)) p log) | r => r end) = Ret (e, log') /\
      Forall event_ok log' /\ exists ph, reached log' = Some ph /\ end_ok e ph) as Hrun.
  { intros p log Hl Hp Hpo. destruct (loop_runs n 0 p false (Ev_signals :: log)) as (e & log' & -> & Hl' & ph & Hph & He); [by constructor|exact (reached_cons _ _ _ Hp)|]. cbn [rbind].
    destruct e as [| |d|]; [|eexists _, _; split; [done|]; split; [done|]; exists ph; split; [done|]..]; [|by eexists _, _|done|by eexists _, _].
    subst ph. eexists _, _. split; [done|]. unfold teardown. assert (reached (Ev_restore :: log') = Some (Down (negb (o_socks o)) p)) as Hd by (exact (reached_cons _ _ _ Hph)).
    split; [destruct p, (negb (o_socks o)); by repeat constructor|]. exists (Down false false). split; [|done]. destruct (o_socks o) eqn:Es; cbn [negb] in *; destruct p; try (by specialize (Hpo eq_refl)); [done| |].
    - erewrite reached_cons; [|rewrite (reached_cons _ _ _ Hd); done]. done.
    - exact (reached_cons _ _ _ Hd). }
  assert (forall d, exists e log, Ret (E_die d, []) = Ret (e, log) /\ Forall event_ok log /\ exists ph, reached log = Some ph /\ end_ok e ph) as Hdie
    by (intros d; eexists _, _; split; [done|]; split; [constructor|]; by eexists).
  destruct (o_socks o) eqn:Es; cbn [negb] in Hrun; [apply (Hrun false []); [constructor|done|done]|]. destruct (tun_name_valid _); cbn [negb]; [|apply Hdie]. destruct (w_tun w); cbn [negb]; [|apply Hdie].
  destruct (o_listen o) as [listen|]; [destruct (w_proxy w)|]; (apply Hrun; [by repeat constructor|done|done]).
Qed.
End Loop.

(** An address that can be dialled, with or without brackets. *)
Definition dials (host : bytes) : Prop := exists x, bare host x /\ ~ (inet_pton4 x = None /\ inet_pton6 x = None).

Lemma check_server_runs host : host <> [] -> exists b, check_server_ip host = Ret b /\ (b = true -> dials host).
Proof.
  assert (forall x, match inet_pton4 x, inet_pton6 x with None, None => false | _, _ => true end = true -> ~ (inet_pton4 x = None /\ inet_pton6 x = None)) as Hok
    by (intros x Hx [E1 E2]; by rewrite E1, E2 in Hx).
  intros Hne. destruct host as [|c h]; [done|]. unfold check_server_ip. rewrite rdc_cons. cbn [rbind]. destruct (c =? 91) eqn:E.
  - destruct (unbracket_runs (c :: h)) as (x & -> & Hx). eexists. split; [done|]. intros Hb. exists x. split; [done|by apply Hok].
  - destruct (existsb _ _); eexists; (split; [done|]); [done|]. intros Hb. exists (c :: h). split; [|by apply Hok]. right. split; [done|]. intros m _ [= ? _]. lia.
Qed.

Lemma stored_same s t dom user : str_or s = str_or t -> stored_password s dom user = stored_password t dom user.
Proof. unfold str_or, stored_password. by intros ->. Qed.

Lemma accepted_same o w user dom s t k r key : str_or s = str_or t -> accepted o w user dom s k r key -> accepted o w user dom t k r key.
Proof. intros E (pw & note & ct & pkt & m & Hs & Hrest). exists pw, note, ct, pkt, m. by rewrite <- (stored_same _ _ _ _ E). Qed.

Lemma event_same o w host port user dom s t e : str_or s = str_or t -> event_ok o w host port user dom s e -> event_ok o w host port user dom t e.
Proof.
  intros E. destruct e; try done; cbn [event_ok].
  - intros (? & ? & ? & ? & r & Ha & Hrest). split_and!; try done. exists r. split; [by eapply accepted_same|done].
  - intros (Hc & r & b & g & key & Ha & Hrest). split; [done|]. exists r, b, g, key. split; [by eapply accepted_same|done].
Qed.

Lemma choose_server_runs o w l : Forall strings_ok l -> exists c, choose_server o w (J_arr l) = Ret c /\
  forall s, c = inl s -> s ∈ l /\ forall spec, o_server o = Some spec -> addressed spec s.
Proof.
  intros Hl. unfold choose_server. destruct (o_server o) as [spec|].
  - unfold oidc_find_server. destruct (find_verdict l spec Hl) as (r & -> & Hr). cbn [rbind]. destruct r as [s| |]; eexists; (split; [done|]); [|done|done].
    intros s' [= <-]. destruct Hr as (l1 & s' & l2 & -> & _ & -> & Ha). split; [set_solver|]. by intros spec' [= <-].
  - unfold oidc_select_server. destruct (select_runs (S (length (w_stdin w))) l (w_stdin w)) as (r & E & Hr); [lia|]. rewrite E. cbn [rbind]. destruct r as [s|]; eexists; (split; [done|]); [|done]. intros s' [= <-]. split; [by apply Hr|done].
Qed.

(** The entry a run is for. *)
Definition runs_for (o : Opts) (w : World) (dom : bytes) (s : Json) (events : list event) : Prop :=
  exists port, let host := str_field s (lit "host") in let user := str_field s (lit "username") in
    (forall spec, o_server o = Some spec -> addressed spec s) /\ dials host /\ user <> [] /\ port_of s port /\
    Forall (event_ok o w host port user dom (Some (str_field s (lit "passWord")))) events.

Lemma connect_runs (o : Opts) (w : World) (n : nat) (cf : Config) (l : list Json) :
  servers cf = Some (J_arr l) -> Forall strings_ok l ->
  (forall k, Forall (fun rd => forall d, rd.2 = Some d -> bytes_ok d) (at_rounds (w_attempt w k))) ->
  (o_socks o = true -> exists a, o_listen o = Some a) ->
  exists e events ph, oidc_connect_server o w n cf = Ret (e, events) /\ reached (rev events) = Some ph /\ end_ok e ph /\
    (events <> [] -> exists s, s ∈ l /\ runs_for o w (domain cf) s events).
Proof.
  intros Es Hl Hw Hlisten. unfold oidc_connect_server. rewrite Es.
  assert (forall d, exists e events ph, Ret (E_die d, []) = Ret (e, events) /\ reached (rev events) = Some ph /\ end_ok e ph /\ (events <> [] -> exists s, s ∈ l /\ runs_for o w (domain cf) s events)) as Hdie
    by (intros d; eexists _, _, _; split; [done|]; split; [done|]; by split).
  destruct l as [|e0 l0]; [apply Hdie|]. set (l := e0 :: l0) in *. destruct (choose_server_runs o w l Hl) as (c & -> & Hc). cbn [rbind]. destruct c as [s|d]; [|apply Hdie]. destruct (Hc s eq_refl) as [Hin Haddr].
  assert (strings_ok s) as Hs by (by eapply Forall_forall in Hl). destruct (text_field s (lit "name")) as (name & -> & En); [done|]. destruct (text_field s (lit "host")) as (h & -> & Eh); [done|]. cbn [rbind].
  pose proof (str_field_cstr s (lit "host") Hs) as Hh. rewrite <- Eh in Hh. destruct h as [[|c0 h]|]; [apply Hdie| |apply Hdie]. cbn [str_or default] in Eh, Hh.
  assert (bytes_ok (default (c0 :: h) name)) as Hb.
  { destruct name as [nm|]; cbn; [|by apply cstr_bytes_ok]. apply cstr_bytes_ok. change nm with (str_or (Some nm)). rewrite En. by apply str_field_cstr. }
  destruct (printable_total _ Hb) as (shown & -> & _). destruct (server_port_runs s) as (pr & -> & Hpr). cbn [rbind].
  assert (forall port (Hport : port_of s port), exists e events ph,
    (let! user := json_get_str (Some s) (lit "username") in let! pw := json_get_str (Some s) (lit "passWord") in let! ok := check_server_ip (c0 :: h) in
     if negb ok then Ret (E_die S_address, []) else match user with
     | Some (u :: us) => let! r := connect_session o w n (c0 :: h) port (u :: us) (domain cf) pw in Ret (r.1, rev r.2)
     | _ => let! shown := Ret shown in Ret (E_die (S_no_user shown), []) end) = Ret (e, events) /\ reached (rev events) = Some ph /\ end_ok e ph /\ (events <> [] -> exists s, s ∈ l /\ runs_for o w (domain cf) s events)) as Hgo.
  { intros port Hport. destruct (text_field s (lit "username")) as (us & -> & Eu); [done|]. destruct (text_field s (lit "passWord")) as (pw & -> & Ew); [done|]. destruct (check_server_runs (c0 :: h)) as (ok & -> & Hok); [done|]. cbn [rbind].
    pose proof (str_field_cstr s (lit "username") Hs) as Hu. destruct ok; [|apply Hdie]. rewrite <- Eu in Hu. destruct us as [[|u us]|]; [apply Hdie| |apply Hdie]. cbn [negb str_or default] in *.
    destruct (session_runs o w (c0 :: h) port (u :: us) (domain cf) pw (cstr_bytes_ok _ Hu) Hw Hlisten n) as (e & log & -> & Hlog & ph & Hph & He). cbn [rbind fst snd].
    exists e, (rev log), ph. rewrite rev_involutive. split_and!; try done. intros _. exists s. split; [done|]. exists port. rewrite <- Eh, <- Eu. split_and!; try done; [by apply Hok|].
    apply Forall_rev. eapply Forall_impl; [exact Hlog|]. intros ev. apply event_same. rewrite Ew. done. }
  destruct pr as [v| |raw]; [apply Hgo; by left|apply Hgo; by right|apply Hdie].
Qed.

(** C15: [oidc_connect_server] returns for every list of entries, every answer at the prompt and every
    behaviour of the network, the device and the runners, for any number of turns of its loop.  What it does
    follows the life of a connection: the device is opened before the side proxy and closed after it, at most one
    socket is open at a time, each accepted exchange is run once, by the runner of its mode, and its socket
    closed before the next exchange; when the user stops it, handlers, proxy and device are released.  Nothing is
    touched unless an entry was chosen that has an address, a user and a port in range, every exchange is
    with that address and port, and every session runs under the identifiers the server accepted in that turn and
    the key of the entry's user and stored password, the SOCKS stack with an MTU in range. *)
Theorem connect_safe (o : Opts) (w : World) (n : nat) (cf : Config) (l : list Json) :
  servers cf = Some (J_arr l) -> Forall strings_ok l ->
  (forall k, Forall (fun rd => forall d, rd.2 = Some d -> bytes_ok d) (at_rounds (w_attempt w k))) ->
  (o_socks o = true -> exists a, o_listen o = Some a) ->
  exists e events ph, oidc_connect_server o w n cf = Ret (e, events) /\ reached (rev events) = Some ph /\ end_ok e ph /\
    (events <> [] -> exists s, s ∈ l /\ runs_for o w (domain cf) s events).
Proof. apply connect_runs. Qed.
End Proofs.

(** [oidc_socks_reauth_cb], called by the SOCKS stack when its session is lost: it returns; code 0 comes with
    the configuration of a session the server has just accepted, listener and access rules as they were, and
    a failed call leaves the configuration as it was and no socket open. *)
Section Reauth.
Context `{Inet, OpenSSLLaws}.

Theorem reauth_exact (o : Opts) (w : World) (cfg : SocksConfig) (k : nat) (host : bytes) (port : Z) (user dom : bytes) (encrypted_pw : option bytes) :
  bytes_ok user -> Forall (fun rd => forall d, rd.2 = Some d -> bytes_ok d) (at_rounds (w_attempt w k)) ->
  exists rc cfg' log, oidc_socks_reauth_cb o w cfg k host port user dom encrypted_pw = Ret (rc, cfg', log) /\
    ((rc = 0 /\ log = [Ev_auth k host port true] /\ session_of o w user dom encrypted_pw k cfg' /\
      listen_addr cfg' = listen_addr cfg /\ auth_token cfg' = auth_token cfg /\ allow_remote cfg' = allow_remote cfg /\ open_proxy cfg' = open_proxy cfg) \/
     (rc = -1 /\ cfg' = cfg /\ (log = [Ev_auth k host port false] \/ log = [Ev_auth k host port true; Ev_close k]))).
Proof.
  intros Hu Hw. unfold oidc_socks_reauth_cb. destruct (stored_runs encrypted_pw dom (Some user)) as (pw & note & Epw). rewrite Epw. cbn [rbind].
  destruct (authenticate_total user pw (o_mtu o) (at_nonce (w_attempt w k)) (at_rounds (w_attempt w k)) Hu Hw) as (r & -> & Hr). cbn [rbind]. destruct r as [r|code]; [|eexists _, _, _; split; [done|]; right; auto].
  destruct (Hr r eq_refl) as (ct & pkt & m & E1 & E2 & E3). unfold auth_result_addrs. destruct (s2ip4 (r_tun r)) as [b|] eqn:Eb; [|eexists _, _, _; split; [done|]; right; auto].
  destruct (s2ip4 (r_gw r)) as [g|] eqn:Eg; [|eexists _, _, _; split; [done|]; right; auto]. eexists _, _, _. split; [done|]. left. split_and!; try done.
  apply cfg_session; [by exists pw, note, ct, pkt, m|done|done].
Qed.
End Reauth.

(** ** A session lost, an exchange lost, a session stopped *)

Module Demo.

#[export] Instance dotted_only : Inet := { inet_pton4 := s2ip4; inet_pton6 := fun _ => None }.

Definition sample_entry : Json := J_obj [(lit "name", J_str (lit "A")); (lit "host", J_str (lit "10.1.2.3")); (lit "port", J_num (dbl 443)); (lit "username", J_str (lit "u1")); (lit "passWord", J_str (lit "p4ss"))].
Definition config : Config := {| domain := lit "d"; root := J_null; servers := Some (J_arr [sample_entry]); pretty := None |}.

Definition opts (socks : bool) : Opts := {|
  o_server := Some (lit "10.1.2.3:443"); o_tun := lit "iwan0"; o_socks := socks; o_listen := Some (lit "127.0.0.1:1080"); o_mtu := 1380;
  o_cidr := [lit "10.0.0.0/8"]; o_ip := []; o_domain := []; o_cidr6 := []; o_token := Some (lit "t"); o_no_token := false; o_allow_remote := false; o_ipv6 := false |}.

Definition turn (k : nat) : attempt := {|
  at_nonce := 99; at_rounds := if Nat.eqb k 1 then [([SendFail], None)] else [([Wrote 7; Eintr; Wrote 2000], Some AckSample.frame)];
  at_rc := if Nat.eqb k 0 then 1 else 0; at_stop := false |}.
Definition world : World := {| w_stdin := []; w_tun := true; w_proxy := true; w_attempt := turn |}.

Lemma turn_bytes k : Forall (fun rd => forall d, rd.2 = Some d -> bytes_ok d) (at_rounds (w_attempt world k)).
Proof.
  cbn [w_attempt world turn at_rounds]. destruct (Nat.eqb k 1); (apply Forall_cons; split; [|constructor]); cbn [snd]; [done|]. intros d [= <-]. by apply (bool_decide_unpack _); vm_compute.
Qed.

#[local] Existing Instance Toy.toy_openssl.
#[local] Existing Instance Toy.toy_laws.

Definition sample_key : bytes := session_key (lit "u1") (lit "p4ss").
Definition pumped (k : nat) : event := Ev_pump k sample_key 2 305419896 1 (lit "10.1.2.3") [lit "10.0.0.0/8"] [] (lit "198.18.0.2") 1400.

Lemma entry_ok : Forall strings_ok [sample_entry].
Proof. repeat (apply Forall_cons; split); [|constructor]; cbn; split_and!; try done; apply (bool_decide_unpack _); vm_compute; exact I. Qed.

Lemma connect_safe_witness :
  oidc_connect_server (opts false) world 5 config = Ret (E_stopped,
    [Ev_tun (lit "iwan0"); Ev_proxy (lit "127.0.0.1:1080"); Ev_signals; Ev_auth 0 (lit "10.1.2.3") 443 true; pumped 0; Ev_close 0; Ev_sleep 1000;
     Ev_auth 1 (lit "10.1.2.3") 443 false; Ev_sleep 3000; Ev_auth 2 (lit "10.1.2.3") 443 true; pumped 2; Ev_close 2; Ev_restore; Ev_proxy_stop; Ev_tun_close]) /\
  exists e events ph, oidc_connect_server (opts true) world 5 config = Ret (e, events) /\ reached (rev events) = Some ph /\ end_ok e ph /\
    (events <> [] -> exists s, s ∈ [sample_entry] /\ runs_for (opts true) world (domain config) s events).
Proof.
  split; [vm_compute; reflexivity|]. apply (connect_safe (opts true) world 5 config [sample_entry]); [reflexivity|exact entry_ok|exact turn_bytes|by eexists].
Defined.

End Demo.
