(* ===== verification/OidcMain.v ===== *)
(** * The OIDC client (src/src/iwan_client_oidc.c, src/src/oidc/oidc_cli.c, src/src/common/config.c, cli_common.c)

    The options of the program, their checks, the configuration directory, and [main] as the composition of fetching
    or loading the list, storing it, showing it and connecting.  The record [Machine] holds what the operating
    system and the user do; it may answer differently at each stage. *)

From Stdlib Require Import Floats.SpecFloat.
From S2P Require Import Prelude Util Crypto Protocol Session Open Auth ProtoParse Http Json OidcText Jwt Double Oidc OidcPath OidcSave OidcConfig OidcSelect OidcConnect Cli.
Import Scan Slist.

(** ** Options *)

(** [Opts] with the members that only [main] reads. *)
Record Options := mk_options {
  config_dir : bytes;
  fetch : bool;
  list_ : bool;
  connect : bool;
  all : bool;
  ustc : bool;
  conn : Opts
}.

Definition set_dir v '(mk_options _ f l c a u o) := mk_options v f l c a u o.
Definition set_fetch '(mk_options d _ l c a u o) := mk_options d true l c a u o.
Definition set_list '(mk_options d f _ c a u o) := mk_options d f true c a u o.
Definition set_connect '(mk_options d f l _ a u o) := mk_options d f l true a u o.
Definition set_all '(mk_options d f l c _ u o) := mk_options d f l c true u o.
Definition set_ustc '(mk_options d f l c a _ o) := mk_options d f l c a true o.
Definition set_conn (g : Opts -> Opts) '(mk_options d f l c a u o) := mk_options d f l c a u (g o).

Definition set_server v '(mk_opts _ t s l m c i d c6 k n r v6) := mk_opts (Some v) t s l m c i d c6 k n r v6.
Definition set_tun v '(mk_opts h _ s l m c i d c6 k n r v6) := mk_opts h v s l m c i d c6 k n r v6.
Definition set_socks '(mk_opts h t _ l m c i d c6 k n r v6) := mk_opts h t true l m c i d c6 k n r v6.
Definition set_listen v '(mk_opts h t s _ m c i d c6 k n r v6) := mk_opts h t s (Some v) m c i d c6 k n r v6.
Definition set_mtu v '(mk_opts h t s l _ c i d c6 k n r v6) := mk_opts h t s l v c i d c6 k n r v6.
Definition set_cidr v '(mk_opts h t s l m _ i d c6 k n r v6) := mk_opts h t s l m v i d c6 k n r v6.
Definition set_ip v '(mk_opts h t s l m c _ d c6 k n r v6) := mk_opts h t s l m c v d c6 k n r v6.
Definition set_domain v '(mk_opts h t s l m c i _ c6 k n r v6) := mk_opts h t s l m c i v c6 k n r v6.
Definition set_cidr6 v '(mk_opts h t s l m c i d _ k n r v6) := mk_opts h t s l m c i d v k n r v6.
Definition set_token v '(mk_opts h t s l m c i d c6 _ n r v6) := mk_opts h t s l m c i d c6 (Some v) n r v6.
Definition set_no_token '(mk_opts h t s l m c i d c6 k _ r v6) := mk_opts h t s l m c i d c6 k true r v6.
Definition set_remote '(mk_opts h t s l m c i d c6 k n _ v6) := mk_opts h t s l m c i d c6 k n true v6.
Definition set_ipv6 '(mk_opts h t s l m c i d c6 k n r _) := mk_opts h t s l m c i d c6 k n r true.

Definition cli_space (c : Z) : bool := (c =? 32) || (c =? 9) || (c =? 10) || (c =? 13) || (c =? 11) || (c =? 12).

Section Options.
Context `{Inet} (os : OS).

(** The check of a directory name, on a system that answers as [os]. *)
Definition names_root (dir : bytes) : res bool := let! r := oidc_config_dir_resolves_to_root os dir [] in Ret match r.1 with inl b => b | inr _ => true end.

Definition validate_config_dir (val : bytes) : res bool :=
  if zlen (skipw cli_space val) =? 0 then Ret false else let! root := names_root val in Ret (negb root).

Definition valid_listen (val : bytes) : bool := match parse_host_port val with Some _ => true | None => false end.

Definition validate_token_len (val : option bytes) : bool := match val with None | Some [] => false | Some v => zlen v <=? 255 end.

Definition pure (f : bytes -> bool) : option (bytes -> Options -> res (bool * Options)) := Some (fun v s => Ret (f v, s)).

Definition opts : list (cli_opt Options) :=
  let flag n set := {| name := n; kind := CLI_OPT_BOOL set; valname := None; validate := None |} in
  let str n set vn f := {| name := n; kind := CLI_OPT_STR set; valname := Some vn; validate := f |} in
  let csv n get set vn := {| name := n; kind := CLI_OPT_CSV (fun s => get (conn s)) (fun l => set_conn (set l)); valname := Some vn; validate := None |} in
  [str (lit "config-dir") set_dir (lit "<CONFIG_DIR>") (Some (fun v s => let! b := validate_config_dir v in Ret (b, s)));
   flag (lit "fetch") set_fetch;
   flag (lit "list") set_list;
   flag (lit "connect") set_connect;
   flag (lit "all") set_all;
   str (lit "server") (fun v => set_conn (set_server v)) (lit "<NAME|HOST:PORT>") None;
   str (lit "tun") (fun v => set_conn (set_tun v)) (lit "<TUN>") None;
   csv (lit "proxy-cidr") o_cidr set_cidr (lit "<PROXY_CIDR>");
   flag (lit "ustc") set_ustc;
   csv (lit "proxy-ip") o_ip set_ip (lit "<PROXY_IP>");
   csv (lit "proxy-domain") o_domain set_domain (lit "<PROXY_DOMAIN>");
   csv (lit "proxy-cidr6") o_cidr6 set_cidr6 (lit "<PROXY_CIDR6>");
   flag (lit "socks") (set_conn set_socks);
   str (lit "socks-listen") (fun v => set_conn (set_listen v)) (lit "<SOCKS_LISTEN>") (pure valid_listen);
   {| name := lit "socks-mtu"; kind := CLI_OPT_U16 (fun v => set_conn (set_mtu v)); valname := Some (lit "<SOCKS_MTU>"); validate := None |};
   str (lit "socks-token") (fun v => set_conn (set_token v)) (lit "<TOKEN>") (pure (fun v => validate_token_len (Some v)));
   flag (lit "socks-no-token") (set_conn set_no_token);
   flag (lit "allow-remote") (set_conn set_remote);
   flag (lit "socks-ipv6") (set_conn set_ipv6)].

Definition oidc_aliases : list (bytes * option bytes) :=
  [(lit "f", Some (lit "--fetch")); (lit "l", Some (lit "--list")); (lit "c", Some (lit "--connect")); (lit "a", Some (lit "--all"))].

Definition oidc_ctl : cli_ctl := {| version_is_unknown := false; short_aliases := Some oidc_aliases |}.

Definition oidc_parse_cli (args : list bytes) (o : Options) : res (option cli_exit * Cli * Options) := cli_parse opts oidc_ctl cli_init args o.

End Options.

(** The usage line under an error, in a buffer of 512 bytes. *)
Fixpoint usage_loop (l : list bytes) (left : Z) : bytes :=
  match l with
  | [] => []
  | a :: l =>
      if left >? 16 then
        let k := 1 + zlen a in
        if k >=? left then snprintf left (32 :: a) else (32 :: a) ++ usage_loop l (left - k)
      else []
  end.

Definition oidc_usage (c : Cli) : bytes :=
  if usage_dup c || (zlen (usage_args c) =? 0) then lit "Usage: iwan-client-oidc [OPTIONS]"
  else let head := lit "Usage: iwan-client-oidc" in head ++ usage_loop (usage_args c) (512 - zlen head).

(** ** Directory and files *)

(** What the environment and the user database say about the home directory. *)
Record Home := { sudo_user : option bytes; getpwnam : bytes -> option bytes; getpwuid : option bytes; home_env : option bytes }.

Definition home_dir (h : Home) : option bytes :=
  let by_name := match sudo_user h with Some (c :: r) => if beq (c :: r) (lit "root") then None else getpwnam h (c :: r) | _ => None end in
  match by_name with
  | Some d => Some d
  | None =>
      match getpwuid h with
      | Some d => Some d
      | None => match home_env h with Some (c :: d) => if c =? 47 then Some (c :: d) else None | _ => None end
      end
  end.

Definition resolve_config_dir (h : Home) (dir : bytes) : option bytes :=
  if negb (beq dir (lit "~")) && negb (beq (take 2 dir) (lit "~/")) then Some dir
  else match home_dir h with None => None | Some home => Some (home ++ drop 1 dir) end.

Inductive fopen_answer := F_missing | F_error | F_open (data : bytes).

Definition line_space (c : Z) : bool := (c =? 32) || (c =? 9) || (c =? 13) || (c =? 10).

(** [None] is -1: a line that does not fit the buffer. *)
Fixpoint cidr_loop (fuel : nat) (data : bytes) (out : list bytes) : res (option (list bytes)) :=
  match fuel with
  | O => Fault OutOfFuel
  | S fuel =>
      match fgets 1024 data with
      | None => Ret (Some out)
      | Some (line, rest, eof) =>
          let line := cstr line in
          if negb (existsb (Z.eqb 10) line) && negb eof then Ret None
          else
            let p := skipw line_space line in
            match p with
            | [] => cidr_loop fuel rest out
            | c :: _ =>
                if c =? 35 then cidr_loop fuel rest out
                else let! out := slist_push_csv out (rev (skipw line_space (rev p))) in cidr_loop fuel rest out
            end
      end
  end.

Definition load_cidr_file (f : fopen_answer) (out : list bytes) : res (option (list bytes)) :=
  match f with F_missing => Ret (Some out) | F_error => Ret None | F_open data => cidr_loop (S (length data)) data out end.

Definition ustc_nets : list bytes :=
  [lit "114.214.160.0/19"; lit "114.214.192.0/18"; lit "202.38.64.0/19"; lit "210.45.64.0/20"; lit "210.45.112.0/20"; lit "211.86.144.0/20";
   lit "222.195.64.0/19"; lit "210.72.22.0/24"; lit "202.141.160.0/19"; lit "218.22.21.0/27"; lit "218.104.71.160/28"].

(** ** main *)

Definition defaults : Options := mk_options (lit "~/.config/iwan") false false false false false (mk_opts None (lit "iwan0") false None 1380 [] [] [] [] None false false false).

(** The system while options are parsed, while [main] checks the directory, after the home directory was put
    in, and while the list is stored; the home directory; whether the user is root; the login; the contents of files; the
    connection. *)
Record Machine := {
  m_cli : OS;
  m_gate : OS;
  m_joined : OS;
  m_save : OS;
  m_home : Home;
  m_root : bool;
  m_env : Env;
  m_files : files;
  m_config : bytes -> option bytes;
  m_routes : bytes -> fopen_answer;
  m_crypto : bool;          (* crypto_init succeeds *)
  m_world : World;
  m_turns : nat
}.

Inductive usage_problem := U_action | U_socks | U_token | U_remote | U_dir_empty | U_dir_root.

Inductive finish :=
  | M_exit (e : cli_exit) | M_usage (u : usage_problem) | M_elevate | M_no_home | M_path (r : refusal) | M_crypto
  | M_fetch (d : fetch_die) | M_save (r : refusal) | M_load (d : load_die) | M_routes | M_connect (e : ending) | M_done.

(** How a run ends; what it did to the file system, printed and did to the network. *)
Record Run := { finished : finish; calls : list call; printed : bytes; events : list event }.

Section Main.
Context `{Inet, Libc, OpenSSL, Rsa, Hmac} (m : Machine).

Definition do_fetch (o : Options) : bool := fetch o || all o.
Definition do_list (o : Options) : bool := list_ o || all o.
Definition do_connect (o : Options) : bool := connect o || all o.

(** The option checks, in order. *)
Definition option_gate (o : Options) : option usage_problem :=
  let c := conn o in
  if negb (fetch o || list_ o || connect o || all o) then Some U_action
  else if o_socks c && negb (do_connect o) then Some U_socks
  else if match o_token c with Some _ => o_no_token c | None => false end then Some U_token
  else if o_socks c && o_allow_remote c && match o_token c with None | Some [] => true | _ => false end && negb (o_no_token c) then Some U_remote
  else None.

Definition dir_gate (cd : bytes) : res (option usage_problem) :=
  if zlen (skipw line_space cd) =? 0 then Ret (Some U_dir_empty)
  else if (negb (zlen cd =? 0) && forallb (Z.eqb 47) cd) then Ret (Some U_dir_root)
  else let! root := names_root (m_gate m) cd in Ret (if root then Some U_dir_root else None).

(** The list and the system calls made for it, or the reason to stop. *)
Definition get_config (o : Options) (path : bytes) : res ((Config + finish) * list call) :=
  if do_fetch o then
    let! r := oidc_fetch_config (m_env m) (m_files m) in
    match r with
    | inr d => Ret (inr (M_fetch d), [])
    | inl cf => let! s := oidc_save_config (m_save m) path (servers cf) [] in Ret match s with (inl _, l) => (inl cf, l) | (inr d, l) => (inr (M_save d), l) end
    end
  else
    let! r := oidc_load_config (m_config m path) in
    Ret match r with inr d => (inr (M_load d), []) | inl cf => (inl cf, []) end.

(** The routes from proxy.conf beside the list, and the preset ones. *)
Definition add_routes (o : Options) (path : bytes) : res (option Opts) :=
  let c := conn o in
  if negb (do_connect o && negb (o_socks c)) then Ret (Some c)
  else
    let dlen := match strrchr 47 path with Some i => i | None => zlen path end in
    let! r := load_cidr_file (m_routes m (take (Z.to_nat dlen) path ++ lit "/proxy.conf")) (o_cidr c) in
    Ret match r with None => None | Some l => Some (set_cidr (if ustc o then fold_left slist_push ustc_nets l else l) c) end.

Definition actions (o : Options) (path : bytes) : res Run :=
  let! r := get_config o path in
  match r with
  | (inr f, l) => Ret {| finished := f; calls := l; printed := []; events := [] |}
  | (inl cf, l) =>
      let! out := if do_list o || (do_connect o && match o_server (conn o) with None => true | Some _ => false end)
                  then oidc_print_servers (default J_null (servers cf)) else Ret [] in
      let! c := add_routes o path in
      match c with
      | None => Ret {| finished := M_routes; calls := l; printed := out; events := [] |}
      | Some c =>
          if do_connect o then
            let! r := oidc_connect_server c (m_world m) (m_turns m) cf in
            Ret {| finished := M_connect r.1; calls := l; printed := out; events := r.2 |}
          else Ret {| finished := M_done; calls := l; printed := out; events := [] |}
      end
  end.

Definition stopped (f : finish) : Run := {| finished := f; calls := []; printed := []; events := [] |}.

(** After the options have been parsed. *)
Definition start (o : Options) : res Run :=
  let o := if o_socks (conn o) then match o_listen (conn o) with None => set_conn (set_listen (lit "127.0.0.1:1080")) o | Some _ => o end else o in
  match option_gate o with
  | Some u => Ret (stopped (M_usage u))
  | None =>
      if do_connect o && negb (o_socks (conn o)) && negb (m_root m) then Ret (stopped M_elevate)
      else
        let! bad := dir_gate (config_dir o) in
        match bad with
        | Some u => Ret (stopped (M_usage u))
        | None =>
            match resolve_config_dir (m_home m) (config_dir o) with
            | None => Ret (stopped M_no_home)
            | Some dir =>
                let! root := names_root (m_joined m) dir in
                if root then Ret (stopped (M_usage U_dir_root))
                else
                  let! p := oidc_config_canon_path (os_cwd (m_save m)) (dir ++ lit "/servers.json") in
                  match p with
                  | inr r => Ret (stopped (M_path r))
                  | inl path => if m_crypto m then actions o path else Ret (stopped M_crypto)
                  end
            end
        end
  end.

Definition main (args : list bytes) : res Run :=
  let! r := oidc_parse_cli (m_cli m) args defaults in
  match r with (Some e, _, _) => Ret (stopped (M_exit e)) | (None, _, o) => start o end.

End Main.

(** * Proofs *)

(** ** The usage line fits its buffer *)

Lemma usage_loop_fits l left : 0 < left -> zlen (usage_loop l left) < left.
Proof.
  revert left. induction l as [|a l IH]; intros left Hl; cbn [usage_loop]; [by rewrite zlen_nil|]. pose proof (zlen_nonneg a). destruct (left >? 16); [|by rewrite zlen_nil].
  destruct (1 + zlen a >=? left) eqn:E; [unfold snprintf; rewrite zlen_take, zlen_cons; lia|]. rewrite zlen_app, zlen_cons. specialize (IH (left - (1 + zlen a))). lia.
Qed.

Theorem usage_fits (c : Cli) : zlen (oidc_usage c) < 512.
Proof. unfold oidc_usage. destruct (_ || _); [done|]. rewrite zlen_app. pose proof (usage_loop_fits (usage_args c) (512 - zlen (lit "Usage: iwan-client-oidc"))) as H. specialize (H ltac:(done)). lia. Qed.

(** ** The table *)

Section Table.
Context `{Inet} (os : OS) (Hcwd : cwd_ok (os_cwd os)).

Lemma names_root_runs d : cstr_ok d -> exists b, names_root os d = Ret b /\
  (b = false -> forall p, denotes (os_cwd os) d = Some p -> resolve p <> [] /\ os_realpath os [] (abs_text (resolve p)) <> Some (lit "/")).
Proof.
  intros Hd. unfold names_root, oidc_config_dir_resolves_to_root. destruct d as [|c d]; [by eexists|]. pose proof (zlen_nonneg d). rewrite zlen_cons. replace (1 + zlen d =? 0) with false by lia.
  destruct (denotes (os_cwd os) (c :: d)) as [p|] eqn:Ep.
  - destruct (normalize_abs (os_cwd os) (c :: d) p) as [-> _]; [done|intros d' Hd'; by apply Hcwd|done|done|]. cbn [rbind is_root]. destruct (bool_decide (resolve p = [])) eqn:E; [by eexists|]. apply bool_decide_eq_false in E.
    eexists. split; [done|]. intros Hb p' [= <-]. split; [done|]. intros Er. cbn in Hb. by rewrite Er in Hb.
  - cbn [denotes] in Ep. destruct (c =? 47) eqn:E47; [done|]. destruct (os_cwd os) as [|e]; [done|]. destruct (normalize_rel e c d) as (np & r & -> & _ & Hr); [by apply cstr_cons in Hd as [? _]|done|]. cbn [rbind]. rewrite Hr. by eexists.
Qed.

Lemma config_dir_returns v : cstr_ok v -> exists b, validate_config_dir os v = Ret b.
Proof. intros Hv. unfold validate_config_dir. destruct (_ =? 0); [by eexists|]. destruct (names_root_runs v Hv) as (b & -> & _). by eexists. Qed.

Lemma opts_ok : table_ok (opts os) oidc_ctl.
Proof.
  split.
  - apply (bool_decide_unpack _). vm_compute. exact I.
  - assert (Forall (fun n => cstr_ok n /\ none (Z.eqb 61) n) (map name (opts os))) as Hn by (apply (bool_decide_unpack _); vm_compute; exact I). by apply Forall_map in Hn.
  - cbn [short_aliases oidc_ctl default]. assert (forall n, n ∈ map name (opts os) -> n <> [] -> exists o, o ∈ opts os /\ name o <> [] /\ Some (lit "--" ++ n) = Some (lit "--" ++ name o)) as Hin.
    { intros n Hn Hne. apply list_elem_of_fmap in Hn as (o & -> & Ho). by exists o. }
    repeat (apply Forall_cons; split); [..|constructor]; (apply Hin; [apply (bool_decide_unpack _); vm_compute; exact I|done]).
  - intros o f v s Ho Ef Hv. repeat (apply elem_of_cons in Ho as [->|Ho]; [cbn [validate pure] in Ef; try discriminate Ef; injection Ef as <-; try (by eexists _, _)|]); [|by apply not_elem_of_nil in Ho].
    destruct (config_dir_returns v Hv) as (b & ->). by eexists _, _.
Qed.
End Table.

(** ** What the options hold after parsing *)

Definition options_ok `{Inet} (o : Options) : Prop :=
  cstr_ok (config_dir o) /\ (forall t, o_token (conn o) = Some t -> 1 <= zlen t <= 255) /\ (forall a, o_listen (conn o) = Some a -> parse_host_port a <> None) /\
  0 <= o_mtu (conn o) <= 65535.

Section Parsed.
Context `{Inet} (os : OS) (Hcwd : cwd_ok (os_cwd os)).

Lemma gives_ok u s s' : u.1 ∈ opts os -> cstr_ok u.2 -> gives u s s' -> options_ok s -> options_ok s'.
Proof.
  destruct u as [o v], s as [d f l c a u' [h t sk ls m ci ip dm c6 k n r v6]]. cbn [fst snd]. intros Ho Hv Hg (H1 & H2 & H3 & H4 & H5).
  repeat (apply elem_of_cons in Ho as [->|Ho]; [unfold gives in Hg; cbn in Hg; try (destruct Hg as (s1 & Hs1 & Hg); try subst s1)|]); [..|by apply not_elem_of_nil in Ho];
    try (subst s'; by split_and!).
  - destruct (config_dir_returns os Hcwd v Hv) as (b & E). rewrite E in Hs1. injection Hs1 as -> <-. subst s'. by split_and!.
  - injection Hs1 as Hb <-. subst s'. split_and!; try done. intros x [= <-]. unfold valid_listen in Hb. by destruct (parse_host_port v).
  - destruct Hg as (x & (_ & Hx & Hd & Hle) & ->). split_and!; try done. cbn. subst x. by apply digits_val_nonneg.
  - injection Hs1 as Hb <-. subst s'. split_and!; try done. intros x [= <-]. destruct v as [|c0 v0]; [done|]. pose proof (zlen_nonneg v0). apply Z.leb_le in Hb. rewrite zlen_cons in *. lia.
Qed.

Lemma applies_ok us s s' : Forall (fun u => u.1 ∈ opts os /\ cstr_ok u.2) us -> applies us s s' -> options_ok s -> options_ok s'.
Proof. intros Hu. revert s. induction Hu as [|u us [Ho Hv] Hu IH]; intros s Hap Hs; [cbn in Hap; by subst|]. destruct Hap as (s1 & Hg & Hap). eapply IH; [exact Hap|]. by eapply gives_ok. Qed.

Lemma defaults_ok : options_ok defaults.
Proof. split_and!; try done. apply (bool_decide_unpack _). vm_compute. exact I. Qed.
End Parsed.

(** ** Files *)

Lemma cidr_total fuel data out : (length data < fuel)%nat -> exists r, cidr_loop fuel data out = Ret r.
Proof.
  revert data out. induction fuel as [|fuel IH]; intros data out Hf; [lia|]. cbn [cidr_loop]. unfold fgets. pose proof (fgets_rest (Z.to_nat (1024 - 1)) data) as Hr. destruct (fgets_loop _ data) as [[line rest] eof].
  destruct line as [|c0 line0] eqn:El; [by eexists|]. rewrite <- El in *. assert (length rest < fuel)%nat as Hrest by (subst data; rewrite length_app, El in Hf; cbn in Hf; lia).
  destruct (_ && _); [by eexists|]. destruct (skipw line_space (cstr line)) as [|c p]; [by apply IH|]. destruct (c =? 35); [by apply IH|]. unfold slist_push_csv. rewrite csv_loop_spec by lia. cbn [rbind]. by apply IH.
Qed.

Lemma routes_total f out : exists r, load_cidr_file f out = Ret r.
Proof. destruct f; [by eexists|by eexists|]. apply cidr_total. lia. Qed.

(** The routes of one line of the file: none of an empty line or a comment. *)
Definition line_routes (x : bytes) : list bytes :=
  match skipw line_space x with c :: p => if c =? 35 then [] else csv_spec (rev (skipw line_space (rev (c :: p)))) | [] => [] end.

Lemma line_text x : cstr_ok x -> none (Z.eqb 10) x ->
  match skipw line_space (x ++ [10]) with c :: p => if c =? 35 then [] else csv_spec (rev (skipw line_space (rev (c :: p)))) | [] => [] end = line_routes x.
Proof.
  intros Hx Hn. unfold line_routes. destruct (skipw_split line_space x) as (a & Ex & Ha). rewrite Ex at 1. rewrite <- app_assoc, skipw_app by done. destruct (skipw line_space x) as [|c p] eqn:E; [done|].
  assert (line_space c = false) as Hc. { clear -E. revert E. induction x as [|d x IH]; cbn; [done|]. destruct (line_space d) eqn:Ed; [done|]. by intros [= <- _]. }
  cbn [app]. rewrite skipw_head by done. destruct (c =? 35); [done|]. f_equal. f_equal. change (c :: p ++ [10]) with ((c :: p) ++ [10]). by rewrite rev_unit.
Qed.

(** [load_cidr_file] on a text file whose lines fit the buffer: the routes of every line in order. *)
Theorem routes_exact (lines out : list bytes) : Forall (fun x => cstr_ok x /\ none (Z.eqb 10) x /\ zlen x <= 1022) lines ->
  load_cidr_file (F_open (typed lines)) out = Ret (Some (out ++ concat (map line_routes lines))).
Proof.
  intros Hl. unfold load_cidr_file. assert (forall fuel, (length (typed lines) < fuel)%nat -> cidr_loop fuel (typed lines) out = Ret (Some (out ++ concat (map line_routes lines)))) as H; [|by apply H; lia].
  revert out. induction Hl as [|x lines (Hx & H10 & Hz) Hl IH]; intros out fuel Hf; (destruct fuel as [|fuel]; [lia|]); cbn [cidr_loop]; [cbn; by rewrite app_nil_r|].
  unfold typed in *. cbn [map concat] in *. rewrite <- app_assoc in *. cbn [app] in *. unfold fgets. rewrite fgets_line by (done || (unfold zlen in Hz; lia)). destruct (x ++ [10]) as [|c0 y] eqn:Ex; [by destruct x|]. rewrite <- Ex in *.
  rewrite cstr_cstr_ok by (apply cstr_app; split; [done|by repeat constructor]). rewrite existsb_app. change (existsb (Z.eqb 10) [10]) with true. rewrite orb_true_r. cbn [negb andb].
  fold (typed lines) in *. assert (length (typed lines) < fuel)%nat as Hf' by (rewrite length_app in Hf; cbn in Hf; lia). rewrite <- (line_text x Hx H10).
  destruct (skipw line_space (x ++ [10])) as [|c p]; [by rewrite IH|]. destruct (c =? 35); [by rewrite IH|]. unfold slist_push_csv. rewrite csv_loop_spec by lia. cbn [rbind]. by rewrite IH, app_assoc by done.
Qed.

(** * Specification of the program *)

Section MainSpec.
Context `{Inet, Libc, OpenSSL, Rsa, Hmac} (m : Machine).

(** The default of [--socks-listen] in SOCKS mode. *)
Definition listening (o : Options) : Options :=
  if o_socks (conn o) then match o_listen (conn o) with None => set_conn (set_listen (lit "127.0.0.1:1080")) o | Some _ => o end else o.

Definition shows (o : Options) : bool := do_list o || (do_connect o && match o_server (conn o) with None => true | Some _ => false end).

(** A directory name that comes to the root, by its text or as the system resolves it. *)
Definition rooted (os : OS) (d : bytes) : Prop :=
  exists p, denotes (os_cwd os) d = Some p /\ (resolve p = [] \/ os_realpath os [] (abs_text (resolve p)) = Some (lit "/")).

(** Stopped before anything was done. *)
Definition stops (o : Options) (f : finish) : Prop :=
  match f with
  | M_usage u =>
      option_gate o = Some u \/ dir_gate m (config_dir o) = Ret (Some u) \/
      (u = U_dir_root /\ exists dir, resolve_config_dir (m_home m) (config_dir o) = Some dir /\ names_root (m_joined m) dir = Ret true)
  | M_elevate => do_connect o = true /\ o_socks (conn o) = false /\ m_root m = false
  | M_no_home => resolve_config_dir (m_home m) (config_dir o) = None
  | M_path _ => exists dir, resolve_config_dir (m_home m) (config_dir o) = Some dir /\ denotes (os_cwd (m_save m)) (dir ++ lit "/servers.json") = None
  | M_crypto => m_crypto m = false
  | _ => False
  end.

(** Where the list comes from: fetched and stored at [path], or loaded from there. *)
Definition config_from (o : Options) (path : bytes) (l : list call) (cf : Config) : Prop :=
  if do_fetch o
  then (exists kp user respj, answered (m_env m) (m_files m) kp user respj /\ config_for respj cf) /\ exists tmp, replaced (m_save m) path l tmp
  else l = [] /\ exists b, m_config m path = Some b /\ loads (cstr b) cf.

(** One line for each entry, without control characters. *)
Definition prints (o : Options) (l : list Json) (out : bytes) : Prop :=
  if shows o
  then exists rows, out = typed rows /\ length rows = length l /\ (zlen l <= 2 ^ 63 -> Forall (fun row => Forall (fun c => 32 <= c < 256 /\ c <> 127) row) rows)
  else out = [].

(** The connection: its life cycle, the entry it is for, and the password of a proxy that is open to other hosts. *)
Definition connects (o : Options) (cf : Config) (l : list Json) (f : finish) (ev : list event) : Prop :=
  match f with
  | M_connect e =>
      do_connect o = true /\ (o_socks (conn o) = false -> m_root m = true) /\
      exists ph routes, let c := set_cidr routes (conn o) in
        reached (rev ev) = Some ph /\ end_ok e ph /\ (ev <> [] -> exists s, s ∈ l /\ runs_for c (m_world m) (domain cf) s ev) /\
        forall k cfg, Ev_socks k cfg ∈ ev -> allow_remote cfg = true -> open_proxy cfg = false -> exists t, auth_token cfg = Some t /\ 1 <= zlen t <= 255
  | M_done => do_connect o = false /\ ev = []
  | _ => ev = []
  end.

Definition run_ok (o : Options) (r : Run) : Prop :=
  exists dir p, option_gate o = None /\ skipw line_space (config_dir o) <> [] /\ ~ rooted (m_gate m) (config_dir o) /\
    resolve_config_dir (m_home m) (config_dir o) = Some dir /\ ~ rooted (m_joined m) dir /\ denotes (os_cwd (m_save m)) (dir ++ lit "/servers.json") = Some p /\
    let path := abs_text (resolve p) in
    ((exists c, c ∈ calls r /\ acting c = true) -> do_fetch o = true /\ exists sv, safe_run (m_save m) path sv (calls r)) /\
    match finished r with
    | M_fetch _ => do_fetch o = true /\ (forall kp user respj, ~ answered (m_env m) (m_files m) kp user respj) /\ printed r = [] /\ events r = []
    | M_save _ => do_fetch o = true /\ (exists kp user respj, answered (m_env m) (m_files m) kp user respj) /\ printed r = [] /\ events r = []
    | M_load _ => do_fetch o = false /\ (forall b cf, m_config m path = Some b -> ~ loads (cstr b) cf) /\ printed r = [] /\ events r = []
    | M_routes | M_done | M_connect _ =>
        exists cf l, config_from o path (calls r) cf /\ servers cf = Some (J_arr l) /\ prints o l (printed r) /\ connects o cf l (finished r) (events r)
    | _ => False
    end.

Record machine_ok : Prop := {
  cwds_ok : cwd_ok (os_cwd (m_cli m)) /\ cwd_ok (os_cwd (m_gate m)) /\ cwd_ok (os_cwd (m_joined m)) /\ cwd_ok (os_cwd (m_save m));
  login_ok : env_ok (m_env m);
  home_ok : forall d, home_dir (m_home m) = Some d -> cstr_ok d;
  config_ok : forall p b, m_config m p = Some b -> bytes_ok b;
  replies_ok : forall k, Forall (fun rd => forall d, rd.2 = Some d -> bytes_ok d) (at_rounds (w_attempt (m_world m) k))
}.
End MainSpec.

Section MainProofs.
Context `{Inet, Libc, Rsa, Hmac, OpenSSLLaws, !GcmBytes} (m : Machine) (Hm : machine_ok m).

Lemma listening_ok o : options_ok o -> cstr_ok (config_dir (listening o)) /\ (forall t, o_token (conn (listening o)) = Some t -> 1 <= zlen t <= 255) /\
  (o_socks (conn (listening o)) = true -> exists a, o_listen (conn (listening o)) = Some a).
Proof.
  destruct o as [d f l c a u [h t sk ls mt ci ip dm c6 k n r v6]]. intros (Hd & Ht & _). unfold listening. cbn [conn o_socks o_listen]. destruct sk; [destruct ls|]; cbn in *; (split_and!; [done|done|]); intros; first [done|by eexists].
Qed.

Lemma servers_cstr t r l : cstr_ok t -> reads t r -> field r (lit "servers") (J_arr l) -> Forall strings_ok l.
Proof.
  intros Ht Hr Hf. pose proof (strings_ok_field _ _ _ (reads_strings _ _ Ht Hr) Hf) as Hs. cbn [strings_ok] in Hs. clear Hf. induction l as [|x l IH]; [constructor|]. destruct Hs as [Hx Hs]. constructor; [done|by apply IH].
Qed.

Lemma get_runs o path p : cstr_ok p -> Forall good_name (resolve p) -> path = abs_text (resolve p) -> exists r l, get_config m o path = Ret (r, l) /\
  ((exists c, c ∈ l /\ acting c = true) -> do_fetch o = true /\ exists sv, safe_run (m_save m) path sv l) /\
  match r with
  | inl cf => config_from m o path l cf /\ exists es, servers cf = Some (J_arr es) /\ Forall strings_ok es
  | inr (M_fetch _) => do_fetch o = true /\ (forall kp user respj, ~ answered (m_env m) (m_files m) kp user respj)
  | inr (M_save _) => do_fetch o = true /\ (exists kp user respj, answered (m_env m) (m_files m) kp user respj)
  | inr (M_load _) => do_fetch o = false /\ (forall b cf, m_config m path = Some b -> ~ loads (cstr b) cf)
  | inr _ => False
  end.
Proof.
  intros Hp Hgood Epath. unfold get_config, config_from. assert (forall c, c ∈ ([] : list call) -> False) as Hnil by (intros c Hc; by apply not_elem_of_nil in Hc). destruct (do_fetch o).
  - destruct (fetch_runs (m_env m) (m_files m) (login_ok m Hm)) as (r & -> & _ & Hf1 & Hf2). cbn [rbind]. destruct r as [cf|d].
    + destruct (Hf1 cf eq_refl) as (kp & user & respj & Ha & Hcf). pose proof Hcf as (es & t & _ & Ecf & Ht & Hr). destruct (save_runs (m_save m) path (servers cf)) as (s & l & -> & Hsafe & Hout).
      { subst path. by apply abs_cstr, resolve_cstr. } { subst path. by destruct (resolve p). } { by apply (cwds_ok m Hm). }
      cbn [rbind]. destruct s as [[]|d]; eexists _, _; (split; [done|]); (split; [intros _; by eauto|]); [|by eauto].
      split; [split; [by eauto|]|].
      * destruct Hout as (p' & tmp & Ep' & Hrep). exists tmp. assert (denotes (os_cwd (m_save m)) path = Some path) as Ed by (subst path; by destruct (resolve p)). rewrite Ed in Ep'. injection Ep' as <-. subst path. by rewrite resolve_abs in Hrep.
      * exists es. subst cf. split; [done|]. eapply servers_cstr; [exact Ht|exact Hr|]. by apply obj_get_field.
    + eexists _, _. split; [done|]. split; [intros (c & Hc & _); by apply Hnil in Hc|]. split; [done|]. intros kp user respj Ha. by destruct (Hf2 _ _ _ Ha).
  - destruct (m_config m path) as [b|] eqn:Eb.
    + destruct (load_runs b (config_ok m Hm _ _ Eb)) as (r & -> & Hl). cbn [rbind]. destruct r as [cf|d]; eexists _, _; (split; [done|]); (split; [intros (c & Hc & _); by apply Hnil in Hc|]).
      * assert (loads (cstr b) cf) as Hcf by (by apply Hl). split; [split; [done|]; by exists b|]. destruct Hcf as (r & l & Hr & Hf & ->). exists l. split; [done|]. eapply servers_cstr; [|exact Hr|exact Hf]. apply cstr_ok_cstr. by apply (config_ok m Hm _ _ Eb).
      * split; [done|]. intros b' cf [= <-] Hcf. by apply Hl in Hcf.
    + cbn. eexists _, _. split; [done|]. split; [intros (c & Hc & _); by apply Hnil in Hc|]. done.
Qed.

Lemma add_runs o path : exists r, add_routes m o path = Ret r /\ forall c, r = Some c -> exists routes, c = set_cidr routes (conn o).
Proof.
  unfold add_routes. destruct (negb _); [eexists; split; [done|]; intros c [= <-]; exists (o_cidr (conn o)); by destruct (conn o)|].
  destruct (routes_total (m_routes m (take (Z.to_nat match strrchr 47 path with Some i => i | None => zlen path end) path ++ lit "/proxy.conf")) (o_cidr (conn o))) as (r & ->). cbn [rbind].
  eexists. split; [done|]. destruct r as [l|]; [|done]. intros c [= <-]. by eexists.
Qed.

Lemma print_runs o l : Forall strings_ok l -> exists out, (if shows o then oidc_print_servers (J_arr l) else Ret []) = Ret out /\ prints o l out.
Proof.
  intros Hl. unfold prints. destruct (shows o); [|by eexists]. unfold oidc_print_servers. destruct (print_rows_spec l 0 Hl) as (rows & -> & Hlen & Hr). eexists. split; [done|]. exists rows. split_and!; [done|done|].
  intros Hz. destruct Hr as [Hc _]; [lia|lia|]. eapply Forall_impl; [exact Hc|]. intros row. apply clean_bytes.
Qed.

Lemma connect_part o routes cf l (c := set_cidr routes (conn o)) : option_gate o = None -> (forall t, o_token (conn o) = Some t -> 1 <= zlen t <= 255) -> (o_socks (conn o) = true -> exists a, o_listen (conn o) = Some a) ->
  do_connect o = true -> (o_socks (conn o) = false -> m_root m = true) -> servers cf = Some (J_arr l) -> Forall strings_ok l ->
  exists e ev, oidc_connect_server c (m_world m) (m_turns m) cf = Ret (e, ev) /\ connects m o cf l (M_connect e) ev.
Proof.
  intros Hg Ht Hli Hdo Hroot Es Hl. assert (o_socks c = o_socks (conn o) /\ o_listen c = o_listen (conn o) /\ o_token c = o_token (conn o) /\ o_no_token c = o_no_token (conn o) /\ o_allow_remote c = o_allow_remote (conn o)) as (E1 & E2 & E3 & E4 & E5)
    by (subst c; by destruct (conn o)).
  destruct (connect_runs c (m_world m) (m_turns m) cf l Es Hl (replies_ok m Hm)) as (e & ev & ph & -> & Hph & He & Hev); [by rewrite E1, E2|].
  exists e, ev. split; [done|]. split_and!; [done|done|]. exists ph, routes. split_and!; [done|done|done|]. intros k cfg Hin Hrem Hopen.
  destruct Hev as (s & _ & port & _ & _ & _ & _ & Hall); [intros ->; by apply not_elem_of_nil in Hin|]. rewrite Forall_forall in Hall. destruct (Hall _ Hin) as ((Hs & Hat & Har & Hop) & _). rewrite E1 in Hs. rewrite Hat, E3. rewrite Har, E5 in Hrem. rewrite Hop, E4 in Hopen.
  unfold option_gate in Hg. rewrite Hs, Hrem, Hopen in Hg. destruct (negb _); [done|]. destruct (true && negb _); [done|]. destruct (o_token (conn o)) as [[|c0 t]|] eqn:Et; [done| |done]. eexists. split; [done|]. by apply Ht.
Qed.

Lemma actions_runs o dir p : option_gate o = None -> (forall t, o_token (conn o) = Some t -> 1 <= zlen t <= 255) -> (o_socks (conn o) = true -> exists a, o_listen (conn o) = Some a) ->
  (do_connect o = true -> o_socks (conn o) = false -> m_root m = true) -> skipw line_space (config_dir o) <> [] -> ~ rooted (m_gate m) (config_dir o) ->
  resolve_config_dir (m_home m) (config_dir o) = Some dir -> ~ rooted (m_joined m) dir -> denotes (os_cwd (m_save m)) (dir ++ lit "/servers.json") = Some p ->
  cstr_ok p -> Forall good_name (resolve p) -> exists r, actions m o (abs_text (resolve p)) = Ret r /\ run_ok m o r.
Proof.
  intros Hg Ht Hli Hroot Hdne Hgr Edir Hjr Ep Hp Hgood. unfold actions. destruct (get_runs o _ p Hp Hgood eq_refl) as (g & l & -> & Hact & Hgot). cbn [rbind]. destruct g as [cf|f].
  2: { eexists. split; [done|]. exists dir, p. do 6 (split; [done|]). cbn [calls finished printed events]. split; [done|]. destruct f; try done; destruct Hgot as [? ?]; by split_and!. }
  destruct Hgot as (Hfrom & es & Es & Hes). rewrite Es. change (default J_null (Some (J_arr es))) with (J_arr es). fold (shows o). destruct (print_runs o es Hes) as (out & -> & Hout). cbn [rbind].
  destruct (add_runs o (abs_text (resolve p))) as (c & -> & Hc). cbn [rbind]. destruct c as [c|].
  - destruct (Hc c eq_refl) as (routes & ->). destruct (do_connect o) eqn:Ed.
    + destruct (connect_part o routes cf es Hg Ht Hli Ed (Hroot eq_refl) Es Hes) as (e & ev & -> & Hcon). cbn [rbind fst snd]. eexists. split; [done|]. exists dir, p. do 6 (split; [done|]). split; [done|]. by exists cf, es.
    + eexists. split; [done|]. exists dir, p. do 6 (split; [done|]). split; [done|]. exists cf, es. split_and!; try done.
  - eexists. split; [done|]. exists dir, p. do 6 (split; [done|]). split; [done|]. by exists cf, es.
Qed.

Lemma canon_runs dir : cstr_ok dir -> exists r, oidc_config_canon_path (os_cwd (m_save m)) (dir ++ lit "/servers.json") = Ret r /\
  match r with
  | inl path => exists p, denotes (os_cwd (m_save m)) (dir ++ lit "/servers.json") = Some p /\ path = abs_text (resolve p) /\ cstr_ok p /\ Forall good_name (resolve p)
  | inr _ => denotes (os_cwd (m_save m)) (dir ++ lit "/servers.json") = None
  end.
Proof.
  intros Hd. set (q := dir ++ lit "/servers.json"). assert (cstr_ok q) as Hq by (apply cstr_app; split; [done|apply (bool_decide_unpack _); vm_compute; exact I]). assert (q <> []) as Hne by (subst q; by destruct dir).
  destruct (cwds_ok m Hm) as (_ & _ & _ & Hcwd). unfold oidc_config_canon_path. destruct (denotes (os_cwd (m_save m)) q) as [p|] eqn:Ep.
  - destruct (normalize_abs (os_cwd (m_save m)) q p) as [-> Hg]; [done|intros d Ed; by apply Hcwd|done|done|]. cbn [rbind unresolved]. eexists. split; [done|]. exists p. split_and!; [done|done| |done]. eapply denotes_cstr; [exact Hq| |exact Ep]. intros d Ed. by apply Hcwd.
  - destruct q as [|c q']; [done|]. cbn [denotes] in Ep. destruct (c =? 47) eqn:E47; [done|]. destruct (os_cwd (m_save m)) as [|e]; [done|]. destruct (normalize_rel e c q') as (np & r & -> & Hr & _); [by apply cstr_cons in Hq as [? _]|done|]. cbn [rbind]. rewrite Hr. by eexists.
Qed.

Lemma unrooted os d : cwd_ok (os_cwd os) -> cstr_ok d -> exists b, names_root os d = Ret b /\ (b = false -> ~ rooted os d).
Proof.
  intros Hc Hd. destruct (names_root_runs os Hc d Hd) as (b & -> & Hb). exists b. split; [done|]. intros Eb (p & Ep & Hp). destruct (Hb Eb p Ep). tauto.
Qed.

Lemma dir_gate_runs cd : cstr_ok cd -> exists r, dir_gate m cd = Ret r /\ (r = None -> skipw line_space cd <> [] /\ ~ rooted (m_gate m) cd).
Proof.
  intros Hcd. unfold dir_gate. destruct (_ =? 0) eqn:E; [by eexists|]. destruct (_ && _); [by eexists|]. destruct (cwds_ok m Hm) as (_ & Hcwd & _). destruct (unrooted (m_gate m) cd Hcwd Hcd) as (b & -> & Hb).
  eexists. split; [done|]. intros Er. split; [by intros Es; rewrite Es in E|]. apply Hb. by destruct b.
Qed.

Lemma resolve_dir_cstr d dir : cstr_ok d -> resolve_config_dir (m_home m) d = Some dir -> cstr_ok dir.
Proof.
  intros Hd. unfold resolve_config_dir. destruct (_ && _); [by intros [= <-]|]. destruct (home_dir (m_home m)) as [h|] eqn:Eh; [|done]. intros [= <-]. apply cstr_app. split; [by apply (home_ok m Hm)|]. by apply Forall_drop.
Qed.

Lemma start_runs o : options_ok o -> exists r, start m o = Ret r /\ (forall e, finished r <> M_exit e) /\
  ((stops m (listening o) (finished r) /\ calls r = [] /\ printed r = [] /\ events r = []) \/ run_ok m (listening o) r).
Proof.
  intros Ho. destruct (listening_ok o Ho) as (Hd & Ht & Hli). unfold start. fold (listening o). set (o' := listening o) in *. clearbody o'. clear o Ho.
  assert (forall f, (forall e, f <> M_exit e) -> stops m o' f -> exists r, Ret (stopped f) = Ret r /\ (forall e, finished r <> M_exit e) /\ ((stops m o' (finished r) /\ calls r = [] /\ printed r = [] /\ events r = []) \/ run_ok m o' r)) as Hstop
    by (intros f Hf Hs; eexists; split; [done|]; split; [done|]; by left).
  destruct (option_gate o') as [u|] eqn:Eg; [apply Hstop; [done|]; by left|]. destruct (do_connect o' && negb (o_socks (conn o')) && negb (m_root m)) eqn:Er.
  { apply Hstop; [done|]. rewrite !andb_true_iff, !negb_true_iff in Er. destruct Er as [[? ?] ?]. by split_and!. }
  destruct (dir_gate_runs _ Hd) as (bad & Eb & Hbad). rewrite Eb. cbn [rbind]. destruct bad as [u|]; [apply Hstop; [done|]; by right; left|]. destruct (Hbad eq_refl) as [Hdne Hgr].
  destruct (resolve_config_dir (m_home m) (config_dir o')) as [dir|] eqn:Edir; [|by apply Hstop]. pose proof (resolve_dir_cstr _ _ Hd Edir) as Hdir.
  destruct (cwds_ok m Hm) as (_ & _ & Hcwd & _). destruct (unrooted (m_joined m) dir Hcwd Hdir) as (b & Eroot & Hjr). rewrite Eroot. cbn [rbind]. destruct b; [apply Hstop; [done|]; right; right; split; [done|]; by exists dir|].
  destruct (canon_runs dir Hdir) as (r & -> & Hr). cbn [rbind]. destruct r as [path|r]; [|apply Hstop; [done|]; by exists dir]. destruct Hr as (p & Ep & -> & Hp & Hgood).
  destruct (m_crypto m) eqn:Ecr; [|by apply Hstop].
  destruct (actions_runs o' dir p) as (r & E & Hrun); try done; [|by apply Hjr|].
  { intros Hdo Hs. destruct (m_root m) eqn:Em; [done|]. by rewrite Hdo, Hs in Er. }
  exists r. split; [done|]. split; [|by right]. intros e Ee. destruct Hrun as (? & ? & _ & _ & _ & _ & _ & _ & _ & Hf). by rewrite Ee in Hf.
Qed.

(** C17: the whole program, for every command line and whatever the system, the user, the web servers and the VPN
    server do.  It returns.  It leaves with an error of the parser exactly when the command line spells no sequence of
    options, and stops only for the reasons [stops] lists; in both cases it has changed no file, shown nothing and used
    no network.  It goes on only if an action was chosen, the options do not contradict each other and open no
    remote proxy without a password or consent, and neither the configuration directory as it was given nor the one with the home
    directory put in comes to the root.  Then the list of servers is fetched and stored, or loaded, at one place, the
    canonical form of the configuration directory; files are only changed to store what was fetched, in the safe order; the lines
    shown have no control characters; the connection is for an entry of that list and follows its life cycle; and a proxy
    that accepts other hosts asks for a password of 1 to 255 bytes unless the user asked for an open one. *)
Theorem main_safe (args : list bytes) : Forall cstr_ok args ->
  exists r, main m args = Ret r /\
    match finished r with
    | M_exit _ => (~ exists us o, spells (opts (m_cli m)) oidc_ctl args us /\ once us /\ applies us defaults o) /\
        calls r = [] /\ printed r = [] /\ events r = []
    | f => exists us o, spells (opts (m_cli m)) oidc_ctl args us /\ once us /\ applies us defaults o /\
             ((stops m (listening o) f /\ calls r = [] /\ printed r = [] /\ events r = []) \/ run_ok m (listening o) r)
    end.
Proof.
  intros Hargs. destruct (cwds_ok m Hm) as (Hcwd & _). unfold main, oidc_parse_cli. destruct (cli_parse_runs _ _ (opts_ok (m_cli m) Hcwd) args defaults Hargs) as (e & c & s & -> & Hs). cbn [rbind]. destruct e as [e|].
  - eexists. split; [done|]. cbn [finished stopped]. split; [|done]. intros (us & o & Hu). destruct (Hs o) as [_ H']. destruct H' as [? _]; [by exists us|done].
  - destruct (Hs s) as [H' _]. destruct H' as (us & Hsp & Hon & Hap); [done|].
    assert (options_ok s) as Hok by (eapply applies_ok; [exact Hcwd| |exact Hap|apply defaults_ok]; by eapply spells_values; [apply opts_ok| |exact Hsp]).
    destruct (start_runs s Hok) as (r & -> & Hne & Hr). exists r. split; [done|]. destruct (finished r) eqn:Ef; try (by exists us, s). by destruct (Hne e).
Qed.
End MainProofs.

(** ** A SOCKS session from a stored list, and a list fetched and shown *)

Module Demo.

#[local] Existing Instance demo_rsa.
#[local] Existing Instance Toy.toy_openssl.
#[local] Existing Instance Toy.toy_laws.
#[local] Existing Instance Oidc.Demo.toy_hmac.
#[local] Existing Instance OidcConfig.Demo.toy_gcm.
#[local] Existing Instance OidcConnect.Demo.dotted_only.

Definition stored : bytes := quoted (lit "{'domain':'d','servers':[{'name':'A','host':'10.1.2.3','port':443,'username':'u1','passWord':'p4ss'}]}").

Definition machine : Machine := {|
  m_cli := OidcSave.Demo.demo_os; m_gate := OidcSave.Demo.demo_os; m_joined := OidcSave.Demo.demo_os; m_save := OidcSave.Demo.demo_os;
  m_home := {| sudo_user := Some (lit "u"); getpwnam := fun _ => Some (lit "/home/u"); getpwuid := None; home_env := None |};
  m_root := true; m_env := OidcConfig.Demo.env; m_files := ∅; m_crypto := true; m_config := fun _ => Some stored; m_routes := fun _ => F_missing;
  m_world := OidcConnect.Demo.world; m_turns := 5
|}.

Lemma machine_is_ok : machine_ok machine.
Proof.
  assert (cwd_ok (os_cwd OidcSave.Demo.demo_os)) as Hc by (intros d [= <-]; split; [apply (bool_decide_unpack _); vm_compute; exact I|by eexists]). split.
  - by split_and!.
  - exact OidcConfig.Demo.list_env_bytes.
  - intros d [= <-]. apply (bool_decide_unpack _). vm_compute. exact I.
  - intros p b [= <-]. apply (bool_decide_unpack _). vm_compute. exact I.
  - exact OidcConnect.Demo.turn_bytes.
Qed.

Definition line1 : list bytes := [lit "-c"; lit "--socks"; lit "--server=A"; lit "--allow-remote"; lit "--socks-token"; lit "pw"; lit "--socks-mtu=1500"].
Definition line2 : list bytes := [lit "--config-dir"; lit "~/x/.."; lit "-f"; lit "-l"].

Lemma main_safe_witness :
  (exists r, main machine line1 = Ret r /\ finished r = M_connect E_stopped /\ map (fun e => match e with Ev_socks k c => Some (k, mtu c, auth_token c) | _ => None end) (events r) !! 2%nat = Some (Some (0%nat, 1400, Some (lit "pw")))) /\
  (exists r, main machine [lit "-c"; lit "--socks"; lit "--allow-remote"] = Ret r /\ finished r = M_usage U_remote) /\
  exists r, main machine line2 = Ret r /\
    match finished r with
    | M_exit _ => (~ exists us o, spells (opts (m_cli machine)) oidc_ctl line2 us /\ once us /\ applies us defaults o) /\
        calls r = [] /\ printed r = [] /\ events r = []
    | f => exists us o, spells (opts (m_cli machine)) oidc_ctl line2 us /\ once us /\ applies us defaults o /\
             ((stops machine (listening o) f /\ calls r = [] /\ printed r = [] /\ events r = []) \/ run_ok machine (listening o) r)
    end.
Proof.
  split; [eexists; split_and!; vm_compute; reflexivity|]. split; [eexists; split; vm_compute; reflexivity|].
  apply (main_safe machine machine_is_ok line2). apply (bool_decide_unpack _). vm_compute. exact I.
Defined.

(** The second command line stores two servers and shows them. *)
Lemma fetch_and_show : exists r, main machine line2 = Ret r /\ finished r = M_done /\ length (filter (fun c => acting c = true) (calls r)) = 7%nat /\
  printed r = typed [lit " 1. A" ++ quoted (lit "'}],?                         h1:443"); lit " 2. B                              :6001"].
Proof. eexists. split_and!; vm_compute; reflexivity. Qed.

End Demo.
